(* ===== verification/_CoqProject ===== *)
-Q . S2P
Prelude.v
Varint.v
Buf.v
BufFacts.v
BufSeek.v
BufSpec.v
Slice.v
SliceFacts.v
CrcTheory.v
Crc.v
Reader.v
Crc32c.v
RdList.v
RdListSpec.v
Proto.v
Header.v
Msg.v
MsgqSpec.v
KBuf.v
KBufFacts.v
Queue.v
MsgsetReader.v
KBufWrite.v
MsgsetWriter.v
WriterSpec.v
ReaderSpec.v
BatchSpec.v
FetchSpec.v
CrcError.v
ProduceSpec.v
FinalizeSpec.v
RoundTrip.v
HeaderParse.v
Partitioner.v
CurrMsgs.v
Produce.v
ProduceApi.v
PartList.v
Assignor.v
AssignorSpec.v
Avl.v
AvlSpec.v
Timer.v
TimerSpec.v
MetadataCache.v
MetadataCacheSpec.v
Monitor.v
MonitorSpec.v
MonitorRuns.v
Hdr.v
HdrSpec.v
CgrpState.v
Cgrp.v
CgrpInv.v
CgrpSafe.v
CgrpSpec.v
Feature.v
FeatureSpec.v
BrokerState.v
Broker.v
BrokerInv.v
BrokerConn.v
BrokerScan.v
BrokerSend.v
BrokerFrame.v
BrokerRecv.v
BrokerRun.v
BrokerSpec.v
TopparState.v
Toppar.v
TopparInv.v
TopparMigr.v
TopparView.v
TopparFlow.v
TopparSpec.v
