(* ===== verification/Prelude.v ===== *)
(** * A verification library for O-Log

    O-Log moves market data logs through Kafka and watches them.  Its own
    program is the monitor (src/rdkafka/*.cpp): an event loop consumes feeds,
    two processors report late, missing and implausible ones, and a backup
    thread commits the offsets of what was processed.  The monitor stands on
    librdkafka-PrintPoint, the repository's copy of the Kafka client library in
    C (src/rdkafka/librdkafka-PrintPoint/src), which is most of the code: it
    builds the requests and parses the responses of the Kafka protocol, queues
    messages and operations between the application's threads and its own, and
    keeps the state of topics, partitions and groups.  This library models the
    data path from a produce call to the messages a consumer gets, the data
    structures it is built from, the threads that fetch for a partition and talk
    to a broker, a number of the client's services, and the monitor.

    ** Conventions

    A C function that cannot fail abnormally is a Rocq function; any other
    returns an [outcome] (this file): a value, a crash (failed assertion, NULL
    dereference, undefined behaviour) or divergence.  Error codes are values, as
    in the code.  Integers are [Z] at their width: [u32], [s64], ... write the
    wrap-around where the code can reach it.  Memory shared through pointers is
    a map from ids to values when aliasing matters (messages of the monitor,
    timers, cache entries), and a plain value when it does not.  Everything is
    executable: the examples and witnesses are evaluated.

    Loops whose recursion is not structural take fuel, and running out of it is
    divergence, so that the theorems below, which say that an operation returns,
    also say that the fuel was enough: [list_fuel] is the number of elements and
    one, [slice_fuel] the size of the buffer and one (every round consumes a
    byte), [msetr_fuel] the bytes of the slice (every MessageSet and message
    has a header), [avl_fuel] the height and two (every rotation descends),
    [dispatch_fuel] the number of timers and one (a pass runs a timer at most
    once), [rd_kafka_timers_run] takes as many rounds as microseconds and two (the
    clock moves in every round), the loop over a reorder queue its length,
    [iter_fuel] the number of counters and one, the sizing loop of a histogram
    64 doublings, [serve_state] of a consumer group two passes (the jump back is
    taken after a change of state that the second pass does not undo),
    [rd_kafka_broker_fail] two entries (the callbacks of the requests it answers
    find the broker down already), the scans of a broker's queues twice their
    length, the loops that send and retry the length of the queue, a call that
    consumes the length of the partition's queue.

    ** Files

    Foundations.
    - Prelude.v: outcomes, machine integers, generic lemmas, automation.
    - Varint.v: rdvarint.h.
    - Buf.v: rdbuf.h and the writer half of rdbuf.c; BufFacts.v and BufSeek.v its
      invariant, BufSpec.v the refinement of a byte array with a write position.
    - Slice.v, SliceFacts.v: the reader half of rdbuf.c; Reader.v: the interface
      [ByteSource] between slices and their clients, and its instance.
    - CrcTheory.v, Crc.v (rdcrc32), Crc32c.v (crc32c.c): table-driven CRCs and
      the bit-by-bit reference.
    - RdList.v, RdListSpec.v: rdlist.c and the refinement of a list.
    - Avl.v, AvlSpec.v: rdavl.c and the refinement of a finite map.
    - Hdr.v, HdrSpec.v: rdhdrhistogram.c and rdavg.h.

    Messages.
    - Proto.v: rdkafka_proto.h.  Header.v: rdkafka_header.c; HeaderParse.v: the
      header functions of rdkafka_msg.c.
    - Msg.v: rdkafka_msg.h and the queue operations of rdkafka_msg.c and
      rdkafka_partition.c; MsgqSpec.v: counters, conservation, order.
    - KBuf.v, KBufFacts.v, KBufWrite.v: rdkafka_buf.h, reading and writing.
    - Queue.v: rdkafka_op.c, rdkafka_queue.c and the refinement of one FIFO per
      priority.

    The consumer's and the producer's data path.
    - MsgsetReader.v: rdkafka_msgset_reader.c.  ReaderSpec.v, BatchSpec.v,
      FetchSpec.v: what it delivers from well-formed MessageSets; CrcError.v: what
      it does after a bad checksum.
    - MsgsetWriter.v: rdkafka_msgset_writer.c.  WriterSpec.v, ProduceSpec.v,
      FinalizeSpec.v: the bytes of a Produce request; RoundTrip.v: producer to
      consumer.
    - Partitioner.v: rdmurmur2.c and the partitioners of rdkafka_msg.c.
    - CurrMsgs.v: the queue limits of rdkafka_int.h, as a step relation.
    - Produce.v, ProduceApi.v: rd_kafka_produce, rd_kafka_producev and
      rd_kafka_produce_batch.

    Services.
    - PartList.v: the topic-partition lists of rdkafka_partition.c.
    - Assignor.v, AssignorSpec.v: rdkafka_assignor.c, the range and the
      round-robin assignor.
    - Timer.v, TimerSpec.v: rdkafka_timer.c.
    - MetadataCache.v, MetadataCacheSpec.v: rdkafka_metadata_cache.c.
    - CgrpState.v: the state of a consumer group (rdkafka_cgrp.h) with what it
      has outstanding at brokers, partitions and the application; Cgrp.v: one
      definition per function of rdkafka_cgrp.c, the contents of responses and
      the decisions of other parts (record [env]) as arguments.  CgrpInv.v: the
      invariant ([base] for the counters, [mode] for the join state), kept by
      every function; CgrpSafe.v: the discipline [event_ok] of the surroundings
      and the invariant of every run; CgrpSpec.v: the theorems.
    - Feature.v, FeatureSpec.v: rdkafka_feature.c, the negotiation of versions and
      the responses to ApiVersion and SaslHandshake requests.
    - BrokerState.v: the state of a broker thread (rdkafka_broker.h), what the
      socket took and gave, and where every request is; Broker.v: one definition
      per function of rdkafka_broker.c and rdkafka_buf.c on the way of a request
      from its enqueueing to its callback, the framing of rdkafka_transport.c,
      connecting, failing, timeouts and retries, the results of system calls as
      arguments.  BrokerInv.v: the invariant; BrokerConn.v, BrokerScan.v,
      BrokerSend.v, BrokerFrame.v, BrokerRecv.v: every function keeps it;
      BrokerRun.v: what is [promised] by the surroundings, what the thread itself
      does not handle ([handled]), and runs; BrokerSpec.v: the theorems.
    - TopparState.v: the state of a consumed partition (rdkafka_partition.h), by
      the thread that owns it, and what is outstanding elsewhere; Toppar.v: start,
      stop, seek, pause and resume, offset lookups, resets and commits
      (rdkafka_partition.c, rdkafka_offset.c), fetching and its responses and the
      moves between brokers (rdkafka_broker.c), consuming (rdkafka.c), as steps
      of three threads.  TopparInv.v: messages and versions; TopparMigr.v: moves;
      TopparView.v: the abstract consumer [view] and the relation [Seen] with the
      threads; TopparFlow.v: progress; TopparSpec.v: the theorems, with the
      parser of FetchSpec.v as the source of messages.

    The application.
    - Monitor.v: the processors, contexts, messages, event loop and backup
      thread of src/rdkafka; MonitorSpec.v: invariants of a round;
      MonitorRuns.v: whole runs.

    ** Theorems

    - Round trips: varints, headers, and produce to fetch: what the producer
      writes, stored by a broker that stamps its offsets, is what the consumer's
      parser delivers (RoundTrip.v).
    - Exact wire formats: every message writer appends exactly the encoding of
      the message, and a Produce request is exactly the specified bytes.
    - Refinement: buffers, lists, header lists, op queues, topic-partition lists,
      the AVL tree and the metadata cache implement, for every legal sequence of
      operations, the abstract object they stand for.
    - Equivalence: CRC-32, CRC-32C and MurmurHash2 agree with references that are
      independent of tables and of memory layout.
    - Conservation and order: no message is lost or duplicated between the
      queues of a partition, retries keep the order, batches account for
      every message.
    - Bounds: partitioners stay in range; a histogram's quantile is within its
      significant figures of the true one, or within the lowest trackable value
      where that is larger.
    - Termination and liveness: timers whose times lie within 2^31 microseconds
      fire when due, and dispatching returns when the clock moves on or nothing is
      waited for; a producer blocked by the message limit is woken.
    - The consumed partition: whatever is called, what the application gets in a
      version of the partition is the log from where the fetcher started, without
      a gap or a duplicate; for a disciplined application the three threads
      refine a position in the log, and the expected message is delivered; every
      move between brokers ends.  What the discipline excludes is shown to go
      wrong.
    - The consumer group: in every run that keeps the discipline no assertion
      fails, the counters of stops and commits are exact, what is fetched follows
      the assignment, a wait has something to wait for, and a terminating group
      with nothing outstanding terminates.  A failed commit that the start of the
      fetchers waits for keeps a group from fetching.
    - The broker thread: in every run that keeps the discipline no request is lost
      or finished twice and none is sent more often than its retries allow; the
      bytes of a connection are whole requests, which the server can take apart;
      responses are put together however they arrive and go to the request they
      answer; what is due at a scan is answered.  The promises are that the
      clock does not read 0, that correlation ids do not wrap within a run, that
      requests and configuration are within their limits and that the responses
      that set up a connection do not crash their parsers.  Two situations of the
      thread's own are excluded too: a due request of the connection's set-up in
      front of another in the send queue, and a partly sent request when a
      terminating client scans; [broker_thread_defects] shows both to go wrong.
    - Versions: the version a request is sent in is the highest that both sides
      know, features are exactly those whose requests are supported, and the
      table of an ApiVersion response is read as it was written.
    - The monitor: offsets are committed at least once and never past a feed
      that is held back; feeds that overtake each other are put in order.  A late
      feed holds back its partition for ever, and a backup between queueing and
      processing deletes a message in use unless an earlier one is held back.
    - Defects: theorems that show where the code does not do what it means to
      (resynchronisation after a bad CRC, lost wake-ups, the assignors with unequal
      subscriptions, timers more than 2^31 microseconds apart, expired cache
      hints, late feeds and the backup race of the monitor, histogram ranges,
      events that make the assertions of the consumer group fail and states it
      does not leave, a timeout scan that goes on in a queue that was emptied, a
      partly sent request that is dropped without closing the connection, calls
      on a partition that undo each other).

    ** Not modelled

    Code that only does input and output or calls other libraries: sockets and
    polling (rdkafka_transport.c), SASL and SSL, configuration tables and their
    printing (rdkafka_conf.c), statistics output (rdkafka.c), plugins, logging,
    the C++ wrapper (src-cpp), examples and tests.  Vendored code is not O-Log's:
    lz4, snappy, xxhash, regexp, tinycthread, jsoncpp, tinyxml; the codecs are
    parameters of the reader and the writer.  Of the broker thread the serving of
    producers, the selection of brokers, the SSL handshake and the bytes of the
    SASL exchange are left out, and a client's callback retries or finishes its
    request and does nothing else; of the consumed partition the encoding of
    Fetch requests and of the responses around the MessageSets, forwarded queues,
    removal and a terminating client; of the consumer group the metadata query
    before a join, the encoding of the member data and the message counters.
    Metadata requests, the admin client, the remaining request builders and offset
    files are not modelled, and what they do with the modelled data structures is
    not claimed here.  The Java stream program, the Python scripts and the
    configuration of the log shippers are other languages. *)
From Stdlib Require Import ZArith Lia.
From stdpp Require Import base numbers list.

#[global] Open Scope Z_scope.

(** ** Outcome of a C function

    [Ret a] is a normal return.  [Crash] stands for everything that ends the
    run abnormally: a failed [rd_assert], a NULL dereference, undefined
    behaviour.  [Diverge] is reported by loops that run out of fuel. *)
Inductive outcome (A : Type) : Type :=
| Ret (a : A)
| Crash
| Diverge.
Arguments Ret {A} a.
Arguments Crash {A}.
Arguments Diverge {A}.

Definition obind {A B} (m : outcome A) (k : A -> outcome B) : outcome B :=
  match m with
  | Ret a => k a
  | Crash => Crash
  | Diverge => Diverge
  end.

Definition is_ret {A} (m : outcome A) : bool :=
  match m with Ret _ => true | _ => false end.

Declare Scope rdk_scope.
Delimit Scope rdk_scope with rdk.
Notation "'let!' x ':=' m 'in' k" := (obind m (fun x => k))
  (at level 10, x pattern, m at level 100, k at level 200,
   format "'[v' 'let!'  x  ':='  m  'in' '/' k ']'") : rdk_scope.
Notation "'assert!' b 'in' k" := (if b then k else Crash)
  (at level 10, b at level 100, k at level 200) : rdk_scope.
#[global] Open Scope rdk_scope.

(** ** Machine integers

    A [w]-bit unsigned integer is a [Z] in [0, 2^w); a signed one is a [Z] in
    [-2^(w-1), 2^(w-1)).  The wrap-around is written out where the code can
    reach it. *)
Definition uwrap (w z : Z) : Z := z mod 2 ^ w.
Definition swrap (w z : Z) : Z := (z + 2 ^ (w - 1)) mod 2 ^ w - 2 ^ (w - 1).

Abbreviation u8 := (uwrap 8).
Abbreviation u16 := (uwrap 16).
Abbreviation u32 := (uwrap 32).
Abbreviation u64 := (uwrap 64).
Abbreviation s8 := (swrap 8).
Abbreviation s16 := (swrap 16).
Abbreviation s32 := (swrap 32).
Abbreviation s64 := (swrap 64).

Definition SIZE_MAX : Z := 2 ^ 64 - 1.

Definition u_ok (w z : Z) : Prop := 0 <= z < 2 ^ w.
Definition s_ok (w z : Z) : Prop := - 2 ^ (w - 1) <= z < 2 ^ (w - 1).
Definition byte_ok (b : Z) : Prop := u_ok 8 b.
Abbreviation bytes_ok := (Forall byte_ok).

Create HintDb rdk discriminated.
Create HintDb rdk_rw.

Lemma uwrap_ok w z : 0 <= w -> u_ok w (uwrap w z).
Proof. intros. apply Z.mod_pos_bound. lia. Qed.

Lemma uwrap_id w z : u_ok w z -> uwrap w z = z.
Proof. apply Z.mod_small. Qed.

Lemma pow2_half w : 1 <= w -> 2 ^ w = 2 * 2 ^ (w - 1).
Proof. intros. rewrite <- Z.pow_succ_r by lia. f_equal. lia. Qed.

Lemma swrap_ok w z : 1 <= w -> s_ok w (swrap w z).
Proof.
  intros Hw. unfold s_ok, swrap. pose proof (pow2_half w Hw).
  pose proof (Z.mod_pos_bound (z + 2 ^ (w - 1)) (2 ^ w)). lia.
Qed.

Lemma swrap_id w z : 1 <= w -> s_ok w z -> swrap w z = z.
Proof.
  intros Hw [? ?]. unfold swrap. pose proof (pow2_half w Hw).
  rewrite Z.mod_small by lia. lia.
Qed.

(** A signed value and its unsigned reinterpretation are congruent. *)
Lemma swrap_cong w z : 1 <= w -> uwrap w (swrap w z) = uwrap w z.
Proof.
  intros Hw. unfold uwrap, swrap. rewrite Zminus_mod_idemp_l. f_equal. lia.
Qed.

Lemma uwrap_add_multiple w z k : 0 <= w -> uwrap w (z + k * 2 ^ w) = uwrap w z.
Proof. intros. apply Z_mod_plus_full. Qed.

#[export] Hint Resolve uwrap_ok swrap_ok : rdk.
#[export] Hint Extern 1 (0 <= _) => lia : rdk.
#[export] Hint Extern 1 (1 <= _) => lia : rdk.

(** ** Bit operations *)

Lemma land_pow2_ones a n : 0 <= n -> Z.land a (2 ^ n - 1) = a mod 2 ^ n.
Proof. intros. rewrite <- Z.land_ones, Z.ones_equiv by lia. f_equal. Qed.

(** Or-ing a value above the bits of [a] adds it. *)
Lemma lor_shiftl_add a c s :
  0 <= s -> 0 <= a < 2 ^ s -> Z.lor a (Z.shiftl c s) = a + c * 2 ^ s.
Proof.
  intros Hs Ha. rewrite <- Z.add_nocarry_lor.
  - rewrite Z.shiftl_mul_pow2 by lia. lia.
  - apply Z.bits_inj'. intros i Hi. rewrite Z.land_spec, Z.bits_0.
    destruct (Z.lt_ge_cases i s).
    + rewrite Z.shiftl_spec_low by lia. apply andb_false_r.
    + rewrite <- (Z.mod_small a (2 ^ s)) by lia.
      rewrite Z.mod_pow2_bits_high by lia. reflexivity.
Qed.

Lemma u_ok_land w x : 0 <= w -> u_ok w x -> Z.land x (2 ^ w - 1) = x.
Proof. intros ? [? ?]. rewrite land_pow2_ones by lia. apply Z.mod_small. lia. Qed.

Lemma u_ok_testbit w x : 0 <= w -> 0 <= x -> (u_ok w x <-> forall i, w <= i -> Z.testbit x i = false).
Proof.
  intros Hw Hx. split.
  - intros [_ Hlt] i Hi. rewrite <- (Z.mod_small x (2 ^ w)) by lia.
    apply Z.mod_pow2_bits_high. lia.
  - intros Hb. assert (x = x mod 2 ^ w) as ->.
    { apply Z.bits_inj'. intros i Hi. destruct (Z.lt_ge_cases i w).
      - by rewrite Z.mod_pow2_bits_low.
      - rewrite Z.mod_pow2_bits_high by lia. auto. }
    apply uwrap_ok. lia.
Qed.

Lemma lxor_u_ok w x y : 0 <= w -> u_ok w x -> u_ok w y -> u_ok w (Z.lxor x y).
Proof.
  intros Hw [? ?] [? ?].
  assert (0 <= Z.lxor x y) by (apply Z.lxor_nonneg; lia).
  apply u_ok_testbit; [done..|]. intros i Hi. rewrite Z.lxor_spec.
  rewrite (proj1 (u_ok_testbit w x Hw ltac:(lia))), (proj1 (u_ok_testbit w y Hw ltac:(lia)));
    unfold u_ok; done || lia.
Qed.

Lemma shiftr_u_ok w x n : 0 <= n -> u_ok w x -> u_ok w (Z.shiftr x n).
Proof.
  intros Hn [? ?]. rewrite Z.shiftr_div_pow2 by lia.
  assert (0 < 2 ^ n) by (apply Z.pow_pos_nonneg; lia).
  split; [apply Z.div_pos; lia|]. apply Z.le_lt_trans with x; [|lia].
  apply Z.div_le_upper_bound; [lia|]. nia.
Qed.

Lemma lor_u_ok w x y : 0 <= w -> u_ok w x -> u_ok w y -> u_ok w (Z.lor x y).
Proof.
  intros Hw [? ?] [? ?].
  assert (0 <= Z.lor x y) by (apply Z.lor_nonneg; lia).
  apply u_ok_testbit; [done..|]. intros i Hi. rewrite Z.lor_spec.
  rewrite (proj1 (u_ok_testbit w x Hw ltac:(lia))), (proj1 (u_ok_testbit w y Hw ltac:(lia)));
    unfold u_ok; done || lia.
Qed.

(** A decidable property of every byte is checked by enumeration. *)
Lemma byte_forall (P : Z -> bool) :
  forallb P (seqZ 0 256) = true -> forall b, byte_ok b -> P b = true.
Proof.
  intros H b [? ?]. rewrite forallb_forall in H. apply H.
  apply list_elem_of_In, elem_of_seqZ. lia.
Qed.

Lemma land_0x80 b : byte_ok b -> Z.land b 0x80 = (if b <? 128 then 0 else 128).
Proof.
  intros Hb. apply Z.eqb_eq.
  apply (byte_forall (fun b => Z.land b 0x80 =? (if b <? 128 then 0 else 128))); [|done].
  vm_compute. reflexivity.
Qed.

(** ** Lists indexed by [Z] *)

Abbreviation zlen l := (Z.of_nat (length l)).

Definition ztake {A} (n : Z) (l : list A) : list A := take (Z.to_nat n) l.
Definition zdrop {A} (n : Z) (l : list A) : list A := drop (Z.to_nat n) l.

Lemma zlen_nonneg {A} (l : list A) : 0 <= zlen l.
Proof. lia. Qed.

Lemma zlen_ztake {A} n (l : list A) : 0 <= n <= zlen l -> zlen (ztake n l) = n.
Proof. intros. unfold ztake. rewrite length_take. lia. Qed.

Lemma zlen_zdrop {A} n (l : list A) : 0 <= n <= zlen l -> zlen (zdrop n l) = zlen l - n.
Proof. intros. unfold zdrop. rewrite length_drop. lia. Qed.

Lemma ztake_nil {A} n : ztake n ([] : list A) = [].
Proof. apply take_nil. Qed.

Lemma zdrop_nil {A} n : zdrop n ([] : list A) = [].
Proof. apply drop_nil. Qed.

Lemma ztake_zdrop {A} n (l : list A) : ztake n l ++ zdrop n l = l.
Proof. apply take_drop. Qed.

(** ** Automation

    [case_if] splits on the first boolean test of the goal and turns the test
    into a proposition; [bool_hyps] does the latter for hypotheses;
    [outcome_inv] inverts a chain of binds that returned. *)
Ltac bool_hyps :=
  repeat match goal with
  | H : (_ && _)%bool = true |- _ => apply andb_true_iff in H; destruct H
  | H : (_ || _)%bool = false |- _ => apply orb_false_iff in H; destruct H
  | H : (_ =? _) = true |- _ => apply Z.eqb_eq in H
  | H : (_ =? _) = false |- _ => apply Z.eqb_neq in H
  | H : (_ <? _) = true |- _ => apply Z.ltb_lt in H
  | H : (_ <? _) = false |- _ => apply Z.ltb_ge in H
  | H : (_ <=? _) = true |- _ => apply Z.leb_le in H
  | H : (_ <=? _) = false |- _ => apply Z.leb_gt in H
  | H : (_ >? _) = _ |- _ => rewrite Z.gtb_ltb in H
  | H : (_ >=? _) = _ |- _ => rewrite Z.geb_leb in H
  | H : negb _ = true |- _ => apply negb_true_iff in H
  | H : negb _ = false |- _ => apply negb_false_iff in H
  end.

Ltac case_if :=
  match goal with
  | |- context [if ?b then _ else _] =>
      let E := fresh "E" in destruct b eqn:E; bool_hyps
  end.

Ltac case_if_in H :=
  match type of H with
  | context [if ?b then _ else _] =>
      let E := fresh "E" in destruct b eqn:E; bool_hyps
  end.

Lemma obind_ret_inv {A B} (m : outcome A) (k : A -> outcome B) b :
  obind m k = Ret b -> exists a, m = Ret a /\ k a = Ret b.
Proof. destruct m; simpl; intros; try discriminate. eauto. Qed.

Ltac outcome_inv :=
  repeat match goal with
  | H : Ret _ = Ret _ |- _ => injection H as H
  | H : Crash = Ret _ |- _ => discriminate H
  | H : Diverge = Ret _ |- _ => discriminate H
  | H : obind _ _ = Ret _ |- _ =>
      let a := fresh "a" in let Ha := fresh "Ha" in
      apply obind_ret_inv in H; destruct H as (a & Ha & H)
  end.

(** ** Safe outcomes

    [safe m Q]: [m] neither crashes nor diverges, and its value satisfies [Q]. *)
Definition safe {A} (m : outcome A) (Q : A -> Prop) : Prop := match m with Ret a => Q a | _ => False end.

Lemma safe_bind {A B} (m : outcome A) (f : A -> outcome B) (P : A -> Prop) (Q : B -> Prop) :
  safe m P -> (forall a, P a -> safe (f a) Q) -> safe (obind m f) Q.
Proof. destruct m; simpl; intros; [auto|contradiction..]. Qed.

Lemma safe_mono {A} (m : outcome A) (P Q : A -> Prop) : safe m P -> (forall a, P a -> Q a) -> safe m Q.
Proof. destruct m; simpl; auto. Qed.

Lemma safe_ret {A} (m : outcome A) (Q : A -> Prop) : safe m Q -> exists a, m = Ret a /\ Q a.
Proof. destruct m; simpl; [eauto|contradiction..]. Qed.
