(* ===== verification/Varint.v ===== *)
(** * Variable-length integers: rdvarint.h

    The unsigned varint encoder and decoder over raw memory, and the zig-zag
    signed variants built on them.  A destination buffer is the list of bytes
    written to it so far; a source buffer of size [srcsize] is a list of
    [srcsize] bytes.  The slice decoder of rdvarint.c is in [Slice]. *)
From Stdlib Require Import ZArith Lia.
From stdpp Require Import base numbers list.
From S2P Require Import Prelude.

(** ** Code *)

(** The do-while loop of [rd_uvarint_enc_u64]: the value returned and the
    bytes of [dst] that have been written. *)
Fixpoint uvarint_enc_loop (fuel : nat) (dstsize off num : Z) (dst : list Z)
  : outcome (Z * list Z) :=
  match fuel with
  | O => Diverge
  | S fuel =>
      if off >=? dstsize then Ret (0, dst)
      else
        let dst := dst ++ [Z.lor (Z.land num 0x7f) (if num >? 0x7f then 0x80 else 0)] in
        let off := off + 1 in
        let num := Z.shiftr num 7 in
        if num =? 0 then Ret (off, dst)
        else uvarint_enc_loop fuel dstsize off num dst
  end.

(** A 64-bit value has at most ten groups of seven bits. *)
Definition UVARINT_FUEL : nat := 10.

Definition rd_uvarint_enc_u64 (dstsize num : Z) : outcome (Z * list Z) :=
  uvarint_enc_loop UVARINT_FUEL dstsize 0 num [].

(** [(num << 1) ^ (num >> 63)] on [int64_t], passed as [uint64_t]. *)
Definition zigzag64 (num : Z) : Z :=
  u64 (Z.lxor (s64 (Z.shiftl num 1)) (Z.shiftr num 63)).

Definition rd_uvarint_enc_i64 (dstsize num : Z) : outcome (Z * list Z) :=
  rd_uvarint_enc_u64 dstsize (zigzag64 num).

Definition rd_uvarint_enc_i32 (dstsize num : Z) : outcome (Z * list Z) :=
  rd_uvarint_enc_i64 dstsize num.

Definition RD_UVARINT_OVERFLOW (r : Z) : bool := r >? SIZE_MAX.
Definition RD_UVARINT_UNDERFLOW (r : Z) : bool := r =? 0.
Definition RD_UVARINT_DEC_FAILED (r : Z) : bool :=
  RD_UVARINT_UNDERFLOW r || RD_UVARINT_OVERFLOW r.

Definition RD_UVARINT_ENC_SIZEOF (size : Z) : Z := size + 1 + size / 7.
Definition RD_UVARINT_ENC_SIZE_0 : Z := 1.

(** The do-while loop of [rd_uvarint_dec].  The second component is the value
    stored through [nump], if any.  Shifting a 64-bit value by 64 or more is
    undefined behaviour. *)
Fixpoint uvarint_dec_loop (src : list Z) (off num shift : Z) : outcome (Z * option Z) :=
  match src with
  | [] => Ret (0, None)
  | b :: src =>
      if shift >=? 64 then Crash
      else
        let num := Z.lor num (u64 (Z.shiftl (Z.land b 0x7f) shift)) in
        let shift := shift + 7 in
        let off := off + 1 in
        if Z.land b 0x80 =? 0 then Ret (off, Some num)
        else uvarint_dec_loop src off num shift
  end.

Definition rd_uvarint_dec (src : list Z) : outcome (Z * option Z) :=
  uvarint_dec_loop src 0 0 0.

(** [(int64_t)(n >> 1) ^ -(int64_t)(n & 1)] *)
Definition unzigzag64 (n : Z) : Z :=
  s64 (Z.lxor (s64 (Z.shiftr n 1)) (- s64 (Z.land n 1))).

Definition rd_varint_dec_i64 (src : list Z) : outcome (Z * option Z) :=
  let! (r, n) := rd_uvarint_dec src in
  Ret (r, if negb (RD_UVARINT_DEC_FAILED r) then unzigzag64 <$> n else None).

(** ** Specification: little-endian base-128 digits with continuation bits *)
Fixpoint uvarint_digits (fuel : nat) (num : Z) : list Z :=
  match fuel with
  | O => []
  | S fuel =>
      if num <? 0x80 then [num]
      else (num mod 128 + 128) :: uvarint_digits fuel (num / 128)
  end.

Definition uvarint_bytes (num : Z) : list Z := uvarint_digits UVARINT_FUEL num.

(** ** Lemmas *)

Lemma uvarint_digits_pos fuel num : fuel <> O -> (1 <= length (uvarint_digits fuel num))%nat.
Proof. destruct fuel; [done|]. simpl. case_if; simpl; lia. Qed.

Lemma uvarint_digits_le fuel num : (length (uvarint_digits fuel num) <= fuel)%nat.
Proof.
  revert num; induction fuel as [|f IH]; intros num; simpl; [lia|].
  case_if; simpl; [lia|]. specialize (IH (num / 128)). lia.
Qed.

Lemma uvarint_digits_ok fuel num : 0 <= num -> bytes_ok (uvarint_digits fuel num).
Proof.
  revert num; induction fuel as [|f IH]; intros num Hn; simpl; [constructor|].
  case_if; constructor.
  - unfold byte_ok, u_ok. lia.
  - constructor.
  - unfold byte_ok, u_ok. pose proof (Z.mod_pos_bound num 128). lia.
  - apply IH. apply Z.div_pos; lia.
Qed.

(** The byte written by one iteration of the encoder. *)
Lemma enc_byte num :
  0 <= num ->
  Z.lor (Z.land num 0x7f) (if num >? 0x7f then 0x80 else 0)
  = if num <? 0x80 then num else num mod 128 + 128.
Proof.
  intros Hn. change 0x7f with (2 ^ 7 - 1) at 1. rewrite land_pow2_ones by lia.
  change (2 ^ 7) with 128. rewrite Z.gtb_ltb.
  destruct (Z.ltb_spec num 128), (Z.ltb_spec 127 num); try lia.
  - rewrite Z.lor_0_r. apply Z.mod_small. lia.
  - pose proof (lor_shiftl_add (num mod 128) 1 7 ltac:(lia)) as Hor.
    change (Z.shiftl 1 7) with 128 in Hor. change (2 ^ 7) with 128 in Hor.
    rewrite Hor; pose proof (Z.mod_pos_bound num 128); lia.
Qed.

Lemma shiftr7 num : Z.shiftr num 7 = num / 128.
Proof. rewrite Z.shiftr_div_pow2 by lia. reflexivity. Qed.

(** The encoder loop writes the digits, or as many as fit and reports 0. *)
Lemma uvarint_enc_loop_spec fuel dstsize off num dst :
  0 <= num < 128 ^ Z.of_nat fuel -> fuel <> O ->
  let bs := uvarint_digits fuel num in
  uvarint_enc_loop fuel dstsize off num dst =
    Ret (if off + zlen bs <=? dstsize then (off + zlen bs, dst ++ bs)
         else (0, dst ++ ztake (dstsize - off) bs)).
Proof.
  revert off num dst; induction fuel as [|f IH]; intros off num dst Hn Hf; [done|].
  cbn [uvarint_enc_loop uvarint_digits]. rewrite enc_byte, shiftr7 by lia.
  rewrite Z.geb_leb. destruct (Z.leb_spec dstsize off) as [Hfull|Hroom].
  { pose proof (uvarint_digits_pos (S f) num ltac:(done)) as Hpos.
    cbn [uvarint_digits] in Hpos.
    destruct (Z.leb_spec (off + zlen (if num <? 128 then [num]
       else num mod 128 + 128 :: uvarint_digits f (num / 128))) dstsize); [lia|].
    unfold ztake. replace (Z.to_nat (dstsize - off)) with O by lia.
    by rewrite take_0, app_nil_r. }
  destruct (Z.ltb_spec num 128) as [Hlt|Hge].
  { rewrite Z.div_small, Z.eqb_refl by lia. cbn [length]. change (Z.of_nat 1) with 1.
    destruct (Z.leb_spec (off + 1) dstsize); [done|lia]. }
  assert (1 <= num / 128) by (apply Z.div_le_lower_bound; lia).
  destruct (Z.eqb_spec (num / 128) 0); [lia|].
  assert (Hpow : 128 ^ Z.of_nat (S f) = 128 * 128 ^ Z.of_nat f)
    by (rewrite Nat2Z.inj_succ, Z.pow_succ_r; lia).
  assert (f <> O) by (intros ->; change (128 ^ Z.of_nat 1) with 128 in Hn; lia).
  rewrite IH; [| split; [lia|apply Z.div_lt_upper_bound; lia] | done].
  cbn [length]. rewrite Nat2Z.inj_succ.
  replace (off + 1 + zlen (uvarint_digits f (num / 128)))
    with (off + Z.succ (zlen (uvarint_digits f (num / 128)))) by lia.
  case_if; rewrite <- app_assoc; [done|].
  f_equal. f_equal. f_equal. unfold ztake.
  replace (Z.to_nat (dstsize - off)) with (S (Z.to_nat (dstsize - (off + 1)))) by lia.
  done.
Qed.

Lemma land_7f b : Z.land b 0x7f = b mod 128.
Proof. change 0x7f with (2 ^ 7 - 1). by rewrite land_pow2_ones. Qed.

(** One step of the decoder adds the seven low bits above the ones read. *)
Lemma dec_step acc b shift d :
  0 <= shift -> 0 <= acc < 2 ^ shift -> b mod 128 = d -> d * 2 ^ shift < 2 ^ 64 ->
  Z.lor acc (u64 (Z.shiftl (Z.land b 0x7f) shift)) = acc + d * 2 ^ shift.
Proof.
  intros Hs Ha <- Hlt. rewrite land_7f. rewrite uwrap_id.
  - by apply lor_shiftl_add.
  - rewrite Z.shiftl_mul_pow2 by lia. pose proof (Z.mod_pos_bound b 128).
    split; [|done]. nia.
Qed.

(** The decoder loop recovers the number from its digits and stops there. *)
Lemma uvarint_dec_loop_digits fuel num rest off acc shift :
  fuel <> O -> 0 <= num < 128 ^ Z.of_nat fuel ->
  0 <= shift < 64 -> 0 <= acc < 2 ^ shift -> num * 2 ^ shift < 2 ^ 64 ->
  uvarint_dec_loop (uvarint_digits fuel num ++ rest) off acc shift =
    Ret (off + zlen (uvarint_digits fuel num), Some (acc + num * 2 ^ shift)).
Proof.
  revert num off acc shift; induction fuel as [|f IH];
    intros num off acc shift Hf Hn Hs Ha Hlt; [done|].
  cbn [uvarint_digits]. destruct (Z.ltb_spec num 128) as [Hsm|Hbig].
  { cbn [app uvarint_dec_loop]. rewrite Z.geb_leb.
    destruct (Z.leb_spec 64 shift); [lia|].
    rewrite (dec_step _ _ _ num), land_0x80;
      [ | unfold byte_ok, u_ok; lia | lia | lia | apply Z.mod_small; lia | lia].
    destruct (Z.ltb_spec num 128); [|lia]. done. }
  pose proof (Z.mod_pos_bound num 128 ltac:(lia)) as Hm.
  pose proof (Z.div_mod num 128 ltac:(lia)) as Hdm.
  assert (1 <= num / 128) by (apply Z.div_le_lower_bound; lia).
  assert (Hpow : 128 ^ Z.of_nat (S f) = 128 * 128 ^ Z.of_nat f)
    by (rewrite Nat2Z.inj_succ, Z.pow_succ_r; lia).
  assert (Hp7 : 2 ^ (shift + 7) = 128 * 2 ^ shift)
    by (rewrite Z.pow_add_r by lia; change (2 ^ 7) with 128; lia).
  assert (0 < 2 ^ shift) by (apply Z.pow_pos_nonneg; lia).
  cbn [app uvarint_dec_loop]. rewrite Z.geb_leb.
  destruct (Z.leb_spec 64 shift); [lia|].
  rewrite (dec_step _ _ _ (num mod 128)), land_0x80;
    [ | unfold byte_ok, u_ok; lia | lia | lia
      | rewrite <- Zplus_mod_idemp_r; change (128 mod 128) with 0;
        rewrite Z.add_0_r; apply Z.mod_mod; lia | nia].
  destruct (Z.ltb_spec (num mod 128 + 128) 128); [lia|].
  change (128 =? 0) with false. cbn iota.
  assert (shift + 7 < 64).
  { apply (Z.pow_lt_mono_r_iff 2); [lia..|]. nia. }
  assert (f <> O) by (intros ->; change (128 ^ Z.of_nat 1) with 128 in Hn; lia).
  rewrite IH; [| done | split; [lia|apply Z.div_lt_upper_bound; lia] | lia | nia | nia].
  cbn [length]. f_equal. f_equal; [lia|]. f_equal. nia.
Qed.

(** A strict prefix of the digits is an underflow. *)
Lemma uvarint_dec_loop_prefix fuel num k off acc shift :
  (k < length (uvarint_digits fuel num))%nat ->
  0 <= num -> 0 <= shift -> shift + 7 * Z.of_nat k <= 70 ->
  uvarint_dec_loop (take k (uvarint_digits fuel num)) off acc shift = Ret (0, None).
Proof.
  revert num k off acc shift; induction fuel as [|f IH];
    intros num k off acc shift Hk Hn Hs H63; [simpl in Hk; lia|].
  destruct k as [|k]; [done|]. cbn [uvarint_digits] in *.
  destruct (Z.ltb_spec num 128); [simpl in Hk; lia|]. cbn [length] in Hk.
  cbn [take uvarint_dec_loop]. rewrite Z.geb_leb.
  destruct (Z.leb_spec 64 shift); [lia|].
  pose proof (Z.mod_pos_bound num 128 ltac:(lia)).
  rewrite land_0x80 by (unfold byte_ok, u_ok; lia).
  destruct (Z.ltb_spec (num mod 128 + 128) 128); [lia|].
  change (128 =? 0) with false. cbn iota.
  apply IH; [lia | apply Z.div_pos; lia | lia | lia].
Qed.

(** The number of bytes a decode consumes. *)
Lemma uvarint_dec_loop_bound src off num shift r o :
  0 <= off -> shift = 7 * off ->
  uvarint_dec_loop src off num shift = Ret (r, o) -> 0 <= r <= 10 /\ r <= off + zlen src.
Proof.
  revert off num shift; induction src as [|b src IH]; intros off num shift Ho Hs; simpl.
  { intros [= <- <-]. lia. }
  rewrite Z.geb_leb. destruct (Z.leb_spec 64 shift); [done|].
  case_if; [intros [= <- <-]; lia|].
  intros Hd. apply IH in Hd; lia.
Qed.

Lemma uvarint_dec_loop_some src off num shift r n :
  uvarint_dec_loop src off num shift = Ret (r, Some n) -> off < r.
Proof.
  revert off num shift; induction src as [|b src IH]; intros off num shift; simpl; [done|].
  case_if; [done|]. case_if; [intros [= <- _]; lia|]. intros Hd. apply IH in Hd. lia.
Qed.

Lemma uvarint_dec_loop_le src off num shift r n :
  uvarint_dec_loop src off num shift = Ret (r, Some n) -> r <= off + zlen src.
Proof.
  revert off num shift; induction src as [|b src IH]; intros off num shift; simpl; [done|].
  case_if; [done|]. case_if; [intros [= <- _]; lia|]. intros Hd. apply IH in Hd. lia.
Qed.

Lemma u64_pow128 n : u_ok 64 n -> 0 <= n < 128 ^ Z.of_nat UVARINT_FUEL.
Proof.
  intros [? Hlt]. split; [done|]. eapply Z.lt_le_trans; [exact Hlt|].
  vm_compute. discriminate.
Qed.

Lemma uvarint_dec_bytes n rest :
  u_ok 64 n -> rd_uvarint_dec (uvarint_bytes n ++ rest) = Ret (zlen (uvarint_bytes n), Some n).
Proof.
  intros Hn. unfold rd_uvarint_dec, uvarint_bytes.
  rewrite uvarint_dec_loop_digits; [| done | by apply u64_pow128 | lia | simpl; lia | ].
  - by rewrite Z.add_0_l, Z.add_0_l, Z.mul_1_r.
  - destruct Hn. lia.
Qed.

Lemma uvarint_bytes_len n : u_ok 64 n -> 1 <= zlen (uvarint_bytes n) <= 10.
Proof.
  intros _. unfold uvarint_bytes.
  pose proof (uvarint_digits_pos UVARINT_FUEL n ltac:(done)).
  pose proof (uvarint_digits_le UVARINT_FUEL n). unfold UVARINT_FUEL in *. lia.
Qed.

Lemma uvarint_enc_spec dstsize n :
  u_ok 64 n ->
  rd_uvarint_enc_u64 dstsize n =
    Ret (if zlen (uvarint_bytes n) <=? dstsize
         then (zlen (uvarint_bytes n), uvarint_bytes n)
         else (0, ztake dstsize (uvarint_bytes n))).
Proof.
  intros Hn. unfold rd_uvarint_enc_u64.
  rewrite uvarint_enc_loop_spec by (try apply u64_pow128; done).
  fold (uvarint_bytes n). by rewrite Z.sub_0_r, Z.add_0_l.
Qed.

(** Zig-zag in closed form. *)
Lemma zigzag64_spec n : s_ok 64 n -> zigzag64 n = if n <? 0 then -2 * n - 1 else 2 * n.
Proof.
  intros [Hlo Hhi]. simpl in Hlo, Hhi. unfold zigzag64.
  rewrite Z.shiftl_mul_pow2, Z.shiftr_div_pow2 by lia.
  destruct (Z.ltb_spec n 0).
  - replace (n / 2 ^ 63) with (-1) by (apply Z.div_unique with (n + 2 ^ 63); lia).
    rewrite Z.lxor_m1_r. unfold Z.lnot.
    replace (Z.pred (- s64 (n * 2 ^ 1))) with (-1 - s64 (n * 2 ^ 1)) by lia.
    unfold uwrap. rewrite <- Zminus_mod_idemp_r. fold (u64 (s64 (n * 2 ^ 1))).
    rewrite swrap_cong by lia. unfold uwrap. rewrite Zminus_mod_idemp_r.
    rewrite Z.mod_small; lia.
  - rewrite (Z.div_small n) by lia. rewrite Z.lxor_0_r, swrap_cong by lia.
    unfold uwrap. rewrite Z.mod_small; lia.
Qed.

Lemma zigzag64_ok n : s_ok 64 n -> u_ok 64 (zigzag64 n).
Proof. intros _. apply uwrap_ok. lia. Qed.

Lemma unzigzag64_spec m :
  u_ok 64 m -> unzigzag64 m = if Z.even m then m / 2 else - (m / 2) - 1.
Proof.
  intros [Hlo Hhi]. simpl in Hhi. unfold unzigzag64.
  rewrite Z.shiftr_div_pow2 by lia. change (2 ^ 1) with 2.
  change 1 with (2 ^ 1 - 1) at 1. rewrite land_pow2_ones by lia. change (2 ^ 1) with 2.
  assert (0 <= m / 2 < 2 ^ 63).
  { split; [apply Z.div_pos; lia|apply Z.div_lt_upper_bound; lia]. }
  rewrite (swrap_id 64 (m / 2)) by (unfold s_ok; simpl; lia).
  rewrite Zmod_even. destruct (Z.even m).
  - change (- s64 0) with 0. rewrite Z.lxor_0_r. apply swrap_id; unfold s_ok; simpl; lia.
  - change (- s64 1) with (-1). rewrite Z.lxor_m1_r. unfold Z.lnot.
    rewrite swrap_id; unfold s_ok; simpl; lia.
Qed.

Lemma unzigzag64_zigzag64 n : s_ok 64 n -> unzigzag64 (zigzag64 n) = n.
Proof.
  intros Hn. rewrite unzigzag64_spec, zigzag64_spec by auto using zigzag64_ok.
  destruct (Z.ltb_spec n 0).
  - replace (Z.even (-2 * n - 1)) with false
      by (replace (-2 * n - 1) with (1 + 2 * (- n - 1)) by lia; by rewrite Z.even_add_mul_2).
    replace (-2 * n - 1) with (1 + (- n - 1) * 2) by lia.
    rewrite Z.div_add by lia. change (1 / 2) with 0. lia.
  - rewrite Z.even_mul. simpl. rewrite Z.mul_comm, Z.div_mul; lia.
Qed.

Lemma varint_dec_not_failed r : 1 <= r <= 10 -> RD_UVARINT_DEC_FAILED r = false.
Proof.
  intros. unfold RD_UVARINT_DEC_FAILED, RD_UVARINT_UNDERFLOW, RD_UVARINT_OVERFLOW, SIZE_MAX.
  rewrite Z.gtb_ltb. destruct (Z.eqb_spec r 0), (Z.ltb_spec (2 ^ 64 - 1) r); lia || done.
Qed.

(** ** Properties *)

(** Unsigned varint round trip: with [RD_UVARINT_ENC_SIZEOF(uint64_t)] bytes of
    room the encoder never fails, writes between 1 and 10 valid bytes and
    returns their number; decoding these bytes, whatever follows them, yields
    the number and consumes exactly the bytes written; and every strict prefix
    of them is reported as an underflow. *)
Theorem uvarint_roundtrip (dstsize n : Z) (rest : list Z)
    (Hn : u_ok 64 n) (Hsz : RD_UVARINT_ENC_SIZEOF 8 <= dstsize) :
  exists bs,
    rd_uvarint_enc_u64 dstsize n = Ret (zlen bs, bs) /\
    1 <= zlen bs <= RD_UVARINT_ENC_SIZEOF 8 /\ bytes_ok bs /\
    rd_uvarint_dec (bs ++ rest) = Ret (zlen bs, Some n) /\
    (forall k, (k < length bs)%nat -> rd_uvarint_dec (take k bs) = Ret (0, None)).
Proof.
  exists (uvarint_bytes n). change (RD_UVARINT_ENC_SIZEOF 8) with 10 in *.
  pose proof (uvarint_bytes_len n Hn) as Hlen. repeat split; try lia.
  - rewrite uvarint_enc_spec by done.
    destruct (Z.leb_spec (zlen (uvarint_bytes n)) dstsize); [done|lia].
  - apply uvarint_digits_ok. apply Hn.
  - by apply uvarint_dec_bytes.
  - intros k Hk. apply uvarint_dec_loop_prefix; [done|apply Hn|lia|lia].
Qed.

Lemma uvarint_roundtrip_witness :
  exists bs, rd_uvarint_enc_u64 10 300 = Ret (zlen bs, bs) /\
             rd_uvarint_dec (bs ++ [7]) = Ret (zlen bs, Some 300).
Proof.
  destruct (uvarint_roundtrip 10 300 [7]) as (bs & He & _ & _ & Hd & _).
  - unfold u_ok. lia.
  - vm_compute. discriminate.
  - exists bs. split; [exact He|exact Hd].
Defined.

(** Signed varint round trip: every [int64_t] survives zig-zag encoding and
    decoding whatever follows it, and the value put on the wire is the zig-zag
    code: [2n] for [n >= 0] and [-2n-1] for [n < 0]. *)
Theorem varint_i64_roundtrip (dstsize n : Z) (rest : list Z)
    (Hn : s_ok 64 n) (Hsz : RD_UVARINT_ENC_SIZEOF 8 <= dstsize) :
  exists bs,
    rd_uvarint_enc_i64 dstsize n = Ret (zlen bs, bs) /\
    rd_varint_dec_i64 (bs ++ rest) = Ret (zlen bs, Some n) /\
    zigzag64 n = (if n <? 0 then -2 * n - 1 else 2 * n).
Proof.
  exists (uvarint_bytes (zigzag64 n)). change (RD_UVARINT_ENC_SIZEOF 8) with 10 in *.
  pose proof (zigzag64_ok n Hn) as Hz. pose proof (uvarint_bytes_len _ Hz) as Hlen.
  repeat split.
  - unfold rd_uvarint_enc_i64. rewrite uvarint_enc_spec by done.
    destruct (Z.leb_spec (zlen (uvarint_bytes (zigzag64 n))) dstsize); [done|lia].
  - unfold rd_varint_dec_i64. rewrite uvarint_dec_bytes by done. cbn [obind].
    rewrite varint_dec_not_failed by done. simpl. by rewrite unzigzag64_zigzag64.
  - by apply zigzag64_spec.
Qed.

Lemma varint_i64_roundtrip_witness :
  exists bs, rd_uvarint_enc_i64 16 (-253) = Ret (zlen bs, bs) /\
             rd_varint_dec_i64 (bs ++ [0xff]) = Ret (zlen bs, Some (-253)).
Proof.
  destruct (varint_i64_roundtrip 16 (-253) [0xff]) as (bs & He & Hd & _).
  - unfold s_ok. simpl. lia.
  - vm_compute. discriminate.
  - exists bs. split; [exact He|exact Hd].
Defined.

(** The encoder never writes past the destination: if the encoding does not
    fit it returns 0 and has written exactly the first [dstsize] bytes of it. *)
Theorem uvarint_enc_no_space (dstsize n : Z) (Hn : u_ok 64 n) (Hd : 0 <= dstsize) :
  exists r bs,
    rd_uvarint_enc_u64 dstsize n = Ret (r, bs) /\ zlen bs <= dstsize /\
    (r = 0 <-> dstsize < zlen (uvarint_bytes n)) /\
    bs = ztake dstsize (uvarint_bytes n).
Proof.
  pose proof (uvarint_bytes_len n Hn) as Hlen. rewrite uvarint_enc_spec by done.
  destruct (Z.leb_spec (zlen (uvarint_bytes n)) dstsize).
  - exists (zlen (uvarint_bytes n)), (uvarint_bytes n). repeat split; try lia.
    unfold ztake. rewrite take_ge by lia. done.
  - exists 0, (ztake dstsize (uvarint_bytes n)). rewrite zlen_ztake by lia.
    repeat split; lia.
Qed.

Lemma uvarint_enc_no_space_witness :
  exists r bs, rd_uvarint_enc_u64 1 300 = Ret (r, bs) /\ zlen bs <= 1.
Proof.
  destruct (uvarint_enc_no_space 1 300) as (r & bs & He & Hl & _).
  - unfold u_ok. lia.
  - lia.
  - exists r, bs. split; [exact He|exact Hl].
Defined.

(** What the decoder can report: a returned length is at most 10 and within
    the source, so [RD_UVARINT_OVERFLOW] never holds of it; a varint of eleven
    or more bytes (ten continuation bytes followed by another byte) is not
    rejected but shifts by 70 bits, which is undefined. *)
Theorem uvarint_dec_overlong (src pre rest : list Z) (b r : Z) (o : option Z) :
  (rd_uvarint_dec src = Ret (r, o) ->
     0 <= r <= 10 /\ r <= zlen src /\ RD_UVARINT_OVERFLOW r = false) /\
  (length pre = 10%nat -> Forall (fun c => 128 <= c < 256) pre ->
     rd_uvarint_dec (pre ++ b :: rest) = Crash).
Proof.
  split.
  - intros Hd. apply uvarint_dec_loop_bound in Hd; [|lia..].
    unfold RD_UVARINT_OVERFLOW, SIZE_MAX. rewrite Z.gtb_ltb.
    destruct (Z.ltb_spec (2 ^ 64 - 1) r); lia.
  - intros Hlen Hpre. unfold rd_uvarint_dec.
    do 10 (destruct pre as [|? pre]; [done|]; inversion_clear Hpre as [|? ? ?Hc Hpre'];
           rename Hpre' into Hpre). destruct pre; [|done].
    cbn [app uvarint_dec_loop].
    rewrite !land_0x80 by (unfold byte_ok, u_ok; lia).
    repeat match goal with
    | |- context [?c <? 128] => destruct (Z.ltb_spec c 128); [lia|]
    end.
    reflexivity.
Qed.

Lemma uvarint_dec_overlong_witness :
  rd_uvarint_dec (repeat 0x80 10 ++ [0]) = Crash /\
  (rd_uvarint_dec [0x85; 1; 9] = Ret (2, Some 133) -> 0 <= 2 <= 10).
Proof.
  split.
  - apply (uvarint_dec_overlong [] (repeat 0x80 10) [] 0 0 None).
    + reflexivity.
    + repeat constructor; lia.
  - intros Hd. apply (uvarint_dec_overlong [0x85; 1; 9] [] [] 0 2 (Some 133) ) in Hd.
    destruct Hd as [H _]. exact H.
Defined.
