(* ===== verification/Buf.v ===== *)
(** * Segmented byte buffers: rdbuf.h and the writer half of rdbuf.c

    A buffer is a list of segments with a write position.  The TAILQ of
    segments is a list, a segment pointer is its index in that list: segments
    are only ever appended at the tail and removed from the tail, so indices
    are stable.  [seg_p] is NULL or the [seg_size] bytes of memory the segment
    owns or references. *)
From Stdlib Require Import ZArith Lia.
From stdpp Require Import base numbers list.
From S2P Require Import Prelude.

(** ** Data *)

(** The function stored in [seg_free]: [rd_free] or the callback given to
    [rd_buf_push]. *)
Inductive free_fn : Type :=
| FreeRd
| FreeCb (cb : nat).

(** Where the segment structure itself lives (its address): at an offset of
    [rbuf_extra], or in a heap block of its own. *)
Inductive seg_loc : Type :=
| InExtra (o : Z)
| OnHeap.

Definition RD_SEGMENT_F_RDONLY : Z := 0x1.
Definition RD_SEGMENT_F_FREE : Z := 0x2.

Record rd_segment : Type := mk_segment {
  seg_p : option (list Z);
  seg_of : Z;
  seg_size : Z;
  seg_absof : Z;
  seg_free : option free_fn;
  seg_flags : Z;
  seg_addr : seg_loc }.

Record rd_buf : Type := mk_buf {
  rbuf_segments : list rd_segment;
  rbuf_segment_cnt : Z;
  rbuf_wpos : option nat;
  rbuf_len : Z;
  rbuf_size : Z;
  rbuf_extra : bool;
  rbuf_extra_len : Z;
  rbuf_extra_size : Z }.

(** [sizeof(rd_segment_t)] on an LP64 platform. *)
Definition SIZEOF_SEGMENT : Z := 64.

Definition RD_ROUNDUP8 (x : Z) : Z := Z.land (x + 7) (Z.lnot 7).

(** Field updates. *)
Definition set_seg_of (o : Z) (s : rd_segment) : rd_segment :=
  mk_segment (seg_p s) o (seg_size s) (seg_absof s) (seg_free s) (seg_flags s) (seg_addr s).
Definition set_seg_p (p : option (list Z)) (s : rd_segment) : rd_segment :=
  mk_segment p (seg_of s) (seg_size s) (seg_absof s) (seg_free s) (seg_flags s) (seg_addr s).
Definition set_seg_absof (a : Z) (s : rd_segment) : rd_segment :=
  mk_segment (seg_p s) (seg_of s) (seg_size s) a (seg_free s) (seg_flags s) (seg_addr s).
Definition set_segments (l : list rd_segment) (b : rd_buf) : rd_buf :=
  mk_buf l (rbuf_segment_cnt b) (rbuf_wpos b) (rbuf_len b) (rbuf_size b)
         (rbuf_extra b) (rbuf_extra_len b) (rbuf_extra_size b).
Definition set_wpos (w : option nat) (b : rd_buf) : rd_buf :=
  mk_buf (rbuf_segments b) (rbuf_segment_cnt b) w (rbuf_len b) (rbuf_size b)
         (rbuf_extra b) (rbuf_extra_len b) (rbuf_extra_size b).
Definition set_len (n : Z) (b : rd_buf) : rd_buf :=
  mk_buf (rbuf_segments b) (rbuf_segment_cnt b) (rbuf_wpos b) n (rbuf_size b)
         (rbuf_extra b) (rbuf_extra_len b) (rbuf_extra_size b).
Definition set_size (n : Z) (b : rd_buf) : rd_buf :=
  mk_buf (rbuf_segments b) (rbuf_segment_cnt b) (rbuf_wpos b) (rbuf_len b) n
         (rbuf_extra b) (rbuf_extra_len b) (rbuf_extra_size b).
Definition set_extra_len (n : Z) (b : rd_buf) : rd_buf :=
  mk_buf (rbuf_segments b) (rbuf_segment_cnt b) (rbuf_wpos b) (rbuf_len b) (rbuf_size b)
         (rbuf_extra b) n (rbuf_extra_size b).
(** An assignment through a segment pointer. *)
Definition upd_seg (i : nat) (f : rd_segment -> rd_segment) (b : rd_buf) : rd_buf :=
  set_segments (alter f i (rbuf_segments b)) b.

(** [memcpy(p + o, src, zlen src)] *)
Definition mem_write (p : list Z) (o : Z) (src : list Z) : list Z :=
  ztake o p ++ src ++ zdrop (o + zlen src) p.

(** The memory of a segment, [[]] behind a NULL pointer. *)
Definition seg_mem (s : rd_segment) : list Z := default [] (seg_p s).

(** Memory returned by the allocator: its contents are unspecified, the model
    picks a fill pattern that no theorem depends on. *)
Definition fresh_mem (size : Z) : option (list Z) :=
  if size >? 0 then Some (replicate (Z.to_nat size) 0xA5) else None.

(** ** Code: accessors of rdbuf.h *)

Definition seg_rdonly (s : rd_segment) : bool :=
  negb (Z.land (seg_flags s) RD_SEGMENT_F_RDONLY =? 0).

Definition rd_buf_write_pos (b : rd_buf) : outcome Z :=
  match rbuf_wpos b with
  | None => Ret 0
  | Some i =>
      match rbuf_segments b !! i with
      | Some s => Ret (seg_absof s + seg_of s)
      | None => Crash
      end
  end.

Definition rd_buf_write_remains (b : rd_buf) : Z := rbuf_size b - rbuf_len b.

Definition rd_segment_write_remains (s : rd_segment) : Z :=
  if seg_rdonly s then 0 else seg_size s - seg_of s.

Definition rd_buf_last (b : rd_buf) : option nat :=
  match rbuf_segments b with
  | [] => None
  | _ => Some (length (rbuf_segments b) - 1)%nat
  end.

(** ** Code: allocation *)

(** Effects of destroying a segment: freeing its payload, freeing its header. *)
Inductive free_event : Type :=
| EvPayload (f : free_fn)
| EvHeader (a : seg_loc)
| EvExtra.

Definition rd_segment_destroy (s : rd_segment) : list free_event :=
  match seg_free s, seg_p s with
  | Some f, Some _ => [EvPayload f]
  | _, _ => []
  end ++
  (if negb (Z.land (seg_flags s) RD_SEGMENT_F_FREE =? 0) then [EvHeader (seg_addr s)] else []).

Definition rd_segment_init (addr : seg_loc) (mem : option (list Z)) (size : Z) : rd_segment :=
  mk_segment mem 0 size 0 None 0 addr.

(** The scan of [rd_buf_get_writable0] over the segments [rest] from index [i]
    on; the result is the buffer, the writable length and [*segp]. *)
Fixpoint get_writable_loop (rest : list rd_segment) (i : nat) (segp : option nat)
    (b : rd_buf) : rd_buf * Z * option nat :=
  match rest with
  | [] => (b, 0, segp)
  | s :: rest =>
      let len := rd_segment_write_remains s in
      let b := set_wpos (Some i) b in
      if len =? 0 then get_writable_loop rest (S i) (Some i) b
      else
        ((if (seg_of s =? 0) && (seg_absof s <? rbuf_len b)
          then upd_seg i (set_seg_absof (rbuf_len b)) b else b), len, Some i)
  end.

Definition rd_buf_get_writable0 (b : rd_buf) : rd_buf * Z * option nat :=
  match rbuf_wpos b with
  | None => (b, 0, None)
  | Some i => get_writable_loop (drop i (rbuf_segments b)) i None b
  end.

Definition rd_buf_get_writable (b : rd_buf) : rd_buf * Z :=
  let '(b, len, _) := rd_buf_get_writable0 b in (b, len).

Definition rd_buf_append_segment (b : rd_buf) (s : rd_segment) : rd_buf :=
  let s := set_seg_absof (rbuf_len b) s in
  let b := mk_buf (rbuf_segments b ++ [s]) (rbuf_segment_cnt b + 1) (rbuf_wpos b)
                  (rbuf_len b + seg_of s) (rbuf_size b + seg_size s)
                  (rbuf_extra b) (rbuf_extra_len b) (rbuf_extra_size b) in
  match rbuf_wpos b with
  | None => set_wpos (Some (length (rbuf_segments b) - 1)%nat) b
  | Some _ => let '(b, _, _) := rd_buf_get_writable0 b in b
  end.

Definition extra_alloc (b : rd_buf) (size : Z) : rd_buf * option Z :=
  let o := RD_ROUNDUP8 (rbuf_extra_len b) in
  if o + size >? rbuf_extra_size b then (b, None)
  else (set_extra_len (o + size) b, Some o).

Definition rd_buf_alloc_segment0 (b : rd_buf) (size : Z) : rd_buf * rd_segment :=
  match extra_alloc b (SIZEOF_SEGMENT + size) with
  | (b, Some o) => (b, rd_segment_init (InExtra o) (fresh_mem size) size)
  | (b, None) =>
      match extra_alloc b SIZEOF_SEGMENT with
      | (b, Some o) =>
          let s := rd_segment_init (InExtra o) (fresh_mem size) size in
          (b, if size >? 0
              then mk_segment (seg_p s) (seg_of s) (seg_size s) (seg_absof s)
                              (Some FreeRd) (seg_flags s) (seg_addr s)
              else s)
      | (b, None) =>
          let s := rd_segment_init OnHeap (fresh_mem size) size in
          (b, mk_segment (seg_p s) (seg_of s) (seg_size s) (seg_absof s) (seg_free s)
                         (Z.lor (seg_flags s) RD_SEGMENT_F_FREE) (seg_addr s))
      end
  end.

(** The index of the new segment is that of the last one. *)
Definition rd_buf_alloc_segment (b : rd_buf) (min_size max_size : Z) : rd_buf :=
  let max_size :=
    if negb (min_size =? max_size) || (max_size =? 0)
    then Z.max (SIZEOF_SEGMENT * 4) (Z.max (u64 (min_size * 2)) (rbuf_size b / 2))
    else max_size in
  let '(b, s) := rd_buf_alloc_segment0 b max_size in
  rd_buf_append_segment b s.

Definition rd_buf_write_ensure_contig (b : rd_buf) (size : Z) : outcome rd_buf :=
  let alloc := let b := rd_buf_alloc_segment b size size in
               Ret (set_wpos (rd_buf_last b) b) in
  match rbuf_wpos b with
  | None => alloc
  | Some i =>
      match rbuf_segments b !! i with
      | None => Crash
      | Some s => if rd_segment_write_remains s >=? size then Ret b else alloc
      end
  end.

Fixpoint write_ensure_loop (fuel : nat) (b : rd_buf) (min_size max_size : Z) : outcome rd_buf :=
  match fuel with
  | O => Diverge
  | S fuel =>
      let remains := rd_buf_write_remains b in
      if remains <? min_size
      then write_ensure_loop fuel
             (rd_buf_alloc_segment b (min_size - remains)
                (if max_size =? 0 then 0 else u64 (max_size - remains)))
             min_size max_size
      else Ret b
  end.

(** One allocation always suffices, see [write_ensure_ret]. *)
Definition rd_buf_write_ensure (b : rd_buf) (min_size max_size : Z) : outcome rd_buf :=
  write_ensure_loop 2 b min_size max_size.

(** ** Code: lookup, split, destroy, init *)

(** The do-while loop of [rd_buf_get_segment_at_offset]: its body runs once
    even for a NULL [seg], dereferencing it. *)
Fixpoint segment_scan (rest : list rd_segment) (i : nat) (absof : Z) : option nat :=
  match rest with
  | [] => None
  | s :: rest =>
      if (absof >=? seg_absof s) && (absof <? seg_absof s + seg_of s) then Some i
      else segment_scan rest (S i) absof
  end.

Definition rd_buf_get_segment_at_offset (b : rd_buf) (hint : option nat) (absof : Z)
  : outcome (option nat) :=
  if absof >? rbuf_len b then Ret None
  else
    let first := if decide (rbuf_segments b = []) then None else Some O in
    let start :=
      match hint with
      | None => first
      | Some h =>
          match rbuf_segments b !! h with
          | Some s => if absof <? seg_absof s then first else Some h
          | None => None
          end
      end in
    match start with
    | None => Crash
    | Some i => Ret (segment_scan (drop i (rbuf_segments b)) i absof)
    end.

Definition rd_segment_split (b : rd_buf) (i : nat) (absof : Z) : outcome (rd_buf * rd_segment) :=
  match rbuf_segments b !! i with
  | None => Crash
  | Some s =>
      assert! (bool_decide (rbuf_wpos b = Some i)) in
      assert! ((absof >=? seg_absof s) && (absof <=? seg_absof s + seg_of s)) in
      let relof := absof - seg_absof s in
      let '(b, n) := rd_buf_alloc_segment0 b 0 in
      let n := mk_segment (zdrop relof <$> seg_p s) (seg_of s - relof) (seg_size s - relof)
                          SIZE_MAX (seg_free n) (Z.lor (seg_flags n) (seg_flags s))
                          (seg_addr n) in
      let b := upd_seg i (fun s => mk_segment (ztake relof <$> seg_p s) relof relof
                                     (seg_absof s) (seg_free s) (seg_flags s) (seg_addr s)) b in
      let b := set_len (rbuf_len b - seg_of n) b in
      let b := set_size (rbuf_size b - seg_size n) b in
      Ret (b, n)
  end.

Definition rd_buf_destroy_segment (b : rd_buf) (i : nat) : outcome (rd_buf * list free_event) :=
  match rbuf_segments b !! i with
  | None => Crash
  | Some s =>
      assert! ((rbuf_segment_cnt b >? 0) && (rbuf_len b >=? seg_of s)
               && (rbuf_size b >=? seg_size s)) in
      Ret (mk_buf (delete i (rbuf_segments b)) (rbuf_segment_cnt b - 1)
             (if bool_decide (rbuf_wpos b = Some i) then None else rbuf_wpos b)
             (rbuf_len b - seg_of s) (rbuf_size b - seg_size s)
             (rbuf_extra b) (rbuf_extra_len b) (rbuf_extra_size b),
           rd_segment_destroy s)
  end.

Definition rd_buf_destroy (b : rd_buf) : list free_event :=
  (rbuf_segments b ≫= rd_segment_destroy) ++ (if rbuf_extra b then [EvExtra] else []).

Definition rd_buf_init (fixed_seg_cnt buf_size : Z) : outcome rd_buf :=
  if fixed_seg_cnt =? 0
  then assert! (buf_size =? 0) in Ret (mk_buf [] 0 None 0 0 false 0 0)
  else Ret (mk_buf [] 0 None 0 0 true 0
              (RD_ROUNDUP8 SIZEOF_SEGMENT * fixed_seg_cnt + buf_size)).

(** ** Code: writing *)

(** The write loop; [psrc] is the rest of the payload, [None] for a NULL
    payload.  When no segment is writable the loop makes no progress. *)
Fixpoint buf_write_loop (fuel : nat) (b : rd_buf) (psrc : option (list Z)) (remains : Z)
  : outcome rd_buf :=
  if remains >? 0 then
    match fuel with
    | O => Diverge
    | S fuel =>
        let '(b, segremains, segp) := rd_buf_get_writable0 b in
        let wlen := Z.min remains segremains in
        match segp with
        | None => Crash
        | Some i =>
            let b := match psrc with
                     | Some p => upd_seg i (fun s => set_seg_p
                                   (Some (mem_write (seg_mem s) (seg_of s) (ztake wlen p))) s) b
                     | None => b
                     end in
            let b := upd_seg i (fun s => set_seg_of (seg_of s + wlen) s) b in
            let b := set_len (rbuf_len b + wlen) b in
            buf_write_loop fuel b (zdrop wlen <$> psrc) (remains - wlen)
        end
    end
  else Ret b.

Definition rd_buf_write (b : rd_buf) (payload : option (list Z)) (size : Z)
  : outcome (rd_buf * Z) :=
  let initial_absof := rbuf_len b in
  let! b := rd_buf_write_ensure b size 0 in
  let! b := buf_write_loop (Z.to_nat size) b payload size in
  Ret (b, initial_absof).

(** [psrc] is the payload from the current offset on. *)
Definition rd_segment_write_update (s : rd_segment) (absof : Z) (psrc : list Z) (size : Z)
  : outcome (rd_segment * Z) :=
  let relof := u64 (absof - seg_absof s) in
  assert! (relof <=? seg_of s) in
  let wlen := Z.min size (seg_of s - relof) in
  Ret (if wlen =? 0 then s
       else set_seg_p (Some (mem_write (seg_mem s) relof (ztake wlen psrc))) s, wlen).

Fixpoint write_update_loop (fuel : nat) (b : rd_buf) (seg : nat) (absof : Z)
    (payload : list Z) (o size : Z) : outcome (rd_buf * Z) :=
  if o <? size then
    match fuel with
    | O => Diverge
    | S fuel =>
        match rbuf_segments b !! seg with
        | None => Crash
        | Some s =>
            assert! (seg_absof s <=? rbuf_len b) in
            let! (s, wlen) := rd_segment_write_update s (absof + o) (zdrop o payload) (size - o) in
            write_update_loop fuel (upd_seg seg (fun _ => s) b) (S seg) absof payload
                              (o + wlen) size
        end
    end
  else Ret (b, o).

Definition rd_buf_write_update (b : rd_buf) (absof : Z) (payload : list Z) (size : Z)
  : outcome (rd_buf * Z) :=
  let! seg := rd_buf_get_segment_at_offset b (rbuf_wpos b) absof in
  match seg with
  | None => Crash
  | Some i => write_update_loop (S (length (rbuf_segments b))) b i absof payload 0 size
  end.

Definition rd_buf_push (b : rd_buf) (payload : option (list Z)) (size : Z) (free_cb : option nat)
  : outcome rd_buf :=
  let prev :=
    match rbuf_wpos b with
    | None => Ret None
    | Some i =>
        match rbuf_segments b !! i with
        | None => Crash
        | Some s => Ret (if rd_segment_write_remains s >? 0 then Some (i, s) else None)
        end
    end in
  let! prev := prev in
  let! (b, tailseg) :=
    match prev with
    | None => Ret (b, None)
    | Some (i, s) =>
        let! (b, t) := rd_segment_split b i (seg_absof s + seg_of s) in Ret (b, Some t)
    end in
  let '(b, s) := rd_buf_alloc_segment0 b 0 in
  let s := mk_segment payload size size (seg_absof s) (FreeCb <$> free_cb)
                      (Z.lor (seg_flags s) RD_SEGMENT_F_RDONLY) (seg_addr s) in
  let b := rd_buf_append_segment b s in
  Ret (match tailseg with
       | Some t => rd_buf_append_segment b t
       | None => b
       end).

(** The loop of [rd_buf_write_seek] destroys the segments above [seg], from the
    last one down. *)
Fixpoint seek_destroy_loop (fuel : nat) (b : rd_buf) (seg : nat) : outcome (rd_buf * list free_event) :=
  match rd_buf_last b with
  | None => Crash
  | Some next =>
      if bool_decide (next = seg) then Ret (b, [])
      else
        match fuel with
        | O => Diverge
        | S fuel =>
            let! (b, ev) := rd_buf_destroy_segment b next in
            let! (b, evs) := seek_destroy_loop fuel b seg in
            Ret (b, ev ++ evs)
        end
  end.

(** Returns the buffer, the payloads and headers freed, and 0 or -1. *)
Definition rd_buf_write_seek (b : rd_buf) (absof : Z) : outcome (rd_buf * list free_event * Z) :=
  let! seg := rd_buf_get_segment_at_offset b (rbuf_wpos b) absof in
  match seg with
  | None => Ret (b, [], -1)
  | Some i =>
      match rbuf_segments b !! i with
      | None => Crash
      | Some s =>
          let relof := absof - seg_absof s in
          if relof >? seg_of s then Ret (b, [], -1)
          else
            let! (b, evs) := seek_destroy_loop (length (rbuf_segments b)) b i in
            let b := upd_seg i (set_seg_of relof) b in
            let b := set_wpos (Some i) b in
            let b := set_len (seg_absof s + relof) b in
            assert! (rbuf_len b =? absof) in
            Ret (b, evs, 0)
      end
  end.

(** The iovecs are (segment index, offset in the segment, length). *)
Fixpoint write_iov_loop (rest : list rd_segment) (i : nat) (iov_max size_max : Z)
    (iovs : list (nat * Z * Z)) (sum : Z) : list (nat * Z * Z) * Z :=
  match rest with
  | [] => (iovs, sum)
  | s :: rest =>
      if (zlen iovs <? iov_max) && (sum <? size_max) then
        let len := rd_segment_write_remains s in
        if len =? 0 then write_iov_loop rest (S i) iov_max size_max iovs sum
        else write_iov_loop rest (S i) iov_max size_max (iovs ++ [(i, seg_of s, len)]) (sum + len)
      else (iovs, sum)
  end.

Definition rd_buf_get_write_iov (b : rd_buf) (iov_max size_max : Z) : list (nat * Z * Z) * Z :=
  match rbuf_wpos b with
  | None => ([], 0)
  | Some i => write_iov_loop (drop i (rbuf_segments b)) i iov_max size_max [] 0
  end.
