(* ===== verification/BufFacts.v ===== *)
(** * Segmented byte buffers: invariant and refinement

    The abstract value of a buffer is its list of bytes ([contents]).  This
    file states the structural invariant of rdbuf.c and proves that every
    writer operation keeps it and acts on [contents] as the corresponding
    operation on plain byte lists. *)
From Stdlib Require Import ZArith Lia.
From stdpp Require Import base numbers list.
From S2P Require Import Prelude Buf.

(** ** Abstraction and invariant *)

Definition seg_data (s : rd_segment) : list Z := ztake (seg_of s) (seg_mem s).
Definition contents (b : rd_buf) : list Z := rbuf_segments b ≫= seg_data.

Definition sum_of (l : list rd_segment) : Z := foldr (fun s a => seg_of s + a) 0 l.
Definition sum_size (l : list rd_segment) : Z := foldr (fun s a => seg_size s + a) 0 l.

Definition seg_ok (s : rd_segment) : Prop :=
  0 <= seg_of s <= seg_size s /\ zlen (seg_mem s) = seg_size s.

(** Absolute offsets are the running sums of the payload lengths. *)
Fixpoint chain (a : Z) (l : list rd_segment) : Prop :=
  match l with
  | [] => True
  | s :: l => seg_absof s = a /\ chain (a + seg_of s) l
  end.

(** A segment allocated ahead of the write position. *)
Definition fresh_seg (len : Z) (s : rd_segment) : Prop :=
  seg_of s = 0 /\ seg_rdonly s = false /\ 0 < seg_size s /\ seg_absof s <= len.

(** A buffer whose write position is segment [w], after the segments [pre] and
    before the preallocated segments [post]. *)
Record view (b : rd_buf) (pre : list rd_segment) (w : rd_segment) (post : list rd_segment)
  : Prop := mk_view {
  v_segs : rbuf_segments b = pre ++ w :: post;
  v_wpos : rbuf_wpos b = Some (length pre);
  v_ok : Forall seg_ok (pre ++ w :: post);
  v_cnt : rbuf_segment_cnt b = zlen (pre ++ w :: post);
  v_len : rbuf_len b = sum_of (pre ++ [w]);
  v_size : rbuf_size b = sum_size (pre ++ w :: post);
  v_chain : chain 0 (pre ++ [w]);
  v_post : Forall (fresh_seg (rbuf_len b)) post }.

Definition empty_buf (b : rd_buf) : Prop :=
  rbuf_segments b = [] /\ rbuf_wpos b = None /\ rbuf_segment_cnt b = 0 /\
  rbuf_len b = 0 /\ rbuf_size b = 0.

Definition full (s : rd_segment) : Prop := seg_of s = seg_size s.

(** No writable memory is left behind the write position. *)
Definition no_slack (pre : list rd_segment) (w : rd_segment) : Prop :=
  Forall full pre /\ (seg_rdonly w = true -> full w).

(** The invariant of a buffer built by write, push, update and seek. *)
Definition buf_inv (b : rd_buf) : Prop :=
  empty_buf b \/ exists pre w, view b pre w [] /\ no_slack pre w.

(** ** List lemmas *)

Lemma sum_of_app l1 l2 : sum_of (l1 ++ l2) = sum_of l1 + sum_of l2.
Proof. induction l1; simpl; [done|]. rewrite IHl1. lia. Qed.

Lemma sum_size_app l1 l2 : sum_size (l1 ++ l2) = sum_size l1 + sum_size l2.
Proof. induction l1; simpl; [done|]. rewrite IHl1. lia. Qed.

Lemma sum_of_nonneg l : Forall seg_ok l -> 0 <= sum_of l.
Proof. induction 1 as [|s l [? _] _ IH]; simpl; lia. Qed.

Lemma sum_of_le_size l : Forall seg_ok l -> sum_of l <= sum_size l.
Proof. induction 1 as [|s l [? _] _ IH]; simpl; lia. Qed.

Lemma sum_full l : Forall full l -> sum_size l = sum_of l.
Proof. induction 1 as [|s l Hs _ IH]; simpl; [done|]. rewrite Hs. lia. Qed.

Lemma sum_of_fresh len l : Forall (fresh_seg len) l -> sum_of l = 0.
Proof. induction 1 as [|s l (H & _) _ IH]; simpl; lia. Qed.

Lemma chain_app a l1 l2 : chain a (l1 ++ l2) <-> chain a l1 /\ chain (a + sum_of l1) l2.
Proof.
  revert a; induction l1 as [|s l1 IH]; intros a; simpl.
  - rewrite Z.add_0_r. tauto.
  - rewrite IH, <- Z.add_assoc. tauto.
Qed.

Lemma zlen_seg_data s : seg_ok s -> zlen (seg_data s) = seg_of s.
Proof. intros [? ?]. apply zlen_ztake. lia. Qed.

Lemma zlen_contents_list l : Forall seg_ok l -> zlen (l ≫= seg_data) = sum_of l.
Proof.
  induction 1 as [|s l Hs _ IH]; [done|]. cbn [mbind list_bind sum_of foldr].
  rewrite length_app, Nat2Z.inj_add, zlen_seg_data by done.
  change (list_bind _ _ seg_data l) with (l ≫= seg_data) in *. rewrite IH. done.
Qed.

Lemma seg_data_nil s : seg_of s = 0 -> seg_data s = [].
Proof. intros H. unfold seg_data. rewrite H. done. Qed.

Lemma fresh_data len l : Forall (fresh_seg len) l -> l ≫= seg_data = [].
Proof.
  induction 1 as [|s l (H & _) _ IH]; [done|]. cbn. rewrite seg_data_nil by done. apply IH.
Qed.

Lemma alter_middle {A} (f : A -> A) l1 x l2 :
  alter f (length l1) (l1 ++ x :: l2) = l1 ++ f x :: l2.
Proof. induction l1; simpl; [done|]. f_equal. apply IHl1. Qed.

Lemma drop_middle {A} l1 (x : A) l2 : drop (length l1) (l1 ++ x :: l2) = x :: l2.
Proof. by rewrite drop_app_length. Qed.

Lemma view_contents b pre w post :
  view b pre w post -> contents b = (pre ≫= seg_data) ++ seg_data w.
Proof.
  intros V. unfold contents. rewrite (v_segs _ _ _ _ V), bind_app. cbn.
  change (list_bind _ _ seg_data post) with (post ≫= seg_data).
  rewrite (fresh_data (rbuf_len b) post) by apply (v_post _ _ _ _ V). by rewrite app_nil_r.
Qed.

Lemma view_seg_ok b pre w post : view b pre w post -> seg_ok w.
Proof. intros V. pose proof (v_ok _ _ _ _ V) as H. decompose_Forall_hyps. done. Qed.

Lemma view_pre_ok b pre w post : view b pre w post -> Forall seg_ok pre.
Proof. intros V. pose proof (v_ok _ _ _ _ V) as H. decompose_Forall_hyps. done. Qed.

Lemma view_len b pre w post : view b pre w post -> rbuf_len b = sum_of pre + seg_of w.
Proof. intros V. rewrite (v_len _ _ _ _ V), sum_of_app. simpl. lia. Qed.

Lemma view_absof b pre w post : view b pre w post -> seg_absof w = sum_of pre.
Proof. intros V. destruct (proj1 (chain_app _ _ _) (v_chain _ _ _ _ V)) as [_ [H _]]. lia. Qed.

Lemma view_len_nonneg b pre w post : view b pre w post -> 0 <= rbuf_len b.
Proof.
  intros V. rewrite (v_len _ _ _ _ V). apply sum_of_nonneg.
  pose proof (v_ok _ _ _ _ V). decompose_Forall_hyps. apply Forall_app. auto.
Qed.

Lemma view_zlen b pre w post : view b pre w post -> zlen (contents b) = rbuf_len b.
Proof.
  intros V. rewrite (view_contents _ _ _ _ V), (view_len _ _ _ _ V), length_app, Nat2Z.inj_add.
  rewrite zlen_contents_list, zlen_seg_data by eauto using view_seg_ok, view_pre_ok. done.
Qed.

Lemma remains_nonneg s : seg_ok s -> 0 <= rd_segment_write_remains s.
Proof. intros [? ?]. unfold rd_segment_write_remains. destruct (seg_rdonly s); lia. Qed.

(** With no slack, the accounting of [rd_buf_write_remains] is exact. *)
Lemma view_write_remains b pre w post :
  view b pre w post -> no_slack pre w ->
  rd_buf_write_remains b = rd_segment_write_remains w + sum_size post.
Proof.
  intros V [Hf Hw]. unfold rd_buf_write_remains, rd_segment_write_remains.
  rewrite (view_len _ _ _ _ V), (v_size _ _ _ _ V), sum_size_app, (sum_full pre) by done.
  simpl. destruct (seg_rdonly w); [|lia]. rewrite Hw by done. lia.
Qed.

(** ** The write position *)

(** [rd_buf_get_writable0] stays on a segment with room. *)
Lemma get_writable_here b pre w post :
  view b pre w post -> rd_segment_write_remains w <> 0 ->
  rd_buf_get_writable0 b = (b, rd_segment_write_remains w, Some (length pre)).
Proof.
  intros V Hr. unfold rd_buf_get_writable0.
  rewrite (v_wpos _ _ _ _ V), (v_segs _ _ _ _ V), drop_middle. cbn [get_writable_loop].
  destruct (Z.eqb_spec (rd_segment_write_remains w) 0); [done|].
  assert (Hb : set_wpos (Some (length pre)) b = b).
  { destruct b; unfold set_wpos; simpl. f_equal. symmetry. apply (v_wpos _ _ _ _ V). }
  rewrite Hb. destruct ((seg_of w =? 0) && _)%bool eqn:E; [|done]. bool_hyps.
  rewrite (view_absof _ _ _ _ V), (view_len _ _ _ _ V) in *. lia.
Qed.

Lemma get_writable_none b pre w :
  view b pre w [] -> rd_segment_write_remains w = 0 ->
  rd_buf_get_writable0 b = (b, 0, Some (length pre)).
Proof.
  intros V Hr. unfold rd_buf_get_writable0.
  rewrite (v_wpos _ _ _ _ V), (v_segs _ _ _ _ V), drop_middle. cbn [get_writable_loop].
  rewrite Hr, Z.eqb_refl. repeat f_equal.
  destruct b; unfold set_wpos; simpl. f_equal. symmetry. apply (v_wpos _ _ _ _ V).
Qed.

(** Otherwise it moves to the next preallocated segment. *)
Lemma get_writable_next b pre w s post :
  view b pre w (s :: post) -> rd_segment_write_remains w = 0 ->
  exists b' s',
    rd_buf_get_writable0 b = (b', seg_size s, Some (length (pre ++ [w]))) /\
    s' = set_seg_absof (rbuf_len b) s /\
    view b' (pre ++ [w]) s' post /\ rbuf_len b' = rbuf_len b /\
    rbuf_extra_len b' = rbuf_extra_len b /\ rbuf_extra_size b' = rbuf_extra_size b.
Proof.
  intros V Hr. destruct V as [Hsegs Hw Hok Hcnt Hlen Hsize Hch Hpost].
  apply Forall_cons in Hpost. destruct Hpost as [(Ho & Hro & Hsz & Ha) Hpost].
  unfold rd_buf_get_writable0. rewrite Hw, Hsegs, drop_middle. cbn [get_writable_loop].
  rewrite Hr, Z.eqb_refl.
  assert (Hrs : rd_segment_write_remains s = seg_size s).
  { unfold rd_segment_write_remains. rewrite Hro. lia. }
  rewrite Hrs, Ho, Z.eqb_refl. destruct (Z.eqb_spec (seg_size s) 0); [lia|].
  cbn [set_wpos rbuf_len andb].
  set (s' := set_seg_absof (rbuf_len b) s).
  set (b1 := set_wpos (Some (S (length pre))) (set_wpos (Some (length pre)) b)).
  assert (Hs' : seg_absof s = rbuf_len b -> s' = s) by (destruct s; simpl; intros ->; done).
  assert (Hsegs' : pre ++ w :: s' :: post = (pre ++ [w]) ++ s' :: post)
    by by rewrite <- app_assoc.
  assert (Hlen1 : length (pre ++ [w]) = S (length pre)) by (rewrite length_app; simpl; lia).
  assert (Hview : forall b', rbuf_segments b' = pre ++ w :: s' :: post ->
            rbuf_wpos b' = Some (S (length pre)) -> rbuf_segment_cnt b' = rbuf_segment_cnt b ->
            rbuf_len b' = rbuf_len b -> rbuf_size b' = rbuf_size b ->
            view b' (pre ++ [w]) s' post).
  { intros b' E1 E2 E3 E4 E5. constructor.
    - by rewrite E1, Hsegs'.
    - by rewrite Hlen1.
    - rewrite <- Hsegs'. rewrite Forall_app, !Forall_cons in *. naive_solver.
    - rewrite E3, Hcnt. rewrite <- Hsegs'. rewrite !length_app. done.
    - rewrite E4, Hlen, (sum_of_app _ [s']). simpl. lia.
    - rewrite E5, Hsize, <- Hsegs', !sum_size_app. done.
    - rewrite chain_app. split; [done|]. simpl. rewrite Hlen. lia.
    - by rewrite E4. }
  destruct (Z.ltb_spec (seg_absof s) (rbuf_len b)).
  - exists (upd_seg (S (length pre)) (set_seg_absof (rbuf_len b)) b1), s'. rewrite Hlen1.
    split_and!; try done. apply Hview; try done. simpl. rewrite Hsegs.
    change (w :: s :: post) with ([w] ++ s :: post). rewrite app_assoc, <- Hlen1, alter_middle.
    by rewrite <- app_assoc.
  - exists b1, s'. rewrite Hlen1. split_and!; try done. apply Hview; try done. simpl. rewrite Hsegs.
    by rewrite Hs' by lia.
Qed.

(** ** Writing into a segment *)

Lemma zlen_mem_write p o src :
  0 <= o -> o + zlen src <= zlen p -> zlen (mem_write p o src) = zlen p.
Proof.
  intros. unfold mem_write. rewrite !length_app, !Nat2Z.inj_add.
  rewrite zlen_ztake, zlen_zdrop by lia. lia.
Qed.

Lemma ztake_mem_write p o src :
  0 <= o -> o + zlen src <= zlen p ->
  ztake (o + zlen src) (mem_write p o src) = ztake o p ++ src.
Proof.
  intros. unfold mem_write. rewrite app_assoc. unfold ztake at 1.
  apply take_app_length'. rewrite length_app.
  pose proof (zlen_ztake o p ltac:(lia)). lia.
Qed.

(** The segment after one pass of the write loop. *)
Definition seg_append (data : list Z) (s : rd_segment) : rd_segment :=
  set_seg_of (seg_of s + zlen data)
    (set_seg_p (Some (mem_write (seg_mem s) (seg_of s) data)) s).

Lemma seg_append_ok s data :
  seg_ok s -> zlen data <= seg_size s - seg_of s ->
  seg_ok (seg_append data s) /\ seg_data (seg_append data s) = seg_data s ++ data.
Proof.
  intros [Ho Hm] Hd. unfold seg_ok, seg_data, seg_append, seg_mem in *. simpl.
  rewrite zlen_mem_write, ztake_mem_write by lia. split; [lia|done].
Qed.

Lemma view_update b pre w w' post wlen :
  view b pre w post -> seg_ok w' -> seg_absof w' = seg_absof w ->
  seg_size w' = seg_size w -> seg_of w' = seg_of w + wlen -> 0 <= wlen ->
  view (set_len (rbuf_len b + wlen) (set_segments (pre ++ w' :: post) b)) pre w' post.
Proof.
  intros V Hok Ha Hs Ho Hw. destruct V as [Hsegs Hwp Hoks Hcnt Hlen Hsize Hch Hpost].
  constructor; simpl; try done.
  - rewrite Forall_app, Forall_cons in *. destruct_and!; done.
  - rewrite Hcnt, !length_app. done.
  - rewrite Hlen, !sum_of_app. simpl. lia.
  - rewrite Hsize, !sum_size_app. simpl. lia.
  - rewrite chain_app in *. simpl in *. rewrite Ha. tauto.
  - eapply Forall_impl; [exact Hpost|]. intros s (? & ? & ? & ?). repeat split; try done. lia.
Qed.

(** The assignments of one pass of the loop, as a single segment update. *)
Lemma write_pass_eq b pre w post data :
  rbuf_segments b = pre ++ w :: post ->
  upd_seg (length pre) (fun s => set_seg_of (seg_of s + zlen data) s)
    (upd_seg (length pre)
       (fun s => set_seg_p (Some (mem_write (seg_mem s) (seg_of s) data)) s) b)
  = set_segments (pre ++ seg_append data w :: post) b.
Proof.
  intros H. unfold upd_seg, set_segments. simpl. by rewrite H, !alter_middle.
Qed.

Definition seg_same_alloc (s s' : rd_segment) : Prop :=
  seg_flags s' = seg_flags s /\ seg_addr s' = seg_addr s /\ seg_free s' = seg_free s.

Lemma remains_append w data :
  seg_rdonly w = false ->
  rd_segment_write_remains (seg_append data w) = rd_segment_write_remains w - zlen data.
Proof.
  intros H. unfold rd_segment_write_remains, seg_append.
  change (seg_rdonly (set_seg_of _ _)) with (seg_rdonly w). rewrite H. simpl. lia.
Qed.

Lemma remains_rdonly w : rd_segment_write_remains w <> 0 -> seg_rdonly w = false.
Proof. unfold rd_segment_write_remains. by destruct (seg_rdonly w). Qed.

(** One pass of the loop on a segment with room. *)
Lemma write_pass_here fuel b pre w post p remains :
  view b pre w post -> no_slack pre w ->
  0 < remains -> zlen p = remains -> 0 < rd_segment_write_remains w ->
  let data := ztake (Z.min remains (rd_segment_write_remains w)) p in
  exists b' w',
    buf_write_loop (S fuel) b (Some p) remains
      = buf_write_loop fuel b' (Some (zdrop (zlen data) p)) (remains - zlen data) /\
    view b' pre w' post /\ no_slack pre w' /\
    seg_data w' = seg_data w ++ data /\ seg_same_alloc w w' /\
    rd_segment_write_remains w' = rd_segment_write_remains w - zlen data /\
    zlen data = Z.min remains (rd_segment_write_remains w) /\
    rbuf_extra_len b' = rbuf_extra_len b /\ rbuf_extra_size b' = rbuf_extra_size b.
Proof.
  intros V [Hf Hw] Hr Hp Hroom data. pose proof (view_seg_ok _ _ _ _ V) as Hok.
  assert (Hro : seg_rdonly w = false) by (apply remains_rdonly; lia).
  assert (Hsz : rd_segment_write_remains w = seg_size w - seg_of w)
    by (unfold rd_segment_write_remains; by rewrite Hro).
  assert (Hd : zlen data = Z.min remains (rd_segment_write_remains w))
    by (apply zlen_ztake; lia).
  destruct (seg_append_ok w data Hok ltac:(lia)) as [Hok' Hdata].
  eexists _, (seg_append data w). split_and!.
  - cbn [buf_write_loop]. rewrite Z.gtb_ltb. destruct (Z.ltb_spec 0 remains); [|lia].
    rewrite (get_writable_here _ _ _ _ V) by lia. cbn iota beta.
    fold data. rewrite <- Hd, (write_pass_eq _ _ _ post) by apply V. reflexivity.
  - apply (view_update b pre w); simpl; done || lia.
  - split; [done|]. change (seg_rdonly (seg_append data w)) with (seg_rdonly w). congruence.
  - done.
  - done.
  - by apply remains_append.
  - done.
  - done.
  - done.
Qed.

(** One pass that first moves to the next segment. *)
Lemma write_pass_move fuel b pre w s post p remains :
  view b pre w (s :: post) -> no_slack pre w -> rd_segment_write_remains w = 0 ->
  0 < remains ->
  exists b' s',
    view b' (pre ++ [w]) s' post /\ no_slack (pre ++ [w]) s' /\
    seg_data s' = [] /\ seg_same_alloc s s' /\ rd_segment_write_remains s' = seg_size s /\
    0 < seg_size s /\
    buf_write_loop (S fuel) b (Some p) remains = buf_write_loop (S fuel) b' (Some p) remains /\
    rbuf_extra_len b' = rbuf_extra_len b /\ rbuf_extra_size b' = rbuf_extra_size b.
Proof.
  intros V [Hf Hw] Hr Hpos.
  pose proof (v_post _ _ _ _ V) as Hpost. apply Forall_cons in Hpost.
  destruct Hpost as [(Ho & Hro & Hsz & _) _].
  destruct (get_writable_next _ _ _ _ _ V Hr) as (b' & s' & Hg & Hs' & V' & Hl & He1 & He2).
  assert (Hrs : rd_segment_write_remains s' = seg_size s).
  { rewrite Hs'. unfold rd_segment_write_remains.
    change (seg_rdonly (set_seg_absof _ _)) with (seg_rdonly s). rewrite Hro. simpl. lia. }
  exists b', s'. split_and!; try done.
  - split.
    + apply Forall_app. split; [done|]. constructor; [|constructor].
      unfold full. destruct (seg_rdonly w) eqn:E; [by apply Hw|].
      unfold rd_segment_write_remains in Hr. rewrite E in Hr. lia.
    + rewrite Hs'. change (seg_rdonly (set_seg_absof _ _)) with (seg_rdonly s). congruence.
  - apply seg_data_nil. by rewrite Hs'.
  - by rewrite Hs'.
  - cbn [buf_write_loop]. rewrite Hg, Z.gtb_ltb. destruct (Z.ltb_spec 0 remains); [|lia].
    rewrite (get_writable_here _ _ _ _ V') by lia. by rewrite Hrs.
Qed.

(** ** The write loop *)

Definition same_alloc (l l' : list rd_segment) : Prop := Forall2 seg_same_alloc l l'.

Lemma seg_same_alloc_refl s : seg_same_alloc s s.
Proof. done. Qed.

Lemma same_alloc_refl l : same_alloc l l.
Proof. apply Forall_Forall2_diag, Forall_true. done. Qed.

Lemma same_alloc_trans l1 l2 l3 : same_alloc l1 l2 -> same_alloc l2 l3 -> same_alloc l1 l3.
Proof.
  intros H12. revert l3. induction H12 as [|s1 s2 l1 l2 (? & ? & ?) _ IH]; intros l3 H23.
  - exact H23.
  - inversion H23 as [|? s3 ? l3' (? & ? & ?)]; subst. constructor; [|by apply IH].
    repeat split; congruence.
Qed.

Lemma same_alloc_middle pre w w' post :
  seg_same_alloc w w' -> same_alloc (pre ++ w :: post) (pre ++ w' :: post).
Proof. intros. apply Forall2_app; [apply same_alloc_refl|]. constructor; [done|apply same_alloc_refl]. Qed.

(** What a completed write of [p] establishes. *)
Record written (b : rd_buf) (w : rd_segment) (post : list rd_segment) (p : list Z)
    (b' : rd_buf) (pre' : list rd_segment) (w' : rd_segment) (post' : list rd_segment)
  : Prop := mk_written {
  wr_view : view b' pre' w' post';
  wr_ns : no_slack pre' w';
  wr_contents : contents b' = contents b ++ p;
  wr_post : post = [] -> post' = [];
  wr_last : forall s, post = [s] -> rd_segment_write_remains w < zlen p -> post' = [];
  wr_alloc : same_alloc (rbuf_segments b) (rbuf_segments b');
  wr_extra : rbuf_extra_len b' = rbuf_extra_len b /\ rbuf_extra_size b' = rbuf_extra_size b }.

Lemma buf_write_loop_done fuel b pre w post p remains :
  view b pre w post -> no_slack pre w -> zlen p = remains -> remains <= 0 ->
  buf_write_loop fuel b (Some p) remains = Ret b /\ written b w post p b pre w post.
Proof.
  intros V Hns Hp Hz. assert (p = []) as -> by (destruct p; [done|simpl in *; lia]).
  simpl in Hp. subst remains. split; [by destruct fuel|].
  pose proof (remains_nonneg w (view_seg_ok _ _ _ _ V)).
  constructor; try done.
  - by rewrite app_nil_r.
  - simpl. intros. lia.
  - apply same_alloc_refl.
Qed.

(** The loop writes the whole payload: it returns, appends [p] to the contents
    and keeps the invariant. *)
Lemma buf_write_loop_spec fuel b pre w post p remains :
  view b pre w post -> no_slack pre w -> zlen p = remains ->
  remains <= rd_segment_write_remains w + sum_size post -> remains <= Z.of_nat fuel ->
  exists b' pre' w' post',
    buf_write_loop fuel b (Some p) remains = Ret b' /\
    written b w post p b' pre' w' post'.
Proof.
  revert b pre w post p remains. induction fuel as [|fuel IH];
    intros b pre w post p remains V Hns Hp Hsp Hfuel.
  { exists b, pre, w, post. apply buf_write_loop_done; done || lia. }
  destruct (Z.leb_spec remains 0) as [Hz|Hpos].
  { exists b, pre, w, post. by apply buf_write_loop_done. }
  assert (Hstep : forall b pre w post, view b pre w post -> no_slack pre w ->
    0 < rd_segment_write_remains w ->
    remains <= rd_segment_write_remains w + sum_size post ->
    exists b' pre' w' post', buf_write_loop (S fuel) b (Some p) remains = Ret b' /\
      written b w post p b' pre' w' post').
  { clear b pre w post V Hns Hsp. intros b pre w post V Hns Hroom Hsp.
    destruct (write_pass_here fuel b pre w post p remains V Hns Hpos Hp Hroom)
      as (b1 & w1 & -> & V1 & Hns1 & Hd1 & Hsa & Hr1 & Hl & He1 & He2).
    set (data := ztake _ p) in *.
    assert (Hrest : zlen (zdrop (zlen data) p) = remains - zlen data)
      by (rewrite zlen_zdrop; lia).
    destruct (IH b1 pre w1 post _ _ V1 Hns1 Hrest) as (b' & pre' & w' & post' & Hr & W);
      [lia..|]. exists b', pre', w', post'. split; [done|].
    destruct W as [Wv Wn Wc Wp Wl Wa [We1 We2]]. constructor; try done.
    - rewrite Wc, (view_contents _ _ _ _ V1), (view_contents _ _ _ _ V), Hd1, <- !app_assoc.
      do 2 f_equal. rewrite Hl. apply ztake_zdrop.
    - intros s -> Hlt. apply (Wl s); [done|]. lia.
    - eapply same_alloc_trans; [|exact Wa].
      rewrite (v_segs _ _ _ _ V), (v_segs _ _ _ _ V1). by apply same_alloc_middle.
    - split; congruence. }
  pose proof (remains_nonneg w (view_seg_ok _ _ _ _ V)).
  destruct (Z.eq_dec (rd_segment_write_remains w) 0) as [Hfull|]; [|apply (Hstep b pre w post); done || lia].
  destruct post as [|s post]; [simpl in Hsp; lia|].
  destruct (write_pass_move fuel b pre w s post p remains V Hns Hfull Hpos)
    as (b1 & s1 & V1 & Hns1 & Hd1 & Hsa & Hr1 & Hs & -> & He1 & He2).
  destruct (Hstep b1 (pre ++ [w]) s1 post) as (b' & pre' & w' & post' & Hr & W);
    [done..|lia|simpl in Hsp; lia|].
  exists b', pre', w', post'. split; [done|].
  destruct W as [Wv Wn Wc Wp Wl Wa [We1 We2]]. constructor; try done.
  - rewrite Wc, (view_contents _ _ _ _ V1), (view_contents _ _ _ _ V), bind_app, Hd1, app_nil_r.
    cbn. by rewrite app_nil_r.
  - intros s0 [= -> ->] _. by apply Wp.
  - eapply same_alloc_trans; [|exact Wa].
    rewrite (v_segs _ _ _ _ V), (v_segs _ _ _ _ V1), <- app_assoc.
    apply Forall2_app; [apply same_alloc_refl|].
    repeat (constructor; [done|]). apply same_alloc_refl.
  - split; congruence.
Qed.

(** ** Allocation *)

Lemma RD_ROUNDUP8_eq x : RD_ROUNDUP8 x = (x + 7) / 8 * 8.
Proof.
  unfold RD_ROUNDUP8. change (Z.lnot 7) with (Z.lnot (Z.ones 3)).
  rewrite <- Z.ldiff_land, Z.ldiff_ones_r, Z.shiftl_mul_pow2, Z.shiftr_div_pow2 by lia.
  reflexivity.
Qed.

Lemma RD_ROUNDUP8_bound x : x <= RD_ROUNDUP8 x <= x + 7.
Proof. rewrite RD_ROUNDUP8_eq. pose proof (Z.div_mod (x + 7) 8). pose proof (Z.mod_pos_bound (x + 7) 8). lia. Qed.

Lemma RD_ROUNDUP8_mono x y : x <= y -> RD_ROUNDUP8 x <= RD_ROUNDUP8 y.
Proof. intros. rewrite !RD_ROUNDUP8_eq. pose proof (Z.div_le_mono (x + 7) (y + 7) 8). lia. Qed.

(** The extra block has no room for another segment header. *)
Definition extra_full (b : rd_buf) : Prop :=
  rbuf_extra_size b < RD_ROUNDUP8 (rbuf_extra_len b) + SIZEOF_SEGMENT.

Definition seg_heap_flag (s : rd_segment) : bool :=
  negb (Z.land (seg_flags s) RD_SEGMENT_F_FREE =? 0).

(** Exactly the segments in heap blocks of their own carry the free flag. *)
Definition addr_ok (s : rd_segment) : Prop := seg_heap_flag s = true <-> seg_addr s = OnHeap.

Definition addr_inv (b : rd_buf) : Prop :=
  Forall addr_ok (rbuf_segments b) /\
  (Exists (fun s => seg_addr s = OnHeap) (rbuf_segments b) -> extra_full b).

(** A segment fresh from [rd_buf_alloc_segment0]. *)
Record alloced (b b' : rd_buf) (s : rd_segment) (size : Z) : Prop := mk_alloced {
  al_buf : b' = set_extra_len (rbuf_extra_len b') b;
  al_of : seg_of s = 0;
  al_size : seg_size s = size;
  al_mem : zlen (seg_mem s) = size;
  al_rdonly : seg_rdonly s = false;
  al_addr : addr_ok s;
  al_full : extra_full b -> extra_full b' /\ seg_addr s = OnHeap;
  al_heap : seg_addr s = OnHeap -> extra_full b' }.

Lemma fresh_mem_len size : 0 <= size -> zlen (default [] (fresh_mem size)) = size.
Proof.
  intros. unfold fresh_mem. rewrite Z.gtb_ltb. destruct (Z.ltb_spec 0 size); simpl.
  - rewrite length_replicate. lia.
  - lia.
Qed.

Lemma alloc_segment0_spec b size :
  0 <= size -> let '(b', s) := rd_buf_alloc_segment0 b size in alloced b b' s size.
Proof.
  intros Hsz. unfold rd_buf_alloc_segment0, extra_alloc. pose proof (fresh_mem_len size Hsz).
  assert (b = set_extra_len (rbuf_extra_len b) b) by by destruct b.
  rewrite Z.gtb_ltb.
  destruct (Z.ltb_spec (rbuf_extra_size b) (RD_ROUNDUP8 (rbuf_extra_len b) + (SIZEOF_SEGMENT + size))).
  - cbv beta iota zeta. rewrite Z.gtb_ltb. destruct (Z.ltb_spec (rbuf_extra_size b) (RD_ROUNDUP8 (rbuf_extra_len b) + SIZEOF_SEGMENT)).
    + cbv beta iota zeta. constructor; done.
    + cbv beta iota zeta. rewrite Z.gtb_ltb. destruct (Z.ltb_spec 0 size);
        (constructor; try done; unfold extra_full; simpl; lia).
  - cbv beta iota zeta. constructor; try done; unfold extra_full; simpl; lia.
Qed.

(** Appending a fresh segment to an empty buffer or to one whose write
    position is the last segment. *)
Definition appended (b b' : rd_buf) (s : rd_segment) : Prop :=
  rbuf_len b' = rbuf_len b + seg_of s /\
  rbuf_extra_len b' = rbuf_extra_len b /\ rbuf_extra_size b' = rbuf_extra_size b /\
  same_alloc (rbuf_segments b ++ [s]) (rbuf_segments b').

Lemma append_empty b s :
  empty_buf b -> seg_ok s ->
  exists b', rd_buf_append_segment b s = b' /\ appended b b' s /\
             view b' [] (set_seg_absof 0 s) [].
Proof.
  intros (Hs & Hw & Hc & Hl & Hz) Hok. eexists. split; [reflexivity|].
  unfold rd_buf_append_segment. simpl. rewrite Hw, Hs, Hc, Hl, Hz. simpl. split.
  - unfold appended; simpl. rewrite Hs, Hl. split_and!; try done.
    repeat constructor.
  - constructor; simpl; try done; try lia. by apply Forall_singleton.
Qed.

Lemma append_at b s pre w :
  view b pre w [] -> seg_ok s ->
  exists b1, appended b b1 s /\
    rbuf_segments b1 = pre ++ w :: [set_seg_absof (rbuf_len b) s] /\
    rbuf_wpos b1 = Some (length pre) /\
    rbuf_segment_cnt b1 = zlen (pre ++ w :: [s]) /\
    rbuf_size b1 = rbuf_size b + seg_size s /\
    rd_buf_append_segment b s = (rd_buf_get_writable0 b1).1.1.
Proof.
  intros V Hok. destruct V as [Hsegs Hwp Hoks Hcnt Hlen Hsize Hch Hpost].
  eexists (mk_buf (rbuf_segments b ++ [set_seg_absof (rbuf_len b) s]) (rbuf_segment_cnt b + 1)
             (rbuf_wpos b) (rbuf_len b + seg_of s) (rbuf_size b + seg_size s)
             (rbuf_extra b) (rbuf_extra_len b) (rbuf_extra_size b)).
  unfold rd_buf_append_segment. simpl. rewrite Hwp, Hsegs, <- app_assoc. split_and!; try done.
  - unfold appended; simpl. split_and!; try done. rewrite Hsegs, <- !app_assoc.
    apply Forall2_app; [apply same_alloc_refl|]. repeat constructor.
  - rewrite Hcnt, !length_app. simpl. lia.
  - unfold rd_buf_get_writable0. simpl. by destruct (get_writable_loop _ _ _ _) as [[? ?] ?].
Qed.

(** The view of the buffer between appending and moving the write position. *)
Lemma append_fresh_view b b1 s pre w :
  view b pre w [] -> seg_ok s -> seg_of s = 0 -> seg_rdonly s = false -> 0 < seg_size s ->
  appended b b1 s -> rbuf_segments b1 = pre ++ w :: [set_seg_absof (rbuf_len b) s] ->
  rbuf_wpos b1 = Some (length pre) -> rbuf_segment_cnt b1 = zlen (pre ++ w :: [s]) ->
  rbuf_size b1 = rbuf_size b + seg_size s ->
  view b1 pre w [set_seg_absof (rbuf_len b) s].
Proof.
  intros V Hok Ho Hro Hsz (Hl1 & _ & _ & _) Hs1 Hw1 Hc1 Hz1.
  destruct V as [Hsegs Hwp Hoks Hcnt Hlen Hsize Hch Hpost]. constructor; try done.
  - rewrite Forall_app, !Forall_cons in *. destruct_and!. done.
  - rewrite Hc1, !length_app. done.
  - rewrite Hl1, Hlen. lia.
  - rewrite Hz1, Hsize, !sum_size_app. simpl. lia.
  - repeat constructor; simpl; try done. lia.
Qed.

Lemma appended_moved b b1 b2 s :
  appended b b1 s -> rbuf_len b2 = rbuf_len b1 -> rbuf_extra_len b2 = rbuf_extra_len b1 ->
  rbuf_extra_size b2 = rbuf_extra_size b1 ->
  same_alloc (rbuf_segments b1) (rbuf_segments b2) -> appended b b2 s.
Proof.
  intros (? & ? & ? & ?) ? ? ? ?. unfold appended. split_and!; try congruence.
  by eapply same_alloc_trans.
Qed.

(** Appending an empty writable segment. *)
Lemma append_fresh b s pre w :
  view b pre w [] -> no_slack pre w ->
  seg_ok s -> seg_of s = 0 -> seg_rdonly s = false -> 0 < seg_size s ->
  exists b' pre' w' post',
    rd_buf_append_segment b s = b' /\ appended b b' s /\
    view b' pre' w' post' /\ no_slack pre' w' /\ contents b' = contents b /\
    rd_segment_write_remains w' + sum_size post' = rd_segment_write_remains w + seg_size s /\
    ((post' = [] /\ pre' = pre ++ [w] /\ rd_segment_write_remains w = 0) \/
     (exists s', post' = [s'] /\ w' = w /\ pre' = pre /\ rd_segment_write_remains w <> 0)).
Proof.
  intros V Hns Hok Ho Hro Hsz.
  destruct (append_at b s pre w V Hok) as (b1 & Hap & Hs1 & Hw1 & Hc1 & Hz1 & ->).
  pose proof (append_fresh_view _ _ _ _ _ V Hok Ho Hro Hsz Hap Hs1 Hw1 Hc1 Hz1) as V1.
  set (s1 := set_seg_absof (rbuf_len b) s) in *.
  destruct (Z.eq_dec (rd_segment_write_remains w) 0) as [Hz|Hnz].
  - destruct (get_writable_next _ _ _ _ _ V1 Hz) as (b' & s' & -> & Hs' & V' & Hl & He1 & He2).
    exists b', (pre ++ [w]), s', []. split_and!; try done.
    + eapply appended_moved; [exact Hap|done..|].
      rewrite Hs1, (v_segs _ _ _ _ V'), <- app_assoc.
      apply Forall2_app; [apply same_alloc_refl|]. rewrite Hs'. repeat constructor.
    + destruct Hns as [Hf Hw]. split.
      * apply Forall_app. split; [done|]. constructor; [|constructor]. unfold full.
        destruct (seg_rdonly w) eqn:E; [by apply Hw|].
        unfold rd_segment_write_remains in Hz. rewrite E in Hz. lia.
      * rewrite Hs'. change (seg_rdonly (set_seg_absof _ _)) with (seg_rdonly s). congruence.
    + rewrite (view_contents _ _ _ _ V'), (view_contents _ _ _ _ V), bind_app.
      rewrite (seg_data_nil s') by (by rewrite Hs'). cbn. by rewrite !app_nil_r.
    + rewrite Hs', Hz. unfold rd_segment_write_remains.
      change (seg_rdonly (set_seg_absof _ _)) with (seg_rdonly s). rewrite Hro. simpl. lia.
    + by left.
  - rewrite (get_writable_here _ _ _ _ V1 Hnz). simpl.
    exists b1, pre, w, [s1]. split_and!; try done.
    + by rewrite (view_contents _ _ _ _ V1), (view_contents _ _ _ _ V).
    + simpl. lia.
    + right. eauto.
Qed.

(** ** Header addresses *)

Lemma same_alloc_addr l l' :
  same_alloc l l' ->
  (Forall addr_ok l -> Forall addr_ok l') /\
  (Exists (fun s => seg_addr s = OnHeap) l' -> Exists (fun s => seg_addr s = OnHeap) l).
Proof.
  induction 1 as [|s s' l l' (Hf & Ha & _) _ [IH1 IH2]]; [done|].
  rewrite !Forall_cons, !Exists_cons. unfold addr_ok, seg_heap_flag. rewrite Hf, Ha. tauto.
Qed.

Lemma addr_inv_same b b' :
  addr_inv b -> same_alloc (rbuf_segments b) (rbuf_segments b') ->
  rbuf_extra_len b' = rbuf_extra_len b -> rbuf_extra_size b' = rbuf_extra_size b ->
  addr_inv b'.
Proof.
  intros [H1 H2] Hs He1 He2. destruct (same_alloc_addr _ _ Hs) as [Hok Hex].
  split; [by apply Hok|]. intros Hx. unfold extra_full in *. rewrite He1, He2. auto.
Qed.

(** Appending a segment whose header came out of the allocator. *)
Lemma addr_inv_append b b1 b2 s :
  addr_inv b -> rbuf_segments b1 = rbuf_segments b -> (extra_full b -> extra_full b1) ->
  addr_ok s -> (seg_addr s = OnHeap -> extra_full b1) -> appended b1 b2 s -> addr_inv b2.
Proof.
  intros [H1 H2] Hs He Hok Hh (_ & He1 & He2 & Hsa).
  destruct (same_alloc_addr _ _ Hsa) as [Hok2 Hex2]. rewrite Hs in *. split.
  - apply Hok2, Forall_app. auto using Forall_singleton.
  - intros Hx. apply Hex2, Exists_app in Hx. unfold extra_full in *. rewrite He1, He2.
    destruct Hx as [Hx|Hx]; [auto|]. apply Exists_cons in Hx. destruct Hx as [Hx|Hx]; [auto|].
    by apply Exists_nil in Hx.
Qed.

Lemma alloced_inv b b' s size :
  alloced b b' s size ->
  rbuf_segments b' = rbuf_segments b /\ rbuf_len b' = rbuf_len b /\ rbuf_size b' = rbuf_size b /\
  contents b' = contents b /\ (empty_buf b -> empty_buf b') /\
  (forall pre w post, view b pre w post -> view b' pre w post).
Proof.
  intros A. rewrite (al_buf _ _ _ _ A). split_and!; try done.
  intros pre w post [? ? ? ? ? ? ? ?]. by constructor.
Qed.

(** ** Ensuring room *)

(** The size [rd_buf_alloc_segment] asks for. *)
Definition alloc_size (b : rd_buf) (min_size max_size : Z) : Z :=
  if negb (min_size =? max_size) || (max_size =? 0)
  then Z.max (SIZEOF_SEGMENT * 4) (Z.max (u64 (min_size * 2)) (rbuf_size b / 2))
  else max_size.

Lemma alloc_size_bound b mn mx : 0 < mn < 2 ^ 63 -> mn <= alloc_size b mn mx.
Proof.
  intros. unfold alloc_size. destruct (Z.eqb_spec mn mx); simpl.
  - subst. destruct (Z.eqb_spec mx 0); simpl; lia.
  - rewrite (uwrap_id 64) by (unfold u_ok; lia). lia.
Qed.

(** A buffer with room for [n] bytes whose contents are unchanged. *)
Record ensured (b b' : rd_buf) (n : Z) (pre : list rd_segment) (w : rd_segment)
    (post : list rd_segment) : Prop := mk_ensured {
  en_view : view b' pre w post;
  en_ns : no_slack pre w;
  en_contents : contents b' = contents b;
  en_len : rbuf_len b' = rbuf_len b;
  en_room : n <= rd_segment_write_remains w + sum_size post;
  en_post : post = [] \/ exists s, post = [s] /\ rd_segment_write_remains w < n;
  en_addr : addr_inv b -> addr_inv b' }.

Lemma alloc_segment_ensures b mn mx n :
  buf_inv b -> 0 < mn < 2 ^ 63 -> n = rd_buf_write_remains b + mn ->
  exists b' pre w post, rd_buf_alloc_segment b mn mx = b' /\ ensured b b' n pre w post.
Proof.
  intros Hinv Hmn ->. unfold rd_buf_alloc_segment. fold (alloc_size b mn mx).
  pose proof (alloc_size_bound b mn mx Hmn) as Hsz. set (sz := alloc_size b mn mx) in *.
  pose proof (alloc_segment0_spec b sz ltac:(lia)) as A.
  destruct (rd_buf_alloc_segment0 b sz) as [b1 s].
  destruct (alloced_inv _ _ _ _ A) as (Hs1 & Hl1 & Hz1 & Hc1 & Hem & Hvw).
  assert (Haddr : forall b2, addr_inv b -> appended b1 b2 s -> addr_inv b2).
  { intros b2 Ha Hap. eapply (addr_inv_append b b1 b2 s); try done; apply A. }
  destruct A as [_ Ho Hs Hm Hro _ _ _].
  assert (Hok : seg_ok s) by (unfold seg_ok; lia).
  destruct Hinv as [He|(pre & w & V & Hns)].
  - destruct (append_empty b1 s (Hem He) Hok) as (b2 & <- & Hap & V2).
    destruct He as (E1 & E2 & E3 & E4 & E5).
    eexists _, [], (set_seg_absof 0 s), []. split; [reflexivity|].
    assert (Hr : rd_segment_write_remains (set_seg_absof 0 s) = sz).
    { unfold rd_segment_write_remains. change (seg_rdonly (set_seg_absof _ _)) with (seg_rdonly s).
      rewrite Hro. simpl. lia. }
    constructor; auto.
    + split; [constructor|]. change (seg_rdonly (set_seg_absof _ _)) with (seg_rdonly s). congruence.
    + rewrite (view_contents _ _ _ _ V2). unfold contents. rewrite E1. simpl.
      by rewrite seg_data_nil.
    + destruct Hap as (-> & _). lia.
    + rewrite Hr. unfold rd_buf_write_remains. rewrite E4, E5. simpl. lia.
  - pose proof (view_write_remains _ _ _ _ V Hns) as Hrem. simpl in Hrem.
    destruct (append_fresh b1 s pre w (Hvw _ _ _ V) Hns Hok Ho Hro ltac:(lia))
      as (b2 & pre' & w' & post' & <- & Hap & V2 & Hns2 & Hc2 & Hr2 & Hpost).
    eexists _, pre', w', post'. split; [reflexivity|]. constructor; auto.
    + by rewrite Hc2.
    + destruct Hap as (-> & _). lia.
    + lia.
    + destruct Hpost as [(-> & _)|(s' & -> & -> & _ & _)]; [by left|]. right.
      exists s'. split; [done|]. lia.
Qed.

Lemma ensured_inv_remains b b' n pre w post :
  ensured b b' n pre w post -> n <= rd_buf_write_remains b'.
Proof. intros E. rewrite (view_write_remains _ pre w post) by apply E. apply E. Qed.

(** [rd_buf_write_ensure] terminates after at most one allocation. *)
Lemma write_ensure_ret b mn mx :
  buf_inv b -> mn < 2 ^ 63 ->
  exists b', rd_buf_write_ensure b mn mx = Ret b' /\
    ((b' = b /\ mn <= rd_buf_write_remains b) \/
     (rd_buf_write_remains b < mn /\ exists pre w post, ensured b b' mn pre w post)).
Proof.
  intros Hinv Hmn. unfold rd_buf_write_ensure. cbn [write_ensure_loop].
  assert (0 <= rd_buf_write_remains b).
  { destruct Hinv as [(E1 & E2 & E3 & E4 & E5)|(pre & w & V & Hns)].
    - unfold rd_buf_write_remains. lia.
    - rewrite (view_write_remains _ _ _ _ V Hns). simpl.
      pose proof (remains_nonneg w (view_seg_ok _ _ _ _ V)). lia. }
  destruct (Z.ltb_spec (rd_buf_write_remains b) mn); [|exists b; auto].
  destruct (alloc_segment_ensures b (mn - rd_buf_write_remains b)
     (if mx =? 0 then 0 else u64 (mx - rd_buf_write_remains b)) mn Hinv ltac:(lia) ltac:(lia))
    as (b' & pre & w & post & -> & E).
  pose proof (ensured_inv_remains _ _ _ _ _ _ E).
  destruct (Z.ltb_spec (rd_buf_write_remains b') mn); [lia|].
  exists b'. split; [done|]. right. eauto.
Qed.

(** ** rd_buf_write *)

Lemma inv_zlen b : buf_inv b -> zlen (contents b) = rbuf_len b.
Proof.
  intros [(E1 & _ & _ & E4 & _)|(pre & w & V & _)].
  - unfold contents. rewrite E1. simpl. lia.
  - by eapply view_zlen.
Qed.

Lemma buf_write_spec b p size :
  buf_inv b -> zlen p = size -> size < 2 ^ 63 ->
  exists b', rd_buf_write b (Some p) size = Ret (b', rbuf_len b) /\
    buf_inv b' /\ contents b' = contents b ++ p /\ (addr_inv b -> addr_inv b').
Proof.
  intros Hinv Hp Hsz. unfold rd_buf_write.
  destruct (write_ensure_ret b size 0 Hinv Hsz) as (b1 & -> & Hcase). cbn [obind].
  assert (Hgo : forall pre w post, view b1 pre w post -> no_slack pre w ->
    size <= rd_segment_write_remains w + sum_size post ->
    (post = [] \/ exists s, post = [s] /\ rd_segment_write_remains w < size) ->
    contents b1 = contents b -> (addr_inv b -> addr_inv b1) ->
    exists b', (let! b0 := buf_write_loop (Z.to_nat size) b1 (Some p) size in Ret (b0, rbuf_len b))
                 = Ret (b', rbuf_len b) /\
      buf_inv b' /\ contents b' = contents b ++ p /\ (addr_inv b -> addr_inv b')).
  { intros pre w post V Hns Hroom Hpost Hc Ha.
    destruct (buf_write_loop_spec (Z.to_nat size) b1 pre w post p size V Hns Hp Hroom ltac:(lia))
      as (b' & pre' & w' & post' & -> & W). exists b'.
    assert (post' = []) as ->.
    { destruct Hpost as [->|(s & -> & Hlt)]; [by apply W|]. apply (wr_last _ _ _ _ _ _ _ _ W s); [done|lia]. }
    split_and!; [done| |by rewrite (wr_contents _ _ _ _ _ _ _ _ W), Hc|].
    - right. exists pre', w'. split; apply W.
    - intros Hb. eapply addr_inv_same; [by apply Ha|apply W..]. }
  destruct Hcase as [[-> Hrem]|(Hlt & pre & w & post & E)].
  - destruct Hinv as [He|(pre & w & V & Hns)].
    + destruct He as (E1 & E2 & E3 & E4 & E5). unfold rd_buf_write_remains in Hrem.
      assert (p = []) as -> by (destruct p; [done|simpl in *; lia]).
      simpl in Hp. subst size. exists b. rewrite app_nil_r. split_and!; try done.
      left. by unfold empty_buf.
    + apply (Hgo pre w []); auto. rewrite (view_write_remains _ _ _ _ V Hns) in Hrem. done.
  - apply (Hgo pre w post); apply E.
Qed.

(** ** rd_buf_push *)

Lemma append_rdonly b s pre w :
  view b pre w [] -> no_slack pre w -> rd_segment_write_remains w = 0 ->
  seg_ok s -> seg_rdonly s = true -> full s ->
  exists b' s', rd_buf_append_segment b s = b' /\ appended b b' s /\
    view b' (pre ++ [w]) s' [] /\ no_slack (pre ++ [w]) s' /\
    rd_segment_write_remains s' = 0 /\
    contents b' = contents b ++ seg_mem s.
Proof.
  intros V [Hf Hw] Hz Hok Hro Hfull.
  destruct (append_at b s pre w V Hok) as (b1 & Hap & Hs1 & Hw1 & Hc1 & Hz1 & ->).
  set (s1 := set_seg_absof (rbuf_len b) s) in *.
  assert (Hr1 : rd_segment_write_remains s1 = 0).
  { unfold rd_segment_write_remains. change (seg_rdonly s1) with (seg_rdonly s). by rewrite Hro. }
  assert (Hlen1 : length (pre ++ [w]) = S (length pre)) by (rewrite length_app; simpl; lia).
  set (b2 := set_wpos (Some (S (length pre))) (set_wpos (Some (length pre)) b1)).
  assert (Hg : rd_buf_get_writable0 b1 = (b2, 0, Some (S (length pre)))).
  { unfold rd_buf_get_writable0. rewrite Hw1, Hs1, drop_middle. cbn [get_writable_loop].
    rewrite Hz, Hr1. done. }
  assert (Hfw : full w).
  { unfold full. destruct (seg_rdonly w) eqn:E; [by apply Hw|].
    unfold rd_segment_write_remains in Hz. rewrite E in Hz. lia. }
  assert (V2 : view b2 (pre ++ [w]) s1 []).
  { destruct V as [Hsegs Hwp Hoks Hcnt Hlen Hsize Hch Hpost]. destruct Hap as (Hl & _).
    constructor; simpl; try done.
    - by rewrite Hs1, <- app_assoc.
    - by rewrite Hlen1.
    - rewrite !Forall_app, !Forall_cons in *. destruct_and!. done.
    - rewrite Hc1, !length_app. simpl. lia.
    - rewrite Hl, Hlen, !sum_of_app. simpl. lia.
    - rewrite Hz1, Hsize, !sum_size_app. simpl. lia.
    - rewrite chain_app. split; [done|]. simpl. rewrite Hlen. lia. }
  rewrite Hg. simpl. exists b2, s1. split_and!; try done.
  - split; [|done]. apply Forall_app. split; [done|]. by apply Forall_singleton.
  - rewrite (view_contents _ _ _ _ V2), (view_contents _ _ _ _ V), bind_app. cbn.
    rewrite app_nil_r. f_equal. unfold seg_data.
    change (seg_mem s1) with (seg_mem s). change (seg_of s1) with (seg_of s).
    destruct Hok as [? Hm]. unfold ztake. rewrite take_ge; [done|]. unfold full in *. lia.
Qed.

Lemma rdonly_lor s1 s2 :
  seg_rdonly s1 = false -> seg_rdonly s2 = false ->
  Z.land (Z.lor (seg_flags s1) (seg_flags s2)) RD_SEGMENT_F_RDONLY = 0.
Proof.
  unfold seg_rdonly. intros H1 H2. bool_hyps.
  by rewrite Z.land_lor_distr_l, H1, H2.
Qed.

Lemma heap_flag_lor f1 f2 :
  negb (Z.land (Z.lor f1 f2) RD_SEGMENT_F_FREE =? 0)
  = (negb (Z.land f1 RD_SEGMENT_F_FREE =? 0) || negb (Z.land f2 RD_SEGMENT_F_FREE =? 0)).
Proof.
  rewrite Z.land_lor_distr_l. set (x := Z.land f1 _). set (y := Z.land f2 _).
  destruct (Z.eqb_spec x 0) as [->|Hx]; [by rewrite Z.lor_0_l|]. simpl.
  destruct (Z.eqb_spec (Z.lor x y) 0) as [Hl|]; [|done].
  apply Z.lor_eq_0_iff in Hl. tauto.
Qed.

(** Splitting the last segment at its write offset. *)
Lemma split_at_wpos b pre w :
  view b pre w [] -> no_slack pre w -> 0 < rd_segment_write_remains w ->
  exists b' w' t,
    rd_segment_split b (length pre) (seg_absof w + seg_of w) = Ret (b', t) /\
    view b' pre w' [] /\ no_slack pre w' /\ rd_segment_write_remains w' = 0 /\
    contents b' = contents b /\ rbuf_len b' = rbuf_len b /\
    seg_ok t /\ seg_of t = 0 /\ seg_rdonly t = false /\ 0 < seg_size t /\
    (addr_inv b -> addr_inv b' /\ addr_ok t /\ (seg_addr t = OnHeap -> extra_full b')).
Proof.
  intros V [Hf Hw] Hr. assert (Hro : seg_rdonly w = false) by (apply remains_rdonly; lia).
  assert (Hrw : rd_segment_write_remains w = seg_size w - seg_of w)
    by (unfold rd_segment_write_remains; by rewrite Hro).
  pose proof (view_seg_ok _ _ _ _ V) as [Hok Hmem].
  unfold rd_segment_split. rewrite (v_segs _ _ _ _ V), list_lookup_middle by done.
  rewrite bool_decide_true by apply V. rewrite Z.geb_leb.
  destruct (Z.leb_spec (seg_absof w) (seg_absof w + seg_of w)); [|lia].
  rewrite Z.leb_refl. simpl.
  pose proof (alloc_segment0_spec b 0 ltac:(lia)) as A.
  destruct (rd_buf_alloc_segment0 b 0) as [b1 n]. pose proof (alloced_inv _ _ _ _ A) as (_ & _ & _ & _ & _ & Hvw).
  specialize (Hvw _ _ _ V). rewrite Z.add_simpl_l.
  set (w' := mk_segment (ztake (seg_of w) <$> seg_p w) (seg_of w) (seg_of w) (seg_absof w)
               (seg_free w) (seg_flags w) (seg_addr w)).
  assert (Hmw : seg_mem w' = ztake (seg_of w) (seg_mem w)).
  { unfold seg_mem. simpl. destruct (seg_p w); simpl; [done|]. by rewrite ztake_nil. }
  assert (Hdw : seg_data w' = seg_data w).
  { unfold seg_data. rewrite Hmw. simpl. unfold ztake. by rewrite take_take, Nat.min_id. }
  eexists _, w', _. split; [reflexivity|]. split_and!; simpl; try done; try lia.
  - destruct Hvw as [Hsegs Hwp Hoks Hcnt Hlen Hsize Hch Hpost]. constructor; simpl; try done.
    + by rewrite Hsegs, alter_middle.
    + rewrite !Forall_app, !Forall_cons in *. destruct_and!. split_and!; try done.
      split; [simpl; lia|]. rewrite Hmw, zlen_ztake by lia. done.
    + rewrite Hcnt, !length_app. done.
    + rewrite Hlen, !sum_of_app. simpl. lia.
    + rewrite Hsize, !sum_size_app. simpl. lia.
    + rewrite chain_app in *. done.
  - unfold rd_segment_write_remains. simpl. destruct (seg_rdonly w'); lia.
  - unfold contents. simpl.
    rewrite (v_segs _ _ _ _ Hvw), alter_middle, (v_segs _ _ _ _ V), !bind_app. cbn.
    fold w'. by rewrite Hdw.
  - rewrite (al_buf _ _ _ _ A). simpl. lia.
  - split; simpl; [lia|]. unfold seg_mem. simpl.
    transitivity (zlen (zdrop (seg_of w) (seg_mem w))); [|rewrite zlen_zdrop; lia].
    unfold seg_mem. destruct (seg_p w); simpl; [done|]. by rewrite zdrop_nil.
  - apply negb_false_iff, Z.eqb_eq. apply (rdonly_lor n w); [apply A|done].
  - intros [Ha He].
    assert (Haw : addr_ok w).
    { rewrite (v_segs _ _ _ _ V) in Ha. apply Forall_app in Ha as [_ Ha]. exact (proj1 (Forall_singleton _ _) Ha). }
    assert (Hheap : seg_addr w = OnHeap -> extra_full b).
    { intros Hx. apply He. rewrite (v_segs _ _ _ _ V). apply Exists_app. right. by left. }
    assert (Hsa : same_alloc (rbuf_segments b) (pre ++ [w'])).
    { rewrite (v_segs _ _ _ _ V). by apply same_alloc_middle. }
    destruct (same_alloc_addr _ _ Hsa) as [Hok2 Hex2].
    split_and!.
    + split; simpl; rewrite (v_segs _ _ _ _ Hvw), alter_middle; [by apply Hok2|].
      intros Hx. apply (proj1 (al_full _ _ _ _ A (He (Hex2 Hx)))).
    + unfold addr_ok, seg_heap_flag. simpl. rewrite heap_flag_lor.
      pose proof (al_addr _ _ _ _ A) as Han. unfold addr_ok, seg_heap_flag in *.
      rewrite orb_true_iff. rewrite Han. split; [|tauto]. intros [?|Hx]; [done|].
      apply Haw, Hheap in Hx. by apply (al_full _ _ _ _ A).
    + intros Hx. apply (al_heap _ _ _ _ A Hx).
Qed.

Lemma push_seg_spec b n payload size cb b1 :
  alloced b b1 n 0 -> zlen (default [] payload) = size ->
  let s := mk_segment payload size size (seg_absof n) cb
             (Z.lor (seg_flags n) RD_SEGMENT_F_RDONLY) (seg_addr n) in
  seg_ok s /\ seg_rdonly s = true /\ full s /\ addr_ok s.
Proof.
  intros A Hp s. split_and!; try done.
  - split; simpl; [lia|done].
  - unfold seg_rdonly. simpl. apply negb_true_iff, Z.eqb_neq. intros Hz.
    rewrite Z.land_lor_distr_l in Hz. apply Z.lor_eq_0_iff in Hz. destruct Hz as [_ Hz]. done.
  - pose proof (al_addr _ _ _ _ A) as Ha. unfold addr_ok, seg_heap_flag in *. simpl.
    rewrite heap_flag_lor. simpl. by rewrite orb_false_r.
Qed.

(** The part of [rd_buf_push] after the split: allocate, append, append the tail. *)
Lemma push_append_spec b pre w payload size cb :
  view b pre w [] -> no_slack pre w -> rd_segment_write_remains w = 0 ->
  zlen (default [] payload) = size ->
  exists b1 n b2 s',
    rd_buf_alloc_segment0 b 0 = (b1, n) /\
    rd_buf_append_segment b1 (mk_segment payload size size (seg_absof n) cb
             (Z.lor (seg_flags n) RD_SEGMENT_F_RDONLY) (seg_addr n)) = b2 /\
    view b2 (pre ++ [w]) s' [] /\ no_slack (pre ++ [w]) s' /\ rd_segment_write_remains s' = 0 /\
    contents b2 = contents b ++ default [] payload /\
    (addr_inv b -> addr_inv b2) /\ (extra_full b -> extra_full b2).
Proof.
  intros V Hns Hz Hp. pose proof (alloc_segment0_spec b 0 ltac:(lia)) as A.
  destruct (rd_buf_alloc_segment0 b 0) as [b1 n]. pose proof (alloced_inv _ _ _ _ A) as (Hs1 & _ & _ & Hc1 & _ & Hvw).
  destruct (push_seg_spec _ _ _ size cb _ A Hp) as (Hok & Hro & Hfull & Haddr).
  destruct (append_rdonly b1 _ pre w (Hvw _ _ _ V) Hns Hz Hok Hro Hfull)
    as (b2 & s' & Hap & Happ & V2 & Hns2 & Hr2 & Hc2).
  eexists b1, n, b2, s'. split_and!; try done.
  - by rewrite Hc2, Hc1.
  - intros Ha. eapply addr_inv_append; [exact Ha|done|apply A|exact Haddr|apply A|exact Happ].
  - intros He. destruct Happ as (_ & He1 & He2 & _). apply (al_full _ _ _ _ A) in He as [He _].
    unfold extra_full in *. rewrite He1, He2. done.
Qed.

Lemma buf_push_spec b payload size cb :
  buf_inv b -> zlen (default [] payload) = size ->
  exists b', rd_buf_push b payload size cb = Ret b' /\
    buf_inv b' /\ contents b' = contents b ++ default [] payload /\ (addr_inv b -> addr_inv b').
Proof.
  intros [He|(pre & w & V & Hns)] Hp; unfold rd_buf_push.
  - pose proof He as (E1 & E2 & _). rewrite E2. cbn [obind].
    pose proof (alloc_segment0_spec b 0 ltac:(lia)) as A.
    destruct (rd_buf_alloc_segment0 b 0) as [b1 n]. pose proof (alloced_inv _ _ _ _ A) as (Hs1 & _ & _ & _ & Hem & _).
    destruct (push_seg_spec _ _ _ size (FreeCb <$> cb) _ A Hp) as (Hok & Hro & Hfull & Haddr).
    destruct (append_empty b1 _ (Hem He) Hok) as (b2 & -> & Hap & V2).
    exists b2. split_and!; [done| | |].
    + right. eexists [], _. split; [exact V2|]. by split; [constructor|].
    + rewrite (view_contents _ _ _ _ V2). unfold contents. rewrite E1. cbn.
      unfold seg_data, ztake, seg_mem. simpl. by rewrite take_ge by lia.
    + intros Ha. eapply addr_inv_append; [exact Ha|done|apply A|exact Haddr|apply A|exact Hap].
  - rewrite (v_wpos _ _ _ _ V), (v_segs _ _ _ _ V), list_lookup_middle by done. cbn [obind].
    rewrite Z.gtb_ltb. destruct (Z.ltb_spec 0 (rd_segment_write_remains w)) as [Hroom|Hno].
    + destruct (split_at_wpos b pre w V Hns Hroom)
        as (b1 & w1 & t & -> & V1 & Hns1 & Hr1 & Hc1 & Hl1 & Hokt & Hot & Hrot & Hst & Haddr1).
      cbn [obind].
      destruct (push_append_spec b1 pre w1 payload size (FreeCb <$> cb) V1 Hns1 Hr1 Hp)
        as (b2 & n & b3 & s' & -> & -> & V3 & Hns3 & Hr3 & Hc3 & Ha3 & Hf3).
      destruct (append_fresh b3 t _ _ V3 Hns3 Hokt Hot Hrot Hst)
        as (b4 & pre' & w' & post' & -> & Happ & V4 & Hns4 & Hc4 & _ & Hpost).
      exists b4. split_and!; [done| |by rewrite Hc4, Hc3, Hc1|].
      * right. exists pre', w'. by destruct Hpost as [(-> & _)|(s0 & _ & _ & _ & ?)].
      * intros Ha. destruct (Haddr1 Ha) as (Ha1 & Hat & Hht).
        eapply addr_inv_append; [by apply Ha3|done|done|exact Hat| |exact Happ]. auto.
    + pose proof (remains_nonneg w (view_seg_ok _ _ _ _ V)). cbn [obind].
      destruct (push_append_spec b pre w payload size (FreeCb <$> cb) V Hns ltac:(lia) Hp)
        as (b2 & n & b3 & s' & -> & -> & V3 & Hns3 & Hr3 & Hc3 & Ha3 & _).
      exists b3. split_and!; [done|right; by exists (pre ++ [w]), s'|done|done].
Qed.
