(* ===== verification/BufSeek.v ===== *)
(** * Segmented byte buffers: lookup by offset, in-place update, write seek *)
From Stdlib Require Import ZArith Lia.
From stdpp Require Import base numbers list.
From S2P Require Import Prelude Buf BufFacts.

(** ** Reading invariant

    What offset lookup and the slice readers rely on: contiguous absolute
    offsets and an accurate length. *)
Record read_wf (b : rd_buf) : Prop := mk_read_wf {
  rw_ok : Forall seg_ok (rbuf_segments b);
  rw_chain : chain 0 (rbuf_segments b);
  rw_len : rbuf_len b = sum_of (rbuf_segments b);
  rw_nonempty : rbuf_segments b <> [] }.

Lemma view_read_wf b pre w : view b pre w [] -> read_wf b.
Proof.
  intros V. destruct V as [Hsegs Hwp Hoks Hcnt Hlen Hsize Hch Hpost].
  constructor; rewrite Hsegs; try done. by destruct pre.
Qed.

Lemma read_wf_zlen b : read_wf b -> zlen (contents b) = rbuf_len b.
Proof. intros R. rewrite (rw_len _ R). apply zlen_contents_list, R. Qed.

(** ** Lookup *)

Lemma segment_scan_some l a i absof :
  chain a l -> Forall seg_ok l -> a <= absof < a + sum_of l ->
  exists l1 s l2, l = l1 ++ s :: l2 /\
    segment_scan l i absof = Some (i + length l1)%nat /\
    a + sum_of l1 <= absof < a + sum_of l1 + seg_of s.
Proof.
  revert a i; induction l as [|s l IH]; intros a i Hc Hok Hb; simpl in *; [lia|].
  destruct Hc as [Ha Hc]. apply Forall_cons in Hok as [Hs Hok]. rewrite Z.geb_leb.
  destruct (Z.leb_spec (seg_absof s) absof); [|lia].
  destruct (Z.ltb_spec absof (seg_absof s + seg_of s)); simpl.
  - exists [], s, l. simpl. split_and!; try done; try lia. f_equal. lia.
  - destruct (IH (a + seg_of s) (S i) Hc Hok ltac:(lia)) as (l1 & s' & l2 & -> & Hsc & Hbd).
    exists (s :: l1), s', l2. simpl. split_and!; try done; try lia.
    rewrite Hsc. f_equal. lia.
Qed.

Lemma segment_scan_none l a i absof :
  chain a l -> Forall seg_ok l -> a + sum_of l <= absof -> segment_scan l i absof = None.
Proof.
  revert a i; induction l as [|s l IH]; intros a i Hc Hok Hb; simpl in *; [done|].
  destruct Hc as [Ha Hc]. apply Forall_cons in Hok as [Hs Hok].
  pose proof (sum_of_nonneg l Hok).
  destruct (Z.ltb_spec absof (seg_absof s + seg_of s)); [lia|]. rewrite andb_false_r.
  apply (IH (a + seg_of s)); try done. lia.
Qed.

Definition valid_hint (b : rd_buf) (hint : option nat) : Prop :=
  match hint with None => True | Some h => (h < length (rbuf_segments b))%nat end.

(** [rd_buf_get_segment_at_offset] finds the segment that holds the byte at
    [absof], from any starting hint, and reports NULL at or past the end. *)
Lemma segment_at_offset_spec b hint absof :
  read_wf b -> valid_hint b hint -> 0 <= absof ->
  if absof <? rbuf_len b then
    exists l1 s l2, rbuf_segments b = l1 ++ s :: l2 /\
      rd_buf_get_segment_at_offset b hint absof = Ret (Some (length l1)) /\
      sum_of l1 <= absof < sum_of l1 + seg_of s /\ seg_absof s = sum_of l1
  else rd_buf_get_segment_at_offset b hint absof = Ret None.
Proof.
  intros R Hh H0.
  assert (Hgo : forall l1 l2, rbuf_segments b = l1 ++ l2 -> sum_of l1 <= absof ->
    if absof <? rbuf_len b then
      exists l1' s l2', rbuf_segments b = l1' ++ s :: l2' /\
        segment_scan l2 (length l1) absof = Some (length l1') /\
        sum_of l1' <= absof < sum_of l1' + seg_of s /\ seg_absof s = sum_of l1'
    else segment_scan l2 (length l1) absof = None).
  { intros l1 l2 Hs Hle. pose proof (rw_chain _ R) as Hc. pose proof (rw_ok _ R) as Hok.
    pose proof (rw_len _ R) as Hl. rewrite Hs in *. apply chain_app in Hc as [_ Hc].
    apply Forall_app in Hok as [_ Hok]. rewrite sum_of_app in Hl.
    destruct (Z.ltb_spec absof (rbuf_len b)).
    - destruct (segment_scan_some l2 _ (length l1) absof Hc Hok ltac:(lia)) as (m1 & s & m2 & -> & Hsc & Hb).
      exists (l1 ++ m1), s, m2. rewrite length_app, sum_of_app, <- app_assoc.
      apply chain_app in Hc as [_ [Hc _]]. split_and!; done || lia.
    - apply (segment_scan_none _ _ _ _ Hc Hok). lia. }
  unfold rd_buf_get_segment_at_offset. rewrite Z.gtb_ltb.
  destruct (Z.ltb_spec (rbuf_len b) absof).
  { destruct (Z.ltb_spec absof (rbuf_len b)); [lia|done]. }
  rewrite decide_False by apply R.
  assert (Hfirst : if absof <? rbuf_len b then
      exists l1' s l2', rbuf_segments b = l1' ++ s :: l2' /\
        Ret (segment_scan (drop 0 (rbuf_segments b)) 0 absof) = Ret (Some (length l1')) /\
        sum_of l1' <= absof < sum_of l1' + seg_of s /\ seg_absof s = sum_of l1'
    else Ret (segment_scan (drop 0 (rbuf_segments b)) 0 absof) = Ret None).
  { specialize (Hgo [] (rbuf_segments b) eq_refl ltac:(simpl; lia)). simpl in Hgo. rewrite drop_0.
    destruct (absof <? rbuf_len b); [|by rewrite Hgo].
    destruct Hgo as (l1 & s & l2 & ? & -> & ?). by exists l1, s, l2. }
  destruct hint as [h|]; [|exact Hfirst]. simpl in Hh.
  destruct (lookup_lt_is_Some_2 _ _ Hh) as [sh Hsh]. rewrite Hsh.
  destruct (Z.ltb_spec absof (seg_absof sh)); [exact Hfirst|].
  pose proof (take_drop_middle _ _ _ Hsh) as Hmid. pose proof (rw_chain _ R) as Hc.
  rewrite <- Hmid, chain_app in Hc. destruct Hc as [_ [Hc _]].
  assert (Hlt : length (take h (rbuf_segments b)) = h) by (rewrite length_take; lia).
  specialize (Hgo (take h (rbuf_segments b)) (drop h (rbuf_segments b))
                ltac:(by rewrite take_drop) ltac:(lia)).
  rewrite Hlt in Hgo. destruct (absof <? rbuf_len b); [|by rewrite Hgo].
  destruct Hgo as (l1 & s & l2 & ? & -> & ?). by exists l1, s, l2.
Qed.

(** ** Write seek *)

Lemma seek_destroy_loop_spec l1 s l2 fuel b :
  rbuf_segments b = l1 ++ s :: l2 -> Forall seg_ok (l1 ++ s :: l2) ->
  rbuf_segment_cnt b = zlen (l1 ++ s :: l2) -> rbuf_len b = sum_of (l1 ++ s :: l2) ->
  rbuf_size b = sum_size (l1 ++ s :: l2) -> (length l2 <= fuel)%nat ->
  exists b', seek_destroy_loop fuel b (length l1) = Ret (b', reverse l2 ≫= rd_segment_destroy) /\
    rbuf_segments b' = l1 ++ [s] /\ rbuf_segment_cnt b' = zlen (l1 ++ [s]) /\
    rbuf_size b' = sum_size (l1 ++ [s]) /\
    rbuf_extra_len b' = rbuf_extra_len b /\ rbuf_extra_size b' = rbuf_extra_size b.
Proof.
  revert l2 b; induction fuel as [|fuel IH]; intros l2 b Hs Hok Hc Hl Hz Hf.
  - destruct l2; [|simpl in Hf; lia]. exists b. split_and!; try done.
    unfold seek_destroy_loop, rd_buf_last. rewrite Hs.
    destruct (l1 ++ [s]) eqn:E; [by destruct l1|]. rewrite <- E, length_app. simpl.
    rewrite bool_decide_true by lia. done.
  - destruct l2 as [|x l2 _] using rev_ind.
    { exists b. split_and!; try done. cbn [seek_destroy_loop]. unfold rd_buf_last. rewrite Hs.
      destruct (l1 ++ [s]) eqn:E; [by destruct l1|]. rewrite <- E, length_app. simpl.
      rewrite bool_decide_true by lia. done. }
    assert (Hsx : l1 ++ s :: l2 ++ [x] = (l1 ++ s :: l2) ++ [x]) by by rewrite <- app_assoc.
    rewrite Hsx in *. pose proof (proj1 (Forall_app _ _ _) Hok) as [Hok1 Hokx].
    apply Forall_cons in Hokx as [Hokx _]. pose proof (sum_of_nonneg _ Hok1). pose proof (sum_of_le_size _ Hok1).
    rewrite sum_of_app in Hl. rewrite sum_size_app in Hz. simpl in Hl, Hz.
    rewrite length_app in Hc. simpl in Hc. destruct Hokx as [Hx _].
    cbn [seek_destroy_loop]. unfold rd_buf_last. rewrite Hs.
    destruct ((l1 ++ s :: l2) ++ [x]) eqn:E; [by destruct l1|]. rewrite <- E.
    replace (length ((l1 ++ s :: l2) ++ [x]) - 1)%nat with (length (l1 ++ s :: l2))
      by (rewrite (length_app _ [x]); simpl; lia).
    rewrite bool_decide_false by (rewrite length_app; simpl; lia).
    unfold rd_buf_destroy_segment. rewrite Hs, <- E, list_lookup_middle by done.
    rewrite Z.gtb_ltb, !Z.geb_leb. destruct (Z.ltb_spec 0 (rbuf_segment_cnt b)); [|lia].
    destruct (Z.leb_spec (seg_of x) (rbuf_len b)); [|lia].
    destruct (Z.leb_spec (seg_size x) (rbuf_size b)); [|lia].
    cbn [andb obind]. rewrite (delete_middle (l1 ++ s :: l2) [] x), app_nil_r.
    match goal with |- context [seek_destroy_loop fuel ?b1 _] => set (bb := b1) end.
    destruct (IH l2 bb) as (b' & -> & ? & ? & ? & ? & ?); simpl; try done; try lia.
    { rewrite length_app in Hf. simpl in Hf. lia. }
    cbn [obind]. exists b'. split_and!; try done.
    rewrite reverse_app. simpl. done.
Qed.

Lemma ztake_app_in {A} (l1 l2 l3 : list A) n :
  zlen l1 <= n <= zlen l1 + zlen l2 ->
  ztake n (l1 ++ l2 ++ l3) = l1 ++ ztake (n - zlen l1) l2.
Proof.
  intros. unfold ztake. rewrite take_app_ge by lia. f_equal.
  replace (Z.to_nat (n - zlen l1)) with (Z.to_nat n - length l1)%nat by lia.
  apply take_app_le. lia.
Qed.

(** Seeking back to [absof] keeps the first [absof] bytes, destroys the later
    segments and leaves the write position at [absof].  The target must not
    lie in a pushed (read-only) segment. *)
Lemma buf_write_seek_spec b absof :
  buf_inv b -> 0 <= absof < rbuf_len b ->
  (forall i s, rd_buf_get_segment_at_offset b (rbuf_wpos b) absof = Ret (Some i) ->
     rbuf_segments b !! i = Some s -> seg_rdonly s = false) ->
  exists b' evs, rd_buf_write_seek b absof = Ret (b', evs, 0) /\
    buf_inv b' /\ contents b' = ztake absof (contents b) /\ rbuf_len b' = absof /\
    (addr_inv b -> addr_inv b').
Proof.
  intros Hinv Hb Hw. destruct Hinv as [(E1 & E2 & E3 & E4 & E5)|(pre & w & V & Hns)]; [lia|].
  pose proof (view_read_wf _ _ _ V) as R.
  assert (Hhint : valid_hint b (rbuf_wpos b)).
  { rewrite (v_wpos _ _ _ _ V). simpl. rewrite (v_segs _ _ _ _ V), length_app. simpl. lia. }
  pose proof (segment_at_offset_spec b (rbuf_wpos b) absof R Hhint ltac:(lia)) as Hat.
  destruct (Z.ltb_spec absof (rbuf_len b)); [|lia].
  destruct Hat as (l1 & s & l2 & Hs & Hat & Hbd & Ha).
  assert (Hlk : rbuf_segments b !! length l1 = Some s) by (rewrite Hs; by apply list_lookup_middle).
  specialize (Hw _ _ Hat Hlk). unfold rd_buf_write_seek. rewrite Hat. cbn [obind]. rewrite Hlk.
  rewrite Z.gtb_ltb. destruct (Z.ltb_spec (seg_of s) (absof - seg_absof s)); [lia|].
  assert (Hpre : Forall full l1).
  { destruct Hns as [Hf _]. pose proof (v_segs _ _ _ _ V) as Hv. rewrite Hs in Hv.
    destruct l2 as [|x l2 _] using rev_ind.
    - apply app_inj_tail in Hv as [-> _]. done.
    - rewrite app_comm_cons, app_assoc in Hv. apply app_inj_tail in Hv as [<- _].
      by apply Forall_app in Hf as [Hf _]. }
  pose proof (v_ok _ _ _ _ V) as Hok. pose proof (v_cnt _ _ _ _ V) as Hc.
  pose proof (v_size _ _ _ _ V) as Hz. rewrite <- (v_segs _ _ _ _ V), Hs in Hok, Hc, Hz.
  destruct (seek_destroy_loop_spec l1 s l2 (length (rbuf_segments b)) b Hs Hok Hc)
    as (b1 & -> & Hs1 & Hc1 & Hz1 & He1 & He2); [by rewrite <- Hs; apply R|done|
      rewrite Hs, length_app; simpl; lia|].
  cbn [obind]. rewrite Ha. simpl.
  destruct (Z.eqb_spec (sum_of l1 + (absof - sum_of l1)) absof); [|lia].
  eexists _, _. split; [reflexivity|].
  set (s' := set_seg_of (absof - sum_of l1) s).
  apply Forall_app in Hok as [Hok1 Hok2]. apply Forall_cons in Hok2 as [Hoks _].
  assert (Hoks' : seg_ok s') by (destruct Hoks; split; simpl; [lia|done]).
  assert (Hsegs' : alter (set_seg_of (absof - sum_of l1)) (length l1) (rbuf_segments b1) = l1 ++ [s'])
    by (by rewrite Hs1, alter_middle).
  assert (V' : view (set_len (sum_of l1 + (absof - sum_of l1)) (set_wpos (Some (length l1))
             (upd_seg (length l1) (set_seg_of (absof - sum_of l1)) b1))) l1 s' []).
  { constructor; simpl; try done.
    - apply Forall_app. split; [done|]. by apply Forall_singleton.
    - rewrite Hc1, !length_app. done.
    - rewrite sum_of_app. simpl. lia.
    - rewrite Hz1, !sum_size_app. done.
    - pose proof (rw_chain _ R) as Hch. rewrite Hs in Hch. rewrite chain_app in *. simpl in *. tauto. }
  split_and!.
  - right. exists l1, s'. split; [exact V'|]. split; [done|].
    change (seg_rdonly s') with (seg_rdonly s). congruence.
  - rewrite (view_contents _ _ _ _ V'). unfold contents. rewrite Hs, bind_app. cbn.
    rewrite ztake_app_in.
    + rewrite zlen_contents_list by done. f_equal. unfold seg_data, s'. simpl.
      change (seg_mem (set_seg_of _ s)) with (seg_mem s). unfold ztake. rewrite take_take. f_equal. lia.
    + rewrite zlen_contents_list, zlen_seg_data by done. lia.
  - simpl. lia.
  - intros [Ha1 Ha2]. rewrite Hs in Ha1, Ha2.
    assert (Hsa : same_alloc (l1 ++ [s]) (l1 ++ [s'])) by by apply same_alloc_middle.
    destruct (same_alloc_addr _ _ Hsa) as [Hx1 Hx2]. split; simpl; rewrite Hsegs'.
    + apply Hx1. apply Forall_app in Ha1 as [Ha1 Hb1]. apply Forall_cons in Hb1 as [Hb1 _].
      apply Forall_app. split; [exact Ha1|]. by apply Forall_singleton.
    + intros Hx. apply Hx2 in Hx. unfold extra_full in *. simpl. rewrite He1, He2. apply Ha2.
      rewrite Exists_app, Exists_cons in *. rewrite Exists_nil in Hx. tauto.
Qed.

(** Seeking at or past the end fails and changes nothing. *)
Lemma buf_write_seek_fail b absof :
  read_wf b -> valid_hint b (rbuf_wpos b) -> rbuf_len b <= absof ->
  rd_buf_write_seek b absof = Ret (b, [], -1).
Proof.
  intros R Hh Hb. assert (0 <= absof).
  { pose proof (read_wf_zlen _ R). lia. }
  pose proof (segment_at_offset_spec b _ absof R Hh ltac:(lia)) as Hat.
  destruct (Z.ltb_spec absof (rbuf_len b)); [lia|].
  unfold rd_buf_write_seek. by rewrite Hat.
Qed.

(** ** In-place update *)

Lemma mem_write_nil p o : 0 <= o -> mem_write p o [] = p.
Proof. intros. unfold mem_write. simpl. rewrite Z.add_0_r. apply ztake_zdrop. Qed.

(** Updating a concatenation updates its parts. *)
Lemma mem_write_app d1 d2 r q :
  0 <= r <= zlen d1 -> r + zlen q <= zlen d1 + zlen d2 ->
  mem_write (d1 ++ d2) r q =
    mem_write d1 r (ztake (zlen d1 - r) q) ++ mem_write d2 0 (zdrop (zlen d1 - r) q).
Proof.
  intros Hr Hq. destruct (Z.leb_spec (zlen q) (zlen d1 - r)).
  - assert (ztake (zlen d1 - r) q = q) as -> by (apply take_ge; lia).
    assert (zdrop (zlen d1 - r) q = []) as -> by (apply drop_ge; lia).
    rewrite mem_write_nil by lia. unfold mem_write, ztake, zdrop.
    rewrite take_app_le, drop_app_le by lia. by rewrite <- !app_assoc.
  - pose proof (zlen_ztake (zlen d1 - r) q ltac:(lia)) as H1.
    pose proof (zlen_zdrop (zlen d1 - r) q ltac:(lia)) as H2.
    rewrite <- (ztake_zdrop (zlen d1 - r) q) at 1.
    set (q1 := ztake _ q) in *. set (q2 := zdrop _ q) in *.
    unfold mem_write, ztake, zdrop. rewrite (drop_ge d1) by lia. rewrite take_0.
    rewrite take_app_le, drop_app_ge by (rewrite ?length_app; lia).
    replace (Z.to_nat (r + zlen (q1 ++ q2)) - length d1)%nat with (Z.to_nat (0 + zlen q2))
      by (rewrite length_app; lia).
    by rewrite app_nil_r, <- !app_assoc.
Qed.

(** An update within the first [n] bytes commutes with [ztake n]. *)
Lemma ztake_mem_write_in p n r q :
  0 <= r -> r + zlen q <= n <= zlen p ->
  ztake n (mem_write p r q) = mem_write (ztake n p) r q.
Proof.
  intros Hr Hq. rewrite <- (ztake_zdrop n p) at 1.
  rewrite mem_write_app; rewrite ?zlen_ztake, ?zlen_zdrop by lia; try lia.
  assert (ztake (n - r) q = q) as -> by (apply take_ge; lia).
  assert (zdrop (n - r) q = []) as -> by (apply drop_ge; lia).
  rewrite mem_write_nil by lia.
  unfold ztake at 1. apply take_app_length'.
  pose proof (zlen_mem_write (ztake n p) r q ltac:(lia)) as Hm.
  rewrite zlen_ztake in Hm by lia. lia.
Qed.

Lemma mem_write_app_r d1 d2 r q :
  zlen d1 <= r -> mem_write (d1 ++ d2) r q = d1 ++ mem_write d2 (r - zlen d1) q.
Proof.
  intros. unfold mem_write, ztake, zdrop. rewrite take_app_ge, drop_app_ge by lia.
  rewrite <- app_assoc. do 2 f_equal; [f_equal; lia|]. do 2 f_equal. lia.
Qed.

(** Writing over bytes of one segment. *)
Lemma segment_write_update_spec s absof q size r :
  seg_ok s -> seg_of s < 2 ^ 64 -> r = absof - seg_absof s -> 0 <= r <= seg_of s ->
  zlen q = size ->
  let wlen := Z.min size (seg_of s - r) in
  exists s', rd_segment_write_update s absof q size = Ret (s', wlen) /\
    seg_ok s' /\ seg_data s' = mem_write (seg_data s) r (ztake wlen q) /\
    seg_of s' = seg_of s /\ seg_size s' = seg_size s /\ seg_absof s' = seg_absof s /\
    seg_same_alloc s s'.
Proof.
  intros [Ho Hm] Hlt Hreq Hr Hq wlen. unfold rd_segment_write_update. rewrite <- Hreq.
  rewrite (uwrap_id 64 r) by (unfold u_ok; lia). destruct (Z.leb_spec r (seg_of s)); [|lia].
  fold wlen. eexists. split; [reflexivity|].
  assert (Hwl : zlen (ztake wlen q) = wlen) by (apply zlen_ztake; lia).
  destruct (Z.eqb_spec wlen 0) as [Hz|Hnz].
  - assert (ztake wlen q = []) as -> by (rewrite Hz; done).
    rewrite mem_write_nil by lia. split_and!; done.
  - split_and!; try done.
    + split; simpl; [done|].
      change (seg_mem (set_seg_p (Some ?p) _)) with p. rewrite zlen_mem_write; lia.
    + unfold seg_data. simpl. change (seg_mem (set_seg_p (Some ?p) _)) with p. apply ztake_mem_write_in; lia.
Qed.

(** The update loop over the segments from [l2] on. *)
Lemma write_update_loop_spec fuel l2 l1 b absof payload o size :
  rbuf_segments b = l1 ++ l2 -> Forall seg_ok l2 -> chain (sum_of l1) l2 ->
  Forall (fun s => seg_of s < 2 ^ 64) l2 ->
  rbuf_len b = sum_of l1 + sum_of l2 ->
  zlen payload = size -> 0 <= o <= size -> absof + size <= rbuf_len b ->
  (o < size -> match l2 with
               | [] => True
               | s :: _ => 0 <= absof + o - sum_of l1 <= seg_of s
               end) ->
  0 <= absof + o - sum_of l1 \/ o = size ->
  (length l2 < fuel)%nat ->
  exists b' l2', write_update_loop fuel b (length l1) absof payload o size = Ret (b', size) /\
    b' = set_segments (l1 ++ l2') b /\
    l2' ≫= seg_data =
      (if o <? size then mem_write (l2 ≫= seg_data) (absof + o - sum_of l1) (zdrop o payload)
       else l2 ≫= seg_data) /\
    Forall2 (fun s s' => seg_ok s' /\ seg_of s' = seg_of s /\ seg_size s' = seg_size s /\
                         seg_absof s' = seg_absof s /\ seg_same_alloc s s') l2 l2'.
Proof.
  revert l2 l1 b o; induction fuel as [|fuel IH];
    intros l2 l1 b o Hs Hok Hc Hsz Hl Hp Ho Hend Hhd Hge Hfuel; [lia|].
  cbn [write_update_loop]. destruct (Z.ltb_spec o size) as [Hlt|Hdone].
  2: { exists b, l2. replace o with size by lia. split_and!; try done.
       - destruct b; unfold set_segments; simpl in *. by subst.
       - apply Forall_Forall2_diag. eapply Forall_impl; [exact Hok|]. done. }
  specialize (Hhd Hlt). destruct l2 as [|s l2]; [simpl in Hl; lia|].
  apply Forall_cons in Hok as [Hoks Hok]. apply Forall_cons in Hsz as [Hszs Hsz].
  simpl in Hc, Hl. destruct Hc as [Ha Hc]. rewrite Hs, list_lookup_middle by done.
  pose proof (sum_of_nonneg l2 Hok). set (r := absof + o - sum_of l1) in *.
  destruct (Z.leb_spec (seg_absof s) (rbuf_len b)); [|lia].
  assert (Hq : zlen (zdrop o payload) = size - o) by (rewrite zlen_zdrop; lia).
  destruct (segment_write_update_spec s (absof + o) (zdrop o payload) (size - o) r)
    as (s' & -> & Hok' & Hd' & Ho' & Hz' & Ha' & Hsa'); try done; [unfold r; lia|].
  set (wlen := Z.min (size - o) (seg_of s - r)) in *. cbn [obind].
  assert (Hlen1 : length (l1 ++ [s']) = S (length l1)) by (rewrite length_app; simpl; lia).
  assert (Hs1 : sum_of (l1 ++ [s']) = sum_of l1 + seg_of s) by (rewrite sum_of_app; simpl; lia).
  rewrite <- Hlen1.
  destruct (IH l2 (l1 ++ [s']) (upd_seg (length l1) (fun _ => s') b) (o + wlen))
    as (b' & l2' & -> & -> & Hd2 & Hf2); simpl; rewrite ?Hs1; try done; try lia.
  { rewrite Hs, alter_middle, <- app_assoc. done. }
  { intros Hlt2. destruct l2; [done|]. apply Forall_cons in Hok as [[? _] _]. unfold r in *. lia. }
  { simpl in Hfuel. lia. }
  eexists _, (s' :: l2'). split_and!; [reflexivity| | |].
  - unfold upd_seg, set_segments. simpl. by rewrite <- app_assoc.
  - cbn. change (list_bind _ _ seg_data) with (mbind seg_data). rewrite Hd2, Hd'.
    rewrite mem_write_app; rewrite ?zlen_seg_data, ?zlen_contents_list by done; try lia.
    rewrite Hs1. f_equal.
    + f_equal. unfold ztake, wlen. destruct (Z.leb_spec (size - o) (seg_of s - r)).
      * rewrite !take_ge by lia. done.
      * f_equal. lia.
    + destruct (Z.ltb_spec (o + wlen) size).
      * replace (absof + (o + wlen) - (sum_of l1 + seg_of s)) with 0 by (unfold r in *; lia).
        f_equal. unfold zdrop. rewrite drop_drop. f_equal. unfold r in *. lia.
      * unfold zdrop at 1. rewrite drop_ge; [by rewrite mem_write_nil|]. unfold r in *. lia.
  - constructor; [|done]. done.
Qed.
