(* ===== verification/BufSpec.v ===== *)
(** * Segmented byte buffers: abstract specification and refinement

    [BufSpec] is what rdbuf.c promises to the code that builds requests: a
    growing array of bytes with overwrite and truncation.  [buf_refines] shows
    that any sequence of buffer operations that respects the callers'
    obligations returns, keeps the invariant and implements it. *)
From Stdlib Require Import ZArith Lia.
From stdpp Require Import base numbers list sets.
From S2P Require Import Prelude Buf BufFacts BufSeek.

(** ** In-place update keeps the shape of the buffer *)

Definition same_shape (s s' : rd_segment) : Prop :=
  seg_ok s' /\ seg_of s' = seg_of s /\ seg_size s' = seg_size s /\
  seg_absof s' = seg_absof s /\ seg_same_alloc s s'.

Lemma same_shape_sums l l' :
  Forall2 same_shape l l' ->
  sum_of l' = sum_of l /\ sum_size l' = sum_size l /\ length l' = length l /\
  Forall seg_ok l' /\ (forall a, chain a l -> chain a l') /\ same_alloc l l' /\
  (Forall full l -> Forall full l').
Proof.
  induction 1 as [|s s' l l' (Ho & Hof & Hsz & Ha & Hsa) _ IH].
  { split_and!; try done; constructor. }
  destruct IH as (I1 & I2 & I3 & I4 & I5 & I6 & I7). simpl.
  split_and!; try lia; try (by constructor).
  - intros a [? ?]. rewrite Hof. split; [congruence|auto].
  - intros Hf. apply Forall_cons in Hf as [Hf1 Hf2]. constructor; [|auto].
    unfold full in *. congruence.
Qed.

Lemma view_same_shape b pre w segs' :
  view b pre w [] -> no_slack pre w -> Forall2 same_shape (pre ++ [w]) segs' ->
  exists pre' w', view (set_segments segs' b) pre' w' [] /\ no_slack pre' w'.
Proof.
  intros V [Hf Hw] HF. pose proof (same_shape_sums _ _ HF) as (S1 & S2 & S3 & S4 & S5 & _ & _).
  apply Forall2_app_inv_l in HF as (pre' & k & Hpre & Hk & ->).
  inversion Hk as [|? w' ? k' Hw' Hk']; subst. inversion Hk'; subst.
  pose proof (same_shape_sums _ _ Hpre) as (_ & _ & P3 & _ & _ & _ & P7).
  destruct V as [Hsegs Hwp Hoks Hcnt Hlen Hsize Hch Hpost].
  exists pre', w'. split.
  - constructor; simpl; try done; try congruence; auto.
  - split; [auto|]. destruct Hw' as (_ & H1 & H2 & _ & (H3 & _)). unfold full in *.
    unfold seg_rdonly in *. rewrite H3. intros Hr. specialize (Hw Hr). congruence.
Qed.

Lemma sum_of_lt l n : Forall seg_ok l -> sum_of l < n -> Forall (fun s => seg_of s < n) l.
Proof.
  induction 1 as [|s l [Hs _] Hl IH]; simpl; [constructor|].
  pose proof (sum_of_nonneg l Hl). intros. constructor; [lia|]. apply IH. lia.
Qed.

Lemma buf_write_update_spec b absof payload size :
  buf_inv b -> rbuf_len b < 2 ^ 64 -> zlen payload = size ->
  0 <= absof < rbuf_len b -> absof + size <= rbuf_len b ->
  exists b', rd_buf_write_update b absof payload size = Ret (b', size) /\
    buf_inv b' /\ contents b' = mem_write (contents b) absof payload /\
    rbuf_size b' = rbuf_size b /\ (addr_inv b -> addr_inv b').
Proof.
  intros Hinv Hsz Hp Ha Hend.
  destruct Hinv as [(_ & _ & _ & E4 & _)|(pre & w & V & Hns)]; [lia|].
  pose proof (view_read_wf _ _ _ V) as R.
  assert (Hh : valid_hint b (rbuf_wpos b)).
  { rewrite (v_wpos _ _ _ _ V). simpl. rewrite (v_segs _ _ _ _ V), length_app. simpl. lia. }
  pose proof (segment_at_offset_spec b _ absof R Hh ltac:(lia)) as Hat.
  destruct (Z.ltb_spec absof (rbuf_len b)); [|lia].
  destruct Hat as (l1 & s & l2 & Hs & Hat & Hbd & Has).
  unfold rd_buf_write_update. rewrite Hat. cbn [obind].
  pose proof (rw_ok _ R) as Hok. pose proof (rw_chain _ R) as Hc. pose proof (rw_len _ R) as Hl.
  rewrite Hl in Hsz. pose proof (sum_of_lt _ _ Hok Hsz) as Hlt. rewrite Hs in Hok, Hc, Hl, Hlt.
  apply Forall_app in Hok as [Hok1 Hok2]. apply Forall_app in Hlt as [_ Hlt].
  apply chain_app in Hc as [_ Hc]. rewrite sum_of_app in Hl.
  destruct (write_update_loop_spec (S (length (rbuf_segments b))) (s :: l2) l1 b absof payload 0 size)
    as (b' & l2' & -> & -> & Hd & Hf); try done; try lia.
  { rewrite Hs, length_app. lia. }
  assert (HF : Forall2 same_shape (pre ++ [w]) (l1 ++ l2')).
  { rewrite <- (v_segs _ _ _ _ V), Hs. apply Forall2_app; [|exact Hf].
    apply Forall_Forall2_diag. eapply Forall_impl; [exact Hok1|]. done. }
  eexists. split; [reflexivity|]. split_and!; try done.
  - right. by apply (view_same_shape b pre w).
  - unfold contents. simpl. rewrite Hs, !bind_app, Hd.
    destruct (Z.ltb_spec 0 size) as [Hpos|].
    + rewrite mem_write_app_r; rewrite zlen_contents_list by done; [|lia].
      f_equal. f_equal. lia.
    + assert (payload = []) as -> by (destruct payload; [done|simpl in *; lia]).
      by rewrite mem_write_nil by lia.
  - intros Hai. eapply (addr_inv_same b); try done.
    rewrite (v_segs _ _ _ _ V). simpl. by apply same_shape_sums.
Qed.

(** ** Initialisation and destruction *)

Lemma buf_init_spec cnt size :
  0 < cnt -> exists b, rd_buf_init cnt size = Ret b /\ buf_inv b /\ contents b = [] /\ addr_inv b.
Proof.
  intros Hc. unfold rd_buf_init. destruct (Z.eqb_spec cnt 0); [lia|]. eexists. split; [done|].
  split_and!; try done.
  - by left.
  - split; [constructor|]. simpl. intros Hx. by apply Exists_nil in Hx.
Qed.

Lemma inv_write_pos b : buf_inv b -> rd_buf_write_pos b = Ret (rbuf_len b).
Proof.
  intros [(E1 & E2 & _ & E4 & _)|(pre & w & V & _)]; unfold rd_buf_write_pos.
  - rewrite E2, E4. done.
  - rewrite (v_wpos _ _ _ _ V), (v_segs _ _ _ _ V), list_lookup_middle by done.
    rewrite (view_len _ _ _ _ V), (view_absof _ _ _ _ V). done.
Qed.

(** ** Abstract buffer *)
Module BufSpec.

Inductive op : Type :=
| Write (p : list Z)
| Push (p : list Z) (free_cb : option nat)
| Update (absof : Z) (p : list Z)
| Seek (absof : Z).

Definition apply (bytes : list Z) (o : op) : list Z :=
  match o with
  | Write p => bytes ++ p
  | Push p _ => bytes ++ p
  | Update absof p => mem_write bytes absof p
  | Seek absof => if absof <? zlen bytes then ztake absof bytes else bytes
  end.

Definition run (bytes : list Z) (ops : list op) : list Z := foldl apply bytes ops.

End BufSpec.

(** ** Concrete runs *)

Definition run_op (b : rd_buf) (o : BufSpec.op) : outcome rd_buf :=
  match o with
  | BufSpec.Write p => let! (b, _) := rd_buf_write b (Some p) (zlen p) in Ret b
  | BufSpec.Push p cb => rd_buf_push b (Some p) (zlen p) cb
  | BufSpec.Update absof p => let! (b, _) := rd_buf_write_update b absof p (zlen p) in Ret b
  | BufSpec.Seek absof => let! (b, _, _) := rd_buf_write_seek b absof in Ret b
  end.

Fixpoint run_ops (b : rd_buf) (ops : list BufSpec.op) : outcome rd_buf :=
  match ops with
  | [] => Ret b
  | o :: ops => let! b := run_op b o in run_ops b ops
  end.

(** The segment [absof] falls in, if any, is not a pushed one. *)
Definition seek_target_writable (b : rd_buf) (absof : Z) : Prop :=
  forall i s, rd_buf_get_segment_at_offset b (rbuf_wpos b) absof = Ret (Some i) ->
    rbuf_segments b !! i = Some s -> seg_rdonly s = false.

(** What each call requires of its caller. *)
Definition op_pre (b : rd_buf) (o : BufSpec.op) : Prop :=
  match o with
  | BufSpec.Write p => zlen p < 2 ^ 63
  | BufSpec.Push _ _ => True
  | BufSpec.Update absof p =>
      0 <= absof < rbuf_len b /\ absof + zlen p <= rbuf_len b /\ rbuf_len b < 2 ^ 64
  | BufSpec.Seek absof => 0 <= absof /\ rbuf_segments b <> [] /\ seek_target_writable b absof
  end.

Fixpoint ops_pre (b : rd_buf) (ops : list BufSpec.op) : Prop :=
  match ops with
  | [] => True
  | o :: ops => op_pre b o /\ forall b', run_op b o = Ret b' -> ops_pre b' ops
  end.

Lemma run_op_refines b o :
  buf_inv b -> addr_inv b -> op_pre b o ->
  exists b', run_op b o = Ret b' /\ buf_inv b' /\ addr_inv b' /\
             contents b' = BufSpec.apply (contents b) o.
Proof.
  intros Hinv Hai Hpre. destruct o as [p|p cb|absof p|absof]; simpl in *.
  - destruct (buf_write_spec b p (zlen p) Hinv eq_refl Hpre) as (b' & -> & ? & ? & ?).
    exists b'. auto.
  - destruct (buf_push_spec b (Some p) (zlen p) cb Hinv eq_refl) as (b' & -> & ? & ? & ?).
    exists b'. auto.
  - destruct Hpre as (? & ? & ?).
    destruct (buf_write_update_spec b absof p (zlen p) Hinv) as (b' & -> & ? & ? & ? & ?); try done.
    exists b'. auto.
  - destruct Hpre as (? & Hne & Ht). rewrite inv_zlen by done.
    destruct (Z.ltb_spec absof (rbuf_len b)).
    + destruct (buf_write_seek_spec b absof Hinv ltac:(lia) Ht) as (b' & evs & -> & ? & ? & ? & ?).
      exists b'. auto.
    + assert (Hw : read_wf b /\ valid_hint b (rbuf_wpos b)).
      { destruct Hinv as [(? & _)|(pre & w & V & _)]; [done|]. split; [by eapply view_read_wf|].
        rewrite (v_wpos _ _ _ _ V). simpl. rewrite (v_segs _ _ _ _ V), length_app. simpl. lia. }
      rewrite buf_write_seek_fail by (done || tauto). exists b. auto.
Qed.

Lemma run_ops_refines ops b :
  buf_inv b -> addr_inv b -> ops_pre b ops ->
  exists b', run_ops b ops = Ret b' /\ buf_inv b' /\ addr_inv b' /\
             contents b' = BufSpec.run (contents b) ops.
Proof.
  revert b; induction ops as [|o ops IH]; intros b Hi Ha Hp; simpl in *; [by exists b|].
  destruct Hp as [Hp Hps].
  destruct (run_op_refines b o Hi Ha Hp) as (b1 & Hr & Hi1 & Ha1 & Hc1).
  rewrite Hr. cbn [obind]. destruct (IH b1 Hi1 Ha1 (Hps _ Hr)) as (b' & ? & ? & ? & Hc).
  exists b'. split_and!; try done. by rewrite Hc, Hc1.
Qed.

Lemma destroy_headers l :
  Forall addr_ok l -> forall a, EvHeader a ∈ (l ≫= rd_segment_destroy) -> a = OnHeap.
Proof.
  intros Hok a Hin. apply list_elem_of_bind in Hin as (s & Hin & Hs).
  apply (proj1 (Forall_forall _ _) Hok) in Hs. unfold rd_segment_destroy in Hin.
  fold (seg_heap_flag s) in Hin. apply elem_of_app in Hin as [Hin|Hin].
  - destruct (seg_free s), (seg_p s); set_solver.
  - destruct (seg_heap_flag s) eqn:E; [|set_solver].
    apply Hs in E. set_solver.
Qed.

(** A write position with no room and slack elsewhere: the write loop never
    makes progress. *)
Lemma buf_write_loop_stuck fuel b pre w m p remains :
  view b pre w [] -> rd_segment_write_remains w = 0 -> seg_p w = Some m -> 0 < remains ->
  buf_write_loop fuel b (Some p) remains = Diverge.
Proof.
  intros V Hr Hm Hpos. induction fuel as [|fuel IH]; cbn [buf_write_loop]; rewrite Z.gtb_ltb;
    (destruct (Z.ltb_spec 0 remains); [|lia]); [done|].
  rewrite (get_writable_none _ _ _ V Hr). replace (Z.min remains 0) with 0 by lia.
  pose proof (view_seg_ok _ _ _ _ V) as [Ho _].
  change (ztake 0 p) with (@nil Z). change (zdrop 0 p) with p.
  assert (Hb : set_len (rbuf_len b + 0)
     (upd_seg (length pre) (fun s => set_seg_of (seg_of s + 0) s)
        (upd_seg (length pre)
           (fun s => set_seg_p (Some (mem_write (seg_mem s) (seg_of s) [])) s) b)) = b).
  { unfold upd_seg, set_segments, set_len. simpl. rewrite (v_segs _ _ _ _ V), !alter_middle, Z.add_0_r.
    unfold set_seg_of, set_seg_p. simpl. rewrite Z.add_0_r, mem_write_nil by lia.
    unfold seg_mem. rewrite Hm. simpl. rewrite <- Hm. destruct w. simpl.
    destruct b as [segs cnt wp ln sz ex el es]. f_equal. symmetry. apply V. }
  cbn [fmap option_fmap option_map rbuf_len upd_seg set_segments] in *. rewrite Z.sub_0_r.
  etransitivity; [|exact IH]. f_equal. exact Hb.
Qed.

(** ** Properties *)

(** C32. rdbuf.c refines an array of bytes: from an initialised buffer, every
    sequence of writes, pushes, in-place updates and write seeks that respects
    the callers' obligations returns normally, keeps the structural invariant
    and leaves exactly the bytes the abstract operations give; the length field
    and the write position agree with them. *)
Theorem buf_refines (cnt size : Z) (ops : list BufSpec.op) (Hc : 0 < cnt)
    (Hpre : forall b, rd_buf_init cnt size = Ret b -> ops_pre b ops) :
  exists b b',
    rd_buf_init cnt size = Ret b /\ run_ops b ops = Ret b' /\ buf_inv b' /\
    contents b' = BufSpec.run [] ops /\ rbuf_len b' = zlen (BufSpec.run [] ops) /\
    rd_buf_write_pos b' = Ret (zlen (BufSpec.run [] ops)).
Proof.
  destruct (buf_init_spec cnt size Hc) as (b & Hb & Hi & Hc0 & Ha).
  destruct (run_ops_refines ops b Hi Ha (Hpre b Hb)) as (b' & Hr & Hi' & _ & Hc').
  rewrite Hc0 in Hc'. pose proof (inv_zlen _ Hi') as Hl.
  exists b, b'. rewrite <- Hc'. split_and!; try done. rewrite Hl. by apply inv_write_pos.
Qed.

Definition example_ops : list BufSpec.op :=
  [BufSpec.Write [0; 0; 0; 0; 7]; BufSpec.Push [1; 2; 3] (Some 4%nat); BufSpec.Write [8; 9];
   BufSpec.Update 0 [0; 0; 0; 9]; BufSpec.Seek 9; BufSpec.Write [5]].

Lemma buf_refines_witness :
  exists b b', rd_buf_init 2 8 = Ret b /\ run_ops b example_ops = Ret b' /\
    contents b' = [0; 0; 0; 9; 7; 1; 2; 3; 8; 5].
Proof.
  destruct (buf_refines 2 8 example_ops) as (b & b' & Hb & Hr & _ & Hc & _).
  - lia.
  - intros b Hb. vm_compute in Hb. injection Hb as <-.
    simpl. repeat match goal with
    | |- _ /\ _ => split
    | |- forall b', _ = Ret b' -> _ =>
        let Hr := fresh in intros ? Hr; vm_compute in Hr; injection Hr as <-
    | |- True => exact I
    | |- seek_target_writable _ _ =>
        let H1 := fresh in let H2 := fresh in
        intros ? ? H1 H2; vm_compute in H1; injection H1 as <-; vm_compute in H2;
        injection H2 as <-; reflexivity
    | |- _ <> _ => discriminate
    | |- _ => vm_compute; (reflexivity || discriminate)
    end.
  - exists b, b'. split; [exact Hb|]. split; [exact Hr|]. rewrite Hc. vm_compute. reflexivity.
Defined.

(** The position [rd_buf_write] returns is a place holder: a later
    [rd_buf_write_update] at that position overwrites exactly the bytes that
    write appended, and neither call touches earlier bytes (as long as the
    length fits a [size_t]). *)
Theorem buf_write_placeholder (b : rd_buf) (p q : list Z)
    (Hinv : buf_inv b) (Hlen : zlen q = zlen p) (Hne : 0 < zlen p < 2 ^ 63) :
  exists b1 pos,
    rd_buf_write b (Some p) (zlen p) = Ret (b1, pos) /\ pos = zlen (contents b) /\
    contents b1 = contents b ++ p /\ buf_inv b1 /\
    (rbuf_len b1 < 2 ^ 64 -> exists b2,
       rd_buf_write_update b1 pos q (zlen q) = Ret (b2, zlen q) /\
       contents b2 = contents b ++ q /\ buf_inv b2).
Proof.
  destruct (buf_write_spec b p (zlen p) Hinv eq_refl ltac:(lia)) as (b1 & Hw & Hi1 & Hc1 & _).
  exists b1, (rbuf_len b). rewrite (inv_zlen b Hinv). split_and!; try done.
  intros Hsz. pose proof (inv_zlen b Hinv) as Hl. pose proof (inv_zlen b1 Hi1) as Hl1.
  rewrite Hc1, length_app in Hl1.
  destruct (buf_write_update_spec b1 (rbuf_len b) q (zlen q) Hi1 Hsz eq_refl)
    as (b2 & Hu & Hi2 & Hc2 & _ & _); [lia..|].
  exists b2. split_and!; try done. rewrite Hc2, Hc1.
  rewrite mem_write_app_r by lia. replace (rbuf_len b - zlen (contents b)) with 0 by lia.
  f_equal. unfold mem_write. simpl. unfold zdrop. rewrite drop_ge by lia. by rewrite app_nil_r.
Qed.

Lemma buf_write_placeholder_witness :
  exists b b1 pos,
    rd_buf_init 1 8 = Ret b /\ rd_buf_write b (Some [0; 0]) 2 = Ret (b1, pos) /\
    contents b1 = [0; 0].
Proof.
  destruct (buf_init_spec 1 8 ltac:(lia)) as (b & Hb & Hi & Hc & _).
  destruct (buf_write_placeholder b [0; 0] [3; 4] Hi eq_refl ltac:(simpl; lia))
    as (b1 & pos & Hw & _ & Hc1 & _).
  exists b, b1, pos. split; [exact Hb|]. split; [exact Hw|]. rewrite Hc1, Hc. reflexivity.
Defined.

(** Destroying a buffer built by these operations never frees a segment
    header that lives inside the extra block, and frees every heap header:
    [RD_SEGMENT_F_FREE], which a split copies to the new segment, stays set on
    exactly the segments with heap headers. *)
Theorem buf_destroy_headers (cnt size : Z) (ops : list BufSpec.op) (b b' : rd_buf) (Hc : 0 < cnt)
    (Hb : rd_buf_init cnt size = Ret b) (Hpre : ops_pre b ops) (Hr : run_ops b ops = Ret b') :
  (forall a, EvHeader a ∈ rd_buf_destroy b' -> a = OnHeap) /\
  (forall s, s ∈ rbuf_segments b' -> seg_addr s = OnHeap ->
     EvHeader OnHeap ∈ rd_segment_destroy s).
Proof.
  destruct (buf_init_spec cnt size Hc) as (b0 & Hb0 & Hi & _ & Ha).
  rewrite Hb in Hb0. injection Hb0 as <-.
  destruct (run_ops_refines ops b Hi Ha Hpre) as (b1 & Hr1 & _ & [Hok _] & _).
  rewrite Hr in Hr1. injection Hr1 as <-. split.
  - intros a Hin. unfold rd_buf_destroy in Hin. apply elem_of_app in Hin as [Hin|Hin].
    + by apply (destroy_headers _ Hok).
    + destruct (rbuf_extra b'); set_solver.
  - intros s Hs Haddr. apply (proj1 (Forall_forall _ _) Hok) in Hs.
    unfold rd_segment_destroy. apply elem_of_app. right. apply Hs in Haddr as Hf.
    unfold seg_heap_flag in Hf. rewrite Hf, Haddr. set_solver.
Qed.

Lemma buf_destroy_headers_witness :
  exists b b', rd_buf_init 1 0 = Ret b /\
    run_ops b [BufSpec.Write [1]; BufSpec.Push [2; 3] None] = Ret b' /\
    (forall a, EvHeader a ∈ rd_buf_destroy b' -> a = OnHeap).
Proof.
  eexists _, _. split; [reflexivity|]. split; [vm_compute; reflexivity|].
  eapply (buf_destroy_headers 1 0 [BufSpec.Write [1]; BufSpec.Push [2; 3] None]).
  - lia.
  - reflexivity.
  - simpl. split; [lia|]. intros b' _. split; [exact I|]. intros b'' _. exact I.
  - vm_compute. reflexivity.
Defined.

(** A write whose position has no room while an earlier or read-only
    segment has slack does not terminate: [rd_buf_write_remains] counts the
    slack, so no segment is allocated, and the loop writes zero bytes forever.
    This is reachable by seeking into a pushed segment and writing. *)
Theorem buf_write_slack_diverges (b : rd_buf) (pre : list rd_segment) (w : rd_segment)
    (m p : list Z) (V : view b pre w []) (Hr : rd_segment_write_remains w = 0)
    (Hm : seg_p w = Some m) (Hsz : 0 < zlen p <= rd_buf_write_remains b) (fuel : nat) :
  buf_write_loop fuel b (Some p) (zlen p) = Diverge /\
  rd_buf_write b (Some p) (zlen p) = Diverge.
Proof.
  split; [apply (buf_write_loop_stuck fuel b pre w m); done || lia|].
  unfold rd_buf_write, rd_buf_write_ensure. cbn [write_ensure_loop].
  destruct (Z.ltb_spec (rd_buf_write_remains b) (zlen p)); [lia|]. cbn [obind].
  rewrite (buf_write_loop_stuck _ b pre w m) by (done || lia). done.
Qed.

Definition seek_into_pushed : outcome rd_buf :=
  let! b := rd_buf_init 1 0 in
  run_ops b [BufSpec.Push [1; 2; 3; 4] None; BufSpec.Seek 2].

Lemma buf_write_slack_diverges_witness :
  exists b, seek_into_pushed = Ret b /\ rd_buf_write b (Some [9]) 1 = Diverge.
Proof.
  eexists. split; [vm_compute; reflexivity|].
  refine (proj2 (buf_write_slack_diverges _ [] _ [1; 2; 3; 4] [9] _ _ _ _ O)).
  - constructor; try reflexivity; vm_compute; try done; repeat constructor; vm_compute; done.
  - reflexivity.
  - reflexivity.
  - vm_compute. split; [reflexivity|discriminate].
Defined.
