(* ===== verification/Slice.v ===== *)
(** * Buffer slices: the reader half of rdbuf.h and rdbuf.c

    A slice is a read position and a window of a buffer.  The buffer is an
    argument of every operation (the [buf] pointer of the slice, never written
    through).  Offsets that come from the wire are added with the wrap-around
    of [size_t]. *)
From Stdlib Require Import ZArith Lia.
From stdpp Require Import base numbers list.
From S2P Require Import Prelude Buf.

(** ** Code *)

Record rd_slice : Type := mk_slice {
  sl_seg : option nat;
  sl_rof : Z;
  sl_start : Z;
  sl_end : Z }.

Definition set_sl_end (e : Z) (sl : rd_slice) : rd_slice :=
  mk_slice (sl_seg sl) (sl_rof sl) (sl_start sl) e.
Definition set_sl_pos (i : nat) (rof : Z) (sl : rd_slice) : rd_slice :=
  mk_slice (Some i) rof (sl_start sl) (sl_end sl).

(** The segment a slice points to; a dangling index cannot be dereferenced. *)
Definition sl_deref (b : rd_buf) (sl : rd_slice) : outcome (option rd_segment) :=
  match sl_seg sl with
  | None => Ret None
  | Some i =>
      match rbuf_segments b !! i with
      | Some s => Ret (Some s)
      | None => Crash
      end
  end.

Definition rd_slice_abs_offset (b : rd_buf) (sl : rd_slice) : outcome Z :=
  let! s := sl_deref b sl in
  Ret (match s with
       | None => sl_end sl
       | Some s => seg_absof s + sl_rof sl
       end).

Definition rd_slice_remains (b : rd_buf) (sl : rd_slice) : outcome Z :=
  let! a := rd_slice_abs_offset b sl in Ret (u64 (sl_end sl - a)).

Definition rd_slice_size (sl : rd_slice) : Z := u64 (sl_end sl - sl_start sl).

Definition rd_slice_offset (b : rd_buf) (sl : rd_slice) : outcome Z :=
  let! s := sl_deref b sl in
  Ret (match s with
       | None => rd_slice_size sl
       | Some s => u64 (seg_absof s + sl_rof sl - sl_start sl)
       end).

Definition rd_slice_pos (b : rd_buf) (sl : rd_slice) : outcome rd_slice :=
  let! s := sl_deref b sl in
  Ret (match s with
       | None => sl
       | Some s => mk_slice (sl_seg sl) (sl_rof sl) (seg_absof s + sl_rof sl) (sl_end sl)
       end).

(** [None] is a return value of -1: the slice is not initialised. *)
Definition rd_slice_init_seg (b : rd_buf) (i : nat) (rof size : Z) : outcome (option rd_slice) :=
  match rbuf_segments b !! i with
  | None => Crash
  | Some s =>
      if rbuf_len b <? u64 (seg_absof s + rof + size) then Ret None
      else
        let start := seg_absof s + rof in
        let e := u64 (start + size) in
        assert! ((seg_absof s + rof >=? start) && (seg_absof s + rof <=? e)) in
        assert! (e <=? rbuf_len b) in
        Ret (Some (mk_slice (Some i) rof start e))
  end.

Definition rd_slice_init (b : rd_buf) (absof size : Z) : outcome (option rd_slice) :=
  let! seg := rd_buf_get_segment_at_offset b None absof in
  match seg with
  | None => Ret None
  | Some i =>
      match rbuf_segments b !! i with
      | None => Crash
      | Some s => rd_slice_init_seg b i (absof - seg_absof s) size
      end
  end.

Definition rd_slice_init_full (b : rd_buf) : outcome rd_slice :=
  let! r := rd_slice_init b 0 (rbuf_len b) in
  match r with
  | Some sl => Ret sl
  | None => Crash
  end.

(** The for loop of [rd_slice_reader0]: skip exhausted segments before the end
    of the slice. *)
Fixpoint reader_scan (rest : list rd_segment) (i : nat) (rof e : Z)
  : option (nat * rd_segment * Z) :=
  match rest with
  | [] => None
  | s :: rest =>
      if (seg_absof s + rof <? e) && (seg_of s =? rof) then reader_scan rest (S i) 0 e
      else Some (i, s, rof)
  end.

(** Memory behind a pointer returned by a reader: [rlen] bytes from offset
    [rof] of segment [i]. *)
Definition ptr_bytes (b : rd_buf) (p : nat * Z) (rlen : Z) : list Z :=
  match rbuf_segments b !! p.1 with
  | Some s => ztake rlen (zdrop p.2 (seg_mem s))
  | None => []
  end.

(** The new slice, the length read and the pointer [*p]. *)
Definition rd_slice_reader0 (b : rd_buf) (sl : rd_slice) (update_pos : bool)
  : outcome (rd_slice * Z * (nat * Z)) :=
  let found := match sl_seg sl with
               | None => None
               | Some i => reader_scan (drop i (rbuf_segments b)) i (sl_rof sl) (sl_end sl)
               end in
  match found with
  | None => Ret (sl, 0, (O, 0))
  | Some (i, s, rof) =>
      if seg_absof s + rof >=? sl_end sl then Ret (sl, 0, (O, 0))
      else
        assert! (seg_absof s + rof <=? sl_end sl) in
        let! remains := rd_slice_remains b sl in
        let rlen := Z.min (u64 (seg_of s - rof)) remains in
        if update_pos then
          if bool_decide (sl_seg sl = Some i)
          then Ret (set_sl_pos i (sl_rof sl + rlen) sl, rlen, (i, rof))
          else
            assert! ((seg_absof s + rof >=? sl_start sl)
                     && (seg_absof s + rof + rlen <=? sl_end sl)) in
            Ret (set_sl_pos i rlen sl, rlen, (i, rof))
        else Ret (sl, rlen, (i, rof))
  end.

Definition rd_slice_reader (b : rd_buf) (sl : rd_slice) : outcome (rd_slice * Z * (nat * Z)) :=
  rd_slice_reader0 b sl true.

Definition rd_slice_peeker (b : rd_buf) (sl : rd_slice) : outcome (Z * (nat * Z)) :=
  let! (_, rlen, p) := rd_slice_reader0 b sl false in Ret (rlen, p).

(** Loops of the form [while ((rlen = rd_slice_reader(slice, &p)))], folding
    [f] over the chunks. *)
Fixpoint reader_loop {A} (fuel : nat) (b : rd_buf) (f : A -> list Z -> A) (sl : rd_slice) (acc : A)
  : outcome (rd_slice * A) :=
  match fuel with
  | O => Diverge
  | S fuel =>
      let! (sl, rlen, p) := rd_slice_reader b sl in
      if rlen =? 0 then Ret (sl, acc)
      else reader_loop fuel b f sl (f acc (ptr_bytes b p rlen))
  end.

(** Every pass consumes at least one byte of the window. *)
Definition slice_fuel (sl : rd_slice) : nat := S (Z.to_nat (sl_end sl)).

(** The bytes stored to [dst] and the value returned. *)
Definition rd_slice_read (b : rd_buf) (sl : rd_slice) (size : Z) : outcome (rd_slice * list Z * Z) :=
  let orig_end := sl_end sl in
  let! remains := rd_slice_remains b sl in
  if remains <? size then Ret (sl, [], 0)
  else
    let! a := rd_slice_abs_offset b sl in
    let sl := set_sl_end (a + size) sl in
    let! (sl, d) := reader_loop (slice_fuel sl) b (fun d c => d ++ c) sl [] in
    Ret (set_sl_end orig_end sl, d, size).

Definition rd_slice_seek (b : rd_buf) (sl : rd_slice) (offset : Z) : outcome (rd_slice * Z) :=
  let absof := u64 (sl_start sl + offset) in
  if absof >=? sl_end sl then Ret (sl, -1)
  else
    let! seg := rd_buf_get_segment_at_offset b (sl_seg sl) absof in
    match seg with
    | None => Crash
    | Some i =>
        match rbuf_segments b !! i with
        | None => Crash
        | Some s =>
            let rof := absof - seg_absof s in
            assert! ((seg_absof s + rof >=? sl_start sl) && (seg_absof s + rof <=? sl_end sl)) in
            Ret (set_sl_pos i rof sl, 0)
        end
    end.

Definition rd_slice_peek (b : rd_buf) (sl : rd_slice) (offset size : Z) : outcome (list Z * Z) :=
  let! (sub, r) := rd_slice_seek b sl offset in
  if r =? -1 then Ret ([], 0)
  else let! (_, d, r) := rd_slice_read b sub size in Ret (d, r).

(** [None] for a NULL return; otherwise the [size] contiguous bytes. *)
Definition rd_slice_ensure_contig (b : rd_buf) (sl : rd_slice) (size : Z)
  : outcome (rd_slice * option (list Z)) :=
  let! remains := rd_slice_remains b sl in
  if remains <? size then Ret (sl, None)
  else
    match sl_seg sl with
    | None => Crash
    | Some i =>
        match rbuf_segments b !! i with
        | None => Crash
        | Some s =>
            if u64 (sl_rof sl + size) >? seg_of s then Ret (sl, None)
            else
              let p := ptr_bytes b (i, sl_rof sl) size in
              let! (sl, _, _) := rd_slice_read b sl size in
              Ret (sl, Some p)
        end
    end.

(** The narrowed slice, the saved one and 1, or 0. *)
Definition rd_slice_narrow (b : rd_buf) (sl : rd_slice) (size : Z)
  : outcome (option (rd_slice * rd_slice)) :=
  if u64 (sl_start sl + size) >? sl_end sl then Ret None
  else
    let sl' := set_sl_end (u64 (sl_start sl + size)) sl in
    let! a := rd_slice_abs_offset b sl' in
    assert! (a <=? sl_end sl') in
    Ret (Some (sl', sl)).

Definition rd_slice_narrow_relative (b : rd_buf) (sl : rd_slice) (relsize : Z)
  : outcome (option (rd_slice * rd_slice)) :=
  let! o := rd_slice_offset b sl in rd_slice_narrow b sl (u64 (o + relsize)).

Definition rd_slice_widen (sl save : rd_slice) : rd_slice := set_sl_end (sl_end save) sl.

Definition rd_slice_narrow_copy (b : rd_buf) (orig : rd_slice) (size : Z) : outcome (option rd_slice) :=
  if u64 (sl_start orig + size) >? sl_end orig then Ret None
  else
    let sl' := set_sl_end (u64 (sl_start orig + size)) orig in
    let! a := rd_slice_abs_offset b sl' in
    assert! (a <=? sl_end sl') in
    Ret (Some sl').

Definition rd_slice_narrow_copy_relative (b : rd_buf) (orig : rd_slice) (relsize : Z)
  : outcome (option rd_slice) :=
  let! o := rd_slice_offset b orig in rd_slice_narrow_copy b orig (u64 (o + relsize)).

Fixpoint slice_iov_loop (fuel : nat) (b : rd_buf) (copy : rd_slice) (iov_max size_max : Z)
    (iovs : list (nat * Z * Z)) (sum : Z) : outcome (list (nat * Z * Z) * Z) :=
  match fuel with
  | O => Diverge
  | S fuel =>
      if (sum <? size_max) && (zlen iovs <? iov_max) then
        let! (copy, rlen, p) := rd_slice_reader b copy in
        if rlen =? 0 then Ret (iovs, sum)
        else slice_iov_loop fuel b copy iov_max size_max (iovs ++ [(p.1, p.2, rlen)]) (sum + rlen)
      else Ret (iovs, sum)
  end.

Definition rd_slice_get_iov (b : rd_buf) (sl : rd_slice) (iov_max size_max : Z)
  : outcome (list (nat * Z * Z) * Z) :=
  slice_iov_loop (slice_fuel sl) b sl iov_max size_max [] 0.

(** [dst] is the buffer written to, [b] the one the slice reads. *)
Fixpoint write_slice_loop (fuel : nat) (dst b : rd_buf) (sl : rd_slice) (sum : Z)
  : outcome (rd_buf * rd_slice * Z) :=
  match fuel with
  | O => Diverge
  | S fuel =>
      let! (sl, rlen, p) := rd_slice_reader b sl in
      if rlen =? 0 then Ret (dst, sl, sum)
      else
        let! (dst, r) := rd_buf_write dst (Some (ptr_bytes b p rlen)) rlen in
        write_slice_loop fuel dst b sl (sum + r)
  end.

Definition rd_buf_write_slice (dst b : rd_buf) (sl : rd_slice) : outcome (rd_buf * rd_slice * Z) :=
  write_slice_loop (slice_fuel sl) dst b sl 0.
