(* ===== verification/SliceFacts.v ===== *)
(** * Buffer slices: readers return consecutive bytes of the buffer

    [slice_at b sl pos] says the slice is well formed and its read position is
    the absolute offset [pos].  Every reader is characterised by the bytes of
    [contents b] it returns and the position it leaves. *)
From Stdlib Require Import ZArith Lia.
From stdpp Require Import base numbers list.
From S2P Require Import Prelude Buf BufFacts BufSeek BufSpec Slice.

(** Bytes [from, from + n) of the buffer. *)
Definition bytes_at (b : rd_buf) (from n : Z) : list Z := ztake n (zdrop from (contents b)).

Definition slice_at (b : rd_buf) (sl : rd_slice) (pos : Z) : Prop :=
  (exists l1 s l2, rbuf_segments b = l1 ++ s :: l2 /\ sl_seg sl = Some (length l1) /\
     0 <= sl_rof sl <= seg_of s /\ pos = sum_of l1 + sl_rof sl) /\
  0 <= sl_start sl <= pos /\ pos <= sl_end sl <= rbuf_len b.

Lemma zlen_bytes_at b from n :
  0 <= from -> 0 <= n -> from + n <= zlen (contents b) -> zlen (bytes_at b from n) = n.
Proof. intros. unfold bytes_at. rewrite zlen_ztake; [done|]. rewrite zlen_zdrop; lia. Qed.

Lemma bytes_at_app b from n1 n2 :
  0 <= from -> 0 <= n1 -> 0 <= n2 ->
  bytes_at b from n1 ++ bytes_at b (from + n1) n2 = bytes_at b from (n1 + n2).
Proof.
  intros. unfold bytes_at, ztake, zdrop.
  replace (Z.to_nat (from + n1)) with (Z.to_nat from + Z.to_nat n1)%nat by lia.
  rewrite <- drop_drop.
  replace (Z.to_nat (n1 + n2)) with (Z.to_nat n1 + Z.to_nat n2)%nat by lia.
  apply take_take_drop.
Qed.

(** Bytes of one segment are bytes of the buffer. *)
Lemma seg_bytes_at b l1 s l2 rof n :
  rbuf_segments b = l1 ++ s :: l2 -> Forall seg_ok (rbuf_segments b) ->
  0 <= rof -> 0 <= n -> rof + n <= seg_of s ->
  ptr_bytes b (length l1, rof) n = bytes_at b (sum_of l1 + rof) n.
Proof.
  intros Hs Hok Hr Hn Hle. unfold ptr_bytes, bytes_at, contents. simpl.
  rewrite Hs in *. rewrite list_lookup_middle by done. rewrite bind_app. cbn.
  apply Forall_app in Hok as [Hok1 Hok2]. apply Forall_cons in Hok2 as [[Hs1 Hs2] _].
  pose proof (zlen_contents_list l1 Hok1) as Hl1. pose proof (zlen_seg_data s (conj Hs1 Hs2)) as Hl2.
  unfold zdrop at 2. rewrite drop_app_ge by lia. rewrite drop_app_le by lia.
  unfold ztake at 2. rewrite take_app_le by (rewrite length_drop; lia).
  replace (Z.to_nat (sum_of l1 + rof) - length (l1 ≫= seg_data))%nat with (Z.to_nat rof) by lia.
  unfold seg_data, ztake, zdrop. rewrite skipn_firstn_comm, take_take. f_equal. lia.
Qed.

Section reading.
Context (b : rd_buf) (R : read_wf b) (Hmax : rbuf_len b < 2 ^ 64).

Lemma slice_deref sl pos :
  slice_at b sl pos ->
  rd_slice_abs_offset b sl = Ret pos /\ rd_slice_remains b sl = Ret (sl_end sl - pos) /\
  rd_slice_offset b sl = Ret (pos - sl_start sl).
Proof.
  intros ((l1 & s & l2 & Hs & Hseg & Hr & Hp) & Hst & He).
  pose proof (rw_chain _ R) as Hc. rewrite Hs, chain_app in Hc. destruct Hc as [_ [Ha _]].
  assert (Hd : sl_deref b sl = Ret (Some s)).
  { unfold sl_deref. rewrite Hseg, Hs, list_lookup_middle by done. done. }
  unfold rd_slice_remains, rd_slice_offset, rd_slice_abs_offset. rewrite Hd. cbn [obind].
  rewrite Ha, Z.add_0_l, <- Hp. rewrite !uwrap_id by (unfold u_ok; lia). done.
Qed.

(** The segment scan of a reader stops at the next unread byte. *)
Lemma reader_scan_spec l2 l1 s rof e :
  rbuf_segments b = l1 ++ s :: l2 -> 0 <= rof <= seg_of s ->
  sum_of l1 + rof < e <= rbuf_len b ->
  exists l1' s' l2' rof',
    rbuf_segments b = l1' ++ s' :: l2' /\
    reader_scan (s :: l2) (length l1) rof e = Some (length l1', s', rof') /\
    0 <= rof' < seg_of s' /\ sum_of l1' + rof' = sum_of l1 + rof /\
    ((length l1' = length l1 /\ rof' = rof) \/ ((length l1 < length l1')%nat /\ rof' = 0)).
Proof.
  revert l1 s rof; induction l2 as [|s2 l2 IH]; intros l1 s rof Hs Hr He.
  - pose proof (rw_chain _ R) as Hc. pose proof (rw_len _ R) as Hl.
    rewrite Hs in Hc, Hl. rewrite chain_app in Hc. destruct Hc as [_ [Ha _]].
    rewrite sum_of_app in Hl. simpl in Hl. cbn [reader_scan].
    destruct (Z.eqb_spec (seg_of s) rof); [lia|]. rewrite andb_false_r.
    exists l1, s, [], rof. split_and!; try done; lia.
  - pose proof (rw_chain _ R) as Hc. rewrite Hs in Hc. rewrite chain_app in Hc.
    destruct Hc as [_ [Ha _]]. cbn [reader_scan].
    destruct (Z.ltb_spec (seg_absof s + rof) e); [|lia].
    destruct (Z.eqb_spec (seg_of s) rof) as [Hx|Hx]; cbn [andb].
    + pose proof (rw_ok _ R) as Hok. rewrite Hs in Hok. apply Forall_app in Hok as [_ Hok].
      apply Forall_cons in Hok as [_ Hok]. apply Forall_cons in Hok as [[Ho2 _] _].
      assert (Hsum : sum_of (l1 ++ [s]) = sum_of l1 + seg_of s) by (rewrite sum_of_app; simpl; lia).
      assert (Hlen : length (l1 ++ [s]) = S (length l1)) by (rewrite length_app; simpl; lia).
      destruct (IH (l1 ++ [s]) s2 0) as (l1' & s' & l2' & rof' & H1 & H2 & H3 & H4 & H5);
        [by rewrite <- app_assoc | lia | lia |].
      exists l1', s', l2', rof'. rewrite Hlen in *. cbn [reader_scan] in *.
      split_and!; try done; lia.
    + exists l1, s, (s2 :: l2), rof. split_and!; try done; lia.
Qed.

(** [rd_slice_reader] before the end: a non-empty run of bytes at [pos]. *)
Lemma reader_some sl pos :
  slice_at b sl pos -> pos < sl_end sl ->
  exists sl' rlen p, rd_slice_reader b sl = Ret (sl', rlen, p) /\
    0 < rlen <= sl_end sl - pos /\ ptr_bytes b p rlen = bytes_at b pos rlen /\
    slice_at b sl' (pos + rlen) /\ sl_start sl' = sl_start sl /\ sl_end sl' = sl_end sl /\
    rd_slice_peeker b sl = Ret (rlen, p).
Proof.
  intros S Hlt. destruct (slice_deref _ _ S) as (Habs & Hrem & _).
  destruct S as ((l1 & s & l2 & Hs & Hseg & Hr & Hp) & Hst & He).
  destruct (reader_scan_spec l2 l1 s (sl_rof sl) (sl_end sl) Hs Hr ltac:(lia))
    as (l1' & s' & l2' & rof' & Hs' & Hscan & Hr' & Hsum & Hmove).
  pose proof (rw_chain _ R) as Hc. pose proof (rw_len _ R) as Hl. pose proof (rw_ok _ R) as Hok.
  rewrite Hs' in Hc, Hl. rewrite chain_app in Hc. destruct Hc as [_ [Ha _]].
  pose proof Hok as Hok'. rewrite Hs' in Hok'. apply Forall_app in Hok' as [_ Hok'].
  apply Forall_cons in Hok' as [[Ho' _] Hok2].
  rewrite sum_of_app in Hl. simpl in Hl. pose proof (sum_of_nonneg _ Hok2).
  set (rlen := Z.min (seg_of s' - rof') (sl_end sl - pos)).
  assert (Hr0 : forall upd, rd_slice_reader0 b sl upd =
     if upd then Ret (set_sl_pos (length l1') (rof' + rlen) sl, rlen, (length l1', rof'))
     else Ret (sl, rlen, (length l1', rof'))).
  { intros upd. unfold rd_slice_reader0. rewrite Hseg, Hs, drop_middle, Hscan.
    rewrite Ha, Z.add_0_l, Hsum, <- Hp, !Z.geb_leb.
    destruct (Z.leb_spec (sl_end sl) pos); [lia|].
    destruct (Z.leb_spec pos (sl_end sl)); [|lia].
    rewrite Hrem. cbn [obind]. rewrite uwrap_id by (unfold u_ok; lia). fold rlen.
    destruct upd; [|done]. destruct Hmove as [[Hi ->]|[Hi ->]].
    - rewrite Hi, bool_decide_true by done. done.
    - rewrite bool_decide_false by (intros [= ?]; lia).
      destruct (Z.leb_spec (sl_start sl) pos); [|lia].
      destruct (Z.leb_spec (pos + rlen) (sl_end sl)); [|lia]. done. }
  eexists _, rlen, _. unfold rd_slice_reader, rd_slice_peeker. rewrite !Hr0. cbn [obind].
  split_and!; try done; try lia.
  - rewrite (seg_bytes_at b l1' s' l2') by (done || lia). f_equal. lia.
  - split; [|simpl; lia]. exists l1', s', l2'. split_and!; try done; simpl; lia.
Qed.

Lemma reader_end sl pos :
  slice_at b sl pos -> pos = sl_end sl -> exists p, rd_slice_reader b sl = Ret (sl, 0, p).
Proof.
  intros S Heq. destruct S as ((l1 & s & l2 & Hs & Hseg & Hr & Hp) & Hst & He).
  pose proof (rw_chain _ R) as Hc. rewrite Hs, chain_app in Hc. destruct Hc as [_ [Ha _]].
  unfold rd_slice_reader, rd_slice_reader0. rewrite Hseg, Hs, drop_middle. cbn [reader_scan].
  destruct (Z.ltb_spec (seg_absof s + sl_rof sl) (sl_end sl)); [lia|]. cbn [andb].
  rewrite Z.geb_leb. destruct (Z.leb_spec (sl_end sl) (seg_absof s + sl_rof sl)); [|lia]. eauto.
Qed.

(** A reader loop folds its function over chunks that concatenate to the rest
    of the window, and terminates. *)
Lemma reader_loop_spec {A} (f : A -> list Z -> A) fuel sl pos acc :
  slice_at b sl pos -> sl_end sl - pos < Z.of_nat fuel ->
  exists sl' chunks,
    reader_loop fuel b f sl acc = Ret (sl', foldl f acc chunks) /\
    concat chunks = bytes_at b pos (sl_end sl - pos) /\
    slice_at b sl' (sl_end sl) /\ sl_start sl' = sl_start sl /\ sl_end sl' = sl_end sl.
Proof.
  revert sl pos acc; induction fuel as [|fuel IH]; intros sl pos acc S Hf.
  { pose proof S as (_ & _ & ?). lia. }
  cbn [reader_loop]. destruct (Z.eq_dec pos (sl_end sl)) as [Heq|Hne].
  - destruct (reader_end sl pos S Heq) as [p ->]. cbn [obind]. simpl.
    exists sl, []. simpl. rewrite <- Heq, Z.sub_diag. split_and!; done.
  - pose proof S as (_ & _ & He).
    destruct (reader_some sl pos S ltac:(lia)) as (sl1 & rlen & p & -> & Hl & Hb & S1 & E1 & E2 & _).
    cbn [obind]. destruct (Z.eqb_spec rlen 0); [lia|].
    destruct (IH sl1 (pos + rlen) (f acc (ptr_bytes b p rlen)) S1 ltac:(lia))
      as (sl' & ch & -> & Hc & S' & E1' & E2').
    exists sl', (ptr_bytes b p rlen :: ch). simpl. rewrite Hc, Hb, E2.
    split_and!; try congruence.
    destruct S as (_ & ? & _). rewrite bytes_at_app by lia. f_equal. lia.
Qed.

Lemma foldl_app_concat (chunks : list (list Z)) acc :
  foldl (fun d c => d ++ c) acc chunks = acc ++ concat chunks.
Proof.
  revert acc; induction chunks as [|c ch IH]; intros acc; simpl; [by rewrite app_nil_r|].
  by rewrite IH, app_assoc.
Qed.

Lemma slice_at_end sl pos e :
  slice_at b sl pos -> pos <= e <= rbuf_len b -> slice_at b (set_sl_end e sl) pos.
Proof. intros (H & ? & ?) ?. split; [exact H|]. simpl. lia. Qed.

(** [rd_slice_read]: all or nothing. *)
Lemma slice_read_spec sl pos n :
  slice_at b sl pos -> 0 <= n ->
  exists sl', rd_slice_read b sl n =
      (if sl_end sl - pos <? n then Ret (sl, [], 0) else Ret (sl', bytes_at b pos n, n)) /\
    (n <= sl_end sl - pos ->
     slice_at b sl' (pos + n) /\ sl_start sl' = sl_start sl /\ sl_end sl' = sl_end sl).
Proof.
  intros S Hn. destruct (slice_deref _ _ S) as (Habs & Hrem & _).
  pose proof S as (_ & Hst & He). unfold rd_slice_read. rewrite Hrem. cbn [obind].
  destruct (Z.ltb_spec (sl_end sl - pos) n); [exists sl; split; [done|lia]|].
  rewrite Habs. cbn [obind].
  pose proof (slice_at_end sl pos (pos + n) S ltac:(lia)) as S1.
  destruct (reader_loop_spec (fun d c => d ++ c) (slice_fuel (set_sl_end (pos + n) sl))
              _ pos [] S1) as (sl1 & ch & -> & Hc & S2 & E1 & E2).
  { unfold slice_fuel. simpl. lia. }
  cbn [obind]. simpl in *. eexists. split.
  - rewrite foldl_app_concat, Hc. simpl. by rewrite Z.add_simpl_l.
  - intros _. split_and!; try done. apply slice_at_end; [done|lia].
Qed.

Lemma slice_seek_spec sl pos o :
  slice_at b sl pos -> 0 <= o < 2 ^ 63 -> rbuf_len b < 2 ^ 63 ->
  exists sl', rd_slice_seek b sl o =
      (if sl_start sl + o <? sl_end sl then Ret (sl', 0) else Ret (sl, -1)) /\
    (sl_start sl + o < sl_end sl ->
     slice_at b sl' (sl_start sl + o) /\ sl_start sl' = sl_start sl /\ sl_end sl' = sl_end sl).
Proof.
  intros S Ho Hb. pose proof S as ((l1 & s & l2 & Hs & Hseg & Hr & Hp) & Hst & He).
  unfold rd_slice_seek. rewrite uwrap_id by (unfold u_ok; lia). rewrite Z.geb_leb.
  destruct (Z.leb_spec (sl_end sl) (sl_start sl + o)).
  { destruct (Z.ltb_spec (sl_start sl + o) (sl_end sl)); [lia|]. exists sl. split; [done|lia]. }
  destruct (Z.ltb_spec (sl_start sl + o) (sl_end sl)); [|lia].
  assert (Hh : valid_hint b (sl_seg sl)).
  { rewrite Hseg. simpl. rewrite Hs, length_app. simpl. lia. }
  pose proof (segment_at_offset_spec b _ (sl_start sl + o) R Hh ltac:(lia)) as Hat.
  destruct (Z.ltb_spec (sl_start sl + o) (rbuf_len b)); [|lia].
  destruct Hat as (m1 & t & m2 & Hm & -> & Hbd & Ha). cbn [obind].
  rewrite Hm, list_lookup_middle by done.
  replace (seg_absof t + (sl_start sl + o - seg_absof t)) with (sl_start sl + o) by lia.
  rewrite !Z.geb_leb. destruct (Z.leb_spec (sl_start sl) (sl_start sl + o)); [|lia].
  destruct (Z.leb_spec (sl_start sl + o) (sl_end sl)); [|lia]. cbn [andb].
  eexists. split; [reflexivity|]. intros _. split_and!; try done.
  split; [|simpl; lia]. exists m1, t, m2. simpl. split_and!; try done; lia.
Qed.

End reading.

(** ** Initialisation *)

Lemma slice_init_spec b absof size :
  read_wf b -> rbuf_len b < 2 ^ 63 -> 0 <= absof -> 0 <= size < 2 ^ 63 ->
  if (absof <? rbuf_len b) && (absof + size <=? rbuf_len b) then
    exists sl, rd_slice_init b absof size = Ret (Some sl) /\ slice_at b sl absof /\
               sl_start sl = absof /\ sl_end sl = absof + size
  else rd_slice_init b absof size = Ret None.
Proof.
  intros R Hlen Ha Hs. unfold rd_slice_init.
  pose proof (segment_at_offset_spec b None absof R I Ha) as Hat.
  destruct (Z.ltb_spec absof (rbuf_len b)); cbn [andb]; [|by rewrite Hat].
  destruct Hat as (l1 & s & l2 & Hsegs & -> & Hbd & Habs). cbn [obind].
  unfold rd_slice_init_seg. rewrite Hsegs, !list_lookup_middle by done.
  replace (seg_absof s + (absof - seg_absof s)) with absof by lia.
  rewrite !uwrap_id by (unfold u_ok; lia).
  destruct (Z.ltb_spec (rbuf_len b) (absof + size)), (Z.leb_spec (absof + size) (rbuf_len b));
    try lia; [done|].
  rewrite Z.geb_leb, Z.leb_refl. destruct (Z.leb_spec absof (absof + size)); [|lia]. cbn [andb].
  eexists. split; [reflexivity|]. split_and!; try done. split; [|simpl; lia].
  exists l1, s, l2. split_and!; try done; simpl; lia.
Qed.

Lemma slice_init_full_spec b :
  read_wf b -> 0 < rbuf_len b < 2 ^ 63 ->
  exists sl, rd_slice_init_full b = Ret sl /\ slice_at b sl 0 /\
             sl_start sl = 0 /\ sl_end sl = rbuf_len b.
Proof.
  intros R Hlen. pose proof (slice_init_spec b 0 (rbuf_len b) R ltac:(lia) ltac:(lia) ltac:(lia)) as H.
  destruct (Z.ltb_spec 0 (rbuf_len b)); [|lia]. rewrite Z.add_0_l, Z.leb_refl in H. simpl in H.
  destruct H as (sl & Hi & ?). exists sl. unfold rd_slice_init_full. by rewrite Hi.
Qed.

(** A buffer of several segments, for the examples. *)
Definition example_buf : outcome rd_buf :=
  let! b := rd_buf_init 2 4 in
  run_ops b [BufSpec.Write [10; 11; 12]; BufSpec.Push [20; 21] None; BufSpec.Write [30; 31]].

Lemma example_buf_ok :
  exists b, example_buf = Ret b /\ read_wf b /\ contents b = [10; 11; 12; 20; 21; 30; 31] /\
            rbuf_len b = 7.
Proof.
  destruct (buf_init_spec 2 4 ltac:(lia)) as (b0 & Hb0 & Hi & Hc & Ha).
  destruct (run_ops_refines [BufSpec.Write [10; 11; 12]; BufSpec.Push [20; 21] None;
              BufSpec.Write [30; 31]] b0 Hi Ha) as (b & Hr & Hi' & _ & Hc').
  { simpl. split; [lia|]. intros b1 _. split; [done|]. intros b2 _. split; [lia|done]. }
  exists b. unfold example_buf. rewrite Hb0. cbn [obind]. rewrite Hc in Hc'.
  pose proof (inv_zlen b Hi') as Hl. rewrite Hc' in Hl. split_and!; try done.
  destruct Hi' as [(E1 & _)|(pre & w & V & _)]; [|by eapply view_read_wf].
  unfold contents in Hc'. rewrite E1 in Hc'. done.
Qed.

Lemma example_slice :
  exists b sl, example_buf = Ret b /\ read_wf b /\ rbuf_len b = 7 /\
    contents b = [10; 11; 12; 20; 21; 30; 31] /\ rd_slice_init b 1 5 = Ret (Some sl) /\
    slice_at b sl 1 /\ sl_start sl = 1 /\ sl_end sl = 6.
Proof.
  destruct example_buf_ok as (b & Hb & R & Hc & Hl).
  pose proof (slice_init_spec b 1 5 R ltac:(lia) ltac:(lia) ltac:(lia)) as H.
  rewrite Hl in H. simpl in H. destruct H as (sl & ? & ? & ? & ?).
  exists b, sl. split_and!; done.
Qed.
