(* ===== verification/CrcTheory.v ===== *)
(** * Reflected CRCs, one bit at a time

    The bit-serial definition of a reflected CRC with an arbitrary polynomial,
    shared by CRC-32 (file Crc) and CRC-32C (file Crc32c): the step on one bit
    is linear over xor, so that steps on a word split into steps on its
    bytes. *)
From Stdlib Require Import ZArith Lia.
From stdpp Require Import base numbers list.
From S2P Require Import Prelude.

Section crc.
Context (poly : Z).

Definition crc_step (x : Z) : Z :=
  Z.lxor (Z.shiftr x 1) (if Z.testbit x 0 then poly else 0).

Definition crc_steps (n : nat) (x : Z) : Z := Nat.iter n crc_step x.

(** A byte enters at the low end and is pushed through eight steps. *)
Definition crc_push (crc byte : Z) : Z := crc_steps 8 (Z.lxor crc byte).

Lemma crc_step_lxor x y : crc_step (Z.lxor x y) = Z.lxor (crc_step x) (crc_step y).
Proof.
  unfold crc_step. rewrite Z.lxor_spec, Z.shiftr_lxor.
  apply Z.bits_inj'. intros i Hi. rewrite !Z.lxor_spec.
  destruct (Z.testbit x 0), (Z.testbit y 0); simpl xorb; rewrite ?Z.bits_0;
    generalize (Z.testbit (Z.shiftr x 1) i) (Z.testbit (Z.shiftr y 1) i) (Z.testbit poly i);
    intros [] [] []; done.
Qed.

Lemma crc_steps_lxor n x y :
  crc_steps n (Z.lxor x y) = Z.lxor (crc_steps n x) (crc_steps n y).
Proof. unfold crc_steps. induction n as [|n IH]; simpl; [done|]. by rewrite IH, crc_step_lxor. Qed.

Lemma crc_steps_add n m x : crc_steps (n + m) x = crc_steps n (crc_steps m x).
Proof. apply Nat.iter_add. Qed.

(** Steps on a value whose low bits are zero only shift it. *)
Lemma crc_steps_shift n y : crc_steps n (Z.shiftl y (Z.of_nat n)) = y.
Proof.
  unfold crc_steps. revert y; induction n as [|n IH]; intros y; [apply Z.shiftl_0_r|].
  rewrite Nat.iter_succ_r. unfold crc_step at 2.
  rewrite Z.shiftl_spec_low, Z.lxor_0_r by lia.
  rewrite Z.shiftr_shiftl_l by lia. replace (Z.of_nat (S n) - 1) with (Z.of_nat n) by lia.
  apply IH.
Qed.

Lemma split_low_byte x : Z.lxor (Z.shiftl (Z.shiftr x 8) 8) (Z.land x 0xff) = x.
Proof.
  apply Z.bits_inj'. intros i Hi. change 0xff with (Z.ones 8).
  rewrite Z.lxor_spec, Z.land_spec. destruct (Z.lt_ge_cases i 8).
  - rewrite Z.shiftl_spec_low, Z.ones_spec_low by lia. by rewrite andb_true_r, xorb_false_l.
  - rewrite Z.shiftl_spec, Z.shiftr_spec, Z.ones_spec_high by lia.
    rewrite andb_false_r, xorb_false_r. f_equal. lia.
Qed.

Lemma land_ff_ok x : byte_ok (Z.land x 0xff).
Proof. change 0xff with (2 ^ 8 - 1). rewrite land_pow2_ones by lia. apply uwrap_ok. lia. Qed.

Lemma shiftr8_byte byte : byte_ok byte -> Z.shiftr byte 8 = 0.
Proof. intros [? ?]. rewrite Z.shiftr_div_pow2 by lia. apply Z.div_small. done. Qed.

(** Eight steps act on the low byte and shift the rest. *)
Lemma crc_steps_8 x :
  crc_steps 8 x = Z.lxor (crc_steps 8 (Z.land x 0xff)) (Z.shiftr x 8).
Proof.
  rewrite <- (split_low_byte x) at 1. rewrite crc_steps_lxor.
  change 8 with (Z.of_nat 8) at 2. rewrite crc_steps_shift. apply Z.lxor_comm.
Qed.

(** Pushing bytes is stepping through the word they form. *)
Lemma crc_steps_word n x :
  crc_steps (8 + n) x
  = Z.lxor (crc_steps (8 + n) (Z.land x 0xff)) (crc_steps n (Z.shiftr x 8)).
Proof.
  replace (8 + n)%nat with (n + 8)%nat by lia.
  rewrite !(crc_steps_add n 8), (crc_steps_8 x). apply crc_steps_lxor.
Qed.

Lemma crc_step_ok x : u_ok 32 poly -> u_ok 32 x -> u_ok 32 (crc_step x).
Proof.
  intros Hp Hx. apply lxor_u_ok; [lia|by apply shiftr_u_ok|].
  destruct (Z.testbit x 0); [done|]. unfold u_ok. lia.
Qed.

Lemma crc_push_ok crc byte :
  u_ok 32 poly -> u_ok 32 crc -> byte_ok byte -> u_ok 32 (crc_push crc byte).
Proof.
  intros Hp Hc [? ?]. unfold crc_push, crc_steps.
  assert (u_ok 32 (Z.lxor crc byte)) as Hx by (apply lxor_u_ok; [lia|done|unfold u_ok; lia]).
  revert Hx. generalize (Z.lxor crc byte) 8%nat. intros x n Hx. induction n; simpl; [done|].
  apply crc_step_ok; auto.
Qed.

Lemma crc_fold_ok crc data :
  u_ok 32 poly -> u_ok 32 crc -> bytes_ok data -> u_ok 32 (foldl crc_push crc data).
Proof.
  intros Hp Hc Hd. revert crc Hc. induction Hd; intros; simpl; [done|].
  apply IHHd. by apply crc_push_ok.
Qed.
End crc.
