(* ===== verification/Crc.v ===== *)
(** * CRC-32: rdcrc32.h, rdcrc32.c and the slice checksum of rdbuf.c

    The table-driven implementation (the one compiled without zlib) against
    the bit-by-bit definition of the reflected CRC-32 with polynomial
    0xEDB88320. *)
From Stdlib Require Import ZArith Lia.
From stdpp Require Import base numbers list.
From S2P Require Import Prelude CrcTheory Buf BufFacts BufSeek Slice SliceFacts.

(** ** Code *)

Definition crc_table : list Z := [
   0x00000000; 0x77073096; 0xee0e612c; 0x990951ba; 0x076dc419; 0x706af48f;
   0xe963a535; 0x9e6495a3; 0x0edb8832; 0x79dcb8a4; 0xe0d5e91e; 0x97d2d988;
   0x09b64c2b; 0x7eb17cbd; 0xe7b82d07; 0x90bf1d91; 0x1db71064; 0x6ab020f2;
   0xf3b97148; 0x84be41de; 0x1adad47d; 0x6ddde4eb; 0xf4d4b551; 0x83d385c7;
   0x136c9856; 0x646ba8c0; 0xfd62f97a; 0x8a65c9ec; 0x14015c4f; 0x63066cd9;
   0xfa0f3d63; 0x8d080df5; 0x3b6e20c8; 0x4c69105e; 0xd56041e4; 0xa2677172;
   0x3c03e4d1; 0x4b04d447; 0xd20d85fd; 0xa50ab56b; 0x35b5a8fa; 0x42b2986c;
   0xdbbbc9d6; 0xacbcf940; 0x32d86ce3; 0x45df5c75; 0xdcd60dcf; 0xabd13d59;
   0x26d930ac; 0x51de003a; 0xc8d75180; 0xbfd06116; 0x21b4f4b5; 0x56b3c423;
   0xcfba9599; 0xb8bda50f; 0x2802b89e; 0x5f058808; 0xc60cd9b2; 0xb10be924;
   0x2f6f7c87; 0x58684c11; 0xc1611dab; 0xb6662d3d; 0x76dc4190; 0x01db7106;
   0x98d220bc; 0xefd5102a; 0x71b18589; 0x06b6b51f; 0x9fbfe4a5; 0xe8b8d433;
   0x7807c9a2; 0x0f00f934; 0x9609a88e; 0xe10e9818; 0x7f6a0dbb; 0x086d3d2d;
   0x91646c97; 0xe6635c01; 0x6b6b51f4; 0x1c6c6162; 0x856530d8; 0xf262004e;
   0x6c0695ed; 0x1b01a57b; 0x8208f4c1; 0xf50fc457; 0x65b0d9c6; 0x12b7e950;
   0x8bbeb8ea; 0xfcb9887c; 0x62dd1ddf; 0x15da2d49; 0x8cd37cf3; 0xfbd44c65;
   0x4db26158; 0x3ab551ce; 0xa3bc0074; 0xd4bb30e2; 0x4adfa541; 0x3dd895d7;
   0xa4d1c46d; 0xd3d6f4fb; 0x4369e96a; 0x346ed9fc; 0xad678846; 0xda60b8d0;
   0x44042d73; 0x33031de5; 0xaa0a4c5f; 0xdd0d7cc9; 0x5005713c; 0x270241aa;
   0xbe0b1010; 0xc90c2086; 0x5768b525; 0x206f85b3; 0xb966d409; 0xce61e49f;
   0x5edef90e; 0x29d9c998; 0xb0d09822; 0xc7d7a8b4; 0x59b33d17; 0x2eb40d81;
   0xb7bd5c3b; 0xc0ba6cad; 0xedb88320; 0x9abfb3b6; 0x03b6e20c; 0x74b1d29a;
   0xead54739; 0x9dd277af; 0x04db2615; 0x73dc1683; 0xe3630b12; 0x94643b84;
   0x0d6d6a3e; 0x7a6a5aa8; 0xe40ecf0b; 0x9309ff9d; 0x0a00ae27; 0x7d079eb1;
   0xf00f9344; 0x8708a3d2; 0x1e01f268; 0x6906c2fe; 0xf762575d; 0x806567cb;
   0x196c3671; 0x6e6b06e7; 0xfed41b76; 0x89d32be0; 0x10da7a5a; 0x67dd4acc;
   0xf9b9df6f; 0x8ebeeff9; 0x17b7be43; 0x60b08ed5; 0xd6d6a3e8; 0xa1d1937e;
   0x38d8c2c4; 0x4fdff252; 0xd1bb67f1; 0xa6bc5767; 0x3fb506dd; 0x48b2364b;
   0xd80d2bda; 0xaf0a1b4c; 0x36034af6; 0x41047a60; 0xdf60efc3; 0xa867df55;
   0x316e8eef; 0x4669be79; 0xcb61b38c; 0xbc66831a; 0x256fd2a0; 0x5268e236;
   0xcc0c7795; 0xbb0b4703; 0x220216b9; 0x5505262f; 0xc5ba3bbe; 0xb2bd0b28;
   0x2bb45a92; 0x5cb36a04; 0xc2d7ffa7; 0xb5d0cf31; 0x2cd99e8b; 0x5bdeae1d;
   0x9b64c2b0; 0xec63f226; 0x756aa39c; 0x026d930a; 0x9c0906a9; 0xeb0e363f;
   0x72076785; 0x05005713; 0x95bf4a82; 0xe2b87a14; 0x7bb12bae; 0x0cb61b38;
   0x92d28e9b; 0xe5d5be0d; 0x7cdcefb7; 0x0bdbdf21; 0x86d3d2d4; 0xf1d4e242;
   0x68ddb3f8; 0x1fda836e; 0x81be16cd; 0xf6b9265b; 0x6fb077e1; 0x18b74777;
   0x88085ae6; 0xff0f6a70; 0x66063bca; 0x11010b5c; 0x8f659eff; 0xf862ae69;
   0x616bffd3; 0x166ccf45; 0xa00ae278; 0xd70dd2ee; 0x4e048354; 0x3903b3c2;
   0xa7672661; 0xd06016f7; 0x4969474d; 0x3e6e77db; 0xaed16a4a; 0xd9d65adc;
   0x40df0b66; 0x37d83bf0; 0xa9bcae53; 0xdebb9ec5; 0x47b2cf7f; 0x30b5ffe9;
   0xbdbdf21c; 0xcabac28a; 0x53b39330; 0x24b4a3a6; 0xbad03605; 0xcdd70693;
   0x54de5729; 0x23d967bf; 0xb3667a2e; 0xc4614ab8; 0x5d681b02; 0x2a6f2b94;
   0xb40bbe37; 0xc30c8ea1; 0x5a05df1b; 0x2d02ef8d].

Definition rd_crc32_init : Z := 0xffffffff.

(** One pass of the while loop of [rd_crc32_update]. *)
Definition crc32_byte (crc byte : Z) : Z :=
  let tbl_idx := Z.land (Z.lxor crc byte) 0xff in
  Z.land (Z.lxor (nth (Z.to_nat tbl_idx) crc_table 0) (Z.shiftr crc 8)) 0xffffffff.

Definition rd_crc32_update (crc : Z) (data : list Z) : Z :=
  Z.land (foldl crc32_byte crc data) 0xffffffff.

Definition rd_crc32_finalize (crc : Z) : Z := Z.lxor crc 0xffffffff.

Definition rd_crc32 (data : list Z) : Z :=
  rd_crc32_finalize (rd_crc32_update rd_crc32_init data).

(** The loop of [rd_crc32_reflect] from bit [i] on. *)
Fixpoint crc32_reflect_loop (n : nat) (data ret : Z) : Z :=
  match n with
  | O => ret
  | S n =>
      let data := Z.shiftr data 1 in
      crc32_reflect_loop n data (Z.lor (u32 (Z.shiftl ret 1)) (Z.land data 0x01))
  end.

Definition rd_crc32_reflect (data data_len : Z) : Z :=
  crc32_reflect_loop (Z.to_nat (data_len - 1)) data (Z.land data 0x01).

Definition rd_slice_crc32 (b : rd_buf) (sl : rd_slice) : outcome (rd_slice * Z) :=
  let! (sl, crc) := reader_loop (slice_fuel sl) b rd_crc32_update sl rd_crc32_init in
  Ret (sl, rd_crc32_finalize crc).

(** ** Reference: one bit at a time *)

Abbreviation crc_bits := (crc_steps 0xedb88320).
Abbreviation crc_ref_byte := (crc_push 0xedb88320).

Definition crc_ref (data : list Z) : Z :=
  Z.lxor (foldl crc_ref_byte 0xffffffff data) 0xffffffff.

(** ** Lemmas *)

Lemma crc_table_ok x :
  byte_ok x -> nth (Z.to_nat x) crc_table 0 = crc_bits 8 x.
Proof.
  intros Hx. apply Z.eqb_eq.
  apply (byte_forall (fun x => nth (Z.to_nat x) crc_table 0 =? crc_bits 8 x)); [|done].
  vm_compute. reflexivity.
Qed.

(** Eight bit steps are one table lookup. *)
Lemma crc_bits_table x :
  crc_bits 8 x
  = Z.lxor (nth (Z.to_nat (Z.land x 0xff)) crc_table 0) (Z.shiftr x 8).
Proof.
  rewrite crc_table_ok by apply land_ff_ok. apply crc_steps_8.
Qed.

Lemma crc_table_range x : byte_ok x -> u_ok 32 (nth (Z.to_nat x) crc_table 0).
Proof.
  intros Hx. pose proof (byte_forall
    (fun x => (0 <=? nth (Z.to_nat x) crc_table 0) && (nth (Z.to_nat x) crc_table 0 <? 2 ^ 32))
    ltac:(vm_compute; reflexivity) x Hx) as H. cbv beta in H. bool_hyps. unfold u_ok. lia.
Qed.

Lemma crc32_byte_ref crc byte :
  u_ok 32 crc -> byte_ok byte ->
  crc32_byte crc byte = crc_ref_byte crc byte /\ u_ok 32 (crc32_byte crc byte).
Proof.
  intros Hc Hb. unfold crc32_byte, crc_push.
  assert (Hx : u_ok 32 (Z.lxor (nth (Z.to_nat (Z.land (Z.lxor crc byte) 0xff)) crc_table 0)
                               (Z.shiftr crc 8))).
  { apply lxor_u_ok; [lia| |apply shiftr_u_ok; [lia|done]].
    apply crc_table_range, land_ff_ok. }
  change 0xffffffff with (2 ^ 32 - 1). rewrite u_ok_land by (done || lia). split; [|done].
  rewrite crc_bits_table, Z.shiftr_lxor, (shiftr8_byte byte Hb). by rewrite Z.lxor_0_r.
Qed.

Lemma crc32_fold_ref data crc :
  u_ok 32 crc -> bytes_ok data ->
  foldl crc32_byte crc data = foldl crc_ref_byte crc data /\ u_ok 32 (foldl crc32_byte crc data).
Proof.
  intros Hc Hd. revert crc Hc; induction Hd as [|x data Hx _ IH]; intros crc Hc; simpl; [done|].
  destruct (crc32_byte_ref crc x Hc Hx) as [<- H]. by apply IH.
Qed.

Lemma crc32_update_eq data crc :
  u_ok 32 crc -> bytes_ok data ->
  rd_crc32_update crc data = foldl crc32_byte crc data /\ u_ok 32 (rd_crc32_update crc data).
Proof.
  intros Hc Hd. unfold rd_crc32_update. destruct (crc32_fold_ref data crc Hc Hd) as [_ H].
  change 0xffffffff with (2 ^ 32 - 1). by rewrite u_ok_land by (done || lia).
Qed.

Lemma crc32_update_ok crc d : u_ok 32 (rd_crc32_update crc d).
Proof.
  unfold rd_crc32_update. change 0xffffffff with (2 ^ 32 - 1). rewrite land_pow2_ones by lia.
  by apply uwrap_ok.
Qed.

Lemma crc32_update_app crc d1 d2 :
  u_ok 32 crc -> rd_crc32_update crc (d1 ++ d2) = rd_crc32_update (rd_crc32_update crc d1) d2.
Proof.
  intros Hc. unfold rd_crc32_update. rewrite foldl_app.
  assert (Hok : u_ok 32 (foldl crc32_byte crc d1)).
  { revert crc Hc; induction d1 as [|x d1 IH]; intros crc Hc; [done|]. simpl. apply IH.
    unfold crc32_byte. change 0xffffffff with (2 ^ 32 - 1). rewrite land_pow2_ones by lia.
    by apply uwrap_ok. }
  change 0xffffffff with (2 ^ 32 - 1). by rewrite (u_ok_land 32 (foldl crc32_byte crc d1)).
Qed.

(** Updating chunk by chunk is updating with the concatenation. *)
Lemma crc32_update_chunks chunks crc :
  u_ok 32 crc -> foldl rd_crc32_update crc chunks = rd_crc32_update crc (concat chunks).
Proof.
  revert crc; induction chunks as [|c chunks IH]; intros crc Hc; simpl in *.
  - unfold rd_crc32_update. simpl. change 0xffffffff with (2 ^ 32 - 1).
    by rewrite u_ok_land by (done || lia).
  - rewrite IH by apply crc32_update_ok. by rewrite crc32_update_app.
Qed.

Lemma slice_crc32_of b sl pos :
  read_wf b -> rbuf_len b < 2 ^ 64 -> slice_at b sl pos ->
  exists sl', rd_slice_crc32 b sl = Ret (sl', rd_crc32 (bytes_at b pos (sl_end sl - pos))) /\
    slice_at b sl' (sl_end sl).
Proof.
  intros R Hmax S. pose proof S as (_ & Hst & He).
  destruct (reader_loop_spec b R Hmax rd_crc32_update (slice_fuel sl) sl pos rd_crc32_init S)
    as (sl' & ch & Hr & Hc & S' & _); [unfold slice_fuel; lia|].
  exists sl'. unfold rd_slice_crc32. rewrite Hr. cbn [obind]. split; [|done].
  rewrite crc32_update_chunks, Hc; [done|unfold u_ok, rd_crc32_init; lia].
Qed.

Lemma crc32_eq_ref data : bytes_ok data -> rd_crc32 data = crc_ref data /\ u_ok 32 (rd_crc32 data).
Proof.
  intros Hd. assert (Hi : u_ok 32 rd_crc32_init) by (unfold u_ok, rd_crc32_init; lia).
  destruct (crc32_update_eq data _ Hi Hd) as [E Hok].
  unfold rd_crc32, crc_ref, rd_crc32_finalize. split.
  - rewrite E, (proj1 (crc32_fold_ref data _ Hi Hd)). done.
  - apply lxor_u_ok; [lia|done|unfold u_ok; lia].
Qed.

(** ** Properties *)

(** The table-driven CRC-32 computes the bit-by-bit CRC-32 (reflected
    polynomial 0xEDB88320) of every byte string. *)
Theorem crc32_matches_reference (data : list Z) (Hd : bytes_ok data) :
  rd_crc32 data = crc_ref data /\ u_ok 32 (rd_crc32 data).
Proof. by apply crc32_eq_ref. Qed.

(** The check value of the CRC catalogue: "123456789". *)
Lemma crc32_matches_reference_witness :
  rd_crc32 [0x31; 0x32; 0x33; 0x34; 0x35; 0x36; 0x37; 0x38; 0x39] = 0xcbf43926 /\
  rd_crc32 [0x31; 0x32] = crc_ref [0x31; 0x32].
Proof.
  split; [vm_compute; reflexivity|]. apply (crc32_matches_reference [0x31; 0x32]).
  repeat constructor; unfold byte_ok, u_ok; lia.
Defined.

(** [rd_slice_crc32] is the CRC-32 of the unread bytes of the slice, however
    the buffer is split into segments, and leaves the slice at its end. *)
Theorem slice_crc32_spec (b : rd_buf) (sl : rd_slice) (pos : Z) (R : read_wf b)
    (Hmax : rbuf_len b < 2 ^ 64) (S : slice_at b sl pos) :
  exists sl', rd_slice_crc32 b sl = Ret (sl', rd_crc32 (bytes_at b pos (sl_end sl - pos))) /\
    slice_at b sl' (sl_end sl).
Proof. by apply slice_crc32_of. Qed.

Lemma slice_crc32_spec_witness :
  exists b sl sl', example_buf = Ret b /\ rd_slice_init b 1 5 = Ret (Some sl) /\
    rd_slice_crc32 b sl = Ret (sl', rd_crc32 [11; 12; 20; 21; 30]).
Proof.
  destruct example_slice as (b & sl & Hb & R & Hl & Hc & Hi & S & _ & He).
  destruct (slice_crc32_spec b sl 1 R ltac:(lia) S) as (sl' & Hr & _).
  exists b, sl, sl'. split; [exact Hb|]. split; [exact Hi|]. rewrite Hr, He.
  unfold bytes_at. rewrite Hc. reflexivity.
Defined.
