(* ===== verification/Reader.v ===== *)
(** * The byte-source interface and its slice instance

    What a protocol decoder needs from rdbuf.c: an all-or-nothing read.  The
    varint decoder of rdvarint.c is written and verified against the interface
    [ByteSource]; slices discharge it.  The file ends with the properties of
    the slice operations themselves. *)
From Stdlib Require Import ZArith Lia.
From stdpp Require Import base numbers list.
From S2P Require Import Prelude Varint Buf BufFacts BufSeek BufSpec Slice SliceFacts.

(** ** Interface *)

(** [src_read r n] is the new source, the bytes copied and the value returned:
    [n], or 0 when fewer than [n] bytes are left. *)
Class ByteSource (R : Type) : Type := {
  src_read : R -> Z -> outcome (R * list Z * Z);
  src_ok : R -> Prop;
  src_rest : R -> list Z }.

Class ByteSourceLaws (R : Type) {BS : ByteSource R} : Prop := {
  src_read_spec : forall r n, src_ok r -> 0 <= n ->
    exists r', src_read r n = (if zlen (src_rest r) <? n then Ret (r, [], 0)
                               else Ret (r', ztake n (src_rest r), n)) /\
      (n <= zlen (src_rest r) -> src_ok r' /\ src_rest r' = zdrop n (src_rest r)) }.

(** ** rdvarint.c: rd_varint_dec_slice *)

Section varint.
Context {R : Type} {BS : ByteSource R}.

(** The do-while loop: the value stored through [nump], if any, and the number
    of bytes read. *)
Fixpoint varint_slice_loop (fuel : nat) (slice : R) (num shift : Z) : outcome (R * Z * option Z) :=
  match fuel with
  | O => Diverge
  | S fuel =>
      let! (slice, dst, r) := src_read slice 1 in
      if r =? 0 then Ret (slice, 0, None)
      else
        let oct := default 0 (head dst) in
        if shift >=? 64 then Crash
        else
          let num := Z.lor num (u64 (Z.shiftl (Z.land oct 0x7f) shift)) in
          let shift := shift + 7 in
          if Z.land oct 0x80 =? 0
          then Ret (slice, shift / 7, Some (s64 (Z.lxor (Z.shiftr num 1) (- Z.land num 1))))
          else varint_slice_loop fuel slice num shift
  end.

(** Ten bytes at most are decoded, see [varint_slice_loop_spec]. *)
Definition rd_varint_dec_slice (slice : R) : outcome (R * Z * option Z) :=
  varint_slice_loop 11 slice 0 0.

Context {LAWS : ByteSourceLaws R}.

Lemma src_read_byte r x rest :
  src_ok r -> src_rest r = x :: rest ->
  exists r', src_read r 1 = Ret (r', [x], 1) /\ src_ok r' /\ src_rest r' = rest.
Proof.
  intros Hok Hr. destruct (src_read_spec r 1 Hok ltac:(lia)) as (r' & -> & Hn).
  rewrite Hr in *. cbn [length] in *. destruct (Z.ltb_spec (Z.of_nat (S (length rest))) 1); [lia|].
  destruct Hn as [Hok' Hr']; [lia|]. exists r'. by split_and!.
Qed.

Lemma src_read_eof r :
  src_ok r -> src_rest r = [] -> src_read r 1 = Ret (r, [], 0).
Proof.
  intros Hok Hr. destruct (src_read_spec r 1 Hok ltac:(lia)) as (r' & -> & _).
  by rewrite Hr.
Qed.

(** The two zig-zag expressions of rdvarint.h and rdvarint.c agree. *)
Lemma unzigzag64_alt num :
  u_ok 64 num -> s64 (Z.lxor (Z.shiftr num 1) (- Z.land num 1)) = unzigzag64 num.
Proof.
  intros [Hlo Hhi]. unfold unzigzag64. f_equal. f_equal.
  - symmetry. apply swrap_id; [lia|]. rewrite Z.shiftr_div_pow2 by lia. unfold s_ok. simpl.
    change (2 ^ 1) with 2. split; [|apply Z.div_lt_upper_bound; lia].
    assert (0 <= num / 2) by (apply Z.div_pos; lia). lia.
  - f_equal. symmetry. apply swrap_id; [lia|].
    assert (Z.land num 1 = num mod 2) as -> by (exact (Z.land_ones num 1 ltac:(lia))).
    pose proof (Z.mod_pos_bound num 2 ltac:(lia)).
    unfold s_ok. simpl. lia.
Qed.

(** The slice decoder follows the memory decoder byte for byte. *)
Lemma varint_slice_loop_spec src fuel r num off :
  src_ok r -> src_rest r = src -> u_ok 64 num -> 0 <= off <= 10 ->
  10 < off + Z.of_nat fuel ->
  match uvarint_dec_loop src off num (7 * off) with
  | Ret (k, Some n) => exists r', varint_slice_loop fuel r num (7 * off) = Ret (r', k, Some (unzigzag64 n)) /\
                         src_ok r' /\ src_rest r' = zdrop (k - off) src
  | Ret (_, None) => exists r', varint_slice_loop fuel r num (7 * off) = Ret (r', 0, None)
  | Crash => varint_slice_loop fuel r num (7 * off) = Crash
  | Diverge => False
  end.
Proof.
  revert fuel r num off; induction src as [|x src IH]; intros fuel r num off Hok Hr Hnum Ho Hf;
    (destruct fuel as [|fuel]; [lia|cbn [varint_slice_loop uvarint_dec_loop]]).
  - rewrite (src_read_eof r Hok Hr). cbn [obind]. simpl. eauto.
  - destruct (src_read_byte r x src Hok Hr) as (r1 & -> & Hok1 & Hr1). cbn [obind].
    change (1 =? 0) with false. cbn iota. simpl default.
    rewrite Z.geb_leb. destruct (Z.leb_spec 64 (7 * off)); [done|].
    set (num' := Z.lor num _).
    assert (Hnum' : u_ok 64 num').
    { apply lor_u_ok; [lia|done|]. apply uwrap_ok. lia. }
    replace (7 * off + 7) with (7 * (off + 1)) by lia.
    destruct (Z.land x 128 =? 0).
    + exists r1. rewrite unzigzag64_alt by done. rewrite Z.mul_comm, Z.div_mul by lia.
      split_and!; try done. replace (off + 1 - off) with 1 by lia. by rewrite Hr1.
    + specialize (IH fuel r1 num' (off + 1) Hok1 Hr1 Hnum' ltac:(lia) ltac:(lia)).
      destruct (uvarint_dec_loop src (off + 1) num' (7 * (off + 1))) as [[k [n|]]| |] eqn:E; try done.
      destruct IH as (r' & -> & Hok' & Hr'). exists r'. split_and!; try done.
      rewrite Hr'. apply uvarint_dec_loop_some in E.
      replace (k - off) with (Z.succ (k - (off + 1))) by lia. unfold zdrop.
      rewrite Z2Nat.inj_succ by lia. done.
Qed.
End varint.

(** ** Slices are byte sources *)

Definition slice_of (b : rd_buf) : Type := rd_slice.

#[export] Instance slice_source (b : rd_buf) : ByteSource (slice_of b) := {|
  src_read := rd_slice_read b;
  src_ok := fun sl => read_wf b /\ rbuf_len b < 2 ^ 64 /\ exists pos, slice_at b sl pos;
  src_rest := fun sl => match rd_slice_abs_offset b sl with
                        | Ret a => bytes_at b a (sl_end sl - a)
                        | _ => []
                        end |}.

Lemma slice_rest b sl pos :
  read_wf b -> rbuf_len b < 2 ^ 64 -> slice_at b sl pos ->
  src_rest (R := slice_of b) sl = bytes_at b pos (sl_end sl - pos).
Proof. intros R Hm S. simpl. by rewrite (proj1 (slice_deref b R Hm sl pos S)). Qed.

Lemma ztake_bytes_at b from n m : 0 <= m <= n -> ztake m (bytes_at b from n) = bytes_at b from m.
Proof. intros. unfold bytes_at, ztake. rewrite take_take. f_equal. lia. Qed.

Lemma zdrop_bytes_at b from n m :
  0 <= from -> 0 <= m <= n -> zdrop m (bytes_at b from n) = bytes_at b (from + m) (n - m).
Proof.
  intros. unfold bytes_at, ztake, zdrop. rewrite skipn_firstn_comm, drop_drop.
  f_equal; [lia|]. f_equal. lia.
Qed.

#[export] Instance slice_source_laws (b : rd_buf) : ByteSourceLaws (slice_of b).
Proof.
  constructor. intros sl n (R & Hm & pos & S) Hn.
  destruct (slice_read_spec b R Hm sl pos n S Hn) as (sl' & Hr & Hpost).
  pose proof S as (_ & Hst & He). pose proof (read_wf_zlen b R) as Hl.
  rewrite (slice_rest b sl pos R Hm S). exists sl'. simpl src_read. rewrite Hr.
  rewrite zlen_bytes_at by lia. split.
  - destruct (Z.ltb_spec (sl_end sl - pos) n); [done|]. by rewrite ztake_bytes_at by lia.
  - intros Hle. destruct (Hpost Hle) as (S' & E1 & E2). split.
    + split_and!; eauto.
    + rewrite (slice_rest b sl' _ R Hm S'), zdrop_bytes_at by lia. f_equal. lia.
Qed.

(** ** Narrowing *)

Lemma slice_narrow_relative_spec b sl pos n :
  read_wf b -> rbuf_len b < 2 ^ 63 -> slice_at b sl pos -> 0 <= n < 2 ^ 63 ->
  rd_slice_narrow_relative b sl n =
    Ret (if pos + n <=? sl_end sl then Some (set_sl_end (pos + n) sl, sl) else None) /\
  rd_slice_narrow_copy_relative b sl n =
    Ret (if pos + n <=? sl_end sl then Some (set_sl_end (pos + n) sl) else None).
Proof.
  intros R Hm S Hn. destruct (slice_deref b R ltac:(lia) sl pos S) as (_ & _ & Ho).
  pose proof S as (_ & Hst & He).
  unfold rd_slice_narrow_relative, rd_slice_narrow_copy_relative,
    rd_slice_narrow, rd_slice_narrow_copy. rewrite Ho. cbn [obind].
  rewrite (uwrap_id 64 (pos - sl_start sl + n)) by (unfold u_ok; lia).
  replace (sl_start sl + (pos - sl_start sl + n)) with (pos + n) by lia.
  rewrite (uwrap_id 64 (pos + n)) by (unfold u_ok; lia). rewrite Z.gtb_ltb.
  destruct (Z.ltb_spec (sl_end sl) (pos + n)), (Z.leb_spec (pos + n) (sl_end sl)); try lia; [done|].
  pose proof (slice_at_end b sl pos (pos + n) S ltac:(lia)) as S'.
  rewrite (proj1 (slice_deref b R ltac:(lia) _ pos S')). cbn [obind]. simpl.
  destruct (Z.leb_spec pos (pos + n)); [done|lia].
Qed.

(** A negative relative size, converted to [size_t], wraps past the check and
    fails the assertion. *)
Lemma slice_narrow_negative b sl pos k :
  read_wf b -> rbuf_len b < 2 ^ 63 -> slice_at b sl pos -> 0 < k <= pos - sl_start sl ->
  rd_slice_narrow_relative b sl (u64 (- k)) = Crash /\
  rd_slice_narrow_copy_relative b sl (u64 (- k)) = Crash.
Proof.
  intros R Hm S Hk. destruct (slice_deref b R ltac:(lia) sl pos S) as (_ & _ & Ho).
  pose proof S as (_ & Hst & He).
  unfold rd_slice_narrow_relative, rd_slice_narrow_copy_relative,
    rd_slice_narrow, rd_slice_narrow_copy. rewrite Ho. cbn [obind].
  assert (Hw : u64 (pos - sl_start sl + u64 (- k)) = pos - sl_start sl - k).
  { unfold uwrap. rewrite Zplus_mod_idemp_r. rewrite Z.mod_small; lia. }
  rewrite Hw. replace (sl_start sl + (pos - sl_start sl - k)) with (pos - k) by lia.
  rewrite (uwrap_id 64 (pos - k)) by (unfold u_ok; lia). rewrite Z.gtb_ltb.
  destruct (Z.ltb_spec (sl_end sl) (pos - k)); [lia|].
  assert (Ha : rd_slice_abs_offset b (set_sl_end (pos - k) sl) = Ret pos).
  { destruct S as ((l1 & s & l2 & Hs & Hseg & Hr & Hp) & _).
    pose proof (rw_chain _ R) as Hc. rewrite Hs, chain_app in Hc. destruct Hc as [_ [Ha _]].
    unfold rd_slice_abs_offset, sl_deref. simpl. rewrite Hseg, Hs, list_lookup_middle by done.
    simpl. f_equal. lia. }
  rewrite Ha. cbn [obind]. simpl. destruct (Z.leb_spec pos (pos - k)); [lia|done].
Qed.

(** ** Copying a slice into a buffer *)

(** The buffer positions at which consecutive chunks are written. *)
Fixpoint chunk_positions (from : Z) (chunks : list (list Z)) : list Z :=
  match chunks with
  | [] => []
  | c :: chunks => from :: chunk_positions (from + zlen c) chunks
  end.

Definition zsum (l : list Z) : Z := foldr Z.add 0 l.

Lemma write_slice_loop_spec b fuel dst sl pos sum :
  read_wf b -> rbuf_len b < 2 ^ 63 -> slice_at b sl pos -> buf_inv dst ->
  sl_end sl - pos < Z.of_nat fuel ->
  exists dst' sl' chunks,
    write_slice_loop fuel dst b sl sum =
      Ret (dst', sl', sum + zsum (chunk_positions (rbuf_len dst) chunks)) /\
    Forall (fun c => c <> []) chunks /\
    concat chunks = bytes_at b pos (sl_end sl - pos) /\
    contents dst' = contents dst ++ bytes_at b pos (sl_end sl - pos) /\ buf_inv dst' /\
    slice_at b sl' (sl_end sl).
Proof.
  intros R Hm. revert dst sl pos sum; induction fuel as [|fuel IH]; intros dst sl pos sum S Hd Hf.
  { pose proof S as (_ & _ & ?). lia. }
  pose proof S as (_ & Hst & He). pose proof (read_wf_zlen b R) as Hl.
  cbn [write_slice_loop]. destruct (Z.eq_dec pos (sl_end sl)) as [Heq|Hne].
  - destruct (reader_end b R sl pos S Heq) as [p ->]. cbn [obind]. simpl.
    exists dst, sl, []. rewrite <- Heq, Z.sub_diag. simpl. rewrite Z.add_0_r, app_nil_r.
    split_and!; done.
  - destruct (reader_some b R ltac:(lia) sl pos S ltac:(lia))
      as (sl1 & rlen & p & -> & Hr & Hb & S1 & E1 & E2 & _). cbn [obind].
    destruct (Z.eqb_spec rlen 0); [lia|]. rewrite Hb.
    assert (Hz : zlen (bytes_at b pos rlen) = rlen) by (apply zlen_bytes_at; lia).
    destruct (buf_write_spec dst (bytes_at b pos rlen) rlen Hd Hz ltac:(lia))
      as (dst1 & -> & Hd1 & Hc1 & _). cbn [obind].
    destruct (IH dst1 sl1 (pos + rlen) (sum + rbuf_len dst) S1 Hd1 ltac:(lia))
      as (dst' & sl' & ch & -> & Hne' & Hcat & Hc' & Hd' & S').
    exists dst', sl', (bytes_at b pos rlen :: ch). rewrite E2 in *.
    replace (sl_end sl - pos) with (rlen + (sl_end sl - (pos + rlen))) by lia.
    rewrite <- bytes_at_app by lia. split_and!; try done.
    + simpl. rewrite Hz. pose proof (inv_zlen dst Hd) as Hl0. pose proof (inv_zlen dst1 Hd1) as Hl1.
      rewrite Hc1, length_app in Hl1.
      assert (rbuf_len dst1 = rbuf_len dst + rlen) as -> by lia.
      unfold zsum; simpl. by rewrite <- Z.add_assoc.
    + constructor; [|done]. intros Hx. rewrite Hx in Hz. simpl in Hz. lia.
    + simpl. by rewrite Hcat.
    + by rewrite Hc', Hc1, app_assoc.
Qed.

(** ** Properties *)

(** A slice over [absof, absof + size) exists exactly when that window is
    inside the buffer (and [absof] before its end); reading [n] bytes from it
    returns exactly the first [n] bytes of the window and advances by [n], or
    returns 0 and leaves the slice unchanged when fewer remain; peeking at an
    offset returns the bytes there. *)
Theorem slice_read_exact (b : rd_buf) (absof size n o : Z) (R : read_wf b)
    (Hb : rbuf_len b < 2 ^ 63) (Ha : 0 <= absof) (Hs : 0 <= size < 2 ^ 63)
    (Hn : 0 <= n < 2 ^ 63) (Ho : 0 <= o < size) :
  if (absof <? rbuf_len b) && (absof + size <=? rbuf_len b) then
    exists sl, rd_slice_init b absof size = Ret (Some sl) /\
      (if size <? n then rd_slice_read b sl n = Ret (sl, [], 0)
       else exists sl', rd_slice_read b sl n = Ret (sl', ztake n (zdrop absof (contents b)), n) /\
                        slice_at b sl' (absof + n) /\ sl_end sl' = absof + size) /\
      rd_slice_peek b sl o n =
        (if size - o <? n then Ret ([], 0)
         else Ret (ztake n (zdrop (absof + o) (contents b)), n))
  else rd_slice_init b absof size = Ret None.
Proof.
  pose proof (slice_init_spec b absof size R Hb Ha Hs) as Hi.
  destruct ((absof <? rbuf_len b) && _)%bool; [|exact Hi].
  destruct Hi as (sl & Hi & S & E1 & E2). exists sl. split; [exact Hi|].
  destruct (slice_read_spec b R ltac:(lia) sl absof n S ltac:(lia)) as (sl' & Hr & Hp).
  rewrite E2 in Hr, Hp. replace (absof + size - absof) with size in Hr, Hp by lia.
  destruct (slice_seek_spec b R sl absof o S ltac:(lia) Hb) as (sub & Hk & Hsub).
  rewrite E1, E2 in Hk, Hsub. destruct (Z.ltb_spec (absof + o) (absof + size)); [|lia].
  destruct Hsub as (S2 & E3 & E4); [lia|].
  destruct (slice_read_spec b R ltac:(lia) sub _ n S2 ltac:(lia)) as (sub' & Hr2 & _).
  rewrite E4 in Hr2. replace (absof + size - (absof + o)) with (size - o) in Hr2 by lia. split.
  - destruct (Z.ltb_spec size n); [exact Hr|]. exists sl'. split; [exact Hr|].
    destruct Hp as (S' & _ & ->); [lia|]. by split.
  - unfold rd_slice_peek. rewrite Hk. cbn [obind]. change (0 =? -1) with false. cbn iota.
    rewrite Hr2. by destruct (size - o <? n).
Qed.

Lemma slice_read_exact_witness :
  exists b sl, example_buf = Ret b /\ rd_slice_init b 1 5 = Ret (Some sl) /\
    rd_slice_peek b sl 1 3 = Ret ([12; 20; 21], 3).
Proof.
  destruct example_buf_ok as (b & Hb & R & Hc & Hl).
  pose proof (slice_read_exact b 1 5 3 1 R) as H. rewrite Hl, Hc in H.
  destruct H as (sl & Hi & _ & Hp); [lia..|].
  exists b, sl. split; [exact Hb|]. split; [exact Hi|]. rewrite Hp. reflexivity.
Defined.

(** Narrowing to the next [n] bytes succeeds exactly when they are there;
    while narrowed, a reader at position [q] can go no further than [pos + n];
    widening restores the original end and keeps the position reached. *)
Theorem slice_narrow_widen (b : rd_buf) (sl : rd_slice) (pos n : Z) (R : read_wf b)
    (Hb : rbuf_len b < 2 ^ 63) (S : slice_at b sl pos) (Hn : 0 <= n < 2 ^ 63) :
  if pos + n <=? sl_end sl then
    exists sl', rd_slice_narrow_relative b sl n = Ret (Some (sl', sl)) /\
      slice_at b sl' pos /\ rd_slice_remains b sl' = Ret n /\
      (forall q m d sl1 sl2, slice_at b sl1 q -> sl_end sl1 = sl_end sl' ->
         rd_slice_read b sl1 m = Ret (sl2, d, m) -> 0 < m ->
         q + m <= pos + n /\ slice_at b (rd_slice_widen sl2 sl) (q + m) /\
         sl_end (rd_slice_widen sl2 sl) = sl_end sl)
  else rd_slice_narrow_relative b sl n = Ret None.
Proof.
  destruct (slice_narrow_relative_spec b sl pos n R Hb S Hn) as [Hr _]. rewrite Hr.
  pose proof S as (_ & Hst & He).
  destruct (Z.leb_spec (pos + n) (sl_end sl)); [|done].
  pose proof (slice_at_end b sl pos (pos + n) S ltac:(lia)) as S'.
  exists (set_sl_end (pos + n) sl). split; [done|]. split; [done|]. split.
  - rewrite (proj1 (proj2 (slice_deref b R ltac:(lia) _ pos S'))). simpl. f_equal. lia.
  - intros q m d sl1 sl2 S1 Hend Hread Hm. simpl in Hend.
    destruct (slice_read_spec b R ltac:(lia) sl1 q m S1 ltac:(lia)) as (sl3 & Hr3 & Hp3).
    rewrite Hread in Hr3. rewrite Hend in *. destruct (Z.ltb_spec (pos + n - q) m).
    + injection Hr3 as _ _ Hx. lia.
    + injection Hr3 as -> _. destruct Hp3 as (S3 & _ & E3); [lia|].
      split_and!; [lia| |done]. apply slice_at_end; [done|]. lia.
Qed.

Lemma slice_narrow_widen_witness :
  exists b sl sl', example_buf = Ret b /\ rd_slice_init b 1 5 = Ret (Some sl) /\
    rd_slice_narrow_relative b sl 2 = Ret (Some (sl', sl)) /\ rd_slice_remains b sl' = Ret 2.
Proof.
  destruct example_slice as (b & sl & Hb & R & Hl & Hc & Hi & S & _ & He).
  pose proof (slice_narrow_widen b sl 1 2 R ltac:(lia) S ltac:(lia)) as H. rewrite He in H.
  destruct H as (sl' & Hn & _ & Hr & _).
  exists b, sl, sl'. split; [exact Hb|]. split; [exact Hi|]. split; [exact Hn|exact Hr].
Defined.

(** A negative relative size aborts the process: cast to [size_t] it wraps
    around in [offset + relsize], passes the range check and fails the
    assertion that the read position is within the narrowed slice.  The v0/v1
    message reader narrows by [MessageSize - 4] with [MessageSize] taken from
    the wire. *)
Theorem slice_narrow_negative_aborts (b : rd_buf) (sl : rd_slice) (pos k : Z) (R : read_wf b)
    (Hb : rbuf_len b < 2 ^ 63) (S : slice_at b sl pos) (Hk : 0 < k <= pos - sl_start sl) :
  rd_slice_narrow_copy_relative b sl (u64 (- k)) = Crash.
Proof. by apply (slice_narrow_negative b sl pos k R Hb S Hk). Qed.

Lemma slice_narrow_negative_aborts_witness :
  exists b sl sl' d, example_buf = Ret b /\ rd_slice_init b 1 5 = Ret (Some sl) /\
    rd_slice_read b sl 4 = Ret (sl', d, 4) /\
    rd_slice_narrow_copy_relative b sl' (u64 (-4)) = Crash.
Proof.
  destruct example_slice as (b & sl & Hb & R & Hl & Hc & Hi & S & Es & He).
  destruct (slice_read_spec b R ltac:(lia) sl 1 4 S ltac:(lia)) as (sl' & Hr & Hp).
  rewrite He in *. destruct Hp as (S' & Es' & _); [lia|].
  exists b, sl, sl', (bytes_at b 1 4). split; [exact Hb|]. split; [exact Hi|]. split; [exact Hr|].
  apply (slice_narrow_negative_aborts b sl' (1 + 4) 4 R); [lia|exact S'|lia].
Defined.

(** The slice varint decoder of rdvarint.c agrees with the memory decoder of
    rdvarint.h on the unread bytes: same value, same length, same underflow,
    same undefined behaviour on over-long input; on success it consumes exactly
    the bytes decoded. *)
Theorem varint_slice_equiv (b : rd_buf) (sl : rd_slice) (pos : Z) (R : read_wf b)
    (Hb : rbuf_len b < 2 ^ 64) (S : slice_at b sl pos) :
  match rd_varint_dec_i64 (bytes_at b pos (sl_end sl - pos)) with
  | Ret (k, Some v) =>
      exists sl', rd_varint_dec_slice (R := slice_of b) sl = Ret (sl', k, Some v) /\
        src_rest (R := slice_of b) sl' = zdrop k (bytes_at b pos (sl_end sl - pos))
  | Ret (_, None) => exists sl', rd_varint_dec_slice (R := slice_of b) sl = Ret (sl', 0, None)
  | Crash => rd_varint_dec_slice (R := slice_of b) sl = Crash
  | Diverge => False
  end.
Proof.
  pose proof (slice_rest b sl pos R Hb S) as Hr.
  assert (Hok : src_ok (R := slice_of b) sl) by (simpl; eauto).
  pose proof (varint_slice_loop_spec (R := slice_of b) _ 11 sl 0 0 Hok Hr
                ltac:(unfold u_ok; lia) ltac:(lia) ltac:(lia)) as H.
  unfold rd_varint_dec_i64, rd_uvarint_dec, rd_varint_dec_slice. change (7 * 0) with 0 in H.
  destruct (uvarint_dec_loop _ 0 0 0) as [[k [n|]]| |] eqn:E; cbn [obind].
  - pose proof (uvarint_dec_loop_some _ _ _ _ _ _ E).
    pose proof (uvarint_dec_loop_bound _ 0 0 0 _ _ ltac:(lia) ltac:(lia) E).
    rewrite varint_dec_not_failed by lia. simpl.
    destruct H as (sl' & Hs & _ & Hr'). exists sl'. rewrite Z.sub_0_r in Hr'. done.
  - simpl. destruct (negb _); exact H.
  - exact H.
  - exact H.
Qed.

Lemma varint_slice_equiv_witness :
  exists b sl sl', example_buf = Ret b /\ rd_slice_init b 1 5 = Ret (Some sl) /\
    rd_varint_dec_slice (R := slice_of b) sl = Ret (sl', 1, Some (-6)).
Proof.
  destruct example_slice as (b & sl & Hb & R & Hl & Hc & Hi & S & Es & He).
  pose proof (varint_slice_equiv b sl 1 R ltac:(lia) S) as H.
  rewrite He in H. unfold bytes_at in H. rewrite Hc in H. vm_compute ztake in H.
  vm_compute rd_varint_dec_i64 in H. destruct H as (sl' & Hs & _).
  exists b, sl, sl'. split; [exact Hb|]. split; [exact Hi|exact Hs].
Defined.

(** [rd_buf_write_slice] appends exactly the unread bytes of the slice, but
    its return value is the sum of the buffer positions at which the chunks
    were written, not the number of bytes: for a slice within one segment it is
    the length of the destination before the call. *)
Theorem buf_write_slice_spec (dst b : rd_buf) (sl : rd_slice) (pos : Z) (R : read_wf b)
    (Hb : rbuf_len b < 2 ^ 63) (S : slice_at b sl pos) (Hd : buf_inv dst) :
  exists dst' sl' chunks,
    rd_buf_write_slice dst b sl =
      Ret (dst', sl', zsum (chunk_positions (zlen (contents dst)) chunks)) /\
    concat chunks = bytes_at b pos (sl_end sl - pos) /\ Forall (fun c => c <> []) chunks /\
    contents dst' = contents dst ++ bytes_at b pos (sl_end sl - pos) /\ buf_inv dst'.
Proof.
  pose proof S as (_ & Hst & He). unfold rd_buf_write_slice.
  destruct (write_slice_loop_spec b (slice_fuel sl) dst sl pos 0 R Hb S Hd)
    as (dst' & sl' & ch & Hr & Hne & Hcat & Hc & Hd' & _); [unfold slice_fuel; lia|].
  exists dst', sl', ch. rewrite (inv_zlen dst Hd). split_and!; done.
Qed.

(** Copying 3 bytes behind 2 existing ones returns 2. *)
Lemma buf_write_slice_spec_witness :
  (exists dst b sl dst' sl' r, rd_buf_write_slice dst b sl = Ret (dst', sl', r) /\
     contents dst' = [1; 2] ++ [11; 12; 20; 21; 30]) /\
  (exists dst b sl dst' sl',
     (let! d := rd_buf_init 1 8 in run_ops d [BufSpec.Write [1; 2]]) = Ret dst /\
     example_buf = Ret b /\ rd_slice_init b 0 3 = Ret (Some sl) /\
     rd_buf_write_slice dst b sl = Ret (dst', sl', 2) /\ rbuf_len dst' = 5).
Proof.
  split.
  - destruct example_slice as (b & sl & Hb & R & Hl & Hc & Hi & S & Es & He).
    destruct (buf_init_spec 1 8 ltac:(lia)) as (d0 & _ & Hi0 & Hc0 & _).
    destruct (buf_write_spec d0 [1; 2] 2 Hi0 eq_refl ltac:(lia)) as (dst & _ & Hd & Hcd & _).
    destruct (buf_write_slice_spec dst b sl 1 R ltac:(lia) S Hd)
      as (dst' & sl' & ch & Hr & _ & _ & Hc' & _).
    eexists dst, b, sl, dst', sl', _. split; [exact Hr|]. rewrite Hc', Hcd, Hc0, He.
    unfold bytes_at. rewrite Hc. reflexivity.
  - do 5 eexists. split; [vm_compute; reflexivity|]. split; [vm_compute; reflexivity|].
    split; [vm_compute; reflexivity|]. split; vm_compute; reflexivity.
Defined.
