(* ===== verification/Crc32c.v ===== *)
(** * CRC-32C: the software implementation of crc32c.c and the slice checksum

    Message sets of version 2 are checksummed with CRC-32C.  [crc32c_sw] works
    on eight bytes at a time with eight tables once its pointer is 8-byte
    aligned; the address is an argument of the model.  The variant with the
    SSE 4.2 instructions is not modelled: [crc32c] is the function as built
    without WITH_CRC32C_HW. *)
From Stdlib Require Import ZArith Lia.
From stdpp Require Import base numbers list.
From S2P Require Import Prelude CrcTheory Buf BufFacts BufSeek Slice SliceFacts.

(** ** Code *)

Definition POLY : Z := 0x82f63b78.

(** [crc & 1 ? (crc >> 1) ^ POLY : crc >> 1] *)
Definition crc32c_bit (crc : Z) : Z :=
  if Z.land crc 1 =? 0 then Z.shiftr crc 1 else Z.lxor (Z.shiftr crc 1) POLY.

Definition table_get (t : list (list Z)) (k n : Z) : Z :=
  nth (Z.to_nat n) (nth (Z.to_nat k) t []) 0.
Definition table_set (t : list (list Z)) (k n v : Z) : list (list Z) :=
  alter (fun row => <[Z.to_nat n := v]> row) (Z.to_nat k) t.

(** The table as the two loops leave it; statically zero before. *)
Definition crc32c_init_sw : list (list Z) :=
  let t := replicate 8 (replicate 256 0) in
  let t := foldl (fun t n => table_set t 0 n (Nat.iter 8 crc32c_bit n)) t (seqZ 0 256) in
  foldl (fun t n =>
           (foldl (fun '(t, crc) k =>
                     let crc := Z.lxor (table_get t 0 (Z.land crc 0xff)) (Z.shiftr crc 8) in
                     (table_set t k n crc, crc))
                  (t, table_get t 0 n) (seqZ 1 7)).1)
        t (seqZ 0 256).

Section code.
Context (crc32c_table : list (list Z)).

Definition crc32c_sw_byte (crc byte : Z) : Z :=
  Z.lxor (table_get crc32c_table 0 (Z.land (Z.lxor crc byte) 0xff)) (Z.shiftr crc 8).

(** First loop: bytes up to an 8-byte boundary. *)
Fixpoint crc32c_head (crc next : Z) (buf : list Z) : Z * list Z :=
  match buf with
  | [] => (crc, [])
  | b :: rest =>
      if Z.land next 7 =? 0 then (crc, buf)
      else crc32c_head (crc32c_sw_byte crc b) (next + 1) rest
  end.

(** Little-endian value of some bytes. *)
Fixpoint le_bytes (l : list Z) : Z :=
  match l with
  | [] => 0
  | b :: l => Z.lor b (Z.shiftl (le_bytes l) 8)
  end.

Definition crc32c_sw_block (crc : Z) (block : list Z) : Z :=
  let crc := Z.lxor crc (le_bytes block) in
  let t k n := table_get crc32c_table k n in
  Z.lxor (Z.lxor (Z.lxor (Z.lxor (Z.lxor (Z.lxor (Z.lxor
    (t 7 (Z.land crc 0xff))
    (t 6 (Z.land (Z.shiftr crc 8) 0xff)))
    (t 5 (Z.land (Z.shiftr crc 16) 0xff)))
    (t 4 (Z.land (Z.shiftr crc 24) 0xff)))
    (t 3 (Z.land (Z.shiftr crc 32) 0xff)))
    (t 2 (Z.land (Z.shiftr crc 40) 0xff)))
    (t 1 (Z.land (Z.shiftr crc 48) 0xff)))
    (t 0 (Z.shiftr crc 56)).

(** Second and third loop. *)
Fixpoint crc32c_body (crc : Z) (buf : list Z) : Z :=
  match buf with
  | b0 :: b1 :: b2 :: b3 :: b4 :: b5 :: b6 :: b7 :: rest =>
      crc32c_body (crc32c_sw_block crc [b0; b1; b2; b3; b4; b5; b6; b7]) rest
  | _ => foldl crc32c_sw_byte crc buf
  end.

Definition crc32c_sw (crci addr : Z) (buf : list Z) : Z :=
  let crc := Z.lxor crci 0xffffffff in
  let '(crc, buf) := crc32c_head crc addr buf in
  Z.lxor (u32 (crc32c_body crc buf)) 0xffffffff.
End code.

(** The table after [crc32c_global_init]. *)
Definition crc32c_table : list (list Z) := Eval vm_compute in crc32c_init_sw.

Definition crc32c (crc addr : Z) (buf : list Z) : Z := crc32c_sw crc32c_table crc addr buf.

(** [addr_of] gives the address of an offset of a segment. *)
Fixpoint slice_crc32c_loop (fuel : nat) (addr_of : nat * Z -> Z) (b : rd_buf) (sl : rd_slice) (crc : Z)
  : outcome (rd_slice * Z) :=
  match fuel with
  | O => Diverge
  | S fuel =>
      let! (sl, rlen, p) := rd_slice_reader b sl in
      if rlen =? 0 then Ret (sl, crc)
      else slice_crc32c_loop fuel addr_of b sl (crc32c crc (addr_of p) (ptr_bytes b p rlen))
  end.

Definition rd_slice_crc32c (addr_of : nat * Z -> Z) (b : rd_buf) (sl : rd_slice)
  : outcome (rd_slice * Z) :=
  slice_crc32c_loop (slice_fuel sl) addr_of b sl 0.

(** ** Reference *)

Abbreviation crc32c_push := (crc_push 0x82f63b78).

Definition crc32c_ref (crc : Z) (data : list Z) : Z :=
  Z.lxor (foldl crc32c_push (Z.lxor crc 0xffffffff) data) 0xffffffff.

(** ** Lemmas *)

Lemma POLY_ok : u_ok 32 POLY.
Proof. unfold u_ok, POLY. lia. Qed.

Lemma crc32c_table_ok k x :
  (k < 8)%nat -> byte_ok x ->
  table_get crc32c_table (Z.of_nat k) x = crc_steps 0x82f63b78 (8 * S k) x.
Proof.
  intros Hk Hx. apply Z.eqb_eq.
  assert (H : forall b, byte_ok b -> forallb (fun k =>
     table_get crc32c_table (Z.of_nat k) b =? crc_steps 0x82f63b78 (8 * S k) b) (seq 0 8) = true).
  { apply byte_forall. vm_compute. reflexivity. }
  specialize (H x Hx). rewrite forallb_forall in H. apply H.
  apply in_seq. lia.
Qed.

Lemma crc32c_sw_byte_ref crc byte :
  byte_ok byte -> crc32c_sw_byte crc32c_table crc byte = crc32c_push crc byte.
Proof.
  intros Hb. unfold crc32c_sw_byte, crc_push. rewrite crc_steps_8.
  rewrite (crc32c_table_ok 0) by (lia || apply land_ff_ok).
  by rewrite Z.shiftr_lxor, (shiftr8_byte byte Hb), Z.lxor_0_r.
Qed.

Lemma crc32c_sw_bytes_ref crc data :
  bytes_ok data -> foldl (crc32c_sw_byte crc32c_table) crc data = foldl crc32c_push crc data.
Proof.
  intros Hd. revert crc. induction Hd; intros crc; simpl; [done|].
  by rewrite crc32c_sw_byte_ref.
Qed.

Lemma le_bytes_cons b l :
  byte_ok b -> le_bytes (b :: l) = Z.lxor b (Z.shiftl (le_bytes l) 8).
Proof.
  intros [? ?]. simpl. rewrite lor_shiftl_add by lia.
  rewrite <- Z.add_nocarry_lxor; [by rewrite Z.shiftl_mul_pow2 by lia|].
  apply Z.bits_inj'. intros i Hi. rewrite Z.land_spec, Z.bits_0.
  destruct (Z.lt_ge_cases i 8).
  - rewrite Z.shiftl_spec_low by lia. apply andb_false_r.
  - rewrite (proj1 (u_ok_testbit 8 b ltac:(lia) ltac:(lia))); [done|unfold u_ok; lia|lia].
Qed.

Lemma le_bytes_ok l : bytes_ok l -> u_ok (8 * zlen l) (le_bytes l).
Proof.
  induction 1 as [|b l [? ?] _ IH]; [unfold u_ok; simpl; lia|].
  destruct IH as [? ?]. unfold u_ok. simpl le_bytes. rewrite lor_shiftl_add by lia.
  replace (8 * zlen (b :: l)) with (8 + 8 * zlen l) by (simpl length; lia).
  rewrite Z.pow_add_r by lia. lia.
Qed.

(** Pushing bytes one by one is stepping through their little-endian word. *)
Lemma crc_push_le poly crc l :
  bytes_ok l -> foldl (crc_push poly) crc l = crc_steps poly (8 * length l) (Z.lxor crc (le_bytes l)).
Proof.
  intros Hl. revert crc. induction Hl as [|b l Hb _ IH]; intros crc; [by rewrite Z.lxor_0_r|].
  simpl foldl. rewrite IH, le_bytes_cons, <- Z.lxor_assoc by done.
  replace (8 * length (b :: l))%nat with (8 * length l + 8)%nat by (simpl length; lia).
  pose proof (crc_steps_shift poly 8 (le_bytes l)) as Hs. change (Z.of_nat 8) with 8 in Hs.
  by rewrite crc_steps_add, (crc_steps_lxor _ 8), Hs.
Qed.

Lemma crc_steps_64 poly x :
  crc_steps poly 64 x =
  Z.lxor (crc_steps poly 64 (Z.land x 0xff))
  (Z.lxor (crc_steps poly 56 (Z.land (Z.shiftr x 8) 0xff))
  (Z.lxor (crc_steps poly 48 (Z.land (Z.shiftr x 16) 0xff))
  (Z.lxor (crc_steps poly 40 (Z.land (Z.shiftr x 24) 0xff))
  (Z.lxor (crc_steps poly 32 (Z.land (Z.shiftr x 32) 0xff))
  (Z.lxor (crc_steps poly 24 (Z.land (Z.shiftr x 40) 0xff))
  (Z.lxor (crc_steps poly 16 (Z.land (Z.shiftr x 48) 0xff))
          (crc_steps poly 8 (Z.shiftr x 56)))))))).
Proof.
  assert (W : forall n k, 0 <= k -> crc_steps poly (8 + n) (Z.shiftr x k) =
    Z.lxor (crc_steps poly (8 + n) (Z.land (Z.shiftr x k) 0xff))
           (crc_steps poly n (Z.shiftr x (k + 8)))).
  { intros n k Hk. by rewrite crc_steps_word, Z.shiftr_shiftr by lia. }
  etransitivity; [apply (crc_steps_word poly 56 x)|]. f_equal.
  etransitivity; [apply (W 48%nat 8); lia|]. f_equal.
  etransitivity; [apply (W 40%nat 16); lia|]. f_equal.
  etransitivity; [apply (W 32%nat 24); lia|]. f_equal.
  etransitivity; [apply (W 24%nat 32); lia|]. f_equal.
  etransitivity; [apply (W 16%nat 40); lia|]. f_equal.
  apply (W 8%nat 48); lia.
Qed.

(** A word of eight bytes is eight table lookups. *)
Lemma crc32c_sw_block_ref crc block :
  u_ok 32 crc -> bytes_ok block -> length block = 8%nat ->
  crc32c_sw_block crc32c_table crc block = foldl crc32c_push crc block.
Proof.
  intros Hc Hb Hlen. rewrite crc_push_le, Hlen by done. unfold crc32c_sw_block.
  assert (Hx : u_ok 64 (Z.lxor crc (le_bytes block))).
  { pose proof (le_bytes_ok block Hb) as H. rewrite Hlen in H.
    apply lxor_u_ok; [lia| |exact H]. unfold u_ok in *. lia. }
  generalize dependent (Z.lxor crc (le_bytes block)). intros x Hx.
  assert (Htop : byte_ok (Z.shiftr x 56)).
  { destruct Hx. unfold byte_ok, u_ok. rewrite Z.shiftr_div_pow2 by lia.
    split; [apply Z.div_pos; lia|apply Z.div_lt_upper_bound; lia]. }
  rewrite (crc32c_table_ok 7), (crc32c_table_ok 6), (crc32c_table_ok 5), (crc32c_table_ok 4),
    (crc32c_table_ok 3), (crc32c_table_ok 2), (crc32c_table_ok 1), (crc32c_table_ok 0)
    by (lia || apply land_ff_ok || exact Htop).
  rewrite !Z.lxor_assoc. symmetry. apply crc_steps_64.
Qed.

Lemma crc32c_body_ref n buf crc :
  (length buf <= n)%nat -> u_ok 32 crc -> bytes_ok buf ->
  crc32c_body crc32c_table crc buf = foldl crc32c_push crc buf.
Proof.
  revert buf crc; induction n as [|n IH]; intros buf crc Hn Hc Hb.
  { destruct buf; [done|simpl in Hn; lia]. }
  assert (Hs : foldl (crc32c_sw_byte crc32c_table) crc buf = foldl crc32c_push crc buf)
    by by apply crc32c_sw_bytes_ref.
  destruct buf as [|b0 [|b1 [|b2 [|b3 [|b4 [|b5 [|b6 [|b7 rest]]]]]]]]; try exact Hs.
  change (b0 :: b1 :: b2 :: b3 :: b4 :: b5 :: b6 :: b7 :: rest)
    with ([b0; b1; b2; b3; b4; b5; b6; b7] ++ rest) in Hb |- *.
  apply Forall_app in Hb as [Hb8 Hb]. rewrite foldl_app.
  rewrite <- (crc32c_sw_block_ref crc _ Hc Hb8) by done.
  change (crc32c_body crc32c_table crc ([b0; b1; b2; b3; b4; b5; b6; b7] ++ rest))
    with (crc32c_body crc32c_table
            (crc32c_sw_block crc32c_table crc [b0; b1; b2; b3; b4; b5; b6; b7]) rest).
  apply IH; [simpl in Hn; lia| |done].
  rewrite crc32c_sw_block_ref by done. apply crc_fold_ok; [apply POLY_ok|done..].
Qed.

Lemma crc32c_head_ref buf crc next :
  bytes_ok buf ->
  exists pre rest, buf = pre ++ rest /\
    crc32c_head crc32c_table crc next buf = (foldl crc32c_push crc pre, rest).
Proof.
  intros Hb. revert crc next. induction Hb as [|b buf Hb _ IH]; intros crc next; simpl.
  { by exists [], []. }
  destruct (Z.land next 7 =? 0); [by exists [], (b :: buf)|].
  destruct (IH (crc32c_sw_byte crc32c_table crc b) (next + 1)) as (pre & rest & -> & ->).
  exists (b :: pre), rest. simpl. by rewrite crc32c_sw_byte_ref.
Qed.

Lemma lxor_ones32_ok crc : u_ok 32 crc -> u_ok 32 (Z.lxor crc 0xffffffff).
Proof. intros. apply lxor_u_ok; [lia|done|unfold u_ok; lia]. Qed.

Lemma crc32c_spec crc addr data :
  u_ok 32 crc -> bytes_ok data ->
  crc32c crc addr data = crc32c_ref crc data /\ u_ok 32 (crc32c_ref crc data).
Proof.
  intros Hc Hd. unfold crc32c, crc32c_sw, crc32c_ref.
  set (c0 := Z.lxor crc 0xffffffff). assert (Hc0 : u_ok 32 c0) by by apply lxor_ones32_ok.
  destruct (crc32c_head_ref data c0 addr Hd) as (pre & rest & -> & ->).
  apply Forall_app in Hd as [H1 H2]. rewrite foldl_app.
  assert (Hp : u_ok 32 (foldl crc32c_push c0 pre)) by by (apply crc_fold_ok; [apply POLY_ok|..]).
  assert (Hq : u_ok 32 (foldl crc32c_push (foldl crc32c_push c0 pre) rest))
    by by (apply crc_fold_ok; [apply POLY_ok|..]).
  split; [|by apply lxor_ones32_ok].
  rewrite (crc32c_body_ref (length rest)) by done. by rewrite uwrap_id by done.
Qed.

Lemma crc32c_ref_app crc d1 d2 :
  crc32c_ref (crc32c_ref crc d1) d2 = crc32c_ref crc (d1 ++ d2).
Proof. unfold crc32c_ref. by rewrite foldl_app, Z.lxor_assoc, Z.lxor_nilpotent, Z.lxor_0_r. Qed.

Section slice.
Context (addr_of : nat * Z -> Z) (b : rd_buf) (R : read_wf b) (Hmax : rbuf_len b < 2 ^ 64)
  (Hbytes : bytes_ok (contents b)).

Lemma bytes_at_ok from n : bytes_ok (bytes_at b from n).
Proof. unfold bytes_at, ztake, zdrop. by apply Forall_take, Forall_drop. Qed.

Lemma slice_crc32c_loop_spec fuel sl pos crc :
  slice_at b sl pos -> sl_end sl - pos < Z.of_nat fuel -> u_ok 32 crc ->
  exists sl', slice_crc32c_loop fuel addr_of b sl crc =
      Ret (sl', crc32c_ref crc (bytes_at b pos (sl_end sl - pos))) /\
    slice_at b sl' (sl_end sl).
Proof.
  revert sl pos crc; induction fuel as [|fuel IH]; intros sl pos crc S Hf Hc.
  { pose proof S as (_ & _ & ?). lia. }
  pose proof S as (_ & Hst & He). cbn [slice_crc32c_loop].
  destruct (Z.eq_dec pos (sl_end sl)) as [Heq|Hne].
  - destruct (reader_end b R sl pos S Heq) as [p ->]. cbn [obind]. simpl.
    exists sl. rewrite <- Heq, Z.sub_diag. split; [|done].
    unfold crc32c_ref. simpl. by rewrite Z.lxor_assoc, Z.lxor_nilpotent, Z.lxor_0_r.
  - destruct (reader_some b R ltac:(lia) sl pos S ltac:(lia))
      as (sl1 & rlen & p & -> & Hl & Hb & S1 & E1 & E2 & _).
    cbn [obind]. destruct (Z.eqb_spec rlen 0); [lia|]. rewrite Hb.
    destruct (crc32c_spec crc (addr_of p) _ Hc (bytes_at_ok pos rlen)) as [-> Hok].
    destruct (IH sl1 (pos + rlen) _ S1 ltac:(lia) Hok) as (sl' & -> & S').
    rewrite E2 in *. exists sl'. split; [|done].
    rewrite crc32c_ref_app, bytes_at_app by lia. do 4 f_equal. lia.
Qed.

Lemma slice_crc32c_spec sl pos :
  slice_at b sl pos ->
  exists sl', rd_slice_crc32c addr_of b sl =
      Ret (sl', crc32c_ref 0 (bytes_at b pos (sl_end sl - pos))) /\ slice_at b sl' (sl_end sl).
Proof.
  intros S. pose proof S as (_ & ? & ?).
  apply slice_crc32c_loop_spec; [done|unfold slice_fuel; lia|unfold u_ok; lia].
Qed.
End slice.

(** ** Property *)

(** C33. The eight-table software CRC-32C of crc32c.c equals the bit-by-bit
    CRC-32C (reflected polynomial 0x82F63B78) of the data for every address
    the buffer may have, and [rd_slice_crc32c] is that CRC of the unread bytes
    of the slice, however the buffer is split into segments. *)
Theorem crc32c_matches_reference (addr_of : nat * Z -> Z) (b : rd_buf) (sl : rd_slice)
    (pos addr : Z) (R : read_wf b) (Hmax : rbuf_len b < 2 ^ 64) (S : slice_at b sl pos)
    (Hb : bytes_ok (contents b)) :
  crc32c 0 addr (contents b) = crc32c_ref 0 (contents b) /\
  exists sl', rd_slice_crc32c addr_of b sl =
      Ret (sl', crc32c_ref 0 (bytes_at b pos (sl_end sl - pos))) /\ slice_at b sl' (sl_end sl).
Proof.
  split; [apply crc32c_spec; [unfold u_ok; lia|done]|].
  by apply slice_crc32c_spec.
Qed.

(** The check value of the CRC catalogue, at two alignments. *)
Lemma crc32c_matches_reference_witness :
  crc32c 0 0 [0x31; 0x32; 0x33; 0x34; 0x35; 0x36; 0x37; 0x38; 0x39] = 0xe3069283 /\
  crc32c 0 7 [0x31; 0x32; 0x33; 0x34; 0x35; 0x36; 0x37; 0x38; 0x39] = 0xe3069283 /\
  exists b sl sl', example_buf = Ret b /\ rd_slice_init b 1 5 = Ret (Some sl) /\
    rd_slice_crc32c (fun _ => 3) b sl = Ret (sl', crc32c_ref 0 [11; 12; 20; 21; 30]).
Proof.
  split; [vm_compute; reflexivity|]. split; [vm_compute; reflexivity|].
  destruct example_slice as (b & sl & Hb & R & Hl & Hc & Hi & S & _ & He).
  destruct (crc32c_matches_reference (fun _ => 3) b sl 1 0 R ltac:(lia) S) as [_ (sl' & Hr & _)].
  { rewrite Hc. repeat constructor; unfold byte_ok, u_ok; lia. }
  exists b, sl, sl'. split; [exact Hb|]. split; [exact Hi|]. rewrite Hr, He.
  unfold bytes_at. rewrite Hc. reflexivity.
Defined.
