(* ===== verification/RdList.v ===== *)
(** * Growable arrays of pointers: rdlist.h and rdlist.c

    [rl_elems] is the allocated pointer array, [rl_cnt] of its [rl_size] slots
    are in use.  A slot is [option A]: [None] is NULL (and memory just obtained
    from [rd_realloc], which no caller reads before it is set).  [A] is the
    type of non-NULL pointers.  A preallocated list of int32_t has pointers
    that are cell numbers into the cells [rl_p]. *)
From Stdlib Require Import ZArith Lia Sorted.
From stdpp Require Import base numbers list sorting.
From S2P Require Import Prelude.

(** ** Code *)

Record rd_list (A : Type) : Type := mk_rl {
  rl_size : Z;
  rl_cnt : Z;
  rl_elems : list (option A);
  rl_free_cb : bool;
  rl_sorted : bool;
  rl_fixed : bool;
  rl_allocated : bool;
  rl_elemsize : Z;
  rl_p : list Z }.
Arguments mk_rl {A}.
Arguments rl_size {A}.
Arguments rl_cnt {A}.
Arguments rl_elems {A}.
Arguments rl_free_cb {A}.
Arguments rl_sorted {A}.
Arguments rl_fixed {A}.
Arguments rl_allocated {A}.
Arguments rl_elemsize {A}.
Arguments rl_p {A}.

Definition INT_MAX : Z := 2 ^ 31 - 1.

Section code.
Context {A : Type}.

Definition rl_set_elems (size cnt : Z) (elems : list (option A)) (sorted : bool) (rl : rd_list A)
  : rd_list A :=
  mk_rl size cnt elems (rl_free_cb rl) sorted (rl_fixed rl) (rl_allocated rl)
        (rl_elemsize rl) (rl_p rl).

(** Signed overflow of [rl_size] is undefined. *)
Definition rd_list_grow (rl : rd_list A) (size : Z) : outcome (rd_list A) :=
  assert! (negb (rl_fixed rl)) in
  let n := rl_size rl + size in
  if n >? INT_MAX then Crash
  else Ret (rl_set_elems n (rl_cnt rl) (rl_elems rl ++ replicate (Z.to_nat size) None)
              (rl_sorted rl) rl).

Definition rd_list_init (initial_size : Z) (free_cb : bool) : outcome (rd_list A) :=
  let rl := mk_rl 0 0 [] free_cb false false false 0 [] in
  if initial_size >? 0 then rd_list_grow rl initial_size else Ret rl.

Definition rl_set_allocated (f : bool) (rl : rd_list A) : rd_list A :=
  mk_rl (rl_size rl) (rl_cnt rl) (rl_elems rl) (rl_free_cb rl) (rl_sorted rl) (rl_fixed rl) f
        (rl_elemsize rl) (rl_p rl).

Definition rd_list_new (initial_size : Z) (free_cb : bool) : outcome (rd_list A) :=
  let! rl := rd_list_init initial_size free_cb in Ret (rl_set_allocated true rl).

Definition rd_list_set_cnt (rl : rd_list A) (cnt : Z) : outcome (rd_list A) :=
  assert! (rl_fixed rl) in
  assert! (s32 cnt <=? rl_size rl) in
  Ret (rl_set_elems (rl_size rl) (s32 cnt) (rl_elems rl) (rl_sorted rl) rl).

(** The list and the element returned. *)
Definition rd_list_add (rl : rd_list A) (elem : option A) : outcome (rd_list A * option A) :=
  let! rl := (if rl_cnt rl =? rl_size rl
              then rd_list_grow rl (if rl_size rl =? 0 then 16 else rl_size rl * 2)
              else Ret rl) in
  let i := Z.to_nat (rl_cnt rl) in
  let elems := match elem with Some _ => <[i := elem]> (rl_elems rl) | None => rl_elems rl end in
  match elems !! i with
  | None => Crash
  | Some r => Ret (rl_set_elems (rl_size rl) (rl_cnt rl + 1) elems false rl, r)
  end.

Definition rd_list_set (rl : rd_list A) (idx : Z) (ptr : option A) : outcome (rd_list A) :=
  let! rl := (if idx >=? rl_size rl then rd_list_grow rl (idx + 1) else Ret rl) in
  if idx <? 0 then Crash
  else if idx >=? rl_cnt rl then
    let elems := ztake (rl_cnt rl) (rl_elems rl)
                 ++ replicate (Z.to_nat (idx - rl_cnt rl)) None ++ zdrop idx (rl_elems rl) in
    Ret (rl_set_elems (rl_size rl) (idx + 1) (<[Z.to_nat idx := ptr]> elems) (rl_sorted rl) rl)
  else
    assert! (match rl_elems rl !! Z.to_nat idx with Some None => true | _ => false end) in
    Ret (rl_set_elems (rl_size rl) (rl_cnt rl) (<[Z.to_nat idx := ptr]> (rl_elems rl))
           (rl_sorted rl) rl).

(** The last slot keeps its pointer. *)
Definition rd_list_remove_elem (rl : rd_list A) (idx : Z) : outcome (rd_list A) :=
  assert! (idx <? rl_cnt rl) in
  if idx <? 0 then Crash
  else
    let elems := ztake idx (rl_elems rl)
                 ++ ztake (rl_cnt rl - (idx + 1)) (zdrop (idx + 1) (rl_elems rl))
                 ++ zdrop (rl_cnt rl - 1) (rl_elems rl) in
    Ret (rl_set_elems (rl_size rl) (rl_cnt rl - 1) elems (rl_sorted rl) rl).

Definition rd_list_elem (rl : rd_list A) (idx : Z) : outcome (option A) :=
  if idx <? rl_cnt rl then
    if idx <? 0 then Crash
    else match rl_elems rl !! Z.to_nat idx with
         | Some p => Ret p
         | None => Crash
         end
  else Ret None.

Definition rd_list_cnt (rl : rd_list A) : Z := rl_cnt rl.
Definition rd_list_empty (rl : rd_list A) : bool := rd_list_cnt rl =? 0.

(** Enough passes for every loop over the list. *)
Definition list_fuel (rl : rd_list A) : nat := S (Z.to_nat (rl_cnt rl)).

(** [RD_LIST_FOREACH] up to the first element satisfying [p]: its index and
    the element. *)
Fixpoint foreach_first (fuel : nat) (p : A -> bool) (rl : rd_list A) (i : Z)
  : outcome (option (Z * A)) :=
  match fuel with
  | O => Diverge
  | S fuel =>
      let! e := rd_list_elem rl i in
      match e with
      | None => Ret None
      | Some e => if p e then Ret (Some (i, e)) else foreach_first fuel p rl (i + 1)
      end
  end.

Definition rd_list_remove `{EqDecision A} (rl : rd_list A) (match_elem : A)
  : outcome (rd_list A * option A) :=
  let! r := foreach_first (list_fuel rl) (fun e => bool_decide (e = match_elem)) rl 0 in
  match r with
  | None => Ret (rl, None)
  | Some (i, e) => let! rl := rd_list_remove_elem rl i in Ret (rl, Some e)
  end.

Definition rd_list_remove_cmp {M} (same : A -> M -> bool) (rl : rd_list A)
    (match_elem : M) (cmp : A -> M -> Z) : outcome (rd_list A * option A) :=
  let! r := foreach_first (list_fuel rl)
              (fun e => same e match_elem || (cmp e match_elem =? 0)) rl 0 in
  match r with
  | None => Ret (rl, None)
  | Some (i, e) => let! rl := rd_list_remove_elem rl i in Ret (rl, Some e)
  end.

(** [RD_LIST_FOREACH_REVERSE]; the test [match_elem == cmp] compares a data
    pointer with the address of a function and is false. *)
Fixpoint remove_multi_loop {M} (fuel : nat) (rl : rd_list A) (match_elem : M) (cmp : A -> M -> Z)
    (i cnt : Z) : outcome (rd_list A * Z) :=
  match fuel with
  | O => Diverge
  | S fuel =>
      if i >=? 0 then
        let! e := rd_list_elem rl i in
        match e with
        | None => Ret (rl, cnt)
        | Some e =>
            if cmp e match_elem =? 0 then
              let! rl := rd_list_remove_elem rl i in
              remove_multi_loop fuel rl match_elem cmp (i - 1) (cnt + 1)
            else remove_multi_loop fuel rl match_elem cmp (i - 1) cnt
        end
      else Ret (rl, cnt)
  end.

Definition rd_list_remove_multi_cmp {M} (rl : rd_list A) (match_elem : M) (cmp : A -> M -> Z)
  : outcome (rd_list A * Z) :=
  remove_multi_loop (list_fuel rl) rl match_elem cmp (rl_cnt rl - 1) 0.

(** [qsort] is a parameter. *)
Definition rd_list_sort (qsort : list (option A) -> list (option A)) (rl : rd_list A) : rd_list A :=
  rl_set_elems (rl_size rl) (rl_cnt rl)
    (qsort (ztake (rl_cnt rl) (rl_elems rl)) ++ zdrop (rl_cnt rl) (rl_elems rl)) true rl.

Definition rd_list_clear (rl : rd_list A) : rd_list A :=
  rl_set_elems (rl_size rl) 0 (rl_elems rl) false rl.

(** The pointers passed to the free callback. *)
Definition rd_list_destroy (rl : rd_list A) : list A :=
  if rl_free_cb rl then omap id (ztake (rl_cnt rl) (rl_elems rl)) else [].

Definition rd_list_index {M} (rl : rd_list A) (m : M) (cmp : M -> A -> Z) : outcome Z :=
  let! r := foreach_first (list_fuel rl) (fun e => cmp m e =? 0) rl 0 in
  Ret (match r with Some (i, _) => i | None => -1 end).

(** [bsearch] of the C library: probe the middle of [lo, hi). *)
Fixpoint bsearch {M} (fuel : nat) (cmp : M -> A -> Z) (m : M) (elems : list (option A)) (lo hi : Z)
  : outcome (option A) :=
  match fuel with
  | O => Diverge
  | S fuel =>
      if lo <? hi then
        let idx := (lo + hi) / 2 in
        match elems !! Z.to_nat idx with
        | Some (Some e) =>
            let c := cmp m e in
            if c <? 0 then bsearch fuel cmp m elems lo idx
            else if c >? 0 then bsearch fuel cmp m elems (idx + 1) hi
            else Ret (Some e)
        | _ => Crash
        end
      else Ret None
  end.

Definition rd_list_find {M} (rl : rd_list A) (m : M) (cmp : M -> A -> Z) : outcome (option A) :=
  if rl_sorted rl then bsearch (list_fuel rl) cmp m (rl_elems rl) 0 (rl_cnt rl)
  else
    let! r := foreach_first (list_fuel rl) (fun e => cmp m e =? 0) rl 0 in
    Ret (snd <$> r).

Fixpoint list_cmp_loop (n : nat) (a b : rd_list A) (cmp : option A -> option A -> Z) (i : nat)
  : outcome Z :=
  match n with
  | O => Ret 0
  | S n =>
      match rl_elems a !! i, rl_elems b !! i with
      | Some x, Some y => let r := cmp x y in if r =? 0 then list_cmp_loop n a b cmp (S i) else Ret r
      | _, _ => Crash
      end
  end.

Definition rd_list_cmp (a b : rd_list A) (cmp : option A -> option A -> Z) : outcome Z :=
  let i := rl_cnt a - rl_cnt b in
  if negb (i =? 0) then Ret i else list_cmp_loop (Z.to_nat (rl_cnt a)) a b cmp 0.

(** [cb] threads its opaque argument [S]. *)
Fixpoint apply_loop {S} (fuel : nat) (rl : rd_list A) (cb : A -> S -> Z * S) (opaque : S) (i : Z)
  : outcome (rd_list A * S) :=
  match fuel with
  | O => Diverge
  | Datatypes.S fuel =>
      let! e := rd_list_elem rl i in
      match e with
      | None => Ret (rl, opaque)
      | Some e =>
          let '(r, opaque) := cb e opaque in
          if r =? 0 then
            let! rl := rd_list_remove_elem rl i in apply_loop fuel rl cb opaque i
          else apply_loop fuel rl cb opaque (i + 1)
      end
  end.

Definition rd_list_apply {S} (rl : rd_list A) (cb : A -> S -> Z * S) (opaque : S)
  : outcome (rd_list A * S) :=
  apply_loop (list_fuel rl) rl cb opaque 0.

Fixpoint copy_to_loop (fuel : nat) (dst src : rd_list A) (copy_cb : A -> option A) (i : Z)
  : outcome (rd_list A) :=
  match fuel with
  | O => Diverge
  | S fuel =>
      let! e := rd_list_elem src i in
      match e with
      | None => Ret dst
      | Some e =>
          match copy_cb e with
          | Some c => let! (dst, _) := rd_list_add dst (Some c) in
                      copy_to_loop fuel dst src copy_cb (i + 1)
          | None => copy_to_loop fuel dst src copy_cb (i + 1)
          end
      end
  end.

(** A missing [copy_cb] copies the pointer. *)
Definition rd_list_copy_to (dst src : rd_list A) (copy_cb : option (A -> option A))
  : outcome (rd_list A) :=
  copy_to_loop (list_fuel src) dst src (default Some copy_cb) 0.

Definition rd_list_copy (src : rd_list A) (copy_cb : option (A -> option A)) : outcome (rd_list A) :=
  let! dst := rd_list_new (rl_cnt src) (rl_free_cb src) in rd_list_copy_to dst src copy_cb.
End code.

(** Preallocated elements: pointers are cell numbers, cells are zeroed. *)
Definition rd_list_prealloc_elems (rl : rd_list nat) (elemsize cnt : Z) : outcome (rd_list nat) :=
  assert! (match rl_elems rl with [] => true | _ => false end) in
  Ret (mk_rl (s32 cnt) 0
         (if elemsize >? 0 then Some <$> seq 0 (Z.to_nat cnt) else replicate (Z.to_nat cnt) None)
         (rl_free_cb rl) (rl_sorted rl) true (rl_allocated rl) (s32 elemsize)
         (replicate (Z.to_nat cnt) 0)).

Definition rd_list_init_int32 (rl : rd_list nat) (max_size : Z) : outcome (rd_list nat) :=
  let! rl' := rd_list_init 0 false in
  rd_list_prealloc_elems (rl_set_allocated (rl_allocated rl) rl') 4 max_size.

Definition rl_set_p (p : list Z) (cnt : Z) (rl : rd_list nat) : rd_list nat :=
  mk_rl (rl_size rl) cnt (rl_elems rl) (rl_free_cb rl) (rl_sorted rl) (rl_fixed rl)
        (rl_allocated rl) (rl_elemsize rl) p.

Definition rd_list_set_int32 (rl : rd_list nat) (idx val : Z) : outcome (rd_list nat) :=
  assert! (rl_fixed rl && (rl_elemsize rl =? 4)) in
  assert! (idx <? rl_size rl) in
  if idx <? 0 then Crash
  else match rl_elems rl !! Z.to_nat idx with
       | Some (Some c) =>
           Ret (rl_set_p (<[c := val]> (rl_p rl))
                  (if rl_cnt rl <=? idx then idx + 1 else rl_cnt rl) rl)
       | _ => Crash
       end.

Definition rd_list_get_int32 (rl : rd_list nat) (idx : Z) : outcome Z :=
  assert! (rl_fixed rl && (rl_elemsize rl =? 4) && (idx <? rl_cnt rl)) in
  if idx <? 0 then Crash
  else match rl_elems rl !! Z.to_nat idx with
       | Some (Some c) => match rl_p rl !! c with Some v => Ret v | None => Crash end
       | _ => Crash
       end.

Definition rd_list_init_copy (src : rd_list nat) : outcome (rd_list nat) :=
  if rl_fixed src then
    let! dst := rd_list_init 0 (rl_free_cb src) in
    rd_list_prealloc_elems dst (rl_elemsize src) (rl_size src)
  else rd_list_init (rl_cnt src) (rl_free_cb src).

Definition rd_list_copy_preallocated0 (dst src : rd_list nat) : outcome (rd_list nat) :=
  let! dst' := rd_list_init_copy src in
  let dst' := rl_set_allocated (rl_allocated dst || rl_allocated dst') dst' in
  assert! (rl_fixed dst') in
  assert! (rl_fixed src) in
  assert! ((rl_elemsize dst' =? rl_elemsize src) && (rl_size dst' =? rl_size src)) in
  Ret (rl_set_p (rl_p src) (rl_cnt src) dst').

Definition rd_list_copy_preallocated (src : rd_list nat) : outcome (rd_list nat) :=
  let! dst := rd_list_new 0 false in rd_list_copy_preallocated0 dst src.
