(* ===== verification/RdListSpec.v ===== *)
(** * The pointer list refines a mathematical list

    Invariant of a dynamic list, specification of each operation on the list of
    its elements, and the properties of rdlist.c. *)
From Stdlib Require Import ZArith Lia.
From stdpp Require Import base numbers list sorting.
From S2P Require Import Prelude RdList.

(** ** Invariant *)

(** [rl] is a dynamic list holding the (non-NULL) elements [l]. *)
Record rl_wf {A} (rl : rd_list A) (l : list A) : Prop := {
  rw_elems : exists spare, rl_elems rl = (Some <$> l) ++ spare;
  rw_cnt : rl_cnt rl = zlen l;
  rw_size : rl_size rl = zlen (rl_elems rl);
  rw_dyn : rl_fixed rl = false }.

Section facts.
Context {A : Type}.
Implicit Types (rl : rd_list A) (l : list A).

Lemma list_grow_spec rl l n :
  rl_wf rl l -> 0 <= n -> rl_size rl + n <= INT_MAX ->
  exists rl', rd_list_grow rl n = Ret rl' /\ rl_wf rl' l /\ rl_size rl' = rl_size rl + n /\
              rl_sorted rl' = rl_sorted rl.
Proof.
  intros [[sp He] Hc Hs Hd] Hn Hm. unfold rd_list_grow. rewrite Hd, Z.gtb_ltb. simpl negb. cbn iota.
  destruct (Z.ltb_spec INT_MAX (rl_size rl + n)); [lia|].
  eexists. split; [done|]. split_and!; try done. split; simpl; [|done| |done].
  - exists (sp ++ replicate (Z.to_nat n) None). by rewrite He, app_assoc.
  - rewrite length_app, length_replicate. lia.
Qed.

Lemma list_init_spec n f :
  n <= INT_MAX ->
  exists rl, rd_list_init n f = Ret rl /\ rl_wf rl [] /\ rl_size rl = Z.max 0 n /\
             rl_sorted rl = false.
Proof.
  intros Hn. unfold rd_list_init. rewrite Z.gtb_ltb. set (rl0 := mk_rl _ _ _ _ _ _ _ _ _).
  assert (W : rl_wf rl0 []) by (split; [exists []|..]; done).
  destruct (Z.ltb_spec 0 n).
  - destruct (list_grow_spec rl0 [] n W ltac:(lia) ltac:(simpl; lia)) as (rl & -> & ? & E & ?).
    exists rl. simpl in E. split_and!; try done. lia.
  - exists rl0. split_and!; try done. simpl. lia.
Qed.

Lemma list_elem_spec rl l i :
  rl_wf rl l -> 0 <= i -> rd_list_elem rl i = Ret (l !! Z.to_nat i).
Proof.
  intros [[sp He] Hc Hs Hd] Hi. unfold rd_list_elem. rewrite Hc.
  destruct (Z.ltb_spec i (zlen l)); [|rewrite lookup_ge_None_2 by lia; done].
  destruct (Z.ltb_spec i 0); [lia|].
  destruct (lookup_lt_is_Some_2 l (Z.to_nat i)) as [x Hx]; [lia|].
  rewrite He, lookup_app_l by (rewrite length_fmap; lia).
  by rewrite list_lookup_fmap, Hx.
Qed.

Lemma list_add_spec rl l x :
  rl_wf rl l -> 3 * rl_size rl + 16 <= INT_MAX ->
  exists rl', rd_list_add rl (Some x) = Ret (rl', Some x) /\ rl_wf rl' (l ++ [x]) /\
    rl_sorted rl' = false /\ rl_size rl' <= Z.max (rl_size rl) (3 * zlen l + 16).
Proof.
  intros W Hm. pose proof W as [[sp He] Hc Hs Hd]. unfold rd_list_add.
  assert (Hge : zlen l <= rl_size rl).
  { rewrite Hs, He, length_app, length_fmap. lia. }
  assert (G : exists rl1, (if rl_cnt rl =? rl_size rl
              then rd_list_grow rl (if rl_size rl =? 0 then 16 else rl_size rl * 2)
              else Ret rl) = Ret rl1 /\ rl_wf rl1 l /\ zlen l < rl_size rl1 /\
              rl_size rl1 <= Z.max (rl_size rl) (3 * zlen l + 16)).
  { destruct (Z.eqb_spec (rl_cnt rl) (rl_size rl)).
    - destruct (list_grow_spec rl l (if rl_size rl =? 0 then 16 else rl_size rl * 2) W)
        as (rl1 & -> & W1 & E & _); [case_if; lia|case_if; lia|].
      exists rl1. split_and!; try done; rewrite E; case_if; lia.
    - exists rl. split_and!; try done; lia. }
  destruct G as (rl1 & -> & [[sp1 He1] Hc1 Hs1 Hd1] & Hlt & Hsz). cbn [obind].
  destruct sp1 as [|s0 sp1].
  { rewrite Hs1, He1, app_nil_r, length_fmap in Hlt. lia. }
  assert (Hins : <[length l := Some x]> ((Some <$> l) ++ s0 :: sp1) = (Some <$> l) ++ Some x :: sp1).
  { rewrite insert_app_r_alt by (rewrite length_fmap; lia). by rewrite length_fmap, Nat.sub_diag. }
  rewrite Hc1, Nat2Z.id, He1, Hins, list_lookup_middle by (by rewrite length_fmap). eexists. split; [done|]. split_and!; try done.
  split; simpl; [|rewrite length_app; simpl; lia| |done].
  - exists sp1. by rewrite fmap_app, <- app_assoc.
  - rewrite Hs1, He1, !length_app. simpl. done.
Qed.

Lemma list_remove_elem_spec rl l i :
  rl_wf rl l -> 0 <= i < zlen l ->
  exists rl', rd_list_remove_elem rl i = Ret rl' /\ rl_wf rl' (delete (Z.to_nat i) l) /\
    rl_size rl' = rl_size rl /\ rl_sorted rl' = rl_sorted rl.
Proof.
  intros [[sp He] Hc Hs Hd] Hi. unfold rd_list_remove_elem. rewrite Hc.
  destruct (Z.ltb_spec i (zlen l)); [|lia]. destruct (Z.ltb_spec i 0); [lia|].
  eexists. split; [done|]. split_and!; try done. split; simpl; [| | |done].
  - eexists. rewrite delete_take_drop, fmap_app, fmap_take, fmap_drop.
    rewrite He. unfold ztake, zdrop. rewrite app_assoc. f_equal.
    rewrite take_app_le, drop_app_le by (rewrite length_fmap; lia). f_equal.
    replace (Z.to_nat (i + 1)) with (S (Z.to_nat i)) by lia.
    apply take_app_length'. rewrite length_drop, length_fmap. lia.
  - rewrite length_delete; [lia|]. apply lookup_lt_is_Some_2. lia.
  - rewrite Hs. rewrite He. unfold ztake, zdrop.
    rewrite !length_app, !length_take, !length_drop, !length_app, length_fmap. lia.
Qed.

Fixpoint first_match (p : A -> bool) (i : Z) (l : list A) : option (Z * A) :=
  match l with
  | [] => None
  | x :: l => if p x then Some (i, x) else first_match p (i + 1) l
  end.

Lemma foreach_first_spec rl l p fuel i :
  rl_wf rl l -> 0 <= i <= zlen l -> zlen l - i < Z.of_nat fuel ->
  foreach_first fuel p rl i = Ret (first_match p i (zdrop i l)).
Proof.
  intros W. revert i; induction fuel as [|fuel IH]; intros i Hi Hf.
  { lia. }
  cbn [foreach_first]. rewrite (list_elem_spec rl l i W) by lia. cbn [obind]. unfold zdrop.
  destruct (l !! Z.to_nat i) as [x|] eqn:E.
  - rewrite (drop_S _ _ _ E). simpl. destruct (p x); [done|].
    apply lookup_lt_Some in E. rewrite IH by lia. unfold zdrop.
    by replace (Z.to_nat (i + 1)) with (S (Z.to_nat i)) by lia.
  - rewrite drop_ge; [done|]. by apply lookup_ge_None.
Qed.

Fixpoint remove_first (p : A -> bool) (l : list A) : list A :=
  match l with
  | [] => []
  | x :: l => if p x then l else x :: remove_first p l
  end.

Lemma first_match_delete p i l :
  match first_match p i l with
  | Some (j, x) => i <= j < i + zlen l /\ p x = true /\ delete (Z.to_nat (j - i)) l = remove_first p l
  | None => remove_first p l = l
  end.
Proof.
  revert i; induction l as [|y l IH]; intros i; simpl; [done|].
  destruct (p y) eqn:E; [rewrite Z.sub_diag; split_and!; [lia|lia|done|done]|].
  specialize (IH (i + 1)). destruct (first_match p (i + 1) l) as [[j x]|]; [|by rewrite IH].
  destruct IH as (? & Hx & Hd). split_and!; [lia|lia|done|].
  replace (Z.to_nat (j - i)) with (S (Z.to_nat (j - (i + 1)))) by lia. simpl. by rewrite Hd.
Qed.

(** Removing the first element satisfying [p], as [rd_list_remove] and
    [rd_list_remove_cmp] do. *)
Lemma remove_first_spec rl l p :
  rl_wf rl l ->
  exists rl' r,
    (let! r := foreach_first (list_fuel rl) p rl 0 in
     match r with
     | None => Ret (rl, None)
     | Some (i, e) => let! rl := rd_list_remove_elem rl i in Ret (rl, Some e)
     end) = Ret (rl', r) /\
    rl_wf rl' (remove_first p l) /\ rl_size rl' = rl_size rl /\ rl_sorted rl' = rl_sorted rl /\
    r = (snd <$> first_match p 0 l).
Proof.
  intros W. rewrite (foreach_first_spec rl l) by
    (done || lia || (unfold list_fuel; rewrite (rw_cnt _ _ W); lia)).
  cbn [obind]. change (zdrop 0 l) with l.
  pose proof (first_match_delete p 0 l) as H.
  destruct (first_match p 0 l) as [[j x]|].
  - destruct H as (Hj & _ & Hd). rewrite Z.sub_0_r in Hd.
    destruct (list_remove_elem_spec rl l j W ltac:(lia)) as (rl' & -> & W' & ? & ?).
    rewrite Hd in W'. cbn [obind]. by exists rl', (Some x).
  - exists rl, None. by rewrite H.
Qed.

Lemma remove_multi_loop_spec {M} (m : M) (cmp : A -> M -> Z) fuel rl l1 r i cnt :
  rl_wf rl (l1 ++ r) -> i = zlen l1 - 1 -> (length l1 < fuel)%nat ->
  exists rl', remove_multi_loop fuel rl m cmp i cnt =
      Ret (rl', cnt + zlen l1 - zlen (filter (fun e => cmp e m <> 0) l1)) /\
    rl_wf rl' (filter (fun e => cmp e m <> 0) l1 ++ r) /\ rl_size rl' = rl_size rl /\
    rl_sorted rl' = rl_sorted rl.
Proof.
  revert rl l1 r i cnt; induction fuel as [|fuel IH]; intros rl l1 r i cnt W Hi Hf; [lia|].
  cbn [remove_multi_loop]. rewrite Z.geb_leb.
  destruct l1 as [|x l1 _] using rev_ind.
  { simpl in *. destruct (Z.leb_spec 0 i); [lia|]. exists rl. rewrite Z.add_0_r, Z.sub_0_r. done. }
  rewrite length_app in *. simpl length in *. destruct (Z.leb_spec 0 i); [|lia].
  rewrite (list_elem_spec _ _ _ W) by lia. replace (Z.to_nat i) with (length l1) by lia.
  rewrite <- app_assoc. cbn [app]. rewrite list_lookup_middle by done. cbn [obind].
  rewrite <- app_assoc in W. rewrite filter_app.
  destruct (Z.eqb_spec (cmp x m) 0) as [E|E].
  - destruct (list_remove_elem_spec rl _ i W) as (rl1 & -> & W1 & E1 & E2).
    { rewrite !length_app. simpl. lia. }
    cbn [obind]. replace (Z.to_nat i) with (length l1) in W1 by lia.
    assert (Hd : delete (length l1) (l1 ++ [x] ++ r) = l1 ++ r) by by apply delete_middle.
    rewrite Hd in W1.
    destruct (IH rl1 l1 r (i - 1) (cnt + 1) W1 ltac:(lia) ltac:(lia)) as (rl' & -> & W' & ? & ?).
    exists rl'. rewrite filter_cons_False by (simpl; lia). simpl. rewrite app_nil_r.
    split_and!; try done; try congruence. do 2 f_equal. lia.
  - destruct (IH rl l1 ([x] ++ r) (i - 1) cnt W ltac:(lia) ltac:(lia)) as (rl' & -> & W' & ? & ?).
    exists rl'. rewrite filter_cons_True by done. simpl filter. rewrite <- app_assoc.
    split_and!; try done. do 2 f_equal. rewrite length_app. simpl. lia.
Qed.

Fixpoint apply_ref {S} (cb : A -> S -> Z * S) (l : list A) (s : S) : list A * S :=
  match l with
  | [] => ([], s)
  | x :: l =>
      let '(r, s) := cb x s in
      let '(l', s) := apply_ref cb l s in
      (if r =? 0 then l' else x :: l', s)
  end.

Lemma apply_loop_spec {S} (cb : A -> S -> Z * S) fuel rl l1 l2 s i :
  rl_wf rl (l1 ++ l2) -> i = zlen l1 -> (length l2 < fuel)%nat ->
  exists rl', apply_loop fuel rl cb s i = Ret (rl', (apply_ref cb l2 s).2) /\
    rl_wf rl' (l1 ++ (apply_ref cb l2 s).1) /\ rl_size rl' = rl_size rl /\
    rl_sorted rl' = rl_sorted rl.
Proof.
  revert rl l1 l2 s i; induction fuel as [|fuel IH]; intros rl l1 l2 s i W Hi Hf; [lia|].
  cbn [apply_loop]. rewrite (list_elem_spec _ _ _ W) by lia.
  replace (Z.to_nat i) with (length l1) by lia. cbn [obind].
  destruct l2 as [|x l2].
  { rewrite app_nil_r, lookup_ge_None_2 by lia. exists rl. simpl. rewrite app_nil_r in *. done. }
  rewrite list_lookup_middle by done. simpl apply_ref. destruct (cb x s) as [r s'].
  destruct (apply_ref cb l2 s') as [l' s''] eqn:E. simpl in Hf. destruct (Z.eqb_spec r 0).
  - destruct (list_remove_elem_spec rl _ i W) as (rl1 & -> & W1 & E1 & E2).
    { rewrite length_app. simpl. lia. }
    cbn [obind]. replace (Z.to_nat i) with (length l1) in W1 by lia. rewrite delete_middle in W1.
    destruct (IH rl1 l1 l2 s' i W1 Hi ltac:(lia)) as (rl' & -> & W' & ? & ?).
    exists rl'. rewrite E in *. split_and!; try done; congruence.
  - rewrite cons_middle, app_assoc in W.
    destruct (IH rl _ l2 s' (i + 1) W ltac:(rewrite length_app; simpl; lia) ltac:(lia))
      as (rl' & -> & W' & ? & ?).
    exists rl'. rewrite E, <- app_assoc in *. done.
Qed.

Lemma copy_to_loop_spec src l cb K fuel dst d i :
  rl_wf src l -> rl_wf dst d -> 0 <= i <= zlen l -> zlen l - i < Z.of_nat fuel ->
  rl_size dst <= K -> 3 * (zlen d + (zlen l - i)) + 16 <= K -> 3 * K + 16 <= INT_MAX ->
  exists dst', copy_to_loop fuel dst src cb i = Ret dst' /\
    rl_wf dst' (d ++ omap cb (zdrop i l)).
Proof.
  intros Ws. revert dst d i; induction fuel as [|fuel IH]; intros dst d i W Hi Hf Hsz HK Hm; [lia|].
  cbn [copy_to_loop]. rewrite (list_elem_spec src l i Ws) by lia. cbn [obind]. unfold zdrop.
  destruct (l !! Z.to_nat i) as [x|] eqn:E.
  2:{ rewrite drop_ge by by apply lookup_ge_None. exists dst. simpl. by rewrite app_nil_r. }
  rewrite (drop_S _ _ _ E). simpl omap. apply lookup_lt_Some in E as Hlt.
  replace (S (Z.to_nat i)) with (Z.to_nat (i + 1)) by lia.
  destruct (cb x) as [c|]; [|apply IH; done || lia].
  destruct (list_add_spec dst d c W ltac:(lia)) as (dst1 & -> & W1 & _ & Hsz1). cbn [obind].
  rewrite cons_middle, app_assoc. apply IH; rewrite ?length_app; simpl length; done || lia.
Qed.

(** ** Searching *)

Section find.
Context {M : Type} (cmp : M -> A -> Z) (m : M).

(** [m] is placed consistently in the list: elements before a smaller one are
    smaller, elements after a greater one are greater. *)
Definition placed (l : list A) : Prop :=
  forall i j x y, (i < j)%nat -> l !! i = Some x -> l !! j = Some y ->
    (cmp m x < 0 -> cmp m y < 0) /\ (cmp m y > 0 -> cmp m x > 0).

Lemma bsearch_spec l spare fuel lo hi :
  placed l -> 0 <= lo <= hi -> hi <= zlen l -> hi - lo < Z.of_nat fuel ->
  (forall i x, l !! i = Some x -> Z.of_nat i < lo -> cmp m x > 0) ->
  (forall i x, l !! i = Some x -> hi <= Z.of_nat i -> cmp m x < 0) ->
  exists r, bsearch fuel cmp m ((Some <$> l) ++ spare) lo hi = Ret r /\
    match r with
    | Some x => x ∈ l /\ cmp m x = 0
    | None => forall x, x ∈ l -> cmp m x <> 0
    end.
Proof.
  intros P. revert lo hi; induction fuel as [|fuel IH]; intros lo hi Hlo Hhi Hf Hl Hr; [lia|].
  cbn [bsearch]. destruct (Z.ltb_spec lo hi).
  2:{ exists None. split; [done|]. intros x [i Hx]%list_elem_of_lookup_1.
      destruct (Z.lt_ge_cases (Z.of_nat i) lo); [specialize (Hl i x Hx)|specialize (Hr i x Hx)]; lia. }
  pose proof (Z.div_mod (lo + hi) 2). pose proof (Z.mod_pos_bound (lo + hi) 2).
  set (idx := (lo + hi) / 2) in *.
  destruct (lookup_lt_is_Some_2 l (Z.to_nat idx)) as [x Hx]; [lia|].
  rewrite lookup_app_l by (rewrite length_fmap; lia). rewrite list_lookup_fmap, Hx. simpl.
  rewrite Z.gtb_ltb. destruct (Z.ltb_spec (cmp m x) 0); [|destruct (Z.ltb_spec 0 (cmp m x))].
  - apply IH; try lia; [exact Hl|]. intros i y Hy Hi.
    destruct (decide (i = Z.to_nat idx)) as [->|]; [rewrite Hx in Hy; congruence|].
    eapply (P (Z.to_nat idx) i); [lia|done|done|done].
  - apply IH; try lia; [|exact Hr]. intros i y Hy Hi.
    destruct (decide (i = Z.to_nat idx)) as [->|]; [assert (x = y) as <- by congruence; lia|].
    eapply (P i (Z.to_nat idx)); [lia|done|done|lia].
  - exists (Some x). split; [done|]. split; [by eapply list_elem_of_lookup_2|lia].
Qed.

Lemma first_match_spec p i l :
  match first_match p i l with
  | Some (_, x) => x ∈ l /\ p x = true
  | None => forall x, x ∈ l -> p x = false
  end.
Proof.
  revert i; induction l as [|y l IH]; intros i; simpl; [by intros x ?%elem_of_nil|].
  destruct (p y) eqn:E; [split; [apply elem_of_cons; by left|done]|].
  specialize (IH (i + 1)). destruct (first_match p (i + 1) l) as [[j x]|].
  - destruct IH. split; [apply elem_of_cons; by right|done].
  - intros x [->|Hx]%elem_of_cons; auto.
Qed.
End find.
End facts.

(** ** Sequences of operations *)

Module ListSpec.
Section spec.
Context {A : Type} `{EqDecision A} (cmp : A -> A -> Z).

Inductive op : Type :=
| Add (x : A)
| Remove (x : A)
| RemoveCmp (x : A)
| RemoveMulti (x : A)
| Apply (keep : A -> bool)
| Clear.

(** The abstract list after an operation. *)
Definition step (o : op) (l : list A) : list A :=
  match o with
  | Add x => l ++ [x]
  | Remove x => remove_first (fun e => bool_decide (e = x)) l
  | RemoveCmp x => remove_first (fun e => bool_decide (e = x) || (cmp e x =? 0)) l
  | RemoveMulti x => filter (fun e => cmp e x <> 0) l
  | Apply keep => filter (fun e => keep e = true) l
  | Clear => []
  end.
Definition run (ops : list op) (l : list A) : list A := foldl (fun l o => step o l) l ops.
End spec.
Arguments op : clear implicits.
End ListSpec.

Section refine.
Context {A : Type} `{EqDecision A} (cmp : A -> A -> Z).
Implicit Types (rl : rd_list A) (l : list A).

Definition list_op (o : ListSpec.op A) (rl : rd_list A) : outcome (rd_list A) :=
  match o with
  | ListSpec.Add x => let! (rl, _) := rd_list_add rl (Some x) in Ret rl
  | ListSpec.Remove x => let! (rl, _) := rd_list_remove rl x in Ret rl
  | ListSpec.RemoveCmp x =>
      let! (rl, _) := rd_list_remove_cmp (fun e m => bool_decide (e = m)) rl x cmp in Ret rl
  | ListSpec.RemoveMulti x => let! (rl, _) := rd_list_remove_multi_cmp rl x cmp in Ret rl
  | ListSpec.Apply keep =>
      let! (rl, _) := rd_list_apply rl (fun e s => (if keep e then 1 else 0, s)) () in Ret rl
  | ListSpec.Clear => Ret (rd_list_clear rl)
  end.

Definition list_ops (ops : list (ListSpec.op A)) (rl : rd_list A) : outcome (rd_list A) :=
  foldl (fun m o => let! rl := m in list_op o rl) (Ret rl) ops.

Lemma apply_ref_filter (keep : A -> bool) l :
  apply_ref (fun e s => (if keep e then 1 else 0, s)) l () = (filter (fun e => keep e = true) l, ()).
Proof.
  induction l as [|x l IH]; simpl; [done|]. rewrite IH. destruct (keep x) eqn:E; simpl.
  - by rewrite filter_cons_True.
  - rewrite filter_cons_False; [done|]. by rewrite E.
Qed.

Lemma length_remove_first (p : A -> bool) l : (length (remove_first p l) <= length l)%nat.
Proof. induction l as [|x l IH]; simpl; [done|]. destruct (p x); simpl; lia. Qed.

(** One operation: [n] bounds the number of elements ever added. *)
Lemma list_op_spec o rl l n :
  rl_wf rl l -> zlen l <= n -> rl_size rl <= 3 * n + 16 -> 9 * n + 64 <= INT_MAX ->
  exists rl', list_op o rl = Ret rl' /\ rl_wf rl' (ListSpec.step cmp o l) /\
    zlen (ListSpec.step cmp o l) <= n + 1 /\ rl_size rl' <= 3 * (n + 1) + 16.
Proof.
  intros W Hn Hsz Hm. pose proof W as [[sp He] Hc Hs Hd].
  destruct o as [x|x|x|x|keep|]; simpl list_op; simpl ListSpec.step.
  - destruct (list_add_spec rl l x W ltac:(lia)) as (rl' & -> & W' & _ & ?). cbn [obind].
    exists rl'. rewrite length_app. simpl. split_and!; try done; lia.
  - destruct (remove_first_spec rl l (fun e => bool_decide (e = x)) W)
      as (rl' & r & Hr & W' & ? & _). unfold rd_list_remove. rewrite Hr. cbn [obind].
    exists rl'. pose proof (length_remove_first (fun e => bool_decide (e = x)) l).
    split_and!; try done; lia.
  - destruct (remove_first_spec rl l (fun e => bool_decide (e = x) || (cmp e x =? 0)) W)
      as (rl' & r & Hr & W' & ? & _). unfold rd_list_remove_cmp. rewrite Hr. cbn [obind].
    exists rl'. pose proof (length_remove_first (fun e => bool_decide (e = x) || (cmp e x =? 0)) l).
    split_and!; try done; lia.
  - rewrite <- (app_nil_r l) in W.
    destruct (remove_multi_loop_spec x cmp (list_fuel rl) rl l [] (rl_cnt rl - 1) 0 W)
      as (rl' & Hr & W' & ? & _); [lia|unfold list_fuel; lia|].
    unfold rd_list_remove_multi_cmp. rewrite Hr. cbn [obind]. exists rl'. rewrite app_nil_r in W'.
    pose proof (length_filter (fun e => cmp e x <> 0) l). split_and!; try done; lia.
  - destruct (apply_loop_spec (fun e s => (if keep e then 1 else 0, s)) (list_fuel rl) rl [] l () 0 W)
      as (rl' & Hr & W' & ? & _); [done|unfold list_fuel; lia|].
    unfold rd_list_apply. rewrite Hr. cbn [obind]. rewrite apply_ref_filter in W'. exists rl'.
    pose proof (length_filter (fun e => keep e = true) l). split_and!; try done; lia.
  - eexists. split; [done|]. split_and!; try done; simpl; try lia.
    split; simpl; [by exists (rl_elems rl)|done|done|done].
Qed.

Lemma list_ops_spec ops rl l n :
  rl_wf rl l -> zlen l <= n -> rl_size rl <= 3 * n + 16 -> 9 * (n + zlen ops) + 64 <= INT_MAX ->
  exists rl', list_ops ops rl = Ret rl' /\ rl_wf rl' (ListSpec.run cmp ops l).
Proof.
  unfold list_ops, ListSpec.run.
  revert rl l n; induction ops as [|o ops IH]; intros rl l n W Hn Hsz Hm; [by exists rl|].
  simpl length in Hm. cbn [foldl obind].
  destruct (list_op_spec o rl l n W Hn Hsz ltac:(lia)) as (rl1 & -> & W1 & ? & ?).
  apply (IH rl1 _ (n + 1)); [done|lia|lia|lia].
Qed.
End refine.

Lemma omap_id_Some {A} (l : list A) : omap id (Some <$> l) = l.
Proof. induction l as [|x l IH]; [done|]. simpl. f_equal. exact IH. Qed.

(** ** Properties *)

(** Any sequence of [rd_list] operations (append, remove by pointer or
    comparator, remove all matches, apply, clear) on a fresh list returns, and
    leaves exactly the elements of the mathematical list after the same
    operations, in order, however often the array was reallocated; the indexed
    read sees that list and NULL past its end. *)
Theorem list_refines {A} `{EqDecision A} (cmp : A -> A -> Z) (ops : list (ListSpec.op A))
    (initial i : Z) (Hi : 0 <= i) (Hn : initial <= 16) (Hm : 9 * zlen ops + 64 <= INT_MAX) :
  exists rl0 rl, rd_list_init initial true = Ret rl0 /\ list_ops cmp ops rl0 = Ret rl /\
    rd_list_elem rl i = Ret (ListSpec.run cmp ops [] !! Z.to_nat i) /\
    rd_list_cnt rl = zlen (ListSpec.run cmp ops []) /\
    rd_list_destroy rl = (if rl_free_cb rl then ListSpec.run cmp ops [] else []).
Proof.
  destruct (list_init_spec (A := A) initial true) as (rl0 & Hr0 & W0 & Hs0 & _); [unfold INT_MAX; lia|].
  destruct (list_ops_spec cmp ops rl0 [] 0 W0) as (rl & Hr & W); [simpl; lia..|].
  exists rl0, rl. split; [done|]. split; [done|]. split; [by apply list_elem_spec|].
  pose proof W as [[sp He] Hc Hs Hd]. split; [done|]. unfold rd_list_destroy.
  rewrite He, Hc. unfold ztake. rewrite Nat2Z.id, take_app_length' by (by rewrite length_fmap).
  by rewrite omap_id_Some.
Qed.

Lemma list_refines_witness :
  exists rl0 rl, rd_list_init 0 true = Ret rl0 /\
    list_ops Z.sub [ListSpec.Add 5; ListSpec.Add 7; ListSpec.Add 5; ListSpec.Remove 5;
                    ListSpec.Add 9; ListSpec.RemoveMulti 7] rl0 = Ret rl /\
    rd_list_elem rl 1 = Ret (Some 9) /\ rd_list_cnt rl = 2.
Proof.
  destruct (list_refines Z.sub [ListSpec.Add 5; ListSpec.Add 7; ListSpec.Add 5; ListSpec.Remove 5;
              ListSpec.Add 9; ListSpec.RemoveMulti 7] 0 1) as (rl0 & rl & H0 & H1 & H2 & H3 & _);
    [lia|lia|vm_compute; congruence|].
  exists rl0, rl. split; [exact H0|]. split; [exact H1|]. rewrite H2, H3. split; reflexivity.
Defined.

Section order.
Context {A : Type} (cmp : A -> A -> Z).
Hypothesis cmp_anti : forall a b, cmp a b < 0 <-> cmp b a > 0.
Hypothesis cmp_trans : forall a b c, cmp a b <= 0 -> cmp b c <= 0 -> cmp a c <= 0.

Lemma sorted_placed m l :
  (forall i j x y, (i < j)%nat -> l !! i = Some x -> l !! j = Some y -> cmp x y <= 0) ->
  placed cmp m l.
Proof.
  intros Hs i j x y Hij Hx Hy. specialize (Hs i j x y Hij Hx Hy).
  assert (D : forall a b, 0 <= cmp a b -> cmp b a <= 0).
  { intros a b Hab. destruct (Z.le_gt_cases (cmp b a) 0); [done|].
    assert (cmp a b < 0) by (apply cmp_anti; lia). lia. }
  split; intros H.
  - destruct (Z.lt_ge_cases (cmp m y) 0) as [|H0]; [done|].
    pose proof (cmp_trans _ _ _ Hs (D _ _ H0)). apply cmp_anti in H. lia.
  - destruct (Z.le_gt_cases (cmp m x) 0) as [H0|]; [|lia].
    pose proof (cmp_trans _ _ _ H0 Hs). lia.
Qed.
End order.

(** With a comparator that is a total preorder and a [qsort] that returns
    a sorted permutation of the array: after [rd_list_sort] the binary search
    of [rd_list_find] returns an element equal to the key when the list has
    one, and NULL otherwise; on an unsorted list the linear search returns the
    first such element. *)
Theorem list_find_spec {A} (cmp : A -> A -> Z) (qsort : list (option A) -> list (option A))
    (rl : rd_list A) (l : list A) (m : A)
    (cmp_anti : forall a b, cmp a b < 0 <-> cmp b a > 0)
    (cmp_trans : forall a b c, cmp a b <= 0 -> cmp b c <= 0 -> cmp a c <= 0)
    (qsort_ok : forall l, exists l', qsort (Some <$> l) = Some <$> l' /\ Permutation l' l /\
       (forall i j x y, (i < j)%nat -> l' !! i = Some x -> l' !! j = Some y -> cmp x y <= 0))
    (W : rl_wf rl l) (Hu : rl_sorted rl = false) :
  (exists r, rd_list_find (rd_list_sort qsort rl) m cmp = Ret r /\
     match r with
     | Some x => x ∈ l /\ cmp m x = 0
     | None => forall x, x ∈ l -> cmp m x <> 0
     end) /\
  rd_list_find rl m cmp = Ret (snd <$> first_match (fun e => cmp m e =? 0) 0 l).
Proof.
  pose proof W as [[sp He] Hc Hs Hd]. split.
  - destruct (qsort_ok l) as (l' & Hq & Hp & Hsort). unfold rd_list_find. simpl rl_sorted. cbn iota.
    unfold rd_list_sort. simpl rl_elems. rewrite He, Hc. unfold ztake, zdrop.
    rewrite Nat2Z.id, take_app_length', drop_app_length' by (by rewrite length_fmap). rewrite Hq.
    pose proof (Permutation_length Hp) as Hlen. simpl rl_cnt.
    destruct (bsearch_spec cmp m l' sp
                (list_fuel (rl_set_elems (rl_size rl) (zlen l) ((Some <$> l') ++ sp) true rl))
                0 (zlen l)) as (r & Hr & Hres).
    + by apply sorted_placed.
    + lia.
    + lia.
    + unfold list_fuel. simpl. lia.
    + intros; lia.
    + intros i x Hx Hi. apply lookup_lt_Some in Hx. lia.
    + exists r. split; [exact Hr|]. destruct r as [x|]; [by rewrite <- Hp|].
      intros x Hx. apply Hres. by rewrite Hp.
  - unfold rd_list_find. rewrite Hu. rewrite (foreach_first_spec rl l) by
      (done || lia || (unfold list_fuel; lia)). done.
Qed.

Definition zsort (l : list (option Z)) : list (option Z) := Some <$> merge_sort Z.le (omap id l).

Lemma zsort_ok l :
  exists l', zsort (Some <$> l) = Some <$> l' /\ Permutation l' l /\
    (forall i j x y, (i < j)%nat -> l' !! i = Some x -> l' !! j = Some y -> x - y <= 0).
Proof.
  unfold zsort. rewrite omap_id_Some. exists (merge_sort Z.le l). split; [done|].
  split; [apply merge_sort_Permutation|].
  pose proof (StronglySorted_merge_sort Z.le l) as Hs. intros i j x y Hij Hx Hy.
  revert i j Hij Hx Hy. induction Hs as [|a s _ IH Ha]; intros i j Hij Hx Hy; [done|].
  destruct j as [|j]; [lia|]. destruct i as [|i]; simpl in *; [|by apply (IH i j); [lia|..]].
  injection Hx as ->. rewrite Forall_forall in Ha. apply list_elem_of_lookup_2 in Hy.
  specialize (Ha y Hy). lia.
Qed.

Lemma list_find_spec_witness :
  exists rl0 rl, rd_list_init 0 true = Ret rl0 /\
    list_ops Z.sub [ListSpec.Add 5; ListSpec.Add 7; ListSpec.Add 3] rl0 = Ret rl /\
    rd_list_find (rd_list_sort zsort rl) 7 Z.sub = Ret (Some 7) /\
    rd_list_find rl 4 Z.sub = Ret None.
Proof.
  destruct (list_init_spec (A := Z) 0 true) as (rl0 & H0 & W0 & Hs0 & Hu0); [unfold INT_MAX; lia|].
  destruct (list_ops_spec Z.sub [ListSpec.Add 5; ListSpec.Add 7; ListSpec.Add 3] rl0 [] 0 W0)
    as (rl & Hr & W); [simpl; lia|lia|vm_compute; congruence|].
  assert (Hu : rl_sorted rl = false).
  { vm_compute in H0. injection H0 as <-. vm_compute in Hr. injection Hr as <-. reflexivity. }
  exists rl0, rl. split; [exact H0|]. split; [exact Hr|]. split.
  - destruct (list_find_spec Z.sub zsort rl _ 7 ltac:(lia) ltac:(lia) zsort_ok W Hu)
      as [(r & Hf & Hres) _].
    rewrite Hf. destruct r as [x|]; [do 2 f_equal; lia|]. exfalso. apply (Hres 7); [|lia].
    vm_compute. right. left.
  - destruct (list_find_spec Z.sub zsort rl _ 4 ltac:(lia) ltac:(lia) zsort_ok W Hu) as [_ Hf].
    rewrite Hf. reflexivity.
Defined.

(** [rd_list_set] does not clear the sorted flag: an element appended with it
    to a sorted list is not found. *)
Lemma list_set_keeps_sorted_flag :
  exists rl0 rl rl1, rd_list_init 0 true = Ret rl0 /\
    list_ops Z.sub [ListSpec.Add 1; ListSpec.Add 3] rl0 = Ret rl /\
    rd_list_set (rd_list_sort zsort rl) 2 (Some 0) = Ret rl1 /\
    rd_list_elem rl1 2 = Ret (Some 0) /\ rd_list_find rl1 0 Z.sub = Ret None.
Proof. do 3 eexists. do 4 (split; [vm_compute; reflexivity|]). vm_compute. reflexivity. Qed.
