(* ===== verification/Proto.v ===== *)
(** * Wire-level data of the Kafka protocol: rdkafka_proto.h

    Big-endian integers, protocol strings and bytes, message overheads and
    header offsets, and the error codes of rdkafka.h that the modelled code
    uses. *)
From Stdlib Require Import ZArith Lia.
From stdpp Require Import base numbers list.
From S2P Require Import Prelude Varint.

(** ** Error codes (rd_kafka_resp_err_t) *)

Definition RD_KAFKA_RESP_ERR_NO_ERROR : Z := 0.
Definition RD_KAFKA_RESP_ERR_MSG_SIZE_TOO_LARGE : Z := 10.
Definition RD_KAFKA_RESP_ERR__BAD_MSG : Z := -199.
Definition RD_KAFKA_RESP_ERR__BAD_COMPRESSION : Z := -198.
Definition RD_KAFKA_RESP_ERR__CRIT_SYS_RESOURCE : Z := -194.
Definition RD_KAFKA_RESP_ERR__UNKNOWN_PARTITION : Z := -190.
Definition RD_KAFKA_RESP_ERR__UNKNOWN_TOPIC : Z := -188.
Definition RD_KAFKA_RESP_ERR__INVALID_ARG : Z := -186.
Definition RD_KAFKA_RESP_ERR__QUEUE_FULL : Z := -184.
Definition RD_KAFKA_RESP_ERR__CONFLICT : Z := -173.
Definition RD_KAFKA_RESP_ERR__UNKNOWN_PROTOCOL : Z := -171.
Definition RD_KAFKA_RESP_ERR__NOT_IMPLEMENTED : Z := -170.
Definition RD_KAFKA_RESP_ERR__NOENT : Z := -156.
Definition RD_KAFKA_RESP_ERR__UNDERFLOW : Z := -155.

(** ** Big-endian integers ([htobe16] and the like followed by a copy) *)

(** The [n] bytes of [v], most significant first. *)
Fixpoint be_enc (n : nat) (v : Z) : list Z :=
  match n with
  | O => []
  | S n => Z.land (Z.shiftr v (8 * Z.of_nat n)) 0xff :: be_enc n v
  end.

(** The unsigned value of some bytes. *)
Definition be_dec (l : list Z) : Z := foldl (fun acc b => Z.lor (Z.shiftl acc 8) b) 0 l.

Lemma be_enc_length n v : length (be_enc n v) = n.
Proof. induction n; simpl; congruence. Qed.

Lemma land_ff x : Z.land x 0xff = x mod 256.
Proof. change 0xff with (2 ^ 8 - 1). by rewrite land_pow2_ones. Qed.

Lemma be_enc_ok n v : bytes_ok (be_enc n v).
Proof.
  induction n as [|n IH]; simpl; constructor; [|done].
  rewrite land_ff. unfold byte_ok, u_ok. pose proof (Z.mod_pos_bound (Z.shiftr v (8 * Z.of_nat n)) 256).
  lia.
Qed.

Lemma be_step_lor acc b : byte_ok b -> Z.lor (Z.shiftl acc 8) b = acc * 256 + b.
Proof.
  intros [? ?]. rewrite Z.lor_comm, lor_shiftl_add by lia. lia.
Qed.

Lemma be_dec_acc l acc :
  bytes_ok l -> foldl (fun acc b => Z.lor (Z.shiftl acc 8) b) acc l = acc * 256 ^ zlen l + be_dec l.
Proof.
  unfold be_dec. intros Hl. assert (G : forall a, foldl (fun acc b => Z.lor (Z.shiftl acc 8) b) a l
    = a * 256 ^ zlen l + foldl (fun acc b => Z.lor (Z.shiftl acc 8) b) 0 l); [|apply G].
  induction Hl as [|b l Hb _ IH]; intros a; cbn [foldl]; [simpl; lia|].
  rewrite (IH (Z.lor (Z.shiftl a 8) b)), (IH (Z.lor (Z.shiftl 0 8) b)), !be_step_lor by done.
  simpl length. rewrite Nat2Z.inj_succ, Z.pow_succ_r by lia. lia.
Qed.

Lemma be_dec_cons b l : byte_ok b -> bytes_ok l -> be_dec (b :: l) = b * 256 ^ zlen l + be_dec l.
Proof.
  intros Hb Hl. unfold be_dec at 1. cbn [foldl]. rewrite be_dec_acc, be_step_lor by done. lia.
Qed.

Lemma be_dec_enc n v : be_dec (be_enc n v) = v mod 256 ^ Z.of_nat n.
Proof.
  induction n as [|n IH]; [by rewrite Z.mod_1_r|].
  simpl be_enc. rewrite be_dec_cons, IH, be_enc_length, land_ff.
  2:{ rewrite land_ff. unfold byte_ok, u_ok.
      pose proof (Z.mod_pos_bound (Z.shiftr v (8 * Z.of_nat n)) 256). lia. }
  2:{ apply be_enc_ok. }
  rewrite Z.shiftr_div_pow2, Z.pow_mul_r by lia. change (2 ^ 8) with 256.
  assert (0 < 256 ^ Z.of_nat n) by (apply Z.pow_pos_nonneg; lia).
  rewrite Nat2Z.inj_succ, Z.pow_succ_r, (Z.mul_comm 256), Z.rem_mul_r by lia. lia.
Qed.

(** Reading back a [w]-bit signed or unsigned value. *)
Lemma be_dec_enc_u n v : u_ok (8 * Z.of_nat n) v -> be_dec (be_enc n v) = v.
Proof.
  intros [? ?]. rewrite be_dec_enc. apply Z.mod_small.
  by rewrite Z.pow_mul_r in * by lia.
Qed.

Lemma be_dec_enc_s n v :
  (n <> O)%nat -> s_ok (8 * Z.of_nat n) v -> swrap (8 * Z.of_nat n) (be_dec (be_enc n v)) = v.
Proof.
  intros Hn Hv. rewrite be_dec_enc. change 256 with (2 ^ 8).
  rewrite <- Z.pow_mul_r by lia. unfold swrap. rewrite Zplus_mod_idemp_l.
  apply (swrap_id (8 * Z.of_nat n) v); [lia|done].
Qed.

(** ** Protocol strings *)

(** [kstr_ser] is the serialised form behind the struct, present on strings
    made by [rd_kafkap_str_new]. *)
Record rd_kafkap_str : Type := mk_kstr {
  kstr_len : Z;
  kstr_str : option (list Z);
  kstr_ser : list Z }.

Definition RD_KAFKAP_STR_LEN_NULL : Z := -1.
Definition RD_KAFKAP_STR_IS_NULL (kstr : rd_kafkap_str) : bool :=
  kstr_len kstr =? RD_KAFKAP_STR_LEN_NULL.
Definition RD_KAFKAP_STR_LEN0 (len : Z) : Z := if len =? RD_KAFKAP_STR_LEN_NULL then 0 else len.
Definition RD_KAFKAP_STR_LEN (kstr : rd_kafkap_str) : Z := RD_KAFKAP_STR_LEN0 (kstr_len kstr).
Definition RD_KAFKAP_STR_SIZE0 (len : Z) : Z := 2 + RD_KAFKAP_STR_LEN0 len.
Definition RD_KAFKAP_STR_SIZE (kstr : rd_kafkap_str) : Z := RD_KAFKAP_STR_SIZE0 (kstr_len kstr).
Definition RD_KAFKAP_STR_SER (kstr : rd_kafkap_str) : list Z := kstr_ser kstr.

(** A C string is the list of bytes before the first NUL of a memory area. *)
Fixpoint cstr (mem : list Z) : list Z :=
  match mem with
  | [] => []
  | b :: mem => if b =? 0 then [] else b :: cstr mem
  end.
Definition strlen (mem : list Z) : Z := zlen (cstr mem).

(** A negative length other than -1 would allocate and copy a wrapped-around
    amount. *)
Definition rd_kafkap_str_new (str : option (list Z)) (len : Z) : outcome rd_kafkap_str :=
  let len := match str with
             | None => RD_KAFKAP_STR_LEN_NULL
             | Some s => if len =? -1 then s32 (strlen s) else len
             end in
  let klen := be_enc 2 len in
  match str with
  | None => Ret (mk_kstr len None klen)
  | Some s =>
      if len =? RD_KAFKAP_STR_LEN_NULL then Ret (mk_kstr len None klen)
      else if len <? 0 then Crash
      else Ret (mk_kstr len (Some (ztake len s)) (klen ++ ztake len s))
  end.

Definition rd_kafkap_str_copy (src : rd_kafkap_str) : outcome rd_kafkap_str :=
  rd_kafkap_str_new (kstr_str src) (kstr_len src).

(** The sign of [memcmp]; a negative [n] is a huge [size_t]. *)
Fixpoint memcmp_loop (n : nat) (a b : list Z) : outcome Z :=
  match n with
  | O => Ret 0
  | S n =>
      match a, b with
      | x :: a, y :: b => if x =? y then memcmp_loop n a b else Ret (if x <? y then -1 else 1)
      | _, _ => Crash
      end
  end.
Definition memcmp (a b : option (list Z)) (n : Z) : outcome Z :=
  if n <? 0 then Crash
  else if n =? 0 then Ret 0
  else match a, b with
       | Some a, Some b => memcmp_loop (Z.to_nat n) a b
       | _, _ => Crash
       end.

Definition rd_kafkap_str_cmp (a b : rd_kafkap_str) : outcome Z :=
  let minlen := Z.min (kstr_len a) (kstr_len b) in
  let! r := memcmp (kstr_str a) (kstr_str b) minlen in
  Ret (if negb (r =? 0) then r else kstr_len a - kstr_len b).

Definition rd_kafkap_str_cmp_str (a : rd_kafkap_str) (str : list Z) : outcome Z :=
  let len := s32 (strlen str) in
  let minlen := Z.min (kstr_len a) len in
  let! r := memcmp (kstr_str a) (Some str) minlen in
  Ret (if negb (r =? 0) then r else kstr_len a - len).

Definition rd_kafkap_str_cmp_str2 (str : list Z) (b : rd_kafkap_str) : outcome Z :=
  let len := s32 (strlen str) in
  let minlen := Z.min (kstr_len b) len in
  let! r := memcmp (Some str) (kstr_str b) minlen in
  Ret (if negb (r =? 0) then r else len - kstr_len b).

(** ** Protocol bytes *)

Record rd_kafkap_bytes : Type := mk_kbytes {
  kbytes_len : Z;
  kbytes_data : option (list Z);
  kbytes_ser : list Z }.

Definition RD_KAFKAP_BYTES_LEN_NULL : Z := -1.
Definition RD_KAFKAP_BYTES_IS_NULL (kbytes : rd_kafkap_bytes) : bool :=
  kbytes_len kbytes =? RD_KAFKAP_BYTES_LEN_NULL.
Definition RD_KAFKAP_BYTES_LEN0 (len : Z) : Z :=
  if len =? RD_KAFKAP_BYTES_LEN_NULL then 0 else len.
Definition RD_KAFKAP_BYTES_LEN (kbytes : rd_kafkap_bytes) : Z :=
  RD_KAFKAP_BYTES_LEN0 (kbytes_len kbytes).
Definition RD_KAFKAP_BYTES_SIZE0 (len : Z) : Z := 4 + RD_KAFKAP_BYTES_LEN0 len.
Definition RD_KAFKAP_BYTES_SIZE (kbytes : rd_kafkap_bytes) : Z :=
  RD_KAFKAP_BYTES_SIZE0 (kbytes_len kbytes).
Definition RD_KAFKAP_BYTES_SER (kbytes : rd_kafkap_bytes) : list Z := kbytes_ser kbytes.

(** Without source bytes the area is allocated and left uninitialised (zeroes
    here). *)
Definition rd_kafkap_bytes_new (bytes : option (list Z)) (len : Z) : outcome rd_kafkap_bytes :=
  let len := match bytes with
             | None => if len =? 0 then RD_KAFKAP_BYTES_LEN_NULL else len
             | Some _ => len
             end in
  let klen := be_enc 4 len in
  if len =? RD_KAFKAP_BYTES_LEN_NULL then Ret (mk_kbytes len None klen)
  else if len <? 0 then Crash
  else
    let data := match bytes with
                | Some s => ztake len s
                | None => replicate (Z.to_nat len) 0
                end in
    Ret (mk_kbytes len (Some data) (klen ++ data)).

Definition rd_kafkap_bytes_copy (src : rd_kafkap_bytes) : outcome rd_kafkap_bytes :=
  rd_kafkap_bytes_new (kbytes_data src) (kbytes_len src).

Definition rd_kafkap_bytes_cmp (a b : rd_kafkap_bytes) : outcome Z :=
  let minlen := Z.min (kbytes_len a) (kbytes_len b) in
  let! r := memcmp (kbytes_data a) (kbytes_data b) minlen in
  Ret (if negb (r =? 0) then r else kbytes_len a - kbytes_len b).

Definition rd_kafkap_bytes_cmp_data (a : rd_kafkap_bytes) (data : list Z) (len : Z) : outcome Z :=
  let minlen := Z.min (kbytes_len a) len in
  let! r := memcmp (kbytes_data a) (Some data) minlen in
  Ret (if negb (r =? 0) then r else kbytes_len a - len).

(** ** Message overheads and MessageSet header offsets *)

Definition RD_KAFKAP_MESSAGESET_V0_HDR_SIZE : Z := 8 + 4.
Definition RD_KAFKAP_MESSAGE_V0_HDR_SIZE : Z := 4 + 1 + 1 + 4 + 4.
Definition RD_KAFKAP_MESSAGE_V1_HDR_SIZE : Z := 4 + 1 + 1 + 8 + 4 + 4.
Definition RD_KAFKAP_MESSAGE_V0_OVERHEAD : Z :=
  RD_KAFKAP_MESSAGESET_V0_HDR_SIZE + RD_KAFKAP_MESSAGE_V0_HDR_SIZE.
Definition RD_KAFKAP_MESSAGE_V1_OVERHEAD : Z :=
  RD_KAFKAP_MESSAGESET_V0_HDR_SIZE + RD_KAFKAP_MESSAGE_V1_HDR_SIZE.
Definition RD_KAFKAP_MESSAGE_V2_OVERHEAD : Z :=
  RD_UVARINT_ENC_SIZEOF 4 + 1 + RD_UVARINT_ENC_SIZEOF 8 + RD_UVARINT_ENC_SIZEOF 4
  + RD_UVARINT_ENC_SIZEOF 4 + RD_UVARINT_ENC_SIZEOF 4 + RD_UVARINT_ENC_SIZEOF 4.
Definition RD_KAFKAP_MSGSET_V0_SIZE : Z := 0.
Definition RD_KAFKAP_MSGSET_V2_SIZE : Z := 8 + 4 + 4 + 1 + 4 + 2 + 4 + 8 + 8 + 8 + 2 + 4 + 4.
Definition RD_KAFKAP_MSGSET_V2_OF_Length : Z := 8.
Definition RD_KAFKAP_MSGSET_V2_OF_CRC : Z := 8 + 4 + 4 + 1.
Definition RD_KAFKAP_MSGSET_V2_OF_Attributes : Z := 8 + 4 + 4 + 1 + 4.
Definition RD_KAFKAP_MSGSET_V2_OF_LastOffsetDelta : Z := 8 + 4 + 4 + 1 + 4 + 2.
Definition RD_KAFKAP_MSGSET_V2_OF_BaseTimestamp : Z := 8 + 4 + 4 + 1 + 4 + 2 + 4.
Definition RD_KAFKAP_MSGSET_V2_OF_MaxTimestamp : Z := 8 + 4 + 4 + 1 + 4 + 2 + 4 + 8.
Definition RD_KAFKAP_MSGSET_V2_OF_RecordCount : Z := 8 + 4 + 4 + 1 + 4 + 2 + 4 + 8 + 8 + 8 + 2 + 4.

(** ** Varints as byte strings *)

(** The encoding of a signed value. *)
Definition varint_bytes (n : Z) : list Z := uvarint_bytes (zigzag64 n).

Lemma uvarint_digits_length fuel num k :
  0 <= num < 128 ^ Z.of_nat k -> (k <> O)%nat -> (length (uvarint_digits fuel num) <= k)%nat.
Proof.
  revert num k; induction fuel as [|f IH]; intros num k Hn Hk; simpl; [lia|].
  case_if; simpl; [lia|]. destruct k as [|[|k]]; [done|simpl in Hn; lia|].
  apply le_n_S, IH; [|done]. rewrite Nat2Z.inj_succ, Z.pow_succ_r in Hn by lia.
  split; [apply Z.div_pos; lia|apply Z.div_lt_upper_bound; lia].
Qed.

Lemma varint_bytes_len n : 1 <= zlen (varint_bytes n) <= 10.
Proof. apply uvarint_bytes_len, uwrap_ok. lia. Qed.

(** 5 bytes hold 34 bits and a sign. *)
Lemma varint_bytes_short n : - 2 ^ 34 <= n < 2 ^ 34 -> 1 <= zlen (varint_bytes n) <= 5.
Proof.
  intros Hn. split; [apply varint_bytes_len|].
  unfold varint_bytes, uvarint_bytes. rewrite zigzag64_spec by (unfold s_ok; lia).
  pose proof (uvarint_digits_length UVARINT_FUEL (if n <? 0 then -2 * n - 1 else 2 * n) 5) as H.
  apply (Nat2Z.inj_le _ 5), H; [|done]. change (128 ^ Z.of_nat 5) with (2 ^ 35). destruct (Z.ltb_spec n 0); lia.
Qed.

Lemma varint_bytes_ok n : bytes_ok (varint_bytes n).
Proof. apply uvarint_digits_ok. apply (uwrap_ok 64). lia. Qed.

Lemma enc_i64_spec dstsize n :
  s_ok 64 n -> zlen (varint_bytes n) <= dstsize ->
  rd_uvarint_enc_i64 dstsize n = Ret (zlen (varint_bytes n), varint_bytes n).
Proof.
  intros Hn Hd. unfold rd_uvarint_enc_i64. rewrite uvarint_enc_spec by by apply zigzag64_ok.
  fold (varint_bytes n). destruct (Z.leb_spec (zlen (varint_bytes n)) dstsize); [done|lia].
Qed.

Lemma dec_varint_bytes n rest :
  s_ok 64 n -> rd_varint_dec_i64 (varint_bytes n ++ rest) = Ret (zlen (varint_bytes n), Some n).
Proof.
  intros Hn. unfold rd_varint_dec_i64, varint_bytes. rewrite uvarint_dec_bytes by by apply zigzag64_ok.
  cbn [obind]. fold (varint_bytes n). rewrite varint_dec_not_failed by apply varint_bytes_len.
  simpl. by rewrite unzigzag64_zigzag64.
Qed.
