(* ===== verification/Header.v ===== *)
(** * Message headers: rdkafka_header.h and rdkafka_header.c

    A header is one allocation holding its name and value, both followed by a
    NUL byte; the list keeps the total serialised size. *)
From Stdlib Require Import ZArith Lia.
From stdpp Require Import base numbers list.
From S2P Require Import Prelude Varint RdList RdListSpec Proto.

(** ** Code *)

(** [rkhdr_name] is the memory of the name including its NUL, [rkhdr_value]
    that of the value, [None] for a null value. *)
Record rd_kafka_header : Type := mk_hdr {
  rkhdr_ser_size : Z;
  rkhdr_value_size : Z;
  rkhdr_name_size : Z;
  rkhdr_value : option (list Z);
  rkhdr_name : list Z }.

Record rd_kafka_headers : Type := mk_hdrs {
  rkhdrs_list : rd_list rd_kafka_header;
  rkhdrs_ser_size : Z }.

Definition rd_kafka_headers_serialized_size (hdrs : rd_kafka_headers) : Z := rkhdrs_ser_size hdrs.

Definition rd_kafka_headers_new (initial_count : Z) : outcome rd_kafka_headers :=
  let! rl := rd_list_init (s32 initial_count) true in Ret (mk_hdrs rl 0).

(** The headers freed. *)
Definition rd_kafka_headers_destroy (hdrs : rd_kafka_headers) : list rd_kafka_header :=
  rd_list_destroy (rkhdrs_list hdrs).

(** [name] and [value] are the memory at the pointers; other negative sizes
    would wrap around in the allocation. *)
Definition rd_kafka_header_add (hdrs : rd_kafka_headers) (name : list Z) (name_size : Z)
    (value : option (list Z)) (value_size : Z) : outcome (rd_kafka_headers * Z) :=
  let name_size := if name_size =? -1 then strlen name else name_size in
  let value_size :=
    if value_size =? -1 then match value with Some v => strlen v | None => 0 end
    else match value with Some _ => value_size | None => 0 end in
  if (name_size <? 0) || (value_size <? 0) then Crash
  else
    let! (nl, _) := rd_uvarint_enc_i64 (RD_UVARINT_ENC_SIZEOF 4) name_size in
    let! (vl, _) := rd_uvarint_enc_i64 (RD_UVARINT_ENC_SIZEOF 4) value_size in
    let hdr := mk_hdr (name_size + value_size + nl + vl)
                 (match value with Some _ => value_size | None => 0 end) name_size
                 (match value with Some v => Some (ztake value_size v ++ [0]) | None => None end)
                 (ztake name_size name ++ [0]) in
    let! (rl, _) := rd_list_add (rkhdrs_list hdrs) (Some hdr) in
    Ret (mk_hdrs rl (rkhdrs_ser_size hdrs + rkhdr_ser_size hdr), RD_KAFKA_RESP_ERR_NO_ERROR).

(** [rd_kafka_header_copy] adds the header to the destination itself and
    returns its error code, 0, as the element pointer: the list copier adds
    nothing. *)
Fixpoint headers_copy_loop (fuel : nat) (dst : rd_kafka_headers) (src : rd_list rd_kafka_header) (i : Z)
  : outcome rd_kafka_headers :=
  match fuel with
  | O => Diverge
  | S fuel =>
      let! e := rd_list_elem src i in
      match e with
      | None => Ret dst
      | Some h =>
          let! (dst, _) := rd_kafka_header_add dst (rkhdr_name h) (rkhdr_name_size h)
                             (rkhdr_value h) (rkhdr_value_size h) in
          headers_copy_loop fuel dst src (i + 1)
      end
  end.

Definition rd_kafka_headers_copy (src : rd_kafka_headers) : outcome rd_kafka_headers :=
  let! rl := rd_list_init (rd_list_cnt (rkhdrs_list src)) true in
  headers_copy_loop (list_fuel (rkhdrs_list src)) (mk_hdrs rl 0) (rkhdrs_list src) 0.

(** [strcmp] as used here: zero exactly for equal strings. *)
Definition rd_kafka_header_cmp_str (a : rd_kafka_header) (b : list Z) : Z :=
  if bool_decide (cstr (rkhdr_name a) = cstr b) then 0 else 1.

Fixpoint header_remove_loop (fuel : nat) (rl : rd_list rd_kafka_header) (name : list Z) (i ser_size : Z)
  : outcome (rd_list rd_kafka_header * Z) :=
  match fuel with
  | O => Diverge
  | S fuel =>
      if i >=? 0 then
        let! e := rd_list_elem rl i in
        match e with
        | None => Ret (rl, ser_size)
        | Some h =>
            if negb (rd_kafka_header_cmp_str h name =? 0)
            then header_remove_loop fuel rl name (i - 1) ser_size
            else
              let! rl := rd_list_remove_elem rl i in
              header_remove_loop fuel rl name (i - 1) (ser_size + rkhdr_ser_size h)
        end
      else Ret (rl, ser_size)
  end.

Definition rd_kafka_header_remove (hdrs : rd_kafka_headers) (name : list Z)
  : outcome (rd_kafka_headers * Z) :=
  let rl := rkhdrs_list hdrs in
  let! (rl, ser_size) := header_remove_loop (list_fuel rl) rl name (rl_cnt rl - 1) 0 in
  if ser_size =? 0 then Ret (mk_hdrs rl (rkhdrs_ser_size hdrs), RD_KAFKA_RESP_ERR__NOENT)
  else Ret (mk_hdrs rl (rkhdrs_ser_size hdrs - ser_size), RD_KAFKA_RESP_ERR_NO_ERROR).

Definition header_matches (name : list Z) (h : rd_kafka_header) : bool :=
  (rkhdr_name_size h =? strlen name) && bool_decide (cstr (rkhdr_name h) = cstr name).

(** The value pointer and size, or [NOENT]. *)
Fixpoint header_get_last_loop (fuel : nat) (rl : rd_list rd_kafka_header) (name : list Z) (i : Z)
  : outcome (option (option (list Z) * Z)) :=
  match fuel with
  | O => Diverge
  | S fuel =>
      if i >=? 0 then
        let! e := rd_list_elem rl i in
        match e with
        | None => Ret None
        | Some h => if header_matches name h then Ret (Some (rkhdr_value h, rkhdr_value_size h))
                    else header_get_last_loop fuel rl name (i - 1)
        end
      else Ret None
  end.

Definition rd_kafka_header_get_last (hdrs : rd_kafka_headers) (name : list Z)
  : outcome (option (option (list Z) * Z)) :=
  header_get_last_loop (list_fuel (rkhdrs_list hdrs)) (rkhdrs_list hdrs) name
    (rl_cnt (rkhdrs_list hdrs) - 1).

Fixpoint header_get_loop (fuel : nat) (rl : rd_list rd_kafka_header) (idx : Z) (name : list Z) (i mi : Z)
  : outcome (option (option (list Z) * Z)) :=
  match fuel with
  | O => Diverge
  | S fuel =>
      let! e := rd_list_elem rl i in
      match e with
      | None => Ret None
      | Some h =>
          if header_matches name h then
            if mi =? idx then Ret (Some (rkhdr_value h, rkhdr_value_size h))
            else header_get_loop fuel rl idx name (i + 1) (mi + 1)
          else header_get_loop fuel rl idx name (i + 1) mi
      end
  end.

Definition rd_kafka_header_get (hdrs : rd_kafka_headers) (idx : Z) (name : list Z)
  : outcome (option (option (list Z) * Z)) :=
  header_get_loop (list_fuel (rkhdrs_list hdrs)) (rkhdrs_list hdrs) idx name 0 0.

Definition rd_kafka_header_get_all (hdrs : rd_kafka_headers) (idx : Z)
  : outcome (option (list Z * option (list Z) * Z)) :=
  let! e := rd_list_elem (rkhdrs_list hdrs) (s32 idx) in
  Ret (h ← e; Some (rkhdr_name h, rkhdr_value h, rkhdr_value_size h)).

Definition rd_kafka_header_cnt (hdrs : rd_kafka_headers) : Z := u64 (rd_list_cnt (rkhdrs_list hdrs)).

(** ** Specification *)

(** A header as name and value. *)
Definition header : Type := list Z * option (list Z).

(** Wire format: varint-prefixed name and value, -1 for a null value. *)
Definition header_bytes (h : header) : list Z :=
  varint_bytes (zlen h.1) ++ h.1 ++
  match h.2 with
  | Some v => varint_bytes (zlen v) ++ v
  | None => varint_bytes (-1)
  end.

(** Sizes that fit the five-byte length fields. *)
Definition header_ok (h : header) : Prop :=
  zlen h.1 < 2 ^ 31 /\ match h.2 with Some v => zlen v < 2 ^ 31 | None => True end.

Definition header_mem (h : header) : rd_kafka_header :=
  mk_hdr (zlen (header_bytes h)) (match h.2 with Some v => zlen v | None => 0 end) (zlen h.1)
         (match h.2 with Some v => Some (v ++ [0]) | None => None end) (h.1 ++ [0]).

(** [hdrs] holds the headers [l]. *)
Definition headers_wf (hdrs : rd_kafka_headers) (l : list header) : Prop :=
  rl_wf (rkhdrs_list hdrs) (header_mem <$> l) /\ Forall header_ok l /\
  rkhdrs_ser_size hdrs = zlen (l ≫= header_bytes) /\
  rl_size (rkhdrs_list hdrs) <= 2 ^ 29.

Lemma header_add_spec hdrs l h :
  headers_wf hdrs l -> header_ok h -> zlen l < 2 ^ 27 ->
  exists hdrs', rd_kafka_header_add hdrs (h.1 ++ [0]) (zlen h.1)
      (match h.2 with Some v => Some (v ++ [0]) | None => None end)
      (match h.2 with Some v => zlen v | None => 0 end) = Ret (hdrs', RD_KAFKA_RESP_ERR_NO_ERROR) /\
    headers_wf hdrs' (l ++ [h]).
Proof.
  intros (W & Hok & Hs & Hsz) [H1 H2] Hl. unfold rd_kafka_header_add.
  destruct (Z.eqb_spec (zlen h.1) (-1)); [lia|].
  set (vs := match h.2 with Some v => zlen v | None => 0 end).
  assert (Hvs : 0 <= vs < 2 ^ 31) by (unfold vs; destruct h.2; lia).
  destruct (Z.eqb_spec vs (-1)); [lia|].
  assert (Ev : (match match h.2 with Some v => Some (v ++ [0]) | None => None end with
                | Some _ => vs | None => 0 end) = vs) by (unfold vs; by destruct h.2).
  rewrite !Ev. destruct (Z.ltb_spec (zlen h.1) 0); [lia|]. destruct (Z.ltb_spec vs 0); [lia|].
  cbn [orb]. change (RD_UVARINT_ENC_SIZEOF 4) with 5.
  pose proof (varint_bytes_short (zlen h.1) ltac:(lia)).
  pose proof (varint_bytes_short vs ltac:(lia)).
  rewrite !enc_i64_spec by (unfold s_ok; lia). cbn [obind].
  set (m := mk_hdr _ _ _ _ _).
  assert (Em : m = header_mem h).
  { unfold m, header_mem. fold vs. destruct h as [nm v]. simpl fst in *; simpl snd in *.
    assert (ztake (zlen nm) (nm ++ [0]) = nm) as -> by (unfold ztake; by rewrite Nat2Z.id, take_app_length).
    destruct v as [v|]; simpl in vs |- *.
    - assert (ztake vs (v ++ [0]) = v) as ->
        by (unfold vs, ztake; by rewrite Nat2Z.id, take_app_length).
      f_equal. unfold header_bytes. simpl. rewrite !length_app. fold vs. lia.
    - f_equal. unfold header_bytes. simpl. rewrite !length_app.
      change (length (varint_bytes (-1))) with 1%nat. change (length (varint_bytes vs)) with 1%nat. lia. }
  destruct (list_add_spec (rkhdrs_list hdrs) _ m W) as (rl' & -> & W' & _ & Hsz').
  { unfold INT_MAX. lia. }
  cbn [obind]. eexists. split; [done|]. rewrite length_fmap in Hsz'.
  split_and!; simpl.
  - rewrite fmap_app. simpl. by rewrite <- Em.
  - apply Forall_app. split; [done|]. by repeat constructor.
  - fold (rkhdr_ser_size m). assert (rkhdr_ser_size m = zlen (header_bytes h)) as Es by by rewrite Em.
    simpl in Es. rewrite bind_app, length_app. simpl. rewrite app_nil_r. lia.
  - lia.
Qed.

(** ** Lookup and removal *)

Lemma cstr_app_0 l : cstr (l ++ [0]) = cstr l.
Proof. induction l as [|b l IH]; simpl; [done|]. destruct (b =? 0); [done|]. by rewrite IH. Qed.

Lemma cstr_prefix l : exists r, l = cstr l ++ r.
Proof.
  induction l as [|b l [r IH]]; simpl; [by exists []|].
  destruct (b =? 0); [by exists (b :: l)|]. exists r. simpl. by rewrite <- IH.
Qed.

Lemma cstr_idem l : cstr (cstr l) = cstr l.
Proof. induction l as [|b l IH]; simpl; [done|]. destruct (b =? 0) eqn:E; [done|]. simpl. by rewrite E, IH. Qed.

(** A lookup matches the full name. *)
Lemma header_matches_spec name h :
  header_matches name (header_mem h) = bool_decide (h.1 = cstr name).
Proof.
  unfold header_matches, header_mem, strlen. simpl. rewrite cstr_app_0.
  destruct (cstr_prefix h.1) as [r Hr].
  destruct (Z.eqb_spec (zlen h.1) (zlen (cstr name))) as [E|E]; simpl.
  - destruct (decide (cstr h.1 = cstr name)) as [E2|E2].
    + rewrite !bool_decide_true; [done| |done].
      rewrite Hr, length_app, E2 in E. destruct r; [|simpl in E; lia].
      by rewrite app_nil_r in Hr; rewrite Hr.
    + rewrite !bool_decide_false; [done| |done]. intros E3. apply E2. by rewrite E3, cstr_idem.
  - rewrite bool_decide_false; [done|]. intros E3. by rewrite E3 in E.
Qed.

(** Removal compares C strings. *)
Definition removed_by (name : list Z) (h : header) : Prop := cstr h.1 = cstr name.
#[export] Instance removed_by_dec name h : Decision (removed_by name h).
Proof. unfold removed_by. apply _. Defined.

Lemma header_ser_pos h : 2 <= zlen (header_bytes h).
Proof.
  unfold header_bytes. rewrite !length_app. pose proof (varint_bytes_len (zlen h.1)).
  destruct h.2 as [v|]; rewrite ?length_app.
  - pose proof (varint_bytes_len (zlen v)). lia.
  - pose proof (varint_bytes_len (-1)). lia.
Qed.

(** The headers removed and the ones kept share out the bytes. *)
Lemma filter_bytes (P : header -> Prop) `{forall h, Decision (P h)} l :
  zlen (l ≫= header_bytes) =
  zlen (filter P l ≫= header_bytes) + zlen (filter (fun h => ~ P h) l ≫= header_bytes).
Proof.
  induction l as [|h l IH]; [done|]. destruct (decide (P h)).
  - rewrite (filter_cons_True P), (filter_cons_False (fun h => ~ P h)) by (done || naive_solver).
    csimpl. rewrite !length_app. lia.
  - rewrite (filter_cons_False P), (filter_cons_True (fun h => ~ P h)) by done.
    csimpl. rewrite !length_app. lia.
Qed.

Lemma header_remove_loop_spec name fuel rl l1 r i ser :
  rl_wf rl ((header_mem <$> l1) ++ r) -> i = zlen l1 - 1 -> (length l1 < fuel)%nat ->
  exists rl', header_remove_loop fuel rl name i ser =
      Ret (rl', ser + zlen (filter (removed_by name) l1 ≫= header_bytes)) /\
    rl_wf rl' ((header_mem <$> filter (fun h => ~ removed_by name h) l1) ++ r) /\
    rl_size rl' = rl_size rl.
Proof.
  revert rl l1 r i ser; induction fuel as [|fuel IH]; intros rl l1 r i ser W Hi Hf; [lia|].
  cbn [header_remove_loop]. rewrite Z.geb_leb.
  destruct l1 as [|h l1 _] using rev_ind.
  { simpl in *. destruct (Z.leb_spec 0 i); [lia|]. exists rl. by rewrite Z.add_0_r. }
  rewrite length_app in *. simpl length in *. destruct (Z.leb_spec 0 i); [|lia].
  rewrite fmap_app, <- app_assoc in W. cbn [fmap list_fmap app] in W.
  rewrite (list_elem_spec _ _ _ W) by lia. replace (Z.to_nat i) with (length l1) by lia.
  rewrite list_lookup_middle by (by rewrite length_fmap). cbn [obind].
  assert (E : rd_kafka_header_cmp_str (header_mem h) name = if decide (removed_by name h) then 0 else 1).
  { unfold rd_kafka_header_cmp_str, removed_by. simpl. rewrite cstr_app_0.
    by rewrite bool_decide_decide; destruct (decide _). }
  rewrite E, !filter_app. destruct (decide (removed_by name h)) as [Hh|Hh]; simpl negb; cbn iota.
  - destruct (list_remove_elem_spec rl _ i W) as (rl1 & -> & W1 & E1 & _).
    { rewrite length_app, length_fmap. simpl. lia. }
    cbn [obind]. replace (Z.to_nat i) with (length (header_mem <$> l1)) in W1
      by (rewrite length_fmap; lia). rewrite delete_middle in W1.
    destruct (IH rl1 l1 r (i - 1) (ser + rkhdr_ser_size (header_mem h)) W1 ltac:(lia) ltac:(lia))
      as (rl' & -> & W' & E2).
    exists rl'. rewrite (filter_cons_True (removed_by name)) by done.
    rewrite (filter_cons_False (fun h => ~ removed_by name h)) by naive_solver.
    rewrite !filter_nil, app_nil_r, bind_app, length_app. simpl. rewrite app_nil_r.
    split_and!; [do 2 f_equal; lia|done|congruence].
  - destruct (IH rl l1 (header_mem h :: r) (i - 1) ser W ltac:(lia) ltac:(lia)) as (rl' & -> & W' & E2).
    exists rl'. rewrite (filter_cons_False (removed_by name)) by done.
    rewrite (filter_cons_True (fun h => ~ removed_by name h)) by done.
    rewrite !filter_nil, app_nil_r, fmap_app, <- app_assoc. done.
Qed.

Lemma header_remove_spec hdrs l name :
  headers_wf hdrs l ->
  exists hdrs', rd_kafka_header_remove hdrs name =
      Ret (hdrs', if decide (Exists (removed_by name) l) then RD_KAFKA_RESP_ERR_NO_ERROR
                  else RD_KAFKA_RESP_ERR__NOENT) /\
    headers_wf hdrs' (filter (fun h => ~ removed_by name h) l).
Proof.
  intros (W & Hok & Hs & Hsz). unfold rd_kafka_header_remove.
  pose proof (rw_cnt _ _ W) as Hc. rewrite length_fmap in Hc.
  rewrite <- (app_nil_r (header_mem <$> l)) in W.
  destruct (header_remove_loop_spec name (list_fuel (rkhdrs_list hdrs)) _ l []
              (rl_cnt (rkhdrs_list hdrs) - 1) 0 W) as (rl' & -> & W' & E); [lia|unfold list_fuel; lia|].
  cbn [obind]. rewrite Z.add_0_l. rewrite app_nil_r in W'.
  pose proof (filter_bytes (removed_by name) l) as Hb.
  assert (Hok' : Forall header_ok (filter (fun h => ~ removed_by name h) l)).
  { apply Forall_forall. intros h [_ Hin]%list_elem_of_filter. by apply (proj1 (Forall_forall _ _) Hok). }
  destruct (decide (Exists (removed_by name) l)) as [Hex|Hnex].
  - apply Exists_exists in Hex as (h & Hin & Hh).
    destruct (list_elem_of_split _ _ (proj2 (list_elem_of_filter (removed_by name) l h) (conj Hh Hin)))
      as (f1 & f2 & Hf).
    pose proof (header_ser_pos h).
    destruct (Z.eqb_spec (zlen (filter (removed_by name) l ≫= header_bytes)) 0) as [E0|E0].
    { rewrite Hf, bind_app in E0. simpl in E0. rewrite !length_app in E0. lia. }
    eexists. split; [done|]. split_and!; simpl; try done; lia.
  - assert (filter (removed_by name) l = []) as E0.
    { destruct (filter (removed_by name) l) as [|h f] eqn:Ef; [done|]. exfalso. apply Hnex.
      assert (h ∈ filter (removed_by name) l) as [Hh Hin]%list_elem_of_filter
        by (rewrite Ef; apply elem_of_cons; by left).
      apply Exists_exists. eauto. }
    rewrite E0 in *. simpl in *. eexists. split; [done|]. split_and!; simpl; try done; lia.
Qed.

(** What a lookup stores through its pointers. *)
Definition header_result (h : header) : option (list Z) * Z :=
  (match h.2 with Some v => Some (v ++ [0]) | None => None end,
   match h.2 with Some v => zlen v | None => 0 end).

Definition named (name : list Z) (h : header) : Prop := h.1 = cstr name.
#[export] Instance named_dec name h : Decision (named name h).
Proof. unfold named. apply _. Defined.

Lemma header_matches_named name h :
  header_matches name (header_mem h) = bool_decide (named name h).
Proof. apply header_matches_spec. Qed.

Lemma header_get_last_loop_spec name fuel rl l1 r i :
  rl_wf rl ((header_mem <$> l1) ++ r) -> i = zlen l1 - 1 -> (length l1 < fuel)%nat ->
  header_get_last_loop fuel rl name i = Ret (header_result <$> last (filter (named name) l1)).
Proof.
  revert rl l1 r i; induction fuel as [|fuel IH]; intros rl l1 r i W Hi Hf; [lia|].
  cbn [header_get_last_loop]. rewrite Z.geb_leb.
  destruct l1 as [|h l1 _] using rev_ind.
  { simpl in *. destruct (Z.leb_spec 0 i); [lia|]. done. }
  rewrite length_app in *. simpl length in *. destruct (Z.leb_spec 0 i); [|lia].
  rewrite fmap_app, <- app_assoc in W. cbn [fmap list_fmap app] in W.
  rewrite (list_elem_spec _ _ _ W) by lia. replace (Z.to_nat i) with (length l1) by lia.
  rewrite list_lookup_middle by (by rewrite length_fmap). cbn [obind].
  rewrite header_matches_named, filter_app. case_bool_decide as Hn.
  - rewrite filter_cons_True, filter_nil, last_snoc by done. done.
  - rewrite filter_cons_False, filter_nil, app_nil_r by done.
    by apply (IH rl l1 (header_mem h :: r)); [|lia..].
Qed.

Lemma header_get_loop_spec name idx fuel rl r l1 i mi :
  rl_wf rl (r ++ (header_mem <$> l1)) -> i = zlen r -> (length l1 < fuel)%nat -> mi <= idx ->
  header_get_loop fuel rl idx name i mi =
    Ret (header_result <$> filter (named name) l1 !! Z.to_nat (idx - mi)).
Proof.
  revert rl r l1 i mi; induction fuel as [|fuel IH]; intros rl r l1 i mi W Hi Hf Hm; [lia|].
  cbn [header_get_loop]. rewrite (list_elem_spec _ _ _ W) by lia.
  replace (Z.to_nat i) with (length r) by lia.
  destruct l1 as [|h l1].
  { rewrite fmap_nil, app_nil_r, lookup_ge_None_2 by lia. done. }
  rewrite fmap_cons, list_lookup_middle by done. cbn [obind]. simpl length in Hf.
  assert (W' : rl_wf rl ((r ++ [header_mem h]) ++ (header_mem <$> l1))) by by rewrite <- app_assoc.
  assert (Hi' : i + 1 = zlen (r ++ [header_mem h])) by (rewrite length_app; simpl; lia).
  rewrite header_matches_named. case_bool_decide as Hn.
  - rewrite filter_cons_True by done. destruct (Z.eqb_spec mi idx) as [->|].
    + by rewrite Z.sub_diag.
    + rewrite (IH rl _ l1 (i + 1) (mi + 1) W' Hi') by lia.
      replace (Z.to_nat (idx - mi)) with (S (Z.to_nat (idx - (mi + 1)))) by lia. done.
  - rewrite filter_cons_False by done. by apply (IH rl _ l1 _ _ W' Hi'); lia.
Qed.

Lemma headers_copy_loop_spec src l fuel dst l0 i :
  rl_wf src (header_mem <$> l) -> headers_wf dst l0 -> Forall header_ok l ->
  0 <= i <= zlen l -> zlen l - i < Z.of_nat fuel -> zlen l0 + (zlen l - i) < 2 ^ 27 ->
  exists dst', headers_copy_loop fuel dst src i = Ret dst' /\ headers_wf dst' (l0 ++ zdrop i l).
Proof.
  intros Ws. revert dst l0 i; induction fuel as [|fuel IH]; intros dst l0 i W Hok Hi Hf Hl; [lia|].
  cbn [headers_copy_loop]. rewrite (list_elem_spec _ _ i Ws), list_lookup_fmap by lia. unfold zdrop.
  destruct (l !! Z.to_nat i) as [h|] eqn:E; cbn [obind fmap option_fmap option_map].
  2:{ rewrite drop_ge by by apply lookup_ge_None. exists dst. by rewrite app_nil_r. }
  rewrite (drop_S _ _ _ E). apply lookup_lt_Some in E as Hlt.
  replace (S (Z.to_nat i)) with (Z.to_nat (i + 1)) by lia.
  assert (Hh : header_ok h) by (apply (Forall_lookup_1 _ _ _ _ Hok E)).
  destruct (header_add_spec dst l0 h W Hh ltac:(lia)) as (dst1 & Ha & W1).
  change (rd_kafka_header_add dst (rkhdr_name (header_mem h)) (rkhdr_name_size (header_mem h))
            (rkhdr_value (header_mem h)) (rkhdr_value_size (header_mem h)) = Ret (dst1, 0)) in Ha.
  rewrite Ha. cbn [obind]. rewrite cons_middle, app_assoc.
  apply IH; rewrite ?length_app; simpl length; done || lia.
Qed.

Lemma headers_new_spec n :
  0 <= n <= 2 ^ 29 -> exists hdrs, rd_kafka_headers_new n = Ret hdrs /\ headers_wf hdrs [].
Proof.
  intros Hn. unfold rd_kafka_headers_new. rewrite swrap_id by (unfold s_ok; lia).
  destruct (list_init_spec (A := rd_kafka_header) n true) as (rl & -> & W & Hs & _);
    [unfold INT_MAX; lia|].
  eexists. split; [done|]. split_and!; simpl; [done|constructor|done|lia].
Qed.

(** ** Sequences of operations *)

Inductive header_op : Type :=
| HAdd (h : header)
| HRemove (name : list Z).

Definition header_step (o : header_op) (l : list header) : list header :=
  match o with
  | HAdd h => l ++ [h]
  | HRemove name => filter (fun h => ~ removed_by name h) l
  end.

Definition header_op_ok (o : header_op) : Prop :=
  match o with HAdd h => header_ok h | HRemove _ => True end.

Definition run_header_op (o : header_op) (hdrs : rd_kafka_headers) : outcome rd_kafka_headers :=
  match o with
  | HAdd h =>
      let! (hdrs, _) := rd_kafka_header_add hdrs (h.1 ++ [0]) (zlen h.1)
        (match h.2 with Some v => Some (v ++ [0]) | None => None end)
        (match h.2 with Some v => zlen v | None => 0 end) in
      Ret hdrs
  | HRemove name => let! (hdrs, _) := rd_kafka_header_remove hdrs name in Ret hdrs
  end.

Definition run_header_ops (ops : list header_op) (hdrs : rd_kafka_headers) : outcome rd_kafka_headers :=
  foldl (fun m o => let! hdrs := m in run_header_op o hdrs) (Ret hdrs) ops.

Lemma run_header_ops_spec ops hdrs l :
  headers_wf hdrs l -> Forall header_op_ok ops -> zlen l + zlen ops < 2 ^ 27 ->
  exists hdrs', run_header_ops ops hdrs = Ret hdrs' /\
    headers_wf hdrs' (foldl (fun l o => header_step o l) l ops).
Proof.
  unfold run_header_ops.
  revert hdrs l; induction ops as [|o ops IH]; intros hdrs l W Hok Hl; [by exists hdrs|].
  apply Forall_cons in Hok as [Ho Hok]. simpl length in Hl. cbn [foldl obind].
  destruct o as [h|name]; simpl run_header_op; simpl header_step.
  - destruct (header_add_spec hdrs l h W Ho ltac:(lia)) as (h1 & -> & W1). cbn [obind].
    apply IH; [done|done|]. rewrite length_app. simpl. lia.
  - destruct (header_remove_spec hdrs l name W) as (h1 & -> & W1). cbn [obind].
    apply IH; [done|done|]. pose proof (length_filter (fun h => ~ removed_by name h) l). lia.
Qed.

(** ** Properties *)

(** Starting from an empty header list, any sequence of additions and
    removals returns and keeps exactly the headers added and not removed, in
    order: lookups by name return the last match, the [idx]-th match and the
    [idx]-th header; the cached serialised size is exactly the number of bytes
    of the wire format (what the message writer relies on); a removal reports
    NOENT exactly when nothing matches; a copy holds the same headers. *)
Theorem headers_refine (ops : list header_op) (name : list Z) (idx : Z)
    (Hok : Forall header_op_ok ops) (Hn : zlen ops < 2 ^ 26) (Hi : 0 <= idx < 2 ^ 31) :
  let l := foldl (fun l o => header_step o l) [] ops in
  exists hdrs0 hdrs, rd_kafka_headers_new 8 = Ret hdrs0 /\ run_header_ops ops hdrs0 = Ret hdrs /\
    rd_kafka_header_get_last hdrs name = Ret (header_result <$> last (filter (named name) l)) /\
    rd_kafka_header_get hdrs idx name = Ret (header_result <$> filter (named name) l !! Z.to_nat idx) /\
    rd_kafka_header_get_all hdrs idx =
      Ret ((fun h => (h.1 ++ [0], (header_result h).1, (header_result h).2)) <$> l !! Z.to_nat idx) /\
    rd_kafka_headers_serialized_size hdrs = zlen (l ≫= header_bytes) /\
    (exists hdrs', rd_kafka_header_remove hdrs name =
       Ret (hdrs', if decide (Exists (removed_by name) l) then 0 else RD_KAFKA_RESP_ERR__NOENT)) /\
    (exists copy, rd_kafka_headers_copy hdrs = Ret copy /\ headers_wf copy l).
Proof.
  intros l. destruct (headers_new_spec 8 ltac:(lia)) as (h0 & Hh0 & W0).
  destruct (run_header_ops_spec ops h0 [] W0 Hok ltac:(simpl; lia)) as (hdrs & Hr & W).
  fold l in W. pose proof W as (Wl & Hlok & Hs & Hsz).
  pose proof (rw_cnt _ _ Wl) as Hc. rewrite length_fmap in Hc.
  assert (Hlen : zlen l <= zlen ops).
  { enough (G : forall a, (length (foldl (fun l o => header_step o l) a ops)
                         <= length a + length ops)%nat) by (specialize (G []); fold l in G; simpl length in G; lia).
    clear. induction ops as [|o ops IH]; intros a; simpl; [lia|]. specialize (IH (header_step o a)).
    assert ((length (header_step o a) <= length a + 1)%nat); [|lia].
    destruct o as [h|nm]; [simpl; rewrite length_app; simpl; lia|].
    pose proof (length_filter (fun h => ~ removed_by nm h) a). simpl header_step. lia. }
  exists h0, hdrs. split; [done|]. split; [done|]. split_and!.
  - eapply (header_get_last_loop_spec name _ _ l []); [by rewrite app_nil_r|lia|unfold list_fuel; lia].
  - unfold rd_kafka_header_get. rewrite (header_get_loop_spec name idx _ _ [] l 0 0);
      [by rewrite Z.sub_0_r|done|done|unfold list_fuel; lia|lia].
  - unfold rd_kafka_header_get_all. rewrite swrap_id by (unfold s_ok; lia).
    rewrite (list_elem_spec _ _ idx Wl), list_lookup_fmap by lia. cbn [obind].
    by destruct (l !! Z.to_nat idx).
  - done.
  - destruct (header_remove_spec hdrs l name W) as (h' & Hrm & _). by exists h'.
  - unfold rd_kafka_headers_copy, rd_list_cnt. rewrite Hc.
    destruct (list_init_spec (A := rd_kafka_header) (zlen l) true) as (rl & -> & Wd & Hsd & _);
      [unfold INT_MAX; lia|]. cbn [obind].
    destruct (headers_copy_loop_spec (rkhdrs_list hdrs) l (list_fuel (rkhdrs_list hdrs))
                (mk_hdrs rl 0) [] 0 Wl) as (dst & Hd & Wd'); try lia; try done.
    + split_and!; simpl; [done|constructor|done|lia].
    + unfold list_fuel. lia.
    + simpl. lia.
    + exists dst. done.
Qed.

Lemma headers_refine_witness :
  exists hdrs0 hdrs, rd_kafka_headers_new 8 = Ret hdrs0 /\
    run_header_ops [HAdd ([97], Some [1]); HAdd ([98], None); HAdd ([97], Some [2; 3])] hdrs0 = Ret hdrs /\
    rd_kafka_header_get_last hdrs [97] = Ret (Some (Some [2; 3; 0], 2)) /\
    rd_kafka_headers_serialized_size hdrs = 12.
Proof.
  destruct (headers_refine [HAdd ([97], Some [1]); HAdd ([98], None); HAdd ([97], Some [2; 3])] [97] 0)
    as (h0 & h & H0 & H1 & H2 & _ & _ & H3 & _).
  - repeat constructor; simpl; lia.
  - simpl. lia.
  - lia.
  - exists h0, h. split; [exact H0|]. split; [exact H1|]. rewrite H2, H3.
    split; vm_compute; reflexivity.
Defined.
