(* ===== verification/Msg.v ===== *)
(** * Messages and message queues: rdkafka_msg.h, and the queue operations of
    rdkafka_msg.c and rdkafka_partition.c

    A message carries the fields of [rd_kafka_msg_t] that the modelled code
    uses; [rkm_ptr] is its address, by which [TAILQ_REMOVE] finds it.  A queue
    keeps its messages with a message and a byte counter. *)
From Stdlib Require Import ZArith Lia.
From stdpp Require Import base numbers list.
From S2P Require Import Prelude Varint RdList Proto Header.

(** ** Data *)

Inductive rd_kafka_timestamp_type : Type :=
| RD_KAFKA_TIMESTAMP_NOT_AVAILABLE
| RD_KAFKA_TIMESTAMP_CREATE_TIME
| RD_KAFKA_TIMESTAMP_LOG_APPEND_TIME.

Record rd_kafka_msg : Type := mk_rkm {
  rkm_ptr : Z;
  rkm_len : Z;
  rkm_payload : option (list Z);
  rkm_partition : Z;
  rkm_offset : Z;
  rkm_key : option (list Z);
  rkm_key_len : Z;
  rkm_err : Z;
  rkm_flags : Z;
  rkm_timestamp : Z;
  rkm_tstype : rd_kafka_timestamp_type;
  rkm_headers : option rd_kafka_headers;
  rkm_ts_timeout : Z;
  rkm_ts_enq : Z;
  rkm_ts_backoff : Z;
  rkm_msgseq : Z;
  rkm_retries : Z;
  rkm_binhdrs : rd_kafkap_bytes }.

Definition RD_KAFKA_PARTITION_UA : Z := -1.
Definition RD_KAFKA_OFFSET_INVALID : Z := -1001.

Definition RD_KAFKA_MSG_ATTR_COMPRESSION_MASK : Z := 0x3.
Definition RD_KAFKA_MSG_ATTR_CREATE_TIME : Z := 0.
Definition RD_KAFKA_MSG_ATTR_LOG_APPEND_TIME : Z := 8.
Definition RD_KAFKA_MSGSET_V2_ATTR_CONTROL : Z := 32.
Definition RD_KAFKA_MSG_F_PRODUCER : Z := 0x40000.

(** Field updates. *)
Definition set_retry (backoff retries : Z) (m : rd_kafka_msg) : rd_kafka_msg :=
  mk_rkm (rkm_ptr m) (rkm_len m) (rkm_payload m) (rkm_partition m) (rkm_offset m) (rkm_key m)
    (rkm_key_len m) (rkm_err m) (rkm_flags m) (rkm_timestamp m) (rkm_tstype m) (rkm_headers m)
    (rkm_ts_timeout m) (rkm_ts_enq m) backoff (rkm_msgseq m) retries (rkm_binhdrs m).
Definition set_msgseq (seq : Z) (m : rd_kafka_msg) : rd_kafka_msg :=
  mk_rkm (rkm_ptr m) (rkm_len m) (rkm_payload m) (rkm_partition m) (rkm_offset m) (rkm_key m)
    (rkm_key_len m) (rkm_err m) (rkm_flags m) (rkm_timestamp m) (rkm_tstype m) (rkm_headers m)
    (rkm_ts_timeout m) (rkm_ts_enq m) (rkm_ts_backoff m) seq (rkm_retries m) (rkm_binhdrs m).

(** ** Code of rdkafka_msg.h *)

Definition rd_kafka_msg_wire_size (rkm : rd_kafka_msg) (MsgVersion : Z) : Z :=
  let overhead := if MsgVersion =? 0 then RD_KAFKAP_MESSAGE_V0_OVERHEAD
                  else if MsgVersion =? 1 then RD_KAFKAP_MESSAGE_V1_OVERHEAD
                  else RD_KAFKAP_MESSAGE_V2_OVERHEAD in
  let size := overhead + rkm_len rkm + rkm_key_len rkm in
  match rkm_headers rkm with
  | Some hdrs => if MsgVersion =? 2 then size + rd_kafka_headers_serialized_size hdrs else size
  | None => size
  end.

Record rd_kafka_msgq : Type := mk_msgq {
  rkmq_msgs : list rd_kafka_msg;
  rkmq_msg_cnt : Z;
  rkmq_msg_bytes : Z }.

Definition rd_kafka_msgq_init : rd_kafka_msgq := mk_msgq [] 0 0.
Definition rd_kafka_msgq_len (q : rd_kafka_msgq) : Z := rkmq_msg_cnt q.
Definition rd_kafka_msgq_size (q : rd_kafka_msgq) : Z := rkmq_msg_bytes q.

(** Bytes a message counts for. *)
Definition msg_size (m : rd_kafka_msg) : Z := rkm_len m + rkm_key_len m.

(** The new [dst] and [src]. *)
Definition rd_kafka_msgq_concat (dst src : rd_kafka_msgq) : rd_kafka_msgq * rd_kafka_msgq :=
  (mk_msgq (rkmq_msgs dst ++ rkmq_msgs src) (rkmq_msg_cnt dst + rkmq_msg_cnt src)
           (rkmq_msg_bytes dst + rkmq_msg_bytes src), rd_kafka_msgq_init).

Definition rd_kafka_msgq_move (dst src : rd_kafka_msgq) : rd_kafka_msgq * rd_kafka_msgq :=
  (mk_msgq (rkmq_msgs src) (rkmq_msg_cnt src) (rkmq_msg_bytes src), rd_kafka_msgq_init).

(** The queue and the messages destroyed. *)
Definition rd_kafka_msgq_purge (q : rd_kafka_msgq) : rd_kafka_msgq * list rd_kafka_msg :=
  (rd_kafka_msgq_init, rkmq_msgs q).

Fixpoint tailq_remove (l : list rd_kafka_msg) (m : rd_kafka_msg) : list rd_kafka_msg :=
  match l with
  | [] => []
  | x :: l => if rkm_ptr x =? rkm_ptr m then l else x :: tailq_remove l m
  end.

Definition rd_kafka_msgq_deq (q : rd_kafka_msgq) (m : rd_kafka_msg) (do_count : bool)
  : outcome rd_kafka_msgq :=
  if do_count then
    assert! (rkmq_msg_cnt q >? 0) in
    assert! (rkmq_msg_bytes q >=? rkm_len m + rkm_key_len m) in
    Ret (mk_msgq (tailq_remove (rkmq_msgs q) m) (rkmq_msg_cnt q - 1)
                 (rkmq_msg_bytes q - (rkm_len m + rkm_key_len m)))
  else Ret (mk_msgq (tailq_remove (rkmq_msgs q) m) (rkmq_msg_cnt q) (rkmq_msg_bytes q)).

Definition rd_kafka_msgq_pop (q : rd_kafka_msgq) : outcome (rd_kafka_msgq * option rd_kafka_msg) :=
  match rkmq_msgs q with
  | [] => Ret (q, None)
  | m :: _ => let! q := rd_kafka_msgq_deq q m true in Ret (q, Some m)
  end.

Definition rd_kafka_msg_cmp_msgseq (a b : rd_kafka_msg) : Z :=
  if rkm_msgseq a >? rkm_msgseq b then 1
  else if rkm_msgseq a <? rkm_msgseq b then -1 else 0.

Definition rd_kafka_msg_cmp_msgseq_lifo (a b : rd_kafka_msg) : Z :=
  if rkm_msgseq a <? rkm_msgseq b then 1
  else if rkm_msgseq a >? rkm_msgseq b then -1 else 0.

Definition rd_kafka_msgq_insert (q : rd_kafka_msgq) (m : rd_kafka_msg) : rd_kafka_msgq :=
  mk_msgq (m :: rkmq_msgs q) (rkmq_msg_cnt q + 1) (rkmq_msg_bytes q + (rkm_len m + rkm_key_len m)).

(** The queue and its new length. *)
Definition rd_kafka_msgq_enq (q : rd_kafka_msgq) (m : rd_kafka_msg) : rd_kafka_msgq * Z :=
  (mk_msgq (rkmq_msgs q ++ [m]) (rkmq_msg_cnt q + 1)
           (rkmq_msg_bytes q + (rkm_len m + rkm_key_len m)), rkmq_msg_cnt q + 1).

(** ** Code of rdkafka_msg.c *)

(** The [TAILQ_FOREACH_SAFE] loop over the messages [l] of [q]. *)
Fixpoint age_scan_loop (l : list rd_kafka_msg) (q timedout : rd_kafka_msgq) (now : Z)
  : outcome (rd_kafka_msgq * rd_kafka_msgq) :=
  match l with
  | [] => Ret (q, timedout)
  | m :: l =>
      if rkm_ts_timeout m >? now then Ret (q, timedout)
      else
        let! q := rd_kafka_msgq_deq q m true in
        age_scan_loop l q (rd_kafka_msgq_enq timedout m).1 now
  end.

Definition rd_kafka_msgq_age_scan (q timedout : rd_kafka_msgq) (now : Z)
  : outcome (rd_kafka_msgq * rd_kafka_msgq * Z) :=
  let cnt := rkmq_msg_cnt timedout in
  let! (q, timedout) := age_scan_loop (rkmq_msgs q) q timedout now in
  Ret (q, timedout, rkmq_msg_cnt timedout - cnt).

(** [TAILQ_INSERT_SORTED] *)
Fixpoint tailq_insert_sorted {A} (cmp : A -> A -> Z) (l : list A) (m : A) : list A :=
  match l with
  | [] => [m]
  | x :: l' => if cmp m x <? 0 then m :: l else x :: tailq_insert_sorted cmp l' m
  end.

Definition rd_kafka_msgq_enq_sorted0 (q : rd_kafka_msgq) (m : rd_kafka_msg)
    (order_cmp : rd_kafka_msg -> rd_kafka_msg -> Z) : rd_kafka_msgq * Z :=
  (mk_msgq (tailq_insert_sorted order_cmp (rkmq_msgs q) m) (rkmq_msg_cnt q + 1)
           (rkmq_msg_bytes q + (rkm_len m + rkm_key_len m)), rkmq_msg_cnt q + 1).

Definition rd_kafka_msgq_enq_sorted (msg_order_cmp : rd_kafka_msg -> rd_kafka_msg -> Z)
    (q : rd_kafka_msgq) (m : rd_kafka_msg) : rd_kafka_msgq * Z :=
  rd_kafka_msgq_enq_sorted0 q m msg_order_cmp.

(** The position of the element after which to insert, if any. *)
Fixpoint find_pos_loop (l : list rd_kafka_msg) (m : rd_kafka_msg)
    (cmp : rd_kafka_msg -> rd_kafka_msg -> Z) (i : nat) (last : option nat) : option nat :=
  match l with
  | [] => last
  | x :: l => if cmp m x <? 0 then last else find_pos_loop l m cmp (S i) (Some i)
  end.

Definition rd_kafka_msgq_find_pos (q : rd_kafka_msgq) (m : rd_kafka_msg)
    (cmp : rd_kafka_msg -> rd_kafka_msg -> Z) : option nat :=
  find_pos_loop (rkmq_msgs q) m cmp 0 None.

(** ** Code of rdkafka_partition.c *)

(** The new [destq] and [srcq]. *)
Definition rd_kafka_msgq_insert_msgq (destq srcq : rd_kafka_msgq)
    (cmp : rd_kafka_msg -> rd_kafka_msg -> Z) : outcome (rd_kafka_msgq * rd_kafka_msgq) :=
  match rkmq_msgs srcq, rkmq_msgs destq with
  | [], _ => Ret (destq, srcq)
  | _, [] => Ret (rd_kafka_msgq_move destq srcq)
  | first :: _, dest_first :: _ =>
      if cmp first dest_first <? 0 then
        let '(srcq, destq) := rd_kafka_msgq_concat srcq destq in
        Ret (rd_kafka_msgq_move destq srcq)
      else if cmp first (default dest_first (last (rkmq_msgs destq))) >? 0 then
        Ret (rd_kafka_msgq_concat destq srcq)
      else
        match rd_kafka_msgq_find_pos destq first cmp with
        | None => Crash
        | Some i =>
            Ret (mk_msgq (take (S i) (rkmq_msgs destq) ++ rkmq_msgs srcq ++ drop (S i) (rkmq_msgs destq))
                         (rkmq_msg_cnt destq + rkmq_msg_cnt srcq)
                         (rkmq_msg_bytes destq + rkmq_msg_bytes srcq),
                 rd_kafka_msgq_init)
        end
  end.

Fixpoint retry_loop (l : list rd_kafka_msg) (srcq retryable : rd_kafka_msgq)
    (incr_retry max_retries backoff : Z) : outcome (rd_kafka_msgq * rd_kafka_msgq) :=
  match l with
  | [] => Ret (srcq, retryable)
  | m :: l =>
      if rkm_retries m + incr_retry >? max_retries
      then retry_loop l srcq retryable incr_retry max_retries backoff
      else
        let! srcq := rd_kafka_msgq_deq srcq m true in
        let m := set_retry backoff (rkm_retries m + incr_retry) m in
        retry_loop l srcq (rd_kafka_msgq_enq retryable m).1 incr_retry max_retries backoff
  end.

(** The new [destq] and [srcq] and the value returned. *)
Definition rd_kafka_retry_msgq (destq srcq : rd_kafka_msgq) (incr_retry max_retries backoff : Z)
    (cmp : rd_kafka_msg -> rd_kafka_msg -> Z) : outcome (rd_kafka_msgq * rd_kafka_msgq * Z) :=
  let! (srcq, retryable) := retry_loop (rkmq_msgs srcq) srcq rd_kafka_msgq_init
                              incr_retry max_retries backoff in
  match rkmq_msgs retryable with
  | [] => Ret (destq, srcq, 0)
  | _ => let! (destq, _) := rd_kafka_msgq_insert_msgq destq retryable cmp in Ret (destq, srcq, 1)
  end.

(** The part of a partition that orders messages. *)
Inductive queuing_strategy : Type := RD_KAFKA_QUEUE_FIFO | RD_KAFKA_QUEUE_LIFO.

Record rd_kafka_toppar : Type := mk_rktp {
  rktp_partition : Z;
  rktp_msgseq : Z;
  rktp_msgq : rd_kafka_msgq;
  rktp_xmit_msgq : rd_kafka_msgq;
  rkt_queuing_strategy : queuing_strategy }.

(** [rd_kafka_topic_new0] derives the order from the strategy. *)
Definition rkt_msg_order_cmp (s : queuing_strategy) : rd_kafka_msg -> rd_kafka_msg -> Z :=
  match s with
  | RD_KAFKA_QUEUE_FIFO => rd_kafka_msg_cmp_msgseq
  | RD_KAFKA_QUEUE_LIFO => rd_kafka_msg_cmp_msgseq_lifo
  end.

Definition set_msgqs (seq : Z) (q xq : rd_kafka_msgq) (rktp : rd_kafka_toppar) : rd_kafka_toppar :=
  mk_rktp (rktp_partition rktp) seq q xq (rkt_queuing_strategy rktp).

(** The wake-up of the broker thread is left out. *)
Definition rd_kafka_toppar_enq_msg (rktp : rd_kafka_toppar) (rkm : rd_kafka_msg) : rd_kafka_toppar :=
  let '(seq, rkm) :=
    if (rkm_msgseq rkm =? 0) && negb (rktp_partition rktp =? RD_KAFKA_PARTITION_UA)
    then (rktp_msgseq rktp + 1, set_msgseq (rktp_msgseq rktp + 1) rkm)
    else (rktp_msgseq rktp, rkm) in
  let q := match rkt_queuing_strategy rktp with
           | RD_KAFKA_QUEUE_FIFO => (rd_kafka_msgq_enq (rktp_msgq rktp) rkm).1
           | RD_KAFKA_QUEUE_LIFO =>
               if rktp_partition rktp =? RD_KAFKA_PARTITION_UA
               then (rd_kafka_msgq_enq (rktp_msgq rktp) rkm).1
               else (rd_kafka_msgq_enq_sorted (rkt_msg_order_cmp RD_KAFKA_QUEUE_LIFO)
                       (rktp_msgq rktp) rkm).1
           end in
  set_msgqs seq q (rktp_xmit_msgq rktp) rktp.

Definition rd_kafka_toppar_deq_msg (rktp : rd_kafka_toppar) (rkm : rd_kafka_msg)
  : outcome rd_kafka_toppar :=
  let! q := rd_kafka_msgq_deq (rktp_msgq rktp) rkm true in
  Ret (set_msgqs (rktp_msgseq rktp) q (rktp_xmit_msgq rktp) rktp).

(** [now] is [rd_clock ()]; [terminating] the state of the client instance. *)
Definition rd_kafka_toppar_retry_msgq (terminating : bool) (now retry_backoff_ms max_retries : Z)
    (rktp : rd_kafka_toppar) (rkmq : rd_kafka_msgq) (incr_retry : Z)
  : outcome (rd_kafka_toppar * rd_kafka_msgq * Z) :=
  let backoff := now + retry_backoff_ms * 1000 in
  if terminating then Ret (rktp, rkmq, 1)
  else
    let! (q, rkmq, r) := rd_kafka_retry_msgq (rktp_msgq rktp) rkmq incr_retry max_retries backoff
                           (rkt_msg_order_cmp (rkt_queuing_strategy rktp)) in
    Ret (set_msgqs (rktp_msgseq rktp) q (rktp_xmit_msgq rktp) rktp, rkmq, r).

Definition rd_kafka_toppar_insert_msgq (rktp : rd_kafka_toppar) (rkmq : rd_kafka_msgq)
  : outcome (rd_kafka_toppar * rd_kafka_msgq) :=
  let! (q, rkmq) := rd_kafka_msgq_insert_msgq (rktp_msgq rktp) rkmq
                      (rkt_msg_order_cmp (rkt_queuing_strategy rktp)) in
  Ret (set_msgqs (rktp_msgseq rktp) q (rktp_xmit_msgq rktp) rktp, rkmq).
