(* ===== verification/MsgqSpec.v ===== *)
(** * Message queues: counters, conservation and order

    The queues a produced message moves through (partition queue, broker-local
    transmit queue, queue of the request in flight) as one state machine. *)
From Stdlib Require Import ZArith Lia Sorted.
From stdpp Require Import base numbers list.
From S2P Require Import Prelude Varint RdList Proto Header Msg.

(** ** Invariant of one queue *)

Definition msgs_size (l : list rd_kafka_msg) : Z := foldr (fun m s => msg_size m + s) 0 l.

Abbreviation ptrs l := (rkm_ptr <$> l).

(** Both counters are exact; sizes are not negative. *)
Definition msgq_ok (q : rd_kafka_msgq) : Prop :=
  rkmq_msg_cnt q = zlen (rkmq_msgs q) /\ rkmq_msg_bytes q = msgs_size (rkmq_msgs q) /\
  Forall (fun m => 0 <= msg_size m) (rkmq_msgs q).

Lemma msgs_size_app l1 l2 : msgs_size (l1 ++ l2) = msgs_size l1 + msgs_size l2.
Proof. induction l1 as [|m l IH]; simpl; lia. Qed.

Lemma msgs_size_nonneg l : Forall (fun m => 0 <= msg_size m) l -> 0 <= msgs_size l.
Proof. induction 1; simpl; lia. Qed.

Lemma msgq_init_ok : msgq_ok rd_kafka_msgq_init.
Proof. by split_and!. Qed.

Lemma msgq_ok_intro l c b :
  c = zlen l -> b = msgs_size l -> Forall (fun m => 0 <= msg_size m) l -> msgq_ok (mk_msgq l c b).
Proof. by intros. Qed.

Lemma msgq_enq_ok q m : msgq_ok q -> 0 <= msg_size m -> msgq_ok (rd_kafka_msgq_enq q m).1.
Proof.
  intros (Hc & Hb & Hf) Hm. apply msgq_ok_intro.
  - rewrite length_app. simpl. lia.
  - rewrite msgs_size_app. simpl. unfold msg_size. lia.
  - apply Forall_app. split; [done|]. by repeat constructor.
Qed.

Lemma tailq_insert_sorted_perm {A} (cmp : A -> A -> Z) l m : Permutation (tailq_insert_sorted cmp l m) (m :: l).
Proof.
  induction l as [|x l IH]; simpl; [done|]. destruct (cmp m x <? 0); [done|].
  rewrite IH. constructor.
Qed.

Lemma msgs_size_perm l1 l2 : Permutation l1 l2 -> msgs_size l1 = msgs_size l2.
Proof. induction 1; simpl; lia. Qed.

(** The messages of a queue may be permuted. *)
Lemma msgq_ok_perm l l' c b : Permutation l l' -> msgq_ok (mk_msgq l' c b) -> msgq_ok (mk_msgq l c b).
Proof.
  intros Hp (Hc & Hb & Hf). simpl in *. apply msgq_ok_intro; simpl.
  - by rewrite (Permutation_length Hp).
  - by rewrite (msgs_size_perm _ _ Hp).
  - by rewrite Hp.
Qed.

Lemma msgq_enq_sorted_ok cmp q m :
  msgq_ok q -> 0 <= msg_size m -> msgq_ok (rd_kafka_msgq_enq_sorted cmp q m).1.
Proof.
  intros Hq Hm. eapply msgq_ok_perm; [|apply (msgq_enq_ok q m Hq Hm)].
  rewrite tailq_insert_sorted_perm. by rewrite <- Permutation_cons_append.
Qed.

Lemma msgq_concat_ok dst src :
  msgq_ok dst -> msgq_ok src -> msgq_ok (rd_kafka_msgq_concat dst src).1.
Proof.
  intros (Hc & Hb & Hf) (Hc' & Hb' & Hf'). apply msgq_ok_intro.
  - rewrite length_app. lia.
  - rewrite msgs_size_app. lia.
  - by apply Forall_app.
Qed.

Lemma tailq_remove_middle l1 m l2 :
  ~ rkm_ptr m ∈ ptrs l1 -> tailq_remove (l1 ++ m :: l2) m = l1 ++ l2.
Proof.
  induction l1 as [|x l1 IH]; simpl; intros Hn; [by rewrite Z.eqb_refl|].
  apply not_elem_of_cons in Hn as [Hx Hn]. destruct (Z.eqb_spec (rkm_ptr x) (rkm_ptr m)); [congruence|].
  by rewrite IH.
Qed.

(** Dequeuing a message that is in the queue never fails an assertion. *)
Lemma msgq_deq_spec q l1 m l2 :
  msgq_ok q -> rkmq_msgs q = l1 ++ m :: l2 -> ~ rkm_ptr m ∈ ptrs l1 ->
  exists q', rd_kafka_msgq_deq q m true = Ret q' /\ rkmq_msgs q' = l1 ++ l2 /\ msgq_ok q'.
Proof.
  intros (Hc & Hb & Hf) Hq Hn. unfold rd_kafka_msgq_deq. rewrite Hq in *.
  apply Forall_app in Hf as [Hf1 Hf2]. apply Forall_cons in Hf2 as [Hm Hf2].
  rewrite msgs_size_app in Hb. simpl in Hb. rewrite length_app in Hc. simpl in Hc.
  pose proof (msgs_size_nonneg _ Hf1). pose proof (msgs_size_nonneg _ Hf2). unfold msg_size in *.
  rewrite Z.gtb_ltb, Z.geb_leb. destruct (Z.ltb_spec 0 (rkmq_msg_cnt q)); [|lia].
  destruct (Z.leb_spec (rkm_len m + rkm_key_len m) (rkmq_msg_bytes q)); [|lia].
  eexists. split; [done|]. rewrite tailq_remove_middle by done. split; [done|].
  apply msgq_ok_intro; [rewrite length_app; lia|rewrite msgs_size_app; lia|by apply Forall_app].
Qed.

Lemma msgq_pop_spec q m l :
  msgq_ok q -> rkmq_msgs q = m :: l ->
  exists q', rd_kafka_msgq_pop q = Ret (q', Some m) /\ rkmq_msgs q' = l /\ msgq_ok q'.
Proof.
  intros Hq Hm. unfold rd_kafka_msgq_pop. rewrite Hm.
  destruct (msgq_deq_spec q [] m l Hq Hm (not_elem_of_nil _)) as (q' & -> & ? & ?). by exists q'.
Qed.

(** Timed-out messages are taken from the head. *)
Lemma age_scan_loop_spec l q td now :
  msgq_ok q -> msgq_ok td -> rkmq_msgs q = l ->
  exists q' td' old, age_scan_loop l q td now = Ret (q', td') /\ msgq_ok q' /\ msgq_ok td' /\
    l = old ++ rkmq_msgs q' /\ rkmq_msgs td' = rkmq_msgs td ++ old /\
    Forall (fun m => rkm_ts_timeout m <= now) old.
Proof.
  revert q td; induction l as [|m l IH]; intros q td Hq Ht Hl; cbn [age_scan_loop].
  { exists q, td, []. rewrite Hl. split_and!; rewrite ?app_nil_r; done || constructor. }
  rewrite Z.gtb_ltb. destruct (Z.ltb_spec now (rkm_ts_timeout m)).
  { exists q, td, []. rewrite Hl. split_and!; rewrite ?app_nil_r; done || constructor. }
  destruct (msgq_deq_spec q [] m l Hq Hl (not_elem_of_nil _)) as (q1 & -> & Hl1 & Hq1). cbn [obind].
  assert (Hm : 0 <= msg_size m).
  { destruct Hq as (_ & _ & Hf). rewrite Hl in Hf. by apply Forall_cons in Hf as [? _]. }
  destruct (IH q1 (rd_kafka_msgq_enq td m).1 Hq1 (msgq_enq_ok _ _ Ht Hm) Hl1)
    as (q' & td' & old & -> & ? & ? & El & Et & Fo).
  exists q', td', (m :: old). simpl in Et. rewrite <- app_assoc in Et.
  split_and!; try done; [by rewrite El|by constructor].
Qed.

(** ** Retrying *)

Definition can_retry (incr max : Z) (m : rd_kafka_msg) : Prop := rkm_retries m + incr <= max.
#[export] Instance can_retry_dec incr max m : Decision (can_retry incr max m).
Proof. unfold can_retry. apply _. Defined.

Definition retried (incr backoff : Z) (m : rd_kafka_msg) : rd_kafka_msg :=
  set_retry backoff (rkm_retries m + incr) m.

Lemma retry_loop_spec incr max backoff l kept srcq rq :
  msgq_ok srcq -> msgq_ok rq -> rkmq_msgs srcq = kept ++ l -> NoDup (ptrs (kept ++ l)) ->
  exists srcq' rq', retry_loop l srcq rq incr max backoff = Ret (srcq', rq') /\
    msgq_ok srcq' /\ msgq_ok rq' /\
    rkmq_msgs srcq' = kept ++ filter (fun m => ~ can_retry incr max m) l /\
    rkmq_msgs rq' = rkmq_msgs rq ++ (retried incr backoff <$> filter (can_retry incr max) l).
Proof.
  revert kept srcq rq; induction l as [|m l IH]; intros kept srcq rq Hs Hr Hl Hn; cbn [retry_loop].
  { exists srcq, rq. rewrite Hl, !app_nil_r. done. }
  assert (Hn' := Hn). rewrite fmap_app, fmap_cons in Hn'.
  apply NoDup_app in Hn' as (_ & Hd & _).
  rewrite Z.gtb_ltb. destruct (Z.ltb_spec max (rkm_retries m + incr)).
  - rewrite (filter_cons_True (fun m => ~ can_retry incr max m)) by (unfold can_retry; lia).
    rewrite (filter_cons_False (can_retry incr max)) by (unfold can_retry; lia).
    destruct (IH (kept ++ [m]) srcq rq Hs Hr) as (s' & r' & -> & ? & ? & E1 & E2);
      [by rewrite <- app_assoc..|].
    exists s', r'. rewrite <- app_assoc in E1. done.
  - rewrite (filter_cons_False (fun m => ~ can_retry incr max m)) by (unfold can_retry; lia).
    rewrite (filter_cons_True (can_retry incr max)) by (unfold can_retry; lia).
    assert (Hnin : ~ rkm_ptr m ∈ ptrs kept).
    { intros Hin. apply (Hd _ Hin). apply elem_of_cons. by left. }
    destruct (msgq_deq_spec srcq kept m l Hs Hl Hnin) as (s1 & -> & Hl1 & Hs1). cbn [obind].
    assert (Hm : 0 <= msg_size (retried incr backoff m)).
    { destruct Hs as (_ & _ & Hf). rewrite Hl in Hf. apply Forall_app in Hf as [_ Hf].
      by apply Forall_cons in Hf as [? _]. }
    destruct (IH kept s1 (rd_kafka_msgq_enq rq (retried incr backoff m)).1 Hs1
                (msgq_enq_ok _ _ Hr Hm) Hl1) as (s' & r' & E & ? & ? & E1 & E2).
    { rewrite fmap_app in Hn |- *. rewrite fmap_cons in Hn.
      apply NoDup_app in Hn as (Ha & Hb & Hc). apply NoDup_cons in Hc as [_ Hc].
      apply NoDup_app. split_and!; [done| |done]. intros x Hx Hy. apply (Hb x Hx).
      apply elem_of_cons. by right. }
    exists s', r'. split; [exact E|]. split_and!; try done.
    rewrite E2. simpl. by rewrite <- app_assoc.
Qed.

(** ** Inserting one queue into another *)

Section order.
Context (cmp : rd_kafka_msg -> rd_kafka_msg -> Z).

Lemma find_pos_loop_some l m i j :
  exists k, find_pos_loop l m cmp i (Some j) = Some k.
Proof. revert i j; induction l as [|x l IH]; intros i j; simpl; [eauto|]. destruct (cmp m x <? 0); eauto. Qed.

(** The insertion returns (the assertion on the position holds), keeps the
    counters exact and neither loses nor duplicates a message. *)
Lemma insert_msgq_spec destq srcq :
  msgq_ok destq -> msgq_ok srcq ->
  exists destq', rd_kafka_msgq_insert_msgq destq srcq cmp = Ret (destq', rd_kafka_msgq_init) /\
    msgq_ok destq' /\ Permutation (rkmq_msgs destq') (rkmq_msgs destq ++ rkmq_msgs srcq).
Proof.
  intros Hd Hs. unfold rd_kafka_msgq_insert_msgq.
  destruct (rkmq_msgs srcq) as [|first s] eqn:Es.
  { exists destq. rewrite app_nil_r. split_and!; try done.
    destruct Hs as (Hc & Hb & _). destruct srcq; simpl in *. by subst. }
  destruct (rkmq_msgs destq) as [|dest_first d] eqn:Ed.
  { exists srcq. simpl. rewrite Es. split_and!; try done. by destruct srcq. }
  destruct (cmp first dest_first <? 0) eqn:E1.
  - eexists. split; [done|]. split; [by apply (msgq_concat_ok srcq destq)|].
    simpl. rewrite Es, Ed. apply Permutation_app_comm.
  - destruct (cmp first (default dest_first (last (dest_first :: d))) >? 0).
    + eexists. split; [done|]. split; [by apply msgq_concat_ok|]. simpl. by rewrite Es, Ed.
    + unfold rd_kafka_msgq_find_pos. rewrite Ed. simpl. rewrite E1.
      destruct (find_pos_loop_some d first 1 0) as [k ->].
      assert (P : Permutation (take (S k) (dest_first :: d) ++ (first :: s) ++ drop (S k) (dest_first :: d))
                    ((dest_first :: d) ++ first :: s)).
      { rewrite <- (take_drop (S k) (dest_first :: d)) at 3. rewrite <- app_assoc.
        apply Permutation_app_head, Permutation_app_comm. }
      eexists. split; [done|]. split; [|exact P].
      eapply msgq_ok_perm; [exact P|]. pose proof (msgq_concat_ok _ _ Hd Hs) as Hcat.
      by unfold rd_kafka_msgq_concat in Hcat; rewrite Es, Ed in Hcat.
Qed.
End order.

(** ** Order *)

(** The sort key of a strategy: ascending or descending sequence numbers. *)
Definition seq_key (s : queuing_strategy) (m : rd_kafka_msg) : Z :=
  match s with RD_KAFKA_QUEUE_FIFO => rkm_msgseq m | RD_KAFKA_QUEUE_LIFO => - rkm_msgseq m end.

Lemma order_cmp_lt s a b : rkt_msg_order_cmp s a b < 0 <-> seq_key s a < seq_key s b.
Proof.
  destruct s; simpl; unfold rd_kafka_msg_cmp_msgseq, rd_kafka_msg_cmp_msgseq_lifo;
    rewrite !Z.gtb_ltb; destruct (Z.ltb_spec (rkm_msgseq a) (rkm_msgseq b)),
    (Z.ltb_spec (rkm_msgseq b) (rkm_msgseq a)); lia.
Qed.

Lemma order_cmp_gt s a b : rkt_msg_order_cmp s a b > 0 <-> seq_key s a > seq_key s b.
Proof.
  destruct s; simpl; unfold rd_kafka_msg_cmp_msgseq, rd_kafka_msg_cmp_msgseq_lifo;
    rewrite !Z.gtb_ltb; destruct (Z.ltb_spec (rkm_msgseq a) (rkm_msgseq b)),
    (Z.ltb_spec (rkm_msgseq b) (rkm_msgseq a)); lia.
Qed.

Definition msgs_sorted (s : queuing_strategy) (l : list rd_kafka_msg) : Prop :=
  StronglySorted (fun a b => seq_key s a < seq_key s b) l.

Lemma sorted_app {A} (R : A -> A -> Prop) l1 l2 :
  StronglySorted R (l1 ++ l2) <->
  StronglySorted R l1 /\ StronglySorted R l2 /\ (forall x y, x ∈ l1 -> y ∈ l2 -> R x y).
Proof.
  induction l1 as [|a l1 IH]; simpl.
  { split; [|by intros (_ & ? & _)]. intros H. split_and!; [constructor|done|].
    by intros x y ?%elem_of_nil. }
  split.
  - intros H. inversion_clear H as [|? ? Hs Hf]. apply IH in Hs as (H1 & H2 & H3).
    apply Forall_app in Hf as [F1 F2]. split_and!; [by constructor|done|].
    intros x y [->|Hx]%elem_of_cons Hy; [|by apply H3]. by apply (proj1 (Forall_forall _ _) F2).
  - intros (H1 & H2 & H3). inversion_clear H1 as [|? ? Hs Hf]. constructor.
    + apply IH. split_and!; [done|done|]. intros x y Hx Hy. apply H3; [by apply elem_of_cons; right|done].
    + apply Forall_app. split; [done|]. apply Forall_forall. intros y Hy. apply H3; [|done].
      apply elem_of_cons. by left.
Qed.

Lemma find_pos_loop_split cmp l m i last :
  exists l1 l2, l = l1 ++ l2 /\ Forall (fun x => ~ cmp m x < 0) l1 /\
    (match l2 with [] => True | y :: _ => cmp m y < 0 end) /\
    find_pos_loop l m cmp i last = match l1 with [] => last | _ => Some (i + length l1 - 1)%nat end.
Proof.
  revert i last; induction l as [|x l IH]; intros i last; simpl.
  { exists [], []. split_and!; done || constructor. }
  destruct (Z.ltb_spec (cmp m x) 0).
  { exists [], (x :: l). split_and!; done || constructor. }
  destruct (IH (S i) (Some i)) as (l1 & l2 & -> & Hf & Hh & ->).
  exists (x :: l1), l2. split_and!; try done; [constructor; [lia|done]|].
  destruct l1; simpl; f_equal; lia.
Qed.

(** No message of [dest] lies between two of [src]. *)
Definition no_overlap (s : queuing_strategy) (dest src : list rd_kafka_msg) : Prop :=
  forall d, d ∈ dest -> (forall x, x ∈ src -> seq_key s d < seq_key s x) \/
                        (forall x, x ∈ src -> seq_key s x < seq_key s d).

Section insert_sorted.
Context (s : queuing_strategy).
Abbreviation cmp := (rkt_msg_order_cmp s).
Abbreviation key := (seq_key s).

(** All of [l1] precedes [src], all of [l2] follows it. *)
Lemma sorted_between l1 l2 src :
  msgs_sorted s (l1 ++ l2) -> msgs_sorted s src ->
  (forall d x, d ∈ l1 -> x ∈ src -> key d < key x) ->
  (forall d x, d ∈ l2 -> x ∈ src -> key x < key d) -> msgs_sorted s (l1 ++ src ++ l2).
Proof.
  intros Hd Hs H1 H2. apply sorted_app in Hd as (Hd1 & Hd2 & Hd3).
  apply sorted_app. split_and!; [done| |].
  - apply sorted_app. split_and!; [done|done|]. intros x y Hx Hy. by apply H2.
  - intros x y Hx [Hy|Hy]%elem_of_app; [by apply H1|by apply Hd3].
Qed.

Lemma insert_msgq_sorted destq srcq destq' :
  msgs_sorted s (rkmq_msgs destq) -> msgs_sorted s (rkmq_msgs srcq) ->
  no_overlap s (rkmq_msgs destq) (rkmq_msgs srcq) ->
  rd_kafka_msgq_insert_msgq destq srcq cmp = Ret (destq', rd_kafka_msgq_init) ->
  rkmq_msgs srcq <> [] -> msgs_sorted s (rkmq_msgs destq').
Proof.
  intros Hd Hs Hno. unfold rd_kafka_msgq_insert_msgq.
  destruct (rkmq_msgs srcq) as [|first src] eqn:Es; [done|].
  assert (Hfirst : first ∈ first :: src) by (apply elem_of_cons; by left).
  (* elements after the first of a sorted list *)
  assert (Hge : forall d l x, msgs_sorted s (d :: l) -> x ∈ d :: l -> key d <= key x).
  { intros d l x Hl [->|Hx]%elem_of_cons; [lia|]. inversion_clear Hl as [|? ? _ Hf].
    pose proof (proj1 (Forall_forall _ _) Hf x Hx). simpl in *. lia. }
  assert (Hbelow : forall d, d ∈ rkmq_msgs destq -> ~ key first < key d ->
            forall x, x ∈ first :: src -> key d < key x).
  { intros d Hin Hnlt x Hx. destruct (Hno d Hin) as [H|H]; [by apply H|].
    specialize (H first Hfirst). lia. }
  assert (Habove : forall d, d ∈ rkmq_msgs destq -> key first < key d ->
            forall x, x ∈ first :: src -> key x < key d).
  { intros d Hin Hlt x Hx. destruct (Hno d Hin) as [H|H]; [|by apply H].
    specialize (H first Hfirst). lia. }
  destruct (rkmq_msgs destq) as [|dest_first d] eqn:Ed.
  { intros [= <-] _. simpl. by rewrite Es. }
  assert (Hdf : dest_first ∈ dest_first :: d) by (apply elem_of_cons; by left).
  destruct (Z.ltb_spec (cmp first dest_first) 0) as [E1|E1].
  - intros [= <-] _. simpl. rewrite Es, Ed. apply (sorted_between [] _ _ Hd Hs).
    + by intros ? ? ?%elem_of_nil.
    + intros x y Hx Hy. apply order_cmp_lt in E1. apply Habove; [done| |done].
      pose proof (Hge _ _ x Hd Hx). lia.
  - rewrite Z.gtb_ltb. destruct (Z.ltb_spec 0 (cmp first (default dest_first (last (dest_first :: d))))) as [E2|E2].
    + intros [= <-] _. simpl. rewrite Es, Ed.
      rewrite <- (app_nil_r (first :: src)).
      apply sorted_between; [by rewrite app_nil_r|done| |by intros ? ? ?%elem_of_nil].
      assert (Hl : cmp first (default dest_first (last (dest_first :: d))) > 0) by lia.
      apply order_cmp_gt in Hl. intros x y Hx Hy. apply Hbelow; [done| |done].
      destruct (last (dest_first :: d)) as [z|] eqn:El; [|by apply last_None in El].
      simpl in Hl. apply last_Some in El as [l' El]. rewrite El in Hx, Hd.
      apply elem_of_app in Hx as [Hx|Hx%list_elem_of_singleton]; [|subst; lia].
      apply sorted_app in Hd as (_ & _ & Hc). specialize (Hc x z Hx). 
      assert (key x < key z) by (apply Hc, list_elem_of_singleton; done). lia.
    + unfold rd_kafka_msgq_find_pos. rewrite Ed.
      destruct (find_pos_loop_split cmp (dest_first :: d) first 0 None)
        as (l1 & l2 & El & Hf & Hh & ->).
      destruct l1 as [|y l1]; [done|]. rewrite El in *. intros Hr _.
      replace (S (0 + length (y :: l1) - 1)) with (length (y :: l1)) in Hr by (simpl; lia).
      rewrite take_app_length, drop_app_length in Hr. injection Hr as <-. cbn [rkmq_msgs].
      apply (sorted_between (y :: l1) l2 (first :: src)); [done|done| |].
      * intros z x Hz Hx. apply Hbelow; [apply elem_of_app; by left| |done].
        pose proof (proj1 (Forall_forall _ _) Hf z Hz) as Hc. cbv beta in Hc.
        by rewrite order_cmp_lt in Hc.
      * intros z x Hz Hx. destruct l2 as [|h l2]; [by apply elem_of_nil in Hz|].
        apply Habove; [apply elem_of_app; by right| |done]. apply order_cmp_lt in Hh.
        apply sorted_app in Hd as (_ & Hd2 & _). pose proof (Hge _ _ z Hd2 Hz). lia.
Qed.

Lemma sorted_filter (P : rd_kafka_msg -> Prop) `{forall x, Decision (P x)} l :
  msgs_sorted s l -> msgs_sorted s (filter P l).
Proof.
  induction 1 as [|a l Hl IH Hf]; [constructor|]. destruct (decide (P a)).
  - rewrite filter_cons_True by done. constructor; [done|].
    apply Forall_forall. intros x [_ Hx]%list_elem_of_filter. by apply (proj1 (Forall_forall _ _) Hf).
  - by rewrite filter_cons_False.
Qed.

Lemma sorted_retried incr backoff l :
  msgs_sorted s l -> msgs_sorted s (retried incr backoff <$> l).
Proof.
  induction 1 as [|a l Hl IH Hf]; [constructor|]. rewrite fmap_cons. constructor; [done|].
  apply Forall_fmap. eapply Forall_impl; [exact Hf|]. intros x Hx. by destruct s.
Qed.
End insert_sorted.

(** ** The producer pipeline

    Partition queue, transmit queue of the broker thread, the queues of the
    requests in flight, and the messages whose delivery report has been
    triggered (acknowledged, timed out or out of retries). *)

(** [rd_kafka_toppar_producer_serve]: move the partition queue to the
    broker-local transmit queue. *)
Definition toppar_move_to_xmit (rktp : rd_kafka_toppar) : outcome rd_kafka_toppar :=
  if rkmq_msg_cnt (rktp_msgq rktp) >? 0 then
    let! (xq, q) := rd_kafka_msgq_insert_msgq (rktp_xmit_msgq rktp) (rktp_msgq rktp)
                      (rkt_msg_order_cmp (rkt_queuing_strategy rktp)) in
    Ret (set_msgqs (rktp_msgseq rktp) q xq rktp)
  else Ret rktp.

(** [rd_kafka_broker_toppar_msgq_scan]: the messages that timed out. *)
Definition rd_kafka_broker_toppar_msgq_scan (rktp : rd_kafka_toppar) (now : Z)
  : outcome (rd_kafka_toppar * list rd_kafka_msg) :=
  let! (xq, td, _) := rd_kafka_msgq_age_scan (rktp_xmit_msgq rktp) rd_kafka_msgq_init now in
  Ret (set_msgqs (rktp_msgseq rktp) (rktp_msgq rktp) xq rktp, rkmq_msgs td).

(** Move up to [n] messages from the transmit queue to a request. *)
Fixpoint fill_request (n : nat) (xq rq : rd_kafka_msgq) : outcome (rd_kafka_msgq * rd_kafka_msgq) :=
  match n with
  | O => Ret (xq, rq)
  | S n =>
      let! (xq, m) := rd_kafka_msgq_pop xq in
      match m with
      | None => Ret (xq, rq)
      | Some m => fill_request n xq (rd_kafka_msgq_enq rq m).1
      end
  end.

Record pipeline : Type := mk_pipe {
  pl_rktp : rd_kafka_toppar;
  pl_inflight : list rd_kafka_msgq;
  pl_done : list rd_kafka_msg }.

Inductive pipe_op : Type :=
| Produce (m : rd_kafka_msg)
| Serve
| Scan (now : Z)
| Send (n : nat)
| Ack (i : nat)
| Retry (i : nat) (incr_retry now : Z)
| Leave.

Section pipe.
Context (retry_backoff_ms max_retries : Z).

Definition pipe_step (o : pipe_op) (p : pipeline) : outcome pipeline :=
  let rktp := pl_rktp p in
  match o with
  | Produce m => Ret (mk_pipe (rd_kafka_toppar_enq_msg rktp m) (pl_inflight p) (pl_done p))
  | Serve => let! rktp := toppar_move_to_xmit rktp in Ret (mk_pipe rktp (pl_inflight p) (pl_done p))
  | Scan now =>
      let! (rktp, td) := rd_kafka_broker_toppar_msgq_scan rktp now in
      Ret (mk_pipe rktp (pl_inflight p) (pl_done p ++ td))
  | Send n =>
      let! (xq, rq) := fill_request n (rktp_xmit_msgq rktp) rd_kafka_msgq_init in
      Ret (mk_pipe (set_msgqs (rktp_msgseq rktp) (rktp_msgq rktp) xq rktp)
             (pl_inflight p ++ [rq]) (pl_done p))
  | Ack i =>
      match pl_inflight p !! i with
      | None => Ret p
      | Some rq => Ret (mk_pipe rktp (delete i (pl_inflight p)) (pl_done p ++ rkmq_msgs rq))
      end
  | Retry i incr_retry now =>
      match pl_inflight p !! i with
      | None => Ret p
      | Some rq =>
          let! (rktp, rq, _) := rd_kafka_toppar_retry_msgq false now retry_backoff_ms max_retries
                                  rktp rq incr_retry in
          Ret (mk_pipe rktp (delete i (pl_inflight p)) (pl_done p ++ rkmq_msgs rq))
      end
  | Leave =>
      let! (q, xq) := rd_kafka_msgq_insert_msgq (rktp_msgq rktp) (rktp_xmit_msgq rktp)
                        (rkt_msg_order_cmp (rkt_queuing_strategy rktp)) in
      Ret (mk_pipe (set_msgqs (rktp_msgseq rktp) q xq rktp) (pl_inflight p) (pl_done p))
  end.

Definition pipe_run (ops : list pipe_op) (p : pipeline) : outcome pipeline :=
  foldl (fun m o => let! p := m in pipe_step o p) (Ret p) ops.
End pipe.

Definition pipe_init (partition : Z) (s : queuing_strategy) : pipeline :=
  mk_pipe (mk_rktp partition 0 rd_kafka_msgq_init rd_kafka_msgq_init s) [] [].

(** The messages handed to the producer. *)
Definition produced (ops : list pipe_op) : list rd_kafka_msg :=
  omap (fun o => match o with Produce m => Some m | _ => None end) ops.

(** Every message in the pipeline, by address. *)
Definition pipe_ptrs (p : pipeline) : list Z :=
  ptrs (rkmq_msgs (rktp_msgq (pl_rktp p))) ++ ptrs (rkmq_msgs (rktp_xmit_msgq (pl_rktp p)))
  ++ (pl_inflight p ≫= (fun q => ptrs (rkmq_msgs q))) ++ ptrs (pl_done p).

Definition pipe_inv (p : pipeline) (produced : list Z) : Prop :=
  msgq_ok (rktp_msgq (pl_rktp p)) /\ msgq_ok (rktp_xmit_msgq (pl_rktp p)) /\
  Forall msgq_ok (pl_inflight p) /\ Permutation (pipe_ptrs p) produced.

Lemma fill_request_spec n xq rq :
  msgq_ok xq -> msgq_ok rq ->
  exists xq' rq', fill_request n xq rq = Ret (xq', rq') /\ msgq_ok xq' /\ msgq_ok rq' /\
    rkmq_msgs rq' ++ rkmq_msgs xq' = rkmq_msgs rq ++ rkmq_msgs xq.
Proof.
  revert xq rq; induction n as [|n IH]; intros xq rq Hx Hr; cbn [fill_request].
  { exists xq, rq. done. }
  destruct (rkmq_msgs xq) as [|m l] eqn:El.
  { unfold rd_kafka_msgq_pop. rewrite El. cbn [obind]. exists xq, rq. rewrite El. done. }
  destruct (msgq_pop_spec xq m l Hx El) as (x1 & -> & Hl1 & Hx1). cbn [obind].
  assert (Hm : 0 <= msg_size m).
  { destruct Hx as (_ & _ & Hf). rewrite El in Hf. by apply Forall_cons in Hf as [? _]. }
  destruct (IH x1 (rd_kafka_msgq_enq rq m).1 Hx1 (msgq_enq_ok _ _ Hr Hm)) as (x' & r' & -> & ? & ? & E).
  exists x', r'. split_and!; try done. rewrite E, Hl1. simpl. by rewrite <- app_assoc.
Qed.

Lemma retry_msgq_spec destq srcq incr max backoff cmp :
  msgq_ok destq -> msgq_ok srcq -> NoDup (ptrs (rkmq_msgs srcq)) ->
  exists destq' srcq', rd_kafka_retry_msgq destq srcq incr max backoff cmp =
      Ret (destq', srcq', if decide (filter (can_retry incr max) (rkmq_msgs srcq) = []) then 0 else 1) /\
    msgq_ok destq' /\ msgq_ok srcq' /\
    rkmq_msgs srcq' = filter (fun m => ~ can_retry incr max m) (rkmq_msgs srcq) /\
    Permutation (rkmq_msgs destq')
      (rkmq_msgs destq ++ (retried incr backoff <$> filter (can_retry incr max) (rkmq_msgs srcq))).
Proof.
  intros Hd Hs Hn. unfold rd_kafka_retry_msgq.
  destruct (retry_loop_spec incr max backoff (rkmq_msgs srcq) [] srcq rd_kafka_msgq_init Hs msgq_init_ok
              eq_refl Hn) as (s' & r' & -> & Hs' & Hr' & Es & Er). cbn [obind].
  simpl in Es, Er. destruct (filter (can_retry incr max) (rkmq_msgs srcq)) as [|m l] eqn:Ef.
  - simpl in Er. rewrite Er. exists destq, s'. simpl. rewrite app_nil_r. done.
  - rewrite Er. cbn iota.
    destruct (insert_msgq_spec cmp destq r' Hd Hr') as (d' & -> & Hd' & Hp). cbn [obind].
    rewrite Er in Hp. exists d', s'. done.
Qed.

Lemma toppar_enq_msg_spec rktp m :
  msgq_ok (rktp_msgq rktp) -> 0 <= msg_size m ->
  let r := rd_kafka_toppar_enq_msg rktp m in
  msgq_ok (rktp_msgq r) /\ rktp_xmit_msgq r = rktp_xmit_msgq rktp /\
  Permutation (ptrs (rkmq_msgs (rktp_msgq r))) (rkm_ptr m :: ptrs (rkmq_msgs (rktp_msgq rktp))).
Proof.
  intros Hq Hm. unfold rd_kafka_toppar_enq_msg.
  set (x := if _ && _ then _ else _).
  assert (Hx : rkm_ptr x.2 = rkm_ptr m /\ msg_size x.2 = msg_size m) by (unfold x; by destruct (_ && _)).
  destruct x as [seq m']. simpl in Hx. destruct Hx as [Hp Hsz].
  assert (H1 : msgq_ok (rd_kafka_msgq_enq (rktp_msgq rktp) m').1) by (apply msgq_enq_ok; [done|lia]).
  assert (H2 : msgq_ok (rd_kafka_msgq_enq_sorted (rkt_msg_order_cmp RD_KAFKA_QUEUE_LIFO)
                          (rktp_msgq rktp) m').1) by (apply msgq_enq_sorted_ok; [done|lia]).
  assert (P1 : Permutation (ptrs (rkmq_msgs (rktp_msgq rktp) ++ [m']))
                 (rkm_ptr m :: ptrs (rkmq_msgs (rktp_msgq rktp)))).
  { rewrite fmap_app. simpl. rewrite Hp. by rewrite <- Permutation_cons_append. }
  assert (P2 : Permutation (ptrs (tailq_insert_sorted (rkt_msg_order_cmp RD_KAFKA_QUEUE_LIFO)
                                    (rkmq_msgs (rktp_msgq rktp)) m'))
                 (rkm_ptr m :: ptrs (rkmq_msgs (rktp_msgq rktp)))).
  { rewrite tailq_insert_sorted_perm. simpl. by rewrite Hp. }
  cbv zeta. destruct (rkt_queuing_strategy rktp); [by split_and!|].
  destruct (rktp_partition rktp =? RD_KAFKA_PARTITION_UA); by split_and!.
Qed.

Lemma ptrs_retried incr backoff (l : list rd_kafka_msg) : ptrs (retried incr backoff <$> l) = ptrs l.
Proof. induction l as [|m l IH]; [done|]. rewrite !fmap_cons, IH. done. Qed.

Lemma ptrs_filter (P : rd_kafka_msg -> Prop) `{forall m, Decision (P m)} l :
  Permutation (ptrs l) (ptrs (filter P l) ++ ptrs (filter (fun m => ~ P m) l)).
Proof.
  induction l as [|m l IH]; [done|]. destruct (decide (P m)).
  - rewrite (filter_cons_True P), (filter_cons_False (fun m => ~ P m)) by (done || naive_solver).
    rewrite !fmap_cons. simpl. by constructor.
  - rewrite (filter_cons_False P), (filter_cons_True (fun m => ~ P m)) by done.
    rewrite !fmap_cons, IH. by rewrite Permutation_middle.
Qed.

(** Taking one request out of flight. *)
Lemma inflight_delete (l : list rd_kafka_msgq) i q :
  l !! i = Some q ->
  Permutation (l ≫= (fun q => ptrs (rkmq_msgs q)))
    (ptrs (rkmq_msgs q) ++ (delete i l ≫= (fun q => ptrs (rkmq_msgs q)))).
Proof.
  intros H. rewrite (delete_Permutation _ _ _ H) at 1. done.
Qed.

Definition pipe_op_ok (o : pipe_op) : Prop :=
  match o with Produce m => 0 <= msg_size m | _ => True end.

Lemma pipe_step_spec backoff_ms max o p pr :
  pipe_inv p pr -> pipe_op_ok o -> NoDup pr ->
  exists p', pipe_step backoff_ms max o p = Ret p' /\ pipe_inv p' (ptrs (produced [o]) ++ pr).
Proof.
  intros (Hq & Hx & Hf & Hp) Ho Hn. destruct p as [rktp fl done_]. unfold pipe_ptrs in Hp. simpl in *.
  destruct o as [m| |now|n|i|i incr now|]; simpl pipe_step; simpl produced.
  - destruct (toppar_enq_msg_spec rktp m Hq Ho) as (H1 & H2 & H3).
    eexists. split; [done|]. split_and!; simpl; try done; [by rewrite H2|].
    unfold pipe_ptrs. simpl. rewrite H2, H3. simpl. by rewrite Hp.
  - unfold toppar_move_to_xmit. rewrite Z.gtb_ltb. destruct (Z.ltb_spec 0 (rkmq_msg_cnt (rktp_msgq rktp))).
    + destruct (insert_msgq_spec (rkt_msg_order_cmp (rkt_queuing_strategy rktp)) _ _ Hx Hq)
        as (d & -> & Hd & Hpd). cbn [obind]. eexists. split; [done|].
      split_and!; simpl; try done. unfold pipe_ptrs. simpl.
      rewrite Hpd, <- Hp, fmap_app, !app_assoc. do 2 apply Permutation_app_tail. apply Permutation_app_comm.
    + eexists. split; [done|]. by split_and!.
  - unfold rd_kafka_broker_toppar_msgq_scan, rd_kafka_msgq_age_scan.
    destruct (age_scan_loop_spec _ _ rd_kafka_msgq_init now Hx msgq_init_ok eq_refl)
      as (x' & td & old & -> & Hx' & Ht & El & Et & _). cbn [obind].
    eexists. split; [done|]. split_and!; simpl; try done. unfold pipe_ptrs. simpl.
    rewrite <- Hp, El, Et, !fmap_app. simpl. apply Permutation_app_head.
    rewrite !app_assoc. rewrite (Permutation_app_comm _ (ptrs old)), !app_assoc. done.
  - destruct (fill_request_spec n _ _ Hx msgq_init_ok) as (x' & r' & -> & Hx' & Hr & E). cbn [obind].
    eexists. split; [done|]. simpl in E. split_and!; simpl; try done.
    + apply Forall_app. split; [done|]. by apply Forall_singleton.
    + unfold pipe_ptrs. simpl. rewrite <- Hp, <- E, !fmap_app, bind_app. simpl. rewrite app_nil_r.
      apply Permutation_app_head. rewrite !app_assoc. apply Permutation_app_tail.
      rewrite (Permutation_app_comm _ (ptrs (rkmq_msgs r'))). by rewrite !app_assoc.
  - destruct (fl !! i) as [rq|] eqn:Ei; [|eexists; split; [done|]; by split_and!].
    eexists. split; [done|]. split_and!; simpl; try done; [by apply Forall_delete|].
    unfold pipe_ptrs. simpl. rewrite <- Hp, (inflight_delete fl i rq Ei), fmap_app.
    do 2 apply Permutation_app_head. rewrite (Permutation_app_comm (ptrs done_)), !app_assoc.
    apply Permutation_app_tail, Permutation_app_comm.
  - destruct (fl !! i) as [rq|] eqn:Ei; [|eexists; split; [done|]; by split_and!].
    assert (Hrq : msgq_ok rq) by (by apply (Forall_lookup_1 _ _ _ _ Hf Ei)).
    rewrite (inflight_delete fl i rq Ei) in Hp.
    assert (Hnr : NoDup (ptrs (rkmq_msgs rq))).
    { rewrite <- Hp in Hn. do 2 apply NoDup_app in Hn as (_ & _ & Hn).
      rewrite <- app_assoc in Hn. by apply NoDup_app in Hn as (? & _ & _). }
    unfold rd_kafka_toppar_retry_msgq. cbn [obind].
    destruct (retry_msgq_spec (rktp_msgq rktp) rq incr max (now + backoff_ms * 1000)
                (rkt_msg_order_cmp (rkt_queuing_strategy rktp)) Hq Hrq Hnr)
      as (d' & s' & -> & Hd' & Hs' & Es & Hpd). cbn [obind].
    eexists. split; [done|]. split_and!; simpl; try done; [by apply Forall_delete|].
    unfold pipe_ptrs. simpl. rewrite <- Hp, Hpd, !fmap_app, ptrs_retried, Es.
    rewrite (ptrs_filter (can_retry incr max) (rkmq_msgs rq)), <- !app_assoc.
    apply Permutation_app_head.
    rewrite (Permutation_app_swap_app (ptrs (filter (can_retry incr max) (rkmq_msgs rq)))
               (ptrs (rkmq_msgs (rktp_xmit_msgq rktp)))).
    do 2 apply Permutation_app_head.
    rewrite (Permutation_app_comm (ptrs (filter (fun m => ~ can_retry incr max m) (rkmq_msgs rq)))).
    by rewrite <- app_assoc.
  - destruct (insert_msgq_spec (rkt_msg_order_cmp (rkt_queuing_strategy rktp)) _ _ Hq Hx)
      as (d & -> & Hd & Hpd). cbn [obind]. eexists. split; [done|].
    split_and!; simpl; try done. unfold pipe_ptrs. simpl.
    rewrite <- Hp, Hpd, fmap_app. by rewrite <- !app_assoc.
Qed.

Lemma pipe_run_spec backoff_ms max ops p pr :
  pipe_inv p pr -> Forall pipe_op_ok ops -> NoDup (ptrs (produced ops) ++ pr) ->
  exists p', pipe_run backoff_ms max ops p = Ret p' /\
    pipe_inv p' (ptrs (produced ops) ++ pr).
Proof.
  unfold pipe_run. revert p pr; induction ops as [|o ops IH]; intros p pr Hi Ho Hn.
  { by exists p. }
  apply Forall_cons in Ho as [Ho Hos]. cbn [foldl obind].
  assert (Ep : ptrs (produced (o :: ops)) = ptrs (produced [o]) ++ ptrs (produced ops)).
  { unfold produced. simpl. destruct o; done. }
  rewrite Ep in *.
  destruct (pipe_step_spec backoff_ms max o p pr Hi Ho) as (p1 & -> & Hi1).
  { apply NoDup_app in Hn as (_ & _ & Hn). done. }
  assert (P : Permutation ((ptrs (produced [o]) ++ ptrs (produced ops)) ++ pr)
                (ptrs (produced ops) ++ ptrs (produced [o]) ++ pr)).
  { rewrite (Permutation_app_comm (ptrs (produced [o]))). by rewrite app_assoc. }
  destruct (IH p1 _ Hi1 Hos) as (p' & -> & Hi').
  { by rewrite <- P. }
  exists p'. split; [done|]. destruct Hi' as (? & ? & ? & Hp). split_and!; try done. by rewrite P.
Qed.

(** ** Properties *)

(** C21. No run of the producer pipeline (produce, move to the transmit queue,
    timeout scan, send, acknowledge, retry, leave the broker, in any order)
    fails an assertion, and after every run each produced message is in exactly
    one place (partition queue, transmit queue, one request in flight, or
    reported), while the message and byte counters of every queue are exact. *)
Theorem pipeline_conserves (retry_backoff_ms max_retries partition : Z) (s : queuing_strategy)
    (ops : list pipe_op) (Hok : Forall pipe_op_ok ops) (Hn : NoDup (ptrs (produced ops))) :
  exists p, pipe_run retry_backoff_ms max_retries ops (pipe_init partition s) = Ret p /\
    Permutation (pipe_ptrs p) (ptrs (produced ops)) /\
    msgq_ok (rktp_msgq (pl_rktp p)) /\ msgq_ok (rktp_xmit_msgq (pl_rktp p)) /\
    Forall msgq_ok (pl_inflight p).
Proof.
  destruct (pipe_run_spec retry_backoff_ms max_retries ops (pipe_init partition s) [])
    as (p & Hr & Hq & Hx & Hf & Hp).
  - split_and!; done || constructor.
  - done.
  - by rewrite app_nil_r.
  - exists p. rewrite app_nil_r in Hp. done.
Qed.

(** A message of [len] bytes at address [ptr]. *)
Definition example_msg (ptr len : Z) : rd_kafka_msg :=
  mk_rkm ptr len (Some (replicate (Z.to_nat len) 0)) RD_KAFKA_PARTITION_UA RD_KAFKA_OFFSET_INVALID
    None 0 0 RD_KAFKA_MSG_F_PRODUCER 0 RD_KAFKA_TIMESTAMP_CREATE_TIME None 1000 0 0 0 0
    (mk_kbytes 0 None []).

Definition example_ops : list pipe_op :=
  [Produce (example_msg 1 10); Produce (example_msg 2 10); Produce (example_msg 3 10); Serve; Send 2;
   Produce (example_msg 4 10); Retry 0 1 5; Serve].

Lemma pipeline_conserves_witness :
  exists p, pipe_run 100 2 example_ops (pipe_init 0 RD_KAFKA_QUEUE_FIFO) = Ret p /\
    Permutation (pipe_ptrs p) [1; 2; 3; 4].
Proof.
  destruct (pipeline_conserves 100 2 0 RD_KAFKA_QUEUE_FIFO example_ops) as (p & Hr & Hp & _).
  - repeat (apply Forall_cons; split; [done|]). constructor.
  - apply (bool_decide_unpack _). vm_compute. exact I.
  - exists p. split; [exact Hr|exact Hp].
Defined.

(** Retrying the messages of a request whose retryable messages do not
    interleave with the partition queue: the partition queue stays sorted by
    message sequence number (ascending or descending, by strategy), it holds
    exactly its old messages and the retryable ones with their retry count and
    backoff set, the others stay on the request queue in order, and the
    function returns 1 exactly when some message was retried. *)
Theorem retry_keeps_order (s : queuing_strategy) (destq srcq : rd_kafka_msgq)
    (incr max backoff : Z) (Hd : msgq_ok destq) (Hs : msgq_ok srcq)
    (Hn : NoDup (ptrs (rkmq_msgs srcq))) (Sd : msgs_sorted s (rkmq_msgs destq))
    (Ss : msgs_sorted s (rkmq_msgs srcq))
    (Hno : no_overlap s (rkmq_msgs destq) (filter (can_retry incr max) (rkmq_msgs srcq))) :
  exists destq' srcq',
    rd_kafka_retry_msgq destq srcq incr max backoff (rkt_msg_order_cmp s) =
      Ret (destq', srcq', if decide (filter (can_retry incr max) (rkmq_msgs srcq) = []) then 0 else 1) /\
    msgs_sorted s (rkmq_msgs destq') /\
    Permutation (rkmq_msgs destq')
      (rkmq_msgs destq ++ (retried incr backoff <$> filter (can_retry incr max) (rkmq_msgs srcq))) /\
    rkmq_msgs srcq' = filter (fun m => ~ can_retry incr max m) (rkmq_msgs srcq) /\
    msgq_ok destq' /\ msgq_ok srcq'.
Proof.
  destruct (retry_msgq_spec destq srcq incr max backoff (rkt_msg_order_cmp s) Hd Hs Hn)
    as (d' & s' & Hr & Hd' & Hs' & Es & Hp).
  exists d', s'. split_and!; try done. revert Hr. unfold rd_kafka_retry_msgq.
  destruct (retry_loop_spec incr max backoff (rkmq_msgs srcq) [] srcq rd_kafka_msgq_init Hs msgq_init_ok
              eq_refl Hn) as (s1 & r1 & -> & Hs1 & Hr1 & Es1 & Er1). cbn [obind]. simpl in Er1.
  destruct (rkmq_msgs r1) as [|m l] eqn:El; [by intros [= -> _ _]|].
  destruct (insert_msgq_spec (rkt_msg_order_cmp s) destq r1 Hd Hr1) as (d1 & Hi & _). rewrite Hi.
  cbn [obind]. intros [= -> _ _]. eapply insert_msgq_sorted; [exact Sd| | |exact Hi|by rewrite El].
  - rewrite El, Er1. by apply sorted_retried, sorted_filter.
  - rewrite El, Er1. intros d Hin. destruct (Hno d Hin) as [H|H]; [left|right];
      intros x Hx; apply list_elem_of_fmap in Hx as (y & -> & Hy); specialize (H y Hy); by destruct s.
Qed.

Definition example_queue (l : list (Z * Z * Z)) : rd_kafka_msgq :=
  foldl (fun q '(p, seq, retries) =>
           (rd_kafka_msgq_enq q (set_retry 0 retries (set_msgseq seq (example_msg p 10)))).1)
        rd_kafka_msgq_init l.

Lemma retry_keeps_order_witness :
  exists destq' srcq',
    rd_kafka_retry_msgq (example_queue [(1, 1, 0); (5, 5, 0)])
      (example_queue [(2, 2, 0); (3, 3, 2); (4, 4, 1)]) 1 2 77 rd_kafka_msg_cmp_msgseq
      = Ret (destq', srcq', 1) /\
    (rkm_msgseq <$> rkmq_msgs srcq') = [3] /\ msgs_sorted RD_KAFKA_QUEUE_FIFO (rkmq_msgs destq').
Proof.
  destruct (retry_keeps_order RD_KAFKA_QUEUE_FIFO (example_queue [(1, 1, 0); (5, 5, 0)])
      (example_queue [(2, 2, 0); (3, 3, 2); (4, 4, 1)]) 1 2 77)
    as (d & s & Hr & Hs & _ & Es & _).
  - split_and!; [done|done|]. repeat constructor; vm_compute; congruence.
  - split_and!; [done|done|]. repeat constructor; vm_compute; congruence.
  - apply (bool_decide_unpack _). vm_compute. exact I.
  - repeat constructor.
  - repeat constructor.
  - intros m Hm. vm_compute in Hm. apply elem_of_cons in Hm as [->|Hm].
    + left. intros x Hx. vm_compute in Hx. apply elem_of_cons in Hx as [->|Hx]; [reflexivity|].
      apply list_elem_of_singleton in Hx as ->. reflexivity.
    + apply list_elem_of_singleton in Hm as ->. right. intros x Hx. vm_compute in Hx.
      apply elem_of_cons in Hx as [->|Hx]; [reflexivity|].
      apply list_elem_of_singleton in Hx as ->. reflexivity.
  - exists d, s. split; [exact Hr|]. split; [rewrite Es; reflexivity|exact Hs].
Defined.

(** The bulk insertion assumes that the two queues do not interleave, but
    the pipeline does not ensure it: with one request in flight, messages that
    linger in the transmit queue and one new message in the partition queue, a
    retry leaves the FIFO transmit queue out of order. *)
Theorem pipeline_reorders :
  exists p, pipe_run 100 2
      [Produce (example_msg 1 10); Produce (example_msg 2 10); Serve; Send 2;
       Produce (example_msg 3 10); Produce (example_msg 4 10); Serve;
       Produce (example_msg 5 10); Retry 0 1 5; Serve]
      (pipe_init 0 RD_KAFKA_QUEUE_FIFO) = Ret p /\
    (rkm_msgseq <$> rkmq_msgs (rktp_xmit_msgq (pl_rktp p))) = [1; 2; 5; 3; 4].
Proof. eexists. split; [vm_compute; reflexivity|reflexivity]. Qed.
