(* ===== verification/KBuf.v ===== *)
(** * Protocol buffers: rdkafka_buf.h and the constructors of rdkafka_buf.c

    The reading macros jump to [err_parse] with [rkbuf_err] set when the bytes
    are missing or malformed: they are parsers, functions from a state that
    holds the buffer to the new state and [Some] value, or [None] for the
    jump.  The writing functions return the position written to. *)
From Stdlib Require Import ZArith Lia.
From stdpp Require Import base numbers list.
From S2P Require Import Prelude Varint Buf Slice Crc Reader RdList Proto Header Msg.

(** ** Data *)

Definition RD_KAFKA_OP_F_CRC : Z := 0x8.
Definition RD_KAFKA_OP_F_SENT : Z := 0x80.

Record rd_kafka_buf : Type := mk_rkbuf {
  rkbuf_flags : Z;
  rkbuf_buf : rd_buf;
  rkbuf_reader : rd_slice;
  rkbuf_crc : Z;
  rkbuf_ApiKey : Z;
  rkbuf_ApiVersion : Z;
  rkbuf_features : Z;
  rkbuf_totlen : Z;
  rkbuf_rel_timeout : Z;
  rkbuf_abs_timeout : Z;
  rkbuf_ts_timeout : Z;
  rkbuf_msgq : rd_kafka_msgq;
  rkbuf_err : Z }.

Definition set_rk_buf (b : rd_buf) (k : rd_kafka_buf) : rd_kafka_buf :=
  mk_rkbuf (rkbuf_flags k) b (rkbuf_reader k) (rkbuf_crc k) (rkbuf_ApiKey k) (rkbuf_ApiVersion k)
    (rkbuf_features k) (rkbuf_totlen k) (rkbuf_rel_timeout k) (rkbuf_abs_timeout k)
    (rkbuf_ts_timeout k) (rkbuf_msgq k) (rkbuf_err k).
Definition set_rk_reader (s : rd_slice) (k : rd_kafka_buf) : rd_kafka_buf :=
  mk_rkbuf (rkbuf_flags k) (rkbuf_buf k) s (rkbuf_crc k) (rkbuf_ApiKey k) (rkbuf_ApiVersion k)
    (rkbuf_features k) (rkbuf_totlen k) (rkbuf_rel_timeout k) (rkbuf_abs_timeout k)
    (rkbuf_ts_timeout k) (rkbuf_msgq k) (rkbuf_err k).
Definition set_rk_err (e : Z) (k : rd_kafka_buf) : rd_kafka_buf :=
  mk_rkbuf (rkbuf_flags k) (rkbuf_buf k) (rkbuf_reader k) (rkbuf_crc k) (rkbuf_ApiKey k)
    (rkbuf_ApiVersion k) (rkbuf_features k) (rkbuf_totlen k) (rkbuf_rel_timeout k)
    (rkbuf_abs_timeout k) (rkbuf_ts_timeout k) (rkbuf_msgq k) e.
Definition set_rk_crc (flags crc : Z) (k : rd_kafka_buf) : rd_kafka_buf :=
  mk_rkbuf flags (rkbuf_buf k) (rkbuf_reader k) crc (rkbuf_ApiKey k) (rkbuf_ApiVersion k)
    (rkbuf_features k) (rkbuf_totlen k) (rkbuf_rel_timeout k) (rkbuf_abs_timeout k)
    (rkbuf_ts_timeout k) (rkbuf_msgq k) (rkbuf_err k).
Definition set_rk_msgq (q : rd_kafka_msgq) (k : rd_kafka_buf) : rd_kafka_buf :=
  mk_rkbuf (rkbuf_flags k) (rkbuf_buf k) (rkbuf_reader k) (rkbuf_crc k) (rkbuf_ApiKey k)
    (rkbuf_ApiVersion k) (rkbuf_features k) (rkbuf_totlen k) (rkbuf_rel_timeout k)
    (rkbuf_abs_timeout k) (rkbuf_ts_timeout k) q (rkbuf_err k).
Definition set_rk_timeouts (rel abs ts : Z) (k : rd_kafka_buf) : rd_kafka_buf :=
  mk_rkbuf (rkbuf_flags k) (rkbuf_buf k) (rkbuf_reader k) (rkbuf_crc k) (rkbuf_ApiKey k)
    (rkbuf_ApiVersion k) (rkbuf_features k) (rkbuf_totlen k) rel abs ts (rkbuf_msgq k) (rkbuf_err k).

(** ** Parsers *)

Definition parser (S A : Type) : Type := S -> outcome (S * option A).

Definition pret {S A} (a : A) : parser S A := fun s => Ret (s, Some a).
Definition pbind {S A B} (p : parser S A) (k : A -> parser S B) : parser S B := fun s =>
  let! (s, r) := p s in
  match r with
  | Some a => k a s
  | None => Ret (s, None)
  end.
Notation "'let*' x ':=' m 'in' k" := (pbind m (fun x => k))
  (at level 10, x pattern, m at level 100, k at level 200,
   format "'[v' 'let*'  x  ':='  m  'in' '/' k ']'") : rdk_scope.

Abbreviation kparser := (parser rd_kafka_buf).

(** A state that holds a protocol buffer: what reads the buffer can be run on
    the state. *)
Class BufLens (S : Type) : Type := {
  lget : S -> rd_kafka_buf;
  lput : rd_kafka_buf -> S -> S }.

Class BufLensLaws (S : Type) {L : BufLens S} : Prop := {
  lget_lput : forall k s, lget (lput k s) = k;
  lput_lget : forall s, lput (lget s) s = s;
  lput_lput : forall k1 k2 s, lput k1 (lput k2 s) = lput k1 s }.

#[export] Instance buf_lens : BufLens rd_kafka_buf := {| lget := fun k => k; lput := fun k _ => k |}.
#[export] Instance buf_lens_laws : BufLensLaws rd_kafka_buf.
Proof. by constructor. Qed.

Definition onbuf {S A} {L : BufLens S} (p : kparser A) : parser S A := fun s =>
  let! (k, r) := p (lget s) in Ret (lput k s, r).

(** ** Code: reading *)

Definition rd_kafka_buf_parse_fail {A} : kparser A := fun k =>
  Ret (set_rk_err RD_KAFKA_RESP_ERR__BAD_MSG k, None).

Definition rd_kafka_buf_underflow_fail {A} : kparser A := fun k =>
  Ret (set_rk_err RD_KAFKA_RESP_ERR__UNDERFLOW k, None).

Definition rd_kafka_buf_read_remain (k : rd_kafka_buf) : outcome Z :=
  rd_slice_remains (rkbuf_buf k) (rkbuf_reader k).

Definition rd_kafka_buf_check_len (len : Z) : kparser () := fun k =>
  let! remain := rd_kafka_buf_read_remain k in
  if u64 len >? remain then rd_kafka_buf_underflow_fail k else Ret (k, Some ()).

(** [rd_slice_read] on the reader: the bytes stored and the result. *)
Definition kbuf_slice_read (k : rd_kafka_buf) (len : Z) : outcome (rd_kafka_buf * list Z * Z) :=
  let! (sl, d, r) := rd_slice_read (rkbuf_buf k) (rkbuf_reader k) len in
  Ret (set_rk_reader sl k, d, r).

Definition rd_kafka_buf_read (len : Z) : kparser (list Z) := fun k =>
  let len2 := u64 len in
  let! (k, d, r) := kbuf_slice_read k len2 in
  if r =? 0 then (let* _ := rd_kafka_buf_check_len len2 in pret d) k else Ret (k, Some d).

Definition rd_kafka_buf_skip (len : Z) : kparser () := fun k =>
  let len1 := u64 len in
  if len1 =? 0 then Ret (k, Some ())
  else
    let! (k, _, r) := kbuf_slice_read k len1 in
    if r =? 0 then rd_kafka_buf_check_len len1 k else Ret (k, Some ()).

Definition rd_kafka_buf_skip_to (pos : Z) : kparser () := fun k =>
  let! o := rd_slice_offset (rkbuf_buf k) (rkbuf_reader k) in
  let len1 := u64 (pos - o) in
  if len1 =? 0 then Ret (k, Some ())
  else
    let! (k, _, r) := kbuf_slice_read k len1 in
    if r =? 0 then rd_kafka_buf_check_len len1 k else Ret (k, Some ()).

Definition rd_kafka_buf_peek (offset len : Z) : kparser (list Z) := fun k =>
  let len2 := u64 len in
  let! (d, r) := rd_slice_peek (rkbuf_buf k) (rkbuf_reader k) offset len2 in
  if r =? 0 then (let* _ := rd_kafka_buf_check_len (offset + len2) in pret d) k else Ret (k, Some d).

Definition rd_kafka_buf_read_i64 : kparser Z :=
  let* v := rd_kafka_buf_read 8 in pret (s64 (be_dec v)).
Definition rd_kafka_buf_peek_i64 (o : Z) : kparser Z :=
  let* v := rd_kafka_buf_peek o 8 in pret (s64 (be_dec v)).
Definition rd_kafka_buf_read_i32 : kparser Z :=
  let* v := rd_kafka_buf_read 4 in pret (s32 (be_dec v)).
Definition rd_kafka_buf_read_i16 : kparser Z :=
  let* v := rd_kafka_buf_read 2 in pret (s16 (be_dec v)).
Definition rd_kafka_buf_read_i8 : kparser Z :=
  let* v := rd_kafka_buf_read 1 in pret (s8 (be_dec v)).
Definition rd_kafka_buf_peek_i8 (o : Z) : kparser Z :=
  let* v := rd_kafka_buf_peek o 1 in pret (s8 (be_dec v)).
Definition rd_kafka_buf_read_bool : kparser bool :=
  let* v := rd_kafka_buf_read 1 in pret (negb (s8 (be_dec v) =? 0)).

(** [rd_varint_dec_slice] on the reader. *)
Definition kbuf_varint_dec (k : rd_kafka_buf) : outcome (rd_kafka_buf * Z * option Z) :=
  let! (sl, r, v) := rd_varint_dec_slice (R := slice_of (rkbuf_buf k)) (rkbuf_reader k) in
  Ret (set_rk_reader sl k, r, v).

Definition rd_kafka_buf_read_varint : kparser Z := fun k =>
  let! (k, r, v) := kbuf_varint_dec k in
  if RD_UVARINT_UNDERFLOW r then rd_kafka_buf_underflow_fail k
  else Ret (k, Some (default 0 v)).

(** [rd_slice_ensure_contig] on the reader; a NULL result is followed by the
    length check, which passes when the bytes are there but not contiguous. *)
Definition kbuf_ensure_contig (size : Z) : kparser (option (list Z)) := fun k =>
  let! (sl, p) := rd_slice_ensure_contig (rkbuf_buf k) (rkbuf_reader k) (u64 size) in
  let k := set_rk_reader sl k in
  match p with
  | Some d => Ret (k, Some (Some d))
  | None => (let* _ := rd_kafka_buf_check_len size in pret None) k
  end.

Definition rd_kafka_buf_read_str : kparser rd_kafkap_str :=
  let* len := rd_kafka_buf_read_i16 in
  let klen := RD_KAFKAP_STR_LEN0 len in
  if len =? RD_KAFKAP_STR_LEN_NULL then pret (mk_kstr len None [])
  else let* p := kbuf_ensure_contig klen in pret (mk_kstr len p []).

Definition rd_kafka_buf_skip_str : kparser () :=
  let* slen := rd_kafka_buf_read_i16 in rd_kafka_buf_skip (RD_KAFKAP_STR_LEN0 slen).

Definition rd_kafka_buf_read_bytes : kparser rd_kafkap_bytes :=
  let* klen := rd_kafka_buf_read_i32 in
  if klen =? RD_KAFKAP_BYTES_LEN_NULL then pret (mk_kbytes 0 None [])
  else if RD_KAFKAP_BYTES_LEN0 klen =? 0 then pret (mk_kbytes klen (Some []) [])
  else let* p := kbuf_ensure_contig klen in pret (mk_kbytes klen p []).

Definition rd_kafka_buf_read_ptr (size : Z) : kparser (option (list Z)) := kbuf_ensure_contig size.

(** The stored length is the varint truncated to 32 bits, the bytes consumed
    are those of the full length. *)
Definition rd_kafka_buf_read_bytes_varint : kparser rd_kafkap_bytes := fun k =>
  let! (k, r, v) := kbuf_varint_dec k in
  if RD_UVARINT_UNDERFLOW r then rd_kafka_buf_underflow_fail k
  else
    let len2 := default 0 v in
    let len := s32 len2 in
    if len =? RD_KAFKAP_BYTES_LEN_NULL then Ret (k, Some (mk_kbytes 0 None []))
    else if RD_KAFKAP_BYTES_LEN0 len =? 0 then Ret (k, Some (mk_kbytes len (Some []) []))
    else (let* p := kbuf_ensure_contig len2 in pret (mk_kbytes len p [])) k.

(** *** Aligned temporary buffers *)

Record rd_tmpabuf : Type := mk_tmpabuf {
  tab_size : Z;
  tab_of : Z;
  tab_buf : list Z;
  tab_failed : bool;
  tab_assert_on_fail : bool }.

Definition rd_tmpabuf_new (size : Z) (assert_on_fail : bool) : rd_tmpabuf :=
  mk_tmpabuf size 0 (default [] (fresh_mem size)) false assert_on_fail.

Definition rd_tmpabuf_failed (tab : rd_tmpabuf) : bool := tab_failed tab.

(** The offset allocated, [None] for NULL. *)
Definition rd_tmpabuf_alloc0 (tab : rd_tmpabuf) (size : Z) : outcome (rd_tmpabuf * option Z) :=
  if tab_failed tab then Ret (tab, None)
  else if u64 (tab_of tab + size) >? tab_size tab then
    assert! (negb (tab_assert_on_fail tab)) in Ret (tab, None)
  else Ret (mk_tmpabuf (tab_size tab) (tab_of tab + RD_ROUNDUP8 size) (tab_buf tab) (tab_failed tab)
              (tab_assert_on_fail tab), Some (tab_of tab)).

Definition rd_tmpabuf_write0 (tab : rd_tmpabuf) (buf : list Z) (size : Z)
  : outcome (rd_tmpabuf * option Z) :=
  let! (tab, ptr) := rd_tmpabuf_alloc0 tab size in
  match ptr with
  | None => Ret (tab, None)
  | Some o => Ret (mk_tmpabuf (tab_size tab) (tab_of tab) (mem_write (tab_buf tab) o (ztake size buf))
                     (tab_failed tab) (tab_assert_on_fail tab), Some o)
  end.

Definition rd_tmpabuf_write_str0 (tab : rd_tmpabuf) (str : list Z) : outcome (rd_tmpabuf * option Z) :=
  rd_tmpabuf_write0 tab (cstr str ++ [0]) (strlen str + 1).

(** ** Code: writing *)

Definition crc_flag (k : rd_kafka_buf) : bool :=
  negb (Z.land (rkbuf_flags k) RD_KAFKA_OP_F_CRC =? 0).

(** [data] is the memory at the pointer, of which [len] bytes are read; [None]
    for a NULL pointer: the checksum would read through it. *)
Definition rd_kafka_buf_write (k : rd_kafka_buf) (data : option (list Z)) (len : Z)
  : outcome (rd_kafka_buf * Z) :=
  let data := ztake len <$> data in
  let! (b, r) := rd_buf_write (rkbuf_buf k) data len in
  let k := set_rk_buf b k in
  if crc_flag k then
    match data with
    | Some d => Ret (set_rk_crc (rkbuf_flags k) (rd_crc32_update (rkbuf_crc k) d) k, r)
    | None => if len =? 0 then Ret (k, r) else Crash
    end
  else Ret (k, r).

Definition rd_kafka_buf_update (k : rd_kafka_buf) (o : Z) (data : list Z) (len : Z)
  : outcome rd_kafka_buf :=
  assert! (negb (crc_flag k)) in
  let! (b, _) := rd_buf_write_update (rkbuf_buf k) o data len in Ret (set_rk_buf b k).

Definition rd_kafka_buf_write_i8 (k : rd_kafka_buf) (v : Z) : outcome (rd_kafka_buf * Z) :=
  rd_kafka_buf_write k (Some (be_enc 1 v)) 1.
Definition rd_kafka_buf_write_i16 (k : rd_kafka_buf) (v : Z) : outcome (rd_kafka_buf * Z) :=
  rd_kafka_buf_write k (Some (be_enc 2 v)) 2.
Definition rd_kafka_buf_write_i32 (k : rd_kafka_buf) (v : Z) : outcome (rd_kafka_buf * Z) :=
  rd_kafka_buf_write k (Some (be_enc 4 v)) 4.
Definition rd_kafka_buf_write_i64 (k : rd_kafka_buf) (v : Z) : outcome (rd_kafka_buf * Z) :=
  rd_kafka_buf_write k (Some (be_enc 8 v)) 8.
Definition rd_kafka_buf_update_i8 (k : rd_kafka_buf) (o v : Z) : outcome rd_kafka_buf :=
  rd_kafka_buf_update k o (be_enc 1 v) 1.
Definition rd_kafka_buf_update_i16 (k : rd_kafka_buf) (o v : Z) : outcome rd_kafka_buf :=
  rd_kafka_buf_update k o (be_enc 2 v) 2.
Definition rd_kafka_buf_update_i32 (k : rd_kafka_buf) (o v : Z) : outcome rd_kafka_buf :=
  rd_kafka_buf_update k o (be_enc 4 v) 4.
Definition rd_kafka_buf_update_u32 (k : rd_kafka_buf) (o v : Z) : outcome rd_kafka_buf :=
  rd_kafka_buf_update k o (be_enc 4 v) 4.
Definition rd_kafka_buf_update_i64 (k : rd_kafka_buf) (o v : Z) : outcome rd_kafka_buf :=
  rd_kafka_buf_update k o (be_enc 8 v) 8.

Definition rd_kafka_buf_write_varint (k : rd_kafka_buf) (v : Z) : outcome (rd_kafka_buf * Z) :=
  let! (sz, varint) := rd_uvarint_enc_i64 (RD_UVARINT_ENC_SIZEOF 8) v in
  rd_kafka_buf_write k (Some varint) sz.

Definition rd_kafka_buf_write_kstr (k : rd_kafka_buf) (kstr : rd_kafkap_str)
  : outcome (rd_kafka_buf * Z) :=
  rd_kafka_buf_write k (Some (RD_KAFKAP_STR_SER kstr)) (RD_KAFKAP_STR_SIZE kstr).

Definition rd_kafka_buf_write_str (k : rd_kafka_buf) (str : option (list Z)) (len : Z)
  : outcome (rd_kafka_buf * Z) :=
  let len := match str with
             | None => u64 RD_KAFKAP_STR_LEN_NULL
             | Some s => if len =? SIZE_MAX then strlen s else len
             end in
  let! (k, r) := rd_kafka_buf_write_i16 k (s16 len) in
  match str with
  | None => Ret (k, r)
  | Some s => let! (k, _) := rd_kafka_buf_write k (Some s) len in Ret (k, r)
  end.

Definition rd_kafka_buf_push0 (k : rd_kafka_buf) (buf : option (list Z)) (len : Z)
    (allow_crc_calc : bool) (free_cb : option nat) : outcome rd_kafka_buf :=
  let! b := rd_buf_push (rkbuf_buf k) buf len free_cb in
  let k := set_rk_buf b k in
  if allow_crc_calc && crc_flag k then
    match buf with
    | Some d => Ret (set_rk_crc (rkbuf_flags k) (rd_crc32_update (rkbuf_crc k) (ztake len d)) k)
    | None => if len =? 0 then Ret k else Crash
    end
  else Ret k.

Definition rd_kafka_buf_push (k : rd_kafka_buf) (buf : option (list Z)) (len : Z)
    (free_cb : option nat) : outcome rd_kafka_buf :=
  rd_kafka_buf_push0 k buf len true free_cb.

Definition rd_kafka_buf_push_kstr (k : rd_kafka_buf) (kstr : rd_kafkap_str) : outcome rd_kafka_buf :=
  rd_kafka_buf_push k (Some (RD_KAFKAP_STR_SER kstr)) (RD_KAFKAP_STR_SIZE kstr) None.

Definition rd_kafka_buf_write_kbytes (k : rd_kafka_buf) (kbytes : rd_kafkap_bytes)
  : outcome (rd_kafka_buf * Z) :=
  rd_kafka_buf_write k (Some (RD_KAFKAP_BYTES_SER kbytes)) (RD_KAFKAP_BYTES_SIZE kbytes).

Definition rd_kafka_buf_push_kbytes (k : rd_kafka_buf) (kbytes : rd_kafkap_bytes)
  : outcome rd_kafka_buf :=
  rd_kafka_buf_push k (Some (RD_KAFKAP_BYTES_SER kbytes)) (RD_KAFKAP_BYTES_SIZE kbytes) None.

Definition rd_kafka_buf_write_bytes (k : rd_kafka_buf) (payload : option (list Z)) (size : Z)
  : outcome (rd_kafka_buf * Z) :=
  let size := match payload with None => u64 RD_KAFKAP_BYTES_LEN_NULL | Some _ => size end in
  let! (k, r) := rd_kafka_buf_write_i32 k (s32 size) in
  match payload with
  | None => Ret (k, r)
  | Some p => let! (k, _) := rd_kafka_buf_write k (Some p) size in Ret (k, r)
  end.

Definition rd_kafka_buf_crc_init (k : rd_kafka_buf) : outcome rd_kafka_buf :=
  assert! (negb (crc_flag k)) in
  Ret (set_rk_crc (Z.lor (rkbuf_flags k) RD_KAFKA_OP_F_CRC) rd_crc32_init k).

Definition rd_kafka_buf_crc_finalize (k : rd_kafka_buf) : rd_kafka_buf * Z :=
  (set_rk_crc (Z.land (rkbuf_flags k) (Z.lnot RD_KAFKA_OP_F_CRC)) (rkbuf_crc k) k,
   rd_crc32_finalize (rkbuf_crc k)).

(** ** Code: constructors and timeouts *)

Definition null_slice : rd_slice := mk_slice None 0 0 0.

Definition rd_kafka_buf_new0 (segcnt size flags : Z) : outcome rd_kafka_buf :=
  let! b := rd_buf_init segcnt size in
  Ret (mk_rkbuf flags b null_slice 0 0 0 0 0 0 0 0 rd_kafka_msgq_init 0).

Definition RD_KAFKAP_REQHDR_SIZE : Z := 4 + 2 + 2 + 4.

Definition rd_kafka_buf_new_request (client_id : rd_kafkap_str) (socket_timeout_ms ApiKey segcnt size : Z)
  : outcome rd_kafka_buf :=
  let size := size + (RD_KAFKAP_REQHDR_SIZE + RD_KAFKAP_STR_SIZE client_id) in
  let! k := rd_kafka_buf_new0 (segcnt + 1) size 0 in
  let k := mk_rkbuf (rkbuf_flags k) (rkbuf_buf k) (rkbuf_reader k) (rkbuf_crc k) ApiKey
             (rkbuf_ApiVersion k) (rkbuf_features k) (rkbuf_totlen k) socket_timeout_ms
             (rkbuf_abs_timeout k) (rkbuf_ts_timeout k) (rkbuf_msgq k) (rkbuf_err k) in
  let! (k, _) := rd_kafka_buf_write_i32 k 0 in
  let! (k, _) := rd_kafka_buf_write_i16 k ApiKey in
  let! (k, _) := rd_kafka_buf_write_i16 k 0 in
  let! (k, _) := rd_kafka_buf_write_i32 k 0 in
  let! (k, _) := rd_kafka_buf_write_kstr k client_id in
  Ret k.

Definition rd_kafka_buf_new_shadow (ptr : list Z) (size : Z) (free_cb : option nat)
  : outcome rd_kafka_buf :=
  let! b := rd_buf_init 1 0 in
  let! b := rd_buf_push b (Some ptr) size free_cb in
  let! sl := rd_slice_init_full b in
  Ret (mk_rkbuf 0 b sl 0 (-1) 0 0 size 0 0 0 rd_kafka_msgq_init 0).

Definition rd_kafka_buf_ApiVersion_set (k : rd_kafka_buf) (version features : Z) : rd_kafka_buf :=
  mk_rkbuf (rkbuf_flags k) (rkbuf_buf k) (rkbuf_reader k) (rkbuf_crc k) (rkbuf_ApiKey k) version
    features (rkbuf_totlen k) (rkbuf_rel_timeout k) (rkbuf_abs_timeout k) (rkbuf_ts_timeout k)
    (rkbuf_msgq k) (rkbuf_err k).

Definition rd_kafka_buf_set_timeout (k : rd_kafka_buf) (timeout_ms : Z) : rd_kafka_buf :=
  set_rk_timeouts timeout_ms 0 (rkbuf_ts_timeout k) k.

(** [clock] is [rd_clock ()]. *)
Definition rd_kafka_buf_set_abs_timeout (clock : Z) (k : rd_kafka_buf) (timeout_ms now : Z)
  : rd_kafka_buf :=
  let now := if now =? 0 then clock else now in
  set_rk_timeouts 0 (now + timeout_ms * 1000) (rkbuf_ts_timeout k) k.

Definition rd_kafka_buf_calc_timeout (socket_timeout_ms : Z) (k : rd_kafka_buf) (now : Z)
  : rd_kafka_buf :=
  if negb (rkbuf_rel_timeout k =? 0)
  then set_rk_timeouts (rkbuf_rel_timeout k) (rkbuf_abs_timeout k)
         (now + rkbuf_rel_timeout k * 1000) k
  else set_rk_timeouts (rkbuf_rel_timeout k) (rkbuf_abs_timeout k)
         (Z.min (now + socket_timeout_ms * 1000) (rkbuf_abs_timeout k)) k.
