(* ===== verification/KBufFacts.v ===== *)
(** * Reading protocol buffers: specification

    A buffer whose reader window lies in one segment is seen as the bytes left
    in the window.  [reads p w a] says that parser [p] consumes exactly the
    bytes [w] and returns [a], whatever follows; it composes along [pbind], so
    the decoding of a record is the concatenation of the decodings of its
    fields. *)
From Stdlib Require Import ZArith Lia.
From stdpp Require Import base numbers list.
From S2P Require Import Prelude Varint Buf BufFacts BufSeek BufSpec Slice SliceFacts Crc Reader.
From S2P Require Import RdList Proto Header Msg KBuf.

(** ** The unread bytes *)

(** The reader of [k] is over the window [st, en) and [rest] is unread.  The
    window lies in one segment: received payloads and decompressed data are
    allocated contiguously. *)
Record kview (st en : Z) (k : rd_kafka_buf) (rest : list Z) : Prop := mk_kview {
  kv_wf : read_wf (rkbuf_buf k);
  kv_len : rbuf_len (rkbuf_buf k) < 2 ^ 63;
  kv_seg : exists i s, rbuf_segments (rkbuf_buf k) !! i = Some s /\
    seg_absof s <= st /\ st <= en - zlen rest /\ en <= seg_absof s + seg_of s /\
    rkbuf_reader k = mk_slice (Some i) (en - zlen rest - seg_absof s) st en;
  kv_rest : bytes_at (rkbuf_buf k) (en - zlen rest) (zlen rest) = rest }.

Definition adv (n : Z) (k : rd_kafka_buf) : rd_kafka_buf :=
  set_rk_reader (mk_slice (sl_seg (rkbuf_reader k)) (sl_rof (rkbuf_reader k) + n)
                   (sl_start (rkbuf_reader k)) (sl_end (rkbuf_reader k))) k.

Lemma adv_adv n m k : adv m (adv n k) = adv (n + m) k.
Proof. unfold adv, set_rk_reader. simpl. by rewrite Z.add_assoc. Qed.

Lemma adv_0 k : adv 0 k = k.
Proof. unfold adv, set_rk_reader. rewrite Z.add_0_r. by destruct k as [? ? [] ? ? ? ? ? ? ? ? ? ?]. Qed.

Lemma seg_lookup_split b i s :
  read_wf b -> rbuf_segments b !! i = Some s ->
  exists l1 l2, rbuf_segments b = l1 ++ s :: l2 /\ i = length l1 /\ seg_absof s = sum_of l1 /\
    seg_ok s /\ sum_of l1 + seg_of s <= rbuf_len b /\ 0 <= sum_of l1.
Proof.
  intros R Hi. apply list_elem_of_split_length in Hi as (l1 & l2 & Hs & ->). exists l1, l2.
  pose proof (rw_chain _ R) as Hc. pose proof (rw_ok _ R) as Hok. pose proof (rw_len _ R) as Hl.
  rewrite Hs in *. apply chain_app in Hc as [_ [Ha _]]. rewrite sum_of_app in Hl. simpl in Hl.
  apply Forall_app in Hok as [Hok1 Hok2]. apply Forall_cons in Hok2 as [Ho Hok2].
  pose proof (sum_of_nonneg _ Hok1). pose proof (sum_of_nonneg _ Hok2). split_and!; try done; lia.
Qed.

Section view.
Context (st en : Z) (k : rd_kafka_buf).

Lemma kview_bounds rest :
  kview st en k rest -> 0 <= st <= en - zlen rest /\ en <= rbuf_len (rkbuf_buf k) /\ en < 2 ^ 63.
Proof.
  intros [R Hl (i & s & Hi & Ha & Hr & He & Hs) _].
  destruct (seg_lookup_split _ _ _ R Hi) as (l1 & l2 & _ & _ & Habs & _ & Hle & Hp). lia.
Qed.

Lemma kview_slice rest :
  kview st en k rest -> slice_at (rkbuf_buf k) (rkbuf_reader k) (en - zlen rest).
Proof.
  intros V. pose proof (kview_bounds rest V) as Hb. destruct V as [R Hl (i & s & Hi & Ha & Hr & He & Hs) _].
  destruct (seg_lookup_split _ _ _ R Hi) as (l1 & l2 & Hsegs & -> & Habs & _ & Hle & Hp).
  rewrite Hs. split.
  - exists l1, s, l2. simpl. split_and!; try done; lia.
  - simpl. lia.
Qed.

Lemma kview_remain rest :
  kview st en k rest ->
  rd_kafka_buf_read_remain k = Ret (zlen rest) /\
  rd_slice_offset (rkbuf_buf k) (rkbuf_reader k) = Ret (en - zlen rest - st).
Proof.
  intros V. pose proof (kview_slice rest V) as S. pose proof (kview_bounds rest V) as Hb.
  assert (Hm : rbuf_len (rkbuf_buf k) < 2 ^ 64) by (pose proof (kv_len _ _ _ _ V); lia).
  destruct (slice_deref _ (kv_wf _ _ _ _ V) Hm _ _ S) as (_ & Hr & Ho).
  destruct V as [_ _ (i & s & _ & _ & _ & _ & Hs) _]. unfold rd_kafka_buf_read_remain.
  rewrite Hr, Ho, Hs. simpl. split; f_equal; lia.
Qed.

Lemma kview_adv w rest : kview st en k (w ++ rest) -> kview st en (adv (zlen w) k) rest.
Proof.
  intros V. pose proof (kview_bounds _ V) as Hb.
  destruct V as [R Hl (i & s & Hi & Ha & Hr & He & Hs) Hx].
  assert (Hz : zlen (w ++ rest) = zlen w + zlen rest) by (rewrite length_app; lia).
  constructor; simpl; try done.
  - exists i, s. rewrite Hs. simpl. split_and!; try done; try lia. f_equal; lia.
  - pose proof (read_wf_zlen _ R) as Hc.
    apply (f_equal (zdrop (zlen w))) in Hx. rewrite zdrop_bytes_at in Hx by lia.
    replace (en - zlen (w ++ rest) + zlen w) with (en - zlen rest) in Hx by lia.
    replace (zlen (w ++ rest) - zlen w) with (zlen rest) in Hx by lia. rewrite Hx.
    unfold zdrop. by rewrite Nat2Z.id, drop_app_length.
Qed.
End view.

(** Reading inside the current segment only moves the offset. *)
Lemma slice_read_in_seg b sl pos n i s :
  read_wf b -> rbuf_len b < 2 ^ 63 -> slice_at b sl pos -> sl_seg sl = Some i ->
  rbuf_segments b !! i = Some s -> 0 <= n -> pos + n <= seg_absof s + seg_of s ->
  pos + n <= sl_end sl ->
  rd_slice_read b sl n = Ret (mk_slice (Some i) (sl_rof sl + n) (sl_start sl) (sl_end sl),
                              bytes_at b pos n, n).
Proof.
  intros R Hm S Hseg Hi Hn Hin Hend. pose proof S as ((l1 & s' & l2 & Hs & Hseg' & Hr & Hp) & Hst & He).
  rewrite Hseg in Hseg'. injection Hseg' as ->.
  assert (s' = s) as ->. { rewrite Hs, list_lookup_middle in Hi by done. congruence. }
  destruct (seg_lookup_split _ _ _ R Hi) as (l3 & l4 & _ & _ & _ & Hok & Hle & Hp0).
  pose proof (rw_chain _ R) as Hc. rewrite Hs in Hc. apply chain_app in Hc as [_ [Ha _]]. simpl in Ha.
  destruct (slice_read_spec b R ltac:(lia) sl pos n S Hn) as (sl' & Hread & _).
  destruct (Z.ltb_spec (sl_end sl - pos) n); [lia|]. unfold rd_slice_read in *.
  destruct (slice_deref b R ltac:(lia) sl pos S) as (Habs & Hrem & _). rewrite Hrem, Habs in *.
  cbn [obind] in *. destruct (Z.ltb_spec (sl_end sl - pos) n); [lia|].
  set (sl1 := set_sl_end (pos + n) sl) in *.
  pose proof (slice_at_end b sl pos (pos + n) S ltac:(lia)) as S1.
  unfold slice_fuel in *. replace (sl_end sl1) with (pos + n) in * by done.
  destruct (Z.eq_dec n 0) as [->|Hne].
  - cbn [reader_loop] in *. destruct (reader_end b R sl1 pos S1) as (p & Hre); [simpl; lia|].
    rewrite Hre in *. cbn [obind] in *. simpl in *. rewrite Z.add_0_r.
    change (bytes_at b pos 0) with (@nil Z). unfold set_sl_end. simpl. by rewrite Hseg.
  - assert (Hf : exists f, Z.to_nat (pos + n) = Datatypes.S f) by (exists (pred (Z.to_nat (pos + n))); lia).
    destruct Hf as [f Hf]. rewrite Hf in *. cbn [reader_loop] in *.
    assert (Hr0 : rd_slice_reader b sl1 =
       Ret (set_sl_pos (length l1) (sl_rof sl + n) sl1, n, (length l1, sl_rof sl))).
    { unfold rd_slice_reader, rd_slice_reader0. change (sl_seg sl1) with (sl_seg sl).
      change (sl_rof sl1) with (sl_rof sl). change (sl_end sl1) with (pos + n).
      rewrite Hseg, Hs, drop_middle. cbn [reader_scan].
      destruct (Z.eqb_spec (seg_of s) (sl_rof sl)); [lia|]. rewrite andb_false_r, Z.geb_leb.
      destruct (Z.leb_spec (pos + n) (seg_absof s + sl_rof sl)); [lia|].
      destruct (Z.leb_spec (seg_absof s + sl_rof sl) (pos + n)); [|lia].
      rewrite (proj1 (proj2 (slice_deref b R ltac:(lia) sl1 pos S1))). cbn [obind].
      rewrite bool_decide_true by done. simpl sl_end.
      replace (pos + n - pos) with n by lia.
      rewrite uwrap_id by (unfold u_ok; pose proof (read_wf_zlen b R); lia).
      rewrite Z.min_r by lia. done. }
    rewrite Hr0 in *. cbn [obind] in *. destruct (Z.eqb_spec n 0); [lia|].
    assert (S2 : slice_at b (set_sl_pos (length l1) (sl_rof sl + n) sl1) (pos + n)).
    { split; [|simpl; lia]. exists l1, s, l2. simpl. split_and!; try done; lia. }
    destruct (reader_end b R _ (pos + n) S2) as (p & Hre); [simpl; lia|].
    rewrite Hre in *. cbn [obind] in *. simpl in *. injection Hread as _ <-. done.
Qed.

(** ** Every reading macro on arbitrary bytes *)

Lemma set_rk_reader_id k : set_rk_reader (rkbuf_reader k) k = k.
Proof. by destruct k. Qed.

Definition underflow {A} (k : rd_kafka_buf) : outcome (rd_kafka_buf * option A) :=
  Ret (set_rk_err RD_KAFKA_RESP_ERR__UNDERFLOW k, None).

Section total.
Context (st en : Z) (k : rd_kafka_buf) (rest : list Z) (V : kview st en k rest).

Let Hb := kview_bounds st en k rest V.
Let Hm : rbuf_len (rkbuf_buf k) < 2 ^ 64.
Proof. pose proof (kv_len _ _ _ _ V). lia. Qed.

Lemma kread_spec n :
  0 <= n ->
  kbuf_slice_read k n =
    if zlen rest <? n then Ret (k, [], 0) else Ret (adv n k, ztake n rest, n).
Proof.
  intros Hn. unfold kbuf_slice_read. pose proof (kview_slice st en k rest V) as S.
  pose proof V as [R Hl (i & s & Hi & Ha & Hr & He & Hs) Hx].
  assert (Hend : sl_end (rkbuf_reader k) = en) by (by rewrite Hs).
  destruct (Z.ltb_spec (zlen rest) n).
  - destruct (slice_read_spec _ R Hm _ _ n S Hn) as (sl' & Hrd & _). rewrite Hend in Hrd.
    destruct (Z.ltb_spec (en - (en - zlen rest)) n); [|lia]. rewrite Hrd. cbn [obind].
    by rewrite set_rk_reader_id.
  - rewrite (slice_read_in_seg _ _ _ n i s R Hl S); try done; try lia; [|by rewrite Hs].
    cbn [obind]. f_equal. f_equal. f_equal.
    + unfold adv. by rewrite Hs.
    + rewrite <- Hx at 2. by rewrite ztake_bytes_at by lia.
Qed.

Lemma check_len_spec n :
  rd_kafka_buf_check_len n k = if zlen rest <? u64 n then underflow k else Ret (k, Some ()).
Proof.
  unfold rd_kafka_buf_check_len. rewrite (proj1 (kview_remain st en k rest V)). cbn [obind].
  by rewrite Z.gtb_ltb.
Qed.

Lemma read_spec n :
  0 <= n < 2 ^ 64 ->
  rd_kafka_buf_read n k = if zlen rest <? n then underflow k else Ret (adv n k, Some (ztake n rest)).
Proof.
  intros Hn. unfold rd_kafka_buf_read. rewrite uwrap_id by exact Hn.
  rewrite kread_spec by lia. destruct (Z.ltb_spec (zlen rest) n); cbn [obind].
  - rewrite Z.eqb_refl. unfold pbind. rewrite check_len_spec, uwrap_id by exact Hn.
    by destruct (Z.ltb_spec (zlen rest) n); [|lia].
  - destruct (Z.eqb_spec n 0) as [->|]; [|done]. rewrite adv_0. unfold pbind.
    rewrite check_len_spec. change (u64 0) with 0. by destruct (Z.ltb_spec (zlen rest) 0); [lia|].
Qed.

Lemma skip_spec n :
  rd_kafka_buf_skip n k = if zlen rest <? u64 n then underflow k else Ret (adv (u64 n) k, Some ()).
Proof.
  unfold rd_kafka_buf_skip. pose proof (uwrap_ok 64 n ltac:(lia)) as Hn.
  destruct (Z.eqb_spec (u64 n) 0) as [->|Hne].
  - rewrite adv_0. by destruct (Z.ltb_spec (zlen rest) 0); [lia|].
  - rewrite kread_spec by apply Hn. destruct (Z.ltb_spec (zlen rest) (u64 n)) as [Hlt|Hge]; cbn [obind].
    + rewrite Z.eqb_refl, check_len_spec, (uwrap_id 64 (u64 n)) by exact Hn.
      by destruct (Z.ltb_spec (zlen rest) (u64 n)); [|lia].
    + by destruct (Z.eqb_spec (u64 n) 0).
Qed.

(** Skipping to a position of the window; a position already passed is an
    underflow. *)
Lemma skip_to_spec p :
  0 <= p < 2 ^ 63 ->
  let d := p - (en - zlen rest - st) in
  rd_kafka_buf_skip_to p k =
    if (d <? 0) || (zlen rest <? d) then underflow k else Ret (adv d k, Some ()).
Proof.
  intros Hp d. unfold rd_kafka_buf_skip_to. rewrite (proj2 (kview_remain st en k rest V)). cbn [obind].
  fold d. change (rd_kafka_buf_skip d k = if (d <? 0) || (zlen rest <? d) then underflow k
                  else Ret (adv d k, Some ())).
  rewrite skip_spec. subst d. set (d := p - _). destruct (Z.ltb_spec d 0); cbn [orb].
  - assert (u64 d = d + 2 ^ 64) as ->.
    { unfold uwrap. rewrite <- (Z_mod_plus_full d 1), Z.mod_small; lia. }
    destruct (Z.ltb_spec (zlen rest) (d + 2 ^ 64)); [done|lia].
  - by rewrite uwrap_id by (unfold u_ok; lia).
Qed.

Lemma ensure_contig_spec n :
  kbuf_ensure_contig n k =
    if zlen rest <? u64 n then underflow k
    else Ret (adv (u64 n) k, Some (Some (ztake (u64 n) rest))).
Proof.
  unfold kbuf_ensure_contig, rd_slice_ensure_contig.
  pose proof (uwrap_ok 64 n ltac:(lia)) as Hn. pose proof (kview_slice st en k rest V) as S.
  pose proof (proj1 (kview_remain st en k rest V)) as Hrem. unfold rd_kafka_buf_read_remain in Hrem.
  rewrite Hrem. cbn [obind]. pose proof V as [R Hl (i & s & Hi & Ha & Hr & He & Hs) Hx].
  destruct (Z.ltb_spec (zlen rest) (u64 n)) as [Hlt|Hge]; cbn [obind].
  - rewrite set_rk_reader_id. unfold pbind. rewrite check_len_spec.
    by destruct (Z.ltb_spec (zlen rest) (u64 n)); [|lia].
  - rewrite Hs. cbn [sl_seg sl_rof]. rewrite Hi.
    destruct (seg_lookup_split _ _ _ R Hi) as (l1 & l2 & Hsegs & Hil & Habs & Hok & Hle & Hp0).
    unfold u_ok in Hn.
    rewrite (uwrap_id 64 (_ + _)) by (unfold u_ok; lia). rewrite Z.gtb_ltb.
    destruct (Z.ltb_spec (seg_of s) (en - zlen rest - seg_absof s + u64 n)); [lia|].
    rewrite <- Hs. rewrite (slice_read_in_seg _ _ _ (u64 n) i s R Hl S); try done; try lia;
      [|by rewrite Hs..|by rewrite Hs; simpl; lia].
    cbn [obind]. f_equal. f_equal.
    + unfold adv. by rewrite Hs.
    + f_equal. f_equal. subst i. rewrite (seg_bytes_at _ l1 s l2); try done; try lia;
        [|apply (rw_ok _ R)]. rewrite <- Hx at 2. rewrite ztake_bytes_at by lia. f_equal. lia.
Qed.

Lemma peek_spec d n :
  0 <= d -> en + d < 2 ^ 63 -> 0 < n < 2 ^ 62 ->
  rd_kafka_buf_peek (en - zlen rest - st + d) n k =
    if zlen rest <? d + n then underflow k else Ret (k, Some (ztake n (zdrop d rest))).
Proof.
  intros Hd Hed Hn. unfold rd_kafka_buf_peek, rd_slice_peek. rewrite (uwrap_id 64 n) by (unfold u_ok; lia).
  pose proof (kview_slice st en k rest V) as S.
  pose proof V as [R Hl (i & s & Hi & Ha & Hr & He & Hs) Hx]. pose proof (read_wf_zlen _ R) as Hc.
  set (o := en - zlen rest - st + d). assert (Ho : 0 <= o < 2 ^ 63) by (unfold o; lia).
  destruct (slice_seek_spec _ R _ _ o S Ho Hl) as (sub & Hsk & Hsub).
  assert (E1 : sl_start (rkbuf_reader k) = st) by (by rewrite Hs).
  assert (E2 : sl_end (rkbuf_reader k) = en) by (by rewrite Hs). rewrite E1, E2 in *.
  replace (st + o) with (en - zlen rest + d) in * by (unfold o; lia).
  assert (Hfail : zlen rest < d + n ->
    (let* _ := rd_kafka_buf_check_len (o + n) in pret (@nil Z)) k = underflow k).
  { intros Hlt. unfold pbind. rewrite check_len_spec, uwrap_id by (unfold u_ok; lia).
    destruct (Z.ltb_spec (zlen rest) (o + n)); [done|]. unfold o in *. lia. }
  rewrite Hsk. destruct (Z.ltb_spec (en - zlen rest + d) en); cbn [obind].
  - destruct Hsub as (S2 & _ & E3); [lia|]. change (0 =? -1) with false. cbn iota.
    destruct (slice_read_spec _ R Hm sub _ n S2 ltac:(lia)) as (sub' & Hrd & _). rewrite E3 in Hrd.
    rewrite Hrd. destruct (Z.ltb_spec (en - (en - zlen rest + d)) n); cbn [obind].
    + rewrite Z.eqb_refl, Hfail by lia. by destruct (Z.ltb_spec (zlen rest) (d + n)); [|lia].
    + destruct (Z.eqb_spec n 0); [lia|]. destruct (Z.ltb_spec (zlen rest) (d + n)); [lia|].
      rewrite <- Hx at 2. rewrite zdrop_bytes_at, ztake_bytes_at by lia. done.
  - change (-1 =? -1) with true. cbn iota. cbn [obind]. rewrite Z.eqb_refl, Hfail by lia.
    by destruct (Z.ltb_spec (zlen rest) (d + n)); [|lia].
Qed.

(** *** Varints: the window as a byte source *)

(** Positions of the reader inside its window, with the same read function as
    the slice instance. *)
#[local] Instance window_source : ByteSource rd_slice := {|
  src_read := rd_slice_read (rkbuf_buf k);
  src_ok := fun sl => exists n, 0 <= n <= zlen rest /\ sl = rkbuf_reader (adv n k);
  src_rest := fun sl => zdrop (sl_rof sl - sl_rof (rkbuf_reader k)) rest |}.

Lemma window_rest n : src_rest (rkbuf_reader (adv n k)) = zdrop n rest.
Proof. simpl. f_equal. lia. Qed.
End total.

Lemma kview_adv_drop st en k rest n :
  kview st en k rest -> 0 <= n <= zlen rest -> kview st en (adv n k) (zdrop n rest).
Proof.
  intros V Hn. rewrite <- (ztake_zdrop n rest) in V.
  pose proof (kview_adv _ _ _ _ _ V) as V'. by rewrite zlen_ztake in V' by lia.
Qed.

Lemma window_laws st en k rest (V : kview st en k rest) :
  ByteSourceLaws rd_slice (BS := window_source k rest).
Proof.
  constructor. intros sl n (m & Hm & ->) Hn. rewrite window_rest, zlen_zdrop by lia.
  pose proof (kview_adv_drop st en k rest m V Hm) as V'.
  pose proof (kread_spec st en (adv m k) _ V' n Hn) as Hr. unfold kbuf_slice_read in Hr.
  rewrite zlen_zdrop in Hr by lia. exists (rkbuf_reader (adv (m + n) k)).
  change (src_read ?a ?b) with (rd_slice_read (rkbuf_buf (adv m k)) a b).
  destruct (rd_slice_read (rkbuf_buf (adv m k)) (rkbuf_reader (adv m k)) n) as [[[sl' d'] r']| |];
    [|by destruct (_ <? _)..]. cbn [obind] in Hr. split.
  - apply (f_equal (fun o => let! (k, d, r) := o in Ret (rkbuf_reader k, d, r))) in Hr.
    destruct (zlen rest - m <? n); [exact Hr|]. by rewrite adv_adv in Hr.
  - intros Hle. split; [exists (m + n); split; [lia|done]|].
    rewrite window_rest. unfold zdrop. rewrite drop_drop. f_equal. lia.
Qed.

(** The slice varint decoder on the unread bytes. *)
Lemma varint_dec_spec st en k rest :
  kview st en k rest ->
  match rd_uvarint_dec rest with
  | Ret (n, Some v) => kbuf_varint_dec k = Ret (adv n k, n, Some (unzigzag64 v)) /\ 0 < n <= zlen rest
  | Ret (_, None) => exists sl, kbuf_varint_dec k = Ret (set_rk_reader sl k, 0, None)
  | Crash => kbuf_varint_dec k = Crash
  | Diverge => False
  end.
Proof.
  intros V. pose proof (window_laws st en k rest V) as Laws.
  pose proof (varint_slice_loop_spec (BS := window_source k rest) rest 11 (rkbuf_reader k) 0 0) as H.
  change (7 * 0) with 0 in H. unfold rd_uvarint_dec, kbuf_varint_dec, rd_varint_dec_slice.
  set (loop := varint_slice_loop (BS := slice_source _) 11 (rkbuf_reader k) 0 0).
  change (varint_slice_loop (BS := window_source k rest) 11 (rkbuf_reader k) 0 0) with loop in H.
  destruct (uvarint_dec_loop rest 0 0 0) as [[n [v|]]| |] eqn:E.
  - destruct H as (r' & -> & (m & Hm & ->) & Hr).
    { exists 0. rewrite adv_0. split; [lia|done]. }
    { simpl. by rewrite Z.sub_diag. }
    { unfold u_ok. lia. } { lia. } { lia. }
    rewrite window_rest, Z.sub_0_r in Hr. cbn [obind].
    pose proof (uvarint_dec_loop_some _ _ _ _ _ _ E).
    assert (Hl : (length (zdrop m rest) = length (zdrop n rest))%nat) by (by rewrite Hr).
    unfold zdrop in Hl. rewrite !length_drop in Hl.
    assert (Hn : m = n \/ (zlen rest <= m /\ zlen rest <= n)) by lia.
    assert (m = n) as ->; [|split; [done|lia]].
    destruct Hn as [|[H1 H2]]; [done|]. pose proof (uvarint_dec_loop_le _ _ _ _ _ _ E). lia.
  - destruct H as (r' & -> ).
    { exists 0. rewrite adv_0. split; [lia|done]. }
    { simpl. by rewrite Z.sub_diag. }
    { unfold u_ok. lia. } { lia. } { lia. }
    cbn [obind]. by eexists.
  - rewrite H; try done; try lia.
    + exists 0. rewrite adv_0. split; [lia|done].
    + simpl. by rewrite Z.sub_diag.
  - apply H; try done; try lia.
    + exists 0. rewrite adv_0. split; [lia|done].
    + simpl. by rewrite Z.sub_diag.
Qed.

(** ** Parsers that consume a known prefix *)

Section reads.
Context {S : Type} {L : BufLens S} {LL : BufLensLaws S}.

Definition ladv (n : Z) (s : S) : S := lput (adv n (lget s)) s.

Definition reads {A} (p : parser S A) (w : list Z) (a : A) : Prop :=
  forall st en s rest, kview st en (lget s) (w ++ rest) -> p s = Ret (ladv (zlen w) s, Some a).

Lemma ladv_ladv n m s : ladv m (ladv n s) = ladv (n + m) s.
Proof. unfold ladv. by rewrite lput_lput, lget_lput, adv_adv. Qed.

Lemma ladv_0 s : ladv 0 s = s.
Proof. unfold ladv. by rewrite adv_0, lput_lget. Qed.

Lemma kview_ladv st en s w rest :
  kview st en (lget s) (w ++ rest) -> kview st en (lget (ladv (zlen w) s)) rest.
Proof. intros V. unfold ladv. rewrite lget_lput. by apply kview_adv. Qed.

Lemma reads_ret {A} (a : A) : reads (pret a) [] a.
Proof. intros st en s rest V. simpl. by rewrite ladv_0. Qed.

Lemma reads_bind {A B} (p : parser S A) (f : A -> parser S B) w1 w2 a b :
  reads p w1 a -> reads (f a) w2 b -> reads (pbind p f) (w1 ++ w2) b.
Proof.
  intros H1 H2 st en s rest V. rewrite <- app_assoc in V. unfold pbind. rewrite (H1 _ _ _ _ V).
  cbn [obind]. rewrite (H2 _ _ _ _ (kview_ladv _ _ _ _ _ V)), ladv_ladv, length_app.
  do 4 f_equal. lia.
Qed.

(** The last parser of a chain. *)
Lemma reads_bind_ret {A B} (p : parser S A) (f : A -> parser S B) w a b :
  reads p w a -> reads (f a) [] b -> reads (pbind p f) w b.
Proof. intros H1 H2. rewrite <- (app_nil_r w). by eapply reads_bind. Qed.

Lemma reads_onbuf {A} (p : kparser A) w a :
  (forall st en k rest, kview st en k (w ++ rest) -> p k = Ret (adv (zlen w) k, Some a)) ->
  reads (onbuf p) w a.
Proof. intros H st en s rest V. unfold onbuf. by rewrite (H _ _ _ _ V). Qed.
End reads.

Lemma reads_kbuf {S A} {L : BufLens S} (p : kparser A) w a : reads p w a -> reads (onbuf p) w a.
Proof. intros H. apply reads_onbuf. intros st en k rest V. exact (H st en k rest V). Qed.

Lemma ztake_app {A} (l1 l2 : list A) n : n = zlen l1 -> ztake n (l1 ++ l2) = l1.
Proof. intros ->. unfold ztake. by rewrite Nat2Z.id, take_app_length. Qed.

Lemma zdrop_app {A} (l1 l2 : list A) n : n = zlen l1 -> zdrop n (l1 ++ l2) = l2.
Proof. intros ->. unfold zdrop. by rewrite Nat2Z.id, drop_app_length. Qed.

Lemma reads_raw w : zlen w < 2 ^ 63 -> reads (rd_kafka_buf_read (zlen w)) w w.
Proof.
  intros Hw st en k rest V. rewrite (read_spec st en k _ V) by lia. rewrite length_app.
  destruct (Z.ltb_spec (zlen w + zlen rest) (zlen w)); [lia|].
  destruct (Z.ltb_spec (Z.of_nat (length w + length rest)) (zlen w)); [lia|].
  unfold ladv. simpl. by rewrite ztake_app.
Qed.

Lemma reads_be n v : reads (rd_kafka_buf_read (Z.of_nat n)) (be_enc n v) (be_enc n v).
Proof.
  pose proof (be_enc_length n v) as Hl.
  destruct (Z.ltb_spec (Z.of_nat n) (2 ^ 63)).
  - rewrite <- Hl at 1. apply reads_raw. lia.
  - intros st en k rest V. pose proof (kview_bounds _ _ _ _ V) as Hb. rewrite length_app in Hb. lia.
Qed.

Lemma be_dec_enc_w n w v :
  w = 8 * Z.of_nat n -> n <> O -> s_ok w v -> swrap w (be_dec (be_enc n v)) = v.
Proof. intros -> Hn Hv. by apply be_dec_enc_s. Qed.

Lemma reads_i64 v : s_ok 64 v -> reads rd_kafka_buf_read_i64 (be_enc 8 v) v.
Proof.
  intros Hv. eapply reads_bind_ret; [apply (reads_be 8)|].
  rewrite (be_dec_enc_w 8) by done. apply reads_ret.
Qed.
Lemma reads_i32 v : s_ok 32 v -> reads rd_kafka_buf_read_i32 (be_enc 4 v) v.
Proof.
  intros Hv. eapply reads_bind_ret; [apply (reads_be 4)|].
  rewrite (be_dec_enc_w 4) by done. apply reads_ret.
Qed.
Lemma reads_i16 v : s_ok 16 v -> reads rd_kafka_buf_read_i16 (be_enc 2 v) v.
Proof.
  intros Hv. eapply reads_bind_ret; [apply (reads_be 2)|].
  rewrite (be_dec_enc_w 2) by done. apply reads_ret.
Qed.
Lemma reads_i8 v : s_ok 8 v -> reads rd_kafka_buf_read_i8 (be_enc 1 v) v.
Proof.
  intros Hv. eapply reads_bind_ret; [apply (reads_be 1)|].
  rewrite (be_dec_enc_w 1) by done. apply reads_ret.
Qed.

Lemma kbuf_varint_dec_bytes st en k v rest :
  s_ok 64 v -> kview st en k (varint_bytes v ++ rest) ->
  kbuf_varint_dec k = Ret (adv (zlen (varint_bytes v)) k, zlen (varint_bytes v), Some v).
Proof.
  intros Hv V. pose proof (varint_dec_spec st en k _ V) as H. pose proof (dec_varint_bytes v rest Hv) as Hd.
  unfold rd_varint_dec_i64 in Hd. destruct (rd_uvarint_dec (varint_bytes v ++ rest)) as [[n [u|]]| |];
    try done; cbn [obind] in Hd.
  - destruct H as [-> _]. injection Hd as -> Hu. destruct (negb _); [|done].
    simpl in Hu. by injection Hu as ->.
  - destruct (negb _); done.
Qed.

Lemma varint_not_underflow v : RD_UVARINT_UNDERFLOW (zlen (varint_bytes v)) = false.
Proof.
  pose proof (varint_bytes_len v). unfold RD_UVARINT_UNDERFLOW. by apply Z.eqb_neq; lia.
Qed.

Lemma reads_varint v : s_ok 64 v -> reads rd_kafka_buf_read_varint (varint_bytes v) v.
Proof.
  intros Hv st en k rest V. unfold rd_kafka_buf_read_varint.
  rewrite (kbuf_varint_dec_bytes st en k v rest) by done. cbn [obind].
  by rewrite varint_not_underflow.
Qed.

Lemma reads_contig w : reads (kbuf_ensure_contig (zlen w)) w (Some w).
Proof.
  intros st en k rest V. pose proof (kview_bounds _ _ _ _ V) as Hb. rewrite length_app in Hb.
  rewrite (ensure_contig_spec st en k _ V), length_app, uwrap_id by (unfold u_ok; lia).
  destruct (Z.ltb_spec (Z.of_nat (length w + length rest)) (zlen w)); [lia|].
  unfold ladv. simpl. by rewrite ztake_app.
Qed.

(** Byte strings as the two encodings write and read them: the length of a
    null value is -1 on the wire and 0 in memory. *)
Definition opt_len (o : option (list Z)) : Z := match o with Some d => zlen d | None => -1 end.
Definition opt_data (o : option (list Z)) : list Z := default [] o.
Definition kbytes_of (o : option (list Z)) : rd_kafkap_bytes :=
  mk_kbytes (zlen (opt_data o)) o [].

Lemma reads_bytes o :
  zlen (opt_data o) < 2 ^ 31 ->
  reads rd_kafka_buf_read_bytes (be_enc 4 (opt_len o) ++ opt_data o) (kbytes_of o).
Proof.
  intros Ho. unfold rd_kafka_buf_read_bytes. eapply reads_bind.
  { apply reads_i32. unfold s_ok. destruct o; simpl in *; lia. }
  destruct o as [d|]; simpl in *; [|apply reads_ret]. unfold RD_KAFKAP_BYTES_LEN_NULL, RD_KAFKAP_BYTES_LEN0.
  destruct (Z.eqb_spec (zlen d) (-1)); [lia|].
  destruct (Z.eqb_spec (zlen d) RD_KAFKAP_BYTES_LEN_NULL); [unfold RD_KAFKAP_BYTES_LEN_NULL in *; lia|].
  destruct (Z.eqb_spec (zlen d) 0) as [Hz|Hz].
  - destruct d; [|simpl in Hz; lia]. apply reads_ret.
  - eapply reads_bind_ret; [apply reads_contig|]. apply reads_ret.
Qed.

Lemma reads_bytes_varint o :
  zlen (opt_data o) < 2 ^ 31 ->
  reads rd_kafka_buf_read_bytes_varint (varint_bytes (opt_len o) ++ opt_data o) (kbytes_of o).
Proof.
  intros Ho st en k rest V. rewrite <- app_assoc in V. cbn [lget buf_lens] in V.
  unfold rd_kafka_buf_read_bytes_varint.
  assert (Hv : s_ok 64 (opt_len o)) by (unfold s_ok; destruct o; simpl in *; lia).
  rewrite (kbuf_varint_dec_bytes _ _ _ _ _ Hv V). cbn [obind]. rewrite varint_not_underflow. simpl default.
  rewrite (swrap_id 32) by (try lia; unfold s_ok; destruct o; simpl in *; lia).
  pose proof (kview_adv _ _ _ _ _ V) as V'. rewrite length_app, Nat2Z.inj_add, <- ladv_ladv.
  change (ladv (zlen (varint_bytes (opt_len o))) k) with (adv (zlen (varint_bytes (opt_len o))) k).
  set (k1 := adv _ k) in *. destruct o as [d|]; simpl opt_len in *; simpl opt_data in *.
  - unfold RD_KAFKAP_BYTES_LEN_NULL, RD_KAFKAP_BYTES_LEN0.
    destruct (Z.eqb_spec (zlen d) (-1)); [lia|].
    destruct (Z.eqb_spec (zlen d) RD_KAFKAP_BYTES_LEN_NULL); [unfold RD_KAFKAP_BYTES_LEN_NULL in *; lia|].
    destruct (Z.eqb_spec (zlen d) 0) as [Hz|Hz].
    + destruct d; [|simpl in Hz; lia]. change (zlen []) with 0. by rewrite ladv_0.
    + unfold pbind. rewrite (reads_contig d _ _ _ _ V'). done.
  - change (zlen []) with 0. by rewrite ladv_0.
Qed.

Create HintDb rdk_reads discriminated.
#[export] Hint Resolve reads_ret reads_i64 reads_i32 reads_i16 reads_i8 reads_varint reads_contig
  reads_bytes reads_bytes_varint : rdk_reads.
