(* ===== verification/Queue.v ===== *)
(** * Operation queues: rdkafka_op.c, rdkafka_queue.h and rdkafka_queue.c

    A queue holds operations ordered by descending priority and first-in
    first-out within a priority.  A queue here is the one at the end of a
    forwarding chain; locks and wake-ups are left out.  The operations the
    MessageSet reader creates carry a fetched message or a consumer error. *)
From Stdlib Require Import ZArith Lia Sorting.Sorted.
From stdpp Require Import base numbers list sorting.
From S2P Require Import Prelude RdList Proto Header Msg MsgqSpec.

(** ** Data *)

Inductive rd_kafka_op_u : Type :=
| RD_KAFKA_OP_FETCH (rkm : rd_kafka_msg)
| RD_KAFKA_OP_CONSUMER_ERR (offset : Z)
| RD_KAFKA_OP_OTHER (type : Z).

Record rd_kafka_op : Type := mk_rko {
  rko_version : Z;
  rko_err : Z;
  rko_len : Z;
  rko_prio : Z;
  rko_u : rd_kafka_op_u }.

Record rd_kafka_q : Type := mk_rkq {
  rkq_q : list rd_kafka_op;
  rkq_qlen : Z;
  rkq_qsize : Z;
  rkq_ready : bool }.

(** ** Code *)

Definition rd_kafka_q_init : rd_kafka_q := mk_rkq [] 0 0 true.
Definition rd_kafka_q_reset (q : rd_kafka_q) : rd_kafka_q := mk_rkq [] 0 0 (rkq_ready q).
Definition rd_kafka_q_len (q : rd_kafka_q) : Z := rkq_qlen q.
Definition rd_kafka_q_size (q : rd_kafka_q) : Z := u64 (rkq_qsize q).

Definition rd_kafka_op_cmp_prio (a b : rd_kafka_op) : Z := rko_prio b - rko_prio a.

Definition rd_kafka_q_enq0 (q : rd_kafka_q) (rko : rd_kafka_op) (at_head : bool) : rd_kafka_q :=
  let ops := if rko_prio rko =? 0 then rkq_q q ++ [rko]
             else if at_head then rko :: rkq_q q
             else tailq_insert_sorted rd_kafka_op_cmp_prio (rkq_q q) rko in
  mk_rkq ops (rkq_qlen q + 1) (rkq_qsize q + rko_len rko) (rkq_ready q).

(** The new queue and the return value.  The operation of a disabled queue has
    no reply queue here: it is destroyed. *)
Definition rd_kafka_q_enq1 (q : rd_kafka_q) (rko : rd_kafka_op) (at_head : bool) : rd_kafka_q * Z :=
  if negb (rkq_ready q) then (q, 0) else (rd_kafka_q_enq0 q rko at_head, 1).

Definition rd_kafka_q_enq (q : rd_kafka_q) (rko : rd_kafka_op) : rd_kafka_q * Z :=
  rd_kafka_q_enq1 q rko false.
Definition rd_kafka_q_reenq (q : rd_kafka_q) (rko : rd_kafka_op) : rd_kafka_q * Z :=
  rd_kafka_q_enq1 q rko true.

(** Removal of the operation at the head, as the serving loops do it. *)
Definition rd_kafka_q_deq0 (q : rd_kafka_q) : option (rd_kafka_op * rd_kafka_q) :=
  match rkq_q q with
  | [] => None
  | rko :: ops => Some (rko, mk_rkq ops (rkq_qlen q - 1) (rkq_qsize q - rko_len rko) (rkq_ready q))
  end.

(** The loop that moves prioritised operations, then the rest of [srcq]. *)
Fixpoint concat_loop (dst src : list rd_kafka_op) : list rd_kafka_op :=
  match src with
  | [] => dst
  | rko :: src' =>
      if rko_prio rko >? 0
      then concat_loop (tailq_insert_sorted rd_kafka_op_cmp_prio dst rko) src'
      else dst ++ src
  end.

(** Destination, source and return value. *)
Definition rd_kafka_q_concat0 (q srcq : rd_kafka_q) : rd_kafka_q * rd_kafka_q * Z :=
  if rkq_qlen srcq =? 0 then (q, srcq, 0)
  else if negb (rkq_ready q) then (q, srcq, -1)
  else (mk_rkq (concat_loop (rkq_q q) (rkq_q srcq)) (rkq_qlen q + rkq_qlen srcq)
          (rkq_qsize q + rkq_qsize srcq) (rkq_ready q), rd_kafka_q_reset srcq, 0).

Definition rd_kafka_q_prepend0 (q srcq : rd_kafka_q) : rd_kafka_q * rd_kafka_q :=
  (mk_rkq (rkq_q srcq ++ rkq_q q) (rkq_qlen q + rkq_qlen srcq) (rkq_qsize q + rkq_qsize srcq)
     (rkq_ready q), rd_kafka_q_reset srcq).

(** The last fetched message. *)
Definition rd_kafka_q_last_fetch (q : rd_kafka_q) (allow_err : bool) : option rd_kafka_msg :=
  (fix last (l : list rd_kafka_op) : option rd_kafka_msg :=
     match l with
     | [] => None
     | rko :: l =>
         match rko_u rko with
         | RD_KAFKA_OP_FETCH m => if allow_err || (rko_err rko =? 0) then Some m else last l
         | _ => last l
         end
     end) (rev (rkq_q q)).

Definition set_offset (o : Z) (m : rd_kafka_msg) : rd_kafka_msg :=
  mk_rkm (rkm_ptr m) (rkm_len m) (rkm_payload m) (rkm_partition m) o (rkm_key m) (rkm_key_len m)
    (rkm_err m) (rkm_flags m) (rkm_timestamp m) (rkm_tstype m) (rkm_headers m) (rkm_ts_timeout m)
    (rkm_ts_enq m) (rkm_ts_backoff m) (rkm_msgseq m) (rkm_retries m) (rkm_binhdrs m).

(** The operations kept, their number and size removed. *)
Fixpoint fix_offsets_loop (l : list rd_kafka_op) (min_offset base_offset : Z)
  : list rd_kafka_op * Z * Z :=
  match l with
  | [] => ([], 0, 0)
  | rko :: l =>
      let '(kept, adj_len, adj_size) := fix_offsets_loop l min_offset base_offset in
      match rko_u rko with
      | RD_KAFKA_OP_FETCH m =>
          let o := rkm_offset m + base_offset in
          if (o <? min_offset) && negb (rko_err rko =? RD_KAFKA_RESP_ERR__NOT_IMPLEMENTED)
          then (kept, adj_len + 1, adj_size + rko_len rko)
          else (mk_rko (rko_version rko) (rko_err rko) (rko_len rko) (rko_prio rko)
                  (RD_KAFKA_OP_FETCH (set_offset o m)) :: kept, adj_len, adj_size)
      | _ => (rko :: kept, adj_len, adj_size)
      end
  end.

Definition rd_kafka_q_fix_offsets (q : rd_kafka_q) (min_offset base_offset : Z) : rd_kafka_q :=
  let '(kept, adj_len, adj_size) := fix_offsets_loop (rkq_q q) min_offset base_offset in
  mk_rkq kept (rkq_qlen q - adj_len) (rkq_qsize q - adj_size) (rkq_ready q).

Definition rd_kafka_q_op_err (q : rd_kafka_q) (err version offset : Z) : rd_kafka_q :=
  (rd_kafka_q_enq q (mk_rko version err 0 0 (RD_KAFKA_OP_CONSUMER_ERR offset))).1.

(** The operation; the message is its only reference.  Its fields that are not
    assigned are zero, as allocated. *)
Definition rd_kafka_op_new_fetch_msg (partition version offset key_len : Z) (key : option (list Z))
    (val_len : Z) (val : option (list Z)) (set : rd_kafka_msg -> rd_kafka_msg) : rd_kafka_op :=
  let rkm := mk_rkm 0 val_len val partition offset key key_len 0 0 0
               RD_KAFKA_TIMESTAMP_NOT_AVAILABLE None 0 0 0 0 0 (mk_kbytes 0 None []) in
  mk_rko version 0 (s32 val_len) 0 (RD_KAFKA_OP_FETCH (set rkm)).

(** ** Invariant: sorted by priority, exact counters *)

Definition ops_size (l : list rd_kafka_op) : Z := foldr (fun o a => rko_len o + a) 0 l.

Definition prio_ge (a b : rd_kafka_op) : Prop := rko_prio b <= rko_prio a.
#[export] Instance prio_ge_trans : Transitive prio_ge.
Proof. intros a b c. unfold prio_ge. lia. Qed.

Record q_ok (q : rd_kafka_q) : Prop := mk_q_ok {
  qo_len : rkq_qlen q = zlen (rkq_q q);
  qo_size : rkq_qsize q = ops_size (rkq_q q);
  qo_sorted : StronglySorted prio_ge (rkq_q q);
  qo_prio : Forall (fun o => 0 <= rko_prio o) (rkq_q q) }.

(** The operations of one priority, oldest first. *)
Definition level (p : Z) (l : list rd_kafka_op) : list rd_kafka_op :=
  filter (fun o => rko_prio o = p) l.

Lemma ops_size_app l1 l2 : ops_size (l1 ++ l2) = ops_size l1 + ops_size l2.
Proof. induction l1; simpl; lia. Qed.

Lemma ops_size_perm l1 l2 : Permutation l1 l2 -> ops_size l1 = ops_size l2.
Proof. induction 1; simpl; lia. Qed.

Lemma level_app p l1 l2 : level p (l1 ++ l2) = level p l1 ++ level p l2.
Proof. apply filter_app. Qed.

Lemma level_above p o l :
  Forall (prio_ge o) l -> rko_prio o < p -> level p l = [].
Proof.
  intros Hf Hp. unfold level. induction Hf as [|x l Hx _ IH]; [done|].
  rewrite filter_cons_False; [done|]. unfold prio_ge in Hx. lia.
Qed.

Lemma insert_sorted_spec l o :
  StronglySorted prio_ge l ->
  StronglySorted prio_ge (tailq_insert_sorted rd_kafka_op_cmp_prio l o) /\
  forall p, level p (tailq_insert_sorted rd_kafka_op_cmp_prio l o) = level p l ++ level p [o].
Proof.
  induction 1 as [|x l Hl IH Hx]; simpl; [split; [by repeat constructor|done]|].
  unfold rd_kafka_op_cmp_prio at 1 3. destruct (Z.ltb_spec (rko_prio x - rko_prio o) 0).
  - assert (Ho : Forall (prio_ge o) (x :: l)).
    { constructor; [unfold prio_ge; lia|]. eapply Forall_impl; [exact Hx|].
      unfold prio_ge in *. intros. lia. }
    split; [constructor; [by constructor|exact Ho]|]. intros p. change (o :: x :: l) with ([o] ++ x :: l).
    rewrite level_app. destruct (decide (rko_prio o = p)) as [<-|Hne].
    + assert (Hnil : level (rko_prio o) (x :: l) = []).
      { apply (level_above _ x); [|lia]. constructor; [unfold prio_ge; lia|done]. }
      by rewrite Hnil, app_nil_r.
    + assert (level p [o] = []) as -> by (unfold level; by rewrite filter_cons_False).
      by rewrite app_nil_r.
  - destruct IH as [IH1 IH2]. split.
    + constructor; [done|]. rewrite tailq_insert_sorted_perm. constructor; [|done].
      unfold prio_ge. lia.
    + intros p. change (x :: ?l) with ([x] ++ l). by rewrite !level_app, IH2, app_assoc.
Qed.

Lemma snoc_sorted l o :
  StronglySorted prio_ge l -> Forall (fun x => 0 <= rko_prio x) l -> rko_prio o = 0 ->
  StronglySorted prio_ge (l ++ [o]).
Proof.
  intros Hs Hp Ho. induction Hs as [|x l Hs IH Hx]; [by repeat constructor|].
  apply Forall_cons in Hp as [Hp1 Hp2]. simpl. constructor; [auto|].
  apply Forall_app. split; [done|]. apply Forall_singleton. unfold prio_ge. lia.
Qed.

Lemma q_enq_spec q o :
  q_ok q -> rkq_ready q = true -> 0 <= rko_prio o ->
  exists q', rd_kafka_q_enq q o = (q', 1) /\ q_ok q' /\ rkq_ready q' = true /\
    (forall p, level p (rkq_q q') = level p (rkq_q q) ++ level p [o]) /\
    Permutation (rkq_q q') (rkq_q q ++ [o]).
Proof.
  intros [Hl Hsz Hs Hp] Hr Ho. unfold rd_kafka_q_enq, rd_kafka_q_enq1. rewrite Hr. simpl.
  eexists. split; [done|]. unfold rd_kafka_q_enq0.
  destruct (Z.eqb_spec (rko_prio o) 0) as [Hz|Hz].
  - split_and!; try done.
    + split; simpl.
      * rewrite length_app. simpl. lia.
      * rewrite ops_size_app. simpl. lia.
      * by apply snoc_sorted.
      * apply Forall_app. split; [done|]. by apply Forall_singleton.
    + intros p. apply level_app.
  - destruct (insert_sorted_spec (rkq_q q) o Hs) as [I1 I2].
    pose proof (tailq_insert_sorted_perm rd_kafka_op_cmp_prio (rkq_q q) o) as HP.
    split_and!; try done.
    + split; simpl; try done.
      * rewrite HP. simpl. lia.
      * rewrite (ops_size_perm _ _ HP). simpl. lia.
      * rewrite HP. by constructor.
    + simpl. rewrite HP. apply Permutation_cons_append.
Qed.

Lemma concat_loop_spec src dst :
  StronglySorted prio_ge src -> Forall (fun o => 0 <= rko_prio o) src ->
  StronglySorted prio_ge dst -> Forall (fun o => 0 <= rko_prio o) dst ->
  StronglySorted prio_ge (concat_loop dst src) /\
  Forall (fun o => 0 <= rko_prio o) (concat_loop dst src) /\
  Permutation (concat_loop dst src) (dst ++ src) /\
  forall p, level p (concat_loop dst src) = level p dst ++ level p src.
Proof.
  intros Hs. revert dst; induction Hs as [|o src Hs IH Ho]; intros dst Hp Hd Hpd; simpl.
  { rewrite app_nil_r. split_and!; try done. intros p. by rewrite app_nil_r. }
  apply Forall_cons in Hp as [Hp1 Hp2]. rewrite Z.gtb_ltb. destruct (Z.ltb_spec 0 (rko_prio o)).
  - destruct (insert_sorted_spec dst o Hd) as [I1 I2].
    pose proof (tailq_insert_sorted_perm rd_kafka_op_cmp_prio dst o) as HP.
    destruct (IH (tailq_insert_sorted rd_kafka_op_cmp_prio dst o)) as (S1 & S2 & S3 & S4); try done.
    { rewrite HP. by constructor. }
    split_and!; try done.
    + rewrite S3, HP. apply Permutation_middle.
    + intros p. rewrite S4, I2, <- app_assoc. by rewrite <- level_app.
  - assert (Hz : Forall (fun x => rko_prio x = 0) (o :: src)).
    { constructor; [lia|]. apply Forall_forall. intros x Hx. rewrite Forall_forall in Ho, Hp2.
      specialize (Ho x Hx). specialize (Hp2 x Hx). unfold prio_ge in Ho. lia. }
    split_and!; [|apply Forall_app; split; [done|by constructor]|done|intros p; apply level_app].
    clear IH Hs Ho Hp1 Hp2. revert dst Hd Hpd. induction Hz as [|x l Hx Hl IH]; intros dst Hd Hpd.
    { by rewrite app_nil_r. }
    change (x :: l) with ([x] ++ l). rewrite app_assoc. apply IH.
    + by apply snoc_sorted.
    + apply Forall_app. split; [done|]. apply Forall_singleton. lia.
Qed.

Lemma q_concat_spec q src :
  q_ok q -> q_ok src -> rkq_ready q = true ->
  exists q', (exists s', rd_kafka_q_concat0 q src = (q', s', 0) /\ rkq_q s' = []) /\
    q_ok q' /\ rkq_ready q' = true /\ Permutation (rkq_q q') (rkq_q q ++ rkq_q src) /\
    forall p, level p (rkq_q q') = level p (rkq_q q) ++ level p (rkq_q src).
Proof.
  intros [Hl Hsz Hs Hp] [Hl2 Hsz2 Hs2 Hp2] Hr. unfold rd_kafka_q_concat0. rewrite Hr.
  destruct (Z.eqb_spec (rkq_qlen src) 0) as [Hz|_].
  - rewrite Hl2 in Hz.
    assert (Hnil : rkq_q src = []) by (destruct (rkq_q src); [done|simpl in Hz; lia]).
    rewrite Hnil.
    exists q. split; [by exists src|]. split; [done|]. split; [done|]. rewrite app_nil_r.
    split; [done|]. intros p. by rewrite app_nil_r.
  - simpl. destruct (concat_loop_spec (rkq_q src) (rkq_q q)) as (S1 & S2 & S3 & S4); try done.
    eexists. split; [by eexists|]. split_and!; try done. split; simpl; try done.
    + rewrite S3, length_app. lia.
    + rewrite (ops_size_perm _ _ S3), ops_size_app. lia.
Qed.

(** ** Abstract specification: one FIFO per priority *)
Module QSpec.

Inductive op : Type :=
| Enq (o : rd_kafka_op)
| Concat (ops : list rd_kafka_op)
| Deq.

(** A step on the family of FIFOs, with the operation handed out. *)
Inductive step : op -> (Z -> list rd_kafka_op) -> option rd_kafka_op -> (Z -> list rd_kafka_op) -> Prop :=
| step_enq o lv lv' :
    (forall p, lv' p = lv p ++ level p [o]) -> step (Enq o) lv None lv'
| step_concat ops lv lv' :
    (forall p, lv' p = lv p ++ level p ops) -> step (Concat ops) lv None lv'
| step_deq o lv lv' :
    (forall p, rko_prio o < p -> lv p = []) ->
    (forall p, lv p = level p [o] ++ lv' p) -> step Deq lv (Some o) lv'
| step_deq_empty lv lv' :
    (forall p, lv p = []) -> (forall p, lv' p = []) -> step Deq lv None lv'.

Inductive steps : list op -> (Z -> list rd_kafka_op) -> list rd_kafka_op -> (Z -> list rd_kafka_op) -> Prop :=
| steps_nil lv : steps [] lv [] lv
| steps_cons o ops lv r lv1 out lv2 :
    step o lv r lv1 -> steps ops lv1 out lv2 -> steps (o :: ops) lv (option_list r ++ out) lv2.

End QSpec.

(** ** Concrete runs: a source queue is built by enqueuing *)

Definition q_of (ops : list rd_kafka_op) : rd_kafka_q :=
  foldl (fun q o => (rd_kafka_q_enq q o).1) rd_kafka_q_init ops.

Definition run_q_op (q : rd_kafka_q) (o : QSpec.op) : rd_kafka_q * option rd_kafka_op :=
  match o with
  | QSpec.Enq o => ((rd_kafka_q_enq q o).1, None)
  | QSpec.Concat ops => ((rd_kafka_q_concat0 q (q_of ops)).1.1, None)
  | QSpec.Deq => match rd_kafka_q_deq0 q with
                 | Some (o, q) => (q, Some o)
                 | None => (q, None)
                 end
  end.

Fixpoint run_q_ops (q : rd_kafka_q) (ops : list QSpec.op) : rd_kafka_q * list rd_kafka_op :=
  match ops with
  | [] => (q, [])
  | o :: ops =>
      let '(q, r) := run_q_op q o in
      let '(q, out) := run_q_ops q ops in (q, option_list r ++ out)
  end.

Definition q_op_ok (o : QSpec.op) : Prop :=
  match o with
  | QSpec.Enq o => 0 <= rko_prio o
  | QSpec.Concat ops => Forall (fun o => 0 <= rko_prio o) ops
  | QSpec.Deq => True
  end.

Lemma q_of_spec ops :
  Forall (fun o => 0 <= rko_prio o) ops ->
  q_ok (q_of ops) /\ rkq_ready (q_of ops) = true /\ Permutation (rkq_q (q_of ops)) ops /\
  forall p, level p (rkq_q (q_of ops)) = level p ops.
Proof.
  unfold q_of. induction ops as [|o ops IH] using rev_ind; intros Hp.
  { split_and!; try done. split; try done; constructor. }
  apply Forall_app in Hp as [Hp1 [Hp2 _]%Forall_cons].
  destruct (IH Hp1) as (I1 & I2 & I3 & I4). rewrite foldl_snoc.
  destruct (q_enq_spec _ o I1 I2 Hp2) as (q' & -> & Q1 & Q2 & Q3 & Q4). simpl.
  split_and!; try done; [by rewrite Q4, I3|]. intros p. by rewrite Q3, I4, level_app.
Qed.

Lemma run_q_op_spec q o :
  q_ok q -> rkq_ready q = true -> q_op_ok o ->
  exists q' r, run_q_op q o = (q', r) /\ q_ok q' /\ rkq_ready q' = true /\
    QSpec.step o (fun p => level p (rkq_q q)) r (fun p => level p (rkq_q q')).
Proof.
  intros Hq Hr Ho. destruct o as [o|ops|]; simpl in *.
  - destruct (q_enq_spec q o Hq Hr Ho) as (q' & -> & ? & ? & ? & _).
    exists q', None. split_and!; try done. by constructor.
  - destruct (q_of_spec ops Ho) as (S1 & _ & _ & S4).
    destruct (q_concat_spec q _ Hq S1 Hr) as (q' & (s' & -> & _) & ? & ? & _ & Hlv).
    exists q', None. split_and!; try done. constructor. intros p. by rewrite Hlv, S4.
  - unfold rd_kafka_q_deq0. destruct Hq as [Hl Hsz Hs Hp]. destruct (rkq_q q) as [|o l] eqn:E.
    + exists q, None. rewrite E. split_and!; try done.
      * split; rewrite ?E; done.
      * by apply QSpec.step_deq_empty.
    + apply StronglySorted_inv in Hs as [Hs Ho']. apply Forall_cons in Hp as [_ Hp].
      eexists _, _. split; [done|]. split_and!; try done.
      * simpl in *. split; simpl; try done; lia.
      * constructor.
        -- intros p Hlt. apply (level_above p o); [|done]. constructor; [unfold prio_ge; lia|done].
        -- intros p. change (o :: l) with ([o] ++ l). apply level_app.
Qed.

Lemma run_q_ops_spec ops q :
  q_ok q -> rkq_ready q = true -> Forall q_op_ok ops ->
  q_ok (run_q_ops q ops).1 /\
  QSpec.steps ops (fun p => level p (rkq_q q)) (run_q_ops q ops).2
    (fun p => level p (rkq_q (run_q_ops q ops).1)).
Proof.
  revert q; induction ops as [|o ops IH]; intros q Hq Hr Ho; [split; [done|constructor]|].
  apply Forall_cons in Ho as [Ho1 Ho2].
  destruct (run_q_op_spec q o Hq Hr Ho1) as (q1 & r & Hrun & Hq1 & Hr1 & Hstep).
  destruct (IH q1 Hq1 Hr1 Ho2) as [I1 I2]. simpl. rewrite Hrun.
  destruct (run_q_ops q1 ops) as [q2 out] eqn:E. simpl in *. split; [done|].
  by econstructor.
Qed.

(** ** Relative offsets *)

(** What [rd_kafka_q_fix_offsets] makes of one operation. *)
Definition fix_offset (min base : Z) (o : rd_kafka_op) : list rd_kafka_op :=
  match rko_u o with
  | RD_KAFKA_OP_FETCH m =>
      if (rkm_offset m + base <? min) && negb (rko_err o =? RD_KAFKA_RESP_ERR__NOT_IMPLEMENTED)
      then []
      else [mk_rko (rko_version o) (rko_err o) (rko_len o) (rko_prio o)
              (RD_KAFKA_OP_FETCH (set_offset (rkm_offset m + base) m))]
  | _ => [o]
  end.

Lemma fix_offsets_spec q min base :
  rkq_qlen q = zlen (rkq_q q) -> rkq_qsize q = ops_size (rkq_q q) ->
  let q' := rd_kafka_q_fix_offsets q min base in
  rkq_q q' = rkq_q q ≫= fix_offset min base /\
  rkq_qlen q' = zlen (rkq_q q') /\ rkq_qsize q' = ops_size (rkq_q q').
Proof.
  unfold rd_kafka_q_fix_offsets. intros -> ->.
  assert (H : let '(kept, n, s) := fix_offsets_loop (rkq_q q) min base in
    kept = rkq_q q ≫= fix_offset min base /\ n = zlen (rkq_q q) - zlen kept /\
    s = ops_size (rkq_q q) - ops_size kept).
  { induction (rkq_q q) as [|o l IH]; [done|]. cbn [fix_offsets_loop]. rewrite bind_cons.
    destruct (fix_offsets_loop l min base) as [[kept n] s]. destruct IH as (<- & -> & ->).
    unfold fix_offset. destruct (rko_u o) as [m|off|t]; [|split_and!; [done|simpl; lia..]..].
    destruct ((rkm_offset m + base <? min) && _)%bool; split_and!; try done; simpl; lia. }
  destruct (fix_offsets_loop (rkq_q q) min base) as [[kept n] s]. destruct H as (-> & -> & ->).
  simpl. split_and!; try done; lia.
Qed.

(** ** Properties *)

(** C22. Any sequence of enqueues, concatenations and dequeues on an operation
    queue keeps its counters exact and its list sorted by priority, and acts on
    the operations of each priority as on a FIFO of its own: every dequeue
    hands out the oldest operation of the highest priority present. *)
Theorem queue_refines (ops : list QSpec.op) (H : Forall q_op_ok ops) :
  q_ok (run_q_ops rd_kafka_q_init ops).1 /\
  QSpec.steps ops (fun _ => []) (run_q_ops rd_kafka_q_init ops).2
    (fun p => level p (rkq_q (run_q_ops rd_kafka_q_init ops).1)).
Proof.
  apply (run_q_ops_spec ops rd_kafka_q_init); try done. split; try done; constructor.
Qed.

Definition example_op (id prio : Z) : rd_kafka_op := mk_rko 1 0 id prio (RD_KAFKA_OP_OTHER id).
Definition example_q_ops : list QSpec.op :=
  [QSpec.Enq (example_op 1 0); QSpec.Enq (example_op 2 2);
   QSpec.Concat [example_op 3 0; example_op 4 2; example_op 5 1]; QSpec.Deq; QSpec.Deq; QSpec.Deq].

Lemma queue_refines_witness :
  q_ok (run_q_ops rd_kafka_q_init example_q_ops).1 /\
  map rko_len (run_q_ops rd_kafka_q_init example_q_ops).2 = [2; 4; 5].
Proof.
  split; [|reflexivity]. apply (queue_refines example_q_ops).
  repeat constructor; simpl; lia.
Defined.
