(* ===== verification/MsgsetReader.v ===== *)
(** * The MessageSet reader: rdkafka_msgset_reader.c

    Fetched MessageSets of the three on-wire versions are parsed into fetch and
    error operations.  The jump to [err_parse] is the failure of the parser
    monad of [KBuf]; a function that returns an error code is a parser that
    returns it.  The decompressors are third-party code and arguments of the
    reader ([Codecs]).  A compressed MessageSet holds a MessageSet: the nesting
    is bounded by [depth]. *)
From Stdlib Require Import ZArith Lia.
From stdpp Require Import base numbers list.
From S2P Require Import Prelude Varint Buf Slice Crc Reader Crc32c RdList Proto Header Msg KBuf.
From S2P Require Import Queue.

(** ** Data *)

Record msgset_v2_hdr : Type := mk_v2hdr {
  v2_BaseOffset : Z;
  v2_Length : Z;
  v2_PartitionLeaderEpoch : Z;
  v2_MagicByte : Z;
  v2_Crc : Z;
  v2_Attributes : Z;
  v2_LastOffsetDelta : Z;
  v2_BaseTimestamp : Z;
  v2_MaxTimestamp : Z;
  v2_PID : Z;
  v2_ProducerEpoch : Z;
  v2_BaseSequence : Z;
  v2_RecordCount : Z }.

(** The consumer side of a partition and the counters of its broker. *)
Record fetch_state : Type := mk_fetch {
  fetch_offset : Z;
  rktp_fetch_msg_max_bytes : Z;
  rx_partial : Z;
  rx_err : Z }.

Definition set_fetch_offset (o : Z) (f : fetch_state) : fetch_state :=
  mk_fetch o (rktp_fetch_msg_max_bytes f) (rx_partial f) (rx_err f).

Record msgset_reader : Type := mk_msetr {
  msetr_rkbuf : rd_kafka_buf;
  msetr_relative_offsets : bool;
  msetr_outer_offset : Z;
  msetr_outer_tstype : rd_kafka_timestamp_type;
  msetr_outer_timestamp : Z;
  msetr_v2_hdr : option msgset_v2_hdr;
  msetr_rktp : fetch_state;
  msetr_msgcnt : Z;
  msetr_msg_bytes : Z;
  msetr_rkq : rd_kafka_q;
  msetr_par_rkq : rd_kafka_q;
  msetr_next_offset : Z;
  msetr_ctrl_cnt : Z }.

Section setters.
Variable m : msgset_reader.

Definition set_mr_rkbuf (k : rd_kafka_buf) : msgset_reader :=
  mk_msetr k (msetr_relative_offsets m) (msetr_outer_offset m) (msetr_outer_tstype m)
    (msetr_outer_timestamp m) (msetr_v2_hdr m) (msetr_rktp m) (msetr_msgcnt m) (msetr_msg_bytes m)
    (msetr_rkq m) (msetr_par_rkq m) (msetr_next_offset m) (msetr_ctrl_cnt m).
Definition set_mr_outer (rel : bool) (offset : Z) (tstype : rd_kafka_timestamp_type) (timestamp : Z)
  : msgset_reader :=
  mk_msetr (msetr_rkbuf m) rel offset tstype timestamp (msetr_v2_hdr m) (msetr_rktp m)
    (msetr_msgcnt m) (msetr_msg_bytes m) (msetr_rkq m) (msetr_par_rkq m) (msetr_next_offset m)
    (msetr_ctrl_cnt m).
Definition set_mr_v2_hdr (h : option msgset_v2_hdr) : msgset_reader :=
  mk_msetr (msetr_rkbuf m) (msetr_relative_offsets m) (msetr_outer_offset m) (msetr_outer_tstype m)
    (msetr_outer_timestamp m) h (msetr_rktp m) (msetr_msgcnt m) (msetr_msg_bytes m)
    (msetr_rkq m) (msetr_par_rkq m) (msetr_next_offset m) (msetr_ctrl_cnt m).
Definition set_mr_rktp (f : fetch_state) : msgset_reader :=
  mk_msetr (msetr_rkbuf m) (msetr_relative_offsets m) (msetr_outer_offset m) (msetr_outer_tstype m)
    (msetr_outer_timestamp m) (msetr_v2_hdr m) f (msetr_msgcnt m) (msetr_msg_bytes m)
    (msetr_rkq m) (msetr_par_rkq m) (msetr_next_offset m) (msetr_ctrl_cnt m).
Definition set_mr_counts (cnt bytes : Z) : msgset_reader :=
  mk_msetr (msetr_rkbuf m) (msetr_relative_offsets m) (msetr_outer_offset m) (msetr_outer_tstype m)
    (msetr_outer_timestamp m) (msetr_v2_hdr m) (msetr_rktp m) cnt bytes
    (msetr_rkq m) (msetr_par_rkq m) (msetr_next_offset m) (msetr_ctrl_cnt m).
Definition set_mr_queues (q par : rd_kafka_q) : msgset_reader :=
  mk_msetr (msetr_rkbuf m) (msetr_relative_offsets m) (msetr_outer_offset m) (msetr_outer_tstype m)
    (msetr_outer_timestamp m) (msetr_v2_hdr m) (msetr_rktp m) (msetr_msgcnt m) (msetr_msg_bytes m)
    q par (msetr_next_offset m) (msetr_ctrl_cnt m).
Definition set_mr_next (next ctrl : Z) : msgset_reader :=
  mk_msetr (msetr_rkbuf m) (msetr_relative_offsets m) (msetr_outer_offset m) (msetr_outer_tstype m)
    (msetr_outer_timestamp m) (msetr_v2_hdr m) (msetr_rktp m) (msetr_msgcnt m) (msetr_msg_bytes m)
    (msetr_rkq m) (msetr_par_rkq m) next ctrl.
End setters.

#[export] Instance msetr_lens : BufLens msgset_reader := {|
  lget := msetr_rkbuf; lput := fun k m => set_mr_rkbuf m k |}.
#[export] Instance msetr_lens_laws : BufLensLaws msgset_reader.
Proof. constructor; try done. by intros []. Qed.

Definition RD_KAFKA_COMPRESSION_GZIP : Z := 1.
Definition RD_KAFKA_COMPRESSION_SNAPPY : Z := 2.
Definition RD_KAFKA_COMPRESSION_LZ4 : Z := 3.

(** ** Third-party code and configuration *)

(** [None] is a failure.  [malloc_ok n] says that an allocation of [n] bytes
    succeeds; [lz4_decompress proper_hc offset data] is an error code or the
    decompressed bytes. *)
Class Codecs : Type := {
  gz_decompress : list Z -> option (list Z);
  snappy_java_uncompress : list Z -> option (list Z);
  snappy_uncompressed_length : list Z -> option Z;
  snappy_uncompress : list Z -> option (list Z);
  malloc_ok : Z -> bool;
  lz4_decompress : bool -> Z -> list Z -> Z + list Z }.

(** [check_crcs], the partition, the version of the fetch operation and the
    address of buffer memory, which the CRC-32C code aligns on. *)
Record reader_conf : Type := mk_rconf {
  check_crcs : bool;
  rc_partition : Z;
  tver_version : Z;
  addr_of : nat * Z -> Z }.

(** ** Code *)

Abbreviation mparser := (parser msgset_reader).

Section reader.
Context {CO : Codecs} (conf : reader_conf).

Definition rd_kafka_msgset_reader_init (rkbuf : rd_kafka_buf) (rktp : fetch_state)
    (par_rkq : rd_kafka_q) : msgset_reader :=
  mk_msetr rkbuf false 0 RD_KAFKA_TIMESTAMP_NOT_AVAILABLE 0 None rktp 0 0 rd_kafka_q_init par_rkq 0 0.

(** [rd_kafka_q_op_err] on the temporary queue. *)
Definition msetr_op_err (err offset : Z) (m : msgset_reader) : msgset_reader :=
  set_mr_queues m (rd_kafka_q_op_err (msetr_rkq m) err (tver_version conf) offset) (msetr_par_rkq m).

(** Enqueue a fetched message and count it. *)
Definition msetr_enq (rko : rd_kafka_op) (key_len val_len : Z) (m : msgset_reader) : msgset_reader :=
  let m := set_mr_queues m (rd_kafka_q_enq (msetr_rkq m) rko).1 (msetr_par_rkq m) in
  set_mr_counts m (msetr_msgcnt m + 1) (msetr_msg_bytes m + (key_len + val_len)).

(** The [err_parse] label. *)
Definition err_parse (p : mparser Z) (m : msgset_reader) : outcome (msgset_reader * Z) :=
  let! (m, r) := p m in
  match r with
  | Some err => Ret (m, err)
  | None =>
      let f := msetr_rktp m in
      Ret (set_mr_rktp m (mk_fetch (fetch_offset f) (rktp_fetch_msg_max_bytes f) (rx_partial f + 1)
             (rx_err f)), rkbuf_err (msetr_rkbuf m))
  end.

(** A state transformer as a parser step. *)
Definition modify (f : msgset_reader -> msgset_reader) : mparser () := fun m => Ret (f m, Some ()).
Definition gets {A} (f : msgset_reader -> outcome A) : mparser A := fun m =>
  let! a := f m in Ret (m, Some a).
(** [return g(msetr)] *)
Definition call (g : msgset_reader -> outcome (msgset_reader * Z)) : mparser Z := fun m =>
  let! (m, err) := g m in Ret (m, Some err).

Definition msetr_offset (m : msgset_reader) : outcome Z :=
  rd_slice_offset (rkbuf_buf (msetr_rkbuf m)) (rkbuf_reader (msetr_rkbuf m)).
Definition msetr_remains (m : msgset_reader) : outcome Z := rd_kafka_buf_read_remain (msetr_rkbuf m).

(** The number of bytes a loop over the reader can consume. *)
Definition msetr_fuel (m : msgset_reader) : nat :=
  S (Z.to_nat (sl_end (rkbuf_reader (msetr_rkbuf m)))).

Definition count_rx_err (m : msgset_reader) : msgset_reader :=
  let f := msetr_rktp m in
  set_mr_rktp m (mk_fetch (fetch_offset f) (rktp_fetch_msg_max_bytes f) (rx_partial f) (rx_err f + 1)).

(** A slice of the next [n] bytes for a checksum; a failed length check jumps,
    a passed one would use an uninitialised slice. *)
Definition crc_slice (n : Z) : mparser rd_slice := fun m =>
  let! sl := rd_slice_narrow_copy_relative (rkbuf_buf (msetr_rkbuf m)) (rkbuf_reader (msetr_rkbuf m)) (u64 n) in
  match sl with
  | Some sl => Ret (m, Some sl)
  | None => (let* _ := onbuf (rd_kafka_buf_check_len n) in fun _ => Crash) m
  end.

(** *** rd_kafka_msgset_reader_msg_v2 *)

Definition v2_timestamp (h : msgset_v2_hdr) (MsgAttributes TimestampDelta : Z) (binhdrs : rd_kafkap_bytes)
    (m : rd_kafka_msg) : rd_kafka_msg :=
  let '(tstype, timestamp) :=
    if negb (Z.land (v2_Attributes h) RD_KAFKA_MSG_ATTR_LOG_APPEND_TIME =? 0)
       || negb (Z.land MsgAttributes RD_KAFKA_MSG_ATTR_LOG_APPEND_TIME =? 0)
    then (RD_KAFKA_TIMESTAMP_LOG_APPEND_TIME, v2_MaxTimestamp h)
    else (RD_KAFKA_TIMESTAMP_CREATE_TIME, s64 (v2_BaseTimestamp h + TimestampDelta)) in
  mk_rkm (rkm_ptr m) (rkm_len m) (rkm_payload m) (rkm_partition m) (rkm_offset m) (rkm_key m)
    (rkm_key_len m) (rkm_err m) (rkm_flags m) timestamp tstype (rkm_headers m) (rkm_ts_timeout m)
    (rkm_ts_enq m) (rkm_ts_backoff m) (rkm_msgseq m) (rkm_retries m) binhdrs.

Definition kbytes_ptr (b : rd_kafkap_bytes) : option (list Z) :=
  if RD_KAFKAP_BYTES_IS_NULL b then None else kbytes_data b.

(** A reader without a header would dereference NULL. *)
Definition msg_v2_body : mparser Z :=
  let* Length := onbuf rd_kafka_buf_read_varint in
  let* o := gets msetr_offset in
  let message_end := u64 (o + u64 Length) in
  let* MsgAttributes := onbuf rd_kafka_buf_read_i8 in
  let* TimestampDelta := onbuf rd_kafka_buf_read_varint in
  let* OffsetDelta := onbuf rd_kafka_buf_read_varint in
  let* h := gets (fun m => match msetr_v2_hdr m with Some h => Ret h | None => Crash end) in
  let Offset := s64 (v2_BaseOffset h + OffsetDelta) in
  let* rktp := gets (fun m => Ret (msetr_rktp m)) in
  if Offset <? fetch_offset rktp then
    let* _ := onbuf (rd_kafka_buf_skip_to message_end) in
    pret RD_KAFKA_RESP_ERR_NO_ERROR
  else
    let* Key := onbuf rd_kafka_buf_read_bytes_varint in
    let* Value := onbuf rd_kafka_buf_read_bytes_varint in
    let* o := gets msetr_offset in
    let Headers_len := s32 (message_end - o) in
    let* Headers_data := onbuf (rd_kafka_buf_read_ptr Headers_len) in
    let key_len := u64 (RD_KAFKAP_BYTES_LEN Key) in
    let val_len := u64 (RD_KAFKAP_BYTES_LEN Value) in
    let rko := rd_kafka_op_new_fetch_msg (rc_partition conf) (tver_version conf) Offset
                 key_len (kbytes_ptr Key) val_len (kbytes_ptr Value)
                 (v2_timestamp h MsgAttributes TimestampDelta (mk_kbytes Headers_len Headers_data [])) in
    let* _ := modify (msetr_enq rko key_len val_len) in
    pret RD_KAFKA_RESP_ERR_NO_ERROR.

Definition rd_kafka_msgset_reader_msg_v2 : msgset_reader -> outcome (msgset_reader * Z) :=
  err_parse msg_v2_body.

Fixpoint msgs_v2_loop (fuel : nat) (m : msgset_reader) : outcome (msgset_reader * Z) :=
  match fuel with
  | O => Diverge
  | S fuel =>
      let! remains := msetr_remains m in
      if remains =? 0 then Ret (m, RD_KAFKA_RESP_ERR_NO_ERROR)
      else
        let! (m, err) := rd_kafka_msgset_reader_msg_v2 m in
        if negb (err =? 0) then Ret (m, err) else msgs_v2_loop fuel m
  end.

Definition rd_kafka_msgset_reader_msgs_v2 (m : msgset_reader) : outcome (msgset_reader * Z) :=
  msgs_v2_loop (msetr_fuel m) m.

(** *** rd_kafka_msgset_reader_decompress *)

Definition snappy_java_magic : list Z := [0x82; 83; 78; 65; 80; 80; 89; 0].
Definition snappy_java_hdrlen : Z := 8 + 4 + 4.

(** The uncompressed bytes, or the error code. *)
Definition decompress_payload (MsgVersion Attributes Offset : Z) (compressed : list Z) : Z + list Z :=
  let codec := Z.land Attributes RD_KAFKA_MSG_ATTR_COMPRESSION_MASK in
  let bad r := match r with
               | Some d => inr d
               | None => inl RD_KAFKA_RESP_ERR__BAD_COMPRESSION
               end in
  if codec =? RD_KAFKA_COMPRESSION_GZIP then bad (gz_decompress compressed)
  else if codec =? RD_KAFKA_COMPRESSION_SNAPPY then
    if (zlen compressed >? snappy_java_hdrlen + 4)
       && bool_decide (ztake 8 compressed = snappy_java_magic)
    then bad (snappy_java_uncompress (zdrop snappy_java_hdrlen compressed))
    else
      match snappy_uncompressed_length compressed with
      | None => inl RD_KAFKA_RESP_ERR__BAD_COMPRESSION
      | Some len =>
          if negb (malloc_ok len) then inl RD_KAFKA_RESP_ERR__CRIT_SYS_RESOURCE
          else bad (snappy_uncompress compressed)
      end
  else if codec =? RD_KAFKA_COMPRESSION_LZ4 then
    lz4_decompress (MsgVersion >=? 1) Offset compressed
  else inl RD_KAFKA_RESP_ERR__NOT_IMPLEMENTED.

Section nested.
(** [rd_kafka_msgset_reader_run] on an inner MessageSet. *)
Variable inner_run : msgset_reader -> outcome (msgset_reader * Z).

Definition rd_kafka_msgset_reader_decompress (MsgVersion Attributes Timestamp Offset : Z)
    (compressed : list Z) (m : msgset_reader) : outcome (msgset_reader * Z) :=
  match decompress_payload MsgVersion Attributes Offset compressed with
  | inl err => Ret (msetr_op_err err Offset m, err)
  | inr out =>
      let! rkbufz := rd_kafka_buf_new_shadow out (zlen out) (Some O) in
      if MsgVersion <=? 1 then
        let inner := rd_kafka_msgset_reader_init rkbufz (msetr_rktp m) (msetr_rkq m) in
        let inner :=
          if MsgVersion =? 1 then
            if negb (Z.land Attributes RD_KAFKA_MSG_ATTR_LOG_APPEND_TIME =? 0)
            then set_mr_outer inner true Offset RD_KAFKA_TIMESTAMP_LOG_APPEND_TIME Timestamp
            else set_mr_outer inner true Offset (msetr_outer_tstype inner) (msetr_outer_timestamp inner)
          else inner in
        let! (inner, err) := inner_run inner in
        let m := set_mr_queues m (msetr_par_rkq inner) (msetr_par_rkq m) in
        let m := set_mr_rktp m (msetr_rktp inner) in
        let m := set_mr_counts m (msetr_msgcnt m + msetr_msgcnt inner)
                   (msetr_msg_bytes m + msetr_msg_bytes inner) in
        Ret (m, err)
      else
        let orig_rkbuf := msetr_rkbuf m in
        let! (m, err) := rd_kafka_msgset_reader_msgs_v2 (set_mr_rkbuf m rkbufz) in
        Ret (set_mr_rkbuf m orig_rkbuf, err)
  end.

(** *** rd_kafka_msgset_reader_msg_v0_1 *)

Definition v0_1_timestamp (outer : rd_kafka_timestamp_type * Z) (MagicByte Attributes Timestamp : Z)
    (m : rd_kafka_msg) : rd_kafka_msg :=
  let '(tstype, timestamp) :=
    match outer.1 with
    | RD_KAFKA_TIMESTAMP_LOG_APPEND_TIME => (RD_KAFKA_TIMESTAMP_LOG_APPEND_TIME, outer.2)
    | _ =>
        if (MagicByte >=? 1) && negb (Timestamp =? 0) then
          (if negb (Z.land Attributes RD_KAFKA_MSG_ATTR_LOG_APPEND_TIME =? 0)
           then RD_KAFKA_TIMESTAMP_LOG_APPEND_TIME else RD_KAFKA_TIMESTAMP_CREATE_TIME, Timestamp)
        else (rkm_tstype m, rkm_timestamp m)
    end in
  mk_rkm (rkm_ptr m) (rkm_len m) (rkm_payload m) (rkm_partition m) (rkm_offset m) (rkm_key m)
    (rkm_key_len m) (rkm_err m) (rkm_flags m) timestamp tstype (rkm_headers m) (rkm_ts_timeout m)
    (rkm_ts_enq m) (rkm_ts_backoff m) (rkm_msgseq m) (rkm_retries m) (rkm_binhdrs m).

(** The end of the function, after the checksum. *)
Definition msg_v0_1_body (Offset MagicByte Attributes Timestamp : Z) (relative_offsets : bool) : mparser Z :=
  let* Key := onbuf rd_kafka_buf_read_bytes in
  let* Value := onbuf rd_kafka_buf_read_bytes in
  let Value_len := RD_KAFKAP_BYTES_LEN Value in
  let* rktp := gets (fun m => Ret (msetr_rktp m)) in
  if negb relative_offsets && (Offset <? fetch_offset rktp) then pret RD_KAFKA_RESP_ERR_NO_ERROR
  else if negb (Z.land Attributes RD_KAFKA_MSG_ATTR_COMPRESSION_MASK =? 0) then
    call (rd_kafka_msgset_reader_decompress MagicByte Attributes Timestamp Offset
            (ztake Value_len (default [] (kbytes_data Value))))
  else
    let* outer := gets (fun m => Ret (msetr_outer_tstype m, msetr_outer_timestamp m)) in
    let key_len := u64 (RD_KAFKAP_BYTES_LEN Key) in
    let val_len := u64 (RD_KAFKAP_BYTES_LEN Value) in
    let rko := rd_kafka_op_new_fetch_msg (rc_partition conf) (tver_version conf) Offset
                 key_len (kbytes_ptr Key) val_len (kbytes_ptr Value)
                 (v0_1_timestamp outer MagicByte Attributes Timestamp) in
    let* _ := modify (msetr_enq rko key_len val_len) in
    pret RD_KAFKA_RESP_ERR_NO_ERROR.

Definition msg_v0_1_parse : mparser Z :=
  let* Offset := onbuf rd_kafka_buf_read_i64 in
  let* MessageSize := onbuf rd_kafka_buf_read_i32 in
  let* o := gets msetr_offset in
  let message_end := u64 (o + MessageSize) in
  let* Crc := onbuf rd_kafka_buf_read_i32 in
  let* crc_sl := crc_slice (MessageSize - 4) in
  let* MagicByte := onbuf rd_kafka_buf_read_i8 in
  let* Attributes := onbuf rd_kafka_buf_read_i8 in
  let* (Timestamp, hdrsize) :=
    (if MagicByte =? 1
     then let* t := onbuf rd_kafka_buf_read_i64 in pret (t, 6 + 8)
     else pret (0, 6)) in
  let* rel := gets (fun m => Ret (msetr_relative_offsets m)) in
  let relative_offsets :=
    (MagicByte =? 1) && (Z.land Attributes RD_KAFKA_MSG_ATTR_COMPRESSION_MASK =? 0) && rel in
  if MessageSize <? hdrsize then onbuf rd_kafka_buf_parse_fail
  else
    let* _ := onbuf (rd_kafka_buf_check_len (MessageSize - hdrsize)) in
    let* bad :=
      (if check_crcs conf then
         let* calc := gets (fun m => rd_slice_crc32 (rkbuf_buf (msetr_rkbuf m)) crc_sl) in
         pret (negb (u32 Crc =? calc.2))
       else pret false) in
    if bad : bool then
      let* _ := modify (msetr_op_err RD_KAFKA_RESP_ERR__BAD_MSG Offset) in
      let* _ := onbuf (rd_kafka_buf_skip_to message_end) in
      let* _ := modify count_rx_err in
      pret RD_KAFKA_RESP_ERR_NO_ERROR
    else msg_v0_1_body Offset MagicByte Attributes Timestamp relative_offsets.

Definition rd_kafka_msgset_reader_msg_v0_1 : msgset_reader -> outcome (msgset_reader * Z) :=
  err_parse msg_v0_1_parse.

(** *** rd_kafka_msgset_reader_v2 *)

(** The header; [None] when the checksum was wrong and the MessageSet has been
    skipped. *)
Definition v2_read_hdr : mparser (option (msgset_v2_hdr * Z)) :=
  let* BaseOffset := onbuf rd_kafka_buf_read_i64 in
  let* Length := onbuf rd_kafka_buf_read_i32 in
  let* len_start := gets msetr_offset in
  if Length <? RD_KAFKAP_MSGSET_V2_SIZE - 8 - 4 then onbuf rd_kafka_buf_parse_fail
  else
    let* PartitionLeaderEpoch := onbuf rd_kafka_buf_read_i32 in
    let* MagicByte := onbuf rd_kafka_buf_read_i8 in
    let* Crc := onbuf rd_kafka_buf_read_i32 in
    let crc_len := u64 (Length - 4 - 1 - 4) in
    let* bad :=
      (if check_crcs conf then
         let* crc_sl := crc_slice crc_len in
         let* calc := gets (fun m => rd_slice_crc32c (addr_of conf) (rkbuf_buf (msetr_rkbuf m)) crc_sl) in
         pret (negb (u32 Crc =? calc.2))
       else pret false) in
    if bad : bool then
      let* _ := modify (msetr_op_err RD_KAFKA_RESP_ERR__BAD_MSG BaseOffset) in
      let* _ := onbuf (rd_kafka_buf_skip_to crc_len) in
      let* _ := modify count_rx_err in
      pret None
    else
      let* Attributes := onbuf rd_kafka_buf_read_i16 in
      let* LastOffsetDelta := onbuf rd_kafka_buf_read_i32 in
      let* BaseTimestamp := onbuf rd_kafka_buf_read_i64 in
      let* MaxTimestamp := onbuf rd_kafka_buf_read_i64 in
      let* PID := onbuf rd_kafka_buf_read_i64 in
      let* ProducerEpoch := onbuf rd_kafka_buf_read_i16 in
      let* BaseSequence := onbuf rd_kafka_buf_read_i32 in
      let* RecordCount := onbuf rd_kafka_buf_read_i32 in
      pret (Some (mk_v2hdr BaseOffset Length PartitionLeaderEpoch MagicByte Crc Attributes
                    LastOffsetDelta BaseTimestamp MaxTimestamp PID ProducerEpoch BaseSequence
                    RecordCount, len_start)).

(** The uncompressed messages, in a narrowed reader. *)
Definition v2_uncompressed (payload_size : Z) : mparser Z := fun m =>
  let k := msetr_rkbuf m in
  let! r := rd_slice_narrow_relative (rkbuf_buf k) (rkbuf_reader k) payload_size in
  match r with
  | None => (let* _ := onbuf (rd_kafka_buf_check_len payload_size) in fun _ => Crash) m
  | Some (sl, save) =>
      let! (m, err) := rd_kafka_msgset_reader_msgs_v2 (set_mr_rkbuf m (set_rk_reader sl k)) in
      let k := msetr_rkbuf m in
      Ret (set_mr_rkbuf m (set_rk_reader (rd_slice_widen (rkbuf_reader k) save) k), Some err)
  end.

(** The compressed messages, which must be contiguous. *)
Definition v2_compressed (h : msgset_v2_hdr) (payload_size : Z) : mparser Z := fun m =>
  let k := msetr_rkbuf m in
  let! (sl, compressed) := rd_slice_ensure_contig (rkbuf_buf k) (rkbuf_reader k) payload_size in
  match compressed with
  | None => Crash
  | Some compressed =>
      call (rd_kafka_msgset_reader_decompress 2 (v2_Attributes h) (v2_BaseTimestamp h)
              (v2_BaseOffset h) compressed) (set_mr_rkbuf m (set_rk_reader sl k))
  end.

(** From the header to the [done] label. *)
Definition v2_payload (h : msgset_v2_hdr) (len_start : Z) : mparser Z :=
  let LastOffset := s64 (v2_BaseOffset h + v2_LastOffsetDelta h) in
  let* o := gets msetr_offset in
  let payload_size := u64 (v2_Length h - (o - len_start)) in
  let* remain := gets msetr_remains in
  if payload_size >? remain then onbuf rd_kafka_buf_underflow_fail
  else
    let* rktp := gets (fun m => Ret (msetr_rktp m)) in
    let* err :=
      (if LastOffset <? fetch_offset rktp then
         let* _ := onbuf (rd_kafka_buf_skip payload_size) in pret 0
       else if negb (Z.land (v2_Attributes h) RD_KAFKA_MSGSET_V2_ATTR_CONTROL =? 0) then
         let* _ := modify (fun m => set_mr_next m (msetr_next_offset m) (msetr_ctrl_cnt m + 1)) in
         let* _ := onbuf (rd_kafka_buf_skip payload_size) in pret 0
       else
         let* _ := modify (fun m => set_mr_v2_hdr m (Some h)) in
         if negb (Z.land (v2_Attributes h) RD_KAFKA_MSG_ATTR_COMPRESSION_MASK =? 0)
         then v2_compressed h payload_size
         else v2_uncompressed payload_size) in
    if negb (err =? 0) then pret err
    else
      let* _ := modify (fun m => set_mr_next m (s64 (LastOffset + 1)) (msetr_ctrl_cnt m)) in
      pret RD_KAFKA_RESP_ERR_NO_ERROR.

Definition v2_parse : mparser Z :=
  let* r := v2_read_hdr in
  match r with
  | None => pret RD_KAFKA_RESP_ERR_NO_ERROR
  | Some (h, len_start) => v2_payload h len_start
  end.

Definition rd_kafka_msgset_reader_v2 (m : msgset_reader) : outcome (msgset_reader * Z) :=
  let! (m, err) := err_parse v2_parse m in
  Ret (set_mr_v2_hdr m None, err).

(** *** rd_kafka_msgset_reader *)

Fixpoint reader_do_while (fuel : nat) (reader : msgset_reader -> outcome (msgset_reader * Z))
    (m : msgset_reader) : outcome (msgset_reader * Z) :=
  match fuel with
  | O => Diverge
  | S fuel =>
      let! (m, err) := reader m in
      let! remains := msetr_remains m in
      if (err =? 0) && (remains >? 0) then reader_do_while fuel reader m else Ret (m, err)
  end.

Definition reader_parse : mparser Z :=
  let* read_offset := gets msetr_offset in
  let* MagicByte := onbuf (rd_kafka_buf_peek_i8 (read_offset + 8 + 4 + 4)) in
  if (MagicByte <? 0) || (MagicByte >? 2) then
    let* Offset := onbuf (rd_kafka_buf_peek_i64 (read_offset + 0)) in
    let* _ := modify (fun m =>
      if Offset >=? fetch_offset (msetr_rktp m) then
        let m := msetr_op_err RD_KAFKA_RESP_ERR__NOT_IMPLEMENTED Offset m in
        set_mr_rktp m (set_fetch_offset (s64 (Offset + 1)) (msetr_rktp m))
      else m) in
    pret RD_KAFKA_RESP_ERR__NOT_IMPLEMENTED
  else
    call (fun m => reader_do_while (msetr_fuel m)
                     (if MagicByte =? 2 then rd_kafka_msgset_reader_v2
                      else rd_kafka_msgset_reader_msg_v0_1) m).

Definition rd_kafka_msgset_reader (m : msgset_reader) : outcome (msgset_reader * Z) :=
  let! (m, r) := reader_parse m in
  Ret (m, default RD_KAFKA_RESP_ERR_NO_ERROR r).

(** The queue and the last offset, [None] when it is not set. *)
Definition rd_kafka_msgset_reader_postproc (m : msgset_reader) : msgset_reader * option Z :=
  let q := if msetr_relative_offsets m
           then rd_kafka_q_fix_offsets (msetr_rkq m) (fetch_offset (msetr_rktp m))
                  (msetr_outer_offset m - msetr_msgcnt m + 1)
           else msetr_rkq m in
  (set_mr_queues m q (msetr_par_rkq m), rkm_offset <$> rd_kafka_q_last_fetch q false).

(** The end of the run: the operations go to the parent queue, the fetch offset
    advances and the rest of the slice is skipped. *)
Definition run_finish (m : msgset_reader) (last_offset err : Z) : outcome (msgset_reader * Z) :=
  let '(par, _, r) := rd_kafka_q_concat0 (msetr_par_rkq m) (msetr_rkq m) in
  let m := set_mr_queues m rd_kafka_q_init par in
  let m := if negb (r =? -1) && negb (last_offset =? -1)
           then set_mr_rktp m (set_fetch_offset (s64 (last_offset + 1)) (msetr_rktp m)) else m in
  let m := if msetr_next_offset m >? fetch_offset (msetr_rktp m)
           then set_mr_rktp m (set_fetch_offset (msetr_next_offset m) (msetr_rktp m)) else m in
  let! remains := msetr_remains m in
  let! (k, _, _) := kbuf_slice_read (msetr_rkbuf m) remains in
  Ret (set_mr_rkbuf m k, err).

Definition run_body (m : msgset_reader) : outcome (msgset_reader * Z) :=
  let! (m, err) := rd_kafka_msgset_reader m in
  let '(m, last_offset, err) :=
    if rd_kafka_q_len (msetr_rkq m) =? 0 then
      let f := msetr_rktp m in
      if msetr_ctrl_cnt m >? 0 then (m, -1, err)
      else if rktp_fetch_msg_max_bytes f <? 2 ^ 30 then
        (set_mr_rktp m (mk_fetch (fetch_offset f) (rktp_fetch_msg_max_bytes f * 2) (rx_partial f)
                          (rx_err f)), -1, err)
      else if err =? 0 then
        (msetr_op_err RD_KAFKA_RESP_ERR_MSG_SIZE_TOO_LARGE (fetch_offset f) m, -1, err)
      else (m, -1, err)
    else
      let '(m, last) := rd_kafka_msgset_reader_postproc m in
      (m, default (-1) last,
       if (err =? RD_KAFKA_RESP_ERR__UNDERFLOW) && (msetr_msgcnt m >? 0)
       then RD_KAFKA_RESP_ERR_NO_ERROR else err) in
  run_finish m last_offset err.
End nested.

(** [depth] bounds the nesting of compressed MessageSets. *)
Fixpoint rd_kafka_msgset_reader_run (depth : nat) (m : msgset_reader) : outcome (msgset_reader * Z) :=
  match depth with
  | O => Diverge
  | S depth => run_body (rd_kafka_msgset_reader_run depth) m
  end.

(** The buffer, the fetch state, the fetch queue, the number and size of the
    messages added to the counters of the partition, and the error code. *)
Definition rd_kafka_msgset_parse (depth : nat) (rkbuf : rd_kafka_buf) (rktp : fetch_state)
    (fetchq : rd_kafka_q)
  : outcome (rd_kafka_buf * fetch_state * rd_kafka_q * (Z * Z) * Z) :=
  let! (m, err) := rd_kafka_msgset_reader_run depth (rd_kafka_msgset_reader_init rkbuf rktp fetchq) in
  Ret (msetr_rkbuf m, msetr_rktp m, msetr_par_rkq m, (msetr_msgcnt m, msetr_msg_bytes m), err).
End reader.
