(* ===== verification/KBufWrite.v ===== *)
(** * Writing protocol buffers: specification

    [kwrote k0 d k]: buffer [k] is [k0] with the bytes [d] appended (and fed to
    the running checksum when one is active).  Every writing function extends
    it, and returns the position of its first byte. *)
From Stdlib Require Import ZArith Lia.
From stdpp Require Import base numbers list.
From S2P Require Import Prelude Varint Buf BufFacts BufSeek BufSpec Slice SliceFacts CrcTheory.
From S2P Require Import Crc Reader RdList RdListSpec Proto Header Msg KBuf KBufFacts.

(** ** Appending *)

Definition kbuf_ok (k : rd_kafka_buf) : Prop :=
  buf_inv (rkbuf_buf k) /\ (crc_flag k = true -> u_ok 32 (rkbuf_crc k)).

Record kwrote (k0 : rd_kafka_buf) (d : list Z) (k : rd_kafka_buf) : Prop := mk_kwrote {
  kw_eq : k = set_rk_crc (rkbuf_flags k0) (rkbuf_crc k) (set_rk_buf (rkbuf_buf k) k0);
  kw_crc : crc_flag k0 = true -> rkbuf_crc k = rd_crc32_update (rkbuf_crc k0) d;
  kw_ok : kbuf_ok k0;
  kw_inv : buf_inv (rkbuf_buf k);
  kw_contents : contents (rkbuf_buf k) = contents (rkbuf_buf k0) ++ d }.

Lemma kwrote_refl k : kbuf_ok k -> kwrote k [] k.
Proof.
  intros Hk. pose proof Hk as [Hi Hc]. split; [by destruct k| |done..|by rewrite app_nil_r].
  intros Hf. unfold rd_crc32_update. simpl.
  change 0xffffffff with (2 ^ 32 - 1). by rewrite u_ok_land by (try lia; auto).
Qed.

Lemma kwrote_flags k0 d k : kwrote k0 d k -> rkbuf_flags k = rkbuf_flags k0.
Proof. intros W. by rewrite (kw_eq _ _ _ W). Qed.

Lemma kwrote_flag k0 d k : kwrote k0 d k -> crc_flag k = crc_flag k0.
Proof. intros W. unfold crc_flag. by rewrite (kwrote_flags _ _ _ W). Qed.

Lemma kwrote_ok k0 d k : kwrote k0 d k -> kbuf_ok k.
Proof.
  intros W. split; [apply W|]. rewrite (kwrote_flag _ _ _ W). intros Hf.
  rewrite (kw_crc _ _ _ W Hf). apply crc32_update_ok.
Qed.

Lemma kwrote_trans k0 d1 k1 d2 k2 : kwrote k0 d1 k1 -> kwrote k1 d2 k2 -> kwrote k0 (d1 ++ d2) k2.
Proof.
  intros W1 W2. pose proof (kwrote_flag _ _ _ W1) as Hf. pose proof (kwrote_flags _ _ _ W1) as Hfs.
  destruct W1 as [E1 X1 O1 I1 C1], W2 as [E2 X2 O2 I2 C2].
  split; [| |done..|by rewrite C2, C1, app_assoc].
  - rewrite E2, Hfs, E1. done.
  - intros Hc. rewrite X2 by congruence. rewrite X1 by done. symmetry. apply crc32_update_app, O1, Hc.
Qed.

Lemma kwrote_len k0 d k :
  kwrote k0 d k -> rbuf_len (rkbuf_buf k) = rbuf_len (rkbuf_buf k0) + zlen d.
Proof.
  intros W. rewrite <- (inv_zlen _ (proj1 (kw_ok _ _ _ W))), <- (inv_zlen _ (kw_inv _ _ _ W)), (kw_contents _ _ _ W).
  rewrite length_app. lia.
Qed.

Lemma ztake_all {A} (l : list A) : ztake (zlen l) l = l.
Proof. unfold ztake. rewrite Nat2Z.id. apply take_ge. lia. Qed.

Lemma kbuf_write_spec k d x len :
  kbuf_ok k -> len = zlen d -> len < 2 ^ 63 ->
  exists k', rd_kafka_buf_write k (Some (d ++ x)) len = Ret (k', rbuf_len (rkbuf_buf k)) /\ kwrote k d k'.
Proof.
  intros Hk -> Hl. pose proof Hk as [Hi _]. unfold rd_kafka_buf_write. simpl. rewrite ztake_app by done.
  destruct (buf_write_spec _ d (zlen d) Hi eq_refl Hl) as (b & -> & Hb & Hc & _). cbn [obind].
  change (crc_flag (set_rk_buf b k)) with (crc_flag k).
  destruct (crc_flag k) eqn:E; (eexists; split; [reflexivity|]; split; [| |done..]);
    try (by destruct k); intros; congruence || done.
Qed.

Section append.
Context (k0 : rd_kafka_buf).

(** One more write: the position it returns and the bytes so far. *)
Lemma kw_write acc k d len :
  kwrote k0 acc k -> len = zlen d -> len < 2 ^ 63 ->
  exists k', rd_kafka_buf_write k (Some d) len = Ret (k', rbuf_len (rkbuf_buf k0) + zlen acc) /\
             kwrote k0 (acc ++ d) k'.
Proof.
  intros W Hd Hl. destruct (kbuf_write_spec k d [] len (kwrote_ok _ _ _ W) Hd Hl) as (k' & Hw & W').
  rewrite app_nil_r in Hw. exists k'. rewrite Hw, (kwrote_len _ _ _ W). split; [done|].
  by eapply kwrote_trans.
Qed.

(** A write of a prefix of the memory at the pointer. *)
Lemma kw_write_prefix acc k d x len :
  kwrote k0 acc k -> len = zlen d -> len < 2 ^ 63 ->
  exists k', rd_kafka_buf_write k (Some (d ++ x)) len = Ret (k', rbuf_len (rkbuf_buf k0) + zlen acc) /\
             kwrote k0 (acc ++ d) k'.
Proof.
  intros W Hd Hl. destruct (kbuf_write_spec k d x len (kwrote_ok _ _ _ W) Hd Hl) as (k' & Hw & W').
  exists k'. rewrite Hw, (kwrote_len _ _ _ W). split; [done|]. by eapply kwrote_trans.
Qed.

(** A write of nothing through a NULL pointer. *)
Lemma kw_write_null acc k :
  kwrote k0 acc k ->
  exists k' r, rd_kafka_buf_write k None 0 = Ret (k', r) /\ kwrote k0 acc k'.
Proof.
  intros W. unfold rd_kafka_buf_write. simpl.
  change (rd_buf_write (rkbuf_buf k) None 0) with (rd_buf_write (rkbuf_buf k) (Some []) 0).
  destruct (buf_write_spec _ [] 0 (kw_inv _ _ _ W) eq_refl ltac:(lia)) as (b & -> & Hb & Hc & _).
  cbn [obind]. rewrite app_nil_r in Hc. exists (set_rk_buf b k), (rbuf_len (rkbuf_buf k)).
  split; [by destruct (crc_flag _)|]. destruct W as [E X O I C].
  split; [|exact X|done..|by simpl; rewrite Hc, C]. rewrite E. done.
Qed.

Lemma kw_be acc k n v :
  kwrote k0 acc k -> Z.of_nat n < 2 ^ 32 ->
  exists k', rd_kafka_buf_write k (Some (be_enc n v)) (Z.of_nat n) =
    Ret (k', rbuf_len (rkbuf_buf k0) + zlen acc) /\ kwrote k0 (acc ++ be_enc n v) k'.
Proof.
  intros W Hn. pose proof (be_enc_length n v) as Hl. apply kw_write; [done| |].
  - by rewrite Hl.
  - lia.
Qed.

Lemma kw_varint acc k v :
  kwrote k0 acc k -> s_ok 64 v ->
  exists k', rd_kafka_buf_write_varint k v = Ret (k', rbuf_len (rkbuf_buf k0) + zlen acc) /\
             kwrote k0 (acc ++ varint_bytes v) k'.
Proof.
  intros W Hv. unfold rd_kafka_buf_write_varint. pose proof (varint_bytes_len v) as Hl.
  change (RD_UVARINT_ENC_SIZEOF 8) with 10. rewrite enc_i64_spec by (done || lia). cbn [obind].
  apply kw_write; [done..|lia].
Qed.

Lemma kw_push acc k d cb :
  kwrote k0 acc k ->
  exists k', rd_kafka_buf_push k (Some d) (zlen d) cb = Ret k' /\ kwrote k0 (acc ++ d) k'.
Proof.
  intros W. unfold rd_kafka_buf_push, rd_kafka_buf_push0.
  destruct (buf_push_spec _ (Some d) (zlen d) cb (kw_inv _ _ _ W) eq_refl) as (b & -> & Hb & Hc & _).
  cbn [obind andb]. change (crc_flag (set_rk_buf b k)) with (crc_flag k). simpl in Hc.
  pose proof (kwrote_ok _ _ _ W). rewrite ztake_all.
  destruct (crc_flag k) eqn:E; (eexists; split; [reflexivity|]; eapply kwrote_trans; [exact W|];
    split; [| |done..]); try (by destruct k); intros; congruence || done.
Qed.
End append.


(** The fixed-width writers. *)
Ltac kw_width n W := apply (kw_be _ _ _ n _ W); lia.

Section widths.
Context (k0 : rd_kafka_buf) (acc : list Z) (k : rd_kafka_buf) (v : Z) (W : kwrote k0 acc k).

Lemma kw_i8 :
  exists k', rd_kafka_buf_write_i8 k v = Ret (k', rbuf_len (rkbuf_buf k0) + zlen acc) /\
             kwrote k0 (acc ++ be_enc 1 v) k'.
Proof. kw_width 1%nat W. Qed.
Lemma kw_i16 :
  exists k', rd_kafka_buf_write_i16 k v = Ret (k', rbuf_len (rkbuf_buf k0) + zlen acc) /\
             kwrote k0 (acc ++ be_enc 2 v) k'.
Proof. kw_width 2%nat W. Qed.
Lemma kw_i32 :
  exists k', rd_kafka_buf_write_i32 k v = Ret (k', rbuf_len (rkbuf_buf k0) + zlen acc) /\
             kwrote k0 (acc ++ be_enc 4 v) k'.
Proof. kw_width 4%nat W. Qed.
Lemma kw_i64 :
  exists k', rd_kafka_buf_write_i64 k v = Ret (k', rbuf_len (rkbuf_buf k0) + zlen acc) /\
             kwrote k0 (acc ++ be_enc 8 v) k'.
Proof. kw_width 8%nat W. Qed.
End widths.

(** ** Updating in place *)

Lemma mem_write_middle x old new c :
  zlen new = zlen old -> mem_write (x ++ old ++ c) (zlen x) new = x ++ new ++ c.
Proof.
  intros Hl. unfold mem_write. rewrite ztake_app by done. f_equal. f_equal.
  rewrite app_assoc. apply zdrop_app. rewrite length_app. lia.
Qed.

Lemma kw_update k0 a old new c k pos len :
  kwrote k0 (a ++ old ++ c) k -> crc_flag k0 = false -> len = zlen new -> len = zlen old -> 0 < len ->
  pos = rbuf_len (rkbuf_buf k0) + zlen a -> rbuf_len (rkbuf_buf k) < 2 ^ 64 ->
  exists k', rd_kafka_buf_update k pos new len = Ret k' /\ kwrote k0 (a ++ new ++ c) k' /\
             rbuf_len (rkbuf_buf k') = rbuf_len (rkbuf_buf k).
Proof.
  intros W Hf Hn Ho Hp -> Hlt. unfold rd_kafka_buf_update. rewrite (kwrote_flag _ _ _ W), Hf. cbn [negb].
  pose proof (kwrote_len _ _ _ W) as Hl. rewrite !length_app in Hl.
  pose proof (inv_zlen _ (proj1 (kw_ok _ _ _ W))) as Hz.
  destruct (buf_write_update_spec (rkbuf_buf k) (rbuf_len (rkbuf_buf k0) + zlen a) new len
    (kw_inv _ _ _ W) Hlt) as (b & -> & Hb & Hc & _); [lia..|].
  cbn [obind]. eexists. split; [reflexivity|]. pose proof W as [E X O I C].
  assert (Hcont : contents b = contents (rkbuf_buf k0) ++ a ++ new ++ c).
  { rewrite Hc, C, (app_assoc (contents _) a (old ++ c)).
    replace (rbuf_len (rkbuf_buf k0) + zlen a) with (zlen (contents (rkbuf_buf k0) ++ a))
      by (rewrite length_app; lia).
    rewrite mem_write_middle by lia. by rewrite <- app_assoc. }
  split; [split; [|by rewrite Hf|done..]|].
  - rewrite E. done.
  - simpl. rewrite <- (inv_zlen b Hb), Hcont, Hl, !length_app. lia.
Qed.

(** ** Checksummed sections *)

Lemma clear_crc_flag f :
  Z.land f RD_KAFKA_OP_F_CRC = 0 ->
  Z.land (Z.lor f RD_KAFKA_OP_F_CRC) (Z.lnot RD_KAFKA_OP_F_CRC) = f.
Proof.
  intros Hf. rewrite <- Z.ldiff_land. apply Z.bits_inj'. intros i Hi.
  rewrite Z.ldiff_spec, Z.lor_spec. apply (f_equal (fun z => Z.testbit z i)) in Hf.
  rewrite Z.land_spec, Z.bits_0 in Hf. by destruct (Z.testbit f i), (Z.testbit RD_KAFKA_OP_F_CRC i).
Qed.

(** What is written between [rd_kafka_buf_crc_init] and
    [rd_kafka_buf_crc_finalize] is appended and summed. *)
Lemma kw_crc_section k0 acc k :
  kwrote k0 acc k -> crc_flag k0 = false ->
  exists k1, rd_kafka_buf_crc_init k = Ret k1 /\ kwrote k1 [] k1 /\
    rbuf_len (rkbuf_buf k1) = rbuf_len (rkbuf_buf k) /\
    forall P k2, kwrote k1 P k2 ->
      exists k3, rd_kafka_buf_crc_finalize k2 = (k3, rd_crc32 P) /\ kwrote k0 (acc ++ P) k3.
Proof.
  intros W Hf. unfold rd_kafka_buf_crc_init. rewrite (kwrote_flag _ _ _ W), Hf. cbn [negb].
  set (k1 := set_rk_crc _ _ k).
  assert (Hf1 : crc_flag k1 = true).
  { unfold crc_flag, k1. simpl. rewrite Z.land_lor_distr_l. apply negb_true_iff, Z.eqb_neq.
    rewrite Z.land_diag. intros H. apply Z.lor_eq_0_iff in H as [_ H]. done. }
  assert (O1 : kbuf_ok k1).
  { split; [exact (kw_inv _ _ _ W)|]. intros _. unfold u_ok, k1, rd_crc32_init. simpl. lia. }
  exists k1. split; [done|]. split; [by apply kwrote_refl|]. split; [done|]. intros P k2 W2.
  eexists. split.
  - unfold rd_kafka_buf_crc_finalize. by rewrite (kw_crc _ _ _ W2 Hf1).
  - assert (Hfl : rkbuf_flags k0 = Z.land (rkbuf_flags k2) (Z.lnot RD_KAFKA_OP_F_CRC)).
    { rewrite (kwrote_flags _ _ _ W2). unfold k1. simpl. rewrite (kwrote_flags _ _ _ W).
      symmetry. apply clear_crc_flag. unfold crc_flag in Hf. by apply negb_false_iff, Z.eqb_eq in Hf. }
    destruct W as [E X O I C], W2 as [E2 X2 O2 I2 C2]. split; [|by rewrite Hf|done|exact I2|].
    + subst k1. destruct k0, k, k2. unfold set_rk_crc, set_rk_buf in *. simpl in *.
      injection E as -> -> -> -> -> -> -> -> -> -> ->.
      injection E2 as -> -> -> -> -> -> -> -> -> -> ->. by rewrite <- Hfl.
    + simpl. rewrite C2. unfold k1. simpl. by rewrite C, app_assoc.
Qed.
