(* ===== verification/MsgsetWriter.v ===== *)
(** * The MessageSet writer: rdkafka_msgset_writer.c

    Builds a ProduceRequest holding one MessageSet with as many messages of a
    partition's transmit queue as fit.  The compressors are third-party code
    and an argument of the configuration. *)
From Stdlib Require Import ZArith Lia.
From stdpp Require Import base numbers list.
From S2P Require Import Prelude Varint Buf Slice Crc Reader Crc32c RdList Proto Header Msg KBuf.
From S2P Require Import MsgsetReader.

(** ** Data *)

Record msgset_writer : Type := mk_msetw {
  msetw_rkbuf : rd_kafka_buf;
  msetw_ApiVersion : Z;
  msetw_MsgVersion : Z;
  msetw_features : Z;
  msetw_msgcntmax : Z;
  msetw_messages_len : Z;
  msetw_messages_kvlen : Z;
  msetw_MessageSetSize : Z;
  msetw_of_MessageSetSize : Z;
  msetw_of_start : Z;
  msetw_relative_offsets : bool;
  msetw_Attributes : Z;
  msetw_MaxTimestamp : Z;
  msetw_of_CRC : Z;
  msetw_firstmsg_of : Z;
  msetw_firstmsg_timestamp : Z }.

Definition set_w_rkbuf (k : rd_kafka_buf) (w : msgset_writer) : msgset_writer :=
  mk_msetw k (msetw_ApiVersion w) (msetw_MsgVersion w) (msetw_features w) (msetw_msgcntmax w)
    (msetw_messages_len w) (msetw_messages_kvlen w) (msetw_MessageSetSize w)
    (msetw_of_MessageSetSize w) (msetw_of_start w) (msetw_relative_offsets w) (msetw_Attributes w)
    (msetw_MaxTimestamp w) (msetw_of_CRC w) (msetw_firstmsg_of w) (msetw_firstmsg_timestamp w).
Definition set_w_version (api msg features : Z) (w : msgset_writer) : msgset_writer :=
  mk_msetw (msetw_rkbuf w) api msg features (msetw_msgcntmax w)
    (msetw_messages_len w) (msetw_messages_kvlen w) (msetw_MessageSetSize w)
    (msetw_of_MessageSetSize w) (msetw_of_start w) (msetw_relative_offsets w) (msetw_Attributes w)
    (msetw_MaxTimestamp w) (msetw_of_CRC w) (msetw_firstmsg_of w) (msetw_firstmsg_timestamp w).
Definition set_w_sizes (len kvlen size : Z) (w : msgset_writer) : msgset_writer :=
  mk_msetw (msetw_rkbuf w) (msetw_ApiVersion w) (msetw_MsgVersion w) (msetw_features w)
    (msetw_msgcntmax w) len kvlen size
    (msetw_of_MessageSetSize w) (msetw_of_start w) (msetw_relative_offsets w) (msetw_Attributes w)
    (msetw_MaxTimestamp w) (msetw_of_CRC w) (msetw_firstmsg_of w) (msetw_firstmsg_timestamp w).
Definition set_w_offsets (size start crc first : Z) (w : msgset_writer) : msgset_writer :=
  mk_msetw (msetw_rkbuf w) (msetw_ApiVersion w) (msetw_MsgVersion w) (msetw_features w)
    (msetw_msgcntmax w) (msetw_messages_len w) (msetw_messages_kvlen w) (msetw_MessageSetSize w)
    size start (msetw_relative_offsets w) (msetw_Attributes w)
    (msetw_MaxTimestamp w) crc first (msetw_firstmsg_timestamp w).
Definition set_w_relative (r : bool) (w : msgset_writer) : msgset_writer :=
  mk_msetw (msetw_rkbuf w) (msetw_ApiVersion w) (msetw_MsgVersion w) (msetw_features w)
    (msetw_msgcntmax w) (msetw_messages_len w) (msetw_messages_kvlen w) (msetw_MessageSetSize w)
    (msetw_of_MessageSetSize w) (msetw_of_start w) r (msetw_Attributes w)
    (msetw_MaxTimestamp w) (msetw_of_CRC w) (msetw_firstmsg_of w) (msetw_firstmsg_timestamp w).
Definition set_w_attrs (attrs max first : Z) (w : msgset_writer) : msgset_writer :=
  mk_msetw (msetw_rkbuf w) (msetw_ApiVersion w) (msetw_MsgVersion w) (msetw_features w)
    (msetw_msgcntmax w) (msetw_messages_len w) (msetw_messages_kvlen w) (msetw_MessageSetSize w)
    (msetw_of_MessageSetSize w) (msetw_of_start w) (msetw_relative_offsets w) attrs
    max (msetw_of_CRC w) (msetw_firstmsg_of w) first.

(** The broker, client and topic configuration the writer reads. [compress
    codec proper bytes] is the output of the third-party compressor, [None]
    when it fails; [wc_now] is [rd_clock ()]. *)
Record writer_conf : Type := mk_wconf {
  rkb_features : Z;
  batch_num_messages : Z;
  msg_copy_max_size : Z;
  max_msg_size : Z;
  compression_codec : Z;
  wc_PID : Z;
  wc_ProducerEpoch : Z;
  TransactionalId : rd_kafkap_str;
  wc_client_id : rd_kafkap_str;
  wc_socket_timeout_ms : Z;
  required_acks : Z;
  request_timeout_ms : Z;
  wc_topic : rd_kafkap_str;
  wc_partition : Z;
  wc_now : Z;
  wc_addr_of : nat * Z -> Z;
  compress : Z -> bool -> list Z -> option (list Z) }.

Definition RD_KAFKA_FEATURE_MSGVER1 : Z := 0x1.
Definition RD_KAFKA_FEATURE_THROTTLETIME : Z := 0x8.
Definition RD_KAFKA_FEATURE_LZ4 : Z := 0x80.
Definition RD_KAFKA_FEATURE_MSGVER2 : Z := 0x200.

(** ** Code *)

Section writer.
Variable conf : writer_conf.

Definition rd_kafka_msgset_writer_select_MsgVersion (w : msgset_writer) : msgset_writer :=
  let f2 := Z.land (rkb_features conf) RD_KAFKA_FEATURE_MSGVER2 in
  let f1 := Z.land (rkb_features conf) RD_KAFKA_FEATURE_MSGVER1 in
  let f0 := Z.land (rkb_features conf) RD_KAFKA_FEATURE_THROTTLETIME in
  if negb (f2 =? 0) then set_w_version 3 2 (Z.lor (msetw_features w) f2) w
  else if negb (f1 =? 0) then set_w_version 2 1 (Z.lor (msetw_features w) f1) w
  else if negb (f0 =? 0) then set_w_version 1 0 (Z.lor (msetw_features w) f0) w
  else set_w_version 0 0 (msetw_features w) w.

(** The size handed to the allocator; [queued_bytes] is the size of the
    transmit queue. *)
Definition msetw_bufsize (w : msgset_writer) (queued_bytes : Z) : outcome Z :=
  assert! ((0 <=? msetw_ApiVersion w) && (msetw_ApiVersion w <=? 3)) in
  let hdrsize := (if msetw_ApiVersion w =? 3 then RD_KAFKAP_STR_SIZE (TransactionalId conf) else 0)
                 + (2 + 4 + 4 + RD_KAFKAP_STR_SIZE (wc_topic conf) + 4 + 4 + 4) in
  assert! ((0 <=? msetw_MsgVersion w) && (msetw_MsgVersion w <=? 2)) in
  let '(msg_overhead, msgsetsize) :=
    if msetw_MsgVersion w =? 0 then (RD_KAFKAP_MESSAGE_V0_OVERHEAD, 4)
    else if msetw_MsgVersion w =? 1 then (RD_KAFKAP_MESSAGE_V1_OVERHEAD, 4)
    else (RD_KAFKAP_MESSAGE_V2_OVERHEAD, 4 + (8 + 4 + 4 + 1 + 4 + 2 + 4 + 8 + 8 + 8 + 2 + 4 + 4)) in
  let bufsize := hdrsize + msgsetsize in
  let bufsize := if msg_copy_max_size conf >? 0
                 then bufsize + Z.min queued_bytes (u64 (msg_copy_max_size conf * msetw_msgcntmax w))
                 else bufsize in
  let bufsize := bufsize + msg_overhead * msetw_msgcntmax w in
  Ret (if bufsize >? max_msg_size conf then max_msg_size conf else bufsize).

Definition RD_KAFKAP_Produce : Z := 0.

Definition rd_kafka_msgset_writer_alloc_buf (w : msgset_writer) (queued_bytes : Z)
  : outcome msgset_writer :=
  let! bufsize := msetw_bufsize w queued_bytes in
  let! k := rd_kafka_buf_new_request (wc_client_id conf) (wc_socket_timeout_ms conf) RD_KAFKAP_Produce
              (Z.quot (msetw_msgcntmax w) 2 + 10) bufsize in
  Ret (set_w_rkbuf (rd_kafka_buf_ApiVersion_set k (msetw_ApiVersion w) (msetw_features w)) w).

Definition rd_kafka_msgset_writer_write_MessageSet_v2_header (w : msgset_writer)
  : outcome msgset_writer :=
  assert! (msetw_ApiVersion w >=? 3) in
  assert! (msetw_MsgVersion w =? 2) in
  let! (k, of_start) := rd_kafka_buf_write_i64 (msetw_rkbuf w) 0 in
  let! (k, _) := rd_kafka_buf_write_i32 k 0 in
  let! (k, _) := rd_kafka_buf_write_i32 k 0 in
  let! (k, _) := rd_kafka_buf_write_i8 k (msetw_MsgVersion w) in
  let! (k, of_CRC) := rd_kafka_buf_write_i32 k 0 in
  let! (k, _) := rd_kafka_buf_write_i16 k 0 in
  let! (k, _) := rd_kafka_buf_write_i32 k 0 in
  let! (k, _) := rd_kafka_buf_write_i64 k 0 in
  let! (k, _) := rd_kafka_buf_write_i64 k 0 in
  let! (k, _) := rd_kafka_buf_write_i64 k (wc_PID conf) in
  let! (k, _) := rd_kafka_buf_write_i16 k (wc_ProducerEpoch conf) in
  let! (k, _) := rd_kafka_buf_write_i32 k (-1) in
  let! (k, _) := rd_kafka_buf_write_i32 k 0 in
  Ret (set_w_offsets (msetw_of_MessageSetSize w) of_start of_CRC (msetw_firstmsg_of w)
         (set_w_rkbuf k w)).

Definition rd_kafka_msgset_writer_write_Produce_header (w : msgset_writer) : outcome msgset_writer :=
  let! (k, _) := (if msetw_ApiVersion w =? 3
                  then rd_kafka_buf_write_kstr (msetw_rkbuf w) (TransactionalId conf)
                  else Ret (msetw_rkbuf w, 0)) in
  let! (k, _) := rd_kafka_buf_write_i16 k (required_acks conf) in
  let! (k, _) := rd_kafka_buf_write_i32 k (request_timeout_ms conf) in
  let! (k, _) := rd_kafka_buf_write_i32 k 1 in
  let! (k, _) := rd_kafka_buf_write_kstr k (wc_topic conf) in
  let! (k, _) := rd_kafka_buf_write_i32 k 1 in
  let! (k, _) := rd_kafka_buf_write_i32 k (wc_partition conf) in
  let! (k, of_size) := rd_kafka_buf_write_i32 k 0 in
  let w := set_w_offsets of_size (msetw_of_start w) (msetw_of_CRC w) (msetw_firstmsg_of w)
             (set_w_rkbuf k w) in
  if msetw_MsgVersion w =? 2 then
    let! w := rd_kafka_msgset_writer_write_MessageSet_v2_header w in
    Ret (set_w_sizes (msetw_messages_len w) (msetw_messages_kvlen w) RD_KAFKAP_MSGSET_V2_SIZE w)
  else
    Ret (set_w_sizes (msetw_messages_len w) (msetw_messages_kvlen w) RD_KAFKAP_MSGSET_V0_SIZE w).

(** [None] when there is nothing to send.  The buffer is a placeholder until
    [rd_kafka_msgset_writer_alloc_buf] has run. *)
Definition rd_kafka_msgset_writer_init (xmit_msgq : rd_kafka_msgq) : outcome (option msgset_writer) :=
  let msgcnt := rkmq_msg_cnt xmit_msgq in
  if msgcnt =? 0 then Ret None
  else
    let! k := rd_kafka_buf_new0 1 0 0 in
    let w := mk_msetw k 0 0 0 (Z.min msgcnt (batch_num_messages conf)) 0 0 0 0 0 false 0 0 0 0 0 in
    let w := rd_kafka_msgset_writer_select_MsgVersion w in
    let w := if msetw_MsgVersion w =? 2 then set_w_relative true w
             else if (msetw_MsgVersion w =? 1) && negb (compression_codec conf =? 0)
             then set_w_relative true w else w in
    let! w := rd_kafka_msgset_writer_alloc_buf w (rd_kafka_msgq_size xmit_msgq) in
    let! w := rd_kafka_msgset_writer_write_Produce_header w in
    let! pos := rd_buf_write_pos (rkbuf_buf (msetw_rkbuf w)) in
    Ret (Some (set_w_offsets (msetw_of_MessageSetSize w) (msetw_of_start w) (msetw_of_CRC w) pos w)).

(** *** Messages *)

Definition rd_kafka_msgset_writer_write_msg_payload (k : rd_kafka_buf) (rkm : rd_kafka_msg)
    (free_cb : option nat) : outcome rd_kafka_buf :=
  if (rkm_len rkm <=? u64 (msg_copy_max_size conf))
     && (rd_buf_write_remains (rkbuf_buf k) >? rkm_len rkm)
  then let! (k, _) := rd_kafka_buf_write k (rkm_payload rkm) (rkm_len rkm) in Ret k
  else rd_kafka_buf_push k (rkm_payload rkm) (rkm_len rkm) free_cb.

Fixpoint write_headers_loop (fuel : nat) (k : rd_kafka_buf) (rl : rd_list rd_kafka_header) (i : Z)
  : outcome rd_kafka_buf :=
  match fuel with
  | O => Diverge
  | S fuel =>
      let! e := rd_list_elem rl i in
      match e with
      | None => Ret k
      | Some hdr =>
          let! (k, _) := rd_kafka_buf_write_varint k (rkhdr_name_size hdr) in
          let! (k, _) := rd_kafka_buf_write k (Some (rkhdr_name hdr)) (rkhdr_name_size hdr) in
          let! (k, _) := rd_kafka_buf_write_varint k
                           (match rkhdr_value hdr with Some _ => rkhdr_value_size hdr | None => -1 end) in
          let! (k, _) := rd_kafka_buf_write k (rkhdr_value hdr) (rkhdr_value_size hdr) in
          write_headers_loop fuel k rl (i + 1)
      end
  end.

Definition rd_kafka_msgset_writer_write_msg_headers (k : rd_kafka_buf) (hdrs : rd_kafka_headers)
  : outcome (rd_kafka_buf * Z) :=
  let! start_pos := rd_buf_write_pos (rkbuf_buf k) in
  let! k := write_headers_loop (list_fuel (rkhdrs_list hdrs)) k (rkhdrs_list hdrs) 0 in
  let! pos := rd_buf_write_pos (rkbuf_buf k) in
  Ret (k, u64 (pos - start_pos)).

(** The size returned by the message writers is computed with [size_t]. *)
Definition rd_kafka_msgset_writer_write_msg_v0_1 (w : msgset_writer) (rkm : rd_kafka_msg)
    (Offset MsgAttributes : Z) (free_cb : option nat) : outcome (msgset_writer * Z) :=
  let! (k, _) := rd_kafka_buf_write_i64 (msetw_rkbuf w) Offset in
  let MessageSize := 4 + 1 + 1 + 4 + rkm_key_len rkm + 4 + rkm_len rkm
                     + (if msetw_MsgVersion w =? 1 then 8 else 0) in
  let! (k, _) := rd_kafka_buf_write_i32 k (s32 MessageSize) in
  let! (k, of_Crc) := rd_kafka_buf_write_i32 k 0 in
  let! k := rd_kafka_buf_crc_init k in
  let! (k, _) := rd_kafka_buf_write_i8 k (msetw_MsgVersion w) in
  let! (k, _) := rd_kafka_buf_write_i8 k MsgAttributes in
  let! (k, _) := (if msetw_MsgVersion w =? 1 then rd_kafka_buf_write_i64 k (rkm_timestamp rkm)
                  else Ret (k, 0)) in
  let! (k, _) := rd_kafka_buf_write_bytes k (rkm_key rkm) (rkm_key_len rkm) in
  let! k :=
    (match rkm_payload rkm with
     | Some _ =>
         let! (k, _) := rd_kafka_buf_write_i32 k (s32 (rkm_len rkm)) in
         rd_kafka_msgset_writer_write_msg_payload k rkm free_cb
     | None => let! (k, _) := rd_kafka_buf_write_i32 k RD_KAFKAP_BYTES_LEN_NULL in Ret k
     end) in
  let '(k, crc) := rd_kafka_buf_crc_finalize k in
  let! k := rd_kafka_buf_update_u32 k of_Crc crc in
  Ret (set_w_rkbuf k w, 8 + 4 + MessageSize).

(** Capacity of the varint arrays on the stack. *)
Definition VARINT_I32 : Z := RD_UVARINT_ENC_SIZEOF 4.
Definition VARINT_I64 : Z := RD_UVARINT_ENC_SIZEOF 8.

Definition rd_kafka_msgset_writer_write_msg_v2 (w : msgset_writer) (rkm : rd_kafka_msg)
    (Offset MsgAttributes : Z) (free_cb : option nat) : outcome (msgset_writer * Z) :=
  let HeaderCount := match rkm_headers rkm with Some h => rl_cnt (rkhdrs_list h) | None => 0 end in
  let HeaderSize := match rkm_headers rkm with Some h => rkhdrs_ser_size h | None => 0 end in
  let! (sz_TimestampDelta, varint_TimestampDelta) :=
    rd_uvarint_enc_i64 VARINT_I64 (s64 (rkm_timestamp rkm - msetw_firstmsg_timestamp w)) in
  let! (sz_OffsetDelta, varint_OffsetDelta) := rd_uvarint_enc_i64 VARINT_I64 Offset in
  let! (sz_KeyLen, varint_KeyLen) :=
    rd_uvarint_enc_i32 VARINT_I32
      (match rkm_key rkm with Some _ => s32 (rkm_key_len rkm) | None => RD_KAFKAP_BYTES_LEN_NULL end) in
  let! (sz_ValueLen, varint_ValueLen) :=
    rd_uvarint_enc_i32 VARINT_I32
      (match rkm_payload rkm with Some _ => s32 (rkm_len rkm) | None => RD_KAFKAP_BYTES_LEN_NULL end) in
  let! (sz_HeaderCount, varint_HeaderCount) := rd_uvarint_enc_i32 VARINT_I32 (s32 HeaderCount) in
  let MessageSize := 1 + sz_TimestampDelta + sz_OffsetDelta + sz_KeyLen + rkm_key_len rkm
                     + sz_ValueLen + rkm_len rkm + sz_HeaderCount + HeaderSize in
  let! (sz_Length, varint_Length) := rd_uvarint_enc_i64 VARINT_I32 MessageSize in
  let! (k, _) := rd_kafka_buf_write (msetw_rkbuf w) (Some varint_Length) sz_Length in
  let MessageSize := MessageSize + sz_Length in
  let! (k, _) := rd_kafka_buf_write_i8 k 0 in
  let! (k, _) := rd_kafka_buf_write k (Some varint_TimestampDelta) sz_TimestampDelta in
  let! (k, _) := rd_kafka_buf_write k (Some varint_OffsetDelta) sz_OffsetDelta in
  let! (k, _) := rd_kafka_buf_write k (Some varint_KeyLen) sz_KeyLen in
  let! (k, _) := (match rkm_key rkm with
                  | Some key => rd_kafka_buf_write k (Some key) (rkm_key_len rkm)
                  | None => Ret (k, 0)
                  end) in
  let! (k, _) := rd_kafka_buf_write k (Some varint_ValueLen) sz_ValueLen in
  let! k := (match rkm_payload rkm with
             | Some _ => rd_kafka_msgset_writer_write_msg_payload k rkm free_cb
             | None => Ret k
             end) in
  let! (k, _) := rd_kafka_buf_write k (Some varint_HeaderCount) sz_HeaderCount in
  let! k := (match rkm_headers rkm with
             | Some hdrs => let! (k, _) := rd_kafka_msgset_writer_write_msg_headers k hdrs in Ret k
             | None => Ret k
             end) in
  Ret (set_w_rkbuf k w, MessageSize).

Definition rd_kafka_msgset_writer_write_msg (w : msgset_writer) (rkm : rd_kafka_msg)
    (Offset MsgAttributes : Z) (free_cb : option nat) : outcome (msgset_writer * Z) :=
  let MsgAttributes := if negb (rkm_timestamp rkm =? 0)
                       then Z.lor MsgAttributes RD_KAFKA_MSG_ATTR_CREATE_TIME else MsgAttributes in
  let! pre_pos := rd_buf_write_pos (rkbuf_buf (msetw_rkbuf w)) in
  let! (w, outlen) :=
    (if msetw_MsgVersion w =? 2
     then rd_kafka_msgset_writer_write_msg_v2 w rkm Offset MsgAttributes free_cb
     else rd_kafka_msgset_writer_write_msg_v0_1 w rkm Offset MsgAttributes free_cb) in
  let! pos := rd_buf_write_pos (rkbuf_buf (msetw_rkbuf w)) in
  let actual_written := u64 (pos - pre_pos) in
  assert! (outlen <=? rd_kafka_msg_wire_size rkm (msetw_MsgVersion w)) in
  assert! (outlen =? actual_written) in
  Ret (w, outlen).

(** The do-while loop: one pass per message of the queue.  The message queue
    of the request is the one of the buffer. *)
Fixpoint write_msgq_loop (fuel : nat) (w : msgset_writer) (rkmq : rd_kafka_msgq) (rkm : rd_kafka_msg)
    (len msgcnt MaxTimestamp : Z) : outcome (msgset_writer * rd_kafka_msgq * Z) :=
  match fuel with
  | O => Diverge
  | S fuel =>
      if (msgcnt =? msetw_msgcntmax w)
         || (len + rd_kafka_msg_wire_size rkm (msetw_MsgVersion w) >? max_msg_size conf)
      then Ret (w, rkmq, MaxTimestamp)
      else if rkm_ts_backoff rkm >? wc_now conf then Ret (w, rkmq, MaxTimestamp)
      else
        let! rkmq := rd_kafka_msgq_deq rkmq rkm true in
        let k := msetw_rkbuf w in
        let k := set_rk_msgq (rd_kafka_msgq_enq (rkbuf_msgq k) rkm).1 k in
        let w := set_w_sizes (msetw_messages_len w)
                   (msetw_messages_kvlen w + (rkm_len rkm + rkm_key_len rkm)) (msetw_MessageSetSize w)
                   (set_w_rkbuf k w) in
        let MaxTimestamp := if MaxTimestamp <? rkm_timestamp rkm then rkm_timestamp rkm
                            else MaxTimestamp in
        let! (w, outlen) := rd_kafka_msgset_writer_write_msg w rkm msgcnt 0 None in
        match head (rkmq_msgs rkmq) with
        | None => Ret (w, rkmq, MaxTimestamp)
        | Some rkm => write_msgq_loop fuel w rkmq rkm (len + outlen) (msgcnt + 1) MaxTimestamp
        end
  end.

Definition rd_kafka_msgset_writer_write_msgq (w : msgset_writer) (rkmq : rd_kafka_msgq)
  : outcome (msgset_writer * rd_kafka_msgq) :=
  match head (rkmq_msgs rkmq) with
  | None => Crash
  | Some rkm =>
      let w := set_w_attrs (msetw_Attributes w) (msetw_MaxTimestamp w) (rkm_timestamp rkm) w in
      let! (w, rkmq, MaxTimestamp) :=
        write_msgq_loop (length (rkmq_msgs rkmq)) w rkmq rkm
          (rbuf_len (rkbuf_buf (msetw_rkbuf w))) 0 0 in
      Ret (set_w_attrs (msetw_Attributes w) MaxTimestamp (msetw_firstmsg_timestamp w) w, rkmq)
  end.

(** *** Compression and finalisation *)

(** The unread bytes of a slice, as the compressors consume them. *)
Definition slice_bytes (b : rd_buf) (sl : rd_slice) : outcome (list Z) :=
  let! (_, d) := reader_loop (slice_fuel sl) b (fun d c => d ++ c) sl [] in Ret d.

Definition INT32_MAX : Z := 2 ^ 31 - 1.

Definition wrapper_msg (w : msgset_writer) (ciov : list Z) : rd_kafka_msg :=
  mk_rkm 0 (zlen ciov) (Some ciov) 0 0 None 0 0 0 (msetw_firstmsg_timestamp w)
    RD_KAFKA_TIMESTAMP_NOT_AVAILABLE None 0 0 0 0 0 (mk_kbytes 0 None []).

(** The writer and the compressed size, [None] when compression failed and the
    messages are sent uncompressed. *)
Definition rd_kafka_msgset_writer_compress (w : msgset_writer) (len : Z)
  : outcome (msgset_writer * option Z) :=
  let rbuf := rkbuf_buf (msetw_rkbuf w) in
  assert! (rbuf_len rbuf >=? msetw_firstmsg_of w + len) in
  let! r := rd_slice_init rbuf (msetw_firstmsg_of w) len in
  match r with
  | None => Crash
  | Some slice =>
      let codec := compression_codec conf in
      if negb ((codec =? RD_KAFKA_COMPRESSION_GZIP) || (codec =? RD_KAFKA_COMPRESSION_SNAPPY)
               || (codec =? RD_KAFKA_COMPRESSION_LZ4)) then Crash
      else if (codec =? RD_KAFKA_COMPRESSION_LZ4)
              && (Z.land (rkb_features conf) RD_KAFKA_FEATURE_LZ4 =? 0) then Ret (w, None)
      else
        let! bytes := slice_bytes rbuf slice in
        match compress conf codec (msetw_MsgVersion w >=? 1) bytes with
        | None => Ret (w, None)
        | Some ciov =>
            if zlen ciov >? len then Ret (w, None)
            else
              let w := set_w_attrs (Z.lor (msetw_Attributes w) codec) (msetw_MaxTimestamp w)
                         (msetw_firstmsg_timestamp w) w in
              let! (b, _, _) := rd_buf_write_seek rbuf (msetw_firstmsg_of w) in
              assert! (zlen ciov <? INT32_MAX) in
              let w := set_w_rkbuf (set_rk_buf b (msetw_rkbuf w)) w in
              if msetw_MsgVersion w =? 2 then
                let! b := rd_buf_push b (Some ciov) (zlen ciov) (Some O) in
                Ret (set_w_rkbuf (set_rk_buf b (msetw_rkbuf w)) w, Some (zlen ciov))
              else
                let! (w, outlen) := rd_kafka_msgset_writer_write_msg w (wrapper_msg w ciov) 0 codec
                                      (Some O) in
                Ret (w, Some outlen)
        end
  end.

Definition rd_kafka_msgset_writer_calc_crc_v2 (w : msgset_writer) : outcome msgset_writer :=
  let b := rkbuf_buf (msetw_rkbuf w) in
  let! pos := rd_buf_write_pos b in
  let! r := rd_slice_init b (msetw_of_CRC w + 4) (pos - msetw_of_CRC w - 4) in
  match r with
  | None => Crash
  | Some slice =>
      let! (_, crc) := rd_slice_crc32c (wc_addr_of conf) b slice in
      let! k := rd_kafka_buf_update_i32 (msetw_rkbuf w) (msetw_of_CRC w) (s32 crc) in
      Ret (set_w_rkbuf k w)
  end.

Definition rd_kafka_msgset_writer_finalize_MessageSet_v2_header (w : msgset_writer)
  : outcome msgset_writer :=
  let k := msetw_rkbuf w in
  let msgcnt := rd_kafka_msgq_len (rkbuf_msgq k) in
  assert! (msgcnt >? 0) in
  assert! (msetw_ApiVersion w >=? 3) in
  let MessageSetSize := RD_KAFKAP_MSGSET_V2_SIZE + msetw_messages_len w in
  let of_start := msetw_of_start w in
  let Attributes := Z.lor (msetw_Attributes w) RD_KAFKA_MSG_ATTR_CREATE_TIME in
  let! k := rd_kafka_buf_update_i32 k (of_start + RD_KAFKAP_MSGSET_V2_OF_Length)
              (s32 (s32 MessageSetSize - (8 + 4))) in
  let! k := rd_kafka_buf_update_i16 k (of_start + RD_KAFKAP_MSGSET_V2_OF_Attributes)
              (s16 Attributes) in
  let! k := rd_kafka_buf_update_i32 k (of_start + RD_KAFKAP_MSGSET_V2_OF_LastOffsetDelta) (msgcnt - 1) in
  let! k := rd_kafka_buf_update_i64 k (of_start + RD_KAFKAP_MSGSET_V2_OF_BaseTimestamp)
              (msetw_firstmsg_timestamp w) in
  let! k := rd_kafka_buf_update_i64 k (of_start + RD_KAFKAP_MSGSET_V2_OF_MaxTimestamp)
              (msetw_MaxTimestamp w) in
  let! k := rd_kafka_buf_update_i32 k (of_start + RD_KAFKAP_MSGSET_V2_OF_RecordCount) msgcnt in
  let w := set_w_attrs Attributes (msetw_MaxTimestamp w) (msetw_firstmsg_timestamp w)
             (set_w_sizes (msetw_messages_len w) (msetw_messages_kvlen w) MessageSetSize
                (set_w_rkbuf k w)) in
  rd_kafka_msgset_writer_calc_crc_v2 w.

Definition rd_kafka_msgset_writer_finalize_MessageSet (w : msgset_writer) : outcome msgset_writer :=
  let! w := (if msetw_MsgVersion w =? 2
             then rd_kafka_msgset_writer_finalize_MessageSet_v2_header w
             else Ret (set_w_sizes (msetw_messages_len w) (msetw_messages_kvlen w)
                         (RD_KAFKAP_MSGSET_V0_SIZE + msetw_messages_len w) w)) in
  let! k := rd_kafka_buf_update_i32 (msetw_rkbuf w) (msetw_of_MessageSetSize w)
              (s32 (msetw_MessageSetSize w)) in
  Ret (set_w_rkbuf k w).

(** The request and the size of its MessageSet, [None] without messages. *)
Definition rd_kafka_msgset_writer_finalize (w : msgset_writer) : outcome (option (rd_kafka_buf * Z)) :=
  let k := msetw_rkbuf w in
  if rd_kafka_msgq_len (rkbuf_msgq k) =? 0 then Ret None
  else
    let! pos := rd_buf_write_pos (rkbuf_buf k) in
    let len := u64 (pos - msetw_firstmsg_of w) in
    assert! (len >? 0) in
    assert! (len <=? max_msg_size conf) in
    let! (w, r) := (if negb (compression_codec conf =? 0)
                    then rd_kafka_msgset_writer_compress w len
                    else Ret (w, None)) in
    let w := set_w_sizes (default len r) (msetw_messages_kvlen w) (msetw_MessageSetSize w) w in
    let! w := rd_kafka_msgset_writer_finalize_MessageSet w in
    Ret (Some (msetw_rkbuf w, msetw_MessageSetSize w)).

(** The transmit queue left over and the request. *)
Definition rd_kafka_msgset_create_ProduceRequest (xmit_msgq : rd_kafka_msgq)
  : outcome (rd_kafka_msgq * option (rd_kafka_buf * Z)) :=
  let! w := rd_kafka_msgset_writer_init xmit_msgq in
  match w with
  | None => Ret (xmit_msgq, None)
  | Some w =>
      let! (w, xmit_msgq) := rd_kafka_msgset_writer_write_msgq w xmit_msgq in
      let! r := rd_kafka_msgset_writer_finalize w in
      Ret (xmit_msgq, r)
  end.
End writer.
