(* ===== verification/WriterSpec.v ===== *)
(** * The MessageSet writer: wire format and message writers

    The wire format of the three message versions as byte strings, and the
    proof that the writers of rdkafka_msgset_writer.c append exactly those
    bytes, return their number and pass their own assertions. *)
From Stdlib Require Import ZArith Lia.
From stdpp Require Import base numbers list.
From S2P Require Import Prelude Varint Buf BufFacts BufSeek BufSpec Slice SliceFacts CrcTheory.
From S2P Require Import Crc Reader Crc32c RdList RdListSpec Proto Header Msg KBuf KBufFacts.
From S2P Require Import KBufWrite MsgsetReader MsgsetWriter.

(** ** Messages *)

Record message : Type := mk_message {
  m_key : option (list Z);
  m_value : option (list Z);
  m_timestamp : Z;
  m_headers : list header }.

(** Size of the variable parts. *)
Definition message_size (m : message) : Z :=
  zlen (opt_data (m_key m)) + zlen (opt_data (m_value m)) + zlen (m_headers m ≫= header_bytes).

(** [rkm] is a produced message holding [m].  The producer refuses larger
    messages ([message.max.bytes] is at most 10^9). *)
Record rkm_holds (rkm : rd_kafka_msg) (m : message) : Prop := mk_rkm_holds {
  rh_key : rkm_key rkm = m_key m;
  rh_key_len : rkm_key_len rkm = zlen (opt_data (m_key m));
  rh_value : rkm_payload rkm = m_value m;
  rh_len : rkm_len rkm = zlen (opt_data (m_value m));
  rh_ts : rkm_timestamp rkm = m_timestamp m;
  rh_ts_ok : s_ok 64 (m_timestamp m);
  rh_hdrs : match rkm_headers rkm with
            | Some h => headers_wf h (m_headers m)
            | None => m_headers m = []
            end;
  rh_hdr_cnt : zlen (m_headers m) < 2 ^ 27;
  rh_size : message_size m < 2 ^ 30 }.

(** ** Wire format *)

Definition record_body (base off : Z) (m : message) : list Z :=
  be_enc 1 0 ++ varint_bytes (s64 (m_timestamp m - base)) ++ varint_bytes off ++
  varint_bytes (opt_len (m_key m)) ++ opt_data (m_key m) ++
  varint_bytes (opt_len (m_value m)) ++ opt_data (m_value m) ++
  varint_bytes (zlen (m_headers m)) ++ (m_headers m ≫= header_bytes).

(** MsgVersion 2. *)
Definition record_bytes (base off : Z) (m : message) : list Z :=
  varint_bytes (zlen (record_body base off m)) ++ record_body base off m.

(** MsgVersions 0 and 1: the bytes the CRC covers, and the whole message. *)
Definition message_payload (ver attrs : Z) (m : message) : list Z :=
  be_enc 1 ver ++ be_enc 1 attrs ++ (if ver =? 1 then be_enc 8 (m_timestamp m) else []) ++
  (be_enc 4 (opt_len (m_key m)) ++ opt_data (m_key m)) ++
  (be_enc 4 (opt_len (m_value m)) ++ opt_data (m_value m)).

Definition message_bytes (ver off attrs : Z) (m : message) : list Z :=
  be_enc 8 off ++ be_enc 4 (4 + zlen (message_payload ver attrs m)) ++
  be_enc 4 (rd_crc32 (message_payload ver attrs m)) ++ message_payload ver attrs m.

(** ** Payload and headers *)

Lemma kw_payload conf k0 acc k rkm m cb v :
  kwrote k0 acc k -> rkm_holds rkm m -> m_value m = Some v ->
  exists k', rd_kafka_msgset_writer_write_msg_payload conf k rkm cb = Ret k' /\ kwrote k0 (acc ++ v) k'.
Proof.
  intros W H Hv. unfold rd_kafka_msgset_writer_write_msg_payload.
  pose proof (rh_size _ _ H) as Hs. unfold message_size in Hs.
  rewrite (rh_value _ _ H), (rh_len _ _ H), Hv in *. simpl opt_data in *.
  destruct (_ && _)%bool; [|by apply kw_push].
  destruct (kw_write k0 acc k v (zlen v) W eq_refl ltac:(lia)) as (k' & -> & W'). by exists k'.
Qed.

Lemma write_headers_loop_spec fuel k0 acc k rl l i :
  rl_wf rl (header_mem <$> l) -> Forall header_ok l -> kwrote k0 acc k ->
  0 <= i <= zlen l -> zlen l - i < Z.of_nat fuel ->
  exists k', write_headers_loop fuel k rl i = Ret k' /\
             kwrote k0 (acc ++ (zdrop i l ≫= header_bytes)) k'.
Proof.
  intros Wl Hok. revert acc k i; induction fuel as [|fuel IH]; intros acc k i W Hi Hf; [lia|].
  cbn [write_headers_loop]. rewrite (list_elem_spec _ _ i Wl), list_lookup_fmap by lia. unfold zdrop.
  destruct (l !! Z.to_nat i) as [[nm v]|] eqn:E; cbn [obind fmap option_fmap option_map].
  2:{ rewrite drop_ge by by apply lookup_ge_None. exists k. by rewrite app_nil_r. }
  rewrite (drop_S _ _ _ E). apply lookup_lt_Some in E as Hlt.
  assert (Hh : header_ok (nm, v)) by (apply (Forall_lookup_1 _ _ _ _ Hok E)).
  destruct Hh as [Hn Hv]. simpl in Hn, Hv. cbn [header_mem rkhdr_name_size rkhdr_name rkhdr_value rkhdr_value_size fst snd].
  destruct (kw_varint k0 acc k (zlen nm) W) as (k1 & -> & W1); [unfold s_ok; lia|]. cbn [obind].
  destruct (kw_write_prefix k0 _ k1 nm [0] (zlen nm) W1 eq_refl) as (k2 & -> & W2); [lia|]. cbn [obind].
  assert (Hrest : exists k4, (let! (k, _) := rd_kafka_buf_write_varint k2
        (match match v with Some v => Some (v ++ [0]) | None => None end with
         | Some _ => match v with Some v => zlen v | None => 0 end | None => -1 end) in
      let! (k, _) := rd_kafka_buf_write k (match v with Some v => Some (v ++ [0]) | None => None end)
        (match v with Some v => zlen v | None => 0 end) in
      write_headers_loop fuel k rl (i + 1)) = write_headers_loop fuel k4 rl (i + 1) /\
      kwrote k0 (acc ++ header_bytes (nm, v)) k4).
  { unfold header_bytes. simpl fst; simpl snd. rewrite <- app_assoc in W2. destruct v as [v|].
    - destruct (kw_varint k0 _ k2 (zlen v) W2) as (k3 & -> & W3); [unfold s_ok; lia|]. cbn [obind].
      destruct (kw_write_prefix k0 _ k3 v [0] (zlen v) W3 eq_refl) as (k4 & -> & W4); [lia|].
      exists k4. split; [done|]. by rewrite <- !app_assoc in W4.
    - destruct (kw_varint k0 _ k2 (-1) W2) as (k3 & -> & W3); [unfold s_ok; lia|]. cbn [obind].
      destruct (kw_write_null k0 _ k3 W3) as (k4 & r & -> & W4).
      exists k4. split; [done|]. by rewrite <- !app_assoc in W4. }
  destruct Hrest as (k4 & Hr & W4). rewrite Hr.
  destruct (IH _ k4 (i + 1) W4 ltac:(lia) ltac:(lia)) as (k' & -> & W').
  exists k'. split; [done|]. rewrite bind_cons, app_assoc.
  unfold zdrop in W'. by replace (Z.to_nat (i + 1)) with (S (Z.to_nat i)) in W' by lia.
Qed.

Lemma kw_headers k0 acc k hdrs l :
  headers_wf hdrs l -> kwrote k0 acc k -> zlen (l ≫= header_bytes) < 2 ^ 63 ->
  exists k', rd_kafka_msgset_writer_write_msg_headers k hdrs = Ret (k', rkhdrs_ser_size hdrs) /\
             kwrote k0 (acc ++ (l ≫= header_bytes)) k'.
Proof.
  intros (Wl & Hok & Hs & _) W Hlt. unfold rd_kafka_msgset_writer_write_msg_headers.
  rewrite (inv_write_pos _ (kw_inv _ _ _ W)). cbn [obind].
  destruct (write_headers_loop_spec (list_fuel (rkhdrs_list hdrs)) k0 acc k _ l 0 Wl Hok W)
    as (k' & -> & W'); [lia| |].
  { unfold list_fuel. rewrite (rw_cnt _ _ Wl), length_fmap. lia. }
  cbn [obind]. rewrite (inv_write_pos _ (kw_inv _ _ _ W')). cbn [obind]. exists k'. split; [|done].
  rewrite (kwrote_len _ _ _ W), (kwrote_len _ _ _ W'), length_app, Hs. change (zdrop 0 l) with l.
  rewrite uwrap_id; [|unfold u_ok; lia]. do 2 f_equal. lia.
Qed.

(** ** Message writers *)

Lemma enc_i32_spec n :
  - 2 ^ 34 <= n < 2 ^ 34 ->
  rd_uvarint_enc_i64 VARINT_I32 n = Ret (zlen (varint_bytes n), varint_bytes n).
Proof.
  intros Hn. pose proof (varint_bytes_short n Hn). apply enc_i64_spec; [unfold s_ok; lia|].
  change VARINT_I32 with 5. lia.
Qed.

Lemma enc_i64_full n :
  s_ok 64 n -> rd_uvarint_enc_i64 VARINT_I64 n = Ret (zlen (varint_bytes n), varint_bytes n).
Proof.
  intros Hn. pose proof (varint_bytes_len n). apply enc_i64_spec; [done|].
  change VARINT_I64 with 10. lia.
Qed.

(** One write of a chain, leaving [kwrote] of the new buffer. *)
Ltac kw_step W lem :=
  let k := fresh "k" in let W' := fresh "W" in
  edestruct lem as (k & -> & W'); [exact W|..|cbn [obind]; clear W; rename W' into W].

Lemma opt_len_range rkm m :
  rkm_holds rkm m ->
  -1 <= opt_len (m_key m) < 2 ^ 30 /\ -1 <= opt_len (m_value m) < 2 ^ 30 /\
  0 <= zlen (m_headers m ≫= header_bytes) < 2 ^ 30.
Proof.
  intros H. pose proof (rh_size _ _ H) as Hs. unfold message_size, opt_len, opt_data in *.
  destruct (m_key m), (m_value m); simpl in *; lia.
Qed.

Lemma record_body_len base off m :
  zlen (record_body base off m) =
  1 + zlen (varint_bytes (s64 (m_timestamp m - base))) + zlen (varint_bytes off) +
  zlen (varint_bytes (opt_len (m_key m))) + zlen (opt_data (m_key m)) +
  zlen (varint_bytes (opt_len (m_value m))) + zlen (opt_data (m_value m)) +
  zlen (varint_bytes (zlen (m_headers m))) + zlen (m_headers m ≫= header_bytes).
Proof.
  unfold record_body. rewrite !length_app, !Nat2Z.inj_add, be_enc_length. lia.
Qed.

Lemma record_body_small base off rkm m :
  rkm_holds rkm m -> 0 <= zlen (record_body base off m) < 2 ^ 31.
Proof.
  intros H. pose proof (rh_size _ _ H) as Hs. unfold message_size in Hs. rewrite record_body_len.
  pose proof (varint_bytes_len (s64 (m_timestamp m - base))). pose proof (varint_bytes_len off).
  pose proof (varint_bytes_len (opt_len (m_key m))). pose proof (varint_bytes_len (opt_len (m_value m))).
  pose proof (varint_bytes_len (zlen (m_headers m))). lia.
Qed.

(** The optional parts of a record. *)
Lemma kw_opt k0 acc k o len :
  kwrote k0 acc k -> len = zlen (opt_data o) -> len < 2 ^ 63 ->
  exists k', (exists r, (match o with
                         | Some d => rd_kafka_buf_write k (Some d) len
                         | None => Ret (k, 0)
                         end) = Ret (k', r)) /\ kwrote k0 (acc ++ opt_data o) k'.
Proof.
  intros W Hl Hlt. destruct o as [d|]; simpl in *.
  - destruct (kw_write k0 acc k d len W Hl Hlt) as (k' & -> & W'). eauto.
  - exists k. rewrite app_nil_r. eauto.
Qed.

Lemma kw_opt_payload conf k0 acc k rkm m cb :
  kwrote k0 acc k -> rkm_holds rkm m ->
  exists k', (match rkm_payload rkm with
              | Some _ => rd_kafka_msgset_writer_write_msg_payload conf k rkm cb
              | None => Ret k
              end) = Ret k' /\ kwrote k0 (acc ++ opt_data (m_value m)) k'.
Proof.
  intros W H. rewrite (rh_value _ _ H). destruct (m_value m) as [v|] eqn:E; simpl.
  - by apply (kw_payload conf _ _ _ _ m).
  - exists k. by rewrite app_nil_r.
Qed.

Lemma kw_opt_headers k0 acc k rkm m :
  kwrote k0 acc k -> rkm_holds rkm m ->
  exists k', (match rkm_headers rkm with
              | Some hdrs => let! (k, _) := rd_kafka_msgset_writer_write_msg_headers k hdrs in Ret k
              | None => Ret k
              end) = Ret k' /\ kwrote k0 (acc ++ (m_headers m ≫= header_bytes)) k'.
Proof.
  intros W H. pose proof (rh_hdrs _ _ H) as Hw. pose proof (opt_len_range _ _ H) as (_ & _ & Hh).
  destruct (rkm_headers rkm) as [h|].
  - destruct (kw_headers k0 acc k h _ Hw W) as (k' & -> & W'); [lia|]. eauto.
  - exists k. rewrite Hw. simpl. by rewrite app_nil_r.
Qed.

(** The length and count fields computed from the message. *)
Lemma rkm_lens rkm m :
  rkm_holds rkm m ->
  (match rkm_key rkm with Some _ => s32 (rkm_key_len rkm) | None => RD_KAFKAP_BYTES_LEN_NULL end)
    = opt_len (m_key m) /\
  (match rkm_payload rkm with Some _ => s32 (rkm_len rkm) | None => RD_KAFKAP_BYTES_LEN_NULL end)
    = opt_len (m_value m) /\
  s32 (match rkm_headers rkm with Some h => rl_cnt (rkhdrs_list h) | None => 0 end)
    = zlen (m_headers m) /\
  (match rkm_headers rkm with Some h => rkhdrs_ser_size h | None => 0 end)
    = zlen (m_headers m ≫= header_bytes).
Proof.
  intros H. pose proof (opt_len_range _ _ H) as (Hk & Hv & _). pose proof (rh_hdr_cnt _ _ H) as Hcnt.
  pose proof (rh_hdrs _ _ H) as Hw. split_and!.
  - rewrite (rh_key _ _ H), (rh_key_len _ _ H). destruct (m_key m); [|done]. simpl in *.
    apply swrap_id; [lia|unfold s_ok; lia].
  - rewrite (rh_value _ _ H), (rh_len _ _ H). destruct (m_value m); [|done]. simpl in *.
    apply swrap_id; [lia|unfold s_ok; lia].
  - destruct (rkm_headers rkm) as [h|]; [|by rewrite Hw].
    destruct Hw as (Wl & _). rewrite (rw_cnt _ _ Wl), length_fmap.
    apply swrap_id; [lia|unfold s_ok; lia].
  - destruct (rkm_headers rkm) as [h|]; [by destruct Hw as (_ & _ & -> & _)|by rewrite Hw].
Qed.

Lemma write_msg_v2_spec conf k0 acc w rkm m off attrs cb :
  kwrote k0 acc (msetw_rkbuf w) -> rkm_holds rkm m -> 0 <= off < 2 ^ 31 ->
  let r := record_bytes (msetw_firstmsg_timestamp w) off m in
  exists k', rd_kafka_msgset_writer_write_msg_v2 conf w rkm off attrs cb =
               Ret (set_w_rkbuf k' w, zlen r) /\ kwrote k0 (acc ++ r) k'.
Proof.
  intros W H Hoff r. pose proof (opt_len_range _ _ H) as (Hk & Hv & Hh).
  pose proof (rh_hdr_cnt _ _ H) as Hcnt. pose proof (rh_size _ _ H) as Hsz. unfold message_size in Hsz.
  unfold rd_kafka_msgset_writer_write_msg_v2, rd_uvarint_enc_i32.
  set (base := msetw_firstmsg_timestamp w) in *.
  destruct (rkm_lens _ _ H) as (-> & -> & -> & ->).
  rewrite (rh_ts _ _ H), (rh_key_len _ _ H), (rh_len _ _ H).
  rewrite (enc_i64_full (s64 _)) by (apply swrap_ok; lia). cbn [obind].
  rewrite (enc_i64_full off) by (unfold s_ok; lia). cbn [obind].
  rewrite !enc_i32_spec by lia. cbn [obind].
  match goal with |- context [rd_uvarint_enc_i64 VARINT_I32 ?s] => set (size := s) end.
  assert (Hsize : size = zlen (record_body base off m)) by (rewrite record_body_len; done).
  pose proof (record_body_small base off _ _ H) as Hsm.
  rewrite (enc_i32_spec size) by lia. cbn [obind]. rewrite Hsize.
  pose proof (varint_bytes_len (zlen (record_body base off m))).
  pose proof (varint_bytes_len (s64 (m_timestamp m - base))). pose proof (varint_bytes_len off).
  pose proof (varint_bytes_len (opt_len (m_key m))). pose proof (varint_bytes_len (opt_len (m_value m))).
  pose proof (varint_bytes_len (zlen (m_headers m))).
  kw_step W kw_write; [reflexivity|lia|]. kw_step W kw_i8.
  kw_step W kw_write; [reflexivity|lia|]. kw_step W kw_write; [reflexivity|lia|].
  kw_step W kw_write; [reflexivity|lia|].
  rewrite (rh_key _ _ H).
  edestruct (kw_opt k0) as (ka & [ra ->] & W1); [exact W|reflexivity|lia|cbn [obind]]. clear W.
  kw_step W1 kw_write; [reflexivity|lia|].
  edestruct (kw_opt_payload conf k0) as (kb & -> & W2); [exact W1|exact H|cbn [obind]]. clear W1.
  kw_step W2 kw_write; [reflexivity|lia|].
  edestruct (kw_opt_headers k0) as (kc & -> & W3); [exact W2|exact H|cbn [obind]]. clear W2.
  exists kc. split.
  - f_equal. f_equal. unfold r, record_bytes. rewrite length_app. lia.
  - unfold r, record_bytes, record_body. by rewrite <- !app_assoc in W3.
Qed.

(** *** MsgVersions 0 and 1 *)

Lemma kw_bytes k0 acc k o len :
  kwrote k0 acc k -> len = zlen (opt_data o) -> len < 2 ^ 31 ->
  exists k', (exists r, rd_kafka_buf_write_bytes k o len = Ret (k', r)) /\
             kwrote k0 (acc ++ (be_enc 4 (opt_len o) ++ opt_data o)) k'.
Proof.
  intros W Hl Hlt. unfold rd_kafka_buf_write_bytes. rewrite app_assoc. destruct o as [d|]; simpl in *.
  - rewrite swrap_id by (try lia; unfold s_ok; lia). rewrite Hl. kw_step W kw_i32.
    kw_step W kw_write; [reflexivity|lia|]. eauto.
  - change (s32 (u64 RD_KAFKAP_BYTES_LEN_NULL)) with (-1). kw_step W kw_i32. rewrite app_nil_r. eauto.
Qed.

Lemma kw_value conf k0 acc k rkm m cb :
  kwrote k0 acc k -> rkm_holds rkm m ->
  exists k', (match rkm_payload rkm with
     | Some _ =>
         let! (k, _) := rd_kafka_buf_write_i32 k (s32 (rkm_len rkm)) in
         rd_kafka_msgset_writer_write_msg_payload conf k rkm cb
     | None => let! (k, _) := rd_kafka_buf_write_i32 k RD_KAFKAP_BYTES_LEN_NULL in Ret k
     end) = Ret k' /\ kwrote k0 (acc ++ (be_enc 4 (opt_len (m_value m)) ++ opt_data (m_value m))) k'.
Proof.
  intros W H. pose proof (opt_len_range _ _ H) as (_ & Hv & _).
  rewrite (rh_value _ _ H), (rh_len _ _ H), app_assoc. destruct (m_value m) as [v|] eqn:E; simpl in *.
  - rewrite swrap_id by (try lia; unfold s_ok; lia). kw_step W kw_i32.
    by apply (kw_payload conf _ _ _ _ m).
  - kw_step W kw_i32. rewrite app_nil_r. eauto.
Qed.

Lemma message_payload_len ver attrs m :
  zlen (message_payload ver attrs m) =
  1 + 1 + (if ver =? 1 then 8 else 0) + 4 + zlen (opt_data (m_key m)) + 4 + zlen (opt_data (m_value m)).
Proof.
  unfold message_payload. rewrite !length_app, !Nat2Z.inj_add, !be_enc_length.
  destruct (ver =? 1); rewrite ?be_enc_length; simpl; lia.
Qed.

Lemma message_bytes_len ver off attrs m :
  zlen (message_bytes ver off attrs m) = 16 + zlen (message_payload ver attrs m).
Proof. unfold message_bytes. rewrite !length_app, !Nat2Z.inj_add, !be_enc_length. lia. Qed.

(** The checksummed part, before a continuation. *)
Lemma kw_message_payload conf k0 k ver attrs rkm m cb :
  kwrote k0 [] k -> rkm_holds rkm m ->
  exists k',
    (forall B (K : rd_kafka_buf -> outcome B),
     (let! (k, _) := rd_kafka_buf_write_i8 k ver in
     let! (k, _) := rd_kafka_buf_write_i8 k attrs in
     let! (k, _) := (if ver =? 1 then rd_kafka_buf_write_i64 k (rkm_timestamp rkm) else Ret (k, 0)) in
     let! (k, _) := rd_kafka_buf_write_bytes k (rkm_key rkm) (rkm_key_len rkm) in
     let! k :=
       (match rkm_payload rkm with
        | Some _ =>
            let! (k, _) := rd_kafka_buf_write_i32 k (s32 (rkm_len rkm)) in
            rd_kafka_msgset_writer_write_msg_payload conf k rkm cb
        | None => let! (k, _) := rd_kafka_buf_write_i32 k RD_KAFKAP_BYTES_LEN_NULL in Ret k
        end) in K k) = K k') /\ kwrote k0 (message_payload ver attrs m) k'.
Proof.
  intros W H. pose proof (rh_size _ _ H) as Hs. unfold message_size in Hs.
  destruct (kw_i8 k0 _ k ver W) as (k1 & E1 & W1).
  destruct (kw_i8 k0 _ k1 attrs W1) as (k2 & E2 & W2).
  assert (Hts : exists k' r, (if ver =? 1 then rd_kafka_buf_write_i64 k2 (rkm_timestamp rkm) else Ret (k2, 0))
     = Ret (k', r) /\
     kwrote k0 ((([] ++ be_enc 1 ver) ++ be_enc 1 attrs) ++
                (if ver =? 1 then be_enc 8 (m_timestamp m) else [])) k').
  { rewrite (rh_ts _ _ H). destruct (ver =? 1).
    - kw_step W2 kw_i64. eauto.
    - rewrite app_nil_r. eauto. }
  destruct Hts as (k3 & r3 & E3 & W3).
  destruct (kw_bytes k0 _ k3 (rkm_key rkm) (rkm_key_len rkm) W3) as (k4 & [r4 E4] & W4);
    [by rewrite (rh_key_len _ _ H), (rh_key _ _ H)|rewrite (rh_key_len _ _ H); lia|].
  destruct (kw_value conf k0 _ k4 rkm m cb W4 H) as (k5 & E5 & W5).
  exists k5. split.
  - intros B K. rewrite E1. cbn [obind]. rewrite E2. cbn [obind]. rewrite E3. cbn [obind].
    rewrite E4. cbn [obind]. rewrite E5. done.
  - rewrite (rh_key _ _ H), <- !app_assoc in W5. unfold message_payload. by rewrite <- !app_assoc.
Qed.

Lemma write_msg_v0_1_spec conf k0 acc w rkm m off attrs cb :
  kwrote k0 acc (msetw_rkbuf w) -> crc_flag k0 = false -> rkm_holds rkm m ->
  rbuf_len (rkbuf_buf (msetw_rkbuf w)) < 2 ^ 62 ->
  let r := message_bytes (msetw_MsgVersion w) off attrs m in
  exists k', rd_kafka_msgset_writer_write_msg_v0_1 conf w rkm off attrs cb =
               Ret (set_w_rkbuf k' w, zlen r) /\ kwrote k0 (acc ++ r) k'.
Proof.
  intros W Hf H Hlen r. unfold rd_kafka_msgset_writer_write_msg_v0_1.
  pose proof (rh_size _ _ H) as Hs. unfold message_size in Hs.
  set (ver := msetw_MsgVersion w) in *. set (P := message_payload ver attrs m).
  set (size := 4 + 1 + 1 + 4 + rkm_key_len rkm + 4 + rkm_len rkm + (if ver =? 1 then 8 else 0)).
  assert (Hsize : size = 4 + zlen P).
  { unfold size, P. rewrite message_payload_len, (rh_key_len _ _ H), (rh_len _ _ H). lia. }
  assert (Hsz : 0 <= size < 2 ^ 31).
  { unfold size. rewrite (rh_key_len _ _ H), (rh_len _ _ H). destruct (ver =? 1); lia. }
  pose proof (kwrote_len _ _ _ W) as Hl0.
  kw_step W kw_i64. rewrite (swrap_id 32 size) by (try lia; unfold s_ok; lia). kw_step W kw_i32.
  kw_step W kw_i32.
  destruct (kw_crc_section k0 _ _ W Hf) as (kc & -> & Wc & Hlc & Hfin). cbn [obind].
  destruct (kw_message_payload conf kc kc ver attrs rkm m cb Wc H) as (kp & -> & Wp).
  destruct (Hfin _ _ Wp) as (kz & -> & Wz). fold P in Wp, Wz. clear W.
  pose proof (kwrote_len _ _ _ Wz) as Hlz. rewrite !length_app, !Nat2Z.inj_add, !be_enc_length in Hlz.
  rewrite <- !app_assoc in Wz. rewrite (app_assoc acc), (app_assoc (acc ++ _)) in Wz.
  unfold rd_kafka_buf_update_u32.
  edestruct kw_update as (ku & -> & Wu & _); [exact Wz|exact Hf|..].
  { by rewrite be_enc_length. } { by rewrite be_enc_length. } { lia. } { done. }
  { rewrite Hlz. lia. }
  cbn [obind]. exists ku. split.
  - do 2 f_equal. unfold r. fold ver. rewrite message_bytes_len. fold P. lia.
  - unfold r, message_bytes. fold ver P. rewrite <- Hsize. by rewrite <- !app_assoc in Wu.
Qed.

(** *** All versions *)

(** The attribute byte of a message: the CREATE_TIME bit or-ed in is zero. *)
Definition msg_wire (ver base off attrs : Z) (m : message) : list Z :=
  if ver =? 2 then record_bytes base off m else message_bytes ver off attrs m.

Lemma headers_size rkm m :
  rkm_holds rkm m ->
  rd_kafka_msg_wire_size rkm 2 = RD_KAFKAP_MESSAGE_V2_OVERHEAD + message_size m.
Proof.
  intros H. unfold rd_kafka_msg_wire_size, message_size, rd_kafka_headers_serialized_size.
  rewrite (rh_len _ _ H), (rh_key_len _ _ H). cbn [Z.eqb Pos.eqb].
  pose proof (rh_hdrs _ _ H) as Hw. destruct (rkm_headers rkm) as [h|].
  - destruct Hw as (_ & _ & -> & _). lia.
  - rewrite Hw. simpl. lia.
Qed.

Lemma msg_wire_size ver base off attrs rkm m :
  rkm_holds rkm m -> 0 <= off < 2 ^ 31 -> 0 <= ver <= 2 ->
  0 < zlen (msg_wire ver base off attrs m) <= rd_kafka_msg_wire_size rkm ver.
Proof.
  intros H Ho Hver. unfold msg_wire. destruct (Z.eqb_spec ver 2) as [->|Hne].
  - rewrite (headers_size _ _ H). unfold record_bytes, message_size.
    change RD_KAFKAP_MESSAGE_V2_OVERHEAD with 36.
    pose proof (record_body_small base off _ _ H) as Hs.
    pose proof (opt_len_range _ _ H) as (Hk & Hv & _). pose proof (rh_hdr_cnt _ _ H).
    pose proof (varint_bytes_short (zlen (record_body base off m)) ltac:(lia)).
    rewrite length_app, Nat2Z.inj_add, record_body_len in *.
    pose proof (varint_bytes_len (s64 (m_timestamp m - base))).
    pose proof (varint_bytes_short off ltac:(lia)).
    pose proof (varint_bytes_short (opt_len (m_key m)) ltac:(lia)).
    pose proof (varint_bytes_short (opt_len (m_value m)) ltac:(lia)).
    pose proof (varint_bytes_short (zlen (m_headers m)) ltac:(lia)). lia.
  - rewrite message_bytes_len, message_payload_len. unfold rd_kafka_msg_wire_size.
    rewrite (rh_len _ _ H), (rh_key_len _ _ H).
    destruct (Z.eqb_spec ver 1) as [->|]; [|assert (ver = 0) as -> by lia]; cbn [Z.eqb Pos.eqb];
      [change RD_KAFKAP_MESSAGE_V1_OVERHEAD with 34|change RD_KAFKAP_MESSAGE_V0_OVERHEAD with 26];
      destruct (rkm_headers rkm); lia.
Qed.

Lemma write_msg_spec conf k0 acc w rkm m off attrs cb :
  kwrote k0 acc (msetw_rkbuf w) -> crc_flag k0 = false -> rkm_holds rkm m -> 0 <= off < 2 ^ 31 ->
  0 <= msetw_MsgVersion w <= 2 -> rbuf_len (rkbuf_buf (msetw_rkbuf w)) < 2 ^ 62 ->
  let r := msg_wire (msetw_MsgVersion w) (msetw_firstmsg_timestamp w) off attrs m in
  exists k', rd_kafka_msgset_writer_write_msg conf w rkm off attrs cb =
               Ret (set_w_rkbuf k' w, zlen r) /\ kwrote k0 (acc ++ r) k'.
Proof.
  intros W Hf H Ho Hver Hlen r. unfold rd_kafka_msgset_writer_write_msg.
  pose proof (msg_wire_size (msetw_MsgVersion w) (msetw_firstmsg_timestamp w) off attrs rkm m H Ho Hver) as Hs.
  fold r in Hs.
  assert (Ha : (if negb (rkm_timestamp rkm =? 0) then Z.lor attrs RD_KAFKA_MSG_ATTR_CREATE_TIME else attrs)
               = attrs).
  { unfold RD_KAFKA_MSG_ATTR_CREATE_TIME. rewrite Z.lor_0_r. by destruct (negb _). }
  rewrite Ha, (inv_write_pos _ (kw_inv _ _ _ W)). cbn [obind].
  assert (Hw : exists k', (if msetw_MsgVersion w =? 2
     then rd_kafka_msgset_writer_write_msg_v2 conf w rkm off attrs cb
     else rd_kafka_msgset_writer_write_msg_v0_1 conf w rkm off attrs cb) =
     Ret (set_w_rkbuf k' w, zlen r) /\ kwrote k0 (acc ++ r) k').
  { unfold r, msg_wire. destruct (msetw_MsgVersion w =? 2).
    - by apply write_msg_v2_spec.
    - by apply write_msg_v0_1_spec. }
  destruct Hw as (k' & -> & W'). cbn [obind]. exists k'. split; [|done].
  change (msetw_rkbuf (set_w_rkbuf k' w)) with k'.
  change (msetw_MsgVersion (set_w_rkbuf k' w)) with (msetw_MsgVersion w).
  rewrite (inv_write_pos _ (kw_inv _ _ _ W')). cbn [obind].
  rewrite (kwrote_len _ _ _ W), (kwrote_len _ _ _ W'), length_app, Nat2Z.inj_add.
  assert (Hm : zlen r < 2 ^ 62).
  { pose proof (rh_size _ _ H) as Hz. pose proof (opt_len_range _ _ H).
    unfold rd_kafka_msg_wire_size in Hs. unfold message_size in Hz.
    rewrite (rh_len _ _ H), (rh_key_len _ _ H) in Hs. pose proof (rh_hdrs _ _ H) as Hw.
    change RD_KAFKAP_MESSAGE_V1_OVERHEAD with 34 in Hs. change RD_KAFKAP_MESSAGE_V0_OVERHEAD with 26 in Hs.
    change RD_KAFKAP_MESSAGE_V2_OVERHEAD with 36 in Hs. unfold rd_kafka_headers_serialized_size in Hs.
    destruct (rkm_headers rkm) as [h|]; [destruct Hw as (_ & _ & Hw & _)|];
      destruct (msetw_MsgVersion w =? 0), (msetw_MsgVersion w =? 1), (msetw_MsgVersion w =? 2); lia. }
  rewrite uwrap_id by (unfold u_ok; lia).
  destruct (Z.leb_spec (zlen r) (rd_kafka_msg_wire_size rkm (msetw_MsgVersion w))); [|lia].
  replace (rbuf_len (rkbuf_buf k0) + (zlen acc + zlen r) - (rbuf_len (rkbuf_buf k0) + zlen acc))
    with (zlen r) by lia. by rewrite Z.eqb_refl.
Qed.

(** ** Properties *)

(** C20. Writing one message in any of the three message formats never fails
    the writer's own assertions: it appends exactly the wire format of the
    message (for MsgVersions 0 and 1 with the CRC-32 of the bytes that follow
    it), returns the number of bytes appended, and that number is at most the
    size [rd_kafka_msg_wire_size] predicts, on which the batching relies. *)
Theorem write_msg_exact (conf : writer_conf) (w : msgset_writer) (rkm : rd_kafka_msg) (m : message)
    (off attrs : Z) (cb : option nat) (Hk : kbuf_ok (msetw_rkbuf w))
    (Hf : crc_flag (msetw_rkbuf w) = false) (H : rkm_holds rkm m) (Ho : 0 <= off < 2 ^ 31)
    (Hver : 0 <= msetw_MsgVersion w <= 2) (Hlen : rbuf_len (rkbuf_buf (msetw_rkbuf w)) < 2 ^ 62) :
  let r := msg_wire (msetw_MsgVersion w) (msetw_firstmsg_timestamp w) off attrs m in
  exists k', rd_kafka_msgset_writer_write_msg conf w rkm off attrs cb = Ret (set_w_rkbuf k' w, zlen r) /\
    contents (rkbuf_buf k') = contents (rkbuf_buf (msetw_rkbuf w)) ++ r /\
    kbuf_ok k' /\ crc_flag k' = false /\ zlen r <= rd_kafka_msg_wire_size rkm (msetw_MsgVersion w).
Proof.
  intros r. destruct (write_msg_spec conf (msetw_rkbuf w) [] w rkm m off attrs cb (kwrote_refl _ Hk) Hf H Ho
    Hver Hlen) as (k' & Hw & W). exists k'. simpl in W. split_and!.
  - exact Hw.
  - exact (kw_contents _ _ _ W).
  - exact (kwrote_ok _ _ _ W).
  - by rewrite (kwrote_flag _ _ _ W).
  - by apply msg_wire_size.
Qed.

(** *** A concrete configuration *)

Definition example_kstr (s : list Z) : rd_kafkap_str := mk_kstr (zlen s) (Some s) (be_enc 2 (zlen s) ++ s).

Definition example_wconf (features : Z) : writer_conf :=
  mk_wconf features 100 10 1000000 0 7 3 (mk_kstr (-1) None (be_enc 2 (-1))) (example_kstr [97; 98])
    1000 1 5000 (example_kstr [116]) 0 0 (fun _ => 3) (fun _ _ _ => None).

Definition example_message : message := mk_message (Some [1; 2]) (Some [7; 8; 9]) 1000 [].
Definition example_rkm : rd_kafka_msg :=
  mk_rkm 1 3 (Some [7; 8; 9]) 0 0 (Some [1; 2]) 2 0 0 1000 RD_KAFKA_TIMESTAMP_CREATE_TIME None 0 0 0 1 0
    (mk_kbytes 0 None []).

Lemma example_rkm_holds : rkm_holds example_rkm example_message.
Proof. split; try reflexivity; unfold s_ok; simpl; lia. Qed.

Lemma kbuf_new0_ok segcnt size :
  0 < segcnt -> exists k, rd_kafka_buf_new0 segcnt size 0 = Ret k /\ kbuf_ok k /\ crc_flag k = false /\
    contents (rkbuf_buf k) = [] /\ rkbuf_msgq k = rd_kafka_msgq_init.
Proof.
  intros Hs. unfold rd_kafka_buf_new0.
  destruct (buf_init_spec segcnt size Hs) as (b & -> & Hi & Hc & _). cbn [obind].
  eexists. split; [reflexivity|]. split_and!; try done.
Qed.

Lemma write_msg_exact_witness :
  exists k w k', rd_kafka_buf_new0 4 100 0 = Ret k /\
    w = mk_msetw k 2 1 0 1 0 0 0 0 0 false 0 0 0 0 1000 /\
    rd_kafka_msgset_writer_write_msg (example_wconf 1) w example_rkm 0 0 None = Ret (set_w_rkbuf k' w, 39) /\
    contents (rkbuf_buf k') = msg_wire 1 1000 0 0 example_message.
Proof.
  destruct (kbuf_new0_ok 4 100 ltac:(lia)) as (k & Hk & Ho & Hf & Hc & _).
  set (w := mk_msetw k 2 1 0 1 0 0 0 0 0 false 0 0 0 0 1000).
  destruct (write_msg_exact (example_wconf 1) w example_rkm example_message 0 0 None Ho Hf
    example_rkm_holds ltac:(lia) ltac:(simpl; lia)) as (k' & Hw & Hc' & _).
  - simpl. rewrite <- (inv_zlen _ (proj1 Ho)), Hc. simpl. lia.
  - exists k, w, k'. split; [exact Hk|]. split; [done|]. split; [exact Hw|].
    rewrite Hc'. simpl. by rewrite Hc.
Defined.
