(* ===== verification/ReaderSpec.v ===== *)
(** * The MessageSet reader on well-formed MessageSets

    What rdkafka_msgset_reader.c makes of the wire format of [WriterSpec]: the
    operations it enqueues and where it leaves the reader, for MsgVersion 2
    with and without messages below the fetch offset. *)
From Stdlib Require Import ZArith Lia.
From stdpp Require Import base numbers list.
From S2P Require Import Prelude Varint Buf BufFacts BufSeek BufSpec Slice SliceFacts CrcTheory.
From S2P Require Import Crc Reader Crc32c RdList RdListSpec Proto Header Msg MsgqSpec KBuf.
From S2P Require Import KBufFacts Queue MsgsetReader KBufWrite MsgsetWriter WriterSpec.

(** The primitive parsers are unfolded last when terms are compared. *)
Strategy 1000 [pbind onbuf obind gets call modify rd_kafka_buf_read_varint rd_kafka_buf_read_bytes_varint].

(** ** Steps of a parser *)

Lemma step_reads {S A B} {L : BufLens S} {LL : BufLensLaws S} (p : parser S A) w a (f : A -> parser S B)
    st en s rest r :
  reads p w a -> kview st en (lget s) (w ++ rest) ->
  (kview st en (lget (ladv (zlen w) s)) rest -> f a (ladv (zlen w) s) = r) -> pbind p f s = r.
Proof.
  intros H V K. unfold pbind. rewrite (H _ _ _ _ V). apply K. by apply kview_ladv.
Qed.

Lemma step_gets {A B} (g : msgset_reader -> outcome A) (f : A -> mparser B) m a r :
  g m = Ret a -> f a m = r -> pbind (gets g) f m = r.
Proof. intros H <-. unfold pbind, gets. by rewrite H. Qed.

Lemma step_modify {B} (g : msgset_reader -> msgset_reader) (f : () -> mparser B) m r :
  f () (g m) = r -> pbind (modify g) f m = r.
Proof. done. Qed.

Lemma err_parse_ok (p : mparser Z) m m' e : p m = Ret (m', Some e) -> err_parse p m = Ret (m', e).
Proof. intros H. unfold err_parse. by rewrite H. Qed.

Lemma kview_offset st en m rest :
  kview st en (lget m) rest -> msetr_offset m = Ret (en - zlen rest - st).
Proof. intros V. apply (kview_remain _ _ _ _ V). Qed.

Lemma kview_remains st en m rest :
  kview st en (lget m) rest -> msetr_remains m = Ret (zlen rest).
Proof. intros V. apply (kview_remain _ _ _ _ V). Qed.

Lemma step_skip_to {B} (f : () -> mparser B) st en m w rest p r :
  kview st en (lget m) (w ++ rest) -> p = en - zlen rest - st ->
  f () (ladv (zlen w) m) = r -> pbind (onbuf (rd_kafka_buf_skip_to p)) f m = r.
Proof.
  intros V -> <-. pose proof (kview_bounds _ _ _ _ V) as Hb. rewrite length_app in Hb.
  unfold pbind, onbuf. rewrite (skip_to_spec _ _ _ _ V) by lia. rewrite length_app.
  destruct (Z.ltb_spec (en - zlen rest - st - (en - Z.of_nat (length w + length rest) - st)) 0); [lia|].
  destruct (Z.ltb_spec (Z.of_nat (length w + length rest))
    (en - zlen rest - st - (en - Z.of_nat (length w + length rest) - st))); [lia|].
  cbn [orb obind]. unfold ladv. do 4 f_equal. lia.
Qed.

Lemma ladv_rktp n (m : msgset_reader) : msetr_rktp (ladv n m) = msetr_rktp m.
Proof. done. Qed.

Lemma ladv_hdr n (m : msgset_reader) : msetr_v2_hdr (ladv n m) = msetr_v2_hdr m.
Proof. done. Qed.

(** One field: [V] becomes the view after it. *)
Ltac read_step V lem :=
  eapply (step_reads (S := msgset_reader)); [apply reads_kbuf; eapply lem|exact V|];
  [try done..|clear V; intros V; cbv beta].
Ltac get_step tac := eapply step_gets; [tac|cbv beta].

(** ** Handing out operations *)

Definition op_key_len (o : rd_kafka_op) : Z :=
  match rko_u o with RD_KAFKA_OP_FETCH m => rkm_key_len m | _ => 0 end.
Definition op_val_len (o : rd_kafka_op) : Z :=
  match rko_u o with RD_KAFKA_OP_FETCH m => rkm_len m | _ => 0 end.

(** [msetr_enq] for each operation. *)
Definition deliver (ops : list rd_kafka_op) (mr : msgset_reader) : msgset_reader :=
  foldl (fun mr o => msetr_enq o (op_key_len o) (op_val_len o) mr) mr ops.

Lemma deliver_app l1 l2 mr : deliver (l1 ++ l2) mr = deliver l2 (deliver l1 mr).
Proof. apply foldl_app. Qed.

(** What [deliver] leaves alone. *)
Lemma deliver_frame ops mr :
  let mr' := deliver ops mr in
  msetr_rkbuf mr' = msetr_rkbuf mr /\ msetr_v2_hdr mr' = msetr_v2_hdr mr /\
  msetr_rktp mr' = msetr_rktp mr /\ msetr_par_rkq mr' = msetr_par_rkq mr /\
  msetr_next_offset mr' = msetr_next_offset mr /\ msetr_ctrl_cnt mr' = msetr_ctrl_cnt mr /\
  msetr_relative_offsets mr' = msetr_relative_offsets mr.
Proof.
  revert mr; induction ops as [|o ops IH]; intros mr; [done|].
  unfold deliver in *. simpl. specialize (IH (msetr_enq o (op_key_len o) (op_val_len o) mr)).
  simpl in IH. done.
Qed.

Lemma deliver_rkbuf ops k mr : deliver ops (set_mr_rkbuf mr k) = set_mr_rkbuf (deliver ops mr) k.
Proof.
  revert mr; induction ops as [|o ops IH]; intros mr; [done|]. unfold deliver in *. simpl.
  by rewrite <- IH.
Qed.

Lemma deliver_ladv ops n mr : deliver ops (ladv n mr) = ladv n (deliver ops mr).
Proof.
  unfold ladv. cbn [lput msetr_lens lget]. rewrite deliver_rkbuf.
  by destruct (deliver_frame ops mr) as (-> & _).
Qed.

(** ** One record *)

Definition message_ok (m : message) : Prop :=
  s_ok 64 (m_timestamp m) /\ message_size m < 2 ^ 30 /\ zlen (m_headers m) < 2 ^ 27.

Definition records_bytes (base : Z) (l : list (Z * message)) : list Z :=
  l ≫= fun p => record_bytes base p.1 p.2.

(** The headers of a record as the reader keeps them. *)
Definition headers_wire (m : message) : list Z :=
  varint_bytes (zlen (m_headers m)) ++ (m_headers m ≫= header_bytes).

Section v2.
Context (conf : reader_conf) (h : msgset_v2_hdr).

(** The timestamp of the whole MessageSet replaces those of its messages when
    the broker has set it. *)
Definition fetched_ts (m : message) : rd_kafka_timestamp_type * Z :=
  if Z.land (v2_Attributes h) RD_KAFKA_MSG_ATTR_LOG_APPEND_TIME =? 0
  then (RD_KAFKA_TIMESTAMP_CREATE_TIME, m_timestamp m)
  else (RD_KAFKA_TIMESTAMP_LOG_APPEND_TIME, v2_MaxTimestamp h).

(** The message the application gets for a record. *)
Definition fetched_msg (off : Z) (m : message) : rd_kafka_msg :=
  mk_rkm 0 (zlen (opt_data (m_value m))) (m_value m) (rc_partition conf) (v2_BaseOffset h + off)
    (m_key m) (zlen (opt_data (m_key m))) 0 0 (fetched_ts m).2 (fetched_ts m).1
    None 0 0 0 0 0 (mk_kbytes (zlen (headers_wire m)) (Some (headers_wire m)) []).

Definition fetched_op (off : Z) (m : message) : rd_kafka_op :=
  mk_rko (tver_version conf) 0 (zlen (opt_data (m_value m))) 0 (RD_KAFKA_OP_FETCH (fetched_msg off m)).

(** Messages older than the fetch offset [f] are not handed out. *)
Definition record_ops (f off : Z) (m : message) : list rd_kafka_op :=
  if v2_BaseOffset h + off <? f then [] else [fetched_op off m].

Lemma s64_delta base ts : s_ok 64 ts -> s64 (base + s64 (ts - base)) = ts.
Proof.
  intros Hts. unfold swrap at 1. rewrite Z.add_shuffle0.
  assert (H : (base + 2 ^ (64 - 1) + s64 (ts - base)) mod 2 ^ 64 = (ts + 2 ^ (64 - 1)) mod 2 ^ 64).
  { pose proof (swrap_cong 64 (ts - base) ltac:(lia)) as Hc. unfold uwrap in Hc.
    rewrite Zplus_mod, Hc, <- Zplus_mod. f_equal. lia. }
  rewrite H. apply (swrap_id 64 ts); [lia|done].
Qed.

Lemma opt_len_ok m : message_ok m -> s_ok 64 (zlen (m_headers m)) /\
  zlen (opt_data (m_key m)) < 2 ^ 31 /\ zlen (opt_data (m_value m)) < 2 ^ 31 /\
  zlen (m_headers m ≫= header_bytes) < 2 ^ 30.
Proof.
  intros (_ & Hs & Hc). unfold message_size in Hs. unfold s_ok. lia.
Qed.

Lemma record_body_bound base off m : message_ok m -> 0 <= zlen (record_body base off m) < 2 ^ 31.
Proof.
  intros (_ & Hs & Hc). unfold message_size in Hs. rewrite record_body_len.
  pose proof (varint_bytes_len (s64 (m_timestamp m - base))). pose proof (varint_bytes_len off).
  pose proof (varint_bytes_len (opt_len (m_key m))). pose proof (varint_bytes_len (opt_len (m_value m))).
  pose proof (varint_bytes_len (zlen (m_headers m))). lia.
Qed.

Lemma kbytes_ptr_of o : kbytes_ptr (kbytes_of o) = o.
Proof.
  unfold kbytes_ptr, kbytes_of, RD_KAFKAP_BYTES_IS_NULL. simpl.
  destruct (Z.eqb_spec (zlen (opt_data o)) RD_KAFKAP_BYTES_LEN_NULL) as [E|]; [|done].
  unfold RD_KAFKAP_BYTES_LEN_NULL in E. lia.
Qed.

Lemma kbytes_len_of o : zlen (opt_data o) < 2 ^ 31 -> u64 (RD_KAFKAP_BYTES_LEN (kbytes_of o)) = zlen (opt_data o).
Proof.
  intros Ho. unfold RD_KAFKAP_BYTES_LEN, RD_KAFKAP_BYTES_LEN0. simpl.
  destruct (Z.eqb_spec (zlen (opt_data o)) RD_KAFKAP_BYTES_LEN_NULL); [unfold RD_KAFKAP_BYTES_LEN_NULL in *; lia|].
  apply uwrap_id. unfold u_ok. lia.
Qed.

Lemma fetched_op_eq off m :
  message_ok m ->
  rd_kafka_op_new_fetch_msg (rc_partition conf) (tver_version conf) (v2_BaseOffset h + off)
    (zlen (opt_data (m_key m))) (m_key m) (zlen (opt_data (m_value m))) (m_value m)
    (v2_timestamp h 0 (s64 (m_timestamp m - v2_BaseTimestamp h))
       (mk_kbytes (zlen (headers_wire m)) (Some (headers_wire m)) []))
  = fetched_op off m.
Proof.
  intros Hm. destruct (opt_len_ok m Hm) as (_ & _ & Hv & _). destruct Hm as (Hts & _ & _).
  unfold rd_kafka_op_new_fetch_msg, fetched_op, fetched_msg, fetched_ts, v2_timestamp.
  change (Z.land 0 RD_KAFKA_MSG_ATTR_LOG_APPEND_TIME) with 0. cbn [Z.eqb negb orb].
  rewrite s64_delta by done.
  assert (Hl : s32 (zlen (opt_data (m_value m))) = zlen (opt_data (m_value m)))
    by (apply swrap_id; [lia|unfold s_ok; lia]).
  by destruct (Z.land _ _ =? 0); simpl; rewrite Hl.
Qed.

Lemma deliver_fetched off m mr :
  deliver [fetched_op off m] mr =
  msetr_enq (fetched_op off m) (zlen (opt_data (m_key m))) (zlen (opt_data (m_value m))) mr.
Proof. done. Qed.

Lemma record_bytes_len base off m :
  zlen (record_bytes base off m) =
  zlen (varint_bytes (zlen (record_body base off m))) + zlen (record_body base off m).
Proof. unfold record_bytes. rewrite length_app. lia. Qed.

Lemma msg_v2_body_spec st en mr off m rest :
  kview st en (lget mr) (record_bytes (v2_BaseTimestamp h) off m ++ rest) ->
  msetr_v2_hdr mr = Some h -> message_ok m -> 0 <= off < 2 ^ 31 -> s_ok 64 (v2_BaseOffset h + off) ->
  msg_v2_body conf mr =
    Ret (ladv (zlen (record_bytes (v2_BaseTimestamp h) off m))
           (deliver (record_ops (fetch_offset (msetr_rktp mr)) off m) mr), Some 0).
Proof.
  intros V Hh Hm Hoff Hoffs. remember (v2_BaseTimestamp h) as base eqn:Ebase.
  pose proof (record_body_bound base off m Hm) as Hbody.
  destruct (opt_len_ok m Hm) as (Hc & Hkl & Hvl & Hhl). pose proof Hm as (Hts & _ & _).
  assert (Hrec : record_bytes base off m = varint_bytes (zlen (record_body base off m)) ++ record_body base off m)
    by done.
  rewrite Hrec, <- app_assoc in V. unfold msg_v2_body.
  read_step V reads_varint; [unfold s_ok; lia|].
  get_step ltac:(eapply kview_offset, V).
  pose proof (kview_bounds _ _ _ _ V) as Hb0. rewrite length_app in Hb0.
  assert (Eend : u64 (en - zlen (record_body base off m ++ rest) - st + u64 (zlen (record_body base off m)))
                 = en - zlen rest - st).
  { rewrite length_app, (uwrap_id 64 (zlen _)) by (unfold u_ok; lia).
    rewrite uwrap_id by (unfold u_ok; lia). lia. }
  rewrite Eend. clear Eend. unfold record_body in V at 2. rewrite <- !app_assoc in V.
  read_step V reads_i8.
  read_step V reads_varint; [apply swrap_ok; lia|].
  read_step V reads_varint; [unfold s_ok; lia|].
  get_step ltac:(by rewrite !ladv_hdr, Hh).
  rewrite (swrap_id 64 (v2_BaseOffset h + off)) by (done || lia).
  get_step ltac:(reflexivity).
  rewrite !ladv_ladv in V |- *. rewrite !ladv_rktp. unfold record_ops.
  destruct (Z.ltb_spec (v2_BaseOffset h + off) (fetch_offset (msetr_rktp mr))).
  - rewrite !app_assoc in V. eapply step_skip_to; [exact V|done|].
    rewrite ladv_ladv. unfold pret. do 3 f_equal. f_equal.
    rewrite record_bytes_len, record_body_len, be_enc_length, !length_app. lia.
  - rewrite (app_assoc (varint_bytes (opt_len (m_key m)))) in V.
    read_step V reads_bytes_varint.
    rewrite (app_assoc (varint_bytes (opt_len (m_value m)))) in V.
    read_step V reads_bytes_varint.
    rewrite (app_assoc (varint_bytes (zlen (m_headers m)))) in V.
    change (varint_bytes (zlen (m_headers m)) ++ (m_headers m ≫= header_bytes)) with (headers_wire m) in V.
    get_step ltac:(eapply kview_offset, V).
    assert (Hl : s32 (en - zlen rest - st - (en - zlen (headers_wire m ++ rest) - st)) = zlen (headers_wire m)).
    { rewrite length_app, swrap_id; [lia|lia|]. unfold s_ok, headers_wire. rewrite length_app.
      pose proof (varint_bytes_len (zlen (m_headers m))). lia. }
    rewrite Hl. unfold rd_kafka_buf_read_ptr. read_step V reads_contig.
    rewrite !kbytes_len_of, !kbytes_ptr_of by done. rewrite !ladv_ladv.
    rewrite Ebase, (fetched_op_eq off m Hm), <- Ebase.
    eapply step_modify. unfold pret. rewrite <- deliver_ladv, deliver_fetched. do 5 f_equal.
    rewrite record_bytes_len, record_body_len, be_enc_length. unfold headers_wire.
    rewrite !length_app. lia.
Qed.

(** ** The records of a MessageSet *)

Definition record_ok (p : Z * message) : Prop :=
  message_ok p.2 /\ 0 <= p.1 < 2 ^ 31 /\ s_ok 64 (v2_BaseOffset h + p.1).

Definition records_ops (f : Z) (l : list (Z * message)) : list rd_kafka_op :=
  l ≫= fun p => record_ops f p.1 p.2.

Lemma records_bytes_cons base off m l :
  records_bytes base ((off, m) :: l) = record_bytes base off m ++ records_bytes base l.
Proof. done. Qed.

Lemma records_ops_cons f off m l : records_ops f ((off, m) :: l) = record_ops f off m ++ records_ops f l.
Proof. done. Qed.

Lemma records_bytes_length base l : (length l <= length (records_bytes base l))%nat.
Proof.
  induction l as [|[off m] l IH]; [done|]. rewrite records_bytes_cons, length_app. cbn [length].
  pose proof (record_bytes_len base off m) as Hr. pose proof (record_body_len base off m). lia.
Qed.

Lemma msgs_v2_loop_step fuel mr n mr' :
  msetr_remains mr = Ret n -> n <> 0 -> rd_kafka_msgset_reader_msg_v2 conf mr = Ret (mr', 0) ->
  msgs_v2_loop conf (S fuel) mr = msgs_v2_loop conf fuel mr'.
Proof.
  intros Hr Hn Hm. cbn [msgs_v2_loop]. rewrite Hr, Hm. cbn [obind].
  by destruct (Z.eqb_spec n 0).
Qed.

Lemma msgs_v2_loop_end fuel mr :
  msetr_remains mr = Ret 0 -> msgs_v2_loop conf (S fuel) mr = Ret (mr, 0).
Proof. intros Hr. cbn [msgs_v2_loop]. by rewrite Hr. Qed.

Lemma kview_deliver st en ops mr rest :
  kview st en (lget mr) rest -> kview st en (lget (deliver ops mr)) rest.
Proof.
  change (lget (deliver ops mr)) with (msetr_rkbuf (deliver ops mr)).
  by destruct (deliver_frame ops mr) as (-> & _).
Qed.

Lemma msgs_v2_loop_spec fuel st en mr l :
  kview st en (lget mr) (records_bytes (v2_BaseTimestamp h) l) -> msetr_v2_hdr mr = Some h ->
  Forall record_ok l -> (length l < fuel)%nat ->
  msgs_v2_loop conf fuel mr =
    Ret (ladv (zlen (records_bytes (v2_BaseTimestamp h) l))
           (deliver (records_ops (fetch_offset (msetr_rktp mr)) l) mr), 0).
Proof.
  revert mr l; induction fuel as [|fuel IH]; intros mr l V Hh Hok Hf; [lia|].
  pose proof (kview_remains _ _ _ _ V) as Hrem. destruct l as [|[off m] l].
  { rewrite msgs_v2_loop_end by done. change (zlen (records_bytes _ [])) with 0. by rewrite ladv_0. }
  apply Forall_cons in Hok as [(Hm & Ho & Hs) Hok]. cbn [fst snd length] in Ho, Hm, Hs, Hf.
  pose proof (records_bytes_length (v2_BaseTimestamp h) ((off, m) :: l)) as Hlen. cbn [length] in Hlen.
  rewrite records_bytes_cons in V.
  pose proof (err_parse_ok _ _ _ _ (msg_v2_body_spec _ _ _ _ _ _ V Hh Hm Ho Hs)) as Hstep.
  set (ops := record_ops _ _ _) in Hstep. destruct (deliver_frame ops mr) as (_ & Fh & Ft & _).
  rewrite (msgs_v2_loop_step fuel mr _ _ Hrem ltac:(lia) Hstep).
  apply (kview_deliver _ _ ops), kview_ladv in V. rewrite (IH _ l V); [|by rewrite ladv_hdr, Fh|done|lia].
  rewrite ladv_rktp, Ft, deliver_ladv, ladv_ladv, <- deliver_app.
  by rewrite records_bytes_cons, records_ops_cons, length_app, Nat2Z.inj_add.
Qed.

Lemma msgs_v2_spec st en mr l :
  kview st en (lget mr) (records_bytes (v2_BaseTimestamp h) l) -> msetr_v2_hdr mr = Some h ->
  Forall record_ok l ->
  rd_kafka_msgset_reader_msgs_v2 conf mr =
    Ret (ladv (zlen (records_bytes (v2_BaseTimestamp h) l))
           (deliver (records_ops (fetch_offset (msetr_rktp mr)) l) mr), 0).
Proof.
  intros V Hh Hok. apply (msgs_v2_loop_spec _ st en); try done.
  pose proof (records_bytes_length (v2_BaseTimestamp h) l). pose proof (kview_bounds _ _ _ _ V).
  destruct V as [_ _ (i & s & _ & _ & _ & _ & Hs) _]. unfold msetr_fuel.
  change (msetr_rkbuf mr) with (lget mr). rewrite Hs. simpl. lia.
Qed.
End v2.
