(* ===== verification/BatchSpec.v ===== *)
(** * Fetched MessageSets of MsgVersion 2

    The wire format of a MessageSet (record batch) of MsgVersion 2, and what
    [rd_kafka_msgset_parse] makes of a sequence of them: the fetch queue, the
    next fetch offset and the counters. *)
From Stdlib Require Import ZArith Lia.
From stdpp Require Import base numbers list.
From S2P Require Import Prelude Varint Buf BufFacts BufSeek BufSpec Slice SliceFacts CrcTheory.
From S2P Require Import Crc Reader Crc32c RdList RdListSpec Proto Header Msg MsgqSpec KBuf.
From S2P Require Import KBufFacts Queue MsgsetReader KBufWrite MsgsetWriter WriterSpec ReaderSpec.

Strategy 1000 [pbind onbuf obind gets call modify rd_kafka_buf_read_varint rd_kafka_buf_read_bytes_varint
  varint_bytes be_enc record_body record_bytes records_bytes].

(** ** Wire format *)

Record batch : Type := mk_batch {
  b_BaseOffset : Z;
  b_PartitionLeaderEpoch : Z;
  b_Attributes : Z;
  b_LastOffsetDelta : Z;
  b_BaseTimestamp : Z;
  b_MaxTimestamp : Z;
  b_PID : Z;
  b_ProducerEpoch : Z;
  b_BaseSequence : Z;
  b_records : list (Z * message) }.

Definition batch_fields (b : batch) : list Z :=
  be_enc 2 (b_Attributes b) ++ be_enc 4 (b_LastOffsetDelta b) ++ be_enc 8 (b_BaseTimestamp b) ++
  be_enc 8 (b_MaxTimestamp b) ++ be_enc 8 (b_PID b) ++ be_enc 2 (b_ProducerEpoch b) ++
  be_enc 4 (b_BaseSequence b) ++ be_enc 4 (zlen (b_records b)).

Definition batch_payload (b : batch) : list Z := records_bytes (b_BaseTimestamp b) (b_records b).

(** What the CRC covers. *)
Definition batch_covered (b : batch) : list Z := batch_fields b ++ batch_payload b.

Definition batch_Length (b : batch) : Z := 49 + zlen (batch_payload b).
Definition batch_Crc (b : batch) : Z := s32 (crc32c_ref 0 (batch_covered b)).

Definition batch_bytes (b : batch) : list Z :=
  be_enc 8 (b_BaseOffset b) ++ be_enc 4 (batch_Length b) ++ be_enc 4 (b_PartitionLeaderEpoch b) ++
  be_enc 1 2 ++ be_enc 4 (batch_Crc b) ++ batch_covered b.

Definition batch_hdr (b : batch) : msgset_v2_hdr :=
  mk_v2hdr (b_BaseOffset b) (batch_Length b) (b_PartitionLeaderEpoch b) 2 (batch_Crc b) (b_Attributes b)
    (b_LastOffsetDelta b) (b_BaseTimestamp b) (b_MaxTimestamp b) (b_PID b) (b_ProducerEpoch b)
    (b_BaseSequence b) (zlen (b_records b)).

Definition batch_last (b : batch) : Z := b_BaseOffset b + b_LastOffsetDelta b.

Record batch_ok (b : batch) : Prop := mk_batch_ok {
  bo_base : 0 <= b_BaseOffset b;
  bo_last : batch_last b < 2 ^ 63 - 1;
  bo_epoch : s_ok 32 (b_PartitionLeaderEpoch b);
  bo_attrs : s_ok 16 (b_Attributes b);
  bo_delta : 0 <= b_LastOffsetDelta b < 2 ^ 31;
  bo_bts : s_ok 64 (b_BaseTimestamp b);
  bo_mts : s_ok 64 (b_MaxTimestamp b);
  bo_pid : s_ok 64 (b_PID b);
  bo_pepoch : s_ok 16 (b_ProducerEpoch b);
  bo_seq : s_ok 32 (b_BaseSequence b);
  bo_len : batch_Length b < 2 ^ 31;
  bo_codec : Z.land (b_Attributes b) RD_KAFKA_MSG_ATTR_COMPRESSION_MASK = 0;
  bo_records : Forall (fun p => message_ok p.2 /\ 0 <= p.1 <= b_LastOffsetDelta b) (b_records b) }.

Lemma batch_fields_len b : zlen (batch_fields b) = 40.
Proof. unfold batch_fields. rewrite !length_app, !be_enc_length. done. Qed.

Lemma batch_covered_len b : zlen (batch_covered b) = 40 + zlen (batch_payload b).
Proof. unfold batch_covered. rewrite length_app, Nat2Z.inj_add, batch_fields_len. done. Qed.

Lemma batch_bytes_len b : zlen (batch_bytes b) = 61 + zlen (batch_payload b).
Proof.
  unfold batch_bytes. rewrite !length_app, !be_enc_length, !Nat2Z.inj_add, batch_covered_len. lia.
Qed.

Lemma batch_bytes_app b rest :
  batch_bytes b ++ rest =
  be_enc 8 (b_BaseOffset b) ++ be_enc 4 (batch_Length b) ++ be_enc 4 (b_PartitionLeaderEpoch b) ++
  be_enc 1 2 ++ be_enc 4 (batch_Crc b) ++ batch_covered b ++ rest.
Proof. unfold batch_bytes. by rewrite <- !app_assoc. Qed.

Lemma batch_covered_app b rest :
  batch_covered b ++ rest =
  be_enc 2 (b_Attributes b) ++ be_enc 4 (b_LastOffsetDelta b) ++ be_enc 8 (b_BaseTimestamp b) ++
  be_enc 8 (b_MaxTimestamp b) ++ be_enc 8 (b_PID b) ++ be_enc 2 (b_ProducerEpoch b) ++
  be_enc 4 (b_BaseSequence b) ++ be_enc 4 (zlen (b_records b)) ++ batch_payload b ++ rest.
Proof. unfold batch_covered, batch_fields. by rewrite <- !app_assoc. Qed.

Lemma batch_len_bound b : (length (b_records b) <= length (batch_payload b))%nat.
Proof. unfold batch_payload. apply records_bytes_length. Qed.

Lemma batch_records_ok b : batch_ok b -> Forall (record_ok (batch_hdr b)) (b_records b).
Proof.
  intros H. pose proof (bo_last _ H). pose proof (bo_base _ H). pose proof (bo_delta _ H).
  unfold batch_last in *. eapply Forall_impl; [apply (bo_records _ H)|].
  intros [off m] [Hm Ho]. unfold record_ok, s_ok. cbn [fst snd v2_BaseOffset batch_hdr] in *.
  split; [done|]. lia.
Qed.

(** ** Checksum and narrowing *)

Section view.
Context (conf : reader_conf) (st en : Z) (k : rd_kafka_buf) (w rest : list Z).
Context (V : kview st en k (w ++ rest)).

Lemma view_narrow :
  rd_slice_narrow_relative (rkbuf_buf k) (rkbuf_reader k) (zlen w) =
    Ret (Some (set_sl_end (en - zlen rest) (rkbuf_reader k), rkbuf_reader k)) /\
  rd_slice_narrow_copy_relative (rkbuf_buf k) (rkbuf_reader k) (zlen w) =
    Ret (Some (set_sl_end (en - zlen rest) (rkbuf_reader k))).
Proof.
  pose proof (kview_bounds _ _ _ _ V) as Hb. pose proof (kview_slice _ _ _ _ V) as S.
  pose proof V as [R Hl (i & s & _ & _ & _ & _ & Hs) _]. rewrite length_app in *.
  destruct (slice_narrow_relative_spec _ _ _ (zlen w) R Hl S) as [-> ->]; [lia|].
  replace (sl_end (rkbuf_reader k)) with en by (by rewrite Hs).
  destruct (Z.leb_spec (en - Z.of_nat (length w + length rest) + zlen w) en); [|lia].
  replace (en - Z.of_nat (length w + length rest) + zlen w) with (en - zlen rest) by lia. done.
Qed.

Lemma kview_narrow :
  kview st (en - zlen rest)
    (set_rk_reader (set_sl_end (en - zlen rest) (rkbuf_reader k)) k) w.
Proof.
  pose proof V as [R Hl (i & s & Hi & Ha & Hr & He & Hs) Hx]. pose proof (kview_bounds _ _ _ _ V) as Hb.
  rewrite length_app in *. constructor; simpl; try done.
  - exists i, s. rewrite Hs. unfold set_sl_end. simpl. split_and!; try done; try lia. f_equal; lia.
  - pose proof (read_wf_zlen _ R). apply (f_equal (ztake (zlen w))) in Hx.
    rewrite ztake_bytes_at in Hx by lia. rewrite ztake_app in Hx by done.
    rewrite <- Hx at 3. f_equal. lia.
Qed.

Lemma view_crc32c :
  bytes_ok (contents (rkbuf_buf k)) ->
  exists sl', rd_slice_crc32c (addr_of conf) (rkbuf_buf k)
      (set_sl_end (en - zlen rest) (rkbuf_reader k)) = Ret (sl', crc32c_ref 0 w).
Proof.
  intros Hby. pose proof (kview_slice _ _ _ _ kview_narrow) as S. simpl in S.
  pose proof (kv_wf _ _ _ _ V) as R. pose proof (kv_len _ _ _ _ V) as Hl.
  destruct (slice_crc32c_spec (addr_of conf) _ R ltac:(lia) Hby _ _ S) as (sl' & Hr & _).
  exists sl'. rewrite Hr. simpl sl_end.
  pose proof (kv_rest _ _ _ _ kview_narrow) as Hx. simpl in Hx.
  replace (en - zlen rest - (en - zlen rest - zlen w)) with (zlen w) by lia. by rewrite Hx.
Qed.
End view.

(** ** The header *)

Lemma step_crc (conf : reader_conf) {B} (f : bool -> mparser B) st en mr w rest c r :
  kview st en (lget mr) (w ++ rest) -> bytes_ok (contents (rkbuf_buf (lget mr))) ->
  f (negb (u32 c =? crc32c_ref 0 w)) mr = r ->
  pbind (let* crc_sl := crc_slice (zlen w) in
         let* calc := gets (fun m => rd_slice_crc32c (addr_of conf) (rkbuf_buf (msetr_rkbuf m)) crc_sl) in
         pret (negb (u32 c =? calc.2))) f mr = r.
Proof.
  intros V Hby <-. destruct (view_narrow _ _ _ _ _ V) as [_ Hn].
  destruct (view_crc32c conf _ _ _ _ _ V Hby) as (sl' & Hc).
  pose proof (kview_bounds _ _ _ _ V) as Hb. rewrite length_app in Hb.
  unfold pbind at 1 2. unfold crc_slice. rewrite (uwrap_id 64) by (unfold u_ok; lia).
  change (msetr_rkbuf mr) with (lget mr). rewrite Hn. cbn [obind].
  unfold pbind, gets. change (msetr_rkbuf mr) with (lget mr). rewrite Hc. done.
Qed.

Lemma step_check (conf : reader_conf) {B} (f : bool -> mparser B) st en mr w rest c r :
  kview st en (lget mr) (w ++ rest) -> bytes_ok (contents (rkbuf_buf (lget mr))) ->
  u32 c = crc32c_ref 0 w -> f false mr = r ->
  pbind (if check_crcs conf then
           let* crc_sl := crc_slice (zlen w) in
           let* calc := gets (fun m => rd_slice_crc32c (addr_of conf) (rkbuf_buf (msetr_rkbuf m)) crc_sl) in
           pret (negb (u32 c =? calc.2))
         else pret false) f mr = r.
Proof.
  intros V Hby Hc Hf. destruct (check_crcs conf); [|exact Hf].
  eapply step_crc; [exact V|exact Hby|]. by rewrite Hc, Z.eqb_refl.
Qed.

Lemma s32_u32 x : u_ok 32 x -> u32 (s32 x) = x.
Proof. intros Hx. rewrite swrap_cong by lia. by apply uwrap_id. Qed.

Lemma kview_contents st en k w rest n :
  kview st en k (w ++ rest) -> bytes_ok (contents (rkbuf_buf k)) -> bytes_ok (contents (rkbuf_buf (adv n k))).
Proof. done. Qed.

Lemma view_bytes_ok st en k w rest :
  kview st en k (w ++ rest) -> bytes_ok (contents (rkbuf_buf k)) -> bytes_ok w.
Proof.
  intros V Hby. pose proof (kv_rest _ _ _ _ V) as Hx.
  assert (H : bytes_ok (w ++ rest)).
  { rewrite <- Hx. apply Forall_take, Forall_drop, Hby. }
  by apply Forall_app in H as [? _].
Qed.

Lemma crc32c_ref_ok d : bytes_ok d -> u_ok 32 (crc32c_ref 0 d).
Proof. intros Hd. apply (crc32c_spec 0 0 d); [unfold u_ok; lia|done]. Qed.

Section batch.
Context (conf : reader_conf) (b : batch) (Hb : batch_ok b).

(** The MessageSet header, its checksum verified. *)
Lemma v2_read_hdr_spec st en mr rest :
  kview st en (lget mr) (batch_bytes b ++ rest) -> bytes_ok (contents (rkbuf_buf (lget mr))) ->
  v2_read_hdr conf mr =
    Ret (ladv 61 mr, Some (Some (batch_hdr b, en - zlen rest - zlen (batch_bytes b) - st + 12))).
Proof.
  intros V Hby. pose proof (kview_bounds _ _ _ _ V) as Hbd. rewrite length_app in Hbd.
  pose proof (batch_bytes_len b) as Hlen. pose proof (batch_covered_len b) as Hcl.
  pose proof (bo_len _ Hb) as Hlt. unfold batch_Length in Hlt.
  set (rest0 := en - zlen rest - _ - st + 12).
  rewrite batch_bytes_app in V. unfold v2_read_hdr.
  pose proof (bo_last _ Hb). pose proof (bo_base _ Hb). pose proof (bo_delta _ Hb). unfold batch_last in *.
  read_step V reads_i64; [unfold s_ok; lia|].
  read_step V reads_i32; [unfold s_ok, batch_Length; lia|].
  get_step ltac:(eapply kview_offset, V).
  assert (Er : forall x y z, en - zlen (be_enc 4 x ++ be_enc 1 y ++ be_enc 4 z ++ batch_covered b ++ rest) - st
               = rest0).
  { intros. unfold rest0. rewrite !length_app, !be_enc_length. lia. }
  rewrite Er. clear Er.
  unfold batch_Length at 1. change (RD_KAFKAP_MSGSET_V2_SIZE - 8 - 4) with 49.
  destruct (Z.ltb_spec (49 + zlen (batch_payload b)) 49); [lia|].
  read_step V reads_i32; [apply (bo_epoch _ Hb)|].
  read_step V reads_i8.
  read_step V reads_i32; [apply swrap_ok; lia|].
  assert (Ecl : u64 (batch_Length b - 4 - 1 - 4) = zlen (batch_covered b)).
  { rewrite Hcl. unfold batch_Length. rewrite uwrap_id by (unfold u_ok; lia). lia. }
  rewrite Ecl. clear Ecl.
  assert (Hcrc : crc32c_ref 0 (batch_covered b) = u32 (batch_Crc b)).
  { unfold batch_Crc. rewrite s32_u32; [done|]. eapply crc32c_ref_ok, view_bytes_ok; [exact V|done]. }
  eapply (step_check conf); [exact V|exact Hby|by symmetry|]. cbv beta iota.
  rewrite batch_covered_app in V.
  read_step V reads_i16; [apply (bo_attrs _ Hb)|].
  read_step V reads_i32; [unfold s_ok; lia|].
  read_step V reads_i64; [apply (bo_bts _ Hb)|].
  read_step V reads_i64; [apply (bo_mts _ Hb)|].
  read_step V reads_i64; [apply (bo_pid _ Hb)|].
  read_step V reads_i16; [apply (bo_pepoch _ Hb)|].
  read_step V reads_i32; [apply (bo_seq _ Hb)|].
  read_step V reads_i32; [pose proof (batch_len_bound b); unfold s_ok; lia|].
  unfold pret. rewrite !be_enc_length, !ladv_ladv. done.
Qed.

(** *** The payload *)

Lemma v2_uncompressed_spec st en mr rest :
  kview st en (lget mr) (batch_payload b ++ rest) -> msetr_v2_hdr mr = Some (batch_hdr b) ->
  v2_uncompressed conf (zlen (batch_payload b)) mr =
    Ret (ladv (zlen (batch_payload b))
           (deliver (records_ops conf (batch_hdr b) (fetch_offset (msetr_rktp mr)) (b_records b)) mr),
         Some 0).
Proof.
  intros V Hh. unfold v2_uncompressed. destruct (view_narrow _ _ _ _ _ V) as [Hn _].
  change (msetr_rkbuf mr) with (lget mr). rewrite Hn. cbn [obind].
  pose proof (kview_narrow _ _ _ _ _ V) as V'. set (sl := set_sl_end _ _) in *.
  set (mr1 := set_mr_rkbuf mr (set_rk_reader sl (lget mr))).
  pose proof (msgs_v2_spec conf (batch_hdr b) st (en - zlen rest) mr1 (b_records b) V' Hh
                (batch_records_ok b Hb)) as Hm.
  change (v2_BaseTimestamp (batch_hdr b)) with (b_BaseTimestamp b) in Hm. fold (batch_payload b) in Hm.
  rewrite Hm. cbn [obind]. change (msetr_rktp mr1) with (msetr_rktp mr).
  set (ops := records_ops _ _ _ _). unfold mr1. rewrite deliver_rkbuf.
  destruct (deliver_frame ops mr) as (Hk & _). unfold ladv. cbn [lget lput msetr_lens].
  rewrite Hk. done.
Qed.

(** The operations a MessageSet gives to a consumer at fetch offset [f]; old
    MessageSets and control MessageSets are skipped. *)
Definition batch_is_control : bool :=
  negb (Z.land (b_Attributes b) RD_KAFKA_MSGSET_V2_ATTR_CONTROL =? 0).

Definition batch_ops (f : Z) : list rd_kafka_op :=
  if (batch_last b <? f) || batch_is_control then []
  else records_ops conf (batch_hdr b) f (b_records b).

(** The reader after the MessageSet. *)
Definition after_batch (mr : msgset_reader) : msgset_reader :=
  let f := fetch_offset (msetr_rktp mr) in
  let ctrl := if (batch_last b <? f) || negb batch_is_control then msetr_ctrl_cnt mr
              else msetr_ctrl_cnt mr + 1 in
  ladv (zlen (batch_bytes b))
    (set_mr_next (set_mr_v2_hdr (deliver (batch_ops f) mr) None) (batch_last b + 1) ctrl).

Lemma step_bind {A B} (p : mparser A) (f : A -> mparser B) m m1 a r :
  p m = Ret (m1, Some a) -> f a m1 = r -> pbind p f m = r.
Proof. intros H <-. unfold pbind. by rewrite H. Qed.

Lemma step_skip {B} (f : () -> mparser B) st en m w rest r :
  kview st en (lget m) (w ++ rest) ->
  f () (ladv (zlen w) m) = r -> pbind (onbuf (rd_kafka_buf_skip (zlen w))) f m = r.
Proof.
  intros V <-. pose proof (kview_bounds _ _ _ _ V) as Hbd. rewrite length_app in Hbd.
  unfold pbind, onbuf. rewrite (skip_spec _ _ _ _ V), uwrap_id by (unfold u_ok; lia).
  rewrite length_app. destruct (Z.ltb_spec (Z.of_nat (length w + length rest)) (zlen w)); [lia|]. done.
Qed.

(** The reader after the payload, before the [done] label. *)
Definition after_payload (mr : msgset_reader) : msgset_reader :=
  let f := fetch_offset (msetr_rktp mr) in
  ladv (zlen (batch_payload b))
    (if batch_last b <? f then mr
     else if batch_is_control then set_mr_next mr (msetr_next_offset mr) (msetr_ctrl_cnt mr + 1)
     else deliver (records_ops conf (batch_hdr b) f (b_records b)) (set_mr_v2_hdr mr (Some (batch_hdr b)))).

Lemma v2_payload_spec `{Codecs} inner st en mr rest len_start :
  kview st en (lget mr) (batch_payload b ++ rest) ->
  len_start = en - zlen (batch_payload b ++ rest) - st - 49 -> 
  v2_payload conf inner (batch_hdr b) len_start mr =
    Ret (set_mr_next (after_payload mr) (batch_last b + 1) (msetr_ctrl_cnt (after_payload mr)), Some 0).
Proof.
  intros V ->. pose proof (bo_last _ Hb) as Hlast. pose proof (bo_base _ Hb). pose proof (bo_delta _ Hb).
  pose proof (bo_len _ Hb) as Hlt. unfold batch_Length, batch_last in *.
  unfold v2_payload. get_step ltac:(eapply kview_offset, V). get_step ltac:(eapply kview_remains, V).
  assert (Hps : u64 (v2_Length (batch_hdr b) - (en - zlen (batch_payload b ++ rest) - st -
      (en - zlen (batch_payload b ++ rest) - st - 49))) = zlen (batch_payload b)).
  { cbn [v2_Length batch_hdr]. unfold batch_Length. rewrite uwrap_id by (unfold u_ok; lia). lia. }
  rewrite Hps, Z.gtb_ltb. destruct (Z.ltb_spec (zlen (batch_payload b ++ rest)) (zlen (batch_payload b))) as [Hlt'|_].
  { rewrite length_app in Hlt'. lia. }
  get_step ltac:(reflexivity). cbn [v2_BaseOffset v2_LastOffsetDelta v2_Attributes batch_hdr].
  rewrite (swrap_id 64 (b_BaseOffset b + _)) by (unfold s_ok; lia).
  eapply (step_bind _ _ _ (after_payload mr) 0).
  - unfold after_payload, batch_is_control, batch_last.
    destruct (Z.ltb_spec (b_BaseOffset b + b_LastOffsetDelta b) (fetch_offset (msetr_rktp mr))).
    { eapply step_skip; [exact V|]. done. }
    destruct (Z.land (b_Attributes b) RD_KAFKA_MSGSET_V2_ATTR_CONTROL =? 0) eqn:Ec; cbn [negb].
    + eapply step_modify. rewrite (bo_codec _ Hb). change (negb (0 =? 0)) with false. cbv iota.
      rewrite (v2_uncompressed_spec st en _ rest); [done|exact V|done].
    + eapply step_modify. eapply step_skip; [exact V|]. done.
  - change (negb (0 =? 0)) with false. cbv iota. eapply step_modify. unfold pret.
    rewrite swrap_id by (unfold s_ok, batch_last in *; lia). done.
Qed.

Lemma deliver_hdr ops mr h : deliver ops (set_mr_v2_hdr mr h) = set_mr_v2_hdr (deliver ops mr) h.
Proof.
  revert mr; induction ops as [|o ops IH]; intros mr; [done|]. unfold deliver in *. simpl.
  by rewrite <- IH.
Qed.

Lemma after_payload_batch mr :
  set_mr_v2_hdr (set_mr_next (after_payload (ladv 61 mr)) (batch_last b + 1)
    (msetr_ctrl_cnt (after_payload (ladv 61 mr)))) None = after_batch mr.
Proof.
  unfold after_payload, after_batch, batch_ops. rewrite ladv_rktp, batch_bytes_len.
  set (f := fetch_offset _). destruct (batch_last b <? f); cbn [orb negb].
  { by rewrite ladv_ladv. }
  destruct batch_is_control; cbn [orb negb]; [by rewrite <- ladv_ladv|].
  rewrite deliver_hdr. set (ops := records_ops _ _ _ _). rewrite deliver_ladv, <- ladv_ladv.
  destruct (deliver_frame ops mr) as (_ & _ & _ & _ & _ & Hc & _). by rewrite <- Hc.
Qed.

(** A whole MessageSet. *)
Lemma reader_v2_spec `{Codecs} inner st en mr rest :
  kview st en (lget mr) (batch_bytes b ++ rest) -> bytes_ok (contents (rkbuf_buf (lget mr))) ->
  rd_kafka_msgset_reader_v2 conf inner mr = Ret (after_batch mr, 0).
Proof.
  intros V Hby. pose proof (v2_read_hdr_spec st en mr rest V Hby) as Hh.
  assert (Hp : v2_parse conf inner mr =
    Ret (set_mr_next (after_payload (ladv 61 mr)) (batch_last b + 1)
           (msetr_ctrl_cnt (after_payload (ladv 61 mr))), Some 0)).
  { unfold v2_parse. eapply step_bind; [exact Hh|]. cbv beta iota.
    rewrite batch_bytes_app, batch_covered_app in V.
    apply (v2_payload_spec inner st en _ rest).
    - rewrite !app_assoc in V. rewrite <- app_assoc in V. apply kview_ladv in V.
      rewrite !length_app, !be_enc_length in V. exact V.
    - rewrite batch_bytes_len, length_app. lia. }
  unfold rd_kafka_msgset_reader_v2. rewrite (err_parse_ok _ _ _ _ Hp). cbn [obind].
  by rewrite after_payload_batch.
Qed.
End batch.

(** ** A sequence of MessageSets *)

Section batches.
Context (conf : reader_conf) `{Codecs} (inner : msgset_reader -> outcome (msgset_reader * Z)).

Definition batches_bytes (l : list batch) : list Z := l ≫= batch_bytes.
Definition batches_ops (f : Z) (l : list batch) : list rd_kafka_op := l ≫= fun b => batch_ops conf b f.

Lemma batches_bytes_cons b l : batches_bytes (b :: l) = batch_bytes b ++ batches_bytes l.
Proof. done. Qed.
Lemma batches_ops_cons f b l : batches_ops f (b :: l) = batch_ops conf b f ++ batches_ops f l.
Proof. done. Qed.

Lemma batches_bytes_one b : batches_bytes [b] = batch_bytes b.
Proof. apply app_nil_r. Qed.
Lemma batches_ops_one f b : batches_ops f [b] = batch_ops conf b f.
Proof. apply app_nil_r. Qed.

(** The reader after a non-empty sequence. *)
Definition after_batches (mr : msgset_reader) (l : list batch) (next ctrl : Z) : msgset_reader :=
  ladv (zlen (batches_bytes l))
    (set_mr_next (set_mr_v2_hdr (deliver (batches_ops (fetch_offset (msetr_rktp mr)) l) mr) None) next ctrl).

Lemma after_batch_one mr b : exists ctrl,
  after_batch conf b mr = after_batches mr [b] (batch_last b + 1) ctrl.
Proof.
  eexists. unfold after_batch, after_batches. by rewrite batches_bytes_one, batches_ops_one.
Qed.

Lemma deliver_next ops mr n c : deliver ops (set_mr_next mr n c) = set_mr_next (deliver ops mr) n c.
Proof.
  revert mr; induction ops as [|o ops IH]; intros mr; [done|]. unfold deliver in *. simpl.
  by rewrite <- IH.
Qed.

Lemma after_batches_rktp mr l n c : msetr_rktp (after_batches mr l n c) = msetr_rktp mr.
Proof.
  unfold after_batches. rewrite ladv_rktp. set (ops := batches_ops _ _).
  by destruct (deliver_frame ops mr) as (_ & _ & Ht & _).
Qed.

Lemma after_batches_app mr b l n c n' c' :
  after_batches (after_batches mr [b] n c) l n' c' = after_batches mr (b :: l) n' c'.
Proof.
  unfold after_batches at 1. rewrite after_batches_rktp. unfold after_batches.
  set (f := fetch_offset _). rewrite deliver_ladv, deliver_next, deliver_hdr.
  rewrite batches_ops_one, batches_bytes_one, batches_bytes_cons, batches_ops_cons, deliver_app, length_app, Nat2Z.inj_add, <- ladv_ladv. done.
Qed.

Lemma after_batches_view st en mr l rest n c :
  kview st en (lget mr) (batches_bytes l ++ rest) -> kview st en (lget (after_batches mr l n c)) rest.
Proof.
  intros V. unfold after_batches. apply kview_ladv.
  apply (kview_deliver _ _ (batches_ops (fetch_offset (msetr_rktp mr)) l)) in V. exact V.
Qed.

Lemma after_batches_contents mr l n c :
  rkbuf_buf (lget (after_batches mr l n c)) = rkbuf_buf (lget mr).
Proof.
  unfold after_batches. set (ops := batches_ops _ _). destruct (deliver_frame ops mr) as (Hk & _).
  change (rkbuf_buf (msetr_rkbuf (deliver ops mr)) = rkbuf_buf (msetr_rkbuf mr)). by rewrite Hk.
Qed.

Lemma batches_loop_spec fuel st en mr l :
  l <> [] -> Forall batch_ok l -> (length l <= fuel)%nat ->
  kview st en (lget mr) (batches_bytes l) -> bytes_ok (contents (rkbuf_buf (lget mr))) ->
  exists ctrl, reader_do_while fuel (rd_kafka_msgset_reader_v2 conf inner) mr =
    Ret (after_batches mr l (default 0 (batch_last <$> last l) + 1) ctrl, 0).
Proof.
  revert mr l; induction fuel as [|fuel IH]; intros mr l Hne Hok Hf V Hby.
  { destruct l; [done|simpl in Hf; lia]. }
  destruct l as [|b l]; [done|]. apply Forall_cons in Hok as [Hb Hok]. rewrite batches_bytes_cons in V.
  pose proof (reader_v2_spec conf b Hb inner st en mr _ V Hby) as Hr.
  destruct (after_batch_one mr b) as (c1 & Hone). rewrite Hone in Hr.
  assert (V1 : kview st en (lget (after_batches mr [b] (batch_last b + 1) c1)) (batches_bytes l)).
  { apply after_batches_view. by rewrite batches_bytes_one. }
  pose proof (kview_remains _ _ _ _ V1) as Hrem. cbn [reader_do_while].
  rewrite Hr. cbn [obind]. rewrite Hrem. cbn [obind]. change (0 =? 0) with true. cbn [andb].
  rewrite Z.gtb_ltb. destruct l as [|b2 l].
  { exists c1. done. }
  destruct (Z.ltb_spec 0 (zlen (batches_bytes (b2 :: l)))) as [_|Hl].
  2:{ rewrite batches_bytes_cons, length_app, Nat2Z.inj_add, batch_bytes_len in Hl. lia. }
  destruct (IH _ (b2 :: l) ltac:(done) Hok ltac:(simpl in *; lia) V1) as (c & ->).
  { by rewrite after_batches_contents. }
  exists c. by rewrite after_batches_app.
Qed.
End batches.
