(* ===== verification/FetchSpec.v ===== *)
(** * From a Fetch response to the application

    [rd_kafka_msgset_parse] on the MessageSets of a partition: the operations
    on the fetch queue, the next fetch offset, the counters and the reader. *)
From Stdlib Require Import ZArith Lia.
From stdpp Require Import base numbers list.
From S2P Require Import Prelude Varint Buf BufFacts BufSeek BufSpec Slice SliceFacts CrcTheory.
From S2P Require Import Crc Reader Crc32c RdList RdListSpec Proto Header Msg MsgqSpec KBuf.
From S2P Require Import KBufFacts Queue MsgsetReader KBufWrite MsgsetWriter WriterSpec ReaderSpec.
From S2P Require Import BatchSpec.

Strategy 1000 [pbind onbuf obind gets call modify rd_kafka_buf_read_varint rd_kafka_buf_read_bytes_varint
  varint_bytes be_enc record_body record_bytes records_bytes].

(** ** The version byte *)

Lemma be_enc_1_2 : be_enc 1 2 = [2].
Proof. reflexivity. Qed.

Lemma batch_magic b rest : exists d1 d2, batch_bytes b ++ rest = d1 ++ [2] ++ d2 /\ zlen d1 = 16.
Proof.
  exists (be_enc 8 (b_BaseOffset b) ++ be_enc 4 (batch_Length b) ++ be_enc 4 (b_PartitionLeaderEpoch b)),
    (be_enc 4 (batch_Crc b) ++ batch_covered b ++ rest).
  rewrite batch_bytes_app, be_enc_1_2, <- !app_assoc. split; [done|].
  by rewrite !length_app, !be_enc_length.
Qed.

Lemma peek_magic st en k d1 d2 :
  kview st en k (d1 ++ [2] ++ d2) -> zlen d1 = 16 -> en < 2 ^ 62 ->
  rd_kafka_buf_peek_i8 (en - zlen (d1 ++ [2] ++ d2) - st + 8 + 4 + 4) k = Ret (k, Some 2).
Proof.
  intros V Hd Hen. unfold rd_kafka_buf_peek_i8, pbind.
  rewrite <- !Z.add_assoc, (peek_spec st en k _ V (8 + (4 + 4)) 1) by lia.
  destruct (Z.ltb_spec (zlen (d1 ++ [2] ++ d2)) (8 + (4 + 4) + 1)) as [Hlt|_].
  { rewrite !length_app in Hlt. simpl in Hlt. lia. }
  rewrite (zdrop_app d1), ztake_app by lia || done. reflexivity.
Qed.

(** ** The reader on a partition *)

Section parse.
Context (conf : reader_conf) `{Codecs}.

Lemma reader_spec inner st en mr l :
  l <> [] -> Forall batch_ok l -> en < 2 ^ 62 ->
  kview st en (lget mr) (batches_bytes l) -> bytes_ok (contents (rkbuf_buf (lget mr))) ->
  exists ctrl, rd_kafka_msgset_reader conf inner mr =
    Ret (after_batches conf mr l (default 0 (batch_last <$> last l) + 1) ctrl, 0).
Proof.
  intros Hne Hok Hen V Hby.
  destruct (batches_loop_spec conf inner (msetr_fuel mr) st en mr l Hne Hok) as (ctrl & Hl); try done.
  { assert (Hlen : (length l <= length (batches_bytes l))%nat).
    { clear. induction l as [|b l IH]; [done|]. rewrite batches_bytes_cons, length_app. cbn [length].
      pose proof (batch_bytes_len b). lia. }
    pose proof (kview_bounds _ _ _ _ V). destruct V as [_ _ (i & s & _ & _ & _ & _ & Hs) _].
    unfold msetr_fuel. change (msetr_rkbuf mr) with (lget mr). rewrite Hs. simpl. lia. }
  exists ctrl. unfold rd_kafka_msgset_reader.
  destruct l as [|b l]; [done|]. destruct (batch_magic b (batches_bytes l)) as (d1 & d2 & Hd & H16).
  assert (Hp : reader_parse conf inner mr =
    Ret (after_batches conf mr (b :: l) (default 0 (batch_last <$> last (b :: l)) + 1) ctrl, Some 0)).
  { unfold reader_parse. eapply step_gets; [eapply kview_offset, V|cbv beta].
    eapply (step_bind _ _ _ mr 2).
    - unfold onbuf. rewrite batches_bytes_cons, Hd in V |- *. rewrite (peek_magic _ _ _ _ _ V H16 Hen).
      cbn [obind]. unfold lput. by destruct mr.
    - change ((2 <? 0) || (2 >? 2)) with false. cbv iota. unfold call. change (2 =? 2) with true. cbv iota.
      rewrite Hl. done. }
  rewrite Hp. done.
Qed.

(** *** The temporary queue *)

Definition ops_bytes (ops : list rd_kafka_op) : Z :=
  foldr (fun o a => op_key_len o + op_val_len o + a) 0 ops.

Lemma deliver_queue ops mr :
  rkq_ready (msetr_rkq mr) = true -> Forall (fun o => rko_prio o = 0) ops ->
  let q := msetr_rkq mr in let mr' := deliver ops mr in
  msetr_rkq mr' = mk_rkq (rkq_q q ++ ops) (rkq_qlen q + zlen ops) (rkq_qsize q + ops_size ops) true /\
  msetr_msgcnt mr' = msetr_msgcnt mr + zlen ops /\
  msetr_msg_bytes mr' = msetr_msg_bytes mr + ops_bytes ops.
Proof.
  intros Hr Hp. revert mr Hr; induction Hp as [|o ops Ho Hp IH]; intros mr Hr q mr'.
  { unfold mr', q. simpl. rewrite app_nil_r, !Z.add_0_r.
    destruct (msetr_rkq mr) as [? ? ? r]. simpl in *. by subst r. }
  set (mr1 := msetr_enq o (op_key_len o) (op_val_len o) mr).
  assert (Hq1 : msetr_rkq mr1 = mk_rkq (rkq_q q ++ [o]) (rkq_qlen q + 1) (rkq_qsize q + rko_len o) true).
  { unfold mr1, msetr_enq, rd_kafka_q_enq, rd_kafka_q_enq1. simpl. rewrite Hr. simpl.
    unfold rd_kafka_q_enq0. by rewrite Ho, Hr. }
  destruct (IH mr1 ltac:(by rewrite Hq1)) as (E1 & E2 & E3).
  change mr' with (deliver ops mr1). rewrite E1, E2, E3, Hq1. simpl. rewrite <- app_assoc.
  split_and!; [f_equal|..]; lia.
Qed.

Lemma batches_ops_elem f l o :
  Forall batch_ok l -> o ∈ batches_ops conf f l ->
  exists b off m, b ∈ l /\ o = fetched_op conf (batch_hdr b) off m /\
    f <= b_BaseOffset b + off <= batch_last b /\ 0 <= b_BaseOffset b + off.
Proof.
  intros Hok Ho. unfold batches_ops in Ho. apply list_elem_of_bind in Ho as (b & Ho & Hb). exists b.
  rewrite Forall_forall in Hok. specialize (Hok b Hb). unfold batch_ops in Ho.
  destruct (_ || _); [by apply not_elem_of_nil in Ho|].
  apply list_elem_of_bind in Ho as ([off m] & Ho & Hm). unfold record_ops in Ho. cbn [fst snd] in Ho.
  pose proof (bo_records _ Hok) as Hr. rewrite Forall_forall in Hr. destruct (Hr _ Hm) as [_ Hoff].
  cbn [fst] in Hoff. cbn [v2_BaseOffset batch_hdr] in Ho.
  destruct (Z.ltb_spec (b_BaseOffset b + off) f); [by apply not_elem_of_nil in Ho|].
  apply list_elem_of_singleton in Ho as ->. exists off, m. pose proof (bo_base _ Hok). unfold batch_last. split_and!; try done; lia.
Qed.

Lemma batches_ops_prio f l : Forall batch_ok l -> Forall (fun o => rko_prio o = 0) (batches_ops conf f l).
Proof.
  intros Hok. apply Forall_forall. intros o Ho.
  destruct (batches_ops_elem f l o Hok Ho) as (b & off & m & _ & -> & _). done.
Qed.

(** The last message on the temporary queue. *)
Lemma last_fetched f l :
  Forall batch_ok l -> batches_ops conf f l <> [] ->
  exists rkm, rd_kafka_q_last_fetch (mk_rkq (batches_ops conf f l) (zlen (batches_ops conf f l))
                 (ops_size (batches_ops conf f l)) true) false = Some rkm /\
    f <= rkm_offset rkm /\ 0 <= rkm_offset rkm /\ exists b, b ∈ l /\ rkm_offset rkm <= batch_last b.
Proof.
  intros Hok Hne. destruct (batches_ops conf f l) as [|o ops _] eqn:E using rev_ind; [done|].
  assert (Ho : o ∈ batches_ops conf f l) by (rewrite E; apply elem_of_app; right; by left).
  destruct (batches_ops_elem f l o Hok Ho) as (b & off & m & Hb & -> & H1).
  exists (fetched_msg conf (batch_hdr b) off m). unfold rd_kafka_q_last_fetch. simpl rkq_q.
  rewrite rev_app_distr. simpl. split; [done|]. split; [lia|]. split; [lia|]. exists b. split; [done|lia].
Qed.

Lemma concat_normal dst src : Forall (fun o => rko_prio o = 0) src -> concat_loop dst src = dst ++ src.
Proof.
  intros Hs. destruct src as [|o src]; simpl; [by rewrite app_nil_r|].
  apply Forall_cons in Hs as [Ho _]. by rewrite Ho.
Qed.

(** *** The whole run *)

Section run.
Context (k : rd_kafka_buf) (rktp : fetch_state) (fetchq : rd_kafka_q) (l : list batch) (b0 : batch).
Context (st en : Z) (V : kview st en k (batches_bytes l)) (Hby : bytes_ok (contents (rkbuf_buf k))).
Context (Hen : en < 2 ^ 62) (Hok : Forall batch_ok l) (Hlast : last l = Some b0).
Context (Hord : Forall (fun b => batch_last b <= batch_last b0) l) (Hready : rkq_ready fetchq = true).

Let ops := batches_ops conf (fetch_offset rktp) l.
Let init := rd_kafka_msgset_reader_init k rktp fetchq.

Lemma run_reader inner : exists ctrl, rd_kafka_msgset_reader conf inner init =
  Ret (after_batches conf init l (batch_last b0 + 1) ctrl, 0).
Proof.
  destruct (reader_spec inner st en init l) as (ctrl & Hr); try done.
  { by intros ->. }
  exists ctrl. rewrite Hr, Hlast. done.
Qed.

Lemma run_after ctrl :
  let m := after_batches conf init l (batch_last b0 + 1) ctrl in
  msetr_rkq m = mk_rkq ops (zlen ops) (ops_size ops) true /\ msetr_msgcnt m = zlen ops /\
  msetr_msg_bytes m = ops_bytes ops /\ msetr_rktp m = rktp /\ msetr_par_rkq m = fetchq /\
  msetr_relative_offsets m = false /\ msetr_rkbuf m = adv (zlen (batches_bytes l)) k /\
  msetr_next_offset m = batch_last b0 + 1 /\ msetr_ctrl_cnt m = ctrl.
Proof.
  intros m. pose proof (batches_ops_prio (fetch_offset rktp) l Hok) as Hp. fold ops in Hp.
  destruct (deliver_queue ops init eq_refl Hp) as (E1 & E2 & E3).
  destruct (deliver_frame ops init) as (F1 & F2 & F3 & F4 & F5 & F6 & F7).
  assert (Hm : m = ladv (zlen (batches_bytes l))
    (set_mr_next (set_mr_v2_hdr (deliver ops init) None) (batch_last b0 + 1) ctrl)) by done.
  clearbody m. subst m. simpl in *. rewrite E1, E2, E3, F1, F3, F4, F7. done.
Qed.

Lemma last_ok : batch_ok b0 /\ b0 ∈ l.
Proof.
  apply last_Some in Hlast as (l' & E). assert (Hb : b0 ∈ l) by (rewrite E; apply elem_of_app; right; by left).
  split; [|done]. rewrite Forall_forall in Hok. by apply Hok.
Qed.

(** [run_finish] when a message was handed out. *)
Lemma run_finish_spec m last :
  msetr_rkq m = mk_rkq ops (zlen ops) (ops_size ops) true -> ops <> [] -> msetr_par_rkq m = fetchq ->
  msetr_rktp m = rktp -> msetr_rkbuf m = adv (zlen (batches_bytes l)) k ->
  msetr_next_offset m = batch_last b0 + 1 -> 0 <= last <= batch_last b0 ->
  msetr_msgcnt m = zlen ops -> msetr_msg_bytes m = ops_bytes ops ->
  exists m', run_finish m last 0 = Ret (m', 0) /\
    msetr_rkbuf m' = adv (zlen (batches_bytes l)) k /\
    msetr_rktp m' = set_fetch_offset (batch_last b0 + 1) rktp /\
    msetr_par_rkq m' = mk_rkq (rkq_q fetchq ++ ops) (rkq_qlen fetchq + zlen ops)
                        (rkq_qsize fetchq + ops_size ops) true /\
    msetr_msgcnt m' = zlen ops /\ msetr_msg_bytes m' = ops_bytes ops.
Proof.
  intros Q1 Hne Q5 Q4 Q7 Q8 Hl Q2 Q3. unfold run_finish. rewrite Q1, Q5.
  destruct last_ok as [Hb0 _]. pose proof (bo_last _ Hb0).
  assert (Hcc : rd_kafka_q_concat0 fetchq (mk_rkq ops (zlen ops) (ops_size ops) true) =
    (mk_rkq (rkq_q fetchq ++ ops) (rkq_qlen fetchq + zlen ops) (rkq_qsize fetchq + ops_size ops) true,
     rd_kafka_q_reset (mk_rkq ops (zlen ops) (ops_size ops) true), 0)).
  { unfold rd_kafka_q_concat0. simpl. rewrite Hready. simpl.
    rewrite concat_normal by by apply batches_ops_prio. by destruct ops. }
  rewrite Hcc. change (negb (0 =? -1)) with true. cbn [andb].
  destruct (Z.eqb_spec last (-1)); [lia|]. cbn [negb].
  rewrite (swrap_id 64 (last + 1)) by (unfold s_ok; lia).
  set (q := mk_rkq (_ ++ _) _ _ _). set (mfin := set_mr_rktp (set_mr_queues m rd_kafka_q_init q)
    (set_fetch_offset (batch_last b0 + 1) rktp)).
  match goal with |- context [msetr_remains ?x] => replace x with mfin; cycle 1 end.
  { cbn. rewrite Q4, Q8, Z.gtb_ltb. cbn.
    destruct (Z.ltb_spec (last + 1) (batch_last b0 + 1)); [done|].
    unfold mfin. by replace (batch_last b0 + 1) with (last + 1) by lia. }
  pose proof V as V'. rewrite <- (app_nil_r (batches_bytes l)) in V'. apply kview_adv in V'.
  assert (Hrem : msetr_remains mfin = Ret 0).
  { apply (kview_remains st en mfin []). cbn. rewrite Q7. exact V'. }
  rewrite Hrem. cbn [obind]. change (msetr_rkbuf mfin) with (msetr_rkbuf m). rewrite Q7.
  rewrite (kread_spec _ _ _ _ V') by lia. cbn. rewrite adv_0.
  eexists. split; [reflexivity|]. by split_and!.
Qed.

Lemma run_spec inner :
  ops <> [] ->
  exists m, run_body conf inner init = Ret (m, 0) /\
    msetr_rkbuf m = adv (zlen (batches_bytes l)) k /\
    msetr_rktp m = set_fetch_offset (batch_last b0 + 1) rktp /\
    msetr_par_rkq m = mk_rkq (rkq_q fetchq ++ ops) (rkq_qlen fetchq + zlen ops)
                        (rkq_qsize fetchq + ops_size ops) true /\
    msetr_msgcnt m = zlen ops /\ msetr_msg_bytes m = ops_bytes ops.
Proof.
  intros Hne. destruct (run_reader inner) as (ctrl & Hr). unfold run_body. rewrite Hr. cbn [obind]. clear Hr.
  destruct (run_after ctrl) as (Q1 & Q2 & Q3 & Q4 & Q5 & Q6 & Q7 & Q8 & Q9).
  set (m := after_batches _ _ _ _ _) in *. clearbody m.
  destruct (last_fetched _ _ Hok Hne) as (rkm & Hf & Hlo & Hpos & (b & Hb & Hhi)). fold ops in Hf.
  assert (Hb' : batch_last b <= batch_last b0) by (rewrite Forall_forall in Hord; by apply Hord).
  destruct last_ok as [Hb0 _]. pose proof (bo_last _ Hb0). pose proof (bo_base _ Hb0). pose proof (bo_delta _ Hb0).
  assert (Hz : (rd_kafka_q_len (msetr_rkq m) =? 0) = false).
  { rewrite Q1. unfold rd_kafka_q_len. simpl. by destruct ops. }
  rewrite Hz. unfold rd_kafka_msgset_reader_postproc. rewrite Q6, Q1, Hf. cbn [fmap option_fmap option_map].
  change ((0 =? RD_KAFKA_RESP_ERR__UNDERFLOW)) with false. cbn [andb default].
  change (default (-1) (Some ?x)) with x.
  change (id (rkm_offset rkm)) with (rkm_offset rkm).
  eapply run_finish_spec; simpl; try done; lia.
Qed.
End run.
End parse.

(** ** Received payloads *)

(** A payload in a shadow buffer is seen whole. *)
Lemma shadow_view data cb :
  0 < zlen data < 2 ^ 63 ->
  exists k, rd_kafka_buf_new_shadow data (zlen data) cb = Ret k /\ kview 0 (zlen data) k data /\
    contents (rkbuf_buf k) = data /\ rkbuf_err k = 0.
Proof.
  intros Hd. unfold rd_kafka_buf_new_shadow.
  set (s := mk_segment (Some data) (zlen data) (zlen data) 0 (FreeCb <$> cb) (Z.lor 0 RD_SEGMENT_F_RDONLY)
              (InExtra (RD_ROUNDUP8 0))).
  assert (Hp : exists b0 b, rd_buf_init 1 0 = Ret b0 /\ rd_buf_push b0 (Some data) (zlen data) cb = Ret b /\
    rbuf_segments b = [s] /\ rbuf_len b = zlen data).
  { eexists _, _. split; [reflexivity|]. split; [unfold rd_buf_push; cbn -[Z.of_nat]; reflexivity|].
    split; [done|]. cbn. lia. }
  destruct Hp as (b0 & b & -> & Hp & Hs & Hlen). cbn [obind]. rewrite Hp. cbn [obind]. clear Hp.
  assert (Hc : contents b = data).
  { unfold contents. rewrite Hs. simpl. rewrite app_nil_r. unfold seg_data, seg_mem, s, ztake. simpl.
    rewrite take_ge; [done|lia]. }
  assert (R : read_wf b).
  { constructor; rewrite Hs; simpl; try done; [|lia]. constructor; [|done].
    unfold seg_ok, seg_mem, s. simpl. lia. }
  destruct (slice_init_full_spec b R) as (sl & Hi & S & Hs0 & He); [lia|].
  rewrite Hi. cbn [obind]. eexists. split; [reflexivity|]. split; [|done].
  constructor; simpl; try done.
  - lia.
  - exists 0%nat, s. rewrite Hs. simpl in *. destruct S as ((l1 & s' & l2 & Hsegs & Hseg & Hr & Hp) & _).
    destruct sl as [sseg srof sst sen]. simpl in *. subst sseg sst.
    rewrite Hs in Hsegs. destruct l1 as [|s1 l1]; [|by destruct l1]. injection Hsegs as <- _.
    split_and!; try done; try lia. f_equal; try lia. simpl in Hp. lia.
  - unfold bytes_at. rewrite Hc, Z.sub_diag. change (zdrop 0 data) with data. apply ztake_all.
Qed.

(** ** Property *)

(** C18. A Fetch response holding MessageSets of MsgVersion 2 (uncompressed,
    checksums correct) is handed to the application exactly: every message at
    or after the fetch offset, in order, with its key, value, timestamp,
    absolute offset and headers, and nothing else (messages before the fetch
    offset, old MessageSets and control MessageSets are dropped); the fetch
    offset moves past the last MessageSet, even when compaction has removed
    its last messages; the counters are exact, the slice is consumed and no
    error is reported. *)
Theorem fetch_delivers (CO : Codecs) (conf : reader_conf) (depth : nat) (k : rd_kafka_buf)
    (rktp : fetch_state) (fetchq : rd_kafka_q) (l : list batch) (b0 : batch) (st en : Z)
    (V : kview st en k (batches_bytes l)) (Hby : bytes_ok (contents (rkbuf_buf k))) (Hen : en < 2 ^ 62)
    (Hok : Forall batch_ok l) (Hlast : last l = Some b0)
    (Hord : Forall (fun b => batch_last b <= batch_last b0) l) (Hready : rkq_ready fetchq = true)
    (Hne : batches_ops conf (fetch_offset rktp) l <> []) :
  let ops := batches_ops conf (fetch_offset rktp) l in
  rd_kafka_msgset_parse conf (S depth) k rktp fetchq =
    Ret (adv (zlen (batches_bytes l)) k, set_fetch_offset (batch_last b0 + 1) rktp,
         mk_rkq (rkq_q fetchq ++ ops) (rkq_qlen fetchq + zlen ops) (rkq_qsize fetchq + ops_size ops) true,
         (zlen ops, ops_bytes ops), 0).
Proof.
  intros ops. unfold rd_kafka_msgset_parse. cbn [rd_kafka_msgset_reader_run].
  destruct (run_spec conf k rktp fetchq l b0 st en V Hby Hen Hok Hlast Hord Hready
              (rd_kafka_msgset_reader_run conf depth) Hne) 
    as (m & -> & Hk & Hf & Hq & Hc & Hs).
  cbn [obind]. by rewrite Hk, Hf, Hq, Hc, Hs.
Qed.

Definition no_codecs : Codecs :=
  {| gz_decompress _ := None; snappy_java_uncompress _ := None; snappy_uncompressed_length _ := None;
     snappy_uncompress _ := None; malloc_ok _ := true;
     lz4_decompress _ _ _ := inl RD_KAFKA_RESP_ERR__BAD_COMPRESSION |}.
Definition example_rconf : reader_conf := mk_rconf true 3 1 (fun _ => 5).
Definition example_batch : batch :=
  mk_batch 100 7 0 4 1000 1050 (-1) (-1) (-1)
    [(0, mk_message (Some [1]) (Some [2; 3]) 1000 []); (2, mk_message None (Some [4]) 1050 [])].

Lemma example_batch_ok : batch_ok example_batch.
Proof.
  constructor; unfold batch_last, s_ok; cbn [b_BaseOffset b_PartitionLeaderEpoch b_Attributes
    b_LastOffsetDelta b_BaseTimestamp b_MaxTimestamp b_PID b_ProducerEpoch b_BaseSequence b_records example_batch];
    try lia; [vm_compute; reflexivity|reflexivity|].
  repeat constructor; cbn [fst snd m_timestamp]; try lia.
Qed.

(** A consumer at offset 101: the first message is old, offset 102 is handed
    out and the next fetch is from 105. *)
Lemma fetch_delivers_witness :
  exists k q, rd_kafka_buf_new_shadow (batch_bytes example_batch) (zlen (batch_bytes example_batch)) None = Ret k /\
    rd_kafka_msgset_parse (CO := no_codecs) example_rconf 1 k (mk_fetch 101 1000 0 0) rd_kafka_q_init =
      Ret (adv (zlen (batch_bytes example_batch)) k, mk_fetch 105 1000 0 0, q, (1, 1), 0) /\
    rkq_q q = [fetched_op example_rconf (batch_hdr example_batch) 2 (mk_message None (Some [4]) 1050 [])].
Proof.
  destruct (shadow_view (batch_bytes example_batch) None) as (k & Hk & V & Hc & _).
  { vm_compute. split; [reflexivity|]. reflexivity. }
  exists k. eexists. split; [exact Hk|]. rewrite <- (batches_bytes_one example_batch) in V |- *.
  split; [apply (fetch_delivers no_codecs example_rconf 0 k (mk_fetch 101 1000 0 0) rd_kafka_q_init
            [example_batch] example_batch 0 _ V)|].
  - rewrite Hc. vm_compute. repeat constructor; discriminate.
  - vm_compute. reflexivity.
  - constructor; [apply example_batch_ok|constructor].
  - reflexivity.
  - constructor; [vm_compute; discriminate|constructor].
  - reflexivity.
  - vm_compute. discriminate.
  - reflexivity.
Defined.
