(* ===== verification/CrcError.v ===== *)
(** * Corrupt MessageSets of MsgVersion 2

    What the MessageSet reader does when the CRC-32C of a MessageSet does not
    match: the error is reported, but the position it skips to is the length
    of the checksummed bytes taken as a slice offset. *)
From Stdlib Require Import ZArith Lia.
From stdpp Require Import base numbers list.
From S2P Require Import Prelude Varint Buf BufFacts BufSeek BufSpec Slice SliceFacts CrcTheory.
From S2P Require Import Crc Reader Crc32c RdList RdListSpec Proto Header Msg MsgqSpec KBuf.
From S2P Require Import KBufFacts Queue MsgsetReader KBufWrite MsgsetWriter WriterSpec ReaderSpec.
From S2P Require Import BatchSpec FetchSpec.

Strategy 1000 [pbind onbuf obind gets call modify rd_kafka_buf_read_varint rd_kafka_buf_read_bytes_varint
  varint_bytes be_enc record_body record_bytes records_bytes].

(** A MessageSet with another checksum. *)
Definition corrupt_bytes (b : batch) (crc : Z) : list Z :=
  be_enc 8 (b_BaseOffset b) ++ be_enc 4 (batch_Length b) ++ be_enc 4 (b_PartitionLeaderEpoch b) ++
  be_enc 1 2 ++ be_enc 4 crc ++ batch_covered b.

Lemma corrupt_bytes_app b crc rest :
  corrupt_bytes b crc ++ rest =
  be_enc 8 (b_BaseOffset b) ++ be_enc 4 (batch_Length b) ++ be_enc 4 (b_PartitionLeaderEpoch b) ++
  be_enc 1 2 ++ be_enc 4 crc ++ batch_covered b ++ rest.
Proof. unfold corrupt_bytes. by rewrite <- !app_assoc. Qed.

Lemma corrupt_bytes_len b crc : zlen (corrupt_bytes b crc) = 61 + zlen (batch_payload b).
Proof.
  unfold corrupt_bytes. rewrite !length_app, !be_enc_length, !Nat2Z.inj_add, batch_covered_len. lia.
Qed.

Section corrupt.
Context (conf : reader_conf) (b : batch) (Hb : batch_ok b) (crc : Z).
Context (Hcrc : s_ok 32 crc) (Hbad : u32 crc <> crc32c_ref 0 (batch_covered b)).
Context (Hcheck : check_crcs conf = true).

(** The reader once the error has been enqueued, 21 bytes into the MessageSet. *)
Definition after_bad_crc (mr : msgset_reader) : msgset_reader :=
  msetr_op_err conf RD_KAFKA_RESP_ERR__BAD_MSG (b_BaseOffset b) (ladv 21 mr).

(** The header is read and the checksum found wrong. *)
Lemma v2_read_hdr_bad st en mr rest :
  kview st en (lget mr) (corrupt_bytes b crc ++ rest) -> bytes_ok (contents (rkbuf_buf (lget mr))) ->
  v2_read_hdr conf mr =
    (let* _ := onbuf (rd_kafka_buf_skip_to (zlen (batch_covered b))) in
     let* _ := modify count_rx_err in pret None) (after_bad_crc mr).
Proof.
  intros V Hby. pose proof (kview_bounds _ _ _ _ V) as Hbd. rewrite length_app in Hbd.
  pose proof (corrupt_bytes_len b crc) as Hlen. pose proof (batch_covered_len b) as Hcl.
  pose proof (bo_len _ Hb) as Hlt. unfold batch_Length in Hlt.
  rewrite corrupt_bytes_app in V. unfold v2_read_hdr.
  pose proof (bo_last _ Hb). pose proof (bo_base _ Hb). pose proof (bo_delta _ Hb). unfold batch_last in *.
  read_step V reads_i64; [unfold s_ok; lia|].
  read_step V reads_i32; [unfold s_ok, batch_Length; lia|].
  get_step ltac:(eapply kview_offset, V).
  unfold batch_Length at 1. change (RD_KAFKAP_MSGSET_V2_SIZE - 8 - 4) with 49.
  destruct (Z.ltb_spec (49 + zlen (batch_payload b)) 49); [lia|].
  read_step V reads_i32; [apply (bo_epoch _ Hb)|].
  read_step V reads_i8.
  read_step V reads_i32.
  assert (Ecl : u64 (batch_Length b - 4 - 1 - 4) = zlen (batch_covered b)).
  { rewrite Hcl. unfold batch_Length. rewrite uwrap_id by (unfold u_ok; lia). lia. }
  rewrite Ecl, Hcheck. clear Ecl. eapply step_crc; [exact V|exact Hby|]. cbv beta.
  destruct (Z.eqb_spec (u32 crc) (crc32c_ref 0 (batch_covered b))) as [E|_]; [done|]. cbn [negb]. cbv iota.
  eapply step_modify. rewrite !be_enc_length, !ladv_ladv. reflexivity.
Qed.

Lemma view_after_bad st en mr rest :
  kview st en (lget mr) (corrupt_bytes b crc ++ rest) ->
  kview st en (lget (after_bad_crc mr)) (batch_covered b ++ rest).
Proof.
  intros V. rewrite corrupt_bytes_app in V. rewrite !app_assoc in V.
  rewrite <- app_assoc in V. apply kview_ladv in V. rewrite !length_app, !be_enc_length in V. exact V.
Qed.

Lemma v2_bad_crc `{Codecs} inner st en mr rest :
  kview st en (lget mr) (corrupt_bytes b crc ++ rest) -> bytes_ok (contents (rkbuf_buf (lget mr))) ->
  let o := en - zlen (corrupt_bytes b crc ++ rest) - st in let n := zlen (batch_covered b) in
  rd_kafka_msgset_reader_v2 conf inner mr =
    if n <? o + 21
    then Ret (set_mr_v2_hdr (set_mr_rktp (lput (set_rk_err RD_KAFKA_RESP_ERR__UNDERFLOW
                (lget (after_bad_crc mr))) (after_bad_crc mr))
                (mk_fetch (fetch_offset (msetr_rktp mr)) (rktp_fetch_msg_max_bytes (msetr_rktp mr))
                   (rx_partial (msetr_rktp mr) + 1) (rx_err (msetr_rktp mr)))) None,
              RD_KAFKA_RESP_ERR__UNDERFLOW)
    else Ret (set_mr_v2_hdr (count_rx_err (ladv (n - (o + 21)) (after_bad_crc mr))) None, 0).
Proof.
  intros V Hby o n. pose proof (kview_bounds _ _ _ _ V) as Hbd. rewrite length_app in Hbd.
  pose proof (corrupt_bytes_len b crc) as Hlen. pose proof (batch_covered_len b) as Hcl.
  pose proof (bo_len _ Hb) as Hlt. unfold batch_Length in Hlt.
  pose proof (bo_last _ Hb). pose proof (bo_base _ Hb). pose proof (bo_delta _ Hb). unfold batch_last in *.
  assert (Ho : 0 <= o /\ o + zlen (corrupt_bytes b crc ++ rest) < 2 ^ 63) by (unfold o; rewrite length_app; lia).
  assert (Eo : o + 21 = en - zlen (batch_covered b ++ rest) - st).
  { unfold o. rewrite !length_app. lia. }
  pose proof (view_after_bad _ _ _ _ V) as V1.
  assert (Hskip : rd_kafka_buf_skip_to n (lget (after_bad_crc mr)) =
      if n <? o + 21 then underflow (lget (after_bad_crc mr))
      else Ret (adv (n - (o + 21)) (lget (after_bad_crc mr)), Some ())).
  { rewrite (skip_to_spec _ _ _ _ V1) by (unfold n; lia). rewrite <- Eo.
    destruct (Z.ltb_spec (n - (o + 21)) 0), (Z.ltb_spec n (o + 21)); try lia; [done|].
    destruct (Z.ltb_spec (zlen (batch_covered b ++ rest)) (n - (o + 21))) as [Hx|]; [|done].
    rewrite length_app in Hx. unfold n in Hx. lia. }
  pose proof (v2_read_hdr_bad st en mr rest V Hby) as Hh. fold n in Hh.
  unfold rd_kafka_msgset_reader_v2, err_parse, v2_parse. unfold pbind at 1. rewrite Hh.
  unfold pbind at 1, onbuf. rewrite Hskip. destruct (n <? o + 21); reflexivity.
Qed.
End corrupt.

(** ** Property *)

(** C39. A MessageSet of MsgVersion 2 whose checksum is wrong is reported with
    one error operation and none of its messages is handed out, but the reader
    does not continue with the next MessageSet: it skips to the slice offset
    [n], the number of checksummed bytes, whatever the offset [o] the
    MessageSet starts at.  When [n] has already been passed the parser fails
    with an underflow and gives up on the rest of the response; otherwise it
    continues [o + 21] bytes before the end of the corrupt MessageSet. *)
Theorem bad_crc_resync (CO : Codecs) (conf : reader_conf) (b : batch) (crc st en : Z)
    (inner : msgset_reader -> outcome (msgset_reader * Z)) (mr : msgset_reader) (rest : list Z)
    (Hb : batch_ok b) (Hcrc : s_ok 32 crc) (Hbad : u32 crc <> crc32c_ref 0 (batch_covered b))
    (Hcheck : check_crcs conf = true) (Hready : rkq_ready (msetr_rkq mr) = true)
    (V : kview st en (lget mr) (corrupt_bytes b crc ++ rest))
    (Hby : bytes_ok (contents (rkbuf_buf (lget mr)))) :
  let o := en - zlen (corrupt_bytes b crc ++ rest) - st in let n := zlen (batch_covered b) in
  exists mr' err, rd_kafka_msgset_reader_v2 conf inner mr = Ret (mr', err) /\
    rkq_q (msetr_rkq mr') = rkq_q (msetr_rkq mr) ++
      [mk_rko (tver_version conf) RD_KAFKA_RESP_ERR__BAD_MSG 0 0 (RD_KAFKA_OP_CONSUMER_ERR (b_BaseOffset b))] /\
    fetch_offset (msetr_rktp mr') = fetch_offset (msetr_rktp mr) /\
    if n <? o + 21 then err = RD_KAFKA_RESP_ERR__UNDERFLOW
    else err = 0 /\ msetr_offset mr' = Ret n /\ n + (o + 21) = o + zlen (corrupt_bytes b crc).
Proof.
  intros o n. pose proof (v2_bad_crc conf b Hb crc Hcrc Hbad Hcheck inner st en mr rest V Hby) as Hr.
  cbv zeta in Hr. fold o n in Hr. pose proof (view_after_bad conf b crc _ _ _ _ V) as V1.
  pose proof (corrupt_bytes_len b crc) as Hlen. pose proof (batch_covered_len b) as Hcl.
  assert (Hq : rkq_q (msetr_rkq (after_bad_crc conf b mr)) = rkq_q (msetr_rkq mr) ++
      [mk_rko (tver_version conf) RD_KAFKA_RESP_ERR__BAD_MSG 0 0 (RD_KAFKA_OP_CONSUMER_ERR (b_BaseOffset b))]).
  { unfold after_bad_crc, msetr_op_err, rd_kafka_q_op_err, rd_kafka_q_enq, rd_kafka_q_enq1. simpl.
    by rewrite Hready. }
  destruct (Z.ltb_spec n (o + 21)); (eexists _, _; split; [exact Hr|]; split; [exact Hq|]; split; [done|]); [done|].
  split; [done|]. split; [|unfold n; lia].
  assert (Eo : o + 21 = en - zlen (batch_covered b ++ rest) - st) by (unfold o; rewrite !length_app; lia).
  assert (Hn : 0 <= n - (o + 21) <= zlen (batch_covered b ++ rest)).
  { pose proof (kview_bounds _ _ _ _ V1). rewrite length_app in *. unfold n, o in *. lia. }
  pose proof (kview_adv_drop _ _ _ _ _ V1 Hn) as V2.
  set (mr' := set_mr_v2_hdr _ _). replace (msetr_offset mr') with
    (rd_slice_offset (rkbuf_buf (adv (n - (o + 21)) (lget (after_bad_crc conf b mr))))
       (rkbuf_reader (adv (n - (o + 21)) (lget (after_bad_crc conf b mr))))) by done.
  rewrite (proj2 (kview_remain _ _ _ _ V2)), zlen_zdrop by done. f_equal. lia.
Qed.

Definition example_batch2 : batch :=
  mk_batch 105 7 0 0 1000 1000 (-1) (-1) (-1) [(0, mk_message (Some [1]) (Some [2; 3]) 1000 [])].
Definition example_corrupt : list Z := corrupt_bytes example_batch 12345 ++ batch_bytes example_batch2.

(** The MessageSet after the corrupt one is not found: nothing but the error
    reaches the application and the fetch offset stays. *)
Lemma bad_crc_resync_witness :
  (exists k mr', rd_kafka_buf_new_shadow example_corrupt (zlen example_corrupt) None = Ret k /\
    rd_kafka_msgset_reader_v2 (CO := no_codecs) example_rconf (fun _ => Crash)
      (rd_kafka_msgset_reader_init k (mk_fetch 100 1000 0 0) rd_kafka_q_init) = Ret (mr', 0) /\
    msetr_offset mr' = Ret (zlen (batch_covered example_batch))) /\
  (let! k := rd_kafka_buf_new_shadow example_corrupt (zlen example_corrupt) None in
   let! (_, f, q, _, _) := rd_kafka_msgset_parse (CO := no_codecs) example_rconf 1 k (mk_fetch 100 1000 0 0)
                             rd_kafka_q_init in Ret (fetch_offset f, map rko_u (rkq_q q))) =
    Ret (100, [RD_KAFKA_OP_CONSUMER_ERR 100]).
Proof.
  split; [|vm_compute; reflexivity].
  destruct (shadow_view example_corrupt None) as (k & Hk & V & Hc & _).
  { vm_compute. split; reflexivity. }
  destruct (bad_crc_resync no_codecs example_rconf example_batch 12345 0 (zlen example_corrupt) (fun _ => Crash)
              (rd_kafka_msgset_reader_init k (mk_fetch 100 1000 0 0) rd_kafka_q_init)
              (batch_bytes example_batch2) example_batch_ok) as (mr' & err & H1 & _ & _ & H2).
  - unfold s_ok. lia.
  - vm_compute. discriminate.
  - reflexivity.
  - reflexivity.
  - exact V.
  - change (bytes_ok (contents (rkbuf_buf k))). rewrite Hc. vm_compute. repeat constructor; discriminate.
  - assert (E : (zlen (batch_covered example_batch) <? zlen example_corrupt - zlen
      (corrupt_bytes example_batch 12345 ++ batch_bytes example_batch2) - 0 + 21) = false)
      by (vm_compute; reflexivity).
    rewrite E in H2. destruct H2 as (-> & H2 & _). exists k, mr'. split; [exact Hk|]. split; [exact H1|exact H2].
Defined.
