(* ===== verification/ProduceSpec.v ===== *)
(** * Produce requests of MsgVersion 2

    [rd_kafka_msgset_create_ProduceRequest] on a transmit queue: which messages
    it takes, and the bytes of the request it builds, for uncompressed
    MessageSets of MsgVersion 2. *)
From Stdlib Require Import ZArith Lia.
From stdpp Require Import base numbers list.
From S2P Require Import Prelude Varint Buf BufFacts BufSeek BufSpec Slice SliceFacts CrcTheory Crc.
From S2P Require Import Reader Crc32c RdList RdListSpec Proto Header Msg MsgqSpec KBuf KBufFacts.
From S2P Require Import Queue MsgsetReader KBufWrite MsgsetWriter WriterSpec ReaderSpec BatchSpec.

(** ** Batching *)

(** The messages of a request with their offset deltas. *)
Fixpoint numbered (i : Z) (l : list message) : list (Z * message) :=
  match l with
  | [] => []
  | m :: l => (i, m) :: numbered (i + 1) l
  end.

Definition enq_all (q : rd_kafka_msgq) (l : list rd_kafka_msg) : rd_kafka_msgq :=
  foldl (fun q m => (rd_kafka_msgq_enq q m).1) q l.

Definition max_ts (t : Z) (l : list rd_kafka_msg) : Z :=
  foldl (fun t m => if t <? rkm_timestamp m then rkm_timestamp m else t) t l.

Lemma kwrote_msgq k0 d k q : kwrote k0 d k -> kwrote (set_rk_msgq q k0) d (set_rk_msgq q k).
Proof. intros [E X O I C]. split; try done. rewrite E. done. Qed.

Lemma msg_wire_2 base off attrs m : msg_wire 2 base off attrs m = record_bytes base off m.
Proof. done. Qed.

Section batching.
Context (conf : writer_conf).

(** Why the loop stopped with [l2] left: the message-count limit, the request
    size limit or the retry backoff of the next message. *)
Definition stopped (cmax cnt len : Z) (l2 : list rd_kafka_msg) : Prop :=
  match l2 with
  | [] => True
  | m :: _ => cnt = cmax \/ len + rd_kafka_msg_wire_size m 2 > max_msg_size conf \/ rkm_ts_backoff m > wc_now conf
  end.

Lemma wire_size_bounds rkm m : rkm_holds rkm m -> 0 <= rd_kafka_msg_wire_size rkm 2.
Proof.
  intros H. pose proof (msg_wire_size 2 0 0 0 rkm m H ltac:(lia) ltac:(lia)). lia.
Qed.

Lemma msgq_deq_head q m l :
  msgq_ok q -> rkmq_msgs q = m :: l ->
  exists q', rd_kafka_msgq_deq q m true = Ret q' /\ rkmq_msgs q' = l /\ msgq_ok q'.
Proof. intros Hq Hm. apply (msgq_deq_spec q [] m l); [done..|]. apply not_elem_of_nil. Qed.

(** The writer after taking [l1] off a queue that held [l1 ++ l2]. *)
Record took (k0 : rd_kafka_buf) (acc : list Z) (w : msgset_writer) (ms : list message) (cnt : Z)
    (l1 l2 : list rd_kafka_msg) (w' : msgset_writer) (rkmq' : rd_kafka_msgq) : Prop := mk_took {
  tk_left : rkmq_msgs rkmq' = l2;
  tk_ok : msgq_ok rkmq';
  tk_wrote : kwrote (set_rk_msgq (enq_all (rkbuf_msgq k0) l1) k0)
    (acc ++ records_bytes (msetw_firstmsg_timestamp w) (numbered cnt (take (length l1) ms))) (msetw_rkbuf w');
  tk_frame : exists kv, w' = set_w_sizes (msetw_messages_len w) kv (msetw_MessageSetSize w)
                               (set_w_rkbuf (msetw_rkbuf w') w);
  tk_stop : stopped (msetw_msgcntmax w) (cnt + zlen l1) (rbuf_len (rkbuf_buf (msetw_rkbuf w'))) l2;
  tk_size : l1 <> [] -> rbuf_len (rkbuf_buf (msetw_rkbuf w')) <= max_msg_size conf;
  tk_cnt : cnt <= msetw_msgcntmax w -> cnt + zlen l1 <= msetw_msgcntmax w }.

Lemma took_none k0 acc w ms cnt l rkmq :
  kwrote k0 acc (msetw_rkbuf w) -> rkmq_msgs rkmq = l -> msgq_ok rkmq ->
  stopped (msetw_msgcntmax w) cnt (rbuf_len (rkbuf_buf (msetw_rkbuf w))) l ->
  took k0 acc w ms cnt [] l w rkmq.
Proof.
  intros W Hq Hok Hs. split; try done.
  - simpl. change (records_bytes _ []) with (@nil Z). rewrite app_nil_r.
    by replace (set_rk_msgq (rkbuf_msgq k0) k0) with k0 by (by destruct k0).
  - exists (msetw_messages_kvlen w). by destruct w.
  - simpl. by rewrite Z.add_0_r.
  - simpl. lia.
Qed.

Lemma kwrote_same_msgq k d k' : kwrote k d k' -> rkbuf_msgq k' = rkbuf_msgq k.
Proof. intros W. by rewrite (kw_eq _ _ _ W). Qed.

(** One more message at the front. *)
Lemma took_cons k0 acc w m ms cnt rkm k2 kv l1 l2 w' rkmq' :
  let r := record_bytes (msetw_firstmsg_timestamp w) cnt m in
  let w2 := set_w_rkbuf k2 (set_w_sizes (msetw_messages_len w) kv (msetw_MessageSetSize w) w) in
  took (set_rk_msgq (enq_all (rkbuf_msgq k0) [rkm]) k0) (acc ++ r) w2 ms (cnt + 1) l1 l2 w' rkmq' ->
  cnt <> msetw_msgcntmax w -> rbuf_len (rkbuf_buf k2) <= max_msg_size conf ->
  kwrote (set_rk_msgq (enq_all (rkbuf_msgq k0) [rkm]) k0) (acc ++ r) k2 ->
  took k0 acc w (m :: ms) cnt (rkm :: l1) l2 w' rkmq'.
Proof.
  intros r w2 [T1 T2 T3 (kv' & T4) T5 T6 T7] Hne Hsz W2. split; try done.
  - rewrite <- app_assoc in T3. exact T3.
  - exists kv'. rewrite T4. done.
  - replace (cnt + zlen (rkm :: l1)) with (cnt + 1 + zlen l1) by (simpl; lia). done.
  - intros _. destruct l1; [|by apply T6]. rewrite (kwrote_len _ _ _ T3), length_app.
    rewrite (kwrote_len _ _ _ W2) in Hsz. simpl in *. lia.
  - intros Hc. replace (cnt + zlen (rkm :: l1)) with (cnt + 1 + zlen l1) by (simpl; lia).
    apply T7. simpl. lia.
Qed.

Lemma write_loop_spec fuel w rkmq rkm tl ms cnt mts k0 acc :
  rkmq_msgs rkmq = rkm :: tl -> msgq_ok rkmq -> Forall2 rkm_holds (rkm :: tl) ms ->
  (length (rkm :: tl) <= fuel)%nat -> kwrote k0 acc (msetw_rkbuf w) -> crc_flag k0 = false ->
  msetw_MsgVersion w = 2 -> 0 <= cnt -> cnt + zlen (rkm :: tl) < 2 ^ 31 -> max_msg_size conf < 2 ^ 31 ->
  exists l1 l2 w' rkmq',
    write_msgq_loop conf fuel w rkmq rkm (rbuf_len (rkbuf_buf (msetw_rkbuf w))) cnt mts =
      Ret (w', rkmq', max_ts mts l1) /\
    rkm :: tl = l1 ++ l2 /\ took k0 acc w ms cnt l1 l2 w' rkmq'.
Proof.
  revert w rkmq rkm tl ms cnt mts k0 acc.
  induction fuel as [|fuel IH]; intros w rkmq rkm tl ms cnt mts k0 acc Hq Hqok Hms Hf W Hfl Hv Hc Hn Hmax;
    [simpl in Hf; lia|].
  inversion Hms as [|? m ? ms' Hm Hms' E1 E2]; subst. pose proof (wire_size_bounds _ _ Hm) as Hw0.
  cbn [write_msgq_loop]. rewrite Hv, Z.gtb_ltb.
  destruct ((cnt =? msetw_msgcntmax w) || (max_msg_size conf <? rbuf_len (rkbuf_buf (msetw_rkbuf w)) +
              rd_kafka_msg_wire_size rkm 2)) eqn:Eb.
  { exists [], (rkm :: tl), w, rkmq. split; [done|]. split; [done|]. apply took_none; try done. simpl.
    apply orb_true_iff in Eb as [->%Z.eqb_eq|Eb%Z.ltb_lt]; [by left|]. right; left. lia. }
  apply orb_false_iff in Eb as [Ecnt%Z.eqb_neq Elen%Z.ltb_ge].
  rewrite Z.gtb_ltb. destruct (Z.ltb_spec (wc_now conf) (rkm_ts_backoff rkm)).
  { exists [], (rkm :: tl), w, rkmq. split; [done|]. split; [done|]. apply took_none; try done. simpl.
    right; right. lia. }
  destruct (msgq_deq_head rkmq rkm tl Hqok Hq) as (q1 & -> & Hq1 & Hok1). cbn [obind].
  set (k1 := set_rk_msgq (rd_kafka_msgq_enq (rkbuf_msgq (msetw_rkbuf w)) rkm).1 (msetw_rkbuf w)).
  set (w1 := set_w_sizes _ _ _ (set_w_rkbuf k1 w)).
  assert (W1 : kwrote (set_rk_msgq (enq_all (rkbuf_msgq k0) [rkm]) k0) acc k1).
  { unfold k1. rewrite (kwrote_same_msgq _ _ _ W). by apply kwrote_msgq. }
  destruct (write_msg_spec conf _ acc w1 rkm m cnt 0 None W1 Hfl Hm ltac:(simpl in Hn; lia)
              ltac:(simpl; lia)) as (k2 & Hwm & W2).
  { change (rbuf_len (rkbuf_buf (msetw_rkbuf w)) < 2 ^ 62). lia. }
  rewrite Hwm. cbn [obind]. clear Hwm. set (w2 := set_w_rkbuf k2 w1) in *.
  change (msetw_MsgVersion w1) with (msetw_MsgVersion w) in *.
  change (msetw_firstmsg_timestamp w1) with (msetw_firstmsg_timestamp w) in *.
  rewrite Hv, msg_wire_2 in *. set (r := record_bytes _ _ _) in *.
  assert (Hlen2 : rbuf_len (rkbuf_buf k2) = rbuf_len (rkbuf_buf (msetw_rkbuf w)) + zlen r).
  { rewrite (kwrote_len _ _ _ W2), (kwrote_len _ _ _ W), length_app. simpl. lia. }
  assert (Hsz : rbuf_len (rkbuf_buf k2) <= max_msg_size conf).
  { pose proof (msg_wire_size 2 (msetw_firstmsg_timestamp w) cnt 0 rkm m Hm ltac:(simpl in Hn; lia) ltac:(lia)) as Hs.
    rewrite msg_wire_2 in Hs. fold r in Hs. lia. }
  rewrite Hq1. destruct tl as [|rkm2 tl]; cbn [head].
  - exists [rkm], [], w2, q1. split; [done|]. split; [done|].
    apply (took_cons k0 acc w m ms' cnt rkm k2 (msetw_messages_kvlen w + (rkm_len rkm + rkm_key_len rkm)) [] [] w2 q1); try done.
    apply took_none; done.
  - rewrite <- Hlen2. destruct (IH w2 q1 rkm2 tl ms' (cnt + 1) (max_ts mts [rkm]) _ _ Hq1 Hok1 Hms'
      ltac:(simpl in *; lia) W2 Hfl Hv ltac:(lia) ltac:(simpl in *; lia) Hmax)
      as (l1 & l2 & w' & rkmq' & Hl & Happ & T).
    exists (rkm :: l1), l2, w', rkmq'. split; [exact Hl|]. split; [by rewrite Happ|].
    by apply (took_cons k0 acc w m ms' cnt rkm k2
      (msetw_messages_kvlen w + (rkm_len rkm + rkm_key_len rkm)) l1 l2 w' rkmq').
Qed.
End batching.

(** ** The request header *)

Definition kstr_ok (s : rd_kafkap_str) : Prop :=
  RD_KAFKAP_STR_SIZE s = zlen (RD_KAFKAP_STR_SER s) /\ zlen (RD_KAFKAP_STR_SER s) < 2 ^ 31.

Section request.
Context (conf : writer_conf).
Context (Hclient : kstr_ok (wc_client_id conf)) (Htrans : kstr_ok (TransactionalId conf))
  (Htopic : kstr_ok (wc_topic conf)).

(** The request header is a placeholder until the request is sent. *)
Definition request_header : list Z :=
  be_enc 4 0 ++ be_enc 2 RD_KAFKAP_Produce ++ be_enc 2 0 ++ be_enc 4 0 ++ RD_KAFKAP_STR_SER (wc_client_id conf).

Definition produce_header : list Z :=
  RD_KAFKAP_STR_SER (TransactionalId conf) ++ be_enc 2 (required_acks conf) ++
  be_enc 4 (request_timeout_ms conf) ++ be_enc 4 1 ++ RD_KAFKAP_STR_SER (wc_topic conf) ++ be_enc 4 1 ++
  be_enc 4 (wc_partition conf).

(** The MessageSet header before it is finalised. *)
Definition blank_header : list Z :=
  be_enc 8 0 ++ be_enc 4 0 ++ be_enc 4 0 ++ be_enc 1 2 ++ be_enc 4 0 ++ be_enc 2 0 ++ be_enc 4 0 ++
  be_enc 8 0 ++ be_enc 8 0 ++ be_enc 8 (wc_PID conf) ++ be_enc 2 (wc_ProducerEpoch conf) ++
  be_enc 4 (-1) ++ be_enc 4 0.

Lemma blank_header_len : zlen blank_header = 61.
Proof. unfold blank_header. rewrite !length_app, !be_enc_length. done. Qed.

Lemma kw_kstr k0 acc k str :
  kwrote k0 acc k -> kstr_ok str ->
  exists k', rd_kafka_buf_write_kstr k str = Ret (k', rbuf_len (rkbuf_buf k0) + zlen acc) /\
             kwrote k0 (acc ++ RD_KAFKAP_STR_SER str) k'.
Proof. intros W [Hs Hl]. apply kw_write; [done|done|lia]. Qed.

Lemma new_request_spec timeout segcnt size :
  0 <= segcnt ->
  exists k, rd_kafka_buf_new_request (wc_client_id conf) timeout RD_KAFKAP_Produce segcnt size = Ret k /\
    kbuf_ok k /\ crc_flag k = false /\ contents (rkbuf_buf k) = request_header /\
    rkbuf_msgq k = rd_kafka_msgq_init.
Proof.
  intros Hs. unfold rd_kafka_buf_new_request. set (size' := size + _).
  destruct (kbuf_new0_ok (segcnt + 1) size') as (k & -> & Hk & Hf & Hc & Hq); [lia|]. cbn [obind].
  set (k0 := mk_rkbuf _ _ _ _ _ _ _ _ _ _ _ _ _).
  assert (W : kwrote k0 [] k0) by (by apply kwrote_refl).
  kw_step W kw_i32. kw_step W kw_i16. kw_step W kw_i16. kw_step W kw_i32.
  kw_step W kw_kstr; [done|]. eexists. split; [reflexivity|]. split_and!.
  - by apply (kwrote_ok _ _ _ W).
  - rewrite (kwrote_flag _ _ _ W). exact Hf.
  - rewrite (kw_contents _ _ _ W). change (contents (rkbuf_buf k0)) with (contents (rkbuf_buf k)).
    rewrite Hc. unfold request_header. by rewrite <- !app_assoc, !app_nil_l.
  - by rewrite (kwrote_same_msgq _ _ _ W).
Qed.

Lemma alloc_buf_spec w qb :
  msetw_ApiVersion w = 3 -> msetw_MsgVersion w = 2 -> 0 <= msetw_msgcntmax w ->
  exists k, rd_kafka_msgset_writer_alloc_buf conf w qb = Ret (set_w_rkbuf k w) /\
    kbuf_ok k /\ crc_flag k = false /\ contents (rkbuf_buf k) = request_header /\
    rkbuf_msgq k = rd_kafka_msgq_init.
Proof.
  intros Ha Hm Hc. unfold rd_kafka_msgset_writer_alloc_buf.
  assert (Hb : exists size, msetw_bufsize conf w qb = Ret size).
  { unfold msetw_bufsize. rewrite Ha, Hm. eexists. reflexivity. }
  destruct Hb as (size & ->). cbn [obind].
  destruct (new_request_spec (wc_socket_timeout_ms conf) (Z.quot (msetw_msgcntmax w) 2 + 10) size)
    as (k & -> & Hk & Hf & Hcn & Hq).
  { pose proof (Z.quot_pos (msetw_msgcntmax w) 2 ltac:(lia) ltac:(lia)). lia. }
  cbn [obind]. eexists. split; [reflexivity|]. by split_and!.
Qed.

(** The writer once the headers are written. *)
Record opened (w : msgset_writer) (k0 : rd_kafka_buf) (cmax : Z) : Prop := mk_opened {
  op_ok : kbuf_ok k0;
  op_flag : crc_flag k0 = false;
  op_contents : contents (rkbuf_buf k0) = request_header;
  op_msgq : rkbuf_msgq k0 = rd_kafka_msgq_init;
  op_wrote : kwrote k0 (produce_header ++ be_enc 4 0 ++ blank_header) (msetw_rkbuf w);
  op_api : msetw_ApiVersion w = 3;
  op_ver : msetw_MsgVersion w = 2;
  op_max : msetw_msgcntmax w = cmax;
  op_attrs : msetw_Attributes w = 0;
  op_size : msetw_of_MessageSetSize w = zlen request_header + zlen produce_header;
  op_start : msetw_of_start w = zlen request_header + zlen produce_header + 4;
  op_crc : msetw_of_CRC w = zlen request_header + zlen produce_header + 4 + 17;
  op_first : msetw_firstmsg_of w = zlen request_header + zlen produce_header + 4 + 61 }.

Lemma v2_header_spec k0 acc w :
  kwrote k0 acc (msetw_rkbuf w) -> msetw_ApiVersion w = 3 -> msetw_MsgVersion w = 2 ->
  exists k, rd_kafka_msgset_writer_write_MessageSet_v2_header conf w =
      Ret (set_w_offsets (msetw_of_MessageSetSize w) (rbuf_len (rkbuf_buf k0) + zlen acc)
             (rbuf_len (rkbuf_buf k0) + zlen acc + 17) (msetw_firstmsg_of w) (set_w_rkbuf k w)) /\
    kwrote k0 (acc ++ blank_header) k.
Proof.
  intros W Ha Hm. unfold rd_kafka_msgset_writer_write_MessageSet_v2_header. rewrite Ha, Hm.
  change (3 >=? 3) with true. change (2 =? 2) with true. cbv iota.
  kw_step W kw_i64. kw_step W kw_i32. kw_step W kw_i32. kw_step W kw_i8. kw_step W kw_i32.
  kw_step W kw_i16. kw_step W kw_i32. kw_step W kw_i64. kw_step W kw_i64. kw_step W kw_i64.
  kw_step W kw_i16. kw_step W kw_i32. kw_step W kw_i32.
  rewrite <- !app_assoc in W. eexists. split; [|exact W]. do 2 f_equal.
  rewrite !length_app, !be_enc_length. lia.
Qed.

Lemma Produce_header_spec k0 w :
  kwrote k0 [] (msetw_rkbuf w) -> msetw_ApiVersion w = 3 -> msetw_MsgVersion w = 2 ->
  exists k size, rd_kafka_msgset_writer_write_Produce_header conf w =
      Ret (set_w_sizes (msetw_messages_len w) (msetw_messages_kvlen w) size
             (set_w_offsets (rbuf_len (rkbuf_buf k0) + zlen produce_header)
                (rbuf_len (rkbuf_buf k0) + zlen produce_header + 4)
                (rbuf_len (rkbuf_buf k0) + zlen produce_header + 4 + 17) (msetw_firstmsg_of w)
                (set_w_rkbuf k w))) /\
    kwrote k0 (produce_header ++ be_enc 4 0 ++ blank_header) k.
Proof.
  intros W Ha Hm. unfold rd_kafka_msgset_writer_write_Produce_header. rewrite Ha.
  change (3 =? 3) with true. cbv iota.
  kw_step W kw_kstr; [done|]. kw_step W kw_i16. kw_step W kw_i32. kw_step W kw_i32.
  kw_step W kw_kstr; [done|]. kw_step W kw_i32. kw_step W kw_i32.
  rewrite <- !app_assoc, app_nil_l in W. fold produce_header in W.
  kw_step W kw_i32. set (w1 := set_w_offsets _ _ _ _ _).
  change (msetw_MsgVersion w1) with (msetw_MsgVersion w). rewrite Hm. change (2 =? 2) with true. cbv iota.
  destruct (v2_header_spec k0 (produce_header ++ be_enc 4 0) w1 W Ha Hm) as (kh & -> & W2). cbn [obind].
  rewrite <- app_assoc in W2. eexists _, _. split; [|exact W2].
  rewrite !length_app, be_enc_length, !Nat2Z.inj_add, !Z.add_assoc. reflexivity.
Qed.

Context (Hfeat : Z.land (rkb_features conf) RD_KAFKA_FEATURE_MSGVER2 <> 0).

Lemma init_spec q :
  rkmq_msg_cnt q <> 0 -> 0 <= Z.min (rkmq_msg_cnt q) (batch_num_messages conf) ->
  exists w k0, rd_kafka_msgset_writer_init conf q = Ret (Some w) /\
    opened w k0 (Z.min (rkmq_msg_cnt q) (batch_num_messages conf)).
Proof.
  intros Hq Hc. unfold rd_kafka_msgset_writer_init. destruct (Z.eqb_spec (rkmq_msg_cnt q) 0); [done|].
  destruct (kbuf_new0_ok 1 0 ltac:(lia)) as (kz & -> & _). cbn [obind].
  unfold rd_kafka_msgset_writer_select_MsgVersion.
  destruct (Z.eqb_spec (Z.land (rkb_features conf) RD_KAFKA_FEATURE_MSGVER2) 0); [done|]. cbn [negb].
  match goal with |- context [rd_kafka_msgset_writer_alloc_buf conf ?w _] => set (w0 := w) end.
  destruct (alloc_buf_spec w0 (rd_kafka_msgq_size q) eq_refl eq_refl Hc) as (k0 & -> & Hk & Hf & Hcn & Hmq).
  cbn [obind]. set (w1 := set_w_rkbuf k0 w0).
  destruct (Produce_header_spec k0 w1 (kwrote_refl k0 Hk) eq_refl eq_refl) as (k & size & -> & W).
  cbn [obind]. match goal with |- context [rd_buf_write_pos (rkbuf_buf (msetw_rkbuf ?x))] =>
    change (msetw_rkbuf x) with k end.
  rewrite (inv_write_pos _ (kw_inv _ _ _ W)). cbn [obind].
  assert (Hl : rbuf_len (rkbuf_buf k0) = zlen request_header) by (rewrite <- (inv_zlen _ (proj1 Hk)), Hcn; done).
  eexists _, k0. split; [reflexivity|]. split; try done; cbn [msetw_of_MessageSetSize msetw_of_start msetw_of_CRC
    msetw_firstmsg_of set_w_offsets set_w_sizes set_w_rkbuf]; try (rewrite Hl; done).
  rewrite (kwrote_len _ _ _ W), Hl, !length_app, be_enc_length, !Nat2Z.inj_add, blank_header_len. lia.
Qed.
End request.
