(* ===== verification/FinalizeSpec.v ===== *)
(** * Finalised Produce requests

    The placeholders of the MessageSet header are filled in and the request
    holds exactly the wire format of the MessageSet ([batch_bytes]). *)
From Stdlib Require Import ZArith Lia.
From stdpp Require Import base numbers list.
From S2P Require Import Prelude Varint Buf BufFacts BufSeek BufSpec Slice SliceFacts CrcTheory Crc.
From S2P Require Import Reader Crc32c RdList RdListSpec Proto Header Msg MsgqSpec KBuf KBufFacts.
From S2P Require Import Queue MsgsetReader KBufWrite MsgsetWriter WriterSpec ReaderSpec BatchSpec.
From S2P Require Import ProduceSpec.

Strategy 1000 [varint_bytes be_enc record_body record_bytes records_bytes].

(** ** Updating a field in place *)

Lemma kw_field len k0 d d' a n x v c k pos :
  len = Z.of_nat n -> kwrote k0 d k -> d = a ++ be_enc n x ++ c -> d' = a ++ be_enc n v ++ c -> crc_flag k0 = false ->
  (0 < n)%nat -> pos = rbuf_len (rkbuf_buf k0) + zlen a -> rbuf_len (rkbuf_buf k) < 2 ^ 62 ->
  exists k', rd_kafka_buf_update k pos (be_enc n v) len = Ret k' /\ kwrote k0 d' k' /\
    rbuf_len (rkbuf_buf k') = rbuf_len (rkbuf_buf k).
Proof.
  intros -> W -> -> Hf Hn Hp Hl. apply (kw_update k0 a (be_enc n x) (be_enc n v) c); try done;
    rewrite ?be_enc_length; try done; lia.
Qed.

Section header.
Context (conf : writer_conf).

(** The MessageSet header with the fields that are filled in last. *)
Definition v2_bytes (len crc attrs lod bts mts cnt : Z) : list Z :=
  be_enc 8 0 ++ be_enc 4 len ++ be_enc 4 0 ++ be_enc 1 2 ++ be_enc 4 crc ++ be_enc 2 attrs ++ be_enc 4 lod ++
  be_enc 8 bts ++ be_enc 8 mts ++ be_enc 8 (wc_PID conf) ++ be_enc 2 (wc_ProducerEpoch conf) ++
  be_enc 4 (-1) ++ be_enc 4 cnt.

Lemma blank_v2 : blank_header conf = v2_bytes 0 0 0 0 0 0 0.
Proof. done. Qed.

(** The MessageSet of a request. *)
Definition request_batch (attrs bts mts : Z) (ms : list message) : batch :=
  mk_batch 0 0 attrs (zlen ms - 1) bts mts (wc_PID conf) (wc_ProducerEpoch conf) (-1) (numbered 0 ms).

Lemma numbered_length i l : length (numbered i l) = length l.
Proof. revert i; induction l as [|m l IH]; intros i; simpl; [done|by rewrite IH]. Qed.

Lemma request_batch_bytes attrs bts mts ms :
  let b := request_batch attrs bts mts ms in
  batch_bytes b = v2_bytes (batch_Length b) (batch_Crc b) attrs (zlen ms - 1) bts mts (zlen ms)
                  ++ records_bytes bts (numbered 0 ms).
Proof.
  intros b. unfold batch_bytes, v2_bytes, batch_covered, batch_fields, batch_payload.
  cbn [b_BaseOffset b_PartitionLeaderEpoch b_Attributes b_LastOffsetDelta b_BaseTimestamp b_MaxTimestamp
       b_PID b_ProducerEpoch b_BaseSequence b_records request_batch b].
  by rewrite numbered_length, <- !app_assoc.
Qed.

(** *** Bytes *)

Definition message_bytes_ok (m : message) : Prop :=
  bytes_ok (opt_data (m_key m)) /\ bytes_ok (opt_data (m_value m)) /\ bytes_ok (m_headers m ≫= header_bytes).

Lemma record_bytes_ok base off m : message_bytes_ok m -> bytes_ok (record_bytes base off m).
Proof.
  intros (Hk & Hv & Hh). unfold record_bytes, record_body.
  rewrite !Forall_app. split_and!; try done; try apply varint_bytes_ok; apply be_enc_ok.
Qed.

Lemma records_bytes_ok base i ms : Forall message_bytes_ok ms -> bytes_ok (records_bytes base (numbered i ms)).
Proof.
  intros H. revert i; induction H as [|m ms Hm H IH]; intros i; [by constructor|].
  simpl numbered. rewrite records_bytes_cons. apply Forall_app. split; [by apply record_bytes_ok|apply IH].
Qed.

Lemma v2_bytes_ok len crc attrs lod bts mts cnt : bytes_ok (v2_bytes len crc attrs lod bts mts cnt).
Proof. unfold v2_bytes. rewrite !Forall_app. split_and!; apply be_enc_ok. Qed.

Context (Hser : bytes_ok (request_header conf ++ produce_header conf)).

(** ** The header of a MessageSet *)

Section finalize.
Context (k0 : rd_kafka_buf) (ms : list message) (bts mts : Z).
Context (Hf : crc_flag k0 = false) (Hc0 : contents (rkbuf_buf k0) = request_header conf).
Context (Hms : Forall message_bytes_ok ms).

Let R := zlen (request_header conf).
Let ph := produce_header conf.
Let recs := records_bytes bts (numbered 0 ms).
Let msgset len crc attrs lod bts' mts' cnt size :=
  ph ++ be_enc 4 size ++ v2_bytes len crc attrs lod bts' mts' cnt ++ recs.

Lemma len0 d k : kwrote k0 d k -> rbuf_len (rkbuf_buf k0) = R.
Proof. intros W. rewrite <- (inv_zlen _ (proj1 (kw_ok _ _ _ W))), Hc0. done. Qed.

Lemma covered_eq attrs :
  batch_covered (request_batch attrs bts mts ms) =
  be_enc 2 attrs ++ be_enc 4 (zlen ms - 1) ++ be_enc 8 bts ++ be_enc 8 mts ++ be_enc 8 (wc_PID conf) ++
  be_enc 2 (wc_ProducerEpoch conf) ++ be_enc 4 (-1) ++ be_enc 4 (zlen ms) ++ recs.
Proof.
  unfold batch_covered, batch_fields, batch_payload.
  cbn [b_Attributes b_LastOffsetDelta b_BaseTimestamp b_MaxTimestamp b_PID b_ProducerEpoch b_BaseSequence
       b_records request_batch].
  by rewrite numbered_length, <- !app_assoc.
Qed.

(** The checksum is computed over the right bytes and stored. *)
Lemma calc_crc_spec w len attrs size :
  let b := request_batch attrs bts mts ms in
  kwrote k0 (msgset len 0 attrs (zlen ms - 1) bts mts (zlen ms) size) (msetw_rkbuf w) ->
  msetw_of_CRC w = R + zlen ph + 4 + 17 -> rbuf_len (rkbuf_buf (msetw_rkbuf w)) < 2 ^ 62 ->
  exists k, rd_kafka_msgset_writer_calc_crc_v2 conf w = Ret (set_w_rkbuf k w) /\
    kwrote k0 (msgset len (batch_Crc b) attrs (zlen ms - 1) bts mts (zlen ms) size) k /\
    rbuf_len (rkbuf_buf k) = rbuf_len (rkbuf_buf (msetw_rkbuf w)).
Proof.
  intros b W Hof Hlen. unfold rd_kafka_msgset_writer_calc_crc_v2.
  rewrite (inv_write_pos _ (kw_inv _ _ _ W)). cbn [obind].
  set (pre := ph ++ be_enc 4 size ++ be_enc 8 0 ++ be_enc 4 len ++ be_enc 4 0 ++ be_enc 1 2).
  assert (Hsplit : forall crc, msgset len crc attrs (zlen ms - 1) bts mts (zlen ms) size =
    pre ++ be_enc 4 crc ++ batch_covered b).
  { intros crc. unfold msgset, pre, v2_bytes, b. rewrite covered_eq. by rewrite <- !app_assoc. }
  assert (Hpre : zlen pre = zlen ph + 4 + 17) by (unfold pre; rewrite !length_app, !be_enc_length; lia).
  pose proof (len0 _ _ W) as H0. pose proof (kwrote_len _ _ _ W) as Hl. rewrite Hsplit in W, Hl.
  rewrite !length_app, be_enc_length, H0 in Hl.
  pose proof (kw_contents _ _ _ W) as Hc. rewrite Hc0 in Hc.
  set (bf := rkbuf_buf (msetw_rkbuf w)) in *. pose proof (batch_covered_len b) as Hcl.
  assert (RW : read_wf bf).
  { destruct (kw_inv _ _ _ W) as [(E1 & _)|(p & s & V & _)]; [|by eapply view_read_wf].
    fold bf in E1. unfold contents in Hc. rewrite E1 in Hc. apply (f_equal length) in Hc.
    rewrite !length_app, be_enc_length in Hc. simpl in Hc. lia. }
  assert (Hby : bytes_ok (contents bf)).
  { rewrite Hc. apply Forall_app in Hser as [S1 S2]. apply Forall_app. split; [done|].
    rewrite <- Hsplit. unfold msgset. rewrite !Forall_app. split_and!; try done.
    - apply be_enc_ok.
    - apply v2_bytes_ok.
    - by apply records_bytes_ok. }
  pose proof (slice_init_spec bf (msetw_of_CRC w + 4) (rbuf_len bf - msetw_of_CRC w - 4) RW ltac:(lia)
                ltac:(lia) ltac:(lia)) as Hi.
  destruct (Z.ltb_spec (msetw_of_CRC w + 4) (rbuf_len bf)); [|lia].
  destruct (Z.leb_spec (msetw_of_CRC w + 4 + (rbuf_len bf - msetw_of_CRC w - 4)) (rbuf_len bf)); [|lia].
  destruct Hi as (sl & -> & S & _ & He). cbn [obind].
  destruct (slice_crc32c_spec (wc_addr_of conf) bf RW ltac:(lia) Hby sl _ S) as (sl' & -> & _). cbn [obind].
  assert (Hcov : bytes_at bf (msetw_of_CRC w + 4) (sl_end sl - (msetw_of_CRC w + 4)) = batch_covered b).
  { unfold bytes_at. rewrite Hc, He. rewrite 2!app_assoc. rewrite zdrop_app.
    - replace (_ - _) with (zlen (batch_covered b)) by lia. apply ztake_all.
    - rewrite !length_app, be_enc_length. lia. }
  rewrite Hcov. change (s32 (crc32c_ref 0 (batch_covered b))) with (batch_Crc b).
  destruct (kw_field 4 k0 _ (pre ++ be_enc 4 (batch_Crc b) ++ batch_covered b) pre 4 0 (batch_Crc b)
    (batch_covered b) (msetw_rkbuf w) (msetw_of_CRC w) eq_refl W eq_refl eq_refl Hf ltac:(lia) ltac:(lia) Hlen)
    as (k & Hk & Wk & Hkl).
  unfold rd_kafka_buf_update_i32. rewrite Hk. cbn [obind].
  exists k. split; [done|]. rewrite Hsplit. done.
Qed.

Section fields.
Context (len crc attrs lod bts' mts' cnt size : Z) (k : rd_kafka_buf).
Context (W : kwrote k0 (msgset len crc attrs lod bts' mts' cnt size) k).
Context (Hl : rbuf_len (rkbuf_buf k) < 2 ^ 62).

Let PID := be_enc 8 (wc_PID conf) ++ be_enc 2 (wc_ProducerEpoch conf) ++ be_enc 4 (-1).

Let pre := ph ++ be_enc 4 size ++ be_enc 8 0 ++ be_enc 4 len ++ be_enc 4 0 ++ be_enc 1 2 ++ be_enc 4 crc.

(** The fields of the MessageSet header, one by one: [field_at a c] splits the
    request around the field. *)
Ltac field_at W a c :=
  eapply (kw_field _ k0 _ _ a _ _ _ c);
    [reflexivity|exact W|unfold msgset, v2_bytes, pre, PID; rewrite <- !app_assoc; reflexivity..|exact Hf|lia| |lia];
  rewrite (len0 _ _ W); unfold pre, PID; rewrite ?length_app, ?be_enc_length; lia.

Lemma set_MessageSetSize v :
  exists k', rd_kafka_buf_update_i32 k (R + zlen ph) v = Ret k' /\
    kwrote k0 (msgset len crc attrs lod bts' mts' cnt v) k' /\ rbuf_len (rkbuf_buf k') = rbuf_len (rkbuf_buf k).
Proof. field_at W ph (v2_bytes len crc attrs lod bts' mts' cnt ++ recs). Qed.

Lemma set_Length v :
  exists k', rd_kafka_buf_update_i32 k (R + zlen ph + 4 + 8) v = Ret k' /\
    kwrote k0 (msgset v crc attrs lod bts' mts' cnt size) k' /\ rbuf_len (rkbuf_buf k') = rbuf_len (rkbuf_buf k).
Proof.
  field_at W (ph ++ be_enc 4 size ++ be_enc 8 0)
    (be_enc 4 0 ++ be_enc 1 2 ++ be_enc 4 crc ++ be_enc 2 attrs ++ be_enc 4 lod ++ be_enc 8 bts' ++
     be_enc 8 mts' ++ PID ++ be_enc 4 cnt ++ recs).
Qed.


Lemma set_Attributes v :
  exists k', rd_kafka_buf_update_i16 k (R + zlen ph + 4 + 21) v = Ret k' /\
    kwrote k0 (msgset len crc v lod bts' mts' cnt size) k' /\ rbuf_len (rkbuf_buf k') = rbuf_len (rkbuf_buf k).
Proof. field_at W pre (be_enc 4 lod ++ be_enc 8 bts' ++ be_enc 8 mts' ++ PID ++ be_enc 4 cnt ++ recs). Qed.

Lemma set_LastOffsetDelta v :
  exists k', rd_kafka_buf_update_i32 k (R + zlen ph + 4 + 23) v = Ret k' /\
    kwrote k0 (msgset len crc attrs v bts' mts' cnt size) k' /\ rbuf_len (rkbuf_buf k') = rbuf_len (rkbuf_buf k).
Proof.
  field_at W (pre ++ be_enc 2 attrs) (be_enc 8 bts' ++ be_enc 8 mts' ++ PID ++ be_enc 4 cnt ++ recs).
Qed.

Lemma set_BaseTimestamp v :
  exists k', rd_kafka_buf_update_i64 k (R + zlen ph + 4 + 27) v = Ret k' /\
    kwrote k0 (msgset len crc attrs lod v mts' cnt size) k' /\ rbuf_len (rkbuf_buf k') = rbuf_len (rkbuf_buf k).
Proof.
  field_at W (pre ++ be_enc 2 attrs ++ be_enc 4 lod) (be_enc 8 mts' ++ PID ++ be_enc 4 cnt ++ recs).
Qed.

Lemma set_MaxTimestamp v :
  exists k', rd_kafka_buf_update_i64 k (R + zlen ph + 4 + 35) v = Ret k' /\
    kwrote k0 (msgset len crc attrs lod bts' v cnt size) k' /\ rbuf_len (rkbuf_buf k') = rbuf_len (rkbuf_buf k).
Proof.
  field_at W (pre ++ be_enc 2 attrs ++ be_enc 4 lod ++ be_enc 8 bts') (PID ++ be_enc 4 cnt ++ recs).
Qed.

Lemma set_RecordCount v :
  exists k', rd_kafka_buf_update_i32 k (R + zlen ph + 4 + 57) v = Ret k' /\
    kwrote k0 (msgset len crc attrs lod bts' mts' v size) k' /\ rbuf_len (rkbuf_buf k') = rbuf_len (rkbuf_buf k).
Proof.
  field_at W (pre ++ be_enc 2 attrs ++ be_enc 4 lod ++ be_enc 8 bts' ++ be_enc 8 mts' ++ PID) recs.
Qed.
End fields.

Lemma finalize_v2_spec w size :
  let b := request_batch 0 bts mts ms in
  kwrote k0 (msgset 0 0 0 0 0 0 0 size) (msetw_rkbuf w) ->
  rkmq_msg_cnt (rkbuf_msgq k0) = zlen ms -> 0 < zlen ms -> zlen ms < 2 ^ 31 ->
  msetw_ApiVersion w = 3 -> msetw_Attributes w = 0 -> msetw_firstmsg_timestamp w = bts ->
  msetw_MaxTimestamp w = mts -> msetw_messages_len w = zlen recs -> batch_Length b + 12 < 2 ^ 31 ->
  msetw_of_start w = R + zlen ph + 4 -> msetw_of_CRC w = R + zlen ph + 4 + 17 ->
  rbuf_len (rkbuf_buf (msetw_rkbuf w)) < 2 ^ 62 ->
  exists k, rd_kafka_msgset_writer_finalize_MessageSet_v2_header conf w =
      Ret (set_w_rkbuf k (set_w_sizes (zlen recs) (msetw_messages_kvlen w) (61 + zlen recs) w)) /\
    kwrote k0 (ph ++ be_enc 4 size ++ batch_bytes b) k /\
    rbuf_len (rkbuf_buf k) = rbuf_len (rkbuf_buf (msetw_rkbuf w)).
Proof.
  intros b W Hcnt Hpos Hlt Hapi Hat Hfts Hmax Hml HbL Hst Hcrc Hlen.
  unfold rd_kafka_msgset_writer_finalize_MessageSet_v2_header.
  unfold rd_kafka_msgq_len. rewrite (kwrote_same_msgq _ _ _ W), Hcnt, Hapi, Hat, Hfts, Hmax, Hml, Hst.
  rewrite Z.gtb_ltb. destruct (Z.ltb_spec 0 (zlen ms)); [|lia]. change (3 >=? 3) with true. cbv iota.
  pose proof (len0 _ _ W) as H0.
  change RD_KAFKAP_MSGSET_V2_SIZE with 61. change (Z.lor 0 RD_KAFKA_MSG_ATTR_CREATE_TIME) with 0.
  change (s16 0) with 0.
  assert (EL : s32 (s32 (61 + zlen recs) - (8 + 4)) = batch_Length b).
  { unfold batch_Length, b, batch_payload in *.
    cbn [b_BaseTimestamp b_records request_batch] in *. fold recs in HbL |- *.
    rewrite (swrap_id 32 (61 + _)) by (unfold s_ok; lia). rewrite swrap_id by (unfold s_ok; lia). lia. }
  rewrite EL. clear EL.
  change RD_KAFKAP_MSGSET_V2_OF_Length with 8. change RD_KAFKAP_MSGSET_V2_OF_Attributes with 21.
  change RD_KAFKAP_MSGSET_V2_OF_LastOffsetDelta with 23. change RD_KAFKAP_MSGSET_V2_OF_BaseTimestamp with 27.
  change RD_KAFKAP_MSGSET_V2_OF_MaxTimestamp with 35. change RD_KAFKAP_MSGSET_V2_OF_RecordCount with 57.
  edestruct set_Length as (k1 & -> & W1 & L1); [exact W|lia|]. cbn [obind].
  edestruct set_Attributes as (k2 & -> & W2 & L2); [exact W1|lia|]. cbn [obind].
  edestruct set_LastOffsetDelta as (k3 & -> & W3 & L3); [exact W2|lia|]. cbn [obind].
  edestruct set_BaseTimestamp as (k4 & -> & W4 & L4); [exact W3|lia|]. cbn [obind].
  edestruct set_MaxTimestamp as (k5 & -> & W5 & L5); [exact W4|lia|]. cbn [obind].
  edestruct set_RecordCount as (k6 & -> & W6 & L6); [exact W5|lia|]. cbn [obind].
  set (w1 := set_w_attrs _ _ _ _).
  destruct (calc_crc_spec w1 _ 0 size W6 Hcrc ltac:(simpl; lia)) as (k7 & -> & W7 & L7).
  exists k7. split_and!.
  - unfold w1, set_w_rkbuf, set_w_attrs, set_w_sizes. simpl. by rewrite Hat, Hmax, Hfts.
  - unfold b. rewrite request_batch_bytes. exact W7.
  - rewrite L7. simpl. lia.
Qed.
End finalize.

(** ** The whole request *)

Lemma enq_all_spec q l : rkmq_msgs (enq_all q l) = rkmq_msgs q ++ l /\ rkmq_msg_cnt (enq_all q l) = rkmq_msg_cnt q + zlen l.
Proof.
  revert q; induction l as [|m l IH]; intros q.
  - simpl. rewrite app_nil_r. split; [done|lia].
  - change (enq_all q (m :: l)) with (enq_all (rd_kafka_msgq_enq q m).1 l).
    destruct (IH (rd_kafka_msgq_enq q m).1) as [-> ->]. simpl. rewrite <- app_assoc. split; [done|lia].
Qed.

Lemma finalize_spec w k0 k1 ms bts mts :
  let b := request_batch 0 bts mts ms in
  opened conf w k0 (msetw_msgcntmax w) ->
  kwrote (set_rk_msgq (rkbuf_msgq k1) k0)
    (produce_header conf ++ be_enc 4 0 ++ blank_header conf ++ records_bytes bts (numbered 0 ms)) k1 ->
  rkmq_msg_cnt (rkbuf_msgq k1) = zlen ms -> 0 < zlen ms < 2 ^ 31 -> Forall message_bytes_ok ms ->
  compression_codec conf = 0 -> max_msg_size conf < 2 ^ 31 - 12 -> rbuf_len (rkbuf_buf k1) <= max_msg_size conf ->
  exists k, rd_kafka_msgset_writer_finalize conf (set_w_attrs 0 mts bts (set_w_rkbuf k1 w)) =
      Ret (Some (k, zlen (batch_bytes b))) /\
    kwrote (set_rk_msgq (rkbuf_msgq k1) k0)
      (produce_header conf ++ be_enc 4 (zlen (batch_bytes b)) ++ batch_bytes b) k /\
    rbuf_len (rkbuf_buf k) = rbuf_len (rkbuf_buf k1).
Proof.
  intros b O W Hcnt Hpos Hby Hcodec Hmax Hlen. destruct O as [O1 O2 O3 O4 O5 O6 O7 O8 O9 Oa Ob Oc Od].
  unfold rd_kafka_msgset_writer_finalize. set (w1 := set_w_attrs _ _ _ _).
  change (msetw_rkbuf w1) with k1. unfold rd_kafka_msgq_len. rewrite Hcnt.
  destruct (Z.eqb_spec (zlen ms) 0); [lia|]. rewrite (inv_write_pos _ (kw_inv _ _ _ W)). cbn [obind].
  set (recs := records_bytes bts (numbered 0 ms)) in *.
  assert (H0 : rbuf_len (rkbuf_buf k0) = zlen (request_header conf)) by (rewrite <- (inv_zlen _ (proj1 O1)), O3; done).
  pose proof (kwrote_len _ _ _ W) as Hl. rewrite !length_app, be_enc_length in Hl.
  pose proof (blank_header_len conf) as Hb61.
  change (rbuf_len (rkbuf_buf (set_rk_msgq (rkbuf_msgq k1) k0))) with (rbuf_len (rkbuf_buf k0)) in Hl.
  assert (Hr1 : 0 < zlen recs).
  { pose proof (records_bytes_length bts (numbered 0 ms)). rewrite numbered_length in *. unfold recs. lia. }
  assert (Elen : u64 (rbuf_len (rkbuf_buf k1) - msetw_firstmsg_of w1) = zlen recs).
  { change (msetw_firstmsg_of w1) with (msetw_firstmsg_of w). rewrite Od, uwrap_id by (unfold u_ok; lia). lia. }
  rewrite Elen, Z.gtb_ltb. destruct (Z.ltb_spec 0 (zlen recs)); [|lia].
  destruct (Z.leb_spec (zlen recs) (max_msg_size conf)); [|lia]. rewrite Hcodec. cbn [Z.eqb negb obind default].
  unfold rd_kafka_msgset_writer_finalize_MessageSet. set (w2 := set_w_sizes _ _ _ w1).
  change (id (zlen recs)) with (zlen recs) in w2.
  change (msetw_MsgVersion w2) with (msetw_MsgVersion w). rewrite O7. change (2 =? 2) with true. cbv iota.
  assert (Eb : zlen (batch_bytes b) = 61 + zlen recs) by (rewrite batch_bytes_len; done).
  assert (HbL' : batch_Length b + 12 < 2 ^ 31) by (change (batch_Length b) with (49 + zlen recs); lia).
  assert (HL1 : rbuf_len (rkbuf_buf (msetw_rkbuf w2)) < 2 ^ 62) by (change (msetw_rkbuf w2) with k1; lia).
  destruct (finalize_v2_spec (set_rk_msgq (rkbuf_msgq k1) k0) ms bts mts O2 O3 Hby w2 0 W Hcnt (proj1 Hpos)
    (proj2 Hpos) O6 eq_refl eq_refl eq_refl eq_refl HbL' Ob Oc HL1) as (k2 & -> & W2 & L2).
  cbn [obind]. set (w3 := set_w_rkbuf _ _). change (msetw_rkbuf w3) with k2.
  change (msetw_of_MessageSetSize w3) with (msetw_of_MessageSetSize w).
  change (msetw_MessageSetSize w3) with (61 + zlen recs). fold b in W2. rewrite Oa.
  rewrite swrap_id by (unfold s_ok; lia). unfold b in W2. rewrite request_batch_bytes in W2. fold b in W2.
  destruct (set_MessageSetSize (set_rk_msgq (rkbuf_msgq k1) k0) ms bts O2 O3 _ _ _ _ _ _ _ _ k2 W2 ltac:(lia)
    (61 + zlen recs)) as (k3 & -> & W3 & L3).
  cbn [obind]. exists k3. rewrite Eb. split; [done|]. split; [|simpl in L2; lia].
  unfold b. rewrite request_batch_bytes. exact W3.
Qed.
End header.
