(* ===== verification/RoundTrip.v ===== *)
(** * From the producer to the consumer

    The Produce request built from a transmit queue, byte for byte, and the
    composition with the MessageSet reader: what a producer sends, a consumer
    of the stored MessageSet is given. *)
From Stdlib Require Import ZArith Lia.
From stdpp Require Import base numbers list.
From S2P Require Import Prelude Varint Buf BufFacts BufSeek BufSpec Slice SliceFacts CrcTheory Crc.
From S2P Require Import Reader Crc32c RdList RdListSpec Proto Header Msg MsgqSpec KBuf KBufFacts.
From S2P Require Import Queue MsgsetReader KBufWrite MsgsetWriter WriterSpec ReaderSpec BatchSpec.
From S2P Require Import FetchSpec ProduceSpec FinalizeSpec.

Strategy 1000 [varint_bytes be_enc record_body record_bytes records_bytes].

(** A producer configured for uncompressed MessageSets of MsgVersion 2. *)
Record v2_producer (conf : writer_conf) : Prop := mk_v2_producer {
  vp_client : kstr_ok (wc_client_id conf);
  vp_trans : kstr_ok (TransactionalId conf);
  vp_topic : kstr_ok (wc_topic conf);
  vp_bytes : bytes_ok (request_header conf ++ produce_header conf);
  vp_feature : Z.land (rkb_features conf) RD_KAFKA_FEATURE_MSGVER2 <> 0;
  vp_codec : compression_codec conf = 0;
  vp_max : max_msg_size conf < 2 ^ 31 - 12;
  vp_batch : 0 < batch_num_messages conf }.

(** A transmit queue holding the messages [ms]. *)
Record xmit_holds (q : rd_kafka_msgq) (ms : list message) : Prop := mk_xmit {
  xm_ok : msgq_ok q;
  xm_holds : Forall2 rkm_holds (rkmq_msgs q) ms;
  xm_bytes : Forall message_bytes_ok ms;
  xm_cnt : zlen ms < 2 ^ 31 }.

Section produce.
Context (conf : writer_conf) (P : v2_producer conf).

(** The MessageSet of the messages [l1], which hold [ms]. *)
Definition sent_batch (l1 : list rd_kafka_msg) (ms : list message) : batch :=
  request_batch conf 0 (default 0 (rkm_timestamp <$> head l1)) (max_ts 0 l1) ms.

Lemma create_spec q ms :
  xmit_holds q ms -> rkmq_msgs q <> [] ->
  exists l1 l2 q', rkmq_msgs q = l1 ++ l2 /\ rkmq_msgs q' = l2 /\ msgq_ok q' /\
    zlen l1 <= batch_num_messages conf /\
    (exists len, stopped conf (Z.min (rkmq_msg_cnt q) (batch_num_messages conf)) (zlen l1) len l2 /\
       (l1 = [] -> len = zlen (request_header conf) + zlen (produce_header conf) + 65)) /\
    if decide (l1 = [])
    then rd_kafka_msgset_create_ProduceRequest conf q = Ret (q', None)
    else let b := sent_batch l1 (take (length l1) ms) in
      exists k, rd_kafka_msgset_create_ProduceRequest conf q = Ret (q', Some (k, zlen (batch_bytes b))) /\
        contents (rkbuf_buf k) = request_header conf ++ produce_header conf ++
                                 be_enc 4 (zlen (batch_bytes b)) ++ batch_bytes b /\
        zlen (contents (rkbuf_buf k)) <= max_msg_size conf /\ rkmq_msgs (rkbuf_msgq k) = l1.
Proof.
  intros [Xok Xh Xb Xc] Hne. destruct P as [P1 P2 P3 P4 P5 P6 P7 P8].
  destruct (rkmq_msgs q) as [|rkm tl] eqn:Hq; [done|]. pose proof (Forall2_length _ _ _ Xh) as Hlm.
  pose proof Xok as (Hcnt & _). rewrite Hq in Hcnt. simpl in Hcnt.
  destruct (init_spec conf P1 P2 P3 P5 q ltac:(lia) ltac:(lia)) as (w & k0 & Hi & O).
  unfold rd_kafka_msgset_create_ProduceRequest. rewrite Hi. cbn [obind]. clear Hi.
  unfold rd_kafka_msgset_writer_write_msgq. rewrite Hq. cbn [head].
  set (w1 := set_w_attrs _ _ _ w).
  destruct (write_loop_spec conf (length (rkm :: tl)) w1 q rkm tl ms 0 0 k0 _ Hq Xok Xh ltac:(lia)
    (op_wrote _ _ _ _ O) (op_flag _ _ _ _ O) (op_ver _ _ _ _ O) ltac:(lia) ltac:(lia) ltac:(lia))
    as (l1 & l2 & w' & q' & Hl & Happ & [T1 T2 T3 (kv & T4) T5 T6 T7]).
  rewrite Hl. cbn [obind].
  exists l1, l2, q'. split; [done|]. split; [done|]. split; [done|].
  change (msetw_msgcntmax w1) with (msetw_msgcntmax w) in *. rewrite (op_max _ _ _ _ O) in *.
  rewrite !Z.add_0_l in *. split; [lia|].
  pose proof (op_contents _ _ _ _ O) as Oc. pose proof (op_msgq _ _ _ _ O) as Om.
  assert (H0 : rbuf_len (rkbuf_buf k0) = zlen (request_header conf))
    by (rewrite <- (inv_zlen _ (proj1 (op_ok _ _ _ _ O))), Oc; done).
  destruct (enq_all_spec (rkbuf_msgq k0) l1) as [E1 E2]. rewrite Om in E1, E2. simpl in E1, E2.
  assert (Eq : rkbuf_msgq (msetw_rkbuf w') = enq_all rd_kafka_msgq_init l1).
  { rewrite (kwrote_same_msgq _ _ _ T3), Om. done. }
  split.
  { exists (rbuf_len (rkbuf_buf (msetw_rkbuf w'))). split; [done|]. intros ->.
    change (records_bytes _ (numbered 0 (take (length []) ms))) with (@nil Z) in T3.
    rewrite (kwrote_len _ _ _ T3), app_nil_r, !length_app, be_enc_length.
    change (rbuf_len (rkbuf_buf (set_rk_msgq _ k0))) with (rbuf_len (rkbuf_buf k0)).
    pose proof (blank_header_len conf). lia. }
  set (wf := set_w_attrs _ _ _ w').
  destruct (decide (l1 = [])) as [->|Hl1].
  { unfold rd_kafka_msgset_writer_finalize. change (msetw_rkbuf wf) with (msetw_rkbuf w'). rewrite Eq. done. }
  set (b := sent_batch l1 _).
  assert (Hts : default 0 (rkm_timestamp <$> head l1) = rkm_timestamp rkm).
  { destruct l1 as [|x l1]; [done|]. injection Happ as -> _. done. }
  assert (Hlen1 : zlen (take (length l1) ms) = zlen l1 /\ zlen l1 <= zlen ms).
  { apply (f_equal length) in Happ. rewrite length_app in Happ. rewrite length_take. lia. }
  destruct Hlen1 as [Hlen1 Hlem].
  assert (Hl1p : 0 < zlen l1) by (destruct l1; [done|simpl; lia]).
  set (wz := set_w_sizes (msetw_messages_len w) kv (msetw_MessageSetSize w) w).
  assert (O' : opened conf wz k0 (msetw_msgcntmax wz)).
  { destruct O. constructor; done. }
  destruct (finalize_spec conf P4 wz k0 (msetw_rkbuf w') (take (length l1) ms) (rkm_timestamp rkm) (max_ts 0 l1) O')
    as (k & Hk & Wk & Lk).
  - rewrite <- app_assoc, <- (app_assoc (be_enc 4 0)), Om, <- Eq in T3. exact T3.
  - rewrite Eq, E2, Hlen1. done.
  - lia.
  - by apply Forall_take.
  - done.
  - done.
  - by apply T6.
  - assert (Ew : wf = set_w_attrs 0 (max_ts 0 l1) (rkm_timestamp rkm) (set_w_rkbuf (msetw_rkbuf w') wz)).
    { unfold wf. rewrite T4. unfold set_w_attrs. simpl. by rewrite (op_attrs _ _ _ _ O). }
    rewrite Ew, Hk. cbn [obind]. unfold b, sent_batch. rewrite Hts. exists k. split; [done|]. split_and!.
    + rewrite (kw_contents _ _ _ Wk). simpl. by rewrite Oc.
    + rewrite (inv_zlen _ (kw_inv _ _ _ Wk)), Lk. by apply T6.
    + rewrite (kwrote_same_msgq _ _ _ Wk). simpl. rewrite Eq, E1. done.
Qed.
End produce.

(** ** What the broker stores *)

(** The broker assigns the offset and the leader epoch of the MessageSet, and
    leaves the rest, which the checksum covers, as it was sent. *)
Definition broker_store (base epoch : Z) (sent : list Z) : list Z :=
  mem_write (mem_write sent 0 (be_enc 8 base)) 12 (be_enc 4 epoch).

Definition stamp (base epoch : Z) (b : batch) : batch :=
  mk_batch base epoch (b_Attributes b) (b_LastOffsetDelta b) (b_BaseTimestamp b) (b_MaxTimestamp b) (b_PID b)
    (b_ProducerEpoch b) (b_BaseSequence b) (b_records b).

Lemma broker_store_bytes base epoch b : broker_store base epoch (batch_bytes b) = batch_bytes (stamp base epoch b).
Proof.
  unfold broker_store, batch_bytes.
  assert (E1 : forall x, mem_write (be_enc 8 (b_BaseOffset b) ++ x) 0 (be_enc 8 base) = be_enc 8 base ++ x).
  { intros x. pose proof (mem_write_middle [] (be_enc 8 (b_BaseOffset b)) (be_enc 8 base) x) as H.
    rewrite !be_enc_length in H. by apply H. }
  rewrite E1, (app_assoc (be_enc 8 base)).
  replace 12 with (zlen (be_enc 8 base ++ be_enc 4 (batch_Length b))) by by rewrite length_app, !be_enc_length.
  rewrite mem_write_middle by (by rewrite !be_enc_length). by rewrite <- app_assoc.
Qed.

Lemma numbered_elem i l off m : (off, m) ∈ numbered i l -> i <= off < i + zlen l /\ m ∈ l.
Proof.
  revert i; induction l as [|x l IH]; intros i H; simpl in H; [by apply not_elem_of_nil in H|].
  apply elem_of_cons in H as [E|H].
  - injection E as -> ->. simpl. split; [lia|by left].
  - destruct (IH _ H) as [? ?]. simpl. split; [lia|by right].
Qed.

Lemma max_ts_ok t l : s_ok 64 t -> Forall (fun m => s_ok 64 (rkm_timestamp m)) l -> s_ok 64 (max_ts t l).
Proof.
  intros Ht H. revert t Ht; induction H as [|m l Hm H IH]; intros t Ht; [done|].
  simpl. apply IH. by destruct (t <? rkm_timestamp m).
Qed.

Lemma holds_message_ok rkm m : rkm_holds rkm m -> message_ok m.
Proof. intros H. split; [apply H|]. split; apply H. Qed.

(** The fields of the header that come from the producer's configuration. *)
Definition ids_ok (conf : writer_conf) : Prop := s_ok 64 (wc_PID conf) /\ s_ok 16 (wc_ProducerEpoch conf).

Lemma stamped_ok conf l ms base epoch :
  ids_ok conf -> Forall2 rkm_holds l ms -> l <> [] -> 0 <= base -> base + zlen ms < 2 ^ 63 -> s_ok 32 epoch ->
  zlen ms < 2 ^ 31 -> zlen (batch_bytes (sent_batch conf l ms)) < 2 ^ 31 ->
  batch_ok (stamp base epoch (sent_batch conf l ms)).
Proof.
  intros [I1 I2] Hh Hl Hb Hlt He Hn Hsz. pose proof (Forall2_length _ _ _ Hh) as Hlen.
  rewrite batch_bytes_len in Hsz.
  assert (Hpos : 0 < zlen ms) by (destruct l; [done|simpl in Hlen; lia]).
  assert (Hts : Forall (fun m => s_ok 64 (rkm_timestamp m)) l).
  { apply Forall_forall. intros x Hx. apply list_elem_of_lookup in Hx as (i & Hi).
    destruct (Forall2_lookup_l _ _ _ _ _ Hh Hi) as (m & _ & H). rewrite (rh_ts _ _ H). apply H. }
  constructor; unfold batch_last, sent_batch, stamp, request_batch;
    cbn [b_BaseOffset b_PartitionLeaderEpoch b_Attributes b_LastOffsetDelta b_BaseTimestamp b_MaxTimestamp
         b_PID b_ProducerEpoch b_BaseSequence b_records]; try done; try (unfold s_ok; lia); try lia.
  - destruct l as [|x l]; [done|]. apply Forall_cons in Hts as [Hx _]. exact Hx.
  - apply max_ts_ok; [unfold s_ok; lia|done].
  - change (batch_Length (stamp base epoch (sent_batch conf l ms)) < 2 ^ 31). unfold batch_Length.
    change (batch_payload (stamp base epoch (sent_batch conf l ms))) with (batch_payload (sent_batch conf l ms)). lia.
  - apply Forall_forall. intros [off m] Hx. apply numbered_elem in Hx as [Hoff Hm]. cbn [fst snd].
    split; [|lia]. apply list_elem_of_lookup in Hm as (i & Hi).
    destruct (Forall2_lookup_r _ _ _ _ _ Hh Hi) as (rkm & _ & H). by eapply holds_message_ok.
Qed.

(** ** What the consumer is given *)

(** A fetched message as the application sees it: offset, key, value,
    timestamp, timestamp type and the encoded headers. *)
Definition op_view (o : rd_kafka_op)
  : option (Z * option (list Z) * option (list Z) * Z * rd_kafka_timestamp_type * option (list Z)) :=
  match rko_u o with
  | RD_KAFKA_OP_FETCH m => Some (rkm_offset m, rkm_key m, rkm_payload m, rkm_timestamp m, rkm_tstype m,
                                 kbytes_data (rkm_binhdrs m))
  | _ => None
  end.

Definition message_view (base : Z) (p : Z * message)
  : option (Z * option (list Z) * option (list Z) * Z * rd_kafka_timestamp_type * option (list Z)) :=
  Some (base + p.1, m_key p.2, m_value p.2, m_timestamp p.2, RD_KAFKA_TIMESTAMP_CREATE_TIME,
        Some (headers_wire p.2)).

Lemma records_ops_all rconf h l :
  Forall (fun p => 0 <= p.1) l ->
  records_ops rconf h (v2_BaseOffset h) l = (fun p => fetched_op rconf h p.1 p.2) <$> l.
Proof.
  induction 1 as [|[off m] l H _ IH]; [done|]. rewrite records_ops_cons, IH. unfold record_ops.
  cbn [fst snd] in *. by destruct (Z.ltb_spec (v2_BaseOffset h + off) (v2_BaseOffset h)); [lia|].
Qed.

Lemma numbered_nonneg i l : 0 <= i -> Forall (fun p => 0 <= p.1) (numbered i l).
Proof. revert i; induction l as [|m l IH]; intros i Hi; constructor; [done|]. apply IH. lia. Qed.

Lemma stamped_ops conf rconf l ms base epoch :
  0 < zlen ms ->
  batches_ops rconf base [stamp base epoch (sent_batch conf l ms)] =
  (fun p => fetched_op rconf (batch_hdr (stamp base epoch (sent_batch conf l ms))) p.1 p.2) <$> numbered 0 ms.
Proof.
  intros Hn. rewrite batches_ops_one. unfold batch_ops. set (b := stamp _ _ _).
  assert (E1 : (batch_last b <? base) = false) by (apply Z.ltb_ge; unfold batch_last; simpl; lia).
  assert (E2 : batch_is_control b = false) by done.
  rewrite E1, E2. cbn [orb]. apply (records_ops_all rconf (batch_hdr b)). apply numbered_nonneg. lia.
Qed.

Lemma batch_bytes_ok conf l ms base epoch :
  Forall message_bytes_ok ms -> bytes_ok (batch_bytes (stamp base epoch (sent_batch conf l ms))).
Proof.
  intros Hms. unfold batch_bytes, batch_covered, batch_fields. rewrite !Forall_app.
  split_and!; try apply be_enc_ok. unfold batch_payload.
  cbn [b_records stamp sent_batch request_batch]. by apply records_bytes_ok.
Qed.

Lemma fetched_views rconf h base (l : list (Z * message)) :
  v2_BaseOffset h = base -> Z.land (v2_Attributes h) RD_KAFKA_MSG_ATTR_LOG_APPEND_TIME = 0 ->
  op_view <$> ((fun p => fetched_op rconf h p.1 p.2) <$> l) = message_view base <$> l.
Proof.
  intros <- Ha. rewrite <- list_fmap_compose. apply list_fmap_ext. intros _ [off m] _.
  unfold compose, op_view, message_view, fetched_op, fetched_msg, fetched_ts. simpl. by rewrite Ha.
Qed.

Lemma zdrop_suffix {A} (l1 l2 : list A) : zdrop (zlen (l1 ++ l2) - zlen l2) (l1 ++ l2) = l2.
Proof. apply zdrop_app. rewrite length_app. lia. Qed.

Lemma create_some conf q ms q' k size :
  v2_producer conf -> xmit_holds q ms -> rd_kafka_msgset_create_ProduceRequest conf q = Ret (q', Some (k, size)) ->
  exists l1 l2, rkmq_msgs q = l1 ++ l2 /\ l1 <> [] /\ rkmq_msgs q' = l2 /\
    let b := sent_batch conf l1 (take (length l1) ms) in
    size = zlen (batch_bytes b) /\ size < 2 ^ 31 /\
    zdrop (zlen (contents (rkbuf_buf k)) - size) (contents (rkbuf_buf k)) = batch_bytes b.
Proof.
  intros P X Hr. destruct (decide (rkmq_msgs q = [])) as [E|Hne].
  { pose proof (xm_ok _ _ X) as (Hc & _). rewrite E in Hc. unfold rd_kafka_msgset_create_ProduceRequest,
      rd_kafka_msgset_writer_init in Hr. rewrite Hc in Hr. done. }
  destruct (create_spec conf P q ms X Hne) as (l1 & l2 & q2 & H1 & H2 & H3 & _ & _ & H).
  exists l1, l2. destruct (decide (l1 = [])) as [->|Hl1]; [congruence|].
  destruct H as (k2 & E & Hc & Hsz & _). set (b := sent_batch _ _ _) in *.
  remember (zlen (batch_bytes b)) as sz eqn:Es in E. rewrite Hr in E. injection E as -> -> ->.
  split; [done|]. split; [done|]. split; [done|]. intros b'. change b' with b. rewrite Es. split; [done|]. split.
  - rewrite Hc, !length_app in Hsz. pose proof (vp_max _ P). lia.
  - rewrite Hc. rewrite !app_assoc. apply zdrop_suffix.
Qed.

(** ** Properties *)

(** C19. [rd_kafka_msgset_create_ProduceRequest] takes a prefix of the transmit
    queue: at most [batch.num.messages] messages, as many as fit in
    [message.max.bytes], stopping at a message that is backing off; the rest
    stays queued in order.  When it takes any, the request is exactly the
    request header, the Produce header, the size of the MessageSet and the
    MessageSet of MsgVersion 2 holding those messages, with every length,
    count, timestamp and checksum filled in, and is no longer than
    [message.max.bytes]; when it takes none there is no request. *)
Theorem produce_request_exact (conf : writer_conf) (q : rd_kafka_msgq) (ms : list message)
    (P : v2_producer conf) (X : xmit_holds q ms) (Hne : rkmq_msgs q <> []) :
  exists l1 l2 q', rkmq_msgs q = l1 ++ l2 /\ rkmq_msgs q' = l2 /\ msgq_ok q' /\
    zlen l1 <= batch_num_messages conf /\
    (exists len, stopped conf (Z.min (rkmq_msg_cnt q) (batch_num_messages conf)) (zlen l1) len l2 /\
       (l1 = [] -> len = zlen (request_header conf) + zlen (produce_header conf) + 65)) /\
    if decide (l1 = [])
    then rd_kafka_msgset_create_ProduceRequest conf q = Ret (q', None)
    else let b := sent_batch conf l1 (take (length l1) ms) in
      exists k, rd_kafka_msgset_create_ProduceRequest conf q = Ret (q', Some (k, zlen (batch_bytes b))) /\
        contents (rkbuf_buf k) = request_header conf ++ produce_header conf ++
                                 be_enc 4 (zlen (batch_bytes b)) ++ batch_bytes b /\
        zlen (contents (rkbuf_buf k)) <= max_msg_size conf /\ rkmq_msgs (rkbuf_msgq k) = l1.
Proof. by apply create_spec. Qed.

(** C1. Producing and fetching compose: the MessageSet of a Produce request,
    stored by a broker that assigns it an offset and a leader epoch, is parsed
    by the fetcher into exactly the messages that were taken from the
    producer's queue, in order, with consecutive offsets from the assigned
    one and their keys, values, timestamps and headers unchanged; the next
    fetch offset is the one after the last message. *)
Theorem produce_fetch_roundtrip (CO : Codecs) (conf : writer_conf) (rconf : reader_conf) (q q' : rd_kafka_msgq)
    (ms : list message) (k : rd_kafka_buf) (size base epoch max_bytes : Z)
    (P : v2_producer conf) (I : ids_ok conf) (X : xmit_holds q ms)
    (Hreq : rd_kafka_msgset_create_ProduceRequest conf q = Ret (q', Some (k, size)))
    (Hbase : 0 <= base) (Hlim : base + zlen ms < 2 ^ 63) (He : s_ok 32 epoch) :
  let stored := broker_store base epoch (zdrop (zlen (contents (rkbuf_buf k)) - size) (contents (rkbuf_buf k))) in
  exists l1 kc kc' fq bytes, rkmq_msgs q = l1 ++ rkmq_msgs q' /\ l1 <> [] /\
    rd_kafka_buf_new_shadow stored (zlen stored) None = Ret kc /\
    rd_kafka_msgset_parse rconf 1 kc (mk_fetch base max_bytes 0 0) rd_kafka_q_init =
      Ret (kc', mk_fetch (base + zlen l1) max_bytes 0 0, fq, (zlen l1, bytes), 0) /\
    op_view <$> rkq_q fq = message_view base <$> numbered 0 (take (length l1) ms).
Proof.
  intros stored. destruct (create_some conf q ms q' k size P X Hreq) as (l1 & l2 & Hq & Hl1 & Hq' & Hsz & Hlt & Hs).
  set (ms1 := take (length l1) ms) in *. set (b := stamp base epoch (sent_batch conf l1 ms1)).
  assert (Est : stored = batch_bytes b) by (unfold stored; rewrite Hs; apply broker_store_bytes).
  pose proof (xm_holds _ _ X) as Hh. rewrite Hq in Hh. apply Forall2_app_inv_l in Hh as (m1 & m2 & Hh1 & _ & Em).
  pose proof (Forall2_length _ _ _ Hh1) as Hlen.
  assert (Em1 : ms1 = m1) by (unfold ms1; rewrite Em, Hlen; apply take_app_length).
  assert (Hn : zlen l1 = zlen ms1) by (rewrite Em1; lia).
  assert (Hle : zlen ms1 <= zlen ms) by (rewrite Em1, Em, length_app; lia).
  assert (Hpos : 0 < zlen ms1) by (rewrite <- Hn; destruct l1; [done|simpl; lia]).
  assert (Hbok : batch_ok b).
  { rewrite <- Em1 in Hh1. apply stamped_ok; try done; [lia|pose proof (xm_cnt _ _ X); lia|lia]. }
  pose proof (batch_bytes_len b) as Hbl.
  pose proof (bo_len _ Hbok) as HbL. unfold batch_Length in HbL.
  destruct (shadow_view stored None) as (kc & Hkc & V & Hc & _); [rewrite Est; lia|].
  assert (Hby : bytes_ok (contents (rkbuf_buf kc))).
  { rewrite Hc, Est. apply batch_bytes_ok. apply Forall_take, (xm_bytes _ _ X). }
  rewrite Est, <- batches_bytes_one in V.
  pose proof (stamped_ops conf rconf l1 ms1 base epoch Hpos) as Hops. fold b in Hops.
  destruct (run_spec rconf kc (mk_fetch base max_bytes 0 0) rd_kafka_q_init [b] b 0 _ V Hby)
    with (inner := rd_kafka_msgset_reader_run rconf 0) as (m & Hrun & R1 & R2 & R3 & R4 & R5); try done.
  { rewrite batches_bytes_one. lia. }
  { by apply Forall_singleton. }
  { by apply Forall_singleton. }
  { simpl fetch_offset. rewrite Hops. destruct ms1; [simpl in Hpos; lia|done]. }
  simpl fetch_offset in *. rewrite Hops in *.
  exists l1, kc, (msetr_rkbuf m), (msetr_par_rkq m), (msetr_msg_bytes m).
  rewrite Hq', Hq. split; [done|]. split; [done|]. split; [exact Hkc|]. split.
  - unfold rd_kafka_msgset_parse.
    change (rd_kafka_msgset_reader_run rconf 1 ?x) with (run_body rconf (rd_kafka_msgset_reader_run rconf 0) x).
    rewrite Hrun. cbn [obind]. rewrite R2, R4, length_fmap, numbered_length, Hn. unfold set_fetch_offset, batch_last, b. simpl.
    do 6 f_equal. lia.
  - rewrite R3. cbn [rkq_q rd_kafka_q_init app]. by apply fetched_views.
Qed.

(** *** A producer with two queued messages *)

Definition example_producer : writer_conf := example_wconf RD_KAFKA_FEATURE_MSGVER2.
Definition example_message2 : message := mk_message None (Some [5]) 2000 [].
Definition example_rkm2 : rd_kafka_msg :=
  mk_rkm 2 1 (Some [5]) 0 0 None 0 0 0 2000 RD_KAFKA_TIMESTAMP_CREATE_TIME None 0 0 0 2 0 (mk_kbytes 0 None []).
Definition example_xmit : rd_kafka_msgq := mk_msgq [example_rkm; example_rkm2] 2 6.

Lemma example_producer_ok : v2_producer example_producer.
Proof.
  constructor; try (vm_compute; done).
  vm_compute. repeat constructor; discriminate.
Qed.

Lemma example_ids_ok : ids_ok example_producer.
Proof. split; unfold s_ok; simpl; lia. Qed.

Lemma example_xmit_holds : xmit_holds example_xmit [example_message; example_message2].
Proof.
  constructor.
  - split; [done|]. split; [done|]. repeat constructor; vm_compute; discriminate.
  - repeat constructor; try reflexivity; unfold s_ok; simpl; lia.
  - constructor; [|constructor; [|constructor]]; (split; [|split]);
      vm_compute; repeat constructor; discriminate.
  - vm_compute. reflexivity.
Qed.

Lemma produce_request_exact_witness :
  exists l1 l2 q', rkmq_msgs example_xmit = l1 ++ l2 /\ rkmq_msgs q' = l2 /\
    (if decide (l1 = []) then rd_kafka_msgset_create_ProduceRequest example_producer example_xmit = Ret (q', None)
     else let b := sent_batch example_producer l1 (take (length l1) [example_message; example_message2]) in
      exists k, rd_kafka_msgset_create_ProduceRequest example_producer example_xmit =
          Ret (q', Some (k, zlen (batch_bytes b))) /\
        contents (rkbuf_buf k) = request_header example_producer ++ produce_header example_producer ++
                                 be_enc 4 (zlen (batch_bytes b)) ++ batch_bytes b).
Proof.
  destruct (produce_request_exact example_producer example_xmit [example_message; example_message2]
    example_producer_ok example_xmit_holds ltac:(discriminate)) as (l1 & l2 & q' & H1 & H2 & _ & _ & _ & H).
  exists l1, l2, q'. split; [exact H1|]. split; [exact H2|].
  destruct (decide (l1 = [])); [exact H|]. destruct H as (k & Hk & Hc & _). exists k. split; [exact Hk|exact Hc].
Defined.

(** The broker stores the MessageSet at offset 500, leader epoch 9. *)
Lemma produce_fetch_roundtrip_witness :
  exists q' k size, rd_kafka_msgset_create_ProduceRequest example_producer example_xmit = Ret (q', Some (k, size)) /\
    let stored := broker_store 500 9 (zdrop (zlen (contents (rkbuf_buf k)) - size) (contents (rkbuf_buf k))) in
    exists l1 kc kc' fq bytes, rkmq_msgs example_xmit = l1 ++ rkmq_msgs q' /\ l1 <> [] /\
      rd_kafka_buf_new_shadow stored (zlen stored) None = Ret kc /\
      rd_kafka_msgset_parse (CO := no_codecs) example_rconf 1 kc (mk_fetch 500 1000 0 0) rd_kafka_q_init =
        Ret (kc', mk_fetch (500 + zlen l1) 1000 0 0, fq, (zlen l1, bytes), 0) /\
      op_view <$> rkq_q fq = message_view 500 <$> numbered 0 (take (length l1) [example_message; example_message2]).
Proof.
  assert (H : exists q' k size,
    rd_kafka_msgset_create_ProduceRequest example_producer example_xmit = Ret (q', Some (k, size))).
  { eexists _, _, _. vm_compute. reflexivity. }
  destruct H as (q' & k & size & H). exists q', k, size. split; [exact H|].
  apply (produce_fetch_roundtrip no_codecs example_producer example_rconf example_xmit q' _ k size 500 9 1000
    example_producer_ok example_ids_ok example_xmit_holds H).
  - lia.
  - vm_compute. reflexivity.
  - unfold s_ok. lia.
Defined.
