(* ===== verification/HeaderParse.v ===== *)
(** * Headers of consumed messages: the header functions of rdkafka_msg.c

    A consumed message keeps its headers as received; the first access parses
    them.  The parser is proved to invert the writer of
    rdkafka_msgset_writer.c, to reject every truncation and to enforce the
    limit on the number of headers. *)
From Stdlib Require Import ZArith Lia.
From stdpp Require Import base numbers list.
From S2P Require Import Prelude Varint RdList RdListSpec Proto Header Msg KBuf KBufFacts.
From S2P Require Import WriterSpec ReaderSpec FetchSpec.

(** ** Code *)

Definition set_rkm_headers (h : option rd_kafka_headers) (m : rd_kafka_msg) : rd_kafka_msg :=
  mk_rkm (rkm_ptr m) (rkm_len m) (rkm_payload m) (rkm_partition m) (rkm_offset m) (rkm_key m)
    (rkm_key_len m) (rkm_err m) (rkm_flags m) (rkm_timestamp m) (rkm_tstype m) h
    (rkm_ts_timeout m) (rkm_ts_enq m) (rkm_ts_backoff m) (rkm_msgseq m) (rkm_retries m) (rkm_binhdrs m).

(** The loop over the remaining [n] headers.  The memory at a NULL key, which
    [rd_kafka_buf_read_ptr] yields for bytes that are not contiguous, cannot
    be copied. *)
Fixpoint headers_parse_loop (n : nat) (hdrs : rd_kafka_headers) : kparser rd_kafka_headers :=
  match n with
  | O => pret hdrs
  | S n =>
      let* KeyLen := rd_kafka_buf_read_varint in
      let* Key := rd_kafka_buf_read_ptr KeyLen in
      let* ValueLen := rd_kafka_buf_read_varint in
      let* Value := (if ValueLen =? -1 then pret None else rd_kafka_buf_read_ptr ValueLen) in
      fun k =>
        match Key with
        | None => Crash
        | Some Key =>
            let! (hdrs, _) := rd_kafka_header_add hdrs Key KeyLen Value ValueLen in
            headers_parse_loop n hdrs k
        end
  end.

(** The error code of the early returns, or the headers. *)
Definition headers_parse_body : kparser (Z + rd_kafka_headers) :=
  let* HeaderCount := rd_kafka_buf_read_varint in
  if HeaderCount <=? 0 then pret (inl RD_KAFKA_RESP_ERR__NOENT)
  else if HeaderCount >? 100000 then pret (inl RD_KAFKA_RESP_ERR__BAD_MSG)
  else fun k =>
    let! hdrs := rd_kafka_headers_new HeaderCount in
    (let* hdrs := headers_parse_loop (Z.to_nat HeaderCount) hdrs in pret (inr hdrs)) k.

Definition rd_kafka_msg_headers_parse (rkm : rd_kafka_msg) : outcome (rd_kafka_msg * Z) :=
  let binhdrs := rkm_binhdrs rkm in
  if RD_KAFKAP_BYTES_LEN binhdrs =? 0 then Ret (rkm, RD_KAFKA_RESP_ERR__NOENT)
  else
    let! data := (match kbytes_data binhdrs with Some d => Ret d | None => Crash end) in
    let! rkbuf := rd_kafka_buf_new_shadow data (RD_KAFKAP_BYTES_LEN binhdrs) None in
    let! (rkbuf, r) := headers_parse_body rkbuf in
    match r with
    | Some (inr hdrs) => Ret (set_rkm_headers (Some hdrs) rkm, RD_KAFKA_RESP_ERR_NO_ERROR)
    | Some (inl err) => Ret (rkm, err)
    | None => Ret (rkm, rkbuf_err rkbuf)
    end.

(** The message, the error code and the headers stored at [hdrsp]. *)
Definition rd_kafka_message_headers (rkm : rd_kafka_msg)
  : outcome (rd_kafka_msg * Z * option rd_kafka_headers) :=
  match rkm_headers rkm with
  | Some hdrs => Ret (rkm, RD_KAFKA_RESP_ERR_NO_ERROR, Some hdrs)
  | None =>
      if negb (Z.land (rkm_flags rkm) RD_KAFKA_MSG_F_PRODUCER =? 0)
      then Ret (rkm, RD_KAFKA_RESP_ERR__NOENT, None)
      else if RD_KAFKAP_BYTES_LEN (rkm_binhdrs rkm) =? 0 then Ret (rkm, RD_KAFKA_RESP_ERR__NOENT, None)
      else
        let! (rkm, err) := rd_kafka_msg_headers_parse rkm in
        if negb (err =? 0) then Ret (rkm, err, None)
        else Ret (rkm, RD_KAFKA_RESP_ERR_NO_ERROR, rkm_headers rkm)
  end.

Definition rd_kafka_message_detach_headers (rkm : rd_kafka_msg)
  : outcome (rd_kafka_msg * Z * option rd_kafka_headers) :=
  let! (rkm, err, hdrs) := rd_kafka_message_headers rkm in
  if negb (err =? 0) then Ret (rkm, err, hdrs)
  else Ret (set_rkm_headers None rkm, RD_KAFKA_RESP_ERR_NO_ERROR, hdrs).

(** [same] tells whether the argument is the list the message already has; the
    headers freed are returned with the message. *)
Definition rd_kafka_message_set_headers (same : bool) (rkm : rd_kafka_msg) (hdrs : option rd_kafka_headers)
  : outcome (rd_kafka_msg * list rd_kafka_header) :=
  match rkm_headers rkm with
  | Some old =>
      assert! (negb same) in
      Ret (set_rkm_headers hdrs rkm, rd_kafka_headers_destroy old)
  | None => Ret (set_rkm_headers hdrs rkm, [])
  end.

(** ** Truncated input *)

(** [p] reports an underflow on every strict prefix of [w]. *)
Definition short {A} (p : kparser A) (w : list Z) : Prop :=
  forall st en k w' x r, w = w' ++ x :: r -> kview st en k w' ->
    exists k', p k = Ret (k', None) /\ rkbuf_err k' = RD_KAFKA_RESP_ERR__UNDERFLOW.

Lemma short_nil {A} (p : kparser A) : short p [].
Proof. intros st en k [|? ?] x r Hw; discriminate. Qed.

Lemma short_bind {A B} (p : kparser A) (f : A -> kparser B) w1 w2 a :
  reads p w1 a -> short p w1 -> short (f a) w2 -> short (pbind p f) (w1 ++ w2).
Proof.
  intros Hr H1 H2 st en k w' x r Hw V. unfold pbind.
  destruct (decide (length w' < length w1)%nat) as [Hl|Hl].
  - apply app_eq_inv in Hw as [(l & Hw & Hl2)|(l & Hw & Hl2)].
    + destruct l as [|y l]; simpl in Hl2.
      { rewrite Hw, length_app in Hl. simpl in Hl. lia. }
      destruct (H1 st en k w' y l Hw V) as (k' & -> & He). by exists k'.
    + rewrite Hw, length_app in Hl. lia.
  - assert (exists l, w' = w1 ++ l) as [l ->].
    { apply app_eq_inv in Hw as [(l & Hw & Hl2)|(l & Hw & Hl2)]; [|by eexists].
      rewrite Hw, length_app in Hl. destruct l; [|simpl in Hl; lia]. exists []. by rewrite Hw, !app_nil_r. }
    rewrite <- app_assoc in Hw. apply app_inv_head in Hw.
    rewrite (Hr _ _ _ _ V). cbn [obind].
    exact (H2 st en _ l x r Hw (kview_ladv _ _ _ _ _ V)).
Qed.

Lemma short_varint v : s_ok 64 v -> short rd_kafka_buf_read_varint (varint_bytes v).
Proof.
  intros Hv st en k w' x r Hw V. unfold rd_kafka_buf_read_varint.
  assert (Hd : rd_uvarint_dec w' = Ret (0, None)).
  { assert (w' = take (length w') (varint_bytes v)) as -> by by rewrite Hw, take_app_length.
    assert (Hlt : (length w' < length (varint_bytes v))%nat) by (rewrite Hw, length_app; simpl; lia).
    pose proof (varint_bytes_len v). pose proof (zigzag64_ok v Hv) as [Hz _].
    apply uvarint_dec_loop_prefix; rewrite ?length_take; try done; lia. }
  pose proof (varint_dec_spec st en k w' V) as H. rewrite Hd in H. destruct H as (sl & ->).
  cbn [obind]. eexists. split; [done|]. done.
Qed.

Lemma short_ptr w : zlen w < 2 ^ 63 -> short (rd_kafka_buf_read_ptr (zlen w)) w.
Proof.
  intros Hl st en k w' x r Hw V. unfold rd_kafka_buf_read_ptr.
  rewrite (ensure_contig_spec st en k _ V), uwrap_id by (unfold u_ok; lia).
  destruct (Z.ltb_spec (zlen w') (zlen w)); [|rewrite Hw, length_app in *; simpl length in *; lia].
  by eexists.
Qed.

(** ** The parser inverts the wire format *)

(** [p] reads exactly [w], and nothing less. *)
Definition exact {A} (p : kparser A) (w : list Z) (a : A) : Prop := reads p w a /\ short p w.

Lemma exact_bind {A B} (p : kparser A) (f : A -> kparser B) w1 w2 a b :
  exact p w1 a -> exact (f a) w2 b -> exact (pbind p f) (w1 ++ w2) b.
Proof. intros [R1 S1] [R2 S2]. split; [by eapply reads_bind|by eapply short_bind]. Qed.

Lemma exact_ext {A} (p q : kparser A) w a : (forall k, p k = q k) -> exact q w a -> exact p w a.
Proof.
  intros E [R S]. split.
  - intros st en k rest V. rewrite E. by apply (R st en k rest).
  - intros st en k w' x r Hw V. rewrite E. by eapply S.
Qed.

Lemma exact_ret {A} (a : A) : exact (pret a) [] a.
Proof. split; [apply reads_ret|apply short_nil]. Qed.

Lemma exact_varint v : s_ok 64 v -> exact rd_kafka_buf_read_varint (varint_bytes v) v.
Proof. intros Hv. split; [by apply reads_varint|by apply short_varint]. Qed.

Lemma exact_ptr w : zlen w < 2 ^ 63 -> exact (rd_kafka_buf_read_ptr (zlen w)) w (Some w).
Proof. intros Hw. split; [apply reads_contig|by apply short_ptr]. Qed.

(** Only the first bytes at the pointers count, and a null value has no size. *)
Lemma header_add_received hdrs l h :
  headers_wf hdrs l -> header_ok h -> zlen l < 2 ^ 27 ->
  exists hdrs', rd_kafka_header_add hdrs h.1 (zlen h.1) h.2 (opt_len h.2) =
      Ret (hdrs', RD_KAFKA_RESP_ERR_NO_ERROR) /\ headers_wf hdrs' (l ++ [h]).
Proof.
  intros W Ho Hl. destruct (header_add_spec hdrs l h W Ho Hl) as (hdrs' & E & W').
  exists hdrs'. split; [|done]. rewrite <- E. destruct h as [n v]. unfold rd_kafka_header_add. simpl fst. simpl snd.
  destruct (Z.eqb_spec (zlen n) (-1)); [lia|].
  assert (En : ztake (zlen n) (n ++ [0]) = ztake (zlen n) n).
  { unfold ztake. by rewrite Nat2Z.id, take_app_length, take_ge. }
  rewrite En. destruct v as [v|]; simpl opt_len; [|done].
  assert (Ev : ztake (zlen v) (v ++ [0]) = ztake (zlen v) v).
  { unfold ztake. by rewrite Nat2Z.id, take_app_length, take_ge. }
  destruct (Z.eqb_spec (zlen v) (-1)); [lia|]. by rewrite Ev.
Qed.

Lemma header_bytes_split h :
  header_bytes h = varint_bytes (zlen h.1) ++ h.1 ++ varint_bytes (opt_len h.2) ++ opt_data h.2.
Proof. by destruct h as [n [v|]]. Qed.

Lemma headers_loop_spec l hdrs l0 :
  headers_wf hdrs l0 -> Forall header_ok l -> zlen l0 + zlen l < 2 ^ 27 ->
  exists hdrs', exact (headers_parse_loop (length l) hdrs) (l ≫= header_bytes) hdrs' /\
    headers_wf hdrs' (l0 ++ l).
Proof.
  intros W Hok. revert hdrs l0 W; induction Hok as [|h l Hh Hok IH]; intros hdrs l0 W Hl.
  { exists hdrs. rewrite app_nil_r. split; [apply exact_ret|done]. }
  destruct (header_add_received hdrs l0 h W Hh) as (hdrs1 & Ha & W1); [lia|].
  simpl length in Hl. destruct (IH hdrs1 (l0 ++ [h]) W1) as (hdrs' & HE & W').
  { rewrite length_app. simpl length. lia. }
  exists hdrs'. split; [|by rewrite <- app_assoc in W'].
  change ((h :: l) ≫= header_bytes) with (header_bytes h ++ (l ≫= header_bytes)).
  rewrite header_bytes_split, <- !app_assoc. cbn [length headers_parse_loop].
  destruct Hh as [Hn Hv]. pose proof (zlen_nonneg h.1).
  assert (Hvl : -1 <= opt_len h.2 < 2 ^ 31) by (destruct h.2; simpl; lia).
  eapply exact_bind; [apply exact_varint; unfold s_ok; lia|].
  eapply exact_bind; [apply exact_ptr; lia|].
  eapply exact_bind; [apply exact_varint; unfold s_ok; lia|].
  eapply (exact_bind _ _ _ _ h.2).
  - destruct h.2 as [v|]; simpl; [|apply exact_ret].
    destruct (Z.eqb_spec (zlen v) (-1)); [lia|]. apply exact_ptr. lia.
  - eapply exact_ext; [|exact HE]. intros k. by rewrite Ha.
Qed.

(** The headers [l] on the wire. *)
Definition hdrs_wire (l : list header) : list Z := varint_bytes (zlen l) ++ (l ≫= header_bytes).

Lemma hdrs_wire_count l : zlen l <= zlen (hdrs_wire l).
Proof.
  unfold hdrs_wire. rewrite length_app. cut (zlen l <= zlen (l ≫= header_bytes)); [lia|].
  induction l as [|h l IH]; [done|].
  change ((h :: l) ≫= header_bytes) with (header_bytes h ++ (l ≫= header_bytes)).
  rewrite length_app. pose proof (header_ser_pos h). simpl length. lia.
Qed.

Lemma parse_body_count l :
  zlen (hdrs_wire l) < 2 ^ 31 -> zlen l = 0 \/ 100000 < zlen l ->
  reads headers_parse_body (varint_bytes (zlen l))
    (inl (if zlen l =? 0 then RD_KAFKA_RESP_ERR__NOENT else RD_KAFKA_RESP_ERR__BAD_MSG)).
Proof.
  intros Hw Hl. pose proof (hdrs_wire_count l). unfold headers_parse_body.
  eapply reads_bind_ret; [apply reads_varint; unfold s_ok; lia|]. rewrite Z.gtb_ltb.
  destruct Hl as [->|Hl]; [apply reads_ret|].
  destruct (Z.leb_spec (zlen l) 0); [lia|]. destruct (Z.ltb_spec 100000 (zlen l)); [|lia].
  destruct (Z.eqb_spec (zlen l) 0); [lia|]. apply reads_ret.
Qed.

Lemma parse_body_spec l :
  Forall header_ok l -> zlen (hdrs_wire l) < 2 ^ 31 -> 0 < zlen l <= 100000 ->
  exists hdrs, exact headers_parse_body (hdrs_wire l) (inr hdrs) /\ headers_wf hdrs l.
Proof.
  intros Hok Hw Hl. destruct (headers_new_spec (zlen l) ltac:(lia)) as (hdrs0 & Hn & W0).
  destruct (headers_loop_spec l hdrs0 [] W0 Hok) as (hdrs & HE & W); [simpl length; lia|].
  exists hdrs. split; [|done]. unfold headers_parse_body, hdrs_wire.
  eapply exact_bind; [apply exact_varint; unfold s_ok; lia|]. rewrite Z.gtb_ltb.
  destruct (Z.leb_spec (zlen l) 0); [lia|]. destruct (Z.ltb_spec 100000 (zlen l)); [lia|].
  apply (exact_ext _ (let* hdrs := headers_parse_loop (length l) hdrs0 in pret (inr hdrs))).
  { intros k. by rewrite Hn, Nat2Z.id. }
  rewrite <- (app_nil_r (l ≫= header_bytes)). eapply exact_bind; [exact HE|apply exact_ret].
Qed.

(** A consumed message with the header bytes [w]. *)
Record received (rkm : rd_kafka_msg) (w : list Z) : Prop := mk_received {
  rc_unparsed : rkm_headers rkm = None;
  rc_consumer : Z.land (rkm_flags rkm) RD_KAFKA_MSG_F_PRODUCER = 0;
  rc_bin : rkm_binhdrs rkm = mk_kbytes (zlen w) (Some w) [];
  rc_size : 0 < zlen w < 2 ^ 31 }.

Lemma message_headers_received rkm w :
  received rkm w -> exists k, kview 0 (zlen w) k w /\
    rd_kafka_message_headers rkm =
      let! (k, r) := headers_parse_body k in
      match r with
      | Some (inr hdrs) => Ret (set_rkm_headers (Some hdrs) rkm, 0, Some hdrs)
      | Some (inl err) => if negb (err =? 0) then Ret (rkm, err, None) else Ret (rkm, 0, None)
      | None => if negb (rkbuf_err k =? 0) then Ret (rkm, rkbuf_err k, None) else Ret (rkm, 0, None)
      end.
Proof.
  intros [Hh Hf Hb Hs]. destruct (shadow_view w None) as (k & Hk & V & _); [lia|].
  exists k. split; [done|]. unfold rd_kafka_message_headers, rd_kafka_msg_headers_parse.
  rewrite Hh, Hf, Hb. unfold RD_KAFKAP_BYTES_LEN, RD_KAFKAP_BYTES_LEN0. cbn [kbytes_len kbytes_data negb Z.eqb].
  destruct (Z.eqb_spec (zlen w) RD_KAFKAP_BYTES_LEN_NULL) as [E|_]; [unfold RD_KAFKAP_BYTES_LEN_NULL in E; lia|].
  destruct (Z.eqb_spec (zlen w) 0); [lia|]. cbn [obind]. rewrite Hk. cbn [obind].
  destruct (headers_parse_body k) as [[k' [[e|hdrs]|]]| |]; cbn [obind]; try done.
  - by rewrite Hh.
  - by rewrite Hh.
Qed.

(** C25. The header parser inverts the header writer: when a consumed message
    carries the wire form of the headers [l], the first access returns a header
    list that holds exactly [l] and caches it, a second access returns the same
    list without parsing, and detaching hands the list over and leaves the
    message as it was received.  No headers are reported as NOENT, more than
    100000 as BAD_MSG, and every truncation of the bytes as UNDERFLOW; in these
    cases the message is unchanged. *)
Theorem headers_parse_roundtrip (rkm : rd_kafka_msg) (l : list header) :
  Forall header_ok l -> received rkm (hdrs_wire l) ->
  (zlen l = 0 -> rd_kafka_message_headers rkm = Ret (rkm, RD_KAFKA_RESP_ERR__NOENT, None)) /\
  (100000 < zlen l -> rd_kafka_message_headers rkm = Ret (rkm, RD_KAFKA_RESP_ERR__BAD_MSG, None)) /\
  (0 < zlen l <= 100000 ->
     (exists hdrs, let rkm' := set_rkm_headers (Some hdrs) rkm in
        headers_wf hdrs l /\
        rd_kafka_message_headers rkm = Ret (rkm', 0, Some hdrs) /\
        rd_kafka_message_headers rkm' = Ret (rkm', 0, Some hdrs) /\
        rd_kafka_message_detach_headers rkm = Ret (rkm, 0, Some hdrs)) /\
     (forall rkm' w x r, hdrs_wire l = w ++ x :: r -> received rkm' w ->
        rd_kafka_message_headers rkm' = Ret (rkm', RD_KAFKA_RESP_ERR__UNDERFLOW, None))).
Proof.
  intros Hok Hrc. destruct (message_headers_received _ _ Hrc) as (k & V & E).
  pose proof (rc_size _ _ Hrc) as Hs. split; [|split].
  - intros Hl. rewrite E, (parse_body_count l ltac:(lia) (or_introl Hl) 0 _ k _ V), Hl. done.
  - intros Hl. rewrite E, (parse_body_count l ltac:(lia) (or_intror Hl) 0 _ k _ V).
    destruct (Z.eqb_spec (zlen l) 0); [lia|done].
  - intros Hl. destruct (parse_body_spec l Hok ltac:(lia) Hl) as (hdrs & [HR HS] & W). split.
    + exists hdrs. assert (EE : rd_kafka_message_headers rkm = Ret (set_rkm_headers (Some hdrs) rkm, 0, Some hdrs)).
      { rewrite <- (app_nil_r (hdrs_wire l)) in V at 2. by rewrite E, (HR _ _ _ _ V). }
      split; [done|]. split; [done|]. split; [done|].
      unfold rd_kafka_message_detach_headers. rewrite EE. cbn [obind negb Z.eqb].
      pose proof (rc_unparsed _ _ Hrc) as Hh. destruct rkm. simpl in *. by subst.
    + intros rkm' w x r Hw Hrc'. destruct (message_headers_received _ _ Hrc') as (k2 & V2 & E2).
      destruct (HS _ _ k2 w x r Hw V2) as (k' & Hp & He). rewrite E2, Hp. cbn [obind]. by rewrite He.
Qed.

Definition example_headers : list header := [([97], Some [1; 2]); ([98; 99], None)].
Definition example_received (w : list Z) : rd_kafka_msg :=
  mk_rkm 0 0 None 0 7 None 0 0 0 0 RD_KAFKA_TIMESTAMP_CREATE_TIME None 0 0 0 0 0
    (mk_kbytes (zlen w) (Some w) []).

Lemma headers_parse_roundtrip_witness :
  hdrs_wire example_headers = [4; 2; 97; 4; 1; 2; 4; 98; 99; 1] /\
  (exists hdrs, headers_wf hdrs example_headers /\
     rd_kafka_message_detach_headers (example_received (hdrs_wire example_headers)) =
       Ret (example_received (hdrs_wire example_headers), 0, Some hdrs)) /\
  rd_kafka_message_headers (example_received [4; 2; 97]) =
    Ret (example_received [4; 2; 97], RD_KAFKA_RESP_ERR__UNDERFLOW, None).
Proof.
  assert (Hok : Forall header_ok example_headers).
  { apply Forall_cons; split; [|apply Forall_cons; split; [|constructor]]; split; simpl; lia. }
  assert (Hrc : received (example_received (hdrs_wire example_headers)) (hdrs_wire example_headers)).
  { constructor; vm_compute; done. }
  assert (Hrc2 : received (example_received [4; 2; 97]) [4; 2; 97]) by (constructor; vm_compute; done).
  destruct (headers_parse_roundtrip _ _ Hok Hrc) as (_ & _ & H).
  destruct (H ltac:(simpl; lia)) as ((hdrs & W & _ & _ & Hd) & Ht).
  split; [vm_compute; done|]. split; [exact (ex_intro _ hdrs (conj W Hd))|].
  refine (Ht _ _ 4 [1; 2; 4; 98; 99; 1] _ Hrc2). vm_compute. reflexivity.
Defined.
