(* ===== verification/Partitioner.v ===== *)
(** * Partitioners: rdmurmur2.c, [rd_jitter] and the partitioners of rdkafka_msg.c

    A partitioner maps the key of a message to one of the partitions of its
    topic.  The address of the key is an argument of the hash, which has one
    loop for aligned and one for unaligned keys; the results of [rand] and the
    availability of partitions are arguments of the random partitioner. *)
From Stdlib Require Import ZArith Lia.
From stdpp Require Import base numbers list.
From S2P Require Import Prelude CrcTheory Crc Crc32c.

(** ** Code: rdmurmur2.c *)

Definition mm_seed : Z := 0x9747b28c.
Definition mm_m : Z := 0x5bd1e995.
Definition mm_r : Z := 24.

Definition MM_MIX (h k : Z) : Z :=
  let k := u32 (k * mm_m) in
  let k := Z.lxor k (Z.shiftr k mm_r) in
  let k := u32 (k * mm_m) in
  let h := u32 (h * mm_m) in
  Z.lxor h k.

(** The loop over aligned words; [htole32] makes the load little-endian. *)
Fixpoint mm_aligned (h : Z) (data : list Z) : Z * list Z :=
  match data with
  | b0 :: b1 :: b2 :: b3 :: rest => mm_aligned (MM_MIX h (le_bytes [b0; b1; b2; b3])) rest
  | _ => (h, data)
  end.

Fixpoint mm_unaligned (h : Z) (data : list Z) : Z * list Z :=
  match data with
  | b0 :: b1 :: b2 :: b3 :: rest =>
      let k := b0 in
      let k := Z.lor k (Z.shiftl b1 8) in
      let k := Z.lor k (Z.shiftl b2 16) in
      let k := u32 (Z.lor k (Z.shiftl b3 24)) in
      mm_unaligned (MM_MIX h k) rest
  | _ => (h, data)
  end.

(** The [switch] on the remaining length, whose cases fall through. *)
Definition mm_tail (h : Z) (tail : list Z) : Z :=
  let at_ i := nth i tail 0 in
  let h := if (length tail =? 3)%nat then Z.lxor h (Z.shiftl (at_ 2%nat) 16) else h in
  let h := if (2 <=? length tail)%nat then Z.lxor h (Z.shiftl (at_ 1%nat) 8) else h in
  if (1 <=? length tail)%nat then u32 (Z.lxor h (at_ 0%nat) * mm_m) else h.

Definition rd_murmur2 (addr : Z) (key : list Z) : Z :=
  let h := Z.lxor mm_seed (u32 (zlen key)) in
  let '(h, tail) := if Z.land addr 3 =? 0 then mm_aligned h key else mm_unaligned h key in
  let h := mm_tail h tail in
  let h := Z.lxor h (Z.shiftr h 13) in
  let h := u32 (h * mm_m) in
  Z.lxor h (Z.shiftr h 15).

(** ** Code: rdrand.h and rdkafka_msg.c *)

(** [rand] is the value the C library returned. *)
Definition rd_jitter (rand low high : Z) : outcome Z :=
  if high - low + 1 =? 0 then Crash else Ret (low + Z.rem rand (high - low + 1)).

Section partitioners.
(** [rd_kafka_topic_partition_available] on the topic, and two values of
    [rand]. *)
Context (available : Z -> bool) (rand1 rand2 : Z).

(** A key is its address and its bytes, [None] for a NULL key, whose length is
    zero. *)
Definition key_bytes (key : option (Z * list Z)) : list Z :=
  match key with Some (_, d) => d | None => [] end.
Definition key_addr (key : option (Z * list Z)) : Z :=
  match key with Some (a, _) => a | None => 0 end.

Definition rd_kafka_msg_partitioner_random (key : option (Z * list Z)) (partition_cnt : Z) : outcome Z :=
  let! p := rd_jitter rand1 0 (partition_cnt - 1) in
  if negb (available p) then rd_jitter rand2 0 (partition_cnt - 1) else Ret p.

(** The operands of [%] are converted to [uint32_t]. *)
Definition umod32 (h partition_cnt : Z) : outcome Z :=
  if u32 partition_cnt =? 0 then Crash else Ret (s32 (h mod u32 partition_cnt)).

Definition rd_kafka_msg_partitioner_consistent (key : option (Z * list Z)) (partition_cnt : Z) : outcome Z :=
  umod32 (rd_crc32 (key_bytes key)) partition_cnt.

Definition rd_kafka_msg_partitioner_consistent_random (key : option (Z * list Z)) (partition_cnt : Z)
  : outcome Z :=
  if (length (key_bytes key) =? 0)%nat
  then rd_kafka_msg_partitioner_random key partition_cnt
  else rd_kafka_msg_partitioner_consistent key partition_cnt.

Definition rd_kafka_msg_partitioner_murmur2 (key : option (Z * list Z)) (partition_cnt : Z) : outcome Z :=
  umod32 (Z.land (rd_murmur2 (key_addr key) (key_bytes key)) 0x7fffffff) partition_cnt.

Definition rd_kafka_msg_partitioner_murmur2_random (key : option (Z * list Z)) (partition_cnt : Z)
  : outcome Z :=
  match key with
  | None => rd_kafka_msg_partitioner_random key partition_cnt
  | Some _ => umod32 (Z.land (rd_murmur2 (key_addr key) (key_bytes key)) 0x7fffffff) partition_cnt
  end.
End partitioners.

(** ** Specification *)

(** MurmurHash2 on the little-endian words of a byte string. *)
Fixpoint words (data : list Z) : list Z * list Z :=
  match data with
  | b0 :: b1 :: b2 :: b3 :: rest =>
      let '(ws, tail) := words rest in
      (b0 + 2 ^ 8 * b1 + 2 ^ 16 * b2 + 2 ^ 24 * b3 :: ws, tail)
  | _ => ([], data)
  end.

Definition murmur2_mix (h k : Z) : Z :=
  let k := k * mm_m mod 2 ^ 32 in
  let k := Z.lxor k (k / 2 ^ 24) * mm_m mod 2 ^ 32 in
  Z.lxor (h * mm_m mod 2 ^ 32) k.

Definition murmur2_ref (data : list Z) : Z :=
  let '(ws, tail) := words data in
  let h := foldl murmur2_mix (Z.lxor mm_seed (zlen data mod 2 ^ 32)) ws in
  let h := match tail with
           | [] => h
           | _ => Z.lxor h (foldr (fun b a => b + 2 ^ 8 * a) 0 tail) * mm_m mod 2 ^ 32
           end in
  let h := Z.lxor h (h / 2 ^ 13) * mm_m mod 2 ^ 32 in
  Z.lxor h (h / 2 ^ 15).

(** ** The hash *)

Lemma le_bytes4 b0 b1 b2 b3 :
  byte_ok b0 -> byte_ok b1 -> byte_ok b2 -> byte_ok b3 ->
  le_bytes [b0; b1; b2; b3] = b0 + 2 ^ 8 * b1 + 2 ^ 16 * b2 + 2 ^ 24 * b3.
Proof.
  unfold byte_ok, u_ok. intros. cbn [le_bytes]. rewrite Z.shiftl_0_l, Z.lor_0_r.
  rewrite !lor_shiftl_add by lia. lia.
Qed.

Lemma lor_bytes4 b0 b1 b2 b3 :
  byte_ok b0 -> byte_ok b1 -> byte_ok b2 -> byte_ok b3 ->
  u32 (Z.lor (Z.lor (Z.lor b0 (Z.shiftl b1 8)) (Z.shiftl b2 16)) (Z.shiftl b3 24)) =
  b0 + 2 ^ 8 * b1 + 2 ^ 16 * b2 + 2 ^ 24 * b3.
Proof.
  unfold byte_ok, u_ok. intros.
  rewrite (lor_shiftl_add b0), (lor_shiftl_add (b0 + _)), (lor_shiftl_add (b0 + _ + _)) by lia.
  rewrite uwrap_id by (unfold u_ok; lia). lia.
Qed.

Lemma MM_MIX_ref h k : MM_MIX h k = murmur2_mix h k.
Proof. unfold MM_MIX, murmur2_mix, mm_r. by rewrite Z.shiftr_div_pow2. Qed.

(** Four elements at a time. *)
Lemma list_ind4 {A} (P : list A -> Prop) :
  (forall l, (length l < 4)%nat -> P l) ->
  (forall a b c d l, P l -> P (a :: b :: c :: d :: l)) -> forall l, P l.
Proof.
  intros H0 H4 l. remember (length l) as n eqn:Hn. revert l Hn.
  induction n as [n IH] using lt_wf_ind; intros l ->.
  destruct l as [|a [|b [|c [|d l]]]]; try (apply H0; simpl; lia).
  apply H4. eapply IH; [|done]. simpl. lia.
Qed.

Lemma mm_loops data h :
  bytes_ok data ->
  mm_aligned h data = (foldl murmur2_mix h (words data).1, (words data).2) /\
  mm_unaligned h data = (foldl murmur2_mix h (words data).1, (words data).2) /\
  bytes_ok (words data).2 /\ (length (words data).2 < 4)%nat.
Proof.
  revert h; induction data as [l Hl|b0 b1 b2 b3 l IH] using list_ind4; intros h Hd.
  { destruct l as [|? [|? [|? [|? ?]]]]; simpl in Hl |- *; try done; try lia; split_and!; try done; lia. }
  rewrite !Forall_cons in Hd. destruct Hd as (H0 & H1 & H2 & H3 & Hd).
  cbn [mm_aligned mm_unaligned words]. rewrite le_bytes4, lor_bytes4, !MM_MIX_ref by done.
  set (w := _ + _). clearbody w.
  destruct (words l) as [ws tail]. cbn [fst snd foldl] in *. by apply IH.
Qed.

(** Bits above those of [a] are added by exclusive or. *)
Lemma lxor_shiftl_add a c s : 0 <= s -> 0 <= a < 2 ^ s -> Z.lxor a (Z.shiftl c s) = a + c * 2 ^ s.
Proof.
  intros Hs Ha. rewrite <- Z.add_nocarry_lxor.
  - rewrite Z.shiftl_mul_pow2 by lia. lia.
  - apply Z.bits_inj'. intros i Hi. rewrite Z.land_spec, Z.bits_0. destruct (Z.lt_ge_cases i s).
    + rewrite Z.shiftl_spec_low by lia. apply andb_false_r.
    + rewrite <- (Z.mod_small a (2 ^ s)), Z.mod_pow2_bits_high by lia. reflexivity.
Qed.

Lemma tail_value tail h :
  bytes_ok tail -> (length tail < 4)%nat ->
  mm_tail h tail = match tail with
    | [] => h
    | _ => Z.lxor h (foldr (fun b a => b + 2 ^ 8 * a) 0 tail) * mm_m mod 2 ^ 32
    end.
Proof.
  intros Hd Hl. destruct tail as [|b0 [|b1 [|b2 [|? ?]]]]; [done|..|simpl in Hl; lia];
    rewrite ?Forall_cons in Hd; unfold byte_ok, u_ok in Hd; unfold mm_tail;
    cbn [length Nat.eqb Nat.leb nth foldr]; unfold uwrap; do 2 f_equal; rewrite ?Z.lxor_assoc; f_equal.
  - lia.
  - rewrite Z.lxor_comm, lxor_shiftl_add by lia. lia.
  - rewrite (Z.lxor_comm _ b0), Z.lxor_comm, (lxor_shiftl_add b0), (lxor_shiftl_add (b0 + _)) by lia. lia.
Qed.

Lemma murmur2_spec addr key : bytes_ok key -> rd_murmur2 addr key = murmur2_ref key.
Proof.
  intros Hd. unfold rd_murmur2, murmur2_ref.
  destruct (mm_loops key (Z.lxor mm_seed (u32 (zlen key))) Hd) as (E1 & E2 & Ht & Hl).
  assert ((if Z.land addr 3 =? 0 then mm_aligned (Z.lxor mm_seed (u32 (zlen key))) key
           else mm_unaligned (Z.lxor mm_seed (u32 (zlen key))) key) =
          (foldl murmur2_mix (Z.lxor mm_seed (u32 (zlen key))) (words key).1, (words key).2)) as ->
    by by destruct (_ =? _).
  destruct (words key) as [ws tail]. simpl fst in *. simpl snd in *.
  rewrite tail_value by done. by rewrite !Z.shiftr_div_pow2 by lia.
Qed.

Lemma land_31 h : 0 <= Z.land h 0x7fffffff < 2 ^ 31.
Proof. change 0x7fffffff with (2 ^ 31 - 1). rewrite land_pow2_ones by lia. apply Z.mod_pos_bound. lia. Qed.

(** ** Properties *)

Lemma umod32_spec h cnt : 0 <= h < 2 ^ 32 -> 0 < cnt < 2 ^ 31 -> umod32 h cnt = Ret (h mod cnt).
Proof.
  intros Hh Hc. unfold umod32. rewrite uwrap_id by (unfold u_ok; lia).
  destruct (Z.eqb_spec cnt 0); [lia|]. pose proof (Z.mod_pos_bound h cnt ltac:(lia)).
  rewrite swrap_id by (unfold s_ok; lia). done.
Qed.

Lemma jitter_spec rand cnt : 0 <= rand -> 0 < cnt -> rd_jitter rand 0 (cnt - 1) = Ret (rand mod cnt).
Proof.
  intros Hr Hc. unfold rd_jitter. replace (cnt - 1 - 0 + 1) with cnt by lia.
  destruct (Z.eqb_spec cnt 0); [lia|]. by rewrite Z.add_0_l, Z.rem_mod_nonneg by lia.
Qed.

(** The hash of a key does not depend on the alignment of its memory: it is
    MurmurHash2 with Kafka's seed, for every byte string. *)
Theorem murmur2_matches_reference (addr : Z) (key : list Z) (Hk : bytes_ok key) :
  rd_murmur2 addr key = murmur2_ref key.
Proof. by apply murmur2_spec. Qed.

(** The first vectors of the unit test of rdmurmur2.c: "kafka", and the
    suffixes of "1234". *)
Lemma murmur2_matches_reference_witness :
  rd_murmur2 0 [107; 97; 102; 107; 97] = 0xd067cf64 /\
  rd_murmur2 0 [49; 50; 51; 52] = 0x9fc97b14 /\ rd_murmur2 1 [50; 51; 52] = 0xe7c009ca /\
  rd_murmur2 2 [51; 52] = 0x873930da /\ rd_murmur2 3 [52] = 0x5a4b5ca1 /\ rd_murmur2 0 [] = 0x106e08d9 /\
  rd_murmur2 3 [107; 97; 102; 107; 97] = murmur2_ref [107; 97; 102; 107; 97].
Proof.
  do 6 (split; [vm_compute; reflexivity|]). apply (murmur2_matches_reference 3).
  repeat constructor; unfold byte_ok, u_ok; lia.
Defined.

(** Every built-in partitioner returns one of the [cnt] partitions.  The
    consistent partitioner returns the CRC-32 of the key modulo [cnt], the
    murmur2 partitioner the low 31 bits of MurmurHash2 modulo [cnt], so messages
    with the same key go to the same partition wherever the key is in memory and
    whatever partitions are available.  The random partitioner draws a second
    time, and only then, when the first partition is not available, and the
    mixed partitioners fall back to it for empty and for NULL keys. *)
Theorem partitioners_in_range (available : Z -> bool) (rand1 rand2 : Z) (key : option (Z * list Z)) (cnt : Z) :
  bytes_ok (key_bytes key) -> 0 < cnt < 2 ^ 31 -> 0 <= rand1 -> 0 <= rand2 ->
  let random := if available (rand1 mod cnt) then rand1 mod cnt else rand2 mod cnt in
  let consistent := crc_ref (key_bytes key) mod cnt in
  let murmur2 := (murmur2_ref (key_bytes key) mod 2 ^ 31) mod cnt in
  (0 <= random < cnt /\ 0 <= consistent < cnt /\ 0 <= murmur2 < cnt) /\
  rd_kafka_msg_partitioner_random available rand1 rand2 key cnt = Ret random /\
  rd_kafka_msg_partitioner_consistent key cnt = Ret consistent /\
  rd_kafka_msg_partitioner_murmur2 key cnt = Ret murmur2 /\
  rd_kafka_msg_partitioner_consistent_random available rand1 rand2 key cnt =
    Ret (if bool_decide (key_bytes key = []) then random else consistent) /\
  rd_kafka_msg_partitioner_murmur2_random available rand1 rand2 key cnt =
    Ret (if bool_decide (key = None) then random else murmur2).
Proof.
  intros Hk Hc H1 H2 random consistent murmur2.
  assert (Hr : rd_kafka_msg_partitioner_random available rand1 rand2 key cnt = Ret random).
  { unfold rd_kafka_msg_partitioner_random. rewrite jitter_spec by lia. cbn [obind].
    unfold random. destruct (available _); [done|]. by apply jitter_spec; lia. }
  destruct (crc32_eq_ref _ Hk) as [E Hok].
  assert (Hcs : rd_kafka_msg_partitioner_consistent key cnt = Ret consistent).
  { unfold rd_kafka_msg_partitioner_consistent. by rewrite umod32_spec, E. }
  assert (Hm : rd_kafka_msg_partitioner_murmur2 key cnt = Ret murmur2).
  { unfold rd_kafka_msg_partitioner_murmur2. rewrite murmur2_spec by done.
    pose proof (land_31 (murmur2_ref (key_bytes key))). rewrite umod32_spec by lia.
    change 0x7fffffff with (2 ^ 31 - 1). by rewrite land_pow2_ones by lia. }
  split.
  { unfold random, consistent, murmur2.
    pose proof (Z.mod_pos_bound rand1 cnt). pose proof (Z.mod_pos_bound rand2 cnt).
    split; [destruct (available _); lia|]. split; apply Z.mod_pos_bound; lia. }
  split; [done|]. split; [done|]. split; [done|]. split.
  - unfold rd_kafka_msg_partitioner_consistent_random. destruct (key_bytes key) eqn:Ek; simpl.
    + by rewrite Hr.
    + by rewrite Hcs.
  - destruct key as [[a d]|]; [exact Hm|exact Hr].
Qed.

Lemma partitioners_in_range_witness :
  rd_kafka_msg_partitioner_murmur2_random (fun p => p =? 0) 5 7 (Some (3, [107; 97; 102; 107; 97])) 4 = Ret 0 /\
  rd_kafka_msg_partitioner_random (fun p => p =? 0) 5 7 None 4 = Ret 3.
Proof.
  assert (Hk : bytes_ok (key_bytes (Some (3, [107; 97; 102; 107; 97])))).
  { repeat constructor; unfold byte_ok, u_ok; lia. }
  destruct (partitioners_in_range (fun p => p =? 0) 5 7 (Some (3, [107; 97; 102; 107; 97])) 4 Hk
              ltac:(lia) ltac:(lia) ltac:(lia)) as (_ & _ & _ & _ & _ & H).
  destruct (partitioners_in_range (fun p => p =? 0) 5 7 None 4 ltac:(constructor)
              ltac:(lia) ltac:(lia) ltac:(lia)) as (_ & H' & _).
  split; [rewrite H|rewrite H']; vm_compute; reflexivity.
Defined.
