(* ===== verification/CurrMsgs.v ===== *)
(** * Producer queue limits: the [rk_curr_msgs] functions of rdkafka_int.h

    A producer counts the messages and bytes it holds.  [rd_kafka_curr_msgs_add]
    refuses, or waits on a condition variable, while a message would pass one
    of the two limits; [rd_kafka_curr_msgs_sub] broadcasts on the variable when
    it brings a counter from its limit to below it.  Both run under a mutex, so
    one pass of the waiting loop is one atomic step of the concurrent model. *)
From Stdlib Require Import ZArith Lia.
From stdpp Require Import base numbers list relations.
From S2P Require Import Prelude Proto.

(** ** Code *)

Record curr_msgs : Type := mk_curr {
  cm_cnt : Z;
  cm_size : Z;
  cm_max_cnt : Z;
  cm_max_size : Z }.

(** The condition of the waiting loop. *)
Definition curr_msgs_full (c : curr_msgs) (cnt size : Z) : bool :=
  (u32 (cm_cnt c + cnt) >? cm_max_cnt c) || (u64 (cm_size c + size) >? cm_max_size c).

(** One pass of the loop: the function returns, or waits. *)
Inductive add_result : Type :=
| AddReturns (c : curr_msgs) (err : Z)
| AddWaits.

Definition curr_msgs_add_pass (c : curr_msgs) (cnt size : Z) (block : bool) : add_result :=
  if curr_msgs_full c cnt size then
    if block then AddWaits else AddReturns c RD_KAFKA_RESP_ERR__QUEUE_FULL
  else AddReturns (mk_curr (u32 (cm_cnt c + cnt)) (u64 (cm_size c + size)) (cm_max_cnt c) (cm_max_size c))
         RD_KAFKA_RESP_ERR_NO_ERROR.

(** On its own a call that waits never returns. *)
Definition rd_kafka_curr_msgs_add (c : curr_msgs) (cnt size : Z) (block : bool) : outcome (curr_msgs * Z) :=
  match curr_msgs_add_pass c cnt size block with
  | AddReturns c err => Ret (c, err)
  | AddWaits => Diverge
  end.

(** The counters and whether the waiting threads are woken. *)
Definition rd_kafka_curr_msgs_sub (c : curr_msgs) (cnt size : Z) : outcome (curr_msgs * bool) :=
  assert! (cm_cnt c >=? cnt) && (cm_size c >=? size) in
  let broadcast := (cm_cnt c >=? cm_max_cnt c) && (u32 (cm_cnt c - cnt) <? cm_max_cnt c)
                   || (cm_size c >=? cm_max_size c) && (u64 (cm_size c - size) <? cm_max_size c) in
  Ret (mk_curr (u32 (cm_cnt c - cnt)) (u64 (cm_size c - size)) (cm_max_cnt c) (cm_max_size c), broadcast).

Definition rd_kafka_curr_msgs_cnt (c : curr_msgs) : Z := s32 (cm_cnt c).
Definition rd_kafka_curr_msgs_get (c : curr_msgs) : Z * Z := (cm_cnt c, cm_size c).

(** ** Threads *)

(** Where a thread in [rd_kafka_curr_msgs_add] is: about to test the condition
    with the mutex held, in [cnd_wait], or back in its caller. *)
Inductive add_pc : Type := AtCheck | InWait | Returned (err : Z).

Record adder : Type := mk_adder { ad_size : Z; ad_block : bool; ad_pc : add_pc }.

Definition wake (a : adder) : adder :=
  match ad_pc a with InWait => mk_adder (ad_size a) (ad_block a) AtCheck | _ => a end.

(** The counters, the sizes of the messages accounted for, and the threads. *)
Record bp_state : Type := mk_bp {
  bp_curr : curr_msgs;
  bp_held : list Z;
  bp_adders : list adder }.

(** A new call, one pass of the loop of thread [i], the release of a held
    message.  A thread in [cnd_wait] runs again only after a broadcast. *)
Inductive bp_label : Type := Start (size : Z) (block : bool) | Pass (i : nat) | Release (i : nat).

Inductive bp_step : bp_label -> bp_state -> bp_state -> Prop :=
| step_start c held l size block :
    bp_step (Start size block) (mk_bp c held l) (mk_bp c held (l ++ [mk_adder size block AtCheck]))
| step_return i c held l size block c' err :
    l !! i = Some (mk_adder size block AtCheck) -> curr_msgs_add_pass c 1 size block = AddReturns c' err ->
    bp_step (Pass i) (mk_bp c held l)
      (mk_bp c' (if err =? 0 then held ++ [size] else held) (<[i := mk_adder size block (Returned err)]> l))
| step_wait i c held l size block :
    l !! i = Some (mk_adder size block AtCheck) -> curr_msgs_add_pass c 1 size block = AddWaits ->
    bp_step (Pass i) (mk_bp c held l) (mk_bp c held (<[i := mk_adder size block InWait]> l))
| step_release i c held l size c' broadcast :
    held !! i = Some size -> rd_kafka_curr_msgs_sub c 1 size = Ret (c', broadcast) ->
    bp_step (Release i) (mk_bp c held l)
      (mk_bp c' (delete i held) (if broadcast : bool then wake <$> l else l)).

(** The states reached with the limits [mc] and [ms] when no message is larger
    than [S]. *)
Inductive bp_reach (mc ms S : Z) : bp_state -> Prop :=
| reach_init : bp_reach mc ms S (mk_bp (mk_curr 0 0 mc ms) [] [])
| reach_step lab s s' :
    bp_reach mc ms S s -> bp_step lab s s' ->
    match lab with Start size _ => 0 <= size <= S | _ => True end -> bp_reach mc ms S s'.

(** ** Invariant *)

Definition total (l : list Z) : Z := foldr Z.add 0 l.

Lemma total_app l1 l2 : total (l1 ++ l2) = total l1 + total l2.
Proof. induction l1 as [|x l1 IH]; simpl; [done|]. unfold total in *. simpl. lia. Qed.

Lemma total_delete l i x : l !! i = Some x -> total l = x + total (delete i l).
Proof.
  intros E. rewrite <- (take_drop_middle l i x E) at 1. rewrite delete_take_drop, !total_app.
  unfold total at 2. simpl. fold (total (drop (Datatypes.S i) l)). lia.
Qed.

Lemma total_bounds S l : Forall (fun x => 0 <= x <= S) l -> 0 <= total l <= zlen l * S.
Proof. induction 1 as [|x l Hx Hl IH]; unfold total in *; simpl length; simpl foldr; lia. Qed.

Section limits.
Context (mc ms S : Z) (Hmc : 0 < mc < 2 ^ 31) (Hms : 0 < ms < 2 ^ 63) (HS : 0 <= S < 2 ^ 63).

Record bp_inv (s : bp_state) : Prop := mk_bp_inv {
  bi_curr : bp_curr s = mk_curr (zlen (bp_held s)) (total (bp_held s)) mc ms;
  bi_cnt : zlen (bp_held s) <= mc;
  bi_size : total (bp_held s) <= ms;
  bi_held : Forall (fun x => 0 <= x <= S) (bp_held s);
  bi_adders : Forall (fun a => 0 <= ad_size a <= S) (bp_adders s);
  bi_wait : mc * S <= ms -> forall i a, bp_adders s !! i = Some a -> ad_pc a = InWait ->
    zlen (bp_held s) = mc /\ ad_block a = true }.

(** The counters do not wrap. *)
Lemma full_spec held size :
  zlen held <= mc -> total held <= ms -> Forall (fun x => 0 <= x <= S) held -> 0 <= size <= S ->
  curr_msgs_full (mk_curr (zlen held) (total held) mc ms) 1 size =
    (mc <? zlen held + 1) || (ms <? total held + size).
Proof.
  intros H1 H2 H3 H4. pose proof (total_bounds S held H3). unfold curr_msgs_full. cbn [cm_cnt cm_size cm_max_cnt cm_max_size].
  rewrite !Z.gtb_ltb. by rewrite !uwrap_id by (unfold u_ok; lia).
Qed.

Lemma sub_spec held i size :
  zlen held <= mc -> total held <= ms -> Forall (fun x => 0 <= x <= S) held -> held !! i = Some size ->
  rd_kafka_curr_msgs_sub (mk_curr (zlen held) (total held) mc ms) 1 size =
    Ret (mk_curr (zlen (delete i held)) (total (delete i held)) mc ms,
         (mc <=? zlen held) || ((ms <=? total held) && (total held - size <? ms))).
Proof.
  intros H1 H2 H3 E. pose proof (total_bounds S held H3). pose proof (total_delete held i size E) as Ht.
  pose proof (length_delete held i (mk_is_Some _ _ E)) as Hl.
  apply lookup_lt_Some in E as Hlt.
  assert (0 <= total (delete i held)) by (pose proof (total_bounds S _ (Forall_delete _ _ i H3)); lia).
  unfold rd_kafka_curr_msgs_sub. cbn [cm_cnt cm_size cm_max_cnt cm_max_size]. rewrite !Z.geb_leb.
  assert (Hsz : 0 <= size <= S) by (exact (Forall_lookup_1 _ _ _ _ H3 E)).
  destruct (Z.leb_spec 1 (zlen held)); [|lia]. destruct (Z.leb_spec size (total held)); [|lia]. cbn [andb].
  rewrite !uwrap_id by (unfold u_ok; lia). f_equal. f_equal; [f_equal; lia|].
  destruct (Z.leb_spec mc (zlen held)); [|done]. destruct (Z.ltb_spec (zlen held - 1) mc); [done|lia].
Qed.

Lemma wake_size l : Forall (fun a => 0 <= ad_size a <= S) l -> Forall (fun a => 0 <= ad_size a <= S) (wake <$> l).
Proof. intros H. apply Forall_fmap. eapply Forall_impl; [exact H|]. by intros [? ? []]. Qed.

Lemma wake_not_waiting a : ad_pc (wake a) <> InWait.
Proof. by destruct a as [? ? []]. Qed.

Lemma release_inv held l i size :
  bp_inv (mk_bp (mk_curr (zlen held) (total held) mc ms) held l) -> held !! i = Some size ->
  bp_inv (mk_bp (mk_curr (zlen (delete i held)) (total (delete i held)) mc ms) (delete i held)
    (if (mc <=? zlen held) || ((ms <=? total held) && (total held - size <? ms)) then wake <$> l else l)).
Proof.
  intros [_ H1 H2 H3 H4 H5] E. cbn [bp_curr bp_held bp_adders] in *.
  pose proof (total_delete held i size E). pose proof (length_delete held i (mk_is_Some _ _ E)).
  assert (Hsz : 0 <= size <= S) by (exact (Forall_lookup_1 _ _ _ _ H3 E)).
  constructor; cbn [bp_curr bp_held bp_adders]; try done; try lia.
  - by apply Forall_delete.
  - destruct (_ || _); [by apply wake_size|done].
  - intros Hm j a Hj Hw. destruct (Z.leb_spec mc (zlen held)); cbn [orb] in Hj.
    + apply list_lookup_fmap_Some in Hj as (b & -> & _). by apply wake_not_waiting in Hw.
    + assert (exists b, l !! j = Some b /\ ad_pc b = InWait) as (b & Hb & Hbw).
      { destruct (_ && _); [|by exists a].
        apply list_lookup_fmap_Some in Hj as (b & -> & _). by apply wake_not_waiting in Hw. }
      destruct (H5 Hm j b Hb Hbw). lia.
Qed.

Lemma bp_step_inv lab s s' :
  bp_inv s -> bp_step lab s s' -> match lab with Start size _ => 0 <= size <= S | _ => True end -> bp_inv s'.
Proof.
  intros [Hc H1 H2 H3 H4 H5] Hs Hl. destruct Hs as [c held l size block|i c held l size block c' err E Hp
    |i c held l size block E Hp|i c held l size c' bc E Hp]; cbn [bp_curr bp_held bp_adders] in *; subst c.
  - constructor; cbn [bp_curr bp_held bp_adders]; try done.
    + apply Forall_app. split; [done|]. by apply Forall_singleton.
    + intros Hm i a Ha Hw. apply lookup_app_Some in Ha as [Ha|[_ Ha]]; [by eapply H5|].
      apply list_lookup_singleton_Some in Ha as [_ <-]. done.
  - assert (Hsz : 0 <= size <= S) by (exact (Forall_lookup_1 _ _ _ _ H4 E)).
    unfold curr_msgs_add_pass in Hp. rewrite full_spec in Hp by done.
    assert (Ha : Forall (fun a => 0 <= ad_size a <= S) (<[i:=mk_adder size block (Returned err)]> l))
      by (by apply Forall_insert).
    assert (Hw : mc * S <= ms -> forall j a, <[i:=mk_adder size block (Returned err)]> l !! j = Some a ->
      ad_pc a = InWait -> zlen held = mc /\ ad_block a = true).
    { intros Hm j a Hj Hw. apply list_lookup_insert_Some in Hj as [(-> & <- & _)|[_ Hj]]; [done|by eapply H5]. }
    destruct (Z.ltb_spec mc (zlen held + 1)) as [Hf|Hf]; cbn [orb] in Hp.
    { destruct block; [done|]. injection Hp as <- <-. by constructor. }
    destruct (Z.ltb_spec ms (total held + size)) as [Hf2|Hf2].
    { destruct block; [done|]. injection Hp as <- <-. by constructor. }
    injection Hp as <- <-. change (RD_KAFKA_RESP_ERR_NO_ERROR =? 0) with true. cbv iota. pose proof (total_bounds S held H3).
    assert (total [size] = size) by (unfold total; simpl; lia).
    constructor; cbn [bp_curr bp_held bp_adders]; rewrite ?length_app, ?total_app; simpl length; try done; try lia.
    + cbn [cm_cnt cm_size cm_max_cnt cm_max_size]. rewrite !uwrap_id by (unfold u_ok; lia). f_equal; lia.
    + apply Forall_app. split; [done|]. by apply Forall_singleton.
    + intros Hm j a Hj Hq. destruct (Hw Hm j a Hj Hq). lia.
  - assert (Hsz : 0 <= size <= S) by (exact (Forall_lookup_1 _ _ _ _ H4 E)).
    unfold curr_msgs_add_pass in Hp. rewrite full_spec in Hp by done.
    destruct ((mc <? zlen held + 1) || (ms <? total held + size)) eqn:Ef; [|done]. destruct block; [|done].
    constructor; cbn [bp_curr bp_held bp_adders]; try done; [by apply Forall_insert|].
    intros Hm j a Hj Hw. apply list_lookup_insert_Some in Hj as [(-> & <- & _)|[_ Hj]]; [|by eapply H5].
    split; [|done]. apply orb_true_iff in Ef as [Ef|Ef]; bool_hyps; [lia|].
    pose proof (total_bounds S held H3). nia.
  - rewrite (sub_spec held i size) in Hp by done. injection Hp as <- <-. eapply release_inv; [by constructor|done].
Qed.

Lemma bp_reach_inv s : bp_reach mc ms S s -> bp_inv s.
Proof.
  induction 1 as [|lab s s' _ IH Hs Hl]; [|by eapply bp_step_inv].
  constructor; simpl; try done; try lia.
Qed.
End limits.

(** ** Properties *)

(** C24. In every reachable state the counters are exactly the number and the
    total size of the messages held, within both limits, and releasing any held
    message passes the assertion of [rd_kafka_curr_msgs_sub].  When the size
    limit cannot be reached before the count limit, no wake-up is lost: a thread
    waits only while the queue is full, releasing any message wakes it, and the
    thread then gets its message accepted if it runs next. *)
Theorem backpressure_live (mc ms S : Z) (s : bp_state)
    (Hmc : 0 < mc < 2 ^ 31) (Hms : 0 < ms < 2 ^ 63) (HS : 0 <= S < 2 ^ 63) (Hr : bp_reach mc ms S s) :
  (bp_curr s = mk_curr (zlen (bp_held s)) (total (bp_held s)) mc ms /\
   zlen (bp_held s) <= mc /\ total (bp_held s) <= ms) /\
  (forall j, (j < length (bp_held s))%nat -> exists s', bp_step (Release j) s s') /\
  (mc * S <= ms -> forall i size block, bp_adders s !! i = Some (mk_adder size block InWait) ->
     zlen (bp_held s) = mc /\
     forall j s1, bp_step (Release j) s s1 ->
       bp_adders s1 !! i = Some (mk_adder size block AtCheck) /\
       exists s2, bp_step (Pass i) s1 s2 /\
         bp_adders s2 !! i = Some (mk_adder size block (Returned RD_KAFKA_RESP_ERR_NO_ERROR))).
Proof.
  destruct (bp_reach_inv mc ms S Hmc Hms HS s Hr) as [Hc H1 H2 H3 H4 H5].
  destruct s as [c held l]. cbn [bp_curr bp_held bp_adders] in *. subst c. split; [done|]. split.
  - intros j Hj. destruct (lookup_lt_is_Some_2 held j Hj) as [size E].
    eexists. eapply step_release; [done|]. by apply (sub_spec mc ms S).
  - intros Hm i size block Hi. destruct (H5 Hm i _ Hi eq_refl) as [Hfull _]. split; [done|].
    intros j s1 Hs. inversion Hs as [| | |j' c' held' l' sz c1 bc E Hp]; subst.
    rewrite (sub_spec (zlen held) ms S) with (i := j) in Hp by (done || lia). injection Hp as <- <-.
    rewrite Z.leb_refl. cbn [orb bp_adders].
    pose proof (total_bounds S held H3). pose proof (total_delete held j sz E).
    pose proof (length_delete held j (mk_is_Some _ _ E)).
    assert (Hsz : 0 <= size <= S) by (exact (Forall_lookup_1 _ _ _ _ H4 Hi)).
    assert (Hd : Forall (fun x => 0 <= x <= S) (delete j held)) by (by apply Forall_delete).
    pose proof (total_bounds S _ Hd). assert (0 <= sz <= S) by (exact (Forall_lookup_1 _ _ _ _ H3 E)).
    assert (Hl : (wake <$> l) !! i = Some (mk_adder size block AtCheck)) by (by rewrite list_lookup_fmap, Hi).
    split; [done|]. eexists. split; [eapply step_return; [exact Hl|]|].
    + unfold curr_msgs_add_pass. rewrite (full_spec (zlen held) ms S) by (done || lia).
      destruct (Z.ltb_spec (zlen held) (zlen (delete j held) + 1)); [lia|].
      destruct (Z.ltb_spec ms (total (delete j held) + size)); [nia|]. done.
    + apply list_lookup_insert_eq. by apply lookup_lt_Some in Hl.
Qed.

Lemma backpressure_live_witness :
  exists s, bp_reach 1 10 10 s /\ bp_held s = [4] /\ bp_adders s !! 1%nat = Some (mk_adder 6 true InWait) /\
    zlen (bp_held s) = 1.
Proof.
  assert (Hr : bp_reach 1 10 10 (mk_bp (mk_curr 1 4 1 10) [4]
            [mk_adder 4 false (Returned 0); mk_adder 6 true InWait])).
  { eapply (reach_step _ _ _ (Pass 1)); [|by apply (step_wait 1 _ [4] [mk_adder 4 false (Returned 0); mk_adder 6 true AtCheck])|done].
    eapply (reach_step _ _ _ (Start 6 true)); [|apply (step_start _ _ [mk_adder 4 false (Returned 0)])|lia].
    eapply (reach_step _ _ _ (Pass 0)); [|by apply (step_return 0 (mk_curr 0 0 1 10) [] [mk_adder 4 false AtCheck] 4 false _ 0)|done].
    eapply (reach_step _ _ _ (Start 4 false)); [apply reach_init|apply (step_start _ _ [])|lia]. }
  eexists. split; [exact Hr|]. split; [done|]. split; [done|].
  destruct (backpressure_live 1 10 10 _ ltac:(lia) ltac:(lia) ltac:(lia) Hr) as (_ & _ & H).
  exact (proj1 (H ltac:(lia) 1%nat 6 true eq_refl)).
Defined.

(** Steps of the threads already there. *)
Definition bp_quiet (s s' : bp_state) : Prop := exists lab, (forall z b, lab <> Start z b) /\ bp_step lab s s'.

Lemma quiet_stuck c a l s s' :
  rtc bp_quiet s s' -> s = mk_bp c [] [mk_adder a false (Returned 0); l] -> ad_pc l = InWait -> s' = s.
Proof.
  intros H Hs Hl. induction H as [|x y z (lab & Hn & Hy) _ IH]; [done|]. subst x.
  inversion Hy as [c0 h0 l0 sz bl|i c0 h0 l0 sz bl c1 err E Hp|i c0 h0 l0 sz bl E Hp|i c0 h0 l0 sz c1 bc E Hp]; subst.
  - by destruct (Hn sz bl).
  - destruct i as [|[|i]]; simpl in E; [done|injection E as ->; done|done].
  - destruct i as [|[|i]]; simpl in E; [done|injection E as ->; done|done].
  - done.
Qed.

(** A wake-up is lost when the size limit is the one that blocks: with one
    message of [a] bytes held below the limit [ms], a call that adds [b] bytes
    and would pass it waits; releasing the message leaves the producer empty but
    does not broadcast, because the size was below the limit all along.  The
    thread then waits although its message fits, and no step of the threads
    there wakes it. *)
Theorem blocked_by_size_never_woken (mc ms a b : Z)
    (Hmc : 1 < mc < 2 ^ 31) (Hms : 0 < ms < 2 ^ 63) (Ha : 0 < a < ms) (Hb : b <= ms < a + b) :
  exists s, bp_reach mc ms ms s /\ bp_held s = [] /\
    bp_adders s !! 1%nat = Some (mk_adder b true InWait) /\
    curr_msgs_full (bp_curr s) 1 b = false /\
    forall s', rtc bp_quiet s s' -> bp_adders s' !! 1%nat = Some (mk_adder b true InWait).
Proof.
  set (t := mk_adder a false (Returned 0)).
  assert (Ht : total [a] = a) by (unfold total; simpl; lia).
  assert (H1 : Forall (fun x => 0 <= x <= ms) [a]) by (apply Forall_singleton; lia).
  assert (Hf : forall held size, zlen held <= mc -> total held <= ms -> Forall (fun x => 0 <= x <= ms) held -> 0 <= size <= ms ->
    curr_msgs_full (mk_curr (zlen held) (total held) mc ms) 1 size = (mc <? zlen held + 1) || (ms <? total held + size))
    by (intros; apply (full_spec mc ms ms); done || lia).
  assert (Hr1 : bp_reach mc ms ms (mk_bp (mk_curr 1 a mc ms) [a] [t])).
  { eapply (reach_step _ _ _ (Pass 0)); [eapply (reach_step _ _ _ (Start a false)); [apply reach_init|apply (step_start _ _ [])|lia]| |done].
    eapply (step_return 0 _ [] [mk_adder a false AtCheck] a false _ 0); [done|]. unfold curr_msgs_add_pass.
    rewrite (Hf []) by (done || (simpl; lia)). simpl length. unfold total. simpl foldr.
    destruct (Z.ltb_spec mc (Z.of_nat 0 + 1)); [lia|]. destruct (Z.ltb_spec ms (0 + a)); [lia|]. cbn [orb cm_cnt cm_size cm_max_cnt cm_max_size].
    rewrite !uwrap_id by (unfold u_ok; lia). done. }
  assert (Hr2 : bp_reach mc ms ms (mk_bp (mk_curr 1 a mc ms) [a] [t; mk_adder b true InWait])).
  { eapply (reach_step _ _ _ (Pass 1)); [eapply (reach_step _ _ _ (Start b true)); [exact Hr1|apply (step_start _ _ [t])|lia]| |done].
    eapply (step_wait 1 _ [a] [t; mk_adder b true AtCheck]); [done|]. unfold curr_msgs_add_pass.
    assert (E := Hf [a] b). rewrite Ht in E. change (zlen [a]) with 1 in E. rewrite E by (done || lia).
    destruct (Z.ltb_spec ms (a + b)); [|lia]. by rewrite orb_true_r. }
  exists (mk_bp (mk_curr 0 0 mc ms) [] [t; mk_adder b true InWait]). split_and!; [|done|done| |].
  - eapply (reach_step _ _ _ (Release 0)); [exact Hr2| |done].
    eapply (step_release 0 _ [a] [t; mk_adder b true InWait] a _ false); [done|].
    assert (E : rd_kafka_curr_msgs_sub (mk_curr (zlen [a]) (total [a]) mc ms) 1 a =
      Ret (mk_curr 0 0 mc ms, (mc <=? zlen [a]) || ((ms <=? total [a]) && (total [a] - a <? ms))))
      by (apply (sub_spec mc ms ms) with (i := 0%nat); done || (rewrite ?Ht; simpl; lia)).
    rewrite Ht in E. change (zlen [a]) with 1 in E. rewrite E.
    destruct (Z.leb_spec mc 1); [lia|]. destruct (Z.leb_spec ms a); [lia|]. done.
  - change (curr_msgs_full (mk_curr (zlen (@nil Z)) (total []) mc ms) 1 b = false).
    rewrite (Hf []) by (done || (simpl; lia)). simpl length. unfold total. simpl foldr.
    destruct (Z.ltb_spec mc (Z.of_nat 0 + 1)); [lia|]. destruct (Z.ltb_spec ms (0 + b)); [lia|]. done.
  - intros s' Hs. by rewrite (quiet_stuck _ _ _ _ _ Hs eq_refl).
Qed.

Lemma blocked_by_size_never_woken_witness :
  exists s, bp_reach 100 1000 1000 s /\ bp_held s = [] /\
    bp_adders s !! 1%nat = Some (mk_adder 500 true InWait) /\ curr_msgs_full (bp_curr s) 1 500 = false.
Proof.
  destruct (blocked_by_size_never_woken 100 1000 600 500 ltac:(lia) ltac:(lia) ltac:(lia) ltac:(lia))
    as (s & H1 & H2 & H3 & H4 & _). by exists s.
Defined.
