(* ===== verification/Produce.v ===== *)
(** * Producing messages: the producer functions of rdkafka_msg.c and the
    partition lookup of rdkafka_partition.c

    The state is what one topic of a producer holds: the message counters of
    the client, the partitions and the unassigned partition of the topic, and a
    log of the calls of the interceptors and of the payloads freed.  Messages
    get the next free address.  Locks, reference counts, statistics and the
    application's opaque pointers are left out. *)
From Stdlib Require Import ZArith Lia.
From stdpp Require Import base numbers list.
From S2P Require Import Prelude Varint RdList Proto Header Msg CurrMsgs.

(** ** Data *)

Definition RD_KAFKA_MSG_F_FREE : Z := 0x1.
Definition RD_KAFKA_MSG_F_COPY : Z := 0x2.
Definition RD_KAFKA_MSG_F_BLOCK : Z := 0x4.
Definition RD_KAFKA_MSG_F_PARTITION : Z := 0x8.
Definition RD_KAFKA_MSG_F_FREE_RKM : Z := 0x10000.
Definition RD_KAFKA_MSG_F_ACCOUNT : Z := 0x20000.
Definition RD_KAFKA_MSG_F_RKT_RDLOCKED : Z := 0x100000.

Inductive topic_state : Type :=
| RD_KAFKA_TOPIC_S_UNKNOWN
| RD_KAFKA_TOPIC_S_EXISTS
| RD_KAFKA_TOPIC_S_NOTEXISTS.

Record rd_kafka_itopic : Type := mk_rkt {
  rkt_state : topic_state;
  rkt_p : list rd_kafka_toppar;
  rkt_ua : option rd_kafka_toppar;
  rkt_message_timeout_ms : Z }.

Definition rkt_partition_cnt (rkt : rd_kafka_itopic) : Z := zlen (rkt_p rkt).

(** The calls of the interceptors, by message address or by index in the
    array of the application, and the payloads freed. *)
Inductive event : Type :=
| on_send (ptr : Z)
| on_acknowledgement (ptr err : Z)
| on_acknowledgement_app (i err : Z)
| payload_freed (ptr : Z).

Record rd_kafka : Type := mk_rk {
  rk_curr_msgs : curr_msgs;
  rk_max_msg_size : Z;
  rk_rkt : rd_kafka_itopic;
  rk_next : Z;
  rk_log : list event }.

Definition set_rk_curr (c : curr_msgs) (rk : rd_kafka) : rd_kafka :=
  mk_rk c (rk_max_msg_size rk) (rk_rkt rk) (rk_next rk) (rk_log rk).
Definition set_rk_rkt (t : rd_kafka_itopic) (rk : rd_kafka) : rd_kafka :=
  mk_rk (rk_curr_msgs rk) (rk_max_msg_size rk) t (rk_next rk) (rk_log rk).
Definition rk_event (e : event) (rk : rd_kafka) : rd_kafka :=
  mk_rk (rk_curr_msgs rk) (rk_max_msg_size rk) (rk_rkt rk) (rk_next rk) (rk_log rk ++ [e]).

Definition flag (f flags : Z) : bool := negb (Z.land flags f =? 0).

Definition set_rkm_flags (flags : Z) (m : rd_kafka_msg) : rd_kafka_msg :=
  mk_rkm (rkm_ptr m) (rkm_len m) (rkm_payload m) (rkm_partition m) (rkm_offset m) (rkm_key m)
    (rkm_key_len m) (rkm_err m) flags (rkm_timestamp m) (rkm_tstype m) (rkm_headers m)
    (rkm_ts_timeout m) (rkm_ts_enq m) (rkm_ts_backoff m) (rkm_msgseq m) (rkm_retries m) (rkm_binhdrs m).
Definition set_rkm_partition (p : Z) (m : rd_kafka_msg) : rd_kafka_msg :=
  mk_rkm (rkm_ptr m) (rkm_len m) (rkm_payload m) p (rkm_offset m) (rkm_key m)
    (rkm_key_len m) (rkm_err m) (rkm_flags m) (rkm_timestamp m) (rkm_tstype m) (rkm_headers m)
    (rkm_ts_timeout m) (rkm_ts_enq m) (rkm_ts_backoff m) (rkm_msgseq m) (rkm_retries m) (rkm_binhdrs m).

(** ** Code: partitions *)

(** A partition of the topic: the unassigned one or one of the array. *)
Inductive slot : Type := Ua | Part (i : nat).

Definition slot_toppar (rkt : rd_kafka_itopic) (s : slot) : option rd_kafka_toppar :=
  match s with Ua => rkt_ua rkt | Part i => rkt_p rkt !! i end.

Definition set_slot (rkt : rd_kafka_itopic) (s : slot) (p : rd_kafka_toppar) : rd_kafka_itopic :=
  match s with
  | Ua => mk_rkt (rkt_state rkt) (rkt_p rkt) (Some p) (rkt_message_timeout_ms rkt)
  | Part i => mk_rkt (rkt_state rkt) (<[i := p]> (rkt_p rkt)) (rkt_ua rkt) (rkt_message_timeout_ms rkt)
  end.

Definition rd_kafka_toppar_get (rkt : rd_kafka_itopic) (partition : Z) (ua_on_miss : bool) : option slot :=
  if (partition >=? 0) && (partition <? rkt_partition_cnt rkt) then Some (Part (Z.to_nat partition))
  else if (partition =? RD_KAFKA_PARTITION_UA) || ua_on_miss then
    match rkt_ua rkt with Some _ => Some Ua | None => None end
  else None.

(** The partition, or the error stored at [errp]. *)
Definition rd_kafka_toppar_get_avail (rkt : rd_kafka_itopic) (partition : Z) : Z + slot :=
  let get partition :=
    match rd_kafka_toppar_get rkt partition false with
    | Some s => inr s
    | None => inl RD_KAFKA_RESP_ERR__UNKNOWN_PARTITION
    end in
  match rkt_state rkt with
  | RD_KAFKA_TOPIC_S_UNKNOWN => get RD_KAFKA_PARTITION_UA
  | RD_KAFKA_TOPIC_S_NOTEXISTS => inl RD_KAFKA_RESP_ERR__UNKNOWN_TOPIC
  | RD_KAFKA_TOPIC_S_EXISTS =>
      if rkt_partition_cnt rkt =? 0 then get RD_KAFKA_PARTITION_UA
      else if partition >=? rkt_partition_cnt rkt then inl RD_KAFKA_RESP_ERR__UNKNOWN_PARTITION
      else get partition
  end.

(** [rd_kafka_toppar_enq_msg] on a partition of the topic; [None] is a NULL
    pointer. *)
Definition enq_slot (rk : rd_kafka) (s : option slot) (rkm : rd_kafka_msg) : outcome rd_kafka :=
  match s with
  | None => Crash
  | Some s =>
      match slot_toppar (rk_rkt rk) s with
      | None => Crash
      | Some rktp => Ret (set_rk_rkt (set_slot (rk_rkt rk) s (rd_kafka_toppar_enq_msg rktp rkm)) rk)
      end
  end.

(** ** Code: messages *)

(** [len] bytes copied from memory. *)
Definition mem_copy (mem : list Z) (len : Z) : outcome (list Z) :=
  if len <=? zlen mem then Ret (ztake len mem) else Crash.

Definition rd_kafka_msg_destroy (rk : rd_kafka) (rkm : rd_kafka_msg) : outcome rd_kafka :=
  let! rk := (if flag RD_KAFKA_MSG_F_ACCOUNT (rkm_flags rkm) then
                let! (c, _) := rd_kafka_curr_msgs_sub (rk_curr_msgs rk) 1 (rkm_len rkm) in Ret (set_rk_curr c rk)
              else Ret rk) in
  if flag RD_KAFKA_MSG_F_FREE (rkm_flags rkm) && bool_decide (is_Some (rkm_payload rkm))
  then Ret (rk_event (payload_freed (rkm_ptr rkm)) rk) else Ret rk.

Definition rd_kafka_msg_new00 (ptr partition msgflags : Z) (payload : option (list Z)) (len : Z)
    (key : option (list Z)) (keylen : Z) : outcome rd_kafka_msg :=
  let copy := flag RD_KAFKA_MSG_F_COPY msgflags in
  let msgflags := if copy then Z.land msgflags (Z.lnot RD_KAFKA_MSG_F_FREE) else msgflags in
  let! payload := (match payload with
                   | Some p => if copy then let! d := mem_copy p len in Ret (Some d) else Ret (Some p)
                   | None => Ret None
                   end) in
  let! (key, keylen) := (match key with
                         | Some k => let! d := mem_copy k keylen in Ret (Some d, keylen)
                         | None => Ret (None, 0)
                         end) in
  Ret (mk_rkm ptr len payload partition RD_KAFKA_OFFSET_INVALID key keylen 0
         (Z.lor (Z.lor RD_KAFKA_MSG_F_PRODUCER RD_KAFKA_MSG_F_FREE_RKM) msgflags) 0
         RD_KAFKA_TIMESTAMP_NOT_AVAILABLE None 0 0 0 0 0 (mk_kbytes 0 None [])).

Inductive errno : Type := E0 | EMSGSIZE | ENOBUFS | ESRCH | ENOENT | EINVAL.

Section produce.
(** [rkt_conf.partitioner] on key, key length and partition count;
    [rd_uclock() / 1000] and [rd_clock()]. *)
Context (partitioner : option (list Z) -> Z -> Z -> Z) (utc_now now : Z).

(** The message created, or the error code and [errno]. *)
Definition rd_kafka_msg_new0 (rk : rd_kafka) (force_partition msgflags : Z) (payload : option (list Z)) (len : Z)
    (key : option (list Z)) (keylen : Z) (hdrs : option rd_kafka_headers) (timestamp : Z)
  : outcome (rd_kafka * (Z * errno + rd_kafka_msg)) :=
  let len := match payload with Some _ => len | None => 0 end in
  let keylen := match key with Some _ => keylen | None => 0 end in
  let hdrs_size := match hdrs with Some h => rd_kafka_headers_serialized_size h | None => 0 end in
  if (u64 (len + keylen + hdrs_size) >? rk_max_msg_size rk) || (keylen >? 2 ^ 31 - 1)
  then Ret (rk, inl (RD_KAFKA_RESP_ERR_MSG_SIZE_TOO_LARGE, EMSGSIZE))
  else
    let! (c, err) := rd_kafka_curr_msgs_add (rk_curr_msgs rk) 1 len (flag RD_KAFKA_MSG_F_BLOCK msgflags) in
    if negb (err =? 0) then Ret (rk, inl (err, ENOBUFS))
    else
      let! rkm := rd_kafka_msg_new00 (rk_next rk) force_partition (Z.lor msgflags RD_KAFKA_MSG_F_ACCOUNT)
                    payload len key keylen in
      let ts_timeout := if rkt_message_timeout_ms (rk_rkt rk) =? 0 then 2 ^ 63 - 1
                        else now + rkt_message_timeout_ms (rk_rkt rk) * 1000 in
      let rkm := mk_rkm (rkm_ptr rkm) (rkm_len rkm) (rkm_payload rkm) (rkm_partition rkm) (rkm_offset rkm)
                   (rkm_key rkm) (rkm_key_len rkm) (rkm_err rkm) (rkm_flags rkm)
                   (if timestamp =? 0 then utc_now else timestamp) RD_KAFKA_TIMESTAMP_CREATE_TIME hdrs
                   ts_timeout now 0 0 0 (rkm_binhdrs rkm) in
      let rk := mk_rk c (rk_max_msg_size rk) (rk_rkt rk) (rk_next rk + 1) (rk_log rk) in
      Ret (rk_event (on_send (rkm_ptr rkm)) rk, inr rkm).

Definition rd_kafka_msg_partitioner (rk : rd_kafka) (rkm : rd_kafka_msg) : outcome (rd_kafka * Z) :=
  let rkt := rk_rkt rk in
  let enq partition :=
    match rd_kafka_toppar_get rkt partition false with
    | None => Ret (rk, RD_KAFKA_RESP_ERR__UNKNOWN_PARTITION)
    | Some s =>
        let rkm := if rkm_partition rkm =? RD_KAFKA_PARTITION_UA then set_rkm_partition partition rkm else rkm in
        let! rk := enq_slot rk (Some s) rkm in Ret (rk, 0)
    end in
  match rkt_state rkt with
  | RD_KAFKA_TOPIC_S_UNKNOWN => enq RD_KAFKA_PARTITION_UA
  | RD_KAFKA_TOPIC_S_NOTEXISTS => Ret (rk, RD_KAFKA_RESP_ERR__UNKNOWN_TOPIC)
  | RD_KAFKA_TOPIC_S_EXISTS =>
      if rkt_partition_cnt rkt =? 0 then enq RD_KAFKA_PARTITION_UA
      else
        let partition := if rkm_partition rkm =? RD_KAFKA_PARTITION_UA
                         then partitioner (rkm_key rkm) (rkm_key_len rkm) (rkt_partition_cnt rkt)
                         else rkm_partition rkm in
        if partition >=? rkt_partition_cnt rkt then Ret (rk, RD_KAFKA_RESP_ERR__UNKNOWN_PARTITION)
        else enq partition
  end.

(** The return value and the error and [errno] of [rd_kafka_set_last_error]. *)
Definition rd_kafka_msg_new (rk : rd_kafka) (force_partition msgflags : Z) (payload : option (list Z)) (len : Z)
    (key : option (list Z)) (keylen : Z) : outcome (rd_kafka * (Z * (Z * errno))) :=
  let! (rk, r) := rd_kafka_msg_new0 rk force_partition msgflags payload len key keylen None 0 in
  match r with
  | inl e => Ret (rk, (-1, e))
  | inr rkm =>
      let! (rk, err) := rd_kafka_msg_partitioner rk rkm in
      if err =? 0 then Ret (rk, (0, (0, E0)))
      else
        let rk := rk_event (on_acknowledgement (rkm_ptr rkm) err) rk in
        let rkm := set_rkm_flags (Z.land (rkm_flags rkm) (Z.lnot RD_KAFKA_MSG_F_FREE)) rkm in
        let! rk := rd_kafka_msg_destroy rk rkm in
        let e := if err =? RD_KAFKA_RESP_ERR__UNKNOWN_PARTITION then ESRCH
                 else if err =? RD_KAFKA_RESP_ERR__UNKNOWN_TOPIC then ENOENT else EINVAL in
        Ret (rk, (-1, (err, e)))
  end.

(** The arguments of [rd_kafka_producev]; a topic argument tells whether
    [rd_kafka_topic_new0] returned a topic. *)
Inductive vtype_arg : Type :=
| V_TOPIC (created : bool)
| V_RKT
| V_PARTITION (p : Z)
| V_VALUE (p : option (list Z)) (len : Z)
| V_KEY (p : option (list Z)) (len : Z)
| V_OPAQUE
| V_MSGFLAGS (flags : Z)
| V_TIMESTAMP (ts : Z)
| V_HEADER (name : list Z) (value : option (list Z)) (size : Z)
| V_HEADERS (hdrs : rd_kafka_headers)
| V_UNKNOWN (vtype : Z).

(** The local variables of [rd_kafka_producev]. *)
Record vargs : Type := mk_vargs {
  va_rkt : bool;
  va_partition : Z;
  va_payload : option (list Z);
  va_len : Z;
  va_key : option (list Z);
  va_key_len : Z;
  va_flags : Z;
  va_timestamp : Z;
  va_hdrs : option rd_kafka_headers;
  va_app_hdrs : option rd_kafka_headers }.

Definition vargs_init : vargs := mk_vargs false RD_KAFKA_PARTITION_UA None 0 None 0 0 0 None None.

(** One argument: the new variables and the error code. *)
Definition varg_step (a : vargs) (v : vtype_arg) : outcome (vargs * Z) :=
  let '(mk_vargs rkt part pl plen k klen fl ts h ah) := a in
  match v with
  | V_TOPIC created => Ret (mk_vargs created part pl plen k klen fl ts h ah, 0)
  | V_RKT => Ret (mk_vargs true part pl plen k klen fl ts h ah, 0)
  | V_PARTITION p => Ret (mk_vargs rkt p pl plen k klen fl ts h ah, 0)
  | V_VALUE p len => Ret (mk_vargs rkt part p len k klen fl ts h ah, 0)
  | V_KEY p len => Ret (mk_vargs rkt part pl plen p len fl ts h ah, 0)
  | V_OPAQUE => Ret (a, 0)
  | V_MSGFLAGS f => Ret (mk_vargs rkt part pl plen k klen f ts h ah, 0)
  | V_TIMESTAMP t => Ret (mk_vargs rkt part pl plen k klen fl t h ah, 0)
  | V_HEADER name value size =>
      match ah with
      | Some _ => Ret (a, RD_KAFKA_RESP_ERR__CONFLICT)
      | None =>
          let! hdrs := (match h with Some hdrs => Ret hdrs | None => rd_kafka_headers_new 8 end) in
          let! (hdrs, err) := rd_kafka_header_add hdrs name (-1) value size in
          Ret (mk_vargs rkt part pl plen k klen fl ts (Some hdrs) ah, err)
      end
  | V_HEADERS hdrs =>
      match h with
      | Some _ => Ret (a, RD_KAFKA_RESP_ERR__CONFLICT)
      | None => Ret (mk_vargs rkt part pl plen k klen fl ts h (Some hdrs), 0)
      end
  | V_UNKNOWN _ => Ret (a, RD_KAFKA_RESP_ERR__INVALID_ARG)
  end.

Fixpoint vargs_loop (l : list vtype_arg) (a : vargs) : outcome (vargs * Z) :=
  match l with
  | [] => Ret (a, 0)
  | v :: l =>
      let! (a, err) := varg_step a v in
      if err =? 0 then vargs_loop l a else Ret (a, err)
  end.

Definition rd_kafka_producev (rk : rd_kafka) (args : list vtype_arg) : outcome (rd_kafka * Z) :=
  let! (a, err) := vargs_loop args vargs_init in
  if negb (va_rkt a) then Ret (rk, RD_KAFKA_RESP_ERR__INVALID_ARG)
  else if negb (err =? 0) then Ret (rk, err)
  else
    let hdrs := match va_app_hdrs a with Some h => Some h | None => va_hdrs a end in
    let! (rk, r) := rd_kafka_msg_new0 rk (va_partition a) (va_flags a) (va_payload a) (va_len a)
                      (va_key a) (va_key_len a) hdrs (va_timestamp a) in
    match r with
    | inl (err, _) => Ret (rk, err)
    | inr rkm =>
        let! (rk, err) := rd_kafka_msg_partitioner rk rkm in
        if err =? 0 then Ret (rk, 0)
        else
          let rk := rk_event (on_acknowledgement (rkm_ptr rkm) err) rk in
          let rkm := set_rkm_flags (Z.land (rkm_flags rkm) (Z.lnot RD_KAFKA_MSG_F_FREE)) rkm in
          let! rk := rd_kafka_msg_destroy rk rkm in
          Ret (rk, err)
    end.

(** An element of the array given to [rd_kafka_produce_batch]. *)
Record rd_kafka_message : Type := mk_message_arg {
  ma_payload : option (list Z);
  ma_len : Z;
  ma_key : option (list Z);
  ma_key_len : Z;
  ma_partition : Z }.

(** The partition of a message that names it: the one of the message before, or
    a new one, NULL with an error when the topic does not have it. *)
Definition batch_target (rkt : rd_kafka_itopic) (rktp : option slot) (partition all_err : Z) : option slot * Z :=
  let reuse := match rktp with
               | None => false
               | Some s => match slot_toppar rkt s with
                           | Some p => partition =? rktp_partition p
                           | None => false
                           end
               end in
  if reuse then (rktp, all_err)
  else match rd_kafka_toppar_get_avail rkt partition with
       | inr s => (Some s, all_err)
       | inl e => (None, e)
       end.

(** The loop from index [i] on: the error codes stored in the array and the
    number of messages enqueued are appended to [errs] and [good]. *)
Fixpoint produce_batch_loop (multiple_partitions : bool) (partition msgflags : Z) (rktp : option slot)
    (rk : rd_kafka) (all_err i : Z) (l : list rd_kafka_message) (errs : list Z) (good : Z)
  : outcome (rd_kafka * list Z * Z) :=
  match l with
  | [] => Ret (rk, errs, good)
  | a :: l =>
      if negb (all_err =? 0)
      then produce_batch_loop multiple_partitions partition msgflags rktp rk all_err (i + 1) l (errs ++ [all_err]) good
      else
        let! (rk, r) := rd_kafka_msg_new0 rk
                          (if flag RD_KAFKA_MSG_F_PARTITION msgflags then ma_partition a else partition) msgflags
                          (ma_payload a) (ma_len a) (ma_key a) (ma_key_len a) None utc_now in
        match r with
        | inl (err, _) =>
            let all_err := if err =? RD_KAFKA_RESP_ERR__QUEUE_FULL then err else all_err in
            produce_batch_loop multiple_partitions partition msgflags rktp rk all_err (i + 1) l (errs ++ [err]) good
        | inr rkm =>
            if multiple_partitions then
              if rkm_partition rkm =? RD_KAFKA_PARTITION_UA then
                let! (rk, err) := rd_kafka_msg_partitioner rk rkm in
                if negb (err =? 0) then
                  let! rk := rd_kafka_msg_destroy (rk_event (on_acknowledgement_app i err) rk) rkm in
                  produce_batch_loop multiple_partitions partition msgflags rktp rk all_err (i + 1) l (errs ++ [err]) good
                else
                  produce_batch_loop multiple_partitions partition msgflags rktp rk all_err (i + 1) l (errs ++ [0]) (good + 1)
              else
                let '(rktp, all_err) := batch_target (rk_rkt rk) rktp (rkm_partition rkm) all_err in
                let! rk := enq_slot rk rktp rkm in
                produce_batch_loop multiple_partitions partition msgflags rktp rk all_err (i + 1) l (errs ++ [0]) (good + 1)
            else
              let! rk := enq_slot rk rktp rkm in
              produce_batch_loop multiple_partitions partition msgflags rktp rk all_err (i + 1) l (errs ++ [0]) (good + 1)
        end
  end.

Definition rd_kafka_produce_batch (rk : rd_kafka) (partition msgflags : Z) (rkmessages : list rd_kafka_message)
  : outcome (rd_kafka * list Z * Z) :=
  let multiple_partitions := (partition =? RD_KAFKA_PARTITION_UA) || flag RD_KAFKA_MSG_F_PARTITION msgflags in
  if multiple_partitions
  then produce_batch_loop true partition (Z.lor msgflags RD_KAFKA_MSG_F_RKT_RDLOCKED) None rk 0 0 rkmessages [] 0
  else
    let '(rktp, all_err) := match rd_kafka_toppar_get_avail (rk_rkt rk) partition with
                            | inr s => (Some s, 0)
                            | inl e => (None, e)
                            end in
    produce_batch_loop false partition msgflags rktp rk all_err 0 rkmessages [] 0.
End produce.

(** ** Code: accessors of messages *)

(** The timestamp and its type; [-1] for a message with an error. *)
Definition rd_kafka_message_timestamp (err : Z) (rkm : rd_kafka_msg) : Z * rd_kafka_timestamp_type :=
  if negb (err =? 0) then (-1, RD_KAFKA_TIMESTAMP_NOT_AVAILABLE) else (rkm_timestamp rkm, rkm_tstype rkm).

Definition rd_kafka_message_latency (clock : Z) (rkm : rd_kafka_msg) : Z :=
  if rkm_ts_enq rkm =? 0 then -1 else clock - rkm_ts_enq rkm.
