(* ===== verification/ProduceApi.v ===== *)
(** * The producer functions: accepted messages, rejected messages, accounting

    The counters of the client are exact in every state between calls, and a
    call either enqueues its message on the partition it belongs to or leaves
    the queues and the counters as they were. *)
From Stdlib Require Import ZArith Lia.
From stdpp Require Import base numbers list.
From S2P Require Import Prelude Varint RdList Proto Header Msg MsgqSpec CurrMsgs Produce.

(** ** State invariant *)

Definition toppar_msgs (p : rd_kafka_toppar) : list rd_kafka_msg :=
  rkmq_msgs (rktp_msgq p) ++ rkmq_msgs (rktp_xmit_msgq p).

(** The messages of a topic. *)
Definition topic_msgs (t : rd_kafka_itopic) : list rd_kafka_msg :=
  match rkt_ua t with Some p => toppar_msgs p | None => [] end ++ (rkt_p t ≫= toppar_msgs).

Definition held (rk : rd_kafka) : list rd_kafka_msg := topic_msgs (rk_rkt rk).

Definition toppar_ok (p : rd_kafka_toppar) : Prop := msgq_ok (rktp_msgq p) /\ msgq_ok (rktp_xmit_msgq p).

Definition topic_ok (t : rd_kafka_itopic) : Prop :=
  Forall toppar_ok (rkt_p t) /\ match rkt_ua t with Some p => toppar_ok p | None => True end.

Definition len_ok (z : Z) : Prop := 0 <= z <= 2 ^ 63 - 1.

(** The counters are those of the messages held and of [extra], the messages
    in the hands of the running call. *)
Record producer_ok (rk : rd_kafka) (extra : list rd_kafka_msg) : Prop := mk_producer_ok {
  po_curr : let c := rk_curr_msgs rk in let l := rkm_len <$> (extra ++ held rk) in
    c = mk_curr (zlen l) (total l) (cm_max_cnt c) (cm_max_size c) /\
    (0 < cm_max_cnt c < 2 ^ 31 /\ 0 < cm_max_size c < 2 ^ 63) /\
    zlen l <= cm_max_cnt c /\ total l <= cm_max_size c /\ Forall len_ok l;
  po_topic : topic_ok (rk_rkt rk);
  po_ptrs : NoDup (ptrs (extra ++ held rk)) /\ Forall (fun p => p < rk_next rk) (ptrs (extra ++ held rk));
  po_max : 0 <= rk_max_msg_size rk < 2 ^ 31 }.

(** ** Partitions *)

Lemma toppar_get_some t p b s : rd_kafka_toppar_get t p b = Some s -> is_Some (slot_toppar t s).
Proof.
  unfold rd_kafka_toppar_get, rkt_partition_cnt. rewrite Z.geb_leb.
  destruct (Z.leb_spec 0 p); destruct (Z.ltb_spec p (zlen (rkt_p t))); cbn [andb];
    try (destruct (_ || _); [|done]; destruct (rkt_ua t) eqn:E; [|done]; intros [= <-]; simpl; by rewrite E).
  intros [= <-]. simpl. apply lookup_lt_is_Some. lia.
Qed.

Lemma get_avail_some t p s : rd_kafka_toppar_get_avail t p = inr s -> is_Some (slot_toppar t s).
Proof.
  unfold rd_kafka_toppar_get_avail. intros H.
  assert (forall q, match rd_kafka_toppar_get t q false with
    | Some s0 => inr s0 | None => inl RD_KAFKA_RESP_ERR__UNKNOWN_PARTITION end = inr s -> is_Some (slot_toppar t s)) as Hg.
  { intros q Hq. destruct (rd_kafka_toppar_get t q false) eqn:E; [|done].
    injection Hq as ->. by eapply toppar_get_some. }
  destruct (rkt_state t); [by eapply Hg| |done].
  destruct (_ =? _); [by eapply Hg|]. destruct (_ >=? _); [done|]. by eapply Hg.
Qed.

(** The message as enqueued: it may get its sequence number. *)
Definition enq_form (p : rd_kafka_toppar) (m : rd_kafka_msg) : rd_kafka_msg :=
  if (rkm_msgseq m =? 0) && negb (rktp_partition p =? RD_KAFKA_PARTITION_UA)
  then set_msgseq (rktp_msgseq p + 1) m else m.

Lemma enq_msg_perm p m :
  Permutation (toppar_msgs (rd_kafka_toppar_enq_msg p m)) (enq_form p m :: toppar_msgs p).
Proof.
  unfold toppar_msgs, enq_form, rd_kafka_toppar_enq_msg. set (b := _ && _). set (x := if b then _ else _).
  assert (E : x.2 = if b then set_msgseq (rktp_msgseq p + 1) m else m) by (unfold x; by destruct b).
  destruct x as [seq m']. simpl in E. subst m'. set (m' := if b then _ else _). simpl.
  rewrite app_comm_cons. apply Permutation_app_tail.
  assert (P1 : Permutation (rkmq_msgs (rktp_msgq p) ++ [m']) (m' :: rkmq_msgs (rktp_msgq p)))
    by (symmetry; apply Permutation_cons_append).
  destruct (rkt_queuing_strategy p); [exact P1|]. destruct (rktp_partition p =? _); [exact P1|].
  apply tailq_insert_sorted_perm.
Qed.

Lemma enq_msg_ok p m : toppar_ok p -> 0 <= msg_size m -> toppar_ok (rd_kafka_toppar_enq_msg p m).
Proof.
  intros [H1 H2] Hm. destruct (toppar_enq_msg_spec p m H1 Hm) as (H3 & H4 & _). split; [done|by rewrite H4].
Qed.

Lemma set_slot_perm t s p p' m :
  slot_toppar t s = Some p -> Permutation (toppar_msgs p') (m :: toppar_msgs p) ->
  Permutation (topic_msgs (set_slot t s p')) (m :: topic_msgs t).
Proof.
  intros Hs Hp. unfold topic_msgs. destruct s as [|i]; simpl in *.
  - rewrite Hs, Hp. done.
  - rewrite <- (take_drop_middle (rkt_p t) i p Hs) at 2.
    assert (i < length (rkt_p t))%nat by (by apply lookup_lt_Some in Hs).
    rewrite (insert_take_drop (rkt_p t) i p') by done. rewrite !bind_app, !bind_cons, Hp. simpl.
    by rewrite app_assoc, <- Permutation_middle, <- app_assoc.
Qed.

Lemma set_slot_ok t s p p' :
  topic_ok t -> slot_toppar t s = Some p -> toppar_ok p' -> topic_ok (set_slot t s p').
Proof.
  intros [H1 H2] Hs Hp. destruct s as [|i]; [by split|]. split; [by apply Forall_insert|done].
Qed.

Lemma slot_ok t s p : topic_ok t -> slot_toppar t s = Some p -> toppar_ok p.
Proof.
  intros [H1 H2] Hs. destruct s as [|i]; simpl in Hs; [by rewrite Hs in H2|exact (Forall_lookup_1 _ _ _ _ H1 Hs)].
Qed.

Lemma total_perm l1 l2 : Permutation l1 l2 -> total l1 = total l2.
Proof. unfold total. induction 1; simpl; lia. Qed.

(** The invariant only looks at the lengths and addresses of the messages. *)
Lemma producer_ok_move rk rk' extra extra' :
  producer_ok rk extra ->
  rk_curr_msgs rk' = rk_curr_msgs rk -> rk_next rk' = rk_next rk -> rk_max_msg_size rk' = rk_max_msg_size rk ->
  topic_ok (rk_rkt rk') ->
  Permutation (rkm_len <$> (extra' ++ held rk')) (rkm_len <$> (extra ++ held rk)) ->
  Permutation (ptrs (extra' ++ held rk')) (ptrs (extra ++ held rk)) ->
  producer_ok rk' extra'.
Proof.
  intros [Hc Ht Hp Hm] E1 E2 E3 Ht' P1 P2. constructor; rewrite ?E1, ?E2, ?E3; try done.
  - cbv zeta in *. destruct Hc as (Hc & Hl & H1 & H2 & H3).
    rewrite (Permutation_length P1), (total_perm _ _ P1). split_and!; try done; try apply Hl. by rewrite P1.
  - by rewrite P2.
Qed.

Lemma enq_form_same p m : rkm_len (enq_form p m) = rkm_len m /\ rkm_ptr (enq_form p m) = rkm_ptr m.
Proof. unfold enq_form. by destruct (_ && _). Qed.

Lemma enq_slot_spec rk s m m0 :
  producer_ok rk [m0] -> rkm_len m = rkm_len m0 -> rkm_ptr m = rkm_ptr m0 -> 0 <= msg_size m ->
  is_Some (slot_toppar (rk_rkt rk) s) ->
  exists p rk', slot_toppar (rk_rkt rk) s = Some p /\
    enq_slot rk (Some s) m = Ret rk' /\
    rk' = set_rk_rkt (set_slot (rk_rkt rk) s (rd_kafka_toppar_enq_msg p m)) rk /\
    Permutation (held rk') (enq_form p m :: held rk) /\ producer_ok rk' [].
Proof.
  intros Hok El Ep Hm [p Hs]. eexists p, _. split; [done|]. split; [simpl; by rewrite Hs|]. split; [done|].
  assert (P : Permutation (held (set_rk_rkt (set_slot (rk_rkt rk) s (rd_kafka_toppar_enq_msg p m)) rk))
                (enq_form p m :: held rk)) by (eapply set_slot_perm; [done|apply enq_msg_perm]).
  split; [done|]. destruct (enq_form_same p m) as [E1 E2]. pose proof (po_topic _ _ Hok) as Ht.
  eapply (producer_ok_move rk); try done.
  - simpl. eapply set_slot_ok; [done|done|]. apply enq_msg_ok; [by eapply slot_ok|done].
  - rewrite P. simpl. by rewrite E1, El.
  - rewrite P. simpl. by rewrite E2, Ep.
Qed.

(** ** Creating a message *)

Definition mem_ok (mem : option (list Z)) (len : Z) : Prop :=
  match mem with Some d => zlen d = len /\ len < 2 ^ 62 | None => True end.

Definition opt_size (mem : option (list Z)) : Z := match mem with Some d => zlen d | None => 0 end.

Definition hdrs_size (hdrs : option rd_kafka_headers) : Z :=
  match hdrs with Some h => rkhdrs_ser_size h | None => 0 end.

(** The message is larger than message.max.bytes. *)
Definition too_large (rk : rd_kafka) (payload key : option (list Z)) (hdrs : option rd_kafka_headers) : bool :=
  (rk_max_msg_size rk <? opt_size payload + opt_size key + hdrs_size hdrs) || (2 ^ 31 - 1 <? opt_size key).

(** One of the two queue limits is passed. *)
Definition queue_full (rk : rd_kafka) (payload : option (list Z)) : bool :=
  let l := rkm_len <$> held rk in
  (cm_max_cnt (rk_curr_msgs rk) <? zlen l + 1) || (cm_max_size (rk_curr_msgs rk) <? total l + opt_size payload).

(** What the new message carries. *)
Record carries (m : rd_kafka_msg) (ptr partition flags : Z) (payload key : option (list Z))
    (hdrs : option rd_kafka_headers) (ts : Z) : Prop := mk_carries {
  ca_ptr : rkm_ptr m = ptr;
  ca_partition : rkm_partition m = partition;
  ca_payload : rkm_payload m = payload /\ rkm_len m = opt_size payload;
  ca_key : rkm_key m = key /\ rkm_key_len m = opt_size key;
  ca_hdrs : rkm_headers m = hdrs;
  ca_ts : rkm_timestamp m = ts;
  ca_seq : rkm_msgseq m = 0;
  ca_account : flag RD_KAFKA_MSG_F_ACCOUNT (rkm_flags m) = true;
  ca_free : flag RD_KAFKA_MSG_F_FREE (rkm_flags m) =
    flag RD_KAFKA_MSG_F_FREE flags && negb (flag RD_KAFKA_MSG_F_COPY flags) }.

Lemma mem_copy_all d : mem_copy d (zlen d) = Ret d.
Proof. unfold mem_copy, ztake. rewrite Z.leb_refl, Nat2Z.id. by rewrite take_ge. Qed.

Lemma flag_testbit i flags : 0 <= i -> flag (2 ^ i) flags = Z.testbit flags i.
Proof.
  intros Hi. unfold flag. destruct (Z.testbit flags i) eqn:E.
  - apply negb_true_iff, Z.eqb_neq. intros H. apply (f_equal (fun z => Z.testbit z i)) in H.
    rewrite Z.land_spec, E, Z.pow2_bits_true, Z.bits_0 in H by done. done.
  - apply negb_false_iff, Z.eqb_eq, Z.bits_inj'. intros j Hj. rewrite Z.land_spec, Z.bits_0.
    destruct (decide (j = i)) as [->|]; [by rewrite E|]. rewrite Z.pow2_bits_false by done. apply andb_false_r.
Qed.

Lemma new00_flags msgflags :
  let f1 := Z.lor msgflags RD_KAFKA_MSG_F_ACCOUNT in
  let f2 := if flag RD_KAFKA_MSG_F_COPY f1 then Z.land f1 (Z.lnot RD_KAFKA_MSG_F_FREE) else f1 in
  let f := Z.lor (Z.lor RD_KAFKA_MSG_F_PRODUCER RD_KAFKA_MSG_F_FREE_RKM) f2 in
  flag RD_KAFKA_MSG_F_ACCOUNT f = true /\
  flag RD_KAFKA_MSG_F_FREE f = flag RD_KAFKA_MSG_F_FREE msgflags && negb (flag RD_KAFKA_MSG_F_COPY msgflags).
Proof.
  intros f1 f2 f.
  assert (E1 : forall i, 0 <= i -> i <> 17 -> Z.testbit f1 i = Z.testbit msgflags i).
  { intros i Hi Hn. unfold f1. change RD_KAFKA_MSG_F_ACCOUNT with (2 ^ 17).
    by rewrite Z.lor_spec, Z.pow2_bits_false, orb_false_r. }
  change RD_KAFKA_MSG_F_ACCOUNT with (2 ^ 17). change RD_KAFKA_MSG_F_FREE with (2 ^ 0).
  change RD_KAFKA_MSG_F_COPY with (2 ^ 1). rewrite !flag_testbit by lia.
  unfold f, f2. change RD_KAFKA_MSG_F_COPY with (2 ^ 1). rewrite flag_testbit, E1, !Z.lor_spec by lia.
  change (Z.testbit RD_KAFKA_MSG_F_PRODUCER _ || Z.testbit RD_KAFKA_MSG_F_FREE_RKM _) with false.
  cbn [orb]. assert (E17 : Z.testbit f1 17 = true) by (unfold f1; by rewrite Z.lor_spec, orb_true_r).
  destruct (Z.testbit msgflags 1); rewrite ?Z.land_spec, ?E17, ?E1 by lia; split; try done; by destruct (Z.testbit msgflags 0).
Qed.

(** The limits of the client. *)
Definition limits (rk : rd_kafka) : Z * Z * Z :=
  (cm_max_cnt (rk_curr_msgs rk), cm_max_size (rk_curr_msgs rk), rk_max_msg_size rk).

Lemma same_counters rk rk' :
  producer_ok rk [] -> producer_ok rk' [] -> limits rk' = limits rk -> rk_rkt rk' = rk_rkt rk ->
  rk_curr_msgs rk' = rk_curr_msgs rk.
Proof.
  intros H H' [= E1 E2 _] Et. pose proof (po_curr _ _ H) as [Hc _]. pose proof (po_curr _ _ H') as [Hc' _].
  rewrite Hc, Hc'. unfold held. by rewrite E1, E2, Et.
Qed.

Lemma event_ok rk e extra : producer_ok rk extra -> producer_ok (rk_event e rk) extra.
Proof. intros [? ? ? ?]. by constructor. Qed.

Lemma add_spec rk size :
  producer_ok rk [] -> len_ok size ->
  let c := rk_curr_msgs rk in let l := rkm_len <$> held rk in
  rd_kafka_curr_msgs_add c 1 size false =
    if (cm_max_cnt c <? zlen l + 1) || (cm_max_size c <? total l + size) then Ret (c, RD_KAFKA_RESP_ERR__QUEUE_FULL)
    else Ret (mk_curr (zlen l + 1) (total l + size) (cm_max_cnt c) (cm_max_size c), 0).
Proof.
  intros Hok Hs c l. pose proof (po_curr _ _ Hok) as (Hc & Hl & H1 & H2 & H3). fold c in Hc, Hl, H1, H2.
  change (rkm_len <$> [] ++ held rk) with l in *. rewrite Hc at 1.
  unfold rd_kafka_curr_msgs_add, curr_msgs_add_pass. rewrite (full_spec (cm_max_cnt c) (cm_max_size c) (2 ^ 63 - 1)) by (done || lia).
  destruct (Z.ltb_spec (cm_max_cnt c) (zlen l + 1)); cbn [orb]; [by rewrite <- Hc|].
  pose proof (total_bounds _ l H3).
  destruct (Z.ltb_spec (cm_max_size c) (total l + size)); [by rewrite <- Hc|]. unfold len_ok in Hs.
  cbn [cm_cnt cm_size cm_max_cnt cm_max_size]. by rewrite !uwrap_id by (unfold u_ok; lia).
Qed.

Section new0.
Context (utc_now now : Z) (rk : rd_kafka) (partition flags : Z) (payload key : option (list Z)) (len keylen : Z).
Context (hdrs : option rd_kafka_headers) (ts : Z).
Context (Hok : producer_ok rk []) (Hp : mem_ok payload len) (Hk : mem_ok key keylen).
Context (Hh : 0 <= hdrs_size hdrs < 2 ^ 62) (Hb : flag RD_KAFKA_MSG_F_BLOCK flags = false).

Lemma opt_size_mem mem n : mem_ok mem n -> match mem with Some _ => n | None => 0 end = opt_size mem /\ 0 <= opt_size mem < 2 ^ 62.
Proof. destruct mem; simpl; lia. Qed.

Lemma new00_spec ptr :
  exists m, rd_kafka_msg_new00 ptr partition (Z.lor flags RD_KAFKA_MSG_F_ACCOUNT) payload (opt_size payload) key
              (opt_size key) = Ret m /\ carries m ptr partition flags payload key None 0.
Proof.
  unfold rd_kafka_msg_new00. pose proof (new00_flags flags) as [Ha Hf].
  assert (forall b : bool, (match payload with
     | Some p => if b then let! d := mem_copy p (opt_size payload) in Ret (Some d) else Ret (Some p)
     | None => Ret None end) = Ret payload) as Ep.
  { intros b. destruct payload as [d|]; [|done]. simpl opt_size. rewrite mem_copy_all. by destruct b. }
  rewrite Ep. cbn [obind].
  assert ((match key with Some k => let! d := mem_copy k (opt_size key) in Ret (Some d, opt_size key)
           | None => Ret (None, 0) end) = Ret (key, opt_size key)) as ->.
  { destruct key as [d|]; [|done]. simpl opt_size. by rewrite mem_copy_all. }
  cbn [obind]. eexists. split; [reflexivity|]. by constructor.
Qed.

Lemma new0_spec :
  let r := rd_kafka_msg_new0 utc_now now rk partition flags payload len key keylen hdrs ts in
  (too_large rk payload key hdrs = true -> r = Ret (rk, inl (RD_KAFKA_RESP_ERR_MSG_SIZE_TOO_LARGE, EMSGSIZE))) /\
  (too_large rk payload key hdrs = false -> queue_full rk payload = true ->
     r = Ret (rk, inl (RD_KAFKA_RESP_ERR__QUEUE_FULL, ENOBUFS))) /\
  (too_large rk payload key hdrs = false -> queue_full rk payload = false ->
     exists rk' m, r = Ret (rk', inr m) /\
       carries m (rk_next rk) partition flags payload key hdrs (if ts =? 0 then utc_now else ts) /\
       producer_ok rk' [m] /\ rk_rkt rk' = rk_rkt rk /\ limits rk' = limits rk /\
       rk_log rk' = rk_log rk ++ [on_send (rk_next rk)]).
Proof.
  intros r. destruct (opt_size_mem _ _ Hp) as [Ep Hp']. destruct (opt_size_mem _ _ Hk) as [Ek Hk'].
  pose proof (po_max _ _ Hok) as Hm. unfold r, rd_kafka_msg_new0.
  change (match hdrs with Some h => rd_kafka_headers_serialized_size h | None => 0 end) with (hdrs_size hdrs).
  rewrite Ep, Ek, Hb, uwrap_id, !Z.gtb_ltb by (unfold u_ok; lia). fold (too_large rk payload key hdrs).
  rewrite add_spec by (done || (unfold len_ok; lia)).
  fold (queue_full rk payload).
  destruct (too_large rk payload key hdrs); [done|]. split; [done|].
  destruct (queue_full rk payload) eqn:Ef; [done|]. split; [done|]. intros _ _. cbn [obind negb Z.eqb].
  destruct (new00_spec (rk_next rk)) as (m & -> & [Hm1 Hm2 Hm3 Hm4 Hm5 Hm6 Hm7 Hm8 Hm9]). cbn [obind].
  eexists _, _. split; [reflexivity|]. split; [by constructor|]. split; [|by rewrite Hm1].
  apply event_ok. pose proof (po_curr _ _ Hok) as (Hc & Hl & H1 & H2 & H3).
  pose proof (po_ptrs _ _ Hok) as [Hn Hlt]. cbn [app] in *. destruct Hm3 as [_ Hlen].
  unfold queue_full in Ef. bool_hyps.
  constructor; cbv zeta; unfold held in *; cbn [rk_curr_msgs rk_rkt rk_next rk_max_msg_size app fmap list_fmap rkm_len rkm_ptr length
    cm_max_cnt cm_max_size] in *; try done.
  - unfold total. cbn [foldr]. fold (total (rkm_len <$> topic_msgs (rk_rkt rk))). rewrite Hlen.
    split_and!; try done; try lia; [f_equal; lia|]. constructor; [unfold len_ok; lia|done].
  - apply (po_topic _ _ Hok).
  - rewrite Hm1. rewrite Forall_forall in Hlt. split.
    + constructor; [|done]. intros Hi. specialize (Hlt _ Hi). lia.
    + constructor; [lia|]. apply Forall_forall. intros x Hx. specialize (Hlt x Hx). lia.
Qed.
End new0.

(** ** Dropping a message *)

Lemma destroy_spec rk m :
  producer_ok rk [m] -> flag RD_KAFKA_MSG_F_ACCOUNT (rkm_flags m) = true ->
  exists rk', rd_kafka_msg_destroy rk m = Ret rk' /\ producer_ok rk' [] /\
    rk_rkt rk' = rk_rkt rk /\ limits rk' = limits rk /\
    rk_log rk' = rk_log rk ++ (if flag RD_KAFKA_MSG_F_FREE (rkm_flags m) && bool_decide (is_Some (rkm_payload m))
                               then [payload_freed (rkm_ptr m)] else []).
Proof.
  intros Hok Ha. unfold rd_kafka_msg_destroy. rewrite Ha.
  pose proof (po_curr _ _ Hok) as (Hc & Hl & H1 & H2 & H3). set (c := rk_curr_msgs rk) in *.
  cbn [app] in *. set (l := rkm_len <$> m :: held rk) in *. rewrite Hc.
  rewrite (sub_spec (cm_max_cnt c) (cm_max_size c) (2 ^ 63 - 1)) with (i := 0%nat) by (done || lia). cbn [obind].
  pose proof (total_delete l 0 (rkm_len m) eq_refl) as Ht.
  assert (Hd : delete 0%nat l = rkm_len <$> held rk) by done. rewrite Hd in *.
  set (rk1 := set_rk_curr _ rk).
  assert (Hok1 : producer_ok rk1 []).
  { pose proof (po_ptrs _ _ Hok) as [Hn Hlt]. apply NoDup_cons in Hn as [_ Hn]. apply Forall_cons in Hlt as [_ Hlt].
    apply Forall_cons in H3 as [Hm H3]. unfold len_ok in Hm.
    constructor; cbv zeta; cbn [app]; change (held rk1) with (held rk); [|apply Hok|done|apply Hok].
    cbn [rk1 set_rk_curr rk_curr_msgs cm_max_cnt cm_max_size].
    assert (zlen l = 1 + zlen (rkm_len <$> held rk)) by (unfold l; cbn [fmap list_fmap length]; lia).
    split_and!; try done; try apply Hl; lia. }
  destruct (_ && _).
  - exists (rk_event (payload_freed (rkm_ptr m)) rk1). split; [done|]. split; [by apply event_ok|done].
  - exists rk1. split; [done|]. rewrite app_nil_r. done.
Qed.

(** ** Choosing the partition *)

Section partition.
Context (partitioner : option (list Z) -> Z -> Z -> Z).

(** The partition with a number: an index of the array, or -1 for the
    unassigned one. *)
Definition numbered (t : rd_kafka_itopic) (p : Z) : option slot :=
  if decide (p = -1) then (fun _ => Ua) <$> rkt_ua t
  else if decide (0 <= p < zlen (rkt_p t)) then Some (Part (Z.to_nat p)) else None.

Lemma toppar_get_numbered t p : rd_kafka_toppar_get t p false = numbered t p.
Proof.
  unfold rd_kafka_toppar_get, numbered, rkt_partition_cnt, RD_KAFKA_PARTITION_UA. rewrite orb_false_r, Z.geb_leb.
  destruct (decide (p = -1)) as [->|Hp]; [by destruct (rkt_ua t)|]. rewrite (proj2 (Z.eqb_neq p (-1)) Hp).
  destruct (decide (0 <= p < zlen (rkt_p t))) as [H|H].
  - by rewrite (proj2 (Z.leb_le 0 p)), (proj2 (Z.ltb_lt p _)) by lia.
  - destruct (Z.leb_spec 0 p); [|done]. by rewrite (proj2 (Z.ltb_ge p _)) by lia.
Qed.

(** Where a message goes: an error code or a partition of the topic, and the
    partition number the message gets. *)
Definition route (t : rd_kafka_itopic) (partition : Z) (key : option (list Z)) : Z + slot * Z :=
  let to p := match numbered t p with
              | Some s => inr (s, if partition =? RD_KAFKA_PARTITION_UA then p else partition)
              | None => inl RD_KAFKA_RESP_ERR__UNKNOWN_PARTITION
              end in
  match rkt_state t with
  | RD_KAFKA_TOPIC_S_UNKNOWN => to RD_KAFKA_PARTITION_UA
  | RD_KAFKA_TOPIC_S_NOTEXISTS => inl RD_KAFKA_RESP_ERR__UNKNOWN_TOPIC
  | RD_KAFKA_TOPIC_S_EXISTS =>
      let n := zlen (rkt_p t) in
      if n =? 0 then to RD_KAFKA_PARTITION_UA
      else
        let p := if partition =? RD_KAFKA_PARTITION_UA then partitioner key (opt_size key) n else partition in
        if n <=? p then inl RD_KAFKA_RESP_ERR__UNKNOWN_PARTITION else to p
  end.

Lemma route_err t p k e : route t p k = inl e -> e = RD_KAFKA_RESP_ERR__UNKNOWN_PARTITION \/ e = RD_KAFKA_RESP_ERR__UNKNOWN_TOPIC.
Proof.
  unfold route. destruct (rkt_state t);
    repeat match goal with
    | |- context [numbered ?a ?b] => destruct (numbered a b)
    | |- context [if ?b then _ else _] => destruct b
    end; intros [= <-]; eauto.
Qed.

Lemma partitioner_spec rk m key :
  producer_ok rk [m] -> 0 <= msg_size m -> rkm_key m = key /\ rkm_key_len m = opt_size key ->
  match route (rk_rkt rk) (rkm_partition m) key with
  | inl e => rd_kafka_msg_partitioner partitioner rk m = Ret (rk, e)
  | inr (s, p) => exists tp rk', slot_toppar (rk_rkt rk) s = Some tp /\
      rd_kafka_msg_partitioner partitioner rk m = Ret (rk', 0) /\
      rk' = set_rk_rkt (set_slot (rk_rkt rk) s (rd_kafka_toppar_enq_msg tp (set_rkm_partition p m))) rk /\
      Permutation (held rk') (enq_form tp (set_rkm_partition p m) :: held rk) /\ producer_ok rk' []
  end.
Proof.
  intros Hok Hm [Ek El]. unfold rd_kafka_msg_partitioner, route, rkt_partition_cnt.
  assert (Hto : forall q, match (match numbered (rk_rkt rk) q with
      | Some s => inr (s, if rkm_partition m =? RD_KAFKA_PARTITION_UA then q else rkm_partition m)
      | None => inl RD_KAFKA_RESP_ERR__UNKNOWN_PARTITION end) with
    | inl e => (match rd_kafka_toppar_get (rk_rkt rk) q false with
        | None => Ret (rk, RD_KAFKA_RESP_ERR__UNKNOWN_PARTITION)
        | Some s => let! rk := enq_slot rk (Some s) (if rkm_partition m =? RD_KAFKA_PARTITION_UA
                       then set_rkm_partition q m else m) in Ret (rk, 0) end) = Ret (rk, e)
    | inr (s, p) => exists tp rk', slot_toppar (rk_rkt rk) s = Some tp /\
        (match rd_kafka_toppar_get (rk_rkt rk) q false with
        | None => Ret (rk, RD_KAFKA_RESP_ERR__UNKNOWN_PARTITION)
        | Some s => let! rk := enq_slot rk (Some s) (if rkm_partition m =? RD_KAFKA_PARTITION_UA
                       then set_rkm_partition q m else m) in Ret (rk, 0) end) = Ret (rk', 0) /\
        rk' = set_rk_rkt (set_slot (rk_rkt rk) s (rd_kafka_toppar_enq_msg tp (set_rkm_partition p m))) rk /\
        Permutation (held rk') (enq_form tp (set_rkm_partition p m) :: held rk) /\ producer_ok rk' []
    end).
  { intros q. rewrite <- toppar_get_numbered. destruct (rd_kafka_toppar_get (rk_rkt rk) q false) as [s|] eqn:E; [|done].
    set (p := if rkm_partition m =? RD_KAFKA_PARTITION_UA then q else rkm_partition m).
    assert ((if rkm_partition m =? RD_KAFKA_PARTITION_UA then set_rkm_partition q m else m) = set_rkm_partition p m) as ->.
    { unfold p. destruct (_ =? _); [done|]. by destruct m. }
    destruct (enq_slot_spec rk s (set_rkm_partition p m) m Hok eq_refl eq_refl Hm (toppar_get_some _ _ _ _ E))
      as (tp & rk' & H1 & -> & H2 & H3 & H4). by exists tp, rk'. }
  rewrite Ek, El. destruct (rkt_state (rk_rkt rk)); [apply Hto| |done].
  destruct (_ =? 0); [apply Hto|]. rewrite Z.geb_leb.
  destruct (zlen (rkt_p (rk_rkt rk)) <=? _); [done|]. apply Hto.
Qed.
End partition.

(** ** One message *)

Section api.
Context (partitioner : option (list Z) -> Z -> Z -> Z) (utc_now now : Z).

(** The error code of a message, 0 when it is accepted. *)
Definition verdict (rk : rd_kafka) (partition : Z) (payload key : option (list Z)) : Z :=
  if too_large rk payload key None then RD_KAFKA_RESP_ERR_MSG_SIZE_TOO_LARGE
  else if queue_full rk payload then RD_KAFKA_RESP_ERR__QUEUE_FULL
  else match route partitioner (rk_rkt rk) partition key with inl e => e | inr _ => 0 end.

(** The message was enqueued on its partition and on no other. *)
Definition accepted (rk rk' : rd_kafka) (partition flags : Z) (payload key : option (list Z)) : Prop :=
  exists m s p tp, route partitioner (rk_rkt rk) partition key = inr (s, p) /\
    slot_toppar (rk_rkt rk) s = Some tp /\
    rk_rkt rk' = set_slot (rk_rkt rk) s (rd_kafka_toppar_enq_msg tp m) /\
    carries m (rk_next rk) p flags payload key None utc_now /\
    Permutation (held rk') (enq_form tp m :: held rk) /\
    rk_log rk' = rk_log rk ++ [on_send (rk_next rk)].

(** Queues and counters are as before; the interceptors that saw the message
    are told, and its payload is left to the caller. *)
Definition rejected (rk rk' : rd_kafka) (err : Z) : Prop :=
  rk_rkt rk' = rk_rkt rk /\ rk_curr_msgs rk' = rk_curr_msgs rk /\
  (rk_log rk' = rk_log rk \/
   rk_log rk' = rk_log rk ++ [on_send (rk_next rk); on_acknowledgement (rk_next rk) err]).

Lemma carries_size m ptr p f payload key h ts : carries m ptr p f payload key h ts -> 0 <= msg_size m.
Proof.
  intros [_ _ [_ H1] [_ H2] _ _ _ _ _]. unfold msg_size. rewrite H1, H2.
  destruct payload, key; simpl; lia.
Qed.

Lemma flag_clear f flags i : f = 2 ^ i -> 0 <= i -> flag f (Z.land flags (Z.lnot f)) = false.
Proof.
  intros -> Hi. rewrite flag_testbit, Z.land_spec, Z.lnot_spec, Z.pow2_bits_true by done. apply andb_false_r.
Qed.

Lemma flag_clear_other f i g j flags : f = 2 ^ i -> g = 2 ^ j -> 0 <= i -> 0 <= j -> i <> j ->
  flag g (Z.land flags (Z.lnot f)) = flag g flags.
Proof.
  intros -> -> Hi Hj Hn. rewrite !flag_testbit, Z.land_spec, Z.lnot_spec, Z.pow2_bits_false by done.
  apply andb_true_r.
Qed.

(** A created message whose partition does not exist. *)
Lemma reject_spec rk m err :
  producer_ok rk [m] -> flag RD_KAFKA_MSG_F_ACCOUNT (rkm_flags m) = true ->
  exists rk', rd_kafka_msg_destroy (rk_event (on_acknowledgement (rkm_ptr m) err) rk)
      (set_rkm_flags (Z.land (rkm_flags m) (Z.lnot RD_KAFKA_MSG_F_FREE)) m) = Ret rk' /\
    producer_ok rk' [] /\ rk_rkt rk' = rk_rkt rk /\ limits rk' = limits rk /\
    rk_log rk' = rk_log rk ++ [on_acknowledgement (rkm_ptr m) err].
Proof.
  intros Hok Ha. set (m' := set_rkm_flags _ m). set (rk1 := rk_event _ rk).
  assert (Hok1 : producer_ok rk1 [m']) by (apply (producer_ok_move rk rk1 [m] [m']); done || apply Hok).
  destruct (destroy_spec rk1 m' Hok1) as (rk' & H1 & H2 & H3 & H4 & H5).
  { simpl. rewrite (flag_clear_other _ 0 _ 17) by done. done. }
  exists rk'. split; [done|]. split; [done|]. split; [done|]. split; [done|].
  rewrite H5. simpl. rewrite (flag_clear _ _ 0) by done. simpl. by rewrite app_nil_r.
Qed.

Lemma msg_new_spec rk partition flags payload len key keylen :
  producer_ok rk [] -> mem_ok payload len -> mem_ok key keylen -> flag RD_KAFKA_MSG_F_BLOCK flags = false ->
  exists rk' r e, rd_kafka_msg_new partitioner utc_now now rk partition flags payload len key keylen =
      Ret (rk', (r, (verdict rk partition payload key, e))) /\
    producer_ok rk' [] /\ limits rk' = limits rk /\
    (if verdict rk partition payload key =? 0 then r = 0 /\ accepted rk rk' partition flags payload key
     else r = -1 /\ rejected rk rk' (verdict rk partition payload key)).
Proof.
  intros Hok Hp Hk Hb. unfold rd_kafka_msg_new, verdict.
  destruct (new0_spec utc_now now rk partition flags payload key len keylen None 0 Hok Hp Hk ltac:(simpl; lia) Hb)
    as (H1 & H2 & H3).
  destruct (too_large rk payload key None).
  { rewrite H1 by done. cbn [obind]. eexists _, _, _. split; [done|]. split; [done|]. split; [done|].
    split; [done|]. split; [done|]. split; [done|]. by left. }
  destruct (queue_full rk payload).
  { rewrite H2 by done. cbn [obind]. eexists _, _, _. split; [done|]. split; [done|]. split; [done|].
    split; [done|]. split; [done|]. split; [done|]. by left. }
  destruct (H3 eq_refl eq_refl) as (rk1 & m & -> & Hc & Hok1 & Et & El & Elog). cbn [obind].
  pose proof (carries_size _ _ _ _ _ _ _ _ Hc) as Hsz. pose proof (ca_partition _ _ _ _ _ _ _ _ Hc) as Hpart.
  pose proof (partitioner_spec partitioner rk1 m key Hok1 Hsz (ca_key _ _ _ _ _ _ _ _ Hc)) as Hr.
  rewrite Et, Hpart in Hr. destruct (route partitioner (rk_rkt rk) partition key) as [e|[s p]] eqn:Er.
  - rewrite Hr. cbn [obind]. destruct (route_err _ _ _ _ _ Er) as [He|He]; assert ((e =? 0) = false) as -> by (by rewrite He);
      destruct (reject_spec rk1 m e Hok1 (ca_account _ _ _ _ _ _ _ _ Hc)) as (rk' & -> & H5 & H6 & H7 & H8);
      cbn [obind]; eexists rk', _, _; (split; [done|]); (split; [done|]); (split; [by rewrite H7|]);
      (split; [done|]); (split; [by rewrite H6|]);
      (split; [apply (same_counters rk rk'); congruence || done|]); right;
      rewrite H8, Elog, <- app_assoc; rewrite (ca_ptr _ _ _ _ _ _ _ _ Hc); done.
  - destruct Hr as (tp & rk' & H4 & H5 & H6 & H7 & H8). rewrite H5. cbn [obind Z.eqb].
    eexists rk', _, _. split; [done|]. split; [done|]. split; [by rewrite H6|]. split; [done|].
    exists (set_rkm_partition p m), s, p, tp. split; [done|]. split; [done|]. split; [by rewrite H6|].
    split; [by destruct Hc; constructor|]. split; [|by rewrite H6].
    rewrite H7. unfold held. by rewrite Et.
Qed.

(** [rd_kafka_producev] with the arguments of [rd_kafka_produce]. *)
Lemma producev_equiv rk partition flags payload len key keylen :
  rd_kafka_producev partitioner utc_now now rk
    [V_RKT; V_PARTITION partition; V_MSGFLAGS flags; V_VALUE payload len; V_KEY key keylen] =
  let! (rk, (_, (err, _))) := rd_kafka_msg_new partitioner utc_now now rk partition flags payload len key keylen in
  Ret (rk, err).
Proof.
  unfold rd_kafka_producev, rd_kafka_msg_new. cbn [vargs_loop varg_step vargs_init obind Z.eqb va_rkt negb
    va_app_hdrs va_hdrs va_partition va_flags va_payload va_len va_key va_key_len va_timestamp].
  destruct (rd_kafka_msg_new0 _ _ _ _ _ _ _ _ _ _ _) as [[rk1 [[err e]|m]]| |]; cbn [obind]; try done.
  destruct (rd_kafka_msg_partitioner _ _ _) as [[rk2 err]| |]; cbn [obind]; try done.
  destruct (err =? 0); [done|]. by destruct (rd_kafka_msg_destroy _ _).
Qed.
End api.

(** ** Batches *)

(** Two states of a topic with the same partitions. *)
Definition same_shape (t t' : rd_kafka_itopic) : Prop :=
  rkt_state t' = rkt_state t /\ length (rkt_p t') = length (rkt_p t) /\
  (is_Some (rkt_ua t') <-> is_Some (rkt_ua t)).

Lemma same_shape_refl t : same_shape t t.
Proof. done. Qed.

Lemma same_shape_trans t1 t2 t3 : same_shape t1 t2 -> same_shape t2 t3 -> same_shape t1 t3.
Proof. intros (H1 & H2 & H3) (H4 & H5 & H6). split_and!; [congruence|congruence|by rewrite H6]. Qed.

Lemma set_slot_shape t s p : is_Some (slot_toppar t s) -> same_shape t (set_slot t s p).
Proof.
  intros Hs. destruct s as [|i]; simpl in *; [by split_and!|].
  split_and!; [done|apply length_insert|done].
Qed.

Lemma shape_slot t t' s : same_shape t t' -> is_Some (slot_toppar t s) -> is_Some (slot_toppar t' s).
Proof.
  intros (H1 & H2 & H3) Hs. destruct s as [|i]; simpl in *; [by apply H3|].
  apply lookup_lt_is_Some in Hs. apply lookup_lt_is_Some. lia.
Qed.

Lemma shape_get t t' p b : same_shape t t' -> rd_kafka_toppar_get t' p b = rd_kafka_toppar_get t p b.
Proof.
  intros (H1 & H2 & H3). unfold rd_kafka_toppar_get, rkt_partition_cnt. rewrite H2.
  destruct (rkt_ua t), (rkt_ua t'); try done.
  - by destruct (proj2 H3 (ex_intro _ _ eq_refl)).
  - by destruct (proj1 H3 (ex_intro _ _ eq_refl)).
Qed.

Lemma shape_avail t t' p : same_shape t t' -> rd_kafka_toppar_get_avail t' p = rd_kafka_toppar_get_avail t p.
Proof.
  intros H. unfold rd_kafka_toppar_get_avail, rkt_partition_cnt. rewrite !(shape_get t t') by done.
  by destruct H as (-> & -> & _).
Qed.

(** What the application sees of a message. *)
Definition arg_view (a : rd_kafka_message) : option (list Z) * option (list Z) := (ma_payload a, ma_key a).
Definition msg_view (m : rd_kafka_msg) : option (list Z) * option (list Z) := (rkm_payload m, rkm_key m).

Definition arg_ok (a : rd_kafka_message) : Prop :=
  mem_ok (ma_payload a) (ma_len a) /\ mem_ok (ma_key a) (ma_key_len a).

(** A run that enqueued exactly the messages [vs], in this order. *)
Definition enqueued (rk rk' : rd_kafka) (vs : list (option (list Z) * option (list Z))) : Prop :=
  producer_ok rk' [] /\ same_shape (rk_rkt rk) (rk_rkt rk') /\ limits rk' = limits rk /\
  exists new, Permutation (held rk') (new ++ held rk) /\ msg_view <$> new = vs.

Lemma enqueued_nil rk : producer_ok rk [] -> enqueued rk rk [].
Proof. intros H. split; [done|]. split; [done|]. split; [done|]. by exists []. Qed.

Lemma enqueued_app rk rk1 rk2 vs ws : enqueued rk rk1 vs -> enqueued rk1 rk2 ws -> enqueued rk rk2 (vs ++ ws).
Proof.
  intros (H1 & H2 & H3 & n1 & P1 & E1) (H4 & H5 & H6 & n2 & P2 & E2).
  split; [done|]. split; [by eapply same_shape_trans|]. split; [congruence|].
  exists (n1 ++ n2). split; [|by rewrite fmap_app, E1, E2].
  rewrite P2, P1, !app_assoc. apply Permutation_app_tail, Permutation_app_comm.
Qed.

Lemma enqueued_same rk rk' : 
  producer_ok rk' [] -> rk_rkt rk' = rk_rkt rk -> limits rk' = limits rk -> enqueued rk rk' [].
Proof.
  intros H1 H2 H3. split; [done|]. rewrite H2. split; [done|]. split; [done|]. exists []. unfold held. by rewrite H2.
Qed.

Lemma enqueue_spec rk rk0 s m ptr p f payload key h ts :
  producer_ok rk [m] -> carries m ptr p f payload key h ts -> rk_rkt rk = rk_rkt rk0 -> limits rk = limits rk0 ->
  is_Some (slot_toppar (rk_rkt rk0) s) ->
  exists rk', enq_slot rk (Some s) m = Ret rk' /\ enqueued rk0 rk' [(payload, key)].
Proof.
  intros Hok Hc Et El Hs. rewrite <- Et in Hs.
  destruct (enq_slot_spec rk s m m Hok eq_refl eq_refl (carries_size _ _ _ _ _ _ _ _ Hc) Hs)
    as (tp & rk' & H1 & -> & H2 & H3 & H4).
  exists rk'. split; [done|]. split; [done|]. split; [rewrite H2, <- Et; by apply set_slot_shape|].
  split; [rewrite H2; exact El|]. exists [enq_form tp m]. split; [rewrite H3; unfold held; by rewrite Et|].
  assert (msg_view (enq_form tp m) = msg_view m) as E by (unfold enq_form; by destruct (_ && _)).
  cbn. rewrite E. unfold msg_view. by rewrite (proj1 (ca_payload _ _ _ _ _ _ _ _ Hc)), (proj1 (ca_key _ _ _ _ _ _ _ _ Hc)).
Qed.

(** The messages without an error. *)
Fixpoint kept (l : list rd_kafka_message) (errs : list Z) : list (option (list Z) * option (list Z)) :=
  match l, errs with
  | a :: l, e :: errs => if e =? 0 then arg_view a :: kept l errs else kept l errs
  | _, _ => []
  end.

Section batch.
Context (partitioner : option (list Z) -> Z -> Z -> Z) (utc_now now : Z).
Context (multiple : bool) (partition flags : Z) (Hb : flag RD_KAFKA_MSG_F_BLOCK flags = false).

Definition arg_partition (a : rd_kafka_message) : Z :=
  if flag RD_KAFKA_MSG_F_PARTITION flags then ma_partition a else partition.

(** A partition given by the application is one the topic has. *)
Definition arg_routable (t : rd_kafka_itopic) (a : rd_kafka_message) : Prop :=
  multiple = true -> arg_partition a = RD_KAFKA_PARTITION_UA \/
    exists s, rd_kafka_toppar_get_avail t (arg_partition a) = inr s.

Definition target_ok (t : rd_kafka_itopic) (rktp : option slot) (all_err : Z) : Prop :=
  match rktp with
  | Some s => is_Some (slot_toppar t s)
  | None => multiple = true \/ all_err <> 0
  end.

Lemma new0_cases rk a :
  producer_ok rk [] -> arg_ok a ->
  let r := rd_kafka_msg_new0 utc_now now rk (arg_partition a) flags (ma_payload a) (ma_len a) (ma_key a)
             (ma_key_len a) None utc_now in
  (exists err e, r = Ret (rk, inl (err, e)) /\ err <> 0) \/
  (exists rk1 m, r = Ret (rk1, inr m) /\ producer_ok rk1 [m] /\ rk_rkt rk1 = rk_rkt rk /\ limits rk1 = limits rk /\
     carries m (rk_next rk) (arg_partition a) flags (ma_payload a) (ma_key a) None utc_now).
Proof.
  intros Hok [Hp Hk] r.
  destruct (new0_spec utc_now now rk (arg_partition a) flags _ _ _ _ None utc_now Hok Hp Hk ltac:(simpl; lia) Hb)
    as (H1 & H2 & H3). fold r in H1, H2, H3.
  destruct (too_large _ _ _ _); [left; eexists _, _; by rewrite H1|].
  destruct (queue_full _ _); [left; eexists _, _; by rewrite H2|].
  destruct (H3 eq_refl eq_refl) as (rk1 & m & H4 & Hc & Hok1 & Et & El & _). right.
  exists rk1, m. split_and!; try done.
  assert ((if utc_now =? 0 then utc_now else utc_now) = utc_now) as E by by destruct (_ =? _).
  by rewrite E in Hc.
Qed.

(** The partitioner branch of one message. *)
Lemma partitioned_spec rk rk1 m a i :
  producer_ok rk1 [m] -> rk_rkt rk1 = rk_rkt rk -> limits rk1 = limits rk ->
  carries m (rk_next rk) (arg_partition a) flags (ma_payload a) (ma_key a) None utc_now ->
  exists rk2 err, rd_kafka_msg_partitioner partitioner rk1 m = Ret (rk2, err) /\
    (if err =? 0 then enqueued rk rk2 [arg_view a]
     else exists rk3, rd_kafka_msg_destroy (rk_event (on_acknowledgement_app i err) rk2) m = Ret rk3 /\
       enqueued rk rk3 []).
Proof.
  intros Hok1 Et El Hc. pose proof (carries_size _ _ _ _ _ _ _ _ Hc) as Hsz.
  pose proof (partitioner_spec partitioner rk1 m _ Hok1 Hsz (ca_key _ _ _ _ _ _ _ _ Hc)) as Hr.
  destruct (route _ _ _ _) as [e|[s p]] eqn:Er.
  - exists rk1, e. split; [done|].
    assert ((e =? 0) = false) as -> by (by destruct (route_err _ _ _ _ _ Er) as [->| ->]).
    destruct (destroy_spec (rk_event (on_acknowledgement_app i e) rk1) m) as (rk3 & H1 & H2 & H3 & H4 & _);
      [by apply event_ok|apply (ca_account _ _ _ _ _ _ _ _ Hc)|].
    exists rk3. split; [done|]. apply enqueued_same; [done|by rewrite H3|by rewrite H4].
  - destruct Hr as (tp & rk2 & H1 & H2 & H3 & H4 & H5). exists rk2, 0. split; [done|]. cbn [Z.eqb].
    split; [done|]. split; [rewrite H3, <- Et; apply set_slot_shape; by eexists|].
    split; [rewrite H3; exact El|]. exists [enq_form tp (set_rkm_partition p m)]. split.
    { rewrite H4. unfold held. by rewrite Et. }
    assert (msg_view (enq_form tp (set_rkm_partition p m)) = msg_view m) as E
      by (unfold enq_form; by destruct (_ && _)).
    cbn. rewrite E. unfold msg_view, arg_view.
    by rewrite (proj1 (ca_payload _ _ _ _ _ _ _ _ Hc)), (proj1 (ca_key _ _ _ _ _ _ _ _ Hc)).
Qed.

Lemma batch_target_ok t rktp a :
  (arg_partition a = RD_KAFKA_PARTITION_UA \/ exists s, rd_kafka_toppar_get_avail t (arg_partition a) = inr s) ->
  arg_partition a <> RD_KAFKA_PARTITION_UA ->
  exists s, batch_target t rktp (arg_partition a) 0 = (Some s, 0) /\ is_Some (slot_toppar t s).
Proof.
  intros [?|(s & Hs)] Hn; [done|]. unfold batch_target. rewrite Hs.
  destruct rktp as [s0|]; [|exists s; split; [done|by eapply get_avail_some]].
  destruct (slot_toppar t s0) eqn:E0; [|exists s; split; [done|by eapply get_avail_some]].
  destruct (_ =? _); [exists s0; by rewrite E0|exists s; split; [done|by eapply get_avail_some]].
Qed.

Lemma batch_loop_spec l rk rktp all_err i errs good :
  producer_ok rk [] -> Forall arg_ok l -> Forall (arg_routable (rk_rkt rk)) l ->
  target_ok (rk_rkt rk) rktp all_err ->
  exists rk' errs', produce_batch_loop partitioner utc_now now multiple partition flags rktp rk all_err i l errs good =
      Ret (rk', errs ++ errs', good + zlen (kept l errs')) /\
    length errs' = length l /\ enqueued rk rk' (kept l errs').
Proof.
  intros Hok Ha. revert rk rktp all_err i errs good Hok.
  induction Ha as [|a l Haa Ha IH]; intros rk rktp all_err i errs good Hok Hr Ht.
  { exists rk, []. simpl. rewrite app_nil_r, Z.add_0_r. split; [done|]. split; [done|]. by apply enqueued_nil. }
  apply Forall_cons in Hr as [Hra Hr]. cbn [produce_batch_loop].
  (* the rest of the array after one more error code *)
  assert (Hnext : forall rk1 rktp1 all_err1 e vs g,
    enqueued rk rk1 vs -> vs = (if e =? 0 then [arg_view a] else []) -> g = good + zlen vs ->
    target_ok (rk_rkt rk1) rktp1 all_err1 ->
    exists rk' errs', produce_batch_loop partitioner utc_now now multiple partition flags rktp1 rk1 all_err1 (i + 1) l
        (errs ++ [e]) g = Ret (rk', errs ++ errs', good + zlen (kept (a :: l) errs')) /\
      length errs' = length (a :: l) /\ enqueued rk rk' (kept (a :: l) errs')).
  { intros rk1 rktp1 ae1 e vs g He Hv Hg Ht1. pose proof He as (Hok1 & Hsh & _ & _).
    assert (Hr1 : Forall (arg_routable (rk_rkt rk1)) l).
    { eapply Forall_impl; [exact Hr|]. intros x Hx Hmx. rewrite (shape_avail _ _ _ Hsh). by apply Hx. }
    destruct (IH rk1 rktp1 ae1 (i + 1) (errs ++ [e]) g Hok1 Hr1 Ht1) as (rk' & errs' & E & Hl & He').
    exists rk', (e :: errs'). rewrite E, <- app_assoc. simpl length. rewrite Hl. simpl kept.
    assert (Hk : (if e =? 0 then arg_view a :: kept l errs' else kept l errs') = vs ++ kept l errs')
      by (rewrite Hv; by destruct (e =? 0)).
    rewrite Hk, length_app. split; [do 2 f_equal; lia|]. split; [done|]. by eapply enqueued_app. }
  destruct (Z.eqb_spec all_err 0) as [->|Hne]; cbn [negb].
  2:{ apply (Hnext rk rktp all_err all_err [] good); [by apply enqueued_nil| |simpl; lia|done].
      by destruct (Z.eqb_spec all_err 0). }
  destruct (new0_cases rk a Hok Haa) as [(err & e & E & Herr)|(rk1 & m & E & Hok1 & Et & El & Hc)];
    unfold arg_partition in E; rewrite E; cbn [obind].
  { apply (Hnext rk rktp _ err [] good); [by apply enqueued_nil| |simpl; lia|].
    - by destruct (Z.eqb_spec err 0).
    - unfold target_ok in *. destruct rktp; [done|]. destruct Ht as [Ht|Ht]; [by left|done]. }
  fold (arg_partition a) in E. pose proof (ca_partition _ _ _ _ _ _ _ _ Hc) as Hpt.
  destruct multiple eqn:Hmul.
  - rewrite Hpt. destruct (Z.eqb_spec (arg_partition a) RD_KAFKA_PARTITION_UA) as [Hua|Hua].
    + destruct (partitioned_spec rk rk1 m a i Hok1 Et El Hc) as (rk2 & err & -> & H). cbn [obind].
      destruct (err =? 0) eqn:Ee; cbn [negb].
      * apply (Hnext rk2 rktp 0 0 [arg_view a] (good + 1)); [done|done|simpl; lia|].
        unfold target_ok in *. destruct rktp; [|by left]. destruct H as (_ & Hsh & _). by eapply shape_slot.
      * destruct H as (rk3 & -> & He). cbn [obind].
        apply (Hnext rk3 rktp 0 err [] good); [done|by rewrite Ee|simpl; lia|].
        unfold target_ok in *. destruct rktp; [|by left]. destruct He as (_ & Hsh & _). by eapply shape_slot.
    + destruct (batch_target_ok (rk_rkt rk) rktp a (Hra Hmul) Hua) as (s & Hx & Hs).
      rewrite Et, Hx.
      destruct (enqueue_spec rk1 rk s m _ _ _ _ _ _ _ Hok1 Hc Et El Hs) as (rk2 & -> & He). cbn [obind].
      apply (Hnext rk2 (Some s) 0 0 [arg_view a] (good + 1)); [done|done|simpl; lia|].
      destruct He as (_ & Hsh & _). by eapply shape_slot.
  - destruct rktp as [s|]; [|destruct Ht as [Ht|Ht]; [by rewrite Hmul in Ht|done]].
    destruct (enqueue_spec rk1 rk s m _ _ _ _ _ _ _ Hok1 Hc Et El Ht) as (rk2 & -> & He). cbn [obind].
    apply (Hnext rk2 (Some s) 0 0 [arg_view a] (good + 1)); [done|done|simpl; lia|].
    destruct He as (_ & Hsh & _). by eapply shape_slot.
Qed.
End batch.

(** The flag that tells the lock is held does not change the others. *)
Lemma rdlocked_flag flags f i :
  f = 2 ^ i -> 0 <= i -> i <> 20 -> flag f (Z.lor flags RD_KAFKA_MSG_F_RKT_RDLOCKED) = flag f flags.
Proof.
  intros -> Hi Hn. change RD_KAFKA_MSG_F_RKT_RDLOCKED with (2 ^ 20).
  by rewrite !flag_testbit, Z.lor_spec, Z.pow2_bits_false, orb_false_r.
Qed.

(** ** Properties *)

(** C23. A call of the produce function without RD_KAFKA_MSG_F_BLOCK, on a state
    whose counters are exact, returns with the error code [verdict] computes: the
    message is too large, a queue limit is passed, the topic or the partition
    does not exist, or 0.  With 0 the message is enqueued, with the payload, key
    and flags given, on the partition its number or its key selects, and on no
    other.  Otherwise queues and counters are as before, the interceptors that
    saw the message get an acknowledgement, and the payload is not freed.  The
    counters are exact again afterwards, and [rd_kafka_producev] with the same
    arguments does the same. *)
Theorem produce_accepts_or_rejects (partitioner : option (list Z) -> Z -> Z -> Z) (utc_now now : Z) (rk : rd_kafka)
    (partition flags : Z) (payload key : option (list Z)) (len keylen : Z) :
  producer_ok rk [] -> mem_ok payload len -> mem_ok key keylen -> flag RD_KAFKA_MSG_F_BLOCK flags = false ->
  let err := verdict partitioner rk partition payload key in
  exists rk' r e,
    rd_kafka_msg_new partitioner utc_now now rk partition flags payload len key keylen = Ret (rk', (r, (err, e))) /\
    rd_kafka_producev partitioner utc_now now rk
      [V_RKT; V_PARTITION partition; V_MSGFLAGS flags; V_VALUE payload len; V_KEY key keylen] = Ret (rk', err) /\
    producer_ok rk' [] /\ limits rk' = limits rk /\
    (err = 0 -> r = 0 /\ accepted partitioner utc_now rk rk' partition flags payload key) /\
    (err <> 0 -> r = -1 /\ rejected rk rk' err).
Proof.
  intros Hok Hp Hk Hb err.
  destruct (msg_new_spec partitioner utc_now now rk partition flags payload len key keylen Hok Hp Hk Hb)
    as (rk' & r & e & E & Hok' & El & H). fold err in E, H.
  exists rk', r, e. split; [done|]. rewrite producev_equiv, E. split; [done|]. split; [done|]. split; [done|].
  split; intros He; destruct (Z.eqb_spec err 0); done.
Qed.

(** [rd_kafka_produce_batch] without blocking, when every partition named
    by the application exists, returns the number of messages enqueued and an
    error code for each message.  Exactly the messages without an error code are
    enqueued, each with its payload and key, and the counters are exact
    afterwards. *)
Theorem produce_batch_conserves (partitioner : option (list Z) -> Z -> Z -> Z) (utc_now now : Z) (rk : rd_kafka)
    (partition flags : Z) (msgs : list rd_kafka_message) :
  producer_ok rk [] -> Forall arg_ok msgs -> flag RD_KAFKA_MSG_F_BLOCK flags = false ->
  (flag RD_KAFKA_MSG_F_PARTITION flags = true -> Forall (fun a => ma_partition a = RD_KAFKA_PARTITION_UA \/
     exists s, rd_kafka_toppar_get_avail (rk_rkt rk) (ma_partition a) = inr s) msgs) ->
  exists rk' errs, rd_kafka_produce_batch partitioner utc_now now rk partition flags msgs =
      Ret (rk', errs, zlen (kept msgs errs)) /\
    length errs = length msgs /\ producer_ok rk' [] /\ limits rk' = limits rk /\
    exists new, Permutation (held rk') (new ++ held rk) /\ msg_view <$> new = kept msgs errs.
Proof.
  intros Hok Ha Hb Hr. unfold rd_kafka_produce_batch.
  pose proof (rdlocked_flag flags) as Hfl.
  assert (Hend : forall rk' errs', enqueued rk rk' (kept msgs errs') -> length errs' = length msgs ->
    exists rk2 errs, Ret (rk', [] ++ errs', 0 + zlen (kept msgs errs')) = Ret (rk2, errs, zlen (kept msgs errs)) /\
      length errs = length msgs /\ producer_ok rk2 [] /\ limits rk2 = limits rk /\
      exists new, Permutation (held rk2) (new ++ held rk) /\ msg_view <$> new = kept msgs errs).
  { intros rk' errs' (H1 & _ & H2 & new & H3 & H4) Hl. exists rk', errs'. split; [done|]. split; [done|].
    split; [done|]. split; [done|]. by exists new. }
  destruct ((partition =? RD_KAFKA_PARTITION_UA) || flag RD_KAFKA_MSG_F_PARTITION flags) eqn:Em.
  - destruct (batch_loop_spec partitioner utc_now now true partition (Z.lor flags RD_KAFKA_MSG_F_RKT_RDLOCKED)
      ltac:(by rewrite (Hfl _ 2)) msgs rk None 0 0 [] 0 Hok Ha) as (rk' & errs' & -> & Hl & He); [|by left|by apply Hend].
    unfold arg_routable, arg_partition. rewrite (Hfl _ 3) by done.
    destruct (flag RD_KAFKA_MSG_F_PARTITION flags).
    + eapply Forall_impl; [by apply Hr|]. by intros.
    + apply Forall_forall. intros a _ _. left. rewrite orb_false_r in Em. by apply Z.eqb_eq.
  - apply orb_false_iff in Em as [Em Ef].
    destruct (rd_kafka_toppar_get_avail (rk_rkt rk) partition) as [e|s] eqn:Es.
    + destruct (batch_loop_spec partitioner utc_now now false partition flags Hb msgs rk None e 0 [] 0 Hok Ha)
        as (rk' & errs' & -> & Hl & He); [by apply Forall_forall| |by apply Hend].
      right. unfold rd_kafka_toppar_get_avail in Es. intros ->.
      destruct (rkt_state (rk_rkt rk)); [|destruct (_ =? 0); [|destruct (_ >=? _); [done|]]|done];
        by destruct (rd_kafka_toppar_get _ _ _).
    + destruct (batch_loop_spec partitioner utc_now now false partition flags Hb msgs rk (Some s) 0 0 [] 0 Hok Ha)
        as (rk' & errs' & -> & Hl & He); [by apply Forall_forall|by eapply get_avail_some|by apply Hend].
Qed.

Definition example_toppar (partition : Z) : rd_kafka_toppar :=
  mk_rktp partition 0 rd_kafka_msgq_init rd_kafka_msgq_init RD_KAFKA_QUEUE_FIFO.
Definition example_rkt (s : topic_state) : rd_kafka_itopic :=
  mk_rkt s [example_toppar 0; example_toppar 1] (Some (example_toppar (-1))) 1000.
Definition example_rk (s : topic_state) : rd_kafka := mk_rk (mk_curr 0 0 2 100) 1000 (example_rkt s) 1 [].
Definition example_partitioner (key : option (list Z)) (keylen cnt : Z) : Z := keylen mod cnt.

Lemma example_rk_ok s : producer_ok (example_rk s) [].
Proof.
  assert (Hq : forall p, toppar_ok (example_toppar p)) by (intros p; split; apply msgq_init_ok).
  constructor; simpl.
  - split_and!; try done; lia.
  - split; [by repeat constructor|done].
  - split; constructor.
  - lia.
Qed.

Lemma produce_accepts_or_rejects_witness :
  exists rk' e, rd_kafka_msg_new example_partitioner 5 6 (example_rk RD_KAFKA_TOPIC_S_EXISTS) (-1) 0
      (Some [1; 2]) 2 (Some [7]) 1 = Ret (rk', (0, (0, e))) /\
    accepted example_partitioner 5 (example_rk RD_KAFKA_TOPIC_S_EXISTS) rk' (-1) 0 (Some [1; 2]) (Some [7]).
Proof.
  destruct (produce_accepts_or_rejects example_partitioner 5 6 (example_rk RD_KAFKA_TOPIC_S_EXISTS) (-1) 0
    (Some [1; 2]) (Some [7]) 2 1 (example_rk_ok _) ltac:(simpl; lia) ltac:(simpl; lia) eq_refl)
    as (rk' & r & e & H1 & _ & _ & _ & H2 & _).
  destruct (H2 eq_refl) as [-> Ha]. exists rk', e. exact (conj H1 Ha).
Defined.

Definition example_batch_msgs : list rd_kafka_message :=
  [mk_message_arg (Some [1]) 1 None 0 1; mk_message_arg (Some [2]) 1 None 0 0; mk_message_arg (Some [3]) 1 None 0 1].

(** The third message passes the limit of two messages. *)
Lemma produce_batch_conserves_witness :
  exists rk' errs, rd_kafka_produce_batch example_partitioner 5 6 (example_rk RD_KAFKA_TOPIC_S_EXISTS) 0
      RD_KAFKA_MSG_F_PARTITION example_batch_msgs = Ret (rk', errs, zlen (kept example_batch_msgs errs)) /\
    errs = [0; 0; RD_KAFKA_RESP_ERR__QUEUE_FULL] /\ producer_ok rk' [].
Proof.
  assert (Ha : Forall arg_ok example_batch_msgs) by (repeat constructor; simpl; lia).
  assert (Hr : Forall (fun a => ma_partition a = RD_KAFKA_PARTITION_UA \/
     exists s, rd_kafka_toppar_get_avail (example_rkt RD_KAFKA_TOPIC_S_EXISTS) (ma_partition a) = inr s) example_batch_msgs).
  { repeat (apply Forall_cons; split; [right; by eexists|]). constructor. }
  destruct (produce_batch_conserves example_partitioner 5 6 (example_rk RD_KAFKA_TOPIC_S_EXISTS) 0
    RD_KAFKA_MSG_F_PARTITION example_batch_msgs (example_rk_ok _) Ha eq_refl (fun _ => Hr))
    as (rk' & errs & H1 & _ & H2 & _).
  exists rk', errs. split; [exact H1|]. split; [|exact H2].
  assert (H3 := H1). vm_compute in H3. by injection H3 as _ <-.
Defined.

(** Two error paths of [rd_kafka_produce_batch] do not keep its contract.
    With RD_KAFKA_MSG_F_PARTITION, a message for a partition the topic does not
    have is not given an error code: the lookup returns NULL and enqueueing on
    it crashes.  And a message that fails the partitioner has its payload freed
    when RD_KAFKA_MSG_F_FREE is set, although a message rejected because the
    queue is full, or rejected by the produce function, leaves it to the
    caller. *)
Theorem produce_batch_error_paths (partitioner : option (list Z) -> Z -> Z -> Z) (utc_now now : Z) (rk : rd_kafka)
    (partition flags : Z) (a : rd_kafka_message) (l : list rd_kafka_message) :
  producer_ok rk [] -> arg_ok a -> flag RD_KAFKA_MSG_F_BLOCK flags = false ->
  too_large rk (ma_payload a) (ma_key a) None = false -> queue_full rk (ma_payload a) = false ->
  (rkt_state (rk_rkt rk) = RD_KAFKA_TOPIC_S_EXISTS -> flag RD_KAFKA_MSG_F_PARTITION flags = true ->
     0 < zlen (rkt_p (rk_rkt rk)) <= ma_partition a ->
     rd_kafka_produce_batch partitioner utc_now now rk partition flags (a :: l) = Crash) /\
  (rkt_state (rk_rkt rk) = RD_KAFKA_TOPIC_S_NOTEXISTS -> flag RD_KAFKA_MSG_F_PARTITION flags = false ->
     flag RD_KAFKA_MSG_F_FREE flags = true -> flag RD_KAFKA_MSG_F_COPY flags = false -> is_Some (ma_payload a) ->
     exists rk', rd_kafka_produce_batch partitioner utc_now now rk RD_KAFKA_PARTITION_UA flags [a] =
         Ret (rk', [RD_KAFKA_RESP_ERR__UNKNOWN_TOPIC], 0) /\
       payload_freed (rk_next rk) ∈ rk_log rk').
Proof.
  intros Hok [Hp Hk] Hb Hl Hq.
  pose proof (rdlocked_flag flags) as Hfl.
  assert (Hnew : forall p, exists rk1 m, rd_kafka_msg_new0 utc_now now rk p (Z.lor flags RD_KAFKA_MSG_F_RKT_RDLOCKED)
      (ma_payload a) (ma_len a) (ma_key a) (ma_key_len a) None utc_now = Ret (rk1, inr m) /\ producer_ok rk1 [m] /\
      rk_rkt rk1 = rk_rkt rk /\ rkm_partition m = p /\ rkm_ptr m = rk_next rk /\ rkm_payload m = ma_payload a /\
      flag RD_KAFKA_MSG_F_ACCOUNT (rkm_flags m) = true /\
      flag RD_KAFKA_MSG_F_FREE (rkm_flags m) = flag RD_KAFKA_MSG_F_FREE flags && negb (flag RD_KAFKA_MSG_F_COPY flags)).
  { intros p. destruct (new0_spec utc_now now rk p (Z.lor flags RD_KAFKA_MSG_F_RKT_RDLOCKED) _ _ _ _ None utc_now Hok Hp Hk
      ltac:(simpl; lia) ltac:(by rewrite (Hfl _ 2))) as (_ & _ & H).
    destruct (H Hl Hq) as (rk1 & m & E & [H1 H2 [H3 _] _ _ _ _ H7 H8] & Hok1 & Et & _).
    rewrite (Hfl _ 0), (Hfl _ 1) in H8 by done. by exists rk1, m. }
  unfold rd_kafka_produce_batch. split.
  - intros Hst Hpf Hpt. rewrite Hpf, orb_true_r. cbn [produce_batch_loop Z.eqb negb]. rewrite (Hfl _ 3), Hpf by done.
    destruct (Hnew (ma_partition a)) as (rk1 & m & -> & _ & Et & Hmp & _). cbn [obind]. rewrite Hmp.
    destruct (Z.eqb_spec (ma_partition a) RD_KAFKA_PARTITION_UA) as [E|_]; [unfold RD_KAFKA_PARTITION_UA in E; lia|].
    unfold batch_target, rd_kafka_toppar_get_avail, rkt_partition_cnt. rewrite Et, Hst, Z.geb_leb.
    destruct (Z.eqb_spec (zlen (rkt_p (rk_rkt rk))) 0); [lia|].
    destruct (Z.leb_spec (zlen (rkt_p (rk_rkt rk))) (ma_partition a)); [done|lia].
  - intros Hst Hpf Hf Hc Hpl. rewrite Hpf, Z.eqb_refl. cbn [orb produce_batch_loop Z.eqb negb].
    rewrite (Hfl _ 3), Hpf by done.
    destruct (Hnew RD_KAFKA_PARTITION_UA) as (rk1 & m & -> & Hok1 & Et & Hmp & Hptr & Hpay & Hacc & Hfree). cbn [obind].
    rewrite Hmp, Z.eqb_refl. unfold rd_kafka_msg_partitioner. rewrite Et, Hst. cbn [obind].
    change (negb (RD_KAFKA_RESP_ERR__UNKNOWN_TOPIC =? 0)) with true. cbv iota.
    destruct (destroy_spec (rk_event (on_acknowledgement_app 0 RD_KAFKA_RESP_ERR__UNKNOWN_TOPIC) rk1) m)
      as (rk' & -> & _ & _ & _ & El); [by apply event_ok|done|]. cbn [obind app].
    exists rk'. split; [done|]. rewrite El, Hfree, Hf, Hc, Hpay, bool_decide_eq_true_2, Hptr by done. cbn [andb negb].
    apply elem_of_app. right. by left.
Qed.

Lemma produce_batch_error_paths_witness :
  rd_kafka_produce_batch example_partitioner 5 6 (example_rk RD_KAFKA_TOPIC_S_EXISTS) 0 RD_KAFKA_MSG_F_PARTITION
    [mk_message_arg (Some [1]) 1 None 0 2] = Crash /\
  exists rk', rd_kafka_produce_batch example_partitioner 5 6 (example_rk RD_KAFKA_TOPIC_S_NOTEXISTS) (-1)
      RD_KAFKA_MSG_F_FREE [mk_message_arg (Some [1]) 1 None 0 2] = Ret (rk', [RD_KAFKA_RESP_ERR__UNKNOWN_TOPIC], 0) /\
    payload_freed 1 ∈ rk_log rk'.
Proof.
  assert (Ha : arg_ok (mk_message_arg (Some [1]) 1 None 0 2)) by (split; simpl; lia).
  split.
  - apply (produce_batch_error_paths example_partitioner 5 6 (example_rk RD_KAFKA_TOPIC_S_EXISTS) 0
      RD_KAFKA_MSG_F_PARTITION (mk_message_arg (Some [1]) 1 None 0 2) [] (example_rk_ok _) Ha eq_refl eq_refl eq_refl);
      [reflexivity|reflexivity|simpl; lia].
  - apply (produce_batch_error_paths example_partitioner 5 6 (example_rk RD_KAFKA_TOPIC_S_NOTEXISTS) 0
      RD_KAFKA_MSG_F_FREE (mk_message_arg (Some [1]) 1 None 0 2) [] (example_rk_ok _) Ha eq_refl eq_refl eq_refl);
      [reflexivity|reflexivity|reflexivity|reflexivity|by eexists].
Defined.
