(* ===== verification/PartList.v ===== *)
(** * Topic-partition lists: the list functions of rdkafka_partition.c

    The list the application, the consumer group and the offset functions pass
    around: an array of topic and partition with an offset and an error code.
    A C string is the list of its bytes without the NUL.  [elems] holds the
    elements in use; the array has room for [size]. *)
From Stdlib Require Import ZArith Lia.
From stdpp Require Import base numbers list gmap.
From S2P Require Import Prelude RdList Proto Msg.

(** ** Code *)

Record rd_kafka_topic_partition : Type := mk_rktpar {
  tp_topic : list Z;
  tp_partition : Z;
  tp_offset : Z;
  tp_metadata : option (list Z);
  tp_metadata_size : Z;
  tp_err : Z }.

Record rd_kafka_topic_partition_list : Type := mk_tpl {
  tpl_elems : list rd_kafka_topic_partition;
  tpl_size : Z }.

Definition tpl_cnt (l : rd_kafka_topic_partition_list) : Z := zlen (tpl_elems l).

Definition set_elems (es : list rd_kafka_topic_partition) (l : rd_kafka_topic_partition_list)
  : rd_kafka_topic_partition_list := mk_tpl es (tpl_size l).

Definition set_offset_err (o e : Z) (p : rd_kafka_topic_partition) : rd_kafka_topic_partition :=
  mk_rktpar (tp_topic p) (tp_partition p) o (tp_metadata p) (tp_metadata_size p) e.

(** The sign of [strcmp]. *)
Fixpoint strcmp (a b : list Z) : Z :=
  match a, b with
  | [], [] => 0
  | [], _ => -1
  | _, [] => 1
  | x :: a, y :: b => if x =? y then strcmp a b else if x <? y then -1 else 1
  end.

Definition rd_kafka_topic_partition_list_grow (l : rd_kafka_topic_partition_list) (add_size : Z)
  : rd_kafka_topic_partition_list :=
  let add_size := if add_size <? tpl_size l then Z.max (tpl_size l) 32 else add_size in
  mk_tpl (tpl_elems l) (tpl_size l + add_size).

Definition rd_kafka_topic_partition_list_new (size : Z) : rd_kafka_topic_partition_list :=
  let l := mk_tpl [] size in
  if size >? 0 then rd_kafka_topic_partition_list_grow l size else l.

(** The list with the new element, whose index is the old count. *)
Definition rd_kafka_topic_partition_list_add0 (l : rd_kafka_topic_partition_list) (topic : list Z) (partition : Z)
  : outcome rd_kafka_topic_partition_list :=
  let l := if tpl_cnt l =? tpl_size l then rd_kafka_topic_partition_list_grow l 1 else l in
  assert! (tpl_cnt l <? tpl_size l) in
  Ret (set_elems (tpl_elems l ++ [mk_rktpar topic partition RD_KAFKA_OFFSET_INVALID None 0 0]) l).

Definition rd_kafka_topic_partition_list_add (l : rd_kafka_topic_partition_list) (topic : list Z) (partition : Z)
  : outcome rd_kafka_topic_partition_list := rd_kafka_topic_partition_list_add0 l topic partition.

(** The partitions from [start], [n] of them. *)
Fixpoint add_range_loop (n : nat) (l : rd_kafka_topic_partition_list) (topic : list Z) (start : Z)
  : outcome rd_kafka_topic_partition_list :=
  match n with
  | O => Ret l
  | S n => let! l := rd_kafka_topic_partition_list_add l topic start in add_range_loop n l topic (start + 1)
  end.

Definition rd_kafka_topic_partition_list_add_range (l : rd_kafka_topic_partition_list) (topic : list Z)
    (start stop : Z) : outcome rd_kafka_topic_partition_list :=
  add_range_loop (Z.to_nat (stop - start + 1)) l topic start.

Definition rd_kafka_topic_partition_cmp (a b : rd_kafka_topic_partition) : Z :=
  let r := strcmp (tp_topic a) (tp_topic b) in
  if negb (r =? 0) then r else s32 (tp_partition a - tp_partition b).

Fixpoint find0_loop (es : list rd_kafka_topic_partition) (skel : rd_kafka_topic_partition) (i : Z) : Z :=
  match es with
  | [] => -1
  | e :: es => if rd_kafka_topic_partition_cmp skel e =? 0 then i else find0_loop es skel (i + 1)
  end.

Definition rd_kafka_topic_partition_list_find0 (l : rd_kafka_topic_partition_list) (topic : list Z) (partition : Z) : Z :=
  find0_loop (tpl_elems l) (mk_rktpar topic partition 0 None 0 0) 0.

(** The index of the element instead of its address. *)
Definition rd_kafka_topic_partition_list_find (l : rd_kafka_topic_partition_list) (topic : list Z) (partition : Z)
  : option nat :=
  let i := rd_kafka_topic_partition_list_find0 l topic partition in
  if i =? -1 then None else Some (Z.to_nat i).

(** The list and the index of the element found or added. *)
Definition rd_kafka_topic_partition_list_upsert (l : rd_kafka_topic_partition_list) (topic : list Z) (partition : Z)
  : outcome (rd_kafka_topic_partition_list * nat) :=
  match rd_kafka_topic_partition_list_find l topic partition with
  | Some i => Ret (l, i)
  | None =>
      let! l' := rd_kafka_topic_partition_list_add l topic partition in Ret (l', length (tpl_elems l))
  end.

(** Adds a copy of [rktpar]. *)
Definition rd_kafka_topic_partition_copy (l : rd_kafka_topic_partition_list) (rktpar : rd_kafka_topic_partition)
  : outcome rd_kafka_topic_partition_list :=
  let! l := rd_kafka_topic_partition_list_add0 l (tp_topic rktpar) (tp_partition rktpar) in
  let dst := mk_rktpar (tp_topic rktpar) (tp_partition rktpar) (tp_offset rktpar)
               (if tp_metadata_size rktpar >? 0 then tp_metadata rktpar else None)
               (if tp_metadata_size rktpar >? 0 then tp_metadata_size rktpar else 0) (tp_err rktpar) in
  Ret (set_elems (<[pred (length (tpl_elems l)) := dst]> (tpl_elems l)) l).

Fixpoint list_copy_loop (dst : rd_kafka_topic_partition_list) (es : list rd_kafka_topic_partition)
  : outcome rd_kafka_topic_partition_list :=
  match es with
  | [] => Ret dst
  | e :: es => let! dst := rd_kafka_topic_partition_copy dst e in list_copy_loop dst es
  end.

Definition rd_kafka_topic_partition_list_copy (src : rd_kafka_topic_partition_list)
  : outcome rd_kafka_topic_partition_list :=
  list_copy_loop (rd_kafka_topic_partition_list_new (tpl_size src)) (tpl_elems src).

Definition rd_kafka_topic_partition_list_del_by_idx (l : rd_kafka_topic_partition_list) (idx : Z)
  : rd_kafka_topic_partition_list * Z :=
  if (idx <? 0) || (idx >=? tpl_cnt l) then (l, 0)
  else (set_elems (delete (Z.to_nat idx) (tpl_elems l)) l, 1).

Definition rd_kafka_topic_partition_list_del (l : rd_kafka_topic_partition_list) (topic : list Z) (partition : Z)
  : rd_kafka_topic_partition_list * Z :=
  let i := rd_kafka_topic_partition_list_find0 l topic partition in
  if i =? -1 then (l, 0) else rd_kafka_topic_partition_list_del_by_idx l i.

Definition rd_kafka_topic_partition_list_set_offset (l : rd_kafka_topic_partition_list) (topic : list Z)
    (partition offset : Z) : rd_kafka_topic_partition_list * Z :=
  match rd_kafka_topic_partition_list_find l topic partition with
  | None => (l, RD_KAFKA_RESP_ERR__UNKNOWN_PARTITION)
  | Some i => (set_elems (alter (fun p => set_offset_err offset (tp_err p) p) i (tpl_elems l)) l,
               RD_KAFKA_RESP_ERR_NO_ERROR)
  end.

Definition rd_kafka_topic_partition_list_reset_offsets (l : rd_kafka_topic_partition_list) (offset : Z)
  : rd_kafka_topic_partition_list :=
  set_elems ((fun p => set_offset_err offset (tp_err p) p) <$> tpl_elems l) l.

Definition rd_kafka_topic_partition_list_set_err (l : rd_kafka_topic_partition_list) (err : Z)
  : rd_kafka_topic_partition_list :=
  set_elems ((fun p => set_offset_err (tp_offset p) err p) <$> tpl_elems l) l.

Definition RD_KAFKA_OFFSET_IS_LOGICAL (o : Z) : bool := o <? 0.

Definition rd_kafka_topic_partition_list_count_abs_offsets (l : rd_kafka_topic_partition_list) : Z :=
  foldl (fun n p => if negb (RD_KAFKA_OFFSET_IS_LOGICAL (tp_offset p)) then n + 1 else n) 0 (tpl_elems l).

Definition rd_kafka_topic_partition_list_sum (cb : rd_kafka_topic_partition -> Z) (l : rd_kafka_topic_partition_list) : Z :=
  foldl (fun n p => u64 (n + cb p)) 0 (tpl_elems l).

(** ['^'] starts a regular expression. *)
Definition is_regex (topic : list Z) : bool := match topic with c :: _ => c =? 94 | [] => false end.

Definition rd_kafka_topic_partition_list_regex_cnt (l : rd_kafka_topic_partition_list) : Z :=
  foldl (fun n p => if is_regex (tp_topic p) then n + 1 else n) 0 (tpl_elems l).

(** Each element of [dst] takes the offset and error of its first match. *)
Definition rd_kafka_topic_partition_list_update (dst src : rd_kafka_topic_partition_list)
  : rd_kafka_topic_partition_list :=
  set_elems ((fun d => match rd_kafka_topic_partition_list_find src (tp_topic d) (tp_partition d) with
                       | Some i => match tpl_elems src !! i with
                                   | Some s => set_offset_err (tp_offset s) (tp_err s) d
                                   | None => d
                                   end
                       | None => d
                       end) <$> tpl_elems dst) dst.

Fixpoint list_match_loop (f : rd_kafka_topic_partition -> bool) (newlist : rd_kafka_topic_partition_list)
    (es : list rd_kafka_topic_partition) : outcome rd_kafka_topic_partition_list :=
  match es with
  | [] => Ret newlist
  | e :: es =>
      if negb (f e) then list_match_loop f newlist es
      else let! newlist := rd_kafka_topic_partition_copy newlist e in list_match_loop f newlist es
  end.

Definition rd_kafka_topic_partition_list_match (f : rd_kafka_topic_partition -> bool) (l : rd_kafka_topic_partition_list)
  : outcome rd_kafka_topic_partition_list :=
  list_match_loop f (rd_kafka_topic_partition_list_new 0) (tpl_elems l).

(** [rd_regex_match] is third-party code: the pattern matches, does not match,
    or is invalid ([None]).  The result and whether a pattern matched. *)
Definition rd_kafka_topic_partition_match (rd_regex_match : list Z -> list Z -> option bool)
    (rktpar : rd_kafka_topic_partition) (topic : list Z) : bool * bool :=
  if is_regex (tp_topic rktpar) then
    match rd_regex_match (tp_topic rktpar) topic with
    | None => (false, false)
    | Some ret => (ret, ret)
    end
  else (strcmp (tp_topic rktpar) topic =? 0, false).

(** [rd_qsort_r] is a parameter. *)
Definition rd_kafka_topic_partition_list_sort
    (qsort : (rd_kafka_topic_partition -> rd_kafka_topic_partition -> Z) ->
             list rd_kafka_topic_partition -> list rd_kafka_topic_partition)
    (cmp : option (rd_kafka_topic_partition -> rd_kafka_topic_partition -> Z)) (l : rd_kafka_topic_partition_list)
  : rd_kafka_topic_partition_list :=
  set_elems (qsort (default rd_kafka_topic_partition_cmp cmp) (tpl_elems l)) l.

(** ** Specification: a finite map from topic and partition *)

Abbreviation tpkey := (list Z * Z)%type.

Definition tp_key (p : rd_kafka_topic_partition) : tpkey := (tp_topic p, tp_partition p).
Definition tp_val (p : rd_kafka_topic_partition) : Z * Z := (tp_offset p, tp_err p).
Definition tp_pair (p : rd_kafka_topic_partition) : tpkey * (Z * Z) := (tp_key p, tp_val p).

Definition tpl_map (l : rd_kafka_topic_partition_list) : gmap tpkey (Z * Z) := list_to_map (tp_pair <$> tpl_elems l).

(** The capacity bounds the count and no partition occurs twice. *)
Record tpl_wf (l : rd_kafka_topic_partition_list) : Prop := mk_tpl_wf {
  tw_size : tpl_cnt l <= tpl_size l;
  tw_keys : NoDup (tp_key <$> tpl_elems l);
  tw_parts : Forall (fun p => s_ok 32 (tp_partition p)) (tpl_elems l) }.

Lemma strcmp_eq a b : strcmp a b = 0 <-> a = b.
Proof.
  revert b; induction a as [|x a IH]; intros [|y b]; simpl; try done.
  destruct (Z.eqb_spec x y) as [->|]; [|destruct (x <? y); split; congruence || (intros [= ? ?]; done)].
  rewrite IH. split; congruence.
Qed.

Lemma cmp_eq a b :
  s_ok 32 (tp_partition a) -> s_ok 32 (tp_partition b) ->
  (rd_kafka_topic_partition_cmp a b =? 0) = bool_decide (tp_key a = tp_key b).
Proof.
  unfold s_ok. intros Ha Hb. unfold rd_kafka_topic_partition_cmp, tp_key.
  destruct (Z.eqb_spec (strcmp (tp_topic a) (tp_topic b)) 0) as [E|E]; cbn [negb].
  - apply strcmp_eq in E. rewrite E. set (d := tp_partition a - tp_partition b).
    destruct (decide (tp_partition a = tp_partition b)) as [Ep|Ep].
    + rewrite bool_decide_eq_true_2 by congruence. subst d. by rewrite Ep, Z.sub_diag.
    + rewrite bool_decide_eq_false_2 by congruence. apply Z.eqb_neq. unfold swrap. intros H.
      assert (Hd : (d + 2 ^ (32 - 1)) mod 2 ^ 32 = 2 ^ 31) by lia.
      rewrite Z.mod_eq in Hd by lia. unfold d in Hd. change (2 ^ (32 - 1)) with (2 ^ 31) in Hd. lia.
  - rewrite bool_decide_eq_false_2; [by apply Z.eqb_neq|]. intros [= H _]. by apply E, strcmp_eq.
Qed.

Lemma find0_loop_spec es t p i :
  s_ok 32 p -> Forall (fun e => s_ok 32 (tp_partition e)) es -> 0 <= i ->
  (find0_loop es (mk_rktpar t p 0 None 0 0) i = -1 /\ (t, p) ∉ (tp_key <$> es)) \/
  exists j e, find0_loop es (mk_rktpar t p 0 None 0 0) i = i + Z.of_nat j /\ es !! j = Some e /\ tp_key e = (t, p).
Proof.
  intros Hp He. revert i; induction He as [|e es He Hes IH]; intros i Hi; [left; split; [done|apply not_elem_of_nil]|].
  cbn [find0_loop]. rewrite cmp_eq by done. case_bool_decide as E.
  - right. exists 0%nat, e. split; [lia|]. done.
  - destruct (IH (i + 1) ltac:(lia)) as [[-> Hn]|(j & e' & -> & Hj & Hk)].
    + left. split; [done|]. rewrite fmap_cons, not_elem_of_cons. split; [|done]. exact E.
    + right. exists (S j), e'. split; [lia|]. done.
Qed.

Lemma find_spec l t p :
  s_ok 32 p -> tpl_wf l ->
  (rd_kafka_topic_partition_list_find l t p = None /\ rd_kafka_topic_partition_list_find0 l t p = -1 /\
     tpl_map l !! (t, p) = None /\ (t, p) ∉ (tp_key <$> tpl_elems l)) \/
  exists j e, rd_kafka_topic_partition_list_find l t p = Some j /\
    rd_kafka_topic_partition_list_find0 l t p = Z.of_nat j /\
    tpl_elems l !! j = Some e /\ tp_key e = (t, p) /\ tpl_map l !! (t, p) = Some (tp_val e).
Proof.
  intros Hp [_ Hn Hs]. unfold rd_kafka_topic_partition_list_find, rd_kafka_topic_partition_list_find0, tpl_map.
  assert (Hk : (tp_pair <$> tpl_elems l).*1 = tp_key <$> tpl_elems l) by (by rewrite <- list_fmap_compose).
  destruct (find0_loop_spec (tpl_elems l) t p 0 Hp Hs ltac:(lia)) as [[-> Hni]|(j & e & -> & Hj & He)].
  - left. split; [done|]. split; [done|]. split; [|done]. apply not_elem_of_list_to_map_1. by rewrite Hk.
  - right. exists j, e. rewrite Z.add_0_l. destruct (Z.eqb_spec (Z.of_nat j) (-1)); [lia|]. rewrite Nat2Z.id.
    split; [done|]. split; [done|]. split; [done|]. split; [done|].
    apply elem_of_list_to_map_1; [by rewrite Hk|]. apply list_elem_of_fmap. exists e.
    split; [unfold tp_pair; by rewrite He|]. by eapply list_elem_of_lookup_2.
Qed.

(** ** Operations *)

Definition new_elem (t : list Z) (p : Z) : rd_kafka_topic_partition :=
  mk_rktpar t p RD_KAFKA_OFFSET_INVALID None 0 0.

Lemma grow_spec l : 0 <= tpl_size l -> tpl_size l < tpl_size (rd_kafka_topic_partition_list_grow l 1) /\
  tpl_elems (rd_kafka_topic_partition_list_grow l 1) = tpl_elems l.
Proof.
  intros H. unfold rd_kafka_topic_partition_list_grow. simpl. destruct (Z.ltb_spec 1 (tpl_size l)); (split; [lia|done]).
Qed.

Lemma tpl_add_spec l t p :
  tpl_cnt l <= tpl_size l ->
  exists l', rd_kafka_topic_partition_list_add l t p = Ret l' /\
    tpl_elems l' = tpl_elems l ++ [new_elem t p] /\ tpl_cnt l' <= tpl_size l'.
Proof.
  intros Hs. unfold rd_kafka_topic_partition_list_add, rd_kafka_topic_partition_list_add0.
  set (l1 := if tpl_cnt l =? tpl_size l then rd_kafka_topic_partition_list_grow l 1 else l).
  assert (H1 : tpl_elems l1 = tpl_elems l /\ tpl_cnt l < tpl_size l1).
  { pose proof (grow_spec l) as Hg. unfold l1. destruct (Z.eqb_spec (tpl_cnt l) (tpl_size l)) as [Ez|]; [|split; [done|lia]].
    destruct Hg as [Hg Eg]; [unfold tpl_cnt in Ez; lia|]. split; [done|lia]. }
  destruct H1 as [E H1]. unfold tpl_cnt in *. rewrite E. destruct (Z.ltb_spec (zlen (tpl_elems l)) (tpl_size l1)); [|lia].
  eexists. split; [done|]. split; [done|]. simpl. rewrite length_app. simpl length. lia.
Qed.

Lemma add_range_spec n l t p :
  tpl_cnt l <= tpl_size l ->
  exists l', add_range_loop n l t p = Ret l' /\
    tpl_elems l' = tpl_elems l ++ (new_elem t <$> seqZ p (Z.of_nat n)) /\ tpl_cnt l' <= tpl_size l'.
Proof.
  revert l p; induction n as [|n IH]; intros l p Hs.
  { exists l. by rewrite app_nil_r. }
  cbn [add_range_loop]. destruct (tpl_add_spec l t p Hs) as (l1 & -> & E1 & H1). cbn [obind].
  destruct (IH l1 (p + 1) H1) as (l' & -> & E' & H'). exists l'. split; [done|]. split; [|done].
  rewrite E', E1, <- app_assoc, (seqZ_cons p (Z.of_nat (S n))) by lia. simpl. do 3 f_equal. f_equal; lia.
Qed.

(** Replacing or removing the element with a given key. *)
Lemma map_middle (l1 l2 : list rd_kafka_topic_partition) e :
  NoDup (tp_key <$> l1 ++ e :: l2) ->
  (list_to_map (tp_pair <$> l1 ++ e :: l2) : gmap tpkey (Z * Z)) =
    <[tp_key e := tp_val e]> (list_to_map (tp_pair <$> l1 ++ l2)) /\
  tp_key e ∉ (tp_key <$> l1 ++ l2).
Proof.
  intros Hn. assert (Hp : Permutation (l1 ++ e :: l2) (e :: l1 ++ l2)) by (by rewrite <- Permutation_middle).
  assert (Hk : forall l, (tp_pair <$> l).*1 = tp_key <$> l) by (intros l; by rewrite <- list_fmap_compose).
  split.
  - rewrite (list_to_map_proper _ (tp_pair <$> e :: l1 ++ l2)); [done|by rewrite Hk|by rewrite Hp].
  - rewrite Hp in Hn. rewrite fmap_cons in Hn. by apply NoDup_cons in Hn as [Hn _].
Qed.

Lemma wf_elems l es : tpl_wf l -> tp_key <$> es = tp_key <$> tpl_elems l -> tpl_wf (set_elems es l).
Proof.
  intros [H1 H2 H3] E. assert (El : length es = length (tpl_elems l)).
  { rewrite <- (length_fmap tp_key es), E. apply length_fmap. }
  constructor; unfold tpl_cnt in *; simpl; rewrite ?El, ?E; try done.
  assert (E2 : tp_partition <$> es = tp_partition <$> tpl_elems l).
  { change tp_partition with (fun p => (tp_key p).2). rewrite !(list_fmap_compose tp_key snd). by rewrite E. }
  change (Forall (s_ok 32 ∘ tp_partition) es). apply Forall_fmap. rewrite E2. by apply Forall_fmap.
Qed.

Lemma map_fmap l (f : rd_kafka_topic_partition -> rd_kafka_topic_partition) (g : Z * Z -> Z * Z) :
  (forall p, tp_key (f p) = tp_key p /\ tp_val (f p) = g (tp_val p)) ->
  tpl_map (set_elems (f <$> tpl_elems l) l) = g <$> tpl_map l.
Proof.
  intros Hf. unfold tpl_map. simpl. rewrite <- list_to_map_fmap. f_equal. rewrite <- !list_fmap_compose.
  apply list_fmap_ext. intros i p _. unfold tp_pair, compose. simpl. destruct (Hf p) as [-> ->]. done.
Qed.

(** ** Sequences of operations *)

Inductive tpl_op : Type :=
| OpUpsert (t : list Z) (p : Z)
| OpDel (t : list Z) (p : Z)
| OpSetOffset (t : list Z) (p o : Z)
| OpResetOffsets (o : Z)
| OpSetErr (e : Z).

Definition run_tpl_op (o : tpl_op) (l : rd_kafka_topic_partition_list) : outcome (rd_kafka_topic_partition_list * Z) :=
  match o with
  | OpUpsert t p => let! (l, _) := rd_kafka_topic_partition_list_upsert l t p in Ret (l, 0)
  | OpDel t p => Ret (rd_kafka_topic_partition_list_del l t p)
  | OpSetOffset t p o => Ret (rd_kafka_topic_partition_list_set_offset l t p o)
  | OpResetOffsets o => Ret (rd_kafka_topic_partition_list_reset_offsets l o, 0)
  | OpSetErr e => Ret (rd_kafka_topic_partition_list_set_err l e, 0)
  end.

(** The same on a map: a new key starts without an offset. *)
Definition tpl_step (o : tpl_op) (m : gmap tpkey (Z * Z)) : gmap tpkey (Z * Z) * Z :=
  match o with
  | OpUpsert t p => (match m !! (t, p) with Some _ => m | None => <[(t, p) := (RD_KAFKA_OFFSET_INVALID, 0)]> m end, 0)
  | OpDel t p => (delete (t, p) m, match m !! (t, p) with Some _ => 1 | None => 0 end)
  | OpSetOffset t p o =>
      match m !! (t, p) with
      | Some (_, e) => (<[(t, p) := (o, e)]> m, 0)
      | None => (m, RD_KAFKA_RESP_ERR__UNKNOWN_PARTITION)
      end
  | OpResetOffsets o => ((fun v => (o, v.2)) <$> m, 0)
  | OpSetErr e => ((fun v => (v.1, e)) <$> m, 0)
  end.

Definition tpl_op_ok (o : tpl_op) : Prop :=
  match o with OpUpsert _ p | OpDel _ p | OpSetOffset _ p _ => s_ok 32 p | _ => True end.

Lemma map_key_none (l : list rd_kafka_topic_partition) k :
  k ∉ (tp_key <$> l) -> (list_to_map (tp_pair <$> l) : gmap tpkey (Z * Z)) !! k = None.
Proof. intros H. apply not_elem_of_list_to_map_1. by rewrite <- list_fmap_compose. Qed.

Lemma del_idx_spec l j e :
  tpl_wf l -> tpl_elems l !! j = Some e ->
  tpl_wf (set_elems (delete j (tpl_elems l)) l) /\
  tpl_map (set_elems (delete j (tpl_elems l)) l) = delete (tp_key e) (tpl_map l).
Proof.
  intros [H1 H2 H3] Hj. unfold tpl_map. cbn [set_elems tpl_elems].
  pose proof (take_drop_middle _ _ _ Hj) as Em. rewrite delete_take_drop.
  unfold tpl_cnt in H1. set (l1 := take j (tpl_elems l)) in *. set (l2 := drop (S j) (tpl_elems l)) in *.
  clearbody l1 l2. rewrite <- Em in H1, H2, H3 |- *. destruct (map_middle _ _ _ H2) as [Emap Hni]. split.
  - constructor; cbn [set_elems tpl_elems tpl_size].
    + unfold tpl_cnt. cbn [set_elems tpl_elems]. rewrite length_app in *. simpl length in H1. lia.
    + rewrite fmap_app, fmap_cons in H2. rewrite fmap_app. apply NoDup_app in H2 as (Ha & Hb & Hc).
      apply NoDup_cons in Hc as [_ Hc]. apply NoDup_app. split; [done|]. split; [|done].
      intros x Hx Hy. apply (Hb x Hx). by right.
    + apply Forall_app in H3 as [Ha Hc]. apply Forall_cons in Hc as [_ Hc]. by apply Forall_app.
  - rewrite Emap, delete_insert_id; [done|by apply map_key_none].
Qed.

Lemma set_idx_spec l j e o :
  tpl_wf l -> tpl_elems l !! j = Some e ->
  let l' := set_elems (alter (fun p => set_offset_err o (tp_err p) p) j (tpl_elems l)) l in
  tpl_wf l' /\ tpl_map l' = <[tp_key e := (o, tp_err e)]> (tpl_map l).
Proof.
  intros W Hj l'. pose proof (take_drop_middle _ _ _ Hj) as Em. pose proof (tw_keys _ W) as H2.
  set (l1 := take j (tpl_elems l)) in *. set (l2 := drop (S j) (tpl_elems l)) in *.
  assert (El : tpl_elems l' = l1 ++ set_offset_err o (tp_err e) e :: l2).
  { unfold l'. cbn [set_elems tpl_elems]. rewrite <- Em.
    assert (Hl : length l1 = j) by (unfold l1; rewrite length_take; apply lookup_lt_Some in Hj; lia).
    rewrite alter_app_r_alt by lia. by rewrite Hl, Nat.sub_diag. }
  assert (Ek : tp_key <$> tpl_elems l' = tp_key <$> tpl_elems l) by (rewrite El, <- Em, !fmap_app; done).
  split; [by apply wf_elems|]. unfold tpl_map. rewrite El.
  assert (H2' : NoDup (tp_key <$> l1 ++ set_offset_err o (tp_err e) e :: l2)) by (by rewrite <- El, Ek).
  destruct (map_middle _ _ _ H2') as [-> _]. clearbody l1 l2.
  rewrite <- Em in H2 |- *. destruct (map_middle _ _ _ H2) as [-> _].
  by rewrite insert_insert_eq.
Qed.

Lemma tpl_step_spec o l :
  tpl_op_ok o -> tpl_wf l ->
  exists l', run_tpl_op o l = Ret (l', (tpl_step o (tpl_map l)).2) /\ tpl_wf l' /\
    tpl_map l' = (tpl_step o (tpl_map l)).1.
Proof.
  intros Ho W. pose proof W as [H1 H2 H3]. destruct o as [t p|t p|t p of_|of_|e]; cbn [run_tpl_op tpl_step] in *.
  - unfold rd_kafka_topic_partition_list_upsert.
    destruct (find_spec l t p Ho W) as [(-> & _ & -> & Hn)|(j & e & -> & _ & Hj & Hk & ->)].
    + destruct (tpl_add_spec l t p H1) as (l' & -> & E & Hs). cbn [obind]. exists l'. split; [done|]. split.
      * constructor; [done| |]; rewrite E.
        -- rewrite fmap_app. apply NoDup_app. split; [done|]. split; [|apply NoDup_singleton].
           intros x Hx Hy. apply list_elem_of_singleton in Hy as ->. done.
        -- apply Forall_app. split; [done|]. by apply Forall_singleton.
      * unfold tpl_map. rewrite E, fmap_app. cbn [fmap list_fmap].
        change (tp_pair (new_elem t p)) with ((t, p), (RD_KAFKA_OFFSET_INVALID, 0)).
        apply list_to_map_snoc. by rewrite <- list_fmap_compose.
    + exists l. done.
  - unfold rd_kafka_topic_partition_list_del, rd_kafka_topic_partition_list_del_by_idx.
    destruct (find_spec l t p Ho W) as [(_ & -> & E & Hn)|(j & e & _ & -> & Hj & Hk & E)]; rewrite E.
    + exists l. split; [done|]. split; [done|]. by rewrite delete_id.
    + destruct (Z.eqb_spec (Z.of_nat j) (-1)); [lia|]. destruct (Z.ltb_spec (Z.of_nat j) 0); [lia|].
      apply lookup_lt_Some in Hj as Hlt. unfold tpl_cnt. rewrite Z.geb_leb.
      destruct (Z.leb_spec (zlen (tpl_elems l)) (Z.of_nat j)); [lia|]. cbn [orb fst snd]. rewrite Nat2Z.id, <- Hk.
      eexists. split; [done|]. by apply del_idx_spec.
  - unfold rd_kafka_topic_partition_list_set_offset.
    destruct (find_spec l t p Ho W) as [(-> & _ & -> & Hn)|(j & e & -> & _ & Hj & Hk & E)].
    + exists l. done.
    + rewrite E. unfold tp_val. cbn [fst snd]. rewrite <- Hk. eexists. split; [done|]. by apply set_idx_spec.
  - eexists. split; [done|]. split.
    + apply wf_elems; [done|]. by rewrite <- list_fmap_compose.
    + cbn [fst]. apply (map_fmap l _ (fun v => (of_, v.2))). done.
  - eexists. split; [done|]. split.
    + apply wf_elems; [done|]. by rewrite <- list_fmap_compose.
    + cbn [fst]. apply (map_fmap l _ (fun v => (v.1, e))). done.
Qed.

Fixpoint run_tpl_ops (ops : list tpl_op) (l : rd_kafka_topic_partition_list)
  : outcome (rd_kafka_topic_partition_list * list Z) :=
  match ops with
  | [] => Ret (l, [])
  | o :: ops => let! (l, r) := run_tpl_op o l in let! (l, rs) := run_tpl_ops ops l in Ret (l, r :: rs)
  end.

Fixpoint tpl_steps (ops : list tpl_op) (m : gmap tpkey (Z * Z)) : gmap tpkey (Z * Z) * list Z :=
  match ops with
  | [] => (m, [])
  | o :: ops => let '(m, r) := tpl_step o m in let '(m, rs) := tpl_steps ops m in (m, r :: rs)
  end.

Lemma tpl_steps_spec ops l :
  Forall tpl_op_ok ops -> tpl_wf l ->
  exists l', run_tpl_ops ops l = Ret (l', (tpl_steps ops (tpl_map l)).2) /\ tpl_wf l' /\
    tpl_map l' = (tpl_steps ops (tpl_map l)).1.
Proof.
  intros Ho. revert l; induction Ho as [|o ops Hok Ho IH]; intros l W; [by exists l|].
  cbn [run_tpl_ops tpl_steps]. destruct (tpl_step_spec o l Hok W) as (l1 & -> & W1 & E1). cbn [obind].
  destruct (tpl_step o (tpl_map l)) as [m1 r]. cbn [fst snd] in *. subst m1.
  destruct (IH l1 W1) as (l' & -> & W' & E'). cbn [obind]. exists l'.
  destruct (tpl_steps ops (tpl_map l1)) as [m rs]. done.
Qed.

Lemma list_new_wf size : tpl_wf (rd_kafka_topic_partition_list_new size) \/ size < 0.
Proof.
  destruct (Z.lt_ge_cases size 0); [by right|left]. unfold rd_kafka_topic_partition_list_new. rewrite Z.gtb_ltb.
  destruct (Z.ltb_spec 0 size); constructor; unfold tpl_cnt; simpl; try constructor; try lia.
  destruct (Z.ltb_spec size size); lia.
Qed.

Lemma list_copy_loop_spec es dst :
  tpl_cnt dst <= tpl_size dst ->
  exists l, list_copy_loop dst es = Ret l /\ tp_pair <$> tpl_elems l = (tp_pair <$> tpl_elems dst) ++ (tp_pair <$> es) /\
    tpl_cnt l <= tpl_size l.
Proof.
  revert dst; induction es as [|e es IH]; intros dst Hs; [exists dst; by rewrite app_nil_r|].
  cbn [list_copy_loop]. unfold rd_kafka_topic_partition_copy.
  destruct (tpl_add_spec dst (tp_topic e) (tp_partition e) Hs) as (l1 & E & El & Hs1).
  unfold rd_kafka_topic_partition_list_add in E. rewrite E. cbn [obind]. set (d := mk_rktpar _ _ _ _ _ _).
  set (l2 := set_elems _ l1).
  assert (E2 : tpl_elems l2 = tpl_elems dst ++ [d]).
  { unfold l2. cbn [set_elems tpl_elems]. rewrite El, length_app. simpl length.
    rewrite Nat.add_1_r, Nat.pred_succ, insert_app_r_alt, Nat.sub_diag by lia. done. }
  destruct (IH l2) as (l & -> & Em & Hl).
  { unfold tpl_cnt in *. rewrite E2. rewrite El in Hs1. rewrite length_app in *. exact Hs1. }
  exists l. split; [done|]. split; [|done]. rewrite Em, E2, fmap_app, <- app_assoc. done.
Qed.

(** ** Properties *)

(** C31. Any sequence of upserts, deletions and offset and error updates on a
    new topic-partition list returns, whatever its initial size, and does to the
    list what the same operations do to a finite map from topic and partition to
    offset and error, with the same results.  The list never holds a partition
    twice, a search finds exactly the partitions of the map, and a copy holds
    the same map. *)
Theorem partition_list_refines_map (ops : list tpl_op) (size : Z) (Hs : 0 <= size) (Ho : Forall tpl_op_ok ops) :
  let m := (tpl_steps ops ∅).1 in
  exists l, run_tpl_ops ops (rd_kafka_topic_partition_list_new size) = Ret (l, (tpl_steps ops ∅).2) /\
    tpl_map l = m /\ NoDup (tp_key <$> tpl_elems l) /\
    (forall t p, s_ok 32 p ->
       match m !! (t, p) with
       | Some v => exists i e, rd_kafka_topic_partition_list_find l t p = Some i /\
           tpl_elems l !! i = Some e /\ tp_pair e = ((t, p), v)
       | None => rd_kafka_topic_partition_list_find l t p = None
       end) /\
    exists c, rd_kafka_topic_partition_list_copy l = Ret c /\ tpl_map c = m.
Proof.
  intros m. destruct (list_new_wf size) as [W|]; [|lia].
  assert (E0 : tpl_map (rd_kafka_topic_partition_list_new size) = ∅).
  { unfold rd_kafka_topic_partition_list_new. by destruct (size >? 0). }
  destruct (tpl_steps_spec ops _ Ho W) as (l & E & W' & Em). rewrite E0 in E, Em. fold m in Em.
  exists l. split; [done|]. split; [done|]. split; [apply W'|]. split.
  - intros t p Hp. rewrite <- Em. destruct (find_spec l t p Hp W') as [(H1 & _ & -> & _)|(j & e & H1 & _ & Hj & Hk & ->)]; [done|].
    exists j, e. split; [done|]. split; [done|]. unfold tp_pair. by rewrite Hk.
  - unfold rd_kafka_topic_partition_list_copy.
    destruct (list_copy_loop_spec (tpl_elems l) (rd_kafka_topic_partition_list_new (tpl_size l))) as (c & -> & Ec & _).
    { destruct (list_new_wf (tpl_size l)) as [Wc|Hc]; [apply Wc|].
      pose proof (tw_size _ W') as Hc2. unfold tpl_cnt in Hc2. lia. }
    exists c. split; [done|]. rewrite <- Em. unfold tpl_map. rewrite Ec.
    unfold rd_kafka_topic_partition_list_new. by destruct (_ >? 0).
Qed.

Definition example_tpl_ops : list tpl_op :=
  [OpUpsert [116] 0; OpUpsert [116] 1; OpUpsert [116] 0; OpSetOffset [116] 1 42; OpDel [116] 0; OpDel [117] 0].

Lemma partition_list_refines_map_witness :
  exists l, run_tpl_ops example_tpl_ops (rd_kafka_topic_partition_list_new 0) = Ret (l, [0; 0; 0; 0; 1; 0]) /\
    tpl_map l = {[([116], 1) := (42, 0)]} /\ rd_kafka_topic_partition_list_find l [116] 0 = None.
Proof.
  assert (Ho : Forall tpl_op_ok example_tpl_ops).
  { repeat (apply Forall_cons; split; [unfold tpl_op_ok, s_ok; lia|]). constructor. }
  destruct (partition_list_refines_map example_tpl_ops 0 ltac:(lia) Ho) as (l & H1 & H2 & _ & H3 & _).
  exists l. split; [rewrite H1; vm_compute; reflexivity|]. split; [rewrite H2; vm_compute; reflexivity|].
  specialize (H3 [116] 0 ltac:(unfold s_ok; lia)).
  assert (E : (tpl_steps example_tpl_ops ∅).1 !! ([116], 0) = None) by (vm_compute; reflexivity).
  rewrite E in H3. exact H3.
Defined.
