(* ===== verification/Assignor.v ===== *)
(** * Partition assignment: rdkafka_assignor.c, rdkafka_range_assignor.c and
    rdkafka_roundrobin_assignor.c

    The leader of a consumer group maps the topics of the cluster to the
    members that subscribe to them and runs an assignor, which appends
    partitions to the assignments of the members.  A pointer to a member is its
    index in the array; [qsort], the regular expressions and the topic
    blacklist are arguments. *)
From Stdlib Require Import ZArith Lia.
From stdpp Require Import base numbers list.
From S2P Require Import Prelude RdList Proto Msg PartList.

(** ** Data *)

Record rd_kafka_group_member : Type := mk_rkgm {
  rkgm_subscription : rd_kafka_topic_partition_list;
  rkgm_assignment : rd_kafka_topic_partition_list;
  rkgm_eligible : list (list Z);
  rkgm_member_id : rd_kafkap_str }.

Record rd_kafka_metadata_topic : Type := mk_mdt { mdt_topic : list Z; mdt_partition_cnt : Z }.

Record rd_kafka_assignor_topic : Type := mk_at { at_metadata : rd_kafka_metadata_topic; at_members : list nat }.

Definition set_assignment (l : rd_kafka_topic_partition_list) (m : rd_kafka_group_member) : rd_kafka_group_member :=
  mk_rkgm (rkgm_subscription m) l (rkgm_eligible m) (rkgm_member_id m).

Section code.
Context (rd_regex_match : list Z -> list Z -> option bool) (blacklisted : list Z -> bool).
Context (qsort : forall A : Type, (A -> A -> outcome Z) -> list A -> list A).

(** ** Code: rdkafka_assignor.c *)

Definition rd_kafka_group_member_cmp (a b : rd_kafka_group_member) : outcome Z :=
  rd_kafkap_str_cmp (rkgm_member_id a) (rkgm_member_id b).

Definition rd_kafka_group_member_find_subscription (rkgm : rd_kafka_group_member) (topic : list Z) : bool :=
  existsb (fun p => (rd_kafka_topic_partition_match rd_regex_match p topic).1) (tpl_elems (rkgm_subscription rkgm)).

(** The loop over the subscription: the eligible topics, the number of matches
    and the number of matches by a pattern. *)
Fixpoint subscription_match_loop (es : list rd_kafka_topic_partition) (topic : list Z) (eligible : list (list Z))
    (matched has_regex : Z) : list (list Z) * Z * Z :=
  match es with
  | [] => (eligible, matched, has_regex)
  | p :: es =>
      let '(ret, by_regex) := rd_kafka_topic_partition_match rd_regex_match p topic in
      if ret
      then subscription_match_loop es topic (eligible ++ [topic]) (matched + 1) (has_regex + if by_regex : bool then 1 else 0)
      else subscription_match_loop es topic eligible matched has_regex
  end.

(** The member, whether it is added to the members of the topic, and the
    result. *)
Definition rd_kafka_member_subscription_match (rkgm : rd_kafka_group_member) (topic : list Z)
  : rd_kafka_group_member * bool * bool :=
  let '(eligible, matched, has_regex) :=
    subscription_match_loop (tpl_elems (rkgm_subscription rkgm)) topic (rkgm_eligible rkgm) 0 0 in
  (mk_rkgm (rkgm_subscription rkgm) (rkgm_assignment rkgm) eligible (rkgm_member_id rkgm), matched >? 0,
   (has_regex =? 0) && (zlen eligible =? tpl_cnt (rkgm_subscription rkgm))).

(** One topic against the members from index [i] on: the members, the indexes
    of those that match and the number of complete ones. *)
Fixpoint match_members (members : list rd_kafka_group_member) (topic : list Z) (i : nat)
  : list rd_kafka_group_member * list nat * Z :=
  match members with
  | [] => ([], [], 0)
  | m :: members =>
      let '(m, add, complete) := rd_kafka_member_subscription_match m topic in
      let '(ms, idx, cnt) := match_members members topic (S i) in
      (m :: ms, if add : bool then i :: idx else idx, (if complete : bool then 1 else 0) + cnt)
  end.

Fixpoint rd_kafka_member_subscriptions_map (topics : list rd_kafka_metadata_topic)
    (members : list rd_kafka_group_member) (eligible_topics : list rd_kafka_assignor_topic)
  : list rd_kafka_group_member * list rd_kafka_assignor_topic :=
  match topics with
  | [] => (members, eligible_topics)
  | t :: topics =>
      if blacklisted (mdt_topic t) then rd_kafka_member_subscriptions_map topics members eligible_topics
      else
        let '(members, idx, complete_cnt) := match_members members (mdt_topic t) 0 in
        match idx with
        | [] => rd_kafka_member_subscriptions_map topics members eligible_topics
        | _ =>
            let eligible_topics := eligible_topics ++ [mk_at t idx] in
            if complete_cnt =? zlen members then (members, eligible_topics)
            else rd_kafka_member_subscriptions_map topics members eligible_topics
        end
  end.

(** Zero for different names: the result of [strcmp] is negated. *)
Definition rd_kafka_assignor_topic_cmp (a b : rd_kafka_assignor_topic) : outcome Z :=
  Ret (if strcmp (mdt_topic (at_metadata a)) (mdt_topic (at_metadata b)) =? 0 then 1 else 0).

(** ** Code: rdkafka_range_assignor.c *)

(** [members[i]] gets the partitions [start] to [stop] of the topic. *)
Definition member_add_range (members : list rd_kafka_group_member) (i : nat) (topic : list Z) (start stop : Z)
  : outcome (list rd_kafka_group_member) :=
  match members !! i with
  | None => Crash
  | Some m =>
      let! l := rd_kafka_topic_partition_list_add_range (rkgm_assignment m) topic start stop in
      Ret (<[i := set_assignment l m]> members)
  end.

(** The members of one topic, from position [i] on. *)
Fixpoint range_topic_loop (members : list rd_kafka_group_member) (topic : list Z) (per extra : Z) (idx : list nat) (i : Z)
  : outcome (list rd_kafka_group_member) :=
  match idx with
  | [] => Ret members
  | m :: idx =>
      let start := per * i + Z.min i extra in
      let length := per + (if i + 1 >? extra then 0 else 1) in
      if length =? 0 then range_topic_loop members topic per extra idx (i + 1)
      else
        let! members := member_add_range members m topic start (start + length - 1) in
        range_topic_loop members topic per extra idx (i + 1)
  end.

(** Pointers to members are sorted by the ids of the members they point to. *)
Definition sort_members (members : list rd_kafka_group_member) (idx : list nat) : list nat :=
  let ids := rkgm_member_id <$> members in
  qsort nat (fun a b => match ids !! a, ids !! b with
                        | Some x, Some y => rd_kafkap_str_cmp x y
                        | _, _ => Crash
                        end) idx.

Fixpoint rd_kafka_range_assignor_assign_cb (members : list rd_kafka_group_member)
    (eligible_topics : list rd_kafka_assignor_topic) : outcome (list rd_kafka_group_member) :=
  match eligible_topics with
  | [] => Ret members
  | et :: ets =>
      let idx := sort_members members (at_members et) in
      let n := mdt_partition_cnt (at_metadata et) in
      if zlen idx =? 0 then Crash
      else
        let! members := range_topic_loop members (mdt_topic (at_metadata et)) (n / zlen idx) (n mod zlen idx) idx 0 in
        rd_kafka_range_assignor_assign_cb members ets
  end.

(** ** Code: rdkafka_roundrobin_assignor.c *)

(** The scan for a subscriber: past the end of the array it reads whatever
    follows. *)
Fixpoint next_subscriber (fuel : nat) (members : list rd_kafka_group_member) (topic : list Z) (next : nat) : outcome nat :=
  match fuel with
  | O => Crash
  | S fuel =>
      match members !! next with
      | None => Crash
      | Some m => if rd_kafka_group_member_find_subscription m topic then Ret next
                  else next_subscriber fuel members topic (S next)
      end
  end.

(** The partitions of one topic from [partition] on, [n] of them. *)
Fixpoint roundrobin_topic_loop (n : nat) (members : list rd_kafka_group_member) (et : rd_kafka_assignor_topic)
    (partition : Z) (next : nat) : outcome (list rd_kafka_group_member * nat) :=
  match n with
  | O => Ret (members, next)
  | S n =>
      let topic := mdt_topic (at_metadata et) in
      let! next := next_subscriber (S (length members)) members topic next in
      let! members := member_add_range members next topic partition partition in
      if (length (at_members et) =? 0)%nat then Crash
      else roundrobin_topic_loop n members et (partition + 1) (S next mod length (at_members et))
  end.

Fixpoint roundrobin_topics_loop (members : list rd_kafka_group_member) (ets : list rd_kafka_assignor_topic) (next : nat)
  : outcome (list rd_kafka_group_member) :=
  match ets with
  | [] => Ret members
  | et :: ets =>
      let! (members, next) :=
        roundrobin_topic_loop (Z.to_nat (mdt_partition_cnt (at_metadata et))) members et 0 next in
      roundrobin_topics_loop members ets next
  end.

Definition rd_kafka_roundrobin_assignor_assign_cb (members : list rd_kafka_group_member)
    (eligible_topics : list rd_kafka_assignor_topic) : outcome (list rd_kafka_group_member) :=
  roundrobin_topics_loop (qsort _ rd_kafka_group_member_cmp members)
    (qsort _ rd_kafka_assignor_topic_cmp eligible_topics) 0.

(** ** Code: the assignors of a client *)

Inductive assign_cb : Type := RangeAssignor | RoundrobinAssignor.

Record rd_kafka_assignor : Type := mk_rkas { rkas_protocol_name : list Z; rkas_enabled : bool; rkas_assign_cb : assign_cb }.

Definition rd_kafka_assignor_find (assignors : list rd_kafka_assignor) (protocol : list Z) : option rd_kafka_assignor :=
  List.find (fun a => strcmp protocol (rkas_protocol_name a) =? 0) assignors.

(** The members with their assignments, or the error code. *)
Definition rd_kafka_assignor_run (assignors : list rd_kafka_assignor) (protocol_name : list Z)
    (topics : list rd_kafka_metadata_topic) (members : list rd_kafka_group_member)
  : outcome (Z + list rd_kafka_group_member) :=
  match rd_kafka_assignor_find assignors protocol_name with
  | Some (mk_rkas _ true cb) =>
      let '(members, eligible_topics) := rd_kafka_member_subscriptions_map topics members [] in
      let! members := (match cb with
                       | RangeAssignor => rd_kafka_range_assignor_assign_cb members eligible_topics
                       | RoundrobinAssignor => rd_kafka_roundrobin_assignor_assign_cb members eligible_topics
                       end) in
      Ret (inr members)
  | _ => Ret (inl RD_KAFKA_RESP_ERR__UNKNOWN_PROTOCOL)
  end.
End code.

(** ** Code: the configured assignors *)

Definition isspace (c : Z) : bool := (c =? 32) || ((9 <=? c) && (c <=? 13)).

(** The memory at [s] includes the NUL, where the scan starts. *)
Fixpoint rtrim_scan (fuel : nat) (mem : list Z) (e : Z) : Z :=
  match fuel with
  | O => e
  | S fuel => if (e >=? 0) && isspace (nth (Z.to_nat e) mem 0) then rtrim_scan fuel mem (e - 1) else e
  end.

Definition rtrim (s : list Z) : list Z :=
  match s with
  | [] => s
  | _ => let e := rtrim_scan (S (length s)) (s ++ [0]) (zlen s) in cstr (<[Z.to_nat e := 0]> (s ++ [0]))
  end.

Definition str_consumer : list Z := [99; 111; 110; 115; 117; 109; 101; 114].
Definition str_range : list Z := [114; 97; 110; 103; 101].
Definition str_roundrobin : list Z := [114; 111; 117; 110; 100; 114; 111; 98; 105; 110].

(** The assignors, the error code and the name of the assignor stored at
    [rkasp]. *)
Definition rd_kafka_assignor_add (group_protocol_type : list Z) (assignors : list rd_kafka_assignor)
    (protocol_type protocol_name : list Z) (cb : assign_cb) : list rd_kafka_assignor * Z * option (list Z) :=
  if negb (strcmp group_protocol_type protocol_type =? 0)
  then (assignors, RD_KAFKA_RESP_ERR__UNKNOWN_PROTOCOL, None)
  else match rd_kafka_assignor_find assignors protocol_name with
       | Some rkas => (assignors, RD_KAFKA_RESP_ERR__CONFLICT, Some (rkas_protocol_name rkas))
       | None => (assignors ++ [mk_rkas protocol_name false cb], RD_KAFKA_RESP_ERR_NO_ERROR, Some protocol_name)
       end.

Definition enable (name : list Z) (a : rd_kafka_assignor) : rd_kafka_assignor :=
  if strcmp name (rkas_protocol_name a) =? 0 then mk_rkas (rkas_protocol_name a) true (rkas_assign_cb a) else a.

(** [strchr(s, ',')]: the text before the comma and the text after it. *)
Fixpoint split_comma (s : list Z) : list Z * list Z :=
  match s with
  | [] => ([], [])
  | c :: s => if c =? 44 then ([], s) else let '(a, b) := split_comma s in (c :: a, b)
  end.

Fixpoint ltrim (s : list Z) : list Z :=
  match s with
  | c :: s' => if (c =? 32) || (c =? 44) then ltrim s' else s
  | [] => []
  end.

Fixpoint assignors_init_loop (fuel : nat) (group_protocol_type s : list Z) (assignors : list rd_kafka_assignor)
  : outcome (Z * list rd_kafka_assignor) :=
  match fuel with
  | O => Diverge
  | S fuel =>
      match s with
      | [] => Ret (0, assignors)
      | _ =>
          let '(name, t) := split_comma (ltrim s) in
          let name := rtrim name in
          let add cb n :=
            let '(assignors, _, rkas) := rd_kafka_assignor_add group_protocol_type assignors str_consumer n cb in
            let assignors := match rkas with Some a => enable a <$> assignors | None => assignors end in
            assignors_init_loop fuel group_protocol_type t assignors in
          if strcmp name str_range =? 0 then add RangeAssignor str_range
          else if strcmp name str_roundrobin =? 0 then add RoundrobinAssignor str_roundrobin
          else Ret (-1, assignors)
      end
  end.

Definition rd_kafka_assignors_init (group_protocol_type strategy : list Z) : outcome (Z * list rd_kafka_assignor) :=
  assignors_init_loop (S (length strategy)) group_protocol_type strategy [].

(** Every configuration string is processed: each pass consumes a character. *)
Lemma split_comma_len s : (length (split_comma s).2 <= length s)%nat.
Proof. induction s as [|c s IH]; simpl; [done|]. destruct (c =? 44); simpl; [lia|]. destruct (split_comma s); simpl in *; lia. Qed.

Lemma ltrim_len s : (length (ltrim s) <= length s)%nat.
Proof. induction s as [|c s IH]; simpl; [done|]. destruct (_ || _); simpl; lia. Qed.

Lemma assignors_init_total fuel gp s l :
  (length s < fuel)%nat -> exists r l', assignors_init_loop fuel gp s l = Ret (r, l') /\ (r = 0 \/ r = -1).
Proof.
  revert s l; induction fuel as [|fuel IH]; intros s l Hl; [lia|]. cbn [assignors_init_loop].
  destruct s as [|c s]; [eauto|].
  destruct (split_comma (ltrim (c :: s))) as [name t] eqn:E.
  destruct (decide (ltrim (c :: s) = [])) as [Hn|Hn].
  { rewrite Hn in E. injection E as <- <-. simpl. eauto. }
  assert (length t < fuel)%nat.
  { pose proof (split_comma_len (ltrim (c :: s))) as H1. pose proof (ltrim_len (c :: s)) as H2. rewrite E in H1.
    cbn [snd] in H1. revert E Hn H1 H2. generalize (ltrim (c :: s)). intros [|d u] E Hn H1 H2; [done|].
    simpl in E. destruct (Z.eqb_spec d 44) as [->|].
    - injection E as <- <-. simpl in *. lia.
    - pose proof (split_comma_len u). destruct (split_comma u) as [a b]. injection E as <- <-. simpl in *. lia. }
  destruct (_ =? 0); [|destruct (_ =? 0); [|eauto]];
    destruct (rd_kafka_assignor_add _ _ _ _ _) as [[? ?] ?]; by apply IH.
Qed.

(** The right trim never removes anything: the scan starts at the NUL, which is
    not a space. *)
Lemma rtrim_id s : Forall (fun c => c <> 0) s -> rtrim s = s.
Proof.
  intros Hs. unfold rtrim. assert (E : s = [] \/ s <> []) by (destruct s; eauto). destruct E as [->|E]; [done|].
  replace (match s with [] => s | _ => _ end) with (cstr (<[Z.to_nat (rtrim_scan (S (length s)) (s ++ [0]) (zlen s)) := 0]> (s ++ [0])))
    by (by destruct s). clear E.
  cbn [rtrim_scan]. rewrite app_nth2, Nat2Z.id, Nat.sub_diag by lia. cbn [nth]. change (isspace 0) with false.
  rewrite andb_false_r, Nat2Z.id, insert_app_r_alt, Nat.sub_diag by lia. simpl.
  induction Hs as [|x l Hx Hl IH]; [done|]. simpl. destruct (Z.eqb_spec x 0); [done|]. by rewrite IH.
Qed.
