(* ===== verification/AssignorSpec.v ===== *)
(** * Partition assignment: what the two assignors give to each member *)
From Stdlib Require Import ZArith Lia.
From stdpp Require Import base numbers list.
From S2P Require Import Prelude RdList Proto Msg PartList Assignor.

(** ** Members that get partitions *)

Definition member_ok (m : rd_kafka_group_member) : Prop :=
  tpl_cnt (rkgm_assignment m) <= tpl_size (rkgm_assignment m).

(** Member [k] gets the elements [f k], appended to its assignment; nothing
    else changes. *)
Definition gets (ms ms' : list rd_kafka_group_member) (f : nat -> list rd_kafka_topic_partition) : Prop :=
  length ms' = length ms /\ Forall member_ok ms' /\
  forall k m, ms !! k = Some m -> exists l, ms' !! k = Some (set_assignment l m) /\
    tpl_elems l = tpl_elems (rkgm_assignment m) ++ f k.

Lemma gets_nil ms : Forall member_ok ms -> gets ms ms (fun _ => []).
Proof.
  intros H. split; [done|]. split; [done|]. intros k m Hm. exists (rkgm_assignment m).
  rewrite app_nil_r. split; [|done]. by destruct m.
Qed.

Lemma gets_app ms ms1 ms2 f g : gets ms ms1 f -> gets ms1 ms2 g -> gets ms ms2 (fun k => f k ++ g k).
Proof.
  intros (L1 & _ & H1) (L2 & O2 & H2). split; [congruence|]. split; [done|]. intros k m Hm.
  destruct (H1 k m Hm) as (l1 & Hk1 & E1). destruct (H2 k _ Hk1) as (l2 & Hk2 & E2).
  exists l2. split; [exact Hk2|]. rewrite E2. simpl. by rewrite E1, app_assoc.
Qed.

Lemma gets_ext ms ms' f g : (forall k, f k = g k) -> gets ms ms' f -> gets ms ms' g.
Proof.
  intros E (L & O & H). split; [done|]. split; [done|]. intros k m Hm. destruct (H k m Hm) as (l & Hk & El).
  exists l. by rewrite <- E.
Qed.

Lemma gets_ids ms ms' f : gets ms ms' f -> rkgm_member_id <$> ms' = rkgm_member_id <$> ms.
Proof.
  intros (L & _ & H). apply list_eq. intros k. rewrite !list_lookup_fmap. destruct (ms !! k) as [m|] eqn:E.
  - by destruct (H k m E) as (l & -> & _).
  - apply lookup_ge_None in E. by rewrite (proj2 (lookup_ge_None ms' k)) by lia.
Qed.

Definition to_one (i : nat) (es : list rd_kafka_topic_partition) (k : nat) : list rd_kafka_topic_partition :=
  if decide (k = i) then es else [].

Lemma seqZ_clip a n : seqZ a (Z.of_nat (Z.to_nat n)) = seqZ a n.
Proof. destruct (Z.le_gt_cases 0 n); [by rewrite Z2Nat.id|]. by rewrite !seqZ_nil by lia. Qed.

Lemma member_add_range_spec ms i t start stop :
  Forall member_ok ms -> (i < length ms)%nat ->
  exists ms', member_add_range ms i t start stop = Ret ms' /\
    gets ms ms' (to_one i (new_elem t <$> seqZ start (stop - start + 1))).
Proof.
  intros Hok Hi. unfold member_add_range. destruct (lookup_lt_is_Some_2 ms i Hi) as [m Hm]. rewrite Hm.
  pose proof (Forall_lookup_1 _ _ _ _ Hok Hm) as Hmo. unfold rd_kafka_topic_partition_list_add_range.
  destruct (add_range_spec (Z.to_nat (stop - start + 1)) _ t start Hmo) as (l & -> & El & Hl). cbn [obind].
  eexists. split; [done|]. split; [apply length_insert|]. split; [by apply Forall_insert|].
  intros k mk Hk. unfold to_one. destruct (decide (k = i)) as [->|Hne].
  - rewrite list_lookup_insert_eq by done. rewrite Hm in Hk. injection Hk as <-. exists l. split; [done|].
    rewrite El. by rewrite seqZ_clip.
  - rewrite list_lookup_insert_ne by done. exists (rkgm_assignment mk). rewrite app_nil_r.
    split; [|done]. rewrite Hk. by destruct mk.
Qed.

(** ** Range *)

(** The partitions of the member at position [i], when the first [extra]
    members get one more than [per]. *)
Definition share (per extra i : Z) : list Z :=
  seqZ (per * i + Z.min i extra) (per + (if i + 1 >? extra then 0 else 1)).

Fixpoint shares (per extra : Z) (idx : list nat) (i : Z) (k : nat) : list Z :=
  match idx with
  | [] => []
  | m :: idx => (if decide (k = m) then share per extra i else []) ++ shares per extra idx (i + 1) k
  end.

Lemma range_topic_spec idx ms t per extra i :
  Forall member_ok ms -> Forall (fun k => (k < length ms)%nat) idx -> 0 <= per -> 0 <= i ->
  exists ms', range_topic_loop ms t per extra idx i = Ret ms' /\
    gets ms ms' (fun k => new_elem t <$> shares per extra idx i k).
Proof.
  intros Hok Hidx Hper. revert ms i Hok Hidx; induction idx as [|m idx IH]; intros ms i Hok Hidx Hi.
  { exists ms. split; [done|]. by apply gets_nil. }
  apply Forall_cons in Hidx as [Hm Hidx]. cbn [range_topic_loop shares].
  set (len := per + (if i + 1 >? extra then 0 else 1)). fold len.
  assert (Hs : share per extra i = seqZ (per * i + Z.min i extra) len) by done.
  destruct (Z.eqb_spec len 0) as [Hz|Hz].
  - destruct (IH ms (i + 1) Hok Hidx ltac:(lia)) as (ms' & -> & G). exists ms'. split; [done|].
    eapply gets_ext; [|exact G]. intros k. simpl. rewrite Hs, Hz, seqZ_nil by lia. by destruct (decide _).
  - destruct (member_add_range_spec ms m t (per * i + Z.min i extra) (per * i + Z.min i extra + len - 1) Hok Hm)
      as (ms1 & -> & G1). cbn [obind].
    assert (Hidx1 : Forall (fun k => (k < length ms1)%nat) idx) by (destruct G1 as (-> & _); done).
    destruct (IH ms1 (i + 1) ltac:(apply G1) Hidx1 ltac:(lia)) as (ms' & -> & G). exists ms'. split; [done|].
    eapply gets_ext; [|exact (gets_app _ _ _ _ _ G1 G)]. intros k. simpl. rewrite fmap_app. f_equal.
    unfold to_one. destruct (decide (k = m)); [|done]. rewrite Hs. do 2 f_equal. lia.
Qed.

Lemma shares_none per extra l i k : k ∉ l -> shares per extra l i k = [].
Proof.
  revert i; induction l as [|x l IH]; intros i Hx; [done|].
  apply not_elem_of_cons in Hx as [Hx1 Hx2]. simpl. rewrite decide_False by done. simpl. by apply IH.
Qed.

(** Consecutive shares follow each other. *)
Lemma shares_concat per extra idx i :
  NoDup idx -> 0 <= per -> 0 <= i -> 0 <= extra ->
  (idx ≫= fun k => shares per extra idx i k) =
    seqZ (per * i + Z.min i extra) (per * zlen idx + (Z.min (i + zlen idx) extra - Z.min i extra)).
Proof.
  intros Hn Hper. revert i; induction idx as [|m idx IH]; intros i Hi He.
  { simpl. by rewrite seqZ_nil by lia. }
  apply NoDup_cons in Hn as [Hm Hn]. rewrite bind_cons. cbn [shares]. rewrite decide_True by done.
  assert (Hrest : forall k, k ∈ idx -> (if decide (k = m) then share per extra i else []) ++ shares per extra idx (i + 1) k
                    = shares per extra idx (i + 1) k).
  { intros k Hk. rewrite decide_False by (intros ->; done). done. }
  rewrite shares_none, app_nil_r by done.
  assert ((idx ≫= fun k => (if decide (k = m) then share per extra i else []) ++ shares per extra idx (i + 1) k)
          = (idx ≫= fun k => shares per extra idx (i + 1) k)) as ->.
  { clear -Hrest. set (g := fun k => shares per extra idx (i + 1) k) in *. clearbody g.
    induction idx as [|x l IHl]; [done|]. rewrite !bind_cons, Hrest, IHl; [done| |by left].
    intros k Hk. apply Hrest. by right. }
  rewrite IH by (done || lia). unfold share. rewrite Z.gtb_ltb.
  set (len := per + (if extra <? i + 1 then 0 else 1)).
  assert (Hlen : 0 <= len /\ per * (i + 1) + Z.min (i + 1) extra = per * i + Z.min i extra + len).
  { unfold len. destruct (Z.ltb_spec extra (i + 1)); lia. }
  destruct Hlen as [Hl1 Hl2]. rewrite Hl2, <- seqZ_app by lia. f_equal. simpl length. lia.
Qed.

(** The share of member [k] of the [n] partitions of a topic with members
    [idx], in the order of the member ids. *)
Definition topic_share (n : Z) (idx : list nat) (k : nat) : list Z := shares (n / zlen idx) (n mod zlen idx) idx 0 k.

Lemma topic_share_all n idx :
  NoDup idx -> idx <> [] -> 0 <= n -> (idx ≫= fun k => topic_share n idx k) = seqZ 0 n.
Proof.
  intros Hn Hne H. assert (0 < zlen idx) by (destruct idx; [done|simpl; lia]).
  pose proof (Z.mod_pos_bound n (zlen idx) ltac:(lia)). pose proof (Z.div_pos n (zlen idx) ltac:(lia) ltac:(lia)).
  pose proof (Z.div_mod n (zlen idx) ltac:(lia)). unfold topic_share.
  rewrite shares_concat by (done || lia). f_equal; lia.
Qed.

Lemma shares_lookup per extra idx i j k :
  NoDup idx -> idx !! j = Some k -> shares per extra idx i k = share per extra (i + Z.of_nat j).
Proof.
  intros Hn. revert i j; induction idx as [|m idx IH]; intros i j Hj; [done|].
  apply NoDup_cons in Hn as [Hm Hn]. cbn [shares]. destruct j as [|j]; simpl in Hj.
  - injection Hj as ->. rewrite decide_True by done.
    rewrite shares_none, app_nil_r by done. f_equal. lia.
  - rewrite decide_False by (intros ->; apply Hm; by eapply list_elem_of_lookup_2).
    simpl. rewrite (IH Hn (i + 1) j Hj). f_equal. lia.
Qed.

(** The member at position [j] gets the quotient, and one more when [j] is
    below the remainder. *)
Lemma topic_share_size n idx j k :
  NoDup idx -> idx !! j = Some k -> 0 <= n ->
  zlen (topic_share n idx k) = n / zlen idx + (if Z.of_nat j <? n mod zlen idx then 1 else 0).
Proof.
  intros Hn Hj H. unfold topic_share. rewrite (shares_lookup _ _ _ _ j k) by done. rewrite Z.add_0_l.
  assert (0 < zlen idx) by (apply lookup_lt_Some in Hj; lia).
  pose proof (Z.div_pos n (zlen idx) ltac:(lia) ltac:(lia)).
  unfold share. rewrite Z.gtb_ltb, length_seqZ.
  destruct (Z.ltb_spec (n mod zlen idx) (Z.of_nat j + 1)), (Z.ltb_spec (Z.of_nat j) (n mod zlen idx)); lia.
Qed.

Section range.
Context (qsort : forall A : Type, (A -> A -> outcome Z) -> list A -> list A).
Context (qsort_perm : forall A cmp l, Permutation (qsort A cmp l) l).

Definition et_ok (cnt : nat) (et : rd_kafka_assignor_topic) : Prop :=
  at_members et <> [] /\ NoDup (at_members et) /\ Forall (fun k => (k < cnt)%nat) (at_members et) /\
  0 <= mdt_partition_cnt (at_metadata et).

(** What the range assignor gives member [k]. *)
Definition range_share (ms : list rd_kafka_group_member) (et : rd_kafka_assignor_topic) (k : nat)
  : list rd_kafka_topic_partition :=
  new_elem (mdt_topic (at_metadata et)) <$>
    topic_share (mdt_partition_cnt (at_metadata et)) (sort_members qsort ms (at_members et)) k.

Lemma range_assign_spec ets ms :
  Forall member_ok ms -> Forall (et_ok (length ms)) ets ->
  exists ms', rd_kafka_range_assignor_assign_cb qsort ms ets = Ret ms' /\
    gets ms ms' (fun k => ets ≫= fun et => range_share ms et k).
Proof.
  intros Hok Hets. revert ms Hok Hets; induction ets as [|et ets IH]; intros ms Hok Hets.
  { exists ms. split; [done|]. by apply gets_nil. }
  apply Forall_cons in Hets as [(Hne & Hnd & Hlt & Hn) Hets]. cbn [rd_kafka_range_assignor_assign_cb].
  set (idx := sort_members qsort ms (at_members et)).
  assert (Hp : Permutation idx (at_members et)) by apply qsort_perm.
  assert (Hl : 0 < zlen idx) by (rewrite (Permutation_length Hp); destruct (at_members et); [done|simpl; lia]).
  destruct (Z.eqb_spec (zlen idx) 0); [lia|].
  destruct (range_topic_spec idx ms (mdt_topic (at_metadata et)) (mdt_partition_cnt (at_metadata et) / zlen idx)
    (mdt_partition_cnt (at_metadata et) mod zlen idx) 0 Hok) as (ms1 & -> & G1);
    [by rewrite Hp|apply Z.div_pos; lia|lia|]. cbn [obind].
  assert (Hets1 : Forall (et_ok (length ms1)) ets) by (destruct G1 as (-> & _); done).
  destruct (IH ms1 ltac:(apply G1) Hets1) as (ms' & -> & G). exists ms'. split; [done|].
  eapply gets_ext; [|exact (gets_app _ _ _ _ _ G1 G)]. intros k. rewrite bind_cons. f_equal.
  apply list_bind_ext; [|done]. intros et'. unfold range_share, sort_members. by rewrite (gets_ids _ _ _ G1).
Qed.
End range.

(** C26. For every group of topics with subscribing members, the range assignor
    returns and appends to the assignment of each member exactly its share of
    each topic it is a member of, leaving everything else as it was.  For each
    topic the shares of its members, in the order of their ids, are consecutive
    ranges that together are all partitions from 0 to n-1, each exactly once;
    the member at position j gets n/k partitions, one more when j is below n mod
    k. *)
Theorem range_assigns_all (qsort : forall A : Type, (A -> A -> outcome Z) -> list A -> list A)
    (qsort_perm : forall A cmp l, Permutation (qsort A cmp l) l)
    (ms : list rd_kafka_group_member) (ets : list rd_kafka_assignor_topic)
    (Hok : Forall member_ok ms) (Hets : Forall (et_ok (length ms)) ets) :
  (exists ms', rd_kafka_range_assignor_assign_cb qsort ms ets = Ret ms' /\
     gets ms ms' (fun k => ets ≫= fun et => range_share qsort ms et k)) /\
  Forall (fun et =>
    let n := mdt_partition_cnt (at_metadata et) in let idx := sort_members qsort ms (at_members et) in
    Permutation idx (at_members et) /\ (idx ≫= topic_share n idx) = seqZ 0 n /\
    forall j k, idx !! j = Some k ->
      zlen (topic_share n idx k) = n / zlen idx + (if Z.of_nat j <? n mod zlen idx then 1 else 0)) ets.
Proof.
  split; [by apply range_assign_spec|]. eapply Forall_impl; [exact Hets|].
  intros et (Hne & Hnd & _ & Hn). cbv zeta. set (idx := sort_members qsort ms (at_members et)).
  assert (Hp : Permutation idx (at_members et)) by apply qsort_perm.
  assert (Hnd' : NoDup idx) by (by rewrite Hp). split; [done|]. split.
  - apply topic_share_all; [done| |done]. intros E. rewrite E in Hp. by apply Permutation_nil_l in Hp.
  - intros j k Hj. by apply topic_share_size.
Qed.

Definition example_member (id : Z) (subscription : list (list Z)) : rd_kafka_group_member :=
  mk_rkgm (mk_tpl ((fun t => new_elem t (-1)) <$> subscription) (zlen subscription)) (mk_tpl [] 0) []
    (mk_kstr 1 (Some [id]) []).
Definition example_topic (name n : Z) (idx : list nat) : rd_kafka_assignor_topic := mk_at (mk_mdt [name] n) idx.
Definition no_sort (A : Type) (cmp : A -> A -> outcome Z) (l : list A) : list A := l.

Lemma range_assigns_all_witness :
  exists ms', rd_kafka_range_assignor_assign_cb no_sort [example_member 65 [[116]]; example_member 66 [[116]]]
      [example_topic 116 3 [0; 1]%nat] = Ret ms' /\
    (tp_partition <$> tpl_elems (rkgm_assignment (default (example_member 0 []) (ms' !! 0%nat)))) = [0; 1].
Proof.
  destruct (range_assigns_all no_sort ltac:(done) [example_member 65 [[116]]; example_member 66 [[116]]]
    [example_topic 116 3 [0; 1]%nat]) as [(ms' & H & G) _].
  - repeat constructor; unfold member_ok, tpl_cnt; simpl; lia.
  - apply Forall_singleton. split; [done|]. split; [by apply (bool_decide_unpack _)|].
    split; [repeat constructor; simpl; lia|simpl; lia].
  - exists ms'. split; [exact H|]. assert (H' := H). vm_compute in H'. injection H' as <-. vm_compute. reflexivity.
Defined.

(** ** Round-robin *)

(** What player [k] of [m] gets when [l] is dealt one by one, starting with
    player [s]. *)
Fixpoint deal {A} (m s k : nat) (l : list A) : list A :=
  match l with
  | [] => []
  | x :: l => (if decide (k = s) then [x] else []) ++ deal m (S s mod m) k l
  end.

Lemma deal_app {A} m s k (l1 l2 : list A) :
  (s < m)%nat -> deal m s k (l1 ++ l2) = deal m s k l1 ++ deal m ((s + length l1) mod m) k l2.
Proof.
  revert s; induction l1 as [|x l1 IH]; intros s Hs; simpl.
  { by rewrite Nat.add_0_r, Nat.mod_small. }
  rewrite IH by (apply Nat.mod_upper_bound; lia). rewrite <- app_assoc. do 3 f_equal.
  rewrite Nat.Div0.add_mod_idemp_l. f_equal. lia.
Qed.

(** Every element is dealt exactly once. *)
Lemma deal_all {A} m s (l : list A) :
  (s < m)%nat -> Permutation (seq 0 m ≫= fun k => deal m s k l) l.
Proof.
  revert s; induction l as [|x l IH]; intros s Hs; simpl.
  { by induction (seq 0 m). }
  assert (Hsplit : forall (ks : list nat) (f g : nat -> list A),
    Permutation (ks ≫= fun k => f k ++ g k) ((ks ≫= f) ++ (ks ≫= g))).
  { intros ks f g. induction ks as [|k ks IHk]; [done|]. rewrite !bind_cons, IHk, <- !app_assoc.
    apply Permutation_app_head. rewrite !app_assoc. apply Permutation_app_tail, Permutation_app_comm. }
  rewrite Hsplit, IH by (apply Nat.mod_upper_bound; lia).
  assert ((seq 0 m ≫= fun k => if decide (k = s) then [x] else []) = [x]) as ->; [|done].
  assert (Hone : forall (ks : list nat), NoDup ks -> (s ∈ ks -> (ks ≫= fun k => if decide (k = s) then [x] else []) = [x]) /\
    (s ∉ ks -> (ks ≫= fun k => if decide (k = s) then [x] else []) = [])).
  { clear. induction ks as [|k ks IHk]; intros Hn; [split; [intros Hx; by apply not_elem_of_nil in Hx|done]|].
    apply NoDup_cons in Hn as [Hk Hn]. destruct (IHk Hn) as [I1 I2]. rewrite bind_cons. split; intros Hs.
    - destruct (decide (k = s)) as [->|Hne]; [by rewrite I2|]. apply elem_of_cons in Hs as [->|Hs]; [done|].
      rewrite I1 by done. done.
    - apply not_elem_of_cons in Hs as [Hs1 Hs2]. rewrite decide_False by done. by apply I2. }
  apply Hone; [apply NoDup_seq|]. apply elem_of_seq. lia.
Qed.

(** The number of elements a player gets. *)
Lemma deal_count {A} m s k (l : list A) :
  (s < m)%nat -> (k < m)%nat ->
  zlen (deal m s k l) = (zlen l + (Z.of_nat m - 1) - (Z.of_nat k - Z.of_nat s) mod Z.of_nat m) / Z.of_nat m.
Proof.
  intros Hs Hk. revert s Hs; induction l as [|x l IH]; intros s Hs.
  { pose proof (Z.mod_pos_bound (Z.of_nat k - Z.of_nat s) (Z.of_nat m) ltac:(lia)).
    symmetry. apply Z.div_small. simpl. lia. }
  cbn [deal]. rewrite length_app, Nat2Z.inj_add, IH by (apply Nat.mod_upper_bound; lia).
  rewrite Nat2Z.inj_mod, Nat2Z.inj_succ. simpl length. rewrite Nat2Z.inj_succ.
  set (M := Z.of_nat m) in *. set (K := Z.of_nat k) in *. set (Q := Z.of_nat s) in *. set (L := zlen l) in *.
  assert (Hm : 0 < M) by lia.
  rewrite Zminus_mod_idemp_r. destruct (decide (k = s)) as [->|Hne].
  - simpl length. assert (K = Q) as -> by done. rewrite Z.sub_diag, Z.mod_0_l by lia.
    replace (Q - Z.succ Q) with (-1) by lia.
    assert ((-1) mod M = M - 1) as ->.
    { rewrite <- (Z_mod_plus_full (-1) 1), Z.mod_small; lia. }
    replace (L + (M - 1) - (M - 1)) with L by lia. replace (Z.succ L + (M - 1) - 0) with (L + 1 * M) by lia.
    rewrite Z.div_add by lia. lia.
  - simpl length. rewrite Z.add_0_l. set (d := (K - Q) mod M).
    assert (Hd : 0 < d < M).
    { assert (0 <= d < M) by (apply Z.mod_pos_bound; lia). enough (d <> 0) by lia. intros E.
      apply Z.mod_divide in E as [q Hq]; [|lia]. assert (- M < q * M < M) by lia.
      assert (q = 0) as -> by nia. lia. }
    replace (K - Z.succ Q) with (K - Q - 1) by lia.
    assert ((K - Q - 1) mod M = d - 1) as ->.
    { rewrite <- Zminus_mod_idemp_l. fold d. apply Z.mod_small. lia. }
    f_equal. lia.
Qed.

Section roundrobin.
Context (rd_regex_match : list Z -> list Z -> option bool).

Abbreviation subscribes := (rd_kafka_group_member_find_subscription rd_regex_match).

(** Every member subscribes to the topic. *)
Definition all_subscribe (ms : list rd_kafka_group_member) (et : rd_kafka_assignor_topic) : Prop :=
  length (at_members et) = length ms /\ 0 <= mdt_partition_cnt (at_metadata et) /\
  Forall (fun m => subscribes m (mdt_topic (at_metadata et)) = true) ms.

Lemma gets_subscribe ms ms' f et : gets ms ms' f -> all_subscribe ms et -> all_subscribe ms' et.
Proof.
  intros (L & _ & H) (H1 & H2 & H3). split; [by rewrite L|]. split; [done|]. apply Forall_lookup. intros k m' Hk.
  assert (k < length ms)%nat as Hlt by (apply lookup_lt_Some in Hk; lia).
  destruct (lookup_lt_is_Some_2 ms k Hlt) as [m Hm]. destruct (H k m Hm) as (l & Hl & _). rewrite Hk in Hl.
  injection Hl as ->. exact (Forall_lookup_1 _ _ _ _ H3 Hm).
Qed.

Lemma next_here ms et next :
  all_subscribe ms et -> (next < length ms)%nat ->
  next_subscriber rd_regex_match (S (length ms)) ms (mdt_topic (at_metadata et)) next = Ret next.
Proof.
  intros (_ & _ & H) Hlt. cbn [next_subscriber]. destruct (lookup_lt_is_Some_2 ms next Hlt) as [m Hm]. rewrite Hm.
  by rewrite (Forall_lookup_1 _ _ _ _ H Hm).
Qed.

Lemma roundrobin_topic_spec n ms et p next :
  Forall member_ok ms -> all_subscribe ms et -> (next < length ms)%nat ->
  exists ms', roundrobin_topic_loop rd_regex_match n ms et p next = Ret (ms', (next + n) mod length ms)%nat /\
    gets ms ms' (fun k => deal (length ms) next k (new_elem (mdt_topic (at_metadata et)) <$> seqZ p (Z.of_nat n))).
Proof.
  revert ms p next; induction n as [|n IH]; intros ms p next Hok Hs Hn.
  { exists ms. simpl. rewrite Nat.add_0_r, Nat.mod_small by done. split; [done|]. by apply gets_nil. }
  cbn [roundrobin_topic_loop]. rewrite (next_here ms et next Hs Hn). cbn [obind].
  destruct (member_add_range_spec ms next (mdt_topic (at_metadata et)) p p Hok Hn) as (ms1 & -> & G1). cbn [obind].
  pose proof Hs as (Hl & _ & _). rewrite Hl. destruct (Nat.eqb_spec (length ms) 0); [lia|].
  pose proof G1 as (L1 & O1 & _). rewrite <- L1.
  destruct (IH ms1 (p + 1) (S next mod length ms1)%nat O1 (gets_subscribe _ _ _ _ G1 Hs)) as (ms' & -> & G).
  { apply Nat.mod_upper_bound. lia. }
  exists ms'. rewrite L1 in *. split.
  - do 2 f_equal. rewrite Nat.Div0.add_mod_idemp_l. f_equal. lia.
  - eapply gets_ext; [|exact (gets_app _ _ _ _ _ G1 G)]. intros k. simpl.
    rewrite (seqZ_cons p (Z.of_nat (S n))) by lia. cbn [fmap list_fmap deal]. unfold to_one.
    replace (p - p + 1) with 1 by lia. replace (Z.pred (Z.of_nat (S n))) with (Z.of_nat n) by lia.
    replace (Z.succ p) with (p + 1) by lia. by destruct (decide (k = next)).
Qed.

(** All partitions of the topics, in order. *)
Definition all_partitions (ets : list rd_kafka_assignor_topic) : list rd_kafka_topic_partition :=
  ets ≫= fun et => new_elem (mdt_topic (at_metadata et)) <$> seqZ 0 (mdt_partition_cnt (at_metadata et)).

Lemma roundrobin_topics_spec ets ms next :
  Forall member_ok ms -> Forall (all_subscribe ms) ets -> (next < length ms)%nat ->
  exists ms', roundrobin_topics_loop rd_regex_match ms ets next = Ret ms' /\
    gets ms ms' (fun k => deal (length ms) next k (all_partitions ets)).
Proof.
  revert ms next; induction ets as [|et ets IH]; intros ms next Hok Hs Hn.
  { exists ms. split; [done|]. by apply gets_nil. }
  apply Forall_cons in Hs as [Het Hs]. cbn [roundrobin_topics_loop].
  destruct (roundrobin_topic_spec (Z.to_nat (mdt_partition_cnt (at_metadata et))) ms et 0 next Hok Het Hn)
    as (ms1 & -> & G1). cbn [obind]. pose proof G1 as (L1 & O1 & _).
  assert (Hs1 : Forall (all_subscribe ms1) ets) by (eapply Forall_impl; [exact Hs|]; intros e; by eapply gets_subscribe).
  destruct (IH ms1 ((next + Z.to_nat (mdt_partition_cnt (at_metadata et))) mod length ms)%nat O1 Hs1) as (ms' & -> & G).
  { rewrite L1. apply Nat.mod_upper_bound. lia. }
  exists ms'. split; [done|]. eapply gets_ext; [|exact (gets_app _ _ _ _ _ G1 G)]. intros k. cbv beta.
  unfold all_partitions. rewrite bind_cons, deal_app, L1, seqZ_clip by done. do 2 f_equal.
  rewrite length_fmap, length_seqZ. done.
Qed.
End roundrobin.

(** When every member subscribes to every topic, the round-robin assignor
    returns and deals the partitions of all topics, in order, to the members in
    turn: every partition is assigned to exactly one member, and member [k] of
    [m] gets [(total + m - 1 - k) / m] of them, so the numbers differ by at most
    one. *)
Theorem roundrobin_deals (rd_regex_match : list Z -> list Z -> option bool)
    (qsort : forall A : Type, (A -> A -> outcome Z) -> list A -> list A)
    (qsort_perm : forall A cmp l, Permutation (qsort A cmp l) l)
    (ms : list rd_kafka_group_member) (ets : list rd_kafka_assignor_topic)
    (Hne : ms <> []) (Hok : Forall member_ok ms) (Hets : Forall (all_subscribe rd_regex_match ms) ets) :
  let sorted := qsort _ rd_kafka_group_member_cmp ms in
  let all := all_partitions (qsort _ rd_kafka_assignor_topic_cmp ets) in
  let m := length ms in
  (exists ms', rd_kafka_roundrobin_assignor_assign_cb rd_regex_match qsort ms ets = Ret ms' /\
     gets sorted ms' (fun k => deal m 0 k all)) /\
  Permutation (seq 0 m ≫= fun k => deal m 0 k all) all /\
  forall k, (k < m)%nat -> zlen (deal m 0 k all) = (zlen all + Z.of_nat m - 1 - Z.of_nat k) / Z.of_nat m.
Proof.
  intros sorted all m. assert (Hp : Permutation sorted ms) by apply qsort_perm.
  assert (Hm : (0 < m)%nat) by (unfold m; destruct ms; [done|simpl; lia]).
  pose proof (Permutation_length Hp) as Hl. split; [|split].
  - unfold rd_kafka_roundrobin_assignor_assign_cb. fold sorted.
    destruct (roundrobin_topics_spec rd_regex_match (qsort _ rd_kafka_assignor_topic_cmp ets) sorted 0) as (ms' & E & G).
    + by rewrite Hp.
    + rewrite (qsort_perm _ _ ets). eapply Forall_impl; [exact Hets|]. intros et (H1 & H2 & H3).
      split; [by rewrite Hl|]. split; [done|]. by rewrite Hp.
    + rewrite Hl. exact Hm.
    + exists ms'. rewrite Hl in G. split; [exact E|exact G].
  - by apply deal_all.
  - intros k Hk. rewrite deal_count by done. rewrite Z.sub_0_r, (Z.mod_small (Z.of_nat k)) by lia. f_equal. lia.
Qed.

Definition no_regex (pattern topic : list Z) : option bool := None.

Lemma roundrobin_deals_witness :
  exists ms', rd_kafka_roundrobin_assignor_assign_cb no_regex no_sort
      [example_member 65 [[116]]; example_member 66 [[116]]] [example_topic 116 3 [0; 1]%nat] = Ret ms' /\
    (tp_partition <$> tpl_elems (rkgm_assignment (default (example_member 0 []) (ms' !! 0%nat)))) = [0; 2].
Proof.
  destruct (roundrobin_deals no_regex no_sort ltac:(done) [example_member 65 [[116]]; example_member 66 [[116]]]
    [example_topic 116 3 [0; 1]%nat]) as [(ms' & H & G) _].
  - done.
  - repeat constructor; unfold member_ok, tpl_cnt; simpl; lia.
  - apply Forall_singleton. split; [done|]. split; [simpl; lia|]. repeat constructor.
  - exists ms'. split; [exact H|]. assert (H' := H). vm_compute in H'. injection H' as <-. vm_compute. reflexivity.
Defined.

(** ** Where the assignors go wrong *)


(** The second member is chosen again and again. *)
Lemma roundrobin_stuck n ms et p :
  Forall member_ok ms -> length ms = 3%nat -> length (at_members et) = 2%nat ->
  (exists m0 m1, ms !! 0%nat = Some m0 /\ ms !! 1%nat = Some m1 /\
     rd_kafka_group_member_find_subscription no_regex m0 (mdt_topic (at_metadata et)) = false /\
     rd_kafka_group_member_find_subscription no_regex m1 (mdt_topic (at_metadata et)) = true) ->
  exists ms', roundrobin_topic_loop no_regex n ms et p 0 = Ret (ms', 0%nat) /\
    gets ms ms' (to_one 1 (new_elem (mdt_topic (at_metadata et)) <$> seqZ p (Z.of_nat n))).
Proof.
  revert ms p; induction n as [|n IH]; intros ms p Hok Hl Ha (m0 & m1 & H0 & H1 & S0 & S1).
  { exists ms. split; [done|]. eapply gets_ext; [|by apply gets_nil]. intros k. unfold to_one. by destruct (decide _). }
  cbn [roundrobin_topic_loop]. rewrite Hl. cbn [next_subscriber]. rewrite H0, S0, H1, S1. cbn [obind].
  destruct (member_add_range_spec ms 1 (mdt_topic (at_metadata et)) p p Hok ltac:(lia)) as (ms1 & -> & G1). cbn [obind].
  rewrite Ha. change (2 =? 0)%nat with false. change (2 mod 2)%nat with 0%nat. cbv iota.
  pose proof G1 as (L1 & O1 & K1).
  destruct (IH ms1 (p + 1) O1 ltac:(lia) Ha) as (ms' & -> & G).
  { destruct (K1 _ _ H0) as (l0 & E0 & _), (K1 _ _ H1) as (l1 & E1 & _). by eexists _, _. }
  exists ms'. split; [done|]. eapply gets_ext; [|exact (gets_app _ _ _ _ _ G1 G)]. intros k. unfold to_one.
  rewrite (seqZ_cons p (Z.of_nat (S n))) by lia. replace (p - p + 1) with 1 by lia.
  replace (Z.pred (Z.of_nat (S n))) with (Z.of_nat n) by lia. replace (Z.succ p) with (p + 1) by lia.
  by destruct (decide (k = 1%nat)).
Qed.

(** A pattern that matches the topics starting with 'a' (97). *)
Definition a_regex (pattern topic : list Z) : option bool :=
  Some (match topic with c :: _ => c =? 97 | [] => false end).

(** Three defects of the assignment code.  When the members do not
    subscribe to the same topics, the round-robin scan can run past the end of
    the member array: with two topics, the first subscribed by three members
    and the second by the first of them only, the assignor crashes.  When the
    first of three members does not subscribe to a topic, the second gets all
    [n] partitions and the third none.  And a member that subscribes to a
    pattern and to a topic loses the topics that match the pattern but come
    after that topic in the metadata: mapping the topics "a1", "b", "a2" to a
    member subscribed to "^a" and "b" stops after "b". *)
Theorem assignor_defects (n : nat) :
  (let ms := [example_member 65 [[116]; [117]]; example_member 66 [[116]]; example_member 67 [[116]]] in
   rd_kafka_roundrobin_assignor_assign_cb no_regex no_sort ms
     [example_topic 116 1 [0; 1; 2]%nat; example_topic 117 1 [0]%nat] = Crash) /\
  (let ms := [example_member 65 []; example_member 66 [[116]]; example_member 67 [[116]]] in
   exists ms', rd_kafka_roundrobin_assignor_assign_cb no_regex no_sort ms
       [example_topic 116 (Z.of_nat n) [1; 2]%nat] = Ret ms' /\
     gets ms ms' (to_one 1 (new_elem [116] <$> seqZ 0 (Z.of_nat n)))) /\
  (rd_kafka_member_subscriptions_map a_regex (fun _ => false)
     [mk_mdt [97; 49] 1; mk_mdt [98] 1; mk_mdt [97; 50] 1] [example_member 65 [[94; 97]; [98]]] []).2 =
    [mk_at (mk_mdt [97; 49] 1) [0%nat]; mk_at (mk_mdt [98] 1) [0%nat]].
Proof.
  split; [vm_compute; reflexivity|]. split; [|vm_compute; reflexivity]. intros ms.
  unfold rd_kafka_roundrobin_assignor_assign_cb, no_sort. cbn [roundrobin_topics_loop].
  destruct (roundrobin_stuck n ms (example_topic 116 (Z.of_nat n) [1; 2]%nat) 0) as (ms' & E & G).
  - repeat constructor; unfold member_ok, tpl_cnt; simpl; lia.
  - done.
  - done.
  - by eexists _, _.
  - exists ms'. split; [|exact G].
    change (mdt_partition_cnt (at_metadata (example_topic 116 (Z.of_nat n) [1; 2]%nat))) with (Z.of_nat n).
    by rewrite Nat2Z.id, E.
Qed.
