(* ===== verification/Avl.v ===== *)
(** * The AVL tree ([rdavl.c], [rdavl.h])

    Nodes live inside the elements they carry; a node is in one tree at one
    place, so a tree of nodes is an inductive tree.  [ran_height] is stored as
    the code stores it: a node that was just inserted keeps height 0, the
    height of an empty tree.  [rd_avl_rotate] and [rd_avl_balance_node] call
    each other; the recursion carries fuel, and [AvlSpec] shows that
    [avl_fuel] is enough.  Locks are not modelled: the callers modelled here
    hold the lock of the client instance and create the tree without
    [RD_AVL_F_LOCKS]. *)
From stdpp Require Import base list.
From S2P Require Import Prelude.

#[local] Open Scope Z_scope.

Inductive rd_avl_dir : Type := RD_AVL_LEFT | RD_AVL_RIGHT.

(** A pointer to a node, or NULL. *)
Inductive rd_avl_node (A : Type) : Type :=
| ran_null
| ran_node (left right : rd_avl_node A) (height : Z) (elm : A).
Arguments ran_null {A}.
Arguments ran_node {A} left right height elm.

Section Avl.
Context {A : Type}.
Implicit Types (ran n : rd_avl_node A) (dir : rd_avl_dir).

Definition RD_AVL_NODE_HEIGHT ran : Z :=
  match ran with ran_null => 0 | ran_node _ _ h _ => h end.

Definition RD_AVL_NODE_DELTA ran : outcome Z :=
  match ran with
  | ran_null => Crash
  | ran_node l r _ _ => Ret (RD_AVL_NODE_HEIGHT l - RD_AVL_NODE_HEIGHT r)
  end.

Definition RD_DELTA_MAX : Z := 1.

(** [ran->ran_p[dir]], and the assignment to it. *)
Definition ran_p ran dir : outcome (rd_avl_node A) :=
  match ran with
  | ran_null => Crash
  | ran_node l r _ _ => Ret (match dir with RD_AVL_LEFT => l | RD_AVL_RIGHT => r end)
  end.

Definition set_ran_p ran dir (c : rd_avl_node A) : outcome (rd_avl_node A) :=
  match ran with
  | ran_null => Crash
  | ran_node l r h e => Ret (match dir with RD_AVL_LEFT => ran_node c r h e | RD_AVL_RIGHT => ran_node l c h e end)
  end.

Definition set_ran_height ran (h : Z) : outcome (rd_avl_node A) :=
  match ran with ran_null => Crash | ran_node l r _ e => Ret (ran_node l r h e) end.

Definition odirmap dir : rd_avl_dir :=
  match dir with RD_AVL_RIGHT => RD_AVL_LEFT | RD_AVL_LEFT => RD_AVL_RIGHT end.

Definition rotate_with (balance : rd_avl_node A -> outcome (rd_avl_node A)) ran dir : outcome (rd_avl_node A) :=
  let odir := odirmap dir in
  let! n := ran_p ran odir in
  let! n_dir := ran_p n dir in
  let! ran := set_ran_p ran odir n_dir in
  let! ran := balance ran in
  let! n := set_ran_p n dir ran in
  balance n.

Fixpoint rd_avl_balance_node (fuel : nat) ran : outcome (rd_avl_node A) :=
  match fuel with
  | O => Diverge
  | S fuel =>
      let rotate := rotate_with (rd_avl_balance_node fuel) in
      let! d := RD_AVL_NODE_DELTA ran in
      let! l := ran_p ran RD_AVL_LEFT in
      let! r := ran_p ran RD_AVL_RIGHT in
      if d <? - RD_DELTA_MAX then
        let! dr := RD_AVL_NODE_DELTA r in
        let! ran := if dr >? 0 then let! r := rotate r RD_AVL_RIGHT in set_ran_p ran RD_AVL_RIGHT r
                    else Ret ran in
        rotate ran RD_AVL_LEFT
      else if d >? RD_DELTA_MAX then
        let! dl := RD_AVL_NODE_DELTA l in
        let! ran := if dl <? 0 then let! l := rotate l RD_AVL_LEFT in set_ran_p ran RD_AVL_LEFT l
                    else Ret ran in
        rotate ran RD_AVL_RIGHT
      else
        let height := 0 in
        let height := if RD_AVL_NODE_HEIGHT l >? height then RD_AVL_NODE_HEIGHT l else height in
        let height := if RD_AVL_NODE_HEIGHT r >? height then RD_AVL_NODE_HEIGHT r else height in
        set_ran_height ran (height + 1)
  end.

Definition rd_avl_rotate (fuel : nat) ran dir : outcome (rd_avl_node A) :=
  rotate_with (rd_avl_balance_node fuel) ran dir.

Definition avl_fuel ran : nat :=
  match ran with
  | ran_null => 0%nat
  | ran_node l r _ _ => (Z.to_nat (Z.max (RD_AVL_NODE_HEIGHT l) (RD_AVL_NODE_HEIGHT r)) + 2)%nat
  end.

Definition avl_balance ran : outcome (rd_avl_node A) := rd_avl_balance_node (avl_fuel ran) ran.

(** The comparator of the tree. *)
Context (ravl_cmp : A -> A -> Z).

(** [elm] is the element of the zeroed node to insert; the second result is
    the element of [*existing]. *)
Fixpoint rd_avl_insert_node (parent : rd_avl_node A) (elm : A) : outcome (rd_avl_node A * option A) :=
  match parent with
  | ran_null => Ret (ran_node ran_null ran_null 0 elm, None)
  | ran_node l r h pelm =>
      let c := ravl_cmp elm pelm in
      if c =? 0 then Ret (ran_node l r h elm, Some pelm)
      else if c <? 0 then
        let! (l, existing) := rd_avl_insert_node l elm in
        let! n := avl_balance (ran_node l r h pelm) in Ret (n, existing)
      else
        let! (r, existing) := rd_avl_insert_node r elm in
        let! n := avl_balance (ran_node l r h pelm) in Ret (n, existing)
  end.

Fixpoint rd_avl_move (dst src : rd_avl_node A) dir : outcome (rd_avl_node A) :=
  match dst with
  | ran_null => Ret src
  | ran_node l r h e =>
      match dir with
      | RD_AVL_LEFT => let! l := rd_avl_move l src dir in avl_balance (ran_node l r h e)
      | RD_AVL_RIGHT => let! r := rd_avl_move r src dir in avl_balance (ran_node l r h e)
      end
  end.

Definition rd_avl_remove_node0 ran : outcome (rd_avl_node A) :=
  let! l := ran_p ran RD_AVL_LEFT in
  let! r := ran_p ran RD_AVL_RIGHT in
  rd_avl_move l r RD_AVL_RIGHT.

Fixpoint rd_avl_remove_elm0 (parent : rd_avl_node A) (elm : A) : outcome (rd_avl_node A) :=
  match parent with
  | ran_null => Ret ran_null
  | ran_node l r h pelm =>
      let c := ravl_cmp elm pelm in
      if c =? 0 then rd_avl_remove_node0 parent
      else if c <? 0 then
        let! l := rd_avl_remove_elm0 l elm in avl_balance (ran_node l r h pelm)
      else
        let! r := rd_avl_remove_elm0 r elm in avl_balance (ran_node l r h pelm)
  end.

Fixpoint rd_avl_find_node (begin : rd_avl_node A) (elm : A) : option A :=
  match begin with
  | ran_null => None
  | ran_node l r _ pelm =>
      let c := ravl_cmp elm pelm in
      if c =? 0 then Some pelm
      else if c <? 0 then rd_avl_find_node l elm
      else rd_avl_find_node r elm
  end.

(** The tree itself; its comparator is the parameter of this section. *)
Record rd_avl : Type := mk_ravl { ravl_root : rd_avl_node A; ravl_flags : Z }.

Definition rd_avl_init (flags : Z) : rd_avl := mk_ravl ran_null flags.

Definition rd_avl_insert (ravl : rd_avl) (elm : A) : outcome (rd_avl * option A) :=
  let! (root, existing) := rd_avl_insert_node (ravl_root ravl) elm in
  Ret (mk_ravl root (ravl_flags ravl), existing).

Definition rd_avl_remove_elm (ravl : rd_avl) (elm : A) : outcome rd_avl :=
  let! root := rd_avl_remove_elm0 (ravl_root ravl) elm in
  Ret (mk_ravl root (ravl_flags ravl)).

Definition rd_avl_find (ravl : rd_avl) (elm : A) : option A := rd_avl_find_node (ravl_root ravl) elm.

End Avl.
Arguments rd_avl A : clear implicits.

(** What a client of the tree must know about its comparator: it orders the
    elements by a key. *)
Class AvlOrder {A K : Type} (key : A -> K) (cmp : A -> A -> Z) : Prop := {
  avl_cmp_eq : forall a b, cmp a b = 0 <-> key a = key b;
  avl_cmp_flip : forall a b, cmp a b < 0 -> cmp b a > 0;
  avl_cmp_unflip : forall a b, cmp a b > 0 -> cmp b a < 0;
  avl_cmp_trans : forall a b c, cmp a b < 0 -> cmp b c < 0 -> cmp a c < 0 }.
