(* ===== verification/AvlSpec.v ===== *)
(** * The AVL tree is a map, and stays balanced

    [avl_inv] is the shape the code keeps, in terms of the stored heights.
    [balance_spec] is the heart: [rd_avl_balance_node] returns, whatever the
    heights of the two subtrees, and its result has the shape again. *)
From stdpp Require Import base list gmap sorting.
From S2P Require Import Prelude.
From S2P Require Import Avl.

#[local] Open Scope Z_scope.

(** Both sides of an equation of concatenations, reassociated to the right. *)
Ltac solve_app := cbn [app]; repeat (rewrite <- app_assoc; cbn [app]); reflexivity.

Section Shape.
Context {A : Type}.
Implicit Types (t l r : rd_avl_node A).

Abbreviation ht := RD_AVL_NODE_HEIGHT.

Fixpoint avl_inv t : Prop :=
  match t with
  | ran_null => True
  | ran_node l r h _ =>
      -1 <= ht l - ht r <= 1 /\ (h = Z.max (ht l) (ht r) + 1 \/ h = 0 /\ l = ran_null /\ r = ran_null) /\
      avl_inv l /\ avl_inv r
  end.

Fixpoint avl_elems t : list A :=
  match t with
  | ran_null => []
  | ran_node l r _ e => avl_elems l ++ e :: avl_elems r
  end.

Fixpoint mirror t : rd_avl_node A :=
  match t with
  | ran_null => ran_null
  | ran_node l r h e => ran_node (mirror r) (mirror l) h e
  end.

Definition omirror (o : outcome (rd_avl_node A)) : outcome (rd_avl_node A) :=
  let! t := o in Ret (mirror t).

Lemma height_nonneg t : avl_inv t -> 0 <= ht t.
Proof. induction t as [|l IHl r IHr h e]; cbn; [lia|]. intros (_ & [-> | [-> _]] & Hl & Hr); [|lia]. specialize (IHl Hl). lia. Qed.

(** A subtree of positive height is a node with the height of its children. *)
Lemma tall_node t : avl_inv t -> 1 <= ht t ->
  exists l r e, t = ran_node l r (ht t) e /\ ht t = Z.max (ht l) (ht r) + 1 /\
    -1 <= ht l - ht r <= 1 /\ avl_inv l /\ avl_inv r.
Proof.
  destruct t as [|l r h e]; cbn [ht]; [lia|].
  intros (D & [-> | [-> _]] & Hl & Hr) ?; [|lia]. by exists l, r, e.
Qed.

Lemma avl_inv_node l r e : avl_inv l -> avl_inv r -> -1 <= ht l - ht r <= 1 ->
  avl_inv (ran_node l r (Z.max (ht l) (ht r) + 1) e).
Proof. cbn. auto. Qed.

(** ** Mirror images *)

Lemma H_mirror t : ht (mirror t) = ht t.
Proof. by destruct t. Qed.

Lemma mirror_mirror t : mirror (mirror t) = t.
Proof. induction t as [|l IHl r IHr h e]; cbn; congruence. Qed.

Lemma mirror_inv t : avl_inv t -> avl_inv (mirror t).
Proof.
  induction t as [|l IHl r IHr h e]; cbn; [done|].
  rewrite !H_mirror. intros (D & E & Hl & Hr). repeat split; auto; try lia.
  destruct E as [-> | (-> & -> & ->)]; [left; lia | right; done].
Qed.

Lemma mirror_elems t : avl_elems (mirror t) = rev (avl_elems t).
Proof. induction t as [|l IHl r IHr h e]; cbn; [done|]. rewrite IHl, IHr, rev_app_distr. cbn. by rewrite <- app_assoc. Qed.

Lemma rotate_mirror f t dir :
  (forall t, f (mirror t) = omirror (f t)) ->
  rotate_with f (mirror t) (odirmap dir) = omirror (rotate_with f t dir).
Proof.
  intros Hf. unfold rotate_with, omirror. destruct t as [|l r h e]; [by destruct dir|].
  destruct dir; cbn.
  - destruct r as [|a b h1 y]; [done|]. cbn.
    change (ran_node (mirror a) (mirror l) h e) with (mirror (ran_node l a h e)). rewrite Hf. unfold omirror.
    destruct (f (ran_node l a h e)) as [m | |]; [cbn|done|done].
    change (ran_node (mirror b) (mirror m) h1 y) with (mirror (ran_node m b h1 y)). by rewrite Hf.
  - destruct l as [|a b h1 y]; [done|]. cbn.
    change (ran_node (mirror r) (mirror b) h e) with (mirror (ran_node b r h e)). rewrite Hf. unfold omirror.
    destruct (f (ran_node b r h e)) as [m | |]; [cbn|done|done].
    change (ran_node (mirror m) (mirror a) h1 y) with (mirror (ran_node a m h1 y)). by rewrite Hf.
Qed.

Lemma delta_mirror t : RD_AVL_NODE_DELTA (mirror t) = let! d := RD_AVL_NODE_DELTA t in Ret (- d).
Proof. destruct t as [|l r h e]; cbn; [done|]. rewrite !H_mirror. f_equal. lia. Qed.

Abbreviation bal := (rd_avl_balance_node (A:=A)).

(** ** The equations of the rotations *)

Lemma rot_left g l a b h1 y h e :
  rotate_with g (ran_node l (ran_node a b h1 y) h e) RD_AVL_LEFT
  = let! m := g (ran_node l a h e) in g (ran_node m b h1 y).
Proof. unfold rotate_with. cbn. by destruct (g _). Qed.

Lemma rot_right g a b h1 y r h e :
  rotate_with g (ran_node (ran_node a b h1 y) r h e) RD_AVL_RIGHT
  = let! m := g (ran_node b r h e) in g (ran_node a m h1 y).
Proof. unfold rotate_with. cbn. by destruct (g _). Qed.

Lemma bal_plain f l r h e : (0 < f)%nat -> avl_inv l -> avl_inv r -> -1 <= ht l - ht r <= 1 ->
  bal f (ran_node l r h e) = Ret (ran_node l r (Z.max (ht l) (ht r) + 1) e).
Proof.
  intros Hf Hl%height_nonneg Hr%height_nonneg D. destruct f as [|f]; [lia|].
  cbn [rd_avl_balance_node RD_AVL_NODE_DELTA ran_p obind set_ran_height]. unfold RD_DELTA_MAX.
  rewrite (proj2 (Z.ltb_ge _ _)), Z.gtb_ltb, (proj2 (Z.ltb_ge _ _)), !Z.gtb_ltb by lia.
  repeat case_match; repeat match goal with E : (_ <? _) = _ |- _ => first [apply Z.ltb_lt in E | apply Z.ltb_ge in E] end;
    do 2 f_equal; lia.
Qed.

Lemma bal_left f l r h e : ht l - ht r < -1 ->
  bal (S f) (ran_node l r h e)
  = let! dr := RD_AVL_NODE_DELTA r in
    let! r := if dr >? 0 then rotate_with (bal f) r RD_AVL_RIGHT else Ret r in
    rotate_with (bal f) (ran_node l r h e) RD_AVL_LEFT.
Proof.
  intros D. cbn [rd_avl_balance_node RD_AVL_NODE_DELTA ran_p obind]. unfold RD_DELTA_MAX.
  rewrite (proj2 (Z.ltb_lt _ _)) by lia.
  destruct (RD_AVL_NODE_DELTA r) as [dr | |]; [cbn [obind]|done|done].
  destruct (dr >? 0); [|done]. by destruct (rotate_with _ _ _).
Qed.

Lemma bal_right f l r h e : ht l - ht r > 1 ->
  bal (S f) (ran_node l r h e)
  = let! dl := RD_AVL_NODE_DELTA l in
    let! l := if dl <? 0 then rotate_with (bal f) l RD_AVL_LEFT else Ret l in
    rotate_with (bal f) (ran_node l r h e) RD_AVL_RIGHT.
Proof.
  intros D. cbn [rd_avl_balance_node RD_AVL_NODE_DELTA ran_p obind]. unfold RD_DELTA_MAX.
  rewrite (proj2 (Z.ltb_ge _ _)), Z.gtb_ltb, (proj2 (Z.ltb_lt _ _)) by lia.
  destruct (RD_AVL_NODE_DELTA l) as [dl | |]; [cbn [obind]|done|done].
  destruct (dl <? 0); [|done]. by destruct (rotate_with _ _ _).
Qed.

Lemma balance_mirror f t : bal f (mirror t) = omirror (bal f t).
Proof.
  revert t. induction f as [|f IH]; intros [|l r h e]; try done. cbn [mirror].
  assert (Hrot : forall t dir, rotate_with (bal f) (mirror t) (odirmap dir) = omirror (rotate_with (bal f) t dir))
    by (intros; by apply rotate_mirror).
  destruct (Z.lt_ge_cases (ht l - ht r) (-1)) as [D | D].
  - rewrite (bal_left f l r), (bal_right f (mirror r) (mirror l)) by (rewrite ?H_mirror; lia). rewrite delta_mirror.
    destruct (RD_AVL_NODE_DELTA r) as [dr | |]; [cbn [obind]|done|done].
    replace (- dr <? 0) with (dr >? 0) by lia.
    destruct (dr >? 0); [|exact (Hrot (ran_node l r h e) RD_AVL_LEFT)].
    change RD_AVL_LEFT with (odirmap RD_AVL_RIGHT) at 1. rewrite (Hrot r RD_AVL_RIGHT). destruct (rotate_with _ r _) as [r' | |]; [|done|done].
    exact (Hrot (ran_node l r' h e) RD_AVL_LEFT).
  - destruct (Z.lt_ge_cases 1 (ht l - ht r)) as [D' | D'].
    + rewrite (bal_right f l r), (bal_left f (mirror r) (mirror l)) by (rewrite ?H_mirror; lia). rewrite delta_mirror.
      destruct (RD_AVL_NODE_DELTA l) as [dl | |]; [cbn [obind]|done|done].
      replace (- dl >? 0) with (dl <? 0) by lia.
      destruct (dl <? 0); [|exact (Hrot (ran_node l r h e) RD_AVL_RIGHT)].
      change RD_AVL_RIGHT with (odirmap RD_AVL_LEFT) at 1. rewrite (Hrot l RD_AVL_LEFT). destruct (rotate_with _ l _) as [l' | |]; [|done|done].
      exact (Hrot (ran_node l' r h e) RD_AVL_RIGHT).
    + cbn [rd_avl_balance_node RD_AVL_NODE_DELTA ran_p obind set_ran_height]. unfold RD_DELTA_MAX.
      rewrite !H_mirror, !Z.gtb_ltb.
      unfold omirror. repeat case_match; cbn [obind mirror]; try lia; do 2 f_equal; lia.
Qed.

(** ** Balancing two subtrees of any heights *)

(** The result of balancing under a right subtree of height [h] that is too
    tall: the height grows only by leaning to the left. *)
Definition leans_left t (h : Z) : Prop :=
  ht t = h \/ ht t = h + 1 /\ exists p q hn y, t = ran_node p q hn y /\ ht p = h /\ ht q = h - 1.

Definition balanced (o : outcome (rd_avl_node A)) l r e (P : rd_avl_node A -> Prop) : Prop :=
  exists t, o = Ret t /\ avl_inv t /\ avl_elems t = avl_elems l ++ e :: avl_elems r /\ P t.

(** The rotation of a right subtree whose inner child is the taller one. *)
Lemma inner_rotation f a b rr hl hr z y : (2 <= f)%nat ->
  avl_inv a -> avl_inv b -> avl_inv rr -> -1 <= ht a - ht b <= 1 ->
  ht rr = Z.max (ht a) (ht b) -> 0 <= ht rr ->
  rotate_with (bal f) (ran_node (ran_node a b hl z) rr hr y) RD_AVL_RIGHT
  = Ret (if ht a =? ht rr
         then ran_node a (ran_node b rr (ht rr + 1) y) (ht rr + 2) z
         else ran_node (ran_node a b (ht rr + 1) z) rr (ht rr + 2) y).
Proof.
  intros Hf Ha Hb Hrr D E Hn. rewrite rot_right, (bal_plain f b rr) by (try lia; done). cbn [obind].
  replace (Z.max (ht b) (ht rr)) with (ht rr) by lia.
  assert (Hbr : avl_inv (ran_node b rr (ht rr + 1) y)) by (cbn; repeat split; auto; lia).
  destruct (Z.eqb_spec (ht a) (ht rr)) as [Ea | Ea].
  - rewrite bal_plain by (cbn [ht]; auto; lia). cbn [ht]. do 2 f_equal. lia.
  - destruct f as [|f]; [lia|]. rewrite bal_left by (cbn [ht]; lia). cbn [RD_AVL_NODE_DELTA obind].
    rewrite Z.gtb_ltb, (proj2 (Z.ltb_ge _ _)) by lia. cbn [obind]. rewrite rot_left.
    rewrite (bal_plain f a b) by (auto; lia). cbn [obind].
    assert (Hab : avl_inv (ran_node a b (Z.max (ht a) (ht b) + 1) z)) by (cbn; auto).
    rewrite bal_plain by (cbn [ht]; auto; lia). cbn [ht]. do 2 f_equal; [f_equal; lia | lia].
Qed.

(** A left subtree two higher than the right one: its outer child is the
    taller one, or its inner child leans outwards. *)
Lemma lower_outer f p q rr hm h x y : (2 <= f)%nat ->
  avl_inv p -> avl_inv q -> avl_inv rr -> ht q = ht rr -> ht p = ht rr + 1 -> hm = ht rr + 2 ->
  bal f (ran_node (ran_node p q hm x) rr h y)
  = Ret (ran_node p (ran_node q rr (ht rr + 1) y) (ht rr + 2) x).
Proof.
  intros Hf Hp Hq Hrr Eq Ep ->. destruct f as [|f]; [lia|]. rewrite bal_right by (cbn [ht]; lia).
  cbn [RD_AVL_NODE_DELTA obind]. rewrite (proj2 (Z.ltb_ge _ _)) by lia. cbn [obind].
  rewrite rot_right, (bal_plain f q rr) by (auto; lia). cbn [obind].
  replace (Z.max (ht q) (ht rr)) with (ht rr) by lia.
  rewrite bal_plain; [cbn [ht]; do 2 f_equal; lia | lia | done | cbn; repeat split; auto; lia | cbn [ht]; lia].
Qed.

Lemma lower_inner f l a b rr hm h0 h x y z : (3 <= f)%nat ->
  avl_inv l -> avl_inv a -> avl_inv b -> avl_inv rr ->
  ht l = ht rr -> ht b = ht rr -> ht a = ht rr - 1 -> hm = ht rr + 2 -> h0 = ht rr + 1 ->
  bal f (ran_node (ran_node l (ran_node a b h0 z) hm x) rr h y)
  = Ret (ran_node (ran_node l a (ht rr + 1) x) (ran_node b rr (ht rr + 1) y) (ht rr + 2) z).
Proof.
  intros Hf Hl Ha Hb Hrr El Eb Ea -> ->. destruct f as [|f]; [lia|]. rewrite bal_right by (cbn [ht]; lia).
  cbn [RD_AVL_NODE_DELTA obind ht]. rewrite (proj2 (Z.ltb_lt _ _)) by lia.
  rewrite rot_left, (bal_plain f l a) by (auto; lia). cbn [obind].
  replace (Z.max (ht l) (ht a)) with (ht rr) by lia.
  assert (Hla : avl_inv (ran_node l a (ht rr + 1) x)) by (cbn; repeat split; auto; lia).
  rewrite (bal_plain f _ b) by (cbn [ht]; auto; lia). cbn [obind ht].
  rewrite rot_right, (bal_plain f b rr) by (auto; lia). cbn [obind].
  replace (Z.max (ht b) (ht rr)) with (ht rr) by lia.
  rewrite bal_plain; [cbn [ht]; do 2 f_equal; lia | lia | done | cbn; repeat split; auto; lia | cbn [ht]; lia].
Qed.

(** Balancing the lower left subtree with the inner part of the right one. *)
Lemma join_mid f l r h e : (0 < f)%nat -> avl_inv l -> avl_inv r -> ht l <= ht r + 1 ->
  (ht l <= ht r - 2 -> balanced (bal f (ran_node l r h e)) l r e (fun t => leans_left t (ht r))) ->
  balanced (bal f (ran_node l r h e)) l r e (fun t => Z.max (ht l) (ht r) <= ht t <= Z.max (ht l) (ht r) + 1).
Proof.
  intros Hf Hl Hr D IH. destruct (Z.le_gt_cases (ht l) (ht r - 2)) as [D'|D'].
  - destruct (IH D') as (t & E & Ht & El & Hh). exists t. split_and!; [done..| |]; destruct Hh as [-> | [-> _]]; lia.
  - exists (ran_node l r (Z.max (ht l) (ht r) + 1) e). rewrite bal_plain by (auto; lia).
    split_and!; [done|by apply avl_inv_node; auto; lia|done|cbn [ht]; lia..].
Qed.

(** [joins f r]: with fuel [f], any much lower tree joins [r] on its left. *)
Definition joins f r : Prop := forall l h e, avl_inv l -> ht l <= ht r - 2 ->
  balanced (bal f (ran_node l r h e)) l r e (fun t => leans_left t (ht r)).

Lemma join_outer f l rl rr hr y h e : (0 < f)%nat -> avl_inv l -> avl_inv (ran_node rl rr hr y) ->
  ht rl <= ht rr -> ht l <= hr - 2 -> 1 <= hr -> joins f rl ->
  balanced (bal (S f) (ran_node l (ran_node rl rr hr y) h e)) l (ran_node rl rr hr y) e (fun t => leans_left t hr).
Proof.
  intros Hf Hl (D & Eh & Hrl & Hrr) Hle Hlow Hpos IH. destruct Eh as [Eh | Eh]; [|lia].
  rewrite bal_left by (cbn [ht]; lia). cbn [RD_AVL_NODE_DELTA obind].
  rewrite Z.gtb_ltb, (proj2 (Z.ltb_ge _ _)) by lia. cbn [obind]. rewrite rot_left.
  destruct (join_mid f l rl h e) as (m & -> & Hm & Em & Hh); [lia|done|done|lia|by apply IH|]. cbn [obind].
  exists (ran_node m rr (Z.max (ht m) (ht rr) + 1) y). rewrite bal_plain by (auto; lia).
  split_and!; [done|by apply avl_inv_node; auto; lia|cbn; by rewrite Em, <- app_assoc|].
  unfold leans_left. cbn [ht]. destruct (decide (ht m <= ht rr)); [left; lia|right].
  split; [lia|]. exists m, rr, (Z.max (ht m) (ht rr) + 1), y. split; [done|lia].
Qed.

Lemma join_inner f l a b rr hl hr z y h e : (3 <= f)%nat -> avl_inv l ->
  avl_inv (ran_node (ran_node a b hl z) rr hr y) -> ht rr < hl -> ht l <= hr - 2 ->
  joins f a -> joins f (ran_node a b hl z) ->
  balanced (bal (S f) (ran_node l (ran_node (ran_node a b hl z) rr hr y) h e)) l
           (ran_node (ran_node a b hl z) rr hr y) e (fun t => leans_left t hr).
Proof.
  intros Hf Hl (D & Eh & Hrl & Hrr) Hlt Hlow IHa IHrl. cbn [ht] in *.
  destruct Eh as [Eh | (_ & ? & _)]; [|done]. pose proof (height_nonneg rr Hrr) as Nrr.
  destruct Hrl as (Dab & [Ehl | (? & _)] & Ha & Hb); [|lia].
  rewrite bal_left by (cbn [ht]; lia). cbn [RD_AVL_NODE_DELTA obind ht].
  rewrite Z.gtb_ltb, (proj2 (Z.ltb_lt _ _)) by lia. rewrite inner_rotation by (auto; lia). cbn [obind].
  destruct (Z.eqb_spec (ht a) (ht rr)) as [Ea | Ea]; rewrite rot_left.
  - destruct (join_mid f l a h e) as (m & -> & Hm & Em & Hh); [lia|done|done|lia|by apply IHa|]. cbn [obind].
    assert (Hbr : avl_inv (ran_node b rr (ht rr + 1) y)) by (cbn; repeat split; auto; lia).
    eexists. rewrite bal_plain by (cbn [ht]; auto; lia).
    split_and!; [done|apply avl_inv_node; cbn [ht]; auto; lia|cbn; rewrite Em; solve_app|left; cbn [ht]; lia].
  - assert (Hab : avl_inv (ran_node a b (ht rr + 1) z)) by (cbn; repeat split; auto; lia).
    replace hl with (ht rr + 1) in * by lia.
    destruct (Z.le_gt_cases (ht l) (ht rr - 1)) as [Dl|Dl].
    + destruct (IHrl l h e Hl) as (m & -> & Hm & Em & Hh); [cbn [ht]; lia|]. cbn [obind]. cbn [ht] in Hh.
      destruct Hh as [Hh | (Hh & p & q & hm & x & -> & Ep & Eq)].
      * eexists. rewrite bal_plain by (auto; lia).
        split_and!; [done|apply avl_inv_node; auto; lia|cbn; cbn in Em; rewrite Em; solve_app|left; cbn [ht]; lia].
      * cbn [ht] in Hh. destruct Hm as (_ & _ & Hp & Hq). eexists. rewrite lower_outer by (auto; lia).
        split_and!; [done|cbn; repeat split; auto; lia| |left; cbn [ht]; lia].
        cbn in Em |- *. trans ((avl_elems p ++ x :: avl_elems q) ++ y :: avl_elems rr); [|rewrite Em]; solve_app.
    + rewrite (bal_plain f l) by (cbn [ht]; auto; lia). cbn [obind ht]. eexists.
      rewrite lower_inner by (auto; lia).
      split_and!; [done|cbn; repeat split; auto; lia| |left; cbn [ht]; lia].
      cbn. solve_app.
Qed.

Lemma join_right n f r : (Z.to_nat (ht r) <= n)%nat -> (Z.to_nat (ht r) + 2 <= f)%nat -> avl_inv r -> joins f r.
Proof.
  revert f r. induction n as [|n IH]; intros f r Hn Hf Hr l h e Hl D; pose proof (height_nonneg l Hl) as Nl; [lia|].
  destruct (tall_node r Hr) as (rl & rr & y & Er & Eh & D' & Hrl & Hrr); [lia|].
  pose proof (height_nonneg rl Hrl) as Nrl. pose proof (height_nonneg rr Hrr) as Nrr.
  destruct f as [|f]; [lia|]. set (k := ht r) in *. clearbody k. subst r.
  destruct (Z.le_gt_cases (ht rl) (ht rr)) as [Hle | Hlt].
  - apply join_outer; auto; try lia. apply IH; auto; lia.
  - destruct rl as [|a b hl z]; cbn [ht] in Hlt; [lia|].
    pose proof Hrl as (Dab & [Ehl | (? & _)] & Ha & Hb); [|lia].
    pose proof (height_nonneg a Ha) as Na. pose proof (height_nonneg b Hb) as Nb. cbn [ht] in *.
    apply join_inner; auto; try lia; apply IH; auto; cbn [ht]; lia.
Qed.

(** Balancing returns, and gives a balanced tree of the same elements. *)
Lemma balance_spec l r h e : avl_inv l -> avl_inv r ->
  balanced (avl_balance (ran_node l r h e)) l r e
           (fun t => Z.max (ht l) (ht r) <= ht t <= Z.max (ht l) (ht r) + 1).
Proof.
  intros Hl Hr. pose proof (height_nonneg l Hl) as Nl. pose proof (height_nonneg r Hr) as Nr.
  unfold avl_balance, avl_fuel. set (f := (_ + 2)%nat).
  destruct (Z.le_gt_cases (ht l) (ht r + 1)) as [D | D].
  - apply join_mid; auto; [lia|]. intros D'. apply (join_right (Z.to_nat (ht r))); auto; lia.
  - destruct (join_right (Z.to_nat (ht l)) f (mirror l)) with (l := mirror r) (h := h) (e := e)
      as (t & E & Ht & El & Hh); rewrite ?H_mirror; auto using mirror_inv; try lia.
    change (ran_node (mirror r) (mirror l) h e) with (mirror (ran_node l r h e)) in E.
    rewrite balance_mirror in E. destruct (bal f (ran_node l r h e)) as [t' | |]; [|done|done].
    unfold omirror in E. cbn in E. injection E as <-. exists t'. split; [done|]. split.
    + rewrite <- (mirror_mirror t'). by apply mirror_inv.
    + split.
      * rewrite mirror_elems in El. apply (f_equal (@rev A)) in El. rewrite rev_involutive in El. rewrite El.
        rewrite rev_app_distr, !mirror_elems. cbn. rewrite !rev_involutive. solve_app.
      * unfold leans_left in Hh. rewrite !H_mirror in Hh. destruct Hh as [Hh | [Hh _]]; lia.
Qed.

(** ** Size and depth *)

Fixpoint avl_depth t : Z :=
  match t with ran_null => 0 | ran_node l r _ _ => Z.max (avl_depth l) (avl_depth r) + 1 end.

(** A path is at most one node longer than the stored height. *)
Lemma depth_height t : avl_inv t -> avl_depth t <= ht t + 1.
Proof.
  induction t as [|l IHl r IHr h e]; cbn; [lia|]. intros (D & [-> | (-> & -> & ->)] & Hl & Hr); [|cbn; lia].
  specialize (IHl Hl). specialize (IHr Hr). lia.
Qed.

Lemma height_size n t : avl_inv t -> Z.of_nat n <= ht t ->
  2 ^ (Z.of_nat n / 2) <= zlen (avl_elems t) + 1.
Proof.
  revert t. induction n as [n IH] using lt_wf_ind. intros t Ht Hn.
  destruct (decide (n < 2)%nat) as [Hs | Hs].
  - rewrite Z.div_small by lia. pose proof (zlen_nonneg (avl_elems t)). cbn. lia.
  - destruct (tall_node t Ht) as (l & r & e & Et & Eh & D & Hl & Hr); [lia|]. rewrite Et. cbn [avl_elems].
    pose proof (IH (n - 2)%nat ltac:(lia) l Hl ltac:(lia)) as Sl.
    pose proof (IH (n - 2)%nat ltac:(lia) r Hr ltac:(lia)) as Sr.
    assert (E : Z.of_nat n / 2 = Z.of_nat (n - 2) / 2 + 1)
      by (replace (Z.of_nat n) with (Z.of_nat (n - 2) + 1 * 2) by lia; by rewrite Z.div_add).
    rewrite E, Z.pow_add_r by (try apply Z.div_pos; lia). rewrite length_app. cbn [length]. rewrite Z.pow_1_r. lia.
Qed.

Lemma depth_bound t : avl_inv t -> avl_depth t <= 2 * Z.log2 (zlen (avl_elems t) + 1) + 2.
Proof.
  intros Ht. pose proof (height_nonneg t Ht) as Nt. pose proof (depth_height t Ht) as Dt.
  pose proof (height_size (Z.to_nat (ht t)) t Ht ltac:(lia)) as S. rewrite Z2Nat.id in S by lia.
  apply Z.log2_le_mono in S. rewrite Z.log2_pow2 in S by (apply Z.div_pos; lia).
  pose proof (Z.div_mod (ht t) 2 ltac:(lia)). pose proof (Z.mod_pos_bound (ht t) 2 ltac:(lia)). lia.
Qed.
End Shape.

(** ** The tree as a map from keys to elements *)

Section AvlMap.
Context {A K : Type} `{Countable K} (key : A -> K) (cmp : A -> A -> Z) `{!AvlOrder key cmp}.
Implicit Types (t l r : rd_avl_node A) (e y : A) (es : list A).

Abbreviation sorted := (StronglySorted (fun a b => cmp a b < 0)).

Definition elems_map es : gmap K A := list_to_map ((fun e => (key e, e)) <$> es).

(** What the tree operations do to the elements in order. *)
Fixpoint elems_insert e es : list A :=
  match es with
  | [] => [e]
  | y :: es' => if cmp e y =? 0 then e :: es' else if cmp e y <? 0 then e :: es else y :: elems_insert e es'
  end.

Definition elems_remove e es : list A := filter (fun y => cmp e y <> 0) es.

Fixpoint elems_find e es : option A :=
  match es with
  | [] => None
  | y :: es' => if cmp e y =? 0 then Some y else elems_find e es'
  end.

Lemma elems_insert_map e es : elems_map (elems_insert e es) = <[key e := e]> (elems_map es).
Proof.
  induction es as [|y es IH]; [done|]. cbn [elems_insert].
  destruct (Z.eqb_spec (cmp e y) 0) as [E%(avl_cmp_eq (cmp:=cmp)) | E].
  - unfold elems_map. cbn. by rewrite E, insert_insert_eq.
  - destruct (cmp e y <? 0); [done|]. unfold elems_map in *. cbn. rewrite IH, insert_insert_ne; [done|].
    intros Hk. apply E, (avl_cmp_eq (cmp:=cmp)). done.
Qed.

Lemma elems_remove_map e es : elems_map (elems_remove e es) = delete (key e) (elems_map es).
Proof.
  unfold elems_remove. induction es as [|y es IH]; [symmetry; apply delete_empty|]. rewrite filter_cons.
  unfold elems_map in *. cbn [fmap list_fmap list_to_map foldr uncurry fst snd]. 
  destruct (decide (cmp e y <> 0)) as [E | E].
  - cbn. rewrite IH, delete_insert_ne; [done|]. intros Hk. apply E, (avl_cmp_eq (cmp:=cmp)). done.
  - apply dec_stable, (avl_cmp_eq (cmp:=cmp)) in E. cbn. by rewrite E, delete_insert_eq, <- E.
Qed.

Lemma elems_find_map e es : elems_find e es = elems_map es !! key e.
Proof.
  induction es as [|y es IH]; [done|]. cbn [elems_find]. unfold elems_map in *. cbn.
  destruct (Z.eqb_spec (cmp e y) 0) as [E%(avl_cmp_eq (cmp:=cmp)) | E].
  - by rewrite E, lookup_insert_eq.
  - rewrite lookup_insert_ne; [done|]. intros Hk. apply E, (avl_cmp_eq (cmp:=cmp)). done.
Qed.

(** A key equal to that of [y] is on the same side of every element. *)
Lemma cmp_same_side e y z : cmp e y = 0 -> cmp y z < 0 -> cmp e z < 0.
Proof.
  intros E L. destruct (Z.lt_trichotomy (cmp e z) 0) as [? | [E' | G]]; [done| |].
  - apply (avl_cmp_eq (cmp:=cmp)) in E, E'. assert (key y = key z) as X%(avl_cmp_eq (cmp:=cmp)) by congruence. lia.
  - apply Z.lt_gt, (avl_cmp_unflip (cmp:=cmp)) in G. pose proof (avl_cmp_trans _ _ _ L G) as X.
    apply (avl_cmp_eq (cmp:=cmp)) in E. symmetry in E. apply (avl_cmp_eq (cmp:=cmp)) in E. lia.
Qed.

Lemma elems_insert_forall (P : A -> Prop) e es : P e -> Forall P es -> Forall P (elems_insert e es).
Proof.
  intros He. induction 1 as [|y es Hy Hes IH]; cbn; [auto|].
  destruct (cmp e y =? 0), (cmp e y <? 0); auto.
Qed.

Lemma elems_insert_sorted e es : sorted es -> sorted (elems_insert e es).
Proof.
  induction 1 as [|y es Hs IH Hy]; cbn; [repeat constructor|].
  destruct (Z.eqb_spec (cmp e y) 0) as [E | E].
  - constructor; [done|]. eapply Forall_impl; [exact Hy|]. cbn. intros z. by apply cmp_same_side.
  - destruct (Z.ltb_spec (cmp e y) 0) as [L | L].
    + constructor; [by constructor|]. constructor; [done|].
      eapply Forall_impl; [exact Hy|]. cbn. intros z. by apply avl_cmp_trans.
    + constructor; [done|]. apply elems_insert_forall; [|done]. apply avl_cmp_unflip. lia.
Qed.

Lemma elems_remove_sorted e es : sorted es -> sorted (elems_remove e es).
Proof.
  unfold elems_remove. induction 1 as [|y es Hs IH Hy]; [constructor|]. rewrite filter_cons.
  case_decide; [|done]. constructor; [done|]. apply list.Forall_forall. intros z [_ Hz]%list_elem_of_filter. by eapply Forall_forall in Hy.
Qed.

(** The parts of an ordered tree. *)
Lemma sorted_node es y rs : sorted (es ++ y :: rs) ->
  sorted es /\ sorted rs /\ Forall (fun z => cmp z y < 0) es /\ Forall (fun z => cmp y z < 0) rs.
Proof.
  intros Hs. pose proof (StronglySorted_app_1_r _ _ _ Hs) as [Hr Hy]%StronglySorted_inv.
  split; [by eapply StronglySorted_app_1_l|]. split; [done|]. split; [|done].
  apply Forall_forall. intros z Hz. eapply StronglySorted_app_1_elem_of in Hs; [exact Hs|done|left].
Qed.

(** An element above [y] is above everything before [y]. *)
Lemma above_all e y es : 0 <= cmp e y -> Forall (fun z => cmp z y < 0) es -> Forall (fun z => cmp e z > 0) es.
Proof.
  intros G HF. eapply Forall_impl; [exact HF|]. cbn. intros z L. apply (avl_cmp_flip (cmp:=cmp)).
  destruct (Z.eq_dec (cmp e y) 0) as [E | E].
  - apply (avl_cmp_eq (cmp:=cmp)) in E. destruct (Z.lt_trichotomy (cmp z e) 0) as [? | [X | X]]; [done| |].
    + apply (avl_cmp_eq (cmp:=cmp)) in X. assert (cmp z y = 0) by (apply (avl_cmp_eq (cmp:=cmp)); congruence). lia.
    + apply Z.lt_gt, (avl_cmp_unflip (cmp:=cmp)) in X. symmetry in E. apply (avl_cmp_eq (cmp:=cmp)) in E.
      pose proof (cmp_same_side y e z E X). apply (avl_cmp_flip (cmp:=cmp)) in L. lia.
  - eapply avl_cmp_trans; [exact L|]. apply (avl_cmp_unflip (cmp:=cmp)). lia.
Qed.

Lemma insert_app_lt e y es rs : cmp e y < 0 -> elems_insert e (es ++ y :: rs) = elems_insert e es ++ y :: rs.
Proof.
  intros L. induction es as [|z es IH]; cbn.
  - rewrite (proj2 (Z.eqb_neq _ _)), (proj2 (Z.ltb_lt _ _)) by lia. done.
  - rewrite IH. by destruct (cmp e z =? 0), (cmp e z <? 0).
Qed.

Lemma insert_app_ge e es rs : Forall (fun z => cmp e z > 0) es -> elems_insert e (es ++ rs) = es ++ elems_insert e rs.
Proof.
  induction 1 as [|z es G HF IH]; cbn; [done|].
  rewrite (proj2 (Z.eqb_neq _ _)), (proj2 (Z.ltb_ge _ _)) by lia. by rewrite IH.
Qed.

Lemma find_app e es rs : elems_find e (es ++ rs) = match elems_find e es with Some y => Some y | None => elems_find e rs end.
Proof. induction es as [|z es IH]; cbn; [done|]. by destruct (cmp e z =? 0). Qed.

Lemma find_none e es : Forall (fun z => cmp e z <> 0) es -> elems_find e es = None.
Proof. induction 1 as [|z es G HF IH]; cbn; [done|]. by rewrite (proj2 (Z.eqb_neq _ _)). Qed.

Lemma remove_none e es : Forall (fun z => cmp e z <> 0) es -> elems_remove e es = es.
Proof. induction 1 as [|z es G HF IH]; [done|]. unfold elems_remove in *. rewrite filter_cons_True; [by rewrite IH|done]. Qed.

Lemma above_ne e es : Forall (fun z => cmp e z > 0) es -> Forall (fun z => cmp e z <> 0) es.
Proof. intros HF. eapply Forall_impl; [exact HF|]. cbn. lia. Qed.

Lemma below_ne e y es : cmp e y <= 0 -> Forall (fun z => cmp y z < 0) es -> Forall (fun z => cmp e z <> 0) es.
Proof.
  intros L HF. eapply Forall_impl; [exact HF|]. cbn. intros z Lz.
  destruct (Z.eq_dec (cmp e y) 0) as [E | E]; [pose proof (cmp_same_side e y z E Lz); lia|].
  pose proof (avl_cmp_trans e y z). lia.
Qed.

(** ** The operations *)

Lemma insert_node_spec t e : avl_inv t -> sorted (avl_elems t) ->
  exists t', rd_avl_insert_node cmp t e = Ret (t', elems_find e (avl_elems t)) /\
    avl_inv t' /\ avl_elems t' = elems_insert e (avl_elems t).
Proof.
  induction t as [|l IHl r IHr h y]; intros Ht Hs.
  { eexists. split; [done|]. split; [cbn; split; [lia|]; auto|done]. }
  pose proof Ht as (D & Eh & Hl & Hr). cbn [avl_elems] in *.
  destruct (sorted_node _ _ _ Hs) as (Sl & Sr & Fl & Fr). cbn [rd_avl_insert_node].
  destruct (Z.eqb_spec (cmp e y) 0) as [E | E].
  - pose proof (above_all e y _ ltac:(lia) Fl) as Fe. eexists. split; [|split].
    + rewrite find_app, (find_none e (avl_elems l)) by (by apply above_ne). cbn.
      by rewrite (proj2 (Z.eqb_eq _ _)).
    + done.
    + cbn. rewrite insert_app_ge by done. cbn. by rewrite (proj2 (Z.eqb_eq _ _)).
  - destruct (Z.ltb_spec (cmp e y) 0) as [L | L].
    + destruct (IHl Hl Sl) as (l' & -> & Hl' & El). cbn [obind].
      destruct (balance_spec l' r h y Hl' Hr) as (t' & -> & Ht' & Et & _). cbn [obind].
      exists t'. split; [|split; [done|]].
      * rewrite find_app. cbn. rewrite (proj2 (Z.eqb_neq _ _)), (find_none e (avl_elems r)) by (lia || by eapply below_ne; [|exact Fr]; lia).
        by destruct (elems_find e (avl_elems l)).
      * by rewrite Et, El, insert_app_lt.
    + pose proof (above_all e y _ ltac:(lia) Fl) as Fe.
      destruct (IHr Hr Sr) as (r' & -> & Hr' & Er). cbn [obind].
      destruct (balance_spec l r' h y Hl Hr') as (t' & -> & Ht' & Et & _). cbn [obind].
      exists t'. split; [|split; [done|]].
      * rewrite find_app, (find_none e (avl_elems l)) by (by apply above_ne). cbn.
        by rewrite (proj2 (Z.eqb_neq _ _)).
      * rewrite Et, Er, insert_app_ge by done. cbn.
        by rewrite (proj2 (Z.eqb_neq _ _)), (proj2 (Z.ltb_ge _ _)) by lia.
Qed.

Lemma move_spec dst src : avl_inv dst -> avl_inv src ->
  exists t, rd_avl_move dst src RD_AVL_RIGHT = Ret t /\ avl_inv t /\ avl_elems t = avl_elems dst ++ avl_elems src.
Proof.
  intros Hd Hsrc. induction dst as [|l _ r IHr h y]; [by exists src|].
  destruct Hd as (D & Eh & Hl & Hr). destruct (IHr Hr) as (r' & E & Hr' & Er). cbn [rd_avl_move]. rewrite E. cbn [obind].
  destruct (balance_spec l r' h y Hl Hr') as (t' & -> & Ht' & Et & _).
  exists t'. split; [done|]. split; [done|]. rewrite Et, Er. cbn. solve_app.
Qed.

Lemma remove_elm_spec t e : avl_inv t -> sorted (avl_elems t) ->
  exists t', rd_avl_remove_elm0 cmp t e = Ret t' /\ avl_inv t' /\ avl_elems t' = elems_remove e (avl_elems t).
Proof.
  induction t as [|l IHl r IHr h y]; intros Ht Hs; [by exists ran_null|].
  pose proof Ht as (D & Eh & Hl & Hr). cbn [avl_elems] in *.
  destruct (sorted_node _ _ _ Hs) as (Sl & Sr & Fl & Fr). cbn [rd_avl_remove_elm0].
  unfold elems_remove. rewrite filter_app.
  destruct (Z.eqb_spec (cmp e y) 0) as [E | E].
  - destruct (move_spec l r Hl Hr) as (t' & Em & Ht' & Et). exists t'. split; [exact Em|]. split; [done|].
    pose proof (above_ne e _ (above_all e y _ ltac:(lia) Fl)) as Fe.
    rewrite Et, filter_cons_False by (intros X; lia). f_equal; symmetry; apply remove_none; [done|].
    eapply below_ne; [|exact Fr]. lia.
  - rewrite filter_cons_True by done. destruct (Z.ltb_spec (cmp e y) 0) as [L | L].
    + destruct (IHl Hl Sl) as (l' & -> & Hl' & El). cbn [obind].
      destruct (balance_spec l' r h y Hl' Hr) as (t' & -> & Ht' & Et & _).
      exists t'. split; [done|]. split; [done|]. rewrite Et, El. unfold elems_remove. do 2 f_equal.
      symmetry. apply remove_none. eapply below_ne; [|exact Fr]. lia.
    + destruct (IHr Hr Sr) as (r' & -> & Hr' & Er). cbn [obind].
      destruct (balance_spec l r' h y Hl Hr') as (t' & -> & Ht' & Et & _).
      exists t'. split; [done|]. split; [done|]. rewrite Et, Er. unfold elems_remove. f_equal.
      symmetry. apply remove_none, above_ne. eapply above_all; [|exact Fl]. lia.
Qed.

Lemma find_node_spec t e : sorted (avl_elems t) -> rd_avl_find_node cmp t e = elems_find e (avl_elems t).
Proof.
  induction t as [|l IHl r IHr h y]; intros Hs; [done|]. cbn [avl_elems] in *.
  destruct (sorted_node _ _ _ Hs) as (Sl & Sr & Fl & Fr). cbn [rd_avl_find_node].
  rewrite find_app. cbn [elems_find]. destruct (Z.eqb_spec (cmp e y) 0) as [E | E].
  - rewrite find_none; [done|]. apply above_ne. eapply above_all; [|exact Fl]. lia.
  - destruct (Z.ltb_spec (cmp e y) 0) as [L | L].
    + rewrite (find_none e (avl_elems r)), IHl by (done || by eapply below_ne; [|exact Fr]; lia).
      by destruct (elems_find e (avl_elems l)).
    + rewrite (find_none e (avl_elems l)); [by apply IHr|]. apply above_ne. eapply above_all; [|exact Fl]. lia.
Qed.

Lemma sorted_nodup es : sorted es -> NoDup (key <$> es).
Proof.
  induction 1 as [|y es Hs IH Hy]; cbn; constructor; [|done].
  intros (z & Ek & Hz)%list_elem_of_fmap. eapply Forall_forall in Hy; [|exact Hz]. cbn in Hy.
  apply (avl_cmp_eq (cmp:=cmp)) in Ek. lia.
Qed.

Lemma elems_map_size es : sorted es -> size (elems_map es) = length es.
Proof.
  intros Hs. unfold elems_map. rewrite map_size_list_to_map; [by rewrite length_fmap|].
  rewrite <- list_fmap_compose. by apply sorted_nodup.
Qed.

(** The tree is balanced, ordered, and holds the map [m]. *)
Record avl_ok (ravl : rd_avl A) (m : gmap K A) : Prop := mk_avl_ok {
  ao_inv : avl_inv (ravl_root ravl);
  ao_sorted : sorted (avl_elems (ravl_root ravl));
  ao_map : elems_map (avl_elems (ravl_root ravl)) = m }.

Lemma avl_init_ok flags : avl_ok (rd_avl_init flags) ∅.
Proof. by repeat constructor. Qed.

Lemma avl_insert_ok ravl m e : avl_ok ravl m ->
  exists ravl', rd_avl_insert cmp ravl e = Ret (ravl', m !! key e) /\ avl_ok ravl' (<[key e := e]> m).
Proof.
  intros [Hi Hs <-]. destruct (insert_node_spec _ e Hi Hs) as (t & E & Ht & Et).
  eexists. unfold rd_avl_insert. rewrite E. cbn [obind]. rewrite elems_find_map. split; [done|].
  split; cbn [ravl_root]; [done| |]; rewrite Et; [by apply elems_insert_sorted | apply elems_insert_map].
Qed.

Lemma avl_remove_ok ravl m e : avl_ok ravl m ->
  exists ravl', rd_avl_remove_elm cmp ravl e = Ret ravl' /\ avl_ok ravl' (delete (key e) m).
Proof.
  intros [Hi Hs <-]. destruct (remove_elm_spec _ e Hi Hs) as (t & E & Ht & Et).
  eexists. unfold rd_avl_remove_elm. rewrite E. cbn [obind]. split; [done|].
  split; cbn [ravl_root]; [done| |]; rewrite Et; [by apply elems_remove_sorted | apply elems_remove_map].
Qed.

Lemma avl_find_ok ravl m e : avl_ok ravl m -> rd_avl_find cmp ravl e = m !! key e.
Proof. intros [Hi Hs <-]. unfold rd_avl_find. rewrite find_node_spec by done. apply elems_find_map. Qed.

Lemma avl_depth_ok ravl m : avl_ok ravl m ->
  avl_depth (ravl_root ravl) <= 2 * Z.log2 (Z.of_nat (size m) + 1) + 2.
Proof. intros [Hi Hs <-]. rewrite elems_map_size by done. by apply depth_bound. Qed.

(** ** Sequences of operations *)

Inductive avl_op : Type := AvlInsert (e : A) | AvlRemove (e : A) | AvlFind (e : A).

Definition run_avl_op (o : avl_op) (ravl : rd_avl A) : outcome (rd_avl A * option A) :=
  match o with
  | AvlInsert e => rd_avl_insert cmp ravl e
  | AvlRemove e => let! ravl := rd_avl_remove_elm cmp ravl e in Ret (ravl, None)
  | AvlFind e => Ret (ravl, rd_avl_find cmp ravl e)
  end.

Definition avl_step (o : avl_op) (m : gmap K A) : gmap K A * option A :=
  match o with
  | AvlInsert e => (<[key e := e]> m, m !! key e)
  | AvlRemove e => (delete (key e) m, None)
  | AvlFind e => (m, m !! key e)
  end.

Fixpoint run_avl_ops (ops : list avl_op) (ravl : rd_avl A) : outcome (rd_avl A * list (option A)) :=
  match ops with
  | [] => Ret (ravl, [])
  | o :: ops =>
      let! (ravl, x) := run_avl_op o ravl in
      let! (ravl, xs) := run_avl_ops ops ravl in Ret (ravl, x :: xs)
  end.

Fixpoint avl_steps (ops : list avl_op) (m : gmap K A) : gmap K A * list (option A) :=
  match ops with
  | [] => (m, [])
  | o :: ops => let (m, x) := avl_step o m in let (m, xs) := avl_steps ops m in (m, x :: xs)
  end.

Lemma run_avl_ops_ok ops ravl m : avl_ok ravl m ->
  exists ravl', run_avl_ops ops ravl = Ret (ravl', (avl_steps ops m).2) /\ avl_ok ravl' (avl_steps ops m).1.
Proof.
  revert ravl m. induction ops as [|o ops IH]; intros ravl m Hok; [by exists ravl|].
  cbn [run_avl_ops avl_steps].
  assert (exists ravl', run_avl_op o ravl = Ret (ravl', (avl_step o m).2) /\ avl_ok ravl' (avl_step o m).1)
    as (r1 & -> & H1).
  { destruct o as [e | e | e]; cbn.
    - by apply avl_insert_ok.
    - destruct (avl_remove_ok ravl m e Hok) as (r1 & -> & H1). by exists r1.
    - exists ravl. by rewrite (avl_find_ok ravl m e Hok). }
  destruct (avl_step o m) as [m1 x]. cbn [obind snd fst] in *.
  destruct (IH r1 m1 H1) as (r2 & -> & H2). destruct (avl_steps ops m1) as [m2 xs]. by exists r2.
Qed.

(** C28. Any sequence of insertions, removals and lookups on the AVL tree
    returns, answers every operation as the finite map from keys to elements
    does (an insertion returns the element it replaced), and leaves a tree
    whose longest path is logarithmic in the number of elements.  In
    particular the mutual recursion of rotation and balancing terminates, also
    where removal joins subtrees of very different heights. *)
Theorem avl_refines_map flags ops :
  exists ravl, run_avl_ops ops (rd_avl_init flags) = Ret (ravl, (avl_steps ops ∅).2) /\
    elems_map (avl_elems (ravl_root ravl)) = (avl_steps ops ∅).1 /\
    sorted (avl_elems (ravl_root ravl)) /\
    avl_depth (ravl_root ravl) <= 2 * Z.log2 (Z.of_nat (size (avl_steps ops ∅).1) + 1) + 2.
Proof.
  destruct (run_avl_ops_ok ops _ _ (avl_init_ok flags)) as (ravl & E & Hok).
  exists ravl. split; [done|]. pose proof (avl_depth_ok _ _ Hok). by destruct Hok.
Qed.
End AvlMap.

(** ** A concrete comparator *)

Definition zcmp (a b : Z * Z) : Z := fst a - fst b.

#[export] Instance zcmp_order : AvlOrder fst zcmp.
Proof. split; unfold zcmp; intros; lia. Qed.

Definition example_avl_ops : list avl_op :=
  (AvlInsert <$> [(1, 10); (2, 20); (3, 30); (4, 40); (5, 50); (6, 60); (7, 70); (2, 21)]) ++
  [AvlRemove (4, 0); AvlFind (2, 0); AvlFind (4, 0)].

Lemma avl_refines_map_witness :
  exists ravl, run_avl_ops zcmp example_avl_ops (rd_avl_init 0)
    = Ret (ravl, [None; None; None; None; None; None; None; Some (2, 20); None; Some (2, 21); None]) /\
    elems_map fst (avl_elems (ravl_root ravl)) = (avl_steps fst example_avl_ops ∅).1.
Proof. destruct (avl_refines_map fst zcmp 0 example_avl_ops) as (ravl & E & M & _). exists ravl. split; [exact E | exact M]. Defined.

(** A freshly inserted node counts as height 0, so three ascending insertions
    leave a path of three nodes where a balanced tree has two. *)
Lemma avl_leaf_height :
  exists ravl, run_avl_ops zcmp (AvlInsert <$> [(1, 0); (2, 0); (3, 0)]) (rd_avl_init 0) = Ret (ravl, [None; None; None]) /\
    avl_depth (ravl_root ravl) = 3.
Proof. eexists. split; [vm_compute; reflexivity|]. done. Qed.
