(* ===== verification/Timer.v ===== *)
(** * Timers ([rdkafka_timer.c], [rdkafka_timer.h])

    The timers of a client instance are a queue ordered by expiry.  The timer
    structures live inside other objects; a pointer to one is an id, and
    [rkts_mem] is the memory they are read from and written to.  [rkts_clock]
    is what [rd_clock()] returns; it moves only by [Elapse].  The functions
    that hold [rkts_lock] are atomic; what happens while the lock is released
    (a timer callback, the wait on the condition variable) is a list of calls,
    made by the callback or by other threads. *)
From Stdlib Require Import ZArith Lia.
From stdpp Require Import base numbers list gmap sorting.
From S2P Require Import Prelude.
From S2P Require Import Msg.
From S2P Require Import MsgqSpec.

(** ** Code *)

Record rd_kafka_timer : Type := mk_rtmr {
  rtmr_next : Z;
  rtmr_interval : Z;
  rtmr_oneshot : bool;
  rtmr_callback : Z }.

Record rd_kafka_timers : Type := mk_rkts {
  rkts_timers : list Z;
  rkts_mem : gmap Z rd_kafka_timer;
  rkts_enabled : bool;
  rkts_clock : Z }.

Definition set_next (n : Z) (t : rd_kafka_timer) : rd_kafka_timer :=
  mk_rtmr n (rtmr_interval t) (rtmr_oneshot t) (rtmr_callback t).
Definition set_interval (i : Z) (t : rd_kafka_timer) : rd_kafka_timer :=
  mk_rtmr (rtmr_next t) i (rtmr_oneshot t) (rtmr_callback t).

Definition set_timers (q : list Z) (s : rd_kafka_timers) : rd_kafka_timers :=
  mk_rkts q (rkts_mem s) (rkts_enabled s) (rkts_clock s).
Definition put_timer (id : Z) (t : rd_kafka_timer) (s : rd_kafka_timers) : rd_kafka_timers :=
  mk_rkts (rkts_timers s) (<[id := t]> (rkts_mem s)) (rkts_enabled s) (rkts_clock s).
Definition elapse (d : Z) (s : rd_kafka_timers) : rd_kafka_timers :=
  mk_rkts (rkts_timers s) (rkts_mem s) (rkts_enabled s) (rkts_clock s + d).

(** Reading a timer structure through its pointer. *)
Definition get_timer (s : rd_kafka_timers) (id : Z) : outcome rd_kafka_timer :=
  match rkts_mem s !! id with Some t => Ret t | None => Crash end.

Definition rd_kafka_timer_started (t : rd_kafka_timer) : bool := negb (rtmr_interval t =? 0).
Definition rd_kafka_timer_scheduled (t : rd_kafka_timer) : bool := negb (rtmr_next t =? 0).

Definition next_of (mem : gmap Z rd_kafka_timer) (id : Z) : Z :=
  match mem !! id with Some t => rtmr_next t | None => 0 end.

(** The 64-bit difference is returned as an [int]. *)
Definition rd_kafka_timer_cmp (mem : gmap Z rd_kafka_timer) (a b : Z) : Z :=
  s32 (next_of mem a - next_of mem b).

Definition rd_kafka_timer_unschedule (s : rd_kafka_timers) (id : Z) : outcome rd_kafka_timers :=
  let! t := get_timer s id in
  assert! bool_decide (id ∈ rkts_timers s) in
  Ret (put_timer id (set_next 0 t) (set_timers (filter (fun i => i <> id) (rkts_timers s)) s)).

Definition rd_kafka_timer_schedule (s : rd_kafka_timers) (id extra_us : Z) : outcome rd_kafka_timers :=
  let! t := get_timer s id in
  if rtmr_interval t =? 0 then Ret s
  else if negb (rkts_enabled s) then Ret s
  else
    let s := put_timer id (set_next (rkts_clock s + rtmr_interval t + extra_us) t) s in
    let next := next_of (rkts_mem s) in
    match rkts_timers s with
    | [] => Ret (set_timers [id] s)
    | first :: _ =>
        if next first >? next id then Ret (set_timers (id :: rkts_timers s) s)
        else Ret (set_timers (tailq_insert_sorted (rd_kafka_timer_cmp (rkts_mem s)) (rkts_timers s) id) s)
    end.

Definition rd_kafka_timer_stop (s : rd_kafka_timers) (id : Z) : outcome (rd_kafka_timers * Z) :=
  let! t := get_timer s id in
  if negb (rd_kafka_timer_started t) then Ret (s, 0)
  else
    let! s := if rd_kafka_timer_scheduled t then rd_kafka_timer_unschedule s id else Ret s in
    let! t := get_timer s id in
    Ret (put_timer id (set_interval 0 t) s, 1).

Definition rd_kafka_timer_start0 (s : rd_kafka_timers) (id interval : Z) (oneshot : bool) (callback : Z)
  : outcome rd_kafka_timers :=
  let! (s, _) := rd_kafka_timer_stop s id in
  let! t := get_timer s id in
  rd_kafka_timer_schedule (put_timer id (mk_rtmr (rtmr_next t) interval oneshot callback) s) id 0.

Definition rd_kafka_timer_backoff (s : rd_kafka_timers) (id backoff_us : Z) : outcome rd_kafka_timers :=
  let! t := get_timer s id in
  let! s := if rd_kafka_timer_scheduled t then rd_kafka_timer_unschedule s id else Ret s in
  rd_kafka_timer_schedule s id backoff_us.

Definition rd_kafka_timer_next (s : rd_kafka_timers) (id : Z) : outcome Z :=
  let! t := get_timer s id in
  Ret (if rd_kafka_timer_scheduled t
       then let delta := rtmr_next t - rkts_clock s in if delta <? 0 then 0 else delta
       else -1).

Definition rd_kafka_timers_next (s : rd_kafka_timers) (timeout_us : Z) : Z :=
  match rkts_timers s with
  | first :: _ =>
      let sleeptime := next_of (rkts_mem s) first - rkts_clock s in
      if sleeptime <? 0 then 0 else if sleeptime >? timeout_us then timeout_us else sleeptime
  | [] => timeout_us
  end.

(** Calls made while the lock is not held. *)
Inductive timer_call : Type :=
| TimerStart (id interval : Z) (oneshot : bool) (callback : Z)
| TimerStop (id : Z)
| TimerBackoff (id backoff_us : Z)
| Elapse (d : Z).

Definition run_call (s : rd_kafka_timers) (c : timer_call) : outcome rd_kafka_timers :=
  match c with
  | TimerStart id interval oneshot callback => rd_kafka_timer_start0 s id interval oneshot callback
  | TimerStop id => let! (s, _) := rd_kafka_timer_stop s id in Ret s
  | TimerBackoff id backoff_us => rd_kafka_timer_backoff s id backoff_us
  | Elapse d => Ret (elapse d s)
  end.

Fixpoint run_calls (s : rd_kafka_timers) (cs : list timer_call) : outcome rd_kafka_timers :=
  match cs with
  | [] => Ret s
  | c :: cs => let! s := run_call s c in run_calls s cs
  end.

Definition RD_POLL_NOWAIT : Z := 0.

Section Run.
(** What the callback of a timer does, and what other threads do meanwhile. *)
Context (callback : Z -> rd_kafka_timers -> list timer_call).

(** One round of the inner loop: fire the first timer. *)
Definition fire_timer (s : rd_kafka_timers) (id : Z) : outcome rd_kafka_timers :=
  let! s := rd_kafka_timer_unschedule s id in
  let! t := get_timer s id in
  let s := if rtmr_oneshot t then put_timer id (set_interval 0 t) s else s in
  let! s := run_calls s (callback id s) in
  let! t := get_timer s id in
  if rd_kafka_timer_started t && negb (rd_kafka_timer_scheduled t) then rd_kafka_timer_schedule s id 0 else Ret s.

(** The inner loop of [rd_kafka_timers_run]; also the timers it fired. *)
Fixpoint dispatch_loop (fuel : nat) (s : rd_kafka_timers) (now : Z) : outcome (rd_kafka_timers * list Z) :=
  match fuel with
  | O => Diverge
  | S fuel =>
      match rkts_timers s with
      | [] => Ret (s, [])
      | id :: _ =>
          if next_of (rkts_mem s) id <=? now then
            let! s := fire_timer s id in
            let! (s, fired) := dispatch_loop fuel s now in Ret (s, id :: fired)
          else Ret (s, [])
      end
  end.

(** What other threads do during [cnd_timedwait_ms], the time that passes
    before the clock is read again, and whether the instance is terminating. *)
Context (waiting : Z -> rd_kafka_timers -> list timer_call) (tick : rd_kafka_timers -> Z)
        (terminating : rd_kafka_timers -> bool).

Definition dispatch_fuel (s : rd_kafka_timers) : nat := S (length (rkts_timers s)).

Fixpoint timers_run_loop (fuel : nat) (s : rd_kafka_timers) (timeout_us now end_ : Z) (fired : list Z)
  : outcome (rd_kafka_timers * list Z) :=
  match fuel with
  | O => Diverge
  | S fuel =>
      if terminating s || (now >? end_) then Ret (s, fired)
      else
        let! s := if timeout_us =? RD_POLL_NOWAIT then Ret s
                  else let sleeptime := rd_kafka_timers_next s timeout_us in
                       if sleeptime >? 0 then run_calls s (waiting (s32 (sleeptime ÷ 1000)) s) else Ret s in
        let s := elapse (tick s) s in
        let now := rkts_clock s in
        let! (s, f) := dispatch_loop (dispatch_fuel s) s now in
        if timeout_us =? RD_POLL_NOWAIT then Ret (s, fired ++ f)
        else timers_run_loop fuel s timeout_us now end_ (fired ++ f)
  end.

Definition rd_kafka_timers_run (fuel : nat) (s : rd_kafka_timers) (timeout_us : Z) : outcome (rd_kafka_timers * list Z) :=
  let now := rkts_clock s in
  timers_run_loop fuel s timeout_us now (now + timeout_us) [].
End Run.

Fixpoint timers_destroy_loop (fuel : nat) (s : rd_kafka_timers) : outcome rd_kafka_timers :=
  match rkts_timers s, fuel with
  | [], _ => Ret s
  | _, O => Diverge
  | id :: _, S fuel => let! (s, _) := rd_kafka_timer_stop s id in timers_destroy_loop fuel s
  end.

Definition rd_kafka_timers_destroy (s : rd_kafka_timers) : outcome rd_kafka_timers :=
  let s := mk_rkts (rkts_timers s) (rkts_mem s) false (rkts_clock s) in
  timers_destroy_loop (length (rkts_timers s)) s.

Definition rd_kafka_timers_init (mem : gmap Z rd_kafka_timer) (clock : Z) : rd_kafka_timers :=
  mk_rkts [] mem true clock.
