(* ===== verification/TimerSpec.v ===== *)
(** * Timers fire when due, in order, and dispatching returns

    [timers_wf] is the shape every call keeps: the queue holds exactly the
    scheduled timers.  Ordering by expiry additionally needs all expiry times
    within 2^31 microseconds of each other, because the comparator returns the
    difference as an [int]. *)
From Stdlib Require Import ZArith Lia.
From stdpp Require Import base numbers list gmap sorting.
From S2P Require Import Prelude.
From S2P Require Import Msg.
From S2P Require Import MsgqSpec.
From S2P Require Import Timer.

Implicit Types (s : rd_kafka_timers) (id now : Z) (t : rd_kafka_timer).

Abbreviation next s := (next_of (rkts_mem s)).

Record timers_wf s : Prop := mk_timers_wf {
  tw_nodup : NoDup (rkts_timers s);
  tw_queued : forall id, id ∈ rkts_timers s <-> exists t, rkts_mem s !! id = Some t /\ rtmr_next t <> 0;
  tw_interval : forall id t, rkts_mem s !! id = Some t -> 0 <= rtmr_interval t;
  tw_started : forall id t, rkts_mem s !! id = Some t -> rtmr_next t <> 0 -> rtmr_interval t <> 0;
  tw_clock : 0 < rkts_clock s }.

(** The timers that have expired at [now], in queue order. *)
Definition due s now : list Z := filter (fun id => next s id <= now) (rkts_timers s).

Definition known s id : Prop := is_Some (rkts_mem s !! id).

(** What a caller must provide. *)
Definition call_ok s (c : timer_call) : Prop :=
  match c with
  | TimerStart id interval _ _ => known s id /\ 0 < interval
  | TimerStop id => known s id
  | TimerBackoff id backoff_us => known s id /\ 0 <= backoff_us
  | Elapse d => 0 <= d
  end.

Definition call_time (c : timer_call) : Z := match c with Elapse d => d | _ => 0 end.

(** A later state of the same timers: nothing new is due at a time before. *)
Record later s s' : Prop := mk_later {
  lt_known : forall id, known s id <-> known s' id;
  lt_enabled : rkts_enabled s' = rkts_enabled s;
  lt_clock : rkts_clock s <= rkts_clock s';
  lt_due : forall now, now <= rkts_clock s -> sublist (due s' now) (due s now) }.

(** The times within which the comparator is exact: everything queued expires
    after [w_lo], the clock stays below [w_cmax], intervals below [w_imax] and
    back-offs below [w_bmax]. *)
Record times : Type := mk_times { w_lo : Z; w_cmax : Z; w_imax : Z; w_bmax : Z }.

Definition w_hi (w : times) : Z := w_cmax w + w_imax w + w_bmax w.

Abbreviation by_next s := (StronglySorted (fun a b => next s a <= next s b)).

Record window (w : times) s : Prop := mk_window {
  wi_span : w_hi w - w_lo w < 2 ^ 31;
  wi_clock : w_lo w <= rkts_clock s <= w_cmax w;
  wi_interval : forall id t, rkts_mem s !! id = Some t -> rtmr_interval t <= w_imax w;
  wi_next : forall id, id ∈ rkts_timers s -> w_lo w <= next s id <= w_hi w;
  wi_sorted : by_next s (rkts_timers s) }.

Definition call_bounded (w : times) s (c : timer_call) : Prop :=
  match c with
  | TimerStart _ interval _ _ => interval <= w_imax w
  | TimerStop _ => True
  | TimerBackoff _ backoff_us => backoff_us <= w_bmax w
  | Elapse d => rkts_clock s + d <= w_cmax w
  end.

#[export] Instance later_preorder : PreOrder later.
Proof.
  split; [by intros s; split; try done; lia|].
  intros s1 s2 s3 [K1 E1 C1 D1] [K2 E2 C2 D2]. split; [intros id; by rewrite K1 | congruence | lia |].
  intros now Hn. trans (due s2 now); [apply D2; lia | by apply D1].
Qed.

Lemma get_known s id : known s id -> exists t, get_timer s id = Ret t /\ rkts_mem s !! id = Some t.
Proof. intros [t E]. exists t. unfold get_timer. by rewrite E. Qed.

Lemma next_put s id t j : next (put_timer id t s) j = if decide (j = id) then rtmr_next t else next s j.
Proof.
  unfold next_of, put_timer. cbn. destruct (decide (j = id)) as [-> | N];
    [by rewrite lookup_insert_eq | by rewrite lookup_insert_ne].
Qed.

Lemma known_put s id t j : known s id -> known s j <-> known (put_timer id t s) j.
Proof.
  unfold known, put_timer. cbn. intros Hk. destruct (decide (j = id)) as [-> | N];
    [rewrite lookup_insert_eq; split; eauto | by rewrite lookup_insert_ne].
Qed.

Lemma filter_ext_in {A} (P Q : A -> Prop) `{!forall x, Decision (P x)} `{!forall x, Decision (Q x)} (l : list A) :
  (forall x, x ∈ l -> P x <-> Q x) -> filter P l = filter Q l.
Proof.
  induction l as [|x l IH]; intros HPQ; [done|]. rewrite !filter_cons.
  rewrite IH by (intros; apply HPQ; by right). pose proof (HPQ x (list_elem_of_here _ _)).
  repeat case_decide; tauto || done.
Qed.

Lemma filter_sublist {A} (P : A -> Prop) `{!forall x, Decision (P x)} (l l' : list A) :
  sublist l l' -> sublist (filter P l) (filter P l').
Proof.
  induction 1 as [|x l l' _ IH|x l l' _ IH]; [done| |]; rewrite ?filter_cons; case_decide; rewrite ?IH; auto using sublist.
  all: by constructor.
Qed.

Lemma filter_all {A} (P : A -> Prop) `{!forall x, Decision (P x)} (l : list A) :
  (forall x, x ∈ l -> P x) -> filter P l = l.
Proof.
  induction l as [|x l IH]; intros HP; [done|]. rewrite filter_cons_True by (apply HP; left).
  rewrite IH; [done|]. intros y Hy. apply HP. by right.
Qed.

Lemma insert_filter {A} (P : A -> Prop) `{!forall x, Decision (P x)} cmp (l : list A) m :
  ~ P m -> filter P (tailq_insert_sorted cmp l m) = filter P l.
Proof.
  intros Hm. induction l as [|x l IH]; cbn [tailq_insert_sorted]; [by rewrite filter_cons_False|].
  destruct (cmp m x <? 0); rewrite !filter_cons, ?IH; by rewrite ?(decide_False (P := P m)).
Qed.

Lemma unschedule_spec s id : timers_wf s -> id ∈ rkts_timers s ->
  exists s' t, rd_kafka_timer_unschedule s id = Ret s' /\ timers_wf s' /\ later s s' /\
    rkts_mem s !! id = Some t /\
    s' = put_timer id (set_next 0 t) (set_timers (filter (fun i => i <> id) (rkts_timers s)) s).
Proof.
  intros [H1 H2 H3 H4 H5] Hin. destruct (proj1 (H2 id) Hin) as (t & Et & Hn).
  unfold rd_kafka_timer_unschedule, get_timer. rewrite Et. cbn [obind].
  rewrite bool_decide_eq_true_2 by done. eexists _, t. split; [done|]. split; [|split; [|done]].
  - split; cbn.
    + by apply NoDup_filter.
    + intros j. rewrite list_elem_of_filter. destruct (decide (j = id)) as [-> | N].
      * rewrite lookup_insert_eq. split; [tauto|]. intros (t' & [= <-] & X). done.
      * rewrite lookup_insert_ne, <- H2 by done. tauto.
    + intros j t'. destruct (decide (j = id)) as [-> | N]; [rewrite lookup_insert_eq | rewrite lookup_insert_ne by done; apply H3].
      intros [= <-]. by apply (H3 id t).
    + intros j t'. destruct (decide (j = id)) as [-> | N]; [rewrite lookup_insert_eq | rewrite lookup_insert_ne by done; apply H4].
      by intros [= <-].
    + done.
  - split; [intros j; rewrite <- (known_put (set_timers _ s)); [done|by exists t] | done | done |].
    intros now _. unfold due. cbn [rkts_timers put_timer set_timers].
    rewrite (filter_ext_in _ (fun i => next s i <= now)).
    + apply filter_sublist, sublist_filter.
    + intros j [N _]%list_elem_of_filter. rewrite next_put. by rewrite decide_False.
Qed.

Lemma sorted_ext s s' (q : list Z) :
  (forall j, j ∈ q -> next s' j = next s j) -> by_next s q -> by_next s' q.
Proof.
  intros Hj. induction 1 as [|x q Hs IH Hx]; [constructor|].
  constructor; [apply IH; intros; apply Hj; by right|]. rewrite list.Forall_forall in *.
  intros y Hy. rewrite !Hj by (by left || by right). by apply Hx.
Qed.

Lemma sorted_filter_by (P : Z -> Prop) `{!forall x, Decision (P x)} s (q : list Z) : by_next s q -> by_next s (filter P q).
Proof.
  induction 1 as [|x q Hs IH Hx]; [constructor|]. rewrite filter_cons. case_decide; [|done]. constructor; [done|].
  apply list.Forall_forall. intros y [_ Hy]%list_elem_of_filter. by eapply list.Forall_forall in Hx.
Qed.

Lemma unschedule_window w s id t : window w s -> rkts_mem s !! id = Some t ->
  window w (put_timer id (set_next 0 t) (set_timers (filter (fun i => i <> id) (rkts_timers s)) s)).
Proof.
  intros [W1 W2 W3 W4 W5] Et.
  assert (Hj : forall j, j ∈ filter (fun i => i <> id) (rkts_timers s) ->
    next (put_timer id (set_next 0 t) (set_timers (filter (fun i => i <> id) (rkts_timers s)) s)) j = next s j).
  { intros j [N _]%list_elem_of_filter. by rewrite next_put, decide_False. }
  split; [done|done| | |].
  - intros j t'. cbn. destruct (decide (j = id)) as [-> | N]; [rewrite lookup_insert_eq | rewrite lookup_insert_ne by done; apply W3].
    intros [= <-]. by apply (W3 id t).
  - intros j Hin. rewrite Hj by exact Hin. apply W4. by apply list_elem_of_filter in Hin as [_ ?].
  - eapply sorted_ext; [exact Hj|]. by apply sorted_filter_by.
Qed.

(** The queue after [rd_kafka_timer_schedule] inserted [id]. *)
Definition insert_timer s id : list Z :=
  match rkts_timers s with
  | first :: _ =>
      if next s first >? next s id then id :: rkts_timers s
      else tailq_insert_sorted (rd_kafka_timer_cmp (rkts_mem s)) (rkts_timers s) id
  | [] => [id]
  end.

Lemma insert_timer_perm s id : Permutation (insert_timer s id) (id :: rkts_timers s).
Proof.
  unfold insert_timer. destruct (rkts_timers s) as [|first q]; [done|].
  destruct (_ >? _); [done|]. apply tailq_insert_sorted_perm.
Qed.

Lemma insert_timer_filter (P : Z -> Prop) `{!forall x, Decision (P x)} s id :
  ~ P id -> filter P (insert_timer s id) = filter P (rkts_timers s).
Proof.
  intros HP. unfold insert_timer. destruct (rkts_timers s) as [|first q]; [by rewrite filter_cons_False|].
  destruct (_ >? _); [by rewrite filter_cons_False | by apply insert_filter].
Qed.

Definition scheduled_at s id t extra : rd_kafka_timers :=
  let s1 := put_timer id (set_next (rkts_clock s + rtmr_interval t + extra) t) s in
  set_timers (insert_timer s1 id) s1.

Lemma schedule_eq s id t extra : rkts_mem s !! id = Some t ->
  rd_kafka_timer_schedule s id extra
  = Ret (if (rtmr_interval t =? 0) || negb (rkts_enabled s) then s else scheduled_at s id t extra).
Proof.
  intros Et. unfold rd_kafka_timer_schedule, get_timer. rewrite Et. cbn [obind].
  destruct (rtmr_interval t =? 0); [done|]. destruct (negb (rkts_enabled s)); [done|]. cbn [orb].
  unfold scheduled_at, insert_timer. cbn [rkts_timers put_timer rkts_mem].
  destruct (rkts_timers s) as [|first q]; [done|]. by destruct (_ >? _).
Qed.

Lemma scheduled_at_wf s id t extra : timers_wf s -> rkts_mem s !! id = Some t -> rtmr_next t = 0 ->
  rtmr_interval t <> 0 -> 0 <= extra -> timers_wf (scheduled_at s id t extra).
Proof.
  intros [H1 H2 H3 H4 H5] Et Hn Hi He. pose proof (H3 id t Et).
  assert (Hout : id ∉ rkts_timers s) by (intros (t' & Et' & X)%H2; congruence).
  pose proof (insert_timer_perm (put_timer id (set_next (rkts_clock s + rtmr_interval t + extra) t) s) id) as HP.
  split; cbn [scheduled_at rkts_timers set_timers rkts_mem put_timer rkts_clock]; [| | | |done].
  - rewrite HP. cbn. by constructor.
  - intros j. rewrite HP. cbn. rewrite elem_of_cons. destruct (decide (j = id)) as [-> | N].
    + rewrite lookup_insert_eq. split; [|by left]. intros _. eexists. split; [done|]. cbn. lia.
    + rewrite lookup_insert_ne, <- H2 by done. split; [by intros [-> | ?] | by right].
  - intros j t'. destruct (decide (j = id)) as [-> | N]; [rewrite lookup_insert_eq | rewrite lookup_insert_ne by done; apply H3].
    by intros [= <-].
  - intros j t'. destruct (decide (j = id)) as [-> | N]; [rewrite lookup_insert_eq | rewrite lookup_insert_ne by done; apply H4].
    by intros [= <-].
Qed.

Lemma scheduled_at_due s id t extra now : timers_wf s -> rkts_mem s !! id = Some t -> rtmr_next t = 0 ->
  rtmr_interval t <> 0 -> 0 <= extra -> now <= rkts_clock s -> due (scheduled_at s id t extra) now = due s now.
Proof.
  intros [H1 H2 H3 H4 H5] Et Hn Hi He Hnow. pose proof (H3 id t Et).
  assert (Hout : id ∉ rkts_timers s) by (intros (t' & Et' & X)%H2; congruence).
  unfold due. cbn [scheduled_at rkts_timers set_timers]. rewrite insert_timer_filter.
  - cbn [rkts_timers put_timer]. apply filter_ext_in. intros j Hj.
    change (rkts_mem (scheduled_at s id t extra)) with (rkts_mem (put_timer id (set_next (rkts_clock s + rtmr_interval t + extra) t) s)).
    rewrite next_put, decide_False by (by intros ->). done.
  - change (rkts_mem (scheduled_at s id t extra)) with (rkts_mem (put_timer id (set_next (rkts_clock s + rtmr_interval t + extra) t) s)).
    rewrite next_put, decide_True by done. cbn. lia.
Qed.

Lemma s32_lt a b : - 2 ^ 31 < a - b < 2 ^ 31 -> (s32 (a - b) <? 0) = (a <? b).
Proof. intros Hab. rewrite swrap_id by (try lia; unfold s_ok; lia). lia. Qed.

(** Insertion keeps the order when every comparison is exact. *)
Lemma insert_sorted_by (f : Z -> Z) cmp (q : list Z) m :
  (forall x, x ∈ q -> (cmp m x <? 0) = (f m <? f x)) -> StronglySorted (fun a b => f a <= f b) q ->
  StronglySorted (fun a b => f a <= f b) (tailq_insert_sorted cmp q m).
Proof.
  intros Hc. induction 1 as [|x q Hs IH Hx]; cbn; [repeat constructor|].
  rewrite Hc by left. destruct (Z.ltb_spec (f m) (f x)).
  - constructor; [by constructor|]. constructor; [lia|]. eapply Forall_impl; [exact Hx|]. cbn. lia.
  - constructor; [apply IH; intros; apply Hc; by right|]. rewrite tailq_insert_sorted_perm. by constructor.
Qed.

Lemma insert_timer_sorted s id : by_next s (rkts_timers s) ->
  (forall x, x ∈ rkts_timers s -> - 2 ^ 31 < next s id - next s x < 2 ^ 31) -> by_next s (insert_timer s id).
Proof.
  intros Hs Hw. unfold insert_timer. destruct (rkts_timers s) as [|first q]; [repeat constructor|].
  rewrite Z.gtb_ltb. destruct (Z.ltb_spec (next s id) (next s first)).
  - constructor; [done|]. apply StronglySorted_inv in Hs as [_ Hf]. constructor; [lia|].
    eapply Forall_impl; [exact Hf|]. cbn. lia.
  - apply insert_sorted_by; [|done]. intros x Hx. unfold rd_kafka_timer_cmp. apply s32_lt. by apply Hw.
Qed.

Lemma scheduled_at_window w s id t extra : timers_wf s -> window w s -> rkts_mem s !! id = Some t -> rtmr_next t = 0 ->
  0 <= extra <= w_bmax w -> window w (scheduled_at s id t extra).
Proof.
  intros Hwf [W1 W2 W3 W4 W5] Et Hn He. pose proof (W3 id t Et). pose proof (tw_interval s Hwf id t Et).
  set (s1 := put_timer id (set_next (rkts_clock s + rtmr_interval t + extra) t) s).
  assert (Hout : id ∉ rkts_timers s) by (intros (t' & Et' & X)%(tw_queued s Hwf); congruence).
  assert (Ej : forall j, j ∈ rkts_timers s1 -> next s1 j = next s j)
    by (intros j Hj; unfold s1; by rewrite next_put, decide_False by (by intros ->)).
  assert (Ei : next s1 id = rkts_clock s + rtmr_interval t + extra)
    by (unfold s1; rewrite next_put; by rewrite decide_True).
  unfold w_hi in *. split; [done|done| | |]; change (rkts_mem (scheduled_at s id t extra)) with (rkts_mem s1).
  - intros j t'. cbn. destruct (decide (j = id)) as [-> | N]; [rewrite lookup_insert_eq | rewrite lookup_insert_ne by done; apply W3].
    by intros [= <-].
  - intros j Hj. change (rkts_timers _) with (insert_timer s1 id) in Hj. rewrite insert_timer_perm in Hj.
    unfold w_hi. apply elem_of_cons in Hj as [-> | Hj]; [rewrite Ei; lia|]. rewrite Ej by done. by apply W4.
  - change (rkts_timers _) with (insert_timer s1 id).
    apply insert_timer_sorted; [by eapply sorted_ext|]. intros x Hx. rewrite Ei, Ej by done. specialize (W4 x Hx). lia.
Qed.

Lemma schedule_spec s id t extra : timers_wf s -> rkts_mem s !! id = Some t -> rtmr_next t = 0 -> 0 <= extra ->
  exists s', rd_kafka_timer_schedule s id extra = Ret s' /\ timers_wf s' /\ later s s' /\
    s' = (if (rtmr_interval t =? 0) || negb (rkts_enabled s) then s else scheduled_at s id t extra) /\
    (forall w, window w s -> extra <= w_bmax w -> window w s').
Proof.
  intros Hwf Et Hn He. rewrite (schedule_eq _ _ _ _ Et). eexists. split; [done|].
  destruct (Z.eqb_spec (rtmr_interval t) 0) as [|Hi]; [by auto|]. destruct (rkts_enabled s); [|by auto]. cbn.
  split; [by apply scheduled_at_wf|]. split; [|split; [done|intros; by apply scheduled_at_window]].
  split; [intros j; apply known_put; by exists t | done | done |].
  intros now Hnow. by rewrite scheduled_at_due.
Qed.

(** Writing the other fields of a timer that is not scheduled. *)
Lemma put_idle s id t t' : timers_wf s -> rkts_mem s !! id = Some t -> rtmr_next t = 0 ->
  rtmr_next t' = 0 -> 0 <= rtmr_interval t' ->
  timers_wf (put_timer id t' s) /\ later s (put_timer id t' s) /\
  (forall w, window w s -> rtmr_interval t' <= w_imax w -> window w (put_timer id t' s)).
Proof.
  intros [H1 H2 H3 H4 H5] Et Hn Hn' Hi.
  assert (Hout : id ∉ rkts_timers s) by (intros (t0 & Et' & X)%H2; congruence).
  assert (Hj : forall j, j ∈ rkts_timers s -> next (put_timer id t' s) j = next s j)
    by (intros j Hj; by rewrite next_put, decide_False by (by intros ->)).
  split_and!.
  - split; cbn; [done| | | |done].
    + intros j. destruct (decide (j = id)) as [-> | N]; [|by rewrite lookup_insert_ne, <- H2].
      rewrite lookup_insert_eq. split; [done|]. intros (t0 & [= <-] & X). done.
    + intros j t0. destruct (decide (j = id)) as [-> | N]; [rewrite lookup_insert_eq | rewrite lookup_insert_ne by done; apply H3].
      by intros [= <-].
    + intros j t0. destruct (decide (j = id)) as [-> | N]; [rewrite lookup_insert_eq | rewrite lookup_insert_ne by done; apply H4].
      by intros [= <-].
  - split; [intros j; apply known_put; by exists t | done | done |].
    intros now _. unfold due. cbn [rkts_timers put_timer]. apply reflexive_eq, filter_ext_in.
    intros j Hin. by rewrite Hj.
  - intros w [W1 W2 W3 W4 W5] Hw. split; [done|done| |intros j Hin; rewrite Hj by done; by apply W4 | by eapply sorted_ext].
    intros j t0. cbn. destruct (decide (j = id)) as [-> | N]; [rewrite lookup_insert_eq | rewrite lookup_insert_ne by done; apply W3].
    by intros [= <-].
Qed.

Lemma stop_spec s id : timers_wf s -> known s id ->
  exists s' r t, rd_kafka_timer_stop s id = Ret (s', r) /\ timers_wf s' /\ later s s' /\
    rkts_clock s' = rkts_clock s /\ rkts_mem s' !! id = Some t /\ rtmr_next t = 0 /\ rtmr_interval t = 0 /\
    rkts_timers s' = filter (fun i => i <> id) (rkts_timers s) /\
    (forall j, j <> id -> rkts_mem s' !! j = rkts_mem s !! j) /\
    (forall w, 0 <= w_imax w -> window w s -> window w s').
Proof.
  intros Hwf Hk. destruct (get_known s id Hk) as (t & Eg & Et). unfold rd_kafka_timer_stop. rewrite Eg. cbn [obind].
  unfold rd_kafka_timer_started, rd_kafka_timer_scheduled. pose proof Hwf as [H1 H2 H3 H4 H5].
  assert (Hidle : rtmr_next t = 0 -> rkts_timers s = filter (fun i => i <> id) (rkts_timers s)).
  { intros Hn. symmetry. apply filter_all. intros j Hj ->. apply H2 in Hj as (t' & Et' & X). congruence. }
  destruct (Z.eqb_spec (rtmr_interval t) 0) as [Ei | Ei]; cbn [negb].
  - assert (rtmr_next t = 0) by (destruct (Z.eq_dec (rtmr_next t) 0); [done|by destruct (H4 id t Et)]).
    exists s, 0, t. split_and!; auto; done.
  - destruct (Z.eqb_spec (rtmr_next t) 0) as [En | En]; cbn [negb obind].
    + rewrite Eg. cbn [obind]. eexists _, 1, (set_interval 0 t).
      destruct (put_idle s id t (set_interval 0 t) Hwf Et En En) as (W & L & K); [done|].
      split_and!; [done..|apply (lookup_insert_eq (rkts_mem s))|done|done|by apply Hidle| |by auto].
      intros j N. by apply lookup_insert_ne.
    + destruct (unschedule_spec s id Hwf) as (s1 & t1 & -> & W1 & L1 & Et1 & E1); [apply H2; eauto|].
      cbn [obind]. assert (Em : rkts_mem s1 !! id = Some (set_next 0 t1)) by (subst s1; apply (lookup_insert_eq (rkts_mem s))).
      unfold get_timer. rewrite Em. cbn [obind].
      destruct (put_idle s1 id _ (set_interval 0 (set_next 0 t1)) W1 Em) as (W & L & K); [done..|].
      eexists _, 1, _. split_and!; [done|done|by trans s1|by subst s1|apply (lookup_insert_eq (rkts_mem s1))|done|done|by subst s1| |].
      * intros j N. subst s1. cbn. by rewrite !lookup_insert_ne by done.
      * intros w Hw Hs. apply K; [|done]. subst s1. by apply unschedule_window.
Qed.

Lemma run_call_spec s c : timers_wf s -> call_ok s c ->
  exists s', run_call s c = Ret s' /\ timers_wf s' /\ later s s' /\ rkts_clock s' = rkts_clock s + call_time c /\
    (forall w, 0 <= w_imax w -> 0 <= w_bmax w -> window w s -> call_bounded w s c -> window w s').
Proof.
  intros Hwf Hc. destruct c as [id interval oneshot cb | id | id us | d]; cbn [run_call call_ok call_time call_bounded] in *.
  - destruct Hc as [Hk Hi]. unfold rd_kafka_timer_start0.
    destruct (stop_spec s id Hwf Hk) as (s1 & r & t & -> & W1 & L1 & C1 & Et & En & _ & _ & _ & K1). cbn [obind].
    unfold get_timer. rewrite Et. cbn [obind].
    destruct (put_idle s1 id t (mk_rtmr (rtmr_next t) interval oneshot cb) W1 Et En En) as (W2 & L2 & K2); [cbn; lia|].
    destruct (schedule_spec (put_timer id (mk_rtmr (rtmr_next t) interval oneshot cb) s1) id
      (mk_rtmr (rtmr_next t) interval oneshot cb) 0 W2) as (s3 & -> & W3 & L3 & E3 & K3);
      [apply (lookup_insert_eq (rkts_mem s1))|done|done|].
    exists s3. split_and!; [done|done|by trans s1; [|etrans]| |intros; apply K3; [apply K2|]; auto].
    subst s3. destruct (_ || _); cbn; lia.
  - destruct (stop_spec s id Hwf Hc) as (s1 & r & t & -> & W1 & L1 & C1 & _ & _ & _ & _ & _ & K1).
    exists s1. split_and!; [done..|lia|by auto].
  - destruct Hc as [Hk Hu]. destruct (get_known s id Hk) as (t & Eg & Et). unfold rd_kafka_timer_backoff.
    rewrite Eg. cbn [obind]. unfold rd_kafka_timer_scheduled. pose proof Hwf as [H1 H2 H3 H4 H5].
    destruct (Z.eqb_spec (rtmr_next t) 0) as [En | En]; cbn [negb obind].
    + destruct (schedule_spec s id t us Hwf Et En Hu) as (s3 & -> & W3 & L3 & E3 & K3).
      exists s3. split_and!; [done..| |by auto]. subst s3. destruct (_ || _); cbn; lia.
    + destruct (unschedule_spec s id Hwf) as (s1 & t1 & -> & W1 & L1 & Et1 & E1); [apply H2; eauto|]. cbn [obind].
      destruct (schedule_spec s1 id (set_next 0 t1) us W1) as (s3 & -> & W3 & L3 & E3 & K3);
        [subst s1; apply (lookup_insert_eq (rkts_mem s))|done|done|].
      exists s3. split_and!; [done|done|by trans s1| |].
      * subst s3 s1. destruct (_ || _); cbn; lia.
      * intros w _ _ Hs Hb. apply K3; [|done]. subst s1. by apply unschedule_window.
  - destruct Hwf as [H1 H2 H3 H4 H5]. eexists. split; [done|]. split; [by split; cbn; try done; lia|].
    split; [|split; [done|]]; [split; [done|done|cbn; lia|done]|].
    intros w _ _ [W1 W2 W3 W4 W5] Hb. split; cbn; try done; lia.
Qed.

(** ** Lists of calls *)

Definition calls_time (cs : list timer_call) : Z := foldr (fun c z => call_time c + z) 0 cs.

Definition call_limits (w : times) (c : timer_call) : Prop :=
  match c with
  | TimerStart _ interval _ _ => interval <= w_imax w
  | TimerBackoff _ backoff_us => backoff_us <= w_bmax w
  | _ => True
  end.

Lemma call_ok_later s s' c : later s s' -> call_ok s c -> call_ok s' c.
Proof. intros [K _ _ _]. destruct c; cbn; rewrite ?K; done. Qed.

Lemma calls_time_nonneg s cs : Forall (call_ok s) cs -> 0 <= calls_time cs.
Proof.
  induction 1 as [|c cs Hc Hcs IH]; [cbn; lia|]. change (calls_time (c :: cs)) with (call_time c + calls_time cs).
  destruct c; cbn [call_ok call_time] in *; lia.
Qed.

Lemma run_calls_spec s cs : timers_wf s -> Forall (call_ok s) cs ->
  exists s', run_calls s cs = Ret s' /\ timers_wf s' /\ later s s' /\ rkts_clock s' = rkts_clock s + calls_time cs /\
    (forall w, 0 <= w_imax w -> 0 <= w_bmax w -> window w s -> Forall (call_limits w) cs ->
       rkts_clock s + calls_time cs <= w_cmax w -> window w s').
Proof.
  revert s. induction cs as [|c cs IH]; intros s Hwf Hcs; [exists s; split_and!; [done..|cbn; lia|by auto]|].
  apply Forall_cons in Hcs as [Hc Hcs]. destruct (run_call_spec s c Hwf Hc) as (s1 & E1 & W1 & L1 & C1 & K1).
  assert (Hcs1 : Forall (call_ok s1) cs) by (eapply Forall_impl; [exact Hcs|intros; by eapply call_ok_later]).
  destruct (IH s1 W1 Hcs1) as (s2 & E2 & W2 & L2 & C2 & K2). cbn [run_calls calls_time foldr]. rewrite E1. cbn [obind].
  exists s2. split_and!; [done|done|by trans s1|unfold calls_time in *; lia|].
  intros w Hi Hb Hw [Hl Hls]%Forall_cons Ht. pose proof (calls_time_nonneg s1 cs Hcs1).
  apply K2; [done|done| |done|unfold calls_time in *; lia].
  apply K1; [done|done|done|]. destruct c; cbn in *; try done. unfold calls_time in *. lia.
Qed.

(** ** Dispatching *)

Section Dispatch.
Context (callback : Z -> rd_kafka_timers -> list timer_call).
(** A callback calls the timer functions with known timers and positive intervals. *)
Hypothesis callback_ok : forall id s, Forall (call_ok s) (callback id s).

(** The callbacks keep to the limits of [w] and return before [w_cmax]. *)
Definition callbacks_within (w : times) : Prop :=
  0 <= w_imax w /\ 0 <= w_bmax w /\
  forall id s, Forall (call_limits w) (callback id s) /\
    (rkts_clock s <= w_cmax w -> rkts_clock s + calls_time (callback id s) <= w_cmax w).

Definition stays_within s s' : Prop := forall w, callbacks_within w -> window w s -> window w s'.

Lemma unschedule_head s id q now : timers_wf s -> rkts_timers s = id :: q -> next s id <= now ->
  exists s1, rd_kafka_timer_unschedule s id = Ret s1 /\ timers_wf s1 /\ later s s1 /\ stays_within s s1 /\
    rkts_clock s1 = rkts_clock s /\ due s now = id :: due s1 now /\
    exists t, rkts_mem s1 !! id = Some t /\ rtmr_next t = 0.
Proof.
  intros Hwf Eq Hn. destruct (unschedule_spec s id Hwf) as (s1 & t & E1 & W1 & L1 & Et & ->); [rewrite Eq; left|].
  rewrite E1. eexists. split; [done|]. split; [done|]. split; [done|].
  split; [intros w _ Hw; by apply unschedule_window|]. split; [done|].
  pose proof (tw_nodup s Hwf) as Hd. rewrite Eq in Hd. apply NoDup_cons in Hd as [Hout _].
  assert (Eq1 : filter (fun i => i <> id) (id :: q) = q).
  { rewrite filter_cons_False by tauto. apply filter_all. by intros j Hj ->. }
  split; [|eexists; split; [apply (lookup_insert_eq (rkts_mem s))|done]].
  unfold due at 1. rewrite Eq, filter_cons_True by done. f_equal.
  unfold due. cbn [rkts_timers put_timer set_timers]. rewrite Eq1. apply filter_ext_in. intros j Hj.
  rewrite next_put, decide_False by (by intros ->). done.
Qed.

Lemma fire_spec s id q now : timers_wf s -> rkts_timers s = id :: q -> next s id <= now -> now <= rkts_clock s ->
  exists s' ds, fire_timer callback s id = Ret s' /\ timers_wf s' /\ later s s' /\ stays_within s s' /\
    due s now = id :: ds /\ sublist (due s' now) ds.
Proof.
  intros Hwf Eq Hn Hc. destruct (unschedule_head s id q now Hwf Eq Hn) as (s1 & E1 & W1 & L1 & K1 & C1 & Ed & t & Et & En).
  unfold fire_timer. rewrite E1. cbn [obind]. unfold get_timer. rewrite Et. cbn [obind].
  set (s2 := if rtmr_oneshot t then put_timer id (set_interval 0 t) s1 else s1).
  assert (timers_wf s2 /\ later s1 s2 /\ stays_within s1 s2) as (W2 & L2 & K2).
  { unfold s2. destruct (rtmr_oneshot t); [|split_and!; [done|done|by intros w]].
    destruct (put_idle s1 id t (set_interval 0 t) W1 Et En En) as (A & B & C); [done|].
    split_and!; [done..|]. intros w (Hi & _) Hw. by apply C. }
  destruct (run_calls_spec s2 (callback id s2) W2 (callback_ok id s2)) as (s3 & -> & W3 & L3 & C3 & K3). cbn [obind].
  assert (known s3 id) as Hk by (apply L3, L2; by exists t).
  assert (L13 : later s1 s3) by (by trans s2).
  assert (K13 : stays_within s1 s3).
  { intros w Hcb Hw. pose proof Hcb as (Hi & Hb & Hl). destruct (Hl id s2) as [Hl1 Hl2]. pose proof (K2 w Hcb Hw) as Hw2.
    apply K3; [done..|]. apply Hl2. by destruct Hw2 as [_ [_ ?] _ _ _]. }
  destruct (get_known s3 id Hk) as (t3 & Eg & Et3). unfold get_timer in Eg. rewrite Et3. cbn [obind].
  exists (if rd_kafka_timer_started t3 && negb (rd_kafka_timer_scheduled t3)
          then (if (rtmr_interval t3 =? 0) || negb (rkts_enabled s3) then s3 else scheduled_at s3 id t3 0) else s3), (due s1 now).
  unfold rd_kafka_timer_scheduled. destruct (Z.eqb_spec (rtmr_next t3) 0) as [En3 | En3]; cbn [negb andb].
  - rewrite andb_true_r. destruct (rd_kafka_timer_started t3).
    + destruct (schedule_spec s3 id t3 0 W3 Et3 En3) as (s4 & -> & W4 & L4 & <- & K4); [done|].
      assert (L14 : later s1 s4) by (by trans s3).
      split_and!; [done|done|by trans s1| |done|apply L14; lia].
      intros w Hcb Hw. apply K4; [by apply K13, K1|apply Hcb].
    + split_and!; [done|done|by trans s1| |done|apply L13; lia]. intros w Hcb Hw. by apply K13, K1.
  - rewrite andb_false_r. split_and!; [done|done|by trans s1| |done|apply L13; lia]. intros w Hcb Hw. by apply K13, K1.
Qed.

(** A callback that calls no timer function. *)
Definition quiet (cs : list timer_call) : Prop := Forall (fun c => exists d, c = Elapse d) cs.

Lemma run_calls_quiet s cs : quiet cs -> run_calls s cs = Ret (elapse (calls_time cs) s).
Proof.
  intros Hq. revert s. induction Hq as [|c cs [d ->] _ IH]; intros s; cbn.
  - unfold elapse. rewrite Z.add_0_r. by destruct s.
  - rewrite IH. unfold elapse. cbn. do 2 f_equal. fold (calls_time cs). lia.
Qed.

Lemma put_idle_due s id t now : timers_wf s -> next s id = 0 -> due (put_timer id t s) now = due s now.
Proof.
  intros Hwf En. apply filter_ext_in. intros j Hj. rewrite next_put, decide_False; [done|]. intros ->.
  apply (tw_queued s Hwf) in Hj as (t0 & Et & X). unfold next_of in En. by rewrite Et in En.
Qed.

Lemma fire_quiet s id q now s' ds : timers_wf s -> rkts_timers s = id :: q -> next s id <= now -> now <= rkts_clock s ->
  (forall id s, quiet (callback id s)) -> fire_timer callback s id = Ret s' -> due s now = id :: ds -> due s' now = ds.
Proof.
  intros Hwf Eq Hn Hc Hq. destruct (unschedule_head s id q now Hwf Eq Hn) as (s1 & E1 & W1 & L1 & K1 & C1 & Ed & t & Et & En).
  unfold fire_timer. rewrite E1. cbn [obind]. unfold get_timer at 1. rewrite Et. cbn [obind].
  intros Hf. rewrite Ed. intros [= <-]. assert (En1 : next s1 id = 0) by (unfold next_of; by rewrite Et).
  set (s2 := if rtmr_oneshot t then put_timer id (set_interval 0 t) s1 else s1) in Hf.
  assert (timers_wf s2 /\ due s2 now = due s1 now /\ rkts_clock s2 = rkts_clock s1 /\ exists t2, rkts_mem s2 !! id = Some t2 /\ rtmr_next t2 = 0)
    as (W2 & D2 & C2 & t2 & Et2 & En2).
  { unfold s2. destruct (rtmr_oneshot t); [|by eauto 10].
    destruct (put_idle s1 id t (set_interval 0 t) W1 Et En En) as (A & _); [done|].
    split_and!; [done|by apply put_idle_due|done|]. eexists. split; [apply (lookup_insert_eq (rkts_mem s1))|done]. }
  pose proof (calls_time_nonneg _ _ (callback_ok id s2)) as Hd.
  rewrite (run_calls_quiet s2 _ (Hq id s2)) in Hf. cbn [obind] in Hf. rewrite <- D2.
  destruct (run_call_spec s2 (Elapse (calls_time (callback id s2))) W2 Hd) as (s3 & [= <-] & W3 & _).
  set (s3 := elapse (calls_time (callback id s2)) s2) in *. unfold get_timer in Hf.
  change (rkts_mem s3) with (rkts_mem s2) in Hf. rewrite Et2 in Hf. cbn [obind] in Hf.
  destruct (_ && _); [|injection Hf as <-; done]. rewrite (schedule_eq s3 id t2 0 Et2) in Hf. injection Hf as <-.
  destruct (Z.eqb_spec (rtmr_interval t2) 0) as [|Ei]; [done|]. cbn [orb]. change (rkts_enabled s3) with (rkts_enabled s2). destruct (rkts_enabled s2); [|done]. cbn [negb].
  rewrite scheduled_at_due; auto; cbn; lia.
Qed.


Lemma dispatch_spec n s now : timers_wf s -> now <= rkts_clock s -> (length (due s now) < n)%nat ->
  exists s' fired, dispatch_loop callback n s now = Ret (s', fired) /\ timers_wf s' /\ later s s' /\
    stays_within s s' /\ sublist fired (due s now) /\
    match rkts_timers s' with [] => True | id :: _ => now < next s' id end.
Proof.
  revert s. induction n as [|n IH]; intros s Hwf Hc Hn; [lia|]. cbn [dispatch_loop].
  destruct (rkts_timers s) as [|id q] eqn:Eq.
  { exists s, []. split_and!; [done|done|done|by intros w|apply sublist_nil_l|by rewrite Eq]. }
  destruct (Z.leb_spec (next s id) now) as [Hle | Hgt].
  - destruct (fire_spec s id q now Hwf Eq Hle Hc) as (s1 & ds & -> & W1 & L1 & K1 & Ed & Hs). cbn [obind].
    destruct (IH s1 W1) as (s2 & fired & -> & W2 & L2 & K2 & Hf & Hend).
    { pose proof (lt_clock _ _ L1). lia. }
    { rewrite Ed in Hn. cbn in Hn. apply sublist_length in Hs. lia. }
    cbn [obind]. exists s2, (id :: fired). split_and!; [done|done|by trans s1|intros w ??; by apply K2, K1| |done].
    rewrite Ed. apply sublist_skip. by trans (due s1 now).
  - exists s, []. split_and!; [done|done|done|by intros w|apply sublist_nil_l|by rewrite Eq].
Qed.

Lemma nothing_due s now : by_next s (rkts_timers s) ->
  match rkts_timers s with [] => True | id :: _ => now < next s id end ->
  forall id, id ∈ rkts_timers s -> now < next s id.
Proof.
  intros Hs Hh id Hin. destruct (rkts_timers s) as [|x q]; [by apply not_elem_of_nil in Hin|].
  apply StronglySorted_inv in Hs as [_ Hf]. apply elem_of_cons in Hin as [-> | Hin]; [done|].
  eapply list.Forall_forall in Hf; [|exact Hin]. cbn in Hf. lia.
Qed.

Lemma due_nil s now : (forall id, id ∈ rkts_timers s -> now < next s id) -> due s now = [].
Proof.
  intros Hn. unfold due. destruct (filter _ _) as [|x l] eqn:E; [done|].
  assert (x ∈ filter (fun id => next s id <= now) (rkts_timers s)) as [Hx Hin]%list_elem_of_filter by (rewrite E; left).
  specialize (Hn x Hin). lia.
Qed.

Lemma dispatch_quiet w n s now s' fired : timers_wf s -> window w s -> callbacks_within w -> now <= rkts_clock s ->
  (forall id s, quiet (callback id s)) ->
  dispatch_loop callback n s now = Ret (s', fired) -> fired = due s now.
Proof.
  intros Hwf Hw Hcb Hc Hq. revert s Hwf Hw Hc fired.
  induction n as [|n IH]; intros s Hwf Hw Hc fired; [done|]. cbn [dispatch_loop].
  destruct (rkts_timers s) as [|id q] eqn:Eq; [intros [= _ <-]; unfold due; by rewrite Eq|].
  destruct (Z.leb_spec (next s id) now) as [Hle | Hgt].
  - destruct (fire_spec s id q now Hwf Eq Hle Hc) as (s1 & ds & Ef & W1 & L1 & K1 & Ed & Hs). rewrite Ef. cbn [obind].
    destruct (dispatch_loop callback n s1 now) as [[s2 f2] | |] eqn:E2; [|done|done]. cbn [obind]. intros [= -> <-].
    rewrite Ed. f_equal. rewrite <- (fire_quiet s id q now s1 ds) by done.
    apply IH; [done|by apply K1|pose proof (lt_clock _ _ L1); lia|done].
  - intros [= _ <-]. symmetry. apply due_nil, nothing_due; [apply Hw|by rewrite Eq].
Qed.

(** ** The whole run *)

Context (waiting : Z -> rd_kafka_timers -> list timer_call) (tick : rd_kafka_timers -> Z)
        (terminating : rd_kafka_timers -> bool).
(** While a thread waits, others call the timer functions as callbacks do, and
    the clock moves on between two readings. *)
Hypothesis waiting_ok : forall ms s, Forall (call_ok s) (waiting ms s).
Hypothesis tick_ok : forall s, 0 <= tick s.

Abbreviation run_loop := (timers_run_loop callback waiting tick terminating).

Lemma elapse_ok s d : timers_wf s -> 0 <= d -> timers_wf (elapse d s) /\ later s (elapse d s).
Proof.
  intros Hwf Hd. destruct (run_call_spec s (Elapse d) Hwf Hd) as (s' & [= <-] & W & L & _). done.
Qed.

Lemma run_loop_spec n s timeout now end_ fired : timers_wf s -> now <= rkts_clock s ->
  (timeout <> RD_POLL_NOWAIT -> forall s, 1 <= tick s) -> (Z.to_nat (end_ - now + 1) < n)%nat ->
  exists s' fired', run_loop n s timeout now end_ fired = Ret (s', fired ++ fired') /\ timers_wf s' /\ later s s'.
Proof.
  revert s now fired. induction n as [|n IH]; intros s now fired Hwf Hc Htick Hn; [lia|]. cbn [timers_run_loop].
  destruct (terminating s || (now >? end_)) eqn:Eend; [exists s, []; by rewrite app_nil_r|].
  apply orb_false_elim in Eend as [_ Eend]. rewrite Z.gtb_ltb in Eend. apply Z.ltb_ge in Eend.
  set (o := if timeout =? RD_POLL_NOWAIT then _ else _).
  assert (exists s1, o = Ret s1 /\ timers_wf s1 /\ later s s1) as (s1 & -> & W1 & L1).
  { unfold o. destruct (timeout =? RD_POLL_NOWAIT); [by exists s|]. destruct (_ >? 0); [|by exists s].
    destruct (run_calls_spec s (waiting (s32 (rd_kafka_timers_next s timeout ÷ 1000)) s) Hwf (waiting_ok _ s))
      as (s1 & -> & W1 & L1 & _). by exists s1. }
  cbn [obind]. destruct (elapse_ok s1 (tick s1) W1 (tick_ok s1)) as [W2 L2].
  set (s2 := elapse (tick s1) s1) in *.
  destruct (dispatch_spec (dispatch_fuel s2) s2 (rkts_clock s2) W2) as (s3 & f & -> & W3 & L3 & _); [lia| |].
  { unfold dispatch_fuel, due. pose proof (length_filter (fun id => next s2 id <= rkts_clock s2) (rkts_timers s2)). lia. }
  cbn [obind]. assert (L : later s s3) by (trans s1; [done|by trans s2]).
  destruct (timeout =? RD_POLL_NOWAIT) eqn:Enow; [by exists s3, f|]. apply Z.eqb_neq in Enow.
  destruct (IH s3 (rkts_clock s2) (fired ++ f) W3) as (s4 & f' & -> & W4 & L4).
  - by apply L3.
  - done.
  - pose proof (lt_clock _ _ L1). change (rkts_clock s2) with (rkts_clock s1 + tick s1).
    specialize (Htick Enow s1). lia.
  - exists s4, (f ++ f'). rewrite app_assoc. split_and!; [done|done|by trans s3].
Qed.
End Dispatch.

Lemma timers_init_wf mem clock : 0 < clock ->
  (forall id t, mem !! id = Some t -> rtmr_next t = 0 /\ 0 <= rtmr_interval t) -> timers_wf (rd_kafka_timers_init mem clock).
Proof.
  intros Hc Hm. split; cbn; [constructor| |by intros id t E; apply (Hm id t E) |intros id t E; by destruct (Hm id t E)|done].
  intros id. split; [by intros ?%not_elem_of_nil|]. intros (t & E & X). by destruct (Hm id t E).
Qed.

(** Destroying the timers stops them all. *)
Lemma timers_destroy_spec s : timers_wf s ->
  exists s', rd_kafka_timers_destroy s = Ret s' /\ rkts_timers s' = [] /\ timers_wf s'.
Proof.
  intros Hwf. unfold rd_kafka_timers_destroy.
  set (s0 := mk_rkts (rkts_timers s) (rkts_mem s) false (rkts_clock s)).
  assert (W0 : timers_wf s0) by (destruct Hwf; by split). clearbody s0. clear Hwf.
  remember (length (rkts_timers s0)) as n eqn:En. revert s0 W0 En.
  induction n as [n IH] using lt_wf_ind. intros s0 W0 En.
  destruct n as [|n]; cbn [timers_destroy_loop]; destruct (rkts_timers s0) as [|id q] eqn:Eq; try done; [by exists s0|].
  destruct (stop_spec s0 id W0) as (s1 & r & t & -> & W1 & _ & _ & _ & _ & _ & Eq1 & _ & _).
  { assert (id ∈ rkts_timers s0) as (t & Et & _)%(tw_queued s0 W0) by (rewrite Eq; left). by exists t. }
  cbn [obind]. assert (Hl : length (rkts_timers s1) = n).
  { pose proof (tw_nodup s0 W0) as Hd. rewrite Eq in Hd. apply NoDup_cons in Hd as [Hout _].
    rewrite Eq1, Eq, filter_cons_False by tauto. rewrite filter_all; [by injection En|]. by intros j Hj ->. }
  apply (IH n); [lia|done|done].
Qed.

(** C29. One pass over the expired timers (the inner loop of
    [rd_kafka_timers_run]), with callbacks and other threads that start, stop
    and back off timers in any way, as long as all times involved (the clock, the
    expiries, and the intervals and backoffs added to them) lie within 2^31
    microseconds of each other: the pass returns; it fires only timers
    that had expired when it began, each at most once and in order of expiry;
    it leaves nothing expired in the queue and the queue ordered.  When the
    callbacks leave the other timers alone it fires all expired timers. *)
Theorem timers_fire_due callback (w : times) s :
  (forall id s, Forall (call_ok s) (callback id s)) -> callbacks_within callback w ->
  timers_wf s -> window w s ->
  exists s' fired, dispatch_loop callback (dispatch_fuel s) s (rkts_clock s) = Ret (s', fired) /\
    sublist fired (due s (rkts_clock s)) /\
    StronglySorted (fun a b => next s a <= next s b) fired /\
    (forall id, id ∈ rkts_timers s' -> rkts_clock s < next s' id) /\
    by_next s' (rkts_timers s') /\
    ((forall id s, quiet (callback id s)) -> fired = due s (rkts_clock s)).
Proof.
  intros Hok Hcb Hwf Hw.
  destruct (dispatch_spec callback Hok (dispatch_fuel s) s (rkts_clock s) Hwf) as (s' & fired & E & W' & L & K & Hf & Hh); [lia| |].
  { unfold dispatch_fuel, due. pose proof (length_filter (fun id => next s id <= rkts_clock s) (rkts_timers s)). lia. }
  exists s', fired. pose proof (wi_sorted _ _ (K w Hcb Hw)) as Hs'. split_and!; [done|done| |by apply nothing_due|done|].
  - pose proof (sorted_filter_by (fun id => next s id <= rkts_clock s) s _ (wi_sorted _ _ Hw)) as Hd.
    clear -Hf Hd. revert Hd. unfold due in Hf. induction Hf as [|x l1 l2 Hf IH|x l1 l2 Hf IH]; intros Hd; [constructor| |].
    + apply StronglySorted_inv in Hd as [Hd Hx]. constructor; [by apply IH|].
      rewrite list.Forall_forall in *. intros y Hy. apply Hx. by eapply elem_of_sublist.
    + apply StronglySorted_inv in Hd as [Hd _]. by apply IH.
  - intros Hq. by eapply dispatch_quiet.
Qed.

(** C30. [rd_kafka_timers_run] returns, whatever callbacks and other threads do,
    as long as they start timers with positive intervals and the clock does not go
    back: a call that must not wait ([timeout] 0) after one round, even
    if the clock stands still, and any other, if the clock moves on by at least a
    microsecond between its readings, within as many rounds as
    microseconds were asked for and two.  The queue still holds exactly
    the scheduled timers. *)
Theorem timers_run_returns callback waiting tick terminating s timeout :
  (forall id s, Forall (call_ok s) (callback id s)) -> (forall ms s, Forall (call_ok s) (waiting ms s)) ->
  (forall s, 0 <= tick s) -> (0 < timeout -> forall s, 1 <= tick s) -> 0 <= timeout -> timers_wf s ->
  exists s' fired,
    rd_kafka_timers_run callback waiting tick terminating (Z.to_nat timeout + 2) s timeout = Ret (s', fired) /\
    timers_wf s' /\ rkts_clock s <= rkts_clock s'.
Proof.
  intros Hcb Hwait Hback Htick Ht Hwf. unfold rd_kafka_timers_run.
  destruct (run_loop_spec callback Hcb waiting tick terminating Hwait Hback (Z.to_nat timeout + 2) s timeout
    (rkts_clock s) (rkts_clock s + timeout) [] Hwf) as (s' & fired & E & W & L); [lia| |lia|].
  { unfold RD_POLL_NOWAIT. intros Hne. apply Htick. lia. }
  exists s', fired. split; [exact E|]. split; [done|apply L].
Qed.

(** ** Witnesses *)

Definition example_mem : gmap Z rd_kafka_timer :=
  <[1 := mk_rtmr 0 0 false 0]> (<[2 := mk_rtmr 0 0 false 0]> (<[3 := mk_rtmr 0 0 false 0]> ∅)).

Definition example_setup : list timer_call :=
  [TimerStart 1 100 false 0; TimerStart 2 50 true 0; TimerStart 3 700 false 0; Elapse 200].

Definition example_timers : rd_kafka_timers :=
  match run_calls (rd_kafka_timers_init example_mem 1000) example_setup with
  | Ret s => s
  | _ => rd_kafka_timers_init ∅ 1
  end.

Definition example_times : times := mk_times 1000 1000000 1000 1000.

Lemma example_mem_idle id t : example_mem !! id = Some t -> rtmr_next t = 0 /\ 0 <= rtmr_interval t.
Proof.
  unfold example_mem. rewrite !lookup_insert_Some, lookup_empty. by intros [[_ <-] | [_ [[_ <-] | [_ [[_ <-] | [_ [=]]]]]]].
Qed.

Lemma example_timers_ok : timers_wf example_timers /\ window example_times example_timers.
Proof.
  assert (Hwf : timers_wf (rd_kafka_timers_init example_mem 1000)) by (apply timers_init_wf; [lia | apply example_mem_idle]).
  destruct (run_calls_spec _ example_setup Hwf) as (s & E & W & _ & _ & K).
  - assert (Hk : forall id, id = 1 \/ id = 2 \/ id = 3 -> known (rd_kafka_timers_init example_mem 1000) id)
      by (intros id [-> | [-> | ->]]; exists (mk_rtmr 0 0 false 0); reflexivity).
    unfold example_setup. rewrite !Forall_cons, Forall_nil. cbn [call_ok].
    split_and!; try lia; try done; apply Hk; auto.
  - assert (Es : example_timers = s) by (unfold example_timers; by rewrite E). rewrite Es. split; [done|].
    apply K; [done..| |repeat constructor; cbn; lia|cbn; lia].
    split; [by cbn|by cbn| |by intros id ?%not_elem_of_nil|constructor].
    intros id t Et. cbn in Et. unfold example_mem in Et.
    rewrite !lookup_insert_Some, lookup_empty in Et. by destruct Et as [[_ <-] | [_ [[_ <-] | [_ [[_ <-] | [_ [=]]]]]]].
Qed.

Lemma timers_fire_due_witness :
  exists s' fired, dispatch_loop (fun _ _ => [Elapse 0]) (dispatch_fuel example_timers) example_timers (rkts_clock example_timers)
    = Ret (s', fired) /\ fired = [2; 1].
Proof.
  destruct example_timers_ok as [W V].
  destruct (timers_fire_due (fun _ _ => [Elapse 0]) example_times example_timers) as (s' & fired & E & _ & _ & _ & _ & Hq);
    [intros; repeat constructor; cbn; lia | | done | done |].
  { split; [by cbn|]. split; [by cbn|]. intros id s. split; [by repeat constructor|]. cbn. lia. }
  exists s', fired. split; [exact E|]. rewrite Hq; [by vm_compute|]. intros id s. repeat constructor. by eexists.
Defined.

Lemma timers_run_returns_witness :
  exists s' fired, rd_kafka_timers_run (fun _ _ => []) (fun _ _ => []) (fun _ => 10) (fun _ => false) 102 example_timers 100
    = Ret (s', fired) /\ timers_wf s'.
Proof.
  destruct example_timers_ok as [W V].
  destruct (timers_run_returns (fun _ _ => []) (fun _ _ => []) (fun _ => 10) (fun _ => false) example_timers 100)
    as (s' & fired & E & W' & _); [intros; constructor | intros; constructor | lia | lia | lia | done |].
  exists s', fired. split; [exact E | exact W'].
Defined.

(** The comparator returns a 64-bit difference as an [int]: a timer that
    expires more than 2^31 microseconds (36 minutes) after the others is
    queued before them.  Here the second timer expires in half a second and
    is not fired a second later, nor does the thread plan to wake for it,
    because a timer of 50 minutes is at the head of the queue. *)
Theorem timer_long_interval_starves :
  exists s, run_calls (rd_kafka_timers_init example_mem 1000)
              [TimerStart 2 500000 false 0; TimerStart 1 3000000000 false 0; Elapse 1000000] = Ret s /\
    due s (rkts_clock s) = [2] /\
    dispatch_loop (fun _ _ => []) (dispatch_fuel s) s (rkts_clock s) = Ret (s, []) /\
    rd_kafka_timers_next s 1000000 = 1000000.
Proof. eexists. split; [vm_compute; reflexivity|]. by vm_compute. Qed.
