(* ===== verification/MetadataCache.v ===== *)
(** * The topic metadata cache ([rdkafka_metadata_cache.c])

    Cache entries are heap objects linked into an AVL tree by topic name and
    into a queue for expiry.  An entry is not written after it was inserted,
    so both hold the entry itself; [rkmce_ptr] is its address.  The calls the
    cache makes to the timer component are recorded in [mc_calls], the
    broadcasts to threads waiting for a change in [mc_broadcasts].  The
    functions run under the lock of the client instance; [now] is what
    [rd_clock()] returns.  [qsort] is the C library's. *)
From Stdlib Require Import ZArith Lia.
From stdpp Require Import base numbers list gmap.
From S2P Require Import Prelude.
From S2P Require Import RdList.
From S2P Require Import Proto.
From S2P Require Import Msg.
From S2P Require Import PartList.
From S2P Require Import Avl.
From S2P Require Import Timer.

(** ** Data *)

Record rd_kafka_metadata_partition : Type := mk_mdp {
  mdp_id : Z;
  mdp_err : Z;
  mdp_leader : Z;
  mdp_replicas : list Z;
  mdp_isrs : list Z }.

Record metadata_topic : Type := mk_mtopic {
  mt_topic : list Z;
  mt_partitions : list rd_kafka_metadata_partition;
  mt_err : Z }.

Record rd_kafka_metadata_cache_entry : Type := mk_rkmce {
  rkmce_ptr : Z;
  rkmce_ts_expires : Z;
  rkmce_ts_insert : Z;
  rkmce_mtopic : metadata_topic }.

Abbreviation entry := rd_kafka_metadata_cache_entry.

Definition rkmce_topic (e : entry) : list Z := mt_topic (rkmce_mtopic e).

Definition RD_KAFKA_RESP_ERR__WAIT_CACHE : Z := -164.

Definition RD_KAFKA_METADATA_CACHE_VALID (e : entry) : bool :=
  negb (mt_err (rkmce_mtopic e) =? RD_KAFKA_RESP_ERR__WAIT_CACHE).

Record rd_kafka_metadata_cache : Type := mk_rkmc {
  rkmc_avl : rd_avl entry;
  rkmc_expiry : list entry;
  rkmc_cnt : Z;
  mc_calls : list timer_call;
  mc_broadcasts : Z;
  mc_alloc : Z }.

Abbreviation cache := rd_kafka_metadata_cache.

Definition mc_call (c : timer_call) (st : cache) : cache :=
  mk_rkmc (rkmc_avl st) (rkmc_expiry st) (rkmc_cnt st) (mc_calls st ++ [c]) (mc_broadcasts st) (mc_alloc st).

(** The expiry timer of the cache and its callback, and the query timer. *)
Definition rkmc_expiry_tmr : Z := 1.
Definition rkmc_query_tmr : Z := 2.
Definition rd_kafka_metadata_cache_evict_tmr_cb : Z := 1.

Definition rd_kafka_metadata_cache_entry_cmp (a b : entry) : Z := strcmp (rkmce_topic a) (rkmce_topic b).

Definition rd_kafka_metadata_partition_id_cmp (a b : rd_kafka_metadata_partition) : Z := s32 (mdp_id a - mdp_id b).

Definition rd_kafka_metadata_cache_propagate_changes (st : cache) : cache :=
  mk_rkmc (rkmc_avl st) (rkmc_expiry st) (rkmc_cnt st) (mc_calls st) (mc_broadcasts st + 1) (mc_alloc st).

(** ** Operations *)

Definition rd_kafka_metadata_cache_delete (st : cache) (rkmce : entry) (unlink_avl : bool) : outcome cache :=
  let! avl := if unlink_avl then rd_avl_remove_elm rd_kafka_metadata_cache_entry_cmp (rkmc_avl st) rkmce
              else Ret (rkmc_avl st) in
  assert! bool_decide (rkmce_ptr rkmce ∈ rkmce_ptr <$> rkmc_expiry st) in
  assert! rkmc_cnt st >? 0 in
  Ret (mk_rkmc avl (filter (fun e => rkmce_ptr e <> rkmce_ptr rkmce) (rkmc_expiry st)) (rkmc_cnt st - 1)
               (mc_calls st) (mc_broadcasts st) (mc_alloc st)).

(** The search skeleton has the topic name only. *)
Definition skel_entry (topic : list Z) : entry := mk_rkmce 0 0 0 (mk_mtopic topic [] 0).

Definition rd_kafka_metadata_cache_find (st : cache) (topic : list Z) (valid : bool) : option entry :=
  match rd_avl_find rd_kafka_metadata_cache_entry_cmp (rkmc_avl st) (skel_entry topic) with
  | Some rkmce => if negb valid || RD_KAFKA_METADATA_CACHE_VALID rkmce then Some rkmce else None
  | None => None
  end.

Definition rd_kafka_metadata_cache_delete_by_name (st : cache) (topic : list Z) : outcome (cache * bool) :=
  match rd_kafka_metadata_cache_find st topic true with
  | Some rkmce => let! st := rd_kafka_metadata_cache_delete st rkmce true in Ret (st, true)
  | None => Ret (st, false)
  end.

(** Delete from the head of the expiry queue while [p] holds of the head. *)
Fixpoint delete_head_loop (fuel : nat) (p : entry -> bool) (st : cache) (cnt : Z) : outcome (cache * Z) :=
  match rkmc_expiry st with
  | [] => Ret (st, cnt)
  | rkmce :: _ =>
      if p rkmce then
        match fuel with
        | O => Diverge
        | S fuel => let! st := rd_kafka_metadata_cache_delete st rkmce true in delete_head_loop fuel p st (cnt + 1)
        end
      else Ret (st, cnt)
  end.

Definition rd_kafka_metadata_cache_evict (st : cache) (now : Z) : outcome (cache * Z) :=
  let! (st, cnt) := delete_head_loop (length (rkmc_expiry st)) (fun e => rkmce_ts_expires e <=? now) st 0 in
  let st := match rkmc_expiry st with
            | rkmce :: _ => mc_call (TimerStart rkmc_expiry_tmr (rkmce_ts_expires rkmce - now) false
                                                rd_kafka_metadata_cache_evict_tmr_cb) st
            | [] => mc_call (TimerStop rkmc_expiry_tmr) st
            end in
  Ret (if cnt =? 0 then st else rd_kafka_metadata_cache_propagate_changes st, cnt).

Definition clear_uncached (p : rd_kafka_metadata_partition) : rd_kafka_metadata_partition :=
  mk_mdp (mdp_id p) (mdp_err p) (mdp_leader p) [] [].

Section Cache.
Context (qsort : (rd_kafka_metadata_partition -> rd_kafka_metadata_partition -> Z) ->
                 list rd_kafka_metadata_partition -> list rd_kafka_metadata_partition).

(** The copy of the topic's metadata an entry holds. *)
Definition cached_topic (mtopic : metadata_topic) : metadata_topic :=
  mk_mtopic (mt_topic mtopic)
    (qsort rd_kafka_metadata_partition_id_cmp (clear_uncached <$> mt_partitions mtopic)) (mt_err mtopic).

Definition rd_kafka_metadata_cache_insert (st : cache) (mtopic : metadata_topic) (now ts_expires : Z)
  : outcome (cache * entry) :=
  let rkmce := mk_rkmce (mc_alloc st) ts_expires now (cached_topic mtopic) in
  let! (avl, old) := rd_avl_insert rd_kafka_metadata_cache_entry_cmp (rkmc_avl st) rkmce in
  let st := mk_rkmc avl (rkmc_expiry st ++ [rkmce]) (rkmc_cnt st + 1) (mc_calls st) (mc_broadcasts st) (mc_alloc st + 1) in
  let! st := match old with
             | Some old => rd_kafka_metadata_cache_delete st old false
             | None => Ret st
             end in
  Ret (st, rkmce).

Definition rd_kafka_metadata_cache_purge (st : cache) : outcome cache :=
  let was_empty := match rkmc_expiry st with [] => true | _ => false end in
  let! (st, _) := delete_head_loop (length (rkmc_expiry st)) (fun _ => true) st 0 in
  let st := mc_call (TimerStop rkmc_expiry_tmr) st in
  Ret (if was_empty then st else rd_kafka_metadata_cache_propagate_changes st).

Definition rd_kafka_metadata_cache_expiry_start (st : cache) (now : Z) : cache :=
  match rkmc_expiry st with
  | rkmce :: _ => mc_call (TimerStart rkmc_expiry_tmr (rkmce_ts_expires rkmce - now) false
                                      rd_kafka_metadata_cache_evict_tmr_cb) st
  | [] => st
  end.

(** The product of two [int]s: undefined when it overflows. *)
Definition ms_to_us (ms : Z) : outcome Z :=
  assert! (- 2 ^ 31 <=? ms * 1000) && (ms * 1000 <? 2 ^ 31) in Ret (ms * 1000).

Definition rd_kafka_metadata_cache_topic_update (metadata_max_age_ms : Z) (st : cache) (mdt : metadata_topic) (now : Z)
  : outcome cache :=
  let! age := ms_to_us metadata_max_age_ms in
  let! (st, changed) := if mt_err mdt =? 0
                        then let! (st, _) := rd_kafka_metadata_cache_insert st mdt now (now + age) in Ret (st, true)
                        else rd_kafka_metadata_cache_delete_by_name st (mt_topic mdt) in
  Ret (if changed then rd_kafka_metadata_cache_propagate_changes st else st).

Fixpoint cache_insert_loop (st : cache) (mds : list metadata_topic) (now ts_expires : Z) : outcome cache :=
  match mds with
  | [] => Ret st
  | md :: mds =>
      let! (st, _) := rd_kafka_metadata_cache_insert st md now ts_expires in
      cache_insert_loop st mds now ts_expires
  end.

Definition rd_kafka_metadata_cache_update (metadata_max_age_ms : Z) (st : cache) (md : list metadata_topic)
    (abs_update : bool) (now : Z) : outcome cache :=
  let! age := ms_to_us metadata_max_age_ms in
  let! st := if abs_update then rd_kafka_metadata_cache_purge st else Ret st in
  let! st := cache_insert_loop st md now (now + age) in
  let st := rd_kafka_metadata_cache_expiry_start st now in
  Ret (if zlen md >? 0 then rd_kafka_metadata_cache_propagate_changes st else st).

Fixpoint purge_hints_loop (st : cache) (topics : list (list Z)) (cnt : Z) : outcome (cache * Z) :=
  match topics with
  | [] => Ret (st, cnt)
  | topic :: topics =>
      match rd_kafka_metadata_cache_find st topic false with
      | Some rkmce =>
          if RD_KAFKA_METADATA_CACHE_VALID rkmce then purge_hints_loop st topics cnt
          else let! st := rd_kafka_metadata_cache_delete st rkmce true in purge_hints_loop st topics (cnt + 1)
      | None => purge_hints_loop st topics cnt
      end
  end.

Definition rd_kafka_metadata_cache_purge_hints (st : cache) (topics : list (list Z)) : outcome cache :=
  let! (st, cnt) := purge_hints_loop st topics 0 in
  Ret (if cnt >? 0 then rd_kafka_metadata_cache_propagate_changes st else st).

(** [dst] is NULL or the list the added topics are appended to. *)
Fixpoint hint_loop (st : cache) (topics : list (list Z)) (dst : option (list (list Z))) (replace : bool)
    (now ts_expires cnt : Z) : outcome (cache * option (list (list Z)) * Z) :=
  match topics with
  | [] => Ret (st, dst, cnt)
  | topic :: topics =>
      let skip := match rd_kafka_metadata_cache_find st topic false with
                  | Some rkmce => negb replace &&
                      (RD_KAFKA_METADATA_CACHE_VALID rkmce || match dst with Some _ => true | None => false end)
                  | None => false
                  end in
      if skip then hint_loop st topics dst replace now ts_expires cnt
      else
        let! (st, _) := rd_kafka_metadata_cache_insert st (mk_mtopic topic [] RD_KAFKA_RESP_ERR__WAIT_CACHE) now ts_expires in
        hint_loop st topics ((fun d => d ++ [topic]) <$> dst) replace now ts_expires (cnt + 1)
  end.

Definition rd_kafka_metadata_cache_hint (socket_timeout_ms : Z) (st : cache) (topics : list (list Z))
    (dst : option (list (list Z))) (replace : bool) (now : Z) : outcome (cache * option (list (list Z)) * Z) :=
  let! timeout := ms_to_us socket_timeout_ms in
  hint_loop st topics dst replace now (now + timeout) 0.
End Cache.

(** [rd_kafka_topic_partition_list_get_topic_names] with the names in [topics]. *)
Definition get_topic_names (es : list rd_kafka_topic_partition) (topics : list (list Z)) (include_regex : bool)
  : list (list Z) :=
  foldl (fun topics p =>
           if negb include_regex && is_regex (tp_topic p) then topics
           else if existsb (fun t => strcmp (tp_topic p) t =? 0) topics then topics
           else topics ++ [tp_topic p]) topics es.

Definition rd_kafka_metadata_cache_hint_rktparlist qsort (socket_timeout_ms : Z) (st : cache)
    (rktparlist : rd_kafka_topic_partition_list) (dst : option (list (list Z))) (replace : bool) (now : Z)
  : outcome (cache * option (list (list Z)) * Z) :=
  rd_kafka_metadata_cache_hint qsort socket_timeout_ms st (get_topic_names (tpl_elems rktparlist) [] false) dst replace now.

Definition rd_kafka_metadata_cache_init : cache := mk_rkmc (rd_avl_init 0) [] 0 [] 0 1.

Definition rd_kafka_metadata_cache_destroy (st : cache) : outcome cache :=
  rd_kafka_metadata_cache_purge (mc_call (TimerStop rkmc_query_tmr) st).

Definition rd_kafka_metadata_cache_topic_get (st : cache) (topic : list Z) (valid : bool) : option metadata_topic :=
  rkmce_mtopic <$> rd_kafka_metadata_cache_find st topic valid.

(** The return value, [*mtopicp] and [*mpartp]. *)
Definition rd_kafka_metadata_cache_topic_partition_get (st : cache) (topic : list Z) (partition : Z) (valid : bool)
  : outcome (Z * option metadata_topic * option rd_kafka_metadata_partition) :=
  match rd_kafka_metadata_cache_topic_get st topic valid with
  | None => Ret (-1, None, None)
  | Some mtopic =>
      let cnt := zlen (mt_partitions mtopic) in
      let! mpart := bsearch (S (length (mt_partitions mtopic))) rd_kafka_metadata_partition_id_cmp
                      (mk_mdp partition 0 0 [] []) (Some <$> mt_partitions mtopic) 0 cnt in
      Ret (match mpart with Some _ => 1 | None => 0 end, Some mtopic, mpart)
  end.

(** The count and [*metadata_agep]. *)
Definition rd_kafka_metadata_cache_topics_count_exists (st : cache) (topics : list (list Z)) (now : Z) : Z * Z :=
  foldl (fun '(cnt, max_age) topic =>
           match rd_kafka_metadata_cache_find st topic true with
           | None => (cnt, max_age)
           | Some rkmce =>
               let age := s32 ((now - rkmce_ts_insert rkmce) ÷ 1000) in
               (cnt + 1, if age >? max_age then age else max_age)
           end) (0, -1) topics.

(** The topics copied to [dst]. *)
Definition rd_kafka_metadata_cache_topics_filter_hinted (st : cache) (src : list (list Z)) : list (list Z) :=
  filter (fun topic =>
            match rd_kafka_metadata_cache_find st topic false with
            | Some rkmce => RD_KAFKA_METADATA_CACHE_VALID rkmce
            | None => true
            end = true) src.
