(* ===== verification/MetadataCacheSpec.v ===== *)
(** * The metadata cache is an ordered map from topic names to entries

    [cache_ok st es]: the AVL tree, the expiry queue and the counter of [st]
    all describe the entries [es], listed in order of insertion.  The abstract
    cache forgets addresses; every operation of the code refines an operation
    on it. *)
From Stdlib Require Import ZArith Lia.
From stdpp Require Import base numbers list gmap sorting.
From S2P Require Import Prelude.
From S2P Require Import RdList.
From S2P Require Import RdListSpec.
From S2P Require Import Proto.
From S2P Require Import Msg.
From S2P Require Import PartList.
From S2P Require Import Avl.
From S2P Require Import AvlSpec.
From S2P Require Import Timer.
From S2P Require Import TimerSpec.
From S2P Require Import MetadataCache.

Lemma strcmp_flip a b : strcmp b a = - strcmp a b.
Proof.
  revert b. induction a as [|x a IH]; intros [|y b]; cbn; try lia. rewrite Z.eqb_sym.
  destruct (Z.eqb_spec x y); [apply IH|]. destruct (Z.ltb_spec x y), (Z.ltb_spec y x); lia.
Qed.

Lemma strcmp_trans a b c : strcmp a b < 0 -> strcmp b c < 0 -> strcmp a c < 0.
Proof.
  revert b c. induction a as [|x a IH]; intros [|y b] [|z c]; cbn; try lia.
  destruct (Z.eqb_spec x y) as [-> |], (Z.eqb_spec y z) as [-> |]; try rewrite Z.eqb_refl; try apply IH.
  - destruct (Z.eqb_spec y z); [done|]. destruct (y <? z); lia.
  - destruct (Z.eqb_spec x z); [done|]. destruct (x <? z); lia.
  - destruct (Z.ltb_spec x y), (Z.ltb_spec y z), (Z.eqb_spec x z), (Z.ltb_spec x z); lia.
Qed.

#[export] Instance entry_order : AvlOrder rkmce_topic rd_kafka_metadata_cache_entry_cmp.
Proof.
  unfold rd_kafka_metadata_cache_entry_cmp. split; intros a b.
  - apply strcmp_eq.
  - rewrite (strcmp_flip (rkmce_topic a)). lia.
  - rewrite (strcmp_flip (rkmce_topic a)). lia.
  - intros c. apply strcmp_trans.
Qed.

(** ** The invariant *)

Abbreviation topic_map := (elems_map rkmce_topic).

Record cache_ok (st : cache) (es : list entry) : Prop := mk_cache_ok {
  co_expiry : rkmc_expiry st = es;
  co_avl : avl_ok rkmce_topic rd_kafka_metadata_cache_entry_cmp (rkmc_avl st) (topic_map es);
  co_cnt : rkmc_cnt st = zlen es;
  co_topics : NoDup (rkmce_topic <$> es);
  co_ptrs : NoDup (rkmce_ptr <$> es);
  co_alloc : Forall (fun e => rkmce_ptr e < mc_alloc st) es }.

(** The entries without the one of [topic]. *)
Definition without (topic : list Z) (es : list entry) : list entry := filter (fun e => rkmce_topic e <> topic) es.

Lemma nodup_inj {A B} (f : A -> B) (l : list A) x y : NoDup (f <$> l) -> x ∈ l -> y ∈ l -> f x = f y -> x = y.
Proof.
  induction l as [|z l IH]; [by intros _ ?%not_elem_of_nil|]. cbn.
  intros [Hz Hd]%NoDup_cons [-> | Hx]%elem_of_cons [-> | Hy]%elem_of_cons E; auto.
  - destruct Hz. rewrite E. by apply list_elem_of_fmap_2.
  - destruct Hz. rewrite <- E. by apply list_elem_of_fmap_2.
Qed.

Lemma topic_map_some es e : NoDup (rkmce_topic <$> es) -> e ∈ es -> topic_map es !! rkmce_topic e = Some e.
Proof.
  intros Hd He. apply elem_of_list_to_map_1; [by rewrite <- list_fmap_compose|].
  by apply (list_elem_of_fmap_2 (fun e => (rkmce_topic e, e))).
Qed.

Lemma topic_map_elem es t e : topic_map es !! t = Some e -> e ∈ es /\ rkmce_topic e = t.
Proof. intros (e' & [= -> ->] & He)%elem_of_list_to_map_2%list_elem_of_fmap. done. Qed.

Lemma topic_map_none es t : topic_map es !! t = None -> without t es = es.
Proof.
  intros Hn%not_elem_of_list_to_map_2. apply filter_all. intros e He <-. apply Hn.
  rewrite <- list_fmap_compose. by apply (list_elem_of_fmap_2 rkmce_topic).
Qed.

Lemma topic_map_without es t : topic_map (without t es) = delete t (topic_map es).
Proof.
  unfold without. induction es as [|e es IH]; [symmetry; apply delete_empty|]. rewrite filter_cons.
  unfold elems_map in *. cbn. case_decide as E; cbn; rewrite IH.
  - by rewrite delete_insert_ne.
  - subst t. by rewrite delete_insert_eq.
Qed.

Lemma topic_map_snoc es e : topic_map (without (rkmce_topic e) es ++ [e]) = <[rkmce_topic e := e]> (topic_map es).
Proof.
  unfold elems_map at 1. rewrite fmap_app. cbn. rewrite list_to_map_snoc.
  - fold (topic_map (without (rkmce_topic e) es)). rewrite topic_map_without. apply insert_delete_eq.
  - rewrite <- list_fmap_compose. intros (x & Ex & [Hx _]%list_elem_of_filter)%list_elem_of_fmap. by apply Hx.
Qed.

Lemma without_nodup {B} (f : entry -> B) t es : NoDup (f <$> es) -> NoDup (f <$> without t es).
Proof.
  intros Hd. eapply sublist_NoDup; [exact Hd|]. apply fmap_sublist, sublist_filter.
Qed.

Lemma without_length es e : NoDup (rkmce_topic <$> es) -> e ∈ es -> zlen (without (rkmce_topic e) es) = zlen es - 1.
Proof.
  unfold without. induction es as [|x es IH]; [by intros _ ?%not_elem_of_nil|]. cbn [fmap list_fmap].
  intros [Hx Hd]%NoDup_cons He. rewrite filter_cons. apply elem_of_cons in He as [-> | He].
  - rewrite decide_False by tauto. rewrite filter_all; [cbn; lia|].
    intros y Hy E. apply Hx. rewrite <- E. by apply list_elem_of_fmap_2.
  - rewrite decide_True; [cbn; specialize (IH Hd He); lia|]. intros E. apply Hx. rewrite E. by apply list_elem_of_fmap_2.
Qed.

(** Removing an entry by address removes it by topic. *)
Lemma filter_ptr es e : NoDup (rkmce_topic <$> es) -> NoDup (rkmce_ptr <$> es) -> e ∈ es ->
  filter (fun x => rkmce_ptr x <> rkmce_ptr e) es = without (rkmce_topic e) es.
Proof.
  intros H1 H2 He. apply filter_ext_in. intros x Hx. split; intros N E; apply N.
  - by rewrite (nodup_inj rkmce_topic es x e).
  - by rewrite (nodup_inj rkmce_ptr es x e).
Qed.

Definition same_env (st st' : cache) : Prop :=
  mc_calls st' = mc_calls st /\ mc_broadcasts st' = mc_broadcasts st.

Lemma delete_ok st es e : cache_ok st es -> e ∈ es ->
  exists st', rd_kafka_metadata_cache_delete st e true = Ret st' /\ cache_ok st' (without (rkmce_topic e) es) /\
    same_env st st'.
Proof.
  intros [H1 H2 H3 H4 H5 H6] He. unfold rd_kafka_metadata_cache_delete.
  destruct (avl_remove_ok rkmce_topic _ (rkmc_avl st) _ e H2) as (avl & -> & Ha). cbn [obind].
  rewrite H1, bool_decide_eq_true_2 by (by apply list_elem_of_fmap_2).
  assert (0 < zlen es) by (destruct es; [by apply not_elem_of_nil in He | cbn; lia]).
  rewrite H3, Z.gtb_ltb, (proj2 (Z.ltb_lt _ _)) by lia. rewrite filter_ptr by done.
  eexists. split; [done|]. split; [|done]. split; cbn; [done|by rewrite topic_map_without| |by apply without_nodup..|].
  - by rewrite without_length.
  - apply list.Forall_forall. intros x [_ Hx]%list_elem_of_filter. by eapply list.Forall_forall in H6.
Qed.

Lemma find_ok st es t valid : cache_ok st es ->
  rd_kafka_metadata_cache_find st t valid
  = match topic_map es !! t with
    | Some e => if negb valid || RD_KAFKA_METADATA_CACHE_VALID e then Some e else None
    | None => None
    end.
Proof. intros Hok. unfold rd_kafka_metadata_cache_find. by rewrite (avl_find_ok rkmce_topic _ _ _ _ (co_avl _ _ Hok)). Qed.

Section Insert.
Context (qsort : (rd_kafka_metadata_partition -> rd_kafka_metadata_partition -> Z) ->
                 list rd_kafka_metadata_partition -> list rd_kafka_metadata_partition).
Abbreviation insert := (rd_kafka_metadata_cache_insert qsort).

Definition new_entry (st : cache) (mt : metadata_topic) (now ts : Z) : entry :=
  mk_rkmce (mc_alloc st) ts now (cached_topic qsort mt).

Lemma insert_ok st es mt now ts : cache_ok st es ->
  exists st', insert st mt now ts = Ret (st', new_entry st mt now ts) /\
    cache_ok st' (without (mt_topic mt) es ++ [new_entry st mt now ts]) /\ same_env st st'.
Proof.
  intros [H1 H2 H3 H4 H5 H6]. unfold rd_kafka_metadata_cache_insert. fold (new_entry st mt now ts).
  set (e := new_entry st mt now ts).
  destruct (avl_insert_ok rkmce_topic _ (rkmc_avl st) _ e H2) as (avl & -> & Ha). cbn [obind].
  change (rkmce_topic e) with (mt_topic mt) in *.
  assert (Hnew : rkmce_ptr e ∉ rkmce_ptr <$> es).
  { intros (x & Ex & Hx)%list_elem_of_fmap. eapply list.Forall_forall in H6; [|exact Hx]. cbn in *. lia. }
  assert (Hres : forall es', es' = without (mt_topic mt) es -> forall cnt, cnt = zlen es' + 1 ->
    cache_ok (mk_rkmc avl (es' ++ [e]) cnt (mc_calls st) (mc_broadcasts st) (mc_alloc st + 1)) (es' ++ [e])).
  { intros es' -> cnt ->. split; cbn [rkmc_expiry rkmc_avl rkmc_cnt mc_alloc]; [done| |by rewrite length_app; cbn; lia| | |].
    - change (mt_topic mt) with (rkmce_topic e). by rewrite topic_map_snoc.
    - rewrite fmap_app. apply NoDup_app. split; [by apply without_nodup|]. split; [|apply NoDup_singleton].
      intros t (x & -> & [Hx _]%list_elem_of_filter)%list_elem_of_fmap. cbn. by intros ?%list_elem_of_singleton.
    - rewrite fmap_app. apply NoDup_app. split; [by apply without_nodup|]. split; [|apply NoDup_singleton].
      intros t (x & -> & [_ Hx]%list_elem_of_filter)%list_elem_of_fmap. cbn. intros E%list_elem_of_singleton.
      apply Hnew. change (rkmce_ptr e) with (mc_alloc st). rewrite <- E. by apply list_elem_of_fmap_2.
    - apply Forall_app. split; [|repeat constructor; cbn; lia]. apply list.Forall_forall.
      intros x [_ Hx]%list_elem_of_filter. eapply list.Forall_forall in H6; [|exact Hx]. cbn in H6. lia. }
  destruct (topic_map es !! mt_topic mt) as [old|] eqn:Eo.
  - apply topic_map_elem in Eo as [Ho Et]. unfold rd_kafka_metadata_cache_delete. cbn [obind rkmc_expiry rkmc_cnt].
    rewrite H1, bool_decide_eq_true_2.
    2:{ rewrite fmap_app. apply elem_of_app. left. by apply list_elem_of_fmap_2. }
    rewrite H3, Z.gtb_ltb, (proj2 (Z.ltb_lt _ _)) by lia. cbn [obind]. eexists. split; [done|].
    rewrite filter_app, filter_ptr by done. rewrite filter_cons_True, filter_nil, Et.
    2:{ intros E. apply Hnew. rewrite E. by apply list_elem_of_fmap_2. }
    split; [|done]. apply Hres; [done|]. rewrite <- Et, without_length by done. lia.
  - cbn [obind]. eexists. split; [done|]. split; [|done]. rewrite H1, topic_map_none by done.
    apply Hres; [by rewrite topic_map_none | by rewrite H3].
Qed.
End Insert.

(** ** The abstract cache

    A list of entries without addresses, in order of insertion, one per topic. *)

Definition erase (e : entry) : entry := mk_rkmce 0 (rkmce_ts_expires e) (rkmce_ts_insert e) (rkmce_mtopic e).

Lemma filter_fmap_ext {A B} (f : A -> B) (P : B -> Prop) (Q : A -> Prop) `{!forall x, Decision (P x)} `{!forall x, Decision (Q x)} (l : list A) :
  (forall x, P (f x) <-> Q x) -> filter P (f <$> l) = f <$> filter Q l.
Proof.
  intros HPQ. induction l as [|x l IH]; [done|]. cbn [fmap list_fmap]. rewrite !filter_cons, IH.
  specialize (HPQ x). repeat case_decide; tauto || done.
Qed.

Lemma without_erase t es : without t (erase <$> es) = erase <$> without t es.
Proof. by apply filter_fmap_ext. Qed.

Lemma topic_map_erase t es : topic_map (erase <$> es) !! t = erase <$> (topic_map es !! t).
Proof.
  unfold elems_map. induction es as [|e es IH]; [cbn; by rewrite !lookup_empty|]. cbn.
  destruct (decide (rkmce_topic e = t)) as [<- | N].
  - by rewrite (lookup_insert_eq _ (rkmce_topic e)), (lookup_insert_eq _ (rkmce_topic e)).
  - rewrite (lookup_insert_ne _ (rkmce_topic e)), (lookup_insert_ne _ (rkmce_topic e)) by done. exact IH.
Qed.

Fixpoint drop_while (p : entry -> bool) (es : list entry) : list entry :=
  match es with
  | [] => []
  | e :: es' => if p e then drop_while p es' else es
  end.

Lemma drop_while_erase p es : (forall e, p (erase e) = p e) -> drop_while p (erase <$> es) = erase <$> drop_while p es.
Proof. intros Hp. induction es as [|e es IH]; cbn; [done|]. rewrite Hp. by destruct (p e). Qed.

(** Deleting from the head of the queue. *)
Lemma delete_head_ok p n st es cnt : cache_ok st es -> (length es <= n)%nat ->
  exists st', delete_head_loop n p st cnt = Ret (st', cnt + (zlen es - zlen (drop_while p es))) /\
    cache_ok st' (drop_while p es) /\ same_env st st'.
Proof.
  revert st es cnt. induction n as [|n IH]; intros st es cnt Hok Hn; pose proof (co_expiry _ _ Hok) as E;
    destruct es as [|e es]; cbn [length] in Hn; try lia; cbn [delete_head_loop drop_while]; rewrite E;
    try (exists st; split; [do 2 f_equal; cbn; lia|done]).
  destruct (p e); [|exists st; split; [do 2 f_equal; lia|done]].
  destruct (delete_ok st (e :: es) e Hok) as (st1 & -> & Hok1 & Hs1); [left|]. cbn [obind].
  assert (Ew : without (rkmce_topic e) (e :: es) = es).
  { pose proof (co_topics _ _ Hok) as [Hx _]%NoDup_cons. unfold without. rewrite filter_cons_False by tauto.
    apply filter_all. intros x Hx' Et. apply Hx. rewrite <- Et. by apply list_elem_of_fmap_2. }
  rewrite Ew in Hok1. destruct (IH st1 es (cnt + 1) Hok1) as (st2 & -> & Hok2 & Hs2); [lia|].
  exists st2. split; [do 2 f_equal; cbn [length]; lia|]. split; [done|]. destruct Hs1, Hs2. split; congruence.
Qed.

Section Refine.
Context (qsort : (rd_kafka_metadata_partition -> rd_kafka_metadata_partition -> Z) ->
                 list rd_kafka_metadata_partition -> list rd_kafka_metadata_partition).
(** [metadata.max.age.ms] and [socket.timeout.ms], such that the products with
    1000 do not overflow an [int]. *)
Context (max_age socket_timeout : Z).
Hypothesis max_age_ok : 0 <= max_age < 2147483.
Hypothesis socket_timeout_ok : 0 <= socket_timeout < 2147483.

Definition abs_insert (mt : metadata_topic) (now ts : Z) (A : list entry) : list entry :=
  without (mt_topic mt) A ++ [mk_rkmce 0 ts now (cached_topic qsort mt)].

Inductive cache_op : Type :=
| CTopicUpdate (mdt : metadata_topic)
| CUpdate (mds : list metadata_topic) (abs_update : bool)
| CHint (topics : list (list Z)) (dst : option (list (list Z))) (replace : bool)
| CPurgeHints (topics : list (list Z))
| CEvict
| CExpiryStart
| CFind (topic : list Z) (valid : bool)
| CFilterHinted (src : list (list Z)).

Inductive cache_result : Type :=
| RDone
| RCount (n : Z)
| RFound (e : option entry)
| RHinted (dst : option (list (list Z))) (n : Z)
| RTopics (ts : list (list Z)).

Definition run_cache_op (o : cache_op) (now : Z) (st : cache) : outcome (cache * cache_result) :=
  match o with
  | CTopicUpdate mdt => let! st := rd_kafka_metadata_cache_topic_update qsort max_age st mdt now in Ret (st, RDone)
  | CUpdate mds abs_update => let! st := rd_kafka_metadata_cache_update qsort max_age st mds abs_update now in Ret (st, RDone)
  | CHint topics dst replace =>
      let! (st, dst, n) := rd_kafka_metadata_cache_hint qsort socket_timeout st topics dst replace now in Ret (st, RHinted dst n)
  | CPurgeHints topics => let! st := rd_kafka_metadata_cache_purge_hints st topics in Ret (st, RDone)
  | CEvict => let! (st, n) := rd_kafka_metadata_cache_evict st now in Ret (st, RCount n)
  | CExpiryStart => Ret (rd_kafka_metadata_cache_expiry_start st now, RDone)
  | CFind topic valid => Ret (st, RFound (erase <$> rd_kafka_metadata_cache_find st topic valid))
  | CFilterHinted src => Ret (st, RTopics (rd_kafka_metadata_cache_topics_filter_hinted st src))
  end.

Definition is_hint (e : entry) : bool := negb (RD_KAFKA_METADATA_CACHE_VALID e).

Definition abs_find (A : list entry) (t : list Z) (valid : bool) : option entry :=
  match topic_map A !! t with
  | Some e => if valid && is_hint e then None else Some e
  | None => None
  end.

(** A topic is hinted unless it is known, or being queried already and the
    caller collects what to query. *)
Definition abs_hint (topic : list Z) (dst : option (list (list Z))) (replace : bool) (A : list entry) : bool :=
  replace || match topic_map A !! topic with
             | Some e => is_hint e && match dst with Some _ => false | None => true end
             | None => true
             end.

Fixpoint abs_hints (topics : list (list Z)) (dst : option (list (list Z))) (replace : bool) (now ts cnt : Z) (A : list entry)
  : list entry * option (list (list Z)) * Z :=
  match topics with
  | [] => (A, dst, cnt)
  | t :: topics =>
      if abs_hint t dst replace A
      then abs_hints topics ((fun d => d ++ [t]) <$> dst) replace now ts (cnt + 1)
             (abs_insert (mk_mtopic t [] RD_KAFKA_RESP_ERR__WAIT_CACHE) now ts A)
      else abs_hints topics dst replace now ts cnt A
  end.

Definition abs_step (o : cache_op) (now : Z) (A : list entry) : list entry * cache_result :=
  match o with
  | CTopicUpdate mdt =>
      (if mt_err mdt =? 0 then abs_insert mdt now (now + max_age * 1000) A
       else match abs_find A (mt_topic mdt) true with Some _ => without (mt_topic mdt) A | None => A end, RDone)
  | CUpdate mds abs_update =>
      (foldl (fun A mt => abs_insert mt now (now + max_age * 1000) A) (if abs_update then [] else A) mds, RDone)
  | CHint topics dst replace =>
      let '(A, dst, n) := abs_hints topics dst replace now (now + socket_timeout * 1000) 0 A in (A, RHinted dst n)
  | CPurgeHints topics => (filter (fun e => ~ (rkmce_topic e ∈ topics /\ is_hint e = true)) A, RDone)
  | CEvict => let A' := drop_while (fun e => rkmce_ts_expires e <=? now) A in (A', RCount (zlen A - zlen A'))
  | CExpiryStart => (A, RDone)
  | CFind topic valid => (A, RFound (abs_find A topic valid))
  | CFilterHinted src =>
      (A, RTopics (filter (fun t => match topic_map A !! t with Some e => is_hint e | None => false end = false) src))
  end.

(** The cache represents an abstract cache. *)
Definition represents (st : cache) (A : list entry) : Prop := exists es, cache_ok st es /\ A = erase <$> es.

Lemma same_ok st st' es : cache_ok st es ->
  rkmc_avl st' = rkmc_avl st -> rkmc_expiry st' = rkmc_expiry st -> rkmc_cnt st' = rkmc_cnt st -> mc_alloc st' = mc_alloc st ->
  cache_ok st' es.
Proof. intros [H1 H2 H3 H4 H5 H6] E1 E2 E3 E4. split; try congruence; by rewrite ?E1, ?E4. Qed.

Lemma call_ok' c st es : cache_ok st es -> cache_ok (mc_call c st) es.
Proof. intros Hok. by eapply same_ok. Qed.

Lemma propagate_ok st es : cache_ok st es -> cache_ok (rd_kafka_metadata_cache_propagate_changes st) es.
Proof. intros Hok. by eapply same_ok. Qed.

Lemma expiry_start_ok now st es : cache_ok st es -> cache_ok (rd_kafka_metadata_cache_expiry_start st now) es.
Proof. intros Hok. unfold rd_kafka_metadata_cache_expiry_start. destruct (rkmc_expiry st); [done|by apply call_ok']. Qed.

Lemma insert_rep st A mt now ts : represents st A ->
  exists st' e, rd_kafka_metadata_cache_insert qsort st mt now ts = Ret (st', e) /\ represents st' (abs_insert mt now ts A).
Proof.
  intros (es & Hok & ->). destruct (insert_ok qsort st es mt now ts Hok) as (st' & E & Hok' & _).
  exists st', (new_entry qsort st mt now ts). split; [done|]. eexists. split; [exact Hok'|].
  unfold abs_insert. rewrite without_erase, fmap_app. done.
Qed.

Lemma find_rep st A t valid : represents st A -> erase <$> rd_kafka_metadata_cache_find st t valid = abs_find A t valid.
Proof.
  intros (es & Hok & ->). rewrite (find_ok _ _ _ _ Hok). unfold abs_find. rewrite topic_map_erase.
  destruct (topic_map es !! t) as [e|]; [|done]. cbn. unfold is_hint. change (RD_KAFKA_METADATA_CACHE_VALID (erase e))
    with (RD_KAFKA_METADATA_CACHE_VALID e). by destruct valid, (RD_KAFKA_METADATA_CACHE_VALID e).
Qed.

Lemma ms_to_us_ok ms : 0 <= ms < 2147483 -> ms_to_us ms = Ret (ms * 1000).
Proof. intros. unfold ms_to_us. rewrite (proj2 (Z.leb_le _ _)), (proj2 (Z.ltb_lt _ _)) by lia. done. Qed.

Lemma insert_loop_rep mds st A now ts : represents st A ->
  exists st', cache_insert_loop qsort st mds now ts = Ret st' /\
    represents st' (foldl (fun A mt => abs_insert mt now ts A) A mds).
Proof.
  revert st A. induction mds as [|mt mds IH]; intros st A Hr; [by exists st|]. cbn [cache_insert_loop foldl].
  destruct (insert_rep st A mt now ts Hr) as (st1 & e & -> & Hr1). cbn [obind]. by apply IH.
Qed.

Lemma purge_rep st A : represents st A -> exists st', rd_kafka_metadata_cache_purge st = Ret st' /\ represents st' [].
Proof.
  intros (es & Hok & _). unfold rd_kafka_metadata_cache_purge. pose proof (co_expiry _ _ Hok) as E.
  destruct (delete_head_ok (fun _ => true) (length (rkmc_expiry st)) st es 0 Hok) as (st1 & -> & Hok1 & _); [by rewrite E|].
  assert (Hd : drop_while (fun _ => true) es = []) by (clear; induction es; done). rewrite Hd in Hok1.
  cbn [obind]. eexists. split; [done|]. exists []. split; [|done].
  destruct (rkmc_expiry st); [|apply propagate_ok]; by apply call_ok'.
Qed.

Lemma evict_rep now st A : represents st A ->
  exists st', rd_kafka_metadata_cache_evict st now
    = Ret (st', zlen A - zlen (drop_while (fun e => rkmce_ts_expires e <=? now) A)) /\
    represents st' (drop_while (fun e => rkmce_ts_expires e <=? now) A).
Proof.
  intros (es & Hok & ->). unfold rd_kafka_metadata_cache_evict. pose proof (co_expiry _ _ Hok) as E.
  set (p := fun e : entry => rkmce_ts_expires e <=? now).
  destruct (delete_head_ok p (length (rkmc_expiry st)) st es 0 Hok) as (st1 & -> & Hok1 & _); [by rewrite E|].
  cbn [obind]. rewrite drop_while_erase, !length_fmap by done. eexists. split; [done|]. exists (drop_while p es). split; [|done].
  assert (Hok2 : cache_ok (match rkmc_expiry st1 with
    | rkmce :: _ => mc_call (TimerStart rkmc_expiry_tmr (rkmce_ts_expires rkmce - now) false rd_kafka_metadata_cache_evict_tmr_cb) st1
    | [] => mc_call (TimerStop rkmc_expiry_tmr) st1 end) (drop_while p es))
    by (destruct (rkmc_expiry st1); by apply call_ok').
  destruct (_ =? 0); [done|by apply propagate_ok].
Qed.

Lemma purge_hints_rep topics st es cnt : cache_ok st es ->
  exists st' n, purge_hints_loop st topics cnt = Ret (st', n) /\
    cache_ok st' (filter (fun e => ~ (rkmce_topic e ∈ topics /\ is_hint e = true)) es).
Proof.
  revert st es cnt. induction topics as [|t topics IH]; intros st es cnt Hok.
  { exists st, cnt. split; [done|]. rewrite filter_all; [done|]. by intros e _ [?%not_elem_of_nil _]. }
  cbn [purge_hints_loop]. rewrite (find_ok _ _ _ _ Hok). cbn [negb orb].
  assert (Hskip : (forall e, e ∈ es -> rkmce_topic e = t -> is_hint e = false) ->
    filter (fun e => ~ (rkmce_topic e ∈ t :: topics /\ is_hint e = true)) es
    = filter (fun e => ~ (rkmce_topic e ∈ topics /\ is_hint e = true)) es).
  { intros Hs. apply filter_ext_in. intros e He. rewrite elem_of_cons. specialize (Hs e He).
    destruct (is_hint e); [|by split; intros _ [_ ?]]. split; intros N [Ht _]; apply N; (split; [|done]); [by right|].
    destruct Ht as [Et | Ht]; [by specialize (Hs Et)|done]. }
  destruct (topic_map es !! t) as [e|] eqn:Et.
  - apply topic_map_elem in Et as [He Et]. destruct (RD_KAFKA_METADATA_CACHE_VALID e) eqn:Ev.
    + destruct (IH st es cnt Hok) as (st1 & n & -> & Hok1). exists st1, n. split; [done|]. rewrite Hskip; [done|].
      intros x Hx Ex. rewrite (nodup_inj rkmce_topic es x e (co_topics _ _ Hok) Hx He) by congruence.
      unfold is_hint. by rewrite Ev.
    + destruct (delete_ok st es e Hok He) as (st1 & -> & Hok1 & _). cbn [obind].
      destruct (IH st1 _ (cnt + 1) Hok1) as (st2 & n & -> & Hok2). exists st2, n. split; [done|].
      rewrite Et in Hok2. unfold without in Hok2. rewrite list_filter_filter in Hok2.
      rewrite (filter_ext_in _ (fun a => ~ (rkmce_topic a ∈ topics /\ is_hint a = true) /\ rkmce_topic a <> t)); [done|].
      intros x Hx. rewrite elem_of_cons. split; [|intros [N1 N2] [[? | ?] ?]; [done|by apply N1]].
      intros N. split; [intros [? ?]; apply N; by auto|]. intros Ex. apply N. split; [by left|].
      rewrite (nodup_inj rkmce_topic es x e (co_topics _ _ Hok) Hx He) by congruence. unfold is_hint. by rewrite Ev.
  - destruct (IH st es cnt Hok) as (st1 & n & -> & Hok1). exists st1, n. split; [done|]. rewrite Hskip; [done|].
    intros x Hx Ex. rewrite <- Ex, topic_map_some in Et by (done || apply Hok). done.
Qed.

Lemma hint_rep topics st A dst replace now ts cnt : represents st A ->
  exists st', hint_loop qsort st topics dst replace now ts cnt
    = Ret (st', (abs_hints topics dst replace now ts cnt A).1.2, (abs_hints topics dst replace now ts cnt A).2) /\
    represents st' (abs_hints topics dst replace now ts cnt A).1.1.
Proof.
  revert st A dst cnt. induction topics as [|t topics IH]; intros st A dst cnt Hr; [by exists st|].
  cbn [hint_loop abs_hints]. set (skip := match rd_kafka_metadata_cache_find st t false with Some _ => _ | None => false end).
  assert (Es : skip = negb (abs_hint t dst replace A)).
  { unfold skip, abs_hint. destruct Hr as (es & Hok & ->). rewrite (find_ok _ _ _ _ Hok), topic_map_erase. cbn [negb orb].
    destruct (topic_map es !! t) as [e|]; cbn; [|by destruct replace]. unfold is_hint.
    change (RD_KAFKA_METADATA_CACHE_VALID (erase e)) with (RD_KAFKA_METADATA_CACHE_VALID e).
    by destruct replace, (RD_KAFKA_METADATA_CACHE_VALID e), dst. }
  rewrite Es. destruct (abs_hint t dst replace A); cbn [negb]; [|by apply IH].
  destruct (insert_rep st A (mk_mtopic t [] RD_KAFKA_RESP_ERR__WAIT_CACHE) now ts Hr) as (st1 & e & -> & Hr1).
  cbn [obind]. by apply IH.
Qed.

Lemma cache_op_rep o now st A : represents st A ->
  exists st', run_cache_op o now st = Ret (st', (abs_step o now A).2) /\ represents st' (abs_step o now A).1.
Proof.
  intros Hr. destruct o as [mdt | mds ab | topics dst replace | topics | | | t valid | src]; cbn [run_cache_op abs_step fst snd].
  - unfold rd_kafka_metadata_cache_topic_update. rewrite ms_to_us_ok by done. cbn [obind].
    destruct (mt_err mdt =? 0).
    + destruct (insert_rep st A mdt now (now + max_age * 1000) Hr) as (st1 & e & -> & es & Hok & E). cbn [obind].
      eexists. split; [done|]. exists es. split; [by apply propagate_ok|done].
    + rewrite <- (find_rep _ _ _ _ Hr). unfold rd_kafka_metadata_cache_delete_by_name.
      destruct (rd_kafka_metadata_cache_find st (mt_topic mdt) true) as [e|] eqn:Ef; [|by exists st].
      destruct Hr as (es & Hok & ->). rewrite (find_ok _ _ _ _ Hok) in Ef.
      destruct (topic_map es !! mt_topic mdt) as [e'|] eqn:Et; [|done]. apply topic_map_elem in Et as [He Et].
      destruct (_ || _); [injection Ef as ->|done].
      destruct (delete_ok st es e Hok He) as (st1 & -> & Hok1 & _). cbn [obind fmap option_fmap option_map].
      eexists. split; [done|]. exists (without (mt_topic mdt) es). rewrite Et in Hok1.
      split; [by apply propagate_ok|by rewrite without_erase].
  - unfold rd_kafka_metadata_cache_update. rewrite ms_to_us_ok by done. cbn [obind].
    assert (exists st0, (if ab then rd_kafka_metadata_cache_purge st else Ret st) = Ret st0 /\
      represents st0 (if ab then [] else A)) as (st0 & -> & Hr0)
      by (destruct ab; [by eapply purge_rep | by exists st]).
    cbn [obind]. destruct (insert_loop_rep mds st0 _ now (now + max_age * 1000) Hr0) as (st1 & -> & es & Hok & E).
    cbn [obind]. eexists. split; [done|]. exists es. split; [|done].
    destruct (_ >? 0); [apply propagate_ok|]; by apply expiry_start_ok.
  - unfold rd_kafka_metadata_cache_hint. rewrite ms_to_us_ok by done. cbn [obind].
    destruct (hint_rep topics st A dst replace now (now + socket_timeout * 1000) 0 Hr) as (st1 & -> & Hr1). cbn [obind].
    destruct (abs_hints _ _ _ _ _ _ _) as [[A' dst'] n]. by exists st1.
  - destruct Hr as (es & Hok & ->). unfold rd_kafka_metadata_cache_purge_hints.
    destruct (purge_hints_rep topics st es 0 Hok) as (st1 & n & -> & Hok1). cbn [obind]. eexists. split; [done|].
    eexists. split; [destruct (n >? 0); [by apply propagate_ok|done]|]. by apply filter_fmap_ext.
  - destruct (evict_rep now st A Hr) as (st1 & -> & Hr1). cbn [obind]. by exists st1.
  - destruct Hr as (es & Hok & ->). eexists. split; [done|]. exists es. split; [by apply expiry_start_ok|done].
  - exists st. by rewrite (find_rep _ _ _ _ Hr).
  - exists st. split; [|done]. do 3 f_equal. apply filter_ext_in. intros t _.
    destruct Hr as (es & Hok & ->). rewrite (find_ok _ _ _ _ Hok), topic_map_erase. cbn [negb orb].
    destruct (topic_map es !! t) as [e|]; [|done]. cbn. unfold is_hint.
    change (RD_KAFKA_METADATA_CACHE_VALID (erase e)) with (RD_KAFKA_METADATA_CACHE_VALID e).
    by destruct (RD_KAFKA_METADATA_CACHE_VALID e).
Qed.

Fixpoint run_cache_ops (ops : list (cache_op * Z)) (st : cache) : outcome (cache * list cache_result) :=
  match ops with
  | [] => Ret (st, [])
  | (o, now) :: ops =>
      let! (st, r) := run_cache_op o now st in
      let! (st, rs) := run_cache_ops ops st in Ret (st, r :: rs)
  end.

Fixpoint abs_steps (ops : list (cache_op * Z)) (A : list entry) : list entry * list cache_result :=
  match ops with
  | [] => (A, [])
  | (o, now) :: ops => let (A, r) := abs_step o now A in let (A, rs) := abs_steps ops A in (A, r :: rs)
  end.

Lemma init_rep : represents rd_kafka_metadata_cache_init [].
Proof. exists []. split; [|done]. split; [done|apply avl_init_ok|done|constructor..]. Qed.

Lemma cache_ops_rep ops st A : represents st A ->
  exists st', run_cache_ops ops st = Ret (st', (abs_steps ops A).2) /\ represents st' (abs_steps ops A).1.
Proof.
  revert st A. induction ops as [|[o now] ops IH]; intros st A Hr; [by exists st|]. cbn [run_cache_ops abs_steps].
  destruct (cache_op_rep o now st A Hr) as (st1 & -> & Hr1). cbn [obind].
  destruct (abs_step o now A) as [A1 r]. cbn [fst snd] in *.
  destruct (IH st1 A1 Hr1) as (st2 & -> & Hr2). destruct (abs_steps ops A1) as [A2 rs]. by exists st2.
Qed.
End Refine.

(** C27. With [metadata.max.age.ms] and [socket.timeout.ms] below 2147483 (35
    minutes; above that the conversion to microseconds overflows an [int]), any sequence of
    cache operations, at any times, returns (no entry is
    unlinked twice and the entry count never underflows) and answers as the
    abstract cache does: an ordered list of entries with one entry per topic.
    At the end the AVL tree holds exactly the entries of the expiry queue,
    keyed by topic, and the counter is their number. *)
Theorem cache_refines qsort max_age socket_timeout ops :
  0 <= max_age < 2147483 -> 0 <= socket_timeout < 2147483 ->
  exists st, run_cache_ops qsort max_age socket_timeout ops rd_kafka_metadata_cache_init
      = Ret (st, (abs_steps qsort max_age socket_timeout ops []).2) /\
    erase <$> rkmc_expiry st = (abs_steps qsort max_age socket_timeout ops []).1 /\
    NoDup (rkmce_topic <$> rkmc_expiry st) /\
    topic_map (avl_elems (ravl_root (rkmc_avl st))) = topic_map (rkmc_expiry st) /\
    rkmc_cnt st = zlen (rkmc_expiry st).
Proof.
  intros H1 H2. destruct (cache_ops_rep qsort max_age socket_timeout H1 H2 ops _ _ init_rep) as (st & E & es & Hok & Ea).
  exists st. rewrite E, Ea. destruct Hok as [-> [_ _ Hm] Hc Ht _ _]. done.
Qed.

(** ** Partition lookup *)

Lemma partition_cmp_exact a b : 0 <= mdp_id a < 2 ^ 31 -> 0 <= mdp_id b < 2 ^ 31 ->
  rd_kafka_metadata_partition_id_cmp a b = mdp_id a - mdp_id b.
Proof. intros. unfold rd_kafka_metadata_partition_id_cmp. apply swrap_id; [lia|]. unfold s_ok. lia. Qed.

(** [qsort] sorts. *)
Class Sorts {X : Type} (qsort : (X -> X -> Z) -> list X -> list X) : Prop := {
  qsort_perm : forall cmp l, Permutation (qsort cmp l) l;
  qsort_sorted : forall cmp l, (forall a b c, a ∈ l -> b ∈ l -> c ∈ l -> cmp a b <= 0 -> cmp b c <= 0 -> cmp a c <= 0) ->
    (forall a b, a ∈ l -> b ∈ l -> cmp a b <= 0 \/ cmp b a <= 0) ->
    StronglySorted (fun a b => cmp a b <= 0) (qsort cmp l) }.

(** The entry of a topic that was just put into the cache is found, and a
    partition lookup in it (a binary search in an array sorted by a
    subtraction) finds exactly the partitions of the metadata, sparse or not:
    the result is 1 and the partition, or 0 when the topic has no partition
    with that id. *)
Theorem cache_partition_lookup qsort (Hq : Sorts qsort) st es mt now ts partition :
  cache_ok st es -> 0 <= partition < 2 ^ 31 -> Forall (fun p => 0 <= mdp_id p < 2 ^ 31) (mt_partitions mt) ->
  exists st' e r mpart, rd_kafka_metadata_cache_insert qsort st mt now ts = Ret (st', e) /\
    rd_kafka_metadata_cache_topic_partition_get st' (mt_topic mt) partition false
      = Ret (r, Some (cached_topic qsort mt), mpart) /\
    match mpart with
    | Some p => r = 1 /\ mdp_id p = partition /\ exists q, q ∈ mt_partitions mt /\ p = clear_uncached q
    | None => r = 0 /\ forall q, q ∈ mt_partitions mt -> mdp_id q <> partition
    end.
Proof.
  intros Hok Hp Hids. destruct (insert_ok qsort st es mt now ts Hok) as (st' & E & Hok' & _).
  set (ps := qsort rd_kafka_metadata_partition_id_cmp (clear_uncached <$> mt_partitions mt)).
  assert (Hperm : Permutation ps (clear_uncached <$> mt_partitions mt)) by apply qsort_perm.
  assert (Hin : forall p, p ∈ ps <-> exists q, q ∈ mt_partitions mt /\ p = clear_uncached q)
    by (intros p; rewrite Hperm, list_elem_of_fmap; split; intros (q & ? & ?); by exists q).
  assert (Hrange : forall p, p ∈ ps -> 0 <= mdp_id p < 2 ^ 31)
    by (intros p (q & Hq' & ->)%Hin; rewrite list.Forall_forall in Hids; apply (Hids q Hq')).
  assert (Hsorted : StronglySorted (fun a b => rd_kafka_metadata_partition_id_cmp a b <= 0) ps).
  { apply qsort_sorted.
    - intros a b c. rewrite <- Hperm. intros Ha%Hrange Hb%Hrange Hc%Hrange. rewrite !partition_cmp_exact by done. lia.
    - intros a b. rewrite <- Hperm. intros Ha%Hrange Hb%Hrange. rewrite !partition_cmp_exact by done. lia. }
  set (skel := mk_mdp partition 0 0 [] []).
  assert (Hplaced : placed rd_kafka_metadata_partition_id_cmp skel ps).
  { intros i j x y Hij Hx Hy. assert (Hle : rd_kafka_metadata_partition_id_cmp x y <= 0).
    { rewrite <- (take_drop_middle ps i x Hx) in Hsorted, Hy.
      apply StronglySorted_app_1_r, StronglySorted_inv in Hsorted as [_ Hf]. eapply Forall_lookup_1 in Hf; [exact Hf|].
      pose proof (lookup_lt_Some _ _ _ Hx). rewrite lookup_app_r in Hy by (rewrite length_take; lia).
      rewrite length_take_le in Hy by lia. replace (j - i)%nat with (S (j - i - 1))%nat in Hy by lia. exact Hy. }
    pose proof (Hrange x (list_elem_of_lookup_2 _ _ _ Hx)). pose proof (Hrange y (list_elem_of_lookup_2 _ _ _ Hy)).
    rewrite !partition_cmp_exact in * by done. lia. }
  destruct (bsearch_spec rd_kafka_metadata_partition_id_cmp skel ps [] (S (length ps)) 0 (zlen ps)) as (mpart & Eb & Hm);
    [done|lia|lia|lia|lia|intros i x Hx; apply lookup_lt_Some in Hx; lia|].
  rewrite app_nil_r in Eb.
  exists st', (new_entry qsort st mt now ts), (match mpart with Some _ => 1 | None => 0 end), mpart. split; [done|].
  split.
  - unfold rd_kafka_metadata_cache_topic_partition_get, rd_kafka_metadata_cache_topic_get.
    rewrite (find_ok _ _ _ _ Hok'). change (mt_topic mt) with (rkmce_topic (new_entry qsort st mt now ts)).
    rewrite topic_map_snoc, lookup_insert_eq. cbn [negb orb].
    change (rkmce_mtopic <$> Some (new_entry qsort st mt now ts)) with (Some (cached_topic qsort mt)). cbv match beta zeta.
    change (mt_partitions (cached_topic qsort mt)) with ps. unfold skel in Eb. by rewrite Eb.
  - destruct mpart as [p|].
    + destruct Hm as [Hpin Hc]. rewrite partition_cmp_exact in Hc by (done || by apply Hrange). cbn in Hc.
      split; [done|]. split; [lia|by apply Hin].
    + split; [done|]. intros q Hq' Eq. assert (Hc : clear_uncached q ∈ ps) by (apply Hin; eauto).
      apply (Hm _ Hc). rewrite partition_cmp_exact by (done || by apply Hrange). cbn. lia.
Qed.

(** ** Witnesses *)

Fixpoint isort_insert {X} (cmp : X -> X -> Z) (x : X) (l : list X) : list X :=
  match l with
  | [] => [x]
  | y :: l' => if cmp x y <=? 0 then x :: l else y :: isort_insert cmp x l'
  end.

Definition isort {X} (cmp : X -> X -> Z) (l : list X) : list X := foldr (isort_insert cmp) [] l.

Lemma isort_insert_perm {X} cmp (x : X) l : Permutation (isort_insert cmp x l) (x :: l).
Proof. induction l as [|y l IH]; cbn; [done|]. destruct (_ <=? 0); [done|]. rewrite IH. apply perm_swap. Qed.

Lemma isort_insert_sorted {X} (cmp : X -> X -> Z) x (k : list X) :
  (forall y z, y ∈ k -> z ∈ k -> cmp x y <= 0 -> cmp y z <= 0 -> cmp x z <= 0) ->
  (forall y, y ∈ k -> cmp x y <= 0 \/ cmp y x <= 0) ->
  StronglySorted (fun a b => cmp a b <= 0) k -> StronglySorted (fun a b => cmp a b <= 0) (isort_insert cmp x k).
Proof.
  intros Ht Htot. induction 1 as [|y k Hs IH Hy]; cbn; [repeat constructor|].
  destruct (Z.leb_spec (cmp x y) 0) as [Hle | Hgt].
  - constructor; [by constructor|]. constructor; [done|]. apply list.Forall_forall. intros z Hz.
    eapply list.Forall_forall in Hy; [|exact Hz]. eapply Ht; [left|by right|done|done].
  - constructor; [apply IH; intros; [eapply Ht | apply Htot]; try eassumption; by right|].
    rewrite isort_insert_perm. constructor; [|done]. destruct (Htot y) as [? | ?]; [left|lia|done].
Qed.

#[export] Instance isort_sorts {X} : Sorts (@isort X).
Proof.
  assert (Hp : forall (cmp : X -> X -> Z) l, Permutation (isort cmp l) l).
  { intros cmp l. induction l as [|x l IH]; cbn; [done|]. by rewrite isort_insert_perm, IH. }
  split; [done|]. intros cmp l Ht Htot. induction l as [|x l IH]; [constructor|].
  change (isort cmp (x :: l)) with (isort_insert cmp x (isort cmp l)). apply isort_insert_sorted.
  - intros y z. rewrite Hp. intros Hy Hz. apply Ht; [left|by right|by right].
  - intros y. rewrite Hp. intros Hy. apply Htot; [left|by right].
  - apply IH; [intros a b c Ha Hb Hc; apply Ht; by right | intros a b Ha Hb; apply Htot; by right].
Qed.

Definition topic_a : list Z := [97].
Definition topic_b : list Z := [98].
Definition example_mt : metadata_topic :=
  mk_mtopic topic_a [mk_mdp 7 0 1 [1; 2] [1]; mk_mdp 0 0 2 [2] [2]; mk_mdp 3 0 1 [] []] 0.

Definition example_cache_ops : list (cache_op * Z) :=
  [(CUpdate [example_mt] false, 1000); (CHint [topic_b; topic_a] (Some []) false, 2000);
   (CFilterHinted [topic_a; topic_b], 2000); (CPurgeHints [topic_a; topic_b], 3000); (CFind topic_b false, 3000);
   (CEvict, 900000999); (CEvict, 900001000)].

Lemma cache_refines_witness :
  exists st, run_cache_ops isort 900000 60000 example_cache_ops rd_kafka_metadata_cache_init
    = Ret (st, [RDone; RHinted (Some [topic_b]) 1; RTopics [topic_a]; RDone; RFound None; RCount 0; RCount 1]) /\
    rkmc_cnt st = 0.
Proof.
  destruct (cache_refines isort 900000 60000 example_cache_ops) as (st & E & Ee & _ & _ & Ec); [lia..|].
  exists st. split; [exact E|]. rewrite Ec. apply (f_equal length) in Ee. rewrite length_fmap in Ee. rewrite Ee. reflexivity.
Defined.

Lemma empty_cache_ok : cache_ok rd_kafka_metadata_cache_init [].
Proof. split; [done|apply avl_init_ok|done|constructor..]. Qed.

Lemma cache_partition_lookup_witness :
  exists st' e r mpart, rd_kafka_metadata_cache_insert isort rd_kafka_metadata_cache_init example_mt 0 10 = Ret (st', e) /\
    rd_kafka_metadata_cache_topic_partition_get st' topic_a 3 false = Ret (r, Some (cached_topic isort example_mt), mpart) /\
    match mpart with
    | Some p => r = 1 /\ mdp_id p = 3 /\ exists q, q ∈ mt_partitions example_mt /\ p = clear_uncached q
    | None => r = 0 /\ forall q, q ∈ mt_partitions example_mt -> mdp_id q <> 3
    end.
Proof.
  apply (cache_partition_lookup isort isort_sorts rd_kafka_metadata_cache_init [] example_mt 0 10 3);
    [apply empty_cache_ok | lia | cbn; rewrite !Forall_cons, Forall_nil; cbn; lia].
Defined.

(** Eviction stops at the first entry that has not expired, but entries
    expire after different times: a hint (60 s) queued behind a cached topic
    (900 s) is not evicted when its request has timed out, and goes on
    suppressing queries for its topic. *)
Theorem expired_hint_survives :
  exists st, run_cache_ops isort 900000 60000
      [(CUpdate [example_mt] false, 1000); (CHint [topic_b] None false, 2000)] rd_kafka_metadata_cache_init
      = Ret (st, [RDone; RHinted None 1]) /\
    (exists st', rd_kafka_metadata_cache_evict st 100000000 = Ret (st', 0) /\
       (rkmce_ts_expires <$> rd_kafka_metadata_cache_find st' topic_b false) = Some 60002000 /\
       rd_kafka_metadata_cache_topics_filter_hinted st' [topic_b] = []).
Proof. eexists. split; [vm_compute; reflexivity|]. eexists. split; [vm_compute; reflexivity|]. by vm_compute. Qed.
