(* ===== verification/Monitor.v ===== *)
(** * The O-Log monitor (src/rdkafka: EventLoop, ContextMap, Backuper, MyMessage,
    DeficiencyProcessor, ValidityProcessor)

    The monitor consumes market data feeds from Kafka and reports late, missing
    and implausible ones.  Messages are heap objects shared by the offset
    queues of the event loop and the reorder queues of the feed codes; a
    pointer to a message (and to the feed it owns) is an id, [mon_mem] is the
    heap, and reading a deleted message is a crash.

    A [double] is an IEEE value of the Standard Library's [SpecFloat].  The
    texts the processors format with [sprintf] are structured values.  Parsing
    the payload (the JSON library and [StatisticsFeed::build]) is not modelled:
    a message comes with its feed, or with none when the payload was not
    understood and the type of the message stays uninitialised.  The standard
    [priority_queue] is a queue ordered by the comparator; which of two
    elements with equal time stamps comes first does not matter to the code.
    Unlocking a mutex that is not locked is undefined; here it is counted in
    [cx_unlock_ub] and otherwise has no effect, which is what glibc does. *)
From Stdlib Require Import ZArith Lia.
From Stdlib Require Import Floats.SpecFloat.
From stdpp Require Import base numbers list gmap.
From S2P Require Import Prelude.

(** ** Feeds and messages *)

(** The fields the processors read. *)
Record StatisticsFeed : Type := mk_sf {
  sf_TIMESTAMP : Z;
  sf_FEEDCODE : list Z;
  sf_TURNOVER_VALUE : spec_float;
  sf_TURNOVER_VOLUME : Z;
  sf_EXCHANGE_TIMESTAMP : Z }.

Record PriceFeed : Type := mk_pf {
  pf_FEEDCODE : list Z;
  pf_BID_PRICE : spec_float;
  pf_BID_VOLUME : Z;
  pf_ASK_PRICE : spec_float;
  pf_ASK_VOLUME : Z;
  pf_EXCHANGE_TIMESTAMP : Z }.

Inductive feed : Type :=
| FStatistics (sf : StatisticsFeed)
| FPrice (pf : PriceFeed).

Record MyMessage : Type := mk_mm {
  mm_partition : Z;
  mm_offset : Z;
  mm_live : Z;
  mm_feed : option feed }.

Definition set_live (n : Z) (m : MyMessage) : MyMessage :=
  mk_mm (mm_partition m) (mm_offset m) n (mm_feed m).

Definition mm_free (m : MyMessage) : bool := mm_live m =? 0.

(** ** Results *)

Inductive code : Type := OK | ERROR | WARN.

Inductive log : Type :=
| LInvalidTurnover (feedcode : list Z) (timestamp volume : Z) (value : spec_float)
| LDelay (feedcode : list Z) (timestamp delay : Z)
| LNotMonotone (feedcode : list Z) (timestamp volume : Z) (value : spec_float)
| LMiss (feedcode : list Z) (timestamp : Z)
| LPrice (feedcode : list Z) (timestamp : Z) (bid ask : spec_float) (bid_volume ask_volume : Z)
         (invalid_price invalid_volume : bool).

Record Pro_res : Type := mk_res { res_json : list log; res_code : code }.

(** ** Contexts *)

Record Context : Type := mk_cx {
  cx_queue : list Z;
  cx_expect : Z;
  cx_preValue : spec_float;
  cx_preVolume : Z;
  cx_locked : bool;
  cx_unlock_ub : Z }.

(** The state of the monitor: the heap, the offset queues of the event loop,
    the contexts by feed code, [sf_to_m] and the result of the deficiency
    processor, the result of the validity processor, what was sent to the
    result topic and what was committed (partition and offset). *)
Record monitor : Type := mk_mon {
  mon_mem : gmap Z MyMessage;
  mon_offset : gmap Z (list Z);
  mon_ctx : gmap (list Z) Context;
  mon_sf_to_m : gmap Z Z;
  mon_def : Pro_res;
  mon_val : Pro_res;
  mon_produced : list log;
  mon_commits : list (Z * Z) }.

Definition with_mem (f : gmap Z MyMessage -> gmap Z MyMessage) (s : monitor) : monitor :=
  mk_mon (f (mon_mem s)) (mon_offset s) (mon_ctx s) (mon_sf_to_m s) (mon_def s) (mon_val s) (mon_produced s) (mon_commits s).
Definition with_offset (f : gmap Z (list Z) -> gmap Z (list Z)) (s : monitor) : monitor :=
  mk_mon (mon_mem s) (f (mon_offset s)) (mon_ctx s) (mon_sf_to_m s) (mon_def s) (mon_val s) (mon_produced s) (mon_commits s).
Definition with_ctx (f : gmap (list Z) Context -> gmap (list Z) Context) (s : monitor) : monitor :=
  mk_mon (mon_mem s) (mon_offset s) (f (mon_ctx s)) (mon_sf_to_m s) (mon_def s) (mon_val s) (mon_produced s) (mon_commits s).
Definition with_sf_to_m (f : gmap Z Z -> gmap Z Z) (s : monitor) : monitor :=
  mk_mon (mon_mem s) (mon_offset s) (mon_ctx s) (f (mon_sf_to_m s)) (mon_def s) (mon_val s) (mon_produced s) (mon_commits s).
Definition with_def (f : Pro_res -> Pro_res) (s : monitor) : monitor :=
  mk_mon (mon_mem s) (mon_offset s) (mon_ctx s) (mon_sf_to_m s) (f (mon_def s)) (mon_val s) (mon_produced s) (mon_commits s).
Definition with_val (f : Pro_res -> Pro_res) (s : monitor) : monitor :=
  mk_mon (mon_mem s) (mon_offset s) (mon_ctx s) (mon_sf_to_m s) (mon_def s) (f (mon_val s)) (mon_produced s) (mon_commits s).
Definition produce (l : list log) (s : monitor) : monitor :=
  mk_mon (mon_mem s) (mon_offset s) (mon_ctx s) (mon_sf_to_m s) (mon_def s) (mon_val s) (mon_produced s ++ l) (mon_commits s).
Definition commit (c : Z * Z) (s : monitor) : monitor :=
  mk_mon (mon_mem s) (mon_offset s) (mon_ctx s) (mon_sf_to_m s) (mon_def s) (mon_val s) (mon_produced s) (mon_commits s ++ [c]).

Definition get_message (s : monitor) (id : Z) : outcome MyMessage :=
  match mon_mem s !! id with Some m => Ret m | None => Crash end.

Definition message_live (s : monitor) (id : Z) : outcome monitor :=
  let! m := get_message s id in
  Ret (with_mem <[id := set_live (mm_live m + 1) m]> s).

Definition message_kill (s : monitor) (id : Z) : outcome monitor :=
  let! m := get_message s id in
  assert! mm_live m >? 0 in
  Ret (with_mem <[id := set_live (mm_live m - 1) m]> s).

(** ** ContextMap and Context *)

(** A new [Context] has indeterminate members until they are set. *)
Definition new_context (expect : Z) (value : spec_float) (volume : Z) : Context := mk_cx [] expect value volume false 0.

Definition get_context (s : monitor) (feedcode : list Z) : outcome Context :=
  match mon_ctx s !! feedcode with Some c => Ret c | None => Crash end.

Definition put_context (feedcode : list Z) (c : Context) (s : monitor) : monitor := with_ctx <[feedcode := c]> s.

(** Locking a locked mutex would block for ever: there is one event loop. *)
Definition cx_lock (c : Context) : outcome Context :=
  if cx_locked c then Diverge
  else Ret (mk_cx (cx_queue c) (cx_expect c) (cx_preValue c) (cx_preVolume c) true (cx_unlock_ub c)).

Definition cx_unlock (c : Context) : Context :=
  mk_cx (cx_queue c) (cx_expect c) (cx_preValue c) (cx_preVolume c) false
        (if cx_locked c then cx_unlock_ub c else cx_unlock_ub c + 1).

Definition set_expect (t : Z) (c : Context) : Context :=
  mk_cx (cx_queue c) t (cx_preValue c) (cx_preVolume c) (cx_locked c) (cx_unlock_ub c).
Definition set_pre (value : spec_float) (volume : Z) (c : Context) : Context :=
  mk_cx (cx_queue c) (cx_expect c) value volume (cx_locked c) (cx_unlock_ub c).
Definition set_queue (q : list Z) (c : Context) : Context :=
  mk_cx q (cx_expect c) (cx_preValue c) (cx_preVolume c) (cx_locked c) (cx_unlock_ub c).

(** [sf->EXCHANGE_TIMESTAMP] through the pointer. *)
Definition exchange_timestamp (s : monitor) (id : Z) : outcome Z :=
  let! m := get_message s id in
  match mm_feed m with
  | Some (FStatistics sf) => Ret (sf_EXCHANGE_TIMESTAMP sf)
  | _ => Crash
  end.

(** [pq::push] with [feedcmp]: the least time stamp is on top. *)
Fixpoint pq_push (s : monitor) (q : list Z) (id : Z) : outcome (list Z) :=
  match q with
  | [] => Ret [id]
  | x :: q' =>
      let! tx := exchange_timestamp s x in
      let! t := exchange_timestamp s id in
      if t <? tx then Ret (id :: q) else let! q' := pq_push s q' id in Ret (x :: q')
  end.

(** ** DeficiencyProcessor *)

Definition INTERVAL : Z := 500000000.

Definition zero_float : spec_float := S754_zero false.

Definition add_json (l : log) (s : monitor) : monitor := with_def (fun r => mk_res (res_json r ++ [l]) (res_code r)) s.
Definition set_warn (s : monitor) : monitor := with_def (fun r => mk_res (res_json r) WARN) s.

(** [kill] the message of a feed and forget the feed. *)
Definition release (s : monitor) (sf : Z) : outcome monitor :=
  match mon_sf_to_m s !! sf with
  | None => Crash
  | Some m => let! s := message_kill s m in Ret (with_sf_to_m (delete sf) s)
  end.

(** The loop over the reorder queue; [et] is the expected time stamp. *)
Fixpoint drain_loop (fuel : nat) (s : monitor) (feedcode : list Z) (sf : StatisticsFeed) (c : Context) (et : Z)
  : outcome (monitor * Context * Z) :=
  match cx_queue c with
  | [] => Ret (s, c, et)
  | top :: q =>
      match fuel with
      | O => Diverge
      | S fuel =>
          let! t := exchange_timestamp s top in
          if t =? et then
            let '(s, c) :=
              if SFltb (sf_TURNOVER_VALUE sf) (cx_preValue c) || (sf_TURNOVER_VOLUME sf <? cx_preVolume c)
              then (add_json (LNotMonotone feedcode (sf_TIMESTAMP sf) (sf_TURNOVER_VOLUME sf) (sf_TURNOVER_VALUE sf)) s, c)
              else (s, set_pre (sf_TURNOVER_VALUE sf) (sf_TURNOVER_VOLUME sf) c) in
            let! s := release s top in
            drain_loop fuel s feedcode sf (set_queue q c) (s64 (et + INTERVAL))
          else if t <? et then
            let! s := release s top in
            drain_loop fuel s feedcode sf (set_queue q c) et
          else Ret (s, cx_unlock c, et)
      end
  end.

Definition exec_statistics (s : monitor) (id : Z) (sf : StatisticsFeed) : outcome monitor :=
  let! s := message_live s id in
  let s := with_sf_to_m <[id := id]> s in
  let feedcode := sf_FEEDCODE sf in
  let s := if SFleb (sf_TURNOVER_VALUE sf) zero_float || (sf_TURNOVER_VOLUME sf <=? 0)
           then add_json (LInvalidTurnover feedcode (sf_TIMESTAMP sf) (sf_TURNOVER_VOLUME sf) (sf_TURNOVER_VALUE sf)) (set_warn s)
           else s in
  let s := match mon_ctx s !! feedcode with
           | Some _ => s
           | None => put_context feedcode
                       (new_context (sf_EXCHANGE_TIMESTAMP sf)
                          (if SFltb zero_float (sf_TURNOVER_VALUE sf) then sf_TURNOVER_VALUE sf else zero_float)
                          (if sf_TURNOVER_VOLUME sf >? 0 then sf_TURNOVER_VOLUME sf else 0)) s
           end in
  let! c := get_context s feedcode in
  let! c := cx_lock c in
  let et := cx_expect c in
  if et =? sf_EXCHANGE_TIMESTAMP sf then
    let c := set_expect (s64 (et + INTERVAL)) c in
    let! s := release s id in
    Ret (put_context feedcode (cx_unlock c) s)
  else if et >? sf_EXCHANGE_TIMESTAMP sf then
    let s := add_json (LDelay feedcode (sf_EXCHANGE_TIMESTAMP sf) (et - sf_EXCHANGE_TIMESTAMP sf)) (set_warn s) in
    Ret (put_context feedcode (cx_unlock c) s)
  else
    let! q := pq_push s (cx_queue c) id in
    let! (s, c, et) := drain_loop (length q) s feedcode sf (set_queue q c) et in
    let c := set_expect et c in
    let '(s, c) := if zlen (cx_queue c) >? 120
                   then (add_json (LMiss feedcode (cx_expect c)) (set_warn s), set_expect (s64 (cx_expect c + INTERVAL)) c)
                   else (s, c) in
    Ret (put_context feedcode (cx_unlock c) s).

Definition DeficiencyProcessor_exec (s : monitor) (id : Z) : outcome monitor :=
  let s := with_def (fun r => mk_res [] (res_code r)) s in
  let! m := get_message s id in
  match mm_feed m with
  | None => Crash
  | Some (FPrice _) => Ret s
  | Some (FStatistics sf) => exec_statistics s id sf
  end.

(** ** ValidityProcessor *)

(** 1e15 *)
Definition float_1e15 : spec_float := S754_finite false 8000000000000000 (-3).

Definition invalid_price (pf : PriceFeed) : bool :=
  SFleb (pf_ASK_PRICE pf) (pf_BID_PRICE pf) || SFleb (pf_BID_PRICE pf) zero_float || SFleb float_1e15 (pf_BID_PRICE pf)
  || SFleb (pf_ASK_PRICE pf) zero_float || SFleb float_1e15 (pf_ASK_PRICE pf).

Definition invalid_volume (pf : PriceFeed) : bool :=
  (pf_BID_VOLUME pf <? 0) || (pf_BID_VOLUME pf >? 10 ^ 15) || (pf_ASK_VOLUME pf <? 0) || (pf_ASK_VOLUME pf >? 10 ^ 15).

Definition ValidityProcessor_exec (s : monitor) (id : Z) : outcome monitor :=
  let! m := get_message s id in
  match mm_feed m with
  | None => Crash
  | Some (FStatistics _) => Ret (with_val (fun _ => mk_res [] OK) s)
  | Some (FPrice pf) =>
      Ret (with_val (fun _ => mk_res
             [LPrice (pf_FEEDCODE pf) (pf_EXCHANGE_TIMESTAMP pf) (pf_BID_PRICE pf) (pf_ASK_PRICE pf)
                (pf_BID_VOLUME pf) (pf_ASK_VOLUME pf) (invalid_price pf) (invalid_volume pf)]
             (if invalid_price pf || invalid_volume pf then WARN else OK)) s)
  end.

(** ** EventLoop *)

Definition getResult (r : Pro_res) (s : monitor) : monitor :=
  match res_code r with OK => s | _ => produce (res_json r) s end.

(** The two halves of a round of [EventLoop::run] for a message. *)
Definition enqueue_message (s : monitor) (id : Z) (m : MyMessage) : monitor :=
  with_offset (fun o => <[mm_partition m := default [] (o !! mm_partition m) ++ [id]]> o) (with_mem <[id := m]> s).

Definition process_message (s : monitor) (id : Z) : outcome monitor :=
  let! s := DeficiencyProcessor_exec s id in
  let s := getResult (mon_def s) s in
  let! s := ValidityProcessor_exec s id in
  Ret (getResult (mon_val s) s).

Definition run_round (s : monitor) (id : Z) (m : MyMessage) : outcome monitor :=
  process_message (enqueue_message s id m) id.

(** The loop of [store_offset] over one queue: the free messages at its front
    are deleted, the last of them after its offset was committed. *)
Fixpoint pop_free (s : monitor) (q : list Z) (cur : option MyMessage) : outcome (monitor * list Z * option MyMessage) :=
  match q with
  | [] => Ret (s, [], cur)
  | id :: q' =>
      let! m := get_message s id in
      if mm_free m then pop_free (with_mem (delete id) s) q' (Some m)
      else Ret (s, q, cur)
  end.

Definition store_offset_queue (s : monitor) (p : Z) (q : list Z) : outcome monitor :=
  let! (s, q, cur) := pop_free s q None in
  let s := with_offset <[p := q]> s in
  Ret (match cur with Some m => commit (mm_partition m, mm_offset m) s | None => s end).

Fixpoint store_offset_loop (s : monitor) (qs : list (Z * list Z)) : outcome monitor :=
  match qs with
  | [] => Ret s
  | (p, q) :: qs => let! s := store_offset_queue s p q in store_offset_loop s qs
  end.

Definition store_offset (s : monitor) : outcome monitor := store_offset_loop s (map_to_list (mon_offset s)).

Definition monitor_init : monitor := mk_mon ∅ ∅ ∅ ∅ (mk_res [] OK) (mk_res [] OK) [] [].

(** ** Backuper *)

(** The contents of the backup message and the state after the offsets were
    stored. *)
Definition backupMetaData (s : monitor) : outcome (gmap (list Z) (Z * spec_float * Z) * monitor) :=
  let metaData := (fun c => (cx_expect c, cx_preValue c, cx_preVolume c)) <$> mon_ctx s in
  let! s := store_offset s in
  Ret (metaData, s).

(** ** MyConsumer *)

Definition ERR_NO_ERROR : Z := 0.
Definition ERR__TIMED_OUT : Z := -185.
Definition ERR__PARTITION_EOF : Z := -191.

(** Whether the message is handed to the event loop, and [runTag] afterwards;
    [exit_eof] is a constant false. *)
Definition msg_consume (err : Z) (runTag : bool) : bool * bool :=
  if err =? ERR__TIMED_OUT then (false, runTag)
  else if err =? ERR_NO_ERROR then (true, runTag)
  else if err =? ERR__PARTITION_EOF then (false, runTag)
  else (false, false).

(** ** The threads

    [main] runs the event loop and the backup thread.  A round of the loop is
    an [EvEnqueue] and an [EvProcess]; the backup thread can be scheduled
    before, between and after them. *)
Inductive event : Type :=
| EvEnqueue (id : Z) (m : MyMessage)
| EvProcess (id : Z)
| EvBackup.

Definition run_event (s : monitor) (e : event) : outcome monitor :=
  match e with
  | EvEnqueue id m => Ret (enqueue_message s id m)
  | EvProcess id => process_message s id
  | EvBackup => let! (_, s) := backupMetaData s in Ret s
  end.

Fixpoint run_events (s : monitor) (es : list event) : outcome monitor :=
  match es with
  | [] => Ret s
  | e :: es => let! s := run_event s e in run_events s es
  end.
