(* ===== verification/MonitorSpec.v ===== *)
(** * The monitor: memory safety, offset commits, reordering

    The message contents are a function [info] of the message id, so that a
    run is a list of events: a message arrives and is processed, or the backup
    thread stores offsets. *)
From Stdlib Require Import ZArith Lia.
From Stdlib Require Import Floats.SpecFloat.
From stdpp Require Import base numbers list gmap sorting.
From S2P Require Import Prelude.
From S2P Require Import Monitor.

Section Monitor.
Context (info : Z -> MyMessage).

Implicit Types (s : monitor) (id : Z) (c : Context) (f : list Z).

Definition waiting s id : Prop := is_Some (mon_sf_to_m s !! id).

#[local] Instance waiting_dec s id : Decision (waiting s id) := is_Some_dec (mon_sf_to_m s !! id).

(** A feed of code [f]. *)
Definition feed_of f id : Prop := exists sf, mm_feed (info id) = Some (FStatistics sf) /\ sf_FEEDCODE sf = f.

(** The heap: a message is live exactly while the deficiency processor keeps
    its feed; and it is in the offset queue of its partition. *)
Record heap_ok s : Prop := mk_heap_ok {
  ho_mem : forall id m, mon_mem s !! id = Some m -> m = set_live (if decide (waiting s id) then 1 else 0) (info id);
  ho_sf : forall id x, mon_sf_to_m s !! id = Some x -> x = id /\ is_Some (mon_mem s !! id);
  ho_off : forall p q, mon_offset s !! p = Some q ->
    NoDup q /\ forall id, id ∈ q -> is_Some (mon_mem s !! id) /\ mm_partition (info id) = p;
  ho_all : forall id, is_Some (mon_mem s !! id) -> id ∈ default [] (mon_offset s !! mm_partition (info id)) }.

(** A reorder queue holds waiting feeds of its code. *)
Definition queue_ok s f (q : list Z) : Prop := NoDup q /\ forall id, id ∈ q -> waiting s id /\ feed_of f id.

Definition others_ok s f : Prop := forall f' c', f' <> f -> mon_ctx s !! f' = Some c' ->
  cx_locked c' = false /\ queue_ok s f' (cx_queue c').

Record mon_ok s : Prop := mk_mon_ok {
  mo_heap : heap_ok s;
  mo_ctx : forall f c, mon_ctx s !! f = Some c -> cx_locked c = false /\ queue_ok s f (cx_queue c) }.

(** What a step of the deficiency processor leaves alone. *)
Record same_rest s s' : Prop := mk_same_rest {
  sr_offset : mon_offset s' = mon_offset s;
  sr_commits : mon_commits s' = mon_commits s;
  sr_produced : mon_produced s' = mon_produced s;
  sr_val : mon_val s' = mon_val s;
  sr_dom : forall id, is_Some (mon_mem s' !! id) <-> is_Some (mon_mem s !! id) }.

#[export] Instance same_rest_preorder : PreOrder same_rest.
Proof.
  split; [by intros s|]. intros s1 s2 s3 [? ? ? ? D1] [? ? ? ? D2].
  split; try congruence. intros id. by rewrite D2.
Qed.

Lemma mem_get s id m : heap_ok s -> mon_mem s !! id = Some m ->
  get_message s id = Ret m /\ mm_feed m = mm_feed (info id).
Proof. intros Hh E. unfold get_message. rewrite E. split; [done|]. by rewrite (ho_mem _ Hh id m E). Qed.

Lemma waiting_get s id : heap_ok s -> waiting s id ->
  exists m, mon_mem s !! id = Some m /\ get_message s id = Ret m /\ mm_live m = 1 /\ mm_feed m = mm_feed (info id).
Proof.
  intros Hh [x Ex]. destruct (ho_sf _ Hh id x Ex) as [-> [m Em]]. exists m.
  destruct (mem_get s id m Hh Em) as [E1 E2]. split_and!; [done|done| |done].
  rewrite (ho_mem _ Hh id m Em), decide_True; [done|by eexists].
Qed.

(** Releasing a waiting feed. *)
Lemma release_spec s id : heap_ok s -> waiting s id ->
  exists s', release s id = Ret s' /\ heap_ok s' /\ same_rest s s' /\ mon_ctx s' = mon_ctx s /\ mon_def s' = mon_def s /\
    mon_sf_to_m s' = delete id (mon_sf_to_m s).
Proof.
  intros Hh Hw. destruct (waiting_get s id Hh Hw) as (m & Em & Eg & El & Ef). destruct Hw as [x Ex].
  pose proof (ho_sf _ Hh id x Ex) as [-> _]. unfold release. rewrite Ex. unfold message_kill. rewrite Eg. cbn [obind].
  rewrite El. cbn [obind Z.gtb Z.compare]. eexists. split; [done|]. split; [|split; [|done]].
  - destruct Hh as [H1 H2 H3 H4]. split; cbn.
    + intros j mj. destruct (decide (j = id)) as [-> | N].
      * rewrite lookup_insert_eq. intros [= <-]. rewrite decide_False.
        { rewrite (H1 id m Em). done. }
        unfold waiting. cbn. rewrite lookup_delete_eq. by intros [? ?].
      * rewrite lookup_insert_ne by done. intros Ej. rewrite (H1 j mj Ej). f_equal.
        apply decide_ext. unfold waiting. cbn. by rewrite lookup_delete_ne.
    + intros j y. rewrite lookup_delete_Some. intros [N Ej]. destruct (H2 j y Ej) as [-> Hm].
      split; [done|]. by rewrite lookup_insert_ne.
    + intros p q Eq. destruct (H3 p q Eq) as [Hn Hi]. split; [done|]. intros j Hj. destruct (Hi j Hj) as [Hm Hp].
      split; [|done]. rewrite lookup_insert_is_Some'. by right.
    + intros j Hj. apply H4. rewrite lookup_insert_is_Some' in Hj. destruct Hj as [<- | Hj]; [by exists m|done].
  - split; cbn; [done..|]. intros j. rewrite lookup_insert_is_Some'. split; [intros [<- | ?]; [by exists m|done] | by right].
Qed.

Definition ts id : Z :=
  match mm_feed (info id) with Some (FStatistics sf) => sf_EXCHANGE_TIMESTAMP sf | _ => 0 end.

Lemma exchange_spec s f id : heap_ok s -> waiting s id -> feed_of f id -> exchange_timestamp s id = Ret (ts id).
Proof.
  intros Hh Hw (sf & Ef & _). destruct (waiting_get s id Hh Hw) as (m & _ & Eg & _ & Em).
  unfold exchange_timestamp, ts. rewrite Eg. cbn [obind]. by rewrite Em, Ef.
Qed.

Abbreviation by_ts := (StronglySorted (fun a b => ts a <= ts b)).

Lemma pq_push_spec s f q id : heap_ok s -> queue_ok s f q -> waiting s id -> feed_of f id ->
  exists q', pq_push s q id = Ret q' /\ Permutation q' (id :: q) /\ (by_ts q -> by_ts q').
Proof.
  intros Hh Hq Hw Hf. revert Hq. induction q as [|x q IH]; intros Hq.
  { exists [id]. split; [done|]. split; [done|]. repeat constructor. }
  destruct Hq as [[Hx Hn]%NoDup_cons Hi]. cbn [pq_push].
  destruct (Hi x (list_elem_of_here _ _)) as [Hwx Hfx]. rewrite (exchange_spec s f x), (exchange_spec s f id) by done.
  cbn [obind]. destruct (Z.ltb_spec (ts id) (ts x)) as [L | L].
  - eexists. split; [done|]. split; [done|]. intros Hs. constructor; [done|]. apply StronglySorted_inv in Hs as [_ Hs].
    constructor; [lia|]. eapply Forall_impl; [exact Hs|]. cbn. lia.
  - destruct IH as (q' & -> & Hp & Hs'); [split; [done|intros; apply Hi; by right]|]. cbn [obind].
    eexists. split; [done|]. split; [rewrite Hp; apply perm_swap|].
    intros [Hs Hx']%StronglySorted_inv. constructor; [by apply Hs'|]. rewrite Hp. constructor; [lia|done].
Qed.

(** Time stamps that leave the reorder queue, and the next expected one. *)
Fixpoint drain_ts (q : list Z) (et : Z) : list Z * Z :=
  match q with
  | [] => ([], et)
  | id :: q' =>
      if ts id =? et then drain_ts q' (s64 (et + INTERVAL))
      else if ts id <? et then drain_ts q' et
      else (q, et)
  end.

Lemma drain_ts_sub q et id : id ∈ (drain_ts q et).1 -> id ∈ q.
Proof.
  revert et. induction q as [|x q IH]; intros et; cbn; [done|].
  destruct (ts x =? et); [intros H; right; by eapply IH|].
  destruct (ts x <? et); [intros H; right; by eapply IH|done].
Qed.

(** Logs about the order of feeds. *)
Definition gap_log (l : log) : bool := match l with LDelay _ _ _ | LMiss _ _ => true | _ => false end.

(** The result of the deficiency processor gets more logs, none about gaps. *)
Definition more_logs (r r' : Pro_res) : Prop :=
  res_code r' = res_code r /\ exists l, res_json r' = res_json r ++ l /\ Forall (fun x => gap_log x = false) l.

Lemma more_logs_refl r : more_logs r r.
Proof. split; [done|]. exists []. split; [by rewrite app_nil_r|constructor]. Qed.

Lemma more_logs_trans r1 r2 r3 : more_logs r1 r2 -> more_logs r2 r3 -> more_logs r1 r3.
Proof.
  intros [E1 (l1 & J1 & F1)] [E2 (l2 & J2 & F2)]. split; [congruence|]. exists (l1 ++ l2).
  split; [rewrite J2, J1; by rewrite app_assoc | by apply Forall_app].
Qed.

Lemma queue_ok_release s s' f q id : queue_ok s f q -> id ∉ q -> mon_sf_to_m s' = delete id (mon_sf_to_m s) -> queue_ok s' f q.
Proof.
  intros [Hn Hi] Hout E. split; [done|]. intros j Hj. destruct (Hi j Hj) as [Hw Hf]. split; [|done].
  unfold waiting. rewrite E, lookup_delete_ne; [done|]. by intros ->.
Qed.

Lemma others_ok_release s s' f id : others_ok s f -> feed_of f id -> mon_ctx s' = mon_ctx s ->
  mon_sf_to_m s' = delete id (mon_sf_to_m s) -> others_ok s' f.
Proof.
  intros Ho (sf & Ef & Hf) Ec E f' c' N Hc. rewrite Ec in Hc. destruct (Ho f' c' N Hc) as [Hl Hq]. split; [done|].
  eapply queue_ok_release; [exact Hq| |exact E]. intros Hin. destruct Hq as [_ Hi].
  destruct (Hi id Hin) as [_ (sf' & Ef' & Hf')]. congruence.
Qed.

Record drained s s' f c c' et et' : Prop := mk_drained {
  dr_heap : heap_ok s';
  dr_others : others_ok s' f;
  dr_queue : queue_ok s' f (cx_queue c');
  dr_rest : same_rest s s';
  dr_ctx : mon_ctx s' = mon_ctx s;
  dr_def : more_logs (mon_def s) (mon_def s');
  dr_abs : (cx_queue c', et') = drain_ts (cx_queue c) et;
  dr_sf : forall j, waiting s' j <-> waiting s j /\ (j ∈ cx_queue c -> j ∈ cx_queue c') }.

Lemma drain_step s f c et id q s1 c1 et1 s2 c2 et2 :
  heap_ok s -> queue_ok s f (id :: q) -> cx_queue c = id :: q -> cx_queue c1 = q ->
  same_rest s s1 -> mon_ctx s1 = mon_ctx s -> more_logs (mon_def s) (mon_def s1) ->
  mon_sf_to_m s1 = delete id (mon_sf_to_m s) -> drain_ts (id :: q) et = drain_ts q et1 ->
  drained s1 s2 f c1 c2 et1 et2 -> drained s s2 f c c2 et et2.
Proof.
  intros Hh [[Hx Hn]%NoDup_cons Hi] Ec Ec1 R1 E1 D1 Es Ed [H1 H2 H3 H4 H5 H6 H7 H8].
  split; [done|done|done|by trans s1|congruence|by eapply more_logs_trans| |].
  - by rewrite H7, Ec1, Ec.
  - intros j. rewrite H8, Ec1, Ec. unfold waiting at 1. rewrite Es, lookup_delete_is_Some, elem_of_cons.
    assert (Hsub : forall j, j ∈ cx_queue c2 -> j ∈ q).
    { intros k Hk. apply (drain_ts_sub q et1). rewrite <- Ec1, <- H7. exact Hk. }
    split.
    + intros [[N Hw] Hq]. split; [done|]. intros [-> | Hj]; [done|by apply Hq].
    + intros [Hw Hq]. split; [|by auto]. split; [|done]. intros <-. apply Hx, Hsub, Hq. by left.
Qed.

Lemma drain_spec n s f sf c et : heap_ok s -> others_ok s f -> queue_ok s f (cx_queue c) -> (length (cx_queue c) <= n)%nat ->
  exists s' c' et', drain_loop n s f sf c et = Ret (s', c', et') /\ drained s s' f c c' et et'.
Proof.
  revert s c et. induction n as [|n IH]; intros s c et Hh Ho Hq Hn; cbn [drain_loop];
    destruct (cx_queue c) as [|id q] eqn:Eq; cbn [length] in Hn; try lia;
    try (exists s, c, et; split; [done|]; split; rewrite ?Eq; done || apply more_logs_refl || by (intros j; split; [by auto|by intros [? _]])).
  pose proof Hq as [[Hx Hnd]%NoDup_cons Hi]. destruct (Hi id (list_elem_of_here _ _)) as [Hw Hf].
  rewrite (exchange_spec s f id Hh Hw Hf). cbn [obind]. destruct (Z.eqb_spec (ts id) et) as [E | E].
  - set (p := if _ || _ then _ else _). destruct p as [s0 c0] eqn:Ep.
    assert (heap_ok s0 /\ same_rest s s0 /\ mon_ctx s0 = mon_ctx s /\ mon_sf_to_m s0 = mon_sf_to_m s /\
      more_logs (mon_def s) (mon_def s0) /\ cx_queue c0 = id :: q) as (Hh0 & R0 & Ec0 & Es0 & D0 & Eq0).
    { unfold p in Ep. destruct (_ || _); injection Ep as <- <-.
      - split; [destruct Hh; by split|]. split; [done|]. split; [done|]. split; [done|]. split; [|done].
        split; [done|]. eexists. split; [done|]. by repeat constructor.
      - split; [done|]. split; [done|]. split; [done|]. split; [done|]. split; [apply more_logs_refl|done]. }
    clear Ep p. destruct (release_spec s0 id Hh0) as (s1 & -> & Hh1 & R1 & Ec1 & Ed1 & Es1); [unfold waiting; by rewrite Es0|].
    cbn [obind]. rewrite Es0 in Es1.
    destruct (IH s1 (set_queue q c0) (s64 (et + INTERVAL))) as (s2 & c2 & et2 & E2 & Hd).
    + done.
    + eapply (others_ok_release s s1); [done|done|congruence|done].
    + eapply (queue_ok_release s s1); [split; [done|intros; apply Hi; by right]|done|done].
    + cbn. lia.
    + exists s2, c2, et2. split; [done|]. eapply (drain_step s f c et id q s1 (set_queue q c0)); try done.
      * by trans s0.
      * congruence.
      * eapply more_logs_trans; [exact D0|]. rewrite Ed1. apply more_logs_refl.
      * cbn. by rewrite (proj2 (Z.eqb_eq _ _)).
  - destruct (Z.ltb_spec (ts id) et) as [L | L].
    + destruct (release_spec s id Hh Hw) as (s1 & -> & Hh1 & R1 & Ec1 & Ed1 & Es1). cbn [obind].
      destruct (IH s1 (set_queue q c) et) as (s2 & c2 & et2 & E2 & Hd).
      * done.
      * eapply (others_ok_release s s1); [done|done|congruence|done].
      * eapply (queue_ok_release s s1); [split; [done|intros; apply Hi; by right]|done|done].
      * cbn. lia.
      * exists s2, c2, et2. split; [done|]. eapply (drain_step s f c et id q s1 (set_queue q c)); try done.
        -- rewrite Ed1. apply more_logs_refl.
        -- cbn. rewrite (proj2 (Z.eqb_neq _ _)), (proj2 (Z.ltb_lt _ _)) by done. done.
    + exists s, (cx_unlock c), et. split; [done|]. split; cbn; rewrite ?Eq; try done; [apply more_logs_refl| |].
      * cbn. rewrite (proj2 (Z.eqb_neq _ _)), (proj2 (Z.ltb_ge _ _)) by done. done.
      * intros j. split; [by auto|by intros [? _]].
Qed.

(** ** A round of the event loop *)

Lemma heap_ok_ext s s' : mon_mem s' = mon_mem s -> mon_offset s' = mon_offset s -> mon_sf_to_m s' = mon_sf_to_m s ->
  heap_ok s -> heap_ok s'.
Proof.
  destruct s, s'; cbn; intros -> -> -> [H1 H2 H3 H4]. by split.
Qed.

(** Taking a feed in: the message is live and the feed is waiting. *)
Lemma live_spec s id : heap_ok s -> is_Some (mon_mem s !! id) -> ~ waiting s id ->
  exists s1, message_live s id = Ret s1 /\ heap_ok (with_sf_to_m <[id := id]> s1) /\
    same_rest s (with_sf_to_m <[id := id]> s1) /\ mon_ctx s1 = mon_ctx s /\ mon_def s1 = mon_def s /\
    mon_sf_to_m s1 = mon_sf_to_m s.
Proof.
  intros Hh [m Em] Nw. destruct (mem_get s id m Hh Em) as [Eg _]. unfold message_live. rewrite Eg. cbn [obind].
  eexists. split; [done|]. split; [|split; [|done]].
  - destruct Hh as [H1 H2 H3 H4]. split; cbn.
    + intros j mj. destruct (decide (j = id)) as [-> | N].
      * rewrite lookup_insert_eq. intros [= <-]. rewrite (decide_True (P := waiting _ id)).
        { rewrite (H1 id m Em), decide_False by done. done. }
        unfold waiting. cbn. rewrite lookup_insert_eq. by eexists.
      * rewrite lookup_insert_ne by done. intros Ej. rewrite (H1 j mj Ej). f_equal.
        apply decide_ext. unfold waiting. cbn. by rewrite lookup_insert_ne.
    + intros j y. destruct (decide (j = id)) as [-> | N].
      * rewrite !lookup_insert_eq. intros [= <-]. split; [done|by eexists].
      * rewrite !lookup_insert_ne by done. apply H2.
    + intros p q Eq. destruct (H3 p q Eq) as [Hn Hi]. split; [done|]. intros j Hj. destruct (Hi j Hj) as [Hm Hp].
      split; [|done]. rewrite lookup_insert_is_Some'. by right.
    + intros j Hj. apply H4. rewrite lookup_insert_is_Some' in Hj. destruct Hj as [<- | Hj]; [by exists m|done].
  - split; cbn; [done..|]. intros j. rewrite lookup_insert_is_Some'. split; [intros [<- | ?]; [by exists m|done] | by right].
Qed.

(** The context of a feed code before the feed is looked at. *)
Definition start_context s (sf : StatisticsFeed) : Context :=
  match mon_ctx s !! sf_FEEDCODE sf with
  | Some c => c
  | None => new_context (sf_EXCHANGE_TIMESTAMP sf)
              (if SFltb zero_float (sf_TURNOVER_VALUE sf) then sf_TURNOVER_VALUE sf else zero_float)
              (if sf_TURNOVER_VOLUME sf >? 0 then sf_TURNOVER_VOLUME sf else 0)
  end.

(** What the deficiency processor does with a feed: the queue and the expected
    time stamp of the feed code afterwards, and what it reports about gaps. *)
Definition arrive f (q : list Z) (et id : Z) (q' : list Z) (et' : Z) (gaps : list log) : Prop :=
  (ts id = et /\ q' = q /\ et' = s64 (et + INTERVAL) /\ gaps = []) \/
  (ts id < et /\ q' = q /\ et' = et /\ gaps = [LDelay f (ts id) (et - ts id)]) \/
  (et < ts id /\ exists q1 et1, Permutation q1 (id :: q) /\ (by_ts q -> by_ts q1) /\ drain_ts q1 et = (q', et1) /\
     (et', gaps) = if zlen q' >? 120 then (s64 (et1 + INTERVAL), [LMiss f et1]) else (et1, [])).

Definition gaps_of (l : list log) : list log := List.filter gap_log l.

Lemma more_logs_gaps r r' : more_logs r r' -> gaps_of (res_json r') = gaps_of (res_json r).
Proof.
  intros [_ (l & -> & Hl)]. unfold gaps_of. rewrite List.filter_app. induction Hl as [|x l Hx _ IH]; cbn.
  - apply app_nil_r.
  - by rewrite Hx.
Qed.

Record feed_taken s s' id (sf : StatisticsFeed) : Prop := mk_feed_taken {
  ft_ok : mon_ok s';
  ft_rest : same_rest s s';
  ft_wait : forall j, waiting s' j -> waiting s j \/ j = id;
  ft_late : ts id < cx_expect (start_context s sf) -> waiting s' id;
  ft_keep : forall j, waiting s j -> j ∉ cx_queue (start_context s sf) -> waiting s' j;
  ft_other : forall f, f <> sf_FEEDCODE sf -> mon_ctx s' !! f = mon_ctx s !! f;
  ft_ctx : exists c' gaps, mon_ctx s' !! sf_FEEDCODE sf = Some c' /\
    arrive (sf_FEEDCODE sf) (cx_queue (start_context s sf)) (cx_expect (start_context s sf)) id (cx_queue c') (cx_expect c') gaps /\
    gaps_of (res_json (mon_def s')) = gaps_of (res_json (mon_def s)) ++ gaps /\
    (gaps <> [] -> res_code (mon_def s') = WARN) }.

(** The state once the feed was taken in, its context created and locked. *)
Record feed_ready s s1 id (sf : StatisticsFeed) c : Prop := mk_feed_ready {
  fr_heap : heap_ok s1;
  fr_others : others_ok s1 (sf_FEEDCODE sf);
  fr_rest : same_rest s s1;
  fr_sf : mon_sf_to_m s1 = <[id := id]> (mon_sf_to_m s);
  fr_ctx : forall f, f <> sf_FEEDCODE sf -> mon_ctx s1 !! f = mon_ctx s !! f;
  fr_queue : queue_ok s1 (sf_FEEDCODE sf) (cx_queue c);
  fr_fresh : id ∉ cx_queue c;
  fr_same : cx_queue c = cx_queue (start_context s sf) /\ cx_expect c = cx_expect (start_context s sf);
  fr_gaps : gaps_of (res_json (mon_def s1)) = gaps_of (res_json (mon_def s)) }.

(** The rest of [exec_statistics] from there. *)
Definition take_feed s id (sf : StatisticsFeed) c : outcome monitor :=
  let feedcode := sf_FEEDCODE sf in
  let et := cx_expect c in
  if et =? sf_EXCHANGE_TIMESTAMP sf then
    let c := set_expect (s64 (et + INTERVAL)) c in
    let! s := release s id in
    Ret (put_context feedcode (cx_unlock c) s)
  else if et >? sf_EXCHANGE_TIMESTAMP sf then
    let s := add_json (LDelay feedcode (sf_EXCHANGE_TIMESTAMP sf) (et - sf_EXCHANGE_TIMESTAMP sf)) (set_warn s) in
    Ret (put_context feedcode (cx_unlock c) s)
  else
    let! q := pq_push s (cx_queue c) id in
    let! (s, c, et) := drain_loop (length q) s feedcode sf (set_queue q c) et in
    let c := set_expect et c in
    let '(s, c) := if zlen (cx_queue c) >? 120
                   then (add_json (LMiss feedcode (cx_expect c)) (set_warn s), set_expect (s64 (cx_expect c + INTERVAL)) c)
                   else (s, c) in
    Ret (put_context feedcode (cx_unlock c) s).

Lemma exec_ready s id sf : mon_ok s -> is_Some (mon_mem s !! id) -> ~ waiting s id ->
  exists s1 c, exec_statistics s id sf = take_feed s1 id sf c /\ feed_ready s s1 id sf c.
Proof.
  intros [Hh Hc] Hm Nw. destruct (live_spec s id Hh Hm Nw) as (s0 & E0 & Hh0 & R0 & C0 & D0 & S0).
  assert (Hq : forall f q, queue_ok s f q -> queue_ok (with_sf_to_m <[id := id]> s0) f q /\ id ∉ q).
  { intros f q [Hn Hi]. split; [split; [done|]|].
    - intros j Hj. destruct (Hi j Hj) as [Hw Hf]. split; [|done]. unfold waiting. cbn. rewrite S0, lookup_insert_is_Some'. by right.
    - intros Hj. by destruct (Hi id Hj). }
  assert (Hsc : cx_locked (start_context s sf) = false /\ queue_ok s (sf_FEEDCODE sf) (cx_queue (start_context s sf))).
  { unfold start_context. destruct (mon_ctx s !! sf_FEEDCODE sf) as [c|] eqn:Ec; [by apply (Hc _ _ Ec)|].
    cbn. split; [done|]. split; [constructor|]. intros j []%not_elem_of_nil. }
  destruct Hsc as [Hl Hsq]. unfold exec_statistics. rewrite E0. cbn [obind].
  set (s2 := if SFleb _ _ || _ then _ else _).
  assert (E2 : mon_ctx s2 = mon_ctx s /\ mon_mem s2 = mon_mem s0 /\ mon_sf_to_m s2 = <[id := id]> (mon_sf_to_m s) /\
     same_rest s s2 /\ gaps_of (res_json (mon_def s2)) = gaps_of (res_json (mon_def s))).
  { unfold s2. destruct (_ || _); cbn; rewrite ?S0, ?D0; (split; [done|]); (split; [done|]); (split; [done|]).
    - split; [by destruct R0; split|]. unfold gaps_of. rewrite List.filter_app. apply app_nil_r.
    - split; [exact R0|done]. }
  assert (Hh2 : heap_ok s2) by (eapply heap_ok_ext; [| | |exact Hh0]; cbn; unfold s2; by destruct (_ || _)).
  clearbody s2. destruct E2 as (C2 & _ & S2 & R2 & G2). set (s3 := match mon_ctx s2 !! _ with Some _ => _ | None => _ end).
  assert (E3 : mon_ctx s3 !! sf_FEEDCODE sf = Some (start_context s sf) /\
    (forall f, f <> sf_FEEDCODE sf -> mon_ctx s3 !! f = mon_ctx s !! f) /\ mon_sf_to_m s3 = mon_sf_to_m s2 /\ heap_ok s3 /\
    same_rest s s3 /\ mon_def s3 = mon_def s2).
  { unfold s3, start_context. rewrite C2. destruct (mon_ctx s !! sf_FEEDCODE sf) as [c|] eqn:Ec; cbn; rewrite C2.
    - done.
    - rewrite lookup_insert_eq. split; [done|]. split; [intros f N; by rewrite lookup_insert_ne by done|]. split; [done|].
      split; [by eapply heap_ok_ext; [| | |exact Hh2]|]. split; [by destruct R2; split|done]. }
  clearbody s3. destruct E3 as (E3 & C3 & S3 & Hh3 & R3 & D3). unfold get_context. rewrite E3. cbn [obind].
  unfold cx_lock. rewrite Hl. cbn [obind]. eexists s3, _. split; [reflexivity|].
  destruct (Hq _ _ Hsq) as [Hq1 Hq2]. split; cbn; try done; rewrite ?D3, ?S3; try done.
  - intros f c N Ec. rewrite C3 in Ec by done. destruct (Hc f c Ec) as [L Hf]. split; [done|].
    destruct (Hq _ _ Hf) as [Hf' _]. unfold queue_ok, waiting in *. rewrite S3, S2. cbn in Hf'. by rewrite S0 in Hf'.
  - unfold queue_ok, waiting in *. rewrite S3, S2. cbn in Hq1. by rewrite S0 in Hq1.
Qed.

(** The context is put back, unlocked. *)
Lemma put_back s f c : heap_ok s -> others_ok s f -> queue_ok s f (cx_queue c) -> mon_ok (put_context f (cx_unlock c) s).
Proof.
  intros Hh Ho Hq. split; [by eapply heap_ok_ext; [| | |exact Hh]|]. intros f' c'. cbn. destruct (decide (f' = f)) as [-> | N].
  - rewrite lookup_insert_eq. intros [= <-]. done.
  - rewrite lookup_insert_ne by done. intros E. exact (Ho f' c' N E).
Qed.

Lemma waiting_insert s s1 id j : mon_sf_to_m s1 = <[id := id]> (mon_sf_to_m s) -> waiting s1 j <-> j = id \/ waiting s j.
Proof. intros E. unfold waiting. rewrite E, lookup_insert_is_Some'. split; intros [? | ?]; auto. Qed.

Lemma same_rest_put s f c : same_rest s (put_context f c s).
Proof. by split. Qed.

Lemma put_context_other f f' c s : f' <> f -> mon_ctx (put_context f c s) !! f' = mon_ctx s !! f'.
Proof. intros N. cbn. by rewrite lookup_insert_ne. Qed.

Lemma take_exact s s1 id sf c : mm_feed (info id) = Some (FStatistics sf) -> ~ waiting s id -> feed_ready s s1 id sf c ->
  cx_expect c = sf_EXCHANGE_TIMESTAMP sf -> exists s', take_feed s1 id sf c = Ret s' /\ feed_taken s s' id sf.
Proof.
  intros Hf Nw [H1 H2 H3 H4 H5 H6 H7 [H8 H9] H10] E. unfold take_feed. rewrite (proj2 (Z.eqb_eq _ _) E). cbn zeta.
  assert (Et : ts id = cx_expect (start_context s sf)) by (rewrite <- H9, E; unfold ts; by rewrite Hf).
  destruct (release_spec s1 id H1) as (s2 & -> & Hh2 & R2 & C2 & D2 & S2); [eapply waiting_insert; [exact H4|by left]|]. cbn [obind].
  assert (W2 : forall j, waiting (put_context (sf_FEEDCODE sf) (cx_unlock (set_expect (s64 (cx_expect c + INTERVAL)) c)) s2) j <-> waiting s j).
  { intros j. unfold waiting. cbn. rewrite S2, H4, delete_insert_id; [done|]. unfold waiting in Nw. by apply eq_None_not_Some. }
  eexists. split; [done|]. split.
  - apply put_back; cbn; [done| |].
    + eapply others_ok_release; [exact H2|by exists sf|done|exact S2].
    + by eapply queue_ok_release.
  - trans s1; [done|]. trans s2; [done|apply same_rest_put].
  - intros j Hj. left. by apply W2.
  - lia.
  - intros j Hj _. by apply W2.
  - intros f N. rewrite put_context_other, C2 by done. by apply H5.
  - eexists _, []. split; [cbn; apply lookup_insert_eq|]. cbn. split; [left; rewrite <- H8, <- H9; split_and!; [congruence|done..]|].
    by rewrite D2, H10, app_nil_r.
Qed.

Lemma take_late s s1 id sf c : mm_feed (info id) = Some (FStatistics sf) -> feed_ready s s1 id sf c ->
  sf_EXCHANGE_TIMESTAMP sf < cx_expect c -> exists s', take_feed s1 id sf c = Ret s' /\ feed_taken s s' id sf.
Proof.
  intros Hf [H1 H2 H3 H4 H5 H6 H7 [H8 H9] H10] E. unfold take_feed.
  rewrite (proj2 (Z.eqb_neq _ _)), (proj2 (Z.gtb_gt _ _)) by lia. cbn zeta.
  assert (Et : ts id = sf_EXCHANGE_TIMESTAMP sf) by (unfold ts; by rewrite Hf).
  assert (W : forall j, waiting s1 j <-> j = id \/ waiting s j) by (intros j; by apply waiting_insert).
  eexists. split; [done|]. split.
  - apply put_back; [by eapply heap_ok_ext; [| | |exact H1]|exact H2|exact H6].
  - by destruct H3; split.
  - intros j Hj. apply W in Hj. tauto.
  - intros _. apply W. by left.
  - intros j Hj _. apply W. by right.
  - intros f N. rewrite put_context_other by done. by apply H5.
  - eexists _, [LDelay (sf_FEEDCODE sf) (ts id) (cx_expect c - ts id)]. split; [cbn; apply lookup_insert_eq|]. cbn.
    split; [right; left; rewrite <- H8, <- H9; split_and!; [lia|done..]|]. split; [|done].
    unfold gaps_of in *. rewrite List.filter_app, H10, Et. done.
Qed.

(** What is left to do when the reorder queue was drained. *)
Lemma drained_taken s s2 s3 id sf q (c2 c3 : Context) gaps : ~ waiting s id -> same_rest s s3 ->
  heap_ok s2 -> others_ok s2 (sf_FEEDCODE sf) -> queue_ok s2 (sf_FEEDCODE sf) (cx_queue c2) ->
  mon_mem s3 = mon_mem s2 -> mon_offset s3 = mon_offset s2 -> mon_sf_to_m s3 = mon_sf_to_m s2 -> mon_ctx s3 = mon_ctx s2 ->
  cx_queue c3 = cx_queue c2 -> Permutation q (id :: cx_queue (start_context s sf)) -> cx_expect (start_context s sf) < ts id ->
  (forall f, f <> sf_FEEDCODE sf -> mon_ctx s2 !! f = mon_ctx s !! f) ->
  (forall j, waiting s2 j <-> (j = id \/ waiting s j) /\ (j ∈ q -> j ∈ cx_queue c2)) ->
  arrive (sf_FEEDCODE sf) (cx_queue (start_context s sf)) (cx_expect (start_context s sf)) id (cx_queue c3) (cx_expect c3) gaps ->
  gaps_of (res_json (mon_def s3)) = gaps_of (res_json (mon_def s)) ++ gaps -> (gaps <> [] -> res_code (mon_def s3) = WARN) ->
  feed_taken s (put_context (sf_FEEDCODE sf) (cx_unlock c3) s3) id sf.
Proof.
  intros Nw R3 H1 H2 H3 Em Eo Es Ec Eq Hp Hlt Hoth Hw Ha Hg Hwarn.
  assert (W3 : forall j, waiting s3 j <-> waiting s2 j) by (intros j; unfold waiting; by rewrite Es). split.
  - apply put_back; [by eapply heap_ok_ext| |].
    + unfold others_ok, queue_ok, waiting in *. rewrite Es, Ec. done.
    + unfold queue_ok, waiting in *. rewrite Es, Eq. done.
  - trans s3; [done|apply same_rest_put].
  - intros j Hj. apply W3, Hw in Hj. tauto.
  - lia.
  - intros j Hj Nj. apply W3, Hw. split; [by right|]. rewrite Hp, elem_of_cons. intros [-> | ?]; done.
  - intros f N. rewrite put_context_other, Ec by done. by apply Hoth.
  - eexists _, gaps. split; [cbn; apply lookup_insert_eq|]. done.
Qed.

Lemma take_early s s1 id sf c : mm_feed (info id) = Some (FStatistics sf) -> ~ waiting s id -> feed_ready s s1 id sf c ->
  cx_expect c < sf_EXCHANGE_TIMESTAMP sf -> exists s', take_feed s1 id sf c = Ret s' /\ feed_taken s s' id sf.
Proof.
  intros Hf Nw [H1 H2 H3 H4 H5 H6 H7 [H8 H9] H10] E. unfold take_feed.
  rewrite (proj2 (Z.eqb_neq _ _)), Z.gtb_ltb, (proj2 (Z.ltb_ge _ _)) by lia. cbn zeta.
  assert (Et : cx_expect (start_context s sf) < ts id) by (rewrite <- H9; unfold ts; by rewrite Hf).
  assert (W : forall j, waiting s1 j <-> j = id \/ waiting s j) by (intros j; by apply waiting_insert).
  assert (Hfo : feed_of (sf_FEEDCODE sf) id) by by exists sf.
  destruct (pq_push_spec s1 (sf_FEEDCODE sf) (cx_queue c) id H1 H6) as (q & -> & Hp & Hs); [apply W; by left|done|]. cbn [obind].
  destruct (drain_spec (length q) s1 (sf_FEEDCODE sf) sf (set_queue q c) (cx_expect c)) as (s2 & c2 & et2 & -> & Hd); cbn; [done|done| |done|].
  { destruct H6 as [Hn Hi]. split; [rewrite Hp; by constructor|]. intros j. rewrite Hp, elem_of_cons. intros [-> | Hj]; [|by apply Hi].
    split; [apply W; by left|done]. }
  destruct Hd as [D1 D2 D3 D4 D5 D6 D7 D8]. cbn in D7, D8. cbn [obind].
  assert (R2 : same_rest s s2) by by trans s1. apply more_logs_gaps in D6. rewrite H10 in D6.
  assert (W2 : forall j, waiting s2 j <-> (j = id \/ waiting s j) /\ (j ∈ q -> j ∈ cx_queue c2)) by (intros j; rewrite D8, W; done).
  assert (O2 : forall f, f <> sf_FEEDCODE sf -> mon_ctx s2 !! f = mon_ctx s !! f) by (intros f N; rewrite D5; by apply H5).
  rewrite H8 in Hp, Hs. rewrite H9 in D7.
  change (cx_queue (set_expect et2 c2)) with (cx_queue c2).
  destruct (zlen (cx_queue c2) >? 120) eqn:E120; (eexists; split; [reflexivity|]).
  - eapply (drained_taken s s2 _ id sf q c2 _ [LMiss (sf_FEEDCODE sf) et2]); try done.
    + by destruct R2; split.
    + right. right. split; [done|]. exists q, et2. split_and!; try done. change (cx_queue _) with (cx_queue c2). by rewrite E120.
    + cbn. unfold gaps_of in *. rewrite List.filter_app, D6. done.
  - eapply (drained_taken s s2 s2 id sf q c2 _ []); try done.
    + right. right. split; [done|]. exists q, et2. split_and!; try done. change (cx_queue _) with (cx_queue c2). by rewrite E120.
    + by rewrite app_nil_r.
Qed.

(** A feed is taken in whatever its time stamp. *)
Lemma exec_statistics_spec s id sf : mon_ok s -> is_Some (mon_mem s !! id) -> ~ waiting s id ->
  mm_feed (info id) = Some (FStatistics sf) -> exists s', exec_statistics s id sf = Ret s' /\ feed_taken s s' id sf.
Proof.
  intros Hk Hm Nw Hf. destruct (exec_ready s id sf Hk Hm Nw) as (s1 & c & -> & Hr).
  destruct (Z.lt_trichotomy (cx_expect c) (sf_EXCHANGE_TIMESTAMP sf)) as [L | [L | L]].
  - by eapply take_early.
  - by eapply take_exact.
  - by eapply take_late.
Qed.

(** A message with a feed. *)
Definition good id : Prop := mm_live (info id) = 0 /\ is_Some (mm_feed (info id)).

Definition round_gaps f (q : list Z) (et id : Z) s s' : Prop :=
  exists c' gaps, mon_ctx s' !! f = Some c' /\ arrive f q et id (cx_queue c') (cx_expect c') gaps /\
    gaps_of (mon_produced s') = gaps_of (mon_produced s) ++ gaps.

(** A round of the event loop on a new message. *)
Record round_done s s' id : Prop := mk_round_done {
  rd_ok : mon_ok s';
  rd_commits : mon_commits s' = mon_commits s;
  rd_offset : mon_offset s' = <[mm_partition (info id) := default [] (mon_offset s !! mm_partition (info id)) ++ [id]]> (mon_offset s);
  rd_dom : forall j, is_Some (mon_mem s' !! j) <-> j = id \/ is_Some (mon_mem s !! j);
  rd_wait : forall j, waiting s' j -> waiting s j \/ j = id;
  rd_feed : match mm_feed (info id) with
    | Some (FStatistics sf) =>
        (forall j, waiting s j -> j ∉ cx_queue (start_context s sf) -> waiting s' j) /\
        (ts id < cx_expect (start_context s sf) -> waiting s' id) /\
        (forall f, f <> sf_FEEDCODE sf -> mon_ctx s' !! f = mon_ctx s !! f) /\
        round_gaps (sf_FEEDCODE sf) (cx_queue (start_context s sf)) (cx_expect (start_context s sf)) id s s'
    | _ => (forall j, waiting s j -> waiting s' j) /\ mon_ctx s' = mon_ctx s /\ gaps_of (mon_produced s') = gaps_of (mon_produced s)
    end }.

Lemma enqueue_ok s id : mon_ok s -> mon_mem s !! id = None -> good id -> 
  mon_ok (enqueue_message s id (info id)) /\ ~ waiting s id /\
  forall j, is_Some (mon_mem (enqueue_message s id (info id)) !! j) <-> j = id \/ is_Some (mon_mem s !! j).
Proof.
  intros [[H1 H2 H3 H4] Hc] Em [Hl _].
  assert (Nw : ~ waiting s id) by (intros [x Ex]; destruct (H2 id x Ex) as [_ [? ?]]; congruence).
  assert (Hd : forall j, is_Some (mon_mem (enqueue_message s id (info id)) !! j) <-> j = id \/ is_Some (mon_mem s !! j))
    by (intros j; cbn; rewrite lookup_insert_is_Some'; split; intros [? | ?]; auto).
  split; [|done]. split; [|exact Hc]. split.
  - intros j m. cbn. change (waiting (enqueue_message s id (info id)) j) with (waiting s j). destruct (decide (j = id)) as [-> | N].
    + rewrite lookup_insert_eq, decide_False by done. intros [= <-]. destruct (info id); cbn in *. by subst.
    + rewrite lookup_insert_ne by done. intros Ej. by rewrite (H1 j m Ej).
  - intros j x Ex. destruct (H2 j x Ex) as [-> Hm]. split; [done|]. apply Hd. by right.
  - intros p q. cbn. destruct (decide (p = mm_partition (info id))) as [-> | N].
    + rewrite lookup_insert_eq. intros [= <-]. 
      destruct (mon_offset s !! mm_partition (info id)) as [q0|] eqn:Eq; cbn.
      * destruct (H3 _ _ Eq) as [Hn Hi]. split.
        { apply NoDup_app. split; [done|]. split; [|by apply NoDup_singleton]. intros j Hj ->%list_elem_of_singleton.
          destruct (Hi id Hj) as [[? ?] _]. congruence. }
        intros j [Hj | ->%list_elem_of_singleton]%elem_of_app.
        { destruct (Hi j Hj) as [Hm Hp]. split; [apply Hd; by right|done]. }
        split; [apply Hd; by left|done].
      * split; [apply NoDup_singleton|]. intros j ->%list_elem_of_singleton. split; [apply Hd; by left|done].
    + rewrite lookup_insert_ne by done. intros Eq. destruct (H3 p q Eq) as [Hn Hi]. split; [done|]. intros j Hj.
      destruct (Hi j Hj) as [Hm Hp]. split; [apply Hd; by right|done].
  - intros j Hj. apply Hd in Hj. cbn. destruct (decide (mm_partition (info id) = mm_partition (info j))) as [E | N].
    + rewrite E, lookup_insert_eq. cbn. apply elem_of_app. destruct Hj as [-> | Hj]; [right; by left|left].
      by apply H4.
    + rewrite lookup_insert_ne by done. destruct Hj as [-> | Hj]; [done|by apply H4].
Qed.

Lemma gaps_app l1 l2 : gaps_of (l1 ++ l2) = gaps_of l1 ++ gaps_of l2.
Proof. apply List.filter_app. Qed.

(** What the two processors report is sent as far as it is about gaps. *)
Lemma report_spec s id m : mon_mem s !! id = Some m -> is_Some (mm_feed m) -> (gaps_of (res_json (mon_def s)) <> [] -> res_code (mon_def s) = WARN) ->
  exists s', (let! s1 := ValidityProcessor_exec (getResult (mon_def s) s) id in Ret (getResult (mon_val s1) s1)) = Ret s' /\
    mon_mem s' = mon_mem s /\ mon_offset s' = mon_offset s /\ mon_ctx s' = mon_ctx s /\ mon_sf_to_m s' = mon_sf_to_m s /\
    mon_commits s' = mon_commits s /\ gaps_of (mon_produced s') = gaps_of (mon_produced s) ++ gaps_of (res_json (mon_def s)).
Proof.
  intros Em [fd Ef] Hw. cbn zeta. set (s1 := getResult (mon_def s) s).
  assert (E1 : mon_mem s1 = mon_mem s /\ mon_offset s1 = mon_offset s /\ mon_ctx s1 = mon_ctx s /\ mon_sf_to_m s1 = mon_sf_to_m s /\
    mon_commits s1 = mon_commits s /\ gaps_of (mon_produced s1) = gaps_of (mon_produced s) ++ gaps_of (res_json (mon_def s))).
  { unfold s1, getResult. destruct (res_code (mon_def s)) eqn:Ec; cbn; rewrite ?gaps_app; try done. split_and!; try done.
    destruct (gaps_of (res_json (mon_def s))); [by rewrite app_nil_r|]. by discriminate Hw. }
  clearbody s1. destruct E1 as (M1 & E1). unfold ValidityProcessor_exec, get_message. rewrite M1, Em. cbn [obind]. rewrite Ef.
  destruct fd as [sf | pf]; cbn [obind]; [eexists; split; [done|]; cbn; done|].
  eexists. split; [done|]. unfold getResult. cbn. destruct (_ || _); cbn; rewrite ?gaps_app; cbn; rewrite ?app_nil_r; done.
Qed.

Lemma run_round_spec s id : mon_ok s -> mon_mem s !! id = None -> good id ->
  exists s', run_round s id (info id) = Ret s' /\ round_done s s' id.
Proof.
  intros Hk Em Hg. destruct (enqueue_ok s id Hk Em Hg) as (Hk1 & Nw & Hd1).
  unfold run_round, process_message. set (s1 := enqueue_message s id (info id)) in *. 
  assert (F1 : mon_mem s1 !! id = Some (info id)) by apply lookup_insert_eq.
  unfold DeficiencyProcessor_exec. set (s2 := with_def _ s1).
  assert (Hk2 : mon_ok s2) by (destruct Hk1 as [Hh Hc]; split; [by eapply heap_ok_ext; [| | |exact Hh]|exact Hc]).
  unfold get_message. change (mon_mem s2) with (mon_mem s1). rewrite F1. cbn [obind].
  destruct Hg as [Hl [fd Hfd]]. rewrite Hfd. destruct fd as [sf | pf].
  - destruct (exec_statistics_spec s2 id sf Hk2) as (s3 & -> & [T1 T2 T3 T4 T5 T6 (c' & gaps & T7 & T8 & T9 & T10)]);
      [change (mon_mem s2) with (mon_mem s1); by rewrite F1|done|done|]. cbn [obind].
    destruct (T2) as [P1 P2 P3 P4 P5].
    destruct (proj2 (P5 id)) as [m Em3]; [change (mon_mem s2) with (mon_mem s1); by rewrite F1|].
    destruct (mem_get s3 id m (mo_heap _ T1) Em3) as [_ Ef3]. 
    cbn zeta. destruct (report_spec s3 id m Em3) as (s4 & -> & Q1 & Q2 & Q3 & Q4 & Q5 & Q6); [by rewrite Ef3, Hfd|by rewrite T9|].
    exists s4. split; [done|].
    assert (W4 : forall j, waiting s4 j <-> waiting s3 j) by (intros j; unfold waiting; by rewrite Q4).
    split.
    + destruct T1 as [Hh Hc]. split; [by eapply heap_ok_ext|]. unfold queue_ok, waiting in *. by rewrite Q3, Q4.
    + by rewrite Q5, P2.
    + by rewrite Q2, P1.
    + intros j. rewrite Q1, P5. apply Hd1.
    + intros j Hj. apply W4 in Hj. by apply T3.
    + rewrite Hfd. split_and!.
      * intros j Hj Nj. apply W4, T5; done.
      * intros Hlt. by apply W4, T4.
      * intros f N. rewrite Q3. by apply T6.
      * exists c', gaps. rewrite Q3. split_and!; [done|done|]. rewrite Q6, T9, P3. done.
  - cbn [obind]. 
    cbn zeta. destruct (report_spec s2 id (info id) F1) as (s4 & -> & Q1 & Q2 & Q3 & Q4 & Q5 & Q6); [by rewrite Hfd|done|].
    exists s4. split; [done|].
    assert (W4 : forall j, waiting s4 j <-> waiting s2 j) by (intros j; unfold waiting; by rewrite Q4).
    split.
    + destruct Hk2 as [Hh Hc]. split; [by eapply heap_ok_ext|]. unfold queue_ok, waiting in *. by rewrite Q3, Q4.
    + by rewrite Q5.
    + by rewrite Q2.
    + intros j. rewrite Q1. apply Hd1.
    + intros j Hj. apply W4 in Hj. by left.
    + rewrite Hfd. split_and!; [|done|by rewrite Q6, app_nil_r]. intros j Hj. by apply W4.
Qed.

(** ** Storing offsets *)

Definition offset_queue s (p : Z) : list Z := default [] (mon_offset s !! p).

Definition commits_of (p : Z) s : list Z := snd <$> filter (fun x => x.1 = p) (mon_commits s).

(** The free messages at the front of a queue are deleted. *)
Lemma pop_free_spec s q cur : NoDup q -> (forall id, id ∈ q -> mon_mem s !! id = Some (set_live (if decide (waiting s id) then 1 else 0) (info id))) ->
  exists s' q' del, pop_free s q cur = Ret (s', q', match last del with Some id => Some (set_live 0 (info id)) | None => cur end) /\
    q = del ++ q' /\ s' = with_mem (fun m => mon_mem s') s /\ (forall j, mon_mem s' !! j = if decide (j ∈ del) then None else mon_mem s !! j) /\
    (forall id, id ∈ del -> ~ waiting s id) /\ (match q' with [] => True | id :: _ => waiting s id end).
Proof.
  revert s cur. induction q as [|id q IH]; intros s cur Hn Hm; cbn [pop_free].
  { exists s, [], []. split_and!; [done|done|by destruct s| |intros ? []%not_elem_of_nil|done].
    intros j. rewrite decide_False; [done|apply not_elem_of_nil]. }
  apply NoDup_cons in Hn as [Hx Hn]. unfold get_message. rewrite (Hm id (list_elem_of_here _ _)). cbn [obind].
  destruct (decide (waiting s id)) as [Hw | Nw]; cbn.
  { exists s, (id :: q), []. split_and!; [done|done|by destruct s| |intros ? []%not_elem_of_nil|done].
    intros j. rewrite decide_False; [done|apply not_elem_of_nil]. }
  destruct (IH (with_mem (delete id) s) (Some (set_live 0 (info id))) Hn) as (s' & q' & del & -> & -> & Es & Ed & Hd & Hf).
  { intros j Hj. cbn. rewrite lookup_delete_ne by (intros ->; done). apply Hm. by right. }
  exists s', q', (id :: del). split_and!; [| |done| | |done].
  - rewrite last_cons. by destruct (last del).
  - done.
  - intros j. rewrite Ed. cbn. destruct (decide (j = id)) as [-> | N].
    + rewrite lookup_delete_eq, (decide_True (P := id ∈ id :: del)) by apply list_elem_of_here. by destruct (decide _).
    + rewrite lookup_delete_ne by done. apply decide_ext. rewrite elem_of_cons. tauto.
  - intros j [-> | Hj]%elem_of_cons; [done|by apply Hd].
Qed.

Record stored s s' : Prop := mk_stored {
  st_ok : mon_ok s';
  st_ctx : mon_ctx s' = mon_ctx s;
  st_sf : mon_sf_to_m s' = mon_sf_to_m s;
  st_produced : mon_produced s' = mon_produced s;
  st_dom : forall j, is_Some (mon_mem s' !! j) -> is_Some (mon_mem s !! j);
  st_part : forall p, exists del, offset_queue s p = del ++ offset_queue s' p /\
    last (commits_of p s') = (match last del with Some id => Some (mm_offset (info id)) | None => last (commits_of p s) end) /\
    forall id, id ∈ del -> ~ waiting s id }.

Lemma stored_trans s1 s2 s3 : stored s1 s2 -> stored s2 s3 -> stored s1 s3.
Proof.
  intros [A1 A2 A3 A4 A5 A6] [B1 B2 B3 B4 B5 B6]. split; [done|congruence|congruence|congruence|auto|]. intros p.
  destruct (A6 p) as (d1 & E1 & L1 & W1), (B6 p) as (d2 & E2 & L2 & W2). exists (d1 ++ d2).
  rewrite E1, E2, L2, L1, last_app, app_assoc. split; [done|]. split; [by destruct (last d2), (last d1)|].
  intros id [?%W1 | Hd%W2]%elem_of_app; [done|]. unfold waiting in *. by rewrite <- A3.
Qed.

Definition front_waits s p : Prop := match offset_queue s p with [] => True | id :: _ => waiting s id end.

Lemma commits_of_commit p x s : commits_of p (commit x s) = commits_of p s ++ (if decide (x.1 = p) then [x.2] else []).
Proof. unfold commits_of. cbn. rewrite filter_app, fmap_app. f_equal. cbn. by destruct (decide _). Qed.

Lemma store_queue_spec s p q : mon_ok s -> mon_offset s !! p = Some q ->
  exists s', store_offset_queue s p q = Ret s' /\ stored s s' /\ front_waits s' p /\
    (forall p', p' <> p -> mon_offset s' !! p' = mon_offset s !! p').
Proof.
  intros [Hh Hc] Eq. pose proof Hh as [H1 H2 H3 H4]. destruct (H3 p q Eq) as [Hn Hi].
  destruct (pop_free_spec s q None Hn) as (s1 & q' & del & E1 & -> & Es & Ed & Hd & Hf).
  { intros id Hid. destruct (Hi id Hid) as [[m Em] _]. rewrite Em. by rewrite (H1 id m Em) at 1. }
  unfold store_offset_queue. rewrite E1. cbn [obind]. clear E1. rewrite Es. clear Es. generalize dependent (mon_mem s1). intros mem Ed. clear s1.
  set (s2 := with_offset _ _). set (s3 := match match last del with Some _ => _ | None => _ end with Some _ => _ | None => _ end).
  assert (E3 : mon_mem s3 = mem /\ mon_offset s3 = <[p := q']> (mon_offset s) /\ mon_ctx s3 = mon_ctx s /\ mon_sf_to_m s3 = mon_sf_to_m s /\
    mon_produced s3 = mon_produced s) by (unfold s3; by destruct (last del)).
  destruct E3 as (M3 & O3 & C3 & S3 & P3).
  assert (Hdp : forall id, id ∈ del -> mm_partition (info id) = p) by (intros id Hid; apply Hi, elem_of_app; by left).
  assert (K3 : forall p', commits_of p' s3 = commits_of p' s ++
    match last del with Some id => if decide (p = p') then [mm_offset (info id)] else [] | None => [] end).
  { intros p'. unfold s3. destruct (last del) as [id|] eqn:El; [|by rewrite app_nil_r].
    rewrite commits_of_commit. cbn. rewrite (Hdp id); [done|]. by eapply last_Some_elem_of. }
  clearbody s3. clear s2. apply NoDup_app in Hn as (Hn1 & Hn12 & Hn2).
  assert (W3 : forall j, waiting s3 j <-> waiting s j) by (intros j; unfold waiting; by rewrite S3).
  exists s3. split; [done|]. split; [|split].
  - split; [|done|done|done| |].
    + split; [|unfold queue_ok, waiting in *; by rewrite C3, S3]. split.
      * intros j m. rewrite M3, Ed. destruct (decide (j ∈ del)); [done|]. intros Ej. rewrite (H1 j m Ej). f_equal. by apply decide_ext.
      * intros j x. rewrite S3, M3, Ed. intros Ex. destruct (H2 j x Ex) as [-> Hm]. split; [done|].
        rewrite decide_False; [done|]. intros Hj%Hd. apply Hj. by eexists.
      * intros p' r. rewrite O3, M3. destruct (decide (p' = p)) as [-> | N].
        { rewrite lookup_insert_eq. intros [= <-]. split; [done|]. intros j Hj. rewrite Ed, decide_False.
          - apply Hi, elem_of_app. by right.
          - intros Hj'. by eapply Hn12. }
        rewrite lookup_insert_ne by done. intros Er. destruct (H3 p' r Er) as [Hr Hir]. split; [done|]. intros j Hj.
        destruct (Hir j Hj) as [Hm Hp]. split; [|done]. rewrite Ed, decide_False; [done|]. intros Hj'%Hdp. congruence.
      * intros j. rewrite O3, M3, Ed. destruct (decide (j ∈ del)) as [|Nj]; [by intros [? ?]|]. intros Hj%H4.
        destruct (decide (mm_partition (info j) = p)) as [E | N]; [|by rewrite lookup_insert_ne].
        rewrite E, Eq in Hj. rewrite E, lookup_insert_eq. cbn in *. apply elem_of_app in Hj as [?|?]; done.
    + intros j. rewrite M3, Ed. destruct (decide _); [by intros [? ?]|done].
    + intros p'. unfold offset_queue. rewrite O3, K3. destruct (decide (p = p')) as [<- | N].
      * rewrite lookup_insert_eq, Eq. exists del. cbn. split; [done|]. split; [|done]. rewrite last_app. by destruct (last del).
      * rewrite lookup_insert_ne by done. exists []. split; [done|]. split; [|intros ? []%not_elem_of_nil].
        destruct (last del); by rewrite app_nil_r.
  - unfold front_waits, offset_queue. rewrite O3, lookup_insert_eq. cbn. destruct q'; [done|]. by apply W3.
  - intros p' N. rewrite O3. by rewrite lookup_insert_ne.
Qed.

Lemma stored_refl s : mon_ok s -> stored s s.
Proof. intros H. split; try done. intros p. exists []. split; [done|]. split; [done|intros ? []%not_elem_of_nil]. Qed.

Lemma store_loop_spec s qs : mon_ok s -> NoDup qs.*1 -> (forall p q, (p, q) ∈ qs -> mon_offset s !! p = Some q) ->
  exists s', store_offset_loop s qs = Ret s' /\ stored s s' /\ (forall p, p ∈ qs.*1 -> front_waits s' p) /\
    (forall p', p' ∉ qs.*1 -> mon_offset s' !! p' = mon_offset s !! p').
Proof.
  revert s. induction qs as [|[p q] qs IH]; intros s Hk Hn Hq; cbn [store_offset_loop].
  { exists s. split; [done|]. split; [by apply stored_refl|]. split; [intros p []%not_elem_of_nil|done]. }
  cbn in Hn. apply NoDup_cons in Hn as [Hx Hn].
  destruct (store_queue_spec s p q Hk) as (s1 & -> & T1 & F1 & O1); [apply Hq, list_elem_of_here|]. cbn [obind].
  destruct (IH s1 (st_ok _ _ T1) Hn) as (s2 & E2 & T2 & F2 & O2).
  { intros p' q' Hin. rewrite O1; [apply Hq; by right|]. intros ->. apply Hx, list_elem_of_fmap. by exists (p, q'). }
  exists s2. split; [done|]. split; [by eapply stored_trans|]. cbn. split.
  - intros p' [-> | Hp]%elem_of_cons; [|by apply F2]. unfold front_waits, offset_queue, waiting in *.
    by rewrite (O2 p Hx), (st_sf _ _ T2).
  - intros p' [N N']%not_elem_of_cons. rewrite O2, O1 by done. done.
Qed.

Lemma store_offset_spec s : mon_ok s -> exists s', store_offset s = Ret s' /\ stored s s' /\ forall p, front_waits s' p.
Proof.
  intros Hk. destruct (store_loop_spec s (map_to_list (mon_offset s)) Hk) as (s' & E & T & F & O).
  - apply NoDup_fst_map_to_list.
  - intros p q. apply elem_of_map_to_list.
  - exists s'. split; [done|]. split; [done|]. intros p. destruct (decide (p ∈ (map_to_list (mon_offset s)).*1)) as [Hp | Np]; [by apply F|].
    unfold front_waits, offset_queue. rewrite (O p Np). destruct (mon_offset s !! p) as [q|] eqn:Eq; [|done].
    destruct Np. apply list_elem_of_fmap. exists (p, q). split; [done|by apply elem_of_map_to_list].
Qed.

(** ** Runs

    A run whose rounds are not interrupted: messages by their ids, [None] for
    the backup thread. *)
Definition events_of (rs : list (option Z)) : list event :=
  rs ≫= fun r => match r with Some id => [EvEnqueue id (info id); EvProcess id] | None => [EvBackup] end.

Definition messages (rs : list (option Z)) : list Z := omap id rs.

(** The messages of a partition in the order of arrival. *)
Definition received (p : Z) (rs : list (option Z)) : list Z := filter (fun j => mm_partition (info j) = p) (messages rs).

Lemma run_events_app s es es' : run_events s (es ++ es') = (let! s' := run_events s es in run_events s' es').
Proof. revert s. induction es as [|e es IH]; intros s; cbn; [done|]. destruct (run_event s e); cbn; [apply IH|done..]. Qed.

Definition run_step s (r : option Z) : outcome monitor := run_events s (events_of [r]).

Lemma run_snoc s rs r : run_events s (events_of (rs ++ [r])) = (let! s' := run_events s (events_of rs) in run_step s' r).
Proof. unfold events_of at 1. rewrite bind_app. apply run_events_app. Qed.

Lemma messages_snoc rs r : messages (rs ++ [r]) = messages rs ++ (match r with Some j => [j] | None => [] end).
Proof. unfold messages. rewrite omap_app. by destruct r. Qed.

Lemma run_step_message s j : mon_ok s -> mon_mem s !! j = None -> good j ->
  exists s', run_step s (Some j) = Ret s' /\ round_done s s' j.
Proof.
  intros Hk Hm Hg. destruct (run_round_spec s j Hk Hm Hg) as (s' & E & Hr). exists s'. split; [|done].
  unfold run_round in E. unfold run_step. cbn. by rewrite E.
Qed.

Lemma run_step_backup s : mon_ok s -> exists s', run_step s None = Ret s' /\ stored s s' /\ forall p, front_waits s' p.
Proof.
  intros Hk. destruct (store_offset_spec s Hk) as (s' & E & T). exists s'. split; [|done].
  unfold run_step. cbn. unfold backupMetaData. by rewrite E.
Qed.

(** What holds after an uninterrupted run. *)
Record run_ok (rs : list (option Z)) s : Prop := mk_run_ok {
  ro_ok : mon_ok s;
  ro_mem : forall j, is_Some (mon_mem s !! j) -> j ∈ messages rs;
  ro_part : forall p, exists del, received p rs = del ++ offset_queue s p /\
    last (commits_of p s) = (fun j => mm_offset (info j)) <$> last del }.

Lemma run_ok_init : run_ok [] monitor_init.
Proof.
  split.
  - split; [split|]; cbn; intros *; rewrite ?lookup_empty; try done; by intros [? ?].
  - cbn. intros j. rewrite lookup_empty. by intros [? ?].
  - intros p. exists []. done.
Qed.

Lemma run_ok_message rs s s' j : run_ok rs s -> round_done s s' j -> run_ok (rs ++ [Some j]) s'.
Proof.
  intros [H1 H2 H3] [R1 R2 R3 R4 R5 _]. split; [done| |].
  - intros i. rewrite R4, messages_snoc, elem_of_app. intros [-> | Hi]; [right; by left|left; by apply H2].
  - intros p. destruct (H3 p) as (del & E & L). exists del. unfold commits_of, received, offset_queue in *. 
    rewrite R2, R3, messages_snoc, filter_app, E. split; [|done]. destruct (decide (mm_partition (info j) = p)) as [Ep | N].
    + rewrite Ep, lookup_insert_eq. cbn. by rewrite decide_True, app_assoc.
    + rewrite lookup_insert_ne by done. cbn. by rewrite decide_False, app_nil_r.
Qed.

Lemma run_ok_backup rs s s' : run_ok rs s -> stored s s' -> run_ok (rs ++ [None]) s'.
Proof.
  intros [H1 H2 H3] [T1 T2 T3 T4 T5 T6]. split; [done| |].
  - intros i Hi. rewrite messages_snoc, app_nil_r. by apply H2, T5.
  - intros p. destruct (H3 p) as (del & E & L), (T6 p) as (d & E' & L' & _). exists (del ++ d).
    unfold received. rewrite messages_snoc, app_nil_r. unfold received in E. rewrite E, E', L', L, last_app, app_assoc.
    split; [done|]. by destruct (last d), (last del).
Qed.

Lemma run_ok_run rs : NoDup (messages rs) -> (forall j, j ∈ messages rs -> good j) ->
  exists s, run_events monitor_init (events_of rs) = Ret s /\ run_ok rs s /\ (last rs = Some None -> forall p, front_waits s p).
Proof.
  induction rs as [|r rs IH] using rev_ind; intros Hn Hg.
  { exists monitor_init. split; [done|]. split; [apply run_ok_init|done]. }
  rewrite messages_snoc in Hn, Hg. apply NoDup_app in Hn as (Hn & Hx & _).
  destruct IH as (s & E & Hr & _); [done|intros; apply Hg, elem_of_app; by left|]. rewrite run_snoc, E. cbn [obind].
  destruct r as [j|].
  - destruct (run_step_message s j (ro_ok _ _ Hr)) as (s' & -> & R).
    + apply eq_None_not_Some. intros Hj%(ro_mem _ _ Hr). by apply (Hx j Hj), list_elem_of_here.
    + apply Hg, elem_of_app. right. apply list_elem_of_here.
    + exists s'. split; [done|]. split; [by eapply run_ok_message|]. rewrite last_snoc. done.
  - destruct (run_step_backup s (ro_ok _ _ Hr)) as (s' & -> & T & F). exists s'. split; [done|]. 
    split; [by eapply run_ok_backup|done].
Qed.

End Monitor.
