(* ===== verification/MonitorRuns.v ===== *)
(** * The monitor: whole runs

    Offsets are committed at least once and never past a feed that is held
    back; feeds that overtake each other are put back in order without a
    report; a late feed holds back its partition for ever; and what happens
    when the backup thread interrupts a round. *)
From Stdlib Require Import ZArith Lia.
From Stdlib Require Import Floats.SpecFloat.
From stdpp Require Import base numbers list gmap sorting.
From S2P Require Import Prelude.
From S2P Require Import Monitor.
From S2P Require Import MonitorSpec.

Section Runs.
Context (info : Z -> MyMessage).

Implicit Types (s : monitor) (rs : list (option Z)).

(** C2. Uninterrupted rounds of the event loop and of the backup thread, on any
    stream of distinct messages with a feed, never use a deleted message,
    fail the assertion of [kill] or lock a locked context.  For every partition the messages
    received are those already deleted followed by the offset queue, the last
    committed offset is that of the last deleted message, and every message
    whose feed still waits is in the queue: a restart from the committed
    offset sees it again.  After the backup thread has run, the queue starts
    with a waiting message: everything before it was committed. *)
Theorem monitor_at_least_once rs : NoDup (messages rs) -> (forall j, j ∈ messages rs -> good info j) ->
  exists s, run_events monitor_init (events_of info rs) = Ret s /\
    (forall p, exists del, received info p rs = del ++ offset_queue s p /\
       last (commits_of p s) = (fun j => mm_offset (info j)) <$> last del /\ forall j, j ∈ del -> ~ waiting s j) /\
    (forall j, waiting s j -> j ∈ offset_queue s (mm_partition (info j))) /\
    (last rs = Some None -> forall p, match offset_queue s p with [] => True | j :: _ => waiting s j end).
Proof.
  intros Hn Hg. destruct (run_ok_run info rs Hn Hg) as (s & E & [Hk Hm Hp] & Hf). exists s. split; [done|].
  assert (Hw : forall j, waiting s j -> j ∈ offset_queue s (mm_partition (info j))).
  { intros j [x Ex]. destruct Hk as [[_ H2 _ H4] _]. apply H4. by eapply H2. }
  split; [|done]. intros p. destruct (Hp p) as (del & Er & L). exists del. split; [done|]. split; [done|]. intros j Hj Wj.
  assert (Hr : NoDup (received info p rs)) by by apply NoDup_filter.
  assert (Pj : mm_partition (info j) = p).
  { assert (Hj' : j ∈ received info p rs) by (rewrite Er; apply elem_of_app; by left). by apply list_elem_of_filter in Hj' as [? _]. }
  rewrite Er in Hr. apply NoDup_app in Hr as (_ & Hd & _). apply (Hd j Hj). rewrite <- Pj. by apply Hw.
Qed.

(** ** Late feeds *)

(** A feed that is held and is in no reorder queue. *)
Definition stuck s (j : Z) : Prop := waiting s j /\ forall f c, mon_ctx s !! f = Some c -> j ∉ cx_queue c.

Lemma arrive_sub f q et j q' et' gaps i : arrive info f q et j q' et' gaps -> i ∈ q' -> i ∈ q \/ (i = j /\ et < ts info j).
Proof.
  intros [(_ & -> & _) | [(_ & -> & _) | (L & q1 & et1 & Hp & _ & Hd & _)]] Hi; [by left..|].
  assert (Hi1 : i ∈ q1) by (apply (drain_ts_sub info q1 et); by rewrite Hd). rewrite Hp in Hi1.
  apply elem_of_cons in Hi1 as [-> | ?]; auto.
Qed.

Lemma start_queue s sf i : i ∈ cx_queue (start_context s sf) -> exists c, mon_ctx s !! sf_FEEDCODE sf = Some c /\ i ∈ cx_queue c.
Proof. unfold start_context. destruct (mon_ctx s !! sf_FEEDCODE sf) as [c|]; [by exists c|]. cbn. by intros ?%not_elem_of_nil. Qed.

Lemma round_stuck s s' i j : round_done info s s' j -> i <> j -> stuck s i -> stuck s' i.
Proof.
  intros [_ _ _ _ _ Hf] N [Hw Hq]. destruct (mm_feed (info j)) as [[sf | pf]|].
  - destruct Hf as (K & _ & O & c' & gaps & Ec & Ha & _).
    assert (Ns : i ∉ cx_queue (start_context s sf)) by (intros (c & E & Hi)%start_queue; by apply (Hq _ _ E)).
    split; [by apply K|]. intros f c Efc. destruct (decide (f = sf_FEEDCODE sf)) as [-> | Nf].
    + rewrite Ec in Efc. injection Efc as <-. intros [? | [? _]]%(arrive_sub _ _ _ _ _ _ _ _ Ha); done.
    + rewrite (O f Nf) in Efc. by eapply Hq.
  - destruct Hf as (K & Ec & _). unfold stuck. rewrite Ec. split; [by apply K|done].
  - destruct Hf as (K & Ec & _). unfold stuck. rewrite Ec. split; [by apply K|done].
Qed.

Lemma store_stuck s s' i : stored info s s' -> stuck s i -> stuck s' i.
Proof. intros [_ Ec Es _ _ _] [Hw Hq]. unfold stuck, waiting in *. by rewrite Ec, Es. Qed.

(** A late feed is stuck. *)
Lemma late_stuck rs s s' j sf c : run_ok info rs s -> j ∉ messages rs -> round_done info s s' j -> mm_feed (info j) = Some (FStatistics sf) ->
  mon_ctx s !! sf_FEEDCODE sf = Some c -> sf_EXCHANGE_TIMESTAMP sf < cx_expect c -> stuck s' j.
Proof.
  intros Hr Nj [_ _ _ _ _ Hf] Ef Ec L. rewrite Ef in Hf. destruct Hf as (_ & Hl & O & c' & gaps & Ec' & Ha & _).
  assert (Es : start_context s sf = c) by (unfold start_context; by rewrite Ec).
  assert (Et : ts info j = sf_EXCHANGE_TIMESTAMP sf) by (unfold ts; by rewrite Ef). rewrite Es, Et in *.
  assert (Nw : ~ waiting s j).
  { intros [x Ex]. destruct (ho_sf _ _ (mo_heap _ _ (ro_ok _ _ _ Hr)) j x Ex) as [_ Hm]. by apply Nj, (ro_mem _ _ _ Hr). }
  assert (Nq : forall f c, mon_ctx s !! f = Some c -> j ∉ cx_queue c).
  { intros f c0 E0 Hj. destruct (mo_ctx _ _ (ro_ok _ _ _ Hr) f c0 E0) as [_ [_ Hi]]. by destruct (Hi j Hj). }
  split; [by apply Hl|]. intros f c0 E0. destruct (decide (f = sf_FEEDCODE sf)) as [-> | Nf].
  - rewrite Ec' in E0. injection E0 as <-. intros [? | [_ ?]]%(arrive_sub _ _ _ _ _ _ _ _ Ha); [by eapply Nq|]. lia.
  - rewrite (O f Nf) in E0. by eapply Nq.
Qed.

Lemma run_stuck rs1 s1 rs j : run_ok info rs1 s1 -> stuck s1 j -> j ∈ messages rs1 -> NoDup (messages (rs1 ++ rs)) ->
  (forall i, i ∈ messages rs -> good info i) ->
  exists s, run_events s1 (events_of info rs) = Ret s /\ run_ok info (rs1 ++ rs) s /\ stuck s j.
Proof.
  revert rs1 s1. induction rs as [|r rs IH]; intros rs1 s1 Hr Hs Hj Hn Hg.
  { exists s1. by rewrite app_nil_r. }
  assert (Ea : rs1 ++ r :: rs = (rs1 ++ [r]) ++ rs) by by rewrite <- app_assoc.
  assert (En : messages (rs1 ++ r :: rs) = messages (rs1 ++ [r]) ++ messages rs) by (rewrite Ea; unfold messages; apply omap_app).
  change (events_of info (r :: rs)) with (events_of info ([r] ++ rs)). unfold events_of. rewrite bind_app, run_events_app.
  fold (events_of info [r]). fold (events_of info rs). fold (run_step info s1 r).
  rewrite En, messages_snoc in Hn. apply NoDup_app in Hn as Hn'. destruct Hn' as (Hn1 & _ & _). apply NoDup_app in Hn1 as (_ & Hx & _).
  destruct r as [i|].
  - assert (Ni : i ∉ messages rs1) by (intros Hi; by apply (Hx i Hi), list_elem_of_here).
    destruct (run_step_message info s1 i (ro_ok _ _ _ Hr)) as (s2 & -> & R).
    + apply eq_None_not_Some. intros Hi%(ro_mem _ _ _ Hr). done.
    + apply Hg. by left.
    + cbn [obind]. rewrite Ea. apply IH; [by eapply run_ok_message|eapply round_stuck; [done|by intros <-|done]| | |].
      * rewrite messages_snoc. apply elem_of_app. by left.
      * unfold messages. rewrite omap_app. fold (messages (rs1 ++ [Some i])) (messages rs). by rewrite messages_snoc.
      * intros; apply Hg. by right.
  - destruct (run_step_backup info s1 (ro_ok _ _ _ Hr)) as (s2 & -> & T & _). cbn [obind]. rewrite Ea.
    apply IH; [by eapply run_ok_backup|by eapply store_stuck| | |done].
    + rewrite messages_snoc. apply elem_of_app. by left.
    + unfold messages. rewrite omap_app. fold (messages (rs1 ++ [None])) (messages rs). by rewrite messages_snoc.
Qed.
Lemma split_after {A} (j : A) a b del q : NoDup (a ++ j :: b) -> a ++ j :: b = del ++ q -> j ∈ q -> exists q', q = q' ++ j :: b.
Proof.
  revert a. induction del as [|d del IH]; intros a Hn E Hj; [by exists a|]. destruct a as [|x a]; cbn in *; injection E as -> E.
  - apply NoDup_cons in Hn as [Nj _]. rewrite E in Nj. destruct Nj. apply elem_of_app. by right.
  - apply NoDup_cons in Hn as [_ Hn]. by apply (IH a).
Qed.

(** C16. A feed that arrives after its time stamp was passed is reported, but
    its message is never released: whatever arrives afterwards and however
    often the backup thread runs, the feed keeps waiting.  Its message and every message
    of the partition received after it stay in the offset queue and in memory,
    and the offset committed last for the partition is that of a message
    received before it. *)
Theorem late_feed_blocks rs1 rs2 j sf s1 c : NoDup (messages (rs1 ++ Some j :: rs2)) ->
  (forall i, i ∈ messages (rs1 ++ Some j :: rs2) -> good info i) ->
  run_events monitor_init (events_of info rs1) = Ret s1 -> mm_feed (info j) = Some (FStatistics sf) ->
  mon_ctx s1 !! sf_FEEDCODE sf = Some c -> sf_EXCHANGE_TIMESTAMP sf < cx_expect c ->
  let p := mm_partition (info j) in
  exists s del q, run_events monitor_init (events_of info (rs1 ++ Some j :: rs2)) = Ret s /\ waiting s j /\
    offset_queue s p = q ++ j :: received info p rs2 /\
    (forall i, i ∈ offset_queue s p -> is_Some (mon_mem s !! i)) /\
    received info p rs1 = del ++ q /\ last (commits_of p s) = (fun i => mm_offset (info i)) <$> last del.
Proof.
  intros Hn Hg E1 Ef Ec L p. unfold p in *. clear p. unfold messages in Hn, Hg. rewrite omap_app in Hn, Hg. fold (messages rs1) in Hn, Hg.
  cbn in Hn, Hg. fold (messages rs2) in Hn, Hg.
  assert (Hn' := Hn). apply NoDup_app in Hn' as (Hn1 & Hx & Hn2).
  destruct (run_ok_run info rs1 Hn1) as (s1' & E1' & Hr1 & _); [intros; apply Hg, elem_of_app; by left|].
  rewrite E1 in E1'. injection E1' as <-.
  assert (Nj : j ∉ messages rs1) by (intros Hj; by apply (Hx j Hj), list_elem_of_here).
  destruct (run_step_message info s1 j (ro_ok _ _ _ Hr1)) as (s2 & E2 & R2).
  { apply eq_None_not_Some. intros Hj%(ro_mem _ _ _ Hr1). done. }
  { apply Hg, elem_of_app. right. by left. }
  assert (Hst : stuck s2 j) by by eapply late_stuck.
  assert (Hr2 : run_ok info (rs1 ++ [Some j]) s2) by by eapply run_ok_message.
  assert (Ea : rs1 ++ Some j :: rs2 = (rs1 ++ [Some j]) ++ rs2) by by rewrite <- app_assoc.
  assert (Em : messages ((rs1 ++ [Some j]) ++ rs2) = messages rs1 ++ j :: messages rs2).
  { unfold messages. by rewrite !omap_app, <- app_assoc. }
  destruct (run_stuck (rs1 ++ [Some j]) s2 rs2 j Hr2 Hst) as (s & E & Hr & [Hw Hq]).
  { rewrite messages_snoc. apply elem_of_app. right. by left. }
  { by rewrite Em. }
  { intros i Hi. apply Hg, elem_of_app. right. by right. }
  destruct (ro_part _ _ _ Hr (mm_partition (info j))) as (del & Ed & Hlast).
  assert (Er : received info (mm_partition (info j)) ((rs1 ++ [Some j]) ++ rs2) =
    received info (mm_partition (info j)) rs1 ++ j :: received info (mm_partition (info j)) rs2).
  { unfold received. rewrite Em, filter_app, filter_cons_True by done. done. }
  assert (Hin : j ∈ offset_queue s (mm_partition (info j))).
  { destruct Hw as [x Ex]. apply (ho_all _ _ (mo_heap _ _ (ro_ok _ _ _ Hr))). by eapply (ho_sf _ _ (mo_heap _ _ (ro_ok _ _ _ Hr))). }
  destruct (split_after j (received info (mm_partition (info j)) rs1) (received info (mm_partition (info j)) rs2) del (offset_queue s (mm_partition (info j)))) as (q & Eq);
    [| |done|].
  - rewrite <- Er. apply NoDup_filter. by rewrite Em.
  - by rewrite <- Er.
  - exists s, del, q. split_and!; try done.
    + rewrite Ea. unfold events_of. rewrite bind_app, run_events_app. fold (events_of info (rs1 ++ [Some j])) (events_of info rs2).
      rewrite run_snoc, E1. cbn [obind]. by rewrite E2.
    + intros i Hi. unfold offset_queue in Hi. destruct (mon_offset s !! mm_partition (info j)) as [qs|] eqn:Eo; [|by apply not_elem_of_nil in Hi].
      by apply (ho_off _ _ (mo_heap _ _ (ro_ok _ _ _ Hr)) _ _ Eo).
    + apply (app_inv_tail (j :: received info (mm_partition (info j)) rs2)). by rewrite <- app_assoc, <- Eq, <- Er, <- Ed.
Qed.

(** ** A round that is interrupted *)

Lemma process_returns s j : mon_ok info s -> is_Some (mon_mem s !! j) -> ~ waiting s j -> good info j ->
  exists s', process_message s j = Ret s'.
Proof.
  intros Hk Hm Nw [Hl [fd Hfd]]. unfold process_message, DeficiencyProcessor_exec. set (s2 := with_def _ s).
  assert (Hk2 : mon_ok info s2) by (destruct Hk as [Hh Hc]; split; [by eapply heap_ok_ext; [| | |exact Hh]|exact Hc]).
  assert (Hm2 : is_Some (mon_mem s2 !! j)) by exact Hm. destruct Hm as [m Em]. unfold get_message. change (mon_mem s2) with (mon_mem s).
  rewrite Em. cbn [obind]. destruct (mem_get info s j m (mo_heap _ _ Hk) Em) as [_ Ef]. rewrite Ef, Hfd. destruct fd as [sf | pf].
  - destruct (exec_statistics_spec info s2 j sf Hk2 Hm2 Nw Hfd) as (s3 & -> & [T1 [_ _ _ _ P5] _ _ _ _ (c' & gaps & _ & _ & T9 & T10)]). cbn [obind].
    destruct (proj2 (P5 j) Hm2) as [m3 Em3]. destruct (mem_get info s3 j m3 (mo_heap _ _ T1) Em3) as [_ Ef3].
    cbn zeta. destruct (report_spec s3 j m3 Em3) as (s4 & -> & _); [by rewrite Ef3, Hfd|by rewrite T9|by exists s4].
  - cbn [obind]. cbn zeta. destruct (report_spec s2 j m Em) as (s4 & -> & _); [by rewrite Ef, Hfd|done|by exists s4].
Qed.

(** What a backup leaves when it runs after the push of [j] to the offset queue. *)
Lemma enqueue_backup s j : mon_ok info s -> mon_mem s !! j = None -> good info j ->
  let p := mm_partition (info j) in
  exists s', run_events s [EvEnqueue j (info j); EvBackup] = Ret s' /\ mon_ok info s' /\ mon_sf_to_m s' = mon_sf_to_m s /\ ~ waiting s j /\
    front_waits s' p /\ exists del, offset_queue s p ++ [j] = del ++ offset_queue s' p /\ NoDup (offset_queue s p ++ [j]) /\
      forall i, last del = Some i -> last (commits_of p s') = Some (mm_offset (info i)).
Proof.
  intros Hk Em Hg p. destruct (enqueue_ok info s j Hk Em Hg) as (Hk1 & Nw & _).
  destruct (store_offset_spec info (enqueue_message s j (info j)) Hk1) as (s' & E & [Ok Hc Hsf _ _ Hp] & Hf).
  exists s'. cbn [run_events run_event obind]. unfold backupMetaData. rewrite E. cbn [obind]. split; [done|]. split; [done|]. split; [by rewrite Hsf|].
  split; [done|]. split; [apply Hf|]. destruct (Hp p) as (del & Eq & Hl & _).
  assert (Eo : offset_queue (enqueue_message s j (info j)) p = offset_queue s p ++ [j]) by (unfold offset_queue; cbn; by rewrite lookup_insert_eq).
  exists del. rewrite <- Eo. split; [done|]. split.
  - destruct Hk1 as [[_ _ H3 _] _]. unfold offset_queue. destruct (mon_offset _ !! p) as [q|] eqn:E'; [by apply (H3 p q)|constructor].
  - intros i Hi. by rewrite Hl, Hi.
Qed.

(** C40. The backup thread runs between the push to the offset queue and the
    processors of a round, after any uninterrupted run.  When no earlier message of the
    partition is held back, the message, which is not live yet, is taken for
    finished: its offset is committed, it is deleted, and the processor then reads
    freed memory.  When one is held back, the message survives and is
    processed. *)
Theorem backup_race_use_after_free rs s j : NoDup (messages (rs ++ [Some j])) ->
  (forall i, i ∈ messages (rs ++ [Some j]) -> good info i) -> run_events monitor_init (events_of info rs) = Ret s ->
  let p := mm_partition (info j) in
  ((forall i, i ∈ offset_queue s p -> ~ waiting s i) ->
     run_events s [EvEnqueue j (info j); EvBackup; EvProcess j] = Crash /\
     exists s', run_events s [EvEnqueue j (info j); EvBackup] = Ret s' /\ last (commits_of p s') = Some (mm_offset (info j)) /\
       mon_mem s' !! j = None) /\
  ((exists i, i ∈ offset_queue s p /\ waiting s i) ->
     exists s', run_events s [EvEnqueue j (info j); EvBackup; EvProcess j] = Ret s').
Proof.
  intros Hn Hg E p. rewrite messages_snoc in Hn, Hg. apply NoDup_app in Hn as (Hn & Hx & _).
  destruct (run_ok_run info rs Hn) as (s0 & E0 & Hr & _); [intros; apply Hg, elem_of_app; by left|]. rewrite E in E0. injection E0 as <-.
  assert (Gj : good info j) by (apply Hg, elem_of_app; right; by left).
  assert (Em : mon_mem s !! j = None).
  { apply eq_None_not_Some. intros Hj%(ro_mem _ _ _ Hr). by apply (Hx j Hj), list_elem_of_here. }
  destruct (enqueue_backup s j (ro_ok _ _ _ Hr) Em Gj) as (s' & E' & Hk' & Hsf & Nw & Hf & del & Eq & Hnd & Hl). fold p in Hf, Eq, Hnd, Hl.
  assert (W : forall i, waiting s' i <-> waiting s i) by (intros i; unfold waiting; by rewrite Hsf).
  change [EvEnqueue j (info j); EvBackup; EvProcess j] with ([EvEnqueue j (info j); EvBackup] ++ [EvProcess j]).
  rewrite run_events_app, E'. cbn [obind run_events run_event]. split.
  - intros Hfree. assert (Eq' : offset_queue s' p = []).
    { unfold front_waits in Hf. destruct (offset_queue s' p) as [|i q]; [done|]. apply W in Hf.
      assert (Hi : i ∈ offset_queue s p ++ [j]) by (rewrite Eq; apply elem_of_app; right; by left).
      apply elem_of_app in Hi as [Hi | ->%list_elem_of_singleton]; [by destruct (Hfree i Hi)|done]. }
    assert (Em' : mon_mem s' !! j = None).
    { apply eq_None_not_Some. intros Hj%(ho_all _ _ (mo_heap _ _ Hk')). fold p in Hj. unfold offset_queue in Eq'. rewrite Eq' in Hj. by apply not_elem_of_nil in Hj. }
    split; [unfold process_message, DeficiencyProcessor_exec, get_message; cbn; by rewrite Em'|].
    exists s'. split; [done|]. split; [|done]. apply Hl. rewrite Eq', app_nil_r in Eq. by rewrite <- Eq, last_snoc.
  - intros (i & Hi & Wi). assert (Hi' : i ∈ offset_queue s' p).
    { apply W in Wi as Wi'. destruct Wi' as [x Ex]. assert (Pi : mm_partition (info i) = p).
      { unfold offset_queue in Hi. destruct (mon_offset s !! p) as [q|] eqn:Eo; [|by apply not_elem_of_nil in Hi].
        by apply (ho_off _ _ (mo_heap _ _ (ro_ok _ _ _ Hr)) _ _ Eo). }
      unfold offset_queue. rewrite <- Pi. apply (ho_all _ _ (mo_heap _ _ Hk')). by eapply (ho_sf _ _ (mo_heap _ _ Hk')). }
    apply list_elem_of_split in Hi as (a & b & Ea). rewrite Ea, <- app_assoc in Eq, Hnd. cbn [app] in Eq, Hnd.
    destruct (split_after i a (b ++ [j]) del (offset_queue s' p) Hnd Eq Hi') as (q' & Eq').
    assert (Hj : j ∈ offset_queue s' p) by (rewrite Eq'; apply elem_of_app; right; right; apply elem_of_app; right; by left).
    destruct (process_returns s' j Hk') as (s2 & E2); [|by rewrite W|done|exists s2; by rewrite E2].
    unfold offset_queue in Hj. destruct (mon_offset s' !! p) as [qs|] eqn:Eo; [|by apply not_elem_of_nil in Hj].
    by apply (ho_off _ _ (mo_heap _ _ Hk') _ _ Eo).
Qed.

(** ** Feeds that overtake each other *)

Section Order.
Context (f : list Z) (t0 K : Z).

(** The time stamps of a code: [K + 1] of them, an interval apart. *)
Definition slot (k : Z) : Z := t0 + k * INTERVAL.

(** Arrivals: distinct time stamps of the grid, the first one first, and no
    feed is overtaken by more than 120 later ones. *)
Record on_time (arr : list Z) : Prop := mk_on_time {
  ot_slot : forall j, j ∈ arr -> exists k, 0 <= k <= K /\ ts info j = slot k;
  ot_inj : forall i j, i ∈ arr -> j ∈ arr -> ts info i = ts info j -> i = j;
  ot_head : forall j, head arr = Some j -> ts info j = t0;
  ot_over : forall pre k, pre `prefix_of` arr -> (forall j, j ∈ pre -> ts info j <> slot k) ->
    zlen (filter (fun j => slot k < ts info j) pre) <= 120 }.

Lemma on_time_prefix a b : on_time (a ++ b) -> on_time a.
Proof.
  intros [H1 H2 H3 H4]. split.
  - intros j Hj. apply H1, elem_of_app. by left.
  - intros i j Hi Hj. apply H2; apply elem_of_app; by left.
  - intros j Hj. apply H3. destruct a; [done|]. exact Hj.
  - intros pre k Hp. apply H4. by apply prefix_app_r.
Qed.

Context (Hlo : - 2 ^ 63 <= t0) (Hhi : slot (K + 1) < 2 ^ 63).

Lemma slot_lt j k : slot j < slot k <-> j < k.
Proof. unfold slot, INTERVAL. lia. Qed.

Lemma slot_next n : 0 <= n <= K -> s64 (slot n + INTERVAL) = slot (n + 1).
Proof. intros Hn. rewrite swrap_id; unfold s_ok, slot, INTERVAL in *; lia. Qed.

Lemma drain_slots q n : 0 <= n <= K + 1 -> StronglySorted (fun a b => ts info a <= ts info b) q ->
  (forall i j, i ∈ q -> j ∈ q -> ts info i = ts info j -> i = j) -> NoDup q ->
  (forall j, j ∈ q -> exists k, n <= k <= K /\ ts info j = slot k) ->
  exists q' n', drain_ts info q (slot n) = (q', slot n') /\ n <= n' <= K + 1 /\ NoDup q' /\
    StronglySorted (fun a b => ts info a <= ts info b) q' /\
    (forall j, j ∈ q' <-> j ∈ q /\ slot n' < ts info j) /\ (forall j, j ∈ q -> ts info j <> slot n') /\
    (forall k, n <= k < n' -> exists j, j ∈ q /\ ts info j = slot k).
Proof.
  revert n. induction q as [|x q IH]; intros n Hn Hs Hi Hnd Hg; cbn [drain_ts].
  { exists [], n. split_and!; try done; try lia; try constructor.
    - by intros []%not_elem_of_nil.
    - by intros [[]%not_elem_of_nil _].
    - intros j []%not_elem_of_nil. }
  pose proof Hs as [Hs' Hx]%StronglySorted_inv. apply NoDup_cons in Hnd as [Nx Hnd]. rewrite list.Forall_forall in Hx.
  destruct (Hg x (list_elem_of_here _ _)) as (k & Hk & Ek).
  destruct (Z.eqb_spec (ts info x) (slot n)) as [E | E].
  - assert (k = n) as -> by (unfold slot, INTERVAL in *; lia). rewrite slot_next by lia.
    destruct (IH (n + 1)) as (q' & n' & -> & Hn' & Hnd' & Hso & Hq & Hne & Hall); [lia|done| |done| |].
    { intros i j Hi' Hj'. apply Hi; by right. }
    { intros j Hj. destruct (Hg j) as (k & Hk' & Ej); [by right|]. exists k. split; [|done].
      destruct (decide (k = n)) as [-> | N]; [|lia]. destruct Nx. rewrite (Hi x j); [done|by left|by right|congruence]. }
    exists q', n'. pose proof (slot_lt n n'). split_and!; try done; try lia.
    + intros j. rewrite Hq, elem_of_cons. split; [intros [? ?]; by auto|]. intros [[-> | ?] ?]; [lia|done].
    + intros j [-> | Hj]%elem_of_cons; [lia|by apply Hne].
    + intros k Hk'. destruct (decide (k = n)) as [-> | N]; [exists x; split; [by left|done]|].
      destruct (Hall k) as (j & Hj & Ej); [lia|]. exists j. split; [by right|done].
  - assert (L : slot n < slot k) by (apply slot_lt; unfold slot, INTERVAL in *; lia).
    destruct (Z.ltb_spec (ts info x) (slot n)); [lia|]. exists (x :: q), n.
    assert (Hlt : forall j, j ∈ x :: q -> slot n < ts info j) by (intros j [-> | Hj%Hx]%elem_of_cons; lia).
    split_and!; try done; try lia.
    + by constructor.
    + intros j. split; [intros Hj; split; [done|by apply Hlt]|by intros [? _]].
    + intros j Hj%Hlt. lia.
Qed.

Definition is_feed (j : Z) : bool :=
  match mm_feed (info j) with Some (FStatistics sf) => bool_decide (sf_FEEDCODE sf = f) | _ => false end.

(** The feeds of the code in the order of arrival. *)
Definition arrivals rs : list Z := filter (fun j => is_feed j = true) (messages rs).

Definition gaps_for (l : list log) : list log :=
  List.filter (fun x => match x with LDelay g _ _ | LMiss g _ => bool_decide (g = f) | _ => false end) l.

Lemma gaps_for_of l : gaps_for (gaps_of l) = gaps_for l.
Proof. induction l as [|x l IH]; [done|]. destruct x; cbn; try exact IH; destruct (bool_decide _); cbn; [f_equal|..]; try exact IH; f_equal; exact IH. Qed.

Lemma gaps_for_round s s' gaps : gaps_of (mon_produced s') = gaps_of (mon_produced s) ++ gaps ->
  gaps_for (mon_produced s') = gaps_for (mon_produced s) ++ gaps_for gaps.
Proof. intros E. rewrite <- (gaps_for_of (mon_produced s')), E. unfold gaps_for at 1. by rewrite List.filter_app, <- (gaps_for_of (mon_produced s)). Qed.

(** Everything before the expected slot has arrived, the rest of what has arrived is in
    the reorder queue. *)
Definition in_order (arr : list Z) c : Prop := exists n, 0 <= n <= K + 1 /\ cx_expect c = slot n /\
  NoDup (cx_queue c) /\ StronglySorted (fun a b => ts info a <= ts info b) (cx_queue c) /\
  (forall j, j ∈ cx_queue c <-> j ∈ arr /\ slot n <= ts info j) /\ (forall k, 0 <= k < n -> exists j, j ∈ arr /\ ts info j = slot k).

Lemma in_order_arrive arr c j q' et' gaps c' : on_time (arr ++ [j]) -> j ∉ arr -> in_order arr c ->
  arrive info f (cx_queue c) (cx_expect c) j q' et' gaps -> cx_queue c' = q' -> cx_expect c' = et' -> in_order (arr ++ [j]) c' /\ gaps = [].
Proof.
  intros Hot Nj (n & Hn & En & Hnd & Hso & Hq & Hall) Ha E1 E2. pose proof Hot as [O1 O2 _ O4].
  assert (Ij : j ∈ arr ++ [j]) by (apply elem_of_app; right; by left).
  assert (Ia : forall i, i ∈ arr -> i ∈ arr ++ [j]) by (intros; apply elem_of_app; by left).
  destruct (O1 j Ij) as (k & Hk & Ek).
  assert (Nts : forall i, i ∈ arr -> ts info i <> ts info j) by (intros i Hi Et; destruct Nj; by rewrite <- (O2 i j (Ia i Hi) Ij Et)).
  unfold in_order. rewrite E1, E2. destruct Ha as [(Et & -> & -> & ->) | [(Lt & _) | (Lt & q1 & et1 & Hp & Hs1 & Hd & Hg)]].
  - assert (k = n) as -> by (unfold slot, INTERVAL in *; lia). split; [|done]. exists (n + 1). rewrite En, slot_next by lia.
    pose proof (slot_lt n (n + 1)). split_and!; try done; try lia.
    + intros i. rewrite Hq, elem_of_app, list_elem_of_singleton. split.
      * intros [Hi L]. split; [by left|]. destruct (O1 i (Ia i Hi)) as (ki & Hki & Eki). pose proof (Nts i Hi).
        unfold slot, INTERVAL in *. lia.
      * intros [[Hi | ->] L]; [split; [done|lia]|lia].
    + intros m Hm. destruct (decide (m = n)) as [-> | N]; [exists j; by rewrite Ek|].
      destruct (Hall m) as (i & Hi & Ei); [lia|]. exists i. auto.
  - destruct (Hall k) as (i & Hi & Ei); [rewrite En, Ek in Lt; apply (proj1 (slot_lt k n)) in Lt; lia|]. destruct (Nts i Hi). congruence.
  - assert (Hq1 : forall i, i ∈ q1 <-> i ∈ arr ++ [j] /\ slot n <= ts info i).
    { intros i. rewrite Hp, elem_of_cons, Hq, elem_of_app, list_elem_of_singleton. split; [|tauto].
      intros [-> | [? ?]]; [split; [by right|lia]|tauto]. }
    assert (Hnd1 : NoDup q1) by (rewrite Hp; constructor; [intros [? _]%Hq; done|done]).
    destruct (drain_slots q1 n) as (q2 & n' & E & Hn' & Hnd2 & Hso2 & Hq2 & Hne & Hall2); [done|by apply Hs1| |done| |].
    { intros i i' [Hi _]%Hq1 [Hi' _]%Hq1. by apply O2. }
    { intros i [Hi L]%Hq1. destruct (O1 i Hi) as (ki & Hki & Eki). exists ki. split; [|done]. unfold slot, INTERVAL in *. lia. }
    rewrite En, E in Hd. injection Hd as <- <-.
    assert (Hlen : (zlen q2 >? 120) = false).
    { rewrite Z.gtb_ltb. apply Z.ltb_ge. etrans; [|apply (O4 (arr ++ [j]) n' (reflexivity _))].
      - unfold zlen. apply inj_le, submseteq_length, NoDup_submseteq; [done|]. intros i [Hi L]%Hq2. apply list_elem_of_filter.
        split; [done|]. by apply Hq1.
      - intros i Hi Ei. eapply (Hne i); [|exact Ei]. apply Hq1. split; [done|]. rewrite Ei. pose proof (slot_lt n' n). lia. }
    rewrite Hlen in Hg. injection Hg as -> ->. split; [|done]. exists n'. split_and!; try done; try lia.
    + intros i. rewrite Hq2, Hq1. split; [intros [[? ?] ?]; split; [done|lia]|]. intros [Hi L].
      pose proof (slot_lt n' n). assert (Hi1 : i ∈ q1) by (apply Hq1; split; [done|lia]). pose proof (Hne i Hi1).
      split; [split; [done|lia]|lia].
    + intros m Hm. destruct (decide (m < n)) as [Lm | Lm].
      * destruct (Hall m) as (i & Hi & Ei); [lia|]. exists i. auto.
      * destruct (Hall2 m) as (i & [Hi _]%Hq1 & Ei); [lia|]. by exists i.
Qed.

Definition order_ok (arr : list Z) s : Prop := gaps_for (mon_produced s) = [] /\
  match arr with [] => mon_ctx s !! f = None | _ => exists c, mon_ctx s !! f = Some c /\ in_order arr c end.

Lemma arrivals_snoc rs r : arrivals (rs ++ [r]) =
  arrivals rs ++ (match r with Some j => if is_feed j then [j] else [] | None => [] end).
Proof. unfold arrivals. rewrite messages_snoc, filter_app. f_equal. destruct r as [j|]; [cbn|done]. by destruct (is_feed j). Qed.

(** The first feed of the code creates its context. *)
Lemma order_first j s s' sf : 0 <= K -> ts info j = t0 -> mm_feed (info j) = Some (FStatistics sf) -> sf_FEEDCODE sf = f ->
  mon_ctx s !! f = None -> gaps_for (mon_produced s) = [] -> round_done info s s' j -> order_ok [j] s'.
Proof.
  intros HK Et Ef Efc Ec Hg [_ _ _ _ _ Hf]. rewrite Ef in Hf. destruct Hf as (_ & _ & _ & c' & gaps & Ec' & Ha & Hp).
  apply gaps_for_round in Hp. rewrite Hg in Hp. rewrite Efc in *.
  assert (Es : cx_queue (start_context s sf) = [] /\ cx_expect (start_context s sf) = t0).
  { unfold start_context. rewrite Efc, Ec. cbn. split; [done|]. rewrite <- Et. unfold ts. by rewrite Ef. }
  destruct Es as [E1 E2]. rewrite E1, E2 in Ha. 
  destruct Ha as [(_ & Eq & Ex & ->) | [(L & _) | (L & _)]]; [|lia..]. split; [by rewrite Hp|].
  exists c'. split; [done|]. exists 1. rewrite Eq, Ex. assert (E0 : t0 = slot 0) by (unfold slot; lia).
  split_and!; try lia; try constructor.
  - rewrite E0 at 1. by rewrite slot_next by lia.
  - by intros []%not_elem_of_nil.
  - intros [->%list_elem_of_singleton L]. pose proof (slot_lt 0 1). lia.
  - intros k Hk. exists j. split; [by left|]. assert (k = 0) as -> by lia. congruence.
Qed.

Lemma order_step arr s s' j : 0 <= K -> order_ok arr s -> on_time (arr ++ (if is_feed j then [j] else [])) -> j ∉ arr ->
  round_done info s s' j -> order_ok (arr ++ (if is_feed j then [j] else [])) s'.
Proof.
  intros HK [Hg Hc] Hot Nj Hr. pose proof Hr as [_ _ _ _ _ Hf]. unfold is_feed in *.
  destruct (mm_feed (info j)) as [[sf | pf]|] eqn:Ef; [|rewrite app_nil_r; destruct Hf as (_ & Ec & Ep); apply (f_equal gaps_for) in Ep;
    rewrite !gaps_for_of in Ep; unfold order_ok; by rewrite Ec, Ep..].
  destruct (bool_decide_reflect (sf_FEEDCODE sf = f)) as [E | N].
  - destruct arr as [|a arr]; [apply (order_first j s s' sf); try done; by apply (ot_head _ Hot)|]. destruct Hc as (c & Ec & Ho).
    destruct Hf as (_ & _ & _ & c' & gaps & Ec' & Ha & Hp). apply gaps_for_round in Hp. 
    assert (Es : start_context s sf = c) by (unfold start_context; by rewrite E, Ec). rewrite Es, E in *.
    destruct (in_order_arrive (a :: arr) c j _ _ gaps c' Hot Nj Ho Ha eq_refl eq_refl) as [Ho' ->].
    split; [by rewrite Hp, Hg|]. exists c'. split; done.
  - rewrite app_nil_r. destruct Hf as (_ & _ & O & c' & gaps & _ & Ha & Hp). apply gaps_for_round in Hp.
    assert (E0 : gaps_for gaps = []).
    { destruct Ha as [(_ & _ & _ & ->) | [(_ & _ & _ & ->) | (_ & q1 & et1 & _ & _ & _ & Hg')]]; cbn; [done|by rewrite bool_decide_eq_false_2|].
      destruct (_ >? _); injection Hg' as _ ->; cbn; [by rewrite bool_decide_eq_false_2|done]. }
    unfold order_ok. rewrite Hp, E0, Hg, O by done. done.
Qed.

Lemma order_run rs : 0 <= K -> NoDup (messages rs) -> (forall j, j ∈ messages rs -> good info j) -> on_time (arrivals rs) ->
  exists s, run_events monitor_init (events_of info rs) = Ret s /\ run_ok info rs s /\ order_ok (arrivals rs) s.
Proof.
  intros HK. induction rs as [|r rs IH] using rev_ind; intros Hn Hg Hot.
  { exists monitor_init. split; [done|]. split; [apply run_ok_init|]. split; [done|]. apply lookup_empty. }
  rewrite messages_snoc in Hn, Hg. rewrite arrivals_snoc in *. apply NoDup_app in Hn as (Hn & Hx & _).
  destruct IH as (s & E & Hr & Ho); [done|intros; apply Hg, elem_of_app; by left|by eapply on_time_prefix|].
  rewrite run_snoc, E. cbn [obind]. destruct r as [j|].
  - assert (Nj : j ∉ messages rs) by (intros Hj; by apply (Hx j Hj), list_elem_of_here).
    destruct (run_step_message info s j (ro_ok _ _ _ Hr)) as (s' & -> & R).
    + apply eq_None_not_Some. by intros Hj%(ro_mem _ _ _ Hr).
    + apply Hg, elem_of_app. right. by left.
    + exists s'. split; [done|]. split; [by eapply run_ok_message|]. eapply order_step; [done|done|done| |done].
      intros [_ Hj]%list_elem_of_filter. done.
  - destruct (run_step_backup info s (ro_ok _ _ _ Hr)) as (s' & -> & T & _). exists s'. split; [done|].
    split; [by eapply run_ok_backup|]. rewrite app_nil_r. unfold order_ok. by rewrite (st_produced _ _ _ T), (st_ctx _ _ _ T).
Qed.

(** C7. Feeds of a code whose time stamps are an interval apart may overtake each
    other: as long as the first one comes first and none is overtaken by more
    than 120 later ones, then, whatever other messages and backups come in
    between, the monitor reports no delay and no miss for the code, every time
    stamp before the expected one has arrived, and the reorder queue holds,
    in order, exactly the feeds that arrived from the expected one on. *)
Theorem reordered_feeds_silent rs : 0 <= K -> NoDup (messages rs) -> (forall j, j ∈ messages rs -> good info j) ->
  on_time (arrivals rs) -> arrivals rs <> [] ->
  exists s c n, run_events monitor_init (events_of info rs) = Ret s /\ gaps_for (mon_produced s) = [] /\ mon_ctx s !! f = Some c /\
    cx_expect c = slot n /\ (forall k, 0 <= k < n -> exists j, j ∈ arrivals rs /\ ts info j = slot k) /\
    StronglySorted (fun a b => ts info a <= ts info b) (cx_queue c) /\
    (forall j, j ∈ cx_queue c <-> j ∈ arrivals rs /\ slot n <= ts info j).
Proof.
  intros HK Hn Hg Hot Ha. destruct (order_run rs HK Hn Hg Hot) as (s & E & _ & Hg0 & Ho).
  destruct (arrivals rs) as [|a arr]; [done|]. destruct Ho as (c & Ec & n & Hn' & E1 & _ & E2 & E3 & E4).
  by exists s, c, n.
Qed.
End Order.

End Runs.

(** ** Concrete runs *)

(** Feed [k] of a code: one partition, offset [k], given time stamp. *)
Definition sample (t : Z -> Z) (k : Z) : MyMessage :=
  mk_mm 7 k 0 (Some (FStatistics (mk_sf 0 [65] (S754_finite false 4503599627370496 (-52)) 1 (t k)))).

Lemma sample_good t k : good (sample t) k.
Proof. split; [done|by eexists]. Qed.

(** Time stamps in units of the interval: 0, 2, 1, 3. *)
Definition swapped (k : Z) : Z := INTERVAL * (if k =? 1 then 2 else if k =? 2 then 1 else k).

Lemma monitor_at_least_once_witness :
  exists s, run_events monitor_init (events_of (sample swapped) [Some 0; Some 1; Some 2; None; Some 3; None]) = Ret s /\
    (last (commits_of 7 s) = Some 3 /\ offset_queue s 7 = []).
Proof.
  destruct (monitor_at_least_once (sample swapped) [Some 0; Some 1; Some 2; None; Some 3; None]) as (s & E & _ & _ & F).
  - compute_done.
  - intros j _. apply sample_good.
  - exists s. split; [exact E|]. vm_compute in E. injection E as <-. vm_compute. done.
Defined.

(** Time stamps 0, 1, 0, ...: the third feed is late. *)
Definition late (k : Z) : Z := INTERVAL * (if k =? 2 then 0 else k).

Lemma late_feed_blocks_witness :
  exists s del q, run_events monitor_init (events_of (sample late) ([Some 0; Some 1; None] ++ Some 2 :: [Some 3; Some 4; None])) = Ret s /\ waiting s 2 /\
    offset_queue s 7 = q ++ 2 :: [3; 4] /\ (forall i, i ∈ offset_queue s 7 -> is_Some (mon_mem s !! i)) /\
    [0; 1] = del ++ q /\ last (commits_of 7 s) = (fun i => mm_offset (sample late i)) <$> last del.
Proof.
  eapply (late_feed_blocks (sample late) [Some 0; Some 1; None] [Some 3; Some 4; None] 2).
  - compute_done.
  - intros j _. apply sample_good.
  - vm_compute. reflexivity.
  - reflexivity.
  - vm_compute. reflexivity.
  - vm_compute. reflexivity.
Defined.

Lemma backup_race_use_after_free_witness :
  exists s, run_events monitor_init (events_of (sample late) [Some 0; Some 1]) = Ret s /\
    run_events s [EvEnqueue 2 (sample late 2); EvBackup; EvProcess 2] = Crash.
Proof.
  destruct (run_events monitor_init (events_of (sample late) [Some 0; Some 1])) as [s| |] eqn:E; [|by vm_compute in E..].
  exists s. split; [done|]. apply (backup_race_use_after_free (sample late) [Some 0; Some 1] s 2).
  - compute_done.
  - intros j _. apply sample_good.
  - exact E.
  - intros i Hi. vm_compute in E. injection E as <-. change (i ∈ [0; 1]) in Hi. intros [x Hx].
    repeat (apply elem_of_cons in Hi as [-> | Hi]; [by vm_compute in Hx|]). by apply not_elem_of_nil in Hi.
Defined.

Lemma swapped_on_time : on_time (sample swapped) 0 3 (arrivals (sample swapped) [65] [Some 0; Some 1; Some 2; None; Some 3]).
Proof.
  assert (E : arrivals (sample swapped) [65] [Some 0; Some 1; Some 2; None; Some 3] = [0; 1; 2; 3]) by (vm_compute; reflexivity).
  rewrite E. split.
  - intros j Hj. exists (swapped j / INTERVAL).
    repeat (apply elem_of_cons in Hj as [-> | Hj]; [vm_compute; repeat split; discriminate|]). by apply not_elem_of_nil in Hj.
  - intros i j Hi Hj. repeat (apply elem_of_cons in Hi as [-> | Hi]; [
      repeat (apply elem_of_cons in Hj as [-> | Hj]; [vm_compute; try reflexivity; discriminate|]); by apply not_elem_of_nil in Hj|]).
    by apply not_elem_of_nil in Hi.
  - intros j [= <-]. reflexivity.
  - intros pre k Hp _. apply prefix_length in Hp. cbn in Hp. unfold zlen.
    etrans; [apply inj_le, length_filter|lia].
Qed.

Lemma reordered_feeds_silent_witness :
  exists s c n, run_events monitor_init (events_of (sample swapped) [Some 0; Some 1; Some 2; None; Some 3]) = Ret s /\
    gaps_for [65] (mon_produced s) = [] /\ mon_ctx s !! [65] = Some c /\ cx_expect c = slot 0 n.
Proof.
  destruct (reordered_feeds_silent (sample swapped) [65] 0 3 ltac:(lia) ltac:(vm_compute; reflexivity) [Some 0; Some 1; Some 2; None; Some 3])
    as (s & c & n & E & G & C & X & _).
  - lia.
  - compute_done.
  - intros j _. apply sample_good.
  - apply swapped_on_time.
  - vm_compute. discriminate.
  - exists s, c, n. by split_and!.
Defined.
