(* ===== verification/Hdr.v ===== *)
(** * Latency histograms and averages (rdhdrhistogram.c, rdavg.h)

    A histogram records 64-bit values with a bounded relative error.  Bucket
    [0] has [subBucketCount] sub buckets of [2^unitMagnitude] values each; every
    further bucket doubles the width and adds [subBucketHalfCount] sub buckets.

    A [double] is an IEEE value of the Standard Library's [SpecFloat] (53 bits).
    The constructor's [pow] and [log2] are taken to be exact, which they are for
    a smallest value below [2^48]; shifts that C leaves undefined (negative or
    too large a distance, overflow of a signed left shift) are crashes. *)
From Stdlib Require Import ZArith Lia.
From Stdlib Require Import Floats.SpecFloat.
From stdpp Require Import base numbers list.
From S2P Require Import Prelude.

(** ** Doubles *)

Definition dbl_add : spec_float -> spec_float -> spec_float := SFadd 53 1024.
Definition dbl_sub : spec_float -> spec_float -> spec_float := SFsub 53 1024.
Definition dbl_mul : spec_float -> spec_float -> spec_float := SFmul 53 1024.
Definition dbl_div : spec_float -> spec_float -> spec_float := SFdiv 53 1024.
Definition dbl_sqrt : spec_float -> spec_float := SFsqrt 53 1024.

(** Conversion from an integer, to nearest. *)
Definition dbl_of (z : Z) : spec_float := binary_normalize 53 1024 z 0 false.

(** Conversion to an integer, towards zero; not representable values are
    undefined. *)
Definition int_of (x : spec_float) : option Z :=
  match x with
  | S754_zero _ => Some 0
  | S754_finite s m e =>
      let a := if e >=? 0 then Z.pos m * 2 ^ e else Z.pos m / 2 ^ (- e) in
      let z := if s then - a else a in
      if (- 2 ^ 63 <=? z) && (z <? 2 ^ 63) then Some z else None
  | _ => None
  end.

Definition to_int64 (x : spec_float) : outcome Z := match int_of x with Some z => Ret z | None => Crash end.

(** ** The histogram *)

Record rd_hdr_histogram : Type := mk_hh {
  lowestTrackableValue : Z;
  highestTrackableValue : Z;
  unitMagnitude : Z;
  significantFigures : Z;
  subBucketHalfCountMagnitude : Z;
  subBucketHalfCount : Z;
  subBucketMask : Z;
  subBucketCount : Z;
  bucketCount : Z;
  countsLen : Z;
  totalCount : Z;
  counts : list Z;
  outOfRangeCount : Z;
  lowestOutOfRange : Z;
  highestOutOfRange : Z;
  allocatedSize : Z }.

(** [v << n] and [v >> n] on [int64_t]. *)
Definition shl64 (v n : Z) : outcome Z :=
  assert! (0 <=? v) && (0 <=? n) && (n <? 64) && (Z.shiftl v n <? 2 ^ 63) in Ret (Z.shiftl v n).

Definition shr64 (v n : Z) : outcome Z :=
  assert! (0 <=? n) && (n <? 64) in Ret (Z.shiftr v n).

(** [v << n] on [int32_t]. *)
Definition shl32 (v n : Z) : outcome Z :=
  assert! (0 <=? v) && (0 <=? n) && (n <? 32) && (Z.shiftl v n <? 2 ^ 31) in Ret (Z.shiftl v n).

Fixpoint buckets_needed (fuel : nat) (smallestUntrackableValue maxValue bucketsNeeded : Z) : outcome Z :=
  if smallestUntrackableValue <? maxValue then
    match fuel with
    | O => Diverge
    | S fuel => let! v := shl64 smallestUntrackableValue 1 in buckets_needed fuel v maxValue (bucketsNeeded + 1)
    end
  else Ret bucketsNeeded.

Definition sizeof_hdr : Z := 112.

Definition rd_hdr_histogram_new (minValue maxValue significantFigures : Z) : outcome (option rd_hdr_histogram) :=
  if (significantFigures <? 1) || (significantFigures >? 5) then Ret None
  else
    let largestValueWithSingleUnitResolution := 2 * 10 ^ significantFigures in
    let subBucketCountMagnitude := Z.log2_up largestValueWithSingleUnitResolution in
    let subBucketHalfCountMagnitude := Z.max subBucketCountMagnitude 1 - 1 in
    let unitMagnitude := Z.max (Z.log2 minValue) 0 in
    let subBucketCount := 2 ^ (subBucketHalfCountMagnitude + 1) in
    let subBucketHalfCount := subBucketCount / 2 in
    let! subBucketMask := shl64 (subBucketCount - 1) unitMagnitude in
    let! smallestUntrackableValue := shl64 subBucketCount unitMagnitude in
    let! bucketCount := buckets_needed 64 smallestUntrackableValue maxValue 1 in
    let countsLen := (bucketCount + 1) * (subBucketCount / 2) in
    Ret (Some (mk_hh minValue maxValue unitMagnitude significantFigures subBucketHalfCountMagnitude subBucketHalfCount
           subBucketMask subBucketCount bucketCount countsLen 0 (replicate (Z.to_nat countsLen) 0) 0 minValue maxValue
           (s32 (sizeof_hdr + 8 * countsLen)))).

Definition set_counts (h : rd_hdr_histogram) (total : Z) (cs : list Z) : rd_hdr_histogram :=
  mk_hh (lowestTrackableValue h) (highestTrackableValue h) (unitMagnitude h) (significantFigures h) (subBucketHalfCountMagnitude h)
        (subBucketHalfCount h) (subBucketMask h) (subBucketCount h) (bucketCount h) (countsLen h) total cs
        (outOfRangeCount h) (lowestOutOfRange h) (highestOutOfRange h) (allocatedSize h).

Definition set_oor (h : rd_hdr_histogram) (cnt lo hi : Z) : rd_hdr_histogram :=
  mk_hh (lowestTrackableValue h) (highestTrackableValue h) (unitMagnitude h) (significantFigures h) (subBucketHalfCountMagnitude h)
        (subBucketHalfCount h) (subBucketMask h) (subBucketCount h) (bucketCount h) (countsLen h) (totalCount h) (counts h)
        cnt lo hi (allocatedSize h).

Definition rd_hdr_histogram_reset (h : rd_hdr_histogram) : rd_hdr_histogram :=
  set_counts h 0 (replicate (Z.to_nat (countsLen h)) 0 ++ drop (Z.to_nat (countsLen h)) (counts h)).

(** ** Indices *)

Definition rd_hdr_countsIndex (h : rd_hdr_histogram) (bucketIdx subBucketIdx : Z) : outcome Z :=
  let! bucketBaseIdx := shl32 (bucketIdx + 1) (subBucketHalfCountMagnitude h) in
  let offsetInBucket := subBucketIdx - subBucketHalfCount h in
  Ret (bucketBaseIdx + offsetInBucket).

(** An access outside of the array is undefined. *)
Definition counts_at (h : rd_hdr_histogram) (idx : Z) : outcome Z :=
  if idx <? 0 then Crash else match counts h !! Z.to_nat idx with Some c => Ret c | None => Crash end.

Definition rd_hdr_getCountAtIndex (h : rd_hdr_histogram) (bucketIdx subBucketIdx : Z) : outcome Z :=
  let! idx := rd_hdr_countsIndex h bucketIdx subBucketIdx in counts_at h idx.

Fixpoint bitLen_loop (fuel : nat) (x n : Z) : Z * Z :=
  match fuel with
  | O => (x, n)
  | S fuel => if x >=? 0x8000 then bitLen_loop fuel (Z.shiftr x 16) (n + 16) else (x, n)
  end.

(** Four rounds are enough for 64 bits. *)
Definition bitLen (x : Z) : Z :=
  let '(x, n) := bitLen_loop 4 x 0 in
  let '(x, n) := if x >=? 0x80 then (Z.shiftr x 8, n + 8) else (x, n) in
  let '(x, n) := if x >=? 0x8 then (Z.shiftr x 4, n + 4) else (x, n) in
  let '(x, n) := if x >=? 0x2 then (Z.shiftr x 2, n + 2) else (x, n) in
  if x >=? 0x1 then n + 1 else n.

Definition rd_hdr_getBucketIndex (h : rd_hdr_histogram) (v : Z) : Z :=
  let pow2Ceiling := bitLen (Z.lor v (subBucketMask h)) in
  s32 (pow2Ceiling - unitMagnitude h - (subBucketHalfCountMagnitude h + 1)).

Definition rd_hdr_getSubBucketIdx (h : rd_hdr_histogram) (v idx : Z) : outcome Z :=
  let! x := shr64 v (idx + unitMagnitude h) in Ret (s32 x).

Definition rd_hdr_valueFromIndex (h : rd_hdr_histogram) (bucketIdx subBucketIdx : Z) : outcome Z :=
  shl64 subBucketIdx (bucketIdx + unitMagnitude h).

Definition rd_hdr_sizeOfEquivalentValueRange (h : rd_hdr_histogram) (v : Z) : outcome Z :=
  let bucketIdx := rd_hdr_getBucketIndex h v in
  let! subBucketIdx := rd_hdr_getSubBucketIdx h v bucketIdx in
  let adjustedBucket := if subBucketIdx >=? subBucketCount h then bucketIdx + 1 else bucketIdx in
  shl64 1 (unitMagnitude h + adjustedBucket).

Definition rd_hdr_lowestEquivalentValue (h : rd_hdr_histogram) (v : Z) : outcome Z :=
  let bucketIdx := rd_hdr_getBucketIndex h v in
  let! subBucketIdx := rd_hdr_getSubBucketIdx h v bucketIdx in
  rd_hdr_valueFromIndex h bucketIdx subBucketIdx.

Definition rd_hdr_nextNonEquivalentValue (h : rd_hdr_histogram) (v : Z) : outcome Z :=
  let! lo := rd_hdr_lowestEquivalentValue h v in
  let! size := rd_hdr_sizeOfEquivalentValueRange h v in
  Ret (s64 (lo + size)).

Definition rd_hdr_highestEquivalentValue (h : rd_hdr_histogram) (v : Z) : outcome Z :=
  let! next := rd_hdr_nextNonEquivalentValue h v in Ret (s64 (next - 1)).

Definition rd_hdr_medianEquivalentValue (h : rd_hdr_histogram) (v : Z) : outcome Z :=
  let! lo := rd_hdr_lowestEquivalentValue h v in
  let! size := rd_hdr_sizeOfEquivalentValueRange h v in
  Ret (s64 (lo + Z.shiftr size 1)).

Definition rd_hdr_countsIndexFor (h : rd_hdr_histogram) (v : Z) : outcome Z :=
  let bucketIdx := rd_hdr_getBucketIndex h v in
  let! subBucketIdx := rd_hdr_getSubBucketIdx h v bucketIdx in
  rd_hdr_countsIndex h bucketIdx subBucketIdx.

(** ** Recording *)

Definition rd_hdr_histogram_record (h : rd_hdr_histogram) (v : Z) : outcome (Z * rd_hdr_histogram) :=
  let! idx := rd_hdr_countsIndexFor h v in
  if (idx <? 0) || (countsLen h <=? idx) then
    Ret (0, set_oor h (s64 (outOfRangeCount h + 1))
              (if v <? lowestOutOfRange h then v else lowestOutOfRange h)
              (if v >? highestOutOfRange h then v else highestOutOfRange h))
  else
    let! c := counts_at h idx in
    Ret (1, set_counts h (s64 (totalCount h + 1)) (<[Z.to_nat idx := s64 (c + 1)]> (counts h))).

(** ** Iteration *)

Record rd_hdr_iter : Type := mk_it {
  it_bucketIdx : Z;
  it_subBucketIdx : Z;
  it_countAtIdx : Z;
  it_countToIdx : Z;
  it_valueFromIdx : Z;
  it_highestEquivalentValue : Z }.

Definition RD_HDR_ITER_INIT : rd_hdr_iter := mk_it 0 (-1) 0 0 0 0.

(** [None] when the iteration is over. *)
Definition rd_hdr_iter_next (h : rd_hdr_histogram) (it : rd_hdr_iter) : outcome (option rd_hdr_iter) :=
  if it_countToIdx it >=? totalCount h then Ret None
  else
    let '(b, s) := if it_subBucketIdx it + 1 >=? subBucketCount h
                   then (it_bucketIdx it + 1, subBucketHalfCount h)
                   else (it_bucketIdx it, it_subBucketIdx it + 1) in
    if b >=? bucketCount h then Ret None
    else
      let! c := rd_hdr_getCountAtIndex h b s in
      let! v := rd_hdr_valueFromIndex h b s in
      let! hi := rd_hdr_highestEquivalentValue h v in
      Ret (Some (mk_it b s c (s64 (it_countToIdx it + c)) v hi)).

(** [while (rd_hdr_iter_next(&it)) body]: the body returns the new value of the
    accumulator and whether it leaves the loop. *)
Section Each.
Context {A : Type} (h : rd_hdr_histogram) (body : A -> rd_hdr_iter -> outcome (A * bool)).

Fixpoint iterate (fuel : nat) (a : A) (it : rd_hdr_iter) : outcome A :=
  match fuel with
  | O => Diverge
  | S fuel =>
      let! next := rd_hdr_iter_next h it in
      match next with
      | None => Ret a
      | Some it => let! (a, stop) := body a it in if stop : bool then Ret a else iterate fuel a it
      end
  end.
End Each.

(** One round per array element and a last one. *)
Definition iter_fuel (h : rd_hdr_histogram) : nat := S (Z.to_nat (countsLen h)).

Definition rd_hdr_histogram_max (h : rd_hdr_histogram) : outcome Z :=
  let! vmax := iterate h (fun vmax it =>
    Ret (if negb (it_countAtIdx it =? 0) then it_highestEquivalentValue it else vmax, false)) (iter_fuel h) 0 RD_HDR_ITER_INIT in
  rd_hdr_highestEquivalentValue h vmax.

Definition rd_hdr_histogram_min (h : rd_hdr_histogram) : outcome Z :=
  let! vmin := iterate h (fun vmin it =>
    Ret (if negb (it_countAtIdx it =? 0) && (vmin =? 0) then (it_highestEquivalentValue it, true) else (vmin, false)))
    (iter_fuel h) 0 RD_HDR_ITER_INIT in
  rd_hdr_lowestEquivalentValue h vmin.

Definition rd_hdr_histogram_mean (h : rd_hdr_histogram) : outcome spec_float :=
  if totalCount h =? 0 then Ret (dbl_of 0)
  else
    let! total := iterate h (fun total it =>
      if negb (it_countAtIdx it =? 0) then
        let! m := rd_hdr_medianEquivalentValue h (it_valueFromIdx it) in Ret (s64 (total + s64 (it_countAtIdx it * m)), false)
      else Ret (total, false)) (iter_fuel h) 0 RD_HDR_ITER_INIT in
    Ret (dbl_div (dbl_of total) (dbl_of (totalCount h))).

Definition rd_hdr_histogram_stddev (h : rd_hdr_histogram) : outcome spec_float :=
  if totalCount h =? 0 then Ret (dbl_of 0)
  else
    let! mean := rd_hdr_histogram_mean h in
    let! geometricDevTotal := iterate h (fun total it =>
      if it_countAtIdx it =? 0 then Ret (total, false)
      else
        let! m := rd_hdr_medianEquivalentValue h (it_valueFromIdx it) in
        let dev := dbl_sub (dbl_of m) mean in
        Ret (dbl_add total (dbl_mul (dbl_mul dev dev) (dbl_of (it_countAtIdx it))), false)) (iter_fuel h) (dbl_of 0) RD_HDR_ITER_INIT in
    Ret (dbl_sqrt (dbl_div geometricDevTotal (dbl_of (totalCount h)))).

(** The rank a quantile asks for: [(q / 100.0) * totalCount + 0.5]. *)
Definition count_at_percentile (q : spec_float) (total : Z) : outcome Z :=
  let q := if SFltb (dbl_of 100) q then dbl_of 100 else q in
  to_int64 (dbl_add (dbl_mul (dbl_div q (dbl_of 100)) (dbl_of total)) (S754_finite false 4503599627370496 (-53))).

(** The loop of the quantile: the total so far, and the value returned. *)
Definition quantile_loop (h : rd_hdr_histogram) (countAtPercentile : Z) : outcome Z :=
  let! (_, r) := iterate h (fun acc it =>
    let total := s64 (fst acc + it_countAtIdx it) in
    if total >=? countAtPercentile then
      let! hi := rd_hdr_highestEquivalentValue h (it_valueFromIdx it) in Ret ((total, hi), true)
    else Ret ((total, snd acc), false)) (iter_fuel h) (0, 0) RD_HDR_ITER_INIT in
  Ret r.

Definition rd_hdr_histogram_quantile (h : rd_hdr_histogram) (q : spec_float) : outcome Z :=
  let! n := count_at_percentile q (totalCount h) in quantile_loop h n.

(** ** Averages (rdavg.h) *)

Inductive rd_avg_type : Type := RD_AVG_GAUGE | RD_AVG_COUNTER.

Record rd_avg_v : Type := mk_ra_v { ra_maxv : Z; ra_minv : Z; ra_avg : Z; ra_sum : Z; ra_cnt : Z; ra_start : Z }.

Record rd_avg_hist : Type := mk_ra_hist {
  ra_p50 : Z; ra_p75 : Z; ra_p90 : Z; ra_p95 : Z; ra_p99 : Z; ra_p99_99 : Z;
  ra_oor : Z; ra_hdrsize : Z; ra_stddev : spec_float; ra_mean : spec_float }.

Record rd_avg : Type := mk_ra {
  ra_v : rd_avg_v;
  ra_enabled : bool;
  ra_type : rd_avg_type;
  ra_hdr : option rd_hdr_histogram;
  ra_hist : rd_avg_hist }.

Definition ra_v_zero : rd_avg_v := mk_ra_v 0 0 0 0 0 0.
Definition ra_hist_zero : rd_avg_hist := mk_ra_hist 0 0 0 0 0 0 0 0 (S754_zero false) (S754_zero false).

Definition rd_avg_init (type : rd_avg_type) (exp_min exp_max sigfigs : Z) (enable : bool) (clock : Z) : outcome rd_avg :=
  if enable then
    let! hdr := rd_hdr_histogram_new exp_min exp_max sigfigs in
    Ret (mk_ra (mk_ra_v 0 0 0 0 0 clock) true type hdr ra_hist_zero)
  else Ret (mk_ra ra_v_zero false RD_AVG_GAUGE None ra_hist_zero).

Definition get_hdr (ra : rd_avg) : outcome rd_hdr_histogram := match ra_hdr ra with Some h => Ret h | None => Crash end.

Definition rd_avg_add (ra : rd_avg) (v : Z) : outcome rd_avg :=
  if negb (ra_enabled ra) then Ret ra
  else
    let rv := ra_v ra in
    let rv := mk_ra_v (if v >? ra_maxv rv then v else ra_maxv rv)
                      (if (ra_minv rv =? 0) || (v <? ra_minv rv) then v else ra_minv rv)
                      (ra_avg rv) (s64 (ra_sum rv + v)) (s32 (ra_cnt rv + 1)) (ra_start rv) in
    let! h := get_hdr ra in
    let! (_, h) := rd_hdr_histogram_record h v in
    Ret (mk_ra rv (ra_enabled ra) (ra_type ra) (Some h) (ra_hist ra)).

Definition rd_avg_calc (ra : rd_avg) (now : Z) : rd_avg :=
  let rv := ra_v ra in
  let set avg start := mk_ra (mk_ra_v (ra_maxv rv) (ra_minv rv) avg (ra_sum rv) (ra_cnt rv) start)
                             (ra_enabled ra) (ra_type ra) (ra_hdr ra) (ra_hist ra) in
  match ra_type ra with
  | RD_AVG_GAUGE => set (if negb (ra_cnt rv =? 0) then Z.quot (ra_sum rv) (ra_cnt rv) else 0) (ra_start rv)
  | RD_AVG_COUNTER =>
      let elapsed := s64 (now - ra_start rv) in
      set (if negb (elapsed =? 0) then s64 (u64 (u64 (ra_sum rv) * 1000000) / u64 elapsed) else 0) elapsed
  end.

Definition rd_avg_quantile (ra : rd_avg) (q : spec_float) : outcome Z :=
  let! h := get_hdr ra in rd_hdr_histogram_quantile h q.

(** [(int64_t)((double)diff * 0.2)] *)
Definition fifth (diff : Z) : outcome Z := to_int64 (dbl_mul (dbl_of diff) (S754_finite false 7205759403792794 (-55))).

(** The histogram of the next period. *)
Definition adapt_hdr (h : rd_hdr_histogram) : outcome (option rd_hdr_histogram) :=
  if totalCount h >? 0 then
    let mindiff := s64 (lowestTrackableValue h - lowestOutOfRange h) in
    let! vmin := if mindiff >? 0 then let! d := fifth mindiff in Ret (s64 (lowestOutOfRange h + d)) else Ret (lowestTrackableValue h) in
    let maxdiff := s64 (highestOutOfRange h - highestTrackableValue h) in
    let! vmax := if maxdiff >? 0 then let! d := fifth maxdiff in Ret (s64 (highestOutOfRange h + d)) else Ret (highestTrackableValue h) in
    if (vmin =? lowestTrackableValue h) && (vmax =? highestTrackableValue h)
    then Ret (Some (rd_hdr_histogram_reset h))
    else rd_hdr_histogram_new vmin vmax (significantFigures h)
  else Ret (Some h).

(** Quantiles of a double that is not an integer: 99.99. *)
Definition dbl_99_99 : spec_float := S754_finite false 7036170730324623 (-46).

(** The average of the period and the averager for the next one. *)
Definition rd_avg_rollover (src : rd_avg) (clock : Z) : outcome (rd_avg * rd_avg) :=
  if negb (ra_enabled src) then Ret (mk_ra ra_v_zero false (ra_type src) None ra_hist_zero, src)
  else
    let! h := get_hdr src in
    let! stddev := rd_hdr_histogram_stddev h in
    let! mean := rd_hdr_histogram_mean h in
    let! p50 := rd_hdr_histogram_quantile h (dbl_of 50) in
    let! p75 := rd_hdr_histogram_quantile h (dbl_of 75) in
    let! p90 := rd_hdr_histogram_quantile h (dbl_of 90) in
    let! p95 := rd_hdr_histogram_quantile h (dbl_of 95) in
    let! p99 := rd_hdr_histogram_quantile h (dbl_of 99) in
    let! p99_99 := rd_hdr_histogram_quantile h dbl_99_99 in
    let hist := mk_ra_hist p50 p75 p90 p95 p99 p99_99 (outOfRangeCount h) (allocatedSize h) stddev mean in
    let! h' := adapt_hdr h in
    let dst := mk_ra (ra_v src) false (ra_type src) None hist in
    let src := mk_ra (mk_ra_v 0 0 0 0 0 clock) (ra_enabled src) (ra_type src) h' (ra_hist src) in
    Ret (rd_avg_calc dst clock, src).
