(* ===== verification/HdrSpec.v ===== *)
(** * Histograms: bounded error, exact counts, ranks

    The elements of the count array partition the values: element [i] stands
    for the values from [low i] to [low (i + 1) - 1]. *)
From Stdlib Require Import ZArith Lia.
From Stdlib Require Import Floats.SpecFloat.
From stdpp Require Import base numbers list sorting.
From S2P Require Import Prelude.
From S2P Require Import Hdr.

(** ** Bit lengths *)

Definition blen (x : Z) : Z := if x =? 0 then 0 else Z.log2 x + 1.

Lemma blen_shiftr x k : 0 < k -> 2 ^ (k - 1) <= x -> blen (Z.shiftr x k) + k = blen x.
Proof.
  intros Hk Hx. assert (0 < 2 ^ (k - 1)) by lia. unfold blen. destruct (Z.eqb_spec x 0); [lia|].
  assert (Hl : k - 1 <= Z.log2 x) by (apply Z.log2_le_pow2; lia).
  destruct (Z.eqb_spec (Z.shiftr x k) 0) as [E | E].
  - rewrite Z.shiftr_eq_0_iff in E. destruct E as [? | [_ E]]; lia.
  - rewrite Z.log2_shiftr by lia. assert (~ Z.log2 x < k) by (intros L; apply E, Z.shiftr_eq_0; lia). lia.
Qed.

Lemma bitLen_loop_spec fuel x n : 0 <= x < 2 ^ (16 * Z.of_nat fuel + 15) ->
  let '(y, m) := bitLen_loop fuel x n in 0 <= y < 2 ^ 15 /\ m + blen y = n + blen x.
Proof.
  revert x n. induction fuel as [|fuel IH]; intros x n Hx; cbn [bitLen_loop]; [split; [exact Hx|done]|].
  destruct (Z.geb_spec x 0x8000) as [L | L]; [|split; [lia|done]].
  specialize (IH (Z.shiftr x 16) (n + 16)). destruct (bitLen_loop fuel (Z.shiftr x 16) (n + 16)) as [y m].
  pose proof (blen_shiftr x 16). destruct IH as [? ?]; [|lia]. rewrite Z.shiftr_div_pow2 by lia. split; [apply Z.div_pos; lia|].
  apply Z.div_lt_upper_bound; [lia|]. rewrite <- Z.pow_add_r by lia. eapply Z.lt_le_trans; [apply Hx|]. apply Z.pow_le_mono_r; lia.
Qed.

(** A halving step of [bitLen]. *)
Lemma bitLen_step x n k : 0 <= x < 2 ^ (2 * k - 1) -> 0 < k ->
  let '(y, m) := if x >=? 2 ^ (k - 1) then (Z.shiftr x k, n + k) else (x, n) in 0 <= y < 2 ^ (k - 1) /\ m + blen y = n + blen x.
Proof.
  intros Hx Hk. destruct (Z.geb_spec x (2 ^ (k - 1))) as [L | L]; [|split; [lia|done]]. pose proof (blen_shiftr x k).
  split; [|lia]. rewrite Z.shiftr_div_pow2 by lia. split; [apply Z.div_pos; lia|].
  apply Z.div_lt_upper_bound; [lia|]. rewrite <- Z.pow_add_r by lia. replace (k + (k - 1)) with (2 * k - 1) by lia. lia.
Qed.

(** [bitLen] is the number of bits. *)
Lemma bitLen_spec x : 0 <= x < 2 ^ 63 -> bitLen x = blen x.
Proof.
  intros Hx. unfold bitLen. pose proof (bitLen_loop_spec 4 x 0) as H0. destruct (bitLen_loop 4 x 0) as [x1 n1].
  destruct H0 as [B1 E1]; [cbn; lia|].
  pose proof (bitLen_step x1 n1 8) as H1. change (2 ^ (8 - 1)) with 0x80 in H1. destruct (if x1 >=? 0x80 then _ else _) as [x2 n2].
  destruct H1 as [B2 E2]; [cbn in *; lia|lia|].
  pose proof (bitLen_step x2 n2 4) as H2. change (2 ^ (4 - 1)) with 0x8 in H2. destruct (if x2 >=? 0x8 then _ else _) as [x3 n3].
  destruct H2 as [B3 E3]; [cbn in *; lia|lia|].
  pose proof (bitLen_step x3 n3 2) as H3. change (2 ^ (2 - 1)) with 0x2 in H3. destruct (if x3 >=? 0x2 then _ else _) as [x4 n4].
  destruct H3 as [B4 E4]; [cbn in *; lia|lia|].
  assert (x4 = 0 \/ x4 = 1) as [-> | ->] by lia; unfold blen in E4 at 1; cbn in *; lia.
Qed.

(** ** The partition of the values *)

Section Slots.
Context (u h : Z) (Hu : 0 <= u) (Hh : 0 <= h).

(** The bucket of element [i], and the bucket of value [v]. *)
Definition bucket_of (i : Z) : Z := Z.max 0 (i / 2 ^ h - 1).
Definition bucket (v : Z) : Z := Z.max 0 (Z.log2 v - u - h).

Definition width (i : Z) : Z := 2 ^ (bucket_of i + u).
Definition low (i : Z) : Z := (i - bucket_of i * 2 ^ h) * width i.
Definition slot (v : Z) : Z := bucket v * 2 ^ h + v / 2 ^ (bucket v + u).

Lemma sub_range i : 0 <= i -> 0 <= i - bucket_of i * 2 ^ h < 2 ^ (h + 1) /\ (0 < bucket_of i -> 2 ^ h <= i - bucket_of i * 2 ^ h).
Proof.
  intros Hi. unfold bucket_of. pose proof (Z.pow_pos_nonneg 2 h). rewrite Z.pow_add_r by lia.
  pose proof (Z.div_mod i (2 ^ h)). pose proof (Z.mod_pos_bound i (2 ^ h)). pose proof (Z.div_pos i (2 ^ h)). nia.
Qed.

Lemma bucket_of_unique i b : 0 <= b -> 0 <= i - b * 2 ^ h < 2 ^ (h + 1) -> (0 < b -> 2 ^ h <= i - b * 2 ^ h) -> bucket_of i = b.
Proof.
  intros Hb Hs Hs'. unfold bucket_of. pose proof (Z.pow_pos_nonneg 2 h). rewrite Z.pow_add_r in Hs by lia.
  pose proof (Z.div_mod i (2 ^ h)). pose proof (Z.mod_pos_bound i (2 ^ h)). nia.
Qed.

(** Consecutive elements hold consecutive values. *)
Lemma low_next i : 0 <= i -> low (i + 1) = low i + width i.
Proof.
  intros Hi. destruct (sub_range i Hi) as [R1 R2]. set (b := bucket_of i) in *. pose proof (Z.pow_pos_nonneg 2 h).
  assert (Hb : 0 <= b) by (unfold b, bucket_of; lia). rewrite Z.pow_add_r in R1 by lia.
  destruct (decide (i - b * 2 ^ h = 2 ^ (h + 1) - 1)) as [E | E]; rewrite Z.pow_add_r in E by lia.
  - assert (Eb : bucket_of (i + 1) = b + 1) by (apply bucket_of_unique; rewrite ?Z.pow_add_r by lia; lia).
    unfold low, width. rewrite Eb. fold b. replace (b + 1 + u) with (b + u + 1) by lia. rewrite (Z.pow_add_r 2 (b + u) 1) by lia. nia.
  - assert (Eb : bucket_of (i + 1) = b) by (apply bucket_of_unique; rewrite ?Z.pow_add_r by lia; lia).
    unfold low, width. rewrite Eb. fold b. nia.
Qed.

Lemma width_pos i : 0 < width i.
Proof. unfold width. apply Z.pow_pos_nonneg; unfold bucket_of; lia. Qed.

Lemma low_mono i j : 0 <= i <= j -> low i <= low j.
Proof.
  intros Hij. pose proof (Zlt_0_ind (fun k => low i <= low (i + k))) as H.
  replace j with (i + (j - i)) by lia. apply H; [|lia]. clear H. intros k IH Hk. destruct (decide (k = 0)) as [-> | N]; [by rewrite Z.add_0_r|].
  specialize (IH (k - 1)). pose proof (low_next (i + (k - 1))). pose proof (width_pos (i + (k - 1))).
  replace (i + (k - 1) + 1) with (i + k) in * by lia. lia.
Qed.

Lemma value_range v : 0 <= v -> v < 2 ^ (bucket v + u + h + 1) /\ (0 < bucket v -> 2 ^ (bucket v + u + h) <= v).
Proof.
  intros Hv. unfold bucket. destruct (decide (v = 0)) as [-> | N].
  - cbn. split; [apply Z.pow_pos_nonneg; lia|lia].
  - pose proof (Z.log2_spec v) as [L1 L2]; [lia|]. split.
    + eapply Z.lt_le_trans; [exact L2|]. apply Z.pow_le_mono_r; lia.
    + intros Hb. replace (Z.max 0 (Z.log2 v - u - h) + u + h) with (Z.log2 v) by lia. done.
Qed.

Lemma slot_bucket v : 0 <= v -> bucket_of (slot v) = bucket v /\ slot v - bucket v * 2 ^ h = v / 2 ^ (bucket v + u) /\ 0 <= slot v.
Proof.
  intros Hv. destruct (value_range v Hv) as [V1 V2]. assert (Hb : 0 <= bucket v) by (unfold bucket; lia).
  pose proof (Z.pow_pos_nonneg 2 (bucket v + u)). pose proof (Z.pow_pos_nonneg 2 h). 
  assert (E : slot v - bucket v * 2 ^ h = v / 2 ^ (bucket v + u)) by (unfold slot; lia).
  assert (0 <= v / 2 ^ (bucket v + u)) by (apply Z.div_pos; lia).
  split; [|split; [done|unfold slot; nia]]. apply bucket_of_unique; [done| |]; rewrite E.
  - split; [done|]. apply Z.div_lt_upper_bound; [lia|]. rewrite <- Z.pow_add_r by lia.
    replace (bucket v + u + (h + 1)) with (bucket v + u + h + 1) by lia. done.
  - intros Hp. apply Z.div_le_lower_bound; [lia|]. rewrite <- Z.pow_add_r by lia.
    replace (bucket v + u + h) with (bucket v + u + h) in V2 by lia. by apply V2.
Qed.

(** A value lies in its element. *)
Lemma slot_low v : 0 <= v -> low (slot v) <= v < low (slot v) + width (slot v).
Proof.
  intros Hv. destruct (slot_bucket v Hv) as (E1 & E2 & _). unfold low, width. rewrite E1, E2.
  assert (Hb : 0 <= bucket v) by (unfold bucket; lia). pose proof (Z.pow_pos_nonneg 2 (bucket v + u)).
  pose proof (Z.div_mod v (2 ^ (bucket v + u))). pose proof (Z.mod_pos_bound v (2 ^ (bucket v + u))). nia.
Qed.

Lemma slot_le v i : 0 <= v -> 0 <= i -> slot v <= i <-> v < low (i + 1).
Proof.
  intros Hv Hi. destruct (slot_low v Hv) as [L1 L2]. destruct (slot_bucket v Hv) as (_ & _ & P). split; intros H.
  - rewrite <- low_next in L2 by lia. pose proof (low_mono (slot v + 1) (i + 1)). lia.
  - destruct (Z.le_gt_cases (slot v) i) as [|G]; [done|]. pose proof (low_mono (i + 1) (slot v)). lia.
Qed.

Lemma slot_ge v i : 0 <= v -> 0 <= i -> i <= slot v <-> low i <= v.
Proof.
  intros Hv Hi. destruct (decide (i = 0)) as [-> | N].
  - destruct (slot_bucket v Hv) as (_ & _ & P). assert (E : low 0 = 0) by (unfold low, bucket_of; rewrite Z.div_0_l by lia; lia).
    rewrite E. lia.
  - pose proof (slot_le v (i - 1)). replace (i - 1 + 1) with i in * by lia. lia.
Qed.

Lemma slot_eq v i : 0 <= v -> 0 <= i -> low i <= v < low i + width i -> slot v = i.
Proof. intros Hv Hi [L1 L2]. rewrite <- low_next in L2 by lia. apply slot_le in L2; [|lia..]. apply slot_ge in L1; lia. Qed.

Lemma low_nonneg i : 0 <= i -> 0 <= low i.
Proof. intros Hi. destruct (sub_range i Hi). pose proof (width_pos i). unfold low. nia. Qed.

(** The relative error: an element is narrow compared with its values. *)
Lemma width_small v : 0 <= v -> width (slot v) <= Z.max (2 ^ u) (v / 2 ^ h).
Proof.
  intros Hv. destruct (slot_bucket v Hv) as (E1 & _). destruct (value_range v Hv) as [_ V2]. unfold width. rewrite E1.
  destruct (decide (bucket v = 0)) as [-> | N]; [rewrite Z.add_0_l; lia|]. assert (Hb : 0 < bucket v) by (unfold bucket in *; lia).
  pose proof (Z.pow_pos_nonneg 2 h). apply Z.max_le_iff. right. apply Z.div_le_lower_bound; [lia|]. 
  rewrite <- Z.pow_add_r by lia. replace (h + (bucket v + u)) with (bucket v + u + h) by lia. by apply V2.
Qed.
End Slots.

(** ** Well-formed histograms *)

Implicit Types (hd : rd_hdr_histogram) (v : Z) (vs : list Z).

(** The first value beyond the last bucket. *)
Definition limit hd : Z := 2 ^ (unitMagnitude hd + subBucketHalfCountMagnitude hd + bucketCount hd).

Abbreviation hslot hd := (slot (unitMagnitude hd) (subBucketHalfCountMagnitude hd)).
Abbreviation hlow hd := (low (unitMagnitude hd) (subBucketHalfCountMagnitude hd)).
Abbreviation hwidth hd := (width (unitMagnitude hd) (subBucketHalfCountMagnitude hd)).
Abbreviation hbucket hd := (bucket (unitMagnitude hd) (subBucketHalfCountMagnitude hd)).

Record hdr_wf hd : Prop := mk_hdr_wf {
  hw_u : 0 <= unitMagnitude hd;
  hw_h : 0 <= subBucketHalfCountMagnitude hd <= 17;
  hw_half : subBucketHalfCount hd = 2 ^ subBucketHalfCountMagnitude hd;
  hw_count : subBucketCount hd = 2 ^ (subBucketHalfCountMagnitude hd + 1);
  hw_mask : subBucketMask hd = (2 ^ (subBucketHalfCountMagnitude hd + 1) - 1) * 2 ^ unitMagnitude hd;
  hw_bc : 1 <= bucketCount hd;
  hw_max : unitMagnitude hd + subBucketHalfCountMagnitude hd + bucketCount hd <= 62;
  hw_len : countsLen hd = (bucketCount hd + 1) * 2 ^ subBucketHalfCountMagnitude hd;
  hw_counts : zlen (counts hd) = countsLen hd }.

Lemma log2_mask hd : hdr_wf hd -> Z.log2 (subBucketMask hd) = unitMagnitude hd + subBucketHalfCountMagnitude hd /\ 0 < subBucketMask hd < 2 ^ 63.
Proof.
  intros [Hu Hh _ _ -> Hb Hm _ _]. set (u := unitMagnitude hd) in *. set (h := subBucketHalfCountMagnitude hd) in *.
  pose proof (Z.pow_pos_nonneg 2 u). pose proof (Z.pow_pos_nonneg 2 h). rewrite Z.pow_add_r by lia. change (2 ^ 1) with 2.
  assert (E : 2 ^ (u + h + 1) = 2 ^ u * 2 ^ h * 2) by (rewrite !Z.pow_add_r by lia; done).
  assert (E' : 2 ^ (u + h) = 2 ^ u * 2 ^ h) by (rewrite Z.pow_add_r by lia; done).
  split; [apply Z.log2_unique; [lia|]; unfold Z.succ; nia|]. split; [nia|].
  eapply Z.lt_le_trans; [|apply (Z.pow_le_mono_r 2 (u + h + 1) 63); lia]. nia.
Qed.

Lemma bucket_index_spec hd v : hdr_wf hd -> 0 <= v < 2 ^ 63 -> rd_hdr_getBucketIndex hd v = hbucket hd v /\
  0 <= hbucket hd v /\ hbucket hd v + unitMagnitude hd <= 62 /\ hbucket hd v <= 62.
Proof.
  intros Hw Hv. destruct (log2_mask hd Hw) as [Lm [M1 M2]]. destruct Hw as [Hu Hh _ _ _ Hb Hm _ _].
  assert (Hl : Z.log2 v <= 62) by (destruct (decide (v = 0)) as [-> | N]; [done|]; apply Z.lt_succ_r, Z.log2_lt_pow2; unfold Z.succ; lia).
  assert (Hor : 0 < Z.lor v (subBucketMask hd) < 2 ^ 63).
  { assert (0 <= Z.lor v (subBucketMask hd)) by (apply Z.lor_nonneg; lia).
    assert (Z.lor v (subBucketMask hd) <> 0) by (intros [_ E]%Z.lor_eq_0_iff; lia). split; [lia|].
    apply Z.log2_lt_pow2; [lia|]. rewrite Z.log2_lor by lia. rewrite Lm. lia. }
  assert (E : rd_hdr_getBucketIndex hd v = hbucket hd v).
  { unfold rd_hdr_getBucketIndex. rewrite bitLen_spec by lia. unfold blen. rewrite (proj2 (Z.eqb_neq _ _)) by lia.
    rewrite Z.log2_lor, Lm by lia. unfold bucket. rewrite swrap_id; unfold s_ok; lia. }
  split; [done|]. unfold bucket. lia.
Qed.

Lemma sub_index_spec hd v : hdr_wf hd -> 0 <= v < 2 ^ 63 -> let x := v / 2 ^ (hbucket hd v + unitMagnitude hd) in
  rd_hdr_getSubBucketIdx hd v (rd_hdr_getBucketIndex hd v) = Ret x /\ x = hslot hd v - hbucket hd v * 2 ^ subBucketHalfCountMagnitude hd /\
  0 <= x < subBucketCount hd.
Proof.
  intros Hw Hv x. destruct (bucket_index_spec hd v Hw Hv) as (-> & B1 & B2 & _). destruct Hw as [Hu Hh _ Hc _ Hb Hm _ _].
  destruct (slot_bucket _ _ Hu (proj1 Hh) v) as (E1 & E2 & E3); [lia|].
  destruct (sub_range _ (proj1 Hh) (hslot hd v) E3) as [R _]. rewrite E1, E2 in R.
  assert (Hx : 0 <= x < subBucketCount hd) by (unfold x; by rewrite Hc).
  split; [|split; [by rewrite E2|done]]. unfold rd_hdr_getSubBucketIdx, shr64.
  rewrite (proj2 (Z.leb_le _ _)), (proj2 (Z.ltb_lt _ _)) by lia. cbn [andb obind]. rewrite Z.shiftr_div_pow2 by lia. f_equal.
  apply swrap_id; [lia|]. fold x. unfold s_ok. rewrite Hc in Hx.
  assert (2 ^ (subBucketHalfCountMagnitude hd + 1) <= 2 ^ (32 - 1)) by (apply Z.pow_le_mono_r; lia). lia.
Qed.

Lemma shl64_spec v n : 0 <= v -> 0 <= n < 64 -> v * 2 ^ n < 2 ^ 63 -> shl64 v n = Ret (v * 2 ^ n).
Proof.
  intros Hv Hn Hl. unfold shl64. rewrite Z.shiftl_mul_pow2 by lia.
  by rewrite (proj2 (Z.leb_le _ _)), (proj2 (Z.leb_le _ _)), (proj2 (Z.ltb_lt _ _)), (proj2 (Z.ltb_lt _ _)) by lia.
Qed.

Lemma lowest_spec hd v : hdr_wf hd -> 0 <= v < 2 ^ 63 -> rd_hdr_lowestEquivalentValue hd v = Ret (hlow hd (hslot hd v)).
Proof.
  intros Hw Hv. unfold rd_hdr_lowestEquivalentValue. destruct (sub_index_spec hd v Hw Hv) as (-> & E & Hx). cbn [obind].
  destruct (bucket_index_spec hd v Hw Hv) as (-> & B1 & B2 & _). destruct Hw as [Hu Hh _ Hc _ Hb Hm _ _].
  destruct (slot_bucket _ _ Hu (proj1 Hh) v) as (E1 & E2 & E3); [lia|]. destruct (slot_low _ _ Hu (proj1 Hh) v) as [L1 L2]; [lia|].
  unfold rd_hdr_valueFromIndex. unfold low, width in *. rewrite E1, E2 in *. apply shl64_spec; lia.
Qed.

Lemma size_spec hd v : hdr_wf hd -> 0 <= v < 2 ^ 63 -> rd_hdr_sizeOfEquivalentValueRange hd v = Ret (hwidth hd (hslot hd v)).
Proof.
  intros Hw Hv. unfold rd_hdr_sizeOfEquivalentValueRange. destruct (sub_index_spec hd v Hw Hv) as (-> & E & Hx). cbn [obind].
  destruct (bucket_index_spec hd v Hw Hv) as (-> & B1 & B2 & _). destruct Hw as [Hu Hh _ Hc _ Hb Hm _ _].
  rewrite Z.geb_leb, (proj2 (Z.leb_gt _ _)) by lia. destruct (slot_bucket _ _ Hu (proj1 Hh) v) as (E1 & E2 & E3); [lia|].
  assert (2 ^ (hbucket hd v + unitMagnitude hd) <= 2 ^ 62) by (apply Z.pow_le_mono_r; lia).
  unfold width. rewrite E1, Z.add_comm. rewrite shl64_spec; [by rewrite Z.mul_1_l|lia..].
Qed.

Lemma width_bound hd v : hdr_wf hd -> 0 <= v < 2 ^ 63 -> hwidth hd (hslot hd v) <= 2 ^ 62.
Proof.
  intros Hw Hv. destruct (bucket_index_spec hd v Hw Hv) as (_ & B1 & B2 & _). destruct Hw as [Hu Hh _ Hc _ Hb Hm _ _].
  destruct (slot_bucket _ _ Hu (proj1 Hh) v) as (E1 & E2 & E3); [lia|]. unfold width. rewrite E1. apply Z.pow_le_mono_r; lia.
Qed.

Lemma highest_spec hd v : hdr_wf hd -> 0 <= v < 2 ^ 62 -> rd_hdr_highestEquivalentValue hd v = Ret (hlow hd (hslot hd v + 1) - 1).
Proof.
  intros Hw Hv. unfold rd_hdr_highestEquivalentValue, rd_hdr_nextNonEquivalentValue.
  rewrite lowest_spec, size_spec by (done || lia). cbn [obind]. pose proof (width_bound hd v Hw). 
  destruct Hw as [Hu Hh _ Hc _ Hb Hm _ _]. destruct (slot_low _ _ Hu (proj1 Hh) v) as [L1 L2]; [lia|].
  destruct (slot_bucket _ _ Hu (proj1 Hh) v) as (_ & _ & E3); [lia|].
  pose proof (low_nonneg _ _ Hu (proj1 Hh) _ E3). pose proof (width_pos _ _ Hu (proj1 Hh) (hslot hd v)).
  rewrite low_next by lia. f_equal. rewrite (swrap_id 64 (_ + _)), swrap_id; unfold s_ok; lia.
Qed.

Lemma median_spec hd v : hdr_wf hd -> 0 <= v < 2 ^ 62 ->
  rd_hdr_medianEquivalentValue hd v = Ret (hlow hd (hslot hd v) + hwidth hd (hslot hd v) / 2).
Proof.
  intros Hw Hv. unfold rd_hdr_medianEquivalentValue.
  rewrite lowest_spec, size_spec by (done || lia). cbn [obind]. pose proof (width_bound hd v Hw). 
  destruct Hw as [Hu Hh _ Hc _ Hb Hm _ _]. destruct (slot_low _ _ Hu (proj1 Hh) v) as [L1 L2]; [lia|].
  destruct (slot_bucket _ _ Hu (proj1 Hh) v) as (_ & _ & E3); [lia|].
  pose proof (low_nonneg _ _ Hu (proj1 Hh) _ E3). pose proof (width_pos _ _ Hu (proj1 Hh) (hslot hd v)).
  rewrite Z.shiftr_div_pow2 by lia. change (2 ^ 1) with 2. f_equal. apply swrap_id; [lia|]. unfold s_ok.
  pose proof (Z.div_lt (hwidth hd (hslot hd v)) 2). pose proof (Z.div_pos (hwidth hd (hslot hd v)) 2). lia.
Qed.

Lemma counts_index_spec hd b s : hdr_wf hd -> 0 <= b <= 62 -> rd_hdr_countsIndex hd b s = Ret (b * 2 ^ subBucketHalfCountMagnitude hd + s).
Proof.
  intros [Hu Hh Eh Hc _ Hb Hm _ _] B. unfold rd_hdr_countsIndex, shl32. rewrite Z.shiftl_mul_pow2 by lia.
  assert (2 ^ subBucketHalfCountMagnitude hd <= 2 ^ 17) by (apply Z.pow_le_mono_r; lia).
  pose proof (Z.pow_pos_nonneg 2 (subBucketHalfCountMagnitude hd)).
  rewrite (proj2 (Z.leb_le 0 (b + 1))), (proj2 (Z.leb_le _ _)), (proj2 (Z.ltb_lt _ _)), (proj2 (Z.ltb_lt _ _)) by nia. cbn [andb obind].
  f_equal. rewrite Eh. lia.
Qed.

Lemma index_for_spec hd v : hdr_wf hd -> 0 <= v < 2 ^ 63 -> rd_hdr_countsIndexFor hd v = Ret (hslot hd v).
Proof.
  intros Hw Hv. unfold rd_hdr_countsIndexFor. destruct (sub_index_spec hd v Hw Hv) as (-> & E & Hx). cbn [obind].
  destruct (bucket_index_spec hd v Hw Hv) as (-> & B1 & B2 & B3). rewrite counts_index_spec by (done || lia). done.
Qed.

(** A value has an element exactly below the limit. *)
Lemma in_range hd v : hdr_wf hd -> 0 <= v -> hslot hd v < countsLen hd <-> v < limit hd.
Proof.
  intros [Hu Hh Eh Hc _ Hb Hm Hl _] Hv. set (u := unitMagnitude hd) in *. set (h := subBucketHalfCountMagnitude hd) in *.
  pose proof (Z.pow_pos_nonneg 2 h). assert (E : limit hd = low u h (countsLen hd - 1 + 1)).
  { replace (countsLen hd - 1 + 1) with (countsLen hd) by lia. unfold low, width.
    rewrite (bucket_of_unique h (proj1 Hh) (countsLen hd) (bucketCount hd)); [|rewrite ?Z.pow_add_r by lia; lia..].
    replace (countsLen hd - bucketCount hd * 2 ^ h) with (2 ^ h) by lia. rewrite <- Z.pow_add_r by lia. unfold limit. f_equal. lia. }
  rewrite E, <- slot_le by (lia || nia). lia.
Qed.

(** ** Creation *)

Ltac hfields := cbn [unitMagnitude subBucketHalfCountMagnitude subBucketHalfCount subBucketMask subBucketCount bucketCount countsLen counts
  totalCount lowestTrackableValue highestTrackableValue significantFigures outOfRangeCount lowestOutOfRange highestOutOfRange].

Lemma buckets_needed_spec fuel k maxValue n : 0 <= k <= 62 -> maxValue <= 2 ^ 62 -> 62 - k <= Z.of_nat fuel ->
  exists m, buckets_needed fuel (2 ^ k) maxValue n = Ret (n + m) /\ 0 <= m /\ k + m <= 62 /\ maxValue <= 2 ^ (k + m) /\
    (0 < m -> 2 ^ (k + m - 1) < maxValue).
Proof.
  revert k n. induction fuel as [|fuel IH]; intros k n Hk Hm Hf; cbn [buckets_needed]; destruct (Z.ltb_spec (2 ^ k) maxValue) as [L | L].
  - assert (2 ^ 62 <= 2 ^ k) by (apply Z.pow_le_mono_r; lia). lia.
  - exists 0. rewrite !Z.add_0_r. split; [done|]. lia.
  - assert (Hk' : k < 62) by (apply (Z.pow_lt_mono_r_iff 2); lia).
    assert (2 ^ (k + 1) <= 2 ^ 62) by (apply Z.pow_le_mono_r; lia). rewrite Z.pow_add_r in * by lia.
    rewrite shl64_spec by lia. cbn [obind]. rewrite <- Z.pow_add_r by lia.
    destruct (IH (k + 1) (n + 1)) as (m & -> & M1 & M2 & M3 & M4); [lia..|]. exists (m + 1).
    replace (k + (m + 1)) with (k + 1 + m) by lia. split; [f_equal; lia|]. split; [lia|]. split; [lia|]. split; [done|]. intros _.
    destruct (decide (m = 0)) as [-> | N]; [by replace (k + 1 + 0 - 1) with k by lia|apply M4; lia].
  - exists 0. rewrite !Z.add_0_r. split; [done|]. lia.
Qed.

(** The resolution: at least [10^sf] sub buckets in a half bucket. *)
Lemma magnitude_spec sf : 1 <= sf <= 5 ->
  let h := Z.max (Z.log2_up (2 * 10 ^ sf)) 1 - 1 in 0 <= h <= 17 /\ 10 ^ sf <= 2 ^ h.
Proof. intros Hs. assert (sf = 1 \/ sf = 2 \/ sf = 3 \/ sf = 4 \/ sf = 5) as [-> | [-> | [-> | [-> | ->]]]] by lia; vm_compute; by repeat split. Qed.

Record created (minValue maxValue sf : Z) hd : Prop := mk_created {
  cr_wf : hdr_wf hd;
  cr_u : 2 ^ unitMagnitude hd <= Z.max 1 minValue;
  cr_h : 10 ^ sf <= 2 ^ subBucketHalfCountMagnitude hd;
  cr_limit : maxValue <= limit hd;
  cr_least : limit hd = 2 ^ (unitMagnitude hd + subBucketHalfCountMagnitude hd + 1) \/ limit hd < 2 * maxValue;
  cr_counts : counts hd = replicate (Z.to_nat (countsLen hd)) 0;
  cr_total : totalCount hd = 0;
  cr_range : lowestTrackableValue hd = minValue /\ highestTrackableValue hd = maxValue /\ significantFigures hd = sf;
  cr_oor : outOfRangeCount hd = 0 /\ lowestOutOfRange hd = minValue /\ highestOutOfRange hd = maxValue }.

Lemma new_spec minValue maxValue sf : minValue < 2 ^ 44 -> maxValue <= 2 ^ 62 -> 1 <= sf <= 5 ->
  exists hd, rd_hdr_histogram_new minValue maxValue sf = Ret (Some hd) /\ created minValue maxValue sf hd.
Proof.
  intros Hmin Hmax Hs. unfold rd_hdr_histogram_new. rewrite (proj2 (Z.ltb_ge _ _)), Z.gtb_ltb, (proj2 (Z.ltb_ge _ _)) by lia. cbn [orb].
  destruct (magnitude_spec sf Hs) as [Hh Hr]. set (h := Z.max (Z.log2_up (2 * 10 ^ sf)) 1 - 1) in *. set (u := Z.max (Z.log2 minValue) 0).
  assert (Hu : 0 <= u <= 43 /\ 2 ^ u <= Z.max 1 minValue).
  { unfold u. destruct (Z.le_gt_cases minValue 0) as [L | L].
    - assert (Z.log2 minValue = 0) as -> by (by apply Z.log2_nonpos). rewrite Z.max_id. change (2 ^ 0) with 1. lia.
    - pose proof (Z.log2_spec minValue L). pose proof (Z.log2_nonneg minValue). rewrite Z.max_l by lia. split; [|lia]. split; [lia|].
      apply Z.lt_succ_r, Z.log2_lt_pow2; [done|]. unfold Z.succ. lia. }
  destruct Hu as [Hu Hu2]. pose proof (Z.pow_pos_nonneg 2 u). pose proof (Z.pow_pos_nonneg 2 h).
  assert (E2 : 2 ^ (h + 1) = 2 * 2 ^ h) by (rewrite Z.pow_add_r by lia; lia).
  assert (E3 : 2 ^ (h + 1) * 2 ^ u = 2 ^ (u + h + 1)) by (rewrite <- Z.pow_add_r by lia; f_equal; lia).
  assert (B : 2 ^ (u + h + 1) < 2 ^ 63) by (apply Z.pow_lt_mono_r; lia).
  assert (Ed : 2 ^ (h + 1) / 2 = 2 ^ h) by (rewrite E2, Z.mul_comm, Z.div_mul; lia).
  rewrite shl64_spec by nia. cbn [obind]. rewrite shl64_spec, E3 by lia. cbn [obind].
  destruct (buckets_needed_spec 64 (u + h + 1) maxValue 1) as (m & -> & M1 & M2 & M3 & M4); [lia..|]. cbn [obind].
  eexists. split; [reflexivity|]. rewrite Ed. 
  split; hfields; try done.
  - split; hfields; try done; try lia. rewrite length_replicate. apply Z2Nat.id. nia.
  - unfold limit. hfields. replace (u + h + (1 + m)) with (u + h + 1 + m) by lia. done.
  - unfold limit. hfields. replace (u + h + (1 + m)) with (u + h + 1 + m - 1 + 1) by lia. destruct (decide (m = 0)) as [-> | N].
    + left. f_equal. lia.
    + right. rewrite Z.pow_add_r by lia. lia.
Qed.

(** ** What a histogram stands for *)

Definition cnt hd (i : Z) vs : Z := zlen (filter (fun v => hslot hd v = i) vs).

Record rep hd vs : Prop := mk_rep {
  rp_wf : hdr_wf hd;
  rp_total : totalCount hd = zlen vs;
  rp_max : zlen vs < 2 ^ 62;
  rp_values : Forall (fun v => 0 <= v < limit hd) vs;
  rp_counts : forall i, 0 <= i < countsLen hd -> counts hd !! Z.to_nat i = Some (cnt hd i vs) }.

Lemma rep_created minValue maxValue sf hd : created minValue maxValue sf hd -> rep hd [].
Proof.
  intros [Hw _ _ _ _ Hc Ht _ _]. split; try done. intros i Hi. rewrite Hc. apply lookup_replicate. split; [done|]. lia.
Qed.

(** Everything but counts and out of range marks is fixed. *)
Definition same_shape hd hd' : Prop :=
  unitMagnitude hd' = unitMagnitude hd /\ subBucketHalfCountMagnitude hd' = subBucketHalfCountMagnitude hd /\
  bucketCount hd' = bucketCount hd /\ countsLen hd' = countsLen hd /\ subBucketHalfCount hd' = subBucketHalfCount hd /\
  subBucketCount hd' = subBucketCount hd /\ subBucketMask hd' = subBucketMask hd /\
  lowestTrackableValue hd' = lowestTrackableValue hd /\ highestTrackableValue hd' = highestTrackableValue hd /\
  significantFigures hd' = significantFigures hd.

Lemma same_shape_wf hd hd' : same_shape hd hd' -> zlen (counts hd') = zlen (counts hd) -> hdr_wf hd -> hdr_wf hd'.
Proof.
  intros (E1 & E2 & E3 & E4 & E5 & E6 & E7 & _) El [H1 H2 H3 H4 H5 H6 H7 H8 H9]. split; rewrite ?E1, ?E2, ?E3, ?E4, ?E5, ?E6, ?E7, ?El; done.
Qed.

Lemma counts_at_spec hd vs i : rep hd vs -> 0 <= i < countsLen hd -> counts_at hd i = Ret (cnt hd i vs).
Proof. intros Hr Hi. unfold counts_at. rewrite (proj2 (Z.ltb_ge _ _)), (rp_counts _ _ Hr i Hi) by lia. done. Qed.

Lemma cnt_snoc hd i vs v : cnt hd i (vs ++ [v]) = cnt hd i vs + (if decide (hslot hd v = i) then 1 else 0).
Proof. unfold cnt. rewrite filter_app, length_app. cbn. destruct (decide _); cbn; lia. Qed.

Lemma cnt_bound hd i vs : 0 <= cnt hd i vs <= zlen vs.
Proof. unfold cnt. pose proof (length_filter (fun v => hslot hd v = i) vs). lia. Qed.

(** Recording adds the value, or notes it as out of range. *)
Lemma record_spec hd vs v : rep hd vs -> 0 <= v < 2 ^ 63 -> zlen vs + 1 < 2 ^ 62 ->
  exists hd', rd_hdr_histogram_record hd v = Ret (if v <? limit hd then 1 else 0, hd') /\ same_shape hd hd' /\
    rep hd' (if v <? limit hd then vs ++ [v] else vs) /\
    (outOfRangeCount hd', lowestOutOfRange hd', highestOutOfRange hd') =
      (if v <? limit hd then (outOfRangeCount hd, lowestOutOfRange hd, highestOutOfRange hd)
       else (s64 (outOfRangeCount hd + 1), Z.min v (lowestOutOfRange hd), Z.max v (highestOutOfRange hd))).
Proof.
  intros Hr Hv Hm. pose proof Hr as [Hw Ht _ Hvs Hc]. unfold rd_hdr_histogram_record. rewrite (index_for_spec hd v Hw Hv). cbn [obind].
  pose proof (in_range hd v Hw (proj1 Hv)) as Hin. pose proof Hw as [Hu Hh _ _ _ _ _ _ Hlen].
  destruct (slot_bucket _ _ Hu (proj1 Hh) v (proj1 Hv)) as (_ & _ & P). rewrite (proj2 (Z.ltb_ge _ 0)) by lia. cbn [orb].
  destruct (Z.ltb_spec v (limit hd)) as [L | L].
  - apply Hin in L as Hlt. rewrite (proj2 (Z.leb_gt _ _)) by lia. rewrite (counts_at_spec hd vs) by (done || lia). cbn [obind].
    eexists. split; [done|]. split; [done|]. split; [|done]. pose proof (cnt_bound hd (hslot hd v) vs).
    assert (Hil : (Z.to_nat (hslot hd v) < length (counts hd))%nat) by lia. split.
    + eapply same_shape_wf; [| |exact Hw]; [done|]. cbn. by rewrite length_insert.
    + cbn. rewrite length_app. cbn. rewrite swrap_id; unfold s_ok; lia.
    + rewrite length_app. cbn. lia.
    + apply Forall_app. split; [done|]. constructor; [split; [lia|exact L]|constructor].
    + intros i Hi. cbn [counts set_counts countsLen] in *. change (cnt (set_counts _ _ _)) with (cnt hd). rewrite cnt_snoc. destruct (decide (hslot hd v = i)) as [<- | N].
      * rewrite list_lookup_insert_eq by done. f_equal. rewrite swrap_id; unfold s_ok; lia.
      * rewrite list_lookup_insert_ne by lia. rewrite Hc by done. f_equal. lia.
  - rewrite (proj2 (Z.leb_le _ _)) by lia. eexists. split; [done|]. split; [done|]. split.
    + split; [eapply same_shape_wf; [| |exact Hw]; done|exact Ht|lia|exact Hvs|exact Hc].
    + cbn. f_equal; [f_equal|].
      * destruct (Z.ltb_spec v (lowestOutOfRange hd)); lia.
      * rewrite Z.gtb_ltb. destruct (Z.ltb_spec (highestOutOfRange hd) v); lia.
Qed.

(** ** Iteration *)

(** The number of values up to element [i]. *)
Definition upto hd (i : Z) vs : Z := zlen (filter (fun v => hslot hd v <= i) vs).

Lemma filter_length_split (P Q R : Z -> Prop) `{!forall x, Decision (P x), !forall x, Decision (Q x), !forall x, Decision (R x)} vs :
  (forall v, v ∈ vs -> (P v <-> Q v \/ R v) /\ ~ (Q v /\ R v)) -> zlen (filter P vs) = zlen (filter Q vs) + zlen (filter R vs).
Proof.
  induction vs as [|v vs IH]; intros Hv; [done|]. rewrite !filter_cons. destruct (Hv v (list_elem_of_here _ _)) as [E N].
  specialize (IH (fun x Hx => Hv x (list_elem_of_further _ _ _ Hx))).
  destruct (decide (P v)), (decide (Q v)), (decide (R v)); rewrite ?length_cons; try tauto; lia.
Qed.

Lemma filter_length_ext (P Q : Z -> Prop) `{!forall x, Decision (P x), !forall x, Decision (Q x)} vs :
  (forall v, v ∈ vs -> P v <-> Q v) -> length (filter P vs) = length (filter Q vs).
Proof.
  induction vs as [|v vs IH]; intros Hv; [done|]. rewrite !filter_cons. pose proof (Hv v (list_elem_of_here _ _)) as E.
  specialize (IH (fun x Hx => Hv x (list_elem_of_further _ _ _ Hx))).
  destruct (decide (P v)), (decide (Q v)); rewrite ?length_cons; try tauto; lia.
Qed.

Lemma upto_step hd i vs : upto hd i vs = upto hd (i - 1) vs + cnt hd i vs.
Proof. apply filter_length_split. intros v _. lia. Qed.

Lemma upto_bound hd i vs : 0 <= upto hd i vs <= zlen vs.
Proof. unfold upto. pose proof (length_filter (fun v => hslot hd v <= i) vs). lia. Qed.

Lemma upto_less hd i vs : upto hd i vs < zlen vs -> exists v, v ∈ vs /\ i < hslot hd v.
Proof.
  intros H. destruct (decide (Forall (fun v => hslot hd v <= i) vs)) as [F | F].
  - unfold upto in H. induction vs as [|v vs IH]; [cbn in H; lia|].
    apply Forall_cons in F as [F1 F2]. rewrite filter_cons_True, !length_cons in H by done.
    destruct IH as (x & Hx & L); [lia|done|]. exists x. split; [by right|done].
  - apply not_Forall_Exists in F; [|apply _]. apply Exists_exists in F as (v & Hv & L). exists v. split; [done|]. unfold compose in L. cbn in L. lia.
Qed.

Record iter_at hd vs (i : Z) (it : rd_hdr_iter) : Prop := mk_iter_at {
  ia_range : -1 <= i < countsLen hd;
  ia_bucket : it_bucketIdx it = bucket_of (subBucketHalfCountMagnitude hd) i;
  ia_sub : it_subBucketIdx it = i - bucket_of (subBucketHalfCountMagnitude hd) i * 2 ^ subBucketHalfCountMagnitude hd;
  ia_to : it_countToIdx it = upto hd i vs;
  ia_at : 0 <= i -> it_countAtIdx it = cnt hd i vs /\ it_valueFromIdx it = hlow hd i /\ it_highestEquivalentValue it = hlow hd (i + 1) - 1 }.

Lemma slot_nonneg hd v : hdr_wf hd -> 0 <= v -> 0 <= hslot hd v.
Proof. intros [Hu Hh _ _ _ _ _ _ _] Hv. by destruct (slot_bucket _ _ Hu (proj1 Hh) v Hv) as (_ & _ & P). Qed.

Lemma iter_init hd vs : rep hd vs -> iter_at hd vs (-1) RD_HDR_ITER_INIT.
Proof.
  intros [Hw _ _ Hv _]. pose proof Hw as [Hu Hh _ _ _ Hb _ Hl _]. pose proof (Z.pow_pos_nonneg 2 (subBucketHalfCountMagnitude hd)).
  assert (E : bucket_of (subBucketHalfCountMagnitude hd) (-1) = 0).
  { unfold bucket_of. assert (-1 / 2 ^ subBucketHalfCountMagnitude hd < 0) by (apply Z.div_lt_upper_bound; lia). lia. }
  split; [nia|by rewrite E|rewrite E; cbn; lia| |lia]. unfold upto. cbn. 
  destruct (filter (fun v => hslot hd v <= -1) vs) as [|v l] eqn:Ef; [done|].
  assert (Hin : v ∈ filter (fun v => hslot hd v <= -1) vs) by (rewrite Ef; apply list_elem_of_here).
  apply list_elem_of_filter in Hin as [L Hin]. rewrite list.Forall_forall in Hv. pose proof (slot_nonneg hd v Hw (proj1 (Hv v Hin))). lia.
Qed.

(** The position after element [i]. *)
Lemma position_next hd i : hdr_wf hd -> -1 <= i -> i + 1 < countsLen hd -> let h := subBucketHalfCountMagnitude hd in
  (if i - bucket_of h i * 2 ^ h + 1 >=? subBucketCount hd then (bucket_of h i + 1, subBucketHalfCount hd)
   else (bucket_of h i, i - bucket_of h i * 2 ^ h + 1)) = (bucket_of h (i + 1), i + 1 - bucket_of h (i + 1) * 2 ^ h) /\
  0 <= bucket_of h (i + 1) < bucketCount hd.
Proof.
  intros [Hu Hh Eh Ec _ Hb Hm Hl _] Hi Hlt h. fold h in Hh, Eh, Ec, Hm, Hl. pose proof (Z.pow_pos_nonneg 2 h) as Hp.
  assert (E2 : 2 ^ (h + 1) = 2 * 2 ^ h) by (rewrite Z.pow_add_r by lia; lia).
  assert (Hbi : bucket_of h (i + 1) < bucketCount hd).
  { unfold bucket_of. assert ((i + 1) / 2 ^ h < bucketCount hd + 1) by (apply Z.div_lt_upper_bound; lia). lia. }
  split; [|split; [unfold bucket_of; lia|done]].
  destruct (decide (i = -1)) as [-> | N].
  { assert (E0 : bucket_of h (-1) = 0).
    { unfold bucket_of. assert (-1 / 2 ^ h < 0) by (apply Z.div_lt_upper_bound; lia). lia. }
    assert (E1 : bucket_of h (-1 + 1) = 0) by (apply bucket_of_unique; lia). rewrite E0, E1, Z.geb_leb, (proj2 (Z.leb_gt _ _)) by lia. f_equal. }
  destruct (sub_range h (proj1 Hh) i) as [R1 R2]; [lia|]. set (b := bucket_of h i) in *. assert (0 <= b) by (unfold b, bucket_of; lia).
  destruct (Z.geb_spec (i - b * 2 ^ h + 1) (subBucketCount hd)) as [L | L].
  - rewrite (bucket_of_unique h (proj1 Hh) (i + 1) (b + 1)) by lia. f_equal. lia.
  - rewrite (bucket_of_unique h (proj1 Hh) (i + 1) b) by lia. f_equal. lia.
Qed.

Lemma low_slot hd i : hdr_wf hd -> 0 <= i < countsLen hd -> 0 <= hlow hd i < limit hd /\ hslot hd (hlow hd i) = i.
Proof.
  intros Hw Hi. pose proof Hw as [Hu Hh _ _ _ _ _ _ _]. pose proof (low_nonneg _ _ Hu (proj1 Hh) i (proj1 Hi)).
  pose proof (width_pos _ _ Hu (proj1 Hh) i).
  assert (E : hslot hd (hlow hd i) = i) by (apply slot_eq; lia). split; [split; [done|]|done]. apply in_range; [done..|]. rewrite E. lia.
Qed.

Lemma limit_bound hd : hdr_wf hd -> limit hd <= 2 ^ 62.
Proof. intros [Hu Hh _ _ _ Hb Hm _ _]. unfold limit. apply Z.pow_le_mono_r; lia. Qed.

Lemma iter_next_spec hd vs i it : rep hd vs -> iter_at hd vs i it ->
  if upto hd i vs <? zlen vs then exists it', rd_hdr_iter_next hd it = Ret (Some it') /\ iter_at hd vs (i + 1) it'
  else rd_hdr_iter_next hd it = Ret None.
Proof.
  intros Hr [H1 H2 H3 H4 _]. pose proof Hr as [Hw Ht Hmx Hv _]. unfold rd_hdr_iter_next. rewrite H4, Ht, Z.geb_leb.
  destruct (Z.ltb_spec (upto hd i vs) (zlen vs)) as [L | L]; [|by rewrite (proj2 (Z.leb_le _ _))].
  rewrite (proj2 (Z.leb_gt _ _)) by lia. destruct (upto_less hd i vs L) as (v & Hin & Lv).
  rewrite list.Forall_forall in Hv. destruct (Hv v Hin) as [V1 V2]. apply in_range in V2; [|done..].
  destruct (position_next hd i Hw) as [Ep Hb]; [lia..|]. rewrite H2, H3, Ep, Z.geb_leb, (proj2 (Z.leb_gt _ _)) by lia.
  pose proof Hw as [Hu Hh _ _ _ _ Hm _ _]. unfold rd_hdr_getCountAtIndex. rewrite counts_index_spec by (done || lia). cbn [obind].
  replace (bucket_of (subBucketHalfCountMagnitude hd) (i + 1) * 2 ^ subBucketHalfCountMagnitude hd + _) with (i + 1) by lia.
  rewrite (counts_at_spec hd vs) by (done || lia). cbn [obind]. destruct (low_slot hd (i + 1) Hw) as [[B1 B2] Es]; [lia|].
  pose proof (limit_bound hd Hw). unfold rd_hdr_valueFromIndex.
  destruct (sub_range _ (proj1 Hh) (i + 1)) as [R _]; [lia|].
  rewrite shl64_spec; [|lia|lia|unfold low, width in B2; lia]. cbn [obind].
  change ((i + 1 - _) * 2 ^ _) with (hlow hd (i + 1)). rewrite highest_spec, Es by (done || lia). cbn [obind].
  eexists. split; [done|]. split; cbn [it_bucketIdx it_subBucketIdx it_countToIdx it_countAtIdx it_valueFromIdx it_highestEquivalentValue]; try done; [lia|].
  pose proof (upto_step hd (i + 1) vs) as Eu. replace (i + 1 - 1) with i in Eu by lia. rewrite <- Eu.
  pose proof (upto_bound hd (i + 1) vs). apply swrap_id; [lia|]. unfold s_ok. lia.
Qed.

(** A loop over the elements, with an invariant that depends on the position. *)
Lemma iterate_spec {A} hd vs (body : A -> rd_hdr_iter -> outcome (A * bool)) (Inv : Z -> A -> Prop) (Post : A -> Prop) a0 :
  rep hd vs -> Inv (-1) a0 ->
  (forall i it a, 0 <= i -> iter_at hd vs i it -> upto hd (i - 1) vs < zlen vs -> Inv (i - 1) a ->
     exists a' stop, body a it = Ret (a', stop) /\ if stop : bool then Post a' else Inv i a') ->
  (forall i a, upto hd i vs = zlen vs -> Inv i a -> Post a) ->
  exists a, iterate hd body (iter_fuel hd) a0 RD_HDR_ITER_INIT = Ret a /\ Post a.
Proof.
  intros Hr H0 Hbody Hend. unfold iter_fuel.
  assert (Hgen : forall n i it a, iter_at hd vs i it -> Inv i a -> countsLen hd - i <= Z.of_nat n ->
    exists a', iterate hd body n a it = Ret a' /\ Post a').
  { induction n as [|n IH]; intros i it a Hit Hi Hn; [destruct Hit; lia|]. cbn [iterate]. pose proof (iter_next_spec hd vs i it Hr Hit) as Hnx.
    destruct (Z.ltb_spec (upto hd i vs) (zlen vs)) as [L | L].
    - destruct Hnx as (it' & -> & Hit'). cbn [obind]. destruct (Hbody (i + 1) it' a) as (a' & stop & -> & Hs).
      + destruct Hit. lia.
      + done.
      + by replace (i + 1 - 1) with i by lia.
      + by replace (i + 1 - 1) with i by lia.
      + cbn [obind]. destruct stop; [by exists a'|]. apply (IH (i + 1)); [done|done|lia].
    - rewrite Hnx. cbn [obind]. exists a. split; [done|]. eapply Hend; [|exact Hi]. pose proof (upto_bound hd i vs). lia. }
  apply (Hgen _ (-1)); [by apply iter_init|done|]. lia.
Qed.

(** ** Ranks *)

Lemma quantile_slot hd vs n : rep hd vs -> 1 <= n <= zlen vs ->
  exists i, quantile_loop hd n = Ret (hlow hd (i + 1) - 1) /\ 0 <= i < countsLen hd /\ upto hd (i - 1) vs < n <= upto hd i vs.
Proof.
  intros Hr Hn. pose proof Hr as [Hw _ Hmx _ _]. unfold quantile_loop.
  set (Post := fun a : Z * Z => exists i, snd a = hlow hd (i + 1) - 1 /\ 0 <= i < countsLen hd /\ upto hd (i - 1) vs < n <= upto hd i vs).
  match goal with |- context [iterate hd ?b _ _ _] => destruct (iterate_spec hd vs b
      (fun i a => fst a = upto hd i vs /\ upto hd i vs < n) Post (0, 0) Hr) as ([t r] & -> & i & E & Hi & Hu) end.
  - pose proof (iter_init hd vs Hr) as [_ _ _ E _]. cbn in *. split; [done|]. lia.
  - intros i it [t r] Hi Hit Hlt [Et Hlt']. cbn [fst snd] in *. destruct Hit as [I1 _ _ _ I5]. destruct (I5 Hi) as (-> & -> & _).
    pose proof (upto_step hd i vs) as Es. pose proof (upto_bound hd i vs). rewrite Et, <- Es.
    rewrite swrap_id by (unfold s_ok; lia). destruct (Z.geb_spec (upto hd i vs) n) as [L | L].
    + destruct (low_slot hd i Hw) as [B Esl]; [lia|]. pose proof (limit_bound hd Hw). rewrite highest_spec, Esl by (done || lia).
      cbn [obind]. eexists _, _. split; [done|]. exists i. cbn [snd]. split; [done|]. lia.
    + eexists _, _. split; [done|]. cbn [fst]. split; [done|]. lia.
  - intros i a E [_ L]. lia.
  - cbn [obind]. exists i. cbn [snd] in E. by rewrite E.
Qed.

Lemma sorted_nth_le ws k w r : StronglySorted Z.le ws -> ws !! k = Some w -> (k < length (filter (fun v => v <= r)%Z ws))%nat -> w <= r.
Proof.
  revert k. induction ws as [|x ws IH]; intros k Hs Hk Hl; [done|]. apply StronglySorted_inv in Hs as [Hs Hx].
  rewrite filter_cons in Hl. destruct (decide (x <= r)) as [L | L].
  - destruct k as [|k]; cbn in Hk; [by injection Hk as ->|]. rewrite length_cons in Hl. apply (IH k); [done|done|lia].
  - exfalso. destruct (filter (fun v => v <= r) ws) as [|y l] eqn:Ef; [cbn in Hl; lia|].
    assert (Hy : y ∈ filter (fun v => v <= r) ws) by (rewrite Ef; apply list_elem_of_here). apply list_elem_of_filter in Hy as [Ly Hy].
    rewrite list.Forall_forall in Hx. specialize (Hx y Hy). lia.
Qed.

Lemma sorted_nth_ge ws k w r : StronglySorted Z.le ws -> ws !! k = Some w -> (length (filter (fun v => v < r)%Z ws) <= k)%nat -> r <= w.
Proof.
  revert k. induction ws as [|x ws IH]; intros k Hs Hk Hl; [done|]. apply StronglySorted_inv in Hs as [Hs Hx].
  rewrite filter_cons in Hl. destruct (decide (x < r)) as [L | L].
  - destruct k as [|k]; cbn in Hk; rewrite length_cons in Hl; [lia|]. apply (IH k); [done|done|lia].
  - destruct k as [|k]; cbn in Hk; [injection Hk as ->; lia|]. apply list_elem_of_lookup_2 in Hk. rewrite list.Forall_forall in Hx.
    specialize (Hx w Hk). lia.
Qed.

(** The element a rank leads to is that of the value with this rank. *)
Lemma quantile_value hd vs ws n w : rep hd vs -> StronglySorted Z.le ws -> Permutation ws vs -> 1 <= n -> ws !! Z.to_nat (n - 1) = Some w ->
  quantile_loop hd n = Ret (hlow hd (hslot hd w + 1) - 1).
Proof.
  intros Hr Hs Hp Hn Hw'. pose proof (lookup_lt_Some _ _ _ Hw') as Hlen. rewrite Hp in Hlen.
  destruct (quantile_slot hd vs n Hr) as (i & -> & Hi & Hu1 & Hu2); [lia|]. pose proof Hr as [Hw _ _ Hv _]. pose proof Hw as [Hu Hh _ _ _ _ _ _ _].
  assert (Hin : w ∈ vs) by (rewrite <- Hp; by eapply list_elem_of_lookup_2). rewrite list.Forall_forall in Hv.
  pose proof (slot_nonneg hd w Hw (proj1 (Hv w Hin))) as Hsl.
  assert (E1 : length (filter (fun v => v <= hlow hd (i + 1) - 1) ws) = length (filter (fun v => hslot hd v <= i) vs)).
  { rewrite <- Hp. apply filter_length_ext. intros v Hin'. rewrite Hp in Hin'. destruct (Hv v Hin') as [V _].
    rewrite (slot_le _ _ Hu (proj1 Hh) v i V) by lia. lia. }
  assert (E2 : length (filter (fun v => v < hlow hd i) ws) = length (filter (fun v => hslot hd v <= i - 1) vs)).
  { rewrite <- Hp. apply filter_length_ext. intros v Hin'. rewrite Hp in Hin'. destruct (Hv v Hin') as [V _].
    pose proof (slot_ge _ _ Hu (proj1 Hh) v i V). lia. }
  unfold upto in Hu1, Hu2. pose proof (sorted_nth_le ws _ w (hlow hd (i + 1) - 1) Hs Hw'). pose proof (sorted_nth_ge ws _ w (hlow hd i) Hs Hw').
  rewrite low_next in * by lia. rewrite (slot_eq _ _ Hu (proj1 Hh) w i); [by rewrite low_next by lia|apply Hv; done|lia|lia].
Qed.

(** ** Sequences of values *)

Fixpoint record_all hd vs : outcome rd_hdr_histogram :=
  match vs with
  | [] => Ret hd
  | v :: vs => let! (_, hd) := rd_hdr_histogram_record hd v in record_all hd vs
  end.

Lemma record_all_spec hd vs0 vs : rep hd vs0 -> Forall (fun v => 0 <= v < 2 ^ 63) vs -> zlen vs0 + zlen vs < 2 ^ 62 ->
  0 <= outOfRangeCount hd -> outOfRangeCount hd + zlen vs < 2 ^ 62 ->
  exists hd', record_all hd vs = Ret hd' /\ same_shape hd hd' /\ rep hd' (vs0 ++ filter (fun v => v < limit hd) vs) /\
    outOfRangeCount hd' = outOfRangeCount hd + zlen (filter (fun v => limit hd <= v) vs).
Proof.
  revert hd vs0. induction vs as [|v vs IH]; intros hd vs0 Hr Hv Hm Ho Ho'.
  { exists hd. split; [done|]. split; [done|]. rewrite app_nil_r. cbn. split; [done|lia]. }
  apply Forall_cons in Hv as [Hv Hvs]. rewrite length_cons in Hm, Ho'. destruct (record_spec hd vs0 v Hr Hv) as (hd1 & E1 & S1 & R1 & O1); [lia|].
  cbn [record_all]. rewrite E1. cbn [obind]. assert (El : limit hd1 = limit hd) by (unfold limit; by destruct S1 as (-> & -> & -> & _)).
  assert (Ht : forall hd', same_shape hd1 hd' -> same_shape hd hd') by (unfold same_shape in *; intuition congruence).
  rewrite !filter_cons. destruct (Z.ltb_spec v (limit hd)) as [L | L].
  - rewrite decide_True, decide_False by lia. injection O1 as O1 _ _.
    destruct (IH hd1 (vs0 ++ [v]) R1 Hvs) as (hd' & E & S & R & O); [rewrite length_app; cbn; lia|lia|lia|].
    rewrite El in R, O. exists hd'. split; [done|]. split; [by apply Ht|]. rewrite <- app_assoc in R. split; [done|lia].
  - rewrite decide_False, decide_True by lia. injection O1 as O1 _ _. rewrite swrap_id in O1 by (unfold s_ok; lia).
    destruct (IH hd1 vs0 R1 Hvs) as (hd' & E & S & R & O); [lia..|]. rewrite El in R, O. exists hd'. split; [done|]. split; [by apply Ht|].
    split; [done|]. rewrite length_cons. lia.
Qed.

(** ** Theorems *)

(** C17. A histogram created for a range and a number of significant figures
    counts every value it is given: those below its limit, which is not
    below the largest trackable value, in the array and the others as out of range.
    Asked for a quantile whose rank is [n], it returns a value [r] that is at
    least the [n]-th smallest recorded value [w] and exceeds it by less than the
    larger of the lowest trackable value (1 at least) and [w / 10^sf]: the
    significant figures are kept from [minValue * 10^sf] on, below that only the
    lowest trackable value bounds the error.  [minValue] is below 2^44 and [maxValue] at
    most 2^62. *)
Theorem hdr_quantile_accurate minValue maxValue sf vs :
  minValue < 2 ^ 44 -> maxValue <= 2 ^ 62 -> 1 <= sf <= 5 -> Forall (fun v => 0 <= v < 2 ^ 63) vs -> zlen vs < 2 ^ 62 ->
  exists hd0 hd lim, rd_hdr_histogram_new minValue maxValue sf = Ret (Some hd0) /\ record_all hd0 vs = Ret hd /\ maxValue <= lim /\
    totalCount hd = zlen (filter (fun v => v < lim) vs) /\ outOfRangeCount hd = zlen (filter (fun v => lim <= v) vs) /\
    forall ws q n w, StronglySorted Z.le ws -> Permutation ws (filter (fun v => v < lim) vs) ->
      count_at_percentile q (totalCount hd) = Ret n -> 1 <= n -> ws !! Z.to_nat (n - 1) = Some w ->
      exists r, rd_hdr_histogram_quantile hd q = Ret r /\ w <= r /\ r - w < Z.max (Z.max 1 minValue) (w / 10 ^ sf).
Proof.
  intros Hmin Hmax Hs Hv Hn. destruct (new_spec minValue maxValue sf Hmin Hmax Hs) as (hd0 & E0 & Hc).
  pose proof Hc as [Hw0 Hu0 Hh0 Hl0 _ _ _ _ [Ho0 _]].
  destruct (record_all_spec hd0 [] vs (rep_created _ _ _ _ Hc) Hv) as (hd & E & S & R & O); [cbn in *; lia|lia|lia|].
  exists hd0, hd, (limit hd0). split_and!; try done; [by destruct R|lia|]. intros ws q n w Hso Hp Hq Hn' Hw'. cbn [app] in R.
  unfold rd_hdr_histogram_quantile. rewrite Hq. cbn [obind]. rewrite (quantile_value hd _ ws n w R Hso Hp Hn' Hw').
  eexists. split; [done|]. pose proof R as [Hw _ _ Hvs _]. pose proof Hw as [Hu Hh _ _ _ _ _ _ _].
  assert (Hin : w ∈ filter (fun v => v < limit hd0) vs) by (rewrite <- Hp; by eapply list_elem_of_lookup_2).
  rewrite list.Forall_forall in Hvs. destruct (Hvs w Hin) as [W1 _]. pose proof (slot_nonneg hd w Hw W1).
  destruct (slot_low _ _ Hu (proj1 Hh) w W1) as [L1 L2]. pose proof (width_small _ _ Hu (proj1 Hh) w W1) as Hsm.
  rewrite low_next by lia. split; [lia|]. destruct S as (Su & Sh & _). rewrite Su, Sh in *.
  assert (w / 2 ^ subBucketHalfCountMagnitude hd0 <= w / 10 ^ sf) by (apply Z.div_le_compat_l; [lia|]; split; [apply Z.pow_pos_nonneg; lia|done]).
  lia.
Qed.

Lemma hdr_quantile_accurate_witness :
  exists hd0 hd, rd_hdr_histogram_new 1 1000 1 = Ret (Some hd0) /\ record_all hd0 [700; 3; 90] = Ret hd /\
    rd_hdr_histogram_quantile hd (dbl_of 50) = Ret 91.
Proof.
  destruct (hdr_quantile_accurate 1 1000 1 [700; 3; 90]) as (hd0 & hd & lim & E0 & E & _); [lia|lia|lia| |cbn; lia|].
  { repeat constructor; lia. }
  exists hd0, hd. split; [exact E0|]. split; [exact E|]. vm_compute in E0. injection E0 as <-. vm_compute in E. injection E as <-.
  vm_compute. reflexivity.
Defined.

(** The largest element with a value. *)
Lemma max_slot hd vs m : rep hd vs -> m ∈ vs -> Forall (fun v => v <= m) vs ->
  rd_hdr_histogram_max hd = Ret (hlow hd (hslot hd m + 1) - 1).
Proof.
  intros Hr Hin Hall. pose proof Hr as [Hw _ _ Hv _]. pose proof Hw as [Hu Hh _ _ _ _ _ _ _]. pose proof (limit_bound hd Hw).
  rewrite list.Forall_forall in Hv, Hall. destruct (Hv m Hin) as [M1 M2]. pose proof (slot_nonneg hd m Hw M1) as Hsm.
  unfold rd_hdr_histogram_max.
  match goal with |- context [iterate hd ?b _ _ _] => destruct (iterate_spec hd vs b
    (fun i a => hslot hd m <= i -> a = hlow hd (hslot hd m + 1) - 1) (fun a => a = hlow hd (hslot hd m + 1) - 1) 0 Hr) as (r & -> & ->) end.
  - lia.
  - intros i it a Hi Hit Hlt IH. destruct Hit as [I1 _ _ _ I5]. destruct (I5 Hi) as (-> & _ & ->).
    eexists _, _. split; [done|]. intros Hge. destruct (decide (hslot hd m = i)) as [<- | N].
    + assert (0 < cnt hd (hslot hd m) vs).
      { unfold cnt. destruct (filter (fun v => hslot hd v = hslot hd m) vs) as [|y l] eqn:Ef; [|cbn; lia].
        destruct (filter_nil_not_elem_of (fun v => hslot hd v = hslot hd m) vs m Ef eq_refl Hin). }
      rewrite (proj2 (Z.eqb_neq _ _)) by lia. done.
    + assert (cnt hd i vs = 0) as ->; [|cbn; apply IH; lia].
      unfold cnt. destruct (filter (fun v => hslot hd v = i) vs) as [|y l] eqn:Ef; [done|].
      assert (Hy : y ∈ filter (fun v => hslot hd v = i) vs) by (rewrite Ef; apply list_elem_of_here).
      apply list_elem_of_filter in Hy as [Ey Hy]. destruct (Hv y Hy) as [Y1 _].
      pose proof (slot_ge _ _ Hu (proj1 Hh) y i Y1 ltac:(lia)) as G1. pose proof (slot_ge _ _ Hu (proj1 Hh) m i M1 ltac:(lia)) as G2.
      specialize (Hall y Hy). lia.
  - intros i a E Hi. apply Hi. destruct (Z.le_gt_cases (hslot hd m) i) as [|G]; [done|].
    assert (Hlt : (length (filter (fun v => hslot hd v <= i)%Z vs) < length vs)%nat).
    { eapply (length_filter_lt _ vs m); [done|]. lia. }
    unfold upto in E. lia.
  - cbn [obind]. apply in_range in M2 as M3; [|done..]. destruct (low_slot hd (hslot hd m) Hw ltac:(lia)) as [B Es].
    pose proof (width_pos _ _ Hu (proj1 Hh) (hslot hd m)). pose proof (width_bound hd m Hw ltac:(lia)).
    assert (Hb : hlow hd (hslot hd m + 1) - 1 < limit hd).
    { destruct (Z.le_gt_cases (limit hd) (hlow hd (hslot hd m + 1) - 1)) as [G|]; [|done].
      assert (hslot hd (hlow hd (hslot hd m + 1) - 1) = hslot hd m) as Eq by (rewrite low_next in * by lia; apply slot_eq; lia).
      pose proof (in_range hd (hlow hd (hslot hd m + 1) - 1) Hw ltac:(lia)). lia. }
    rewrite low_next in * by lia. rewrite highest_spec by (done || lia). rewrite (slot_eq _ _ Hu (proj1 Hh) _ (hslot hd m)) by lia.
    by rewrite low_next by lia.
Qed.

(** Recording a negative value shifts by a negative distance instead of
    counting it as out of range, and a largest trackable value that is a power
    of two is itself out of range. *)
Theorem hdr_range_defects :
  (forall minValue maxValue sf hd v, rd_hdr_histogram_new minValue maxValue sf = Ret (Some hd) -> minValue < 2 ^ 44 -> maxValue <= 2 ^ 62 ->
     1 <= sf <= 5 -> - 2 ^ 63 <= v < 0 -> rd_hdr_histogram_record hd v = Crash) /\
  (forall k, 11 <= k <= 61 -> exists hd hd', rd_hdr_histogram_new 1 (2 ^ k) 3 = Ret (Some hd) /\ highestTrackableValue hd = 2 ^ k /\
     rd_hdr_histogram_record hd (2 ^ k) = Ret (0, hd')).
Proof.
  split.
  - intros minValue maxValue sf hd v E Hmin Hmax Hs Hv. destruct (new_spec minValue maxValue sf Hmin Hmax Hs) as (hd' & E' & Hc).
    rewrite E in E'. injection E' as <-. destruct Hc as [Hw _ _ _ _ _ _ _ _]. destruct Hw as [Hu Hh _ _ _ Hb Hm _ _].
    unfold rd_hdr_histogram_record, rd_hdr_countsIndexFor, rd_hdr_getSubBucketIdx, rd_hdr_getBucketIndex.
    assert (Hneg : Z.lor v (subBucketMask hd) < 0) by (apply Z.lor_neg; lia).
    assert (E0 : bitLen (Z.lor v (subBucketMask hd)) = 0).
    { assert (G : forall b, 0 <= b -> (Z.lor v (subBucketMask hd) >=? b) = false) by (intros b Hb'; rewrite Z.geb_leb; apply Z.leb_gt; lia).
      unfold bitLen. cbn [bitLen_loop]. by rewrite !G. }
    rewrite E0, swrap_id by (unfold s_ok; lia). unfold shr64. rewrite (proj2 (Z.leb_gt 0 _)) by lia. done.
  - intros k Hk. assert (2 ^ k <= 2 ^ 61) by (apply Z.pow_le_mono_r; lia).
    destruct (new_spec 1 (2 ^ k) 3) as (hd & E & Hc); [lia|lia|lia|]. pose proof Hc as [Hw _ _ Hl Hle _ _ (_ & Hhi & _) _].
    assert (Ef : unitMagnitude hd = 0 /\ subBucketHalfCountMagnitude hd = 10).
    { unfold rd_hdr_histogram_new in E. change ((3 <? 1) || (3 >? 5)) with false in E. cbn [orb] in E.
      change (Z.max (Z.log2_up (2 * 10 ^ 3)) 1 - 1) with 10 in E. change (Z.max (Z.log2 1) 0) with 0 in E.
      change (shl64 (2 ^ (10 + 1) - 1) 0) with (@Ret Z 2047) in E. change (shl64 (2 ^ (10 + 1)) 0) with (@Ret Z 2048) in E. cbn [obind] in E.
      destruct (buckets_needed 64 2048 (2 ^ k) 1); [|done..]. cbn [obind] in E. injection E as <-. done. }
    destruct Ef as [Eu Eh].
    assert (El : limit hd = 2 ^ k).
    { unfold limit in *. rewrite Eu, Eh in *. destruct Hw as [_ _ _ _ _ Hb _ _ _]. 
      assert (k <= 0 + 10 + bucketCount hd) by (apply (Z.pow_le_mono_r_iff 2); lia).
      destruct Hle as [E1 | L1].
      - apply Z.pow_inj_r in E1; [|lia..]. rewrite E1. f_equal. lia.
      - rewrite <- Z.pow_succ_r in L1 by lia. apply Z.pow_lt_mono_r_iff in L1; [|lia..]. f_equal. lia. }
    destruct (record_spec hd [] (2 ^ k) (rep_created _ _ _ _ Hc)) as (hd' & E1 & _); [lia|cbn; lia|].
    rewrite El, Z.ltb_irrefl in E1. by exists hd, hd'.
Qed.

Lemma hdr_range_defects_witness :
  (exists hd, rd_hdr_histogram_new 0 100000 2 = Ret (Some hd) /\ rd_hdr_histogram_record hd (-1) = Crash) /\
  exists hd hd', rd_hdr_histogram_new 1 (2 ^ 20) 3 = Ret (Some hd) /\ highestTrackableValue hd = 2 ^ 20 /\ rd_hdr_histogram_record hd (2 ^ 20) = Ret (0, hd').
Proof.
  split.
  - destruct (rd_hdr_histogram_new 0 100000 2) as [[hd|]| |] eqn:E; [|vm_compute in E; discriminate..].
    exists hd. split; [reflexivity|]. apply (proj1 hdr_range_defects 0 100000 2 hd (-1)); [exact E|lia..].
  - apply (proj2 hdr_range_defects 20). lia.
Defined.

(** ** Averages *)

Fixpoint avg_add_all (ra : rd_avg) (vs : list Z) : outcome rd_avg :=
  match vs with
  | [] => Ret ra
  | v :: vs => let! ra := rd_avg_add ra v in avg_add_all ra vs
  end.

Lemma avg_add_all_hdr ra hd hd' vs : ra_enabled ra = true -> ra_hdr ra = Some hd -> record_all hd vs = Ret hd' ->
  exists ra', avg_add_all ra vs = Ret ra' /\ ra_enabled ra' = true /\ ra_hdr ra' = Some hd'.
Proof.
  revert ra hd. induction vs as [|v vs IH]; intros ra hd He Hh Hr; cbn [record_all avg_add_all] in *.
  { injection Hr as ->. by exists ra. }
  unfold rd_avg_add, get_hdr. rewrite He, Hh. cbn [negb obind].
  destruct (rd_hdr_histogram_record hd v) as [[r hd1]| |]; cbn [obind] in *; [|done..]. by eapply IH.
Qed.

Lemma empty_quantile hd q n : totalCount hd = 0 -> count_at_percentile q 0 = Ret n -> rd_hdr_histogram_quantile hd q = Ret 0.
Proof.
  intros Ht Hc. unfold rd_hdr_histogram_quantile. rewrite Ht, Hc. cbn [obind]. unfold quantile_loop, iter_fuel. cbn [iterate].
  unfold rd_hdr_iter_next. rewrite Ht. done.
Qed.

(** The histogram of an averager is adapted to values that were out of range
    only when some other value of the period was in range.  When all values of a
    period are beyond its limit, the quantiles of the period are all 0 and the
    histogram keeps its range, so that this goes on for as long as the values
    stay there. *)
Theorem avg_out_of_range_never_adapts ra hd vs clock : ra_enabled ra = true -> ra_hdr ra = Some hd -> rep hd [] ->
  Forall (fun v => limit hd <= v < 2 ^ 63) vs -> 0 <= outOfRangeCount hd -> outOfRangeCount hd + zlen vs < 2 ^ 62 ->
  exists ra' dst src hd', avg_add_all ra vs = Ret ra' /\ rd_avg_rollover ra' clock = Ret (dst, src) /\
    (ra_p50 (ra_hist dst), ra_p75 (ra_hist dst), ra_p90 (ra_hist dst), ra_p95 (ra_hist dst), ra_p99 (ra_hist dst), ra_p99_99 (ra_hist dst)) =
      (0, 0, 0, 0, 0, 0) /\ ra_oor (ra_hist dst) = outOfRangeCount hd + zlen vs /\
    ra_enabled src = true /\ ra_hdr src = Some hd' /\ limit hd' = limit hd /\ rep hd' [] /\ outOfRangeCount hd' = outOfRangeCount hd + zlen vs.
Proof.
  intros He Hh Hr Hv Ho Hm. pose proof Hr as [Hw _ _ _ _].
  assert (Hlim : 0 <= limit hd) by (unfold limit; apply Z.pow_nonneg; lia).
  destruct (record_all_spec hd [] vs Hr) as (hd' & E & S & R & O); [|cbn in *; lia|done|lia|].
  { eapply Forall_impl; [exact Hv|]. cbn. lia. }
  destruct (avg_add_all_hdr ra hd hd' vs He Hh E) as (ra' & E' & He' & Hh').
  assert (F0 : length (filter (fun v => v < limit hd) vs) = 0%nat /\ length (filter (fun v => limit hd <= v) vs) = length vs).
  { clear -Hv. induction Hv as [|v vs Hv _ [IH1 IH2]]; [done|]. rewrite !filter_cons, decide_False, decide_True by lia.
    rewrite !length_cons. lia. }
  destruct F0 as [F0 F1]. rewrite F1 in O. apply nil_length_inv in F0. rewrite F0 in R. cbn [app] in R.
  assert (Ht : totalCount hd' = 0) by (by destruct R).
  assert (Hq : forall q n, count_at_percentile q 0 = Ret n -> rd_hdr_histogram_quantile hd' q = Ret 0) by (intros q n; by apply empty_quantile).
  exists ra'. unfold rd_avg_rollover, get_hdr. rewrite He', Hh'. cbn [negb obind].
  unfold rd_hdr_histogram_stddev, rd_hdr_histogram_mean. rewrite Ht. cbn [Z.eqb obind].
  rewrite !(Hq _ 0) by (vm_compute; reflexivity). cbn [obind]. unfold adapt_hdr. rewrite Ht. cbn [Z.gtb Z.compare obind].
  eexists _, _, hd'. split; [done|]. split; [done|]. 
  assert (El : limit hd' = limit hd) by (unfold limit; by destruct S as (-> & -> & -> & _)).
  unfold rd_avg_calc. cbn. destruct (ra_type ra'); cbn; split_and!; try done; lia.
Qed.

Lemma avg_out_of_range_never_adapts_witness :
  exists ra hd, rd_avg_init RD_AVG_GAUGE 0 500000 2 true 1 = Ret ra /\ ra_hdr ra = Some hd /\
    exists ra' dst src, avg_add_all ra [600000; 700000] = Ret ra' /\ rd_avg_rollover ra' 2 = Ret (dst, src) /\ ra_p50 (ra_hist dst) = 0.
Proof.
  destruct (rd_hdr_histogram_new 0 500000 2) as [[hd|]| |] eqn:E; [|vm_compute in E; discriminate..].
  destruct (new_spec 0 500000 2) as (hd' & E' & Hc); [lia..|]. rewrite E in E'. injection E' as <-.
  assert (El : limit hd = 2 ^ 19) by (vm_compute in E; injection E as <-; reflexivity).
  assert (Eo : outOfRangeCount hd = 0) by (destruct Hc as [_ _ _ _ _ _ _ _ [? _]]; assumption).
  exists (mk_ra (mk_ra_v 0 0 0 0 0 1) true RD_AVG_GAUGE (Some hd) ra_hist_zero), hd. split; [unfold rd_avg_init; rewrite E; reflexivity|].
  split; [reflexivity|].
  destruct (avg_out_of_range_never_adapts (mk_ra (mk_ra_v 0 0 0 0 0 1) true RD_AVG_GAUGE (Some hd) ra_hist_zero) hd [600000; 700000] 2)
    as (ra' & dst & src & hd' & E1 & E2 & E3 & _); [reflexivity|reflexivity|exact (rep_created _ _ _ _ Hc)| |lia|cbn; lia|].
  { rewrite El. repeat constructor; lia. }
  exists ra', dst, src. injection E3 as E3 _ _ _ _ _. split; [exact E1|]. split; [exact E2|exact E3].
Defined.
