(* ===== verification/CgrpState.v ===== *)
(** * The consumer group: state (rdkafka_cgrp.h, rdinterval.h)

    The group is only used by the main thread.  What it exchanges with others
    is explicit: [qu_ops] is its operation queue, [qu_requests] the requests
    sent to the coordinator and not yet answered, [pt_stops] the partitions
    told to stop that have not yet replied, [qu_out] what was sent to the
    application and to partitions.  A partition object is its topic and
    partition; the members of it that belong to the group are [pt_assigned]
    ([rktp_assigned]) and [pt_info] (its offsets).  The version barrier is an
    [int32_t]; it does not come near its end and is a [Z] here. *)
From Stdlib Require Import ZArith Lia.
From stdpp Require Import base numbers list gmap.
From S2P Require Import Prelude.

(** ** Error codes *)

Definition ERR_NO_ERROR : Z := 0.
Definition ERR__BAD_MSG : Z := -199.
Definition ERR__DESTROY : Z := -197.
Definition ERR__TRANSPORT : Z := -195.
Definition ERR__INVALID_ARG : Z := -186.
Definition ERR__TIMED_OUT : Z := -185.
Definition ERR__WAIT_COORD : Z := -180.
Definition ERR__IN_PROGRESS : Z := -178.
Definition ERR__ASSIGN_PARTITIONS : Z := -175.
Definition ERR__REVOKE_PARTITIONS : Z := -174.
Definition ERR__NO_OFFSET : Z := -168.
Definition ERR__TIMED_OUT_QUEUE : Z := -166.
Definition ERR_LEADER_NOT_AVAILABLE : Z := 5.
Definition ERR_NOT_LEADER_FOR_PARTITION : Z := 6.
Definition ERR_REQUEST_TIMED_OUT : Z := 7.
Definition ERR_BROKER_NOT_AVAILABLE : Z := 8.
Definition ERR_REPLICA_NOT_AVAILABLE : Z := 9.
Definition ERR_OFFSET_METADATA_TOO_LARGE : Z := 12.
Definition ERR_GROUP_LOAD_IN_PROGRESS : Z := 14.
Definition ERR_GROUP_COORDINATOR_NOT_AVAILABLE : Z := 15.
Definition ERR_NOT_COORDINATOR_FOR_GROUP : Z := 16.
Definition ERR_NOT_ENOUGH_REPLICAS : Z := 19.
Definition ERR_NOT_ENOUGH_REPLICAS_AFTER_APPEND : Z := 20.
Definition ERR_ILLEGAL_GENERATION : Z := 22.
Definition ERR_UNKNOWN_MEMBER_ID : Z := 25.
Definition ERR_REBALANCE_IN_PROGRESS : Z := 27.
Definition ERR_INVALID_COMMIT_OFFSET_SIZE : Z := 28.
Definition ERR_TOPIC_AUTHORIZATION_FAILED : Z := 29.
Definition ERR_GROUP_AUTHORIZATION_FAILED : Z := 30.

Definition OFFSET_INVALID : Z := -1001.

(** ** Intervals (rdinterval.h) *)

Record rd_interval_t : Type := mk_ri { ri_ts_last : Z; ri_fixed : Z; ri_backoff : Z }.

Definition rd_interval_init : rd_interval_t := mk_ri 0 0 0.

(** The difference and the interval afterwards; [clock] is [rd_clock()]. *)
Definition rd_interval0 (ri : rd_interval_t) (interval_us now clock : Z) (immediate : bool) : Z * rd_interval_t :=
  let now := if now =? 0 then clock else now in
  let interval_us := if interval_us =? 0 then ri_fixed ri else interval_us in
  let diff := if negb (ri_ts_last ri =? 0) || negb immediate
              then now - (ri_ts_last ri + interval_us + ri_backoff ri) else 1 in
  (diff, if diff >? 0 then mk_ri now (ri_fixed ri) 0 else ri).

Definition rd_interval (ri : rd_interval_t) (interval_us now clock : Z) : Z * rd_interval_t := rd_interval0 ri interval_us now clock false.
Definition rd_interval_immediate (ri : rd_interval_t) (interval_us now clock : Z) : Z * rd_interval_t := rd_interval0 ri interval_us now clock true.

Definition rd_interval_reset (ri : rd_interval_t) : rd_interval_t := mk_ri 0 (ri_fixed ri) 0.
Definition rd_interval_backoff (ri : rd_interval_t) (backoff_us : Z) : rd_interval_t := mk_ri (ri_ts_last ri) (ri_fixed ri) backoff_us.
Definition rd_interval_expedite (ri : rd_interval_t) (expedite_us : Z) : rd_interval_t :=
  if expedite_us =? 0 then mk_ri 0 (ri_fixed ri) (ri_backoff ri) else mk_ri (ri_ts_last ri) (ri_fixed ri) (- expedite_us).
Definition rd_interval_disable (ri : rd_interval_t) : rd_interval_t := mk_ri 6000000000000000000 (ri_fixed ri) (ri_backoff ri).
Definition rd_interval_disabled (ri : rd_interval_t) : bool := ri_ts_last ri =? 6000000000000000000.

(** ** States *)

Inductive cgrp_state : Type :=
| STATE_INIT | STATE_TERM | STATE_QUERY_COORD | STATE_WAIT_COORD | STATE_WAIT_BROKER | STATE_WAIT_BROKER_TRANSPORT | STATE_UP.

Inductive join_state : Type :=
| JOIN_INIT | JOIN_WAIT_JOIN | JOIN_WAIT_METADATA | JOIN_WAIT_SYNC | JOIN_WAIT_UNASSIGN
| JOIN_WAIT_ASSIGN_REBALANCE_CB | JOIN_WAIT_REVOKE_REBALANCE_CB | JOIN_ASSIGNED | JOIN_STARTED.

#[export] Instance cgrp_state_eq_dec : EqDecision cgrp_state.
Proof. solve_decision. Defined.
#[export] Instance join_state_eq_dec : EqDecision join_state.
Proof. solve_decision. Defined.

(** Their order in the enumeration. *)
Definition join_num (j : join_state) : Z :=
  match j with
  | JOIN_INIT => 0 | JOIN_WAIT_JOIN => 1 | JOIN_WAIT_METADATA => 2 | JOIN_WAIT_SYNC => 3 | JOIN_WAIT_UNASSIGN => 4
  | JOIN_WAIT_ASSIGN_REBALANCE_CB => 5 | JOIN_WAIT_REVOKE_REBALANCE_CB => 6 | JOIN_ASSIGNED => 7 | JOIN_STARTED => 8
  end.

Abbreviation is_state s s' := (bool_decide (s = s')).

(** ** Flags *)

Definition F_TERMINATE : Z := 0x1.
Definition F_WAIT_UNASSIGN : Z := 0x4.
Definition F_LEAVE_ON_UNASSIGN : Z := 0x8.
Definition F_SUBSCRIPTION : Z := 0x10.
Definition F_HEARTBEAT_IN_TRANSIT : Z := 0x20.
Definition F_WILDCARD_SUBSCRIPTION : Z := 0x40.

(** ** Partitions, operations, requests *)

Definition toppar : Type := list Z * Z.

(** A topic-partition list with its offsets. *)
Definition partitions : Type := list (toppar * Z).

Record offsets_t : Type := mk_offsets { rktp_stored_offset : Z; rktp_committed_offset : Z; rktp_app_offset : Z }.

(** An offset commit operation; [oc_reply] when somebody waits for the reply,
    [oc_cb] when it has a callback of its own. *)
Record commit : Type := mk_commit {
  oc_partitions : option partitions;
  oc_silent_empty : bool;
  oc_ts_timeout : Z;
  oc_reprocess : bool;
  oc_reply : bool;
  oc_cb : bool }.

Inductive op : Type :=
| OP_NAME
| OP_OFFSET_FETCH (p : partitions)
| OP_PARTITION_JOIN (t : toppar)
| OP_PARTITION_LEAVE (t : toppar)
| OP_FETCH_STOP_REPLY (t : toppar)
| OP_OFFSET_COMMIT (c : commit)
| OP_COORD_QUERY
| OP_SUBSCRIBE (topics : option (list (list Z)))
| OP_ASSIGN (p : option partitions)
| OP_GET_SUBSCRIPTION
| OP_GET_ASSIGNMENT
| OP_TERMINATE.

Inductive request : Type :=
| RQ_GroupCoordinator
| RQ_JoinGroup
| RQ_SyncGroup
| RQ_Heartbeat
| RQ_LeaveGroup
| RQ_Metadata_assignor
| RQ_Metadata
| RQ_OffsetFetch (p : partitions) (version : Z)
| RQ_op_OffsetFetch (p : partitions)
| RQ_OffsetCommit (c : commit) (version : Z).

Inductive output : Type :=
| OUT_fetch_start (t : toppar) (offset : Z)
| OUT_fetch_seek (t : toppar) (offset : Z)
| OUT_fetch_stop (t : toppar)
| OUT_rebalance (err : Z) (p : partitions)
| OUT_consumer_err (err : Z)
| OUT_op_reply (err : Z)
| OUT_commit_reply (err : Z)
| OUT_terminated.

(** A broker handle: who it is, its node id, whether it is the internal one. *)
Record broker : Type := mk_broker { rkb_ident : Z; rkb_nodeid : Z; rkb_internal : bool }.

#[export] Instance broker_eq_dec : EqDecision broker.
Proof. solve_decision. Defined.

(** ** The group *)

Record coord : Type := mk_coord {
  co_state : cgrp_state; co_id : Z; co_rkb : option broker; co_last_err : Z; co_query_intvl : rd_interval_t }.

Record member : Type := mk_member {
  mb_generation_id : Z; mb_member_id : list Z; mb_leader : option (list Z * Z);
  mb_subscription : option (list (list Z)); mb_subscribed_topics : list (list Z * Z) }.

Record parts : Type := mk_parts {
  pt_toppars : list toppar; pt_assigned : gset toppar; pt_assigned_cnt : Z; pt_stops : list toppar;
  pt_wait_unassign_cnt : Z; pt_info : gmap toppar offsets_t }.

Record queues : Type := mk_queues {
  qu_ops : list op; qu_ops_on : bool; qu_wait_coord : list commit; qu_wait_coord_on : bool;
  qu_requests : list request; qu_out : list output; qu_reply : bool }.

Record clocks : Type := mk_clocks {
  ck_now : Z; ck_terminate : Z; ck_heartbeat : rd_interval_t; ck_join : rd_interval_t; ck_scan : rd_interval_t }.

Record cgrp : Type := mk_cgrp {
  rkcg_join_state : join_state;
  rkcg_version : Z;
  rkcg_flags : Z;
  rkcg_assignment : option partitions;
  rkcg_wait_commit_cnt : Z;
  rkcg_coord : coord;
  rkcg_member : member;
  rkcg_parts : parts;
  rkcg_queues : queues;
  rkcg_clocks : clocks }.

Definition set_join_state (v : join_state) (g : cgrp) : cgrp :=
  mk_cgrp v (rkcg_version g) (rkcg_flags g) (rkcg_assignment g) (rkcg_wait_commit_cnt g) (rkcg_coord g) (rkcg_member g) (rkcg_parts g) (rkcg_queues g) (rkcg_clocks g).
Definition set_version (v : Z) (g : cgrp) : cgrp :=
  mk_cgrp (rkcg_join_state g) v (rkcg_flags g) (rkcg_assignment g) (rkcg_wait_commit_cnt g) (rkcg_coord g) (rkcg_member g) (rkcg_parts g) (rkcg_queues g) (rkcg_clocks g).
Definition set_flags (v : Z) (g : cgrp) : cgrp :=
  mk_cgrp (rkcg_join_state g) (rkcg_version g) v (rkcg_assignment g) (rkcg_wait_commit_cnt g) (rkcg_coord g) (rkcg_member g) (rkcg_parts g) (rkcg_queues g) (rkcg_clocks g).
Definition set_assignment (v : option partitions) (g : cgrp) : cgrp :=
  mk_cgrp (rkcg_join_state g) (rkcg_version g) (rkcg_flags g) v (rkcg_wait_commit_cnt g) (rkcg_coord g) (rkcg_member g) (rkcg_parts g) (rkcg_queues g) (rkcg_clocks g).
Definition set_wait_commit_cnt (v : Z) (g : cgrp) : cgrp :=
  mk_cgrp (rkcg_join_state g) (rkcg_version g) (rkcg_flags g) (rkcg_assignment g) v (rkcg_coord g) (rkcg_member g) (rkcg_parts g) (rkcg_queues g) (rkcg_clocks g).
Definition set_coord (v : coord) (g : cgrp) : cgrp :=
  mk_cgrp (rkcg_join_state g) (rkcg_version g) (rkcg_flags g) (rkcg_assignment g) (rkcg_wait_commit_cnt g) v (rkcg_member g) (rkcg_parts g) (rkcg_queues g) (rkcg_clocks g).
Definition set_member (v : member) (g : cgrp) : cgrp :=
  mk_cgrp (rkcg_join_state g) (rkcg_version g) (rkcg_flags g) (rkcg_assignment g) (rkcg_wait_commit_cnt g) (rkcg_coord g) v (rkcg_parts g) (rkcg_queues g) (rkcg_clocks g).
Definition set_parts (v : parts) (g : cgrp) : cgrp :=
  mk_cgrp (rkcg_join_state g) (rkcg_version g) (rkcg_flags g) (rkcg_assignment g) (rkcg_wait_commit_cnt g) (rkcg_coord g) (rkcg_member g) v (rkcg_queues g) (rkcg_clocks g).
Definition set_queues (v : queues) (g : cgrp) : cgrp :=
  mk_cgrp (rkcg_join_state g) (rkcg_version g) (rkcg_flags g) (rkcg_assignment g) (rkcg_wait_commit_cnt g) (rkcg_coord g) (rkcg_member g) (rkcg_parts g) v (rkcg_clocks g).
Definition set_clocks (v : clocks) (g : cgrp) : cgrp :=
  mk_cgrp (rkcg_join_state g) (rkcg_version g) (rkcg_flags g) (rkcg_assignment g) (rkcg_wait_commit_cnt g) (rkcg_coord g) (rkcg_member g) (rkcg_parts g) (rkcg_queues g) v.
Definition set_state (v : cgrp_state) (g : cgrp) : cgrp :=
  let x := rkcg_coord g in set_coord (mk_coord v (co_id x) (co_rkb x) (co_last_err x) (co_query_intvl x)) g.
Definition set_coord_id (v : Z) (g : cgrp) : cgrp :=
  let x := rkcg_coord g in set_coord (mk_coord (co_state x) v (co_rkb x) (co_last_err x) (co_query_intvl x)) g.
Definition set_rkb (v : option broker) (g : cgrp) : cgrp :=
  let x := rkcg_coord g in set_coord (mk_coord (co_state x) (co_id x) v (co_last_err x) (co_query_intvl x)) g.
Definition set_last_err (v : Z) (g : cgrp) : cgrp :=
  let x := rkcg_coord g in set_coord (mk_coord (co_state x) (co_id x) (co_rkb x) v (co_query_intvl x)) g.
Definition set_query_intvl (v : rd_interval_t) (g : cgrp) : cgrp :=
  let x := rkcg_coord g in set_coord (mk_coord (co_state x) (co_id x) (co_rkb x) (co_last_err x) v) g.
Definition set_generation_id (v : Z) (g : cgrp) : cgrp :=
  let x := rkcg_member g in set_member (mk_member v (mb_member_id x) (mb_leader x) (mb_subscription x) (mb_subscribed_topics x)) g.
Definition set_member_id (v : list Z) (g : cgrp) : cgrp :=
  let x := rkcg_member g in set_member (mk_member (mb_generation_id x) v (mb_leader x) (mb_subscription x) (mb_subscribed_topics x)) g.
Definition set_leader (v : option (list Z * Z)) (g : cgrp) : cgrp :=
  let x := rkcg_member g in set_member (mk_member (mb_generation_id x) (mb_member_id x) v (mb_subscription x) (mb_subscribed_topics x)) g.
Definition set_subscription (v : option (list (list Z))) (g : cgrp) : cgrp :=
  let x := rkcg_member g in set_member (mk_member (mb_generation_id x) (mb_member_id x) (mb_leader x) v (mb_subscribed_topics x)) g.
Definition set_subscribed_topics (v : list (list Z * Z)) (g : cgrp) : cgrp :=
  let x := rkcg_member g in set_member (mk_member (mb_generation_id x) (mb_member_id x) (mb_leader x) (mb_subscription x) v) g.
Definition set_toppars (v : list toppar) (g : cgrp) : cgrp :=
  let x := rkcg_parts g in set_parts (mk_parts v (pt_assigned x) (pt_assigned_cnt x) (pt_stops x) (pt_wait_unassign_cnt x) (pt_info x)) g.
Definition set_assigned (v : gset toppar) (g : cgrp) : cgrp :=
  let x := rkcg_parts g in set_parts (mk_parts (pt_toppars x) v (pt_assigned_cnt x) (pt_stops x) (pt_wait_unassign_cnt x) (pt_info x)) g.
Definition set_assigned_cnt (v : Z) (g : cgrp) : cgrp :=
  let x := rkcg_parts g in set_parts (mk_parts (pt_toppars x) (pt_assigned x) v (pt_stops x) (pt_wait_unassign_cnt x) (pt_info x)) g.
Definition set_stops (v : list toppar) (g : cgrp) : cgrp :=
  let x := rkcg_parts g in set_parts (mk_parts (pt_toppars x) (pt_assigned x) (pt_assigned_cnt x) v (pt_wait_unassign_cnt x) (pt_info x)) g.
Definition set_wait_unassign_cnt (v : Z) (g : cgrp) : cgrp :=
  let x := rkcg_parts g in set_parts (mk_parts (pt_toppars x) (pt_assigned x) (pt_assigned_cnt x) (pt_stops x) v (pt_info x)) g.
Definition set_info (v : gmap toppar offsets_t) (g : cgrp) : cgrp :=
  let x := rkcg_parts g in set_parts (mk_parts (pt_toppars x) (pt_assigned x) (pt_assigned_cnt x) (pt_stops x) (pt_wait_unassign_cnt x) v) g.
Definition set_ops (v : list op) (g : cgrp) : cgrp :=
  let x := rkcg_queues g in set_queues (mk_queues v (qu_ops_on x) (qu_wait_coord x) (qu_wait_coord_on x) (qu_requests x) (qu_out x) (qu_reply x)) g.
Definition set_ops_on (v : bool) (g : cgrp) : cgrp :=
  let x := rkcg_queues g in set_queues (mk_queues (qu_ops x) v (qu_wait_coord x) (qu_wait_coord_on x) (qu_requests x) (qu_out x) (qu_reply x)) g.
Definition set_wait_coord (v : list commit) (g : cgrp) : cgrp :=
  let x := rkcg_queues g in set_queues (mk_queues (qu_ops x) (qu_ops_on x) v (qu_wait_coord_on x) (qu_requests x) (qu_out x) (qu_reply x)) g.
Definition set_wait_coord_on (v : bool) (g : cgrp) : cgrp :=
  let x := rkcg_queues g in set_queues (mk_queues (qu_ops x) (qu_ops_on x) (qu_wait_coord x) v (qu_requests x) (qu_out x) (qu_reply x)) g.
Definition set_requests (v : list request) (g : cgrp) : cgrp :=
  let x := rkcg_queues g in set_queues (mk_queues (qu_ops x) (qu_ops_on x) (qu_wait_coord x) (qu_wait_coord_on x) v (qu_out x) (qu_reply x)) g.
Definition set_out (v : list output) (g : cgrp) : cgrp :=
  let x := rkcg_queues g in set_queues (mk_queues (qu_ops x) (qu_ops_on x) (qu_wait_coord x) (qu_wait_coord_on x) (qu_requests x) v (qu_reply x)) g.
Definition set_reply (v : bool) (g : cgrp) : cgrp :=
  let x := rkcg_queues g in set_queues (mk_queues (qu_ops x) (qu_ops_on x) (qu_wait_coord x) (qu_wait_coord_on x) (qu_requests x) (qu_out x) v) g.
Definition set_ck_now (v : Z) (g : cgrp) : cgrp :=
  let x := rkcg_clocks g in set_clocks (mk_clocks v (ck_terminate x) (ck_heartbeat x) (ck_join x) (ck_scan x)) g.
Definition set_ck_terminate (v : Z) (g : cgrp) : cgrp :=
  let x := rkcg_clocks g in set_clocks (mk_clocks (ck_now x) v (ck_heartbeat x) (ck_join x) (ck_scan x)) g.
Definition set_ck_heartbeat (v : rd_interval_t) (g : cgrp) : cgrp :=
  let x := rkcg_clocks g in set_clocks (mk_clocks (ck_now x) (ck_terminate x) v (ck_join x) (ck_scan x)) g.
Definition set_ck_join (v : rd_interval_t) (g : cgrp) : cgrp :=
  let x := rkcg_clocks g in set_clocks (mk_clocks (ck_now x) (ck_terminate x) (ck_heartbeat x) v (ck_scan x)) g.
Definition set_ck_scan (v : rd_interval_t) (g : cgrp) : cgrp :=
  let x := rkcg_clocks g in set_clocks (mk_clocks (ck_now x) (ck_terminate x) (ck_heartbeat x) (ck_join x) v) g.

Abbreviation g_state g := (co_state (rkcg_coord g)).
Abbreviation g_rkb g := (co_rkb (rkcg_coord g)).
Abbreviation g_assigned g := (pt_assigned (rkcg_parts g)).
Abbreviation g_assigned_cnt g := (pt_assigned_cnt (rkcg_parts g)).
Abbreviation g_stops g := (pt_stops (rkcg_parts g)).
Abbreviation g_wait_unassign_cnt g := (pt_wait_unassign_cnt (rkcg_parts g)).
Abbreviation g_info g := (pt_info (rkcg_parts g)).
Abbreviation g_ops g := (qu_ops (rkcg_queues g)).
Abbreviation g_requests g := (qu_requests (rkcg_queues g)).
Abbreviation g_wait_coord g := (qu_wait_coord (rkcg_queues g)).
Abbreviation g_now g := (ck_now (rkcg_clocks g)).

Definition flag_set (f flags : Z) : bool := negb (Z.land flags f =? 0).
Definition has_flag (f : Z) (g : cgrp) : bool := flag_set f (rkcg_flags g).
Definition add_flag (f : Z) (g : cgrp) : cgrp := set_flags (Z.lor (rkcg_flags g) f) g.
Definition clear_flag (f : Z) (g : cgrp) : cgrp := set_flags (Z.ldiff (rkcg_flags g) f) g.

Definition emit (o : output) (g : cgrp) : cgrp := set_out (qu_out (rkcg_queues g) ++ [o]) g.
Definition send (r : request) (g : cgrp) : cgrp := set_requests (g_requests g ++ [r]) g.

(** An operation for a disabled queue is failed and destroyed. *)
Definition enq_op (o : op) (g : cgrp) : cgrp := if qu_ops_on (rkcg_queues g) then set_ops (g_ops g ++ [o]) g else g.

Definition offsets_of (g : cgrp) (t : toppar) : offsets_t :=
  default (mk_offsets OFFSET_INVALID OFFSET_INVALID OFFSET_INVALID) (g_info g !! t).
