(* ===== verification/Cgrp.v ===== *)
(** * The consumer group (rdkafka_cgrp.c)

    One definition per function, in an order in which each comes after the ones
    it calls.  Debug output, reference counts, statistics counters and the
    pause flags of partitions are left out.  The contents of responses are
    arguments of the handlers; what other parts of the client decide (which
    broker is up, whether metadata must be refreshed, whether a request can be
    retried, what the assignor says) is the argument [env]. *)
From Stdlib Require Import ZArith Lia.
From stdpp Require Import base numbers list gmap.
From S2P Require Import Prelude.
From S2P Require Import CgrpState.

(** ** Configuration and surroundings *)

Record conf : Type := mk_conf {
  cf_event_rebalance : bool;      (* RD_KAFKA_EVENT_REBALANCE is enabled *)
  cf_app_queue : bool;            (* the queue of the application is enabled *)
  cf_offset_broker : bool;        (* offsets are stored by the broker *)
  cf_auto_commit : bool;
  cf_offset_commit_cb : bool;
  cf_event_offset_commit : bool;
  cf_session_timeout_ms : Z;
  cf_heartbeat_intvl_ms : Z;
  cf_coord_query_intvl_ms : Z;
  cf_assignor_cnt : Z;
  cf_sort : list (list Z * Z) -> list (list Z * Z) }.

Record env : Type := mk_env {
  en_rkb_up : bool;               (* the handling broker is up *)
  en_supports : bool;             (* and supports group coordination *)
  en_find : option broker;        (* rd_kafka_broker_find_by_nodeid(coord_id) *)
  en_prefer : option broker;      (* rd_kafka_broker_prefer *)
  en_internal : broker;           (* rd_kafka_broker_internal *)
  en_any : bool;                  (* rd_kafka_broker_any finds a broker *)
  en_terminating : bool;          (* rd_kafka_terminating *)
  en_no_consumer_close : bool;    (* rd_kafka_destroy_flags_no_consumer_close *)
  en_refresh : Z;                 (* rd_kafka_cgrp_metadata_refresh *)
  en_tinfos : list (list Z * Z);  (* topics of the subscription in the metadata *)
  en_retry : bool;                (* rd_kafka_buf_retry *)
  en_assignor_err : Z }.          (* rd_kafka_assignor_run *)

Implicit Types (cf : conf) (en : env) (g : cgrp).

(** ** Error actions (rdkafka_request.c) *)

Definition ACTION_PERMANENT : Z := 0x1.
Definition ACTION_IGNORE : Z := 0x2.
Definition ACTION_REFRESH : Z := 0x4.
Definition ACTION_RETRY : Z := 0x8.
Definition ACTION_SPECIAL : Z := 0x20.

Definition rd_kafka_err_action (err : Z) (request : bool) (explicit : list (Z * Z)) : Z :=
  if err =? 0 then 0
  else
    let actions := foldl (fun a x => if err =? x.2 then Z.lor a x.1 else a) 0 explicit in
    if negb (actions =? 0) then actions
    else
      let actions :=
        if bool_decide (err ∈ [ERR_LEADER_NOT_AVAILABLE; ERR_NOT_LEADER_FOR_PARTITION; ERR_BROKER_NOT_AVAILABLE;
            ERR_REPLICA_NOT_AVAILABLE; ERR_GROUP_COORDINATOR_NOT_AVAILABLE; ERR_NOT_COORDINATOR_FOR_GROUP; ERR__WAIT_COORD])
        then ACTION_REFRESH
        else if bool_decide (err ∈ [ERR__TIMED_OUT; ERR__TIMED_OUT_QUEUE; ERR_REQUEST_TIMED_OUT; ERR_NOT_ENOUGH_REPLICAS;
            ERR_NOT_ENOUGH_REPLICAS_AFTER_APPEND; ERR__TRANSPORT])
        then ACTION_RETRY
        else ACTION_PERMANENT in
      if request then actions else Z.ldiff actions ACTION_RETRY.

Definition has_action (a actions : Z) : bool := negb (Z.land actions a =? 0).

(** ** The coordinator *)

Definition BROKER_IS_COORD g (b : broker) : bool :=
  negb (co_id (rkcg_coord g) =? -1) && (co_id (rkcg_coord g) =? rkb_nodeid b).

Definition rd_kafka_cgrp_select_broker en g : option broker :=
  if is_state (g_state g) STATE_TERM then None
  else
    let rkb := if negb (co_id (rkcg_coord g) =? -1) then en_find en else None in
    let rkb := match rkb with Some b => b | None => match en_prefer en with Some b => b | None => en_internal en end end in
    match g_rkb g with
    | Some old =>
        if negb (bool_decide (rkb = old)) && negb (BROKER_IS_COORD g old) && negb (BROKER_IS_COORD g rkb) && negb (rkb_internal old)
        then Some old else Some rkb
    | None => Some rkb
    end.

Definition rd_kafka_cgrp_assign_broker g (b : broker) : outcome cgrp :=
  assert! bool_decide (g_rkb g = None) in
  let g := set_rkb (Some b) g in
  let q := co_query_intvl (rkcg_coord g) in
  let g := if negb (rd_interval_disabled q) then set_query_intvl (rd_interval_reset q) g else g in
  Ret (if BROKER_IS_COORD g b then set_state STATE_WAIT_BROKER_TRANSPORT g else g).

Definition rd_kafka_cgrp_unassign_broker g : outcome cgrp :=
  match g_rkb g with None => Crash | Some _ => Ret (set_rkb None g) end.

(** Whether the broker changed. *)
Definition rd_kafka_cgrp_reassign_broker en g : outcome (bool * cgrp) :=
  let rkb := rd_kafka_cgrp_select_broker en g in
  if bool_decide (rkb = g_rkb g) then
    let is_coord := match rkb with Some b => BROKER_IS_COORD g b | None => false end in
    Ret (false, set_state (if is_coord then STATE_WAIT_BROKER_TRANSPORT else STATE_WAIT_BROKER) g)
  else
    let! g := match g_rkb g with Some _ => rd_kafka_cgrp_unassign_broker g | None => Ret g end in
    let g := set_state STATE_WAIT_BROKER g in
    let! g := match rkb with Some b => rd_kafka_cgrp_assign_broker g b | None => Ret g end in
    Ret (true, g).

Definition rd_kafka_cgrp_coord_update en g (coord_id : Z) : outcome cgrp :=
  if co_id (rkcg_coord g) =? coord_id then
    Ret (if is_state (g_state g) STATE_WAIT_COORD then set_state STATE_WAIT_BROKER g else g)
  else
    let g := set_coord_id coord_id g in
    let g := set_state STATE_WAIT_BROKER g in
    let! (_, g) := rd_kafka_cgrp_reassign_broker en g in
    Ret g.

Definition rd_kafka_cgrp_coord_query en g : cgrp :=
  if en_any en then
    let g := send RQ_GroupCoordinator g in
    if is_state (g_state g) STATE_QUERY_COORD then set_state STATE_WAIT_COORD g else g
  else g.

Definition rd_kafka_cgrp_coord_dead en g : outcome cgrp :=
  let! g := rd_kafka_cgrp_coord_update en g (-1) in
  let g := set_state STATE_QUERY_COORD g in
  Ret (rd_kafka_cgrp_coord_query en g).

(** The response is ignored. *)
Definition rd_kafka_cgrp_leave g : cgrp := if is_state (g_state g) STATE_UP then send RQ_LeaveGroup g else g.

(** ** Termination *)

Definition WAIT_REBALANCE_CB g : bool :=
  is_state (rkcg_join_state g) JOIN_WAIT_ASSIGN_REBALANCE_CB || is_state (rkcg_join_state g) JOIN_WAIT_REVOKE_REBALANCE_CB.

Definition CAN_FETCH_START g : bool := is_state (rkcg_join_state g) JOIN_ASSIGNED.

(** Appends the waiting commits to the operations; fails if they are shut down. *)
Definition concat_wait_coord g : bool * cgrp :=
  if bool_decide (g_wait_coord g = []) then (true, g)
  else if qu_ops_on (rkcg_queues g) then (true, set_wait_coord [] (set_ops (g_ops g ++ (OP_OFFSET_COMMIT <$> g_wait_coord g)) g))
  else (false, g).

Definition rd_kafka_cgrp_try_terminate cf g : bool * cgrp :=
  if is_state (g_state g) STATE_TERM then (true, g)
  else if negb (has_flag F_TERMINATE g) then (false, g)
  else
    let g := if negb (bool_decide (g_wait_coord g = [])) &&
                (ck_terminate (rkcg_clocks g) + cf_session_timeout_ms cf * 1000 <? g_now g)
             then let g := set_wait_coord_on false g in
                  let '(ok, g) := concat_wait_coord g in if ok then g else set_wait_coord [] g
             else g in
    if negb (WAIT_REBALANCE_CB g) && bool_decide (pt_toppars (rkcg_parts g) = []) && (g_wait_unassign_cnt g =? 0) &&
       (rkcg_wait_commit_cnt g =? 0) && negb (has_flag F_WAIT_UNASSIGN g)
    then (true, set_state STATE_TERM g)
    else (false, g).

Definition try_terminate cf g : cgrp := snd (rd_kafka_cgrp_try_terminate cf g).

Definition rd_kafka_cgrp_terminated g : outcome cgrp :=
  assert! g_wait_unassign_cnt g =? 0 in
  assert! rkcg_wait_commit_cnt g =? 0 in
  assert! negb (has_flag F_WAIT_UNASSIGN g) in
  assert! is_state (g_state g) STATE_TERM in
  let g := set_wait_coord [] g in
  let g := set_ops [] (set_ops_on false g) in
  let! g := match g_rkb g with Some _ => rd_kafka_cgrp_unassign_broker g | None => Ret g end in
  Ret (if qu_reply (rkcg_queues g) then set_reply false (emit OUT_terminated g) else g).

(** ** Fetching *)

Definition version_new_barrier g : cgrp := set_version (rkcg_version g + 1) g.

(** The partitions of the assignment, and the offsets to start from. *)
Definition start_partition g (x : toppar * Z) : cgrp :=
  let '(t, offset) := x in
  if negb (bool_decide (t ∈ g_assigned g)) then
    emit (OUT_fetch_start t offset) (set_assigned_cnt (g_assigned_cnt g + 1) (set_assigned ({[t]} ∪ g_assigned g) g))
  else
    let app := rktp_app_offset (offsets_of g t) in
    emit (OUT_fetch_seek t (if offset <? app then app else offset)) g.

Definition count_abs_offsets (l : partitions) : Z := zlen (filter (fun x => 0 <= x.2) l).

(** Without a coordinator the request fails at once, which only logs. *)
Definition rd_kafka_cgrp_offsets_fetch g (l : partitions) : cgrp :=
  if negb (is_state (g_state g) STATE_UP) || bool_decide (g_rkb g = None) then g
  else send (RQ_OffsetFetch l (rkcg_version g)) g.

Definition rd_kafka_cgrp_partitions_fetch_start cf g (l : partitions) (usable_offsets : bool) : outcome cgrp :=
  if rkcg_wait_commit_cnt g >? 0 then Ret g
  else
    let g := version_new_barrier g in
    if zlen l =? 0 then Ret g
    else
      let usable_offsets := usable_offsets || (count_abs_offsets l =? zlen l) in
      let g := if negb usable_offsets && cf_offset_broker cf
               then rd_kafka_cgrp_offsets_fetch g l
               else foldl start_partition (set_join_state JOIN_STARTED g) l in
      assert! g_assigned_cnt g <=? match rkcg_assignment g with Some a => zlen a | None => 0 end in
      Ret g.

(** The offset of the first entry of a partition is replaced. *)
Fixpoint set_first (t : toppar) (offset : Z) (l : partitions) : partitions :=
  match l with
  | [] => []
  | x :: l => if bool_decide (x.1 = t) then (t, offset) :: l else x :: set_first t offset l
  end.

Definition set_committed (t : toppar) (offset : Z) g : cgrp :=
  let o := offsets_of g t in
  set_info (<[t := mk_offsets (rktp_stored_offset o) offset (rktp_app_offset o)]> (g_info g)) g.

(** One partition of an OffsetFetch response: partition, offset, error. *)
Definition offset_fetched (update_toppar : bool) (a : partitions * cgrp) (x : toppar * Z * Z) : partitions * cgrp :=
  let '(offsets, g) := a in
  let '(t, offset, err2) := x in
  if negb (bool_decide (t ∈ offsets.*1)) then (offsets, g)
  else
    let offset := if offset =? -1 then OFFSET_INVALID else offset in
    (set_first t offset offsets, if update_toppar && (err2 =? 0) then set_committed t offset g else g).

(** A request is sent again, when it can be. *)
Definition rd_kafka_buf_retry en g (rq : request) : bool * cgrp := if en_retry en then (true, send rq g) else (false, g).

(** [resp] is the body of the response, as far as it was parsed when [err] is
    a parse error; [parsed] tells whether it was looked at. *)
Definition rd_kafka_handle_OffsetFetch en g (err : Z) (rq : request) (parsed : bool) (resp : list (toppar * Z * Z)) (offsets : partitions) (update_toppar : bool)
  : Z * partitions * cgrp :=
  let '(offsets, g) :=
    if parsed then
      let offsets := map (fun x => (x.1, if x.2 <? 0 then OFFSET_INVALID else x.2)) offsets in
      foldl (offset_fetched update_toppar) (offsets, g) resp
    else (offsets, g) in
  let actions := rd_kafka_err_action err true [] in
  let g := if has_action ACTION_REFRESH actions then enq_op OP_COORD_QUERY g else g in
  let '(retried, g) := if has_action ACTION_RETRY actions then rd_kafka_buf_retry en g rq else (false, g) in
  (if retried then ERR__IN_PROGRESS else err, offsets, g).

(** The response to the request of [rd_kafka_cgrp_offsets_fetch]; [reply] when
    there is a response buffer, [version] that of the request. *)
Definition rd_kafka_cgrp_offsets_fetch_response cf en g (err : Z) (reply parsed : bool) (resp : list (toppar * Z * Z)) (offsets : partitions) (version : Z)
  : outcome cgrp :=
  if err =? ERR__DESTROY then Ret g
  else if negb (version =? 0) && (version <? rkcg_version g) then Ret g
  else
    let '(err, offsets, g) := if reply then rd_kafka_handle_OffsetFetch en g err (RQ_OffsetFetch offsets version) parsed resp offsets true else (err, offsets, g) in
    if reply && (err =? ERR__IN_PROGRESS) then Ret g
    else if negb (err =? 0) then Ret (if negb (err =? ERR__WAIT_COORD) then emit (OUT_consumer_err err) g else g)
    else if CAN_FETCH_START g then rd_kafka_cgrp_partitions_fetch_start cf g offsets true
    else Ret g.

(** The same for the request of an application. *)
Definition rd_kafka_op_handle_OffsetFetch en g (err : Z) (reply parsed : bool) (resp : list (toppar * Z * Z)) (p : partitions) : cgrp :=
  if err =? ERR__DESTROY then g
  else
    let '(err, offsets, g) := if reply then rd_kafka_handle_OffsetFetch en g err (RQ_op_OffsetFetch p) parsed resp p false else (err, p, g) in
    if reply && (err =? ERR__IN_PROGRESS) then g
    else emit (OUT_op_reply err) g.

(** ** Unassignment *)

Definition rd_kafka_cgrp_unassign_done cf g : outcome cgrp :=
  let g := if has_flag F_LEAVE_ON_UNASSIGN g then clear_flag F_LEAVE_ON_UNASSIGN (rd_kafka_cgrp_leave g) else g in
  if negb (is_state (rkcg_join_state g) JOIN_WAIT_UNASSIGN) then Ret (try_terminate cf g)
  else
    let! g := match rkcg_assignment g with
              | Some a => rd_kafka_cgrp_partitions_fetch_start cf (set_join_state JOIN_ASSIGNED g) a false
              | None => Ret (set_join_state JOIN_INIT g)
              end in
    Ret (try_terminate cf g).

Definition rd_kafka_cgrp_check_unassign_done cf g : outcome cgrp :=
  if (g_wait_unassign_cnt g >? 0) || (g_assigned_cnt g >? 0) || (rkcg_wait_commit_cnt g >? 0) || has_flag F_WAIT_UNASSIGN g
  then Ret g
  else rd_kafka_cgrp_unassign_done cf g.

(** ** Commits *)

(** Whether the commit was put aside until there is a coordinator. *)
Definition rd_kafka_cgrp_defer_offset_commit cf g (c : commit) : bool * cgrp :=
  if negb (oc_ts_timeout c =? 0) || negb (qu_wait_coord_on (rkcg_queues g)) then (false, g)
  else
    let c := mk_commit (oc_partitions c) (oc_silent_empty c) (g_now g + cf_session_timeout_ms cf * 1000) true (oc_reply c) (oc_cb c) in
    (true, set_wait_coord (g_wait_coord g ++ [c]) g).

Definition commit_offset (failed : list toppar) g (x : toppar * Z) : cgrp :=
  if bool_decide (x.1 ∈ failed) || (x.2 <? 0) then g else set_committed x.1 x.2 g.

Definition rd_kafka_cgrp_handle_OffsetCommit cf g (err : Z) (offsets : option partitions) (failed : list toppar) : outcome cgrp :=
  let g := if err =? 0 then foldl (commit_offset failed) g (default [] offsets) else g in
  let! g := if is_state (rkcg_join_state g) JOIN_WAIT_UNASSIGN then rd_kafka_cgrp_check_unassign_done cf g else Ret g in
  Ret (try_terminate cf g).

(** The partitions of [offsets] in error after the response, how many errors
    there were and the last one. *)
Definition partition_committed (offsets : list toppar) (a : list toppar * Z * Z) (x : toppar * Z) : list toppar * Z * Z :=
  let '(failed, errcnt, last_err) := a in
  let '(t, ErrorCode) := x in
  if negb (bool_decide (t ∈ offsets)) then a
  else if ErrorCode =? 0 then (filter (fun u => u <> t) failed, errcnt, last_err)
  else (t :: filter (fun u => u <> t) failed, errcnt + 1, ErrorCode).

(** [resp] is the body of the response: its partitions and their errors. *)
Definition rd_kafka_handle_OffsetCommit en g (err : Z) (rq : option request) (resp : list (toppar * Z)) (offsets : option partitions)
  : outcome (Z * list toppar * cgrp) :=
  let '(failed, errcnt, last_err) := foldl (partition_committed (default [] offsets).*1) ([], 0, 0) resp in
  if err =? 0 then
    Ret (match offsets with Some p => if errcnt =? zlen p then last_err else 0 | None => 0 end, failed, g)
  else
    let actions := rd_kafka_err_action err (match rq with Some _ => true | None => false end)
      [(ACTION_PERMANENT, ERR_OFFSET_METADATA_TOO_LARGE); (ACTION_RETRY, ERR_GROUP_LOAD_IN_PROGRESS);
       (Z.lor ACTION_REFRESH ACTION_SPECIAL, ERR_GROUP_COORDINATOR_NOT_AVAILABLE);
       (Z.lor ACTION_REFRESH ACTION_SPECIAL, ERR_NOT_COORDINATOR_FOR_GROUP);
       (Z.lor ACTION_REFRESH ACTION_RETRY, ERR_ILLEGAL_GENERATION); (Z.lor ACTION_REFRESH ACTION_RETRY, ERR_UNKNOWN_MEMBER_ID);
       (ACTION_RETRY, ERR_REBALANCE_IN_PROGRESS); (ACTION_PERMANENT, ERR_INVALID_COMMIT_OFFSET_SIZE);
       (ACTION_PERMANENT, ERR_TOPIC_AUTHORIZATION_FAILED); (ACTION_PERMANENT, ERR_GROUP_AUTHORIZATION_FAILED)] in
    let! g := if has_action ACTION_REFRESH actions then
                if has_action ACTION_SPECIAL actions then rd_kafka_cgrp_coord_dead en g else Ret (rd_kafka_cgrp_coord_query en g)
              else Ret g in
    let '(retried, g) := match rq with Some rq => if has_action ACTION_RETRY actions then rd_kafka_buf_retry en g rq else (false, g) | None => (false, g) end in
    Ret (if retried : bool then ERR__IN_PROGRESS else err, failed, g).

(** [version] is that of the request, if there is one. *)
Definition rd_kafka_cgrp_op_handle_OffsetCommit cf en g (err : Z) (version : option Z) (c : commit) (resp : list (toppar * Z)) : outcome cgrp :=
  let outdated := match version with Some v => negb (v =? 0) && (v <? rkcg_version g) | None => false end in
  let err := if outdated then ERR__DESTROY else err in
  let! (err, failed, g) := rd_kafka_handle_OffsetCommit en g err (RQ_OffsetCommit c <$> version) resp (oc_partitions c) in
  if err =? ERR__IN_PROGRESS then Ret g
  else
    let '(deferred, g) := if (err =? ERR_NOT_COORDINATOR_FOR_GROUP) || (err =? ERR_GROUP_COORDINATOR_NOT_AVAILABLE)
                          then rd_kafka_cgrp_defer_offset_commit cf g c else (false, g) in
    if deferred : bool then Ret g
    else
      assert! rkcg_wait_commit_cnt g >? 0 in
      let g := set_wait_commit_cnt (rkcg_wait_commit_cnt g - 1) g in
      let! g := match rkcg_assignment g with
                | Some a => if (err =? 0) && (rkcg_wait_commit_cnt g =? 0) && CAN_FETCH_START g
                            then rd_kafka_cgrp_partitions_fetch_start cf g a false else Ret g
                | None => Ret g
                end in
      if (err =? ERR__DESTROY) || ((err =? ERR__NO_OFFSET) && oc_silent_empty c) then rd_kafka_cgrp_check_unassign_done cf g
      else
        let g := if negb (oc_cb c) && cf_offset_commit_cb cf then emit (OUT_commit_reply err) g else g in
        let g := if oc_reply c then emit (OUT_op_reply err) g else g in
        rd_kafka_cgrp_handle_OffsetCommit cf g err (oc_partitions c) failed.

(** The stored offset of a partition if it is not yet committed. *)
Definition set_offset g (x : toppar * Z) : toppar * Z :=
  let o := offsets_of g x.1 in
  (x.1, if rktp_stored_offset o >? rktp_committed_offset o then rktp_stored_offset o else OFFSET_INVALID).

Definition rd_kafka_cgrp_offsets_commit cf en g (c : commit) (set_offsets : bool) (op_version : Z) : outcome cgrp :=
  let offsets := match oc_partitions c with Some p => Some p | None => rkcg_assignment g end in
  let offsets := if set_offsets then option_map (map (set_offset g)) offsets else offsets in
  let c := mk_commit offsets (oc_silent_empty c) (oc_ts_timeout c) (oc_reprocess c) (oc_reply c) (oc_cb c) in
  let valid_offsets := match offsets with Some p => count_abs_offsets p | None => 0 end in
  let g := if oc_reprocess c then g else set_wait_commit_cnt (rkcg_wait_commit_cnt g + 1) g in
  if valid_offsets =? 0 then rd_kafka_cgrp_op_handle_OffsetCommit cf en g ERR__NO_OFFSET None c []
  else if negb (is_state (g_state g) STATE_UP) || match g_rkb g with Some b => rkb_internal b | None => true end then
    let '(deferred, g) := rd_kafka_cgrp_defer_offset_commit cf g c in
    if deferred : bool then Ret g
    else rd_kafka_cgrp_op_handle_OffsetCommit cf en g ERR__WAIT_COORD None c []
  else Ret (send (RQ_OffsetCommit c op_version) g).

Definition rd_kafka_cgrp_assigned_offsets_commit cf en g (offsets : option partitions) : outcome cgrp :=
  let c := mk_commit offsets true 0 false (cf_event_offset_commit cf) (cf_event_offset_commit cf && cf_offset_commit_cb cf) in
  rd_kafka_cgrp_offsets_commit cf en g c true (rkcg_version g).

(** ** Assignment *)

Definition stop_partition g (x : toppar * Z) : cgrp :=
  if bool_decide (x.1 ∈ g_assigned g) then
    set_wait_unassign_cnt (g_wait_unassign_cnt g + 1) (set_stops (g_stops g ++ [x.1]) (emit (OUT_fetch_stop x.1) g))
  else g.

Definition rd_kafka_cgrp_unassign cf en g : outcome cgrp :=
  let g := set_join_state JOIN_WAIT_UNASSIGN g in
  let g := clear_flag F_WAIT_UNASSIGN g in
  match rkcg_assignment g with
  | None => rd_kafka_cgrp_check_unassign_done cf g
  | Some old_assignment =>
      let g := set_assignment None g in
      let g := version_new_barrier g in
      let! g := if cf_offset_broker cf && cf_auto_commit cf && negb (en_no_consumer_close en)
                then rd_kafka_cgrp_assigned_offsets_commit cf en g (Some old_assignment) else Ret g in
      let g := foldl stop_partition g old_assignment in
      rd_kafka_cgrp_check_unassign_done cf g
  end.

Definition rd_kafka_cgrp_assign cf en g (assignment : option partitions) : outcome cgrp :=
  let g := version_new_barrier g in
  let! g := match rkcg_assignment g with Some _ => rd_kafka_cgrp_unassign cf en g | None => Ret g end in
  let g := match assignment with Some a => set_assignment (Some a) g | None => g end in
  if is_state (rkcg_join_state g) JOIN_WAIT_UNASSIGN then Ret g
  else
    let g := set_join_state JOIN_ASSIGNED g in
    match rkcg_assignment g with
    | Some a => rd_kafka_cgrp_partitions_fetch_start cf g a false
    | None => Ret g
    end.

(** The application is asked to assign or to revoke, or it is done at once. *)
Definition rd_kafka_rebalance_op cf en g (err : Z) (assignment : option partitions) : outcome cgrp :=
  let no_delegation g := if err =? ERR__ASSIGN_PARTITIONS then rd_kafka_cgrp_assign cf en g assignment else rd_kafka_cgrp_unassign cf en g in
  match assignment with
  | Some a =>
      if negb (cf_event_rebalance cf) || en_no_consumer_close en then no_delegation g
      else
        let g := set_join_state (if err =? ERR__ASSIGN_PARTITIONS then JOIN_WAIT_ASSIGN_REBALANCE_CB else JOIN_WAIT_REVOKE_REBALANCE_CB) g in
        if cf_app_queue cf then Ret (emit (OUT_rebalance err a) g) else no_delegation g
  | None => no_delegation g
  end.

Definition rd_kafka_cgrp_handle_assignment cf en g (assignment : partitions) : outcome cgrp :=
  rd_kafka_rebalance_op cf en g ERR__ASSIGN_PARTITIONS (Some assignment).

(** [F_WAIT_UNASSIGN] is set and the application asked to revoke. *)
Definition revoke cf en g : outcome cgrp :=
  let g := add_flag F_WAIT_UNASSIGN g in
  rd_kafka_rebalance_op cf en g ERR__REVOKE_PARTITIONS (rkcg_assignment g).

Definition rd_kafka_cgrp_handle_heartbeat_error cf en g (err : Z) : outcome cgrp :=
  if join_num (rkcg_join_state g) <=? join_num JOIN_WAIT_SYNC then Ret g
  else if err =? ERR__DESTROY then Ret g
  else if bool_decide (err ∈ [ERR_NOT_COORDINATOR_FOR_GROUP; ERR_GROUP_COORDINATOR_NOT_AVAILABLE; ERR__TRANSPORT]) then
    Ret (set_query_intvl (rd_interval_expedite (co_query_intvl (rkcg_coord g)) 0) g)
  else
    let g := if err =? ERR_UNKNOWN_MEMBER_ID then set_member_id [] g else g in
    if (join_num (rkcg_join_state g) <? join_num JOIN_WAIT_ASSIGN_REBALANCE_CB) || is_state (rkcg_join_state g) JOIN_WAIT_REVOKE_REBALANCE_CB
    then Ret g
    else
      let g := set_join_state JOIN_INIT g in
      if negb (has_flag F_WAIT_UNASSIGN g) then revoke cf en g else Ret g.

(** ** Joining *)

Definition rd_kafka_cgrp_group_leader_reset g : cgrp := set_leader None g.

(** The new list of topics, or [None] to clear it; whether it changed. *)
Definition rd_kafka_cgrp_update_subscribed_topics cf g (tinfos : option (list (list Z * Z))) : bool * cgrp :=
  let tinfos := cf_sort cf (default [] tinfos) in
  if bool_decide (mb_subscribed_topics (rkcg_member g) = tinfos) then (false, g) else (true, set_subscribed_topics tinfos g).

Definition subscription_empty g : bool := match mb_subscription (rkcg_member g) with Some (_ :: _) => false | _ => true end.

(** [rd_kafka_cgrp_metadata_update_check] without a rejoin. *)
Definition update_check cf en g : bool * cgrp :=
  if subscription_empty g then (false, g) else rd_kafka_cgrp_update_subscribed_topics cf g (Some (en_tinfos en)).

Definition rd_kafka_cgrp_join cf en g : cgrp :=
  if negb (is_state (g_state g) STATE_UP) || negb (is_state (rkcg_join_state g) JOIN_INIT) then g
  else if en_refresh en =? 1 then send RQ_Metadata g
  else
    let g := if bool_decide (mb_subscribed_topics (rkcg_member g) = []) then snd (update_check cf en g) else g in
    if bool_decide (mb_subscribed_topics (rkcg_member g) = []) then g
    else send RQ_JoinGroup (set_join_state JOIN_WAIT_JOIN g).

Definition rd_kafka_cgrp_rejoin cf en g : outcome cgrp :=
  let g := rd_kafka_cgrp_group_leader_reset g in
  match rkcg_assignment g with
  | Some _ => if negb (has_flag F_WAIT_UNASSIGN g) then revoke cf en g else Ret g
  | None => Ret (rd_kafka_cgrp_join cf en (set_join_state JOIN_INIT g))
  end.

Definition rd_kafka_cgrp_metadata_update_check cf en g (do_join : bool) : outcome cgrp :=
  let '(changed, g) := update_check cf en g in
  if changed && do_join then rd_kafka_cgrp_rejoin cf en g else Ret g.

Definition rd_kafka_cgrp_unsubscribe cf en g (leave_group : bool) : outcome cgrp :=
  let g := set_subscription None g in
  let g := snd (rd_kafka_cgrp_update_subscribed_topics cf g None) in
  let g := rd_kafka_cgrp_group_leader_reset g in
  let g := if leave_group then add_flag F_LEAVE_ON_UNASSIGN g else g in
  let! g := if negb (WAIT_REBALANCE_CB g) && negb (has_flag F_WAIT_UNASSIGN g) then revoke cf en g else Ret g in
  Ret (clear_flag (Z.lor F_SUBSCRIPTION F_WILDCARD_SUBSCRIPTION) g).

(** A topic that starts with a caret is a regular expression. *)
Definition is_regex (topic : list Z) : bool := match topic with 94 :: _ => true | _ => false end.

Definition rd_kafka_cgrp_subscribe cf en g (topics : option (list (list Z))) : outcome (Z * cgrp) :=
  if cf_assignor_cnt cf =? 0 then Ret (ERR__INVALID_ARG, g)
  else
    let! g := rd_kafka_cgrp_unsubscribe cf en g false in
    match topics with
    | None => Ret (0, g)
    | Some topics =>
        let g := add_flag F_SUBSCRIPTION g in
        let g := if existsb is_regex topics then add_flag F_WILDCARD_SUBSCRIPTION g else g in
        let g := set_subscription (Some topics) g in
        Ret (0, rd_kafka_cgrp_join cf en g)
    end.

Definition rd_kafka_cgrp_terminate0 cf en g : outcome cgrp :=
  if is_state (g_state g) STATE_TERM || has_flag F_TERMINATE g || qu_reply (rkcg_queues g) then Ret (emit (OUT_op_reply ERR__IN_PROGRESS) g)
  else
    let g := add_flag F_TERMINATE g in
    let g := set_reply true (set_ck_terminate (g_now g) g) in
    let! g := if has_flag F_SUBSCRIPTION g then rd_kafka_cgrp_unsubscribe cf en g (negb (en_no_consumer_close en)) else Ret g in
    let! g := if (negb (WAIT_REBALANCE_CB g) && negb (has_flag F_WAIT_UNASSIGN g)) || en_no_consumer_close en
              then rd_kafka_cgrp_unassign cf en g else Ret g in
    Ret (try_terminate cf g).

Definition timeout_check (now : Z) (c : commit) : bool := negb (oc_ts_timeout c =? 0) && (oc_ts_timeout c <=? now).

Definition rd_kafka_cgrp_timeout_scan cf en g (now : Z) : outcome cgrp :=
  let expired := filter (fun c => timeout_check now c = true) (g_wait_coord g) in
  let g := set_wait_coord (filter (fun c => timeout_check now c = false) (g_wait_coord g)) g in
  foldl (fun m c => let! g := m in rd_kafka_cgrp_op_handle_OffsetCommit cf en g ERR__WAIT_COORD None c []) (Ret g) expired.

(** ** Operations *)

Definition rd_kafka_cgrp_partition_add g (t : toppar) : outcome cgrp :=
  assert! negb (bool_decide (t ∈ pt_toppars (rkcg_parts g))) in
  Ret (set_toppars (pt_toppars (rkcg_parts g) ++ [t]) g).

Definition rd_kafka_cgrp_partition_del cf g (t : toppar) : outcome cgrp :=
  assert! bool_decide (t ∈ pt_toppars (rkcg_parts g)) in
  Ret (try_terminate cf (set_toppars (filter (fun u => u <> t) (pt_toppars (rkcg_parts g))) g)).

Definition fetch_stop_reply cf g (t : toppar) : outcome cgrp :=
  assert! g_wait_unassign_cnt g >? 0 in
  let g := set_wait_unassign_cnt (g_wait_unassign_cnt g - 1) g in
  assert! bool_decide (t ∈ g_assigned g) in
  assert! g_assigned_cnt g >? 0 in
  let g := set_assigned_cnt (g_assigned_cnt g - 1) (set_assigned (g_assigned g ∖ {[t]}) g) in
  if is_state (rkcg_join_state g) JOIN_WAIT_UNASSIGN then rd_kafka_cgrp_check_unassign_done cf g else Ret g.

Definition rd_kafka_cgrp_op_serve cf en g (o : op) : outcome cgrp :=
  match o with
  | OP_NAME | OP_GET_SUBSCRIPTION | OP_GET_ASSIGNMENT => Ret (emit (OUT_op_reply 0) g)
  | OP_OFFSET_FETCH p =>
      if negb (is_state (g_state g) STATE_UP) || has_flag F_TERMINATE g
      then Ret (rd_kafka_op_handle_OffsetFetch en g ERR__WAIT_COORD false false [] p)
      else Ret (send (RQ_op_OffsetFetch p) g)
  | OP_PARTITION_JOIN t =>
      let! g := rd_kafka_cgrp_partition_add g t in
      Ret (if has_flag F_TERMINATE g then emit (OUT_fetch_stop t) g else g)
  | OP_PARTITION_LEAVE t => rd_kafka_cgrp_partition_del cf g t
  | OP_FETCH_STOP_REPLY t => fetch_stop_reply cf g t
  | OP_OFFSET_COMMIT c => rd_kafka_cgrp_offsets_commit cf en g c (match oc_partitions c with Some _ => false | None => true end) 0
  | OP_COORD_QUERY => Ret (rd_kafka_cgrp_coord_query en g)
  | OP_SUBSCRIBE topics =>
      let! (err, g) := rd_kafka_cgrp_subscribe cf en g topics in
      Ret (emit (OUT_op_reply err) g)
  | OP_ASSIGN p =>
      if has_flag F_TERMINATE g then
        let! g := rd_kafka_cgrp_unassign cf en g in
        Ret (emit (OUT_op_reply (match p with Some _ => ERR__DESTROY | None => 0 end)) g)
      else
        let! g := rd_kafka_cgrp_assign cf en g p in
        Ret (emit (OUT_op_reply 0) g)
  | OP_TERMINATE => rd_kafka_cgrp_terminate0 cf en g
  end.

(** ** Serving *)

Definition rd_kafka_cgrp_heartbeat g : cgrp :=
  if has_flag F_HEARTBEAT_IN_TRANSIT g then g else send RQ_Heartbeat (add_flag F_HEARTBEAT_IN_TRANSIT g).

Definition rd_kafka_cgrp_join_state_serve cf en g : cgrp :=
  match rkcg_join_state g with
  | JOIN_INIT =>
      match mb_subscription (rkcg_member g) with
      | None => g
      | Some _ =>
          let '(diff, ri) := rd_interval_immediate (ck_join (rkcg_clocks g)) 1000000 0 (g_now g) in
          let g := set_ck_join ri g in
          if diff >? 0 then rd_kafka_cgrp_join cf en g else g
      end
  | JOIN_WAIT_JOIN | JOIN_WAIT_METADATA | JOIN_WAIT_SYNC | JOIN_WAIT_UNASSIGN | JOIN_WAIT_REVOKE_REBALANCE_CB => g
  | JOIN_WAIT_ASSIGN_REBALANCE_CB | JOIN_ASSIGNED | JOIN_STARTED =>
      if has_flag F_SUBSCRIPTION g then
        let '(diff, ri) := rd_interval (ck_heartbeat (rkcg_clocks g)) (cf_heartbeat_intvl_ms cf * 1000) 0 (g_now g) in
        let g := set_ck_heartbeat ri g in
        if diff >? 0 then rd_kafka_cgrp_heartbeat g else g
      else g
  end.

(** A coordinator query when its interval is over. *)
Definition intervaled_query en g (r : Z * rd_interval_t) : cgrp :=
  let g := set_query_intvl r.2 g in
  if r.1 >? 0 then rd_kafka_cgrp_coord_query en g else g.

Definition query_intvl g : rd_interval_t := co_query_intvl (rkcg_coord g).

(** The switch on the state.  [up] tells whether the broker that was the
    handling one when [rd_kafka_cgrp_serve] was entered is up. *)
Fixpoint serve_state (fuel : nat) cf en (up : bool) (now : Z) g : outcome cgrp :=
  let query_coord g := intervaled_query en g (rd_interval_immediate (query_intvl g) 500000 now (g_now g)) in
  match g_state g with
  | STATE_TERM | STATE_WAIT_COORD => Ret g
  | STATE_INIT => Ret (query_coord (set_state STATE_QUERY_COORD g))
  | STATE_QUERY_COORD => Ret (query_coord g)
  | STATE_WAIT_BROKER =>
      let! (changed, g) := rd_kafka_cgrp_reassign_broker en g in
      if changed : bool then match fuel with O => Diverge | S fuel => serve_state fuel cf en up now g end
      else Ret (intervaled_query en g (rd_interval (query_intvl g) 1000000 now (g_now g)))
  | STATE_WAIT_BROKER_TRANSPORT =>
      if negb up || negb (en_supports en)
      then Ret (intervaled_query en g (rd_interval (query_intvl g) 1000000 now (g_now g)))
      else
        let g := set_state STATE_UP g in
        let g := rd_kafka_cgrp_join_state_serve cf en g in
        match rkcg_assignment g with
        | Some a => if CAN_FETCH_START g then rd_kafka_cgrp_partitions_fetch_start cf g a false else Ret g
        | None => Ret g
        end
  | STATE_UP =>
      let '(_, g) := concat_wait_coord g in
      let g := intervaled_query en g (rd_interval (query_intvl g) (cf_coord_query_intvl_ms cf * 1000) now (g_now g)) in
      Ret (rd_kafka_cgrp_join_state_serve cf en g)
  end.

Definition rd_kafka_cgrp_serve cf en g : outcome cgrp :=
  let up := match g_rkb g with Some _ => en_rkb_up en | None => false end in
  let g := match g_rkb g with
           | Some _ => if negb up && is_state (g_state g) STATE_UP then set_state STATE_QUERY_COORD g else g
           | None => g
           end in
  let now := g_now g in
  let '(terminated, g) := rd_kafka_cgrp_try_terminate cf g in
  if terminated : bool then rd_kafka_cgrp_terminated g
  else if en_terminating en then Ret g
  else
    let! g := serve_state 2 cf en up now g in
    if negb (is_state (g_state g) STATE_UP) then
      let '(diff, ri) := rd_interval (ck_scan (rkcg_clocks g)) 1000000 now (g_now g) in
      let g := set_ck_scan ri g in
      if diff >? 0 then rd_kafka_cgrp_timeout_scan cf en g now else Ret g
    else Ret g.

(** ** Responses *)

Definition rd_kafka_cgrp_handle_GroupCoordinator cf en g (ErrorCode coord_id : Z) : outcome cgrp :=
  if ErrorCode =? 0 then
    let! g := rd_kafka_cgrp_coord_update en g coord_id in
    rd_kafka_cgrp_serve cf en g
  else if ErrorCode =? ERR__DESTROY then Ret g
  else
    let! g := if ErrorCode =? ERR_GROUP_COORDINATOR_NOT_AVAILABLE then rd_kafka_cgrp_coord_update en g (-1)
              else
                let g := if negb (co_last_err (rkcg_coord g) =? ErrorCode) then set_last_err ErrorCode (emit (OUT_consumer_err ErrorCode) g) else g in
                Ret (set_state STATE_QUERY_COORD g) in
    rd_kafka_cgrp_serve cf en g.

(** A JoinGroup response.  [jr_err] is the error of the request or of parsing
    the fixed part.  [jr_members] are the members of a leader, whether their
    metadata could be parsed, or the error that stopped the parser. *)
Record join_response : Type := mk_join_response {
  jr_err : Z; jr_ErrorCode : Z; jr_GenerationId : Z; jr_Protocol : option (list Z); jr_LeaderId : list Z; jr_MemberId : list Z;
  jr_member_cnt : Z; jr_members : Z + list bool }.

Definition join_failed g (ErrorCode : Z) : cgrp :=
  let actions := rd_kafka_err_action ErrorCode true [(ACTION_IGNORE, ERR_UNKNOWN_MEMBER_ID)] in
  let g := if has_action ACTION_REFRESH actions then enq_op OP_COORD_QUERY g else g in
  if negb (ErrorCode =? 0) then
    if ErrorCode =? ERR__DESTROY then g
    else
      let g := if has_action ACTION_PERMANENT actions then emit (OUT_consumer_err ErrorCode) g else g in
      let g := if ErrorCode =? ERR_UNKNOWN_MEMBER_ID then set_member_id [] g else g in
      set_join_state JOIN_INIT g
  else g.

Definition rd_kafka_cgrp_handle_JoinGroup g (r : join_response) : outcome cgrp :=
  if jr_err r =? ERR__DESTROY then Ret g
  else if negb (is_state (rkcg_join_state g) JOIN_WAIT_JOIN) then Ret g
  else if negb (jr_err r =? 0) then Ret (join_failed g (jr_err r))
  else
    let ErrorCode := if (jr_ErrorCode r =? 0) && match jr_Protocol r with None => true | Some _ => false end then ERR__BAD_MSG else jr_ErrorCode r in
    if negb (ErrorCode =? 0) then
      Ret (join_failed (set_ck_join (rd_interval_backoff (ck_join (rkcg_clocks g)) 1000000) g) ErrorCode)
    else
      let g := set_member_id (jr_MemberId r) (set_generation_id (jr_GenerationId r) g) in
      if bool_decide (jr_LeaderId r = jr_MemberId r) then
        if jr_member_cnt r >? 100000 then Ret (join_failed g 0)
        else if jr_member_cnt r <? 0 then Crash   (* rd_calloc *)
        else
          match jr_members r with
          | inl err => Ret (join_failed g err)
          | inr ms =>
              let g := rd_kafka_cgrp_group_leader_reset g in
              let g := set_leader (Some (default [] (jr_Protocol r), zlen (filter (fun b => b = true) ms))) g in
              let g := set_join_state JOIN_WAIT_METADATA g in
              Ret (join_failed (send RQ_Metadata_assignor g) 0)
          end
      else Ret (join_failed (send RQ_SyncGroup (set_join_state JOIN_WAIT_SYNC g)) 0).

Definition rd_kafka_cgrp_assignor_run en g (err : Z) : cgrp :=
  if negb (err =? 0) || negb (en_assignor_err en =? 0) then set_join_state JOIN_INIT g
  else send RQ_SyncGroup (set_join_state JOIN_WAIT_SYNC g).

Definition rd_kafka_cgrp_assignor_handle_Metadata_op en g (err : Z) : cgrp :=
  if err =? ERR__DESTROY then g
  else if negb (is_state (rkcg_join_state g) JOIN_WAIT_METADATA) then g
  else match mb_leader (rkcg_member g) with None => g | Some _ => rd_kafka_cgrp_assignor_run en g err end.

Definition rd_kafka_cgrp_handle_Metadata_op cf en g (err : Z) : outcome cgrp :=
  if err =? ERR__DESTROY then Ret g else rd_kafka_cgrp_metadata_update_check cf en g false.

(** [member_state] is the assignment, or the error of parsing it. *)
Definition rd_kafka_cgrp_handle_SyncGroup cf en g (err : Z) (member_state : Z + list toppar) : outcome cgrp :=
  let err := if (err =? 0) && has_flag F_TERMINATE g then ERR__DESTROY else err in
  if negb (err =? 0) then Ret (set_join_state JOIN_INIT g)
  else match member_state with
       | inl _ => Ret (set_join_state JOIN_INIT g)
       | inr ts => rd_kafka_cgrp_handle_assignment cf en g (map (fun t => (t, OFFSET_INVALID)) ts)
       end.

Definition rd_kafka_handle_SyncGroup cf en g (ErrorCode : Z) (member_state : Z + list toppar) : outcome cgrp :=
  if negb (is_state (rkcg_join_state g) JOIN_WAIT_SYNC) then Ret g
  else
    let actions := rd_kafka_err_action ErrorCode true [] in
    let g := if has_action ACTION_REFRESH actions then enq_op OP_COORD_QUERY g else g in
    let '(retried, g) := if has_action ACTION_RETRY actions then rd_kafka_buf_retry en g RQ_SyncGroup else (false, g) in
    if (retried : bool) || (ErrorCode =? ERR__DESTROY) then Ret g
    else rd_kafka_cgrp_handle_SyncGroup cf en g ErrorCode member_state.

Definition rd_kafka_cgrp_handle_Heartbeat cf en g (ErrorCode : Z) : outcome cgrp :=
  if ErrorCode =? ERR__DESTROY then Ret g
  else
    let actions := rd_kafka_err_action ErrorCode true [] in
    let g := clear_flag F_HEARTBEAT_IN_TRANSIT g in
    let g := if has_action ACTION_REFRESH actions then enq_op OP_COORD_QUERY g else g in
    let '(retried, g) := if has_action ACTION_RETRY actions then rd_kafka_buf_retry en g RQ_Heartbeat else (false, g) in
    if retried : bool then Ret (add_flag F_HEARTBEAT_IN_TRANSIT g)
    else if negb (ErrorCode =? 0) then rd_kafka_cgrp_handle_heartbeat_error cf en g ErrorCode
    else Ret g.

(** ** Runs *)

Definition rd_kafka_cgrp_new (group_id_null : bool) : cgrp :=
  mk_cgrp JOIN_INIT 1 0 None 0
    (mk_coord STATE_INIT (-1) None 0 (if group_id_null then rd_interval_disable rd_interval_init else rd_interval_init))
    (mk_member (-1) [] None None [])
    (mk_parts [] ∅ 0 [] 0 ∅)
    (mk_queues [] true [] true [] [] false)
    (mk_clocks 0 0 rd_interval_init rd_interval_init rd_interval_init).

Definition rd_kafka_cgrp_offset_commit_tmr_cb cf en g : outcome cgrp := rd_kafka_cgrp_assigned_offsets_commit cf en g None.

Inductive response : Type :=
| RS_GroupCoordinator (err coord_id : Z)
| RS_JoinGroup (r : join_response)
| RS_SyncGroup (err : Z) (member_state : Z + list toppar)
| RS_Heartbeat (err : Z)
| RS_Metadata (err : Z)
| RS_OffsetFetch (err : Z) (reply parsed : bool) (resp : list (toppar * Z * Z))
| RS_OffsetCommit (err : Z) (resp : list (toppar * Z)).

(** What can happen: an operation is enqueued; the main thread serves the first
    operation, runs [rd_kafka_cgrp_serve], the commit timer or the check after a
    metadata update, or handles the response to the [n]-th outstanding request; a
    partition has stopped; time passes; the application stores an offset. *)
Inductive event : Type :=
| EvOp (o : op)
| EvServeOp
| EvServe
| EvTimer
| EvMetadata
| EvReply (n : nat) (r : response)
| EvStopped (t : toppar)
| EvClock (dt : Z)
| EvStore (t : toppar) (offset : Z).

(** The responses a request can have; that to LeaveGroup is ignored. *)
Definition reply_matches (q : request) (r : response) : bool :=
  match q, r with
  | RQ_GroupCoordinator, RS_GroupCoordinator _ _ | RQ_JoinGroup, RS_JoinGroup _ | RQ_SyncGroup, RS_SyncGroup _ _
  | RQ_Heartbeat, RS_Heartbeat _ | RQ_Metadata_assignor, RS_Metadata _ | RQ_Metadata, RS_Metadata _
  | RQ_OffsetFetch _ _, RS_OffsetFetch _ _ _ _ | RQ_op_OffsetFetch _, RS_OffsetFetch _ _ _ _
  | RQ_OffsetCommit _ _, RS_OffsetCommit _ _ => true
  | _, _ => false
  end.

Definition handle_reply cf en g (q : request) (r : response) : outcome cgrp :=
  match q, r with
  | RQ_GroupCoordinator, RS_GroupCoordinator err coord_id => rd_kafka_cgrp_handle_GroupCoordinator cf en g err coord_id
  | RQ_JoinGroup, RS_JoinGroup r => rd_kafka_cgrp_handle_JoinGroup g r
  | RQ_SyncGroup, RS_SyncGroup err ms => rd_kafka_handle_SyncGroup cf en g err ms
  | RQ_Heartbeat, RS_Heartbeat err => rd_kafka_cgrp_handle_Heartbeat cf en g err
  | RQ_Metadata_assignor, RS_Metadata err => Ret (rd_kafka_cgrp_assignor_handle_Metadata_op en g err)
  | RQ_Metadata, RS_Metadata err => rd_kafka_cgrp_handle_Metadata_op cf en g err
  | RQ_OffsetFetch p version, RS_OffsetFetch err reply parsed resp => rd_kafka_cgrp_offsets_fetch_response cf en g err reply parsed resp p version
  | RQ_op_OffsetFetch p, RS_OffsetFetch err reply parsed resp => Ret (rd_kafka_op_handle_OffsetFetch en g err reply parsed resp p)
  | RQ_OffsetCommit c version, RS_OffsetCommit err resp => rd_kafka_cgrp_op_handle_OffsetCommit cf en g err (Some version) c resp
  | _, _ => Ret g
  end.

Fixpoint remove_first (t : toppar) (l : list toppar) : list toppar :=
  match l with [] => [] | u :: l => if bool_decide (u = t) then l else u :: remove_first t l end.

Definition step cf en g (e : event) : outcome cgrp :=
  match e with
  | EvOp o => Ret (enq_op o g)
  | EvServeOp => match g_ops g with o :: l => rd_kafka_cgrp_op_serve cf en (set_ops l g) o | [] => Ret g end
  | EvServe => rd_kafka_cgrp_serve cf en g
  | EvTimer => if qu_ops_on (rkcg_queues g) then rd_kafka_cgrp_offset_commit_tmr_cb cf en g else Ret g
  | EvMetadata => rd_kafka_cgrp_metadata_update_check cf en g true
  | EvReply n r =>
      match g_requests g !! n with
      | Some q =>
          if qu_ops_on (rkcg_queues g) && reply_matches q r
          then handle_reply cf en (set_requests (delete n (g_requests g)) g) q r else Ret g
      | None => Ret g
      end
  | EvStopped t => if bool_decide (t ∈ g_stops g) then Ret (enq_op (OP_FETCH_STOP_REPLY t) (set_stops (remove_first t (g_stops g)) g)) else Ret g
  | EvClock dt => Ret (set_ck_now (g_now g + dt) g)
  | EvStore t offset =>
      let o := offsets_of g t in
      Ret (set_info (<[t := mk_offsets offset (rktp_committed_offset o) (rktp_app_offset o)]> (g_info g)) g)
  end.

Fixpoint run cf g (l : list (env * event)) : outcome cgrp :=
  match l with [] => Ret g | (en, e) :: l => let! g := step cf en g e in run cf g l end.
