(* ===== verification/CgrpInv.v ===== *)
(** * The consumer group: its invariant

    [base] relates the counters of the group to what is outstanding: partitions
    told to stop, replies of theirs in the queue, commits sent, put aside or in
    the queue for a second time.  [mode] says what the join state implies.  Both
    are preserved by every function; the arguments [k] (commits taken out of the
    queues and not yet accounted for) and [X] (partitions of a removed assignment
    that have not yet been told to stop) describe the states in between. *)
From Stdlib Require Import ZArith Lia.
From stdpp Require Import base numbers list gmap.
From S2P Require Import Prelude.
From S2P Require Import CgrpState.
From S2P Require Import Cgrp.

Implicit Types (cf : conf) (en : env) (g : cgrp) (X : gset toppar).

(** ** Flags *)

Lemma flag_set_bit n flags : 0 <= n -> flag_set (2 ^ n) flags = Z.testbit flags n.
Proof.
  intros Hn. unfold flag_set. destruct (Z.testbit flags n) eqn:E.
  - apply negb_true_iff, Z.eqb_neq. intros H0. apply (f_equal (fun z => Z.testbit z n)) in H0.
    rewrite Z.land_spec, E, Z.pow2_bits_true, Z.bits_0 in H0 by done. done.
  - apply negb_false_iff, Z.eqb_eq, Z.bits_inj'. intros i Hi. rewrite Z.land_spec, Z.bits_0, Z.pow2_bits_eqb by done.
    destruct (Z.eqb_spec n i) as [<-|]; [by rewrite E|apply andb_false_r].
Qed.

Lemma flag_set_lor n f flags : 0 <= n -> flag_set (2 ^ n) (Z.lor flags f) = flag_set (2 ^ n) flags || Z.testbit f n.
Proof. intros. by rewrite !flag_set_bit, Z.lor_spec. Qed.

Lemma flag_set_ldiff n f flags : 0 <= n -> flag_set (2 ^ n) (Z.ldiff flags f) = flag_set (2 ^ n) flags && negb (Z.testbit f n).
Proof. intros. by rewrite !flag_set_bit, Z.ldiff_spec. Qed.

Abbreviation f_wu g := (flag_set F_WAIT_UNASSIGN (rkcg_flags g)).
Abbreviation f_term g := (flag_set F_TERMINATE (rkcg_flags g)).

Lemma wu_lor f flags : flag_set F_WAIT_UNASSIGN (Z.lor flags f) = flag_set F_WAIT_UNASSIGN flags || Z.testbit f 2.
Proof. by apply (flag_set_lor 2). Qed.
Lemma wu_ldiff f flags : flag_set F_WAIT_UNASSIGN (Z.ldiff flags f) = flag_set F_WAIT_UNASSIGN flags && negb (Z.testbit f 2).
Proof. by apply (flag_set_ldiff 2). Qed.
Lemma term_lor f flags : flag_set F_TERMINATE (Z.lor flags f) = flag_set F_TERMINATE flags || Z.testbit f 0.
Proof. by apply (flag_set_lor 0). Qed.
Lemma term_ldiff f flags : flag_set F_TERMINATE (Z.ldiff flags f) = flag_set F_TERMINATE flags && negb (Z.testbit f 0).
Proof. by apply (flag_set_ldiff 0). Qed.

(** ** What is outstanding *)

Definition stop_reply (o : op) : option toppar := match o with OP_FETCH_STOP_REPLY t => Some t | _ => None end.

(** Partitions told to stop whose reply has not been handled. *)
Definition pending g : list toppar := g_stops g ++ omap stop_reply (g_ops g).

Fixpoint count {A} (p : A -> bool) (l : list A) : Z := match l with [] => 0 | x :: l => (if p x then 1 else 0) + count p l end.

Definition is_commit (q : request) : bool := match q with RQ_OffsetCommit _ _ => true | _ => false end.
Definition is_reprocess (o : op) : bool := match o with OP_OFFSET_COMMIT c => oc_reprocess c | _ => false end.

(** Commits counted and not yet answered. *)
Definition commits g : Z := zlen (g_wait_coord g) + count is_commit (g_requests g) + count is_reprocess (g_ops g).

Definition keys (a : option partitions) : list toppar := match a with Some a => a.*1 | None => [] end.

(** A request for offsets that is not outdated is one for the assignment. *)
Definition fetch_ok (version : Z) (a : option partitions) (q : request) : Prop :=
  match q with
  | RQ_OffsetFetch l v => 1 <= v <= version /\ (v = version -> exists a', a = Some a' /\ l.*1 = a'.*1)
  | _ => True
  end.

Record base (k : Z) g : Prop := mk_base {
  b_assigned : g_assigned_cnt g = Z.of_nat (size (g_assigned g));
  b_stops : g_wait_unassign_cnt g = zlen (pending g);
  b_nodup : NoDup (pending g);
  b_commits : rkcg_wait_commit_cnt g = commits g + k;
  b_deferred : Forall (fun c => oc_reprocess c = true) (g_wait_coord g);
  b_keys : NoDup (keys (rkcg_assignment g));
  b_version : 1 <= rkcg_version g;
  b_on : f_term g = false -> qu_wait_coord_on (rkcg_queues g) = true;
  b_fetch : Forall (fetch_ok (rkcg_version g) (rkcg_assignment g)) (g_requests g);
  b_term : g_state g = STATE_TERM -> f_term g = true /\ pending g = [] /\ rkcg_wait_commit_cnt g = 0 /\ rkcg_assignment g = None;
  b_off : qu_ops_on (rkcg_queues g) = false -> g_state g = STATE_TERM /\ g_ops g = [];
  b_rkb : g_state g = STATE_UP \/ g_state g = STATE_WAIT_BROKER_TRANSPORT -> g_rkb g <> None }.

(** The partitions that are fetched, are those being stopped or those of the
    assignment. *)
Definition js_ok X g : Prop :=
  let P : gset toppar := list_to_set (pending g) in
  match rkcg_join_state g with
  | JOIN_INIT | JOIN_WAIT_JOIN | JOIN_WAIT_METADATA | JOIN_WAIT_SYNC | JOIN_WAIT_ASSIGN_REBALANCE_CB =>
      rkcg_assignment g = None /\ pending g = [] /\ g_assigned g = ∅
  | JOIN_ASSIGNED => pending g = [] /\ g_assigned g = ∅
  | JOIN_STARTED => rkcg_assignment g <> None /\ pending g = [] /\ g_assigned g = list_to_set (keys (rkcg_assignment g))
  | JOIN_WAIT_REVOKE_REBALANCE_CB =>
      rkcg_assignment g <> None /\ (g_assigned g = P \/ (pending g = [] /\ g_assigned g = list_to_set (keys (rkcg_assignment g))))
  | JOIN_WAIT_UNASSIGN => g_assigned g = P ∪ X
  end.

Record mode0 X g : Prop := mk_mode {
  m_js : js_ok X g;
  m_disj : X ## list_to_set (pending g);
  m_XT : g_state g = STATE_TERM -> X = ∅;
  m_X : X = ∅ \/ (rkcg_join_state g = JOIN_WAIT_UNASSIGN /\ rkcg_assignment g = None);
  m_wu : f_wu g = true <-> rkcg_join_state g = JOIN_WAIT_REVOKE_REBALANCE_CB;
  m_term : f_term g = true -> rkcg_join_state g = JOIN_WAIT_REVOKE_REBALANCE_CB \/ rkcg_assignment g = None }.

(** While it waits for the unassignment to finish, something is pending. *)
Definition waits X g : Prop :=
  rkcg_join_state g = JOIN_WAIT_UNASSIGN -> pending g <> [] \/ rkcg_wait_commit_cnt g > 0 \/ X <> ∅.

Definition mode X g : Prop := mode0 X g /\ waits X g.

Definition inv g : Prop := base 0 g /\ mode ∅ g.

(** Reads the fields of an updated group. *)
Ltac gs := cbn [fst snd rkcg_join_state rkcg_version rkcg_flags rkcg_assignment rkcg_wait_commit_cnt rkcg_coord rkcg_member rkcg_parts rkcg_queues rkcg_clocks
  co_state co_id co_rkb co_last_err co_query_intvl mb_generation_id mb_member_id mb_leader mb_subscription mb_subscribed_topics
  pt_toppars pt_assigned pt_assigned_cnt pt_stops pt_wait_unassign_cnt pt_info
  qu_ops qu_ops_on qu_wait_coord qu_wait_coord_on qu_requests qu_out qu_reply ck_now ck_terminate ck_heartbeat ck_join ck_scan
  set_join_state set_version set_flags set_assignment set_wait_commit_cnt set_coord set_member set_parts set_queues set_clocks
  set_state set_coord_id set_rkb set_last_err set_query_intvl set_generation_id set_member_id set_leader set_subscription set_subscribed_topics
  set_toppars set_assigned set_assigned_cnt set_stops set_wait_unassign_cnt set_info set_ops set_ops_on set_wait_coord set_wait_coord_on
  set_requests set_out set_reply set_ck_now set_ck_terminate set_ck_heartbeat set_ck_join set_ck_scan
  has_flag add_flag clear_flag emit send version_new_barrier] in *.

Lemma count_nonneg {A} (p : A -> bool) l : 0 <= count p l.
Proof. induction l as [|x l IH]; cbn; [lia|]. destruct (p x); lia. Qed.

Lemma commits_nonneg g : 0 <= commits g.
Proof. unfold commits. pose proof (count_nonneg is_commit (g_requests g)). pose proof (count_nonneg is_reprocess (g_ops g)). lia. Qed.

(** ** Updates that do not matter

    A [quiet] update leaves the counters, the assignment and what is
    outstanding as they are; it may move between the early join states and
    between the states of the coordinator. *)
Definition early (j : join_state) : Prop := j = JOIN_INIT \/ j = JOIN_WAIT_JOIN \/ j = JOIN_WAIT_METADATA \/ j = JOIN_WAIT_SYNC.

Record quiet g g' : Prop := mk_quiet {
  q_js : rkcg_join_state g' = rkcg_join_state g \/ (early (rkcg_join_state g) /\ early (rkcg_join_state g'));
  q_version : rkcg_version g' = rkcg_version g;
  q_wu : f_wu g' = f_wu g;
  q_fterm : f_term g' = f_term g;
  q_toppars : pt_toppars (rkcg_parts g') = pt_toppars (rkcg_parts g);
  q_asg : rkcg_assignment g' = rkcg_assignment g;
  q_cnt : rkcg_wait_commit_cnt g' = rkcg_wait_commit_cnt g;
  q_assigned : g_assigned g' = g_assigned g;
  q_acnt : g_assigned_cnt g' = g_assigned_cnt g;
  q_stops : g_stops g' = g_stops g;
  q_ucnt : g_wait_unassign_cnt g' = g_wait_unassign_cnt g;
  q_on : qu_ops_on (rkcg_queues g') = qu_ops_on (rkcg_queues g);
  q_wcon : qu_wait_coord_on (rkcg_queues g') = qu_wait_coord_on (rkcg_queues g) \/ f_term g = true;
  q_replies : omap stop_reply (g_ops g') = omap stop_reply (g_ops g);
  q_commits : Forall (fun c => oc_reprocess c = true) (g_wait_coord g) ->
              Forall (fun c => oc_reprocess c = true) (g_wait_coord g') /\ commits g' = commits g;
  q_fetch : forall v a, Forall (fetch_ok v a) (g_requests g) -> Forall (fetch_ok v a) (g_requests g');
  q_term : g_state g' = STATE_TERM -> g_state g = STATE_TERM;
  q_off : qu_ops_on (rkcg_queues g) = false -> g_state g = STATE_TERM -> g_ops g = [] -> g_state g' = STATE_TERM /\ g_ops g' = [];
  q_rkb : (g_state g = STATE_UP \/ g_state g = STATE_WAIT_BROKER_TRANSPORT -> g_rkb g <> None) ->
          g_state g' = STATE_UP \/ g_state g' = STATE_WAIT_BROKER_TRANSPORT -> g_rkb g' <> None }.

Lemma quiet_refl g : quiet g g.
Proof. split; auto. Qed.

Lemma quiet_trans g1 g2 g3 : quiet g1 g2 -> quiet g2 g3 -> quiet g1 g3.
Proof.
  intros [] []. split; try congruence; auto.
  - destruct q_js0 as [E|[]], q_js1 as [E'|[]]; try rewrite E in *; try rewrite E' in *; auto.
  - rewrite q_fterm0 in q_wcon1. destruct q_wcon0, q_wcon1; auto; left; congruence.
  - intros H. destruct (q_commits0 H) as [H1 H2], (q_commits1 H1). split; congruence.
  - intros H1 H2 H3. destruct (q_off0 H1 H2 H3). apply q_off1; congruence.
Qed.

Lemma quiet_pending g g' : quiet g g' -> pending g' = pending g.
Proof. intros []. unfold pending. congruence. Qed.

Lemma quiet_base k g g' : quiet g g' -> base k g -> base k g'.
Proof.
  intros Q []. pose proof (quiet_pending _ _ Q) as HP. destruct Q.
  destruct (q_commits0 b_deferred0) as [Hd Hc].
  split; rewrite ?HP, ?q_acnt0, ?q_assigned0, ?q_ucnt0, ?q_cnt0, ?Hc, ?q_version0, ?q_asg0, ?q_on0, ?q_fterm0; auto.
  - intros H. specialize (b_on0 H). destruct q_wcon0; congruence.
  - intros H. destruct (b_off0 H). auto.
Qed.

Lemma quiet_mode X g g' : quiet g g' -> mode X g -> mode X g'.
Proof.
  intros Q [[] Hw]. pose proof (quiet_pending _ _ Q) as HP. destruct Q.
  assert (js_ok X g') as Hjs.
  { unfold js_ok in *. rewrite HP, q_assigned0, q_asg0. destruct q_js0 as [->|[[E|[E|[E|E]]] [E'|[E'|[E'|E']]]]]; try done; rewrite E in *; by rewrite E'. }
  assert (forall j, early j -> j <> JOIN_WAIT_UNASSIGN /\ j <> JOIN_WAIT_REVOKE_REBALANCE_CB) as He by (by intros j [->|[->|[->| ->]]]).
  split; [split|]; unfold waits in *; rewrite ?HP, ?q_asg0, ?q_wu0, ?q_fterm0, ?q_cnt0; auto.
  all: destruct q_js0 as [->|[[H1 H2]%He [H3 H4]%He]]; [done|].
  - destruct m_X0 as [|[]]; [by left|done].
  - split; [|done]. intros H. by apply m_wu0 in H.
  - intros H. destruct (m_term0 H); [done|by right].
  - done.
Qed.

Lemma quiet_inv g g' : quiet g g' -> inv g -> inv g'.
Proof. intros Q []. split; eauto using quiet_base, quiet_mode. Qed.

Lemma count_app {A} (p : A -> bool) l l' : count p (l ++ l') = count p l + count p l'.
Proof. induction l; cbn; lia. Qed.

Ltac quiet :=
  split; unfold commits; gs; auto;
  rewrite ?wu_lor, ?wu_ldiff, ?term_lor, ?term_ldiff, ?omap_app, ?count_app; cbn;
  rewrite ?orb_false_r, ?andb_true_r, ?app_nil_r, ?Z.add_0_r; auto.

(** A request that is neither a commit nor for offsets. *)
Definition plain (q : request) : bool := match q with RQ_OffsetCommit _ _ | RQ_OffsetFetch _ _ => false | _ => true end.

Lemma quiet_send g q : plain q = true -> quiet g (send q g).
Proof.
  intros Hq. quiet.
  - intros. split; [done|]. destruct q; cbn in *; try done; lia.
  - intros v a H. apply Forall_app; split; [done|]. constructor; [|done]. by destruct q.
Qed.

Lemma quiet_emit g o : quiet g (emit o g).
Proof. quiet. Qed.

Lemma quiet_if_emit (b : bool) g o : quiet g (if b then emit o g else g).
Proof. destruct b; [apply quiet_emit|apply quiet_refl]. Qed.

Lemma quiet_enq_query g : quiet g (enq_op OP_COORD_QUERY g).
Proof.
  unfold enq_op. destruct (qu_ops_on _) eqn:E; [|apply quiet_refl]. quiet; congruence.
Qed.

Lemma quiet_early g j : early (rkcg_join_state g) -> early j -> quiet g (set_join_state j g).
Proof. intros. quiet. Qed.

Lemma quiet_query_intvl g r : quiet g (set_query_intvl r g).
Proof. quiet. Qed.

Lemma quiet_info g i : quiet g (set_info i g).
Proof. quiet. Qed.

Lemma quiet_member g m : quiet g (set_member m g).
Proof. quiet. Qed.

Lemma quiet_clocks g c : quiet g (set_clocks c g).
Proof. quiet. Qed.

(** Flags other than the two that matter. *)
Lemma quiet_add_flag g f : Z.testbit f 2 = false -> Z.testbit f 0 = false -> quiet g (add_flag f g).
Proof. intros H2 H0. split; unfold commits; gs; auto; by rewrite ?wu_lor, ?term_lor, ?H2, ?H0, orb_false_r. Qed.

Lemma quiet_clear_flag g f : Z.testbit f 2 = false -> Z.testbit f 0 = false -> quiet g (clear_flag f g).
Proof. intros H2 H0. split; unfold commits; gs; auto; by rewrite ?wu_ldiff, ?term_ldiff, ?H2, ?H0, andb_true_r. Qed.

(** The queue of operations is enabled or the group has not terminated. *)
Definition live g : Prop := qu_ops_on (rkcg_queues g) = false -> g_state g <> STATE_TERM.

Lemma quiet_live g g' : quiet g g' -> live g -> live g'.
Proof. intros [] L H H'. rewrite q_on0 in H. apply (L H). auto. Qed.

(** A change of state that does not terminate. *)
Lemma quiet_state g s :
  live g -> s <> STATE_TERM -> (s = STATE_UP \/ s = STATE_WAIT_BROKER_TRANSPORT -> g_rkb g <> None) -> quiet g (set_state s g).
Proof. intros L Hs Hr. quiet; try done. intros Hf Ht. by destruct (L Hf). Qed.

Create HintDb cgrp discriminated.
#[export] Hint Resolve quiet_refl quiet_emit quiet_enq_query quiet_query_intvl quiet_info quiet_member quiet_clocks : cgrp.
#[export] Hint Extern 1 (quiet _ (send _ _)) => apply quiet_send; reflexivity : cgrp.

(** ** The coordinator *)

Lemma quiet_coord_query en g : quiet g (rd_kafka_cgrp_coord_query en g).
Proof.
  unfold rd_kafka_cgrp_coord_query. destruct (en_any en); [|auto with cgrp].
  eapply quiet_trans; [apply (quiet_send g RQ_GroupCoordinator); done|].
  case_bool_decide as E; [|auto with cgrp]. apply quiet_state; [|done|by intros []].
  intros _ H. congruence.
Qed.

Lemma safe_reassign en g : live g -> safe (rd_kafka_cgrp_reassign_broker en g) (fun r => quiet g r.2).
Proof.
  intros L. unfold rd_kafka_cgrp_reassign_broker. set (b := rd_kafka_cgrp_select_broker en g). clearbody b.
  case_bool_decide as E; cbn.
  - apply quiet_state; [done|by destruct b as [x|]; [destruct (BROKER_IS_COORD g x)|]|].
    subst b. destruct (g_rkb g); [done|]. by intros [|].
  - unfold rd_kafka_cgrp_unassign_broker, rd_kafka_cgrp_assign_broker.
    destruct (g_rkb g) eqn:Eg, b as [b|]; cbn; rewrite ?Eg; cbn; try done.
    all: repeat case_match; cbn; quiet; try done; try (by intros _ [|]); intros Hf Ht; by destruct (L Hf).
Qed.

Lemma safe_coord_update en g id : live g -> safe (rd_kafka_cgrp_coord_update en g id) (quiet g).
Proof.
  intros L. unfold rd_kafka_cgrp_coord_update. case_match; cbn.
  - case_bool_decide; [|auto with cgrp]. apply quiet_state; [done..|by intros []].
  - set (g' := set_state STATE_WAIT_BROKER (set_coord_id id g)).
    assert (quiet g g') as Q by (unfold g'; quiet; try done; [intros H1 H2; by destruct (L H1)|by intros _ []]).
    eapply safe_bind; [apply safe_reassign; eauto using quiet_live|].
    intros [? g''] Q'. cbn in *. eauto using quiet_trans.
Qed.

Lemma safe_coord_dead en g : live g -> safe (rd_kafka_cgrp_coord_dead en g) (quiet g).
Proof.
  intros L. unfold rd_kafka_cgrp_coord_dead. eapply safe_bind; [by apply safe_coord_update|].
  intros g' Q. cbn. eapply quiet_trans; [exact Q|]. eapply quiet_trans; [|apply quiet_coord_query].
  apply quiet_state; [eauto using quiet_live|done|by intros []].
Qed.

Lemma quiet_leave g : quiet g (rd_kafka_cgrp_leave g).
Proof. unfold rd_kafka_cgrp_leave. case_bool_decide; auto with cgrp. Qed.

(** ** Termination *)

Lemma quiet_wait_coord_on g b : f_term g = true -> quiet g (set_wait_coord_on b g).
Proof. intros. quiet. Qed.

Lemma omap_commits l : omap stop_reply (OP_OFFSET_COMMIT <$> l) = [].
Proof. induction l; done. Qed.

Lemma count_commits l : Forall (fun c => oc_reprocess c = true) l -> count is_reprocess (OP_OFFSET_COMMIT <$> l) = zlen l.
Proof. induction 1 as [|c l Hc _ IH]; [done|]. cbn -[Z.of_nat Z.add]. rewrite Hc, IH. lia. Qed.

Lemma quiet_concat g : quiet g (concat_wait_coord g).2.
Proof.
  unfold concat_wait_coord. case_bool_decide as E; [auto with cgrp|].
  destruct (qu_ops_on (rkcg_queues g)) eqn:Eon; [|auto with cgrp].
  split; unfold commits; gs; auto; try congruence.
  - by rewrite omap_app, omap_commits, app_nil_r.
  - intros Hf. split; [done|]. rewrite count_app, count_commits by done. cbn [length]. lia.
Qed.

(** What the functions below do not change. *)
Definition kept g g' : Prop :=
  rkcg_assignment g' = rkcg_assignment g /\ f_term g' = f_term g /\ pt_toppars (rkcg_parts g') = pt_toppars (rkcg_parts g) /\ pending g' = pending g.

Lemma kept_refl g : kept g g.
Proof. done. Qed.

Lemma kept_trans g1 g2 g3 : kept g1 g2 -> kept g2 g3 -> kept g1 g3.
Proof. unfold kept. intros (?&?&?&?) (?&?&?&?). split_and!; congruence. Qed.

Lemma quiet_kept g g' : quiet g g' -> kept g g'.
Proof. intros Q. pose proof (quiet_pending _ _ Q). destruct Q. done. Qed.

Definition can_term X g : Prop := X = ∅ \/ f_term g = false \/ pt_toppars (rkcg_parts g) <> [].

Lemma kept_can_term X g g' : kept g g' -> can_term X g -> can_term X g'.
Proof. unfold kept, can_term. intros (?&->&->&?). done. Qed.

Lemma base_term k X g :
  base k g -> mode X g -> f_term g = true -> rkcg_join_state g <> JOIN_WAIT_REVOKE_REBALANCE_CB ->
  g_wait_unassign_cnt g = 0 -> rkcg_wait_commit_cnt g = 0 -> X = ∅ -> base k (set_state STATE_TERM g) /\ mode X (set_state STATE_TERM g).
Proof.
  intros [] [[] Hw] Hf Hjs Hu Hc HX. destruct (m_term0 Hf); [done|]. split; [split|split; [split|]]; gs; try done.
  - intros _. split_and!; try done. apply length_zero_iff_nil. change (pending _) with (pending g). lia.
  - intros H'. destruct (b_off0 H'). done.
  - by intros [].
Qed.

Lemma try_terminate_ok cf k X g :
  base k g -> mode X g -> can_term X g ->
  base k (try_terminate cf g) /\ mode X (try_terminate cf g) /\ kept g (try_terminate cf g).
Proof.
  intros Hb Hm Hx. unfold try_terminate, rd_kafka_cgrp_try_terminate.
  case_bool_decide as Et; [by split_and!|]. change (has_flag F_TERMINATE g) with (f_term g).
  destruct (f_term g) eqn:Ef; [|by split_and!]. cbn [negb].
  match goal with |- context [if negb (WAIT_REBALANCE_CB ?x) && _ && _ && _ && _ then _ else _] => set (g' := x) end.
  assert (quiet g g') as Q.
  { unfold g'. case_match; [|auto with cgrp]. pose proof (quiet_concat (set_wait_coord_on false g)) as Qc.
    destruct (concat_wait_coord _) as [ok g1] eqn:Eg. cbn in Qc.
    destruct ok; [eauto using quiet_trans, quiet_wait_coord_on|]. exfalso.
    unfold concat_wait_coord in Eg. gs. case_bool_decide; [done|]. destruct (qu_ops_on _) eqn:Eo; [done|].
    by destruct (b_off _ _ Hb Eo). }
  clearbody g'. pose proof (quiet_base _ _ _ Q Hb) as Hb'. pose proof (quiet_mode _ _ _ Q Hm) as Hm'. pose proof (quiet_kept _ _ Q) as Hk.
  case_match eqn:E; [|by split_and!]. bool_hyps.
  assert (f_term g' = true) by (destruct Hk as (_&->&_); done).
  destruct (base_term k X g') as [? ?]; try done.
  all: try (destruct (kept_can_term _ _ _ Hk Hx) as [|[|]]; [done|congruence|]; by case_bool_decide).
  unfold WAIT_REBALANCE_CB in *. intros Hj. rewrite Hj in *. done.
Qed.

(** ** Fetching *)

Lemma base_version k g : base k g -> base k (version_new_barrier g).
Proof.
  intros []. split; gs; try done; [lia|]. eapply Forall_impl; [exact b_fetch0|].
  intros [] Hq; try done. cbn in *. destruct Hq as [? Hq]. split; [lia|]. intros. lia.
Qed.

Lemma mode_version X g : mode X g -> mode X (version_new_barrier g).
Proof. intros [[] Hw]. by split; [split|]. Qed.

Lemma foldl_start l : forall g,
  exists o n, foldl start_partition g l = set_out o (set_assigned_cnt n (set_assigned (list_to_set l.*1 ∪ g_assigned g) g)) /\
    n - Z.of_nat (size (list_to_set l.*1 ∪ g_assigned g)) = g_assigned_cnt g - Z.of_nat (size (g_assigned g)).
Proof.
  induction l as [|[t offset] l IH]; intros g.
  - exists (qu_out (rkcg_queues g)), (g_assigned_cnt g). cbn [foldl fmap list_fmap list_to_set]. rewrite union_empty_l_L. split; [|lia].
    destruct g as [? ? ? ? ? ? ? [] [] ?]. done.
  - cbn [foldl]. unfold start_partition at 2. case_bool_decide as E; cbn [negb].
    + match goal with |- context [foldl _ ?x l] => destruct (IH x) as (o & n & -> & Hn) end.
      gs. cbn [fmap list_fmap list_to_set] in *. exists o, n.
      replace ({[t]} ∪ list_to_set l.*1 ∪ g_assigned g) with (list_to_set l.*1 ∪ g_assigned g) by set_solver. done.
    + match goal with |- context [foldl _ ?x l] => destruct (IH x) as (o & n & -> & Hn) end.
      gs. cbn [fmap list_fmap list_to_set] in *. exists o, n.
      replace ({[t]} ∪ list_to_set l.*1 ∪ g_assigned g) with (list_to_set l.*1 ∪ ({[t]} ∪ g_assigned g)) by set_solver. split; [done|].
      rewrite Hn, size_union, size_singleton by set_solver. lia.
Qed.

Definition good k X g0 g : Prop := base k g /\ mode X g /\ kept g0 g.

Lemma size_list_to_set_le (l : list toppar) : (size (list_to_set l : gset toppar) <= length l)%nat.
Proof.
  induction l as [|t l IH]; [done|]. cbn [list_to_set length].
  assert (size ({[t]} ∪ list_to_set l : gset toppar) <= size ({[t]} : gset toppar) + size (list_to_set l : gset toppar))%nat as H by apply size_union_alt_le || (rewrite size_union_alt; apply Nat.add_le_mono_l, subseteq_size; set_solver).
  rewrite size_singleton in H. lia.
Qed.

Lemma fetch_start_ok cf k g l u a :
  base k g -> mode ∅ g -> rkcg_join_state g = JOIN_ASSIGNED -> rkcg_assignment g = Some a -> l.*1 = a.*1 ->
  safe (rd_kafka_cgrp_partitions_fetch_start cf g l u) (good k ∅ g).
Proof.
  intros Hb Hm Hj Ha Hl. unfold rd_kafka_cgrp_partitions_fetch_start.
  case_match; [by split_and!|]. pose proof (base_version _ _ Hb) as Hb1. pose proof (mode_version _ _ Hm) as Hm1.
  assert (kept g (version_new_barrier g)) as Hk by done.
  case_match; [by split_and!|].
  assert (g_assigned g = ∅ /\ pending g = []) as [HS HP] by (destruct Hm as [[Hjs] _]; unfold js_ok in Hjs; rewrite Hj in Hjs; naive_solver).
  assert (g_assigned_cnt g = 0) as Hc by (rewrite (b_assigned _ _ Hb), HS; done).
  set (g1 := version_new_barrier g) in *. assert (g_assigned g1 = ∅ /\ g_assigned_cnt g1 = 0) as [HS1 Hc1] by done.
  assert (rkcg_assignment g1 = Some a /\ rkcg_join_state g1 = JOIN_ASSIGNED) as [Ha1 Hj1] by done. clearbody g1.
  match goal with |- context [if ?b && cf_offset_broker cf then _ else _] => destruct (b && cf_offset_broker cf) end.
  - unfold rd_kafka_cgrp_offsets_fetch. cbv zeta. destruct (negb _ || _); gs; rewrite ?Ha1.
    + rewrite Hc1. by destruct (Z.leb_spec 0 (zlen a)); [|lia].
    + rewrite Hc1. destruct (Z.leb_spec 0 (zlen a)); [|lia]. split_and!; [| |done].
      * destruct Hb1. split; unfold commits in *; gs; try done.
        -- rewrite count_app. cbn. lia.
        -- apply Forall_app; split; [done|]. constructor; [|done]. cbn. split; [lia|]. eauto.
      * destruct Hm1 as [[] Hw]. by split; [split|].
  - destruct (foldl_start l (set_join_state JOIN_STARTED g1)) as (o & n & -> & Hn). gs. rewrite HS1, union_empty_r_L in *. rewrite Ha1.
    rewrite Hc1, size_empty in Hn. rewrite Hl in *. pose proof (size_list_to_set_le a.*1) as Hle. rewrite length_fmap in Hle.
    destruct (Z.leb_spec n (zlen a)); [|lia]. split_and!; [| |done].
    + destruct Hb1. split; unfold pending, commits in *; gs; try done. lia.
    + destruct Hm1 as [[] Hw]. rewrite Ha1, Hj1 in *. destruct m_X0 as [_|[]]; [|done].
      split; [split|]; unfold js_ok, waits, pending in *; gs; rewrite ?Ha1, ?Hj1 in *; try done; try tauto.
      * destruct m_js0. done.
      * split; [|done]. intros Hf. by apply m_wu0 in Hf.
      * intros Hf. by destruct (m_term0 Hf).
Qed.

(** ** Unassignment *)

(** The join state and the wait flag alone. *)
Lemma base_js k g j : base k g -> base k (set_join_state j g).
Proof. intros []. by split. Qed.

Lemma good_try_terminate cf k X g0 g : base k g -> mode X g -> can_term X g -> kept g0 g -> good k X g0 (try_terminate cf g).
Proof. intros Hb Hm Hx Hk. destruct (try_terminate_ok cf k X g Hb Hm Hx) as (?&?&?). split_and!; eauto using kept_trans. Qed.

Lemma safe_good_kept k X g0 g1 m : kept g0 g1 -> safe m (good k X g1) -> safe m (good k X g0).
Proof. intros Hk Hs. eapply safe_mono; [exact Hs|]. intros g (?&?&?). split_and!; eauto using kept_trans. Qed.

Lemma unassign_done_ok cf k g :
  base k g -> mode0 ∅ g -> pending g = [] -> g_assigned g = ∅ -> f_wu g = false ->
  safe (rd_kafka_cgrp_unassign_done cf g) (good k ∅ g).
Proof.
  intros Hb Hm HP HS Hwu. unfold rd_kafka_cgrp_unassign_done.
  match goal with |- context [if has_flag ?f g then ?x else g] => set (g1 := if has_flag f g then x else g) end.
  assert (quiet g g1) as Q.
  { unfold g1. case_match; [|auto with cgrp]. eapply quiet_trans; [apply quiet_leave|by apply quiet_clear_flag]. }
  assert (rkcg_join_state g1 = rkcg_join_state g) as Hjs.
  { unfold g1. case_match; [|done]. unfold rd_kafka_cgrp_leave. by case_bool_decide. }
  clearbody g1. pose proof (quiet_base _ _ _ Q Hb) as Hb1. pose proof (quiet_pending _ _ Q) as HP1. pose proof (quiet_kept _ _ Q) as Hk. rewrite HP in HP1.
  assert (mode0 ∅ g1) as Hm1.
  { destruct Q, Hm. unfold js_ok in *. split; unfold js_ok; rewrite ?HP1, ?HP, ?Hjs, ?q_asg0, ?q_assigned0, ?q_wu0, ?q_fterm0 in *; auto. }
  assert (g_assigned g1 = ∅) as HS1 by (destruct Q; congruence). assert (f_wu g1 = false) as Hwu1 by (destruct Q; congruence).
  case_bool_decide as E; cbn [negb].
  - destruct (rkcg_assignment g1) as [a|] eqn:Ea.
    + set (g2 := set_join_state JOIN_ASSIGNED g1). assert (mode ∅ g2) as Hm2.
      { unfold g2. destruct Hm1. split; [split|]; unfold js_ok, waits; gs; change (pending (set_join_state _ g1)) with (pending g1); rewrite ?Hwu1, ?HP1 in *; try done; try by left.
        intros Hf. destruct (m_term0 Hf); congruence. }
      eapply safe_bind; [apply (fetch_start_ok cf k g2 a false a); [by apply base_js|done..]|].
      intros g3 (?&?&Hk3). cbn. apply good_try_terminate; try done; [by left|]. eapply kept_trans; [exact Hk|]. done.
    + cbn. apply good_try_terminate; [by apply base_js| |by left|by eapply kept_trans].
      destruct Hm1. split; [split|]; unfold js_ok, waits; gs; rewrite ?Hwu1 in *; try done; try by left.
      intros Hf. by right.
  - cbn. apply good_try_terminate; try done; [|by left]. split; [done|]. by intros ?.
Qed.

Lemma js_not_waiting X g : mode0 X g -> rkcg_join_state g <> JOIN_WAIT_UNASSIGN -> X = ∅.
Proof. intros [] H. destruct m_X0 as [|[]]; done. Qed.

Lemma check_unassign_done_ok cf k X g :
  base k g -> mode0 X g -> safe (rd_kafka_cgrp_check_unassign_done cf g) (good k X g).
Proof.
  intros Hb Hm. unfold rd_kafka_cgrp_check_unassign_done. change (has_flag F_WAIT_UNASSIGN g) with (f_wu g).
  pose proof (b_assigned _ _ Hb) as Hac. pose proof (b_stops _ _ Hb) as Hst.
  assert (rkcg_join_state g = JOIN_WAIT_UNASSIGN -> g_assigned g = list_to_set (pending g) ∪ X) as Hset.
  { intros E. destruct Hm as [Hjs]. unfold js_ok in Hjs. by rewrite E in Hjs. }
  case_match eqn:E.
  - split_and!; [done| |done]. split; [done|]. intros Hj.
    destruct (pending g) as [|t P] eqn:EP; [|by left]. right.
    destruct (decide (X = ∅)) as [->|]; [|by right]. left.
    rewrite Hset in Hac by done. rewrite union_empty_r_L in Hac. cbn [list_to_set] in Hac. rewrite size_empty in Hac.
    destruct (f_wu g) eqn:Ef; [apply (m_wu _ _ Hm) in Ef; congruence|]. cbn [length] in Hst.
    rewrite Hac, Hst in E. cbn in E. destruct (Z.gtb_spec (rkcg_wait_commit_cnt g) 0); [lia|done].
  - bool_hyps. assert (pending g = []) as HP by (apply length_zero_iff_nil; lia).
    assert (g_assigned g = ∅) as HS by (apply leibniz_equiv, size_empty_iff; lia).
    assert (X = ∅) as ->. { destruct (decide (rkcg_join_state g = JOIN_WAIT_UNASSIGN)); [|eauto using js_not_waiting]. set_solver. }
    by apply unassign_done_ok.
Qed.

(** ** Commits *)

(** A commit that was counted is sent. *)
Lemma send_commit_ok k X g c v : base (k + 1) g -> mode X g -> good k X g (send (RQ_OffsetCommit c v) g).
Proof.
  intros [] [[] Hw]. split_and!; [|by split; [split|]|done]. split; unfold commits in *; gs; try done.
  - rewrite count_app. cbn. lia.
  - apply Forall_app. split; [done|]. by constructor.
Qed.

Lemma defer_ok cf k X g c :
  base (k + 1) g -> mode X g ->
  let r := rd_kafka_cgrp_defer_offset_commit cf g c in
  if r.1 then good k X g r.2 else r.2 = g /\ (qu_wait_coord_on (rkcg_queues g) = false \/ oc_ts_timeout c <> 0).
Proof.
  intros [] [[] Hw]. unfold rd_kafka_cgrp_defer_offset_commit. destruct (negb _ || negb _) eqn:E; cbn.
  - split; [done|]. destruct (qu_wait_coord_on _); [|by left]. right. destruct (Z.eqb_spec (oc_ts_timeout c) 0); done.
  - split_and!; [|by split; [split|]|done]. split; unfold commits in *; gs; try done.
    + rewrite length_app. cbn. lia.
    + apply Forall_app. split; [done|]. by constructor.
Qed.

Lemma partition_committed_err (offsets : list toppar) resp : Forall (fun x : toppar * Z => x.2 <> ERR__IN_PROGRESS) resp ->
  forall a, a.2 <> ERR__IN_PROGRESS -> (foldl (partition_committed offsets) a resp).2 <> ERR__IN_PROGRESS.
Proof.
  induction 1 as [|[t e] resp Hx _ IH]; intros [[f n] l] Ha; [done|]. cbn [foldl]. apply IH. unfold partition_committed.
  repeat case_match; done.
Qed.

Definition broker_errors (resp : list (toppar * Z)) : Prop := Forall (fun x => x.2 <> ERR__IN_PROGRESS) resp.

Lemma base_commit_live k X g : base (k + 1) g -> 0 <= k -> live g.
Proof.
  intros [] Hk _ H. destruct (b_term0 H) as (_&_&Hc&_). pose proof (commits_nonneg g). lia.
Qed.

Lemma handle_OffsetCommit_ok en k X g err c version resp :
  base (k + 1) g -> mode X g -> 0 <= k -> err <> ERR__IN_PROGRESS -> broker_errors resp ->
  safe (rd_kafka_handle_OffsetCommit en g err (RQ_OffsetCommit c <$> version) resp (oc_partitions c))
    (fun r => let '(err', _, g') := r in
       (err' = ERR__IN_PROGRESS /\ good k X g g') \/
       (err' <> ERR__IN_PROGRESS /\ quiet g g' /\ (version = None -> err <> 0 -> err' = err))).
Proof.
  intros Hb Hm Hk He Hr. unfold rd_kafka_handle_OffsetCommit.
  pose proof (partition_committed_err (default [] (oc_partitions c)).*1 resp Hr ([], 0, 0)) as Hl.
  destruct (foldl _ _ resp) as [[failed errcnt] last_err]. cbn in Hl. specialize (Hl ltac:(done)).
  destruct (Z.eqb_spec err 0) as [->|Hne].
  - cbn. right. split_and!; auto with cgrp; [|done]. by repeat case_match.
  - set (actions := rd_kafka_err_action _ _ _). clearbody actions.
    eapply (safe_bind _ _ (quiet g)).
    + case_match; [|cbn; auto with cgrp]. case_match; [apply safe_coord_dead; eauto using base_commit_live|cbn; apply quiet_coord_query].
    + intros g1 Q. destruct version as [v|]; cbn; [|by right].
      unfold rd_kafka_buf_retry. destruct (has_action ACTION_RETRY actions); [|cbn; by right]. destruct (en_retry en); [|cbn; by right]. cbn. left. split; [done|].
      destruct (send_commit_ok k X g1 c v) as (?&?&?); eauto using quiet_base, quiet_mode.
      split_and!; eauto using kept_trans, quiet_kept.
Qed.

Lemma quiet_foldl {A} (f : cgrp -> A -> cgrp) l : (forall g x, quiet g (f g x)) -> forall g, quiet g (foldl f g l).
Proof. intros Hf. induction l as [|x l IH]; intros g; [apply quiet_refl|]. cbn. eapply quiet_trans; [apply Hf|apply IH]. Qed.

Lemma quiet_commit_offset failed g x : quiet g (commit_offset failed g x).
Proof. unfold commit_offset, set_committed. case_match; auto with cgrp. Qed.

Lemma quiet_mode0 X g g' : quiet g g' -> rkcg_join_state g' = rkcg_join_state g -> mode0 X g -> mode0 X g'.
Proof.
  intros Q Hjs []. pose proof (quiet_pending _ _ Q) as HP. destruct Q. unfold js_ok in *.
  split; unfold js_ok; rewrite ?HP, ?Hjs, ?q_asg0, ?q_assigned0, ?q_wu0, ?q_fterm0 in *; auto.
Qed.

Lemma commit_done_ok cf k X g err offsets failed :
  base k g -> mode0 X g -> can_term X g ->
  safe (rd_kafka_cgrp_handle_OffsetCommit cf g err offsets failed) (good k X g).
Proof.
  intros Hb Hm Hx. unfold rd_kafka_cgrp_handle_OffsetCommit.
  set (g1 := if err =? 0 then _ else g). assert (quiet g g1 /\ rkcg_join_state g1 = rkcg_join_state g) as [Q Hjs].
  { unfold g1. case_match; [|split; auto with cgrp]. split; [apply quiet_foldl; intros; apply quiet_commit_offset|].
    generalize (default [] offsets) as l. intros l. clear. revert g. induction l as [|x l IH]; intros g; [done|].
    cbn. rewrite IH. unfold commit_offset. by case_match. }
  clearbody g1. pose proof (quiet_base _ _ _ Q Hb) as Hb1. pose proof (quiet_kept _ _ Q) as Hk.
  pose proof (quiet_mode0 _ _ _ Q Hjs Hm) as Hm1. eapply (safe_bind _ _ (good k X g)).
  - case_bool_decide as E; [eapply safe_good_kept, check_unassign_done_ok; done|].
    split_and!; [done| |done]. split; [done|]. by intros ?.
  - intros g2 (?&?&?). cbn. apply good_try_terminate; eauto using kept_can_term.
Qed.

Lemma uncount_commit_ok k X g : 0 <= k -> base (k + 1) g -> mode0 X g ->
  let g' := set_wait_commit_cnt (rkcg_wait_commit_cnt g - 1) g in base k g' /\ mode0 X g' /\ kept g g'.
Proof.
  intros Hk [] []. pose proof (commits_nonneg g). split_and!; try done; split; unfold commits in *; gs; try done; try lia.
  intros Ht. destruct (b_term0 Ht) as (?&?&?&?). lia.
Qed.

Definition silent_none (err : Z) (version : option Z) (c : commit) : Prop := err = ERR__NO_OFFSET /\ version = None /\ oc_silent_empty c = true.

Lemma op_handle_OffsetCommit_ok cf en k X g err version c resp :
  base (k + 1) g -> mode X g -> 0 <= k -> err <> ERR__IN_PROGRESS -> broker_errors resp ->
  can_term X g \/ silent_none err version c ->
  safe (rd_kafka_cgrp_op_handle_OffsetCommit cf en g err version c resp) (good k X g).
Proof.
  intros Hb Hm Hk He Hr Hx. unfold rd_kafka_cgrp_op_handle_OffsetCommit. set (outdated := match version with Some _ => _ | None => _ end).
  set (err1 := if outdated then ERR__DESTROY else err).
  assert (err1 <> ERR__IN_PROGRESS /\ (silent_none err version c -> err1 = err)) as [He1 Hs].
  { unfold err1. destruct outdated eqn:Eo; [|done]. split; [done|]. intros (_&->&_). done. }
  clearbody err1 outdated.
  eapply safe_bind; [apply (handle_OffsetCommit_ok en k X); done|]. intros [[err2 failed] g1].
  intros [[-> Hg]|(Hne & Q & Hv)]; [done|]. apply Z.eqb_neq in Hne. rewrite Hne.
  pose proof (quiet_base _ _ _ Q Hb) as Hb1. pose proof (quiet_mode _ _ _ Q Hm) as Hm1. pose proof (quiet_kept _ _ Q) as Hk1.
  assert (can_term X g1 \/ silent_none err2 version c) as Hx1.
  { destruct Hx as [Hx|Hx]; [eauto using kept_can_term|]. right. specialize (Hs Hx). destruct Hx as (Hn&?&?). rewrite Hv; try done; rewrite Hs; [done|]. by rewrite Hn. }
  match goal with |- context [let '(_, _) := ?x in _] => destruct x as [deferred g2] eqn:Ed end.
  assert (if deferred then good k X g1 g2 else g2 = g1) as Hd.
  { destruct ((err2 =? ERR_NOT_COORDINATOR_FOR_GROUP) || _); [|by simplify_eq]. pose proof (defer_ok cf k X g1 c Hb1 Hm1) as Hd. rewrite Ed in Hd. cbn in Hd. destruct deferred; [done|]. naive_solver. }
  destruct deferred; [destruct Hd as (?&?&?); split_and!; eauto using kept_trans|]. subst g2. clear Ed.
  assert (rkcg_wait_commit_cnt g1 > 0) as Hc.
  { rewrite (b_commits _ _ Hb1). pose proof (commits_nonneg g1). lia. }
  destruct (Z.gtb_spec (rkcg_wait_commit_cnt g1) 0); [|lia]. cbv zeta.
  destruct (uncount_commit_ok k X g1 Hk Hb1 (proj1 Hm1)) as (Hb2 & Hm2 & Hk2).
  set (g2 := set_wait_commit_cnt _ g1) in *. clearbody g2.
  eapply (safe_bind _ _ (fun g => base k g /\ mode0 X g /\ kept g2 g)).
  { destruct (rkcg_assignment g2) as [a|] eqn:Ea; [|done]. case_match eqn:Ef; [|done]. bool_hyps. unfold CAN_FETCH_START in *.
    case_bool_decide as Ej; [|done]. assert (X = ∅) as -> by (eapply js_not_waiting; [done|congruence]).
    eapply safe_mono; [apply (fetch_start_ok cf k g2 a false a); try done|].
    - split; [done|]. unfold waits. by rewrite Ej.
    - intros g3 (?&[? ?]&?). done. }
  intros g3 (Hb3&Hm3&Hk3). assert (kept g g3) as Hk4 by eauto using kept_trans.
  case_match eqn:Es; [eapply safe_good_kept, check_unassign_done_ok; done|].
  assert (can_term X g3) as Hx3.
  { destruct Hx1 as [Hx1|(He2&_&Hs2)]; [eauto using kept_can_term|]. rewrite He2, Hs2 in Es. done. }
  set (g4 := if oc_reply c then _ else _). assert (quiet g3 g4 /\ rkcg_join_state g4 = rkcg_join_state g3) as [Q4 Hj4].
  { unfold g4. split; [eapply quiet_trans; apply quiet_if_emit|]. by destruct (oc_reply c), (negb _ && _). }
  clearbody g4.
  eapply safe_good_kept; [|apply commit_done_ok; eauto using quiet_base, quiet_mode0, kept_can_term, quiet_kept].
  eauto using kept_trans, quiet_kept.
Qed.

(** A commit that starts: counted, and handled at once, put aside or sent. *)
Lemma offsets_commit_ok cf en k X g c set_offsets v :
  base (if oc_reprocess c then k + 1 else k) g -> mode0 X g -> 0 <= k -> g_state g <> STATE_TERM ->
  can_term X g \/ (oc_silent_empty c = true /\ qu_wait_coord_on (rkcg_queues g) = true /\ oc_ts_timeout c = 0) ->
  safe (rd_kafka_cgrp_offsets_commit cf en g c set_offsets v) (good k X g).
Proof.
  intros Hb Hm Hk Ht Hx. unfold rd_kafka_cgrp_offsets_commit. cbv zeta. set (c' := mk_commit _ _ _ _ _ _).
  set (g1 := if oc_reprocess c' then g else _).
  assert (base (k + 1) g1 /\ mode0 X g1 /\ kept g g1 /\ qu_wait_coord_on (rkcg_queues g1) = qu_wait_coord_on (rkcg_queues g)) as (Hb1 & Hm0 & Hk1 & Hq).
  { unfold g1, c'. cbn [oc_reprocess]. destruct (oc_reprocess c); [done|]. split_and!; try done.
    - destruct Hb. split; unfold commits in *; gs; try done; lia.
    - destruct Hm. by split. }
  clearbody g1. assert (mode X g1) as Hm1.
  { split; [done|]. intros _. right. left. rewrite (b_commits _ _ Hb1). pose proof (commits_nonneg g1). lia. }
 match goal with |- context [if ?z =? 0 then _ else _] => destruct (z =? 0) end.
  - eapply safe_good_kept; [done|]. apply op_handle_OffsetCommit_ok; try done; [by constructor|].
    destruct Hx as [|(?&_)]; [left; eauto using kept_can_term|]. by right.
  - destruct (negb _ || _).
    + pose proof (defer_ok cf k X g1 c' Hb1 Hm1) as Hd. destruct (rd_kafka_cgrp_defer_offset_commit cf g1 c') as [[] g2]; cbn in Hd.
      * destruct Hd as (?&?&?). split_and!; eauto using kept_trans.
      * destruct Hd as [-> Hd]. eapply safe_good_kept; [done|]. apply op_handle_OffsetCommit_ok; try done; [by constructor|].
        left. destruct Hx as [|(?&Hw&Hts)]; [eauto using kept_can_term|]. destruct Hd; congruence.
    + destruct (send_commit_ok k X g1 c' v) as (?&?&?); done.
Qed.

(** ** Assignment *)

Lemma foldl_stop l : forall g,
  exists o, foldl stop_partition g l =
    set_out o (set_wait_unassign_cnt (g_wait_unassign_cnt g + zlen (filter (fun t => t ∈ g_assigned g) l.*1))
      (set_stops (g_stops g ++ filter (fun t => t ∈ g_assigned g) l.*1) g)).
Proof.
  induction l as [|[t offset] l IH]; intros g.
  - exists (qu_out (rkcg_queues g)). cbn [foldl fmap list_fmap]. rewrite filter_nil, app_nil_r, Z.add_0_r.
    destruct g as [? ? ? ? ? ? ? [] [] ?]. done.
  - cbn [foldl fmap list_fmap fst]. rewrite filter_cons. unfold stop_partition at 2. cbn [fst]. case_bool_decide as E.
    + rewrite decide_True by done. match goal with |- context [foldl _ ?x l] => destruct (IH x) as (o & ->) end. exists o. gs.
      rewrite <- app_assoc. cbn [length app].
      match goal with |- context [?a + 1 + Z.of_nat ?n] => replace (a + 1 + Z.of_nat n) with (a + Z.of_nat (S n)) by lia end. done.
    + rewrite decide_False by done. apply IH.
Qed.

(** What [rd_kafka_cgrp_unassign] starts from: the join state does not matter. *)
Record ready g : Prop := mk_ready {
  r_base : base 0 g;
  r_set : g_assigned g = list_to_set (pending g) \/ (pending g = [] /\ g_assigned g = list_to_set (keys (rkcg_assignment g)));
  r_apart : forall t, t ∈ keys (rkcg_assignment g) -> t ∉ pending g }.

(** The partitions of the removed assignment that are fetched are told to stop. *)
Lemma stop_ok cf X g (old : partitions) :
  base 0 g -> mode0 X g -> rkcg_assignment g = None -> NoDup old.*1 ->
  (forall t, t ∈ old.*1 -> t ∉ pending g) -> (forall t, t ∈ X -> t ∈ old.*1) ->
  let g' := foldl stop_partition g old in base 0 g' /\ mode0 ∅ g' /\ rkcg_assignment g' = None /\ f_term g' = f_term g.
Proof.
  intros Hb Hm Ha Hnd Hap HX. cbv zeta. destruct (foldl_stop old g) as [o ->].
  set (F := filter _ old.*1). assert (list_to_set F = X) as HF.
  { apply leibniz_equiv. intros t. unfold F. rewrite elem_of_list_to_set, list_elem_of_filter. split.
    - intros [HS Ht]. destruct (decide (rkcg_join_state g = JOIN_WAIT_UNASSIGN)) as [E|E].
      + destruct Hm as [Hjs]. unfold js_ok in Hjs. rewrite E in Hjs. rewrite Hjs in HS. specialize (Hap _ Ht). set_solver.
      + exfalso. destruct Hm as [Hjs]. unfold js_ok in Hjs. rewrite Ha in Hjs. destruct (rkcg_join_state g); try done; destruct_and?; set_solver.
    - intros Ht. destruct (m_X _ _ Hm) as [->|[E _]]; [set_solver|]. destruct Hm as [Hjs]. unfold js_ok in Hjs. rewrite E in Hjs. set_solver. }
  assert (NoDup F) as HndF by (by apply NoDup_filter).
  assert (forall t, t ∈ F -> t ∉ pending g) as HapF. { intros t Ht. apply Hap. by apply list_elem_of_filter in Ht as [_ ?]. }
  assert (g_stops g ++ F ++ omap stop_reply (g_ops g) ≡ₚ pending g ++ F) as Hp by (unfold pending; rewrite <- app_assoc; f_equiv; apply Permutation_app_comm).
  assert (X = ∅ -> F = []) as HF0. { intros ->. destruct F as [|t F']; [done|]. cbn in HF. set_solver. }
  split_and!; [| |done..].
  - destruct Hb. split; unfold pending, commits in *; gs; rewrite <- ?app_assoc; try done.
    + rewrite b_stops0, !length_app. lia.
    + rewrite Hp. apply NoDup_app. split_and!; try done. intros t H1 H2. by apply (HapF t).
    + intros Ht. specialize (HF0 (m_XT _ _ Hm Ht)). rewrite HF0. cbn. auto.
  - destruct Hm. split; unfold js_ok, pending in *; gs; rewrite <- ?app_assoc; try done; try by left.
    + assert (F = [] \/ rkcg_join_state g = JOIN_WAIT_UNASSIGN) as [HF'|HF']. { destruct m_X0 as [|[]]; [left; auto|by right]. }
      * rewrite HF' in *. cbn [app]. destruct (rkcg_join_state g); try done. rewrite m_js0. set_solver.
      * rewrite HF' in *. rewrite m_js0, <- HF, !list_to_set_app_L. set_solver.
Qed.

Definition closing_ok g : Prop :=
  rkcg_assignment g = None \/ f_term g = false \/ qu_wait_coord_on (rkcg_queues g) = true \/ pt_toppars (rkcg_parts g) <> [] \/ g_assigned g = ∅.

Definition unassigned g0 g : Prop := inv g /\ rkcg_assignment g = None /\ f_term g = f_term g0.

Lemma unassign_some_ok g old :
  ready g -> rkcg_assignment g = Some old ->
  let g1 := version_new_barrier (set_assignment None (clear_flag F_WAIT_UNASSIGN (set_join_state JOIN_WAIT_UNASSIGN g))) in
  exists X, base 0 g1 /\ mode0 X g1 /\ (forall t, t ∈ X -> t ∈ old.*1) /\ g_state g1 <> STATE_TERM /\
    (X = ∅ \/ (g_assigned g = X /\ pending g = [])).
Proof.
  intros [Hb Hset Hap] Ha g1. rewrite Ha in *.
  assert (g_state g <> STATE_TERM) as Ht by (intros Ht; destruct (b_term _ _ Hb Ht) as (?&?&?&?); congruence).
  assert (base 0 g1) as Hb1.
  { destruct Hb. unfold g1. split; unfold pending, commits in *; gs; rewrite ?term_ldiff, ?Ha in *; try done; try lia.
    - by apply NoDup_nil.
    - cbn -[flag_set F_TERMINATE]. by rewrite andb_true_r.
    - eapply Forall_impl; [exact b_fetch0|]. intros [] Hq; try done. cbn in *. destruct Hq. split; [lia|]. intros. lia. }
  assert (forall X, X ## list_to_set (pending g) -> g_assigned g = list_to_set (pending g) ∪ X -> mode0 X g1) as Hmode.
  { intros X HX HS. unfold g1. split; unfold js_ok; gs; rewrite ?wu_ldiff; cbn -[flag_set F_WAIT_UNASSIGN]; rewrite ?andb_false_r; try done; auto. }
  destruct Hset as [HS|[HP HS]].
  - exists ∅. split_and!; [done|apply Hmode; set_solver|set_solver|done|by left].
  - exists (list_to_set old.*1). split_and!; [done|apply Hmode; rewrite HP; set_solver|set_solver|done|by right].
Qed.

Lemma unassign_ok cf en g : ready g -> closing_ok g \/ en_no_consumer_close en = true -> safe (rd_kafka_cgrp_unassign cf en g) (unassigned g).
Proof.
  intros Hr Hc. unfold rd_kafka_cgrp_unassign. cbv zeta.
  change (rkcg_assignment (clear_flag F_WAIT_UNASSIGN (set_join_state JOIN_WAIT_UNASSIGN g))) with (rkcg_assignment g).
  assert (forall g' k, kept g g' -> rkcg_assignment g = None -> good k ∅ g' g' -> k = 0 -> unassigned g g').
  { intros g' k (Ha&Hf&_) Hn (?&?&?) ->. by rewrite Hn in Ha. }
  destruct (rkcg_assignment g) as [old|] eqn:Ha.
  - destruct (unassign_some_ok g old Hr Ha) as (X & Hb & Hm & HX & Ht & HX').
    set (g1 := version_new_barrier _) in *. assert (kept (set_assignment None g) g1) as Hk1.
    { unfold kept, g1. gs. rewrite term_ldiff. cbn -[flag_set F_TERMINATE]. by rewrite andb_true_r. }
    assert (can_term X g1 \/ qu_wait_coord_on (rkcg_queues g1) = true \/ en_no_consumer_close en = true) as Hx.
    { destruct Hk1 as (_&Hf&Htp&_). unfold can_term. rewrite Hf, Htp. unfold g1. gs. unfold closing_ok in Hc. destruct Hc as [[|[|[|[|]]]]|]; auto; [congruence|].
      left. left. destruct HX' as [|[]]; congruence. }
    clearbody g1. eapply (safe_bind _ _ (fun g2 => base 0 g2 /\ mode0 X g2 /\ kept g1 g2)).
    + destruct (cf_offset_broker cf && _ && _) eqn:Eb; [|done]. unfold rd_kafka_cgrp_assigned_offsets_commit.
      eapply safe_mono; [apply (offsets_commit_ok cf en 0 X); try done|]; [|by intros ? (?&[? ?]&?)].
      bool_hyps. destruct Hx as [|[|]]; [by left|by right|congruence].
    + intros g2 (Hb2 & Hm2 & Hk2). cbv zeta. pose proof (kept_trans _ _ _ Hk1 Hk2) as (Ha2 & Hf2 & _ & Hp2).
      change (pending (set_assignment None g)) with (pending g) in Hp2.
      destruct (stop_ok cf X g2 old) as (Hb3 & Hm3 & Ha3 & Hf3); try done.
      * pose proof (b_keys _ _ (r_base _ Hr)) as Hk. by rewrite Ha in Hk.
      * intros t Ht'. rewrite Hp2. apply (r_apart _ Hr). by rewrite Ha.
      * eapply safe_mono; [by apply check_unassign_done_ok|]. intros g4 (Hb4 & Hm4 & Ha4 & Hf4 & _).
        split; [by split|]. split; [congruence|]. rewrite Hf4, Hf3, Hf2. done.
  - set (g1 := clear_flag _ _). assert (kept g g1) as Hk1.
    { unfold kept, g1. gs. rewrite term_ldiff. cbn -[flag_set F_TERMINATE]. by rewrite andb_true_r. }
    destruct Hr as [Hb Hset Hap]. assert (base 0 g1) as Hb1.
    { destruct Hb. unfold g1. split; unfold pending, commits in *; gs; rewrite ?term_ldiff; cbn -[flag_set F_TERMINATE Z.of_nat]; rewrite ?andb_true_r; auto. }
    assert (mode0 ∅ g1) as Hm1.
    { unfold g1. split; unfold js_ok; gs; rewrite ?wu_ldiff; cbn -[flag_set F_WAIT_UNASSIGN list_to_set]; rewrite ?andb_false_r; try done; auto.
      rewrite union_empty_r_L. rewrite Ha in Hset. transitivity (list_to_set (pending g) : gset toppar); [|done].
      destruct Hset as [|[HP HS]]; [done|]. by rewrite HS, HP. }
    eapply safe_mono; [by apply check_unassign_done_ok|]. intros g2 (?&?&Hk2). eapply H; [eauto using kept_trans|done| |done]. done.
Qed.

(** ** Assigning and revoking *)

Lemma inv_ready g : inv g -> (forall t, t ∈ keys (rkcg_assignment g) -> t ∉ pending g) -> ready g.
Proof.
  intros [Hb [[Hjs _ _ _ _ _] _]] Hap. split; [done| |done]. unfold js_ok in Hjs. cbv zeta in Hjs. rewrite ?union_empty_r_L in Hjs.
  destruct (rkcg_join_state g); try (by left); destruct_and?; try tauto.
  all: left; match goal with H : pending _ = [], H' : g_assigned _ = ∅ |- _ => by rewrite H, H' end.
Qed.

Definition apart g : Prop := forall t, t ∈ keys (rkcg_assignment g) -> t ∉ pending g.

Lemma inv_version g : inv g -> inv (version_new_barrier g).
Proof. intros []. split; auto using base_version, mode_version. Qed.

(** An assignment is set where there is none. *)
Lemma set_assignment_ok g a :
  inv g -> rkcg_assignment g = None -> f_term g = false -> NoDup a.*1 -> rkcg_join_state g = JOIN_WAIT_UNASSIGN ->
  inv (set_assignment (Some a) g).
Proof.
  intros [Hb [Hm Hw]] Ha Hf Hnd Hj. split.
  - destruct Hb. split; unfold pending, commits in *; gs; try done.
    + eapply Forall_impl; [exact b_fetch0|]. intros [] Hq; try done. cbn in *. destruct Hq as [? Hq]. split; [done|].
      intros Hv. destruct (Hq Hv) as (?&?&_). congruence.
    + intros Ht. destruct (b_term0 Ht). congruence.
  - destruct Hm. split; [split|]; unfold js_ok, waits, pending in *; gs; rewrite ?Hj in *; try done; auto.
    rewrite Hf. done.
Qed.

Lemma start_assignment_ok g a :
  inv g -> rkcg_assignment g = None -> f_term g = false -> NoDup (keys a) -> rkcg_join_state g <> JOIN_WAIT_UNASSIGN ->
  let g' := match a with Some a => set_assignment (Some a) g | None => g end in
  base 0 (set_join_state JOIN_ASSIGNED g') /\ mode ∅ (set_join_state JOIN_ASSIGNED g') /\
  rkcg_assignment g' = a /\ rkcg_join_state g' = rkcg_join_state g.
Proof.
  intros [Hb [Hm Hw]] Ha Hf Hnd Hj. cbv zeta.
  assert (pending g = [] /\ g_assigned g = ∅) as [HP HS].
  { destruct Hm as [Hjs]. unfold js_ok in Hjs. rewrite Ha in Hjs. destruct (rkcg_join_state g); try done; by destruct_and?. }
  split_and!.
  - destruct Hb. destruct a; split; unfold pending, commits in *; gs; try done.
    + eapply Forall_impl; [exact b_fetch0|]. intros [] Hq; try done. cbn in *. destruct Hq as [? Hq]. split; [done|].
      intros Hv. destruct (Hq Hv) as (?&?&_). congruence.
    + intros Ht. destruct (b_term0 Ht). congruence.
  - destruct Hm. assert (f_wu g = false) as Hwu.
    { destruct (f_wu g); [|done]. unfold js_ok in m_js0. rewrite (proj1 m_wu0 eq_refl), Ha in m_js0. by destruct m_js0. }
    destruct a; split; try split; unfold js_ok, waits, pending in *; gs; rewrite ?Hf, ?Hwu; try done; auto.
  - by destruct a.
  - by destruct a.
Qed.

Lemma assign_ok cf en g a :
  inv g -> apart g -> f_term g = false -> NoDup (keys a) -> safe (rd_kafka_cgrp_assign cf en g a) inv.
Proof.
  intros Hi Hap Hf Hnd. unfold rd_kafka_cgrp_assign. cbv zeta. pose proof (inv_version _ Hi) as Hi1.
  set (g1 := version_new_barrier g) in *. assert (apart g1 /\ f_term g1 = false) as [Hap1 Hf1] by done. clearbody g1.
  eapply (safe_bind _ _ (unassigned g1)).
  { destruct (rkcg_assignment g1) eqn:Ea; [|by split_and!]. apply unassign_ok; [by apply inv_ready|left; right; by left]. }
  intros g2 (Hi2 & Ha2 & Hf2). rewrite Hf1 in Hf2. cbv zeta.
  set (g3 := match a with Some _ => _ | None => g2 end). assert (rkcg_join_state g3 = rkcg_join_state g2) as Hj by (by unfold g3; destruct a).
  rewrite Hj. case_bool_decide as E.
  - cbn. unfold g3. destruct a; [|done]. by apply set_assignment_ok.
  - destruct (start_assignment_ok g2 a) as (Hb3 & Hm3 & Ha3 & _); try done. fold g3 in Hb3, Hm3, Ha3. clearbody g3.
    change (rkcg_assignment (set_join_state JOIN_ASSIGNED g3)) with (rkcg_assignment g3). rewrite Ha3.
    destruct a as [a|]; [|done]. eapply safe_mono; [by apply (fetch_start_ok cf 0 _ a false a)|]. by intros ? (?&?&_).
Qed.

(** The application is asked to revoke, or it is done at once. *)
Lemma revoke_ok cf en g :
  ready g -> closing_ok g \/ en_no_consumer_close en = true ->
  safe (revoke cf en g) (fun g' => inv g' /\ f_term g' = f_term g /\ apart g').
Proof.
  intros Hr Hc. unfold revoke, rd_kafka_rebalance_op. cbv zeta. change (ERR__REVOKE_PARTITIONS =? ERR__ASSIGN_PARTITIONS) with false. cbv iota.
  set (g1 := add_flag F_WAIT_UNASSIGN g). assert (f_term g1 = f_term g) as Hf by (unfold g1; gs; rewrite term_lor; apply orb_false_r).
  assert (base 0 g1) as Hb1.
  { destruct Hr as [[] _ _]. split; unfold pending, commits in *; rewrite ?Hf; done. }
  assert (ready g1) as Hr1 by (destruct Hr; by split). assert (closing_ok g1 \/ en_no_consumer_close en = true) as Hc1 by (unfold closing_ok; by rewrite Hf).
  assert (forall g', ready g' -> closing_ok g' \/ en_no_consumer_close en = true -> f_term g' = f_term g ->
    safe (rd_kafka_cgrp_unassign cf en g') (fun g' => inv g' /\ f_term g' = f_term g /\ apart g')) as Hu.
  { intros g' ? ? Hf'. eapply safe_mono; [by apply unassign_ok|]. intros g2 (?&Ha2&Hf2). split_and!; [done|congruence|]. unfold apart. rewrite Ha2. set_solver. }
  change (rkcg_assignment g1) with (rkcg_assignment g). destruct (rkcg_assignment g) as [a|] eqn:Ha; [|by apply Hu].
  destruct (negb _ || _); [by apply Hu|].
  assert (ready (set_join_state JOIN_WAIT_REVOKE_REBALANCE_CB g1)) as Hr2 by (destruct Hr1; by split; auto using base_js).
  destruct (cf_app_queue cf); [|by apply Hu].
  split_and!; [|done|exact (r_apart _ Hr2)]. eapply quiet_inv; [apply quiet_emit|]. split; [by apply base_js|].
  destruct Hr as [_ Hset _]. rewrite Ha in Hset.
  split; [split|]; unfold js_ok, waits; gs; try done; try (by left); try (by apply disjoint_empty_l).
  - change (pending _) with (pending g). unfold g1. gs. by rewrite Ha.
  - unfold g1. gs. rewrite wu_lor, orb_true_r. done.
Qed.

(** ** Joining *)

Lemma quiet_update_topics cf g t : quiet g (rd_kafka_cgrp_update_subscribed_topics cf g t).2.
Proof. unfold rd_kafka_cgrp_update_subscribed_topics. case_match; cbn; auto with cgrp. apply quiet_member. Qed.

Lemma quiet_update_check cf en g : quiet g (update_check cf en g).2.
Proof. unfold update_check. case_match; [auto with cgrp|]. apply quiet_update_topics. Qed.

Lemma quiet_join cf en g : quiet g (rd_kafka_cgrp_join cf en g).
Proof.
  unfold rd_kafka_cgrp_join. destruct (negb _ || _) eqn:E; [auto with cgrp|]. bool_hyps.
  assert (rkcg_join_state g = JOIN_INIT) as Hj by (by case_bool_decide).
  case_match; [auto with cgrp|]. set (g1 := if bool_decide _ then _ else g).
  assert (quiet g g1 /\ rkcg_join_state g1 = JOIN_INIT) as [Q Hj1].
  { unfold g1. destruct (bool_decide (mb_subscribed_topics _ = [])); [|split; auto with cgrp]. split; [apply quiet_update_check|].
    unfold update_check, rd_kafka_cgrp_update_subscribed_topics. by repeat case_match. }
  clearbody g1. cbv zeta. destruct (bool_decide (mb_subscribed_topics _ = [])); [done|]. eapply quiet_trans; [exact Q|].
  eapply quiet_trans; [|by apply quiet_send]. apply quiet_early; unfold early; auto.
Qed.

Definition inv_f (f : bool) g : Prop := inv g /\ f_term g = f.

Lemma quiet_inv_f f g g' : quiet g g' -> inv_f f g -> inv_f f g'.
Proof. intros Q [? ?]. split; [eauto using quiet_inv|]. destruct Q. congruence. Qed.

(** Without an assignment and without pending stops the join starts again. *)
Lemma init_ok g : inv g -> rkcg_assignment g = None -> pending g = [] -> inv (set_join_state JOIN_INIT g).
Proof.
  intros Hi Ha HP. pose proof (inv_ready g Hi) as Hr. rewrite Ha in Hr. destruct (Hr ltac:(set_solver)) as [_ Hset _].
  destruct Hi as [Hb [[] Hw]]. split; [by apply base_js|].
  assert (g_assigned g = ∅) as HS by (rewrite Ha, HP in Hset; by destruct Hset as [|[]]).
  assert (f_wu g = false) as Hwu.
  { destruct (f_wu g); [|done]. unfold js_ok in m_js0. rewrite (proj1 m_wu0 eq_refl), Ha in m_js0. by destruct m_js0. }
  split; [split|]; unfold js_ok, waits, pending in *; gs; rewrite ?Hwu; try done; auto.
Qed.

Lemma inv_closing g : inv g -> rkcg_join_state g <> JOIN_WAIT_REVOKE_REBALANCE_CB -> closing_ok g.
Proof. intros [_ [[] _]] Hj. unfold closing_ok. destruct (f_term g); [|auto]. destruct (m_term0 eq_refl); [done|by left]. Qed.

Lemma rejoin_ok cf en g :
  inv g -> apart g -> (rkcg_assignment g = None -> pending g = []) -> safe (rd_kafka_cgrp_rejoin cf en g) inv.
Proof.
  intros Hi Hap HP. unfold rd_kafka_cgrp_rejoin, rd_kafka_cgrp_group_leader_reset. set (g1 := set_leader None g).
  assert (quiet g g1) as Q by apply quiet_member. assert (inv g1) as Hi1 by (by apply (quiet_inv g)).
  cbv zeta. change (rkcg_assignment g1) with (rkcg_assignment g). destruct (rkcg_assignment g) eqn:Ha.
  - change (has_flag F_WAIT_UNASSIGN g1) with (f_wu g1). destruct (f_wu g1) eqn:Ew; [done|]. cbn [negb].
    eapply safe_mono; [apply revoke_ok; [apply inv_ready; done|left; apply inv_closing; [done|]]|by intros ? []].
    intros Hj. destruct Hi1 as [_ [[] _]]. apply m_wu0 in Hj. congruence.
  - cbn. apply (quiet_inv (set_join_state JOIN_INIT g1)); [apply quiet_join|]. apply init_ok; auto.
Qed.
