(* ===== verification/CgrpSafe.v ===== *)
(** * The consumer group: every step keeps the invariant

    The functions that serve operations, time and responses; the discipline of
    the surroundings under which no assertion of the group fails; runs. *)
From Stdlib Require Import ZArith Lia.
From stdpp Require Import base numbers list gmap.
From S2P Require Import Prelude.
From S2P Require Import CgrpState.
From S2P Require Import Cgrp.
From S2P Require Import CgrpInv.

Implicit Types (cf : conf) (en : env) (g : cgrp) (X : gset toppar).

(** ** Subscribing and terminating *)

(** Quiet, and in the same join state. *)
Definition still g g' : Prop :=
  quiet g g' /\ rkcg_join_state g' = rkcg_join_state g /\ qu_wait_coord_on (rkcg_queues g') = qu_wait_coord_on (rkcg_queues g).

Lemma still_trans g1 g2 g3 : still g1 g2 -> still g2 g3 -> still g1 g3.
Proof. intros (?&?&?) (?&?&?). split_and!; [eauto using quiet_trans|congruence..]. Qed.

Lemma still_ready g g' : still g g' -> ready g -> ready g'.
Proof.
  intros (Q&_&_) [Hb ? ?]. pose proof (quiet_pending _ _ Q) as HP. pose proof (quiet_base _ _ _ Q Hb). destruct Q.
  split; [done|by rewrite HP, q_asg, q_assigned|]. intros t. rewrite q_asg, HP. auto.
Qed.

Lemma still_closing g g' : still g g' -> closing_ok g -> closing_ok g'.
Proof. intros (Q&_&Hw). unfold closing_ok. destruct Q. by rewrite Hw, q_asg, q_fterm, q_toppars, q_assigned. Qed.

Lemma unsubscribe_ok cf en g leave_group :
  ready g -> (WAIT_REBALANCE_CB g = false -> closing_ok g \/ en_no_consumer_close en = true) -> (WAIT_REBALANCE_CB g = true -> inv g) ->
  (f_wu g = true -> rkcg_join_state g = JOIN_WAIT_REVOKE_REBALANCE_CB) ->
  safe (rd_kafka_cgrp_unsubscribe cf en g leave_group) (fun g' => inv g' /\ f_term g' = f_term g /\ apart g').
Proof.
  intros Hr Hc Hcb Hwu. unfold rd_kafka_cgrp_unsubscribe, rd_kafka_cgrp_group_leader_reset. cbv zeta.
  match goal with |- context [if negb (WAIT_REBALANCE_CB ?x) && _ then _ else _] => set (g1 := x) end.
  assert (still g g1) as St.
  { unfold g1. eapply (still_trans _ (set_leader None (rd_kafka_cgrp_update_subscribed_topics cf (set_subscription None g) None).2)).
    - split_and!; [|by unfold rd_kafka_cgrp_update_subscribed_topics; case_match..].
      eapply quiet_trans; [apply quiet_member|]. eapply quiet_trans; [apply quiet_update_topics|]. apply quiet_member.
    - destruct leave_group; split_and!; auto with cgrp. by apply quiet_add_flag. }
  clearbody g1. pose proof (proj1 St) as Q. pose proof (proj1 (proj2 St)) as Hj.
  eapply (safe_bind _ _ (fun g' => inv g' /\ f_term g' = f_term g /\ apart g')).
  - assert (WAIT_REBALANCE_CB g1 = WAIT_REBALANCE_CB g) as Hw by (unfold WAIT_REBALANCE_CB; by rewrite Hj). rewrite Hw.
    change (has_flag F_WAIT_UNASSIGN g1) with (f_wu g1). rewrite (q_wu _ _ Q).
    destruct (negb _ && _) eqn:E.
    + bool_hyps. rewrite <- (q_fterm _ _ Q). apply revoke_ok; [eauto using still_ready|]. destruct Hc; eauto using still_closing.
    + assert (WAIT_REBALANCE_CB g = true) as Hcb'.
      { destruct (WAIT_REBALANCE_CB g) eqn:Ecb; [done|]. cbn in E. apply negb_false_iff, Hwu in E. unfold WAIT_REBALANCE_CB in Ecb. by rewrite E in Ecb. }
      split_and!; [eauto using quiet_inv|by apply q_fterm|]. exact (r_apart g1 (still_ready _ _ St Hr)).
  - intros g2 (?&?&?). cbn [safe]. assert (quiet g2 (clear_flag (Z.lor F_SUBSCRIPTION F_WILDCARD_SUBSCRIPTION) g2)) as Q2 by (by apply quiet_clear_flag).
    split_and!; [eauto using quiet_inv|by rewrite (q_fterm _ _ Q2)|done].
Qed.

Lemma inv_unsubscribe cf en g leave_group :
  inv g -> apart g -> safe (rd_kafka_cgrp_unsubscribe cf en g leave_group) (fun g' => inv g' /\ f_term g' = f_term g /\ apart g').
Proof.
  intros Hi Hap. apply unsubscribe_ok; [by apply inv_ready| |done|].
  - intros Hcb. left. apply inv_closing; [done|]. intros E. unfold WAIT_REBALANCE_CB in Hcb. by rewrite E in Hcb.
  - destruct Hi as [_ [[] _]]. apply m_wu.
Qed.

Lemma subscribe_ok cf en g topics : inv g -> apart g -> safe (rd_kafka_cgrp_subscribe cf en g topics) (fun r => inv r.2).
Proof.
  intros Hi Hap. unfold rd_kafka_cgrp_subscribe. destruct (cf_assignor_cnt cf =? 0); [done|].
  eapply safe_bind; [by apply inv_unsubscribe|]. intros g1 (Hi1&_&_). destruct topics as [ts|]; [|done]. cbv zeta.
  eapply quiet_inv; [apply quiet_join|]. eapply quiet_inv; [apply quiet_member|].
  destruct (existsb is_regex ts).
  - eapply quiet_inv; [by apply quiet_add_flag|]. eapply quiet_inv; [by apply quiet_add_flag|done].
  - eapply quiet_inv; [by apply quiet_add_flag|done].
Qed.

Lemma try_terminate_inv cf g : inv g -> inv (try_terminate cf g).
Proof. intros [? ?]. destruct (try_terminate_ok cf 0 ∅ g) as (?&?&_); [done..|by left|done]. Qed.

(** The group is told to terminate. *)
Lemma add_terminate_ok g :
  inv g -> apart g -> f_term g = false ->
  let g1 := set_reply true (set_ck_terminate (g_now g) (add_flag F_TERMINATE g)) in
  f_term g1 = true /\ ready g1 /\ closing_ok g1 /\ f_wu g1 = f_wu g /\ (WAIT_REBALANCE_CB g1 = true -> inv g1).
Proof.
  intros Hi Hap Hf g1. assert (f_term g1 = true) as Hf1 by (unfold g1; gs; rewrite term_lor; apply orb_true_r).
  assert (f_wu g1 = f_wu g) as Hw1 by (unfold g1; gs; rewrite wu_lor; apply orb_false_r).
  pose proof (inv_ready _ Hi Hap) as [Hb Hset _]. assert (base 0 g1) as Hb1.
  { destruct Hb. split; unfold pending, commits in *; rewrite ?Hf1; try done. intros Ht. destruct (b_term Ht). congruence. }
  split_and!; try done.
  - unfold closing_ok. right. right. left. apply (b_on _ _ Hb). done.
  - intros Hcb. split; [done|]. destruct Hi as [_ [[] Hw]].
    split; [|done]. split; try done; [by rewrite Hw1|]. intros _.
    unfold WAIT_REBALANCE_CB in Hcb. change (rkcg_join_state g1) with (rkcg_join_state g) in *. unfold js_ok in m_js.
    destruct (rkcg_join_state g); try done; [right|by left]. apply m_js.
Qed.

Lemma terminate0_ok cf en g : inv g -> apart g -> safe (rd_kafka_cgrp_terminate0 cf en g) inv.
Proof.
  intros Hi Hap. unfold rd_kafka_cgrp_terminate0. change (has_flag F_TERMINATE g) with (f_term g).
  destruct (f_term g) eqn:Hf; [rewrite orb_true_r; cbn; eauto using quiet_inv with cgrp|].
  destruct (_ || _); [cbn; eauto using quiet_inv with cgrp|]. cbv zeta.
  destruct (add_terminate_ok g Hi Hap Hf) as (Hf1 & Hr1 & Hc1 & Hw1 & Hcb1). cbv zeta in *. set (g1 := set_reply true _) in *.
  assert (f_wu g1 = true -> rkcg_join_state g1 = JOIN_WAIT_REVOKE_REBALANCE_CB) as Hwu1.
  { rewrite Hw1. destruct Hi as [_ [[] _]]. apply m_wu. }
  clearbody g1.
  eapply (safe_bind _ _ (fun g2 => ready g2 /\ (WAIT_REBALANCE_CB g2 || f_wu g2 = true -> inv g2) /\ (WAIT_REBALANCE_CB g2 = false -> closing_ok g2))).
  - case_match.
    + eapply safe_mono; [apply unsubscribe_ok; auto|]. intros g2 (Hi2&_&Hap2). split_and!; [by apply inv_ready|done|].
      intros Hcb. apply inv_closing; [done|]. intros E. unfold WAIT_REBALANCE_CB in Hcb. by rewrite E in Hcb.
    + split_and!; try done. intros Hcb. apply Hcb1. destruct (WAIT_REBALANCE_CB g1) eqn:E; [done|]. cbn in Hcb.
      apply Hwu1 in Hcb. unfold WAIT_REBALANCE_CB in E. by rewrite Hcb in E.
  - intros g2 (Hr2 & Hi2 & Hc2). eapply (safe_bind _ _ inv); [|intros g3 Hi3; cbn; by apply try_terminate_inv].
    change (has_flag F_WAIT_UNASSIGN g2) with (f_wu g2). destruct (_ || en_no_consumer_close en) eqn:E.
    + eapply safe_mono; [apply unassign_ok; [done|]|by intros ? []].
      apply orb_true_iff in E as [E|E]; [|by right]. left. bool_hyps. auto.
    + apply Hi2. bool_hyps. destruct (WAIT_REBALANCE_CB g2), (f_wu g2); done.
Qed.

(** ** Heartbeats *)

Lemma pending_set g : inv g -> pending g <> [] -> g_assigned g = list_to_set (pending g) /\
  (rkcg_join_state g = JOIN_WAIT_UNASSIGN \/ rkcg_join_state g = JOIN_WAIT_REVOKE_REBALANCE_CB).
Proof.
  intros [_ [[Hjs _ _ _ _ _] _]] HP. unfold js_ok in Hjs. rewrite ?union_empty_r_L in Hjs.
  destruct (rkcg_join_state g); try (by destruct_and?); [by auto|]. destruct Hjs as [_ [?|[? _]]]; [by auto|done].
Qed.

Lemma no_pending_apart g : inv g -> rkcg_join_state g <> JOIN_WAIT_UNASSIGN -> rkcg_join_state g <> JOIN_WAIT_REVOKE_REBALANCE_CB -> apart g.
Proof.
  intros Hi H1 H2 t _. destruct (pending g) as [|u l] eqn:E; [set_solver|].
  destruct (pending_set g Hi) as [_ [?|?]]; [by rewrite E|done..].
Qed.

Lemma heartbeat_error_ok cf en g err : inv g -> safe (rd_kafka_cgrp_handle_heartbeat_error cf en g err) inv.
Proof.
  intros Hi. unfold rd_kafka_cgrp_handle_heartbeat_error. destruct (join_num _ <=? _) eqn:E1; [done|].
  destruct (err =? ERR__DESTROY); [done|]. case_match; [cbn; eauto using quiet_inv with cgrp|]. cbv zeta.
  set (g1 := if err =? ERR_UNKNOWN_MEMBER_ID then _ else g). assert (quiet g g1 /\ rkcg_join_state g1 = rkcg_join_state g) as [Q Hj].
  { unfold g1. case_match; [|split; auto with cgrp]. split; [apply quiet_member|done]. }
  clearbody g1. pose proof (quiet_inv _ _ Q Hi) as Hi1. destruct (_ || _) eqn:E2; [done|].
  change (has_flag F_WAIT_UNASSIGN _) with (f_wu g1).
  apply orb_false_iff in E2 as [E2 E3]. assert (rkcg_join_state g1 <> JOIN_WAIT_REVOKE_REBALANCE_CB) as Hr by (by case_bool_decide).
  destruct (f_wu g1) eqn:Ew; [destruct Hi1 as [_ [[] _]]; by apply m_wu in Ew|]. cbn [negb].
  assert (apart g1) as Hap by (apply no_pending_apart; try done; intros Hw; by rewrite Hw in E2).
  eapply safe_mono; [apply revoke_ok|by intros ? []].
  - destruct (inv_ready _ Hi1 Hap). by split; [apply base_js|..].
  - left. apply (inv_closing _ Hi1 Hr).
Qed.

(** ** Operations *)

Lemma quiet_pop g o l : g_ops g = o :: l -> stop_reply o = None -> is_reprocess o = false -> quiet g (set_ops l g).
Proof.
  intros E Hs Hr. split; unfold commits; gs; rewrite ?E; auto; cbn; rewrite ?Hs, ?Hr; auto. done.
Qed.

Lemma fetch_stop_reply_ok cf g t l : inv g -> g_ops g = OP_FETCH_STOP_REPLY t :: l -> safe (fetch_stop_reply cf (set_ops l g) t) inv.
Proof.
  intros Hi Hops. assert (pending g = g_stops g ++ t :: omap stop_reply l) as HP by (unfold pending; by rewrite Hops).
  destruct (pending_set g Hi) as [HS Hj]; [rewrite HP; by destruct (g_stops g)|].
  destruct Hi as [[] [[] Hw]]. rewrite HP in HS, b_nodup. apply NoDup_app in b_nodup as (Hn1 & Hn2 & [Hn3 Hn4]%NoDup_cons).
  set (P' := g_stops g ++ omap stop_reply l).
  assert (zlen (pending g) = zlen P' + 1) as Hlen by (rewrite HP; unfold P'; rewrite !length_app; cbn; lia).
  assert (t ∉ P') as HtP by (unfold P'; rewrite elem_of_app; intros [?|?]; [apply (Hn2 t); set_solver|done]).
  assert (g_assigned g = {[t]} ∪ list_to_set P') as HS' by (rewrite HS; unfold P'; rewrite !list_to_set_app_L; cbn; set_solver).
  assert (g_assigned g ∖ {[t]} = list_to_set P') as HD by (rewrite HS'; clear -HtP; set_solver).
  unfold fetch_stop_reply. gs.
  destruct (Z.gtb_spec (g_wait_unassign_cnt g) 0); [|lia]. rewrite bool_decide_eq_true_2 by (rewrite HS'; clear; set_solver).
  assert (size (g_assigned g) = S (size (list_to_set P' : gset toppar))) as Hsz.
  { rewrite HS', size_union, size_singleton; [done|]. clear -HtP. set_solver. }
  destruct (Z.gtb_spec (g_assigned_cnt g) 0); [|lia].
  match goal with |- context [safe (if _ then rd_kafka_cgrp_check_unassign_done _ ?x else _)] => set (g2 := x) end.
  assert (g_assigned g2 = list_to_set P') as HS2 by exact HD.
  assert (pending g2 = P') as HP2 by done.
  assert (base 0 g2) as Hb2.
  { split; rewrite ?HP2; unfold g2, commits in *; gs; rewrite ?Hops in *; cbn [count is_reprocess] in *; try done; try lia.
    - rewrite b_assigned, Hsz, HD. lia.
    - unfold P'. apply NoDup_app. split_and!; try done. intros x Hx1 Hx2. apply (Hn2 x); clear -Hx1 Hx2; set_solver.
    - intros Ht. destruct (b_term Ht) as (_&Hp&_). rewrite HP in Hp. by destruct (g_stops g).
    - intros Hf. by destruct (b_off Hf). }
  assert (mode0 ∅ g2) as Hm2.
  { split; rewrite ?HP2; try done; try (by apply disjoint_empty_l). unfold js_ok in *. change (rkcg_join_state g2) with (rkcg_join_state g). rewrite HP2, HS2.
    destruct Hj as [Hj|Hj]; rewrite Hj in *; [by rewrite union_empty_r_L|]. split; [apply m_js|by left]. }
  case_bool_decide as E.
  - eapply safe_mono; [by apply check_unassign_done_ok|]. by intros ? (?&?&_).
  - split; [done|]. split; [done|]. by intros ?.
Qed.

(** Commits whose time is over fail. *)
Lemma expire_ok cf en l : forall m, safe m (fun g => base (zlen l) g /\ mode ∅ g) ->
  safe (foldl (fun m c => let! g := m in rd_kafka_cgrp_op_handle_OffsetCommit cf en g ERR__WAIT_COORD None c []) m l) inv.
Proof.
  induction l as [|c l IH]; intros m Hm; [done|]. cbn [foldl]. apply IH. eapply safe_bind; [exact Hm|].
  intros g [Hb Hmo]. cbn [length] in Hb. replace (Z.of_nat (S (length l))) with (zlen l + 1) in Hb by lia.
  eapply safe_mono; [apply (op_handle_OffsetCommit_ok cf en (zlen l) ∅); try done; [lia|by constructor|left; by left]|]. by intros ? (?&?&_).
Qed.

Lemma timeout_scan_ok cf en g now : inv g -> safe (rd_kafka_cgrp_timeout_scan cf en g now) inv.
Proof.
  intros [Hb [[] Hw]]. unfold rd_kafka_cgrp_timeout_scan. cbv zeta. apply expire_ok. split; [|by split; [split|]].
  assert (forall l : list commit, zlen l = zlen (filter (fun c => timeout_check now c = false) l) + zlen (filter (fun c => timeout_check now c = true) l)) as Hl.
  { intros l. induction l as [|c l IH]; [done|]. rewrite !filter_cons. destruct (timeout_check now c); cbn [length]; repeat case_decide; cbn [length]; try done; lia. }
  destruct Hb. split; unfold commits, pending in *; gs; try done.
  - specialize (Hl (g_wait_coord g)). lia.
  - apply Forall_forall. intros c [_ Hc]%list_elem_of_filter. by eapply Forall_forall in b_deferred.
Qed.

(** What the surroundings must respect when the first operation is served. *)
Definition op_ok g (o : op) : Prop :=
  match o with
  | OP_PARTITION_JOIN t => t ∉ pt_toppars (rkcg_parts g)
  | OP_PARTITION_LEAVE t => t ∈ pt_toppars (rkcg_parts g)
  | OP_OFFSET_COMMIT c => oc_reprocess c = false -> g_state g <> STATE_TERM
  | OP_ASSIGN p => apart g /\ NoDup (keys p) /\ (f_term g = true -> closing_ok g)
  | OP_SUBSCRIBE _ | OP_TERMINATE => apart g
  | _ => True
  end.

Lemma base_pop_commit g c l : inv g -> g_ops g = OP_OFFSET_COMMIT c :: l -> oc_reprocess c = true -> base 1 (set_ops l g) /\ mode0 ∅ (set_ops l g).
Proof.
  intros [[] [[] Hw]] Ho Hr. assert (pending (set_ops l g) = pending g) as HP by (unfold pending; gs; by rewrite Ho).
  split.
  - split; rewrite ?HP; gs; try done.
    + unfold commits in *. gs. rewrite Ho in *. cbn [count is_reprocess] in *. rewrite Hr in *. lia.
    + intros Hf. by destruct (b_off Hf); rewrite Ho in *.
  - split; unfold js_ok in *; rewrite ?HP; done.
Qed.

Lemma commit_op_ok cf en g c l :
  inv g -> g_ops g = OP_OFFSET_COMMIT c :: l -> (oc_reprocess c = false -> g_state g <> STATE_TERM) ->
  safe (rd_kafka_cgrp_op_serve cf en (set_ops l g) (OP_OFFSET_COMMIT c)) inv.
Proof.
  intros Hi Ho Ht. cbn [rd_kafka_cgrp_op_serve].
  eapply safe_mono; [apply (offsets_commit_ok cf en 0 ∅)|by intros ? (?&?&_)]; try done; try (left; by left).
  - destruct (oc_reprocess c) eqn:Er; [by apply (base_pop_commit g c)|]. eapply quiet_base; [by eapply quiet_pop|apply Hi].
  - destruct (oc_reprocess c) eqn:Er; [by apply (base_pop_commit g c)|]. eapply quiet_mode; [by eapply quiet_pop|apply Hi].
  - destruct (oc_reprocess c) eqn:Er; [|by apply Ht]. intros Hs. destruct (base_pop_commit g c l Hi Ho Er) as [[] _].
    destruct (b_term Hs) as (_&_&Hc&_). pose proof (commits_nonneg (set_ops l g)). lia.
Qed.

Lemma quiet_toppars_inv g l : inv g -> inv (set_toppars l g).
Proof. intros [[] [[] Hw]]. split; [by split|]. by split; [split|]. Qed.


(** ** Offsets *)

Lemma set_first_keys t offset l : (set_first t offset l).*1 = l.*1.
Proof. induction l as [|x l IH]; [done|]. cbn. case_bool_decide as E; cbn; [by rewrite E|]. by rewrite IH. Qed.

Lemma offsets_fetched upd resp : forall offsets g,
  let r := foldl (offset_fetched upd) (offsets, g) resp in r.1.*1 = offsets.*1 /\ still g r.2.
Proof.
  induction resp as [|[[t o] e] resp IH]; intros offsets g; [split; [done|]; split_and!; auto with cgrp|].
  cbn [foldl]. unfold offset_fetched at 2 4. case_bool_decide; cbn [negb]; [|apply IH].
  set (g1 := if upd && _ then _ else g). assert (still g g1) as St.
  { unfold g1, set_committed. case_match; split_and!; auto with cgrp. }
  destruct (IH (set_first t (if o =? -1 then OFFSET_INVALID else o) offsets) g1) as [H1 H2]. split; [by rewrite H1, set_first_keys|eauto using still_trans].
Qed.

Lemma handle_OffsetFetch_spec en g err rq parsed resp offsets upd :
  let '(err', offsets', g') := rd_kafka_handle_OffsetFetch en g err rq parsed resp offsets upd in
  offsets'.*1 = offsets.*1 /\ exists g1, still g g1 /\ (g' = g1 \/ (g' = send rq g1 /\ err' = ERR__IN_PROGRESS)).
Proof.
  unfold rd_kafka_handle_OffsetFetch.
  match goal with |- context [let '(_, _) := if parsed then ?x else _ in _] => assert ((if parsed then x else (offsets, g)).1.*1 = offsets.*1 /\ still g (if parsed then x else (offsets, g)).2) as [Ho St] end.
  { destruct parsed; [|split; [done|]; split_and!; auto with cgrp].
    match goal with |- context [foldl _ (?o, _) _] => destruct (offsets_fetched upd resp o g) as [H1 H2] end.
    split; [|done]. etransitivity; [exact H1|]. clear. induction offsets as [|x l IH]; [done|]. cbn. by rewrite IH. }
  destruct (if parsed then _ else _) as [offsets1 g1]. cbn [fst snd] in *. set (actions := rd_kafka_err_action _ _ _). clearbody actions.
  set (g2 := if has_action ACTION_REFRESH actions then _ else _). assert (still g g2) as St2.
  { unfold g2. case_match; [|done]. eapply still_trans; [exact St|]. split_and!; auto with cgrp; unfold enq_op; by case_match. }
  clearbody g2. unfold rd_kafka_buf_retry. destruct (has_action ACTION_RETRY actions); [destruct (en_retry en)|]; (split; [done|]); exists g2; auto.
Qed.

Lemma send_fetch_ok k g l v : base k g -> fetch_ok (rkcg_version g) (rkcg_assignment g) (RQ_OffsetFetch l v) -> base k (send (RQ_OffsetFetch l v) g).
Proof.
  intros [] Hf. split; unfold pending, commits in *; gs; try done.
  - rewrite count_app. cbn. lia.
  - apply Forall_app. split; [done|]. by constructor.
Qed.

Lemma offsets_fetch_response_ok cf en g err reply parsed resp l v :
  inv g -> fetch_ok (rkcg_version g) (rkcg_assignment g) (RQ_OffsetFetch l v) ->
  safe (rd_kafka_cgrp_offsets_fetch_response cf en g err reply parsed resp l v) inv.
Proof.
  intros Hi Hf. unfold rd_kafka_cgrp_offsets_fetch_response. destruct (err =? ERR__DESTROY); [done|].
  destruct (negb (v =? 0) && (v <? rkcg_version g)) eqn:Ev; [done|].
  destruct Hf as [Hv Hf]. assert (v = rkcg_version g) as Hv'.
  { apply andb_false_iff in Ev as [Ev|Ev]; [apply negb_false_iff, Z.eqb_eq in Ev; lia|bool_hyps; lia]. }
  destruct (Hf Hv') as (a & Ha & Hl).
  assert (let '(err', l', g') := if reply then rd_kafka_handle_OffsetFetch en g err (RQ_OffsetFetch l v) parsed resp l true else (err, l, g) in
    l'.*1 = l.*1 /\ ((inv g' /\ rkcg_assignment g' = Some a) \/ (reply = true /\ inv g' /\ err' = ERR__IN_PROGRESS))) as Hr.
  { destruct reply; [|split; auto]. pose proof (handle_OffsetFetch_spec en g err (RQ_OffsetFetch l v) parsed resp l true) as Hs.
    destruct (rd_kafka_handle_OffsetFetch _ _ _ _ _ _ _ _) as [[err' l'] g']. destruct Hs as (? & g1 & (Q & _) & Hs). split; [done|].
    pose proof (quiet_inv _ _ Q Hi) as Hi1. destruct Hs as [->|[-> ->]].
    - left. split; [done|]. by rewrite (q_asg _ _ Q).
    - right. split_and!; try done. destruct Hi1 as [? [[] ?]]. split; [|by split; [split|]].
      apply send_fetch_ok; [done|]. rewrite (q_version _ _ Q), (q_asg _ _ Q). done. }
  destruct (if reply then _ else _) as [[err' l'] g']. destruct Hr as [Hl' Hr].
  destruct (reply && (err' =? ERR__IN_PROGRESS)) eqn:Er; [by destruct Hr as [[]|(_&?&_)]|].
  destruct Hr as [[Hi' Ha']|(->&_&->)]; [|done].
  destruct (negb (err' =? 0)); [cbn; case_match; eauto using quiet_inv with cgrp|].
  unfold CAN_FETCH_START. case_bool_decide as Ej; [|done]. destruct Hi' as [? ?].
  eapply safe_mono; [apply (fetch_start_ok cf 0 g' l' true a); try done; congruence|]. by intros ? (?&?&_).
Qed.

Lemma op_OffsetFetch_ok en g err reply parsed resp p : inv g -> inv (rd_kafka_op_handle_OffsetFetch en g err reply parsed resp p).
Proof.
  intros Hi. unfold rd_kafka_op_handle_OffsetFetch. destruct (err =? ERR__DESTROY); [done|].
  destruct reply; [|cbn; eauto using quiet_inv with cgrp]. pose proof (handle_OffsetFetch_spec en g err (RQ_op_OffsetFetch p) parsed resp p false) as Hs.
  destruct (rd_kafka_handle_OffsetFetch _ _ _ _ _ _ _ _) as [[err' l'] g']. destruct Hs as (_ & g1 & (Q & _) & Hs).
  assert (inv g') as Hi' by (destruct Hs as [->|[-> _]]; eauto using quiet_inv with cgrp).
  case_match; eauto using quiet_inv with cgrp.
Qed.

(** ** Serving an operation *)

Lemma op_serve_ok cf en g o l : inv g -> g_ops g = o :: l -> op_ok g o -> safe (rd_kafka_cgrp_op_serve cf en (set_ops l g) o) inv.
Proof.
  intros Hi Ho Hok. assert (stop_reply o = None -> is_reprocess o = false -> inv (set_ops l g)) as Hpop.
  { intros. eapply quiet_inv; [by eapply quiet_pop|done]. }
  destruct o; cbn [stop_reply is_reprocess op_ok] in *; try specialize (Hpop eq_refl eq_refl);
    try by (apply fetch_stop_reply_ok || apply commit_op_ok). all: cbn [rd_kafka_cgrp_op_serve].
  all: try by (cbn; eauto using quiet_inv with cgrp).
  - case_match; cbn [safe]; [by apply op_OffsetFetch_ok|eauto using quiet_inv with cgrp].
  - unfold rd_kafka_cgrp_partition_add. gs. rewrite bool_decide_eq_false_2 by done. cbn [negb obind].
    case_match; cbn [safe]; [eapply quiet_inv; [apply quiet_emit|]|]; by apply quiet_toppars_inv.
  - unfold rd_kafka_cgrp_partition_del. gs. rewrite bool_decide_eq_true_2 by done. cbn [safe].
    apply try_terminate_inv. by apply (quiet_toppars_inv (set_ops l g)).
  - cbn. eapply quiet_inv; [apply quiet_coord_query|done].
  - eapply safe_bind; [apply subscribe_ok|]; [done| |].
    + intros t Ht. specialize (Hok t Ht). rewrite (quiet_pending g); [done|]. by eapply quiet_pop.
    + intros [err g1] Hi1. cbn in *. eauto using quiet_inv with cgrp.
  - destruct Hok as (Hap & Hnd & Hcl). assert (apart (set_ops l g)) as Hap'.
    { intros t Ht. specialize (Hap t Ht). rewrite (quiet_pending g); [done|]. by eapply quiet_pop. }
    change (has_flag F_TERMINATE (set_ops l g)) with (f_term g). destruct (f_term g) eqn:Ef.
    + eapply safe_bind; [apply unassign_ok; [by apply inv_ready|left; by apply Hcl]|].
      intros g1 (Hi1&_&_). cbn. eauto using quiet_inv with cgrp.
    + eapply safe_bind; [by apply assign_ok|]. intros g1 Hi1. cbn. eauto using quiet_inv with cgrp.
  - apply terminate0_ok; [done|]. intros t Ht. specialize (Hok t Ht). rewrite (quiet_pending g); [done|]. by eapply quiet_pop.
Qed.

(** ** Serving the group *)

Lemma quiet_intervaled en g r : quiet g (intervaled_query en g r).
Proof.
  unfold intervaled_query. case_match; [|auto with cgrp]. eapply quiet_trans; [apply quiet_query_intvl|apply quiet_coord_query].
Qed.

Lemma quiet_heartbeat g : quiet g (rd_kafka_cgrp_heartbeat g).
Proof.
  unfold rd_kafka_cgrp_heartbeat. case_match; [auto with cgrp|]. eapply quiet_trans; [|by apply quiet_send]. by apply quiet_add_flag.
Qed.

Lemma quiet_join_state_serve cf en g : quiet g (rd_kafka_cgrp_join_state_serve cf en g).
Proof.
  unfold rd_kafka_cgrp_join_state_serve. destruct (rkcg_join_state g); auto with cgrp.
  - destruct (mb_subscription _); [|auto with cgrp]. destruct (rd_interval_immediate _ _ _ _) as [diff ri]. cbv zeta.
    case_match; [|apply quiet_clocks]. eapply quiet_trans; [apply quiet_clocks|apply quiet_join].
  - case_match; [|auto with cgrp]. destruct (rd_interval _ _ _ _) as [diff ri]. cbv zeta.
    case_match; [|apply quiet_clocks]. eapply quiet_trans; [apply quiet_clocks|apply quiet_heartbeat].
  - case_match; [|auto with cgrp]. destruct (rd_interval _ _ _ _) as [diff ri]. cbv zeta.
    case_match; [|apply quiet_clocks]. eapply quiet_trans; [apply quiet_clocks|apply quiet_heartbeat].
  - case_match; [|auto with cgrp]. destruct (rd_interval _ _ _ _) as [diff ri]. cbv zeta.
    case_match; [|apply quiet_clocks]. eapply quiet_trans; [apply quiet_clocks|apply quiet_heartbeat].
Qed.

(** Once the broker was changed, choosing again changes nothing. *)
Lemma reassign_twice en g g' :
  g_state g <> STATE_TERM -> rd_kafka_cgrp_reassign_broker en g = Ret (true, g') -> g_state g' = STATE_WAIT_BROKER ->
  exists g'', rd_kafka_cgrp_reassign_broker en g' = Ret (false, g'').
Proof.
  unfold rd_kafka_cgrp_reassign_broker, rd_kafka_cgrp_unassign_broker, rd_kafka_cgrp_assign_broker. intros Ht H Hs.
  set (c := match (if negb (co_id (rkcg_coord g) =? -1) then en_find en else None) with
            | Some b => b | None => match en_prefer en with Some b => b | None => en_internal en end end).
  assert (g_rkb g' = Some c /\ co_id (rkcg_coord g') = co_id (rkcg_coord g)) as [Hr Hid].
  { unfold rd_kafka_cgrp_select_broker in H. rewrite (bool_decide_eq_false_2 (g_state g = STATE_TERM)) in H by done. cbv zeta in H. fold c in H.
    destruct (g_rkb g) as [old|] eqn:Eg.
    - destruct (negb (bool_decide (c = old)) && _ && _ && _); [rewrite bool_decide_eq_true_2 in H by done; done|].
      case_bool_decide; [done|]. cbn in H. destruct (negb (rd_interval_disabled _)), (BROKER_IS_COORD _ _); simplify_eq; done.
    - rewrite bool_decide_eq_false_2 in H by done. cbn in H. rewrite Eg in H. cbn in H.
      destruct (negb (rd_interval_disabled _)), (BROKER_IS_COORD _ _); simplify_eq; done. }
  assert (rd_kafka_cgrp_select_broker en g' = Some c) as Hsel.
  { unfold rd_kafka_cgrp_select_broker. rewrite Hs, Hid, Hr. cbv zeta. rewrite (bool_decide_eq_false_2 (STATE_WAIT_BROKER = STATE_TERM)) by done. fold c. by destruct (negb (bool_decide (c = c)) && _ && _ && _). }
  rewrite Hsel, Hr, bool_decide_eq_true_2 by done. eauto.
Qed.

Lemma start_up_ok cf en g : inv g -> g_state g = STATE_WAIT_BROKER_TRANSPORT ->
  safe (let g := set_state STATE_UP g in
        let g := rd_kafka_cgrp_join_state_serve cf en g in
        match rkcg_assignment g with
        | Some a => if CAN_FETCH_START g then rd_kafka_cgrp_partitions_fetch_start cf g a false else Ret g
        | None => Ret g
        end) inv.
Proof.
  intros Hi Hs. cbv zeta. set (g1 := rd_kafka_cgrp_join_state_serve _ _ _). assert (inv g1) as Hi1.
  { eapply quiet_inv; [apply quiet_join_state_serve|]. eapply quiet_inv; [apply quiet_state|done]; [congruence|done|].
    intros _. apply (b_rkb _ _ (proj1 Hi)). auto. }
  clearbody g1. destruct (rkcg_assignment g1) as [a|] eqn:Ha; [|done]. unfold CAN_FETCH_START. case_bool_decide; [|done].
  destruct Hi1. eapply safe_mono; [by apply (fetch_start_ok cf 0 g1 a false a)|]. by intros ? (?&?&_).
Qed.

Lemma serve_settled fuel cf en up now g :
  inv g -> live g -> (g_state g = STATE_WAIT_BROKER -> exists g', rd_kafka_cgrp_reassign_broker en g = Ret (false, g')) ->
  safe (serve_state fuel cf en up now g) inv.
Proof.
  intros Hi Hl Hb. assert (forall g1 r, inv g1 -> inv (intervaled_query en g1 r)) as Hq by eauto using quiet_inv, quiet_intervaled.
  assert (inv (set_state STATE_QUERY_COORD g)) as Hi' by (eapply quiet_inv; [apply quiet_state; [done..|by intros []]|done]).
  destruct fuel; cbn [serve_state]; destruct (g_state g) eqn:Es; try done.
  all: try (cbn [safe]; by apply Hq).
  all: try (destruct (negb up || _); [cbn [safe]; by apply Hq|by apply start_up_ok]).
  all: try (destruct (Hb eq_refl) as [g' E]; pose proof (safe_reassign en g Hl) as Hs; rewrite E in *; cbn [obind safe] in *; apply Hq; eauto using quiet_inv).
  all: pose proof (quiet_concat g) as Qc; destruct (concat_wait_coord g) as [ok g1]; cbn [safe snd] in *; cbv zeta;
    eapply quiet_inv; [apply quiet_join_state_serve|apply Hq; eauto using quiet_inv].
Qed.

Lemma serve_state_ok fuel cf en up now g : inv g -> g_state g <> STATE_TERM -> safe (serve_state (S fuel) cf en up now g) inv.
Proof.
  intros Hi Ht. assert (live g) as Hl by (intros _; done).
  destruct (decide (g_state g = STATE_WAIT_BROKER)) as [Es|Es]; [|by apply serve_settled].
  pose proof (safe_reassign en g Hl) as Hs. destruct (rd_kafka_cgrp_reassign_broker en g) as [[[] g1]| |] eqn:Er; try done.
  - cbn [serve_state]. rewrite Es, Er. cbn [obind]. cbn in Hs. apply serve_settled; [eauto using quiet_inv|eauto using quiet_live|].
    intros Es1. by apply (reassign_twice en g).
  - apply serve_settled; [done..|]. eauto.
Qed.

Lemma terminated_ok g : inv g -> g_state g = STATE_TERM -> safe (rd_kafka_cgrp_terminated g) inv.
Proof.
  intros [[] [[] Hw]] Ht. destruct (b_term Ht) as (Hf & HP & Hc & Ha). unfold rd_kafka_cgrp_terminated.
  rewrite b_stops, HP, Hc, Ht. change (has_flag F_WAIT_UNASSIGN g) with (f_wu g).
  assert (rkcg_join_state g <> JOIN_WAIT_REVOKE_REBALANCE_CB) as Hj.
  { intros E. unfold js_ok in m_js. rewrite E, Ha in m_js. by destruct m_js. }
  destruct (f_wu g) eqn:Ew; [by destruct Hj; apply m_wu|]. cbn [negb length Z.of_nat Z.eqb]. rewrite bool_decide_eq_true_2 by done. cbv zeta.
  set (g1 := set_ops [] (set_ops_on false (set_wait_coord [] g))).
  assert (g_stops g = []) as Hst by (unfold pending in HP; by apply app_eq_nil in HP as [? _]).
  assert (count is_commit (g_requests g) = 0) as Hq.
  { rewrite Hc in b_commits. unfold commits in b_commits. pose proof (count_nonneg is_commit (g_requests g)). pose proof (count_nonneg is_reprocess (g_ops g)). lia. }
  assert (forall b, inv (set_rkb b g1)) as Hi1.
  { intros b. assert (pending (set_rkb b g1) = []) as HP1 by (unfold pending, g1; gs; by rewrite Hst). split.
    - split; rewrite ?HP1; unfold g1, commits; gs; try done; try (rewrite b_stops, HP; done); try (by apply NoDup_nil).
      + rewrite Hc, Hq. done.
      + rewrite Ht. by intros [].
    - split; [split|]; unfold js_ok, waits in *; rewrite ?HP1, ?HP in *; unfold g1; gs; rewrite ?HP in *; try done.
      by rewrite Ew. }
  assert (forall g2, inv g2 -> inv (if qu_reply (rkcg_queues g2) then set_reply false (emit OUT_terminated g2) else g2)) as Hre.
  { intros g2 Hi2. case_match; [|done]. eapply quiet_inv; [|exact Hi2]. quiet. }
  unfold rd_kafka_cgrp_unassign_broker. destruct (g_rkb g1) eqn:Eb; cbn [obind safe]; apply Hre; [apply Hi1|].
  specialize (Hi1 (g_rkb g1)). by destruct g as [? ? ? ? ? [] ? ? ? ?].
Qed.

Lemma serve_ok cf en g : inv g -> safe (rd_kafka_cgrp_serve cf en g) inv.
Proof.
  intros Hi. unfold rd_kafka_cgrp_serve. cbv zeta. set (up := match g_rkb g with Some _ => en_rkb_up en | None => false end).
  set (g1 := match g_rkb g with Some _ => if negb up && _ then set_state STATE_QUERY_COORD g else g | None => g end). assert (inv g1) as Hi1.
  { unfold g1. destruct (g_rkb g); [|done]. destruct (negb up && _) eqn:E; [|done]. bool_hyps. case_bool_decide; [|done].
    eapply quiet_inv; [apply quiet_state|done]; [congruence|done|by intros []]. }
  clearbody g1. pose proof (try_terminate_inv cf g1 Hi1) as Hi2. unfold try_terminate in Hi2.
  destruct (rd_kafka_cgrp_try_terminate cf g1) as [b g2] eqn:Et. cbn in Hi2.
  assert (b = true <-> g_state g2 = STATE_TERM) as Hb.
  { unfold rd_kafka_cgrp_try_terminate in Et. case_bool_decide as E; [by simplify_eq|]. destruct (negb (has_flag _ _)); [by simplify_eq|].
    cbv zeta in Et. destruct (negb (WAIT_REBALANCE_CB _) && _ && _ && _ && _); simplify_eq; [done|].
    split; [done|]. intros H. exfalso. apply E. revert H. destruct (negb _ && _); [|done].
    pose proof (q_term _ _ (quiet_concat (set_wait_coord_on false g1))) as Qt. by destruct (concat_wait_coord _) as [[] g3]. }
  destruct b; [apply terminated_ok; [done|by apply Hb]|]. destruct (en_terminating en); [done|].
  eapply safe_bind; [apply serve_state_ok; [done|]; intros H; by apply Hb in H|].
  intros g3 Hi3. case_match; [|done]. destruct (rd_interval _ _ _ _) as [diff ri]. cbv zeta.
  assert (inv (set_ck_scan ri g3)) as Hi4 by (eapply quiet_inv; [apply quiet_clocks|done]).
  case_match; [by apply timeout_scan_ok|done].
Qed.

(** ** The commit timer *)

Lemma handle_no_offset en g o : rd_kafka_handle_OffsetCommit en g ERR__NO_OFFSET None [] o = Ret (ERR__NO_OFFSET, [], g).
Proof. reflexivity. Qed.

(** After termination there is no assignment, and so nothing to commit. *)
Lemma commit_timer_terminated cf en g : inv g -> g_state g = STATE_TERM -> safe (rd_kafka_cgrp_offset_commit_tmr_cb cf en g) inv.
Proof.
  intros [Hb [Hm Hw]] Ht. destruct (b_term _ _ Hb Ht) as (_ & _ & Hc & Ha).
  unfold rd_kafka_cgrp_offset_commit_tmr_cb, rd_kafka_cgrp_assigned_offsets_commit, rd_kafka_cgrp_offsets_commit. cbn [oc_partitions]. rewrite Ha.
  cbn -[rd_kafka_cgrp_op_handle_OffsetCommit set_wait_commit_cnt Z.add]. unfold rd_kafka_cgrp_op_handle_OffsetCommit.
  set (g1 := set_wait_commit_cnt (rkcg_wait_commit_cnt g + 1) g). cbv zeta. cbn [fmap option_fmap option_map oc_partitions oc_silent_empty].
  rewrite handle_no_offset. cbn [obind]. change (ERR__NO_OFFSET =? ERR__IN_PROGRESS) with false.
  change ((ERR__NO_OFFSET =? ERR_NOT_COORDINATOR_FOR_GROUP) || (ERR__NO_OFFSET =? ERR_GROUP_COORDINATOR_NOT_AVAILABLE)) with false. cbv iota.
  assert (rkcg_wait_commit_cnt g1 = 1) as Hc1 by (unfold g1; gs; lia). rewrite Hc1.
  change (1 >? 0) with true. change (1 - 1) with 0. cbv iota. change ((ERR__NO_OFFSET =? ERR__DESTROY) || (ERR__NO_OFFSET =? ERR__NO_OFFSET) && true) with true.
  change (rkcg_assignment (set_wait_commit_cnt 0 g1)) with (rkcg_assignment g). rewrite Ha. cbn [obind].
  eapply safe_mono; [apply (check_unassign_done_ok cf 0 ∅)|by intros ? (?&?&_)].
  - destruct Hb. split; unfold g1, commits, pending in *; gs; try done; [lia|]. intros H. by destruct (b_term H) as (?&?&_&?).
  - destruct Hm. by split.
Qed.

Lemma commit_timer_ok cf en g : inv g -> safe (rd_kafka_cgrp_offset_commit_tmr_cb cf en g) inv.
Proof.
  intros Hi. destruct (decide (g_state g = STATE_TERM)); [by apply commit_timer_terminated|]. destruct Hi as [? [? ?]].
  eapply safe_mono; [apply (offsets_commit_ok cf en 0 ∅); try done; left; by left|]. by intros ? (?&?&_).
Qed.

Lemma metadata_update_ok cf en g : inv g -> apart g -> (rkcg_assignment g = None -> pending g = []) ->
  safe (rd_kafka_cgrp_metadata_update_check cf en g true) inv.
Proof.
  intros Hi Hap HP. unfold rd_kafka_cgrp_metadata_update_check. pose proof (quiet_update_check cf en g) as Q.
  destruct (update_check cf en g) as [changed g1]. cbn in Q. pose proof (quiet_pending _ _ Q) as HP1. destruct changed; cbn; [|eauto using quiet_inv].
  apply rejoin_ok; [eauto using quiet_inv|unfold apart|]; rewrite HP1, (q_asg _ _ Q); done.
Qed.

(** ** Responses *)

Definition response_ok (r : response) : Prop :=
  match r with
  | RS_JoinGroup r => 0 <= jr_member_cnt r
  | RS_SyncGroup _ (inr ts) => NoDup ts
  | RS_OffsetCommit err resp => err <> ERR__IN_PROGRESS /\ broker_errors resp
  | _ => True
  end.

Lemma quiet_join_failed g err : early (rkcg_join_state g) -> quiet g (join_failed g err).
Proof.
  intros He. unfold join_failed. set (g1 := if has_action ACTION_REFRESH _ then _ else g).
  assert (quiet g g1 /\ rkcg_join_state g1 = rkcg_join_state g) as [Q Hj].
  { unfold g1. case_match; [|split; auto with cgrp]. split; [auto with cgrp|]. unfold enq_op. by case_match. }
  clearbody g1. cbv zeta. destruct (negb (err =? 0)); [|done]. destruct (err =? ERR__DESTROY); [done|].
  eapply quiet_trans; [exact Q|]. set (g2 := if err =? ERR_UNKNOWN_MEMBER_ID then _ else _).
  assert (quiet g1 g2 /\ rkcg_join_state g2 = rkcg_join_state g1) as [Q2 Hj2].
  { unfold g2. split; [|by repeat case_match]. case_match; [eapply quiet_trans; [apply quiet_if_emit|apply quiet_member]|apply quiet_if_emit]. }
  eapply quiet_trans; [exact Q2|]. apply quiet_early; [congruence|by left].
Qed.

Lemma handle_JoinGroup_ok g r : inv g -> 0 <= jr_member_cnt r -> safe (rd_kafka_cgrp_handle_JoinGroup g r) inv.
Proof.
  intros Hi Hr. unfold rd_kafka_cgrp_handle_JoinGroup. destruct (jr_err r =? ERR__DESTROY); [done|]. case_bool_decide as Ej; cbn [negb]; [|done].
  assert (early (rkcg_join_state g)) as He by (rewrite Ej; unfold early; auto).
  destruct (negb (jr_err r =? 0)); [cbn; eauto using quiet_inv, quiet_join_failed|]. cbv zeta.
  set (err := if (jr_ErrorCode r =? 0) && _ then _ else _). destruct (negb (err =? 0)).
  { cbn [safe]. eapply quiet_inv; [by apply quiet_join_failed|]. eapply quiet_inv; [apply quiet_clocks|done]. }
  set (g1 := set_member_id _ _). assert (quiet g g1) as Q by (eapply quiet_trans; apply quiet_member).
  assert (rkcg_join_state g1 = JOIN_WAIT_JOIN) as Ej1 by done. clearbody g1.
  assert (forall j, early j -> quiet g (set_join_state j g1)) as Qj.
  { intros j Hej. eapply quiet_trans; [exact Q|]. apply quiet_early; [rewrite Ej1; unfold early; auto|done]. }
  destruct (bool_decide _).
  - destruct (jr_member_cnt r >? 100000); [cbn; eauto using quiet_inv|]. destruct (Z.ltb_spec (jr_member_cnt r) 0); [lia|].
    destruct (jr_members r) as [e|ms]; cbn [safe].
    + eapply quiet_inv; [apply quiet_join_failed; rewrite Ej1; unfold early; auto|eauto using quiet_inv].
    + eapply quiet_inv; [apply quiet_join_failed; cbn; unfold early; auto|]. eapply quiet_inv; [by apply quiet_send|].
      eapply quiet_inv; [apply quiet_early; [|unfold early; auto]|]; [cbn; rewrite Ej1; unfold early; auto|].
      eapply quiet_inv; [apply quiet_member|]. eapply quiet_inv; [apply quiet_member|]. eauto using quiet_inv.
  - cbn [safe]. eapply quiet_inv; [apply quiet_join_failed; cbn; unfold early; auto|]. eapply quiet_inv; [by apply quiet_send|].
    eapply quiet_inv; [apply Qj; unfold early; auto|done].
Qed.

Lemma assignor_Metadata_ok en g err : inv g -> inv (rd_kafka_cgrp_assignor_handle_Metadata_op en g err).
Proof.
  intros Hi. unfold rd_kafka_cgrp_assignor_handle_Metadata_op. destruct (err =? ERR__DESTROY); [done|]. case_bool_decide as Ej; cbn [negb]; [|done].
  destruct (mb_leader _); [|done]. unfold rd_kafka_cgrp_assignor_run.
  assert (forall j, early j -> inv (set_join_state j g)) as Hj by (intros; eapply quiet_inv; [apply quiet_early; [rewrite Ej; unfold early; auto|done]|done]).
  case_match; [apply Hj; unfold early; auto|]. eapply quiet_inv; [by apply quiet_send|apply Hj; unfold early; auto].
Qed.

Lemma handle_assignment_ok cf en g a :
  inv g -> rkcg_join_state g = JOIN_WAIT_SYNC -> f_term g = false -> NoDup a.*1 -> safe (rd_kafka_cgrp_handle_assignment cf en g a) inv.
Proof.
  intros Hi Hj Hf Hnd. unfold rd_kafka_cgrp_handle_assignment, rd_kafka_rebalance_op. cbv zeta. change (ERR__ASSIGN_PARTITIONS =? ERR__ASSIGN_PARTITIONS) with true. cbv iota.
  assert (apart g) as Hap by (apply no_pending_apart; [done|rewrite Hj; done..]).
  destruct (negb _ || _); [by apply assign_ok|].
  assert (inv (set_join_state JOIN_WAIT_ASSIGN_REBALANCE_CB g)) as Hi1.
  { destruct Hi as [Hb [[] Hw]]. split; [by apply base_js|]. rewrite Hj in *. assert (f_wu g = false) as Hwu by (destruct (f_wu g); [by specialize (proj1 m_wu eq_refl)|done]).
    split; [split|]; unfold js_ok, waits, pending in *; gs; rewrite ?Hj, ?Hwu, ?Hf in *; try done. by left. }
  destruct (cf_app_queue cf); [cbn; eauto using quiet_inv with cgrp|]. by apply assign_ok.
Qed.

Lemma handle_SyncGroup_ok cf en g err ms : inv g -> response_ok (RS_SyncGroup err ms) -> safe (rd_kafka_handle_SyncGroup cf en g err ms) inv.
Proof.
  intros Hi Hr. unfold rd_kafka_handle_SyncGroup. case_bool_decide as Ej; cbn [negb]; [|done]. set (actions := rd_kafka_err_action _ _ _). clearbody actions. cbv zeta.
  set (g1 := if has_action ACTION_REFRESH _ then _ else g). assert (quiet g g1 /\ rkcg_join_state g1 = JOIN_WAIT_SYNC) as [Q Hj].
  { unfold g1. case_match; [|split; auto with cgrp]. split; [auto with cgrp|]. unfold enq_op. by case_match. }
  clearbody g1. pose proof (quiet_inv _ _ Q Hi) as Hi1. unfold rd_kafka_buf_retry.
  assert (forall e, safe (if false || (e =? ERR__DESTROY) then Ret g1 else rd_kafka_cgrp_handle_SyncGroup cf en g1 e ms) inv) as Hs.
  { intros e. destruct (false || _); [done|]. unfold rd_kafka_cgrp_handle_SyncGroup. change (has_flag F_TERMINATE g1) with (f_term g1).
    assert (inv (set_join_state JOIN_INIT g1)) as Hinit by (eapply quiet_inv; [apply quiet_early; [rewrite Hj|]; unfold early; auto|done]).
    cbv zeta. destruct (negb (_ =? 0)) eqn:Ez; [done|]. destruct ms as [|ts]; [done|]. cbn in Hr.
    apply handle_assignment_ok; [done..| |by rewrite <- list_fmap_compose, list_fmap_id].
    destruct (f_term g1); [|done]. destruct (e =? 0) eqn:Ee; cbn in Ez; [done|]. rewrite Ee in Ez. done. }
  destruct (has_action ACTION_RETRY actions); [|apply Hs]. destruct (en_retry en); [|apply Hs]. cbn. eauto using quiet_inv with cgrp.
Qed.

Lemma handle_Heartbeat_ok cf en g err : inv g -> safe (rd_kafka_cgrp_handle_Heartbeat cf en g err) inv.
Proof.
  intros Hi. unfold rd_kafka_cgrp_handle_Heartbeat. destruct (err =? ERR__DESTROY); [done|]. set (actions := rd_kafka_err_action _ _ _). clearbody actions. cbv zeta.
  set (g1 := if has_action ACTION_REFRESH _ then _ else _). assert (quiet g g1) as Q.
  { unfold g1. case_match; [eapply quiet_trans; [|apply quiet_enq_query]|]; by apply quiet_clear_flag. }
  clearbody g1. pose proof (quiet_inv _ _ Q Hi) as Hi1. unfold rd_kafka_buf_retry.
  assert (safe (if negb (err =? 0) then rd_kafka_cgrp_handle_heartbeat_error cf en g1 err else Ret g1) inv) as Hs by (case_match; [by apply heartbeat_error_ok|done]).
  destruct (has_action ACTION_RETRY actions); [|apply Hs]. destruct (en_retry en); [|apply Hs]. cbn [safe].
  eapply quiet_inv; [by apply quiet_add_flag|]. eapply quiet_inv; [by apply quiet_send|done].
Qed.

Lemma handle_GroupCoordinator_ok cf en g err id :
  inv g -> qu_ops_on (rkcg_queues g) = true -> safe (rd_kafka_cgrp_handle_GroupCoordinator cf en g err id) inv.
Proof.
  intros Hi Hon. assert (live g) as Hl by (intros H; congruence). unfold rd_kafka_cgrp_handle_GroupCoordinator.
  assert (forall id, safe (let! g := rd_kafka_cgrp_coord_update en g id in rd_kafka_cgrp_serve cf en g) inv) as Hu.
  { intros i. eapply safe_bind; [by apply safe_coord_update|]. intros g1 Q. apply serve_ok. eauto using quiet_inv. }
  destruct (err =? 0); [apply Hu|]. destruct (err =? ERR__DESTROY); [done|].
  destruct (err =? ERR_GROUP_COORDINATOR_NOT_AVAILABLE); [apply Hu|]. cbn [obind]. apply serve_ok. cbv zeta.
  set (g1 := if negb _ then _ else g). assert (quiet g g1) as Q.
  { unfold g1. case_match; [|auto with cgrp]. quiet. }
  eapply quiet_inv; [apply quiet_state; [eauto using quiet_live|done|by intros []]|eauto using quiet_inv].
Qed.

(** ** Steps and runs *)

(** The discipline of the surroundings, event by event. *)
Definition event_ok g (e : event) : Prop :=
  match e with
  | EvOp o => stop_reply o = None /\ is_reprocess o = false
  | EvServeOp => match g_ops g with o :: _ => op_ok g o | [] => True end
  | EvMetadata => apart g /\ (rkcg_assignment g = None -> pending g = [])
  | EvReply _ r => response_ok r
  | _ => True
  end.

Lemma count_delete (p : request -> bool) n l q : l !! n = Some q -> count p l = count p (delete n l) + (if p q then 1 else 0).
Proof.
  revert n. induction l as [|x l IH]; intros [|n] H; try done.
  - cbn in H. simplify_eq. cbn -[Z.add]. lia.
  - specialize (IH n H). change (delete (S n) (x :: l)) with (x :: delete n l). cbn [count]. lia.
Qed.

(** A request is taken out to be answered. *)
Lemma take_request_ok g n q : inv g -> g_requests g !! n = Some q ->
  let g' := set_requests (delete n (g_requests g)) g in
  base (if is_commit q then 1 else 0) g' /\ mode ∅ g' /\ fetch_ok (rkcg_version g') (rkcg_assignment g') q.
Proof.
  intros [[] [[] Hw]] Hq. cbv zeta. split_and!; [|by split; [split|]|by eapply Forall_lookup_1 in b_fetch].
  split; unfold pending, commits in *; gs; try done; [|by apply Forall_delete]. rewrite (count_delete _ _ _ _ Hq) in b_commits. lia.
Qed.

Lemma handle_reply_ok cf en g n q r : inv g -> g_requests g !! n = Some q -> qu_ops_on (rkcg_queues g) = true ->
  reply_matches q r = true -> response_ok r -> safe (handle_reply cf en (set_requests (delete n (g_requests g)) g) q r) inv.
Proof.
  intros Hi Hq Hon Hm Hr. destruct (take_request_ok g n q Hi Hq) as (Hb & Hmo & Hf). set (g1 := set_requests _ g) in *.
  assert (is_commit q = false -> inv g1) as Hi1 by (intros E; rewrite E in Hb; by split).
  destruct q, r; cbn in Hm; try done; cbn [is_commit handle_reply] in *; try specialize (Hi1 eq_refl).
  - by apply handle_GroupCoordinator_ok.
  - by apply handle_JoinGroup_ok.
  - by apply handle_SyncGroup_ok.
  - by apply handle_Heartbeat_ok.
  - cbn [safe]. by apply assignor_Metadata_ok.
  - unfold rd_kafka_cgrp_handle_Metadata_op, rd_kafka_cgrp_metadata_update_check. case_match; [done|].
    pose proof (quiet_update_check cf en g1) as Q. destruct (update_check cf en g1) as [? g2]. rewrite andb_false_r. cbn in *. eauto using quiet_inv.
  - by apply offsets_fetch_response_ok.
  - cbn [safe]. by apply op_OffsetFetch_ok.
  - destruct Hr. eapply safe_mono; [apply (op_handle_OffsetCommit_ok cf en 0 ∅); try done; left; by left|]. by intros ? (?&?&_).
Qed.

(** A partition has stopped. *)
Lemma remove_first_perm t l : t ∈ l -> l ≡ₚ t :: remove_first t l.
Proof.
  induction l as [|u l IH]; [set_solver|]. intros Ht. cbn. case_bool_decide as E; [by subst|].
  apply elem_of_cons in Ht as [->|Ht]; [done|]. etransitivity; [apply perm_skip, (IH Ht)|apply perm_swap].
Qed.

Lemma stopped_ok g t : inv g -> t ∈ g_stops g -> inv (enq_op (OP_FETCH_STOP_REPLY t) (set_stops (remove_first t (g_stops g)) g)).
Proof.
  intros Hi Ht. unfold enq_op. gs. destruct Hi as [Hb [Hm Hw]]. destruct (qu_ops_on (rkcg_queues g)) eqn:Eo.
  2:{ destruct (b_off _ _ Hb Eo) as [Hs _]. destruct (b_term _ _ Hb Hs) as (_&HP&_). unfold pending in HP.
      apply app_eq_nil in HP as [HP _]. rewrite HP in Ht. set_solver. }
  set (g1 := set_ops _ _). assert (pending g1 ≡ₚ pending g) as HP.
  { unfold pending, g1. gs. rewrite omap_app. cbn. etransitivity; [|apply Permutation_app_tail; symmetry; by apply remove_first_perm].
    rewrite app_assoc. symmetry. apply Permutation_cons_append. }
  assert (list_to_set (pending g1) = (list_to_set (pending g) : gset toppar)) as HS by (apply leibniz_equiv; by rewrite HP).
  assert (pending g1 = [] <-> pending g = []) as H0.
  { split; intros H; rewrite H in HP; [by apply Permutation_nil_l in HP|by apply Permutation_nil_r in HP]. }
  assert (pending g <> []) as Hne by (unfold pending; by destruct (g_stops g); [set_solver|]).
  split.
  - destruct Hb. split; try done.
    + rewrite HP. done.
    + by rewrite HP.
    + unfold commits, g1 in *. gs. rewrite count_app. cbn. lia.
    + intros Hs. destruct (b_term Hs) as (_&?&_). done.
    + unfold g1. gs. congruence.
  - destruct Hm. split; [split|]; rewrite ?HS; try done.
    + unfold js_ok in *. change (rkcg_join_state g1) with (rkcg_join_state g). rewrite HS. change (g_assigned g1) with (g_assigned g).
      change (rkcg_assignment g1) with (rkcg_assignment g). destruct (rkcg_join_state g); try done; rewrite ?H0; try done.
    + intros Hj. left. by rewrite H0.
Qed.

Lemma step_ok cf en g e : inv g -> event_ok g e -> safe (step cf en g e) inv.
Proof.
  intros Hi He. destruct e; cbn [step event_ok] in *.
  - cbn. destruct He as [Hs Hr]. unfold enq_op. destruct (qu_ops_on _) eqn:Eo; [|done].
    eapply quiet_inv; [|exact Hi]. split; unfold commits; gs; auto; rewrite ?omap_app, ?count_app; cbn; rewrite ?Hs, ?Hr, ?app_nil_r, ?Z.add_0_r; auto. congruence.
  - destruct (g_ops g) as [|o l] eqn:Eo; [done|]. by apply op_serve_ok.
  - by apply serve_ok.
  - case_match; [by apply commit_timer_ok|done].
  - destruct He. by apply metadata_update_ok.
  - destruct (g_requests g !! n) as [q|] eqn:Eq; [|done]. destruct (_ && _) eqn:E; [|done]. bool_hyps. by apply handle_reply_ok.
  - case_bool_decide; [|done]. by apply stopped_ok.
  - cbn. eapply quiet_inv; [apply quiet_clocks|done].
  - cbn. eapply quiet_inv; [apply quiet_info|done].
Qed.

(** Every event of the run finds its condition met. *)
Fixpoint run_ok cf g (l : list (env * event)) : Prop :=
  match l with
  | [] => True
  | (en, e) :: l => event_ok g e /\ match step cf en g e with Ret g' => run_ok cf g' l | _ => True end
  end.

Lemma run_inv cf l : forall g, inv g -> run_ok cf g l -> safe (run cf g l) inv.
Proof.
  induction l as [|[en e] l IH]; intros g Hi Hr; [done|]. cbn in *. destruct Hr as [He Hr].
  pose proof (step_ok cf en g e Hi He) as Hs. destruct (step cf en g e); try done. cbn. auto.
Qed.

Lemma new_inv b : inv (rd_kafka_cgrp_new b).
Proof.
  split; [split|split; [split|]]; cbn; try done; try (by constructor); try (by left).
  - by intros [].
Qed.
