(* ===== verification/CgrpSpec.v ===== *)
(** * The consumer group: what holds in every disciplined run

    [run_okb] is the executable form of the discipline of [CgrpSafe].  The
    theorems: no run that keeps it fails an assertion, and the counters, the
    partitions that are fetched and the states agree; the discipline cannot be
    weakened; runs in which the group stays where it should not. *)
From Stdlib Require Import ZArith Lia.
From stdpp Require Import base numbers list gmap.
From S2P Require Import Prelude.
From S2P Require Import CgrpState.
From S2P Require Import Cgrp.
From S2P Require Import CgrpInv.
From S2P Require Import CgrpSafe.

Implicit Types (cf : conf) (en : env) (g : cgrp).

(** ** The discipline, executable *)

Definition apartb g : bool := forallb (fun t => negb (bool_decide (t ∈ pending g))) (keys (rkcg_assignment g)).

Definition closing_okb g : bool :=
  match rkcg_assignment g with None => true | Some _ => false end || negb (f_term g) || qu_wait_coord_on (rkcg_queues g) ||
  negb (bool_decide (pt_toppars (rkcg_parts g) = [])) || bool_decide (g_assigned g = ∅).

Definition op_okb g (o : op) : bool :=
  match o with
  | OP_PARTITION_JOIN t => negb (bool_decide (t ∈ pt_toppars (rkcg_parts g)))
  | OP_PARTITION_LEAVE t => bool_decide (t ∈ pt_toppars (rkcg_parts g))
  | OP_OFFSET_COMMIT c => oc_reprocess c || negb (is_state (g_state g) STATE_TERM)
  | OP_ASSIGN p => apartb g && bool_decide (NoDup (keys p)) && (negb (f_term g) || closing_okb g)
  | OP_SUBSCRIBE _ | OP_TERMINATE => apartb g
  | _ => true
  end.

Definition response_okb (r : response) : bool :=
  match r with
  | RS_JoinGroup r => 0 <=? jr_member_cnt r
  | RS_SyncGroup _ (inr ts) => bool_decide (NoDup ts)
  | RS_OffsetCommit err resp => negb (err =? ERR__IN_PROGRESS) && forallb (fun x => negb (x.2 =? ERR__IN_PROGRESS)) resp
  | _ => true
  end.

Definition event_okb g (e : event) : bool :=
  match e with
  | EvOp o => match stop_reply o with None => true | Some _ => false end && negb (is_reprocess o)
  | EvServeOp => match g_ops g with o :: _ => op_okb g o | [] => true end
  | EvMetadata => apartb g && (match rkcg_assignment g with Some _ => true | None => bool_decide (pending g = []) end)
  | EvReply _ r => response_okb r
  | _ => true
  end.

Fixpoint run_okb cf g (l : list (env * event)) : bool :=
  match l with
  | [] => true
  | (en, e) :: l => event_okb g e && match step cf en g e with Ret g' => run_okb cf g' l | _ => true end
  end.

Lemma apartb_ok g : apartb g = true -> apart g.
Proof.
  intros H t Ht. unfold apartb in H. rewrite forallb_forall in H. apply list_elem_of_In, H in Ht. by case_bool_decide.
Qed.

Lemma closing_okb_ok g : closing_okb g = true -> closing_ok g.
Proof.
  unfold closing_okb, closing_ok. intros H. repeat (apply orb_true_iff in H as [H|H]).
  - left. by destruct (rkcg_assignment g).
  - right. left. by apply negb_true_iff.
  - auto.
  - case_bool_decide; auto.
  - case_bool_decide; auto.
Qed.

Lemma op_okb_ok g o : op_okb g o = true -> op_ok g o.
Proof.
  destruct o; cbn [op_okb op_ok]; intros H; try done; try (by apply apartb_ok); bool_hyps.
  - by case_bool_decide.
  - by case_bool_decide.
  - intros Hr Ht. rewrite Hr, Ht in H. done.
  - split_and!; [by apply apartb_ok|by case_bool_decide|]. intros Hf.
    match goal with H : _ || _ = true |- _ => apply orb_true_iff in H as [H'|H'] end; [rewrite Hf in H'; done|by apply closing_okb_ok].
Qed.

Lemma response_okb_ok r : response_okb r = true -> response_ok r.
Proof.
  destruct r as [| |? [|]| | | |]; cbn; intros H; try done; bool_hyps; try done; try (by case_bool_decide).
  split; [done|]. unfold broker_errors. apply Forall_forall. intros x Hx. match goal with H : forallb _ _ = true |- _ => rewrite forallb_forall in H; apply list_elem_of_In, H in Hx end.
  by bool_hyps.
Qed.

Lemma event_okb_ok g e : event_okb g e = true -> event_ok g e.
Proof.
  destruct e; cbn [event_okb event_ok]; intros H; try done; bool_hyps.
  - by destruct (stop_reply o).
  - destruct (g_ops g); [done|by apply op_okb_ok].
  - split; [by apply apartb_ok|]. destruct (rkcg_assignment g); [done|]. by case_bool_decide.
  - by apply response_okb_ok.
Qed.

Lemma run_okb_ok cf l : forall g, run_okb cf g l = true -> run_ok cf g l.
Proof.
  induction l as [|[en e] l IH]; intros g H; [done|]. cbn in *. bool_hyps. split; [by apply event_okb_ok|]. destruct (step cf en g e); auto.
Qed.

Lemma run_okb_inv cf b l : run_okb cf (rd_kafka_cgrp_new b) l = true -> exists g, run cf (rd_kafka_cgrp_new b) l = Ret g /\ inv g.
Proof.
  intros H%run_okb_ok. pose proof (run_inv cf l _ (new_inv b) H) as Hs. destruct (run cf _ l); try done. eauto.
Qed.

(** ** Concrete surroundings *)

Definition coordinator : broker := mk_broker 1 5 false.
Definition conf0 : conf := mk_conf false true true true false false 6000 3000 600000 1 (fun l => l).
Definition env_topics (n : Z) : env := mk_env true true (Some coordinator) None (mk_broker 0 (-1) true) true false false 0 [([116], n)] true 0.
Definition env0 : env := env_topics 3.
Definition part (n : Z) : toppar := ([116], n).

Definition member_reply : join_response := mk_join_response 0 0 1 (Some [114]) [1] [2] 0 (inr []).

(** Subscribe, find the coordinator, join, and be assigned two partitions. *)
Definition joining : list event :=
  [EvClock 1000000; EvOp (OP_SUBSCRIBE (Some [[116]])); EvServeOp; EvServe; EvReply 0 (RS_GroupCoordinator 0 5); EvServe;
   EvReply 0 (RS_JoinGroup member_reply); EvReply 0 (RS_SyncGroup 0 (inr [part 0; part 1]))].
Definition fetching : list event := joining ++ [EvReply 0 (RS_OffsetFetch 0 true true [(part 0, 10, 0); (part 1, -1, 0)])].

(** Close: the offset of a partition is committed, both are stopped. *)
Definition closing : list event :=
  [EvStore (part 0) 12; EvOp OP_TERMINATE; EvServeOp; EvStopped (part 1); EvStopped (part 0); EvServeOp; EvServeOp;
   EvReply 0 (RS_OffsetCommit 0 [(part 0, 0); (part 1, 0)])].

Definition app_assign (p : option partitions) : list event := [EvOp (OP_ASSIGN p); EvServeOp].
Definition app_commit : list event := [EvOp (OP_OFFSET_COMMIT (mk_commit (Some [(part 0, 12)]) false 0 false true false)); EvServeOp].

Definition in_env (en : env) (l : list event) : list (env * event) := map (pair en) l.
Definition start cf (l : list (env * event)) : outcome cgrp := run cf (rd_kafka_cgrp_new false) l.

(** ** Safety *)

(** C8. In a run of a new group that keeps the discipline, whatever the
    configuration, the brokers, the responses and their order, no assertion
    fails and the state machine does not loop; and the counters are exact: the
    number of fetched partitions, of partitions told to stop that have not
    answered (each asked once, each still fetched) and of unanswered commits. *)
Theorem cgrp_counters_exact cf b l :
  run_okb cf (rd_kafka_cgrp_new b) l = true ->
  exists g, run cf (rd_kafka_cgrp_new b) l = Ret g /\
    g_assigned_cnt g = Z.of_nat (size (g_assigned g)) /\
    g_wait_unassign_cnt g = zlen (pending g) /\ NoDup (pending g) /\ (forall t, t ∈ pending g -> t ∈ g_assigned g) /\
    rkcg_wait_commit_cnt g = commits g.
Proof.
  intros (g & Hr & Hi)%run_okb_inv. exists g. pose proof Hi as [[] _]. split_and!; try done; [|lia].
  intros t Ht. destruct (pending_set g Hi) as [-> _]; [intros E; rewrite E in Ht; set_solver|]. by apply elem_of_list_to_set.
Qed.

Lemma cgrp_counters_exact_witness :
  run_okb conf0 (rd_kafka_cgrp_new false) (in_env env0 (fetching ++ closing ++ [EvServe])) = true /\
  exists g, run conf0 (rd_kafka_cgrp_new false) (in_env env0 (fetching ++ closing ++ [EvServe])) = Ret g /\ rkcg_wait_commit_cnt g = commits g.
Proof.
  split; [vm_compute; reflexivity|].
  destruct (cgrp_counters_exact conf0 false (in_env env0 (fetching ++ closing ++ [EvServe]))) as (g & H1 & H2); [vm_compute; reflexivity|].
  exists g. split; [exact H1|]. apply H2.
Defined.

(** C13. What is fetched follows the assignment.  Once started, exactly the
    assigned partitions are fetched; before an assignment is known, and while
    the application is asked to assign, there is no assignment and nothing is
    fetched or being stopped; an assigned group that has not started fetches
    nothing; while partitions are unassigned, those fetched are those being stopped.  While the
    application is asked to revoke, there is an assignment, and fetched is all of it,
    with no stop pending, or what is being stopped.  A terminated
    group neither fetches nor waits for a stop or a commit. *)
Theorem cgrp_fetch_follows_assignment cf b l g :
  run_okb cf (rd_kafka_cgrp_new b) l = true -> run cf (rd_kafka_cgrp_new b) l = Ret g ->
  match rkcg_join_state g with
  | JOIN_STARTED => exists a, rkcg_assignment g = Some a /\ g_assigned g = list_to_set a.*1 /\ pending g = []
  | JOIN_ASSIGNED => g_assigned g = ∅ /\ pending g = []
  | JOIN_WAIT_UNASSIGN => g_assigned g = list_to_set (pending g)
  | JOIN_WAIT_REVOKE_REBALANCE_CB => exists a, rkcg_assignment g = Some a /\
      (g_assigned g = list_to_set (pending g) \/ (pending g = [] /\ g_assigned g = list_to_set a.*1))
  | _ => rkcg_assignment g = None /\ g_assigned g = ∅ /\ pending g = []
  end /\
  (g_state g = STATE_TERM -> rkcg_assignment g = None /\ g_assigned g = ∅ /\ pending g = [] /\ commits g = 0).
Proof.
  intros (g' & Hr & Hi)%run_okb_inv Hr'. assert (g' = g) as -> by congruence. pose proof (inv_ready g Hi) as Hrd.
  destruct Hi as [[] [[] _]]. split.
  - unfold js_ok in m_js. rewrite ?union_empty_r_L in m_js. destruct (rkcg_join_state g); try (by destruct m_js as (?&?&?)); try (by destruct m_js); try done.
    + destruct m_js as (Ha & Hs). destruct (rkcg_assignment g) as [a|]; [|done]. by exists a.
    + destruct m_js as (Ha & HP & Hs). destruct (rkcg_assignment g) as [a|]; [|done]. by exists a.
  - intros Ht. destruct (b_term Ht) as (_ & HP & Hc & Ha). split_and!; try done; [|lia].
    rewrite Ha in Hrd. destruct (Hrd ltac:(intros ? H; by apply not_elem_of_nil in H)) as [_ Hset _]. rewrite HP, Ha in Hset. by destruct Hset as [->|[_ ->]].
Qed.

Lemma cgrp_fetch_follows_assignment_witness :
  exists g, run conf0 (rd_kafka_cgrp_new false) (in_env env0 fetching) = Ret g /\ rkcg_join_state g = JOIN_STARTED /\
    exists a, rkcg_assignment g = Some a /\ g_assigned g = list_to_set a.*1 /\ pending g = [].
Proof.
  eexists. split; [vm_compute; reflexivity|]. split; [reflexivity|].
  exact (proj1 (cgrp_fetch_follows_assignment conf0 false (in_env env0 fetching) _ ltac:(vm_compute; reflexivity) ltac:(vm_compute; reflexivity))).
Defined.

(** C15. The group waits for an unassignment to finish only as long as a
    partition has not stopped or a commit has not been answered: with the last
    of these the wait ends. *)
Theorem cgrp_wait_is_justified cf b l g :
  run_okb cf (rd_kafka_cgrp_new b) l = true -> run cf (rd_kafka_cgrp_new b) l = Ret g ->
  pending g = [] -> commits g = 0 -> rkcg_join_state g <> JOIN_WAIT_UNASSIGN.
Proof.
  intros (g' & Hr & Hi)%run_okb_inv Hr' HP Hc Hj. assert (g' = g) as -> by congruence. destruct Hi as [[] [_ Hw]].
  destruct (Hw Hj) as [?|[?|?]]; [done|lia|done].
Qed.

Lemma cgrp_wait_is_justified_witness :
  exists g, run conf0 (rd_kafka_cgrp_new false) (in_env env0 (fetching ++ closing)) = Ret g /\ rkcg_join_state g <> JOIN_WAIT_UNASSIGN.
Proof.
  eexists. split; [vm_compute; reflexivity|].
  apply (cgrp_wait_is_justified conf0 false (in_env env0 (fetching ++ closing))); vm_compute; reflexivity.
Defined.

(** ** Termination *)

(** C14. A group that was told to terminate does so: once no partition is left in
    the group, none is being stopped, no commit is unanswered and the
    application is not being asked to rebalance, the next [rd_kafka_cgrp_serve]
    reaches the terminal state, empties and shuts the operation queue, lets go
    of the broker, and answers the caller of close exactly once. *)
Theorem cgrp_terminates cf en b l g :
  run_okb cf (rd_kafka_cgrp_new b) l = true -> run cf (rd_kafka_cgrp_new b) l = Ret g ->
  has_flag F_TERMINATE g = true -> pt_toppars (rkcg_parts g) = [] -> pending g = [] -> commits g = 0 -> WAIT_REBALANCE_CB g = false ->
  exists g', rd_kafka_cgrp_serve cf en g = Ret g' /\ g_state g' = STATE_TERM /\
    g_ops g' = [] /\ qu_ops_on (rkcg_queues g') = false /\ g_rkb g' = None /\
    qu_reply (rkcg_queues g') = false /\
    qu_out (rkcg_queues g') = qu_out (rkcg_queues g) ++ (if qu_reply (rkcg_queues g) then [OUT_terminated] else []).
Proof.
  intros (g1 & Hr & Hi)%run_okb_inv Hr' Hf Htp HP Hc Hcb. assert (g1 = g) as -> by congruence. clear Hr Hr'.
  change (has_flag F_TERMINATE g) with (f_term g) in Hf. pose proof Hi as [[] [[] _]]. pose proof (count_nonneg is_commit (g_requests g)) as H1. pose proof (count_nonneg is_reprocess (g_ops g)) as H2.
  assert (g_wait_coord g = []) as Hwc by (apply length_zero_iff_nil; unfold commits in Hc; lia).
  assert (f_wu g = false) as Hwu.
  { destruct (f_wu g); [|done]. unfold WAIT_REBALANCE_CB in Hcb. by rewrite (proj1 m_wu eq_refl) in Hcb. }
  assert (g_wait_unassign_cnt g = 0 /\ rkcg_wait_commit_cnt g = 0) as [Hu0 Hc0] by (rewrite b_stops, HP; cbn [length]; lia).
  unfold rd_kafka_cgrp_serve. cbv zeta. set (up := match g_rkb g with Some _ => en_rkb_up en | None => false end).
  set (g2 := match g_rkb g with Some _ => if negb up && _ then set_state STATE_QUERY_COORD g else g | None => g end).
  assert (exists s, g2 = set_state s g) as [s ->].
  { assert (g = set_state (g_state g) g) as Hid by (by destruct g as [? ? ? ? ? [] ? ? ? ?]).
    unfold g2. destruct (g_rkb g); [|eauto]. destruct (negb up && _); eauto. }
  assert (rd_kafka_cgrp_try_terminate cf (set_state s g) = (true, set_state STATE_TERM g)) as ->.
  { unfold rd_kafka_cgrp_try_terminate, has_flag. gs. case_bool_decide as Es; [by subst|]. rewrite Hf. cbn [negb]. rewrite Hwc. cbn [andb bool_decide].
    rewrite bool_decide_eq_true_2 by done. cbn [negb andb].
    change (WAIT_REBALANCE_CB (set_state s g)) with (WAIT_REBALANCE_CB g). gs. rewrite Hcb, Htp, Hu0, Hc0, Hwu. done. }
  unfold rd_kafka_cgrp_terminated, has_flag. gs. rewrite Hu0, Hc0, Hwu. cbn [negb Z.eqb]. rewrite bool_decide_eq_true_2 by done.
  unfold rd_kafka_cgrp_unassign_broker. gs. destruct (g_rkb g) eqn:Eb; cbn [obind]; gs; rewrite ?Eb; cbn [obind]; gs.
  all: destruct (qu_reply (rkcg_queues g)) eqn:Er; eexists; (split; [reflexivity|]); gs; rewrite ?Er, ?app_nil_r; done.
Qed.

Lemma cgrp_terminates_witness :
  exists g g', start conf0 (in_env env0 (fetching ++ closing)) = Ret g /\ rd_kafka_cgrp_serve conf0 env0 g = Ret g' /\ g_state g' = STATE_TERM.
Proof.
  eexists. destruct (cgrp_terminates conf0 env0 false (in_env env0 (fetching ++ closing)) ltac:(let g := eval vm_compute in (start conf0 (in_env env0 (fetching ++ closing))) in match g with Ret ?g => exact g end)
    ltac:(vm_compute; reflexivity) ltac:(vm_compute; reflexivity) ltac:(vm_compute; reflexivity) ltac:(vm_compute; reflexivity)
    ltac:(vm_compute; reflexivity) ltac:(vm_compute; reflexivity) ltac:(vm_compute; reflexivity)) as (g' & H1 & H2 & _).
  exists g'. split; [|split; [exact H1|exact H2]]. vm_compute. reflexivity.
Defined.

(** ** The discipline is needed *)

(** How many events of a run do not keep the discipline. *)
Fixpoint violations cf g (l : list (env * event)) : nat :=
  match l with
  | [] => 0
  | (en, e) :: l => (if event_okb g e then 0 else 1) + match step cf en g e with Ret g' => violations cf g' l | _ => 0 end
  end%nat.

Definition assign_twice : list (env * event) :=
  in_env env0 (app_assign (Some [(part 0, 5); (part 0, 5)]) ++ app_assign None ++ [EvStopped (part 0); EvStopped (part 0); EvServeOp; EvServeOp]).
Definition assign_while_stopping : list (env * event) :=
  in_env env0 (app_assign (Some [(part 0, 5)]) ++ app_assign (Some [(part 0, 5)]) ++ app_assign (Some [(part 0, 5)]) ++
               [EvStopped (part 0); EvStopped (part 0); EvServeOp; EvServeOp]).
Definition commit_after_close : list (env * event) := in_env env0 (fetching ++ closing ++ app_commit ++ [EvServe]).
Definition rejoin_while_stopping : list (env * event) :=
  in_env env0 (fetching ++ [EvOp (OP_SUBSCRIBE (Some [[116]])); EvServeOp]) ++
  in_env (env_topics 4) [EvMetadata; EvReply 0 (RS_JoinGroup member_reply); EvReply 0 (RS_SyncGroup 0 (inr [part 2]));
                         EvReply 0 (RS_OffsetFetch 0 true true [(part 2, 10, 0)])].
Definition negative_members : list (env * event) :=
  in_env env0 (take 6 joining ++ [EvReply 0 (RS_JoinGroup (mk_join_response 0 0 1 (Some [114]) [2] [2] (-1) (inr [])))]).

(** The discipline is needed: in each of these runs a single event breaks
    it, and an assertion of the group fails.  The application assigns a list
    that names a partition twice, and later removes it; it replaces the
    assignment once more while a partition of it is still being stopped; it
    commits an offset after the group has terminated; the metadata of the
    subscribed topics changes while partitions are being stopped; the
    coordinator announces a negative number of members. *)
Theorem cgrp_discipline_needed :
  Forall (fun l => start conf0 l = Crash /\ violations conf0 (rd_kafka_cgrp_new false) l = 1%nat)
    [assign_twice; assign_while_stopping; commit_after_close; rejoin_while_stopping; negative_members].
Proof. repeat constructor; vm_compute; reflexivity. Qed.

(** ** Groups that stay where they are *)

(** A JoinGroup response that makes this member the leader of more than
    100000 members is dropped without a trace: the group stays in the state of
    waiting for the response, and nothing is sent.  (The code sets an error in a
    variable that is not looked at.) *)
Theorem join_response_too_large g r :
  rkcg_join_state g = JOIN_WAIT_JOIN -> jr_err r = 0 -> jr_ErrorCode r = 0 -> jr_Protocol r <> None -> jr_LeaderId r = jr_MemberId r ->
  100000 < jr_member_cnt r ->
  exists g', rd_kafka_cgrp_handle_JoinGroup g r = Ret g' /\ rkcg_join_state g' = JOIN_WAIT_JOIN /\ g_requests g' = g_requests g /\
    forall cf en, rd_kafka_cgrp_join_state_serve cf en g' = g'.
Proof.
  intros Hj H0 He Hp Hl Hm. unfold rd_kafka_cgrp_handle_JoinGroup. rewrite Hj, H0, He. cbn [Z.eqb negb andb].
  destruct (jr_Protocol r); [|done]. rewrite !bool_decide_eq_true_2 by done. cbn [Z.eqb negb andb].
  destruct (Z.gtb_spec (jr_member_cnt r) 100000); [|lia]. set (g1 := set_member_id _ _). exists g1.
  split_and!; [reflexivity|done..|]. intros cf en. unfold rd_kafka_cgrp_join_state_serve.
  change (rkcg_join_state g1) with (rkcg_join_state g). by rewrite Hj.
Qed.

Lemma join_response_too_large_witness :
  exists g g', start conf0 (in_env env0 (take 6 joining)) = Ret g /\ rkcg_join_state g = JOIN_WAIT_JOIN /\
    rd_kafka_cgrp_handle_JoinGroup g (mk_join_response 0 0 1 (Some [114]) [2] [2] 100001 (inr [])) = Ret g' /\ rkcg_join_state g' = JOIN_WAIT_JOIN.
Proof.
  eexists. destruct (join_response_too_large ltac:(let g := eval vm_compute in (start conf0 (in_env env0 (take 6 joining))) in match g with Ret ?g => exact g end)
    (mk_join_response 0 0 1 (Some [114]) [2] [2] 100001 (inr []))) as (g' & H1 & H2 & _); [reflexivity..|discriminate|reflexivity|reflexivity|].
  exists g'. split; [vm_compute; reflexivity|]. split; [reflexivity|]. split; [exact H1|exact H2].
Defined.

Definition no_start (o : output) : Prop := match o with OUT_fetch_start _ _ => False | _ => True end.

Section Idle.
Context (out0 : list output).

(** The coordinator is there, the assignment is known, and nothing is fetched,
    requested or waited for; since the outputs [out0] nothing was started. *)
Record idle (a : partitions) g : Prop := mk_idle {
  id_state : g_state g = STATE_UP;
  id_rkb : g_rkb g <> None;
  id_js : rkcg_join_state g = JOIN_ASSIGNED;
  id_asg : rkcg_assignment g = Some a;
  id_offsets : Forall (fun x => rktp_stored_offset (offsets_of g x.1) <= rktp_committed_offset (offsets_of g x.1)) a;
  id_assigned : g_assigned g = ∅;
  id_acnt : g_assigned_cnt g = 0;
  id_ucnt : g_wait_unassign_cnt g = 0;
  id_commits : rkcg_wait_commit_cnt g = 0;
  id_wc : g_wait_coord g = [];
  id_wu : f_wu g = false;
  id_term : f_term g = false;
  id_leave : flag_set F_LEAVE_ON_UNASSIGN (rkcg_flags g) = false;
  id_out : exists o, qu_out (rkcg_queues g) = out0 ++ o /\ Forall no_start o;
  id_fetch : Forall (fun q => match q with RQ_OffsetFetch _ _ | RQ_OffsetCommit _ _ => False | _ => True end) (g_requests g) }.

(** Time passes, the group is served, the commit timer fires, heartbeats are
    answered. *)
Definition routine (x : env * event) : Prop :=
  en_rkb_up x.1 = true /\ en_terminating x.1 = false /\
  match x.2 with EvServe | EvTimer => True | EvClock _ => True | EvReply _ (RS_Heartbeat err) => err = 0 | _ => False end.

Lemma heartbeat_idle a g : idle a g -> idle a (rd_kafka_cgrp_heartbeat g).
Proof.
  intros Hi. unfold rd_kafka_cgrp_heartbeat. case_match; [done|]. destruct Hi. split; gs; try done.
  - by rewrite wu_lor, id_wu0.
  - by rewrite term_lor, id_term0.
  - change F_LEAVE_ON_UNASSIGN with (2 ^ 3) in *. by rewrite flag_set_lor, id_leave0.
  - apply Forall_app. by split; [|constructor].
Qed.

Lemma query_idle a en g r : idle a g -> idle a (intervaled_query en g r).
Proof.
  intros Hi. unfold intervaled_query, rd_kafka_cgrp_coord_query. destruct (r.1 >? 0); [|destruct Hi; by split].
  destruct (en_any en); [|destruct Hi; by split]. gs. rewrite (id_state _ _ Hi). rewrite bool_decide_eq_false_2 by done.
  destruct Hi. split; gs; try done. apply Forall_app. by split; [|constructor].
Qed.

Lemma serve_idle a cf en g : idle a g -> en_rkb_up en = true -> en_terminating en = false -> safe (rd_kafka_cgrp_serve cf en g) (idle a).
Proof.
  intros Hi Hu Ht. unfold rd_kafka_cgrp_serve. destruct (g_rkb g) eqn:Eb; [|by destruct (id_rkb a g Hi)]. rewrite Hu. cbn [negb andb]. cbv zeta.
  unfold rd_kafka_cgrp_try_terminate. rewrite (id_state _ _ Hi). change (has_flag F_TERMINATE g) with (f_term g). rewrite (id_term _ _ Hi).
  rewrite bool_decide_eq_false_2 by done. cbn [negb]. rewrite Ht. cbn [serve_state]. rewrite (id_state _ _ Hi).
  unfold concat_wait_coord. rewrite (id_wc _ _ Hi). rewrite bool_decide_eq_true_2 by done.
  set (r := rd_interval _ _ _ _). clearbody r. set (g1 := intervaled_query en g r). assert (idle a g1) as Hi1 by (by apply query_idle). clearbody g1. cbn [obind].
  set (g2 := rd_kafka_cgrp_join_state_serve cf en g1). assert (idle a g2) as Hi2.
  { unfold g2, rd_kafka_cgrp_join_state_serve. rewrite (id_js _ _ Hi1). case_match; [|done]. destruct (rd_interval _ _ _ _) as [diff ri]. cbv zeta.
    assert (idle a (set_ck_heartbeat ri g1)) by (destruct Hi1; by split). destruct (diff >? 0); [by apply heartbeat_idle|done]. }
  rewrite (id_state _ _ Hi2). rewrite bool_decide_eq_true_2 by done. done.
Qed.

Lemma count_abs_cons x l : count_abs_offsets (x :: l) = (if decide (0 <= x.2) then 1 else 0) + count_abs_offsets l.
Proof. unfold count_abs_offsets. cbn -[Z.of_nat Z.add]. destruct (decide (0 <= x.2)); [cbn [length]; rewrite Nat2Z.inj_succ; apply Z.add_comm|symmetry; apply Z.add_0_l]. Qed.

Lemma timer_idle a cf en g : idle a g -> safe (rd_kafka_cgrp_offset_commit_tmr_cb cf en g) (idle a).
Proof.
  intros Hi. pose proof (id_asg _ _ Hi) as Ha. pose proof (id_offsets _ _ Hi) as Hs.
  unfold rd_kafka_cgrp_offset_commit_tmr_cb, rd_kafka_cgrp_assigned_offsets_commit, rd_kafka_cgrp_offsets_commit. cbn [oc_partitions oc_silent_empty oc_reprocess]. rewrite Ha. cbn [option_map].
  assert (count_abs_offsets (map (set_offset g) a) = 0) as Hc.
  { clear Ha Hi. induction Hs as [|x a Hx _ IH]; [done|]. cbn [map]. rewrite count_abs_cons, IH.
    unfold set_offset. cbn [snd]. destruct (Z.gtb_spec (rktp_stored_offset (offsets_of g x.1)) (rktp_committed_offset (offsets_of g x.1))); [lia|].
    case_decide as E; [unfold OFFSET_INVALID in E; lia|done]. }
  rewrite Hc. cbn [Z.eqb]. set (g1 := set_wait_commit_cnt _ g). unfold rd_kafka_cgrp_op_handle_OffsetCommit. cbv zeta. cbn [fmap option_fmap option_map oc_partitions oc_silent_empty].
  rewrite handle_no_offset. cbn [obind]. change (ERR__NO_OFFSET =? ERR__IN_PROGRESS) with false.
  change ((ERR__NO_OFFSET =? ERR_NOT_COORDINATOR_FOR_GROUP) || (ERR__NO_OFFSET =? ERR_GROUP_COORDINATOR_NOT_AVAILABLE)) with false. cbv iota.
  assert (rkcg_wait_commit_cnt g1 = 1) as Hc1 by (unfold g1; gs; rewrite (id_commits _ _ Hi); done). rewrite Hc1.
  change (1 >? 0) with true. change (1 - 1) with 0. cbv iota. change (rkcg_assignment (set_wait_commit_cnt 0 g1)) with (rkcg_assignment g). rewrite Ha.
  change (ERR__NO_OFFSET =? 0) with false. cbn [andb obind]. change ((ERR__NO_OFFSET =? ERR__DESTROY) || (ERR__NO_OFFSET =? ERR__NO_OFFSET) && true) with true. cbv iota.
  unfold rd_kafka_cgrp_check_unassign_done, has_flag. unfold g1. gs. destruct Hi. rewrite id_ucnt0, id_acnt0, id_wu0. cbn [Z.gtb Z.compare orb].
  unfold rd_kafka_cgrp_unassign_done. unfold has_flag. gs. rewrite id_leave0. gs. rewrite id_js0.
  rewrite bool_decide_eq_false_2 by done. cbn [negb safe]. unfold try_terminate, rd_kafka_cgrp_try_terminate, has_flag. gs. rewrite id_state0, id_term0.
  rewrite bool_decide_eq_false_2 by done. cbn [negb snd]. split; gs; done.
Qed.

Lemma routine_idle a cf x g : idle a g -> routine x -> safe (step cf x.1 g x.2) (idle a).
Proof.
  intros Hi (Hu & Ht & Hx). destruct x as [en []]; cbn [fst snd step] in *; try done.
  - by apply serve_idle.
  - case_match; [by apply timer_idle|done].
  - destruct (g_requests g !! n) as [q|] eqn:Eq; [|done]. destruct (_ && _) eqn:E; [|done]. apply andb_true_iff in E as [_ E].
    destruct r; try done. subst. destruct q; try done. cbn [handle_reply]. unfold rd_kafka_cgrp_handle_Heartbeat. cbn [Z.eqb safe].
    change (rd_kafka_err_action 0 true []) with 0. change (has_action ACTION_REFRESH 0) with false. change (has_action ACTION_RETRY 0) with false. cbn.
    destruct Hi. split; gs; try done.
    + rewrite wu_ldiff. by rewrite id_wu0.
    + rewrite term_ldiff. by rewrite id_term0.
    + change F_LEAVE_ON_UNASSIGN with (2 ^ 3) in *. by rewrite flag_set_ldiff, id_leave0.
    + by apply Forall_delete.
  - destruct Hi. by split.
Qed.

Lemma run_app cf l l' g : run cf g (l ++ l') = (let! g := run cf g l in run cf g l').
Proof. revert g. induction l as [|[en e] l IH]; intros g; [done|]. cbn. destruct (step cf en g e); cbn; auto. Qed.

(** A commit is outstanding, and apart from it the group is idle. *)
Definition awaiting (a : partitions) (n : nat) (c : commit) (v : Z) g : Prop :=
  g_requests g !! n = Some (RQ_OffsetCommit c v) /\ rkcg_wait_commit_cnt g = 1 /\ qu_ops_on (rkcg_queues g) = true /\
  idle a (set_wait_commit_cnt 0 (set_requests (delete n (g_requests g)) g)).

(** The errors after which the commit is sent again or the coordinator is looked
    for. *)
Definition transient : list Z :=
  [ERR_GROUP_LOAD_IN_PROGRESS; ERR_GROUP_COORDINATOR_NOT_AVAILABLE; ERR_NOT_COORDINATOR_FOR_GROUP; ERR_ILLEGAL_GENERATION;
   ERR_UNKNOWN_MEMBER_ID; ERR_REBALANCE_IN_PROGRESS; ERR_LEADER_NOT_AVAILABLE; ERR_NOT_LEADER_FOR_PARTITION; ERR_BROKER_NOT_AVAILABLE;
   ERR_REPLICA_NOT_AVAILABLE; ERR__WAIT_COORD; ERR__TIMED_OUT; ERR__TIMED_OUT_QUEUE; ERR_REQUEST_TIMED_OUT; ERR_NOT_ENOUGH_REPLICAS;
   ERR_NOT_ENOUGH_REPLICAS_AFTER_APPEND; ERR__TRANSPORT; ERR__IN_PROGRESS].

Lemma handle_failed en g err rq resp offsets : err <> 0 -> err ∉ transient ->
  exists failed, rd_kafka_handle_OffsetCommit en g err (Some rq) resp offsets = Ret (err, failed, g).
Proof.
  intros H0 Ht. unfold rd_kafka_handle_OffsetCommit. destruct (foldl _ _ resp) as [[failed cnt] last]. exists failed.
  rewrite (proj2 (Z.eqb_neq err 0) H0). unfold rd_kafka_err_action. rewrite (proj2 (Z.eqb_neq err 0) H0).
  assert (Hn : forall e, e ∈ transient -> (err =? e) = false) by (intros e He; apply Z.eqb_neq; congruence).
  assert (Hl : forall l, bool_decide (Forall (fun e => e ∈ transient) l) = true -> bool_decide (err ∈ l) = false).
  { intros l Hl. apply bool_decide_eq_false_2. intros He. apply bool_decide_eq_true in Hl. rewrite Forall_forall in Hl. by apply Ht, Hl. }
  cbn [foldl snd fst]. rewrite (Hn ERR_GROUP_LOAD_IN_PROGRESS), (Hn ERR_GROUP_COORDINATOR_NOT_AVAILABLE),
    (Hn ERR_NOT_COORDINATOR_FOR_GROUP), (Hn ERR_ILLEGAL_GENERATION), (Hn ERR_UNKNOWN_MEMBER_ID), (Hn ERR_REBALANCE_IN_PROGRESS)
    by (apply (bool_decide_eq_true_1 _); vm_compute; reflexivity). rewrite !Hl by (vm_compute; reflexivity).
  by destruct (err =? ERR_OFFSET_METADATA_TOO_LARGE), (err =? ERR_INVALID_COMMIT_OFFSET_SIZE),
    (err =? ERR_TOPIC_AUTHORIZATION_FAILED), (err =? ERR_GROUP_AUTHORIZATION_FAILED).
Qed.

Lemma idle_emit a o g : idle a g -> no_start o -> idle a (emit o g).
Proof.
  intros [] Ho. split; gs; try done. destruct id_out0 as (l & -> & F). exists (l ++ [o]). rewrite <- app_assoc. split; [done|].
  apply Forall_app. by split; [|constructor].
Qed.

Lemma idle_try a cf g : idle a g -> try_terminate cf g = g.
Proof.
  intros Hi. unfold try_terminate, rd_kafka_cgrp_try_terminate. rewrite (id_state _ _ Hi). change (has_flag F_TERMINATE g) with (f_term g).
  rewrite (id_term _ _ Hi). by rewrite bool_decide_eq_false_2.
Qed.

Lemma idle_unassign_done a cf g : idle a g -> rd_kafka_cgrp_check_unassign_done cf g = Ret g.
Proof.
  intros Hi. pose proof (idle_try a cf g Hi) as Et. pose proof Hi as []. unfold rd_kafka_cgrp_check_unassign_done. rewrite id_ucnt0, id_acnt0, id_commits0.
  change (has_flag F_WAIT_UNASSIGN g) with (f_wu g). rewrite id_wu0. cbn [Z.gtb Z.compare orb].
  unfold rd_kafka_cgrp_unassign_done, has_flag. gs. rewrite id_leave0. gs. rewrite id_js0. rewrite bool_decide_eq_false_2 by done. cbn [negb]. by rewrite Et.
Qed.

(** The commit fails. *)
Lemma failed_idle a cf en n c v err resp g : awaiting a n c v g -> err <> 0 -> err ∉ transient ->
  safe (step cf en g (EvReply n (RS_OffsetCommit err resp))) (idle a).
Proof.
  intros (Er & Ec & Eo & Hi) H0 Ht. cbn [step]. rewrite Er, Eo. cbn [reply_matches andb handle_reply].
  set (g1 := set_requests _ g) in *. unfold rd_kafka_cgrp_op_handle_OffsetCommit. cbv zeta.
  set (err' := if _ : bool then ERR__DESTROY else err).
  assert (He : err' <> 0 /\ err' ∉ transient) by (unfold err'; case_match; [split; [done|by apply (bool_decide_eq_true_1 _); vm_compute]|done]). clearbody err'.
  destruct He as [He0 Het]. cbn [fmap option_fmap option_map].
  destruct (handle_failed en g1 err' (RQ_OffsetCommit c v) resp (oc_partitions c) He0 Het) as (failed & ->). cbn [obind].
  assert (Hn : forall e, bool_decide (e ∈ transient) = true -> (err' =? e) = false).
  { intros e He. apply Z.eqb_neq. intros ->. by apply bool_decide_eq_true in He. }
  rewrite (Hn ERR__IN_PROGRESS), (Hn ERR_NOT_COORDINATOR_FOR_GROUP), (Hn ERR_GROUP_COORDINATOR_NOT_AVAILABLE) by (vm_compute; reflexivity). cbn [orb].
  change (rkcg_wait_commit_cnt g1) with (rkcg_wait_commit_cnt g). rewrite Ec. change (1 >? 0) with true. change (1 - 1) with 0. cbv iota.
  set (g2 := set_wait_commit_cnt 0 g1) in *. rewrite (id_asg _ _ Hi). rewrite (proj2 (Z.eqb_neq err' 0) He0). cbn [andb obind].
  case_match; [by rewrite (idle_unassign_done a cf g2 Hi)|].
  match goal with |- safe (rd_kafka_cgrp_handle_OffsetCommit cf ?x _ _ _) _ => set (g3 := x) end.
  assert (Hi3 : idle a g3).
  { unfold g3. set (g4 := if _ && _ then _ else g2). assert (idle a g4) by (unfold g4; case_match; [by apply idle_emit|done]).
    case_match; [by apply idle_emit|done]. }
  clearbody g3. unfold rd_kafka_cgrp_handle_OffsetCommit. rewrite (proj2 (Z.eqb_neq err' 0) He0). rewrite (id_js _ _ Hi3).
  change (is_state JOIN_ASSIGNED JOIN_WAIT_UNASSIGN) with false. cbn [obind safe]. by rewrite (idle_try a cf g3 Hi3).
Qed.

Lemma routine_run a cf l g : idle a g -> Forall routine l -> safe (run cf g l) (idle a).
Proof.
  intros Hi Hl. revert g Hi. induction Hl as [|[en e] l Hx _ IH]; intros g Hi; [done|]. cbn [run].
  eapply safe_bind; [by apply (routine_idle a cf (en, e))|]. auto.
Qed.
End Idle.

(** C38. A commit that fails can keep a group from ever fetching.  In any state in
    which the assignment is known, the start of the fetchers is put off until a commit
    is answered, that commit is the only thing outstanding, and no stored offset is
    ahead of the committed one: when it is answered with an error that
    neither retries it nor concerns the coordinator, nothing starts the fetchers
    as long as the coordinator stays up and all that happens is that the group is served, time
    passes, the commit timer fires and heartbeats are answered.  The group stays
    assigned and no partition is fetched. *)
Theorem cgrp_failed_commit_blocks_fetch cf en g a n c v err resp l :
  awaiting (qu_out (rkcg_queues g)) a n c v g -> err <> 0 -> err ∉ transient -> Forall routine l ->
  exists g' o, run cf g ((en, EvReply n (RS_OffsetCommit err resp)) :: l) = Ret g' /\
    rkcg_join_state g' = JOIN_ASSIGNED /\ rkcg_assignment g' = Some a /\ g_assigned g' = ∅ /\ rkcg_wait_commit_cnt g' = 0 /\
    qu_out (rkcg_queues g') = qu_out (rkcg_queues g) ++ o /\ Forall no_start o.
Proof.
  intros Hw H0 Ht Hl. cbn [run]. pose proof (failed_idle _ a cf en n c v err resp g Hw H0 Ht) as Hs.
  destruct (step cf en g _) as [g1| |]; try done. cbn [obind]. pose proof (routine_run _ a cf l g1 Hs Hl) as Hr.
  destruct (run cf g1 l) as [g'| |]; try done. destruct Hr. destruct id_out0 as (o & Eo & F). by exists g', o.
Qed.

(** The offsets of the assigned partitions arrive while a commit is
    outstanding. *)
Definition put_off : list event :=
  joining ++ app_commit ++ [EvReply 0 (RS_OffsetFetch 0 true true [(part 0, 10, 0); (part 1, 20, 0)])].

(** Answered without an error, the commit lets the fetchers start. *)
Definition answered : list event :=
  [EvReply 0 (RS_OffsetCommit 0 []); EvReply 0 (RS_OffsetFetch 0 true true [(part 0, 10, 0); (part 1, 20, 0)])].

Lemma cgrp_failed_commit_blocks_fetch_witness :
  run_okb conf0 (rd_kafka_cgrp_new false) (in_env env0 (put_off ++ answered)) = true /\
  (exists g, start conf0 (in_env env0 (put_off ++ answered)) = Ret g /\ rkcg_join_state g = JOIN_STARTED) /\
  exists g0 g, start conf0 (in_env env0 put_off) = Ret g0 /\
    run conf0 g0 (in_env env0 [EvReply 0 (RS_OffsetCommit ERR_OFFSET_METADATA_TOO_LARGE []); EvClock 4000000; EvServe; EvReply 0 (RS_Heartbeat 0); EvTimer; EvServe]) = Ret g /\
    rkcg_join_state g = JOIN_ASSIGNED /\ g_assigned g = ∅.
Proof.
  split; [vm_compute; reflexivity|]. split; [eexists; split; vm_compute; reflexivity|].
  destruct (start conf0 (in_env env0 put_off)) as [g0| |] eqn:E; [|vm_compute in E; done..]. exists g0.
  destruct (cgrp_failed_commit_blocks_fetch conf0 env0 g0 [(part 0, OFFSET_INVALID); (part 1, OFFSET_INVALID)] 0
    (mk_commit (Some [(part 0, 12)]) false 0 false true false) 0 ERR_OFFSET_METADATA_TOO_LARGE []
    (in_env env0 [EvClock 4000000; EvServe; EvReply 0 (RS_Heartbeat 0); EvTimer; EvServe])) as (g & o & H1 & H2 & _ & H3 & _).
  - vm_compute in E. injection E as <-. split; [reflexivity|]. split; [reflexivity|]. split; [reflexivity|].
    split; try reflexivity; try discriminate; [repeat constructor; vm_compute; discriminate|by exists []|repeat constructor].
  - done.
  - apply (bool_decide_eq_true_1 _). vm_compute. reflexivity.
  - repeat constructor.
  - exists g. split; [done|]. split; [exact H1|]. split; [exact H2|exact H3].
Defined.

(** ** The broker that is asked *)

Lemma join_coord cf en g : rkcg_coord (rd_kafka_cgrp_join cf en g) = rkcg_coord g.
Proof.
  unfold rd_kafka_cgrp_join, update_check, rd_kafka_cgrp_update_subscribed_topics. destruct (negb _ || _); [done|]. destruct (en_refresh en =? 1); [done|].
  cbv zeta. assert (rkcg_coord (if bool_decide (mb_subscribed_topics (rkcg_member g) = []) then (if subscription_empty g then (false, g) else
    if bool_decide (mb_subscribed_topics (rkcg_member g) = cf_sort cf (default [] (Some (en_tinfos en)))) then (false, g)
    else (true, set_subscribed_topics (cf_sort cf (default [] (Some (en_tinfos en)))) g)).2 else g) = rkcg_coord g) as H.
  { destruct (bool_decide _); [|done]. destruct (subscription_empty g); [done|]. by destruct (bool_decide _). }
  set (g1 := if bool_decide _ then _ else g) in *. clearbody g1. by destruct (bool_decide _).
Qed.

Lemma join_state_serve_coord cf en g : rkcg_coord (rd_kafka_cgrp_join_state_serve cf en g) = rkcg_coord g.
Proof.
  unfold rd_kafka_cgrp_join_state_serve, rd_kafka_cgrp_heartbeat. destruct (rkcg_join_state g); try done.
  - destruct (mb_subscription _); [|done]. destruct (rd_interval_immediate _ _ _ _) as [diff ri]. cbv zeta. destruct (diff >? 0); [|done]. by rewrite join_coord.
  - destruct (has_flag F_SUBSCRIPTION g); [|done]. destruct (rd_interval _ _ _ _) as [diff ri]. cbv zeta. destruct (diff >? 0); [|done]. by destruct (has_flag _ _).
  - destruct (has_flag F_SUBSCRIPTION g); [|done]. destruct (rd_interval _ _ _ _) as [diff ri]. cbv zeta. destruct (diff >? 0); [|done]. by destruct (has_flag _ _).
  - destruct (has_flag F_SUBSCRIPTION g); [|done]. destruct (rd_interval _ _ _ _) as [diff ri]. cbv zeta. destruct (diff >? 0); [|done]. by destruct (has_flag _ _).
Qed.

Lemma fetch_start_coord cf g l u g' : rd_kafka_cgrp_partitions_fetch_start cf g l u = Ret g' -> rkcg_coord g' = rkcg_coord g.
Proof.
  unfold rd_kafka_cgrp_partitions_fetch_start. destruct (_ >? 0); [by intros [= <-]|]. cbv zeta. destruct (_ =? 0); [by intros [= <-]|].
  set (g1 := if _ && cf_offset_broker cf then _ else _). assert (rkcg_coord g1 = rkcg_coord g) as Hc.
  { unfold g1, rd_kafka_cgrp_offsets_fetch. destruct (_ && cf_offset_broker cf); [by destruct (_ || _)|].
    destruct (foldl_start l (set_join_state JOIN_STARTED (version_new_barrier g))) as (o & n & -> & _). done. }
  clearbody g1. destruct (_ <=? _); [by intros [= <-]|done].
Qed.

(** When serving the group changes its broker to the coordinator, it does
    not look at the coordinator but at the broker it had before: with that one
    up, the group counts as up and starts to use the new broker, whatever state
    the connection to it is in. *)
Theorem serve_trusts_old_broker cf en b l g old c :
  run_okb cf (rd_kafka_cgrp_new b) l = true -> run cf (rd_kafka_cgrp_new b) l = Ret g ->
  g_state g = STATE_WAIT_BROKER -> g_rkb g = Some old -> en_find en = Some c -> old <> c ->
  rkb_nodeid c = co_id (rkcg_coord g) -> co_id (rkcg_coord g) <> -1 ->
  has_flag F_TERMINATE g = false -> en_terminating en = false -> en_rkb_up en = true -> en_supports en = true ->
  exists g', rd_kafka_cgrp_serve cf en g = Ret g' /\ g_state g' = STATE_UP /\ g_rkb g' = Some c.
Proof.
  intros (g1 & Hr & Hi)%run_okb_inv Hr' Hs Ho Hf Hne Hid Hn Htf Hterm Hup Hsup. assert (g1 = g) as -> by congruence.
  pose proof (serve_ok cf en g Hi) as Hok. destruct (rd_kafka_cgrp_serve cf en g) as [g'| |] eqn:E; try done. exists g'. split; [done|].
  revert E. unfold rd_kafka_cgrp_serve. rewrite Ho, Hup, Hs. cbn [negb andb]. cbv zeta.
  unfold rd_kafka_cgrp_try_terminate. rewrite Hs, Htf. rewrite bool_decide_eq_false_2 by done. cbn [negb]. rewrite Hterm.
  assert (exists g1, rd_kafka_cgrp_reassign_broker en g = Ret (true, g1) /\ g_state g1 = STATE_WAIT_BROKER_TRANSPORT /\ g_rkb g1 = Some c) as (g1 & E1 & Hs1 & Hc1).
  { unfold rd_kafka_cgrp_reassign_broker, rd_kafka_cgrp_select_broker. rewrite Hs, Ho, Hf. rewrite (bool_decide_eq_false_2 (STATE_WAIT_BROKER = STATE_TERM)) by done.
    destruct (Z.eqb_spec (co_id (rkcg_coord g)) (-1)); [done|]. cbn [negb]. cbv zeta.
    assert (BROKER_IS_COORD g c = true) as Hcc by (unfold BROKER_IS_COORD; rewrite Hid; destruct (Z.eqb_spec (co_id (rkcg_coord g)) (-1)); [done|]; by rewrite Z.eqb_refl).
    rewrite Hcc. cbn [negb]. rewrite andb_false_r. cbn [andb]. rewrite bool_decide_eq_false_2 by congruence.
    unfold rd_kafka_cgrp_unassign_broker, rd_kafka_cgrp_assign_broker. rewrite Ho. cbn [obind]. gs. rewrite bool_decide_eq_true_2 by done.
    destruct (rd_interval_disabled _); cbn [negb]; unfold BROKER_IS_COORD in *; gs; rewrite Hcc; cbn [obind]; eexists; (split; [reflexivity|]); done. }
  cbn [serve_state]. rewrite Hs, E1. cbn [obind]. rewrite Hs1, Hsup. cbn [negb orb].
  set (g2 := rd_kafka_cgrp_join_state_serve cf en (set_state STATE_UP g1)).
  assert (rkcg_coord g2 = rkcg_coord (set_state STATE_UP g1)) as Hc2 by apply join_state_serve_coord. clearbody g2.
  intros E. assert (exists g3, rkcg_coord g3 = rkcg_coord g2 /\ (if negb (is_state (g_state g3) STATE_UP) then
    let '(diff, ri) := rd_interval (ck_scan (rkcg_clocks g3)) 1000000 (g_now g) (g_now g3) in
    if diff >? 0 then rd_kafka_cgrp_timeout_scan cf en (set_ck_scan ri g3) (g_now g) else Ret (set_ck_scan ri g3) else Ret g3) = Ret g') as (g3 & Hc3 & E3).
  { destruct (rkcg_assignment g2) as [a|]; [|by exists g2]. destruct (CAN_FETCH_START g2); [|by exists g2].
    destruct (rd_kafka_cgrp_partitions_fetch_start cf g2 a false) as [g3| |] eqn:E4; try done. apply fetch_start_coord in E4. by exists g3. }
  rewrite Hc3, Hc2 in E3. gs. rewrite bool_decide_eq_true_2 in E3 by done. cbn [negb] in E3. injection E3 as <-. rewrite Hc3, Hc2. done.
Qed.

Definition bootstrap : broker := mk_broker 2 1 false.
Definition env_unknown : env := mk_env true true None (Some bootstrap) (mk_broker 0 (-1) true) true false false 0 [] true 0.

Lemma serve_trusts_old_broker_witness :
  exists g g', start conf0 (in_env env_unknown [EvClock 1000000; EvServe; EvReply 0 (RS_GroupCoordinator 0 5)]) = Ret g /\
    rd_kafka_cgrp_serve conf0 env0 g = Ret g' /\ g_state g' = STATE_UP /\ g_rkb g' = Some coordinator.
Proof.
  eexists. destruct (serve_trusts_old_broker conf0 env0 false (in_env env_unknown [EvClock 1000000; EvServe; EvReply 0 (RS_GroupCoordinator 0 5)])
    ltac:(let g := eval vm_compute in (start conf0 (in_env env_unknown [EvClock 1000000; EvServe; EvReply 0 (RS_GroupCoordinator 0 5)])) in match g with Ret ?g => exact g end)
    bootstrap coordinator ltac:(vm_compute; reflexivity) ltac:(vm_compute; reflexivity) ltac:(vm_compute; reflexivity) ltac:(vm_compute; reflexivity)
    ltac:(vm_compute; reflexivity) ltac:(vm_compute; discriminate) ltac:(vm_compute; reflexivity) ltac:(vm_compute; discriminate) ltac:(vm_compute; reflexivity)
    ltac:(vm_compute; reflexivity) ltac:(vm_compute; reflexivity) ltac:(vm_compute; reflexivity)) as (g' & H1 & H2 & H3).
  exists g'. split; [vm_compute; reflexivity|]. split; [exact H1|]. split; [exact H2|exact H3].
Defined.
