(* ===== verification/Feature.v ===== *)
(** * Broker features (rdkafka_feature.c, rdkafka_feature.h)

    What a broker supports is a table of request types with the range of their
    versions, either from the response to an ApiVersion request or, for brokers
    that do not know that request, from the tables of this file.  The table
    decides the features the client uses, whether a request may be sent and in
    which version. *)
From Stdlib Require Import ZArith Lia String.
From stdpp Require Import base numbers list.
From S2P Require Import Prelude Proto Reader Msg KBuf.

(** ** Data *)

Record ApiVersion : Type := mk_api { ApiKey : Z; MinVer : Z; MaxVer : Z }.

#[export] Instance ApiVersion_eq_dec : EqDecision ApiVersion.
Proof. solve_decision. Defined.

Definition RD_KAFKAP_Produce : Z := 0.
Definition RD_KAFKAP_Fetch : Z := 1.
Definition RD_KAFKAP_Offset : Z := 2.
Definition RD_KAFKAP_Metadata : Z := 3.
Definition RD_KAFKAP_OffsetCommit : Z := 8.
Definition RD_KAFKAP_OffsetFetch : Z := 9.
Definition RD_KAFKAP_GroupCoordinator : Z := 10.
Definition RD_KAFKAP_JoinGroup : Z := 11.
Definition RD_KAFKAP_Heartbeat : Z := 12.
Definition RD_KAFKAP_LeaveGroup : Z := 13.
Definition RD_KAFKAP_SyncGroup : Z := 14.
Definition RD_KAFKAP_DescribeGroups : Z := 15.
Definition RD_KAFKAP_ListGroups : Z := 16.
Definition RD_KAFKAP_SaslHandshake : Z := 17.
Definition RD_KAFKAP_ApiVersion : Z := 18.
Definition RD_KAFKAP_CreateTopics : Z := 19.
Definition RD_KAFKAP_DeleteTopics : Z := 20.

Definition RD_KAFKA_FEATURE_MSGVER1 : Z := 0x1.
Definition RD_KAFKA_FEATURE_APIVERSION : Z := 0x2.
Definition RD_KAFKA_FEATURE_BROKER_BALANCED_CONSUMER : Z := 0x4.
Definition RD_KAFKA_FEATURE_THROTTLETIME : Z := 0x8.
Definition RD_KAFKA_FEATURE_SASL_GSSAPI : Z := 0x10.
Definition RD_KAFKA_FEATURE_SASL_HANDSHAKE : Z := 0x20.
Definition RD_KAFKA_FEATURE_BROKER_GROUP_COORD : Z := 0x40.
Definition RD_KAFKA_FEATURE_LZ4 : Z := 0x80.
Definition RD_KAFKA_FEATURE_OFFSET_TIME : Z := 0x100.
Definition RD_KAFKA_FEATURE_MSGVER2 : Z := 0x200.
Definition RD_KAFKA_FEATURE_TOPIC_ADMIN_API : Z := 0x400.

(** Each feature with the versions of requests it needs. *)
Definition rd_kafka_feature_map : list (Z * list ApiVersion) :=
  [ (RD_KAFKA_FEATURE_MSGVER1, [mk_api RD_KAFKAP_Produce 2 2; mk_api RD_KAFKAP_Fetch 2 2]);
    (RD_KAFKA_FEATURE_MSGVER2, [mk_api RD_KAFKAP_Produce 3 3; mk_api RD_KAFKAP_Fetch 4 4]);
    (RD_KAFKA_FEATURE_APIVERSION, [mk_api RD_KAFKAP_ApiVersion 0 0]);
    (RD_KAFKA_FEATURE_BROKER_GROUP_COORD, [mk_api RD_KAFKAP_GroupCoordinator 0 0]);
    (RD_KAFKA_FEATURE_BROKER_BALANCED_CONSUMER,
      [mk_api RD_KAFKAP_GroupCoordinator 0 0; mk_api RD_KAFKAP_OffsetCommit 1 2; mk_api RD_KAFKAP_OffsetFetch 1 1;
       mk_api RD_KAFKAP_JoinGroup 0 0; mk_api RD_KAFKAP_SyncGroup 0 0; mk_api RD_KAFKAP_Heartbeat 0 0;
       mk_api RD_KAFKAP_LeaveGroup 0 0]);
    (RD_KAFKA_FEATURE_THROTTLETIME, [mk_api RD_KAFKAP_Produce 1 2; mk_api RD_KAFKAP_Fetch 1 2]);
    (RD_KAFKA_FEATURE_SASL_GSSAPI, [mk_api RD_KAFKAP_JoinGroup 0 0]);
    (RD_KAFKA_FEATURE_SASL_HANDSHAKE, [mk_api RD_KAFKAP_SaslHandshake 0 0]);
    (RD_KAFKA_FEATURE_LZ4, [mk_api RD_KAFKAP_GroupCoordinator 0 0]);
    (RD_KAFKA_FEATURE_OFFSET_TIME, [mk_api RD_KAFKAP_Offset 1 1]);
    (RD_KAFKA_FEATURE_TOPIC_ADMIN_API, [mk_api RD_KAFKAP_CreateTopics 0 0; mk_api RD_KAFKAP_DeleteTopics 0 0]) ].

Definition rd_kafka_ApiVersion_Queryable : list ApiVersion := [mk_api RD_KAFKAP_ApiVersion 0 0].

Definition rd_kafka_ApiVersion_0_9_0 : list ApiVersion :=
  [ mk_api RD_KAFKAP_Produce 0 1; mk_api RD_KAFKAP_Fetch 0 1; mk_api RD_KAFKAP_Offset 0 0; mk_api RD_KAFKAP_Metadata 0 0;
    mk_api RD_KAFKAP_OffsetCommit 0 2; mk_api RD_KAFKAP_OffsetFetch 0 1; mk_api RD_KAFKAP_GroupCoordinator 0 0;
    mk_api RD_KAFKAP_JoinGroup 0 0; mk_api RD_KAFKAP_Heartbeat 0 0; mk_api RD_KAFKAP_LeaveGroup 0 0;
    mk_api RD_KAFKAP_SyncGroup 0 0; mk_api RD_KAFKAP_DescribeGroups 0 0; mk_api RD_KAFKAP_ListGroups 0 0 ].

Definition rd_kafka_ApiVersion_0_8_2 : list ApiVersion :=
  [ mk_api RD_KAFKAP_Produce 0 0; mk_api RD_KAFKAP_Fetch 0 0; mk_api RD_KAFKAP_Offset 0 0; mk_api RD_KAFKAP_Metadata 0 0;
    mk_api RD_KAFKAP_OffsetCommit 0 1; mk_api RD_KAFKAP_OffsetFetch 0 1; mk_api RD_KAFKAP_GroupCoordinator 0 0 ].

Definition rd_kafka_ApiVersion_0_8_1 : list ApiVersion :=
  [ mk_api RD_KAFKAP_Produce 0 0; mk_api RD_KAFKAP_Fetch 0 0; mk_api RD_KAFKAP_Offset 0 0; mk_api RD_KAFKAP_Metadata 0 0;
    mk_api RD_KAFKAP_OffsetCommit 0 1; mk_api RD_KAFKAP_OffsetFetch 0 0 ].

Definition rd_kafka_ApiVersion_0_8_0 : list ApiVersion :=
  [ mk_api RD_KAFKAP_Produce 0 0; mk_api RD_KAFKAP_Fetch 0 0; mk_api RD_KAFKAP_Offset 0 0; mk_api RD_KAFKAP_Metadata 0 0 ].

(** ** Searching and sorting *)

Definition rd_kafka_ApiVersion_key_cmp (a b : ApiVersion) : Z := ApiKey a - ApiKey b.

(** bsearch of the C library on a table ordered by [rd_kafka_ApiVersion_key_cmp]. *)
Fixpoint bsearch_loop (fuel : nat) (key : ApiVersion) (apis : list ApiVersion) (l u : nat) : option ApiVersion :=
  match fuel with
  | O => None
  | S fuel =>
      if (l <? u)%nat then
        let idx := ((l + u) / 2)%nat in
        match apis !! idx with
        | None => None
        | Some p =>
            let comparison := rd_kafka_ApiVersion_key_cmp key p in
            if comparison <? 0 then bsearch_loop fuel key apis l idx
            else if comparison >? 0 then bsearch_loop fuel key apis (S idx) u
            else Some p
        end
      else None
  end.

Definition bsearch (key : ApiVersion) (apis : list ApiVersion) : option ApiVersion :=
  bsearch_loop (S (length apis)) key apis 0 (length apis).

(** qsort of the C library; it keeps the order of equal elements. *)
Fixpoint qsort_insert (x : ApiVersion) (l : list ApiVersion) : list ApiVersion :=
  match l with
  | [] => [x]
  | y :: l => if rd_kafka_ApiVersion_key_cmp x y <=? 0 then x :: y :: l else y :: qsort_insert x l
  end.

Definition qsort (l : list ApiVersion) : list ApiVersion := foldr qsort_insert [] l.

(** ** The tables of older brokers *)

Definition vermap : list (string * option (list ApiVersion)) :=
  [ ("0.9.0", Some rd_kafka_ApiVersion_0_9_0); ("0.8.2", Some rd_kafka_ApiVersion_0_8_2);
    ("0.8.1", Some rd_kafka_ApiVersion_0_8_1); ("0.8.0", Some rd_kafka_ApiVersion_0_8_0);
    ("0.7.", None); ("0.6.", None); ("", Some rd_kafka_ApiVersion_Queryable) ]%string.

Fixpoint vermap_loop (l : list (string * option (list ApiVersion))) (broker_version : string) (fallback : option string)
    (fallback_i : option (option (list ApiVersion))) : bool * option (list ApiVersion) * option (option (list ApiVersion)) * bool :=
  match l with
  | [] => (false, None, fallback_i, false)
  | (pfx, apis) :: l =>
      if String.prefix pfx broker_version then
        match apis with
        | None => (false, None, fallback_i, true)
        | Some _ => (true, apis, fallback_i, false)
        end
      else
        vermap_loop l broker_version fallback
          (match fallback with Some f => if String.eqb pfx f then Some apis else fallback_i | None => fallback_i end)
  end.

(** The result and [*apisp]. *)
Definition rd_kafka_get_legacy_ApiVersions (broker_version : string) (fallback : option string)
  : outcome (Z * option (list ApiVersion)) :=
  let '(ret, apis, fallback_i, unsupported) := vermap_loop vermap broker_version fallback None in
  if unsupported : bool then Ret (0, None)
  else
    match apis, fallback with
    | None, Some _ => match fallback_i with None => Crash | Some apis => Ret (if ret : bool then 1 else 0, apis) end
    | _, _ => Ret (if ret : bool then 1 else 0, apis)
    end.

(** The comparison of two pointers: only the last row of [vermap] has the table
    [rd_kafka_ApiVersion_Queryable]. *)
Definition rd_kafka_ApiVersion_is_queryable (broker_version : string) : outcome bool :=
  let! (ret, apis) := rd_kafka_get_legacy_ApiVersions broker_version None in
  Ret (negb (ret =? 0) && bool_decide (apis = Some rd_kafka_ApiVersion_Queryable)).

Definition rd_kafka_ApiVersions_copy (src : list ApiVersion) : list ApiVersion := qsort src.

(** ** Features *)

Definition rd_kafka_ApiVersion_check (apis : list ApiVersion) (m : ApiVersion) : bool :=
  match bsearch m apis with
  | None => false
  | Some api => (MinVer m <=? MaxVer api) && (MinVer api <=? MaxVer m)
  end.

Definition feature_step (broker_apis : list ApiVersion) (features : Z) (f : Z * list ApiVersion) : Z :=
  let fails := foldl (fun n m => if rd_kafka_ApiVersion_check broker_apis m then n else n + 1) 0 f.2 in
  if fails =? 0 then Z.lor features f.1 else features.

Definition rd_kafka_features_check (broker_apis : list ApiVersion) : Z :=
  foldl (feature_step broker_apis) 0 rd_kafka_feature_map.

(** ** Versions *)

(** The highest version of [key] between [minver] and [maxver] that the broker
    supports, or -1. *)
Definition rd_kafka_broker_ApiVersion_supported (apis : list ApiVersion) (key minver maxver : Z) : Z :=
  match bsearch (mk_api key 0 0) apis with
  | None => -1
  | Some ret =>
      if MaxVer ret <? maxver then
        if MaxVer ret <? minver then -1 else MaxVer ret
      else if MinVer ret >? maxver then -1
      else maxver
  end.

(** Whether a request with the given header and required features may be sent. *)
Definition rd_kafka_broker_request_supported (rkb_features : Z) (apis : list ApiVersion) (key version features : Z) : bool :=
  if key =? RD_KAFKAP_ApiVersion then true
  else if negb (features =? 0) then Z.land rkb_features features =? features
  else
    match bsearch (mk_api key 0 0) apis with
    | None => false
    | Some ret => (MinVer ret <=? version) && (version <=? MaxVer ret)
    end.

Definition rd_kafka_broker_feature_enable (rkb_features features : Z) : Z :=
  if negb (Z.land features rkb_features =? 0) then rkb_features else Z.lor rkb_features features.

Definition rd_kafka_broker_feature_disable (rkb_features features : Z) : Z :=
  if Z.land features rkb_features =? 0 then rkb_features else Z.ldiff rkb_features features.

(** ** The response to an ApiVersion request *)

Fixpoint api_array (n : nat) : kparser (list ApiVersion) :=
  match n with
  | O => pret []
  | S n =>
      let* key := rd_kafka_buf_read_i16 in
      let* minver := rd_kafka_buf_read_i16 in
      let* maxver := rd_kafka_buf_read_i16 in
      let* l := api_array n in
      pret (mk_api key minver maxver :: l)
  end.

(** The body: an error code, or the table.  A negative count is passed on to
    malloc and qsort as a huge unsigned number. *)
Definition api_versions_body : kparser (Z + list ApiVersion) :=
  let* ErrorCode := rd_kafka_buf_read_i16 in
  if negb (ErrorCode =? 0) then pret (inl ErrorCode)
  else
    let* ApiArrayCnt := rd_kafka_buf_read_i32 in
    if ApiArrayCnt >? 1000 then rd_kafka_buf_parse_fail
    else if ApiArrayCnt <? 0 then fun _ => Crash
    else
      let* l := api_array (Z.to_nat ApiArrayCnt) in
      pret (inr (qsort l)).

Definition rd_kafka_handle_ApiVersion (err : Z) (rkbuf : rd_kafka_buf) : outcome (Z + list ApiVersion) :=
  if negb (err =? 0) then Ret (inl err)
  else
    let! (k, r) := api_versions_body rkbuf in
    Ret (match r with Some x => x | None => inl (rkbuf_err k) end).

(** ** The response to a SaslHandshake request *)

(** What ["%.*s"] prints of a string: up to a NUL.  A string of a received response is
    contiguous. *)
Definition printed (mech : rd_kafkap_str) : Z := match kstr_str mech with Some str => strlen str | None => 0 end.

(** The names of the mechanisms are read until the text of [msz] bytes is full. *)
Fixpoint sasl_mechanisms (n : nat) (sep msz mof : Z) : kparser () :=
  match n with
  | O => pret ()
  | S n =>
      let* mech := rd_kafka_buf_read_str in
      let mof := mof + sep + printed mech in
      if mof >=? msz then pret () else sasl_mechanisms n 1 msz mof
  end.

(** [MechCnt * 32] is an int; a negative one is a huge size for alloca.  The
    terminator that is written to a text of 0 bytes is left out. *)
Definition sasl_handshake_body : kparser Z :=
  let* ErrorCode := rd_kafka_buf_read_i16 in
  let* MechCnt := rd_kafka_buf_read_i32 in
  if (MechCnt <? 0) || (MechCnt * 32 >=? 2 ^ 31) then fun _ => Crash
  else
    let* _ := sasl_mechanisms (Z.to_nat MechCnt) 0 (Z.min 511 (MechCnt * 32)) 0 in
    pret ErrorCode.

(** The error a SaslHandshake response is handled with, 0 for none. *)
Definition sasl_handshake_err (rkbuf : rd_kafka_buf) : outcome Z :=
  let! (k, r) := sasl_handshake_body rkbuf in
  Ret (match r with Some ErrorCode => ErrorCode | None => rkbuf_err k end).
