(* ===== verification/FeatureSpec.v ===== *)
(** * Broker features: what the tables and the negotiation guarantee

    [api_known apis key a] says that the table has the row [a] for [key]; on a
    sorted table without duplicate keys bsearch finds exactly that row. *)
From Stdlib Require Import ZArith Lia String Sorted.
From stdpp Require Import base numbers list sorting.
From S2P Require Import Prelude Proto Reader Msg KBuf KBufFacts FetchSpec Feature.

(** ** bsearch and qsort *)

Definition api_le (a b : ApiVersion) : Prop := ApiKey a <= ApiKey b.

(** A table as qsort leaves it. *)
Definition api_sorted (apis : list ApiVersion) : Prop := StronglySorted api_le apis.

Lemma api_sorted_lookup apis i j a b :
  api_sorted apis -> (i <= j)%nat -> apis !! i = Some a -> apis !! j = Some b -> ApiKey a <= ApiKey b.
Proof.
  intros Hs. revert i j. induction Hs as [|x l Hs IH Hx]; intros i j Hij; [done|].
  destruct i as [|i], j as [|j]; cbn; intros Ha Hb; simplify_eq; try lia.
  - by apply (proj1 (Forall_forall _ _) Hx), list_elem_of_lookup_2 with j.
  - eapply IH; [|done..]. lia.
Qed.

Lemma qsort_insert_perm x l : qsort_insert x l ≡ₚ x :: l.
Proof. induction l as [|y l IH]; cbn; [done|]. destruct (_ <=? 0); [done|]. rewrite IH. apply Permutation_swap. Qed.

Lemma qsort_perm l : qsort l ≡ₚ l.
Proof. induction l as [|x l IH]; cbn; [done|]. by rewrite qsort_insert_perm, IH. Qed.

Lemma qsort_insert_sorted x l : api_sorted l -> api_sorted (qsort_insert x l).
Proof.
  unfold rd_kafka_ApiVersion_key_cmp. induction 1 as [|y l Hs IH Hy]; cbn; [repeat constructor|].
  unfold rd_kafka_ApiVersion_key_cmp. destruct (Z.leb_spec (ApiKey x - ApiKey y) 0).
  - constructor; [by constructor|]. constructor; [unfold api_le; lia|]. eapply Forall_impl; [done|]. unfold api_le. lia.
  - constructor; [done|]. rewrite qsort_insert_perm. constructor; [unfold api_le; lia|done].
Qed.

Lemma qsort_sorted l : api_sorted (qsort l).
Proof. induction l; cbn; [constructor|by apply qsort_insert_sorted]. Qed.

Lemma bsearch_loop_some fuel key apis l u p :
  bsearch_loop fuel key apis l u = Some p -> p ∈ apis /\ ApiKey p = ApiKey key.
Proof.
  revert l u. induction fuel as [|fuel IH]; intros l u; cbn [bsearch_loop]; [done|].
  destruct (l <? u)%nat; [|discriminate]. destruct (apis !! _) eqn:E; [|discriminate]. unfold rd_kafka_ApiVersion_key_cmp.
  case_if; [exact (IH _ _)|]. case_if; [exact (IH _ _)|]. intros [= ->]. bool_hyps.
  split; [by apply list_elem_of_lookup_2 in E|lia].
Qed.

Lemma bsearch_loop_none fuel key apis l u i p :
  api_sorted apis -> (u - l < fuel)%nat -> (u <= length apis)%nat -> (l <= i < u)%nat -> apis !! i = Some p -> ApiKey p = ApiKey key ->
  bsearch_loop fuel key apis l u <> None.
Proof.
  intros Hs. revert l u. induction fuel as [|fuel IH]; intros l u Hf Hu Hi Hp Hk; [lia|]. cbn [bsearch_loop].
  destruct (Nat.ltb_spec l u); [|lia].
  assert (l <= (l + u) / 2 < u)%nat as Hm.
  { split; [apply Nat.div_le_lower_bound; lia|apply Nat.Div0.div_lt_upper_bound; lia]. }
  set (m := ((l + u) / 2)%nat) in *. clearbody m.
  destruct (apis !! m) as [q|] eqn:E; [|apply lookup_ge_None in E; lia]. unfold rd_kafka_ApiVersion_key_cmp.
  case_if; [|case_if; [|done]]; bool_hyps.
  - destruct (decide (i < m)%nat); [apply IH; try done; lia|].
    pose proof (api_sorted_lookup apis m i q p Hs ltac:(lia) E Hp). lia.
  - destruct (decide (m < i)%nat); [apply IH; try done; lia|].
    pose proof (api_sorted_lookup apis i m p q Hs ltac:(lia) Hp E). lia.
Qed.

Lemma bsearch_some key apis p : bsearch key apis = Some p -> p ∈ apis /\ ApiKey p = ApiKey key.
Proof. apply bsearch_loop_some. Qed.

Lemma bsearch_found key apis p :
  api_sorted apis -> NoDup (map ApiKey apis) -> p ∈ apis -> ApiKey p = ApiKey key -> bsearch key apis = Some p.
Proof.
  intros Hs Hn Hp Hk. destruct (list_elem_of_lookup_1 _ _ Hp) as [i Hi].
  destruct (bsearch key apis) as [q|] eqn:E.
  - apply bsearch_some in E as [[j Hj]%list_elem_of_lookup_1 Hq]. f_equal.
    assert (i = j) as ->; [|congruence].
    eapply NoDup_lookup; [exact Hn| |]; rewrite list_lookup_fmap, ?Hi, ?Hj; cbn; [done|]. congruence.
  - destruct (bsearch_loop_none (S (length apis)) key apis 0 (length apis) i p); try done; [lia|].
    pose proof (lookup_lt_Some _ _ _ Hi). lia.
Qed.

Lemma bsearch_absent key apis : (forall p, p ∈ apis -> ApiKey p <> ApiKey key) -> bsearch key apis = None.
Proof. intros H. destruct (bsearch key apis) eqn:E; [|done]. apply bsearch_some in E as [? ?]. by destruct (H _ H0). Qed.

(** ** Negotiating a version *)

(** The versions of [key] that the client and the broker have in common. *)
Definition common_version (apis : list ApiVersion) (key minver maxver v : Z) : Prop :=
  minver <= v <= maxver /\ exists a, a ∈ apis /\ ApiKey a = key /\ MinVer a <= v <= MaxVer a.

(** A table of a broker: one row per request type, ranges that are not empty. *)
Definition table_ok (apis : list ApiVersion) : Prop :=
  NoDup (map ApiKey apis) /\ Forall (fun a => 0 <= MinVer a <= MaxVer a) apis.

Lemma common_version_row apis key minver maxver v a :
  NoDup (map ApiKey apis) -> a ∈ apis -> ApiKey a = key ->
  common_version apis key minver maxver v <-> (minver <= v <= maxver /\ MinVer a <= v <= MaxVer a).
Proof.
  intros Hn Ha Hk. unfold common_version. split; [|naive_solver].
  intros (? & b & [j Hj]%list_elem_of_lookup_1 & Hb & ?). split; [done|].
  apply list_elem_of_lookup_1 in Ha as [i Hi].
  assert (i = j) as ->; [|naive_solver congruence].
  eapply NoDup_lookup; [exact Hn| |]; rewrite list_lookup_fmap, ?Hi, ?Hj; cbn; [done|]. congruence.
Qed.

Lemma table_ok_qsort l : table_ok l -> table_ok (qsort l).
Proof. intros [? ?]. split; by rewrite qsort_perm. Qed.

Lemma row_supported apis key a v rkb_features :
  bsearch (mk_api key 0 0) apis = Some a -> MinVer a <= v <= MaxVer a ->
  rd_kafka_broker_request_supported rkb_features apis key v 0 = true.
Proof.
  intros E Hv. unfold rd_kafka_broker_request_supported. rewrite E. destruct (_ =? _); [done|]. cbn.
  apply andb_true_iff. rewrite !Z.leb_le. lia.
Qed.

(** C35. For every table a broker sends with one row per request type and no range that
    ends before it begins, the negotiated version is the highest that both sides support, -1 exactly when there is none, and a request in that
    version is allowed to be sent. *)
Theorem version_negotiation (l : list ApiVersion) (key minver maxver : Z) :
  table_ok l -> 0 <= minver <= maxver ->
  let apis := rd_kafka_ApiVersions_copy l in
  let v := rd_kafka_broker_ApiVersion_supported apis key minver maxver in
  (v = -1 <-> forall w, ~ common_version l key minver maxver w) /\
  (v <> -1 ->
     common_version l key minver maxver v /\
     (forall w, common_version l key minver maxver w -> w <= v) /\
     forall rkb_features, rd_kafka_broker_request_supported rkb_features apis key v 0 = true).
Proof.
  intros [Hn Hr] Hv apis v.
  assert (forall w, common_version l key minver maxver w <-> common_version apis key minver maxver w) as Hc.
  { intros w. unfold common_version, apis, rd_kafka_ApiVersions_copy. by setoid_rewrite qsort_perm. }
  setoid_rewrite Hc. clear Hc.
  assert (NoDup (map ApiKey apis)) as Hn' by (unfold apis, rd_kafka_ApiVersions_copy; by rewrite qsort_perm).
  assert (Forall (fun a => 0 <= MinVer a <= MaxVer a) apis) as Hr' by (unfold apis, rd_kafka_ApiVersions_copy; by rewrite qsort_perm).
  pose proof (qsort_sorted l) as Hs. fold (rd_kafka_ApiVersions_copy l) in Hs. fold apis in Hs.
  unfold v, rd_kafka_broker_ApiVersion_supported. clear v. clearbody apis.
  destruct (bsearch _ apis) as [a|] eqn:E.
  - destruct (bsearch_some _ _ _ E) as [Ha Hk]. cbn in Hk. setoid_rewrite (fun w => common_version_row apis key minver maxver w a Hn' Ha Hk).
    pose proof (proj1 (Forall_forall _ _) Hr' a Ha) as Hra. cbn in Hra.
    assert (forall v, v <> -1 -> minver <= v <= maxver /\ MinVer a <= v <= MaxVer a ->
      (forall w, minver <= w <= maxver /\ MinVer a <= w <= MaxVer a -> w <= v) ->
      (v = -1 <-> forall w, ~ (minver <= w <= maxver /\ MinVer a <= w <= MaxVer a)) /\
      (v <> -1 -> (minver <= v <= maxver /\ MinVer a <= v <= MaxVer a) /\
        (forall w, minver <= w <= maxver /\ MinVer a <= w <= MaxVer a -> w <= v) /\
        forall f, rd_kafka_broker_request_supported f apis key v 0 = true)) as Hgo.
    { intros v Hv1 Hc Hm. split; [split; [lia|intros H0; by destruct (H0 v)]|]. intros _.
      split_and!; try tauto; [lia..|]. intros f. eapply row_supported; [done|lia]. }
    repeat case_if; bool_hyps.
    + split; [|done]. split; [|done]. intros _ w. lia.
    + apply Hgo; lia.
    + split; [|done]. split; [|done]. intros _ w. lia.
    + apply Hgo; lia.
  - split; [|done]. split; [|done]. intros _ w (_ & a & Ha & Hk & _).
    rewrite (bsearch_found (mk_api key 0 0) apis a Hs Hn' Ha Hk) in E. done.
Qed.

Lemma version_negotiation_witness :
  table_ok rd_kafka_ApiVersion_0_9_0 /\
  rd_kafka_broker_ApiVersion_supported (rd_kafka_ApiVersions_copy rd_kafka_ApiVersion_0_9_0) RD_KAFKAP_OffsetCommit 1 3 = 2 /\
  common_version rd_kafka_ApiVersion_0_9_0 RD_KAFKAP_OffsetCommit 1 3 2.
Proof.
  assert (table_ok rd_kafka_ApiVersion_0_9_0) as Ht.
  { split; [apply (bool_decide_unpack _); by vm_compute|]. repeat constructor; cbn; lia. }
  split; [exact Ht|]. split; [by vm_compute|].
  assert (0 <= 1 <= 3) as Hb by lia.
  pose proof (version_negotiation rd_kafka_ApiVersion_0_9_0 RD_KAFKAP_OffsetCommit 1 3 Ht Hb) as [_ H].
  assert (rd_kafka_broker_ApiVersion_supported (rd_kafka_ApiVersions_copy rd_kafka_ApiVersion_0_9_0) RD_KAFKAP_OffsetCommit 1 3 = 2)
    as Ev by (by vm_compute).
  rewrite Ev in H. apply H. lia.
Defined.

(** ** Features *)

(** A row of the table covers some version that [m] asks for. *)
Definition overlaps (apis : list ApiVersion) (m : ApiVersion) : Prop :=
  exists a, a ∈ apis /\ ApiKey a = ApiKey m /\ MinVer m <= MaxVer a /\ MinVer a <= MaxVer m.

Lemma ApiVersion_check_spec l m :
  NoDup (map ApiKey l) -> rd_kafka_ApiVersion_check (qsort l) m = true <-> overlaps l m.
Proof.
  intros Hn. assert (NoDup (map ApiKey (qsort l))) as Hn' by (by rewrite qsort_perm).
  unfold rd_kafka_ApiVersion_check, overlaps. split.
  - destruct (bsearch _ _) as [a|] eqn:E; [|done]. apply bsearch_some in E as [Ha ?]. rewrite qsort_perm in Ha.
    intros ?. bool_hyps. eauto.
  - intros (a & Ha & Hk & ? & ?). rewrite <- (qsort_perm l) in Ha.
    rewrite (bsearch_found m _ a (qsort_sorted l) Hn' Ha Hk). apply andb_true_iff. lia.
Qed.

Lemma feature_fails_spec apis deps n :
  0 <= n ->
  0 <= foldl (fun n m => if rd_kafka_ApiVersion_check apis m then n else n + 1) n deps /\
  (foldl (fun n m => if rd_kafka_ApiVersion_check apis m then n else n + 1) n deps = 0 <->
   n = 0 /\ Forall (fun m => rd_kafka_ApiVersion_check apis m = true) deps).
Proof.
  revert n. induction deps as [|m deps IH]; intros n Hn; cbn; [naive_solver|].
  destruct (rd_kafka_ApiVersion_check apis m) eqn:E; rewrite Forall_cons, E.
  - destruct (IH n Hn) as [? ->]. naive_solver.
  - destruct (IH (n + 1) ltac:(lia)) as [? ->]. split; [done|]. split; [lia|naive_solver].
Qed.

Lemma features_bit apis fm acc i :
  Z.testbit (foldl (feature_step apis) acc fm) i = true <->
  Z.testbit acc i = true \/
  exists f deps, (f, deps) ∈ fm /\ Z.testbit f i = true /\ Forall (fun m => rd_kafka_ApiVersion_check apis m = true) deps.
Proof.
  revert acc. induction fm as [|[f deps] fm IH]; intros acc; cbn; [split; [by left|intros [?|(? & ? & []%elem_of_nil & _)]; done]|]. rewrite IH. clear IH.
  setoid_rewrite elem_of_cons. unfold feature_step. cbn.
  destruct (feature_fails_spec apis deps 0 ltac:(lia)) as [_ Hf].
  destruct (Z.eqb_spec (foldl (fun n m => if rd_kafka_ApiVersion_check apis m then n else n + 1) 0 deps) 0) as [Hz|Hz];
    rewrite Hf in Hz; rewrite ?Z.lor_spec, ?orb_true_iff; naive_solver.
Qed.

(** C36. The features of a broker, for every table it sends: bit [i] is set exactly when
    some row of the feature map with that bit has all its requests supported in a
    version it asks for. *)
Theorem features_exact (l : list ApiVersion) (i : Z) :
  NoDup (map ApiKey l) ->
  Z.testbit (rd_kafka_features_check (rd_kafka_ApiVersions_copy l)) i = true <->
  exists f deps, (f, deps) ∈ rd_kafka_feature_map /\ Z.testbit f i = true /\ Forall (overlaps l) deps.
Proof.
  intros Hn. unfold rd_kafka_features_check. rewrite features_bit, Z.bits_0.
  setoid_rewrite (Forall_iff _ _ _ (fun m => ApiVersion_check_spec l m Hn)). naive_solver.
Qed.

(** ** The response to an ApiVersion request *)

Definition api_wire (a : ApiVersion) : list Z := be_enc 2 (ApiKey a) ++ be_enc 2 (MinVer a) ++ be_enc 2 (MaxVer a).

Definition apis_wire (l : list ApiVersion) : list Z := be_enc 2 0 ++ be_enc 4 (zlen l) ++ concat (map api_wire l).

Definition api_ok (a : ApiVersion) : Prop := s_ok 16 (ApiKey a) /\ s_ok 16 (MinVer a) /\ s_ok 16 (MaxVer a).

Lemma api_array_reads l : Forall api_ok l -> reads (api_array (length l)) (concat (map api_wire l)) l.
Proof.
  induction 1 as [|a l (? & ? & ?) _ IH]; cbn [length api_array map fmap list_fmap concat]; [apply reads_ret|]. unfold api_wire at 1. rewrite <- !app_assoc.
  eapply reads_bind; [by apply reads_i16|]. eapply reads_bind; [by apply reads_i16|].
  eapply reads_bind; [by apply reads_i16|]. eapply reads_bind_ret; [done|]. destruct a. apply reads_ret.
Qed.

Lemma api_body_reads l : Forall api_ok l -> zlen l <= 1000 -> reads api_versions_body (apis_wire l) (inr (qsort l)).
Proof.
  intros Ho Hl. eapply reads_bind; [by apply reads_i16|]. cbn [negb Z.eqb].
  eapply reads_bind; [apply reads_i32; unfold s_ok; lia|].
  destruct (Z.gtb_spec (zlen l) 1000); [lia|]. destruct (Z.ltb_spec (zlen l) 0); [lia|]. rewrite Nat2Z.id.
  eapply reads_bind_ret; [by apply api_array_reads|apply reads_ret].
Qed.

(** C37. Every table of at most 1000 rows that a broker encodes in its response is read
    back, ordered by request type; an error code is passed on, more rows are a
    parse error, and a negative number of rows crashes the client. *)
Theorem api_versions_roundtrip (l : list ApiVersion) (rest : list Z) (e n : Z) :
  Forall api_ok l -> zlen (apis_wire l ++ rest) < 2 ^ 63 ->
  (zlen l <= 1000 ->
     exists k, rd_kafka_buf_new_shadow (apis_wire l ++ rest) (zlen (apis_wire l ++ rest)) None = Ret k /\
       rd_kafka_handle_ApiVersion 0 k = Ret (inr (qsort l)) /\ qsort l ≡ₚ l /\ api_sorted (qsort l)) /\
  (s_ok 16 e -> e <> 0 -> forall st en k, kview st en k (be_enc 2 e ++ rest) -> rd_kafka_handle_ApiVersion 0 k = Ret (inl e)) /\
  (s_ok 32 n -> forall st en k, kview st en k (be_enc 2 0 ++ be_enc 4 n ++ rest) ->
     (1000 < n -> rd_kafka_handle_ApiVersion 0 k = Ret (inl RD_KAFKA_RESP_ERR__BAD_MSG)) /\
     (n < 0 -> rd_kafka_handle_ApiVersion 0 k = Crash)).
Proof.
  intros Ho Hz. split; [|split].
  - intros Hl. destruct (shadow_view (apis_wire l ++ rest) None) as (k & -> & V & _ & _); [split; [|done]; cbn; lia|].
    exists k. split; [done|]. split; [|split; [apply qsort_perm|apply qsort_sorted]].
    unfold rd_kafka_handle_ApiVersion. cbn [negb Z.eqb]. by rewrite (api_body_reads l Ho Hl _ _ _ _ V).
  - intros He Hne st en k V. unfold rd_kafka_handle_ApiVersion, api_versions_body, pbind. cbn [negb Z.eqb].
    rewrite (reads_i16 e He _ _ _ _ V). cbn [obind]. destruct (Z.eqb_spec e 0); [done|]. done.
  - intros Hn st en k V. unfold rd_kafka_handle_ApiVersion, api_versions_body, pbind. cbn [negb Z.eqb].
    rewrite (reads_i16 0 ltac:(unfold s_ok; lia) _ _ _ _ V). cbn [obind negb Z.eqb].
    rewrite (reads_i32 n Hn _ _ _ _ (kview_ladv (L:=buf_lens) st en k (be_enc 2 0) (be_enc 4 n ++ rest) V)). cbn [obind].
    split; intros ?; destruct (Z.gtb_spec n 1000); try lia; [done|]. destruct (Z.ltb_spec n 0); [done|lia].
Qed.

Lemma api_versions_roundtrip_witness :
  exists k, rd_kafka_buf_new_shadow (apis_wire rd_kafka_ApiVersion_0_8_0 ++ []) 30 None = Ret k /\
    rd_kafka_handle_ApiVersion 0 k = Ret (inr rd_kafka_ApiVersion_0_8_0).
Proof.
  assert (Forall api_ok rd_kafka_ApiVersion_0_8_0) as Ho.
  { unfold rd_kafka_ApiVersion_0_8_0, api_ok, s_ok. repeat (apply Forall_cons_2; [split_and!; by vm_compute|]). by apply Forall_nil_2. }
  assert (zlen (apis_wire rd_kafka_ApiVersion_0_8_0 ++ []) < 2 ^ 63) as Hz by (by vm_compute).
  pose proof (api_versions_roundtrip rd_kafka_ApiVersion_0_8_0 [] 0 0 Ho Hz) as (H & _ & _).
  assert (zlen rd_kafka_ApiVersion_0_8_0 <= 1000) as Hl by (by vm_compute).
  destruct (H Hl) as (k & Hk & Hh & _). exists k. split; [exact Hk|exact Hh].
Defined.

(** ** The response to a SaslHandshake request *)

Definition mech_wire (m : list Z) : list Z := be_enc 2 (zlen m) ++ m.

Definition sasl_wire (e : Z) (mechs : list (list Z)) : list Z := be_enc 2 e ++ be_enc 4 (zlen mechs) ++ concat (map mech_wire mechs).

Lemma mech_reads m : zlen m < 2 ^ 15 -> reads rd_kafka_buf_read_str (mech_wire m) (mk_kstr (zlen m) (Some m) []).
Proof.
  intros Hm. unfold rd_kafka_buf_read_str, mech_wire. eapply reads_bind; [apply reads_i16; unfold s_ok; lia|]. cbv zeta.
  unfold RD_KAFKAP_STR_LEN0, RD_KAFKAP_STR_LEN_NULL. rewrite (proj2 (Z.eqb_neq (zlen m) (-1))) by lia.
  rewrite <- (app_nil_r m) at 2. eapply reads_bind; [apply reads_contig|apply reads_ret].
Qed.

Lemma mechanisms_read mechs sep msz mof st en k rest :
  Forall (fun m => zlen m < 2 ^ 15) mechs -> kview st en k (concat (map mech_wire mechs) ++ rest) ->
  exists k', sasl_mechanisms (length mechs) sep msz mof k = Ret (k', Some ()).
Proof.
  intros Hm. revert sep mof k. induction Hm as [|m mechs Hm _ IH]; intros sep mof k V; cbn [length sasl_mechanisms]; [by exists k|].
  cbn [map concat] in V. rewrite <- app_assoc in V. unfold pbind. rewrite (mech_reads m Hm _ _ _ _ V). cbn [obind]. case_if; [by eexists|].
  eapply IH, (kview_ladv (L := buf_lens) st en k (mech_wire m)), V.
Qed.

(** The error code of a SaslHandshake response is read, whatever mechanisms it
    names; a negative number of them crashes the client. *)
Lemma sasl_handshake_reads e mechs n rest st en k :
  s_ok 16 e -> Forall (fun m => zlen m < 2 ^ 15) mechs ->
  (zlen mechs < 2 ^ 26 -> kview st en k (sasl_wire e mechs ++ rest) -> sasl_handshake_err k = Ret e) /\
  (- 2 ^ 31 <= n < 0 -> kview st en k (be_enc 2 e ++ be_enc 4 n ++ rest) -> sasl_handshake_err k = Crash).
Proof.
  intros He Hm. assert (Hstart : forall c tl, s_ok 32 c -> kview st en k (be_enc 2 e ++ be_enc 4 c ++ tl) ->
    exists k', kview st en k' tl /\ sasl_handshake_err k =
      (let! (k, r) := (if (c <? 0) || (c * 32 >=? 2 ^ 31) then fun _ => Crash
         else let* _ := sasl_mechanisms (Z.to_nat c) 0 (Z.min 511 (c * 32)) 0 in pret e) k' in
       Ret (match r with Some x => x | None => rkbuf_err k end))).
  { intros c tl Hc V. pose proof (kview_ladv (L := buf_lens) st en k (be_enc 2 e) (be_enc 4 c ++ tl) V) as V1.
    eexists. split; [exact (kview_ladv (L := buf_lens) st en _ (be_enc 4 c) tl V1)|].
    unfold sasl_handshake_err, sasl_handshake_body, pbind at 1 2. rewrite (reads_i16 e He _ _ _ _ V). cbn [obind].
    by rewrite (reads_i32 c Hc _ _ _ _ V1). }
  split.
  - intros Hl V. unfold sasl_wire in V. rewrite <- !app_assoc in V. destruct (Hstart (zlen mechs) _ ltac:(unfold s_ok; lia) V) as (k' & V' & ->).
    rewrite (proj2 (Z.ltb_ge _ 0)), Z.geb_leb, (proj2 (Z.leb_gt (2 ^ 31) _)) by lia. cbn [orb]. rewrite Nat2Z.id. unfold pbind.
    by destruct (mechanisms_read mechs 0 (Z.min 511 (zlen mechs * 32)) 0 st en k' rest Hm V') as (k2 & ->).
  - intros Hn V. destruct (Hstart n rest ltac:(unfold s_ok; lia) V) as (k' & V' & ->). by rewrite (proj2 (Z.ltb_lt n 0)) by lia.
Qed.

Lemma features_exact_witness :
  NoDup (map ApiKey rd_kafka_ApiVersion_0_9_0) /\
  Z.testbit (rd_kafka_features_check (rd_kafka_ApiVersions_copy rd_kafka_ApiVersion_0_9_0)) 2 = true /\
  exists f deps, (f, deps) ∈ rd_kafka_feature_map /\ Z.testbit f 2 = true /\ Forall (overlaps rd_kafka_ApiVersion_0_9_0) deps.
Proof.
  assert (NoDup (map ApiKey rd_kafka_ApiVersion_0_9_0)) as Hn by (apply (bool_decide_unpack _); by vm_compute).
  split; [exact Hn|]. split; [by vm_compute|]. apply (features_exact rd_kafka_ApiVersion_0_9_0 2 Hn). by vm_compute.
Defined.

(** ** Older brokers *)

Lemma vermap_loop_total l v fb fi :
  (String.prefix "" v = true -> exists apis, ("", Some apis)%string ∈ l) ->
  let '(ret, apis, _, unsupported) := vermap_loop l v fb fi in
  (exists pfx a, (pfx, Some a) ∈ l /\ String.prefix pfx v = true /\ ret = true /\ apis = Some a /\ unsupported = false) \/
  (unsupported = true /\ ret = false /\ exists pfx, (pfx, None) ∈ l /\ String.prefix pfx v = true).
Proof.
  intros Hl. assert (exists apis, (""%string, Some apis) ∈ l) as (e & He); [apply Hl; by destruct v|]. clear Hl. revert fi.
  induction l as [|[pfx apis] l IH]; intros fi; [by apply elem_of_nil in He|]. cbn.
  destruct (String.prefix pfx v) eqn:Ep.
  - destruct apis as [a|].
    + left. exists pfx, a. split; [apply elem_of_cons; by left|done].
    + right. do 2 (split; [done|]). exists pfx. split; [apply elem_of_cons; by left|done].
  - apply elem_of_cons in He as [[= <- <-]|He]; [by destruct v|]. specialize (IH He).
    match goal with |- context [vermap_loop l v fb ?x] => specialize (IH x); destruct (vermap_loop l v fb x) as [[[ret a] fi'] un] end.
    destruct IH as [(p & x & ? & ?)|(? & ? & p & ? & ?)].
    + left. exists p, x. split; [apply elem_of_cons; by right|done].
    + right. do 2 (split; [done|]). exists p. split; [apply elem_of_cons; by right|done].
Qed.

(** The assertion on the fallback never fails, and the fallback is never used: every
    version is either known or explicitly unsupported. *)
Theorem legacy_versions_total (v : string) (fb : option string) :
  (exists apis pfx, rd_kafka_get_legacy_ApiVersions v fb = Ret (1, Some apis) /\ (pfx, Some apis) ∈ vermap /\ String.prefix pfx v = true) \/
  (rd_kafka_get_legacy_ApiVersions v fb = Ret (0, None) /\ (String.prefix "0.7." v || String.prefix "0.6." v)%string = true).
Proof.
  pose proof (vermap_loop_total vermap v fb None) as H. unfold rd_kafka_get_legacy_ApiVersions.
  destruct (vermap_loop vermap v fb None) as [[[ret a] fi'] un].
  destruct H as [(p & x & Hp & Hv & -> & -> & ->)|(-> & -> & p & Hp & Hv)].
  { intros _. exists rd_kafka_ApiVersion_Queryable. by do 6 right; left. }
  - left. exists x, p. done.
  - right. split; [done|]. apply orb_true_iff. unfold vermap in Hp.
    do 4 (apply elem_of_cons in Hp as [?|Hp]; [simplify_eq|]).
    do 2 (apply elem_of_cons in Hp as [?|Hp]; [simplify_eq; auto|]).
    apply elem_of_cons in Hp as [?|Hp]; [simplify_eq|by apply elem_of_nil in Hp].
Qed.
