(* ===== verification/BrokerState.v ===== *)
(** * The broker thread: state (rdkafka_broker.h, rdkafka_buf.h)

    A request lives in one of the three queues of its broker, in an operation on
    its way to the broker thread, or in a reply on the queue of the thread that
    sent it.  It is known by [rkbuf_id], the pointer.  The flags are booleans; the
    buffer is its bytes with the offset of the reader ([BufSpec] shows that the
    segmented buffer behaves so).  What the sockets and other threads see is
    explicit: [tx_bytes] and [tx_log], [rx_pending], [rkb_replies], [rkb_done],
    [rk_out]. *)
From Stdlib Require Import ZArith Lia.
From stdpp Require Import base numbers list.
From S2P Require Import Prelude.
From S2P Require Import Proto.
From S2P Require Import Feature.

(** ** Error codes *)

Definition ERR__DESTROY : Z := -197.
Definition ERR__FAIL : Z := -196.
Definition ERR__TRANSPORT : Z := -195.
Definition ERR__RESOLVE : Z := -193.
Definition ERR__ALL_BROKERS_DOWN : Z := -187.
Definition ERR__TIMED_OUT : Z := -185.
Definition ERR__NODE_UPDATE : Z := -182.
Definition ERR__NOT_IMPLEMENTED : Z := -170.
Definition ERR__AUTHENTICATION : Z := -169.
Definition ERR__TIMED_OUT_QUEUE : Z := -166.
Definition ERR__UNSUPPORTED_FEATURE : Z := -165.
Definition ERR__BAD_MSG : Z := -199.

(** ** States *)

Inductive broker_state : Type :=
  | STATE_INIT | STATE_DOWN | STATE_CONNECT | STATE_AUTH
  | STATE_UP | STATE_UPDATE | STATE_APIVERSION_QUERY | STATE_AUTH_HANDSHAKE.

#[export] Instance broker_state_eq_dec : EqDecision broker_state.
Proof. solve_decision. Defined.

Definition is_state (s t : broker_state) : bool := bool_decide (s = t).

(** [s >= RD_KAFKA_BROKER_STATE_UP] *)
Definition state_ge_up (s : broker_state) : bool :=
  match s with
  | STATE_UP | STATE_UPDATE | STATE_APIVERSION_QUERY | STATE_AUTH_HANDSHAKE => true
  | _ => false
  end.

(** ** Requests *)

(** The callbacks that belong to the broker thread itself, and all others. *)
Inductive resp_cb : Type := CB_ApiVersion | CB_SaslHandshake | CB_client.

#[export] Instance resp_cb_eq_dec : EqDecision resp_cb.
Proof. solve_decision. Defined.

Record rkbuf : Type := mk_rkbuf {
  rkbuf_id : nat;  (* which buffer this is *)
  rkbuf_ApiKey : Z;
  rkbuf_ApiVersion : Z;
  rkbuf_features : Z;
  rkbuf_flash : bool;  (* RD_KAFKA_OP_F_FLASH *)
  rkbuf_blocking : bool;  (* RD_KAFKA_OP_F_BLOCKING *)
  rkbuf_no_response : bool;  (* RD_KAFKA_OP_F_NO_RESPONSE *)
  rkbuf_sent : bool;  (* RD_KAFKA_OP_F_SENT *)
  rkbuf_bytes : list Z;  (* the bytes of rkbuf_buf *)
  rkbuf_of : Z;  (* rd_slice_offset(&rkbuf_reader) *)
  rkbuf_corrid : Z;
  rkbuf_connid : Z;
  rkbuf_retries : Z;
  rkbuf_ts_enq : Z;
  rkbuf_ts_sent : Z;
  rkbuf_ts_retry : Z;
  rkbuf_ts_timeout : Z;
  rkbuf_abs_timeout : Z;
  rkbuf_rel_timeout : Z;
  rkbuf_replyq : bool;  (* rkbuf_replyq.q is set *)
  rkbuf_orig_replyq : bool;
  rkbuf_response : option (list Z);
  rkbuf_cb : option resp_cb;
  rkbuf_msg_cnt : Z }.  (* rkbuf_msgq.rkmq_msg_cnt *)

Definition rq_sent (x : bool) (r : rkbuf) : rkbuf :=
  mk_rkbuf (rkbuf_id r) (rkbuf_ApiKey r) (rkbuf_ApiVersion r) (rkbuf_features r) (rkbuf_flash r) (rkbuf_blocking r)
    (rkbuf_no_response r) x (rkbuf_bytes r) (rkbuf_of r) (rkbuf_corrid r) (rkbuf_connid r) (rkbuf_retries r)
    (rkbuf_ts_enq r) (rkbuf_ts_sent r) (rkbuf_ts_retry r) (rkbuf_ts_timeout r) (rkbuf_abs_timeout r)
    (rkbuf_rel_timeout r) (rkbuf_replyq r) (rkbuf_orig_replyq r) (rkbuf_response r) (rkbuf_cb r) (rkbuf_msg_cnt r).
Definition rq_bytes (x : list Z) (r : rkbuf) : rkbuf :=
  mk_rkbuf (rkbuf_id r) (rkbuf_ApiKey r) (rkbuf_ApiVersion r) (rkbuf_features r) (rkbuf_flash r) (rkbuf_blocking r)
    (rkbuf_no_response r) (rkbuf_sent r) x (rkbuf_of r) (rkbuf_corrid r) (rkbuf_connid r) (rkbuf_retries r)
    (rkbuf_ts_enq r) (rkbuf_ts_sent r) (rkbuf_ts_retry r) (rkbuf_ts_timeout r) (rkbuf_abs_timeout r)
    (rkbuf_rel_timeout r) (rkbuf_replyq r) (rkbuf_orig_replyq r) (rkbuf_response r) (rkbuf_cb r) (rkbuf_msg_cnt r).
Definition rq_of (x : Z) (r : rkbuf) : rkbuf :=
  mk_rkbuf (rkbuf_id r) (rkbuf_ApiKey r) (rkbuf_ApiVersion r) (rkbuf_features r) (rkbuf_flash r) (rkbuf_blocking r)
    (rkbuf_no_response r) (rkbuf_sent r) (rkbuf_bytes r) x (rkbuf_corrid r) (rkbuf_connid r) (rkbuf_retries r)
    (rkbuf_ts_enq r) (rkbuf_ts_sent r) (rkbuf_ts_retry r) (rkbuf_ts_timeout r) (rkbuf_abs_timeout r)
    (rkbuf_rel_timeout r) (rkbuf_replyq r) (rkbuf_orig_replyq r) (rkbuf_response r) (rkbuf_cb r) (rkbuf_msg_cnt r).
Definition rq_corrid (x : Z) (r : rkbuf) : rkbuf :=
  mk_rkbuf (rkbuf_id r) (rkbuf_ApiKey r) (rkbuf_ApiVersion r) (rkbuf_features r) (rkbuf_flash r) (rkbuf_blocking r)
    (rkbuf_no_response r) (rkbuf_sent r) (rkbuf_bytes r) (rkbuf_of r) x (rkbuf_connid r) (rkbuf_retries r)
    (rkbuf_ts_enq r) (rkbuf_ts_sent r) (rkbuf_ts_retry r) (rkbuf_ts_timeout r) (rkbuf_abs_timeout r)
    (rkbuf_rel_timeout r) (rkbuf_replyq r) (rkbuf_orig_replyq r) (rkbuf_response r) (rkbuf_cb r) (rkbuf_msg_cnt r).
Definition rq_connid (x : Z) (r : rkbuf) : rkbuf :=
  mk_rkbuf (rkbuf_id r) (rkbuf_ApiKey r) (rkbuf_ApiVersion r) (rkbuf_features r) (rkbuf_flash r) (rkbuf_blocking r)
    (rkbuf_no_response r) (rkbuf_sent r) (rkbuf_bytes r) (rkbuf_of r) (rkbuf_corrid r) x (rkbuf_retries r)
    (rkbuf_ts_enq r) (rkbuf_ts_sent r) (rkbuf_ts_retry r) (rkbuf_ts_timeout r) (rkbuf_abs_timeout r)
    (rkbuf_rel_timeout r) (rkbuf_replyq r) (rkbuf_orig_replyq r) (rkbuf_response r) (rkbuf_cb r) (rkbuf_msg_cnt r).
Definition rq_retries (x : Z) (r : rkbuf) : rkbuf :=
  mk_rkbuf (rkbuf_id r) (rkbuf_ApiKey r) (rkbuf_ApiVersion r) (rkbuf_features r) (rkbuf_flash r) (rkbuf_blocking r)
    (rkbuf_no_response r) (rkbuf_sent r) (rkbuf_bytes r) (rkbuf_of r) (rkbuf_corrid r) (rkbuf_connid r) x
    (rkbuf_ts_enq r) (rkbuf_ts_sent r) (rkbuf_ts_retry r) (rkbuf_ts_timeout r) (rkbuf_abs_timeout r)
    (rkbuf_rel_timeout r) (rkbuf_replyq r) (rkbuf_orig_replyq r) (rkbuf_response r) (rkbuf_cb r) (rkbuf_msg_cnt r).
Definition rq_ts_enq (x : Z) (r : rkbuf) : rkbuf :=
  mk_rkbuf (rkbuf_id r) (rkbuf_ApiKey r) (rkbuf_ApiVersion r) (rkbuf_features r) (rkbuf_flash r) (rkbuf_blocking r)
    (rkbuf_no_response r) (rkbuf_sent r) (rkbuf_bytes r) (rkbuf_of r) (rkbuf_corrid r) (rkbuf_connid r)
    (rkbuf_retries r) x (rkbuf_ts_sent r) (rkbuf_ts_retry r) (rkbuf_ts_timeout r) (rkbuf_abs_timeout r)
    (rkbuf_rel_timeout r) (rkbuf_replyq r) (rkbuf_orig_replyq r) (rkbuf_response r) (rkbuf_cb r) (rkbuf_msg_cnt r).
Definition rq_ts_sent (x : Z) (r : rkbuf) : rkbuf :=
  mk_rkbuf (rkbuf_id r) (rkbuf_ApiKey r) (rkbuf_ApiVersion r) (rkbuf_features r) (rkbuf_flash r) (rkbuf_blocking r)
    (rkbuf_no_response r) (rkbuf_sent r) (rkbuf_bytes r) (rkbuf_of r) (rkbuf_corrid r) (rkbuf_connid r)
    (rkbuf_retries r) (rkbuf_ts_enq r) x (rkbuf_ts_retry r) (rkbuf_ts_timeout r) (rkbuf_abs_timeout r)
    (rkbuf_rel_timeout r) (rkbuf_replyq r) (rkbuf_orig_replyq r) (rkbuf_response r) (rkbuf_cb r) (rkbuf_msg_cnt r).
Definition rq_ts_retry (x : Z) (r : rkbuf) : rkbuf :=
  mk_rkbuf (rkbuf_id r) (rkbuf_ApiKey r) (rkbuf_ApiVersion r) (rkbuf_features r) (rkbuf_flash r) (rkbuf_blocking r)
    (rkbuf_no_response r) (rkbuf_sent r) (rkbuf_bytes r) (rkbuf_of r) (rkbuf_corrid r) (rkbuf_connid r)
    (rkbuf_retries r) (rkbuf_ts_enq r) (rkbuf_ts_sent r) x (rkbuf_ts_timeout r) (rkbuf_abs_timeout r)
    (rkbuf_rel_timeout r) (rkbuf_replyq r) (rkbuf_orig_replyq r) (rkbuf_response r) (rkbuf_cb r) (rkbuf_msg_cnt r).
Definition rq_ts_timeout (x : Z) (r : rkbuf) : rkbuf :=
  mk_rkbuf (rkbuf_id r) (rkbuf_ApiKey r) (rkbuf_ApiVersion r) (rkbuf_features r) (rkbuf_flash r) (rkbuf_blocking r)
    (rkbuf_no_response r) (rkbuf_sent r) (rkbuf_bytes r) (rkbuf_of r) (rkbuf_corrid r) (rkbuf_connid r)
    (rkbuf_retries r) (rkbuf_ts_enq r) (rkbuf_ts_sent r) (rkbuf_ts_retry r) x (rkbuf_abs_timeout r)
    (rkbuf_rel_timeout r) (rkbuf_replyq r) (rkbuf_orig_replyq r) (rkbuf_response r) (rkbuf_cb r) (rkbuf_msg_cnt r).
Definition rq_replyq (x : bool) (r : rkbuf) : rkbuf :=
  mk_rkbuf (rkbuf_id r) (rkbuf_ApiKey r) (rkbuf_ApiVersion r) (rkbuf_features r) (rkbuf_flash r) (rkbuf_blocking r)
    (rkbuf_no_response r) (rkbuf_sent r) (rkbuf_bytes r) (rkbuf_of r) (rkbuf_corrid r) (rkbuf_connid r)
    (rkbuf_retries r) (rkbuf_ts_enq r) (rkbuf_ts_sent r) (rkbuf_ts_retry r) (rkbuf_ts_timeout r) (rkbuf_abs_timeout r)
    (rkbuf_rel_timeout r) x (rkbuf_orig_replyq r) (rkbuf_response r) (rkbuf_cb r) (rkbuf_msg_cnt r).
Definition rq_orig_replyq (x : bool) (r : rkbuf) : rkbuf :=
  mk_rkbuf (rkbuf_id r) (rkbuf_ApiKey r) (rkbuf_ApiVersion r) (rkbuf_features r) (rkbuf_flash r) (rkbuf_blocking r)
    (rkbuf_no_response r) (rkbuf_sent r) (rkbuf_bytes r) (rkbuf_of r) (rkbuf_corrid r) (rkbuf_connid r)
    (rkbuf_retries r) (rkbuf_ts_enq r) (rkbuf_ts_sent r) (rkbuf_ts_retry r) (rkbuf_ts_timeout r) (rkbuf_abs_timeout r)
    (rkbuf_rel_timeout r) (rkbuf_replyq r) x (rkbuf_response r) (rkbuf_cb r) (rkbuf_msg_cnt r).
Definition rq_response (x : option (list Z)) (r : rkbuf) : rkbuf :=
  mk_rkbuf (rkbuf_id r) (rkbuf_ApiKey r) (rkbuf_ApiVersion r) (rkbuf_features r) (rkbuf_flash r) (rkbuf_blocking r)
    (rkbuf_no_response r) (rkbuf_sent r) (rkbuf_bytes r) (rkbuf_of r) (rkbuf_corrid r) (rkbuf_connid r)
    (rkbuf_retries r) (rkbuf_ts_enq r) (rkbuf_ts_sent r) (rkbuf_ts_retry r) (rkbuf_ts_timeout r) (rkbuf_abs_timeout r)
    (rkbuf_rel_timeout r) (rkbuf_replyq r) (rkbuf_orig_replyq r) x (rkbuf_cb r) (rkbuf_msg_cnt r).
Definition rq_cb (x : option resp_cb) (r : rkbuf) : rkbuf :=
  mk_rkbuf (rkbuf_id r) (rkbuf_ApiKey r) (rkbuf_ApiVersion r) (rkbuf_features r) (rkbuf_flash r) (rkbuf_blocking r)
    (rkbuf_no_response r) (rkbuf_sent r) (rkbuf_bytes r) (rkbuf_of r) (rkbuf_corrid r) (rkbuf_connid r)
    (rkbuf_retries r) (rkbuf_ts_enq r) (rkbuf_ts_sent r) (rkbuf_ts_retry r) (rkbuf_ts_timeout r) (rkbuf_abs_timeout r)
    (rkbuf_rel_timeout r) (rkbuf_replyq r) (rkbuf_orig_replyq r) (rkbuf_response r) x (rkbuf_msg_cnt r).

(** ** Queues of requests *)

Record bufq : Type := mk_bufq {
  rkbq_bufs : list rkbuf;
  rkbq_cnt : Z;
  rkbq_msg_cnt : Z }.

(** ** The connection *)

(** The response being received: its bytes, [rkbuf_totlen] and CorrId. *)
Record recv_buf : Type := mk_recv {
  rv_bytes : list Z;
  rv_totlen : Z;
  rv_CorrId : Z }.

Record conn : Type := mk_conn {
  rkb_state : broker_state;
  rkb_transport : bool;  (* rkb_transport is not NULL *)
  rkb_connid : Z;
  rkb_max_inflight : Z;
  rkb_features : Z;
  rkb_ApiVersions : list ApiVersion;
  rkb_recv_buf : option recv_buf;
  rkb_down_reported : bool;
  rkb_req_timeouts : Z;
  rkb_blocking_max_ms : Z;
  rkb_nodeid : Z }.

Definition cn_state (x : broker_state) (c : conn) : conn :=
  mk_conn x (rkb_transport c) (rkb_connid c) (rkb_max_inflight c) (rkb_features c) (rkb_ApiVersions c)
    (rkb_recv_buf c) (rkb_down_reported c) (rkb_req_timeouts c) (rkb_blocking_max_ms c) (rkb_nodeid c).
Definition cn_transport (x : bool) (c : conn) : conn :=
  mk_conn (rkb_state c) x (rkb_connid c) (rkb_max_inflight c) (rkb_features c) (rkb_ApiVersions c) (rkb_recv_buf c)
    (rkb_down_reported c) (rkb_req_timeouts c) (rkb_blocking_max_ms c) (rkb_nodeid c).
Definition cn_connid (x : Z) (c : conn) : conn :=
  mk_conn (rkb_state c) (rkb_transport c) x (rkb_max_inflight c) (rkb_features c) (rkb_ApiVersions c) (rkb_recv_buf c)
    (rkb_down_reported c) (rkb_req_timeouts c) (rkb_blocking_max_ms c) (rkb_nodeid c).
Definition cn_max_inflight (x : Z) (c : conn) : conn :=
  mk_conn (rkb_state c) (rkb_transport c) (rkb_connid c) x (rkb_features c) (rkb_ApiVersions c) (rkb_recv_buf c)
    (rkb_down_reported c) (rkb_req_timeouts c) (rkb_blocking_max_ms c) (rkb_nodeid c).
Definition cn_features (x : Z) (c : conn) : conn :=
  mk_conn (rkb_state c) (rkb_transport c) (rkb_connid c) (rkb_max_inflight c) x (rkb_ApiVersions c) (rkb_recv_buf c)
    (rkb_down_reported c) (rkb_req_timeouts c) (rkb_blocking_max_ms c) (rkb_nodeid c).
Definition cn_ApiVersions (x : list ApiVersion) (c : conn) : conn :=
  mk_conn (rkb_state c) (rkb_transport c) (rkb_connid c) (rkb_max_inflight c) (rkb_features c) x (rkb_recv_buf c)
    (rkb_down_reported c) (rkb_req_timeouts c) (rkb_blocking_max_ms c) (rkb_nodeid c).
Definition cn_recv_buf (x : option recv_buf) (c : conn) : conn :=
  mk_conn (rkb_state c) (rkb_transport c) (rkb_connid c) (rkb_max_inflight c) (rkb_features c) (rkb_ApiVersions c) x
    (rkb_down_reported c) (rkb_req_timeouts c) (rkb_blocking_max_ms c) (rkb_nodeid c).
Definition cn_down_reported (x : bool) (c : conn) : conn :=
  mk_conn (rkb_state c) (rkb_transport c) (rkb_connid c) (rkb_max_inflight c) (rkb_features c) (rkb_ApiVersions c)
    (rkb_recv_buf c) x (rkb_req_timeouts c) (rkb_blocking_max_ms c) (rkb_nodeid c).
Definition cn_req_timeouts (x : Z) (c : conn) : conn :=
  mk_conn (rkb_state c) (rkb_transport c) (rkb_connid c) (rkb_max_inflight c) (rkb_features c) (rkb_ApiVersions c)
    (rkb_recv_buf c) (rkb_down_reported c) x (rkb_blocking_max_ms c) (rkb_nodeid c).
Definition cn_blocking_max_ms (x : Z) (c : conn) : conn :=
  mk_conn (rkb_state c) (rkb_transport c) (rkb_connid c) (rkb_max_inflight c) (rkb_features c) (rkb_ApiVersions c)
    (rkb_recv_buf c) (rkb_down_reported c) (rkb_req_timeouts c) x (rkb_nodeid c).
Definition cn_nodeid (x : Z) (c : conn) : conn :=
  mk_conn (rkb_state c) (rkb_transport c) (rkb_connid c) (rkb_max_inflight c) (rkb_features c) (rkb_ApiVersions c)
    (rkb_recv_buf c) (rkb_down_reported c) (rkb_req_timeouts c) (rkb_blocking_max_ms c) x.

(** What the socket carries. *)
Record wire : Type := mk_wire {
  tx_bytes : list Z;  (* sent on this connection by rd_kafka_send *)
  tx_log : list (Z * rkbuf);  (* requests reported as sent, with the connection *)
  rx_pending : list Z;  (* arrived and not yet read *)
  rx_bytes : list Z;  (* read on this connection by rd_kafka_recv *)
  rx_log : list (Z * list Z);  (* responses of this connection: CorrId and body *)
  rx_corrid_err : Z }.

(** Operations for the broker thread. *)
Inductive bop : Type :=
  | OP_XMIT_BUF (r : rkbuf)
  | OP_XMIT_RETRY (r : rkbuf)
  | OP_NODE_UPDATE (name_changed : bool) (nodeid : Z)
  | OP_TERMINATE
  | OP_WAKEUP.

(** Errors for the application and requests for metadata. *)
Inductive out : Type :=
  | OUT_err (err : Z)
  | OUT_refresh_topics
  | OUT_map_partitions.

Record rk : Type := mk_rk {
  rk_broker_down_cnt : Z;
  rk_broker_cnt : Z;
  rk_broker_state_version : Z;  (* rd_kafka_brokers_broadcast_state_change *)
  rk_out : list out }.

Record broker : Type := mk_broker {
  rkb_conn : conn;
  rkb_internal : bool;  (* rkb_source == RD_KAFKA_INTERNAL *)
  rkb_corrid : Z;
  rkb_blocking_request_cnt : Z;
  rkb_outbufs : bufq;
  rkb_waitresps : bufq;
  rkb_retrybufs : bufq;
  rkb_ops : list bop;  (* operations for the broker thread *)
  rkb_replies : list (rkbuf * Z);  (* on the queues of other threads, with the error *)
  rkb_done : list (nat * Z);  (* requests that are finished, with the error their callback was given *)
  rkb_wire : wire;
  rkb_rk : rk;
  rkb_now : Z;  (* rd_clock() *)
  rkb_next : nat }.  (* the next new buffer *)

Definition set_conn (x : conn) (b : broker) : broker :=
  mk_broker x (rkb_internal b) (rkb_corrid b) (rkb_blocking_request_cnt b) (rkb_outbufs b) (rkb_waitresps b)
    (rkb_retrybufs b) (rkb_ops b) (rkb_replies b) (rkb_done b) (rkb_wire b) (rkb_rk b) (rkb_now b) (rkb_next b).
Definition set_corrid (x : Z) (b : broker) : broker :=
  mk_broker (rkb_conn b) (rkb_internal b) x (rkb_blocking_request_cnt b) (rkb_outbufs b) (rkb_waitresps b)
    (rkb_retrybufs b) (rkb_ops b) (rkb_replies b) (rkb_done b) (rkb_wire b) (rkb_rk b) (rkb_now b) (rkb_next b).
Definition set_blocking_request_cnt (x : Z) (b : broker) : broker :=
  mk_broker (rkb_conn b) (rkb_internal b) (rkb_corrid b) x (rkb_outbufs b) (rkb_waitresps b) (rkb_retrybufs b)
    (rkb_ops b) (rkb_replies b) (rkb_done b) (rkb_wire b) (rkb_rk b) (rkb_now b) (rkb_next b).
Definition set_outbufs (x : bufq) (b : broker) : broker :=
  mk_broker (rkb_conn b) (rkb_internal b) (rkb_corrid b) (rkb_blocking_request_cnt b) x (rkb_waitresps b)
    (rkb_retrybufs b) (rkb_ops b) (rkb_replies b) (rkb_done b) (rkb_wire b) (rkb_rk b) (rkb_now b) (rkb_next b).
Definition set_waitresps (x : bufq) (b : broker) : broker :=
  mk_broker (rkb_conn b) (rkb_internal b) (rkb_corrid b) (rkb_blocking_request_cnt b) (rkb_outbufs b) x
    (rkb_retrybufs b) (rkb_ops b) (rkb_replies b) (rkb_done b) (rkb_wire b) (rkb_rk b) (rkb_now b) (rkb_next b).
Definition set_retrybufs (x : bufq) (b : broker) : broker :=
  mk_broker (rkb_conn b) (rkb_internal b) (rkb_corrid b) (rkb_blocking_request_cnt b) (rkb_outbufs b)
    (rkb_waitresps b) x (rkb_ops b) (rkb_replies b) (rkb_done b) (rkb_wire b) (rkb_rk b) (rkb_now b) (rkb_next b).
Definition set_ops (x : list bop) (b : broker) : broker :=
  mk_broker (rkb_conn b) (rkb_internal b) (rkb_corrid b) (rkb_blocking_request_cnt b) (rkb_outbufs b)
    (rkb_waitresps b) (rkb_retrybufs b) x (rkb_replies b) (rkb_done b) (rkb_wire b) (rkb_rk b) (rkb_now b)
    (rkb_next b).
Definition set_replies (x : list (rkbuf * Z)) (b : broker) : broker :=
  mk_broker (rkb_conn b) (rkb_internal b) (rkb_corrid b) (rkb_blocking_request_cnt b) (rkb_outbufs b)
    (rkb_waitresps b) (rkb_retrybufs b) (rkb_ops b) x (rkb_done b) (rkb_wire b) (rkb_rk b) (rkb_now b) (rkb_next b).
Definition set_done (x : list (nat * Z)) (b : broker) : broker :=
  mk_broker (rkb_conn b) (rkb_internal b) (rkb_corrid b) (rkb_blocking_request_cnt b) (rkb_outbufs b)
    (rkb_waitresps b) (rkb_retrybufs b) (rkb_ops b) (rkb_replies b) x (rkb_wire b) (rkb_rk b) (rkb_now b) (rkb_next b).
Definition set_wire (x : wire) (b : broker) : broker :=
  mk_broker (rkb_conn b) (rkb_internal b) (rkb_corrid b) (rkb_blocking_request_cnt b) (rkb_outbufs b)
    (rkb_waitresps b) (rkb_retrybufs b) (rkb_ops b) (rkb_replies b) (rkb_done b) x (rkb_rk b) (rkb_now b) (rkb_next b).
Definition set_rk (x : rk) (b : broker) : broker :=
  mk_broker (rkb_conn b) (rkb_internal b) (rkb_corrid b) (rkb_blocking_request_cnt b) (rkb_outbufs b)
    (rkb_waitresps b) (rkb_retrybufs b) (rkb_ops b) (rkb_replies b) (rkb_done b) (rkb_wire b) x (rkb_now b)
    (rkb_next b).
Definition set_now (x : Z) (b : broker) : broker :=
  mk_broker (rkb_conn b) (rkb_internal b) (rkb_corrid b) (rkb_blocking_request_cnt b) (rkb_outbufs b)
    (rkb_waitresps b) (rkb_retrybufs b) (rkb_ops b) (rkb_replies b) (rkb_done b) (rkb_wire b) (rkb_rk b) x
    (rkb_next b).
Definition set_next (x : nat) (b : broker) : broker :=
  mk_broker (rkb_conn b) (rkb_internal b) (rkb_corrid b) (rkb_blocking_request_cnt b) (rkb_outbufs b)
    (rkb_waitresps b) (rkb_retrybufs b) (rkb_ops b) (rkb_replies b) (rkb_done b) (rkb_wire b) (rkb_rk b) (rkb_now b) x.

Definition b_state (b : broker) : broker_state := rkb_state (rkb_conn b).
Definition b_transport (b : broker) : bool := rkb_transport (rkb_conn b).
Definition up_conn (f : conn -> conn) (b : broker) : broker := set_conn (f (rkb_conn b)) b.
Definition emit (o : out) (b : broker) : broker :=
  let k := rkb_rk b in set_rk (mk_rk (rk_broker_down_cnt k) (rk_broker_cnt k) (rk_broker_state_version k) (rk_out k ++ [o])) b.
