(* ===== verification/Broker.v ===== *)
(** * The broker thread: requests and responses (rdkafka_broker.c, rdkafka_buf.c)

    One definition per function.  The callback of a request is the code of its
    client: here it either asks for another try ([en_retry]) or is done with the
    request; the two callbacks of the broker thread itself, for ApiVersion and
    SaslHandshake, are modelled.  A callback can fail the broker, so
    [rd_kafka_buf_callback] takes [rd_kafka_broker_fail] as an argument, and
    [rd_kafka_broker_fail] takes as fuel how often it may be entered again.  Results of system calls
    are arguments.  Callbacks that make new requests for this broker, the SSL handshake, and
    the bytes the SASL exchange itself puts on the socket are left out.  Debug output, averages and reference counts are left out. *)
From Stdlib Require Import ZArith Lia.
From stdpp Require Import base numbers list.
From S2P Require Import Prelude.
From S2P Require Import Proto.
From S2P Require Import Feature.
From S2P Require Import BrokerState.

(** ** Configuration and surroundings *)

Record conf : Type := mk_conf {
  cf_max_retries : Z;
  cf_retry_backoff_ms : Z;
  cf_socket_timeout_ms : Z;
  cf_socket_max_fails : Z;
  cf_socket_blocking_max_ms : Z;
  cf_max_inflight : Z;
  cf_max_msg_size : Z;
  cf_recv_max_msg_size : Z;
  cf_api_version_request : bool;
  cf_api_version_request_timeout_ms : Z;
  cf_fallback_apis : list ApiVersion;   (* the table of broker.version.fallback *)
  cf_sasl : bool;                       (* rkb_proto is SASL_PLAINTEXT or SASL_SSL *)
  cf_client_id : list Z;                (* as written by rd_kafka_buf_write_kstr *)
  cf_mechanism : list Z;                (* as written by rd_kafka_buf_write_str *)
  cf_log_connection_close : bool }.

(** A request as its builder leaves it. *)
Record new_request : Type := mk_new {
  nr_ApiKey : Z; nr_ApiVersion : Z; nr_features : Z;
  nr_flash : bool; nr_blocking : bool; nr_no_response : bool; nr_replyq : bool; nr_has_cb : bool;
  nr_abs_timeout : Z; nr_rel_timeout : Z;
  nr_body : list Z; nr_msg_cnt : Z }.

Record env : Type := mk_env {
  en_terminating : bool;                              (* rd_kafka_terminating *)
  en_eintr : bool;                                    (* errno is EINTR *)
  en_retry : rkbuf -> Z -> option (list Z) -> bool;   (* the callback calls rd_kafka_buf_retry *)
  en_apis : list Z -> outcome (Z + list ApiVersion);  (* rd_kafka_handle_ApiVersion on a response *)
  en_sasl_err : list Z -> outcome Z;                  (* sasl_handshake_err on a response *)
  en_sasl_client_new : bool;                          (* rd_kafka_sasl_client_new succeeds *)
  en_fail_intvl : bool;                               (* rkb_ApiVersion_fail_intvl has passed *)
  en_metadata : list new_request }.                   (* what connect_up asks this broker for *)

(** ** Buffers *)

(** Overwriting bytes of a buffer: [rd_kafka_buf_update_i32] and the like. *)
Definition update_bytes (o : nat) (data l : list Z) : list Z := take o l ++ data ++ drop (o + length data) l.

Definition RD_KAFKA_BUF_NO_RETRIES : Z := 1000000.

(** [rd_kafka_buf_new_request] and the builder that goes on writing. *)
Definition rd_kafka_buf_new_request cf (id : nat) (n : new_request) (cb : option resp_cb) (retries : Z) : rkbuf :=
  mk_rkbuf id (nr_ApiKey n) (nr_ApiVersion n) (nr_features n) (nr_flash n) (nr_blocking n) (nr_no_response n) false
    (be_enc 4 0 ++ be_enc 2 (nr_ApiKey n) ++ be_enc 2 0 ++ be_enc 4 0 ++ cf_client_id cf ++ nr_body n) 0
    0 0 retries 0 0 0 0 (nr_abs_timeout n) (nr_rel_timeout n) (nr_replyq n) false None cb (nr_msg_cnt n).

(** An absolute timeout is measured from now. *)
Definition rd_kafka_buf_set_abs_timeout (now timeout_ms : Z) : Z := now + timeout_ms * 1000.

Definition rd_kafka_buf_calc_timeout cf (r : rkbuf) (now : Z) : rkbuf :=
  rq_ts_timeout
    (if negb (rkbuf_rel_timeout r =? 0) then now + rkbuf_rel_timeout r * 1000
     else Z.min (now + cf_socket_timeout_ms cf * 1000) (rkbuf_abs_timeout r)) r.

Definition rd_kafka_buf_finalize cf (r : rkbuf) : outcome rkbuf :=
  let totsize := zlen (rkbuf_bytes r) - 4 in
  assert! (totsize <=? cf_max_msg_size cf) in
  let r := rq_of 0 r in
  let r := rq_bytes (update_bytes 0 (be_enc 4 totsize) (rkbuf_bytes r)) r in
  Ret (rq_bytes (update_bytes 6 (be_enc 2 (rkbuf_ApiVersion r)) (rkbuf_bytes r)) r).

(** ** Queues of buffers *)

Definition rd_kafka_bufq_init : bufq := mk_bufq [] 0 0.

Definition rd_kafka_bufq_enq (q : bufq) (r : rkbuf) : bufq :=
  mk_bufq (rkbq_bufs q ++ [r]) (rkbq_cnt q + 1) (rkbq_msg_cnt q + rkbuf_msg_cnt r).

Fixpoint remove_buf (id : nat) (l : list rkbuf) : list rkbuf :=
  match l with
  | [] => []
  | r :: l => if decide (rkbuf_id r = id) then l else r :: remove_buf id l
  end.

Definition rd_kafka_bufq_deq (q : bufq) (r : rkbuf) : outcome bufq :=
  let bufs := remove_buf (rkbuf_id r) (rkbq_bufs q) in
  assert! (rkbq_cnt q >? 0) in
  Ret (mk_bufq bufs (rkbq_cnt q - 1) (rkbq_msg_cnt q - rkbuf_msg_cnt r)).

Definition rd_kafka_bufq_concat (dst src : bufq) : bufq * bufq :=
  (mk_bufq (rkbq_bufs dst ++ rkbq_bufs src) (rkbq_cnt dst + rkbq_cnt src) (rkbq_msg_cnt dst + rkbq_msg_cnt src),
   rd_kafka_bufq_init).

(** The queues of a broker. *)
Inductive qsel : Type := Q_out | Q_wait | Q_retry.

Definition get_q (s : qsel) (b : broker) : bufq :=
  match s with Q_out => rkb_outbufs b | Q_wait => rkb_waitresps b | Q_retry => rkb_retrybufs b end.

Definition set_q (s : qsel) (q : bufq) (b : broker) : broker :=
  match s with Q_out => set_outbufs q b | Q_wait => set_waitresps q b | Q_retry => set_retrybufs q b end.

(** A buffer and the one behind it, by pointer. *)
Fixpoint find_buf (id : nat) (l : list rkbuf) : option (rkbuf * option nat) :=
  match l with
  | [] => None
  | r :: l => if decide (rkbuf_id r = id) then Some (r, rkbuf_id <$> head l) else find_buf id l
  end.

Definition replace_buf (r : rkbuf) (l : list rkbuf) : list rkbuf :=
  map (fun x => if decide (rkbuf_id x = rkbuf_id r) then r else x) l.

(** ** The state of the broker *)

Definition rd_kafka_brokers_broadcast_state_change (b : broker) : broker :=
  let k := rkb_rk b in
  set_rk (mk_rk (rk_broker_down_cnt k) (rk_broker_cnt k) (rk_broker_state_version k + 1) (rk_out k)) b.

Definition add_down_cnt (n : Z) (b : broker) : broker :=
  let k := rkb_rk b in
  set_rk (mk_rk (rk_broker_down_cnt k + n) (rk_broker_cnt k) (rk_broker_state_version k) (rk_out k)) b.

Definition rd_kafka_broker_set_state en (s : broker_state) (b : broker) : broker :=
  if is_state (b_state b) s then b
  else
    let c := rkb_conn b in
    let b :=
      if rkb_internal b then b
      else if is_state s STATE_DOWN && negb (rkb_down_reported c) && negb (is_state (rkb_state c) STATE_APIVERSION_QUERY) then
        let b := add_down_cnt 1 b in
        let b := if (rk_broker_down_cnt (rkb_rk b) =? rk_broker_cnt (rkb_rk b)) && negb (en_terminating en)
                 then emit (OUT_err ERR__ALL_BROKERS_DOWN) b else b in
        up_conn (cn_down_reported true) b
      else if state_ge_up s && rkb_down_reported c then
        up_conn (cn_down_reported false) (add_down_cnt (-1) b)
      else b in
    rd_kafka_brokers_broadcast_state_change (up_conn (cn_state s) b).

(** ** Sending *)

(** Behind the flash messages and the partially sent buffers at the head. *)
Fixpoint insert_behind (r : rkbuf) (l : list rkbuf) : list rkbuf :=
  match l with
  | [] => [r]
  | prev :: l' => if negb (rkbuf_flash prev) && (rkbuf_corrid prev =? 0) then r :: l else prev :: insert_behind r l'
  end.

Definition rd_kafka_broker_buf_enq0 cf (b : broker) (r : rkbuf) (at_head : bool) : broker :=
  let now := rkb_now b in
  let r := rq_sent false (rq_ts_enq now r) in
  let r := rd_kafka_buf_calc_timeout cf r now in
  let q := rkb_outbufs b in
  set_outbufs (mk_bufq (if at_head then insert_behind r (rkbq_bufs q) else rkbq_bufs q ++ [r])
                 (rkbq_cnt q + 1) (rkbq_msg_cnt q + rkbuf_msg_cnt r)) b.

Definition rd_kafka_broker_buf_enq1 cf (b : broker) (r : rkbuf) (cb : resp_cb) : outcome broker :=
  let r := rq_cb (Some cb) r in
  let! r := rd_kafka_buf_finalize cf r in
  Ret (rd_kafka_broker_buf_enq0 cf b r (rkbuf_flash r)).

Definition fresh_id (b : broker) : nat * broker := (rkb_next b, set_next (S (rkb_next b)) b).

Definition rd_kafka_ApiVersionRequest cf (b : broker) : outcome broker :=
  let '(id, b) := fresh_id b in
  let abs := rd_kafka_buf_set_abs_timeout (rkb_now b) (cf_api_version_request_timeout_ms cf) in
  let n := mk_new RD_KAFKAP_ApiVersion 0 0 true false false false true abs 0 (be_enc 4 0) 0 in
  rd_kafka_broker_buf_enq1 cf b (rd_kafka_buf_new_request cf id n None RD_KAFKA_BUF_NO_RETRIES) CB_ApiVersion.

Definition rd_kafka_SaslHandshakeRequest cf (b : broker) : outcome broker :=
  let '(id, b) := fresh_id b in
  let '(abs, rel) := if negb (cf_api_version_request cf) && (cf_socket_timeout_ms cf >? 10 * 1000)
                     then (rd_kafka_buf_set_abs_timeout (rkb_now b) (10 * 1000), 0) else (0, cf_socket_timeout_ms cf) in
  let n := mk_new RD_KAFKAP_SaslHandshake 0 0 true false false false true abs rel (cf_mechanism cf) 0 in
  rd_kafka_broker_buf_enq1 cf b (rd_kafka_buf_new_request cf id n None RD_KAFKA_BUF_NO_RETRIES) CB_SaslHandshake.

(** ** Retries *)

(** [own]: called by the broker thread. *)
Definition rd_kafka_broker_buf_retry cf (own : bool) (b : broker) (r : rkbuf) : broker :=
  let r := if negb (rkbuf_replyq r) && rkbuf_orig_replyq r then rq_orig_replyq false (rq_replyq true r) else r in
  if negb own then set_ops (rkb_ops b ++ [OP_XMIT_RETRY r]) b
  else
    let r := rq_ts_retry (rkb_now b + cf_retry_backoff_ms cf * 1000) r in
    let r := rq_ts_timeout (rkbuf_ts_retry r + 5 * 1000 * 1000) r in
    let r := rq_corrid 0 (rq_of 0 r) in
    set_retrybufs (rd_kafka_bufq_enq (rkb_retrybufs b) r) b.

(** [None] when another try is not permitted. *)
Definition rd_kafka_buf_retry cf en (own : bool) (b : broker) (r : rkbuf) : option broker :=
  let incr_retry := if rkbuf_sent r then 1 else 0 in
  if rkb_internal b || en_terminating en || (rkbuf_retries r + incr_retry >? cf_max_retries cf) then None
  else if negb (rkbuf_abs_timeout r =? 0) && (rkbuf_abs_timeout r <? rkb_now b) then None
  else
    let r := rq_ts_timeout 0 (rq_ts_sent 0 r) in
    let r := rq_retries (rkbuf_retries r + incr_retry) r in
    Some (rd_kafka_broker_buf_retry cf own b r).

Fixpoint retry_bufs_loop (fuel : nat) cf (b : broker) : outcome broker :=
  match rkbq_bufs (rkb_retrybufs b) with
  | [] => Ret b
  | r :: _ =>
      if rkbuf_ts_retry r >? rkb_now b then Ret b
      else
        match fuel with
        | O => Diverge
        | S fuel =>
            let! q := rd_kafka_bufq_deq (rkb_retrybufs b) r in
            retry_bufs_loop fuel cf (rd_kafka_broker_buf_enq0 cf (set_retrybufs q b) r false)
        end
  end.

Definition rd_kafka_broker_retry_bufs_move cf (b : broker) : outcome broker :=
  retry_bufs_loop (length (rkbq_bufs (rkb_retrybufs b))) cf b.

(** ** Answering a request *)

Definition finish (b : broker) (r : rkbuf) (err : Z) : broker := set_done (rkb_done b ++ [(rkbuf_id r, err)]) b.

(** Requests of clients: [rd_kafka_broker_buf_enq_replyq] without the callback. *)
Definition client_request cf (b : broker) (n : new_request) : rkbuf * broker :=
  let '(id, b) := fresh_id b in
  (rd_kafka_buf_new_request cf id n (if nr_has_cb n then Some CB_client else None) 0, b).

Section callbacks.
Context (fail : Z -> option bool -> broker -> outcome broker) (cf : conf) (en : env).

(** The code of a client's callback, and the end of the request.  A callback
    that gets another try keeps the request. *)
Definition run_client_cb (own : bool) (b : broker) (r : rkbuf) (err : Z) (resp : option (list Z)) : broker :=
  if en_retry en r err resp then
    match rd_kafka_buf_retry cf en own b r with
    | Some b => b
    | None => finish b r err
    end
  else finish b r err.

(** The part of [rd_kafka_buf_callback] for a client's request. *)
Definition client_callback (own : bool) (b : broker) (err : Z) (resp : option (list Z)) (r : rkbuf) : outcome broker :=
  if negb (err =? ERR__DESTROY) && rkbuf_replyq r then
    assert! (match rkbuf_response r with None => true | Some _ => false end) in
    let r := rq_response resp r in
    let r := rq_replyq false (rq_orig_replyq true r) in
    Ret (set_replies (rkb_replies b ++ [(r, err)]) b)
  else
    match rkbuf_cb r with
    | None => Ret (finish b r err)
    | _ => Ret (run_client_cb own b r err resp)
    end.

Definition rd_kafka_broker_buf_enq2 (b : broker) (r : rkbuf) : outcome broker :=
  if rkb_internal b then client_callback true b ERR__TRANSPORT None r
  else Ret (rd_kafka_broker_buf_enq0 cf b r (rkbuf_flash r)).

Definition rd_kafka_broker_buf_enq_replyq (own : bool) (b : broker) (n : new_request) : outcome broker :=
  let '(r, b) := client_request cf b n in
  let! r := rd_kafka_buf_finalize cf r in
  if own then rd_kafka_broker_buf_enq2 b r
  else Ret (set_ops (rkb_ops b ++ [OP_XMIT_BUF r]) b).

Fixpoint enq_all (l : list new_request) (b : broker) : outcome broker :=
  match l with
  | [] => Ret b
  | n :: l => let! b := rd_kafka_broker_buf_enq_replyq true b n in enq_all l b
  end.

Definition rd_kafka_broker_connect_up (b : broker) : outcome broker :=
  let b := up_conn (cn_max_inflight (cf_max_inflight cf)) b in
  let b := rd_kafka_broker_set_state en STATE_UP b in
  enq_all (en_metadata en) b.

Definition rd_kafka_broker_connect_auth (b : broker) : outcome broker :=
  if cf_sasl cf then
    if negb (is_state (b_state b) STATE_AUTH_HANDSHAKE) && negb (Z.land (rkb_features (rkb_conn b)) RD_KAFKA_FEATURE_SASL_HANDSHAKE =? 0)
    then
      let b := rd_kafka_broker_set_state en STATE_AUTH_HANDSHAKE b in
      rd_kafka_SaslHandshakeRequest cf b
    else
      let b := rd_kafka_broker_set_state en STATE_AUTH b in
      if negb (en_sasl_client_new en) then fail ERR__AUTHENTICATION (Some false) b
      else Ret (rd_kafka_broker_set_state en STATE_AUTH b)
  else rd_kafka_broker_connect_up b.

Definition rd_kafka_broker_set_api_versions (apis : option (list ApiVersion)) (b : broker) : broker :=
  let apis := match apis with Some apis => apis | None => rd_kafka_ApiVersions_copy (cf_fallback_apis cf) end in
  up_conn (fun c => cn_features (rd_kafka_features_check apis) (cn_ApiVersions apis c)) b.

Definition rd_kafka_broker_handle_ApiVersion (b : broker) (err : Z) (resp : option (list Z)) : outcome broker :=
  if err =? ERR__DESTROY then Ret b
  else
    let! res := match resp with Some body => if negb (err =? 0) then Ret (inl err) else en_apis en body
                              | None => if negb (err =? 0) then Ret (inl err) else Crash end in
    match res with
    | inr apis => rd_kafka_broker_connect_auth (rd_kafka_broker_set_api_versions (Some apis) b)
    | inl err => if negb (err =? 0) then fail ERR__NOT_IMPLEMENTED (Some true) b else Crash
    end.

Definition rd_kafka_broker_handle_SaslHandshake (b : broker) (err : Z) (resp : option (list Z)) : outcome broker :=
  if err =? ERR__DESTROY then Ret b
  else
    let! err := match resp with Some body => if negb (err =? 0) then Ret err else en_sasl_err en body
                              | None => if negb (err =? 0) then Ret err else Crash end in
    if negb (err =? 0) then fail ERR__AUTHENTICATION (Some false) b
    else rd_kafka_broker_connect_auth b.

(** The callbacks of the broker thread assert that they run in it. *)
Definition rd_kafka_buf_callback (own : bool) (b : broker) (err : Z) (resp : option (list Z)) (r : rkbuf) : outcome broker :=
  if negb (err =? ERR__DESTROY) && rkbuf_replyq r then client_callback own b err resp r
  else
    match rkbuf_cb r with
    | Some CB_ApiVersion =>
        assert! own in
        let! b := rd_kafka_broker_handle_ApiVersion b err resp in Ret (finish b r err)
    | Some CB_SaslHandshake =>
        assert! own in
        let! b := rd_kafka_broker_handle_SaslHandshake b err resp in Ret (finish b r err)
    | _ => client_callback own b err resp r
    end.

Fixpoint bufq_purge_loop (l : list rkbuf) (err : Z) (b : broker) : outcome broker :=
  match l with
  | [] => Ret b
  | r :: l => let! b := rd_kafka_buf_callback true b err None r in bufq_purge_loop l err b
  end.

Definition rd_kafka_bufq_purge (q : bufq) (err : Z) (b : broker) : outcome broker :=
  bufq_purge_loop (rkbq_bufs q) err b.

(** The walk over [rkb_outbufs] by pointer, the next buffer read before the body. *)
Fixpoint connection_reset_loop (fuel : nat) (cur : option nat) (b : broker) : outcome broker :=
  match cur with
  | None => Ret b
  | Some id =>
      match fuel, find_buf id (rkbq_bufs (rkb_outbufs b)) with
      | O, _ => Diverge
      | _, None => Crash
      | S fuel, Some (r, tmp) =>
          if (rkbuf_ApiKey r =? RD_KAFKAP_ApiVersion) || (rkbuf_ApiKey r =? RD_KAFKAP_SaslHandshake) then
            let! q := rd_kafka_bufq_deq (rkb_outbufs b) r in
            let! b := rd_kafka_buf_callback true (set_outbufs q b) ERR__DESTROY None r in
            connection_reset_loop fuel tmp b
          else
            let r := rd_kafka_buf_calc_timeout cf (rq_of 0 r) (rkb_now b) in
            let q := rkb_outbufs b in
            connection_reset_loop fuel tmp (set_outbufs (mk_bufq (replace_buf r (rkbq_bufs q)) (rkbq_cnt q) (rkbq_msg_cnt q)) b)
      end
  end.

Definition rd_kafka_bufq_connection_reset (b : broker) : outcome broker :=
  let l := rkbq_bufs (rkb_outbufs b) in
  connection_reset_loop (length l) (rkbuf_id <$> head l) b.
End callbacks.

(** ** Failure of the connection *)

(** The first half of [rd_kafka_broker_fail]: the connection is closed and the
    queues are taken over.  [fmt] is [None] for a NULL format, [Some true] for the
    debug level. *)
Definition fail_close cf en (err : Z) (fmt : option bool) (b : broker) : broker :=
  let b := up_conn (fun c => cn_recv_buf None (cn_req_timeouts 0 (cn_transport false c))) b in
  let b := up_conn (cn_blocking_max_ms (if en_terminating en then 1 else cf_socket_blocking_max_ms cf)) b in
  let b := match fmt with
           | Some false =>
               if negb (en_eintr en && en_terminating en) && negb ((err =? ERR__TRANSPORT) && is_state (b_state b) STATE_APIVERSION_QUERY)
               then emit (OUT_err err) b else b
           | _ => b
           end in
  let b := if is_state (b_state b) STATE_APIVERSION_QUERY
           then up_conn (fun c => cn_features (rd_kafka_broker_feature_disable (rkb_features c) RD_KAFKA_FEATURE_APIVERSION) c) b
           else b in
  rd_kafka_broker_set_state en STATE_DOWN b.

Fixpoint rd_kafka_broker_fail (fuel : nat) cf en (err : Z) (fmt : option bool) (b : broker) : outcome broker :=
  match fuel with
  | O => Diverge
  | S fuel =>
      let old_state := b_state b in
      let b := fail_close cf en err fmt b in
      let '(tmpq_waitresp, w) := rd_kafka_bufq_concat rd_kafka_bufq_init (rkb_waitresps b) in
      let '(tmpq, o) := rd_kafka_bufq_concat rd_kafka_bufq_init (rkb_outbufs b) in
      let b := set_blocking_request_cnt 0 (set_outbufs o (set_waitresps w b)) in
      let! b := rd_kafka_bufq_purge (rd_kafka_broker_fail fuel cf en) cf en tmpq_waitresp err b in
      let! b := rd_kafka_bufq_purge (rd_kafka_broker_fail fuel cf en) cf en tmpq err b in
      let! b := rd_kafka_bufq_connection_reset (rd_kafka_broker_fail fuel cf en) cf en b in
      Ret (match fmt with
           | Some _ => if negb (err =? ERR__DESTROY) && state_ge_up old_state then emit OUT_refresh_topics b else b
           | None => b
           end)
  end.

(** Entered once, and once more from the callback of an ApiVersion or
    SaslHandshake request that is purged. *)
Definition broker_fail cf en : Z -> option bool -> broker -> outcome broker := rd_kafka_broker_fail 2 cf en.

(** Only the level of the message is decided here.  [idle] says that neither the
    state changed nor something was sent for the longer of a minute and
    [socket.timeout.ms]. *)
Definition rd_kafka_broker_conn_closed cf en (idle : bool) (err : Z) (b : broker) : outcome broker :=
  let quiet := negb (cf_log_connection_close cf) ||
               (idle && (rkbq_cnt (rkb_waitresps b) =? 0) && (rkbq_cnt (rkb_outbufs b) =? 0)) in
  broker_fail cf en err (Some quiet) b.

(** ** Timeouts *)

Definition sub_blocking (b : broker) : broker := set_blocking_request_cnt (rkb_blocking_request_cnt b - 1) b.

(** The walk over a queue by pointer, the next buffer read before the body;
    returns the numbers of buffers and of partially sent ones.  The next buffer can
    have left the queue meanwhile: without a reply queue it was freed and is read,
    with one it fails the assertion of [rd_kafka_bufq_deq] or leads the walk
    astray. *)
Fixpoint timeout_scan_loop (fuel : nat) cf en (is_waitresp_q : bool) (s : qsel) (count_partial : bool) (err now : Z)
    (cur : option nat) (cnt partial : Z) (b : broker) : outcome (Z * Z * broker) :=
  match cur with
  | None => Ret (cnt, partial, b)
  | Some id =>
      match fuel, find_buf id (rkbq_bufs (get_q s b)) with
      | O, _ => Diverge
      | _, None => Crash
      | S fuel, Some (r, tmp) =>
          if negb (now =? 0) && (rkbuf_ts_timeout r >? now)
          then timeout_scan_loop fuel cf en is_waitresp_q s count_partial err now tmp cnt partial b
          else
            let partial := if count_partial && (rkbuf_of r >? 0) then partial + 1 else partial in
            let r := rq_ts_sent (now - (if negb (rkbuf_ts_sent r =? 0) then rkbuf_ts_sent r else rkbuf_ts_enq r)) r in
            let! q := rd_kafka_bufq_deq (get_q s b) r in
            let b := set_q s q b in
            let b := if is_waitresp_q && rkbuf_blocking r then
                       let b := sub_blocking b in
                       if rkb_blocking_request_cnt b =? 0 then rd_kafka_brokers_broadcast_state_change b else b
                     else b in
            let! b := rd_kafka_buf_callback (broker_fail cf en) cf en true b err None r in
            timeout_scan_loop fuel cf en is_waitresp_q s count_partial err now tmp (cnt + 1) partial b
      end
  end.

(** A buffer that is given another try joins the end of [rkb_retrybufs], so a walk
    over that queue can meet it again. *)
Definition rd_kafka_broker_bufq_timeout_scan cf en (is_waitresp_q : bool) (s : qsel) (count_partial : bool) (err now : Z) (b : broker)
  : outcome (Z * Z * broker) :=
  let l := rkbq_bufs (get_q s b) in
  timeout_scan_loop (2 * length l) cf en is_waitresp_q s count_partial err now (rkbuf_id <$> head l) 0 0 b.

Definition rd_kafka_broker_timeout_scan cf en (now : Z) (b : broker) : outcome broker :=
  let! (inflight_cnt, _, b) := rd_kafka_broker_bufq_timeout_scan cf en true Q_wait false ERR__TIMED_OUT now b in
  let! (retry_cnt, _, b) := rd_kafka_broker_bufq_timeout_scan cf en false Q_retry false ERR__TIMED_OUT_QUEUE now b in
  let! (outq_cnt, partial_cnt, b) := rd_kafka_broker_bufq_timeout_scan cf en false Q_out true ERR__TIMED_OUT_QUEUE now b in
  if inflight_cnt + retry_cnt + outq_cnt + partial_cnt >? 0 then
    let b := up_conn (fun c => cn_req_timeouts (rkb_req_timeouts c + inflight_cnt + outq_cnt) c) b in
    if (partial_cnt >? 0) ||
       (negb (cf_socket_max_fails cf =? 0) && (rkb_req_timeouts (rkb_conn b) >=? cf_socket_max_fails cf) && state_ge_up (b_state b))
    then broker_fail cf en ERR__TIMED_OUT (Some false) b
    else Ret b
  else Ret b.

(** What the thread does while the client terminates. *)
Definition terminating_scan cf en (b : broker) : outcome broker :=
  let! (_, _, b) := rd_kafka_broker_bufq_timeout_scan cf en false Q_out false ERR__DESTROY 0 b in
  let! (_, _, b) := rd_kafka_broker_bufq_timeout_scan cf en false Q_retry false ERR__DESTROY 0 b in
  Ret b.

(** ** Transmission *)

(** What the socket does with a write: an error, or it takes at most [n] bytes. *)
Inductive wr : Type := WR_fail | WR_bytes (n : nat).

Definition sent_bytes (data : list Z) (b : broker) : broker :=
  let w := rkb_wire b in
  set_wire (mk_wire (tx_bytes w ++ data) (tx_log w) (rx_pending w) (rx_bytes w) (rx_log w) (rx_corrid_err w)) b.

(** The interceptors are told of a request that was sent. *)
Definition rd_kafka_transport_request_sent (b : broker) (r : rkbuf) : broker :=
  let w := rkb_wire b in
  set_wire (mk_wire (tx_bytes w) (tx_log w ++ [(rkb_connid (rkb_conn b), r)]) (rx_pending w) (rx_bytes w) (rx_log w) (rx_corrid_err w)) b.

(** The result is -1 or the number of bytes written, with the new buffer. *)
Definition rd_kafka_broker_send cf en (b : broker) (r : rkbuf) (w : wr) : outcome (Z * rkbuf * broker) :=
  assert! state_ge_up (b_state b) in
  assert! b_transport b in
  match w with
  | WR_fail => let! b := broker_fail cf en ERR__TRANSPORT (Some false) b in Ret (-1, r, b)
  | WR_bytes n =>
      let data := take n (zdrop (rkbuf_of r) (rkbuf_bytes r)) in
      Ret (zlen data, rq_of (rkbuf_of r + zlen data) r, sent_bytes data b)
  end.

Definition set_first (r : rkbuf) (b : broker) : broker :=
  let q := rkb_outbufs b in
  set_outbufs (mk_bufq (match rkbq_bufs q with [] => [] | _ :: l => r :: l end) (rkbq_cnt q) (rkbq_msg_cnt q)) b.

(** The counter of correlation ids is a uint32_t, the id of a request an int32_t. *)
Fixpoint send_loop (fuel : nat) cf en (ws : list wr) (cnt : Z) (b : broker) : outcome (Z * list wr * broker) :=
  if state_ge_up (b_state b) && (rkbq_cnt (rkb_waitresps b) <? rkb_max_inflight (rkb_conn b)) then
    match rkbq_bufs (rkb_outbufs b) with
    | [] => Ret (cnt, ws, b)
    | r :: _ =>
        match fuel with
        | O => Diverge
        | S fuel =>
            let pre_of := rkbuf_of r in
            if negb (rd_kafka_broker_request_supported (rkb_features (rkb_conn b)) (rkb_ApiVersions (rkb_conn b))
                       (rkbuf_ApiKey r) (rkbuf_ApiVersion r) (rkbuf_features r)) then
              let! q := rd_kafka_bufq_deq (rkb_outbufs b) r in
              let! b := rd_kafka_buf_callback (broker_fail cf en) cf en true (set_outbufs q b) ERR__UNSUPPORTED_FEATURE None r in
              send_loop fuel cf en ws cnt b
            else
              let! (r, b) :=
                if (rkbuf_corrid r =? 0) || negb (rkbuf_connid r =? rkb_connid (rkb_conn b)) then
                  assert! (rkbuf_of r =? 0) in
                  let b := set_corrid (u32 (rkb_corrid b + 1)) b in
                  let r := rq_corrid (s32 (rkb_corrid b)) r in
                  let r := rq_bytes (update_bytes 8 (be_enc 4 (rkbuf_corrid r)) (rkbuf_bytes r)) r in
                  Ret (rq_connid (rkb_connid (rkb_conn b)) r, b)
                else if pre_of >? 4 + 2 + 2 + 4 then
                  assert! (rkbuf_connid r =? rkb_connid (rkb_conn b)) in Ret (r, b)
                else Ret (r, b) in
              let b := set_first r b in
              let '(w, ws) := match ws with [] => (WR_bytes 0, []) | w :: ws => (w, ws) end in
              let! (res, r, b) := rd_kafka_broker_send cf en b r w in
              if res =? -1 then Ret (-1, ws, b)
              else
                let b := set_first r b in
                if zlen (rkbuf_bytes r) - rkbuf_of r >? 0 then Ret (0, ws, b)
                else
                  let b := rd_kafka_transport_request_sent b r in
                  let! q := rd_kafka_bufq_deq (rkb_outbufs b) r in
                  let b := set_outbufs q b in
                  let r := rq_ts_sent (rkb_now b) (rq_sent true r) in
                  let b := if rkbuf_blocking r then
                             let b := set_blocking_request_cnt (rkb_blocking_request_cnt b + 1) b in
                             if rkb_blocking_request_cnt b =? 1 then rd_kafka_brokers_broadcast_state_change b else b
                           else b in
                  let! b :=
                    if negb (rkbuf_no_response r) then Ret (set_waitresps (rd_kafka_bufq_enq (rkb_waitresps b) r) b)
                    else rd_kafka_buf_callback (broker_fail cf en) cf en true b 0 None r in
                  send_loop fuel cf en ws (cnt + 1) b
        end
    end
  else Ret (cnt, ws, b).

(** Each round takes a buffer out of the queue. *)
Definition rd_kafka_send cf en (ws : list wr) (b : broker) : outcome (Z * list wr * broker) :=
  send_loop (length (rkbq_bufs (rkb_outbufs b))) cf en ws 0 b.

(** ** Responses *)

Fixpoint find_corrid (corrid : Z) (l : list rkbuf) : option rkbuf :=
  match l with
  | [] => None
  | r :: l => if rkbuf_corrid r =? corrid then Some r else find_corrid corrid l
  end.

Definition rd_kafka_waitresp_find (b : broker) (corrid : Z) : outcome (option rkbuf * broker) :=
  match find_corrid corrid (rkbq_bufs (rkb_waitresps b)) with
  | None => Ret (None, b)
  | Some r =>
      let r := rq_ts_sent (rkb_now b - rkbuf_ts_sent r) r in
      let b := if rkbuf_blocking r then
                 let b := sub_blocking b in
                 if rkb_blocking_request_cnt b =? 1 then rd_kafka_brokers_broadcast_state_change b else b
               else b in
      let! q := rd_kafka_bufq_deq (rkb_waitresps b) r in
      Ret (Some r, set_waitresps q b)
  end.

Definition rx_error (b : broker) : broker :=
  let w := rkb_wire b in
  set_wire (mk_wire (tx_bytes w) (tx_log w) (rx_pending w) (rx_bytes w) (rx_log w) (rx_corrid_err w + 1)) b.

Definition rd_kafka_req_response cf en (b : broker) (CorrId : Z) (body : list Z) : outcome broker :=
  let! (req, b) := rd_kafka_waitresp_find b CorrId in
  match req with
  | None => Ret (rx_error b)
  | Some req => rd_kafka_buf_callback (broker_fail cf en) cf en true b 0 (Some body) req
  end.

(** ** Reception *)

(** What the socket does with a read: an error, the end of the stream of a
    connection that was idle or not, or it gives at most [n] of the bytes that have
    arrived. *)
Inductive rr : Type := RR_fail | RR_disconnected (idle : bool) | RR_bytes (n : nat).

Definition RESHDR_SIZE : Z := 4 + 4.

(** The room in the buffer: the header first, then the announced length. *)
Definition write_remains (v : recv_buf) : Z :=
  if zlen (rv_bytes v) <? RESHDR_SIZE then RESHDR_SIZE - zlen (rv_bytes v) else RESHDR_SIZE + rv_totlen v - zlen (rv_bytes v).

Definition took_bytes (n : nat) (b : broker) : broker :=
  let w := rkb_wire b in
  set_wire (mk_wire (tx_bytes w) (tx_log w) (drop n (rx_pending w)) (rx_bytes w ++ take n (rx_pending w)) (rx_log w) (rx_corrid_err w)) b.

Definition got_response (CorrId : Z) (body : list Z) (b : broker) : broker :=
  let w := rkb_wire b in
  set_wire (mk_wire (tx_bytes w) (tx_log w) (rx_pending w) (rx_bytes w) (rx_log w ++ [(CorrId, body)]) (rx_corrid_err w)) b.

(** The response is complete: pass it on. *)
Definition recv_complete cf en (v : recv_buf) (b : broker) : outcome (Z * broker) :=
  if zlen (rv_bytes v) - RESHDR_SIZE =? rv_totlen v then
    let body := zdrop RESHDR_SIZE (rv_bytes v) in
    let b := got_response (rv_CorrId v) body (up_conn (cn_recv_buf None) b) in
    let! b := rd_kafka_req_response cf en b (rv_CorrId v) body in Ret (1, b)
  else Ret (1, up_conn (cn_recv_buf (Some v)) b).

(** [rkbuf_totlen] is a size_t: a negative size is larger than the limit. *)
Definition rd_kafka_recv cf en (b : broker) (r : rr) : outcome (Z * broker) :=
  let v := match rkb_recv_buf (rkb_conn b) with Some v => v | None => mk_recv [] 0 0 end in
  let b := up_conn (cn_recv_buf (Some v)) b in
  match r with
  | RR_fail => let! b := broker_fail cf en ERR__TRANSPORT (Some false) b in Ret (-1, b)
  | RR_disconnected idle => let! b := rd_kafka_broker_conn_closed cf en idle ERR__TRANSPORT b in Ret (-1, b)
  | RR_bytes n =>
      let n := Nat.min n (Z.to_nat (write_remains v)) in
      let data := take n (rx_pending (rkb_wire b)) in
      let b := took_bytes n b in
      match data with
      | [] => Ret (0, b)
      | _ =>
          let v := mk_recv (rv_bytes v ++ data) (rv_totlen v) (rv_CorrId v) in
          if rv_totlen v =? 0 then
            if zlen (rv_bytes v) <? RESHDR_SIZE then Ret (0, up_conn (cn_recv_buf (Some v)) b)
            else
              let Size := s32 (be_dec (take 4 (rv_bytes v))) in
              let CorrId := s32 (be_dec (take 4 (drop 4 (rv_bytes v)))) in
              if (u64 Size <? 4) || (u64 Size >? cf_recv_max_msg_size cf) then
                let! b := broker_fail cf en ERR__BAD_MSG (Some false) b in Ret (-1, b)
              else recv_complete cf en (mk_recv (rv_bytes v) (u64 Size - 4) CorrId) b
          else recv_complete cf en v b
      end
  end.

(** ** Connecting *)

(** [rd_kafka_broker_connect]: the address cannot be resolved, the connection
    cannot be started, or it is started. *)
Inductive connect_res : Type := CR_unresolved (quiet : bool) | CR_fail (quiet : bool) | CR_ok.

Definition new_connection (b : broker) : broker :=
  let w := rkb_wire b in
  set_wire (mk_wire [] (tx_log w) [] [] [] (rx_corrid_err w)) (up_conn (cn_transport true) b).

Definition rd_kafka_broker_connect cf en (b : broker) (res : connect_res) : outcome broker :=
  match res with
  | CR_unresolved quiet => broker_fail cf en ERR__RESOLVE (if quiet then None else Some false) b
  | CR_fail quiet =>
      assert! negb (b_transport b) in
      if quiet then broker_fail cf en ERR__FAIL None b else broker_fail cf en ERR__TRANSPORT (Some false) b
  | CR_ok =>
      assert! negb (b_transport b) in
      Ret (rd_kafka_broker_set_state en STATE_CONNECT (new_connection b))
  end.

(** [errstr]: the connection failed, at the debug level or not. *)
Definition rd_kafka_broker_connect_done cf en (errstr : option bool) (b : broker) : outcome broker :=
  match errstr with
  | Some debug => broker_fail cf en ERR__TRANSPORT (Some debug) b
  | None =>
      let b := up_conn (fun c => cn_max_inflight 1 (cn_connid (rkb_connid c + 1) c)) b in
      let b := if cf_api_version_request cf && en_fail_intvl en
               then up_conn (fun c => cn_features (rd_kafka_broker_feature_enable (rkb_features c) RD_KAFKA_FEATURE_APIVERSION) c) b
               else b in
      let b := if Z.land (rkb_features (rkb_conn b)) RD_KAFKA_FEATURE_APIVERSION =? 0
               then rd_kafka_broker_set_api_versions cf None b else b in
      if negb (Z.land (rkb_features (rkb_conn b)) RD_KAFKA_FEATURE_APIVERSION =? 0) then
        let b := rd_kafka_broker_set_state en STATE_APIVERSION_QUERY b in
        rd_kafka_ApiVersionRequest cf b
      else rd_kafka_broker_connect_auth (broker_fail cf en) cf en b
  end.

(** ** Events of the socket *)

(** The outcome of a step of SASL authentication. *)
Inductive sasl_res : Type := SR_fail | SR_more | SR_done.

(** What poll reported and the results of the system calls that follow: the
    socket's error for a connection being made ([Some true]: none), the step of the
    authentication, the reads, and the writes.  [io_debug] is the level of the message when the
    connection cannot be made, and says that it was idle when it is closed. *)
Record io : Type := mk_io {
  io_connect : option bool; io_debug : bool; io_sasl : sasl_res;
  io_in : option (list rr); io_hup : bool; io_out : option (list wr) }.

Fixpoint recv_loop cf en (rs : list rr) (b : broker) : outcome broker :=
  if state_ge_up (b_state b) then
    match rs with
    | [] => let! (_, b) := rd_kafka_recv cf en b (RR_bytes 0) in Ret b
    | r :: rs =>
        let! (res, b) := rd_kafka_recv cf en b r in
        if res >? 0 then recv_loop cf en rs b else Ret b
    end
  else Ret b.

(** [while (rd_kafka_send(rkb) > 0)]: a call that sent something ends because
    nothing more can be sent, so the second one returns 0. *)
Definition send_all cf en (ws : list wr) (b : broker) : outcome broker :=
  let! (res, ws, b) := rd_kafka_send cf en ws b in
  if res >? 0 then
    let! (res, _, b) := rd_kafka_send cf en ws b in
    if res >? 0 then Diverge else Ret b
  else Ret b.

Definition rd_kafka_transport_io_event cf en (e : io) (b : broker) : outcome broker :=
  match b_state b with
  | STATE_CONNECT =>
      match io_out e, io_hup e with
      | None, false => Ret b
      | _, _ =>
          match io_connect e with
          | None => broker_fail cf en ERR__TRANSPORT (Some false) b
          | Some false => rd_kafka_broker_connect_done cf en (Some (io_debug e)) b
          | Some true => rd_kafka_broker_connect_done cf en None b
          end
      end
  | STATE_AUTH =>
      match io_sasl e with
      | SR_fail => broker_fail cf en ERR__AUTHENTICATION (Some false) b
      | r =>
          let! b := match r with SR_done => rd_kafka_broker_connect_up cf en b | _ => Ret b end in
          if io_hup e then broker_fail cf en ERR__AUTHENTICATION (Some false) b else Ret b
      end
  | STATE_INIT | STATE_DOWN => Crash
  | _ =>
      let! b := match io_in e with Some rs => recv_loop cf en rs b | None => Ret b end in
      if match io_in e with Some _ => is_state (b_state b) STATE_DOWN | None => false end then Ret b
      else if io_hup e then rd_kafka_broker_conn_closed cf en (io_debug e) ERR__TRANSPORT b
      else match io_out e with Some ws => send_all cf en ws b | None => Ret b end
  end.

(** Called by [rd_kafka_broker_serve], only with a transport; what poll reports is the
    argument. *)
Definition rd_kafka_transport_io_serve cf en (e : io) (b : broker) : outcome broker :=
  if b_transport b then rd_kafka_transport_io_event cf en e b else Ret b.

(** ** Operations *)

Definition rd_kafka_broker_op_serve cf en (o : bop) (b : broker) : outcome broker :=
  match o with
  | OP_XMIT_BUF r => rd_kafka_broker_buf_enq2 cf en b r
  | OP_XMIT_RETRY r => Ret (rd_kafka_broker_buf_retry cf true b r)
  | OP_NODE_UPDATE name_changed nodeid =>
      let id_changed := negb (nodeid =? -1) && negb (nodeid =? rkb_nodeid (rkb_conn b)) in
      let b := if id_changed then up_conn (cn_nodeid nodeid) b else b in
      if name_changed then broker_fail cf en ERR__NODE_UPDATE (Some false) b
      else if id_changed then
        let b := emit OUT_map_partitions b in
        Ret (if is_state (b_state b) STATE_UP then rd_kafka_broker_set_state en STATE_UPDATE b else b)
      else Ret b
  | OP_TERMINATE =>
      let b := if rkb_blocking_max_ms (rkb_conn b) >? 1 then up_conn (cn_blocking_max_ms 1) b else b in
      broker_fail cf en ERR__DESTROY (Some true) b
  | OP_WAKEUP => Ret b
  end.

(** Another thread serves a reply; [destroy]: its queue is gone. *)
Definition rd_kafka_buf_handle_op cf en (b : broker) (request : rkbuf) (err : Z) : outcome broker :=
  let request := if rkbuf_replyq request then rq_replyq false (rq_orig_replyq true request) else request in
  match rkbuf_cb request with
  | None => Ret (finish b request err)
  | Some _ =>
      let response := rkbuf_response request in
      rd_kafka_buf_callback (broker_fail cf en) cf en false b err response (rq_response None request)
  end.

(** ** The broker thread *)

Inductive event : Type :=
  | EV_time (dt : Z)                        (* the clock goes on *)
  | EV_arrive (data : list Z)               (* bytes arrive at the socket *)
  | EV_request (own : bool) (n : new_request)
  | EV_node (name_changed : bool) (nodeid : Z)
  | EV_terminate
  | EV_op                                   (* rd_kafka_broker_ops_serve takes an operation *)
  | EV_reply (i : nat) (destroy : bool)     (* another thread handles a reply *)
  | EV_connect (res : connect_res)          (* in the states INIT and DOWN *)
  | EV_io (e : io)
  | EV_scan                                 (* rd_kafka_broker_timeout_scan *)
  | EV_retries                              (* rd_kafka_broker_retry_bufs_move *)
  | EV_updated                              (* the state UPDATE is over *)
  | EV_terminating.                         (* the scan while terminating *)

Definition broker_step cf en (b : broker) (e : event) : outcome broker :=
  match e with
  | EV_time dt => Ret (set_now (rkb_now b + Z.max 0 dt) b)
  | EV_arrive data =>
      let w := rkb_wire b in
      Ret (if b_transport b
           then set_wire (mk_wire (tx_bytes w) (tx_log w) (rx_pending w ++ data) (rx_bytes w) (rx_log w) (rx_corrid_err w)) b else b)
  | EV_request own n => rd_kafka_broker_buf_enq_replyq cf en own b n
  | EV_node nm id => Ret (set_ops (rkb_ops b ++ [OP_NODE_UPDATE nm id]) b)
  | EV_terminate => Ret (set_ops (rkb_ops b ++ [OP_TERMINATE]) b)
  | EV_op => match rkb_ops b with [] => Ret b | o :: ops => rd_kafka_broker_op_serve cf en o (set_ops ops b) end
  | EV_reply i destroy =>
      match rkb_replies b !! i with
      | None => Ret b
      | Some (r, err) => rd_kafka_buf_handle_op cf en (set_replies (delete i (rkb_replies b)) b) r (if destroy then ERR__DESTROY else err)
      end
  | EV_connect res =>
      if is_state (b_state b) STATE_INIT || is_state (b_state b) STATE_DOWN then
        if rkb_internal b then Ret (rd_kafka_broker_set_state en STATE_UP b) else rd_kafka_broker_connect cf en b res
      else Ret b
  | EV_io e => rd_kafka_transport_io_serve cf en e b
  | EV_scan => rd_kafka_broker_timeout_scan cf en (rkb_now b) b
  | EV_retries => if is_state (b_state b) STATE_UP then rd_kafka_broker_retry_bufs_move cf b else Ret b
  | EV_updated => Ret (if is_state (b_state b) STATE_UPDATE then rd_kafka_broker_set_state en STATE_UP b else b)
  | EV_terminating => if en_terminating en then terminating_scan cf en b else Ret b
  end.

Fixpoint broker_run cf (b : broker) (l : list (env * event)) : outcome broker :=
  match l with
  | [] => Ret b
  | (en, e) :: l => let! b := broker_step cf en b e in broker_run cf b l
  end.

(** [rd_kafka_broker_add]: the part of it that sets up the requests. *)
Definition broker_new cf (internal : bool) (nodeid broker_cnt down_cnt now : Z) : broker :=
  mk_broker
    (mk_conn STATE_INIT false 0 0 0 [] None false 0
       (cf_socket_blocking_max_ms cf) nodeid)
    internal 0 0 rd_kafka_bufq_init rd_kafka_bufq_init rd_kafka_bufq_init [] [] []
    (mk_wire [] [] [] [] [] 0) (mk_rk down_cnt broker_cnt 0 []) now 0.
