(* ===== verification/BrokerInv.v ===== *)
(** * The broker thread: its invariant

    [Aside L b] accounts for every request: those of [L] (in the send and wait
    queues, or in the hands of the function being run), those in the retry queue,
    in operations and in replies, and the finished ones; none is lost and none is
    in two places, and none was sent more often than its retries allow.  [Log b]
    says that correlation ids are not used twice.  [Live b] describes the send and
    wait queues and the connection: what the socket was given is a sequence of
    whole requests and a beginning of the first one in the send queue. *)
From Stdlib Require Import ZArith Lia.
From stdpp Require Import base numbers list.
From S2P Require Import Prelude.
From S2P Require Import Proto.
From S2P Require Import Feature.
From S2P Require Import BrokerState.
From S2P Require Import Broker.

Implicit Types (cf : conf) (en : env) (b : broker) (r : rkbuf).

(** ** Requests *)

Definition is_setup r : bool :=
  match rkbuf_cb r with Some CB_ApiVersion | Some CB_SaslHandshake => true | _ => false end.

(** The value of [rkbuf_retries] of a new request. *)
Definition base_retries r : Z := if is_setup r then RD_KAFKA_BUF_NO_RETRIES else 0.

(** How often a request was sent as a whole. *)
Definition tries (log : list (Z * rkbuf)) (id : nat) : Z := zlen (filter (fun x => rkbuf_id x.2 = id) log).

(** A frame: its length in front. *)
Definition framed (l : list Z) : Prop := 12 <= zlen l <= 2 ^ 31 /\ take 4 l = be_enc 4 (zlen l - 4).

Definition has_corrid r : Prop := take 4 (drop 8 (rkbuf_bytes r)) = be_enc 4 (rkbuf_corrid r).

Record req_wf cf r : Prop := mk_req_wf {
  rw_framed : framed (rkbuf_bytes r);
  rw_flags : rkbuf_blocking r = true -> rkbuf_no_response r = false;
  rw_setup : is_setup r = true ->
    rkbuf_replyq r = false /\ rkbuf_orig_replyq r = false /\ rkbuf_no_response r = false /\ rkbuf_blocking r = false /\
    rkbuf_retries r = RD_KAFKA_BUF_NO_RETRIES;
  rw_retries : is_setup r = false -> 0 <= rkbuf_retries r <= cf_max_retries cf }.

(** A request that is not a reply: sent at most as often as it may be. *)
Record hand_ok cf (log : list (Z * rkbuf)) r : Prop := mk_hand_ok {
  ho_wf : req_wf cf r;
  ho_response : rkbuf_response r = None;
  ho_tries : tries log (rkbuf_id r) <= rkbuf_retries r - base_retries r + (if rkbuf_sent r then 1 else 0) }.

(** A request of a client that has its next try ahead. *)
Record again_ok cf (log : list (Z * rkbuf)) r : Prop := mk_again_ok {
  ao_wf : req_wf cf r;
  ao_client : is_setup r = false;
  ao_response : rkbuf_response r = None;
  ao_fresh : rkbuf_of r = 0 /\ rkbuf_corrid r = 0;
  ao_tries : tries log (rkbuf_id r) <= rkbuf_retries r }.

Record reply_ok cf (log : list (Z * rkbuf)) r : Prop := mk_reply_ok {
  po_wf : req_wf cf r;
  po_client : is_setup r = false;
  po_replyq : rkbuf_replyq r = false;
  po_tries : tries log (rkbuf_id r) <= rkbuf_retries r + (if rkbuf_sent r then 1 else 0) }.

(** A request in an operation: new, or with another try ahead. *)
Definition op_req (o : bop) : list rkbuf := match o with OP_XMIT_BUF r | OP_XMIT_RETRY r => [r] | _ => [] end.

Definition op_ok cf (log : list (Z * rkbuf)) (o : bop) : Prop :=
  match o with
  | OP_XMIT_BUF r => again_ok cf log r
  | OP_XMIT_RETRY r => again_ok cf log (rq_of 0 (rq_corrid 0 r))
  | _ => True
  end.

Definition ops_reqs (l : list bop) : list rkbuf := concat (map op_req l).

(** ** Queues *)

Definition sum_msgs (l : list rkbuf) : Z := foldr (fun r n => rkbuf_msg_cnt r + n) 0 l.

Record bufq_ok (q : bufq) : Prop := mk_bufq_ok {
  qo_cnt : rkbq_cnt q = zlen (rkbq_bufs q);
  qo_msgs : rkbq_msg_cnt q = sum_msgs (rkbq_bufs q) }.

Definition outs b : list rkbuf := rkbq_bufs (rkb_outbufs b).
Definition waits b : list rkbuf := rkbq_bufs (rkb_waitresps b).
Definition retries b : list rkbuf := rkbq_bufs (rkb_retrybufs b).
Definition log b : list (Z * rkbuf) := tx_log (rkb_wire b).

Definition ids (l : list rkbuf) : list nat := map rkbuf_id l.

(** Every request there is, those of [L] included. *)
Definition all_ids (L : list rkbuf) b : list nat :=
  ids L ++ ids (retries b) ++ ids (ops_reqs (rkb_ops b)) ++ ids (map fst (rkb_replies b)) ++ map fst (rkb_done b).

Record Aside cf (L : list rkbuf) b : Prop := mk_aside {
  as_ids : all_ids L b ≡ₚ seq 0 (rkb_next b);
  as_hand : Forall (hand_ok cf (log b)) L;
  as_retry_cnt : bufq_ok (rkb_retrybufs b);
  as_retry : Forall (again_ok cf (log b)) (retries b);
  as_ops : Forall (op_ok cf (log b)) (rkb_ops b);
  as_replies : Forall (fun x => reply_ok cf (log b) x.1) (rkb_replies b);
  as_done : Forall (fun d => tries (log b) d.1 <= cf_max_retries cf + 1) (rkb_done b);
  as_new : forall id, (rkb_next b <= id)%nat -> tries (log b) id = 0 }.

(** ** Correlation ids *)

(** The requests sent on a connection. *)
Definition conn_log (connid : Z) (log : list (Z * rkbuf)) : list rkbuf := map snd (filter (fun x => x.1 = connid) log).

Definition cur_log b : list rkbuf := conn_log (rkb_connid (rkb_conn b)) (log b).

Definition corrids (log : list (Z * rkbuf)) : list Z := map (fun x => rkbuf_corrid x.2) log.

Record log_ok (connid corrid : Z) (x : Z * rkbuf) : Prop := mk_log_ok {
  lo_connid : x.1 <= connid;
  lo_corrid : 1 <= rkbuf_corrid x.2 <= corrid;
  lo_field : has_corrid x.2;
  lo_framed : framed (rkbuf_bytes x.2) }.

(** The invariant is about the ids that are positive as an int32_t. *)
Definition INT32_MAX : Z := 2 ^ 31 - 1.

Record Log b : Prop := mk_log {
  lg_range : 0 <= rkb_corrid b <= INT32_MAX;
  lg_entries : Forall (log_ok (rkb_connid (rkb_conn b)) (rkb_corrid b)) (log b);
  lg_distinct : NoDup (corrids (log b)) }.

(** ** The connection *)

Definition supported (c : conn) r : bool :=
  rd_kafka_broker_request_supported (rkb_features c) (rkb_ApiVersions c)
    (rkbuf_ApiKey r) (rkbuf_ApiVersion r) (rkbuf_features r).

(** A connection that is established, and one on which requests can be sent. *)
Definition linked (c : conn) : Prop := rkb_transport c = true /\ rkb_state c <> STATE_CONNECT.
Definition online (c : conn) : Prop := rkb_transport c = true /\ state_ge_up (rkb_state c) = true.

(** The first request was begun: it has a correlation id on this connection. *)
Record begun (c : conn) (corrid : Z) (log : list (Z * rkbuf)) (inflight : Z) r : Prop := mk_begun {
  bg_online : online c;
  bg_connid : rkbuf_connid r = rkb_connid c;
  bg_corrid : 1 <= rkbuf_corrid r <= corrid;
  bg_new : rkbuf_corrid r ∉ corrids log;
  bg_field : has_corrid r;
  bg_of : 0 <= rkbuf_of r < zlen (rkbuf_bytes r);
  bg_room : inflight < rkb_max_inflight c;
  bg_supported : rkbuf_of r > 0 -> supported c r = true }.

Definition idle r : Prop := rkbuf_of r = 0 /\ rkbuf_corrid r = 0.

Definition head_ok (P : rkbuf -> Prop) (l : list rkbuf) : Prop :=
  match l with
  | [] => True
  | r :: l => (idle r \/ P r) /\ Forall idle l
  end.

Record wait_ok (cl : list rkbuf) r : Prop := mk_wait_ok {
  wo_sent : rkbuf_sent r = true;
  wo_response : rkbuf_no_response r = false;
  wo_logged : exists r', r' ∈ cl /\ rkbuf_id r' = rkbuf_id r /\ rkbuf_corrid r' = rkbuf_corrid r /\ rkbuf_bytes r' = rkbuf_bytes r }.

Definition setup_phase (c : conn) : Prop :=
  (rkb_state c = STATE_APIVERSION_QUERY \/ rkb_state c = STATE_AUTH_HANDSHAKE) /\ rkb_max_inflight c = 1.

Definition setups (l : list rkbuf) : list rkbuf := filter (fun r => is_setup r = true) l.

Definition head_part (l : list rkbuf) : list Z :=
  match l with [] => [] | r :: _ => ztake (rkbuf_of r) (rkbuf_bytes r) end.

(** A response as it arrives. *)
Definition response_frame (x : Z * list Z) : list Z := be_enc 4 (zlen x.2 + 4) ++ be_enc 4 x.1 ++ x.2.

(** The part of a response that has been read. *)
Definition recv_ok cf (v : recv_buf) : Prop :=
  bytes_ok (rv_bytes v) /\
  ((zlen (rv_bytes v) < 8 /\ rv_totlen v = 0) \/
   (8 <= zlen (rv_bytes v) < 8 + rv_totlen v /\ rv_totlen v + 4 <= cf_recv_max_msg_size cf /\
    take 8 (rv_bytes v) = be_enc 4 (rv_totlen v + 4) ++ be_enc 4 (rv_CorrId v) /\ s_ok 32 (rv_CorrId v))).

Definition recv_part (v : option recv_buf) : list Z := match v with None => [] | Some v => rv_bytes v end.

Record Rx cf (c : conn) (w : wire) : Prop := mk_rx {
  rx_stream : rkb_transport c = true -> rx_bytes w = concat (map response_frame (rx_log w)) ++ recv_part (rkb_recv_buf c);
  rx_recv : match rkb_recv_buf c with None => True | Some v => recv_ok cf v end;
  rx_sizes : rkb_transport c = true -> Forall (fun x => zlen x.2 + 4 <= cf_recv_max_msg_size cf) (rx_log w);
  rx_data : bytes_ok (rx_pending w) }.

Record Live cf b : Prop := mk_live {
  lv_out_cnt : bufq_ok (rkb_outbufs b);
  lv_wait_cnt : bufq_ok (rkb_waitresps b);
  lv_out : Forall (fun r => rkbuf_sent r = false) (outs b);
  lv_head : head_ok (begun (rkb_conn b) (rkb_corrid b) (log b) (zlen (waits b))) (outs b);
  lv_wait : Forall (wait_ok (cur_log b)) (waits b);
  lv_corrids : NoDup (map rkbuf_corrid (waits b));
  lv_inflight : zlen (waits b) <= Z.max 0 (rkb_max_inflight (rkb_conn b));
  lv_blocking : rkb_blocking_request_cnt b = zlen (filter (fun r => rkbuf_blocking r = true) (waits b));
  lv_setup : zlen (setups (outs b ++ waits b)) <= 1;
  lv_phase : setups (outs b ++ waits b) <> [] -> setup_phase (rkb_conn b);
  lv_wait_online : waits b <> [] -> online (rkb_conn b);
  lv_down : b_state b = STATE_INIT \/ b_state b = STATE_DOWN -> b_transport b = false /\ rkb_recv_buf (rkb_conn b) = None;
  lv_up : state_ge_up (b_state b) = true -> rkb_internal b = true \/ b_transport b = true;
  lv_connect : b_state b = STATE_CONNECT -> tx_bytes (rkb_wire b) = [] /\ rkb_recv_buf (rkb_conn b) = None;
  lv_tx : linked (rkb_conn b) -> tx_bytes (rkb_wire b) = concat (map rkbuf_bytes (cur_log b)) ++ head_part (outs b);
  lv_rx : Rx cf (rkb_conn b) (rkb_wire b) }.

(** The state after a failure. *)
Record Down b : Prop := mk_down {
  dn_state : b_state b = STATE_DOWN;
  dn_transport : b_transport b = false;
  dn_recv : rkb_recv_buf (rkb_conn b) = None;
  dn_out : rkb_outbufs b = rd_kafka_bufq_init;
  dn_wait : rkb_waitresps b = rd_kafka_bufq_init;
  dn_blocking : rkb_blocking_request_cnt b = 0;
  dn_data : bytes_ok (rx_pending (rkb_wire b)) }.

(** A configuration whose limits are positive. *)
Record conf_ok cf : Prop := mk_conf_ok {
  co_retries : 0 <= cf_max_retries cf < RD_KAFKA_BUF_NO_RETRIES;
  co_backoff : 0 <= cf_retry_backoff_ms cf;
  co_inflight : 1 <= cf_max_inflight cf;
  co_msg_size : cf_max_msg_size cf < 2 ^ 31 - 4;
  co_recv_size : 0 <= cf_recv_max_msg_size cf < 2 ^ 31;
  co_setup_size : 12 + zlen (cf_client_id cf) + 4 + zlen (cf_mechanism cf) <= cf_max_msg_size cf }.

Definition new_ok cf (n : new_request) : Prop :=
  (nr_blocking n = true -> nr_no_response n = false) /\
  12 + zlen (cf_client_id cf) + zlen (nr_body n) <= cf_max_msg_size cf.

Record env_ok cf en : Prop := mk_env_ok {
  eo_apis : forall body, safe (en_apis en body) (fun x => x <> inl 0);
  eo_sasl : forall body, safe (en_sasl_err en body) (fun _ => True);
  eo_metadata : Forall (new_ok cf) (en_metadata en) }.

(** ** Counting requests *)

Lemma perm_count (l1 l2 : list nat) : l1 ≡ₚ l2 <-> forall x, count_occ Nat.eq_dec l1 x = count_occ Nat.eq_dec l2 x.
Proof. apply (Permutation_count_occ Nat.eq_dec). Qed.

(** Closes goals about rearrangements of requests. *)
Ltac count_ids :=
  unfold all_ids, retries, outs, waits, ids, ops_reqs in *; rewrite ?perm_count in *;
  let x := fresh "x" in intros x;
  repeat match goal with
  | H : forall y : nat, count_occ Nat.eq_dec _ y = count_occ Nat.eq_dec _ y |- _ => specialize (H x); revert H
  end; cbn -[Nat.eq_dec];
  repeat (rewrite ?map_app, ?concat_app, ?count_occ_app, ?app_nil_r; cbn [map concat app op_req fst snd count_occ]);
  cbn -[Nat.eq_dec];
  repeat match goal with |- context [Nat.eq_dec ?a ?b] => destruct (Nat.eq_dec a b) end;
  intros; try lia.

(** ** What callbacks of clients leave alone *)

Record keeps b b' : Prop := mk_keeps {
  kp_conn : rkb_conn b' = rkb_conn b;
  kp_internal : rkb_internal b' = rkb_internal b;
  kp_corrid : rkb_corrid b' = rkb_corrid b;
  kp_blocking : rkb_blocking_request_cnt b' = rkb_blocking_request_cnt b;
  kp_out : rkb_outbufs b' = rkb_outbufs b;
  kp_wait : rkb_waitresps b' = rkb_waitresps b;
  kp_wire : rkb_wire b' = rkb_wire b;
  kp_now : rkb_now b' = rkb_now b }.

Lemma keeps_refl b : keeps b b.
Proof. by constructor. Qed.

Lemma keeps_trans b1 b2 b3 : keeps b1 b2 -> keeps b2 b3 -> keeps b1 b3.
Proof. intros [] []. constructor; congruence. Qed.

(** A property of the fields that [keeps] names is kept. *)
Ltac keep_fields :=
  let K := fresh "K" in intros K; destruct K as [? ? ? ? ? ? ? ?];
  let X := fresh "X" in intros X; destruct X;
  repeat match goal with b : broker |- _ => destruct b end; cbn in *; subst; constructor; first [assumption|reflexivity].

Lemma keeps_live cf b b' : keeps b b' -> Live cf b -> Live cf b'.
Proof. keep_fields. Qed.

Lemma keeps_log b b' : keeps b b' -> Log b -> Log b'.
Proof. keep_fields. Qed.

Lemma keeps_down b b' : keeps b b' -> Down b -> Down b'.
Proof. keep_fields. Qed.

(** Retries are appended, due later. *)
Definition grows b b' : Prop :=
  exists l, retries b' = retries b ++ l /\ Forall (fun r => rkb_now b < rkbuf_ts_timeout r) l.

Lemma grows_same b b' : retries b' = retries b -> grows b b'.
Proof. intros H. exists []. by rewrite app_nil_r. Qed.

Lemma bufq_enq_ok q r : bufq_ok q -> bufq_ok (rd_kafka_bufq_enq q r).
Proof.
  intros [Hc Hm]. constructor; cbn; [rewrite Hc, length_app; cbn; lia|]. rewrite Hm. unfold sum_msgs. rewrite foldr_app. cbn.
  generalize (rkbuf_msg_cnt r). clear. intros n. induction (rkbq_bufs q); cbn; lia.
Qed.

Section client.
Context (cf : conf) (en : env) (CO : conf_ok cf).

Lemma hand_ok_bound (lg : list (Z * rkbuf)) r : hand_ok cf lg r -> tries lg (rkbuf_id r) <= cf_max_retries cf + 1.
Proof.
  intros [[? ? Hset Hr] ? Ht]. unfold base_retries in Ht. pose proof (co_retries _ CO).
  destruct (is_setup r); [destruct Hset as (_ & _ & _ & _ & Hn); [done|]|specialize (Hr eq_refl)];
    destruct (rkbuf_sent r); lia.
Qed.

Lemma finish_ok L b r err :
  Aside cf (r :: L) b -> Aside cf L (finish b r err) /\ keeps b (finish b r err) /\ grows b (finish b r err).
Proof.
  intros [Hi Hh ? ? ? ? Hd ?]. apply Forall_cons in Hh as [Hr Hh]. split; [|split; [by constructor|by apply grows_same]].
  constructor; try done.
  - unfold finish, all_ids in *. cbn. count_ids.
  - cbn. apply Forall_app. split; [done|]. apply Forall_singleton. by apply hand_ok_bound.
Qed.

Lemma retry_ok own L b b' r :
  Aside cf (r :: L) b -> is_setup r = false -> rd_kafka_buf_retry cf en own b r = Some b' ->
  Aside cf L b' /\ keeps b b' /\ grows b b' /\ (length (retries b') <= S (length (retries b)))%nat /\ en_terminating en = false.
Proof.
  intros [Hi Hh Hq Hre Ho ? ? ?] Hs. apply Forall_cons in Hh as [Hr Hh]. unfold rd_kafka_buf_retry.
  destruct (_ || _) eqn:E; [done|]. destruct (negb _ && _); [done|]. intros [= <-]. bool_hyps.
  match goal with |- context [rd_kafka_broker_buf_retry cf own b ?x] => set (r1 := x) end.
  assert (forall x, rkbuf_id x = rkbuf_id r -> rkbuf_cb x = rkbuf_cb r -> rkbuf_bytes x = rkbuf_bytes r -> rkbuf_blocking x = rkbuf_blocking r ->
    rkbuf_no_response x = rkbuf_no_response r -> rkbuf_retries x = rkbuf_retries r1 -> rkbuf_response x = rkbuf_response r ->
    rkbuf_of x = 0 -> rkbuf_corrid x = 0 -> again_ok cf (log b) x) as Hok.
  { intros x Hid Hcb Hby Hbl Hno Hret Hrp Hof Hco. destruct Hr as [[Hf Hfl Hse Hrt] Hres Ht].
    assert (is_setup x = false) as Hsx by (unfold is_setup; rewrite Hcb; exact Hs).
    unfold base_retries in Ht. rewrite Hs in Ht. specialize (Hrt Hs).
    constructor; [constructor| | | |]; rewrite ?Hby, ?Hbl, ?Hno, ?Hrp, ?Hid, ?Hret; try done; try congruence.
    - intros _. cbn. destruct (rkbuf_sent r); lia.
    - cbn. destruct (rkbuf_sent r); lia. }
  unfold rd_kafka_broker_buf_retry. cbv zeta. set (r2 := if negb (rkbuf_replyq r1) && _ then _ else r1).
  assert (forall A (f : rkbuf -> A), (forall x y, f (rq_orig_replyq false (rq_replyq true y)) = f y) -> f r2 = f r1) as Hr2
    by (intros A f Hf; unfold r2; case_if; [apply Hf; exact r1|done]).
  assert (rkbuf_id r2 = rkbuf_id r) as Hid2 by (by rewrite (Hr2 _ rkbuf_id)).
  destruct own; cbn [negb].
  - match goal with |- context [rd_kafka_bufq_enq _ ?x] => set (r3 := x) end.
    assert (rkbuf_id r3 = rkbuf_id r) as Hid3 by (unfold r3; cbn; done).
    assert (rkb_now b < rkbuf_ts_timeout r3) as Hto by (unfold r3; cbn; pose proof (co_backoff _ CO); lia).
    assert (again_ok cf (log b) r3) as Hr3.
    { apply Hok; try done; unfold r3; cbn; [by rewrite (Hr2 _ rkbuf_cb)|by rewrite (Hr2 _ rkbuf_bytes)|by rewrite (Hr2 _ rkbuf_blocking)
        |by rewrite (Hr2 _ rkbuf_no_response)|by rewrite (Hr2 _ rkbuf_retries)|by rewrite (Hr2 _ rkbuf_response)]. }
    clearbody r3 r2. split; [|split; [by constructor|]].
    + constructor; cbn; try done; [|by apply bufq_enq_ok|apply Forall_app; split; [done|by apply Forall_singleton]].
      unfold all_ids, retries, ids in *. cbn. rewrite map_app. cbn. rewrite Hid3. count_ids.
    + split; [exists [r3]; split; [done|by apply Forall_singleton]|]. split; [|done]. unfold retries. cbn. rewrite length_app. cbn. lia.
  - split; [|split; [by constructor|split; [by apply grows_same|split; [by apply Nat.le_succ_diag_r|done]]]]. constructor; cbn; try done.
    + unfold all_ids, ids, ops_reqs in *. cbn. rewrite map_app, concat_app. cbn. rewrite map_app. cbn. rewrite Hid2. count_ids.
    + apply Forall_app. split; [done|]. constructor; [|done]. cbn.
      apply Hok; cbn; try done; [by rewrite (Hr2 _ rkbuf_cb)|by rewrite (Hr2 _ rkbuf_bytes)|by rewrite (Hr2 _ rkbuf_blocking)
        |by rewrite (Hr2 _ rkbuf_no_response)|by rewrite (Hr2 _ rkbuf_retries)|by rewrite (Hr2 _ rkbuf_response)].
Qed.

(** What a callback of a client does: the request goes aside. *)
Definition put_aside (L : list rkbuf) b b' : Prop :=
  Aside cf L b' /\ keeps b b' /\ grows b b' /\ (en_terminating en = true -> retries b' = retries b) /\
  (length (retries b') <= S (length (retries b)))%nat.

Lemma run_client_cb_ok own L b r err resp :
  Aside cf (r :: L) b -> is_setup r = false -> put_aside L b (run_client_cb cf en own b r err resp).
Proof.
  intros A Hs. unfold run_client_cb.
  assert (put_aside L b (finish b r err)) as Hf by (destruct (finish_ok L b r err A) as (? & ? & ?); unfold put_aside; split_and!; try done; by apply Nat.le_succ_diag_r).
  destruct (en_retry en r err resp); [|done]. destruct (rd_kafka_buf_retry cf en own b r) as [b'|] eqn:E; [|done].
  destruct (retry_ok _ _ _ _ _ A Hs E) as (? & ? & ? & ? & Ht). unfold put_aside. split_and!; try done. by rewrite Ht.
Qed.

Lemma client_callback_ok own L b r err resp :
  Aside cf (r :: L) b -> is_setup r = false -> safe (client_callback cf en own b err resp r) (put_aside L b).
Proof.
  intros A Hs. unfold client_callback. destruct (negb (err =? _) && _) eqn:E.
  - bool_hyps. pose proof A as [Hi Hh ? ? ? Hp ? ?]. apply Forall_cons in Hh as [[Hw Hr Ht] Hh]. rewrite Hr. cbn [safe].
    unfold base_retries in Ht. rewrite Hs in Ht.
    split; [|split; [by constructor|split; [by apply grows_same|split; [done|by apply Nat.le_succ_diag_r]]]]. constructor; try done.
    + count_ids.
    + cbn. apply Forall_app. split; [done|]. apply Forall_singleton. destruct Hw as [? ? ? ?].
      constructor; cbn; try done; [constructor; cbn; try done|change (log (set_replies _ b)) with (log b); lia].
      unfold is_setup in *. cbn. by destruct (rkbuf_cb r) as [[]|].
  - destruct (rkbuf_cb r) eqn:Ec; cbn [safe]; [by apply run_client_cb_ok|].
    destruct (finish_ok L b r err A) as (? & ? & ?). unfold put_aside; split_and!; try done. by apply Nat.le_succ_diag_r.
Qed.
End client.
