(* ===== verification/BrokerConn.v ===== *)
(** * The broker thread: failing and connecting keep the invariant

    [Good cf L b]: the whole invariant, with the requests [L] in hand. *)
From Stdlib Require Import ZArith Lia.
From stdpp Require Import base numbers list.
From S2P Require Import Prelude.
From S2P Require Import Proto.
From S2P Require Import Feature.
From S2P Require Import BrokerState.
From S2P Require Import Broker.
From S2P Require Import BrokerInv.

Implicit Types (cf : conf) (en : env) (b : broker) (r : rkbuf).

(** ** Changes that leave requests alone *)

Record same_aside b b' : Prop := mk_same_aside {
  sa_retry : rkb_retrybufs b' = rkb_retrybufs b;
  sa_ops : rkb_ops b' = rkb_ops b;
  sa_replies : rkb_replies b' = rkb_replies b;
  sa_done : rkb_done b' = rkb_done b;
  sa_log : log b' = log b;
  sa_next : rkb_next b' = rkb_next b }.

Lemma same_aside_trans b1 b2 b3 : same_aside b1 b2 -> same_aside b2 b3 -> same_aside b1 b3.
Proof. intros [] []. constructor; congruence. Qed.

Lemma aside_same cf L b b' : same_aside b b' -> Aside cf L b -> Aside cf L b'.
Proof.
  intros [Hr Ho Hp Hd Hl Hn] []. constructor; unfold all_ids, retries in *;
    rewrite ?Hr, ?Ho, ?Hp, ?Hd, ?Hl, ?Hn; assumption.
Qed.

Lemma aside_perm cf L L' b : L ≡ₚ L' -> Aside cf L b -> Aside cf L' b.
Proof. intros P []. constructor; try done; [|by rewrite <- P]. unfold all_ids, ids in *. by rewrite <- P. Qed.

Lemma set_state_eq en s b :
  exists d k, rd_kafka_broker_set_state en s b = set_rk k (set_conn (cn_state s (cn_down_reported d (rkb_conn b))) b).
Proof.
  unfold rd_kafka_broker_set_state. destruct (is_state (b_state b) s) eqn:E.
  - apply bool_decide_eq_true in E. subst s. exists (rkb_down_reported (rkb_conn b)), (rkb_rk b). by destruct b as [[]].
  - clear E. destruct b as [[]]. cbn. repeat case_if; eexists _, _; reflexivity.
Qed.

(** ** Failing *)

Definition Good cf (L : list rkbuf) b : Prop := Live cf b /\ Log b /\ Aside cf (outs b ++ waits b ++ L) b.

Lemma down_live cf b : Down b -> Live cf b.
Proof.
  intros [Hs Ht Hr Ho Hw Hb Hd]. assert (~ linked (rkb_conn b)) as Hon by (intros [Hon _]; unfold b_transport in Ht; congruence).
  constructor; unfold outs, waits; rewrite ?Ho, ?Hw; cbn; try done; try (unfold b_state in *; congruence); try lia.
  - constructor.
  - by rewrite Hs.
  - split; unfold b_transport in *; rewrite ?Hr; try done; intros; congruence.
Qed.

(** The log of correlation ids depends on little of the state. *)
Lemma log_same b b' :
  rkb_corrid b' = rkb_corrid b -> rkb_connid (rkb_conn b') = rkb_connid (rkb_conn b) -> log b' = log b -> Log b -> Log b'.
Proof. intros H1 H2 H3 []. constructor; rewrite ?H1, ?H2, ?H3; assumption. Qed.

Lemma down_good cf L b : Down b -> Log b -> Aside cf L b -> Good cf L b.
Proof.
  intros D Hl A. split; [by apply down_live|]. split; [done|]. destruct D as [_ _ _ Ho Hw _ _].
  unfold outs, waits. by rewrite Ho, Hw.
Qed.

Section fail.
Context (cf : conf) (en : env) (CO : conf_ok cf).

(** The state in which the queues are purged. *)
Definition fail_entry err fmt b : broker :=
  set_blocking_request_cnt 0 (set_outbufs rd_kafka_bufq_init (set_waitresps rd_kafka_bufq_init (fail_close cf en err fmt b))).

Lemma fail_close_eq err fmt b :
  exists c k, fail_close cf en err fmt b = set_rk k (set_conn c b) /\ rkb_state c = STATE_DOWN /\ rkb_transport c = false /\
    rkb_recv_buf c = None /\ rkb_connid c = rkb_connid (rkb_conn b).
Proof.
  unfold fail_close. cbv zeta. match goal with |- context [rd_kafka_broker_set_state en STATE_DOWN ?x] => set (b1 := x) end.
  assert (exists c k, b1 = set_rk k (set_conn c b) /\ rkb_transport c = false /\ rkb_recv_buf c = None /\
    rkb_connid c = rkb_connid (rkb_conn b)) as (c & k & Hb & Ht & Hr & Hc).
  { exists (rkb_conn b1), (rkb_rk b1). unfold b1.
    destruct (is_state (b_state _) STATE_APIVERSION_QUERY); destruct fmt as [[]|]; try destruct (_ && negb _); (split; [by destruct b|done]). }
  destruct (set_state_eq en STATE_DOWN b1) as (d & k' & ->). rewrite Hb.
  eexists _, _. split; [reflexivity|]. done.
Qed.

Lemma fail_entry_down err fmt b :
  bytes_ok (rx_pending (rkb_wire b)) ->
  Down (fail_entry err fmt b) /\ same_aside b (fail_entry err fmt b) /\ (Log b -> Log (fail_entry err fmt b)) /\
  rkb_now (fail_entry err fmt b) = rkb_now b.
Proof.
  intros Hp. unfold fail_entry. destruct (fail_close_eq err fmt b) as (c & k & -> & Hs & Ht & Hr & Hc).
  split; [by constructor|]. split; [by constructor|]. split; [|done]. by apply log_same.
Qed.

(** What every step of a failing broker keeps. *)
Definition going_down (L : list rkbuf) b b' : Prop :=
  Down b' /\ Log b' /\ Aside cf L b' /\ grows b b' /\ rkb_now b' = rkb_now b.

Lemma fail_unfold n err fmt b :
  rd_kafka_broker_fail (S n) cf en err fmt b =
    let! b1 := bufq_purge_loop (rd_kafka_broker_fail n cf en) cf en (waits b) err (fail_entry err fmt b) in
    let! b2 := bufq_purge_loop (rd_kafka_broker_fail n cf en) cf en (outs b) err b1 in
    let! b3 := rd_kafka_bufq_connection_reset (rd_kafka_broker_fail n cf en) cf en b2 in
    Ret (match fmt with
         | Some _ => if negb (err =? ERR__DESTROY) && state_ge_up (b_state b) then emit OUT_refresh_topics b3 else b3
         | None => b3
         end).
Proof.
  cbn [rd_kafka_broker_fail]. unfold rd_kafka_bufq_purge, fail_entry. destruct (fail_close_eq err fmt b) as (c & k & -> & _). done.
Qed.

Lemma reset_down fail b : Down b -> rd_kafka_bufq_connection_reset fail cf en b = Ret b.
Proof. intros [_ _ _ Ho _ _ _]. unfold rd_kafka_bufq_connection_reset. by rewrite Ho. Qed.

Lemma emit_going_down L b b' o : going_down L b b' -> going_down L b (emit o b').
Proof.
  intros ([] & [] & A & (l & ? & ?) & ?). split; [by constructor|]. split; [by constructor|].
  split; [by eapply aside_same; [|exact A]|]. split; [by exists l|done].
Qed.

(** Failing a broker that is already down. *)
Lemma fail_on_down n err fmt L b :
  Down b -> Log b -> Aside cf L b -> safe (rd_kafka_broker_fail (S n) cf en err fmt b) (going_down L b).
Proof.
  intros D Hl A. rewrite fail_unfold. destruct (fail_entry_down err fmt b (dn_data _ D)) as (De & Se & Le & Ne).
  unfold waits, outs. rewrite (dn_wait _ D), (dn_out _ D). cbn [rkbq_bufs rd_kafka_bufq_init bufq_purge_loop obind].
  rewrite reset_down by done. cbn [obind safe].
  assert (going_down L b (fail_entry err fmt b)) as G.
  { split; [done|]. split; [auto|]. split; [by eapply aside_same|]. split; [apply grows_same; unfold retries; by rewrite (sa_retry _ _ Se)|done]. }
  destruct fmt; [|done]. case_if; [by apply emit_going_down|done].
Qed.

(** The callback of a request that is purged from a broker that is down. *)
Lemma callback_down n L b r err :
  Down b -> Log b -> Aside cf (r :: L) b -> err <> 0 ->
  safe (rd_kafka_buf_callback (rd_kafka_broker_fail (S n) cf en) cf en true b err None r) (going_down L b).
Proof.
  intros D Hl A Herr.
  assert (is_setup r = false -> safe (client_callback cf en true b err None r) (going_down L b)) as Hc.
  { intros Hs. eapply safe_mono; [by apply client_callback_ok|]. intros b' (? & K & ? & ?).
    split; [by eapply keeps_down|]. split; [by eapply keeps_log|]. split; [done|]. split; [done|]. by destruct K. }
  assert (forall b', going_down (r :: L) b b' -> going_down L b (finish b' r err)) as Hf.
  { intros b' (D' & L' & A' & (l & G & ?) & N). destruct (finish_ok _ CO L b' r err A') as (? & K & _).
    split; [by eapply keeps_down|]. split; [by eapply keeps_log|]. split; [done|]. split; [by exists l|done]. }
  assert (going_down (r :: L) b b) as H0 by (split; [done|split; [done|split; [done|split; [by apply grows_same|done]]]]).
  pose proof (as_hand _ _ _ A) as [[Hw _ _] _]%Forall_cons. destruct Hw as [_ _ Hset _].
  unfold rd_kafka_buf_callback. unfold is_setup in *.
  destruct (rkbuf_cb r) as [[]|] eqn:Ecb; try (destruct (_ && _); by apply Hc).
  - destruct Hset as (Hq & _); [done|]. rewrite Hq, andb_false_r. unfold rd_kafka_broker_handle_ApiVersion.
    destruct (Z.eqb_spec err ERR__DESTROY); [cbn; by apply Hf|]. destruct (Z.eqb_spec err 0); [done|]. cbn [negb obind].
    destruct (Z.eqb_spec err 0); [done|]. cbn [negb].
    eapply safe_bind; [by apply fail_on_down|]. intros b' G. cbn. by apply Hf.
  - destruct Hset as (Hq & _); [done|]. rewrite Hq, andb_false_r. unfold rd_kafka_broker_handle_SaslHandshake.
    destruct (Z.eqb_spec err ERR__DESTROY); [cbn; by apply Hf|]. destruct (Z.eqb_spec err 0); [done|]. cbn [negb obind].
    destruct (Z.eqb_spec err 0); [done|]. cbn [negb].
    eapply safe_bind; [by apply fail_on_down|]. intros b' G. cbn. by apply Hf.
Qed.

Lemma going_down_trans L L' b1 b2 b3 : going_down L b1 b2 -> going_down L' b2 b3 -> going_down L' b1 b3.
Proof.
  intros (? & ? & ? & (l1 & E1 & F1) & N1) (? & ? & ? & (l2 & E2 & F2) & N2). split_and!; try done; [|congruence].
  exists (l1 ++ l2). rewrite E2, E1, app_assoc. split; [done|]. apply Forall_app. split; [done|]. by rewrite <- N1.
Qed.

Lemma purge_down n L l b err :
  Down b -> Log b -> Aside cf (l ++ L) b -> err <> 0 ->
  safe (bufq_purge_loop (rd_kafka_broker_fail (S n) cf en) cf en l err b) (going_down L b).
Proof.
  intros D Hl A Herr. revert b D Hl A. induction l as [|r l IH]; intros b D Hl A; cbn.
  - split; [done|]. split; [done|]. split; [done|]. split; [by apply grows_same|done].
  - eapply safe_bind; [by apply callback_down|]. intros b' G. pose proof G as (D' & L' & A' & _).
    eapply safe_mono; [by apply IH|]. intros b2 G2. by eapply going_down_trans.
Qed.

(** A failure: the broker is down, every request in hand was answered or put aside. *)
Lemma fail_ok n err fmt L b :
  Log b -> bytes_ok (rx_pending (rkb_wire b)) -> Aside cf (outs b ++ waits b ++ L) b -> err <> 0 ->
  safe (rd_kafka_broker_fail (S (S n)) cf en err fmt b) (going_down L b).
Proof.
  intros Hl Hp A Herr. rewrite fail_unfold. destruct (fail_entry_down err fmt b Hp) as (De & Se & Le & Ne).
  assert (Aside cf (waits b ++ outs b ++ L) (fail_entry err fmt b)) as Ae.
  { eapply aside_same; [done|]. eapply aside_perm; [|exact A]. rewrite !app_assoc. f_equiv. apply Permutation_app_comm. }
  assert (going_down (waits b ++ outs b ++ L) b (fail_entry err fmt b)) as G0.
  { split; [done|]. split; [auto|]. split; [done|]. split; [apply grows_same; unfold retries; by rewrite (sa_retry _ _ Se)|done]. }
  eapply safe_bind; [by apply purge_down; auto|]. intros b1 G1. pose proof G1 as (D1 & L1 & A1 & _).
  eapply safe_bind; [by apply purge_down|]. intros b2 G2. pose proof G2 as (D2 & L2 & A2 & _).
  rewrite reset_down by done. cbn [obind safe].
  assert (going_down L b b2) as G by (eapply going_down_trans; [|exact G2]; by eapply going_down_trans).
  destruct fmt; [|done]. case_if; [by apply emit_going_down|done].
Qed.
End fail.

Lemma going_down_good cf L b b' : going_down cf L b b' -> Good cf L b'.
Proof. intros (? & ? & ? & _). by apply down_good. Qed.

(** ** New requests *)

Lemma update_bytes_length o d l : (o + length d <= length l)%nat -> length (update_bytes o d l) = length l.
Proof. intros H. unfold update_bytes. rewrite !length_app, length_take, length_drop. lia. Qed.

Lemma update_bytes_take o d l n : (n <= o)%nat -> (o <= length l)%nat -> take n (update_bytes o d l) = take n l.
Proof. intros H1 H2. unfold update_bytes. rewrite take_app_le, take_take by (rewrite length_take; lia). f_equal. lia. Qed.

Lemma update_bytes_at o d l : (o <= length l)%nat -> take (length d) (drop o (update_bytes o d l)) = d.
Proof.
  intros H. unfold update_bytes. rewrite drop_app_length' by (rewrite length_take; lia). by rewrite take_app_length.
Qed.

(** [rd_kafka_buf_finalize] puts the length in front. *)
Lemma finalize_ok cf r :
  12 <= zlen (rkbuf_bytes r) -> zlen (rkbuf_bytes r) - 4 <= cf_max_msg_size cf -> cf_max_msg_size cf < 2 ^ 31 - 4 ->
  exists bs, rd_kafka_buf_finalize cf r = Ret (rq_bytes bs (rq_of 0 r)) /\ framed bs /\ zlen bs = zlen (rkbuf_bytes r).
Proof.
  intros H12 Hm Hm2. unfold rd_kafka_buf_finalize. destruct (Z.leb_spec (zlen (rkbuf_bytes r) - 4) (cf_max_msg_size cf)); [|lia].
  eexists. split; [by destruct r|]. cbn [rkbuf_bytes rq_of rq_bytes rkbuf_ApiVersion].
  set (l1 := update_bytes 0 _ _). assert (length l1 = length (rkbuf_bytes r)) as Hl1
    by (apply update_bytes_length; rewrite be_enc_length; lia).
  set (l2 := update_bytes 6 _ l1). assert (length l2 = length l1) as Hl2
    by (apply update_bytes_length; rewrite be_enc_length; lia).
  split; [|by rewrite Hl2, Hl1]. unfold framed. rewrite Hl2, Hl1. split; [lia|].
  unfold l2. rewrite update_bytes_take by lia.
  pose proof (update_bytes_at 0 (be_enc 4 (zlen (rkbuf_bytes r) - 4)) (rkbuf_bytes r) ltac:(lia)) as E.
  rewrite be_enc_length in E. exact E.
Qed.

(** ** Joining the send queue *)

Lemma insert_behind_perm r l : insert_behind r l ≡ₚ r :: l.
Proof. induction l as [|x l IH]; cbn; [done|]. destruct (_ && _); [done|]. rewrite IH. apply Permutation_swap. Qed.

Lemma sum_msgs_perm l l' : l ≡ₚ l' -> sum_msgs l = sum_msgs l'.
Proof. unfold sum_msgs. induction 1; cbn; lia. Qed.

(** Where a request without a correlation id is put does not disturb the one being
    sent. *)
Lemma head_ok_insert (P : rkbuf -> Prop) (at_head : bool) r l :
  idle r -> (forall x, P x -> rkbuf_corrid x <> 0) -> head_ok P l ->
  let l' := if at_head then insert_behind r l else l ++ [r] in
  head_ok P l' /\ head_part l' = head_part l /\ l' ≡ₚ r :: l.
Proof.
  intros Hr HP Hl. destruct at_head; cbn zeta; (split; [|split]).
  - destruct l as [|x l]; cbn in *; [by split; [left|]|]. destruct Hl as [Hx Hl]. destruct (_ && _) eqn:E.
    + split; [by left|]. constructor; [|done]. bool_hyps. destruct Hx as [?|Hx]; [done|]. by apply HP in Hx.
    + split; [done|]. rewrite insert_behind_perm. by constructor.
  - destruct l as [|x l]; cbn in *; [by destruct Hr as [-> _]|]. destruct (_ && _) eqn:E; [|done]. bool_hyps.
    destruct Hl as [[[Hx _]|Hx] _]; [destruct Hr as [Hr _]; cbn; by rewrite Hr, Hx|by apply HP in Hx].
  - apply insert_behind_perm.
  - destruct l as [|x l]; cbn in *; [by split; [left|]|]. destruct Hl as [? ?]. split; [done|]. apply Forall_app. by split; [|constructor].
  - destruct l as [|x l]; cbn; [by destruct Hr as [-> _]|done].
  - by rewrite <- Permutation_cons_append.
Qed.

Lemma setups_perm l l' : l ≡ₚ l' -> setups l ≡ₚ setups l'.
Proof. unfold setups. intros P. by rewrite P. Qed.

Lemma setups_cons r l : setups (r :: l) = if is_setup r then r :: setups l else setups l.
Proof. unfold setups. rewrite filter_cons. destruct (is_setup r); by case_decide. Qed.

Lemma setups_app l l' : setups (l ++ l') = setups l ++ setups l'.
Proof. apply filter_app. Qed.

Lemma begun_corrid c corrid lg n r : begun c corrid lg n r -> rkbuf_corrid r <> 0.
Proof. intros []. lia. Qed.

(** A new member of the send queue. *)
Definition joins cf b r : Prop :=
  idle r /\ tries (log b) (rkbuf_id r) <= rkbuf_retries r - base_retries r /\
  (is_setup r = true -> setups (outs b ++ waits b) = [] /\ setup_phase (rkb_conn b)).

(** Only the send queue changes. *)
Record only_out b b' : Prop := mk_only_out {
  oo_conn : rkb_conn b' = rkb_conn b;
  oo_wait : rkb_waitresps b' = rkb_waitresps b;
  oo_retry : rkb_retrybufs b' = rkb_retrybufs b;
  oo_wire : rkb_wire b' = rkb_wire b;
  oo_now : rkb_now b' = rkb_now b }.

Lemma calc_timeout_eq cf r now : exists t, rd_kafka_buf_calc_timeout cf r now = rq_ts_timeout t r.
Proof. by eexists. Qed.

Lemma enq0_good cf L b r at_head :
  Live cf b -> Log b -> Aside cf (r :: outs b ++ waits b ++ L) b -> joins cf b r ->
  Good cf L (rd_kafka_broker_buf_enq0 cf b r at_head) /\ only_out b (rd_kafka_broker_buf_enq0 cf b r at_head) /\
  outs (rd_kafka_broker_buf_enq0 cf b r at_head) ≡ₚ rq_ts_timeout (rkbuf_ts_timeout (rd_kafka_buf_calc_timeout cf r (rkb_now b))) (rq_sent false (rq_ts_enq (rkb_now b) r)) :: outs b.
Proof.
  intros Hv Hl A (Hid & Ht & Hset). unfold rd_kafka_broker_buf_enq0. cbv zeta.
  set (r1 := rd_kafka_buf_calc_timeout cf (rq_sent false (rq_ts_enq (rkb_now b) r)) (rkb_now b)).
  assert (idle r1) as Hid1 by done. destruct Hv.
  destruct (head_ok_insert _ at_head r1 (outs b) Hid1 (begun_corrid _ _ _ _) lv_head) as (Hh & Hp & P).
  fold (outs b). set (l' := if at_head then _ else _) in *.
  assert (is_setup r1 = is_setup r) as Es by done.
  assert (rkbuf_sent r1 = false) as Hsent by done.
  split; [|split; [by constructor|exact P]]. split; [|split; [by constructor; destruct Hl|]].
  - constructor; unfold outs, waits in *; cbn; try done.
    + constructor; cbn [rkbq_bufs rkbq_cnt rkbq_msg_cnt]; [rewrite (qo_cnt _ lv_out_cnt), P; cbn; lia|].
      rewrite (qo_msgs _ lv_out_cnt), (sum_msgs_perm _ _ P). unfold sum_msgs. cbn. lia.
    + rewrite P. by constructor.
    + rewrite (setups_perm (l' ++ _) (r1 :: rkbq_bufs (rkb_outbufs b) ++ rkbq_bufs (rkb_waitresps b))) by (by rewrite P).
      rewrite setups_cons, Es. destruct (is_setup r); [|done]. destruct Hset as [-> _]; [done|]. cbn. lia.
    + intros Hne. destruct (is_setup r) eqn:Er; [by apply Hset|]. apply lv_phase. intros E0. apply Hne.
      apply Permutation_nil_r. rewrite (setups_perm (l' ++ _) (r1 :: rkbq_bufs (rkb_outbufs b) ++ rkbq_bufs (rkb_waitresps b))) by (by rewrite P).
      by rewrite setups_cons, Es, E0.
    + intros Hon. by rewrite Hp, lv_tx.
  - assert (hand_ok cf (log b) r1) as Hr1.
    { pose proof (as_hand _ _ _ A) as [[[] ? ?] _]%Forall_cons. constructor; [by constructor|done|]. rewrite Hsent.
      change (tries (log b) (rkbuf_id r) <= rkbuf_retries r - base_retries r + 0). lia. }
    eapply (aside_same _ _ b); [by constructor|]. apply (aside_perm _ (r1 :: outs b ++ waits b ++ L)).
    + unfold outs at 2, waits at 2. cbn. rewrite P. done.
    + destruct A as [Hi Hh2 ? ? ? ? ? ?]. constructor; try done. apply Forall_cons in Hh2 as [_ ?]. by constructor.
Qed.

(** ** Building a request *)

Lemma aside_next cf L b r :
  Aside cf L b -> rkbuf_id r = rkb_next b -> hand_ok cf (log b) r -> Aside cf (r :: L) (set_next (S (rkb_next b)) b).
Proof.
  intros [Hi Hh ? ? ? ? ? Hn] Hr Hok. constructor; try done.
  - change (rkb_next (set_next _ b)) with (S (rkb_next b)). rewrite seq_S.
    transitivity (rkb_next b :: seq 0 (rkb_next b)); [|by rewrite <- Permutation_cons_append].
    unfold all_ids, ids in *. cbn [map app]. rewrite Hr. constructor. exact Hi.
  - by constructor.
  - intros id Hid. cbn in Hid. apply Hn. lia.
Qed.

(** A request that is being built, by a client or by the broker thread. *)
Definition build_ok cf (n : new_request) (cb : option resp_cb) (ret : Z) : Prop :=
  new_ok cf n /\
  ((cb = None \/ cb = Some CB_client) /\ ret = 0 \/
   (cb = Some CB_ApiVersion \/ cb = Some CB_SaslHandshake) /\ ret = RD_KAFKA_BUF_NO_RETRIES /\
   nr_replyq n = false /\ nr_no_response n = false /\ nr_blocking n = false).

Lemma build_request cf L b n cb ret :
  conf_ok cf -> build_ok cf n cb ret -> Aside cf L b ->
  exists r, rd_kafka_buf_finalize cf (rd_kafka_buf_new_request cf (rkb_next b) n cb ret) = Ret r /\
    Aside cf (r :: L) (set_next (S (rkb_next b)) b) /\ idle r /\ rkbuf_cb r = cb /\ rkbuf_flash r = nr_flash n /\
    tries (log b) (rkbuf_id r) <= rkbuf_retries r - base_retries r.
Proof.
  intros CO [[Hnb Hsz] Hcb] A. set (r0 := rd_kafka_buf_new_request cf (rkb_next b) n cb ret).
  assert (zlen (rkbuf_bytes r0) = 12 + zlen (cf_client_id cf) + zlen (nr_body n)) as Hlen.
  { cbn [rkbuf_bytes r0 rd_kafka_buf_new_request]. rewrite !length_app, !be_enc_length. lia. }
  pose proof (co_msg_size _ CO).
  destruct (finalize_ok cf r0) as (bs & Hf & Hfr & _); [lia|lia|done|]. exists (rq_bytes bs (rq_of 0 r0)). split; [done|].
  pose proof (as_new _ _ _ A (rkb_next b) ltac:(lia)) as H0. pose proof (co_retries _ CO).
  assert (is_setup r0 = true -> ret = RD_KAFKA_BUF_NO_RETRIES /\ nr_replyq n = false /\ nr_no_response n = false /\ nr_blocking n = false) as Hs1.
  { unfold is_setup. cbn. destruct Hcb as [[[-> | ->] _]|(_ & ? & ? & ? & ?)]; done. }
  assert (is_setup r0 = false -> ret = 0) as Hs2.
  { unfold is_setup. cbn. destruct Hcb as [[_ ?]|([-> | ->] & _)]; done. }
  assert (tries (log b) (rkb_next b) <= ret - base_retries r0) as Ht.
  { rewrite H0. unfold base_retries. destruct (is_setup r0); [destruct Hs1 as [-> _]|rewrite Hs2]; done || lia. }
  split; [|done]. apply aside_next; [done|done|]. constructor; [constructor|done|].
  - done.
  - cbn. auto.
  - intros Hs. destruct (Hs1 Hs) as (? & ? & ? & ?). done.
  - intros Hs. cbn. rewrite (Hs2 Hs). lia.
  - change (tries (log b) (rkb_next b) <= ret - base_retries r0 + 0). lia.
Qed.

Lemma keeps_outs b b' : keeps b b' -> outs b' = outs b /\ waits b' = waits b.
Proof. intros []. unfold outs, waits. by split; f_equal. Qed.

(** The requests in hand go aside and the rest of the invariant stays. *)
Lemma put_aside_good cf en L b b' :
  Live cf b -> Log b -> put_aside cf en (outs b ++ waits b ++ L) b b' -> Good cf L b'.
Proof.
  intros Hv Hl (A & K & _ & _). split; [by eapply keeps_live|]. split; [by eapply keeps_log|].
  destruct (keeps_outs _ _ K) as [-> ->]. exact A.
Qed.

Lemma setup_cb r cb : rkbuf_cb r = cb -> cb = None \/ cb = Some CB_client -> is_setup r = false.
Proof. unfold is_setup. intros -> [-> | ->]; done. Qed.

Lemma enq_replyq_good cf en own L b n :
  conf_ok cf -> new_ok cf n -> Good cf L b ->
  safe (rd_kafka_broker_buf_enq_replyq cf en own b n) (fun b' => Good cf L b' /\ rkb_conn b' = rkb_conn b /\ rkb_wire b' = rkb_wire b).
Proof.
  intros CO Hn (Hv & Hl & A). unfold rd_kafka_broker_buf_enq_replyq, client_request, fresh_id.
  set (cb := if nr_has_cb n then Some CB_client else None).
  assert (cb = None \/ cb = Some CB_client) as Hcb by (unfold cb; destruct (nr_has_cb n); auto).
  destruct (build_request cf _ b n cb 0 CO ltac:(split; [done|left; done]) A) as (r & -> & A' & Hid & Hr & _ & Ht).
  cbn [obind]. pose proof (setup_cb _ _ Hr Hcb) as Hs.
  assert (keeps b (set_next (S (rkb_next b)) b)) as K by done. set (b1 := set_next _ b) in *.
  pose proof (keeps_live _ _ _ K Hv) as Hv1. pose proof (keeps_log _ _ K Hl) as Hl1.
  destruct own.
  - unfold rd_kafka_broker_buf_enq2. destruct (rkb_internal b1).
    + eapply safe_mono; [by apply client_callback_ok|]. intros b' P. split; [by apply (put_aside_good cf en L b1 b')|].
      destruct P as (_ & K' & _). destruct K'. done.
    + cbn [safe]. destruct (enq0_good cf L b1 r (rkbuf_flash r) Hv1 Hl1 A') as (G & O & _).
      { split; [done|]. split; [done|]. by rewrite Hs. }
      split; [done|]. destruct O. done.
  - cbn [safe]. split; [|done]. split; [by apply (keeps_live _ b)|]. split; [by apply (keeps_log b)|].
    destruct A' as [Hi Hh ? ? ? ? ? ?]. apply Forall_cons in Hh as [[Hw Hres _] Hh]. constructor; try done.
    + count_ids.
    + cbn. apply Forall_app. split; [done|]. apply Forall_singleton. constructor; try done.
      unfold base_retries in Ht. rewrite Hs in Ht. change (tries (log b) (rkbuf_id r) <= rkbuf_retries r). lia.
Qed.

Lemma enq_all_good cf en L l b :
  conf_ok cf -> Forall (new_ok cf) l -> Good cf L b ->
  safe (enq_all cf en l b) (fun b' => Good cf L b' /\ rkb_conn b' = rkb_conn b /\ rkb_wire b' = rkb_wire b).
Proof.
  intros CO Hn. revert b. induction Hn as [|n l Hn _ IH]; intros b G; cbn [enq_all]; [done|].
  eapply safe_bind; [by apply enq_replyq_good|]. intros b1 (G1 & Hc & Hw). eapply safe_mono; [by apply IH|].
  intros b2 (? & ? & ?). split; [done|]. by rewrite <- Hc, <- Hw.
Qed.

(** ** Connecting *)

(** A connection on which nothing is outstanding: between its set-up steps. *)
Record Fresh cf b : Prop := mk_fresh {
  fr_out_cnt : bufq_ok (rkb_outbufs b);
  fr_wait : rkb_waitresps b = rd_kafka_bufq_init;
  fr_out : Forall (fun r => rkbuf_sent r = false) (outs b);
  fr_idle : Forall idle (outs b);
  fr_setup : setups (outs b) = [];
  fr_blocking : rkb_blocking_request_cnt b = 0;
  fr_transport : b_transport b = true;
  fr_inflight : rkb_max_inflight (rkb_conn b) = 1;
  fr_tx : tx_bytes (rkb_wire b) = concat (map rkbuf_bytes (cur_log b));
  fr_rx : Rx cf (rkb_conn b) (rkb_wire b) }.

Lemma idle_head P l : Forall idle l -> head_ok P l /\ head_part l = [].
Proof. intros H. destruct H as [|r l [Hr ?] H]; [done|]. cbn. rewrite Hr. split; [|done]. split; [by left|done]. Qed.

(** With a state of a connection it satisfies the invariant. *)
Lemma fresh_live0 cf b m :
  Fresh cf b -> 1 <= m -> let b' := up_conn (cn_max_inflight m) b in
  b_state b <> STATE_INIT -> b_state b <> STATE_DOWN -> b_state b <> STATE_CONNECT -> Live cf b'.
Proof.
  intros [Foc Fw Fo Fi Fs Fb Ft Fm Ftx Frx] Hm b' H1 H2 H3.
  destruct (idle_head (begun (rkb_conn b') (rkb_corrid b') (log b') (zlen (waits b'))) _ Fi) as [Hh Hp].
  assert (waits b' = []) as Hw by (unfold waits; cbn; by rewrite Fw).
  constructor; rewrite ?Hw, ?app_nil_r; try done.
  - unfold b'. cbn. by rewrite Fw.
  - by rewrite Hw in Hh.
  - constructor.
  - cbn. lia.
  - change (setups (outs b')) with (setups (outs b)). rewrite Fs. cbn. lia.
  - intros [? | ?]; done.
  - by right.
  - intros _. change (outs b') with (outs b). by rewrite Hp, app_nil_r.
  - destruct Frx. by constructor.
Qed.

Lemma fresh_live cf b :
  Fresh cf b -> b_state b <> STATE_INIT -> b_state b <> STATE_DOWN -> b_state b <> STATE_CONNECT -> Live cf b.
Proof.
  intros F H1 H2 H3. pose proof (fresh_live0 cf b 1 F ltac:(lia) H1 H2 H3) as Hv. pose proof (fr_inflight _ _ F).
  replace b with (up_conn (cn_max_inflight 1) b); [done|]. destruct b as [[]]. cbn in *. by subst.
Qed.

(** Changing the state and the tables keeps it. *)
Lemma fresh_conn cf b c k :
  Fresh cf b -> rkb_transport c = rkb_transport (rkb_conn b) -> rkb_max_inflight c = rkb_max_inflight (rkb_conn b) ->
  rkb_connid c = rkb_connid (rkb_conn b) -> rkb_recv_buf c = rkb_recv_buf (rkb_conn b) -> Fresh cf (set_rk k (set_conn c b)).
Proof.
  intros [Foc Fw Fo Fi Fs Fb Ft Fm Ftx Frx] Ht Hm Hc Hr. constructor; try done; unfold b_transport in *; cbn in *; try congruence.
  - unfold cur_log in *. cbn. by rewrite Hc.
  - destruct Frx. constructor; rewrite ?Ht, ?Hr; done.
Qed.

Lemma fresh_good cf L b : Fresh cf b -> Live cf b -> Log b -> Aside cf (outs b ++ L) b -> Good cf L b.
Proof. intros F Hv Hl A. split; [done|]. split; [done|]. unfold waits. by rewrite (fr_wait _ _ F). Qed.

Lemma fresh_pending cf b : Fresh cf b -> bytes_ok (rx_pending (rkb_wire b)).
Proof. intros F. by destruct (fr_rx _ _ F). Qed.

Section connect.
Context (cf : conf) (en : env) (CO : conf_ok cf) (EO : env_ok cf en) (n : nat).
Abbreviation fail := (rd_kafka_broker_fail (S (S n)) cf en).

Lemma set_state_fresh s b L :
  Fresh cf b -> Log b -> Aside cf L b ->
  let b' := rd_kafka_broker_set_state en s b in
  Fresh cf b' /\ Log b' /\ Aside cf L b' /\ b_state b' = s /\ outs b' = outs b /\ rkb_now b' = rkb_now b /\ rkb_next b' = rkb_next b.
Proof.
  intros F Hl A. cbn zeta. destruct (set_state_eq en s b) as (d & k & ->).
  split; [by apply fresh_conn|]. split; [by apply (log_same b)|]. split; [by apply (aside_same _ _ b)|done].
Qed.

Lemma connect_up_good L b :
  Fresh cf b -> Log b -> Aside cf (outs b ++ L) b -> safe (rd_kafka_broker_connect_up cf en b) (Good cf L).
Proof.
  intros F Hl A. unfold rd_kafka_broker_connect_up.
  destruct (set_state_eq en STATE_UP (up_conn (cn_max_inflight (cf_max_inflight cf)) b)) as (d & k & ->).
  match goal with |- context [enq_all cf en _ ?x] => set (b1 := x) end.
  assert (Live cf b1) as Hv.
  { apply (fresh_live0 cf (set_rk k (set_conn (cn_state STATE_UP (cn_down_reported d (rkb_conn b))) b)) (cf_max_inflight cf));
      [by apply fresh_conn|by destruct CO|done..]. }
  eapply safe_mono; [apply (enq_all_good cf en L); [done|by destruct EO|]|by intros b' [? _]].
  split; [done|]. split; [by apply (log_same b)|]. apply (aside_same _ _ b); [done|].
  unfold waits. cbn. by rewrite (fr_wait _ _ F).
Qed.

Lemma setup_request_good nr cb L b :
  Fresh cf b -> Log b -> Aside cf (outs b ++ L) b -> build_ok cf nr (Some cb) RD_KAFKA_BUF_NO_RETRIES ->
  cb = CB_ApiVersion \/ cb = CB_SaslHandshake -> b_state b = STATE_APIVERSION_QUERY \/ b_state b = STATE_AUTH_HANDSHAKE ->
  safe (rd_kafka_broker_buf_enq1 cf (set_next (S (rkb_next b)) b)
          (rd_kafka_buf_new_request cf (rkb_next b) nr None RD_KAFKA_BUF_NO_RETRIES) cb) (Good cf L).
Proof.
  intros F Hl A Hb Hcb Hst.
  assert (Live cf b) as Hv by (apply fresh_live; [done|destruct Hst as [-> | ->]; done..]).
  destruct (fresh_good cf L b F Hv Hl A) as (_ & _ & A1).
  unfold rd_kafka_broker_buf_enq1. change (rq_cb (Some cb) _) with (rd_kafka_buf_new_request cf (rkb_next b) nr (Some cb) RD_KAFKA_BUF_NO_RETRIES).
  destruct (build_request cf _ b nr (Some cb) _ CO Hb A1) as (r & -> & A2 & Hid & Hr & Hfl & Ht). cbn [obind safe].
  set (b1 := set_next _ b) in *. assert (keeps b b1) as K by done.
  apply (enq0_good cf L b1 r (rkbuf_flash r)); [by apply (keeps_live _ b)|by apply (keeps_log b)|done|].
  split; [done|]. split; [done|]. intros _. split; [|split; [done|by destruct F]].
  unfold waits. cbn. rewrite (fr_wait _ _ F). cbn. rewrite app_nil_r. by destruct F.
Qed.

Lemma connect_auth_good L b :
  Fresh cf b -> Log b -> Aside cf (outs b ++ L) b -> safe (rd_kafka_broker_connect_auth fail cf en b) (Good cf L).
Proof.
  intros F Hl A. unfold rd_kafka_broker_connect_auth.
  destruct (cf_sasl cf).
  - destruct (_ && _).
    + destruct (set_state_fresh STATE_AUTH_HANDSHAKE b _ F Hl A) as (F1 & L1 & A1 & S1 & O1 & _). set (b1 := rd_kafka_broker_set_state _ _ b) in *.
      unfold rd_kafka_SaslHandshakeRequest, fresh_id. pose proof (co_setup_size _ CO). pose proof (co_msg_size _ CO).
      destruct (if negb (cf_api_version_request cf) && _ then _ else _) as [abs rel].
      apply setup_request_good; try done; [by rewrite O1| |by right|by right].
      split; [split; [done|]; cbn; lia|]. right. split; [by right|done].
    + destruct (set_state_fresh STATE_AUTH b _ F Hl A) as (F1 & L1 & A1 & S1 & O1 & _). set (b1 := rd_kafka_broker_set_state _ _ b) in *.
      destruct (negb _).
      * eapply safe_mono; [apply (fail_ok cf en CO n _ _ L); [done|by eapply fresh_pending| |done]|by intros b'; apply going_down_good].
        unfold waits. rewrite (fr_wait _ _ F1), O1. exact A1.
      * cbn [safe]. destruct (set_state_fresh STATE_AUTH b1 _ F1 L1 A1) as (F2 & L2 & A2 & S2 & O2 & _).
        apply fresh_good; [done|apply fresh_live; [done|by rewrite S2..]|done|by rewrite O2, O1].
  - by apply connect_up_good.
Qed.

(** ** Answers *)

Lemma callback_client own b err resp r :
  is_setup r = false -> rd_kafka_buf_callback fail cf en own b err resp r = client_callback cf en own b err resp r.
Proof.
  unfold is_setup, rd_kafka_buf_callback. intros Hs. destruct (_ && _); [done|]. by destruct (rkbuf_cb r) as [[]|].
Qed.

Lemma finish_good L b r err : Good cf (r :: L) b -> Good cf L (finish b r err).
Proof.
  intros (Hv & Hl & A). destruct (finish_ok cf CO (outs b ++ waits b ++ L) b r err) as (A' & K & _).
  { eapply aside_perm; [|exact A]. rewrite !app_assoc. symmetry. apply Permutation_middle. }
  split; [by eapply keeps_live|]. split; [by eapply keeps_log|]. by destruct (keeps_outs _ _ K) as [-> ->].
Qed.

Lemma hand_setup L b r : Aside cf (r :: L) b -> is_setup r = true -> rkbuf_replyq r = false.
Proof. intros A Hs. pose proof (as_hand _ _ _ A) as [[[_ _ H _] _ _] _]%Forall_cons. by apply H. Qed.

(** The answer to a request that sets up the connection. *)
Lemma callback_setup L b body r :
  is_setup r = true -> Fresh cf b -> Log b -> Aside cf (r :: outs b ++ L) b ->
  safe (rd_kafka_buf_callback fail cf en true b 0 (Some body) r) (Good cf L).
Proof.
  intros Hs F Hl A. unfold rd_kafka_buf_callback. rewrite (hand_setup _ _ _ A Hs), andb_false_r.
  assert (Aside cf (outs b ++ r :: L) b) as A' by (eapply aside_perm; [|exact A]; apply Permutation_middle).
  assert (forall err fmt, err <> 0 -> safe (fail err fmt b) (Good cf (r :: L))) as Hf.
  { intros err fmt Herr. eapply safe_mono; [apply (fail_ok cf en CO n _ _ (r :: L)); [done|by eapply fresh_pending| |done]|by intros b'; apply going_down_good].
    unfold waits. by rewrite (fr_wait _ _ F). }
  unfold is_setup in Hs. destruct (rkbuf_cb r) as [[]|]; try done.
  - eapply (safe_bind _ _ (Good cf (r :: L))); [|by intros b' G; apply finish_good].
    unfold rd_kafka_broker_handle_ApiVersion. cbn [Z.eqb negb ERR__DESTROY].
    eapply safe_bind; [exact (eo_apis _ _ EO body)|]. cbn beta. intros [e|apis] Hne.
    + destruct (Z.eqb_spec e 0); [congruence|]. cbn [negb]. by apply Hf.
    + apply connect_auth_good; [|by apply (log_same b)|by apply (aside_same _ _ b)].
      pose proof (fresh_conn cf b (cn_features (rd_kafka_features_check apis) (cn_ApiVersions apis (rkb_conn b))) (rkb_rk b) F) as F'.
      destruct b. by apply F'.
  - eapply (safe_bind _ _ (Good cf (r :: L))); [|by intros b' G; apply finish_good].
    unfold rd_kafka_broker_handle_SaslHandshake. cbn [Z.eqb negb ERR__DESTROY obind].
    eapply safe_bind; [exact (eo_sasl _ _ EO body)|]. cbn beta. intros e _.
    destruct (Z.eqb_spec e 0); cbn [negb]; [by apply connect_auth_good|by apply Hf].
Qed.

(** A request that is answered with an error, in any state. *)
Lemma callback_error L b err r :
  err <> 0 -> Log b -> bytes_ok (rx_pending (rkb_wire b)) -> Aside cf (r :: outs b ++ waits b ++ L) b ->
  is_setup r = true -> safe (rd_kafka_buf_callback fail cf en true b err None r)
    (fun b' => err = ERR__DESTROY /\ b' = finish b r err \/ err <> ERR__DESTROY /\ Down b' /\ Log b' /\ Aside cf L b' /\ grows b b' /\ rkb_now b' = rkb_now b).
Proof.
  intros Herr Hl Hp A Hs. unfold rd_kafka_buf_callback. rewrite (hand_setup _ _ _ A Hs), andb_false_r.
  assert (Aside cf (outs b ++ waits b ++ r :: L) b) as A'.
  { eapply aside_perm; [|exact A]. rewrite !app_assoc. apply Permutation_middle. }
  assert (forall e fmt, e <> 0 -> safe (let! b := fail e fmt b in Ret (finish b r err))
    (fun b' => Down b' /\ Log b' /\ Aside cf L b' /\ grows b b' /\ rkb_now b' = rkb_now b)) as Hf.
  { intros e fmt He. eapply safe_bind; [by apply (fail_ok cf en CO n _ _ (r :: L))|]. intros b' (D & Hl' & A2 & (l & G & ?) & N). cbn.
    destruct (finish_ok cf CO L b' r err A2) as (A3 & K & _). split; [by eapply keeps_down|]. split; [by eapply keeps_log|].
    split; [done|]. split; [by exists l|done]. }
  unfold is_setup in Hs. destruct (rkbuf_cb r) as [[]|]; try done.
  - unfold rd_kafka_broker_handle_ApiVersion. destruct (Z.eqb_spec err ERR__DESTROY); [by left|].
    destruct (Z.eqb_spec err 0); [done|]. cbn [negb obind]. destruct (Z.eqb_spec err 0); [done|]. cbn [negb].
    eapply safe_mono; [by apply Hf|]. intros b' ?. by right.
  - unfold rd_kafka_broker_handle_SaslHandshake. destruct (Z.eqb_spec err ERR__DESTROY); [by left|].
    destruct (Z.eqb_spec err 0); [done|]. cbn [negb obind]. destruct (Z.eqb_spec err 0); [done|]. cbn [negb].
    eapply safe_mono; [by apply Hf|]. intros b' ?. by right.
Qed.
End connect.
