(* ===== verification/BrokerScan.v ===== *)
(** * The broker thread: timeouts

    A scan walks over a queue by pointer while the callbacks it makes change the
    queues.  The walk is shown to visit the requests of the queue in order, those
    that are due once, and to stop; what it leaves is not due. *)
From Stdlib Require Import ZArith Lia.
From stdpp Require Import base numbers list.
From S2P Require Import Prelude.
From S2P Require Import Proto.
From S2P Require Import Feature.
From S2P Require Import BrokerState.
From S2P Require Import Broker.
From S2P Require Import BrokerInv.
From S2P Require Import BrokerConn.

Implicit Types (cf : conf) (en : env) (b : broker) (r : rkbuf).

(** ** Finding and removing *)

Lemma aside_nodup cf L b : Aside cf L b -> NoDup (all_ids L b).
Proof. intros A. rewrite (as_ids _ _ _ A). apply NoDup_seq. Qed.

Lemma find_buf_at pre r suf :
  rkbuf_id r ∉ ids pre -> find_buf (rkbuf_id r) (pre ++ r :: suf) = Some (r, rkbuf_id <$> head suf).
Proof.
  intros Hr. induction pre as [|x pre IH]; cbn; [by rewrite decide_True|].
  cbn in Hr. apply not_elem_of_cons in Hr as [Hx Hr]. rewrite decide_False by done. auto.
Qed.

Lemma remove_buf_at pre r suf id : rkbuf_id r = id -> id ∉ ids pre -> remove_buf id (pre ++ r :: suf) = pre ++ suf.
Proof.
  intros Hr Hid. induction pre as [|x pre IH]; cbn; [by rewrite decide_True|].
  cbn in Hid. apply not_elem_of_cons in Hid as [Hx Hid]. rewrite decide_False by done. by rewrite IH.
Qed.

Lemma sum_msgs_app l l' : sum_msgs (l ++ l') = sum_msgs l + sum_msgs l'.
Proof. unfold sum_msgs. induction l; cbn; lia. Qed.

Lemma deq_ok q pre r r' suf :
  bufq_ok q -> rkbq_bufs q = pre ++ r :: suf -> rkbuf_id r ∉ ids pre -> rkbuf_id r' = rkbuf_id r -> rkbuf_msg_cnt r' = rkbuf_msg_cnt r ->
  exists q', rd_kafka_bufq_deq q r' = Ret q' /\ rkbq_bufs q' = pre ++ suf /\ bufq_ok q'.
Proof.
  intros [Hc Hm] Hb Hn Hi Hmc. unfold rd_kafka_bufq_deq. rewrite Hb in Hc, Hm. rewrite length_app in Hc. cbn in Hc.
  destruct (Z.gtb_spec (rkbq_cnt q) 0); [|lia]. eexists. split; [done|]. cbn. rewrite Hi, Hb, (remove_buf_at _ r) by done.
  split; [done|]. constructor; cbn [rkbq_bufs rkbq_cnt rkbq_msg_cnt]; [rewrite length_app; lia|].
  rewrite Hm, Hmc, !sum_msgs_app. unfold sum_msgs. cbn. lia.
Qed.

(** Where a request of the send or wait queue sits. *)
Lemma aside_queue_nodup cf L b : Aside cf (outs b ++ waits b ++ L) b -> NoDup (ids (outs b)) /\ NoDup (ids (waits b)) /\ NoDup (ids (retries b)).
Proof.
  intros A. pose proof (aside_nodup _ _ _ A) as H. unfold all_ids, ids in *. rewrite !map_app in H.
  rewrite !NoDup_app in H. tauto.
Qed.

Lemma nodup_at pre r suf : NoDup (ids (pre ++ r :: suf)) -> rkbuf_id r ∉ ids pre.
Proof.
  unfold ids. rewrite map_app. cbn. intros (_ & Hd & _)%NoDup_app Hin. apply (Hd _ Hin). by left.
Qed.

(** ** Removing a request *)

Lemma filter_drop {A} (P : A -> Prop) `{forall x, Decision (P x)} pre x suf :
  zlen (filter P (pre ++ x :: suf)) = zlen (filter P (pre ++ suf)) + (if decide (P x) then 1 else 0).
Proof. rewrite !filter_app, filter_cons. destruct (decide (P x)); rewrite !length_app; cbn; lia. Qed.

Lemma setups_drop pre r suf l : zlen (setups ((pre ++ r :: suf) ++ l)) >= zlen (setups ((pre ++ suf) ++ l)).
Proof. unfold setups. rewrite !filter_app, filter_cons. case_decide; rewrite !length_app; cbn; lia. Qed.

Lemma setups_nil_drop pre r suf l l' :
  setups (l' ++ (pre ++ r :: suf) ++ l) = [] -> setups (l' ++ (pre ++ suf) ++ l) = [].
Proof.
  unfold setups. rewrite !filter_app, filter_cons. intros [-> [[-> H]%app_nil ->]%app_nil]%app_nil.
  destruct (decide (is_setup r = true)); [done|]. by rewrite H.
Qed.

(** From the wait queue. *)
Lemma live_drop_wait cf b q pre r suf n :
  Live cf b -> waits b = pre ++ r :: suf -> rkbq_bufs q = pre ++ suf -> bufq_ok q ->
  n = rkb_blocking_request_cnt b - (if rkbuf_blocking r then 1 else 0) ->
  forall k, Live cf (set_rk k (set_blocking_request_cnt n (set_waitresps q b))).
Proof.
  intros [] Hw Hq Hqo Hn k. unfold waits in *. rewrite Hw in *.
  assert (zlen (pre ++ r :: suf) = zlen (pre ++ suf) + 1) as Hlen by (rewrite !length_app; cbn; lia).
  constructor; unfold waits; cbn; rewrite ?Hq; try done.
  - unfold outs in *. cbn. destruct (rkbq_bufs (rkb_outbufs b)) as [|x l]; [done|]. cbn in *.
    destruct lv_head as [[?|[]] ?]; (split; [|done]); [by left|right]. constructor; try done. clear - Hlen bg_room. lia.
  - rewrite Forall_app in *. destruct lv_wait as [? [? ?]%Forall_cons]. done.
  - rewrite map_app in *. cbn in lv_corrids. apply NoDup_app in lv_corrids as (H1 & H2 & H3). apply NoDup_app.
    apply NoDup_cons in H3 as [_ H3]. split; [done|]. split; [|done]. intros c Hc Hc'. apply (H2 c Hc). by right.
  - lia.
  - rewrite Hn, lv_blocking, filter_drop. destruct (rkbuf_blocking r); (destruct (decide _); [|done]) || (destruct (decide _); [done|]); lia.
  - change (zlen (setups (outs b ++ pre ++ suf)) <= 1). unfold setups in *. rewrite !filter_app, filter_cons in *.
    rewrite !length_app in *. case_decide; cbn in *; lia.
  - intros Hne. apply lv_phase. intros E. apply Hne. change (setups (outs b ++ pre ++ suf) = []).
    rewrite <- (app_nil_r (pre ++ suf)). apply (setups_nil_drop pre r suf). by rewrite app_nil_r.
  - intros Hne. apply lv_wait_online. by destruct pre.
Qed.

(** From the send queue, a request of which nothing was sent. *)
Lemma live_drop_out cf b q pre r suf :
  Live cf b -> outs b = pre ++ r :: suf -> rkbq_bufs q = pre ++ suf -> bufq_ok q -> rkbuf_of r = 0 -> Live cf (set_outbufs q b).
Proof.
  intros [] Ho Hq Hqo Hof. unfold outs in *. rewrite Ho in *.
  assert (head_ok (begun (rkb_conn b) (rkb_corrid b) (log b) (zlen (waits b))) (pre ++ suf) /\ head_part (pre ++ suf) = head_part (pre ++ r :: suf)) as [Hh Hp].
  { destruct pre as [|x pre]; cbn in *.
    - destruct lv_head as [_ Hs]. destruct (idle_head (begun (rkb_conn b) (rkb_corrid b) (log b) (zlen (waits b))) _ Hs) as [? ->]. by rewrite Hof.
    - destruct lv_head as [? H]. split; [|done]. split; [done|]. rewrite Forall_app in *. destruct H as [? [? ?]%Forall_cons]. done. }
  constructor; unfold outs; cbn; rewrite ?Hq; try done.
  - rewrite Forall_app in *. destruct lv_out as [? [? ?]%Forall_cons]. done.
  - change (zlen (setups ((pre ++ suf) ++ waits b)) <= 1). pose proof (setups_drop pre r suf (waits b)). lia.
  - intros Hne. apply lv_phase. intros E. apply Hne. by apply (setups_nil_drop pre r suf (waits b) []).
  - intros Hon. rewrite Hp. by apply lv_tx.
Qed.

(** ** The walk *)

Definition bufs (s : qsel) b : list rkbuf := rkbq_bufs (get_q s b).

#[export] Instance qsel_eq_dec : EqDecision qsel.
Proof. solve_decision. Defined.

Definition not_due (now : Z) r : Prop := now <> 0 /\ now < rkbuf_ts_timeout r.

#[export] Instance not_due_dec now r : Decision (not_due now r).
Proof. unfold not_due. apply _. Defined.

(** During a scan: the invariant, unless a request that was partly sent has been
    removed. *)
Record Scan cf (L : list rkbuf) (whole : Prop) b : Prop := mk_scan {
  sc_log : Log b;
  sc_pending : bytes_ok (rx_pending (rkb_wire b));
  sc_out_cnt : bufq_ok (rkb_outbufs b);
  sc_wait_cnt : bufq_ok (rkb_waitresps b);
  sc_aside : Aside cf (outs b ++ waits b ++ L) b;
  sc_live : whole -> Live cf b }.

Definition is_wait (s : qsel) : bool := match s with Q_wait => true | _ => false end.

(** The queues that are not walked over. *)
Record others (s : qsel) b b' : Prop := mk_others {
  ot_out : s <> Q_out -> outs b' = outs b \/ outs b' = [];
  ot_wait : s <> Q_wait -> waits b' = waits b \/ waits b' = [];
  ot_retry : s <> Q_retry -> grows b b';
  ot_now : rkb_now b' = rkb_now b }.

Lemma grows_trans b1 b2 b3 : grows b1 b2 -> grows b2 b3 -> rkb_now b2 = rkb_now b1 -> grows b1 b3.
Proof.
  intros (l1 & E1 & F1) (l2 & E2 & F2) N. exists (l1 ++ l2). rewrite E2, E1, app_assoc. split; [done|].
  apply Forall_app. split; [done|]. by rewrite <- N.
Qed.

Lemma others_refl s b : others s b b.
Proof. constructor; auto. intros _. by apply grows_same. Qed.

Lemma others_trans s b1 b2 b3 : others s b1 b2 -> others s b2 b3 -> others s b1 b3.
Proof.
  intros [O1 W1 R1 N1] [O2 W2 R2 N2]. constructor.
  - intros H. destruct (O2 H) as [-> | ->]; auto.
  - intros H. destruct (W2 H) as [-> | ->]; auto.
  - intros H. by eapply grows_trans; auto.
  - congruence.
Qed.

(** Taking a request out of the queue. *)
Definition scan_removed (s : qsel) (r : rkbuf) (q : bufq) b : broker :=
  let b := set_q s q b in
  if is_wait s && rkbuf_blocking r then
    let b := sub_blocking b in
    if rkb_blocking_request_cnt b =? 0 then rd_kafka_brokers_broadcast_state_change b else b
  else b.

Lemma scan_removed_eq s r q b :
  exists k, scan_removed s r q b =
    set_rk k (match s with
              | Q_wait => set_blocking_request_cnt (rkb_blocking_request_cnt b - (if rkbuf_blocking r then 1 else 0)) (set_waitresps q b)
              | Q_out => set_outbufs q b | Q_retry => set_retrybufs q b end).
Proof.
  exists (rkb_rk (scan_removed s r q b)). unfold scan_removed.
  destruct s; cbn; try by destruct b. destruct (rkbuf_blocking r); cbn; [|rewrite Z.sub_0_r; by destruct b].
  destruct (_ =? 0); by destruct b.
Qed.

Lemma hand_ok_ts cf lg t r : hand_ok cf lg r -> hand_ok cf lg (rq_ts_sent t r).
Proof. intros [[] ? ?]. constructor; [by constructor|done|done]. Qed.

Lemma again_hand cf lg r : again_ok cf lg r -> hand_ok cf lg r.
Proof. intros [? Hs ? ? ?]. constructor; try done. unfold base_retries. rewrite Hs. destruct (rkbuf_sent r); lia. Qed.

(** The requests in hand may be changed, if they stay the same ones. *)
Lemma aside_hand cf L L' b : Aside cf L b -> ids L ≡ₚ ids L' -> Forall (hand_ok cf (log b)) L' -> Aside cf L' b.
Proof. intros [] P F. constructor; try done. unfold all_ids in *. by rewrite <- P. Qed.

Lemma set_rk_live cf b k : Live cf b -> Live cf (set_rk k b).
Proof. apply keeps_live. by constructor. Qed.

Ltac split_others := constructor; try congruence; try (intros _; by left); try done; intros _; by apply grows_same.

Lemma scan_deq cf s L whole b pre r suf t :
  Scan cf L whole b -> bufs s b = pre ++ r :: suf ->
  let r' := rq_ts_sent t r in
  exists q, rd_kafka_bufq_deq (get_q s b) r' = Ret q /\
    let b1 := scan_removed s r' q b in
    bufs s b1 = pre ++ suf /\ Log b1 /\ bytes_ok (rx_pending (rkb_wire b1)) /\ bufq_ok (rkb_outbufs b1) /\ bufq_ok (rkb_waitresps b1) /\
    Aside cf (r' :: outs b1 ++ waits b1 ++ L) b1 /\
    (whole -> (s = Q_out -> rkbuf_of r = 0) -> Live cf b1) /\ others s b b1.
Proof.
  intros [Hl Hp Ho Hw A Hv] Hb r'. destruct (aside_queue_nodup _ _ _ A) as (N1 & N2 & N3).
  assert (NoDup (ids (bufs s b))) as N by (by destruct s). rewrite Hb in N.
  assert (bufq_ok (get_q s b)) as Hq by (destruct s; [done|done|by destruct A]).
  destruct (deq_ok (get_q s b) pre r r' suf Hq Hb (nodup_at _ _ _ N)) as (q & Hd & Hqb & Hqo); [done..|].
  exists q. split; [done|]. destruct (scan_removed_eq s r' q b) as (k & ->). clear N N1 N2 N3 Hd.
  destruct s; unfold bufs in *; cbn in Hb; fold (outs b) (waits b) (retries b) in Hb; cbn zeta.
  - split; [done|]. split; [by apply (log_same b)|]. split; [done|]. split; [done|]. split; [done|].
    split; [|split; [intros ? Hof; apply set_rk_live; by apply (live_drop_out cf b q pre r suf); auto|split_others]].
    apply (aside_same cf _ b); [done|]. apply (aside_hand cf _ _ _ A).
    + unfold outs at 2, waits at 2. cbn. rewrite Hb, Hqb. count_ids.
    + pose proof (as_hand _ _ _ A) as F. rewrite Hb in F. unfold outs, waits at 1. cbn. rewrite Hqb.
      rewrite !Forall_app, Forall_cons in *. destruct F as ((F1 & F2 & F3) & F4 & F5).
      rewrite !Forall_app. split_and!; try done. by apply hand_ok_ts.
  - split; [done|]. split; [by apply (log_same b)|]. split; [done|]. split; [done|]. split; [done|].
    split; [|split; [intros ? _; by apply (live_drop_wait cf b q pre r suf); auto|split_others]].
    apply (aside_same cf _ b); [done|]. apply (aside_hand cf _ _ _ A).
    + unfold outs at 2, waits at 2. cbn. rewrite Hb, Hqb. count_ids.
    + pose proof (as_hand _ _ _ A) as F. rewrite Hb in F. unfold outs at 1, waits. cbn. rewrite Hqb.
      rewrite !Forall_app, Forall_cons in *. destruct F as (F4 & (F1 & F2 & F3) & F5).
      rewrite !Forall_app. split_and!; try done. by apply hand_ok_ts.
  - split; [done|]. split; [by apply (log_same b)|]. split; [done|]. split; [done|]. split; [done|].
    split; [|split; [intros ? _; apply set_rk_live; destruct (Hv ltac:(done)); by constructor|split_others]].
    destruct A as [Hi Hh Hc Hr ? ? ? ?]. rewrite Hb in Hr. constructor; try done.
    + unfold all_ids, retries, outs, waits, ids in *. cbn. rewrite Hqb. rewrite Hb in Hi. count_ids.
    + constructor; [|done]. apply hand_ok_ts, again_hand. rewrite Forall_app, Forall_cons in Hr. tauto.
    + unfold retries. cbn. rewrite Hqb. rewrite Forall_app, Forall_cons in *. tauto.
Qed.

Section scan.
Context (cf : conf) (en : env) (CO : conf_ok cf) (EO : env_ok cf en).

(** What an answer does to the queues: the request went aside, or the broker is
    down. *)
Definition answered (err : Z) (r : rkbuf) b b' : Prop :=
  rkb_now b' = rkb_now b /\ grows b b' /\
  ((keeps b b' /\ (en_terminating en = true -> retries b' = retries b) /\
     (length (retries b') <= S (length (retries b)))%nat) \/
   (err <> ERR__DESTROY /\ is_setup r = true /\ Down b')).

Lemma scan_callback L whole b r err :
  err <> 0 -> Log b -> bytes_ok (rx_pending (rkb_wire b)) -> bufq_ok (rkb_outbufs b) -> bufq_ok (rkb_waitresps b) ->
  Aside cf (r :: outs b ++ waits b ++ L) b -> (whole -> Live cf b) ->
  safe (rd_kafka_buf_callback (broker_fail cf en) cf en true b err None r) (fun b' => Scan cf L whole b' /\ answered err r b b').
Proof.
  intros Herr Hl Hp Ho Hw A Hv.
  assert (forall b', put_aside cf en (outs b ++ waits b ++ L) b b' -> Scan cf L whole b' /\ answered err r b b') as Hk.
  { intros b' (A' & K & G & T). destruct (keeps_outs _ _ K) as [Eo Ew]. split; [|split; [by destruct K|]; split; [done|]; left; done].
    constructor; [by eapply keeps_log| | | |by rewrite Eo, Ew|intros W; by eapply keeps_live; auto]; rewrite ?(kp_out _ _ K), ?(kp_wait _ _ K), ?(kp_wire _ _ K); done. }
  destruct (is_setup r) eqn:Hs.
  - eapply safe_mono; [by apply (callback_error cf en CO 0 L)|]. intros b' [[-> ->]|(Hne & D & L' & A' & G & N)].
    + apply Hk. destruct (finish_ok cf CO _ b r ERR__DESTROY A) as (? & ? & ?). unfold put_aside; split_and!; try done. by apply Nat.le_succ_diag_r.
    + assert (outs b' = [] /\ waits b' = []) as [Eo Ew] by (unfold outs, waits; by rewrite (dn_out _ D), (dn_wait _ D)).
      split; [|split; [done|]; split; [done|]; right; done].
      constructor; [done|by destruct D|by rewrite (dn_out _ D)|by rewrite (dn_wait _ D)|by rewrite Eo, Ew|intros _; by apply down_live].
  - rewrite (callback_client cf en 0) by done. eapply safe_mono; [by apply client_callback_ok|]. done.
Qed.

(** A request that sets up the connection may only be due as the last one of its queue: its
    callback fails the broker, which purges the requests behind it while the scan
    still has to visit them. *)
Fixpoint due_setup_last (now : Z) (l : list rkbuf) : Prop :=
  match l with
  | [] => True
  | r :: l => (is_setup r = true -> not_due now r \/ l = []) /\ due_setup_last now l
  end.

(** The walk: [pre] was visited, [l] has to be, [app] was appended meanwhile. *)
Record Walk (s : qsel) (cp : bool) (err now : Z) (pre l app : list rkbuf) b : Prop := mk_walk {
  wk_bufs : bufs s b = pre ++ l ++ app;
  wk_pre : Forall (not_due now) pre;
  wk_app : Forall (not_due now) app;
  wk_end : s <> Q_retry -> app = [];
  wk_setup : err = ERR__DESTROY \/ due_setup_last now l;
  wk_of : s = Q_out -> Forall (fun r => 0 <= rkbuf_of r /\ (cp = true \/ rkbuf_of r = 0)) l;
  wk_now : now = rkb_now b /\ now <> 0 \/ now = 0 /\ en_terminating en = true /\ err = ERR__DESTROY }.

Lemma not_due_test now r : negb (now =? 0) && (rkbuf_ts_timeout r >? now) = bool_decide (not_due now r).
Proof.
  unfold not_due. destruct (Z.eqb_spec now 0); cbn; [symmetry; apply bool_decide_eq_false; tauto|].
  rewrite Z.gtb_ltb. destruct (Z.ltb_spec now (rkbuf_ts_timeout r)); symmetry; [by apply bool_decide_eq_true|apply bool_decide_eq_false; lia].
Qed.

Lemma walk_skip s cp err now pre r l app b :
  Walk s cp err now pre (r :: l) app b -> not_due now r -> Walk s cp err now (pre ++ [r]) l app b.
Proof.
  intros [Hb ? ? ? Hs Ho ?] Hd. constructor; try done.
  - by rewrite Hb, <- app_assoc.
  - apply Forall_app. by split; [|apply Forall_singleton].
  - destruct Hs as [?|[_ ?]]; [by left|by right].
  - intros E. specialize (Ho E). by apply Forall_cons in Ho as [_ ?].
Qed.

Lemma walk_skip_app s cp err now pre r app b :
  Walk s cp err now pre [] (r :: app) b -> not_due now r /\ Walk s cp err now (pre ++ [r]) [] app b.
Proof.
  intros [Hb ? Ha He ? ? ?]. apply Forall_cons in Ha as [Hr Ha]. split; [done|]. constructor; try done.
  - by rewrite Hb, <- app_assoc.
  - apply Forall_app. by split; [|apply Forall_singleton].
  - intros Hq. by specialize (He Hq).
Qed.

Lemma retries_not_due now b l :
  now = rkb_now b -> now <> 0 -> Forall (fun r => rkb_now b < rkbuf_ts_timeout r) l -> Forall (not_due now) l.
Proof. intros -> H F. eapply Forall_impl; [exact F|]. by unfold not_due. Qed.

(** After the answer to a due request. *)
Lemma walk_take s cp err now pre r r' l app b b1 b2 :
  Walk s cp err now pre (r :: l) app b -> ~ not_due now r -> is_setup r' = is_setup r -> (s = Q_retry -> is_setup r = false) ->
  bufs s b1 = pre ++ l ++ app -> rkb_now b1 = rkb_now b -> answered err r' b1 b2 ->
  others s b1 b2 /\ exists pre' l' app', Walk s cp err now pre' l' app' b2 /\
    (length l' <= length l /\ length app' <= S (length app))%nat /\
    (rkbuf_id <$> head (l ++ app) = rkbuf_id <$> head (l' ++ app') \/ head (l ++ app) = None /\ l' = []).
Proof.
  intros [Hb Hpre Happ Hend Hset Hof Hnow] Hdue Hs Hsr Hb1 Hn1 (Hn2 & G & C).
  assert (err = ERR__DESTROY \/ due_setup_last now l) as Hset' by (destruct Hset as [?|[_ ?]]; auto).
  assert (s = Q_out -> Forall (fun r => 0 <= rkbuf_of r /\ (cp = true \/ rkbuf_of r = 0)) l) as Hof'
    by (intros E; specialize (Hof E); by apply Forall_cons in Hof as [_ ?]).
  assert (now = rkb_now b2 /\ now <> 0 \/ now = 0 /\ en_terminating en = true /\ err = ERR__DESTROY) as Hnow2
    by (by rewrite Hn2, Hn1).
  split.
  { constructor; [intros _|intros _|done|done]; (destruct C as [(K & _)|(_ & _ & D)]; [left; by apply (keeps_outs _ _ K)|right]);
      unfold outs, waits; by rewrite ?(dn_out _ D), ?(dn_wait _ D). }
  destruct C as [(K & Ht & Hlen)|(Hne & Hsetup & D)].
  - destruct (decide (s = Q_retry)) as [-> |Hq].
    + destruct G as (la & Hla & Fla). unfold bufs in *. cbn in *. fold (retries b1) in Hb1.
      exists pre, l, (app ++ la). split; [|split].
      * constructor; try done; [by rewrite app_assoc, app_assoc, <- (app_assoc pre), <- Hb1|]. apply Forall_app. split; [done|].
        destruct Hnow as [[? ?]|(_ & ? & _)]; [eapply (retries_not_due _ b1); [congruence|done|done]|].
        specialize (Ht ltac:(done)). rewrite Hla in Ht. destruct la; [done|]. apply (f_equal length) in Ht. rewrite length_app in Ht. cbn in Ht. lia.
      * rewrite Hla, !length_app in Hlen. rewrite length_app. lia.
      * destruct l as [|x l]; [|by left]. destruct app as [|x app]; [by right|by left].
    + exists pre, l, app. assert (bufs s b2 = bufs s b1) as E
        by (destruct (keeps_outs _ _ K) as [? ?]; unfold bufs, outs, waits in *; by destruct s).
      split; [constructor; try done; by rewrite E|]. split; [lia|by left].
  - assert (s <> Q_retry) as Hq by (intros E; rewrite Hs, (Hsr E) in Hsetup; done).
    assert (l = []) as -> by (destruct Hset as [?|[H _]]; [done|]; rewrite <- Hs in H; destruct (H Hsetup); done).
    exists [], [], []. rewrite (Hend Hq). split; [|cbn; split; [lia|by left]].
    constructor; try done. unfold bufs. destruct s; cbn; [by rewrite (dn_out _ D)|by rewrite (dn_wait _ D)|done].
Qed.

(** One due request. *)
Lemma scan_due s cp err now L pre r l app partial t b :
  err <> 0 -> Walk s cp err now pre (r :: l) app b -> ~ not_due now r -> Scan cf L (partial = 0) b -> 0 <= partial ->
  let partial' := if cp && (rkbuf_of r >? 0) then partial + 1 else partial in
  let r' := rq_ts_sent t r in
  safe (let! q := rd_kafka_bufq_deq (get_q s b) r' in rd_kafka_buf_callback (broker_fail cf en) cf en true (scan_removed s r' q b) err None r')
    (fun b2 => Scan cf L (partial' = 0) b2 /\ others s b b2 /\
       exists pre' l' app', Walk s cp err now pre' l' app' b2 /\
         (length l' <= length l /\ length app' <= S (length app))%nat /\
         (rkbuf_id <$> head (l ++ app) = rkbuf_id <$> head (l' ++ app') \/ head (l ++ app) = None /\ l' = [])).
Proof.
  intros Herr W Hd S Hp partial' r'. pose proof (wk_bufs _ _ _ _ _ _ _ _ W) as Hb.
  destruct (scan_deq cf s L _ b pre r (l ++ app) t S Hb) as (q & Hq & Hb1 & L1 & P1 & O1 & W1 & A1 & V1 & T1).
  fold r' in Hq. rewrite Hq. cbn [obind]. fold r' in Hb1, L1, P1, O1, W1, A1, V1, T1. set (b1 := scan_removed s r' q b) in *.
  eapply safe_mono; [apply (scan_callback L (partial' = 0) b1 r' err); try done|].
  - intros Hz. unfold partial' in Hz. destruct (cp && _) eqn:E; [lia|]. apply V1; [done|]. intros ->.
    pose proof (wk_of _ _ _ _ _ _ _ _ W eq_refl) as [[H0 H1] _]%Forall_cons. destruct H1 as [-> |?]; [|done].
    cbn in E. destruct (Z.gtb_spec (rkbuf_of r) 0); [done|lia].
  - intros b2 [S2 An]. split; [done|].
    destruct (walk_take s cp err now pre r r' l app b b1 b2 W Hd eq_refl) as (T2 & Hx); try done; [|by destruct T1|].
    + intros ->. unfold bufs in Hb. cbn in Hb. pose proof (as_retry _ _ _ (sc_aside _ _ _ _ S)) as F. unfold retries in F. rewrite Hb in F.
      apply Forall_app in F as [_ F]. cbn in F. apply Forall_cons in F as [F _]. by destruct F.
    + split; [by eapply others_trans|done].
Qed.

Lemma scan_loop s cp err now L fuel : forall pre l app cur cnt partial b,
  err <> 0 -> Walk s cp err now pre l app b -> Scan cf L (partial = 0) b -> 0 <= partial ->
  (2 * length l + length app <= fuel)%nat -> (cur = rkbuf_id <$> head (l ++ app) \/ cur = None /\ l = []) ->
  safe (timeout_scan_loop fuel cf en (is_wait s) s cp err now cur cnt partial b)
    (fun '(cnt', partial', b') => partial <= partial' /\ (cp = false -> partial' = partial) /\ cnt <= cnt' /\ Scan cf L (partial' = 0) b' /\
       Forall (not_due now) (bufs s b') /\ others s b b').
Proof.
  induction fuel as [|fuel IH]; intros pre l app cur cnt partial b Herr W S Hp Hf Hc.
  - assert (l = [] /\ app = []) as [-> ->] by (destruct l, app; cbn in Hf; lia || done).
    assert (cur = None) as -> by (destruct Hc as [? | [? _]]; done). cbn. split_and!; try done; [|by apply others_refl].
    rewrite (wk_bufs _ _ _ _ _ _ _ _ W), !app_nil_r. by destruct W.
  - destruct cur as [id|].
    2: { cbn. split_and!; try done; [|by apply others_refl]. rewrite (wk_bufs _ _ _ _ _ _ _ _ W). destruct W.
         assert (l = []) as -> by (destruct Hc as [H|[_ ?]]; [by destruct l|done]). apply Forall_app. by split. }
    destruct Hc as [Hc|[? _]]; [|done]. destruct (aside_queue_nodup _ _ _ (sc_aside _ _ _ _ S)) as (N1 & N2 & N3).
    assert (NoDup (ids (bufs s b))) as N by (by destruct s). pose proof (wk_bufs _ _ _ _ _ _ _ _ W) as Hb. rewrite Hb in N.
    cbn [timeout_scan_loop]. fold (bufs s b). rewrite Hb.
    destruct l as [|r l].
    + destruct app as [|r app]; [done|]. injection Hc as ->. destruct (walk_skip_app _ _ _ _ _ _ _ _ W) as [Hd W'].
      change ([] ++ r :: app) with (r :: app) in *. rewrite (find_buf_at pre r app) by (by eapply nodup_at). rewrite not_due_test, bool_decide_true by done.
      apply (IH (pre ++ [r]) [] app); try done; [cbn in *; lia|by left].
    + injection Hc as ->. change ((r :: l) ++ app) with (r :: l ++ app) in *. rewrite (find_buf_at pre r (l ++ app)) by (by eapply nodup_at). rewrite not_due_test.
      destruct (decide (not_due now r)) as [Hd|Hd].
      * rewrite bool_decide_true by done. apply (IH (pre ++ [r]) l app); try done; [by apply walk_skip|cbn in *; lia|by left].
      * rewrite bool_decide_false by done.
        match goal with |- context [rq_ts_sent ?x r] => set (t := x) end.
        pose proof (scan_due s cp err now L pre r l app partial t b Herr W Hd S Hp) as D. cbn zeta in D.
        change (safe (let! q := rd_kafka_bufq_deq (get_q s b) (rq_ts_sent t r) in
          let! b0 := rd_kafka_buf_callback (broker_fail cf en) cf en true (scan_removed s (rq_ts_sent t r) q b) err None (rq_ts_sent t r) in
          timeout_scan_loop fuel cf en (is_wait s) s cp err now (rkbuf_id <$> head (l ++ app)) (cnt + 1)
            (if cp && (rkbuf_of r >? 0) then partial + 1 else partial) b0)
          (fun '(cnt', partial', b') => partial <= partial' /\ (cp = false -> partial' = partial) /\ cnt <= cnt' /\ Scan cf L (partial' = 0) b' /\
             Forall (not_due now) (bufs s b') /\ others s b b')).
        destruct (rd_kafka_bufq_deq _ _) as [q| |]; try done. cbn [obind] in *.
        eapply safe_bind; [exact D|]. intros b2 (S2 & T2 & pre' & l' & app' & W2 & Hlen & Hc').
        set (partial' := if cp && _ then _ else _) in *. assert (partial <= partial') as Hle by (unfold partial'; case_if; lia).
        assert (cp = false -> partial' = partial) as Hcp by (unfold partial'; by intros ->).
        eapply safe_mono; [apply (IH pre' l' app'); try done; [lia|cbn in Hf; lia|]|].
        -- destruct Hc' as [?|[E ?]]; [by left|right; by rewrite E].
        -- intros [[cnt2 p2] b3] (? & ? & ? & ? & ? & ?). split_and!; try done; [lia|intros ?; rewrite <- Hcp by done; auto|lia|by eapply others_trans].
Qed.

(** ** The scans *)

Lemma good_scan L b (whole : Prop) : Good cf L b -> Scan cf L whole b.
Proof. intros (Hv & Hl & A). constructor; try done; destruct Hv; try done. by destruct lv_rx. Qed.

Lemma scan_good L (whole : Prop) b : Scan cf L whole b -> whole -> Good cf L b.
Proof. intros [] ?. split; auto. Qed.

Lemma head_of P l : (forall r, P r -> 0 <= rkbuf_of r) -> head_ok P l -> Forall (fun r => 0 <= rkbuf_of r) l.
Proof.
  intros HP. destruct l as [|r l]; [done|]. intros [Hr Hl]. constructor; [destruct Hr as [[-> _]|?]; auto; lia|].
  eapply Forall_impl; [exact Hl|]. intros x [-> _]. lia.
Qed.

Lemma live_of b : Live cf b -> Forall (fun r => 0 <= rkbuf_of r) (outs b).
Proof. intros Hv. destruct Hv. eapply head_of; [|exact lv_head]. intros r []. lia. Qed.

Lemma no_setup_last now l : Forall (fun r => is_setup r = false) l -> due_setup_last now l.
Proof. induction 1 as [|r l Hr _ IH]; [done|]. split; [congruence|done]. Qed.

Lemma elem_setups r l : r ∈ setups l <-> is_setup r = true /\ r ∈ l.
Proof. unfold setups. by rewrite list_elem_of_filter. Qed.

(** While the connection is set up, one request waits at most. *)
Lemma wait_setup_last now b : Live cf b -> due_setup_last now (waits b).
Proof.
  intros Hv. destruct (setups (waits b)) as [|x l] eqn:E.
  - apply no_setup_last. apply Forall_forall. intros r Hr. destruct (is_setup r) eqn:Hs; [|done].
    assert (r ∈ setups (waits b)) as H by (by apply elem_setups). rewrite E in H. by apply elem_of_nil in H.
  - destruct Hv. destruct lv_phase as [_ Hm]; [rewrite setups_app, E; by destruct (setups (outs b))|]. rewrite Hm in lv_inflight.
    destruct (waits b) as [|r [|]]; cbn in *; [done| |lia]. split; [auto|done].
Qed.

Lemma scan_call s cp err now L b :
  Good cf L b -> err <> 0 -> err = ERR__DESTROY \/ (s = Q_out -> due_setup_last now (outs b)) ->
  (s = Q_out -> cp = true \/ Forall (fun r => rkbuf_of r = 0) (outs b)) ->
  now = rkb_now b /\ now <> 0 \/ now = 0 /\ en_terminating en = true /\ err = ERR__DESTROY ->
  safe (rd_kafka_broker_bufq_timeout_scan cf en (is_wait s) s cp err now b)
    (fun '(cnt, partial, b') => 0 <= partial /\ (cp = false -> partial = 0) /\ 0 <= cnt /\ Scan cf L (partial = 0) b' /\
       Forall (not_due now) (bufs s b') /\ others s b b').
Proof.
  intros G Herr Hset Hcp Hnow. unfold rd_kafka_broker_bufq_timeout_scan.
  apply (scan_loop s cp err now L _ [] (bufs s b) []); try done.
  - constructor; try done; [by rewrite app_nil_r| |].
    + destruct Hset as [?|Hset]; [by left|right]. destruct s; [by apply Hset|apply wait_setup_last; by destruct G|].
      apply no_setup_last. destruct G as (_ & _ & A). eapply Forall_impl; [exact (as_retry _ _ _ A)|]. by intros r [].
    + intros ->. pose proof (live_of b ltac:(by destruct G)) as F. destruct (Hcp eq_refl) as [-> |F2].
      * eapply Forall_impl; [exact F|]. auto.
      * apply Forall_forall. intros r Hr. rewrite Forall_forall in F, F2. auto.
  - by apply good_scan.
  - unfold bufs. cbn [length]. lia.
  - left. by rewrite app_nil_r.
Qed.

Lemma head_ok_impl (P Q : rkbuf -> Prop) l : (forall r, P r -> Q r) -> head_ok P l -> head_ok Q l.
Proof. intros H. destruct l; [done|]. intros [[?|?] ?]; (split; [|done]); auto. Qed.

(** Fields of the connection that the invariant does not mention. *)
Lemma live_conn b c k :
  Live cf b -> rkb_state c = rkb_state (rkb_conn b) -> rkb_transport c = rkb_transport (rkb_conn b) ->
  rkb_connid c = rkb_connid (rkb_conn b) -> rkb_max_inflight c = rkb_max_inflight (rkb_conn b) ->
  rkb_features c = rkb_features (rkb_conn b) -> rkb_ApiVersions c = rkb_ApiVersions (rkb_conn b) ->
  rkb_recv_buf c = rkb_recv_buf (rkb_conn b) -> Live cf (set_rk k (set_conn c b)).
Proof.
  intros [] H1 H2 H3 H4 H5 H6 H7. unfold linked, online, setup_phase, cur_log, b_state, b_transport in *.
  constructor; unfold linked, online, setup_phase, cur_log, b_state, b_transport in *; cbn;
    rewrite ?H1, ?H2, ?H3, ?H4, ?H5, ?H6, ?H7; try done.
  - eapply head_ok_impl; [|exact lv_head]. intros r [[? ?] ? ? ? ? ? ? Hs].
    constructor; unfold online, supported in *; cbn; rewrite ?H1, ?H2, ?H3, ?H4, ?H5, ?H6; done.
  - destruct lv_rx. constructor; rewrite ?H2, ?H7; done.
Qed.

Lemma good_conn L b c k :
  Good cf L b -> rkb_state c = rkb_state (rkb_conn b) -> rkb_transport c = rkb_transport (rkb_conn b) ->
  rkb_connid c = rkb_connid (rkb_conn b) -> rkb_max_inflight c = rkb_max_inflight (rkb_conn b) ->
  rkb_features c = rkb_features (rkb_conn b) -> rkb_ApiVersions c = rkb_ApiVersions (rkb_conn b) ->
  rkb_recv_buf c = rkb_recv_buf (rkb_conn b) -> Good cf L (set_rk k (set_conn c b)).
Proof.
  intros (Hv & Hl & A) H1 H2 H3 H4 H5 H6 H7. split; [by apply live_conn|]. split; [by apply (log_same b)|].
  by apply (aside_same _ _ b).
Qed.

Lemma up_conn_good L b f :
  Good cf L b -> (forall c, rkb_state (f c) = rkb_state c) -> (forall c, rkb_transport (f c) = rkb_transport c) ->
  (forall c, rkb_connid (f c) = rkb_connid c) -> (forall c, rkb_max_inflight (f c) = rkb_max_inflight c) ->
  (forall c, rkb_features (f c) = rkb_features c) -> (forall c, rkb_ApiVersions (f c) = rkb_ApiVersions c) ->
  (forall c, rkb_recv_buf (f c) = rkb_recv_buf c) -> Good cf L (up_conn f b).
Proof. intros G H1 H2 H3 H4 H5 H6 H7. pose proof (good_conn L b (f (rkb_conn b)) (rkb_rk b) G) as H. destruct b. by apply H. Qed.

(** Failing keeps the invariant. *)
Lemma fail_good err fmt L b : Good cf L b -> err <> 0 -> safe (broker_fail cf en err fmt b) (Good cf L).
Proof.
  intros G Herr. destruct (good_scan L b True G).
  eapply safe_mono; [by apply (fail_ok cf en CO 0 err fmt L b)|by intros b'; apply going_down_good].
Qed.

Definition nothing_due (now : Z) b : Prop := Forall (not_due now) (waits b ++ retries b ++ outs b).

Lemma others_due s s' now b b' :
  s <> s' -> others s b b' -> now = rkb_now b -> now <> 0 -> Forall (not_due now) (bufs s' b) -> Forall (not_due now) (bufs s' b').
Proof.
  intros Hs [Ho Hw Hr _] Hn H0 F. destruct s'; unfold bufs; cbn in *.
  - fold (outs b') (outs b) in *. destruct (Ho Hs) as [-> | ->]; done.
  - fold (waits b') (waits b) in *. destruct (Hw Hs) as [-> | ->]; done.
  - fold (retries b') (retries b) in *. destruct (Hr Hs) as (l & -> & Fl). apply Forall_app. split; [done|]. by eapply retries_not_due.
Qed.

Lemma timeout_scan_good now L b :
  Good cf L b -> now = rkb_now b -> now <> 0 -> due_setup_last now (outs b) ->
  safe (rd_kafka_broker_timeout_scan cf en now b) (fun b' => Good cf L b' /\ nothing_due now b' /\ rkb_now b' = now).
Proof.
  intros G Hn H0 Hset. unfold rd_kafka_broker_timeout_scan.
  eapply safe_bind; [apply (scan_call Q_wait false ERR__TIMED_OUT now L b); try done; [by right|by left]|].
  intros [[c1 p1] b1] (_ & Hp1 & Hc1 & S1 & D1 & T1). pose proof (scan_good _ _ _ S1 (Hp1 eq_refl)) as G1.
  pose proof (ot_now _ _ _ T1) as N1.
  eapply safe_bind; [apply (scan_call Q_retry false ERR__TIMED_OUT_QUEUE now L b1); try done; [by right|left; split; congruence]|].
  intros [[c2 p2] b2] (_ & Hp2 & Hc2 & S2 & D2 & T2). pose proof (scan_good _ _ _ S2 (Hp2 eq_refl)) as G2.
  pose proof (ot_now _ _ _ T2) as N2.
  assert (outs b2 = outs b \/ outs b2 = []) as Ho2.
  { destruct (ot_out _ _ _ T2 ltac:(done)) as [-> | ->]; [|by right]. by apply (ot_out _ _ _ T1). }
  eapply safe_bind; [apply (scan_call Q_out true ERR__TIMED_OUT_QUEUE now L b2); try done|].
  { right. intros _. by destruct Ho2 as [-> | ->]. }
  { by left. }
  { left. split; congruence. }
  intros [[c3 p3] b3] (Hp3 & _ & Hc3 & S3 & D3 & T3). pose proof (ot_now _ _ _ T3) as N3.
  assert (Forall (not_due now) (bufs Q_wait b3)) as W3.
  { apply (others_due Q_out Q_wait now b2); try done; [congruence|]. apply (others_due Q_retry Q_wait now b1); try done; congruence. }
  assert (Forall (not_due now) (bufs Q_retry b3)) as R3 by (apply (others_due Q_out Q_retry now b2); done || congruence).
  assert (nothing_due now b3) as ND by (unfold nothing_due; by rewrite !Forall_app).
  assert (rkb_now b3 = now) as N by congruence.
  destruct (Z.gtb_spec (c1 + c2 + c3 + p3) 0).
  2: { split; [apply (scan_good _ _ _ S3); lia|]. by split. }
  match goal with |- context [up_conn ?f b3] => set (b4 := up_conn f b3) end.
  assert (safe (broker_fail cf en ERR__TIMED_OUT (Some false) b4) (fun b' => Good cf L b' /\ nothing_due now b' /\ rkb_now b' = now)) as Hfail.
  { eapply safe_mono; [apply (fail_ok cf en CO 0 _ _ L)|]; try done.
    - apply (log_same b3); try done. by destruct S3.
    - by destruct S3.
    - apply (aside_same _ _ b3); [done|]. by destruct S3.
    - intros b' GD. split; [by eapply going_down_good|]. destruct GD as (D & _ & _ & (l & Hl & Fl) & N').
      split; [|by rewrite N']. unfold nothing_due, outs, waits. rewrite (dn_out _ D), (dn_wait _ D). cbn. rewrite app_nil_r, Hl.
      apply Forall_app. split; [exact R3|]. by apply (retries_not_due _ b4). }
  destruct (Z.gtb_spec p3 0); [done|]. cbn [orb]. case_if; [done|]. cbn [safe]. split; [|by split].
  apply up_conn_good; try done. apply (scan_good _ _ _ S3). lia.
Qed.

Lemma not_due_0_nil l : Forall (not_due 0) l -> l = [].
Proof. intros F. destruct F as [|r l [? _] _]; done. Qed.

Lemma head_part_nil b : Live cf b -> head_part (outs b) = [] -> Forall (fun r => rkbuf_of r = 0) (outs b).
Proof.
  intros [] Hp. destruct (outs b) as [|r l]; [done|]. destruct lv_head as [Hr Hl]. constructor.
  - destruct Hr as [[? _]|Hb]; [done|]. destruct (bg_of _ _ _ _ _ Hb) as [? ?]. cbn in Hp.
    apply (f_equal length) in Hp. unfold ztake in Hp. rewrite length_take in Hp. cbn in Hp. lia.
  - eapply Forall_impl; [exact Hl|]. by intros x [? _].
Qed.

(** While the client terminates: nothing is left, if nothing was partly sent. *)
Lemma terminating_scan_good L b :
  Good cf L b -> en_terminating en = true -> head_part (outs b) = [] ->
  safe (terminating_scan cf en b) (fun b' => Good cf L b' /\ outs b' = [] /\ retries b' = [] /\ rkb_now b' = rkb_now b).
Proof.
  intros G Ht Hh. unfold terminating_scan. pose proof (not_due_0_nil) as Hnil.
  eapply safe_bind; [apply (scan_call Q_out false ERR__DESTROY 0 L b); try done; [by left| |by right]|].
  { intros _. right. apply head_part_nil; [by destruct G|done]. }
  intros [[c1 p1] b1] (_ & Hp1 & _ & S1 & D1 & T1). pose proof (scan_good _ _ _ S1 (Hp1 eq_refl)) as G1. apply Hnil in D1.
  eapply safe_bind; [apply (scan_call Q_retry false ERR__DESTROY 0 L b1); try done; [by left|by right]|].
  intros [[c2 p2] b2] (_ & Hp2 & _ & S2 & D2 & T2). pose proof (scan_good _ _ _ S2 (Hp2 eq_refl)) as G2. apply Hnil in D2.
  cbn. split; [done|]. split; [|split; [done|]].
  - destruct (ot_out _ _ _ T2 ltac:(done)) as [-> | ->]; done.
  - rewrite (ot_now _ _ _ T2). by destruct T1.
Qed.
End scan.
