(* ===== verification/BrokerSend.v ===== *)
(** * The broker thread: sending keeps the invariant

    A request is begun, sent in parts, logged when its last byte was taken, and
    then waits for its response. *)
From Stdlib Require Import ZArith Lia.
From stdpp Require Import base numbers list.
From S2P Require Import Prelude.
From S2P Require Import Proto.
From S2P Require Import Feature.
From S2P Require Import BrokerState.
From S2P Require Import Broker.
From S2P Require Import BrokerInv.
From S2P Require Import BrokerConn.
From S2P Require Import BrokerScan.

Implicit Types (cf : conf) (en : env) (b : broker) (r : rkbuf).

(** ** The first request changes *)

Definition set_tx (tx : list Z) b : broker :=
  let w := rkb_wire b in
  set_wire (mk_wire tx (tx_log w) (rx_pending w) (rx_bytes w) (rx_log w) (rx_corrid_err w)) b.

Lemma log_ok_mono connid corrid corrid' x : log_ok connid corrid x -> corrid <= corrid' -> log_ok connid corrid' x.
Proof. intros [] ?. constructor; try done. lia. Qed.

Lemma first_good cf L b r l r1 c' tx' :
  Good cf L b -> outs b = r :: l ->
  rkbuf_id r1 = rkbuf_id r -> rkbuf_msg_cnt r1 = rkbuf_msg_cnt r -> rkbuf_cb r1 = rkbuf_cb r -> rkbuf_sent r1 = false ->
  hand_ok cf (log b) r1 -> begun (rkb_conn b) c' (log b) (zlen (waits b)) r1 -> rkb_corrid b <= c' <= INT32_MAX ->
  tx' = concat (map rkbuf_bytes (cur_log b)) ++ ztake (rkbuf_of r1) (rkbuf_bytes r1) ->
  Good cf L (set_corrid c' (set_tx tx' (set_first r1 b))).
Proof.
  intros (Hv & Hl & A) Ho Hid Hmsg Hcb Hsent Hh Hb Hc Htx. set (b' := set_corrid _ _).
  assert (outs b' = r1 :: l) as Ho' by (unfold outs in *; cbn; by rewrite Ho).
  assert (is_setup r1 = is_setup r) as Hs by (unfold is_setup; by rewrite Hcb).
  destruct Hv. rewrite Ho in *. split; [|split].
  - constructor; rewrite ?Ho'; try done.
    + destruct lv_out_cnt as [C M]. unfold outs in Ho. rewrite Ho in C, M.
      constructor; cbn; rewrite Ho; [done|]. rewrite M. unfold sum_msgs. cbn. lia.
    + apply Forall_cons in lv_out as [_ ?]. by constructor.
    + destruct lv_head as [_ ?]. split; [by right|done].
    + cbn [app] in *. rewrite setups_cons in *. rewrite Hs. by destruct (is_setup r).
    + cbn [app] in *. rewrite setups_cons in *. rewrite Hs. destruct (is_setup r); [intros _; by apply lv_phase|exact lv_phase].
    + intros Ec. destruct (bg_online _ _ _ _ _ Hb) as [_ E]. unfold b_state in Ec. cbn in Ec. by rewrite Ec in E.
    + destruct lv_rx. by constructor.
  - destruct Hl as [R E D]. constructor; [cbn; lia| |done]. eapply Forall_impl; [exact E|]. intros x H. eapply log_ok_mono; [exact H|]. cbn. lia.
  - apply (aside_same _ _ b); [done|]. rewrite Ho'. apply (aside_hand cf _ _ _ A).
    + cbn. by rewrite Hid.
    + pose proof (as_hand _ _ _ A) as F. cbn in *. apply Forall_cons in F as [_ ?]. by constructor.
Qed.

(** ** A request was sent *)

Lemma tries_log lg c x id : tries (lg ++ [(c, x)]) id = tries lg id + (if decide (rkbuf_id x = id) then 1 else 0).
Proof. unfold tries. rewrite filter_app, filter_cons. cbn. case_decide; rewrite length_app; cbn; lia. Qed.

Lemma again_ok_log cf lg lg' r : tries lg' (rkbuf_id r) = tries lg (rkbuf_id r) -> again_ok cf lg r -> again_ok cf lg' r.
Proof. intros H []. constructor; try done. by rewrite H. Qed.

Lemma op_ok_log cf lg lg' o :
  (forall r, r ∈ op_req o -> tries lg' (rkbuf_id r) = tries lg (rkbuf_id r)) -> op_ok cf lg o -> op_ok cf lg' o.
Proof.
  intros H. destruct o as [r|r| | |]; cbn; try done; intros Hr; (eapply again_ok_log; [|exact Hr]); apply (H r); cbn; by left.
Qed.

Lemma aside_sent cf L b r r' c x :
  Aside cf (r :: L) b -> rkbuf_sent r = false -> rkbuf_sent r' = true -> rkbuf_id r' = rkbuf_id r -> rkbuf_id x = rkbuf_id r ->
  rkbuf_retries r' = rkbuf_retries r -> base_retries r' = base_retries r -> rkbuf_response r' = None -> req_wf cf r' ->
  forall b', same_aside (set_wire (mk_wire (tx_bytes (rkb_wire b)) (log b ++ [(c, x)]) (rx_pending (rkb_wire b)) (rx_bytes (rkb_wire b))
                         (rx_log (rkb_wire b)) (rx_corrid_err (rkb_wire b))) b) b' -> Aside cf (r' :: L) b'.
Proof.
  intros A Hs Hs' Hid Hx Hr Hba Hres Hwf b' Same. apply (aside_same cf _ _ _ Same). clear Same.
  pose proof (aside_nodup _ _ _ A) as N. unfold all_ids in N. cbn [ids map app] in N. apply NoDup_cons in N as [N _].
  rewrite !not_elem_of_app in N. destruct N as (N1 & N2 & N3 & N4 & N5).
  assert (forall id, id <> rkbuf_id r -> tries (log b ++ [(c, x)]) id = tries (log b) id) as T.
  { intros id Hne. rewrite tries_log, decide_False by congruence. lia. }
  destruct A as [Hi Hh Hrc Hre Ho Hp Hd Hn]. apply Forall_cons in Hh as [Hr0 Hh].
  assert (forall (y : rkbuf) l, rkbuf_id r ∉ ids l -> y ∈ l -> rkbuf_id y <> rkbuf_id r) as Hne.
  { intros y l Hnot Hy E. apply Hnot. rewrite <- E. unfold ids. by apply list_elem_of_fmap_2. }
  constructor; change (log (set_wire _ b)) with (log b ++ [(c, x)]); try done.
  - unfold all_ids in *. cbn [ids map app] in *. by rewrite Hid.
  - constructor.
    + destruct Hr0 as [? ? Ht]. constructor; try done. rewrite Hid, tries_log, decide_True by done. rewrite Hs', Hr, Hba. rewrite Hs in Ht. lia.
    + apply Forall_forall. intros y Hy. rewrite Forall_forall in Hh. destruct (Hh y Hy). constructor; try done. rewrite T; [done|by apply (Hne y L)].
  - apply Forall_forall. intros y Hy. rewrite Forall_forall in Hre. eapply again_ok_log; [|by apply Hre]. apply T. by apply (Hne y (retries b)).
  - apply Forall_forall. intros o Hy. rewrite Forall_forall in Ho. eapply op_ok_log; [|by apply Ho]. intros y Hyo. apply T.
    apply (Hne _ (ops_reqs (rkb_ops b))); [done|]. unfold ops_reqs.
    apply list_elem_of_In, List.in_concat. exists (op_req o). split; [apply List.in_map|]; by apply list_elem_of_In.
  - apply Forall_forall. intros y Hy. rewrite Forall_forall in Hp. destruct (Hp y Hy). constructor; try done. rewrite T; [done|].
    apply (Hne _ (map fst (rkb_replies b))); [done|]. by apply list_elem_of_fmap_2.
  - apply Forall_forall. intros y Hy. rewrite Forall_forall in Hd. rewrite T; [by apply Hd|]. intros E. apply N5. rewrite <- E. by apply list_elem_of_fmap_2.
  - intros id Hge. cbn in Hge. rewrite T; [by apply Hn|]. intros ->. assert (rkbuf_id r ∈ seq 0 (rkb_next b)) as Hin.
    { rewrite <- Hi. unfold all_ids. cbn. by left. }
    apply elem_of_seq in Hin. lia.
Qed.

Lemma wait_ok_mono cl cl' r : wait_ok cl r -> wait_ok (cl ++ cl') r.
Proof. intros [? ? (r' & Hin & ?)]. constructor; try done. exists r'. split; [|done]. apply elem_of_app. by left. Qed.

(** The state between sending and waiting. *)
Definition sent_state b (q : bufq) (tx : list Z) (x : rkbuf) : broker :=
  set_outbufs q (set_wire (mk_wire tx (log b ++ [(rkb_connid (rkb_conn b), x)]) (rx_pending (rkb_wire b)) (rx_bytes (rkb_wire b))
    (rx_log (rkb_wire b)) (rx_corrid_err (rkb_wire b))) b).

Lemma cur_log_sent b q tx x : cur_log (sent_state b q tx x) = cur_log b ++ [x].
Proof. unfold cur_log, conn_log, sent_state, log. cbn. rewrite filter_app, map_app. cbn. by rewrite decide_True. Qed.

Lemma sent_live cf L b r l x q tx :
  Good cf L b -> outs b = r :: l -> begun (rkb_conn b) (rkb_corrid b) (log b) (zlen (waits b)) r ->
  rkbuf_bytes x = rkbuf_bytes r -> rkbuf_corrid x = rkbuf_corrid r -> rkbq_bufs q = l -> bufq_ok q ->
  tx = concat (map rkbuf_bytes (cur_log b)) ++ rkbuf_bytes r ->
  Live cf (sent_state b q tx x) /\ Log (sent_state b q tx x) /\ Forall idle l.
Proof.
  intros (Hv & Hl & A) Ho Hb Hby Hco Hq Hqo Htx. pose proof (cur_log_sent b q tx x) as Hcl. set (b' := sent_state b q tx x) in *.
  assert (outs b' = l) as Ho' by done. destruct Hv. rewrite Ho in *. destruct lv_head as [_ Hidle].
  destruct (idle_head (begun (rkb_conn b') (rkb_corrid b') (log b') (zlen (waits b'))) _ Hidle) as [Hh Hp].
  split; [|split; [|done]].
  - constructor; rewrite ?Ho', ?Hcl; try done.
    + by apply Forall_cons in lv_out as [_ ?].
    + eapply Forall_impl; [exact lv_wait|]. intros y. by apply wait_ok_mono.
    + change (waits b') with (waits b). cbn [app] in lv_setup. rewrite setups_cons in lv_setup. destruct (is_setup r); cbn in lv_setup; [|done].
      clear - lv_setup. lia.
    + change (waits b') with (waits b). intros Hne. apply lv_phase. cbn [app]. rewrite setups_cons. by destruct (is_setup r).
    + intros Ec. destruct (bg_online _ _ _ _ _ Hb) as [_ E]. unfold b_state in Ec. cbn in Ec. by rewrite Ec in E.
    + intros _. rewrite Hp, app_nil_r, map_app, concat_app. cbn. by rewrite app_nil_r, Hby.
    + destruct lv_rx. by constructor.
  - destruct Hl as [R E D]. destruct Hb as [_ _ Hc1 Hc2 Hc3 _ _ _]. constructor; [done| |].
    + apply Forall_app. split; [done|]. apply Forall_singleton. constructor; cbn; [done|by rewrite Hco|unfold has_corrid in *; by rewrite Hby, Hco|].
      rewrite Hby. pose proof (as_hand _ _ _ A) as F. cbn in F. apply Forall_cons in F as [[[? _ _ _] _ _] _]. done.
    + change (NoDup (corrids (log b ++ [(rkb_connid (rkb_conn b), x)]))). unfold corrids in *. rewrite map_app. cbn. rewrite Hco. apply NoDup_app.
      split; [done|]. split; [|by apply NoDup_singleton]. intros c Hin ->%list_elem_of_singleton. done.
Qed.

Lemma live_add_wait cf b r n k :
  Live cf b -> wait_ok (cur_log b) r -> rkbuf_corrid r ∉ map rkbuf_corrid (waits b) -> zlen (waits b) < rkb_max_inflight (rkb_conn b) ->
  online (rkb_conn b) -> zlen (setups (r :: outs b ++ waits b)) <= 1 -> (is_setup r = true -> setup_phase (rkb_conn b)) ->
  n = rkb_blocking_request_cnt b + (if rkbuf_blocking r then 1 else 0) -> Forall idle (outs b) ->
  Live cf (set_rk k (set_waitresps (rd_kafka_bufq_enq (rkb_waitresps b) r) (set_blocking_request_cnt n b))).
Proof.
  intros [] Hw Hc Hm Hon Hs Hph Hn Hidle. set (b' := set_rk _ _).
  assert (waits b' = waits b ++ [r]) as Hw' by done.
  assert (outs b ++ waits b ++ [r] ≡ₚ r :: outs b ++ waits b) as P.
  { rewrite app_assoc. symmetry. apply Permutation_cons_append. }
  constructor; rewrite ?Hw'; try done.
  - by apply bufq_enq_ok.
  - change (outs b') with (outs b). by apply (idle_head _ _ Hidle).
  - apply Forall_app. split; [done|by apply Forall_singleton].
  - rewrite map_app. apply NoDup_app. split; [done|]. split; [|by apply NoDup_singleton]. intros c Hin ->%list_elem_of_singleton. done.
  - rewrite length_app. cbn. lia.
  - cbn. rewrite Hn, lv_blocking, filter_app, filter_cons, length_app. destruct (rkbuf_blocking r); case_decide; cbn; done || lia.
  - change (outs b') with (outs b). by rewrite (setups_perm _ _ P).
  - change (outs b') with (outs b). intros Hne. destruct (is_setup r) eqn:E; [by apply Hph|]. apply lv_phase. intros E0. apply Hne.
    apply Permutation_nil_r. rewrite (setups_perm _ _ P), setups_cons, E. by rewrite E0.
Qed.

Section send.
Context (cf : conf) (en : env) (CO : conf_ok cf) (EO : env_ok cf en).

Definition send_begin b r : outcome (rkbuf * broker) :=
  if (rkbuf_corrid r =? 0) || negb (rkbuf_connid r =? rkb_connid (rkb_conn b)) then
    assert! (rkbuf_of r =? 0) in
    let b := set_corrid (u32 (rkb_corrid b + 1)) b in
    let r := rq_corrid (s32 (rkb_corrid b)) r in
    let r := rq_bytes (update_bytes 8 (be_enc 4 (rkbuf_corrid r)) (rkbuf_bytes r)) r in
    Ret (rq_connid (rkb_connid (rkb_conn b)) r, b)
  else if rkbuf_of r >? 4 + 2 + 2 + 4 then
    assert! (rkbuf_connid r =? rkb_connid (rkb_conn b)) in Ret (r, b)
  else Ret (r, b).

Lemma set_first_same b r l : outs b = r :: l -> set_first r b = b.
Proof. unfold outs, set_first. intros H. destruct b as [? ? ? ? [bs c m]]. cbn in *. by subst. Qed.

(** Giving the first request its correlation id. *)
Lemma send_begin_good L b r l :
  Good cf L b -> outs b = r :: l -> online (rkb_conn b) -> zlen (waits b) < rkb_max_inflight (rkb_conn b) ->
  rkb_corrid b < INT32_MAX -> supported (rkb_conn b) r = true ->
  exists r1 b1, send_begin b r = Ret (r1, b1) /\ let b2 := set_first r1 b1 in
    Good cf L b2 /\ outs b2 = r1 :: l /\ waits b2 = waits b /\ begun (rkb_conn b2) (rkb_corrid b2) (log b2) (zlen (waits b2)) r1 /\
    supported (rkb_conn b2) r1 = true /\ rkb_conn b2 = rkb_conn b /\ rkb_corrid b2 <= rkb_corrid b + 1 /\ rkb_now b2 = rkb_now b.
Proof.
  intros G Ho Hon Hm Hc Hsup. pose proof G as (Hv & Hl & A). unfold send_begin.
  pose proof (lv_head _ _ Hv) as Hh. pose proof (lv_out _ _ Hv) as Hs. rewrite Ho in Hh, Hs. apply Forall_cons in Hs as [Hs _].
  destruct Hh as [[[Hof Hco]|Hb] _].
  - rewrite Hco, Hof. cbn [Z.eqb orb].
    assert (u32 (rkb_corrid b + 1) = rkb_corrid b + 1 /\ s32 (rkb_corrid b + 1) = rkb_corrid b + 1) as [Eu Es].
    { pose proof (lg_range _ Hl). unfold INT32_MAX in *. split; [apply uwrap_id; unfold u_ok|apply swrap_id; [|unfold s_ok]]; lia. }
    rewrite Eu. change (rkb_corrid (set_corrid (rkb_corrid b + 1) b)) with (rkb_corrid b + 1). rewrite Es. eexists _, _. split; [reflexivity|]. cbn zeta.
    set (c' := rkb_corrid b + 1). set (bs := update_bytes 8 _ _).
    pose proof (as_hand _ _ _ A) as F. rewrite Ho in F. cbn in F. apply Forall_cons in F as [[[Hf ? ? ?] Hres Ht] _]. destruct Hf as [Hsz Hf].
    assert (length bs = length (rkbuf_bytes r)) as Hlen by (unfold bs; apply update_bytes_length; rewrite be_enc_length; lia).
    assert (framed bs) as Hfb.
    { unfold framed. rewrite Hlen. split; [done|]. rewrite <- Hf. unfold bs. apply update_bytes_take; lia. }
    assert (take 4 (drop 8 bs) = be_enc 4 c') as Hfield.
    { pose proof (update_bytes_at 8 (be_enc 4 c') (rkbuf_bytes r) ltac:(lia)) as U. rewrite be_enc_length in U. exact U. }
    change (rkb_corrid (set_corrid (rkb_corrid b + 1) b)) with c'. change (rkbuf_corrid (rq_corrid c' r)) with c'. fold bs. clearbody bs.
    change (rkb_connid (rkb_conn (set_corrid (rkb_corrid b + 1) b))) with (rkb_connid (rkb_conn b)). fold c'.
    destruct Hl as [[R1 R2] E D].
    assert (begun (rkb_conn b) c' (log b) (zlen (waits b)) (rq_connid (rkb_connid (rkb_conn b)) (rq_bytes bs (rq_corrid c' r)))) as Hb.
    { constructor; cbn; try done; try lia.
      - intros Hin. unfold corrids in Hin. apply list_elem_of_fmap in Hin as (x & Hx & Hin). rewrite Forall_forall in E.
        destruct (E x Hin). cbn in Hx. lia. }
    assert (Good cf L (set_corrid c' (set_tx (tx_bytes (rkb_wire b)) (set_first (rq_connid (rkb_connid (rkb_conn b)) (rq_bytes bs (rq_corrid c' r))) b)))) as G2.
    { apply (first_good cf L b r l); try done.
      - unfold c'. lia.
      - cbn. rewrite Hof. pose proof (lv_tx _ _ Hv) as Htx. rewrite Ho in Htx. cbn in Htx. rewrite Hof in Htx. rewrite Htx; [done|].
        destruct Hon as [? Hst]. split; [done|]. intros Ec. by rewrite Ec in Hst. }
    assert (set_corrid c' (set_tx (tx_bytes (rkb_wire b)) (set_first (rq_connid (rkb_connid (rkb_conn b)) (rq_bytes bs (rq_corrid c' r))) b)) =
      set_first (rq_connid (rkb_connid (rkb_conn b)) (rq_bytes bs (rq_corrid c' r))) (set_corrid c' b)) as Eq by (by destruct b as [? ? ? ? ? ? ? ? ? ? []]).
    rewrite Eq in G2.
    split; [exact G2|]. split; [unfold outs in *; cbn; by rewrite Ho|]. split; [done|]. split; [done|]. split; [done|]. split; [done|]. split; [|done].
    cbn. unfold c'. lia.
  - pose proof (begun_corrid _ _ _ _ _ Hb) as Hne. pose proof (bg_connid _ _ _ _ _ Hb) as Hci.
    destruct (Z.eqb_spec (rkbuf_corrid r) 0); [done|]. rewrite Hci, Z.eqb_refl. cbn [negb orb].
    exists r, b. split; [by case_if|]. cbn zeta. rewrite (set_first_same _ _ _ Ho). split_and!; try done. clear. lia.
Qed.

Lemma zdrop_take_all (n : nat) o (l : list Z) :
  0 <= o <= zlen l -> o + zlen (take n (zdrop o l)) <= zlen l /\ ztake (o + zlen (take n (zdrop o l))) l = ztake o l ++ take n (zdrop o l).
Proof.
  intros H. unfold zdrop, ztake. rewrite length_take, length_drop. split; [lia|].
  replace (Z.to_nat (o + Z.of_nat (Nat.min n (length l - Z.to_nat o)))) with (Z.to_nat o + Nat.min n (length l - Z.to_nat o))%nat by lia.
  rewrite <- take_take_drop. f_equal. rewrite <- length_drop. set (x := drop _ l).
  destruct (Nat.le_gt_cases n (length x)); [by rewrite Nat.min_l|]. rewrite Nat.min_r, !take_ge by lia. done.
Qed.

(** A part of the first request was sent. *)
Lemma part_good L b r l n :
  Good cf L b -> outs b = r :: l -> begun (rkb_conn b) (rkb_corrid b) (log b) (zlen (waits b)) r -> supported (rkb_conn b) r = true ->
  let data := take n (zdrop (rkbuf_of r) (rkbuf_bytes r)) in
  let r2 := rq_of (rkbuf_of r + zlen data) r in
  zlen (rkbuf_bytes r2) - rkbuf_of r2 > 0 -> Good cf L (set_first r2 (sent_bytes data b)).
Proof.
  intros G Ho Hb Hs data r2 Hre. pose proof G as (Hv & Hl & A). destruct (bg_of _ _ _ _ _ Hb) as [Hof1 Hof2].
  destruct (zdrop_take_all n (rkbuf_of r) (rkbuf_bytes r) ltac:(lia)) as [_ Ht]. fold data in Ht.
  pose proof (as_hand _ _ _ A) as F. rewrite Ho in F. cbn in F. apply Forall_cons in F as [[[] Hres Htr] _].
  pose proof (lv_out _ _ Hv) as Hse. rewrite Ho in Hse. apply Forall_cons in Hse as [Hse _].
  pose proof (lv_tx _ _ Hv) as Htx. rewrite Ho in Htx. cbn [head_part] in Htx.
  assert (Good cf L (set_corrid (rkb_corrid b) (set_tx (tx_bytes (rkb_wire b) ++ data) (set_first r2 b)))) as G2.
  { apply (first_good cf L b r l); try done.
    - destruct Hb. constructor; try done. cbn in *. lia.
    - destruct Hl as [[? ?] _ _]. lia.
    - cbn. rewrite Ht, app_assoc. rewrite Htx; [done|]. destruct (bg_online _ _ _ _ _ Hb) as [? Hst]. split; [done|]. intros Ec. by rewrite Ec in Hst. }
  destruct b as [? ? ? ? ? ? ? ? ? ? []]. exact G2.
Qed.

(** The rest of it was sent. *)
Lemma whole_good L b r l n t :
  Good cf L b -> outs b = r :: l -> begun (rkb_conn b) (rkb_corrid b) (log b) (zlen (waits b)) r ->
  let data := take n (zdrop (rkbuf_of r) (rkbuf_bytes r)) in
  let r2 := rq_of (rkbuf_of r + zlen data) r in
  let b1 := rd_kafka_transport_request_sent (set_first r2 (sent_bytes data b)) r2 in
  let r3 := rq_ts_sent t (rq_sent true r2) in
  zlen (rkbuf_bytes r2) - rkbuf_of r2 <= 0 ->
  exists q, rd_kafka_bufq_deq (rkb_outbufs b1) r2 = Ret q /\ let b2 := set_outbufs q b1 in
    Live cf b2 /\ Log b2 /\ outs b2 = l /\ Forall idle l /\ Aside cf (r3 :: outs b2 ++ waits b2 ++ L) b2 /\ cur_log b2 = cur_log b ++ [r2].
Proof.
  intros G Ho Hb data r2 b1 r3 Hre. pose proof G as (Hv & Hl & A). destruct (bg_of _ _ _ _ _ Hb) as [Hof1 Hof2].
  destruct (zdrop_take_all n (rkbuf_of r) (rkbuf_bytes r) ltac:(lia)) as [Hle Ht]. fold data in Hle, Ht.
  assert (rkbuf_of r + zlen data = zlen (rkbuf_bytes r)) as Hall by (cbn in Hre; lia).
  pose proof (lv_out _ _ Hv) as Hse. rewrite Ho in Hse. apply Forall_cons in Hse as [Hse _].
  pose proof (lv_tx _ _ Hv) as Htx. rewrite Ho in Htx. cbn [head_part] in Htx.
  assert (rkbq_bufs (rkb_outbufs b1) = r2 :: l) as Hb1 by (unfold outs in Ho; cbn; by rewrite Ho).
  assert (bufq_ok (rkb_outbufs b1)) as Hq1.
  { pose proof (lv_out_cnt _ _ Hv) as [C M]. unfold outs in Ho. rewrite Ho in C, M. constructor; cbn; rewrite Ho; done. }
  destruct (deq_ok _ [] r2 r2 l Hq1 Hb1) as (q & Hd & Hqb & Hqo); [by apply not_elem_of_nil|done|done|].
  exists q. split; [done|]. cbn zeta. set (tx := tx_bytes (rkb_wire b) ++ data).
  assert (set_outbufs q b1 = sent_state b q tx r2) as -> by done.
  assert (tx = concat (map rkbuf_bytes (cur_log b)) ++ rkbuf_bytes r) as Htx'.
  { unfold tx. rewrite Htx, <- app_assoc, <- Ht, Hall.
    - unfold ztake. by rewrite take_ge by lia.
    - destruct (bg_online _ _ _ _ _ Hb) as [? Hst]. split; [done|]. intros Ec. by rewrite Ec in Hst. }
  destruct (sent_live cf L b r l r2 q tx) as (V2 & L2 & Hidle); try done. rewrite cur_log_sent.
  split; [done|]. split; [done|]. split; [done|]. split; [done|]. split; [|done].
  pose proof A as A0. rewrite Ho in A. cbn [app] in A. pose proof (as_hand _ _ _ A) as [[[] Hres Htr] _]%Forall_cons.
  replace (outs (sent_state b q tx r2)) with l by done.
  apply (aside_sent cf (l ++ waits b ++ L) b r r3 (rkb_connid (rkb_conn b)) r2 A); done.
Qed.

(** What sending keeps. *)
Record Sending L b : Prop := mk_sending {
  sn_good : Good cf L b;
  sn_online : state_ge_up (b_state b) = true -> b_transport b = true }.

(** Nothing more can be sent. *)
Definition stuck b : Prop :=
  state_ge_up (b_state b) && (rkbq_cnt (rkb_waitresps b) <? rkb_max_inflight (rkb_conn b)) = false \/ outs b = [].

Lemma down_sending L b : Down b -> Log b -> Aside cf L b -> Sending L b.
Proof.
  intros D Hl A. constructor; [by apply down_good|by rewrite (dn_state _ D)].
Qed.

Lemma keeps_sending L b b' :
  keeps b b' -> (state_ge_up (b_state b) = true -> b_transport b = true) ->
  Good cf L b' -> Sending L b'.
Proof.
  intros K ? G. unfold b_state, b_transport in *. constructor; unfold b_state, b_transport; rewrite ?(kp_conn _ _ K); done.
Qed.

(** The first request is not supported. *)
Lemma unsupported_good L b r l :
  Sending L b -> outs b = r :: l -> supported (rkb_conn b) r = false ->
  safe (let! q := rd_kafka_bufq_deq (rkb_outbufs b) r in
        rd_kafka_buf_callback (broker_fail cf en) cf en true (set_outbufs q b) ERR__UNSUPPORTED_FEATURE None r)
    (fun b' => Sending L b' /\ rkb_now b' = rkb_now b /\ (length (outs b') <= length l)%nat /\
       (rkb_corrid b' <= rkb_corrid b \/ stuck b')).
Proof.
  intros [G Hon] Ho Hs. pose proof G as (Hv & Hl & A).
  assert (rkbuf_of r = 0) as Hof.
  { pose proof (lv_head _ _ Hv) as Hh. rewrite Ho in Hh. destruct Hh as [[[? _]|Hb] _]; [done|].
    destruct (bg_of _ _ _ _ _ Hb) as [? _]. destruct (Z.eq_dec (rkbuf_of r) 0); [done|]. rewrite (bg_supported _ _ _ _ _ Hb) in Hs by lia. done. }
  destruct (scan_deq cf Q_out L True b [] r l (rkbuf_ts_sent r) (good_scan cf L b True G) Ho) as (q & Hd & H).
  assert (rq_ts_sent (rkbuf_ts_sent r) r = r) as E by (by destruct r). rewrite E in Hd, H. cbn [get_q] in Hd. rewrite Hd. cbn [obind].
  change (scan_removed Q_out r q b) with (set_outbufs q b) in H. destruct H as (Hb1 & L1 & P1 & O1 & W1 & A1 & V1 & T1).
  eapply safe_mono; [apply (scan_callback cf en CO L True); try done; auto|].
  intros b' [S (N & _ & C)]. pose proof (scan_good cf L True b' S I) as G'. destruct C as [(K & _)|(_ & _ & D)].
  - assert (outs (set_outbufs q b) = l) as Ho1 by exact Hb1. destruct (keeps_outs _ _ K) as [Eo _].
    split; [|split; [done|split; [by rewrite Eo, Ho1|left; by rewrite (kp_corrid _ _ K)]]]. by apply (keeps_sending L (set_outbufs q b)).
  - assert (outs b' = []) as Eo by (unfold outs; by rewrite (dn_out _ D)).
    split; [|split; [done|split; [rewrite Eo; cbn; lia|right; by right]]]. destruct S. apply down_sending; try done.
    unfold outs, waits in *. by rewrite (dn_out _ D), (dn_wait _ D) in *.
Qed.

Lemma fail_sending err fmt L b :
  Good cf L b -> err <> 0 -> safe (broker_fail cf en err fmt b) (fun b' => Sending L b' /\ rkb_now b' = rkb_now b).
Proof.
  intros G Herr. destruct (good_scan cf L b True G). eapply safe_mono; [by apply (fail_ok cf en CO 0 err fmt L b)|].
  intros b' (D & Hl & A & _ & N). split; [by apply down_sending|done].
Qed.

(** The counter of blocking requests when one was sent. *)
Definition count_blocking b r : broker :=
  if rkbuf_blocking r then
    let b := set_blocking_request_cnt (rkb_blocking_request_cnt b + 1) b in
    if rkb_blocking_request_cnt b =? 1 then rd_kafka_brokers_broadcast_state_change b else b
  else b.

Lemma count_blocking_eq b r :
  exists k, count_blocking b r = set_rk k (set_blocking_request_cnt (rkb_blocking_request_cnt b + (if rkbuf_blocking r then 1 else 0)) b).
Proof.
  unfold count_blocking. destruct (rkbuf_blocking r); [destruct (_ =? 1)|]; [by eexists|exists (rkb_rk b); by destruct b|].
  exists (rkb_rk b). rewrite Z.add_0_r. by destruct b.
Qed.

(** After the last byte: the request waits, or it is answered at once. *)
Lemma after_sent L b r l n t :
  Good cf L b -> outs b = r :: l -> begun (rkb_conn b) (rkb_corrid b) (log b) (zlen (waits b)) r ->
  let data := take n (zdrop (rkbuf_of r) (rkbuf_bytes r)) in
  let r2 := rq_of (rkbuf_of r + zlen data) r in
  let b1 := rd_kafka_transport_request_sent (set_first r2 (sent_bytes data b)) r2 in
  let r3 := rq_ts_sent t (rq_sent true r2) in
  zlen (rkbuf_bytes r2) - rkbuf_of r2 <= 0 ->
  safe (let! q := rd_kafka_bufq_deq (rkb_outbufs b1) r2 in
        let b2 := count_blocking (set_outbufs q b1) r3 in
        if negb (rkbuf_no_response r3) then Ret (set_waitresps (rd_kafka_bufq_enq (rkb_waitresps b2) r3) b2)
        else rd_kafka_buf_callback (broker_fail cf en) cf en true b2 0 None r3)
    (fun b' => Sending L b' /\ rkb_now b' = rkb_now b /\ (length (outs b') <= length l)%nat /\
       (rkb_corrid b' <= rkb_corrid b \/ stuck b')).
Proof.
  intros G Ho Hb data r2 b1 r3 Hre.
  destruct (whole_good L b r l n t G Ho Hb Hre) as (q & Hd & V2 & L2 & Ho2 & Hidle & A2 & Hcl). fold data r2 b1 r3 in Hd, V2, L2, Ho2, A2, Hcl.
  rewrite Hd. cbn [obind]. set (b2 := set_outbufs q b1) in *. destruct G as (Hv & Hl & A).
  pose proof (as_hand _ _ _ A2) as [[Hwf _ _] _]%Forall_cons.
  assert (rkb_corrid b2 = rkb_corrid b /\ rkb_conn b2 = rkb_conn b /\ waits b2 = waits b /\ rkb_now b2 = rkb_now b) as (E1 & E2 & E3 & E4) by done.
  pose proof (bg_online _ _ _ _ _ Hb) as [Ht Hst].
  assert (forall b' L', keeps b2 b' -> Good cf L' b' -> Sending L' b') as HS.
  { intros b' L' K G'. by apply (keeps_sending L' b2). }
  destruct (rkbuf_no_response r3) eqn:Hno; cbn [negb].
  - assert (rkbuf_blocking r3 = false) as Hbl by (destruct (rkbuf_blocking r3) eqn:E; [by rewrite (rw_flags _ _ Hwf E) in Hno|done]).
    unfold count_blocking. rewrite Hbl.
    assert (is_setup r3 = false) as Hs by (destruct (is_setup r3) eqn:E; [|done]; destruct (rw_setup _ _ Hwf E) as (_ & _ & H & _); congruence).
    rewrite (callback_client cf en 0) by done. eapply safe_mono; [by apply client_callback_ok|]. intros b' P.
    pose proof P as (_ & K & _). destruct (keeps_outs _ _ K) as [Eo _]. rewrite Eo, Ho2. split; [|split; [by destruct K|split; [done|left; by rewrite (kp_corrid _ _ K)]]].
    apply HS; [done|]. by apply (put_aside_good cf en L b2).
  - destruct (count_blocking_eq b2 r3) as (k & ->). cbn [safe]. split; [|split; [done|split; [by change (outs _) with (outs b2); rewrite Ho2|by left]]].
    match goal with |- Sending L ?x => set (b3 := x) end.
    assert (Live cf b3) as V3.
    { unfold b3. apply (live_add_wait cf b2 r3 _ k V2); try done.
      - constructor; [done|done|]. exists r2. rewrite Hcl. split; [apply elem_of_app; right; by apply list_elem_of_singleton|done].
      - rewrite E3. intros Hin. apply list_elem_of_fmap in Hin as (w & Hw & Hin). pose proof (lv_wait _ _ Hv) as F. rewrite Forall_forall in F.
        destruct (wo_logged _ _ (F w Hin)) as (r' & Hr' & _ & Hco & _). apply (bg_new _ _ _ _ _ Hb). unfold cur_log, conn_log in Hr'.
        apply list_elem_of_fmap in Hr' as (x & -> & [_ Hx]%list_elem_of_filter). unfold corrids. apply list_elem_of_fmap. exists x. split; [|done].
        change (rkbuf_corrid r) with (rkbuf_corrid r3). congruence.
      - rewrite E2, E3. by destruct Hb.
      - rewrite E3, Ho2. pose proof (lv_setup _ _ Hv) as Hse. rewrite Ho in Hse. cbn [app] in Hse. rewrite setups_cons in *.
        change (is_setup r3) with (is_setup r). by destruct (is_setup r).
      - intros Hs. rewrite E2. apply (lv_phase _ _ Hv). rewrite Ho. cbn [app]. rewrite setups_cons. change (is_setup r) with (is_setup r3). by rewrite Hs.
      - by rewrite Ho2. }
    constructor; [|done].
    split; [done|]. split; [by apply (log_same b2)|]. apply (aside_same _ _ b2); [done|].
    eapply aside_perm; [|exact A2]. change (outs b3) with (outs b2). change (waits b3) with (waits b2 ++ [r3]).
    rewrite <- app_assoc. cbn. rewrite !(app_assoc (outs b2)). apply Permutation_middle.
Qed.

Lemma send_loop_good L fuel : forall ws cnt b,
  Sending L b -> (rkb_corrid b + zlen ws < INT32_MAX \/ stuck b) -> (length (outs b) <= fuel)%nat ->
  safe (send_loop fuel cf en ws cnt b) (fun '(res, _, b') => Sending L b' /\ rkb_now b' = rkb_now b /\ (0 < res -> stuck b')).
Proof.
  assert (forall ws cnt b, Sending L b -> stuck b -> forall fuel, 
    safe (send_loop fuel cf en ws cnt b) (fun '(res, _, b') => Sending L b' /\ rkb_now b' = rkb_now b /\ (0 < res -> stuck b'))) as Hstuck.
  { intros ws cnt b S St f. destruct f; cbn [send_loop]; (destruct (_ && _) eqn:E; [|done]);
      (destruct St as [St|St]; [congruence|]); unfold outs in St; rewrite St; cbn [safe]; (split; [done|split; [done|by right]]). }
  induction fuel as [|fuel IH]; intros ws cnt b S Hc Hf.
  - apply Hstuck; [done|]. right. destruct (outs b); [done|cbn in Hf; lia].
  - destruct (state_ge_up (b_state b) && (rkbq_cnt (rkb_waitresps b) <? rkb_max_inflight (rkb_conn b))) eqn:Econd;
      [|by apply Hstuck; [|left]].
    destruct Hc as [Hc|?]; [|by apply Hstuck].
    destruct (outs b) as [|r l] eqn:Ho; [by apply Hstuck; [|right]|].
    cbn [send_loop]. rewrite Econd. fold (outs b). rewrite Ho. fold (supported (rkb_conn b) r).
    apply andb_true_iff in Econd as [Hup Hroom]. apply Z.ltb_lt in Hroom. pose proof S as [G Hon]. pose proof G as (Hv & Hl & A).
    rewrite (qo_cnt _ (lv_wait_cnt _ _ Hv)) in Hroom. fold (waits b) in Hroom.
    assert (online (rkb_conn b)) as Honl by (split; [by apply Hon|done]).
    assert (forall (m : outcome broker) ws' cnt' b0, rkb_now b0 = rkb_now b -> rkb_corrid b0 + zlen ws' < INT32_MAX ->
      safe m (fun b' => Sending L b' /\ rkb_now b' = rkb_now b0 /\ (length (outs b') <= length l)%nat /\ (rkb_corrid b' <= rkb_corrid b0 \/ stuck b')) ->
      safe (let! b' := m in send_loop fuel cf en ws' cnt' b')
        (fun '(res, _, b') => Sending L b' /\ rkb_now b' = rkb_now b /\ (0 < res -> stuck b'))) as Hnext.
    { intros m ws' cnt' b0 N0 Hc0 Hm. eapply safe_bind; [exact Hm|]. intros b' (S' & N' & Hl' & Hc').
      eapply safe_mono; [apply IH; [done| |cbn in Hf; lia]|].
      - destruct Hc' as [?|?]; [left; lia|by right].
      - intros [[res ws2] b2] (? & ? & ?). split; [done|]. split; [congruence|done]. }
    destruct (supported (rkb_conn b) r) eqn:Hs; cbn [negb].
    2: { pose proof (unsupported_good L b r l S Ho Hs) as U. destruct (rd_kafka_bufq_deq _ _) as [q| |]; try done. cbn [obind] in *.
         by apply (Hnext _ ws cnt b). }
    destruct (send_begin_good L b r l G Ho Honl Hroom ltac:(lia) Hs) as (r1 & b1 & Hbeg & Hb). unfold send_begin in Hbeg. rewrite Hbeg. cbn [obind]. clear Hbeg.
    cbn zeta in Hb. set (b2 := set_first r1 b1) in *. destruct Hb as (G2 & Ho2 & Hw2 & Hb2 & Hs2 & Ec2 & Hc2 & N2).
    assert (exists w ws', match ws with [] => (WR_bytes 0, []) | w :: ws => (w, ws) end = (w, ws') /\
      (w = WR_bytes 0 \/ rkb_corrid b2 + zlen ws' < INT32_MAX)) as (w & ws' & -> & Hw).
    { destruct ws as [|w ws']; eexists _, _; (split; [done|]); [by left|right]. cbn in Hc. lia. }
    unfold rd_kafka_broker_send. destruct Honl as [Htr Hst]. unfold b_state, b_transport. rewrite Ec2, Hst, Htr. cbn [obind].
    destruct w as [|n].
    + pose proof (fail_sending ERR__TRANSPORT (Some false) L b2 G2 ltac:(done)) as F.
      destruct (broker_fail cf en ERR__TRANSPORT (Some false) b2) as [b'| |]; try done. cbn [obind Z.eqb Pos.eqb safe] in *. cbv beta in F. destruct F as [? ?].
      split; [done|]. split; [congruence|lia].
    + set (data := take n (zdrop (rkbuf_of r1) (rkbuf_bytes r1))). cbv beta iota delta [obind].
      set (r2 := rq_of (rkbuf_of r1 + zlen data) r1). destruct (Z.eqb_spec (zlen data) (-1)); [lia|]. cbv zeta.
      destruct (Z.gtb_spec (zlen (rkbuf_bytes r2) - rkbuf_of r2) 0) as [Hre|Hre].
      * cbv beta iota delta [safe]. split; [|split; [exact N2|lia]]. pose proof (part_good L b2 r1 l n G2 Ho2 Hb2 Hs2 ltac:(by apply Z.lt_gt)) as G3.
        constructor; [exact G3|]. intros _. change (rkb_transport (rkb_conn b2) = true). by rewrite Ec2.
      * assert (rkb_corrid b2 + zlen ws' < INT32_MAX) as Hc3.
        { destruct Hw as [Hw|?]; [|done]. injection Hw as ->. exfalso. destruct (bg_of _ _ _ _ _ Hb2). assert (data = []) as Ed by done.
          change (zlen (rkbuf_bytes r1) - (rkbuf_of r1 + zlen data) <= 0) in Hre. rewrite Ed in Hre. cbn [length] in Hre. lia. }
        pose proof (after_sent L b2 r1 l n (rkb_now b2) G2 Ho2 Hb2 Hre) as U. fold data r2 in U.
        destruct (rd_kafka_bufq_deq _ _) as [q| |]; try done. cbn [obind] in U. by apply (Hnext _ ws' (cnt + 1) b2).
Qed.

Lemma send_good L ws b :
  Sending L b -> rkb_corrid b + zlen ws < INT32_MAX ->
  safe (rd_kafka_send cf en ws b) (fun '(res, _, b') => Sending L b' /\ rkb_now b' = rkb_now b /\ (0 < res -> stuck b')).
Proof. intros S Hc. apply send_loop_good; auto. Qed.

Lemma send_stuck ws b : stuck b -> rd_kafka_send cf en ws b = Ret (0, ws, b).
Proof.
  intros St. unfold rd_kafka_send. fold (outs b). destruct (length (outs b)); cbn [send_loop]; (destruct (_ && _) eqn:E; [|done]);
    (destruct St as [St|St]; [congruence|]); unfold outs in St; by rewrite St.
Qed.

(** A second call sends nothing. *)
Lemma send_all_good L ws b :
  Sending L b -> rkb_corrid b + zlen ws < INT32_MAX ->
  safe (send_all cf en ws b) (fun b' => Sending L b' /\ rkb_now b' = rkb_now b).
Proof.
  intros S Hc. unfold send_all. eapply safe_bind; [by apply (send_good L)|]. intros [[res ws'] b'] (S' & N & St).
  destruct (Z.gtb_spec res 0); [|done]. rewrite send_stuck by auto. done.
Qed.
End send.
