(* ===== verification/BrokerFrame.v ===== *)
(** * The broker thread: what only sending changes

    The clock, the kind of the broker and the counter of correlation ids are left
    alone by answers, failures, timeouts and connecting. *)
From Stdlib Require Import ZArith Lia.
From stdpp Require Import base numbers list.
From S2P Require Import Prelude.
From S2P Require Import Proto.
From S2P Require Import Feature.
From S2P Require Import BrokerState.
From S2P Require Import Broker.

Implicit Types (cf : conf) (en : env) (b : broker) (r : rkbuf).

Definition still b b' : Prop :=
  rkb_internal b' = rkb_internal b /\ rkb_corrid b' = rkb_corrid b /\ rkb_now b' = rkb_now b.

(** A computation that, if it returns, leaves them alone. *)
Definition stays b (m : outcome broker) : Prop := match m with Ret b' => still b b' | _ => True end.

Lemma broker_still_trans b1 b2 b3 : still b1 b2 -> still b2 b3 -> still b1 b3.
Proof. intros (? & ? & ?) (? & ? & ?). split_and!; congruence. Qed.

Lemma stays_bind b m k : stays b m -> (forall b', stays b' (k b')) -> stays b (obind m k).
Proof.
  intros Hm Hk. destruct m as [b'| |]; cbn; try done. specialize (Hk b'). destruct (k b'); try done. by eapply broker_still_trans.
Qed.

Lemma stays_any {A} b (m : outcome A) k : (forall x, stays b (k x)) -> stays b (obind m k).
Proof. destruct m; cbn; auto. Qed.

Lemma stays_from b b' m : still b b' -> stays b' m -> stays b m.
Proof. destruct m; cbn; try done. apply broker_still_trans. Qed.

Lemma set_state_still en s b : still b (rd_kafka_broker_set_state en s b).
Proof. unfold rd_kafka_broker_set_state. repeat case_if; by split_and!. Qed.

Lemma buf_retry_still cf own b r : still b (rd_kafka_broker_buf_retry cf own b r).
Proof. unfold rd_kafka_broker_buf_retry. repeat case_if; by split_and!. Qed.

Lemma client_callback_stays cf en own b err resp r : stays b (client_callback cf en own b err resp r).
Proof.
  assert (still b (run_client_cb cf en own b r err resp)) as H.
  { unfold run_client_cb. destruct (en_retry _ _ _ _); [|done]. destruct (rd_kafka_buf_retry _ _ _ _ _) as [b'|] eqn:E; [|done].
    unfold rd_kafka_buf_retry in E. cbv zeta in E. destruct (_ || _); [done|]. destruct (_ && _); [done|]. injection E as <-. apply buf_retry_still. }
  unfold client_callback. repeat (case_if || case_match); done.
Qed.

Lemma enq_replyq_stays cf en own b n : stays b (rd_kafka_broker_buf_enq_replyq cf en own b n).
Proof.
  unfold rd_kafka_broker_buf_enq_replyq, client_request, fresh_id. apply stays_any. intros r. destruct own; [|done].
  unfold rd_kafka_broker_buf_enq2. destruct (rkb_internal _); [|done].
  eapply stays_from; [|apply client_callback_stays]. done.
Qed.

Lemma enq_all_stays cf en l b : stays b (enq_all cf en l b).
Proof. revert b. induction l; intros b; cbn [enq_all]; [done|]. apply stays_bind; [apply enq_replyq_stays|done]. Qed.

Lemma connect_up_stays cf en b : stays b (rd_kafka_broker_connect_up cf en b).
Proof.
  unfold rd_kafka_broker_connect_up. eapply stays_from; [|apply enq_all_stays].
  eapply broker_still_trans; [|apply set_state_still]. done.
Qed.

Section fail.
Context (fail : Z -> option bool -> broker -> outcome broker) (cf : conf) (en : env).
Context (Hfail : forall err fmt b, stays b (fail err fmt b)).

Lemma connect_auth_stays b : stays b (rd_kafka_broker_connect_auth fail cf en b).
Proof.
  unfold rd_kafka_broker_connect_auth. case_if; [|apply connect_up_stays]. case_if.
  - unfold rd_kafka_SaslHandshakeRequest, fresh_id. case_match. eapply stays_from; [apply (set_state_still en STATE_AUTH_HANDSHAKE)|].
    unfold rd_kafka_broker_buf_enq1. by apply stays_any.
  - case_if; [eapply stays_from; [apply set_state_still|apply Hfail]|]. cbn. eapply broker_still_trans; apply set_state_still.
Qed.

Lemma callback_stays own b err resp r : stays b (rd_kafka_buf_callback fail cf en own b err resp r).
Proof.
  unfold rd_kafka_buf_callback. case_if; [apply client_callback_stays|].
  assert (stays b (rd_kafka_broker_handle_ApiVersion fail cf en b err resp)) as H1.
  { unfold rd_kafka_broker_handle_ApiVersion. case_if; [done|]. apply stays_any. intros [e|apis]; [case_if; [apply Hfail|done]|].
    eapply stays_from; [|apply connect_auth_stays]. done. }
  assert (stays b (rd_kafka_broker_handle_SaslHandshake fail cf en b err resp)) as H2.
  { unfold rd_kafka_broker_handle_SaslHandshake. case_if; [done|]. apply stays_any. intros e. case_if; [apply Hfail|apply connect_auth_stays]. }
  destruct (rkbuf_cb r) as [[]|]; try apply client_callback_stays; (destruct own; [|done]); by apply stays_bind.
Qed.

Lemma purge_stays l err b : stays b (bufq_purge_loop fail cf en l err b).
Proof. revert b. induction l; intros b; cbn [bufq_purge_loop]; [done|]. apply stays_bind; [apply callback_stays|done]. Qed.

Lemma reset_loop_stays n cur b : stays b (connection_reset_loop fail cf en n cur b).
Proof.
  revert cur b. induction n as [|n IH]; intros [id|] b; cbn [connection_reset_loop]; try done.
  destruct (find_buf id _) as [[r tmp]|]; [|done]. case_if.
  - apply stays_any. intros q. apply stays_bind; [|done]. eapply stays_from; [|apply callback_stays]. done.
  - eapply stays_from; [|apply IH]. done.
Qed.
End fail.

Lemma fail_close_still cf en err fmt b : still b (fail_close cf en err fmt b).
Proof. unfold fail_close. cbv zeta. eapply broker_still_trans; [|apply set_state_still]. repeat (case_if || case_match); done. Qed.

Lemma fail_stays n cf en err fmt b : stays b (rd_kafka_broker_fail n cf en err fmt b).
Proof.
  revert err fmt b. induction n as [|n IH]; intros err fmt b; [done|]. cbn [rd_kafka_broker_fail].
  eapply stays_from; [apply (fail_close_still cf en err fmt)|]. cbn [rd_kafka_bufq_concat].
  unfold rd_kafka_bufq_purge. apply stays_bind; [eapply stays_from; [|by apply purge_stays]; done|]. intros b1.
  apply stays_bind; [by apply purge_stays|]. intros b2. apply stays_bind; [by apply reset_loop_stays|]. intros b3.
  repeat (case_if || case_match); done.
Qed.

Lemma broker_fail_stays cf en err fmt b : stays b (broker_fail cf en err fmt b).
Proof. apply fail_stays. Qed.

Lemma req_response_stays cf en b CorrId body : stays b (rd_kafka_req_response cf en b CorrId body).
Proof.
  unfold rd_kafka_req_response, rd_kafka_waitresp_find. destruct (find_corrid _ _) as [r|]; [|done].
  destruct (rd_kafka_bufq_deq _ _) as [q| |]; cbn [obind]; try done.
  eapply stays_from; [|apply callback_stays, broker_fail_stays]. repeat case_if; done.
Qed.

(** Reading returns a number with the broker. *)
Definition stays2 b (m : outcome (Z * broker)) : Prop := match m with Ret (_, b') => still b b' | _ => True end.

Lemma recv_stays cf en b x : stays2 b (rd_kafka_recv cf en b x).
Proof.
  assert (forall (m : outcome broker) b1 z, still b b1 -> stays b1 m -> stays2 b (let! b := m in Ret (z, b))) as Hb.
  { intros m b1 z H1 Hm. destruct m; cbn in *; try done. by eapply broker_still_trans. }
  assert (forall v b1, still b b1 -> stays2 b (recv_complete cf en v b1)) as Hc.
  { intros v b1 H1. unfold recv_complete. case_if; [|done]. eapply Hb; [|apply req_response_stays]. done. }
  unfold rd_kafka_recv, rd_kafka_broker_conn_closed. destruct x as [|d|n].
  - eapply (Hb _ b); [done|]. eapply stays_from; [|apply broker_fail_stays]. done.
  - eapply (Hb _ b); [done|]. eapply stays_from; [|apply broker_fail_stays]. done.
  - destruct (take _ _); [done|]. repeat case_if; try done; [|by apply Hc..].
    eapply Hb; [|apply broker_fail_stays]. done.
Qed.

Lemma recv_loop_stays cf en rs b : stays b (recv_loop cf en rs b).
Proof.
  revert b. induction rs as [|x rs IH]; intros b; cbn [recv_loop]; (case_if; [|done]).
  - pose proof (recv_stays cf en b (RR_bytes 0)) as H. by destruct (rd_kafka_recv _ _ _ _) as [[]| |].
  - pose proof (recv_stays cf en b x) as H. destruct (rd_kafka_recv _ _ _ _) as [[z b1]| |]; cbn in *; try done.
    case_if; [|done]. by eapply stays_from.
Qed.
