(* ===== verification/BrokerRecv.v ===== *)
(** * The broker thread: receiving keeps the invariant

    The bytes of a connection are taken apart into the responses they consist of,
    however they arrive, and each response goes to the request that waits under its
    correlation id. *)
From Stdlib Require Import ZArith Lia.
From stdpp Require Import base numbers list.
From S2P Require Import Prelude.
From S2P Require Import Proto.
From S2P Require Import Feature.
From S2P Require Import BrokerState.
From S2P Require Import Broker.
From S2P Require Import BrokerInv.
From S2P Require Import BrokerConn.
From S2P Require Import BrokerScan.
From S2P Require Import BrokerFrame.

Implicit Types (cf : conf) (en : env) (b : broker) (r : rkbuf).

(** ** Headers *)

Lemma be_dec_bound l : bytes_ok l -> 0 <= be_dec l < 256 ^ zlen l.
Proof.
  induction 1 as [|x l Hx Hl IH]; [done|]. rewrite be_dec_cons by done. destruct Hx as [? ?]. cbn [length].
  rewrite Nat2Z.inj_succ, Z.pow_succ_r by lia. nia.
Qed.

Lemma be_dec_inj l l' : bytes_ok l -> bytes_ok l' -> length l = length l' -> be_dec l = be_dec l' -> l = l'.
Proof.
  intros Hl. revert l'. induction Hl as [|x l Hx Hl IH]; intros [|y l'] Hl' Hlen Heq; try done. cbn in Hlen.
  apply Forall_cons in Hl' as [Hy Hl']. rewrite !be_dec_cons in Heq by done. pose proof (be_dec_bound l Hl). pose proof (be_dec_bound l' Hl').
  replace (zlen l') with (zlen l) in * by lia. assert (x = y) as -> by nia. f_equal. apply IH; [done|lia|lia].
Qed.

(** Reading a 32-bit number and writing it again. *)
Lemma be_enc_s32 l : bytes_ok l -> length l = 4%nat -> be_enc 4 (s32 (be_dec l)) = l.
Proof.
  intros Hl H4. apply be_dec_inj; [apply be_enc_ok|done|by rewrite be_enc_length|]. rewrite be_dec_enc.
  pose proof (be_dec_bound l Hl) as Hb. rewrite H4 in Hb. change (256 ^ Z.of_nat 4) with (2 ^ 32) in *.
  pose proof (swrap_cong 32 (be_dec l) ltac:(lia)) as E. unfold uwrap in E. rewrite E. by apply Z.mod_small.
Qed.

(** ** The response being read *)

Definition open_state (s : broker_state) : Prop := s <> STATE_INIT /\ s <> STATE_DOWN /\ s <> STATE_CONNECT.

Lemma ge_up_open s : state_ge_up s = true -> open_state s.
Proof. by destruct s. Qed.

Lemma live_rx cf b v w :
  Live cf b -> open_state (b_state b) -> tx_bytes w = tx_bytes (rkb_wire b) -> tx_log w = log b ->
  Rx cf (cn_recv_buf v (rkb_conn b)) w -> Live cf (set_wire w (up_conn (cn_recv_buf v) b)).
Proof.
  intros [] (H1 & H2 & H3) Ht Hl Hr. set (b' := set_wire _ _).
  assert (cur_log b' = cur_log b) as Hc by (unfold cur_log, log; cbn; by rewrite Hl).
  constructor; rewrite ?Hc; try done.
  - eapply head_ok_impl; [|exact lv_head]. intros r [Hon ? ? ? ? ? ? ?]. constructor; try done. unfold b', log. cbn. by rewrite Hl.
  - by intros [? | ?].
  - intros Hk. cbn. rewrite Ht. by apply lv_tx.
Qed.

Lemma good_rx cf L b v w :
  Good cf L b -> open_state (b_state b) -> tx_bytes w = tx_bytes (rkb_wire b) -> tx_log w = log b ->
  Rx cf (cn_recv_buf v (rkb_conn b)) w -> Good cf L (set_wire w (up_conn (cn_recv_buf v) b)).
Proof.
  intros (Hv & Hl & A) Hs Ht Hlog Hr. split; [by apply live_rx|]. split; [by apply (log_same b)|]. by apply (aside_same _ _ b).
Qed.

(** ** Finding the request *)

Lemma find_corrid_at corrid l r :
  find_corrid corrid l = Some r -> exists pre suf, l = pre ++ r :: suf /\ rkbuf_corrid r = corrid.
Proof.
  induction l as [|x l IH]; cbn; [done|]. destruct (Z.eqb_spec (rkbuf_corrid x) corrid).
  - intros [= ->]. by exists [], l.
  - intros H. destruct (IH H) as (pre & suf & -> & ?). by exists (x :: pre), suf.
Qed.

Lemma bufq_nil q : bufq_ok q -> rkbq_bufs q = [] -> q = rd_kafka_bufq_init.
Proof. intros [Hc Hm] H. destruct q as [l c m]. cbn in *. subst l. cbn in *. by subst. Qed.

(** Without the request that sets it up, a connection is idle. *)
Lemma drop_setup_fresh cf b q r n k :
  Live cf b -> waits b = [r] -> is_setup r = true -> rkbuf_blocking r = false -> rkbq_bufs q = [] -> bufq_ok q ->
  n = rkb_blocking_request_cnt b -> Fresh cf (set_rk k (set_blocking_request_cnt n (set_waitresps q b))).
Proof.
  intros Hv Hw Hs Hbl Hq Hqo Hn. destruct Hv. rewrite Hw in *.
  assert (setups (outs b ++ [r]) <> []) as Hne by (rewrite setups_app, setups_cons, Hs; by destruct (setups (outs b))).
  destruct (lv_phase Hne) as [Hst Hm]. destruct (lv_wait_online ltac:(done)) as [Ht Hup].
  assert (Forall idle (outs b)) as Hidle.
  { destruct (outs b) as [|x l]; [done|]. destruct lv_head as [[?|Hb] ?]; [by constructor|]. destruct Hb. cbn in bg_room. lia. }
  destruct (idle_head (fun _ => False) _ Hidle) as [_ Hp]. constructor; try done.
  - cbn. by apply bufq_nil.
  - rewrite setups_app, setups_cons, Hs in lv_setup. change (outs _) with (outs b). rewrite length_app in lv_setup. cbn in lv_setup.
    destruct (setups (outs b)); [done|]. cbn in lv_setup. lia.
  - cbn. rewrite Hn, lv_blocking, filter_cons, Hbl. done.
  - cbn. rewrite lv_tx, Hp, app_nil_r; [done|]. split; [done|]. intros E. by rewrite E in Hup.
Qed.

Section recv.
Context (cf : conf) (en : env) (CO : conf_ok cf) (EO : env_ok cf en).

(** The request that waits under the id is taken out of the queue. *)
Lemma waitresp_find_ok L b corrid :
  Good cf L b ->
  find_corrid corrid (waits b) = None /\ rd_kafka_waitresp_find b corrid = Ret (None, b) \/
  exists pre r suf q k, waits b = pre ++ r :: suf /\ rkbuf_corrid r = corrid /\ rkbq_bufs q = pre ++ suf /\ bufq_ok q /\
    let r' := rq_ts_sent (rkb_now b - rkbuf_ts_sent r) r in
    let b' := set_rk k (set_blocking_request_cnt (rkb_blocking_request_cnt b - (if rkbuf_blocking r then 1 else 0)) (set_waitresps q b)) in
    rd_kafka_waitresp_find b corrid = Ret (Some r', b') /\ Live cf b' /\ Log b' /\ Aside cf (r' :: outs b ++ (pre ++ suf) ++ L) b'.
Proof.
  intros (Hv & Hl & A). unfold rd_kafka_waitresp_find. fold (waits b). destruct (find_corrid corrid (waits b)) as [r|] eqn:E; [right|by left].
  destruct (find_corrid_at _ _ _ E) as (pre & suf & Hw & Hc). destruct (aside_queue_nodup _ _ _ A) as (_ & N & _). rewrite Hw in N.
  set (r' := rq_ts_sent _ r).
  destruct (deq_ok (rkb_waitresps b) pre r r' suf (lv_wait_cnt _ _ Hv) Hw (nodup_at _ _ _ N)) as (q & Hd & Hqb & Hqo); [done..|].
  match goal with |- context [if rkbuf_blocking r' then ?x else b] => set (b1 := if rkbuf_blocking r' then x else b) end.
  assert (rkb_waitresps b1 = rkb_waitresps b) as E1 by (unfold b1; cbn; repeat case_if; done).
  assert (exists k, set_waitresps q b1 = set_rk k (set_blocking_request_cnt (rkb_blocking_request_cnt b - (if rkbuf_blocking r then 1 else 0)) (set_waitresps q b))) as (k & Ek).
  { exists (rkb_rk b1). unfold b1. change (rkbuf_blocking r') with (rkbuf_blocking r). destruct (rkbuf_blocking r); [case_if; by destruct b|].
    rewrite Z.sub_0_r. by destruct b. }
  exists pre, r, suf, q, k. split_and!; try done; cbn zeta.
  - rewrite E1, Hd. cbn [obind]. by rewrite Ek.
  - by apply (live_drop_wait cf b q pre r suf).
  - by apply (log_same b).
  - apply (aside_same _ _ b); [done|]. apply (aside_hand cf _ _ _ A).
    + rewrite Hw. unfold r'. count_ids.
    + pose proof (as_hand _ _ _ A) as F. rewrite Hw in F. rewrite !Forall_app, Forall_cons in F. destruct F as (F4 & (F1 & F2 & F3) & F5).
      constructor; [by apply hand_ok_ts|]. rewrite !Forall_app. by split_and!.
Qed.

Lemma req_response_good L b corrid body :
  Good cf L b -> open_state (b_state b) -> safe (rd_kafka_req_response cf en b corrid body) (Good cf L).
Proof.
  intros G Hos. unfold rd_kafka_req_response.
  destruct (waitresp_find_ok L b corrid G) as [[_ ->]|(pre & r & suf & q & k & Hw & Hc & Hqb & Hqo & Hf)].
  - cbn [obind safe]. destruct G as (Hv & Hl & A).
    assert (keeps0 : Live cf (rx_error b)).
    { unfold rx_error. pose proof (live_rx cf b (rkb_recv_buf (rkb_conn b)) (mk_wire (tx_bytes (rkb_wire b)) (tx_log (rkb_wire b)) (rx_pending (rkb_wire b))
        (rx_bytes (rkb_wire b)) (rx_log (rkb_wire b)) (rx_corrid_err (rkb_wire b) + 1)) Hv Hos eq_refl eq_refl) as H.
      assert (set_wire (mk_wire (tx_bytes (rkb_wire b)) (tx_log (rkb_wire b)) (rx_pending (rkb_wire b)) (rx_bytes (rkb_wire b)) (rx_log (rkb_wire b))
        (rx_corrid_err (rkb_wire b) + 1)) (up_conn (cn_recv_buf (rkb_recv_buf (rkb_conn b))) b) = rx_error b) as E by (by destruct b as [[]]).
      rewrite E in H. apply H. destruct Hv. destruct lv_rx. by constructor. }
    split; [done|]. split; [by apply (log_same b)|]. by apply (aside_same _ _ b).
  - cbn zeta in Hf. set (r' := rq_ts_sent _ r) in *. set (b' := set_rk _ _) in *. destruct Hf as (-> & V' & L' & A'). cbn [obind].
    assert (waits b' = pre ++ suf /\ outs b' = outs b) as [Ew Eo] by done.
    destruct (is_setup r') eqn:Hs.
    + destruct G as (Hv & Hl & A). assert (is_setup r = true) as Hsr by done.
      assert (setups (outs b ++ waits b) <> []) as Hne.
      { rewrite Hw, !setups_app, setups_cons, Hsr. by destruct (setups (outs b)), (setups pre). }
      destruct (lv_phase _ _ Hv Hne) as [Hst Hm]. pose proof (lv_inflight _ _ Hv) as Hi. rewrite Hm, Hw, length_app in Hi. cbn in Hi.
      destruct pre; [|cbn in Hi; lia]. destruct suf; [|cbn in Hi; lia]. cbn [app] in *.
      pose proof (as_hand _ _ _ A') as [[Hwf _ _] _]%Forall_cons. destruct (rw_setup _ _ Hwf Hs) as (_ & _ & _ & Hbl & _).
      apply (callback_setup cf en CO EO 0 L b' body r'); [done| |done|by rewrite Eo].
      apply (drop_setup_fresh cf b q r _ k Hv Hw Hsr); try done. change (rkbuf_blocking r') with (rkbuf_blocking r) in Hbl. rewrite Hbl. lia.
    + rewrite (callback_client cf en 0) by done. eapply safe_mono; [apply client_callback_ok; done|]. intros b2 P.
      apply (put_aside_good cf en L b' b2 V' L'). by rewrite Ew, Eo.
Qed.

Definition cur_recv b : recv_buf := match rkb_recv_buf (rkb_conn b) with Some v => v | None => mk_recv [] 0 0 end.

(** The wire after [n] bytes were read. *)
Definition read_wire (n : nat) (log : list (Z * list Z)) b : wire :=
  let w := rkb_wire b in
  mk_wire (tx_bytes w) (tx_log w) (drop n (rx_pending w)) (rx_bytes w ++ take n (rx_pending w)) (rx_log w ++ log) (rx_corrid_err w).

(** The response is read further, or it is complete. *)
Lemma read_good L b n v log :
  Good cf L b -> open_state (b_state b) -> match v with None => True | Some v => recv_ok cf v end ->
  rv_bytes (cur_recv b) ++ take n (rx_pending (rkb_wire b)) = concat (map response_frame log) ++ recv_part v ->
  Forall (fun x => zlen x.2 + 4 <= cf_recv_max_msg_size cf) log ->
  Good cf L (set_wire (read_wire n log b) (up_conn (cn_recv_buf v) b)).
Proof.
  intros G Hos Hv Hby Hsz. apply good_rx; try done. destruct G as (Hlive & _ & _). destruct (lv_rx _ _ Hlive) as [Hs Hr Hz Hd].
  constructor; [|done|intros Ht; apply Forall_app; by split; [apply Hz|]|cbn; by apply Forall_drop]. intros Ht. cbn. rewrite (Hs Ht), map_app, concat_app, <- !app_assoc. f_equal. rewrite <- Hby. f_equal.
  unfold cur_recv. by destruct (rkb_recv_buf (rkb_conn b)).
Qed.

Lemma cur_recv_ok b : Live cf b -> recv_ok cf (cur_recv b).
Proof.
  intros Hv. destruct (lv_rx _ _ Hv) as [_ Hr _ _]. unfold cur_recv. destruct (rkb_recv_buf (rkb_conn b)); [done|].
  split; [constructor|]. left. cbn. lia.
Qed.

(** A response with its header. *)
Lemma response_whole v :
  take 8 (rv_bytes v) = be_enc 4 (rv_totlen v + 4) ++ be_enc 4 (rv_CorrId v) -> zlen (rv_bytes v) = 8 + rv_totlen v -> 0 <= rv_totlen v ->
  response_frame (rv_CorrId v, zdrop RESHDR_SIZE (rv_bytes v)) = rv_bytes v.
Proof.
  intros Hh Hl Ht. unfold response_frame, zdrop, RESHDR_SIZE. cbn [fst snd]. change (Z.to_nat (4 + 4)) with 8%nat.
  replace (zlen (drop 8 (rv_bytes v)) + 4) with (rv_totlen v + 4) by (rewrite length_drop; lia).
  rewrite app_assoc, <- Hh. apply take_drop.
Qed.

(** A response of which [n] more bytes were read. *)
Lemma recv_complete_good L b n v :
  Good cf L b -> open_state (b_state b) -> bytes_ok (rv_bytes v) ->
  rv_bytes v = rv_bytes (cur_recv b) ++ take n (rx_pending (rkb_wire b)) ->
  8 <= zlen (rv_bytes v) <= 8 + rv_totlen v -> rv_totlen v + 4 <= cf_recv_max_msg_size cf ->
  take 8 (rv_bytes v) = be_enc 4 (rv_totlen v + 4) ++ be_enc 4 (rv_CorrId v) -> s_ok 32 (rv_CorrId v) ->
  safe (recv_complete cf en v (took_bytes n (up_conn (cn_recv_buf (Some (cur_recv b))) b))) (fun '(_, b') => Good cf L b').
Proof.
  intros G Hos Hok Hby Hlen Hmax Hh Hs. unfold recv_complete, RESHDR_SIZE. change (4 + 4) with 8.
  destruct (Z.eqb_spec (zlen (rv_bytes v) - 8) (rv_totlen v)) as [E|E].
  - pose proof (read_good L b n None [(rv_CorrId v, zdrop RESHDR_SIZE (rv_bytes v))] G Hos I) as G'.
    specialize (G' ltac:(cbn [map concat recv_part]; rewrite !app_nil_r, response_whole by (done || lia); done)).
    specialize (G' ltac:(apply Forall_singleton; cbn; unfold zdrop; rewrite length_drop; change (Z.to_nat RESHDR_SIZE) with 8%nat; lia)).
    eapply safe_bind; [apply (req_response_good L); [exact G'|exact Hos]|]. intros b' Hb'. exact Hb'.
  - cbn [safe]. pose proof (read_good L b n (Some v) [] G Hos) as G'. unfold read_wire in G'. rewrite app_nil_r in G'. apply G'; [|by rewrite <- Hby|constructor].
    split; [done|]. right. split; [lia|]. done.
Qed.

Lemma fail_read L b n err fmt v :
  Good cf L b -> err <> 0 -> safe (broker_fail cf en err fmt (took_bytes n (up_conn (cn_recv_buf v) b))) (Good cf L).
Proof.
  intros G Herr. destruct (good_scan cf L b True G).
  eapply safe_mono; [apply (fail_ok cf en CO 0 err fmt L)|by intros b'; apply going_down_good]; try done.
  - by apply (log_same b).
  - cbn. by apply Forall_drop.
  - by apply (aside_same _ _ b).
Qed.

Lemma recv_took_none b : took_bytes 0 b = b.
Proof. destruct b as [? ? ? ? ? ? ? ? ? ? []]. unfold took_bytes. cbn. by rewrite app_nil_r. Qed.

Lemma recv_good L b x :
  Good cf L b -> open_state (b_state b) -> safe (rd_kafka_recv cf en b x) (fun '(_, b') => Good cf L b').
Proof.
  intros G Hos. pose proof G as (Hv & Hl & A). pose proof (cur_recv_ok b Hv) as [Hok Hr]. pose proof (rx_data _ _ _ (lv_rx _ _ Hv)) as Hd.
  unfold rd_kafka_recv. fold (cur_recv b). set (v := cur_recv b) in *. assert (forall q, safe (broker_fail cf en ERR__TRANSPORT (Some q) (up_conn (cn_recv_buf (Some v)) b)) (Good cf L)) as F.
  { intros q. pose proof (fail_read L b 0 ERR__TRANSPORT (Some q) (Some v) G ltac:(done)) as F. by rewrite recv_took_none in F. }
  destruct x as [|d|n].
  - eapply safe_bind; [apply F|]. intros b' Hb'. exact Hb'.
  - unfold rd_kafka_broker_conn_closed. eapply safe_bind; [apply F|]. intros b' Hb'. exact Hb'.
  - set (n' := Nat.min n (Z.to_nat (write_remains v))). change (rx_pending (rkb_wire (up_conn _ b))) with (rx_pending (rkb_wire b)).
    set (data := take n' (rx_pending (rkb_wire b))).
    assert (length data <= n')%nat as Hdl by (unfold data; rewrite length_take; lia).
    assert (bytes_ok data) as Hdo by (by apply Forall_take).
    assert (bytes_ok (rv_bytes v ++ data)) as Hvo by (by apply Forall_app).
    destruct data as [|y data'] eqn:Edata.
    + cbn [safe]. pose proof (read_good L b n' (Some v) [] G Hos) as G'. unfold read_wire in G'. rewrite app_nil_r in G'. apply G'; [done|..].
      { change (rv_bytes v ++ data = rv_bytes v). by rewrite Edata, app_nil_r. }
      constructor.
    + rewrite <- Edata in *. clear Edata y data'. unfold write_remains, RESHDR_SIZE in *. change (4 + 4) with 8 in *. cbn [rv_totlen rv_bytes rv_CorrId].
      assert (zlen (rv_bytes v ++ data) = zlen (rv_bytes v) + zlen data) as Elen by (rewrite length_app; lia).
      destruct (Z.eqb_spec (rv_totlen v) 0) as [E0|E0].
      * destruct Hr as [[Hlt _]|(? & _)]; [|lia]. destruct (Z.ltb_spec (zlen (rv_bytes v)) 8); [|lia].
        destruct (Z.ltb_spec (zlen (rv_bytes v ++ data)) 8) as [H8|H8].
        -- cbn [safe]. pose proof (read_good L b n' (Some (mk_recv (rv_bytes v ++ data) (rv_totlen v) (rv_CorrId v))) [] G Hos) as G'.
           unfold read_wire in G'. rewrite app_nil_r in G'. apply G'; [|done|constructor]. split; [done|]. left. done.
        -- set (bs := rv_bytes v ++ data) in *. assert (zlen bs = 8) as Hb8 by lia.
           set (Size := s32 (be_dec (take 4 bs))). set (CorrId := s32 (be_dec (take 4 (drop 4 bs)))).
           destruct ((u64 Size <? 4) || _) eqn:Ebad.
           ++ eapply safe_bind; [by apply (fail_read L)|]. intros b' Hb'. exact Hb'.
           ++ bool_hyps. pose proof (co_recv_size _ CO). pose proof (swrap_ok 32 (be_dec (take 4 bs)) ltac:(lia)) as Hsz. fold Size in Hsz.
              assert (u64 Size = Size) as Eu.
              { destruct (Z.lt_ge_cases Size 0) as [Hneg|?]; [|apply uwrap_id; unfold u_ok, s_ok in *; lia].
                exfalso. unfold uwrap, s_ok in *. rewrite <- (Z.mod_add Size 1) in * by lia. rewrite Z.mod_small in * by lia. lia. }
              rewrite Eu in *. assert (length bs = 8%nat) as Hl8 by lia.
              assert (take 4 bs = be_enc 4 Size) as E4 by (symmetry; apply be_enc_s32; [by apply Forall_take|rewrite length_take; lia]).
              assert (take 4 (drop 4 bs) = be_enc 4 CorrId) as E5
                by (symmetry; apply be_enc_s32; [by apply Forall_take, Forall_drop|rewrite length_take, length_drop; lia]).
              apply recv_complete_good; cbn [rv_bytes rv_totlen rv_CorrId]; try done; try lia.
              ** replace (Size - 4 + 4) with Size by lia. rewrite <- E4, <- E5. symmetry. apply (take_take_drop bs 4 4).
              ** by apply swrap_ok.
      * destruct Hr as [[_ ?]|(Hlt & Hmax & Hh & Hc)]; [done|]. destruct (Z.ltb_spec (zlen (rv_bytes v)) 8); [lia|].
        apply recv_complete_good; cbn [rv_bytes rv_totlen rv_CorrId]; try done; try lia.
        rewrite <- Hh. rewrite take_app_le by lia. done.
Qed.

Lemma recv_loop_good L rs b : Good cf L b -> safe (recv_loop cf en rs b) (Good cf L).
Proof.
  revert b. induction rs as [|x rs IH]; intros b G; cbn [recv_loop]; (destruct (state_ge_up (b_state b)) eqn:E; [|done]); apply ge_up_open in E.
  - eapply safe_bind; [by apply (recv_good L)|]. by intros [].
  - eapply safe_bind; [by apply (recv_good L)|]. intros [res b'] G'. case_if; [by apply IH|done].
Qed.
End recv.
