(* ===== verification/BrokerRun.v ===== *)
(** * The broker thread: every step keeps the invariant

    A run is one in which the surroundings keep their promises ([promised]: the
    clock does not read 0, the counter of correlation ids is not exhausted,
    requests are not larger than allowed, and responses that set up the connection do not
    crash their parsers), and in which the two situations do not occur that the code
    does not handle ([handled]). *)
From Stdlib Require Import ZArith Lia.
From stdpp Require Import base numbers list.
From S2P Require Import Prelude.
From S2P Require Import Proto.
From S2P Require Import Feature.
From S2P Require Import BrokerState.
From S2P Require Import Broker.
From S2P Require Import BrokerInv.
From S2P Require Import BrokerConn.
From S2P Require Import BrokerScan.
From S2P Require Import BrokerSend.
From S2P Require Import BrokerFrame.
From S2P Require Import BrokerRecv.

Implicit Types (cf : conf) (en : env) (b : broker) (r : rkbuf).

(** ** Without a connection *)

Lemma is_state_true s t : is_state s t = true -> s = t.
Proof. unfold is_state. by intros ?%bool_decide_eq_true. Qed.

(** Before a connection can carry requests, none is being sent or waits. *)
Lemma offline_idle cf b :
  Live cf b -> state_ge_up (b_state b) = false ->
  Forall idle (outs b) /\ rkb_waitresps b = rd_kafka_bufq_init /\ setups (outs b) = [] /\ rkb_blocking_request_cnt b = 0.
Proof.
  intros [] Hoff. assert (~ online (rkb_conn b)) as Hn by (intros [_ ?]; unfold b_state in *; congruence).
  assert (waits b = []) as Hw by (destruct (waits b); [done|]; by destruct Hn; apply lv_wait_online).
  assert (Forall idle (outs b)) as Hi.
  { destruct (outs b) as [|x l]; [done|]. destruct lv_head as [[?|[]] ?]; [by constructor|done]. }
  split; [done|]. split; [by apply bufq_nil|]. rewrite Hw, app_nil_r in *. split; [|by rewrite lv_blocking].
  destruct (setups (outs b)); [done|]. destruct lv_phase as [[H|H] _]; [done|..]; unfold b_state in Hoff; by rewrite H in Hoff.
Qed.

(** A change of the wire. *)
Lemma live_wire cf b w :
  Live cf b -> tx_bytes w = tx_bytes (rkb_wire b) -> tx_log w = log b -> Rx cf (rkb_conn b) w -> Live cf (set_wire w b).
Proof.
  intros [] Ht Hl Hr. set (b' := set_wire _ _).
  assert (cur_log b' = cur_log b) as Hc by (unfold cur_log, log; cbn; by rewrite Hl).
  constructor; rewrite ?Hc; try done.
  - eapply head_ok_impl; [|exact lv_head]. intros r [Hon ? ? ? ? ? ? ?]. constructor; try done. unfold b', log. cbn. by rewrite Hl.
  - intros Hs. cbn. rewrite Ht. by apply lv_connect.
  - intros Hk. cbn. rewrite Ht. by apply lv_tx.
Qed.

Section run.
Context (cf : conf) (en : env) (CO : conf_ok cf) (EO : env_ok cf en).

(** ** Connecting *)

Lemma connect_good L b res :
  Good cf L b -> b_state b = STATE_INIT \/ b_state b = STATE_DOWN -> safe (rd_kafka_broker_connect cf en b res) (Good cf L).
Proof.
  intros G Hs. pose proof G as (Hv & Hl & A). destruct (lv_down _ _ Hv Hs) as [Ht Hr].
  destruct res as [q|q|]; unfold rd_kafka_broker_connect; [by apply fail_good|rewrite Ht; cbn [negb]; destruct q; by apply fail_good|].
  rewrite Ht. cbn [negb safe]. destruct (set_state_eq en STATE_CONNECT (new_connection b)) as (d & k & ->). set (b' := set_rk _ _).
  destruct (offline_idle cf b Hv ltac:(destruct Hs as [-> | ->]; done)) as (Hi & Hw & Hse & Hbl).
  assert (Live cf b') as V'.
  { destruct Hv. destruct (idle_head (begun (rkb_conn b') (rkb_corrid b') (log b') (zlen (waits b'))) _ Hi) as [Hh Hp].
    assert (waits b' = []) as Hw' by (unfold waits; cbn; by rewrite Hw).
    constructor; rewrite ?Hw', ?app_nil_r; try done.
    - by rewrite Hw' in Hh.
    - constructor.
    - cbn. lia.
    - change (outs b') with (outs b). by rewrite Hse.
    - intros [?|?]; done.
    - by intros [_ ?].
    - constructor; cbn; rewrite ?Hr; try done; constructor. }
  split; [done|]. split; [by apply (log_same b)|]. by apply (aside_same _ _ b).
Qed.

Lemma conn_log_new connid lg : Forall (fun x => x.1 <= connid) lg -> conn_log (connid + 1) lg = [].
Proof.
  unfold conn_log. induction 1 as [|x l Hx _ IH]; [done|]. rewrite filter_cons, decide_False by lia. exact IH.
Qed.

Lemma connect_done_good L b errstr :
  Good cf L b -> b_state b = STATE_CONNECT -> b_transport b = true -> safe (rd_kafka_broker_connect_done cf en errstr b) (Good cf L).
Proof.
  intros G Hs Ht. pose proof G as (Hv & Hl & A). destruct errstr as [d|]; [by apply fail_good|]. unfold rd_kafka_broker_connect_done.
  destruct (offline_idle cf b Hv ltac:(by rewrite Hs)) as (Hi & Hw & Hse & Hbl). destruct (lv_connect _ _ Hv Hs) as [Htx Hr].
  set (b1 := up_conn _ b).
  assert (Fresh cf b1) as F1.
  { destruct Hv. constructor; try done.
    - unfold cur_log, log. cbn. rewrite Htx. rewrite conn_log_new; [done|]. destruct Hl as [_ E _]. eapply Forall_impl; [exact E|]. by intros x [].
    - destruct lv_rx. by constructor. }
  assert (Log b1) as L1.
  { destruct Hl as [R E D]. constructor; try done. eapply Forall_impl; [exact E|]. intros x []. constructor; try done. cbn. lia. }
  assert (Aside cf (outs b1 ++ L) b1) as A1.
  { apply (aside_same _ _ b); [done|]. change (outs b1) with (outs b). unfold waits in A. by rewrite Hw in A. }
  assert (forall f b0, Fresh cf b0 /\ Log b0 /\ Aside cf (outs b0 ++ L) b0 ->
    (forall c, rkb_transport (f c) = rkb_transport c) -> (forall c, rkb_max_inflight (f c) = rkb_max_inflight c) ->
    (forall c, rkb_connid (f c) = rkb_connid c) -> (forall c, rkb_recv_buf (f c) = rkb_recv_buf c) ->
    Fresh cf (up_conn f b0) /\ Log (up_conn f b0) /\ Aside cf (outs (up_conn f b0) ++ L) (up_conn f b0)) as Hup.
  { intros f b0 (F & Hl0 & A0) H1 H2 H3 H4. split; [|split; [apply (log_same b0); cbn; auto|by apply (aside_same _ _ b0)]].
    pose proof (fresh_conn cf b0 (f (rkb_conn b0)) (rkb_rk b0) F) as F'. destruct b0. apply F'; [apply H1|apply H2|apply H3|apply H4]. }
  cbv zeta. match goal with |- context [if cf_api_version_request cf && en_fail_intvl en then ?x else b1] =>
    set (b2 := if cf_api_version_request cf && en_fail_intvl en then x else b1) end.
  assert (Fresh cf b2 /\ Log b2 /\ Aside cf (outs b2 ++ L) b2) as H2 by (unfold b2; case_if; [by apply Hup|done]).
  match goal with |- context [rd_kafka_broker_connect_auth _ _ _ ?x] => set (b3 := x) end.
  assert (Fresh cf b3 /\ Log b3 /\ Aside cf (outs b3 ++ L) b3) as (F3 & L3 & A3) by (unfold b3; case_if; [by apply Hup|done]).
  case_if.
  - destruct (set_state_fresh cf en STATE_APIVERSION_QUERY b3 _ F3 L3 A3) as (F4 & L4 & A4 & S4 & O4 & _).
    set (b4 := rd_kafka_broker_set_state _ _ b3) in *. unfold rd_kafka_ApiVersionRequest, fresh_id.
    pose proof (co_setup_size _ CO). pose proof (co_msg_size _ CO).
    apply setup_request_good; try done; [by rewrite O4| |by left|by left].
    split; [split; [done|]; cbn; lia|]. right. split; [by left|done].
  - by apply (connect_auth_good cf en CO EO 0).
Qed.

(** ** Events of the socket *)

Lemma auth_done_good L b :
  Good cf L b -> b_state b = STATE_AUTH -> b_transport b = true -> safe (rd_kafka_broker_connect_up cf en b) (Good cf L).
Proof.
  intros (Hv & Hl & A) Hs Ht. destruct (offline_idle cf b Hv ltac:(by rewrite Hs)) as (Hi & Hw & Hse & Hbl).
  change (rd_kafka_broker_connect_up cf en b) with (rd_kafka_broker_connect_up cf en (up_conn (cn_max_inflight 1) b)).
  apply connect_up_good; try done.
  - destruct Hv. destruct (idle_head (fun _ => False) _ Hi) as [_ Hp]. constructor; try done; [|by destruct lv_rx; constructor].
    change (cur_log (up_conn _ b)) with (cur_log b). cbn. rewrite lv_tx, Hp, app_nil_r; [done|]. split; [done|]. unfold b_state in Hs. by rewrite Hs.
  - by apply (log_same b).
  - apply (aside_same _ _ b); [done|]. change (outs _) with (outs b). unfold waits in A. by rewrite Hw in A.
Qed.

(** What the surroundings promise of an event of the socket. *)
Definition io_ok (e : io) b : Prop :=
  rkb_internal b = false /\ match io_out e with Some ws => rkb_corrid b + zlen ws < INT32_MAX | None => True end.

Lemma up_event_good L b e :
  Good cf L b -> io_ok e b ->
  safe (let! b := match io_in e with Some rs => recv_loop cf en rs b | None => Ret b end in
        if match io_in e with Some _ => is_state (b_state b) STATE_DOWN | None => false end then Ret b
        else if io_hup e then rd_kafka_broker_conn_closed cf en (io_debug e) ERR__TRANSPORT b
        else match io_out e with Some ws => send_all cf en ws b | None => Ret b end) (Good cf L).
Proof.
  intros G [Hint Hc].
  assert (safe (match io_in e with Some rs => recv_loop cf en rs b | None => Ret b end) (fun b' => Good cf L b' /\ still b b')) as Hr.
  { destruct (io_in e) as [rs|]; [|done]. pose proof (recv_loop_good cf en CO EO L rs b G) as H. pose proof (recv_loop_stays cf en rs b) as St.
    by destruct (recv_loop cf en rs b). }
  eapply safe_bind; [exact Hr|]. intros b1 (G1 & E1 & E2 & _). cbn beta. case_if; [done|]. case_if; [by apply fail_good|].
  destruct (io_out e) as [ws|]; [|done]. eapply safe_mono; [apply (send_all_good cf en CO L ws b1)|by intros b' [[] _]].
  - constructor; [done|]. intros Hup. destruct G1 as (Hv & _ & _). destruct (lv_up _ _ Hv Hup); [congruence|done].
  - by rewrite E2.
Qed.

Lemma io_serve_good L b e : Good cf L b -> io_ok e b -> safe (rd_kafka_transport_io_serve cf en e b) (Good cf L).
Proof.
  intros G Hok. unfold rd_kafka_transport_io_serve. destruct (b_transport b) eqn:Ht; [|done]. unfold rd_kafka_transport_io_event.
  pose proof (lv_down _ _ (proj1 G)) as Hd. destruct (b_state b) eqn:Hs; try (by apply up_event_good).
  - destruct Hd as [Hd _]; [by left|congruence].
  - destruct Hd as [Hd _]; [by right|congruence].
  - assert (safe match io_connect e with
      | None => broker_fail cf en ERR__TRANSPORT (Some false) b
      | Some false => rd_kafka_broker_connect_done cf en (Some (io_debug e)) b
      | Some true => rd_kafka_broker_connect_done cf en None b end (Good cf L)) as H.
    { destruct (io_connect e) as [[]|]; [by apply connect_done_good..|by apply fail_good]. }
    destruct (io_out e), (io_hup e); done.
  - assert (forall b', Good cf L b' -> safe (if io_hup e then broker_fail cf en ERR__AUTHENTICATION (Some false) b' else Ret b') (Good cf L)) as H.
    { intros b' G'. case_if; [by apply fail_good|done]. }
    destruct (io_sasl e); [by apply fail_good|by apply H|]. eapply safe_bind; [by apply (auth_done_good L)|done].
Qed.

(** ** Operations and replies *)

Lemma aside_pop_op L b o ops :
  Aside cf L b -> rkb_ops b = o :: ops -> op_ok cf (log b) o /\ Aside cf (map (fun r => rq_of 0 (rq_corrid 0 r)) (op_req o) ++ L) (set_ops ops b).
Proof.
  intros [Hi Hh ? ? Ho ? ? ?] E. rewrite E in Ho. apply Forall_cons in Ho as [Ho Hos]. split; [done|]. constructor; try done.
  - unfold all_ids, ops_reqs in *. rewrite E in Hi. destruct o; cbn in *; count_ids.
  - apply Forall_app. split; [|done]. destruct o as [r|r| | |]; cbn; try constructor; try done; apply again_hand; [|done].
    destruct Ho as [[] ? ? ? ?]. constructor; [by constructor|done..].
Qed.

Lemma idle_eq r : idle r -> rq_of 0 (rq_corrid 0 r) = r.
Proof. destruct r. by intros [[= ->] [= ->]]. Qed.

Lemma again_joins b r : again_ok cf (log b) r -> joins cf b r.
Proof. intros [? Hs ? ? ?]. split; [done|]. unfold base_retries. rewrite Hs. split; [lia|done]. Qed.

(** A retry that another thread asked for. *)
Lemma buf_retry_good L b r :
  Live cf b -> Log b -> again_ok cf (log b) (rq_of 0 (rq_corrid 0 r)) ->
  Aside cf (rq_of 0 (rq_corrid 0 r) :: outs b ++ waits b ++ L) b -> Good cf L (rd_kafka_broker_buf_retry cf true b r).
Proof.
  intros Hv Hl Hr A. unfold rd_kafka_broker_buf_retry. cbn [negb]. cbv zeta.
  match goal with |- context [rd_kafka_bufq_enq _ ?x] => set (r3 := x) end.
  assert (rkbuf_id r3 = rkbuf_id r /\ again_ok cf (log b) r3) as [Hid Hok].
  { destruct Hr as [[] Hs ? ? ?]. change (is_setup r = false) in Hs.
    unfold r3. case_if; (split; [done|]); (constructor; [constructor; try done|done..]); intros Hx; change (is_setup r = true) in Hx; congruence. }
  clearbody r3. split; [destruct Hv; by constructor|]. split; [by apply (log_same b)|].
  destruct A as [Hi Hh ? ? ? ? ? ?]. apply Forall_cons in Hh as [_ Hh]. constructor; try done.
  - unfold all_ids, retries, outs, waits, ids in *. cbn in *. rewrite !map_app in *. cbn. rewrite Hid. count_ids.
  - by apply bufq_enq_ok.
  - apply Forall_app. split; [done|by apply Forall_singleton].
Qed.

(** Between UP and UPDATE. *)
Lemma update_state_good L b s :
  Good cf L b -> b_state b = STATE_UP \/ b_state b = STATE_UPDATE -> s = STATE_UP \/ s = STATE_UPDATE ->
  Good cf L (rd_kafka_broker_set_state en s b).
Proof.
  intros (Hv & Hl & A) Hs Hs'. destruct (set_state_eq en s b) as (d & k & ->).
  assert (state_ge_up s = true) as Hup by (by destruct Hs' as [-> | ->]).
  assert (state_ge_up (rkb_state (rkb_conn b)) = true) as Hup0 by (unfold b_state in Hs; by destruct Hs as [-> | ->]).
  split; [|split; [by apply (log_same b)|by apply (aside_same _ _ b)]]. destruct Hv. constructor; try done.
  - eapply head_ok_impl; [|exact lv_head]. intros r [[? ?] ? ? ? ? ? ? ?]. by constructor.
  - intros Hne. destruct (lv_phase Hne) as [[H|H] _]; unfold b_state in Hs; rewrite H in Hs; by destruct Hs.
  - intros Hne. destruct (lv_wait_online Hne). done.
  - cbn. intros [H|H]; subst; by destruct Hs'.
  - intros _. by apply lv_up.
  - cbn. intros H; subst; by destruct Hs'.
  - intros [? ?]. apply lv_tx. split; [done|]. intros Hx. by rewrite Hx in Hup0.
  - destruct lv_rx. by constructor.
Qed.

(** The internal broker is always up. *)
Lemma internal_up_good L b :
  Good cf L b -> rkb_internal b = true -> b_state b = STATE_INIT \/ b_state b = STATE_DOWN -> Good cf L (rd_kafka_broker_set_state en STATE_UP b).
Proof.
  intros (Hv & Hl & A) Hint Hs. destruct (offline_idle cf b Hv ltac:(destruct Hs as [-> | ->]; done)) as (Hi & Hw & Hse & Hbl).
  destruct (lv_down _ _ Hv Hs) as [Ht Hr]. destruct (set_state_eq en STATE_UP b) as (d & k & ->). set (b' := set_rk _ _).
  assert (waits b' = []) as Hw' by (unfold waits; cbn; by rewrite Hw).
  split; [|split; [by apply (log_same b)|by apply (aside_same _ _ b)]]. destruct Hv.
  destruct (idle_head (begun (rkb_conn b') (rkb_corrid b') (log b') (zlen (waits b'))) _ Hi) as [Hh Hp].
  constructor; rewrite ?Hw', ?app_nil_r; try done.
  - by rewrite Hw' in Hh.
  - constructor.
  - cbn. lia.
  - change (outs b') with (outs b). by rewrite Hse.
  - by left.
  - intros [Htr _]. unfold b_transport in Ht. cbn in Htr. congruence.
  - destruct lv_rx. by constructor.
Qed.

Lemma op_serve_good L b o ops :
  Good cf L b -> rkb_ops b = o :: ops -> safe (rd_kafka_broker_op_serve cf en o (set_ops ops b)) (Good cf L).
Proof.
  intros (Hv & Hl & A) E. destruct (aside_pop_op _ b o ops A E) as [Ho A1]. set (b1 := set_ops ops b) in *.
  assert (Live cf b1) as V1 by (by apply (keeps_live cf b)). assert (Log b1) as L1 by (by apply (log_same b)).
  destruct o as [r|r|nm id| |]; cbn [rd_kafka_broker_op_serve op_req map app op_ok] in *.
  - rewrite idle_eq in A1 by (by destruct Ho). unfold rd_kafka_broker_buf_enq2. destruct (rkb_internal b1).
    + eapply safe_mono; [apply client_callback_ok; [done|exact A1|by destruct Ho]|]. intros b' P. by apply (put_aside_good cf en L b1).
    + cbn [safe]. apply enq0_good; try done. by apply again_joins.
  - cbn [safe]. by apply buf_retry_good.
  - assert (Good cf L b1) as G1 by done. match goal with |- context [emit _ ?x] => set (b2 := x) end.
    assert (Good cf L b2) as G2 by (unfold b2; case_if; [by apply up_conn_good|done]).
    case_if; [by apply fail_good|]. case_if; [|done]. cbn [safe].
    assert (Good cf L (emit OUT_map_partitions b2)) as G3.
    { destruct G2 as (? & ? & ?). split; [by apply set_rk_live|]. split; [by apply (log_same b2)|by apply (aside_same _ _ b2)]. }
    case_if; [|done]. apply update_state_good; [done| |by right]. left. by apply is_state_true.
  - apply fail_good; [done| |done]. case_if; [by apply up_conn_good|done].
  - done.
Qed.

(** Another thread handles a reply. *)
Lemma reply_good L b i r err e :
  Good cf L b -> rkb_replies b !! i = Some (r, e) ->
  safe (rd_kafka_buf_handle_op cf en (set_replies (delete i (rkb_replies b)) b) r err) (Good cf L).
Proof.
  intros (Hv & Hl & A) E. set (b1 := set_replies _ b).
  assert (Live cf b1) as V1 by (by apply (keeps_live cf b)). assert (Log b1) as L1 by (by apply (log_same b)).
  assert (rkb_replies b ≡ₚ (r, e) :: delete i (rkb_replies b)) as P by (by apply delete_Permutation).
  pose proof A as [Hi Hh ? ? ? Hp ? ?]. rewrite P in Hp. apply Forall_cons in Hp as [[[] Hs Hq Ht] Hp]. cbn [fst] in *.
  assert (Aside cf (rq_response None r :: outs b1 ++ waits b1 ++ L) b1) as A1.
  { constructor; try done.
    - unfold all_ids, ids in *. cbn. rewrite P in Hi. cbn in Hi. count_ids.
    - constructor; [|done]. constructor; [by constructor|done|]. unfold base_retries. change (is_setup (rq_response None r)) with (is_setup r).
      rewrite Hs. cbn in *. change (log b1) with (log b). lia. }
  assert (is_setup (rq_response None r) = false) as Hs' by done.
  unfold rd_kafka_buf_handle_op. rewrite Hq. destruct (rkbuf_cb r).
  - cbn zeta. rewrite (callback_client cf en 0) by done. eapply safe_mono; [by apply client_callback_ok|]. intros b' Hb'. by apply (put_aside_good cf en L b1).
  - cbn [safe]. change (finish b1 r err) with (finish b1 (rq_response None r) err). apply finish_good; [done|].
    split; [done|]. split; [done|]. eapply aside_perm; [|exact A1]. rewrite !app_assoc. apply Permutation_middle.
Qed.

(** ** Retries *)

Lemma retry_loop_good L n b : Good cf L b -> (length (retries b) <= n)%nat -> safe (retry_bufs_loop n cf b) (Good cf L).
Proof.
  revert b. induction n as [|n IH]; intros b G Hn; cbn [retry_bufs_loop]; fold (retries b).
  - destruct (retries b); [done|cbn in Hn; lia].
  - destruct (retries b) as [|r l] eqn:E; [done|]. case_if; [done|].
    destruct (scan_deq cf Q_retry L True b [] r l (rkbuf_ts_sent r) (good_scan cf L b True G) E) as (q & Hd & H).
    assert (rq_ts_sent (rkbuf_ts_sent r) r = r) as Er by (by destruct r). rewrite Er in Hd, H. cbn [get_q] in Hd. rewrite Hd. cbn [obind].
    change (scan_removed Q_retry r q b) with (set_retrybufs q b) in H. destruct H as (Hb1 & L1 & P1 & O1 & W1 & A1 & V1 & T1).
    destruct (enq0_good cf L (set_retrybufs q b) r false) as (G' & O' & _); try done; [by apply V1| |].
    + apply again_joins. destruct G as (_ & _ & A). pose proof (as_retry _ _ _ A) as F. rewrite E in F. by apply Forall_cons in F as [? _].
    + apply IH; [done|]. unfold retries. rewrite (oo_retry _ _ O'). change (rkbq_bufs (rkb_retrybufs (set_retrybufs q b))) with (bufs Q_retry (set_retrybufs q b)).
      rewrite Hb1. cbn in *. lia.
Qed.

(** ** Steps *)

(** What the surroundings promise of an event. *)
Definition promised b (e : event) : Prop :=
  match e with
  | EV_arrive data => bytes_ok data
  | EV_request _ n => new_ok cf n
  | EV_io e => io_ok e b
  | EV_scan => rkb_now b <> 0
  | _ => True
  end.

(** What the code does not handle: in a timeout scan, a request that sets up
    the connection is due in front of another one in the send queue; in the scan of a
    terminating client, the first request of the send queue was sent in part. *)
Definition handled b (e : event) : Prop :=
  match e with
  | EV_scan => due_setup_last (rkb_now b) (outs b)
  | EV_terminating => head_part (outs b) = []
  | _ => True
  end.

Definition event_ok b (e : event) : Prop := promised b e /\ handled b e.

Lemma ops_good L b o : Good cf L b -> op_req o = [] -> Good cf L (set_ops (rkb_ops b ++ [o]) b).
Proof.
  intros (Hv & Hl & A) Ho. split; [by apply (keeps_live cf b)|]. split; [by apply (log_same b)|].
  destruct A as [Hi ? ? ? ? ? ? ?]. constructor; try done.
  - unfold all_ids, ops_reqs in *. cbn. rewrite map_app, concat_app. cbn. by rewrite Ho, !app_nil_r.
  - apply Forall_app. split; [done|]. apply Forall_singleton. by destruct o.
Qed.

Lemma step_good L b e : Good cf L b -> event_ok b e -> safe (broker_step cf en b e) (Good cf L).
Proof.
  intros G [Hok Hh]. destruct e; cbn [broker_step promised handled] in *.
  - destruct G as (Hv & Hl & A). split; [destruct Hv; by constructor|]. split; [by apply (log_same b)|by apply (aside_same _ _ b)].
  - cbn [safe]. case_if; [|done]. destruct G as (Hv & Hl & A). split; [|split; [by apply (log_same b)|by apply (aside_same _ _ b)]].
    apply live_wire; try done. destruct (lv_rx _ _ Hv). constructor; try done. by apply Forall_app.
  - eapply safe_mono; [by apply (enq_replyq_good cf en _ L)|]. by intros b' [? _].
  - by apply ops_good.
  - by apply ops_good.
  - destruct (rkb_ops b) eqn:E; [done|]. by apply op_serve_good.
  - destruct (rkb_replies b !! i) as [[r e]|] eqn:E; [|done]. by eapply reply_good.
  - destruct (is_state (b_state b) STATE_INIT || is_state (b_state b) STATE_DOWN) eqn:E; [|done].
    assert (b_state b = STATE_INIT \/ b_state b = STATE_DOWN) as Hs by (apply orb_true_iff in E as [E|E]; apply is_state_true in E; auto).
    destruct (rkb_internal b) eqn:Hint; [by apply internal_up_good|by apply connect_good].
  - by apply io_serve_good.
  - eapply safe_mono; [by apply (timeout_scan_good cf en CO _ L)|]. by intros b' [? _].
  - case_if; [|done]. by apply retry_loop_good.
  - cbn [safe]. case_if; [|done]. apply update_state_good; [done| |by left]. right. by apply is_state_true.
  - destruct (en_terminating en) eqn:E; [|done]. eapply safe_mono; [by apply (terminating_scan_good cf en CO L)|]. by intros b' [? _].
Qed.
End run.

(** ** Runs *)

(** Every event happens as promised in the state that is reached. *)
Fixpoint run_ok cf b (l : list (env * event)) : Prop :=
  match l with
  | [] => True
  | (en, e) :: l => env_ok cf en /\ event_ok cf b e /\ match broker_step cf en b e with Ret b => run_ok cf b l | _ => True end
  end.

Lemma run_good cf L l b : conf_ok cf -> Good cf L b -> run_ok cf b l -> safe (broker_run cf b l) (Good cf L).
Proof.
  intros CO. revert b. induction l as [|[en e] l IH]; intros b G Hok; cbn [broker_run]; [done|]. destruct Hok as (EO & He & Hl).
  pose proof (step_good cf en CO EO L b e G He) as S. destruct (broker_step cf en b e) as [b'| |]; try done. cbn [obind] in *. by apply IH.
Qed.

Lemma new_good cf internal nodeid cnt down now : Good cf [] (broker_new cf internal nodeid cnt down now).
Proof.
  split; [|split].
  - constructor; try done; cbn; try lia. constructor.
  - constructor; cbn; [unfold INT32_MAX; lia|constructor|constructor].
  - constructor; try done; constructor.
Qed.
