(* ===== verification/BrokerSpec.v ===== *)
(** * The broker thread: what it promises

    For every run in which the surroundings keep their promises: no request is lost or
    answered twice, the server can take what it is sent apart into the requests, the
    responses are the ones the server sent however they arrive, each goes to
    the request it answers, and what is due is answered. *)
From Stdlib Require Import ZArith Lia.
From stdpp Require Import base numbers list.
From S2P Require Import Prelude.
From S2P Require Import Proto.
From S2P Require Import Feature.
From S2P Require Import BrokerState.
From S2P Require Import Broker.
From S2P Require Import BrokerInv.
From S2P Require Import BrokerConn.
From S2P Require Import BrokerScan.
From S2P Require Import BrokerRecv.
From S2P Require Import BrokerRun.

Implicit Types (cf : conf) (en : env) (b : broker) (r : rkbuf).

(** ** Runs *)

Definition reaches cf (l : list (env * event)) b : Prop :=
  conf_ok cf /\ exists internal nodeid cnt down now,
    run_ok cf (broker_new cf internal nodeid cnt down now) l /\ broker_run cf (broker_new cf internal nodeid cnt down now) l = Ret b.

Lemma reaches_good cf l b : reaches cf l b -> Good cf [] b.
Proof.
  intros (CO & internal & nodeid & cnt & down & now & Hok & Hr).
  pose proof (run_good cf [] l _ CO (new_good cf internal nodeid cnt down now) Hok) as H. by rewrite Hr in H.
Qed.

(** The promises of the surroundings can be computed. *)
Definition new_okb cf (n : new_request) : bool :=
  (negb (nr_blocking n) || negb (nr_no_response n)) && (12 + zlen (cf_client_id cf) + zlen (nr_body n) <=? cf_max_msg_size cf).

Fixpoint due_setup_lastb (now : Z) (l : list rkbuf) : bool :=
  match l with
  | [] => true
  | r :: l => (negb (is_setup r) || bool_decide (not_due now r) || match l with [] => true | _ => false end) && due_setup_lastb now l
  end.

Definition event_okb cf b (e : event) : bool :=
  match e with
  | EV_arrive data => forallb (fun x => (0 <=? x) && (x <? 256)) data
  | EV_request _ n => new_okb cf n
  | EV_io e => negb (rkb_internal b) && match io_out e with Some ws => rkb_corrid b + zlen ws <? INT32_MAX | None => true end
  | EV_scan => negb (rkb_now b =? 0) && due_setup_lastb (rkb_now b) (outs b)
  | EV_terminating => match head_part (outs b) with [] => true | _ => false end
  | _ => true
  end.

Fixpoint run_okb cf b (l : list (env * event)) : bool :=
  match l with
  | [] => true
  | (en, e) :: l => event_okb cf b e && match broker_step cf en b e with Ret b => run_okb cf b l | _ => true end
  end.

Lemma new_okb_ok cf n : new_okb cf n = true -> new_ok cf n.
Proof.
  unfold new_okb. intros H. bool_hyps. split; [|done]. intros Hb. destruct (nr_no_response n); [|done]. rewrite Hb in *. done.
Qed.

Lemma due_setup_lastb_ok now l : due_setup_lastb now l = true -> due_setup_last now l.
Proof.
  induction l as [|r l IH]; [done|]. cbn. intros [H1 H2]%andb_true_iff. split; [|auto]. intros Hs. rewrite Hs in H1. cbn in H1.
  apply orb_true_iff in H1 as [H1|H1]; [left; by apply bool_decide_eq_true in H1|right; by destruct l].
Qed.

Lemma broker_event_okb_ok cf b e : event_okb cf b e = true -> event_ok cf b e.
Proof.
  unfold event_ok. destruct e; cbn [event_okb promised handled]; try done.
  - intros H. split; [|done]. apply Forall_forall. intros x Hx. rewrite List.forallb_forall in H. specialize (H x ltac:(by apply list_elem_of_In)).
    bool_hyps. unfold byte_ok, u_ok. lia.
  - split; [by apply new_okb_ok|done].
  - intros [H1 H2]%andb_true_iff. split; [|done]. split; [by destruct (rkb_internal b)|]. destruct (io_out e); [by apply Z.ltb_lt|done].
  - intros [H1 H2]%andb_true_iff. split; [|by apply due_setup_lastb_ok]. intros E. by rewrite E in H1.
  - split; [done|]. by destruct (head_part (outs b)).
Qed.

Lemma broker_run_okb_ok cf b l : Forall (fun x => env_ok cf x.1) l -> run_okb cf b l = true -> run_ok cf b l.
Proof.
  intros F. revert b. induction F as [|[en e] l He _ IH]; intros b; cbn [run_okb run_ok]; [done|].
  intros [H1 H2]%andb_true_iff. split; [done|]. split; [by apply broker_event_okb_ok|]. destruct (broker_step cf en b e); auto.
Qed.

(** ** Streams of frames *)

(** How a peer takes a stream apart: a frame has its length in front and at least
    eight bytes. *)
Fixpoint deframe (fuel : nat) (l : list Z) : list (list Z) * list Z :=
  match fuel with
  | O => ([], l)
  | S fuel =>
      let n := 4 + be_dec (take 4 l) in
      if (zlen l <? 8) || (zlen l <? n) then ([], l)
      else let '(fs, rest) := deframe fuel (zdrop n l) in (ztake n l :: fs, rest)
  end.

Definition frames (l : list Z) : list (list Z) * list Z := deframe (length l) l.

Definition frame_ok (f : list Z) : Prop := 8 <= zlen f <= 2 ^ 32 /\ take 4 f = be_enc 4 (zlen f - 4).

Definition unfinished (l : list Z) : Prop := zlen l < 8 \/ zlen l < 4 + be_dec (take 4 l).

Lemma be_dec_len n : 0 <= n < 2 ^ 32 -> be_dec (be_enc 4 n) = n.
Proof. intros H. rewrite be_dec_enc. by apply Z.mod_small. Qed.

Lemma deframe_frames fs rest fuel :
  Forall frame_ok fs -> unfinished rest -> (length fs <= fuel)%nat -> deframe fuel (concat fs ++ rest) = (fs, rest).
Proof.
  intros F Hu. revert fuel. induction F as [|f fs [Hl Hf] _ IH]; intros fuel Hn; cbn [concat app].
  - destruct fuel; [done|]. cbn [deframe]. destruct (Z.ltb_spec (zlen rest) 8); [done|]. cbn [orb].
    destruct (Z.ltb_spec (zlen rest) (4 + be_dec (take 4 rest))); [done|]. destruct Hu; lia.
  - cbn in Hn. destruct fuel as [|fuel]; [lia|]. cbn [deframe]. rewrite <- app_assoc. set (tl := concat fs ++ rest).
    assert (take 4 (f ++ tl) = take 4 f) as E by (apply take_app_le; lia). rewrite E, Hf, be_dec_len by lia.
    assert (zlen (f ++ tl) = zlen f + zlen tl) as El by (rewrite length_app; lia). rewrite El.
    destruct (Z.ltb_spec (zlen f + zlen tl) 8); [lia|]. destruct (Z.ltb_spec (zlen f + zlen tl) (4 + (zlen f - 4))); [lia|]. cbn [orb].
    assert (Z.to_nat (4 + (zlen f - 4)) = length f) as En by lia. unfold zdrop, ztake. rewrite En, drop_app_length, take_app_length.
    unfold tl. by rewrite IH by lia.
Qed.

Lemma concat_length fs : Forall frame_ok fs -> (length fs <= length (concat fs))%nat.
Proof. induction 1 as [|f fs [? _] _ IH]; cbn; [done|]. rewrite length_app. lia. Qed.

Lemma frames_concat fs rest : Forall frame_ok fs -> unfinished rest -> frames (concat fs ++ rest) = (fs, rest).
Proof. intros F Hu. apply deframe_frames; [done|done|]. rewrite length_app. pose proof (concat_length fs F). lia. Qed.

Lemma framed_ok l : framed l -> frame_ok l.
Proof. intros [? ?]. split; [lia|done]. Qed.

Lemma partial_unfinished l o : framed l -> 0 <= o < zlen l -> unfinished (ztake o l).
Proof.
  intros [Hl Hf] Ho. unfold unfinished, ztake. rewrite length_take. destruct (Z.lt_ge_cases o 8); [left; lia|right].
  rewrite take_take, (Nat.min_l 4) by lia. rewrite Hf, be_dec_len by lia. lia.
Qed.

(** What is left of a request that is being sent. *)
Lemma head_unfinished cf L b : Good cf L b -> unfinished (head_part (outs b)).
Proof.
  intros (Hv & Hl & A). pose proof (lv_head _ _ Hv) as Hh. pose proof (as_hand _ _ _ A) as F.
  destruct (outs b) as [|r l]; [by left|]. cbn in F. apply Forall_cons in F as [[[Hf _ _ _] _ _] _]. apply partial_unfinished; [done|].
  destruct Hh as [[[-> _]|Hb] _]; [destruct Hf; lia|by destruct Hb].
Qed.

Lemma response_frame_ok cf x :
  conf_ok cf -> zlen x.2 + 4 <= cf_recv_max_msg_size cf -> frame_ok (response_frame x).
Proof.
  intros CO Hs. pose proof (co_recv_size _ CO). unfold frame_ok, response_frame. rewrite !length_app, !be_enc_length. split; [lia|].
  rewrite take_app_le by (rewrite be_enc_length; lia). rewrite take_ge by (rewrite be_enc_length; lia). f_equal. lia.
Qed.

(** ** A run *)

Definition demo_cf : conf := mk_conf 2 100 60000 3 100 5 1000 1000 true 10000 [] false [0; 0] [] true.

Definition demo_env (retry : bool) : env :=
  mk_env false false (fun _ err _ => retry && negb (err =? 0)) (fun _ => Ret (inr [mk_api 3 0 1])) (fun _ => Ret 0) true true [].

Definition demo_request (blocking : bool) : new_request := mk_new 3 0 0 false blocking false true true 0 5000 [1; 2; 3] 0.

Definition io_connected : event := EV_io (mk_io (Some true) false SR_more None false (Some [])).
Definition io_read (rs : list rr) : event := EV_io (mk_io None false SR_more (Some rs) false None).
Definition io_write (ws : list wr) : event := EV_io (mk_io None false SR_more None false (Some ws)).

Definition demo_new : broker := broker_new demo_cf false 1 1 0 1000.


Lemma demo_conf_ok : conf_ok demo_cf.
Proof. constructor; cbn; unfold RD_KAFKA_BUF_NO_RETRIES; lia. Qed.

Lemma demo_env_ok retry : env_ok demo_cf (demo_env retry).
Proof. constructor; [done|done|constructor]. Qed.

Lemma demo_reaches retry l b :
  run_okb demo_cf demo_new (map (pair (demo_env retry)) l) = true -> broker_run demo_cf demo_new (map (pair (demo_env retry)) l) = Ret b ->
  reaches demo_cf (map (pair (demo_env retry)) l) b.
Proof.
  intros Hok Hr. split; [apply demo_conf_ok|]. exists false, 1, 1, 0, 1000. split; [|done]. apply broker_run_okb_ok; [|done].
  apply Forall_map. apply Forall_true. intros e. apply demo_env_ok.
Qed.

Definition demo_events : list event :=
    [EV_request true (demo_request true); EV_connect CR_ok; io_connected; io_write [WR_bytes 100];
     EV_arrive (response_frame (1, [7])); io_read [RR_bytes 5]; io_read [RR_bytes 3; RR_bytes 100];
     io_write [WR_bytes 5]; io_write [WR_bytes 100]; EV_arrive (response_frame (2, [8; 9])); io_read [RR_bytes 100; RR_bytes 1; RR_bytes 100];
     EV_reply 0 false].

(** The state after [n] of the events. *)
Definition demo_run (retry : bool) (n : nat) : list (env * event) := map (pair (demo_env retry)) (take n demo_events).

Definition demo_at (retry : bool) (n : nat) : broker :=
  match broker_run demo_cf demo_new (demo_run retry n) with Ret b => b | _ => demo_new end.

(** ** Requests are conserved *)

(** The counters of the queues and of the blocking requests. *)
Record counted b : Prop := mk_counted {
  ct_out : bufq_ok (rkb_outbufs b);
  ct_wait : bufq_ok (rkb_waitresps b);
  ct_retry : bufq_ok (rkb_retrybufs b);
  ct_blocking : rkb_blocking_request_cnt b = zlen (filter (fun r => rkbuf_blocking r = true) (waits b));
  ct_inflight : zlen (waits b) <= Z.max 0 (rkb_max_inflight (rkb_conn b)) }.

Lemma ops_reqs_elem r ops : r ∈ ops_reqs ops -> exists o, o ∈ ops /\ r ∈ op_req o.
Proof.
  unfold ops_reqs. intros Hin. apply list_elem_of_In, List.in_concat in Hin as (lr & Hlr & Hin). apply List.in_map_iff in Hlr as (o & <- & Hlr).
  exists o. by rewrite !list_elem_of_In.
Qed.

Lemma good_counted cf b : Good cf [] b -> counted b /\ all_ids (outs b ++ waits b) b ≡ₚ seq 0 (rkb_next b).
Proof.
  intros (Hv & Hl & A). rewrite app_nil_r in A. destruct Hv, A. split; [by constructor|done].
Qed.

(** C5. In a run in which the surroundings keep their promises and the two
    situations of [handled] do not occur, no assertion of the
    broker thread fails, no freed request is touched and nothing loops.  Every
    request that was ever made is in exactly one place: the send queue, the wait queue, the
    retry queue, an operation, a reply, or finished with its callback called once.
    The counters of the queues and of blocking requests are exact, and
    no more requests wait for a response than [max.in.flight] allows. *)
Theorem broker_conserves_requests cf internal nodeid cnt down now (l : list (env * event)) :
  conf_ok cf -> run_ok cf (broker_new cf internal nodeid cnt down now) l ->
  exists b, broker_run cf (broker_new cf internal nodeid cnt down now) l = Ret b /\
    all_ids (outs b ++ waits b) b ≡ₚ seq 0 (rkb_next b) /\ counted b.
Proof.
  intros CO Hok. pose proof (run_good cf [] l _ CO (new_good cf internal nodeid cnt down now) Hok) as H.
  destruct (broker_run cf _ l) as [b| |]; [|done|done]. exists b. split; [done|]. destruct (good_counted cf b H). done.
Qed.

Lemma broker_conserves_requests_witness :
  exists b, broker_run demo_cf demo_new (demo_run false 12) = Ret b /\ all_ids (outs b ++ waits b) b ≡ₚ seq 0 (rkb_next b) /\ counted b.
Proof.
  apply (broker_conserves_requests demo_cf false 1 1 0 1000); [apply demo_conf_ok|].
  apply broker_run_okb_ok; [apply Forall_map, Forall_true; intros e; apply demo_env_ok|vm_compute; reflexivity].
Defined.

(** ** Requests are well formed *)

(** C34. Every request the broker thread holds, in whatever place, is well formed: it has
    its length in front, fits the limit of 2^31 bytes, a blocking one expects a response,
    the two requests that set up a connection have no reply queue and are never
    retried, and no other one was retried more often than allowed. *)
Theorem broker_requests_wellformed cf l b r :
  reaches cf l b -> r ∈ outs b ++ waits b ++ retries b ++ ops_reqs (rkb_ops b) ++ map fst (rkb_replies b) -> req_wf cf r.
Proof.
  intros R Hin. pose proof (reaches_good _ _ _ R) as (_ & _ & [_ Hh _ Hre Ho Hp _ _]). rewrite app_nil_r in Hh. rewrite app_assoc, !elem_of_app in Hin.
  rewrite Forall_forall in Hh. rewrite Forall_forall in Hre. rewrite Forall_forall in Ho. rewrite Forall_forall in Hp.
  destruct Hin as [Hin|[Hin|[Hin|Hin]]].
  - apply Hh. by apply elem_of_app.
  - by apply Hre.
  - destruct (ops_reqs_elem _ _ Hin) as (o & Hlr & Hro). specialize (Ho o Hlr).
    destruct o as [x|x| | |]; cbn in *; try (by apply elem_of_nil in Hro); apply list_elem_of_singleton in Hro as ->; [by destruct Ho|].
    destruct Ho as [[] _ _ _ _]. by constructor.
  - apply list_elem_of_fmap in Hin as (x & -> & Hin). by destruct (Hp x Hin).
Qed.

Lemma broker_requests_wellformed_witness :
  match outs (demo_at false 8) with r :: _ => req_wf demo_cf r | [] => False end.
Proof.
  cbv beta iota zeta delta [demo_at]. set (o := broker_run demo_cf demo_new (demo_run false 8)).
  destruct (outs (match o with Ret b => b | _ => demo_new end)) as [|r l] eqn:E; [by vm_compute in E|].
  apply (broker_requests_wellformed demo_cf (demo_run false 8) (demo_at false 8)); [apply demo_reaches; vm_compute; reflexivity|].
  apply elem_of_app. left. unfold demo_at. fold o. rewrite E. by left.
Defined.

(** ** What is sent *)

(** C6. In a run in which the surroundings keep their promises and the two
    situations of [handled] do not occur (in particular, no terminating client takes a partly
    sent request out of the send queue): at any time, the part of what the socket was given on
    the present connection that belongs to requests, which is all but what the
    SASL exchange sends, is a sequence of whole requests followed by a beginning of the first one in the
    send queue.  A server that takes it apart by the lengths in front gets exactly
    the requests that were reported as sent, in order; each carries its correlation
    id, and no two the same one. *)
Theorem broker_stream_deframes cf l b :
  reaches cf l b -> linked (rkb_conn b) ->
  frames (tx_bytes (rkb_wire b)) = (map rkbuf_bytes (cur_log b), head_part (outs b)) /\
  Forall has_corrid (cur_log b) /\ NoDup (map rkbuf_corrid (cur_log b)).
Proof.
  intros R Hl. pose proof (reaches_good _ _ _ R) as G. pose proof G as (Hv & [_ E D] & _).
  assert (forall x, x ∈ cur_log b -> has_corrid x /\ framed (rkbuf_bytes x)) as Hx.
  { intros x Hx. unfold cur_log, conn_log in Hx. apply list_elem_of_fmap in Hx as (y & -> & [_ Hy]%list_elem_of_filter).
    rewrite Forall_forall in E. destruct (E y Hy). done. }
  split; [|split].
  - rewrite (lv_tx _ _ Hv Hl). apply frames_concat; [|by eapply head_unfinished]. apply Forall_map, Forall_forall. intros x Hin. apply framed_ok. by apply Hx.
  - apply Forall_forall. intros x Hin. by apply Hx.
  - unfold cur_log, conn_log. rewrite List.map_map. revert D. unfold corrids. clear. generalize (log b). intros lg. induction lg as [|x lg IH]; [done|].
    cbn [map]. rewrite NoDup_cons. intros [Hn D]. rewrite filter_cons. case_decide; [|auto]. cbn [map]. constructor; [|auto].
    intros Hin. apply Hn. apply list_elem_of_fmap in Hin as (y & Hy & [_ Hin]%list_elem_of_filter). apply list_elem_of_fmap. by exists y.
Qed.

Lemma broker_stream_deframes_witness :
  frames (tx_bytes (rkb_wire (demo_at false 8))) = (map rkbuf_bytes (cur_log (demo_at false 8)), head_part (outs (demo_at false 8))).
Proof.
  apply (broker_stream_deframes demo_cf (demo_run false 8) (demo_at false 8)); [|by vm_compute].
  apply demo_reaches; vm_compute; reflexivity.
Defined.

(** ** What is received *)

(** C9. However the bytes of a connection arrive and are read, the responses that were
    passed on are those that the stream consists of, taken apart by the lengths in
    front, and the rest of what was read is the beginning of the next one. *)
Theorem broker_responses_deframe cf l b :
  reaches cf l b -> b_transport b = true ->
  frames (rx_bytes (rkb_wire b)) = (map response_frame (rx_log (rkb_wire b)), recv_part (rkb_recv_buf (rkb_conn b))).
Proof.
  intros R Ht. pose proof (reaches_good _ _ _ R) as (Hv & _ & _). destruct R as [CO _]. destruct (lv_rx _ _ Hv) as [Hs Hr Hz _].
  rewrite (Hs Ht). apply frames_concat.
  - apply Forall_map. eapply Forall_impl; [exact (Hz Ht)|]. intros x Hx. by apply (response_frame_ok cf).
  - pose proof (co_recv_size _ CO). destruct (rkb_recv_buf (rkb_conn b)) as [v|]; cbn; [|by left]. destruct Hr as [_ [[? _]|(Hl & Hm & Hh & _)]]; [by left|right].
    assert (take 4 (rv_bytes v) = be_enc 4 (rv_totlen v + 4)) as ->.
    { rewrite <- (take_take _ 4 8) by lia. rewrite Hh, take_app_le by (rewrite be_enc_length; lia). by rewrite take_ge by (rewrite be_enc_length; lia). }
    rewrite be_dec_len by lia. lia.
Qed.

Lemma broker_responses_deframe_witness :
  frames (rx_bytes (rkb_wire (demo_at false 6))) = ([], [0; 0; 0; 5; 0]) /\
  frames (rx_bytes (rkb_wire (demo_at false 6))) = (map response_frame (rx_log (rkb_wire (demo_at false 6))), recv_part (rkb_recv_buf (rkb_conn (demo_at false 6)))).
Proof.
  split; [vm_compute; reflexivity|]. apply (broker_responses_deframe demo_cf (demo_run false 6) (demo_at false 6)); [|vm_compute; reflexivity].
  apply demo_reaches; vm_compute; reflexivity.
Defined.

(** ** Who gets a response *)

Lemma find_corrid_none corrid l : find_corrid corrid l = None -> forall r, r ∈ l -> rkbuf_corrid r <> corrid.
Proof.
  induction l as [|x l IH]; cbn; intros Hf r Hr; [by apply elem_of_nil in Hr|].
  destruct (Z.eqb_spec (rkbuf_corrid x) corrid); [done|]. apply elem_of_cons in Hr as [->|Hr]; [done|]. by apply IH.
Qed.

(** C10. A response goes to the one request that was sent on this connection with
    its correlation id and still waits for a response: its callback is called without an
    error and with the body, and no other request is touched.  A response nobody
    waits for is counted and dropped. *)
Theorem broker_routes_response cf en l b corrid body :
  reaches cf l b ->
  (forall r, r ∈ waits b -> rkbuf_corrid r <> corrid) /\ rd_kafka_req_response cf en b corrid body = Ret (rx_error b) \/
  exists pre r suf b', waits b = pre ++ r :: suf /\ rkbuf_corrid r = corrid /\
    (forall r', r' ∈ pre ++ suf -> rkbuf_corrid r' <> corrid) /\
    (exists x, x ∈ cur_log b /\ rkbuf_id x = rkbuf_id r /\ rkbuf_corrid x = corrid /\ rkbuf_bytes x = rkbuf_bytes r) /\
    waits b' = pre ++ suf /\ rkb_outbufs b' = rkb_outbufs b /\ rkb_retrybufs b' = rkb_retrybufs b /\ rkb_replies b' = rkb_replies b /\
    rkb_done b' = rkb_done b /\ rkb_wire b' = rkb_wire b /\
    rd_kafka_req_response cf en b corrid body =
      rd_kafka_buf_callback (broker_fail cf en) cf en true b' 0 (Some body) (rq_ts_sent (rkb_now b - rkbuf_ts_sent r) r).
Proof.
  intros R. pose proof (reaches_good _ _ _ R) as G. unfold rd_kafka_req_response.
  destruct (waitresp_find_ok cf [] b corrid G) as [[Hf ->]|(pre & r & suf & q & k & Hw & Hc & Hqb & Hqo & Hf)].
  - left. split; [by apply find_corrid_none|done].
  - right. cbn zeta in Hf. match type of Hf with _ = Ret (_, ?x) /\ _ => set (b1 := x) in Hf end.
    destruct Hf as (-> & _). destruct G as (Hv & _ & _). exists pre, r, suf, b1. split; [done|]. split; [done|].
    pose proof (lv_corrids _ _ Hv) as N. pose proof (lv_wait _ _ Hv) as F. rewrite Hw in N, F. split_and!; try done.
    + intros r' Hr' E. rewrite map_app in N. cbn in N. apply NoDup_app in N as (_ & N1 & [N2 _]%NoDup_cons).
      apply elem_of_app in Hr' as [Hr'|Hr'].
      * apply (N1 corrid); [rewrite <- E; by apply list_elem_of_fmap_2|]. rewrite <- Hc. by left.
      * apply N2. rewrite Hc, <- E. by apply list_elem_of_fmap_2.
    + apply Forall_app in F as [_ [[_ _ (x & Hx & ? & ? & ?)] _]%Forall_cons]. exists x. split_and!; try done. congruence.
Qed.

Lemma broker_routes_response_witness :
  (forall r, r ∈ waits (demo_at false 9) -> rkbuf_corrid r <> 2) /\
    rd_kafka_req_response demo_cf (demo_env false) (demo_at false 9) 2 [8; 9] = Ret (rx_error (demo_at false 9)) \/
  exists pre r suf b', waits (demo_at false 9) = pre ++ r :: suf /\ rkbuf_corrid r = 2 /\
    (forall r', r' ∈ pre ++ suf -> rkbuf_corrid r' <> 2) /\
    (exists x, x ∈ cur_log (demo_at false 9) /\ rkbuf_id x = rkbuf_id r /\ rkbuf_corrid x = 2 /\ rkbuf_bytes x = rkbuf_bytes r) /\
    waits b' = pre ++ suf /\ rkb_outbufs b' = rkb_outbufs (demo_at false 9) /\ rkb_retrybufs b' = rkb_retrybufs (demo_at false 9) /\
    rkb_replies b' = rkb_replies (demo_at false 9) /\ rkb_done b' = rkb_done (demo_at false 9) /\ rkb_wire b' = rkb_wire (demo_at false 9) /\
    rd_kafka_req_response demo_cf (demo_env false) (demo_at false 9) 2 [8; 9] =
      rd_kafka_buf_callback (broker_fail demo_cf (demo_env false)) demo_cf (demo_env false) true b' 0 (Some [8; 9])
        (rq_ts_sent (rkb_now (demo_at false 9) - rkbuf_ts_sent r) r).
Proof.
  apply (broker_routes_response demo_cf (demo_env false) (demo_run false 9)). apply demo_reaches; vm_compute; reflexivity.
Defined.

(** ** How often a request is sent *)

(** C11. No request is ever sent as a whole more often than [message.send.max.retries] + 1
    times, over all connections, whatever fails and whatever its client asks for. *)
Theorem broker_transmissions_bounded cf l b id :
  reaches cf l b -> tries (log b) id <= cf_max_retries cf + 1.
Proof.
  intros R. pose proof (reaches_good _ _ _ R) as (_ & _ & A). destruct R as [CO _]. pose proof (co_retries _ CO) as Hm.
  destruct (Nat.le_gt_cases (rkb_next b) id) as [Hge|Hlt]; [rewrite (as_new _ _ _ A) by done; lia|].
  assert (id ∈ all_ids (outs b ++ waits b ++ []) b) as Hin by (rewrite (as_ids _ _ _ A); apply elem_of_seq; lia).
  assert (forall r, again_ok cf (log b) r -> tries (log b) (rkbuf_id r) <= cf_max_retries cf + 1) as Hag.
  { intros r [[_ _ _ Hr] Hs _ _ Ht]. specialize (Hr Hs). lia. }
  unfold all_ids, ids in Hin. rewrite !elem_of_app in Hin. destruct A as [_ Hh _ Hre Ho Hp Hd _]. rewrite Forall_forall in Hh. rewrite Forall_forall in Hre.
  rewrite Forall_forall in Ho. rewrite Forall_forall in Hp. rewrite Forall_forall in Hd.
  destruct Hin as [Hin|[Hin|[Hin|[Hin|Hin]]]]; apply list_elem_of_fmap in Hin as (r & -> & Hin).
  - by apply (hand_ok_bound cf CO), Hh.
  - by apply Hag, Hre.
  - destruct (ops_reqs_elem _ _ Hin) as (o & Hlr & Hro). specialize (Ho o Hlr). destruct o as [x|x| | |]; cbn in *;
      try (by apply elem_of_nil in Hro); apply list_elem_of_singleton in Hro as ->; by apply Hag in Ho.
  - apply list_elem_of_fmap in Hin as (x & -> & Hin). destruct (Hp x Hin) as [[_ _ _ Hr] Hs _ Ht]. specialize (Hr Hs). destruct (rkbuf_sent x.1); lia.
  - by apply Hd.
Qed.

Lemma broker_transmissions_bounded_witness : tries (log (demo_at true 12)) 0 = 1 /\ tries (log (demo_at true 12)) 0 <= cf_max_retries demo_cf + 1.
Proof.
  split; [vm_compute; reflexivity|]. apply (broker_transmissions_bounded demo_cf (demo_run true 12)). apply demo_reaches; vm_compute; reflexivity.
Defined.

(** ** Timeouts *)

(** C12. A timeout scan in a state that is reached with the promises kept and the
    two situations of [handled] absent, when the clock does not read 0 and no
    request that sets up the connection is due in the send queue in front of another: it
    returns, whichever requests their callbacks retry or finish, and leaves no request in the three
    queues whose time is up; the requests it took out were answered or wait
    for another try, and all are accounted for. *)
Theorem broker_timeouts_served cf en l b :
  reaches cf l b -> env_ok cf en -> rkb_now b <> 0 -> due_setup_last (rkb_now b) (outs b) ->
  exists b', broker_step cf en b EV_scan = Ret b' /\ rkb_now b' = rkb_now b /\
    Forall (fun r => rkb_now b < rkbuf_ts_timeout r) (waits b' ++ retries b' ++ outs b') /\
    all_ids (outs b' ++ waits b') b' ≡ₚ seq 0 (rkb_next b') /\ counted b'.
Proof.
  intros R EO Hn Hset. pose proof (reaches_good _ _ _ R) as G. destruct R as [CO _].
  pose proof (timeout_scan_good cf en CO (rkb_now b) [] b G eq_refl Hn Hset) as H. cbn [broker_step].
  destruct (rd_kafka_broker_timeout_scan cf en (rkb_now b) b) as [b'| |]; [|done|done]. destruct H as (G' & Hd & N). exists b'. split; [done|]. split; [done|].
  split; [|by destruct (good_counted cf b' G')]. eapply Forall_impl; [exact Hd|]. by intros r [_ ?].
Qed.

(** A request waits for its response for six seconds. *)
Definition demo_late : list event := take 9 demo_events ++ [EV_time 6000000].

Definition demo_late_at (retry : bool) : broker :=
  match broker_run demo_cf demo_new (map (pair (demo_env retry)) demo_late) with Ret b => b | _ => demo_new end.

Lemma broker_timeouts_served_witness :
  length (waits (demo_late_at true)) = 1%nat /\
  exists b', broker_step demo_cf (demo_env true) (demo_late_at true) EV_scan = Ret b' /\ rkb_now b' = rkb_now (demo_late_at true) /\
    Forall (fun r => rkb_now (demo_late_at true) < rkbuf_ts_timeout r) (waits b' ++ retries b' ++ outs b') /\
    all_ids (outs b' ++ waits b') b' ≡ₚ seq 0 (rkb_next b') /\ counted b'.
Proof.
  split; [vm_compute; reflexivity|].
  apply (broker_timeouts_served demo_cf (demo_env true) (map (pair (demo_env true)) demo_late)); [|apply demo_env_ok|vm_compute; done|].
  - apply demo_reaches; vm_compute; reflexivity.
  - apply due_setup_lastb_ok. vm_compute. reflexivity.
Defined.

(** ** Defects *)

(** The clock moves on while the ApiVersion request is in the send queue. *)
Definition stalled : list event := take 3 demo_events ++ [EV_time 20000000].

(** A connection fails after a request was sent, and no other one is made. *)
Definition unconnected : list event :=
  [EV_connect CR_ok; io_connected; io_write [WR_bytes 100]; EV_arrive (response_frame (1, [7])); io_read [RR_bytes 100; RR_bytes 100];
   EV_request true (mk_new 3 0 0 false false false false true 0 5000 [1; 2; 3] 0); io_write [WR_bytes 100];
   EV_io (mk_io None false SR_more None true None)].

Definition term_env : env := mk_env true false (fun _ _ _ => false) (fun _ => Ret (inr [mk_api 3 0 1])) (fun _ => Ret 0) true true [].

Definition after (retry : bool) (l : list event) : broker :=
  match broker_run demo_cf demo_new (map (pair (demo_env retry)) l) with Ret b => b | _ => demo_new end.

(** Four situations.  An ApiVersion request that is due in the send queue in front of
    another request: its callback fails the broker, which takes the request
    the scan visits next out of the queue, and here hands it to its reply queue.  The answer to the last
    blocking request leaves no blocking request and does not tell those who wait for
    it.  A request that was sent once and whose connection failed is given up after two
    tries more that were never sent, because a retry counts as sent until the request
    joins the send queue again.  The scan of a terminating client takes a
    partly sent request out of the send queue and keeps the connection: what is sent next
    is read by the server as the rest of that request. *)
Theorem broker_thread_defects :
  (reaches demo_cf (map (pair (demo_env false)) stalled) (after false stalled) /\
   broker_step demo_cf (demo_env false) (after false stalled) EV_scan = Crash) /\
  (let b := after false (take 10 demo_events) in
   exists b', reaches demo_cf (map (pair (demo_env false)) (take 10 demo_events)) b /\
     broker_step demo_cf (demo_env false) b (io_read [RR_bytes 100; RR_bytes 100]) = Ret b' /\
     rkb_blocking_request_cnt b = 1 /\ rkb_blocking_request_cnt b' = 0 /\
     rk_broker_state_version (rkb_rk b') = rk_broker_state_version (rkb_rk b)) /\
  (let l := unconnected ++ [EV_time 6000000; EV_scan; EV_time 6000000; EV_scan] in
   reaches demo_cf (map (pair (demo_env true)) l) (after true l) /\
   tries (log (after true l)) 1 = 1 /\ (1%nat, ERR__TIMED_OUT_QUEUE) ∈ rkb_done (after true l) /\ cf_max_retries demo_cf = 2) /\
  (exists b, broker_run demo_cf (after false (take 8 demo_events))
      [(term_env, EV_terminating); (term_env, EV_request true (demo_request false)); (term_env, io_write [WR_bytes 100])] = Ret b /\
    linked (rkb_conn b) /\ fst (frames (tx_bytes (rkb_wire b))) <> map rkbuf_bytes (cur_log b)).
Proof.
  split; [|split; [|split]].
  - split; [apply demo_reaches; vm_compute; reflexivity|vm_compute; reflexivity].
  - cbn zeta. eexists. split; [apply demo_reaches; vm_compute; reflexivity|]. split; [vm_compute; reflexivity|]. vm_compute. done.
  - cbn zeta. split; [apply demo_reaches; vm_compute; reflexivity|]. split; [vm_compute; reflexivity|]. split; [|done]. vm_compute. right. left.
  - eexists. split; [vm_compute; reflexivity|]. vm_compute. done.
Qed.
