(* ===== verification/TopparState.v ===== *)
(** * A consumed partition: state (rdkafka_partition.h)

    Three threads share a partition: the application bumps [rktp_version] and
    takes operations from [rktp_fetchq]; the main thread serves [rktp_ops] and the
    timers ([ctl]); the broker thread fetches ([fet]).  What is outstanding
    elsewhere is explicit ([net]), and so is what the application, the group and
    the brokers see ([tp_out]).  The fetch queue is the partition's own, it is not
    forwarded. *)
From Stdlib Require Import ZArith Lia.
From stdpp Require Import base numbers list.
From S2P Require Import Prelude.
From S2P Require Import Proto.
From S2P Require Import Msg.
From S2P Require Import Queue.
From S2P Require Import MsgsetReader.

(** ** Constants *)

Definition OFFSET_BEGINNING : Z := -2.
Definition OFFSET_END : Z := -1.
Definition OFFSET_STORED : Z := -1000.
Definition OFFSET_INVALID : Z := -1001.
Definition OFFSET_TAIL_BASE : Z := -2000.
Definition OFFSET_IS_LOGICAL (o : Z) : bool := o <? 0.

Definition F_OFFSET_STORE : Z := 0x4.
Definition F_OFFSET_STORE_STOPPING : Z := 0x8.
Definition F_APP_PAUSE : Z := 0x10.
Definition F_LIB_PAUSE : Z := 0x20.
Definition F_REMOVE : Z := 0x40.

Definition ERR_OFFSET_OUT_OF_RANGE : Z := 1.
Definition ERR__DESTROY : Z := -197.
Definition ERR__PARTITION_EOF : Z := -191.
Definition ERR__UNKNOWN_PARTITION : Z := -190.
Definition ERR__INVALID_ARG : Z := -186.
Definition ERR__WAIT_COORD : Z := -180.
Definition ERR__IN_PROGRESS : Z := -178.
Definition ERR__PREV_IN_PROGRESS : Z := -177.
Definition ERR__STATE : Z := -172.
Definition ERR__NO_OFFSET : Z := -168.
Definition ERR__OUTDATED : Z := -167.

Definition has_flag (flags f : Z) : bool := negb (Z.land flags f =? 0).

(** ** Data *)

Inductive tp_state : Type :=
  | FETCH_NONE | FETCH_STOPPING | FETCH_STOPPED
  | FETCH_OFFSET_QUERY | FETCH_OFFSET_WAIT | FETCH_ACTIVE.

#[export] Instance tp_state_eq_dec : EqDecision tp_state.
Proof. solve_decision. Defined.

Definition in_state (s t : tp_state) : bool := bool_decide (s = t).

(** [RD_KAFKA_TOPPAR_FETCH_IS_STARTED] *)
Definition FETCH_IS_STARTED (s : tp_state) : bool :=
  match s with
  | FETCH_OFFSET_QUERY | FETCH_OFFSET_WAIT | FETCH_ACTIVE => true
  | _ => false
  end.

Inductive offset_method : Type := METHOD_NONE | METHOD_BROKER.

#[export] Instance offset_method_eq_dec : EqDecision offset_method.
Proof. solve_decision. Defined.

(** A timer: when it fires next, 0 when it is not scheduled, and its interval, 0
    when it is stopped. *)
Record tmr : Type := mk_tmr { t_next : Z; t_interval : Z }.

Record offset_stats : Type := mk_stats {
  os_fetch_offset : Z;
  os_eof_offset : Z;
  os_hi_offset : Z }.

(** An OffsetRequest: the broker, the version and the offset asked for. *)
Record offset_req : Type := mk_offset_req { or_rkb : Z; or_version : Z; or_offset : Z }.

(** Operations for the main thread.  [TP_RECV_OFFSET] is the response to an
    OffsetRequest with the result of [rd_kafka_handle_Offset] and the offset it
    found for the partition. *)
Inductive tp_op_u : Type :=
  | TP_FETCH_START (offset : Z) (rkcg : bool)
  | TP_FETCH_STOP
  | TP_SEEK (offset : Z)
  | TP_PAUSE (pause : bool) (flag : Z)
  | TP_OFFSET_COMMIT_REPLY (err : Z) (offsets : list (Z * Z))
  | TP_OFFSET_FETCH_REPLY (err part_err offset : Z)
  | TP_OFFSET_RESET (offset err : Z)
  | TP_RECV_OFFSET (req : offset_req) (err : Z) (found : option Z).

Record tp_op : Type := mk_tp_op {
  tp_op_version : Z;
  tp_op_replyq : option Z;
  tp_op_type : tp_op_u }.

(** The partition in a Fetch request. *)
Record fetch_req : Type := mk_fetch_req { fr_rkb : Z; fr_offset : Z; fr_version : Z }.

Record migr_op : Type := mk_migr { mg_dest : Z; mg_join : bool }.

(** What others see: a message or an error handed to the application, the answer
    to a call of the application, a new start of the fetcher (version and offset),
    joining and leaving the group. *)
Inductive tp_out_t : Type :=
  | OUT_message (version offset : Z)
  | OUT_error (err offset : Z)
  | OUT_error_cb (err : Z)
  | OUT_reply (replyq err : Z)
  | OUT_start (version offset : Z)
  | OUT_group (join : bool)
  | OUT_refresh.

(** The broker thread's part. *)
Record fet : Type := mk_fet {
  rktp_fetch : bool;  (* on the broker's list of partitions to fetch *)
  rktp_fetch_version : Z;
  rktp_last_next_offset : Z;
  rktp_ts_fetch_backoff : Z;
  rktp_reader : fetch_state;  (* rktp_offsets.fetch_offset and what the parser keeps *)
  rktp_eof_offset : Z;  (* rktp_offsets.eof_offset *)
  rktp_offsets_hi : Z }.  (* rktp_offsets.hi_offset *)

Definition fe_fetch (x : bool) (f : fet) : fet :=
  mk_fet x (rktp_fetch_version f) (rktp_last_next_offset f) (rktp_ts_fetch_backoff f) (rktp_reader f)
    (rktp_eof_offset f) (rktp_offsets_hi f).
Definition fe_fetch_version (x : Z) (f : fet) : fet :=
  mk_fet (rktp_fetch f) x (rktp_last_next_offset f) (rktp_ts_fetch_backoff f) (rktp_reader f) (rktp_eof_offset f)
    (rktp_offsets_hi f).
Definition fe_last_next_offset (x : Z) (f : fet) : fet :=
  mk_fet (rktp_fetch f) (rktp_fetch_version f) x (rktp_ts_fetch_backoff f) (rktp_reader f) (rktp_eof_offset f)
    (rktp_offsets_hi f).
Definition fe_ts_fetch_backoff (x : Z) (f : fet) : fet :=
  mk_fet (rktp_fetch f) (rktp_fetch_version f) (rktp_last_next_offset f) x (rktp_reader f) (rktp_eof_offset f)
    (rktp_offsets_hi f).
Definition fe_reader (x : fetch_state) (f : fet) : fet :=
  mk_fet (rktp_fetch f) (rktp_fetch_version f) (rktp_last_next_offset f) (rktp_ts_fetch_backoff f) x
    (rktp_eof_offset f) (rktp_offsets_hi f).
Definition fe_eof_offset (x : Z) (f : fet) : fet :=
  mk_fet (rktp_fetch f) (rktp_fetch_version f) (rktp_last_next_offset f) (rktp_ts_fetch_backoff f) (rktp_reader f) x
    (rktp_offsets_hi f).
Definition fe_offsets_hi (x : Z) (f : fet) : fet :=
  mk_fet (rktp_fetch f) (rktp_fetch_version f) (rktp_last_next_offset f) (rktp_ts_fetch_backoff f) (rktp_reader f)
    (rktp_eof_offset f) x.

(** The main thread's part. *)
Record ctl : Type := mk_ctl {
  rktp_fetch_state : tp_state;
  rktp_op_version : Z;
  rktp_query_offset : Z;
  rktp_next_offset : Z;
  rktp_committing_offset : Z;
  rktp_committed_offset : Z;
  rktp_cgrp : bool;  (* rktp_cgrp is not NULL *)
  rktp_replyq : option Z;  (* rktp_replyq.q *)
  rktp_flags : Z;
  rktp_offset_query_tmr : tmr;
  rktp_offset_commit_tmr : tmr }.

Definition ct_fetch_state (x : tp_state) (c : ctl) : ctl :=
  mk_ctl x (rktp_op_version c) (rktp_query_offset c) (rktp_next_offset c) (rktp_committing_offset c)
    (rktp_committed_offset c) (rktp_cgrp c) (rktp_replyq c) (rktp_flags c) (rktp_offset_query_tmr c)
    (rktp_offset_commit_tmr c).
Definition ct_op_version (x : Z) (c : ctl) : ctl :=
  mk_ctl (rktp_fetch_state c) x (rktp_query_offset c) (rktp_next_offset c) (rktp_committing_offset c)
    (rktp_committed_offset c) (rktp_cgrp c) (rktp_replyq c) (rktp_flags c) (rktp_offset_query_tmr c)
    (rktp_offset_commit_tmr c).
Definition ct_query_offset (x : Z) (c : ctl) : ctl :=
  mk_ctl (rktp_fetch_state c) (rktp_op_version c) x (rktp_next_offset c) (rktp_committing_offset c)
    (rktp_committed_offset c) (rktp_cgrp c) (rktp_replyq c) (rktp_flags c) (rktp_offset_query_tmr c)
    (rktp_offset_commit_tmr c).
Definition ct_next_offset (x : Z) (c : ctl) : ctl :=
  mk_ctl (rktp_fetch_state c) (rktp_op_version c) (rktp_query_offset c) x (rktp_committing_offset c)
    (rktp_committed_offset c) (rktp_cgrp c) (rktp_replyq c) (rktp_flags c) (rktp_offset_query_tmr c)
    (rktp_offset_commit_tmr c).
Definition ct_committing_offset (x : Z) (c : ctl) : ctl :=
  mk_ctl (rktp_fetch_state c) (rktp_op_version c) (rktp_query_offset c) (rktp_next_offset c) x
    (rktp_committed_offset c) (rktp_cgrp c) (rktp_replyq c) (rktp_flags c) (rktp_offset_query_tmr c)
    (rktp_offset_commit_tmr c).
Definition ct_committed_offset (x : Z) (c : ctl) : ctl :=
  mk_ctl (rktp_fetch_state c) (rktp_op_version c) (rktp_query_offset c) (rktp_next_offset c)
    (rktp_committing_offset c) x (rktp_cgrp c) (rktp_replyq c) (rktp_flags c) (rktp_offset_query_tmr c)
    (rktp_offset_commit_tmr c).
Definition ct_cgrp (x : bool) (c : ctl) : ctl :=
  mk_ctl (rktp_fetch_state c) (rktp_op_version c) (rktp_query_offset c) (rktp_next_offset c)
    (rktp_committing_offset c) (rktp_committed_offset c) x (rktp_replyq c) (rktp_flags c) (rktp_offset_query_tmr c)
    (rktp_offset_commit_tmr c).
Definition ct_replyq (x : option Z) (c : ctl) : ctl :=
  mk_ctl (rktp_fetch_state c) (rktp_op_version c) (rktp_query_offset c) (rktp_next_offset c)
    (rktp_committing_offset c) (rktp_committed_offset c) (rktp_cgrp c) x (rktp_flags c) (rktp_offset_query_tmr c)
    (rktp_offset_commit_tmr c).
Definition ct_flags (x : Z) (c : ctl) : ctl :=
  mk_ctl (rktp_fetch_state c) (rktp_op_version c) (rktp_query_offset c) (rktp_next_offset c)
    (rktp_committing_offset c) (rktp_committed_offset c) (rktp_cgrp c) (rktp_replyq c) x (rktp_offset_query_tmr c)
    (rktp_offset_commit_tmr c).
Definition ct_offset_query_tmr (x : tmr) (c : ctl) : ctl :=
  mk_ctl (rktp_fetch_state c) (rktp_op_version c) (rktp_query_offset c) (rktp_next_offset c)
    (rktp_committing_offset c) (rktp_committed_offset c) (rktp_cgrp c) (rktp_replyq c) (rktp_flags c) x
    (rktp_offset_commit_tmr c).
Definition ct_offset_commit_tmr (x : tmr) (c : ctl) : ctl :=
  mk_ctl (rktp_fetch_state c) (rktp_op_version c) (rktp_query_offset c) (rktp_next_offset c)
    (rktp_committing_offset c) (rktp_committed_offset c) (rktp_cgrp c) (rktp_replyq c) (rktp_flags c)
    (rktp_offset_query_tmr c) x.

(** What is outstanding elsewhere. *)
Record net : Type := mk_net {
  n_offset_reqs : list offset_req;  (* OffsetRequests at brokers *)
  n_offset_fetches : list Z;  (* OffsetFetch at the group: versions *)
  n_commits : list Z;  (* OffsetCommit at the group: offsets *)
  n_fetches : list fetch_req;  (* Fetch requests at brokers *)
  n_migr : list migr_op }.  (* JOIN and LEAVE on their way to broker threads *)

Definition ne_offset_reqs (x : list offset_req) (n : net) : net :=
  mk_net x (n_offset_fetches n) (n_commits n) (n_fetches n) (n_migr n).
Definition ne_offset_fetches (x : list Z) (n : net) : net :=
  mk_net (n_offset_reqs n) x (n_commits n) (n_fetches n) (n_migr n).
Definition ne_commits (x : list Z) (n : net) : net :=
  mk_net (n_offset_reqs n) (n_offset_fetches n) x (n_fetches n) (n_migr n).
Definition ne_fetches (x : list fetch_req) (n : net) : net :=
  mk_net (n_offset_reqs n) (n_offset_fetches n) (n_commits n) x (n_migr n).
Definition ne_migr (x : list migr_op) (n : net) : net :=
  mk_net (n_offset_reqs n) (n_offset_fetches n) (n_commits n) (n_fetches n) x.

Record toppar : Type := mk_toppar {
  tp_ctl : ctl;
  tp_fet : fet;
  tp_net : net;
  rktp_fetchq : rd_kafka_q;
  rktp_ops : list tp_op;
  rktp_version : Z;
  rktp_app_offset : Z;
  rktp_stored_offset : Z;
  rktp_leader : option Z;
  rktp_next_leader : option Z;
  rktp_s_for_rkb : bool;  (* rktp_s_for_rkb is not NULL *)
  rktp_offsets_fin : offset_stats;
  rktp_hi_offset : Z;
  tp_now : Z;  (* rd_clock() *)
  tp_out : list tp_out_t }.  (* what others see, in order *)

Definition set_ctl (x : ctl) (t : toppar) : toppar :=
  mk_toppar x (tp_fet t) (tp_net t) (rktp_fetchq t) (rktp_ops t) (rktp_version t) (rktp_app_offset t)
    (rktp_stored_offset t) (rktp_leader t) (rktp_next_leader t) (rktp_s_for_rkb t) (rktp_offsets_fin t)
    (rktp_hi_offset t) (tp_now t) (tp_out t).
Definition set_fet (x : fet) (t : toppar) : toppar :=
  mk_toppar (tp_ctl t) x (tp_net t) (rktp_fetchq t) (rktp_ops t) (rktp_version t) (rktp_app_offset t)
    (rktp_stored_offset t) (rktp_leader t) (rktp_next_leader t) (rktp_s_for_rkb t) (rktp_offsets_fin t)
    (rktp_hi_offset t) (tp_now t) (tp_out t).
Definition set_net (x : net) (t : toppar) : toppar :=
  mk_toppar (tp_ctl t) (tp_fet t) x (rktp_fetchq t) (rktp_ops t) (rktp_version t) (rktp_app_offset t)
    (rktp_stored_offset t) (rktp_leader t) (rktp_next_leader t) (rktp_s_for_rkb t) (rktp_offsets_fin t)
    (rktp_hi_offset t) (tp_now t) (tp_out t).
Definition set_fetchq (x : rd_kafka_q) (t : toppar) : toppar :=
  mk_toppar (tp_ctl t) (tp_fet t) (tp_net t) x (rktp_ops t) (rktp_version t) (rktp_app_offset t)
    (rktp_stored_offset t) (rktp_leader t) (rktp_next_leader t) (rktp_s_for_rkb t) (rktp_offsets_fin t)
    (rktp_hi_offset t) (tp_now t) (tp_out t).
Definition set_ops (x : list tp_op) (t : toppar) : toppar :=
  mk_toppar (tp_ctl t) (tp_fet t) (tp_net t) (rktp_fetchq t) x (rktp_version t) (rktp_app_offset t)
    (rktp_stored_offset t) (rktp_leader t) (rktp_next_leader t) (rktp_s_for_rkb t) (rktp_offsets_fin t)
    (rktp_hi_offset t) (tp_now t) (tp_out t).
Definition set_version (x : Z) (t : toppar) : toppar :=
  mk_toppar (tp_ctl t) (tp_fet t) (tp_net t) (rktp_fetchq t) (rktp_ops t) x (rktp_app_offset t) (rktp_stored_offset t)
    (rktp_leader t) (rktp_next_leader t) (rktp_s_for_rkb t) (rktp_offsets_fin t) (rktp_hi_offset t) (tp_now t)
    (tp_out t).
Definition set_app_offset (x : Z) (t : toppar) : toppar :=
  mk_toppar (tp_ctl t) (tp_fet t) (tp_net t) (rktp_fetchq t) (rktp_ops t) (rktp_version t) x (rktp_stored_offset t)
    (rktp_leader t) (rktp_next_leader t) (rktp_s_for_rkb t) (rktp_offsets_fin t) (rktp_hi_offset t) (tp_now t)
    (tp_out t).
Definition set_stored_offset (x : Z) (t : toppar) : toppar :=
  mk_toppar (tp_ctl t) (tp_fet t) (tp_net t) (rktp_fetchq t) (rktp_ops t) (rktp_version t) (rktp_app_offset t) x
    (rktp_leader t) (rktp_next_leader t) (rktp_s_for_rkb t) (rktp_offsets_fin t) (rktp_hi_offset t) (tp_now t)
    (tp_out t).
Definition set_leader (x : option Z) (t : toppar) : toppar :=
  mk_toppar (tp_ctl t) (tp_fet t) (tp_net t) (rktp_fetchq t) (rktp_ops t) (rktp_version t) (rktp_app_offset t)
    (rktp_stored_offset t) x (rktp_next_leader t) (rktp_s_for_rkb t) (rktp_offsets_fin t) (rktp_hi_offset t)
    (tp_now t) (tp_out t).
Definition set_next_leader (x : option Z) (t : toppar) : toppar :=
  mk_toppar (tp_ctl t) (tp_fet t) (tp_net t) (rktp_fetchq t) (rktp_ops t) (rktp_version t) (rktp_app_offset t)
    (rktp_stored_offset t) (rktp_leader t) x (rktp_s_for_rkb t) (rktp_offsets_fin t) (rktp_hi_offset t) (tp_now t)
    (tp_out t).
Definition set_s_for_rkb (x : bool) (t : toppar) : toppar :=
  mk_toppar (tp_ctl t) (tp_fet t) (tp_net t) (rktp_fetchq t) (rktp_ops t) (rktp_version t) (rktp_app_offset t)
    (rktp_stored_offset t) (rktp_leader t) (rktp_next_leader t) x (rktp_offsets_fin t) (rktp_hi_offset t) (tp_now t)
    (tp_out t).
Definition set_offsets_fin (x : offset_stats) (t : toppar) : toppar :=
  mk_toppar (tp_ctl t) (tp_fet t) (tp_net t) (rktp_fetchq t) (rktp_ops t) (rktp_version t) (rktp_app_offset t)
    (rktp_stored_offset t) (rktp_leader t) (rktp_next_leader t) (rktp_s_for_rkb t) x (rktp_hi_offset t) (tp_now t)
    (tp_out t).
Definition set_hi_offset (x : Z) (t : toppar) : toppar :=
  mk_toppar (tp_ctl t) (tp_fet t) (tp_net t) (rktp_fetchq t) (rktp_ops t) (rktp_version t) (rktp_app_offset t)
    (rktp_stored_offset t) (rktp_leader t) (rktp_next_leader t) (rktp_s_for_rkb t) (rktp_offsets_fin t) x (tp_now t)
    (tp_out t).
Definition set_now (x : Z) (t : toppar) : toppar :=
  mk_toppar (tp_ctl t) (tp_fet t) (tp_net t) (rktp_fetchq t) (rktp_ops t) (rktp_version t) (rktp_app_offset t)
    (rktp_stored_offset t) (rktp_leader t) (rktp_next_leader t) (rktp_s_for_rkb t) (rktp_offsets_fin t)
    (rktp_hi_offset t) x (tp_out t).
Definition set_out (x : list tp_out_t) (t : toppar) : toppar :=
  mk_toppar (tp_ctl t) (tp_fet t) (tp_net t) (rktp_fetchq t) (rktp_ops t) (rktp_version t) (rktp_app_offset t)
    (rktp_stored_offset t) (rktp_leader t) (rktp_next_leader t) (rktp_s_for_rkb t) (rktp_offsets_fin t)
    (rktp_hi_offset t) (tp_now t) x.

(** Updates of the parts. *)
Definition upd_ctl (g : ctl -> ctl) (t : toppar) : toppar := set_ctl (g (tp_ctl t)) t.
Definition upd_fet (g : fet -> fet) (t : toppar) : toppar := set_fet (g (tp_fet t)) t.
Definition upd_net (g : net -> net) (t : toppar) : toppar := set_net (g (tp_net t)) t.
Definition emit (e : tp_out_t) (t : toppar) : toppar := set_out (tp_out t ++ [e]) t.
Definition rktp_enq (o : rd_kafka_op) (t : toppar) : toppar :=
  set_fetchq (rd_kafka_q_enq (rktp_fetchq t) o).1 t.
Definition rktp_ops_enq (o : tp_op) (t : toppar) : toppar := set_ops (rktp_ops t ++ [o]) t.

(** ** Configuration *)

Record tp_conf : Type := mk_tp_conf {
  auto_offset_reset : Z;
  offset_store_method : offset_method;
  auto_commit_interval_ms : Z;
  enable_auto_offset_store : bool;
  enable_partition_eof : bool;
  fetch_error_backoff_ms : Z;
  fetch_msg_max_bytes : Z;
  queued_min_msgs : Z;
  queued_max_msg_bytes : Z;
  simple_consumer : bool;  (* rd_kafka_is_simple_consumer *)
  has_cgrp : bool;  (* rk_cgrp is not NULL *)
  internal_broker : Z }.  (* the broker with rkb_source RD_KAFKA_INTERNAL *)
