(* ===== verification/Toppar.v ===== *)
(** * A consumed partition: operations (rdkafka_partition.c, rdkafka_offset.c)

    One definition per function, with those parts of rdkafka_broker.c,
    rdkafka_queue.c and rdkafka.c that fetch messages for a partition, hand them to
    the application and move the partition between brokers.  Which thread runs a
    function is an argument only where the code asks for it.  The contents of
    responses are arguments; the MessageSet of a Fetch response is given as the
    parser of its bytes.  Locks, reference counts and debug output are left
    out, and so is the offset store in files. *)
From Stdlib Require Import ZArith Lia.
From stdpp Require Import base numbers list.
From S2P Require Import Prelude.
From S2P Require Import Proto.
From S2P Require Import Msg.
From S2P Require Import Queue.
From S2P Require Import MsgsetReader.
From S2P Require Import TopparState.

Inductive thread : Type := MAIN | BROKER.

(** ** Timers of a partition (rdkafka_timer.c) *)

Definition tmr_start (now interval : Z) : tmr := mk_tmr (now + interval) interval.
Definition tmr_stop (x : tmr) : tmr := if t_interval x =? 0 then x else mk_tmr 0 0.

(** [rd_kafka_timer_next]: the time that is left, or -1. *)
Definition tmr_next (now : Z) (x : tmr) : Z :=
  if t_next x =? 0 then -1 else Z.max 0 (t_next x - now).

(** ** Queues *)

Definition rd_kafka_op_version_outdated (op_version version rktp_version : Z) : bool :=
  if op_version =? 0 then false
  else if negb (version =? 0) then op_version <? version
  else op_version <? rktp_version.

Fixpoint purge_loop (l : list rd_kafka_op) (version : Z) : list rd_kafka_op * Z * Z :=
  match l with
  | o :: rest =>
      if rko_version o <? version then
        let '(kept, cnt, size) := purge_loop rest version in (kept, cnt + 1, size + rko_len o)
      else (l, 0, 0)
  | [] => ([], 0, 0)
  end.

Definition rd_kafka_q_purge_toppar_version (q : rd_kafka_q) (version : Z) : rd_kafka_q :=
  let '(kept, cnt, size) := purge_loop (rkq_q q) version in
  mk_rkq kept (rkq_qlen q - cnt) (rkq_qsize q - size) (rkq_ready q).

(** The first operation that is not outdated, without waiting for one.  Outdated
    ones are dropped. *)
Fixpoint pop_loop (l : list rd_kafka_op) (q : rd_kafka_q) (rktp_version : Z)
  : option rd_kafka_op * rd_kafka_q :=
  match l with
  | [] => (None, q)
  | o :: rest =>
      let q' := mk_rkq rest (rkq_qlen q - 1) (rkq_qsize q - rko_len o) (rkq_ready q) in
      if rd_kafka_op_version_outdated (rko_version o) 0 rktp_version
      then pop_loop rest q' rktp_version
      else (Some o, q')
  end.

Definition rd_kafka_q_pop (q : rd_kafka_q) (rktp_version : Z) : option rd_kafka_op * rd_kafka_q :=
  pop_loop (rkq_q q) q rktp_version.

(** ** Offsets (rdkafka_offset.c, rdkafka_partition.c) *)

Section toppar.
Context (cf : tp_conf).

Definition rd_kafka_toppar_set_fetch_state (s : tp_state) (t : toppar) : toppar :=
  if in_state (rktp_fetch_state (tp_ctl t)) s then t else upd_ctl (ct_fetch_state s) t.

Definition rd_kafka_toppar_offset_retry (backoff_ms : Z) (t : toppar) : toppar :=
  let next := tmr_next (tp_now t) (rktp_offset_query_tmr (tp_ctl t)) in
  let restart := (next =? -1) || (next >? tp_now t + backoff_ms * 1000) in
  let t := rd_kafka_toppar_set_fetch_state FETCH_OFFSET_QUERY t in
  if restart then upd_ctl (ct_offset_query_tmr (tmr_start (tp_now t) (backoff_ms * 1000))) t else t.

Definition rd_kafka_toppar_offset_fetch (version : Z) (t : toppar) : outcome toppar :=
  assert! (rktp_cgrp (tp_ctl t)) in
  Ret (upd_net (fun n => ne_offset_fetches (n_offset_fetches n ++ [version]) n) t).

Definition rd_kafka_toppar_offset_request (query_offset backoff_ms : Z) (t : toppar) : outcome toppar :=
  match rktp_leader t with
  | Some rkb =>
      let backoff_ms := if (backoff_ms =? 0) && (rkb =? internal_broker cf) then 500 else backoff_ms in
      if negb (backoff_ms =? 0) then Ret (rd_kafka_toppar_offset_retry backoff_ms t)
      else
        let t := upd_ctl (fun c => ct_offset_query_tmr (tmr_stop (rktp_offset_query_tmr c)) c) t in
        let version := rktp_op_version (tp_ctl t) in
        let! t :=
          if (query_offset =? OFFSET_STORED) && bool_decide (offset_store_method cf = METHOD_BROKER)
          then rd_kafka_toppar_offset_fetch version t
          else
            let q := if query_offset <=? OFFSET_TAIL_BASE then OFFSET_END else query_offset in
            Ret (upd_net (fun n => ne_offset_reqs (n_offset_reqs n ++ [mk_offset_req rkb version q]) n) t) in
        Ret (rd_kafka_toppar_set_fetch_state FETCH_OFFSET_WAIT t)
  | None => Ret (rd_kafka_toppar_offset_retry (if backoff_ms =? 0 then 500 else backoff_ms) t)
  end.

(** The fetch queue's [RD_KAFKA_OP_CONSUMER_ERR]. *)
Definition consumer_err (version err offset : Z) : rd_kafka_op :=
  mk_rko version err 0 0 (RD_KAFKA_OP_CONSUMER_ERR offset).

(** [RD_KAFKA_OP_ERR], an error for the error callback. *)
Definition op_err (err : Z) : rd_kafka_op := mk_rko 0 err 0 0 (RD_KAFKA_OP_OTHER 2).

Definition rd_kafka_offset_reset (th : thread) (err_offset err : Z) (t : toppar) : outcome toppar :=
  match th with
  | BROKER => Ret (rktp_ops_enq (mk_tp_op 0 None (TP_OFFSET_RESET err_offset err)) t)
  | MAIN =>
      let offset := if (err_offset =? OFFSET_INVALID) || negb (err =? 0)
                    then auto_offset_reset cf else err_offset in
      let t :=
        if offset =? OFFSET_INVALID then
          rd_kafka_toppar_set_fetch_state FETCH_NONE (rktp_enq (consumer_err 0 err err_offset) t)
        else
          rd_kafka_toppar_set_fetch_state FETCH_OFFSET_QUERY (upd_ctl (ct_query_offset offset) t) in
      if in_state (rktp_fetch_state (tp_ctl t)) FETCH_OFFSET_QUERY
      then rd_kafka_toppar_offset_request (rktp_query_offset (tp_ctl t)) 0 t
      else Ret t
  end.

(** The offset that [OFFSET_TAIL] asks for, relative to the end. *)
Definition tail_adjust (query_offset Offset : Z) : Z :=
  if query_offset <=? OFFSET_TAIL_BASE then
    let tail_cnt := Z.abs (query_offset - OFFSET_TAIL_BASE) in
    if tail_cnt >? Offset then 0 else Offset - tail_cnt
  else Offset.

Definition rd_kafka_toppar_next_offset_handle (Offset : Z) (t : toppar) : outcome toppar :=
  if OFFSET_IS_LOGICAL Offset then rd_kafka_offset_reset MAIN Offset 0 t
  else
    let Offset := tail_adjust (rktp_query_offset (tp_ctl t)) Offset in
    Ret (rd_kafka_toppar_set_fetch_state FETCH_ACTIVE (upd_ctl (ct_next_offset Offset) t)).

(** [err] is the result of [rd_kafka_handle_Offset]; with __IN_PROGRESS the
    request was sent again. *)
Definition rd_kafka_toppar_handle_Offset (req : offset_req) (err : Z) (found : option Z) (t : toppar)
  : outcome toppar :=
  let moved := negb (err =? ERR__DESTROY) && negb (bool_decide (rktp_leader t = Some (or_rkb req))) in
  let err := if moved then ERR__OUTDATED else err in
  let t := if err =? ERR__IN_PROGRESS
           then upd_net (fun n => ne_offset_reqs (n_offset_reqs n ++ [req]) n) t else t in
  let err := if negb (err =? ERR__DESTROY) && negb (or_version req =? 0)
                && (or_version req <? rktp_op_version (tp_ctl t))
             then ERR__OUTDATED else err in
  match err =? 0, found with
  | true, Some Offset => rd_kafka_toppar_next_offset_handle Offset t
  | ok, _ =>
      let err := if ok then ERR__UNKNOWN_PARTITION else err in
      if err =? ERR__DESTROY then Ret t
      else if err =? ERR__OUTDATED then Ret (rd_kafka_toppar_offset_retry 500 t)
      else if err =? ERR__IN_PROGRESS then Ret t
      else
        let! t := rd_kafka_offset_reset MAIN (rktp_query_offset (tp_ctl t)) err t in
        let q := rktp_query_offset (tp_ctl t) in
        Ret (rktp_enq (consumer_err 0 err (if q <=? OFFSET_TAIL_BASE then q - OFFSET_TAIL_BASE else q)) t)
  end.

(** ** Stopping and committing *)

Definition rd_kafka_toppar_fetch_stopped (err : Z) (t : toppar) : toppar :=
  let t := rd_kafka_toppar_set_fetch_state FETCH_STOPPED t in
  let t := set_app_offset OFFSET_INVALID t in
  let t := if rktp_cgrp (tp_ctl t) then upd_ctl (ct_cgrp false) (emit (OUT_group false) t) else t in
  match rktp_replyq (tp_ctl t) with
  | Some q => upd_ctl (ct_replyq None) (emit (OUT_reply q err) t)
  | None => t
  end.

Definition rd_kafka_offset_store0 (offset : Z) (t : toppar) : toppar := set_stored_offset offset t.

Definition rd_kafka_offset_broker_commit (t : toppar) : outcome (toppar * Z) :=
  assert! (rktp_cgrp (tp_ctl t)) in
  assert! (has_flag (rktp_flags (tp_ctl t)) F_OFFSET_STORE) in
  let t := upd_ctl (ct_committing_offset (rktp_stored_offset t)) t in
  let t := upd_net (fun n => ne_commits (n_commits n ++ [rktp_committing_offset (tp_ctl t)]) n) t in
  Ret (t, ERR__IN_PROGRESS).

Definition rd_kafka_offset_commit (t : toppar) : outcome (toppar * Z) :=
  if rktp_stored_offset t <=? rktp_committed_offset (tp_ctl t) then Ret (t, 0)
  else if rktp_stored_offset t <=? rktp_committing_offset (tp_ctl t) then Ret (t, ERR__PREV_IN_PROGRESS)
  else match offset_store_method cf with
       | METHOD_BROKER => rd_kafka_offset_broker_commit t
       | METHOD_NONE => Ret (t, ERR__INVALID_ARG)
       end.

Definition rd_kafka_offset_store_term (err : Z) (t : toppar) : toppar :=
  let t := upd_ctl (fun c => ct_flags (Z.ldiff (rktp_flags c) F_OFFSET_STORE_STOPPING) c) t in
  let t := upd_ctl (fun c => ct_offset_commit_tmr (tmr_stop (rktp_offset_commit_tmr c)) c) t in
  rd_kafka_toppar_fetch_stopped err t.

Definition rd_kafka_offset_store_stop (t : toppar) : outcome (toppar * Z) :=
  if negb (has_flag (rktp_flags (tp_ctl t)) F_OFFSET_STORE)
  then Ret (rd_kafka_offset_store_term 0 t, 0)
  else
    let t := upd_ctl (fun c => ct_flags (Z.lor (rktp_flags c) F_OFFSET_STORE_STOPPING) c) t in
    let t := if enable_auto_offset_store cf && (rktp_stored_offset t =? OFFSET_INVALID)
                && (os_eof_offset (rktp_offsets_fin t) >? 0)
             then rd_kafka_offset_store0 (os_eof_offset (rktp_offsets_fin t)) t else t in
    let! (t, err) :=
      if simple_consumer cf && (rktp_stored_offset t >? rktp_committed_offset (tp_ctl t))
      then rd_kafka_offset_commit t else Ret (t, 0) in
    if err =? ERR__IN_PROGRESS then Ret (t, err)
    else Ret (rd_kafka_offset_store_term err t, 0).

Definition rd_kafka_toppar_offset_commit_result (err offset : Z) (t : toppar) : toppar :=
  if negb (err =? 0) then rktp_enq (consumer_err 0 err 0) t
  else
    let t := upd_ctl (ct_committed_offset offset) t in
    if in_state (rktp_fetch_state (tp_ctl t)) FETCH_STOPPING
    then rd_kafka_toppar_fetch_stopped err t else t.

Definition rd_kafka_offset_broker_commit_cb (err : Z) (offsets : list (Z * Z)) (t : toppar) : toppar :=
  match offsets with
  | [] => t
  | (offset, part_err) :: _ =>
      let err := if err =? 0 then part_err else err in
      let t := rd_kafka_toppar_offset_commit_result err offset t in
      let t := upd_ctl (ct_committing_offset 0) t in
      if has_flag (rktp_flags (tp_ctl t)) F_OFFSET_STORE_STOPPING
      then rd_kafka_offset_store_term err t else t
  end.

Definition rd_kafka_offset_broker_init (t : toppar) : outcome toppar :=
  if negb (simple_consumer cf) then Ret t else rd_kafka_offset_reset MAIN OFFSET_STORED 0 t.

Definition rd_kafka_offset_store_init (t : toppar) : outcome toppar :=
  let t := upd_ctl (ct_committed_offset OFFSET_INVALID) t in
  let t := if simple_consumer cf && (auto_commit_interval_ms cf >? 0)
           then upd_ctl (ct_offset_commit_tmr (tmr_start (tp_now t) (auto_commit_interval_ms cf * 1000))) t
           else t in
  let! t := match offset_store_method cf with
            | METHOD_BROKER => rd_kafka_offset_broker_init t
            | METHOD_NONE => Ret t
            end in
  Ret (upd_ctl (fun c => ct_flags (Z.lor (rktp_flags c) F_OFFSET_STORE) c) t).

(** ** The operations of the application, in the main thread *)

Definition reply_to (op : tp_op) (err : Z) (t : toppar) : toppar :=
  match tp_op_replyq op with Some q => emit (OUT_reply q err) t | None => t end.

Definition rd_kafka_toppar_fetch_start (offset : Z) (rkcg : bool) (op : tp_op) (t : toppar) : outcome toppar :=
  if in_state (rktp_fetch_state (tp_ctl t)) FETCH_STOPPING then Ret (reply_to op ERR__PREV_IN_PROGRESS t)
  else
    let t := upd_ctl (ct_op_version (tp_op_version op)) t in
    let! t :=
      if rkcg then
        assert! (negb (rktp_cgrp (tp_ctl t))) in
        Ret (emit (OUT_group true) (upd_ctl (ct_cgrp true) t))
      else Ret t in
    let! t :=
      if (offset =? OFFSET_BEGINNING) || (offset =? OFFSET_END) || (offset <=? OFFSET_TAIL_BASE)
      then rd_kafka_toppar_next_offset_handle offset t
      else if offset =? OFFSET_STORED then rd_kafka_offset_store_init t
      else if offset =? OFFSET_INVALID then rd_kafka_offset_reset MAIN offset ERR__NO_OFFSET t
      else Ret (rd_kafka_toppar_set_fetch_state FETCH_ACTIVE (upd_ctl (ct_next_offset offset) t)) in
    let fin := rktp_offsets_fin t in
    let t := set_offsets_fin (mk_stats (os_fetch_offset fin) OFFSET_INVALID (os_hi_offset fin)) t in
    Ret (reply_to op 0 t).

(** Pending lookups are given up. *)
Definition abort_query (t : toppar) : toppar :=
  if in_state (rktp_fetch_state (tp_ctl t)) FETCH_OFFSET_QUERY
  then upd_ctl (fun c => ct_offset_query_tmr (tmr_stop (rktp_offset_query_tmr c)) c) t else t.

Definition rd_kafka_toppar_fetch_stop (op : tp_op) (t : toppar) : outcome toppar :=
  let t := upd_ctl (ct_op_version (tp_op_version op)) t in
  let t := abort_query t in
  assert! (bool_decide (rktp_replyq (tp_ctl t) = None)) in
  let t := upd_ctl (ct_replyq (tp_op_replyq op)) t in
  let t := rd_kafka_toppar_set_fetch_state FETCH_STOPPING t in
  let! (t, _) := rd_kafka_offset_store_stop t in
  Ret t.

Definition rd_kafka_toppar_seek (offset : Z) (op : tp_op) (t : toppar) : outcome toppar :=
  let st := rktp_fetch_state (tp_ctl t) in
  if in_state st FETCH_STOPPING then Ret (reply_to op ERR__PREV_IN_PROGRESS t)
  else if negb (FETCH_IS_STARTED st) then Ret (reply_to op ERR__STATE t)
  else if offset =? OFFSET_STORED then Ret (reply_to op ERR__INVALID_ARG t)
  else
    let t := upd_ctl (ct_op_version (tp_op_version op)) t in
    let t := abort_query t in
    let! t :=
      if OFFSET_IS_LOGICAL offset then rd_kafka_toppar_next_offset_handle offset t
      else Ret (rd_kafka_toppar_set_fetch_state FETCH_ACTIVE (upd_ctl (ct_next_offset offset) t)) in
    Ret (reply_to op 0 t).

Definition rd_kafka_toppar_pause_resume (pause : bool) (flag : Z) (op : tp_op) (t : toppar) : outcome toppar :=
  let t := upd_ctl (ct_op_version (tp_op_version op)) t in
  if pause then
    let t := upd_ctl (fun c => ct_flags (Z.lor (rktp_flags c) flag) c) t in
    let t := if negb (rktp_app_offset t =? OFFSET_INVALID)
             then upd_ctl (ct_next_offset (rktp_app_offset t)) t else t in
    Ret (set_fetchq (rd_kafka_q_purge_toppar_version (rktp_fetchq t) (tp_op_version op)) t)
  else
    let t := upd_ctl (fun c => ct_flags (Z.ldiff (rktp_flags c) flag) c) t in
    let st := rktp_fetch_state (tp_ctl t) in
    if (in_state st FETCH_ACTIVE || in_state st FETCH_OFFSET_WAIT)
       && (rktp_next_offset (tp_ctl t) =? OFFSET_INVALID)
    then rd_kafka_toppar_next_offset_handle (rktp_next_offset (tp_ctl t)) t
    else Ret t.

Definition offset_fetch_reply (err part_err offset : Z) (t : toppar) : outcome toppar :=
  let '(err, offset) := if err =? 0 then (part_err, offset) else (err, OFFSET_INVALID) in
  let t := upd_ctl (fun c => ct_offset_query_tmr (tmr_stop (rktp_offset_query_tmr c)) c) t in
  if negb (err =? 0) then
    let t := rd_kafka_toppar_offset_retry 500 t in
    Ret (if negb (err =? ERR__WAIT_COORD) then rktp_enq (op_err err) t else t)
  else
    let t := if offset >? 0 then upd_ctl (ct_committed_offset offset) t else t in
    if offset >=? 0 then rd_kafka_toppar_next_offset_handle offset t
    else rd_kafka_offset_reset MAIN offset ERR__NO_OFFSET t.

Definition rd_kafka_toppar_op_serve (op : tp_op) (t : toppar) : outcome toppar :=
  let outdated := rd_kafka_op_version_outdated (tp_op_version op) (rktp_op_version (tp_ctl t)) (rktp_version t) in
  match tp_op_type op with
  | TP_RECV_OFFSET req err found => rd_kafka_toppar_handle_Offset req err found t
  | TP_OFFSET_RESET offset err => rd_kafka_offset_reset MAIN offset err t
  | TP_OFFSET_COMMIT_REPLY err offsets =>
      if (err =? ERR__DESTROY) || outdated then Ret t else Ret (rd_kafka_offset_broker_commit_cb err offsets t)
  | TP_OFFSET_FETCH_REPLY err part_err offset =>
      if (err =? ERR__DESTROY) || outdated then Ret t else offset_fetch_reply err part_err offset t
  | TP_FETCH_START offset rkcg => if outdated then Ret t else rd_kafka_toppar_fetch_start offset rkcg op t
  | TP_FETCH_STOP => if outdated then Ret t else rd_kafka_toppar_fetch_stop op t
  | TP_SEEK offset => if outdated then Ret t else rd_kafka_toppar_seek offset op t
  | TP_PAUSE pause flag => if outdated then Ret t else rd_kafka_toppar_pause_resume pause flag op t
  end.

(** ** Calls of the application *)

Definition rd_kafka_toppar_version_new_barrier (t : toppar) : toppar := set_version (s32 (rktp_version t + 1)) t.

(** A new version barrier and the operation that carries it. *)
Definition rd_kafka_toppar_op (u : tp_op_u) (replyq : option Z) (t : toppar) : toppar :=
  let t := rd_kafka_toppar_version_new_barrier t in
  rktp_ops_enq (mk_tp_op (rktp_version t) replyq u) t.

Definition rd_kafka_toppar_op_fetch_start (offset : Z) (replyq : option Z) (t : toppar) : toppar :=
  rd_kafka_toppar_op (TP_FETCH_START offset (has_cgrp cf)) replyq t.
Definition rd_kafka_toppar_op_fetch_stop (replyq : option Z) (t : toppar) : toppar :=
  rd_kafka_toppar_op TP_FETCH_STOP replyq t.
Definition rd_kafka_toppar_op_seek (offset : Z) (replyq : option Z) (t : toppar) : toppar :=
  rd_kafka_toppar_op (TP_SEEK offset) replyq t.
Definition rd_kafka_toppar_op_pause_resume (pause : bool) (flag : Z) (t : toppar) : toppar :=
  rd_kafka_toppar_op (TP_PAUSE pause flag) None t.

Definition rd_kafka_offset_store (offset : Z) (t : toppar) : toppar := rd_kafka_offset_store0 (s64 (offset + 1)) t.

Definition rd_kafka_op_offset_store (o : rd_kafka_op) (t : toppar) : toppar :=
  match rko_u o with
  | RD_KAFKA_OP_FETCH m =>
      if negb (rko_err o =? 0) then t
      else
        let t := set_app_offset (s64 (rkm_offset m + 1)) t in
        if enable_auto_offset_store cf then rd_kafka_offset_store0 (s64 (rkm_offset m + 1)) t else t
  | _ => t
  end.

(** One call of [rd_kafka_consume] that does not wait; [fuel] is the number of
    operations in the queue. *)
Fixpoint consume_loop (fuel : nat) (t : toppar) : toppar :=
  match fuel with
  | O => t
  | S fuel =>
      let '(r, q) := rd_kafka_q_pop (rktp_fetchq t) (rktp_version t) in
      let t := set_fetchq q t in
      match r with
      | None => t
      | Some o =>
          match rko_u o with
          | RD_KAFKA_OP_FETCH m => rd_kafka_op_offset_store o (emit (OUT_message (rko_version o) (rkm_offset m)) t)
          | RD_KAFKA_OP_CONSUMER_ERR offset => emit (OUT_error (rko_err o) offset) t
          | RD_KAFKA_OP_OTHER _ => consume_loop fuel (emit (OUT_error_cb (rko_err o)) t)
          end
      end
  end.

Definition rd_kafka_consume0 (t : toppar) : toppar := consume_loop (length (rkq_q (rktp_fetchq t))) t.

(** ** The broker thread *)

Definition RD_TS_MAX : Z := 2 ^ 63 - 1.

(** [rktp_offsets] as it is copied to [rktp_offsets_fin]. *)
Definition offsets_of (f : fet) : offset_stats :=
  mk_stats (fetch_offset (rktp_reader f)) (rktp_eof_offset f) (rktp_offsets_hi f).

(** The broker's version of the partition is brought up to date: fetching starts
    over at [rktp_next_offset]. *)
Definition decide_restart (t : toppar) : toppar :=
  let version := rktp_op_version (tp_ctl t) in
  let next := rktp_next_offset (tp_ctl t) in
  if (version >? rktp_fetch_version (tp_fet t)) || negb (next =? rktp_last_next_offset (tp_fet t)) then
    let t := upd_fet (fun f => mk_fet (rktp_fetch f) version next (rktp_ts_fetch_backoff f)
                                 (set_fetch_offset next (rktp_reader f)) OFFSET_INVALID OFFSET_INVALID) t in
    emit (OUT_start version next)
      (set_fetchq (rd_kafka_q_purge_toppar_version (rktp_fetchq t) version) t)
  else t.

Definition IS_PAUSED (t : toppar) : bool := has_flag (rktp_flags (tp_ctl t)) (Z.lor F_APP_PAUSE F_LIB_PAUSE).

(** Whether to fetch, and until when not to. *)
Definition decide_fetch (t : toppar) : bool * Z :=
  if IS_PAUSED t then (false, 0)
  else if OFFSET_IS_LOGICAL (rktp_next_offset (tp_ctl t)) then (false, 0)
  else if rd_kafka_q_len (rktp_fetchq t) >=? queued_min_msgs cf then (false, 0)
  else if s64 (rd_kafka_q_size (rktp_fetchq t)) >=? queued_max_msg_bytes cf then (false, 0)
  else if rktp_ts_fetch_backoff (tp_fet t) >? tp_now t then (false, rktp_ts_fetch_backoff (tp_fet t))
  else (true, 0).

(** Up to the label [done]. *)
Definition fetch_decision (force_remove : bool) (t : toppar) : toppar * (bool * Z) :=
  if force_remove then (t, (false, 0))
  else if has_flag (rktp_flags (tp_ctl t)) F_REMOVE then (t, (false, 0))
  else if negb (in_state (rktp_fetch_state (tp_ctl t)) FETCH_ACTIVE) then (t, (false, 0))
  else let t := decide_restart t in (t, decide_fetch t).

Definition rd_kafka_toppar_fetch_decide (force_remove : bool) (t : toppar) : toppar * Z :=
  let '(t, (should_fetch, ts_backoff)) := fetch_decision force_remove t in
  let t := set_offsets_fin (offsets_of (tp_fet t)) t in
  if negb (Bool.eqb (rktp_fetch (tp_fet t)) should_fetch) then
    (upd_fet (fe_fetch should_fetch) t,
     if negb should_fetch && (ts_backoff =? 0) then RD_TS_MAX else ts_backoff)
  else (t, ts_backoff).

(** The partition's part of [rd_kafka_broker_fetch_toppars]: when the broker has no
    Fetch request out and the partition is on its list, it is in the next one. *)
Definition rd_kafka_broker_fetch_toppars (rkb : Z) (t : toppar) : toppar :=
  if bool_decide (rktp_leader t = Some rkb) && rktp_fetch (tp_fet t)
     && negb (existsb (fun r => fr_rkb r =? rkb) (n_fetches (tp_net t)))
  then upd_net (fun n => ne_fetches (n_fetches n ++
         [mk_fetch_req rkb (fetch_offset (rktp_reader (tp_fet t))) (rktp_fetch_version (tp_fet t))]) n) t
  else t.

Definition rd_kafka_toppar_fetch_backoff (err : Z) (t : toppar) : toppar :=
  if err =? ERR__PARTITION_EOF then t
  else upd_fet (fe_ts_fetch_backoff (tp_now t + fetch_error_backoff_ms cf * 1000)) t.

(** The partition in a Fetch response.  [fp_parse version] is
    [rd_kafka_msgset_parse] on its MessageSet. *)
Record fetch_part : Type := mk_fetch_part {
  fp_ErrorCode : Z;
  fp_HighwaterMarkOffset : Z;
  fp_MessageSetSize : Z;
  fp_parse : Z -> fetch_state -> rd_kafka_q -> outcome (fetch_state * rd_kafka_q * Z) }.

(** UNKNOWN_TOPIC_OR_PART, LEADER_NOT_AVAILABLE, NOT_LEADER_FOR_PARTITION and
    BROKER_NOT_AVAILABLE *)
Definition leader_errors : list Z := [3; 5; 6; 8].

Definition fetch_part_error (req : fetch_req) (err : Z) (t : toppar) : outcome toppar :=
  let! t :=
    if bool_decide (err ∈ leader_errors) then Ret (emit OUT_refresh t)
    else if err =? ERR_OFFSET_OUT_OF_RANGE then
      let err_offset := fetch_offset (rktp_reader (tp_fet t)) in
      let t := upd_fet (fun f => fe_reader (set_fetch_offset OFFSET_INVALID (rktp_reader f)) f) t in
      rd_kafka_offset_reset BROKER err_offset err t
    else if (err =? ERR__PARTITION_EOF) && negb (enable_partition_eof cf) then Ret t
    else Ret (rktp_enq (consumer_err (fr_version req) err (fetch_offset (rktp_reader (tp_fet t)))) t) in
  Ret (rd_kafka_toppar_fetch_backoff err t).

(** One partition of [rd_kafka_fetch_reply_handle]. *)
Definition rd_kafka_fetch_reply_handle (req : fetch_req) (p : fetch_part) (t : toppar) : outcome toppar :=
  if negb (bool_decide (rktp_leader t = Some (fr_rkb req))) then Ret t
  else if fr_version req <? rktp_fetch_version (tp_fet t) then Ret t
  else
    let t := upd_fet (fe_offsets_hi (fp_HighwaterMarkOffset p)) t in
    let t := set_hi_offset (fp_HighwaterMarkOffset p) t in
    let fo := fetch_offset (rktp_reader (tp_fet t)) in
    let '(t, err) :=
      if (fp_HighwaterMarkOffset p =? fo) && negb (rktp_eof_offset (tp_fet t) =? fo)
      then (upd_fet (fe_eof_offset fo) t, ERR__PARTITION_EOF)
      else (t, fp_ErrorCode p) in
    if negb (err =? 0) then fetch_part_error req err t
    else if fp_MessageSetSize p <=? 0 then Ret t
    else
      let! (rd, q, err) := fp_parse p (fr_version req) (rktp_reader (tp_fet t)) (rktp_fetchq t) in
      let t := set_fetchq q (upd_fet (fe_reader rd) t) in
      Ret (if negb (err =? 0) then rd_kafka_toppar_fetch_backoff err t else t).

(** The response to the Fetch request number [i].  What a failed request means for
    the broker as a whole, a pause and new metadata, is left out. *)
Definition rd_kafka_broker_fetch_reply (i : nat) (err : Z) (p : fetch_part) (t : toppar) : outcome toppar :=
  match n_fetches (tp_net t) !! i with
  | Some req =>
      if err =? ERR__DESTROY then Ret t
      else
        let t := upd_net (fun n => ne_fetches (delete i (n_fetches n)) n) t in
        if negb (err =? 0) then Ret t else rd_kafka_fetch_reply_handle req p t
  | None => Ret t
  end.

(** ** Moving between brokers *)

Definition rd_kafka_toppar_broker_migrate (old_rkb new_rkb : option Z) (t : toppar) : outcome toppar :=
  let had_next_leader := bool_decide (rktp_next_leader t <> None) in
  let t := set_next_leader new_rkb t in
  if had_next_leader then Ret t
  else
    let t := if in_state (rktp_fetch_state (tp_ctl t)) FETCH_OFFSET_WAIT
             then rd_kafka_toppar_offset_retry 500 t else t in
    match old_rkb, new_rkb with
    | Some dest, _ => Ret (upd_net (fun n => ne_migr (n_migr n ++ [mk_migr dest false]) n) t)
    | None, Some dest => Ret (upd_net (fun n => ne_migr (n_migr n ++ [mk_migr dest true]) n) t)
    | None, None => Crash
    end.

(** Not for removal, and the instance is not terminating. *)
Definition rd_kafka_toppar_broker_delegate (rkb : option Z) (t : toppar) : outcome toppar :=
  let rkb := match rkb with Some _ => rkb | None => Some (internal_broker cf) end in
  if bool_decide (rktp_leader t = rkb) && bool_decide (rktp_next_leader t = None) then Ret t
  else rd_kafka_toppar_broker_migrate (rktp_leader t) rkb t.

Definition rd_kafka_toppar_leader_update (rkb : option Z) (t : toppar) : outcome (toppar * Z) :=
  match rkb with
  | None =>
      let had_leader := bool_decide (rktp_leader t <> None) in
      let! t := rd_kafka_toppar_broker_delegate None t in
      Ret (t, if had_leader then -1 else 0)
  | Some b =>
      if bool_decide (rktp_leader t = Some b) then Ret (t, 0)
      else
        let! t := rd_kafka_toppar_broker_delegate rkb t in
        Ret (t, 1)
  end.

(** RD_KAFKA_OP_PARTITION_JOIN in the thread of broker [rkb]. *)
Definition op_partition_join (rkb : Z) (t : toppar) : outcome toppar :=
  if has_flag (rktp_flags (tp_ctl t)) F_REMOVE then
    assert! (bool_decide (rktp_next_leader t <> None)) in
    Ret (set_next_leader None t)
  else
    match rktp_next_leader t with
    | Some next =>
        if negb (next =? rkb)
        then Ret (upd_net (fun n => ne_migr (n_migr n ++ [mk_migr next true]) n) t)
        else
          assert! (negb (rktp_s_for_rkb t)) in
          Ret (set_next_leader None (set_leader (Some rkb) (set_s_for_rkb true t)))
    | None => Crash
    end.

(** RD_KAFKA_OP_PARTITION_LEAVE *)
Definition op_partition_leave (rkb : Z) (t : toppar) : toppar :=
  if negb (bool_decide (rktp_leader t = Some rkb)) then t
  else
    let '(t, _) := rd_kafka_toppar_fetch_decide true t in
    let t := set_leader None (set_s_for_rkb false t) in
    match rktp_next_leader t with
    | Some next => upd_net (fun n => ne_migr (n_migr n ++ [mk_migr next true]) n) t
    | None => t
    end.

(** ** Steps *)

Inductive event : Type :=
  | E_start (offset : Z) (replyq : option Z)
  | E_stop (replyq : option Z)
  | E_seek (offset : Z) (replyq : option Z)
  | E_pause (pause : bool) (flag : Z)
  | E_store (offset : Z)
  | E_consume
  | E_serve
  | E_query_tmr
  | E_commit_tmr
  | E_offset_reply (i : nat) (err : Z) (found : option Z)
  | E_offset_fetch_reply (i : nat) (err part_err offset : Z)
  | E_commit_reply (i : nat) (err part_err : Z)
  | E_decide
  | E_fetch (rkb : Z)
  | E_fetch_reply (i : nat) (err : Z) (p : fetch_part)
  | E_leader (rkb : option Z)
  | E_migr (i : nat)
  | E_clock (now : Z).

(** A timer that fires is not scheduled while its callback runs, and is
    scheduled again when it was not stopped or started there. *)
Definition tmr_due (now : Z) (x : tmr) : bool := negb (t_next x =? 0) && (t_next x <=? now).
Definition tmr_again (now : Z) (x : tmr) : tmr :=
  if negb (t_interval x =? 0) && (t_next x =? 0) then mk_tmr (now + t_interval x) (t_interval x) else x.

Definition query_tmr_fires (t : toppar) : outcome toppar :=
  let t := upd_ctl (fun c => ct_offset_query_tmr (mk_tmr 0 (t_interval (rktp_offset_query_tmr c))) c) t in
  let! t := rd_kafka_toppar_offset_request (rktp_query_offset (tp_ctl t)) 0 t in
  Ret (upd_ctl (fun c => ct_offset_query_tmr (tmr_again (tp_now t) (rktp_offset_query_tmr c)) c) t).

Definition commit_tmr_fires (t : toppar) : outcome toppar :=
  let t := upd_ctl (fun c => ct_offset_commit_tmr (mk_tmr 0 (t_interval (rktp_offset_commit_tmr c))) c) t in
  let! (t, _) := rd_kafka_offset_commit t in
  Ret (upd_ctl (fun c => ct_offset_commit_tmr (tmr_again (tp_now t) (rktp_offset_commit_tmr c)) c) t).

Definition tp_step (e : event) (t : toppar) : outcome toppar :=
  match e with
  | E_start offset rq => Ret (rd_kafka_toppar_op_fetch_start offset rq t)
  | E_stop rq => Ret (rd_kafka_toppar_op_fetch_stop rq t)
  | E_seek offset rq => Ret (rd_kafka_toppar_op_seek offset rq t)
  | E_pause pause flag => Ret (rd_kafka_toppar_op_pause_resume pause flag t)
  | E_store offset => Ret (rd_kafka_offset_store offset t)
  | E_consume => Ret (rd_kafka_consume0 t)
  | E_serve =>
      match rktp_ops t with
      | op :: ops => rd_kafka_toppar_op_serve op (set_ops ops t)
      | [] => Ret t
      end
  | E_query_tmr =>
      if tmr_due (tp_now t) (rktp_offset_query_tmr (tp_ctl t)) then query_tmr_fires t else Ret t
  | E_commit_tmr =>
      if tmr_due (tp_now t) (rktp_offset_commit_tmr (tp_ctl t)) then commit_tmr_fires t else Ret t
  | E_offset_reply i err found =>
      match n_offset_reqs (tp_net t) !! i with
      | Some req =>
          Ret (rktp_ops_enq (mk_tp_op (or_version req) None (TP_RECV_OFFSET req err found))
                 (upd_net (fun n => ne_offset_reqs (delete i (n_offset_reqs n)) n) t))
      | None => Ret t
      end
  | E_offset_fetch_reply i err part_err offset =>
      match n_offset_fetches (tp_net t) !! i with
      | Some version =>
          Ret (rktp_ops_enq (mk_tp_op version None (TP_OFFSET_FETCH_REPLY err part_err offset))
                 (upd_net (fun n => ne_offset_fetches (delete i (n_offset_fetches n)) n) t))
      | None => Ret t
      end
  | E_commit_reply i err part_err =>
      match n_commits (tp_net t) !! i with
      | Some offset =>
          Ret (rktp_ops_enq (mk_tp_op 0 None (TP_OFFSET_COMMIT_REPLY err [(offset, part_err)]))
                 (upd_net (fun n => ne_commits (delete i (n_commits n)) n) t))
      | None => Ret t
      end
  | E_decide =>
      Ret (match rktp_leader t with Some _ => (rd_kafka_toppar_fetch_decide false t).1 | None => t end)
  | E_fetch rkb => Ret (rd_kafka_broker_fetch_toppars rkb t)
  | E_fetch_reply i err p => rd_kafka_broker_fetch_reply i err p t
  | E_leader rkb => let! (t, _) := rd_kafka_toppar_leader_update rkb t in Ret t
  | E_migr i =>
      match n_migr (tp_net t) !! i with
      | Some m =>
          let t := upd_net (fun n => ne_migr (delete i (n_migr n)) n) t in
          if mg_join m then op_partition_join (mg_dest m) t else Ret (op_partition_leave (mg_dest m) t)
      | None => Ret t
      end
  | E_clock now => Ret (set_now now t)
  end.

Fixpoint tp_run (es : list event) (t : toppar) : outcome toppar :=
  match es with
  | [] => Ret t
  | e :: es => let! t := tp_step e t in tp_run es t
  end.

(** [rd_kafka_toppar_new0] *)
Definition rd_kafka_toppar_new (now : Z) : toppar :=
  mk_toppar
    (mk_ctl FETCH_NONE 1 OFFSET_INVALID OFFSET_INVALID OFFSET_INVALID OFFSET_INVALID false None 0
       (mk_tmr 0 0) (mk_tmr 0 0))
    (mk_fet false 0 OFFSET_INVALID 0 (mk_fetch 0 (fetch_msg_max_bytes cf) 0 0) OFFSET_INVALID OFFSET_INVALID)
    (mk_net [] [] [] [] []) rd_kafka_q_init [] 1 OFFSET_INVALID OFFSET_INVALID None None false
    (mk_stats 0 OFFSET_INVALID OFFSET_INVALID) OFFSET_INVALID now [].
End toppar.
