(* ===== verification/TopparInv.v ===== *)
(** * A consumed partition: fetched messages and versions

    [calm t t']: the main thread changed neither the fetcher nor the messages in
    the queue nor the version.  [Data log t]: in every version the application got
    the messages of the broker's log from the offsets where the fetcher started,
    in order and without gaps, and in the present version what it did not get yet is
    in the queue. *)
From Stdlib Require Import ZArith Lia Sorting.Sorted.
From stdpp Require Import base numbers list.
From S2P Require Import Prelude.
From S2P Require Import Proto.
From S2P Require Import Msg.
From S2P Require Import Queue.
From S2P Require Import MsgsetReader.
From S2P Require Import TopparState.
From S2P Require Import Toppar.

(** ** Messages in queues and traces *)

Definition op_msg (w : Z) (o : rd_kafka_op) : option Z :=
  match rko_u o with
  | RD_KAFKA_OP_FETCH m => if rko_version o =? w then Some (rkm_offset m) else None
  | _ => None
  end.

(** The offsets of the messages of version [w] in a queue. *)
Definition queued (w : Z) (l : list rd_kafka_op) : list Z := omap (op_msg w) l.

Definition out_msg (w : Z) (e : tp_out_t) : option Z :=
  match e with OUT_message v o => if v =? w then Some o else None | _ => None end.
Definition out_start (w : Z) (e : tp_out_t) : option Z :=
  match e with OUT_start v o => if v =? w then Some o else None | _ => None end.

(** What the application got in version [w], and where the fetcher started. *)
Definition delivered (w : Z) (l : list tp_out_t) : list Z := omap (out_msg w) l.
Definition starts (w : Z) (l : list tp_out_t) : list Z := omap (out_start w) l.

(** The part of the log between two offsets. *)
Definition seg (log : list Z) (a b : Z) : list Z := filter (fun o => a <= o < b) log.
Definition chain (log : list Z) (from to : list Z) : list Z := mjoin (zip_with (seg log) from to).

Definition is_note (o : rd_kafka_op) : Prop :=
  rko_version o = 0 /\ match rko_u o with RD_KAFKA_OP_FETCH _ => False | _ => True end.
Definition quiet_out (e : tp_out_t) : Prop :=
  match e with OUT_message _ _ | OUT_start _ _ => False | _ => True end.

Lemma queued_app w l1 l2 : queued w (l1 ++ l2) = queued w l1 ++ queued w l2.
Proof. apply omap_app. Qed.
Lemma delivered_app w l1 l2 : delivered w (l1 ++ l2) = delivered w l1 ++ delivered w l2.
Proof. apply omap_app. Qed.
Lemma starts_app w l1 l2 : starts w (l1 ++ l2) = starts w l1 ++ starts w l2.
Proof. apply omap_app. Qed.

Lemma queued_notes w l : Forall is_note l -> queued w l = [].
Proof.
  induction 1 as [|o l [_ Hu] _ IH]; [done|]. unfold queued in *. cbn [omap list_omap].
  unfold op_msg. by destruct (rko_u o).
Qed.
Lemma quiet_delivered w l : Forall quiet_out l -> delivered w l = [].
Proof. induction 1 as [|e l He _ IH]; [done|]. unfold delivered in *. cbn [omap list_omap]. by destruct e. Qed.
Lemma quiet_starts w l : Forall quiet_out l -> starts w l = [].
Proof. induction 1 as [|e l He _ IH]; [done|]. unfold starts in *. cbn [omap list_omap]. by destruct e. Qed.

(** ** What the main thread leaves alone *)

(** Where the partition is and where it is going. *)
Definition place (t : toppar) : option Z * option Z * bool * list migr_op :=
  (rktp_leader t, rktp_next_leader t, rktp_s_for_rkb t, n_migr (tp_net t)).

Record calm (t t' : toppar) : Prop := mk_calm {
  cm_place : place t' = place t;
  cm_fet : tp_fet t' = tp_fet t;
  cm_opv : rktp_op_version (tp_ctl t') = rktp_op_version (tp_ctl t);
  cm_ver : rktp_version t' = rktp_version t;
  cm_fetches : n_fetches (tp_net t') = n_fetches (tp_net t);
  cm_ops : rktp_ops t' = rktp_ops t;
  cm_ready : rkq_ready (rktp_fetchq t') = rkq_ready (rktp_fetchq t);
  cm_q : exists l, rkq_q (rktp_fetchq t') = rkq_q (rktp_fetchq t) ++ l /\ Forall is_note l;
  cm_out : exists l, tp_out t' = tp_out t ++ l /\ Forall quiet_out l }.

#[export] Instance calm_refl : Reflexive calm.
Proof. intros t. split; try done; exists []; by rewrite app_nil_r. Qed.

#[export] Instance calm_trans : Transitive calm.
Proof.
  intros a b c [? ? ? ? ? ? ? (l & Hl & Fl) (o & Ho & Fo)] [? ? ? ? ? ? ? (l' & Hl' & Fl') (o' & Ho' & Fo')].
  split; try congruence.
  - exists (l ++ l'). by rewrite Hl', Hl, <- app_assoc, Forall_app.
  - exists (o ++ o'). by rewrite Ho', Ho, <- app_assoc, Forall_app.
Qed.

(** Steps that are calm by computation. *)
Lemma calm_same t t' :
  place t' = place t -> tp_fet t' = tp_fet t -> rktp_op_version (tp_ctl t') = rktp_op_version (tp_ctl t) ->
  rktp_version t' = rktp_version t -> n_fetches (tp_net t') = n_fetches (tp_net t) ->
  rktp_ops t' = rktp_ops t -> rktp_fetchq t' = rktp_fetchq t -> tp_out t' = tp_out t -> calm t t'.
Proof.
  intros ? ? ? ? ? ? Hq Ho. split; try done; [by rewrite Hq| |]; exists []; rewrite app_nil_r; (split; [|done]).
  - by rewrite Hq.
  - exact Ho.
Qed.

Lemma calm_emit e t : quiet_out e -> calm t (emit e t).
Proof.
  intros. split; try done; [by exists []; rewrite app_nil_r|]. exists [e]. by split; [|constructor].
Qed.

Lemma enq_ready q o : rkq_ready (rd_kafka_q_enq q o).1 = rkq_ready q.
Proof. unfold rd_kafka_q_enq, rd_kafka_q_enq1. destruct (rkq_ready q) eqn:E; cbn [negb fst]; [by cbn; rewrite E|done]. Qed.

Lemma calm_enq o t : is_note o -> rko_prio o = 0 -> calm t (rktp_enq o t).
Proof.
  intros Hn Hp. split; try done; [apply enq_ready| |by exists []; rewrite app_nil_r].
  cbn [rktp_fetchq rktp_enq set_fetchq]. unfold rd_kafka_q_enq, rd_kafka_q_enq1.
  destruct (rkq_ready (rktp_fetchq t)); cbn [negb fst].
  - exists [o]. unfold rd_kafka_q_enq0. rewrite Hp. cbn [Z.eqb rkq_q]. by split; [|constructor].
  - exists []. by rewrite app_nil_r.
Qed.

Ltac calm := first [reflexivity | apply calm_same; reflexivity].
Ltac calm_ret := intros [= <-]; calm.

Lemma calm_set_state s t : calm t (rd_kafka_toppar_set_fetch_state s t).
Proof. unfold rd_kafka_toppar_set_fetch_state. destruct (in_state _ _); calm. Qed.

Lemma calm_retry b t : calm t (rd_kafka_toppar_offset_retry b t).
Proof.
  unfold rd_kafka_toppar_offset_retry. case_if; [etrans; [apply (calm_set_state FETCH_OFFSET_QUERY)|calm]|].
  apply calm_set_state.
Qed.

Create HintDb toppar.
#[export] Hint Resolve calm_refl calm_set_state calm_retry : toppar.

Section calm.
Context (cf : tp_conf).

Lemma calm_request q b t t' : rd_kafka_toppar_offset_request cf q b t = Ret t' -> calm t t'.
Proof.
  unfold rd_kafka_toppar_offset_request. destruct (rktp_leader t) as [rkb|]; [|intros [= <-]; apply calm_retry].
  case_if; [intros [= <-]; apply calm_retry|]. cbn zeta.
  case_if; cbn [obind].
  - unfold rd_kafka_toppar_offset_fetch. case_if; cbn [obind]; [|done].
    intros [= <-]. etrans; [|apply calm_set_state]. calm.
  - intros [= <-]. etrans; [|apply calm_set_state]. calm.
Qed.

Lemma calm_reset o e t t' : rd_kafka_offset_reset cf MAIN o e t = Ret t' -> calm t t'.
Proof.
  unfold rd_kafka_offset_reset. cbn zeta.
  set (off := if (o =? OFFSET_INVALID) || negb (e =? 0) then auto_offset_reset cf else o).
  destruct (off =? OFFSET_INVALID) eqn:E.
  - set (t1 := rd_kafka_toppar_set_fetch_state _ _).
    assert (C : calm t t1) by (etrans; [by apply (calm_enq (consumer_err 0 e o))|apply calm_set_state]).
    case_if; [intros H; etrans; [exact C|by eapply calm_request]|by intros [= <-]].
  - set (t1 := rd_kafka_toppar_set_fetch_state _ _).
    assert (C : calm t t1) by (etrans; [|apply calm_set_state]; calm).
    case_if; [intros H; etrans; [exact C|by eapply calm_request]|by intros [= <-]].
Qed.

Lemma calm_next_offset o t t' : rd_kafka_toppar_next_offset_handle cf o t = Ret t' -> calm t t'.
Proof.
  unfold rd_kafka_toppar_next_offset_handle. case_if; [apply calm_reset|].
  intros [= <-]. etrans; [|apply calm_set_state]. calm.
Qed.

Lemma calm_handle_Offset r e f t t' : rd_kafka_toppar_handle_Offset cf r e f t = Ret t' -> calm t t'.
Proof.
  unfold rd_kafka_toppar_handle_Offset. cbn zeta. set (e1 := if _ && _ then ERR__OUTDATED else e).
  set (t1 := if e1 =? ERR__IN_PROGRESS then upd_net _ t else t).
  set (e2 := if _ && _ then ERR__OUTDATED else e1).
  assert (C : calm t t1) by (unfold t1; case_if; calm).
  intros H. transitivity t1; [exact C|]. revert H. generalize t1 e2. clear. intros t e.
  assert (R : forall e', (let! t := rd_kafka_offset_reset cf MAIN (rktp_query_offset (tp_ctl t)) e' t in
      let q := rktp_query_offset (tp_ctl t) in
      Ret (rktp_enq (consumer_err 0 e' (if q <=? OFFSET_TAIL_BASE then q - OFFSET_TAIL_BASE else q)) t)) = Ret t' ->
      calm t t').
  { intros e'. destruct (rd_kafka_offset_reset _ _ _ _ _) eqn:E; cbn [obind]; try done. intros [= <-].
    etrans; [by eapply calm_reset|by apply calm_enq]. }
  destruct (e =? 0), f as [o|]; try apply calm_next_offset;
    repeat (case_if; [intros [= <-]; eauto with toppar|]); apply R.
Qed.

Lemma calm_stopped e t : calm t (rd_kafka_toppar_fetch_stopped e t).
Proof.
  unfold rd_kafka_toppar_fetch_stopped. cbn zeta.
  transitivity (set_app_offset OFFSET_INVALID (rd_kafka_toppar_set_fetch_state FETCH_STOPPED t)).
  { etrans; [apply calm_set_state|]. calm. }
  generalize (set_app_offset OFFSET_INVALID (rd_kafka_toppar_set_fetch_state FETCH_STOPPED t)). clear. intros t.
  transitivity (if rktp_cgrp (tp_ctl t) then upd_ctl (ct_cgrp false) (emit (OUT_group false) t) else t).
  { case_if; [|done]. etrans; [by apply (calm_emit (OUT_group false))|calm]. }
  generalize (if rktp_cgrp (tp_ctl t) then upd_ctl (ct_cgrp false) (emit (OUT_group false) t) else t). clear.
  intros t. destruct (rktp_replyq (tp_ctl t)) as [q|]; [|done].
  etrans; [by apply (calm_emit (OUT_reply q e))|calm].
Qed.

Lemma calm_commit t t' e : rd_kafka_offset_commit cf t = Ret (t', e) -> calm t t'.
Proof.
  unfold rd_kafka_offset_commit. repeat (case_if; [intros [= <- _]; done|]).
  unfold rd_kafka_offset_broker_commit. repeat (case_if; [|done]). intros [= <- _]. calm.
Qed.

Lemma calm_store_term e t : calm t (rd_kafka_offset_store_term e t).
Proof. unfold rd_kafka_offset_store_term. cbn zeta. etrans; [|apply calm_stopped]. calm. Qed.

Lemma calm_store_stop t t' e : rd_kafka_offset_store_stop cf t = Ret (t', e) -> calm t t'.
Proof.
  unfold rd_kafka_offset_store_stop. case_if; [intros [= <- _]; apply calm_store_term|]. cbn zeta.
  set (t1 := if _ && _ then rd_kafka_offset_store0 _ _ else _).
  assert (C : calm t t1) by (unfold t1; case_if; calm).
  intros H. transitivity t1; [exact C|]. revert H. generalize t1. clear. intros t.
  assert (E : forall t1 e1, (if simple_consumer cf && (rktp_stored_offset t >? rktp_committed_offset (tp_ctl t))
      then rd_kafka_offset_commit cf t else Ret (t, 0)) = Ret (t1, e1) -> calm t t1).
  { intros t1 e1. case_if; [apply calm_commit|by intros [= <- _]]. }
  destruct (if simple_consumer cf && _ then rd_kafka_offset_commit cf t else _) as [[t1 e1]| |]; cbn [obind]; try done.
  specialize (E t1 e1 eq_refl). case_if; intros [= <- _]; [done|]. etrans; [exact E|apply calm_store_term].
Qed.

Lemma calm_commit_cb e l t : calm t (rd_kafka_offset_broker_commit_cb e l t).
Proof.
  unfold rd_kafka_offset_broker_commit_cb. destruct l as [|[o pe] l]; [done|]. cbn zeta.
  set (e1 := if e =? 0 then pe else e). set (t1 := rd_kafka_toppar_offset_commit_result e1 o t).
  assert (C : calm t t1).
  { unfold t1, rd_kafka_toppar_offset_commit_result. case_if; [by apply calm_enq|]. cbn zeta.
    case_if; [etrans; [|apply calm_stopped]|]; calm. }
  case_if; [etrans; [|apply calm_store_term]|]; (etrans; [exact C|]); calm.
Qed.

Lemma calm_store_init t t' : rd_kafka_offset_store_init cf t = Ret t' -> calm t t'.
Proof.
  unfold rd_kafka_offset_store_init. cbn zeta. set (t1 := if simple_consumer cf && _ then upd_ctl _ _ else _).
  assert (C : calm t t1) by (unfold t1; case_if; calm).
  unfold rd_kafka_offset_broker_init. destruct (offset_store_method cf); cbn [obind].
  { intros [= <-]. etrans; [exact C|calm]. }
  case_if; cbn [obind]; [intros [= <-]; etrans; [exact C|calm]|].
  destruct (rd_kafka_offset_reset _ _ _ _ _) eqn:R; cbn [obind]; try done. intros [= <-].
  etrans; [exact C|]. etrans; [by eapply calm_reset|]. calm.
Qed.

Lemma calm_reply op e t : calm t (reply_to op e t).
Proof. unfold reply_to. destruct (tp_op_replyq op); [by apply calm_emit|done]. Qed.

Lemma calm_fetch_reply e pe o t t' : offset_fetch_reply cf e pe o t = Ret t' -> calm t t'.
Proof.
  unfold offset_fetch_reply. destruct (if e =? 0 then (pe, o) else (e, OFFSET_INVALID)) as [e1 o1]. cbn zeta.
  set (t1 := upd_ctl _ t). assert (C : calm t t1) by calm. intros H. transitivity t1; [exact C|]. revert H.
  generalize t1. clear. intros t. case_if.
  - intros [= <-]. case_if; [etrans; [apply calm_retry|by apply calm_enq]|apply calm_retry].
  - set (t1 := if o1 >? 0 then upd_ctl _ t else t). assert (C : calm t t1) by (unfold t1; case_if; calm).
    intros H. transitivity t1; [exact C|]. revert H. case_if; [apply calm_next_offset|apply calm_reset].
Qed.
End calm.

(** ** Serving an operation *)

Definition is_call (op : tp_op) : bool :=
  match tp_op_type op with
  | TP_FETCH_START _ _ | TP_FETCH_STOP | TP_SEEK _ | TP_PAUSE _ _ => true
  | _ => false
  end.

(** The operation brought version [v]. *)
Definition served (v : Z) (t t' : toppar) : Prop :=
  exists t1, calm (upd_ctl (ct_op_version v) t) t1 /\
    (t' = t1 \/ t' = set_fetchq (rd_kafka_q_purge_toppar_version (rktp_fetchq t1) v) t1).

Section serve.
Context (cf : tp_conf).

Lemma calm_abort t : calm t (abort_query t).
Proof. unfold abort_query. case_if; calm. Qed.

Lemma fetch_start_served o g op t t' :
  rd_kafka_toppar_fetch_start cf o g op t = Ret t' -> calm t t' \/ served (tp_op_version op) t t'.
Proof.
  unfold rd_kafka_toppar_fetch_start. case_if; [intros [= <-]; left; apply calm_reply|]. cbn zeta.
  intros H. right. exists t'. split; [|by left]. revert H. set (t1 := upd_ctl _ t).
  destruct (if g then _ else Ret t1) as [t2| |] eqn:E1; cbn [obind]; try done.
  assert (C : calm t1 t2).
  { revert E1. case_if; [|by intros [= <-]]. case_if; [|done]. intros [= <-].
    etrans; [|by apply calm_emit]. calm. }
  set (r := if (o =? OFFSET_BEGINNING) || _ || _ then _ else _). destruct r as [t3| |] eqn:E2; cbn [obind]; try done.
  assert (C2 : calm t2 t3).
  { subst r. revert E2. case_if; [apply calm_next_offset|]. case_if; [apply calm_store_init|].
    case_if; [apply calm_reset|]. intros [= <-]. etrans; [|apply calm_set_state]. calm. }
  intros [= <-]. etrans; [exact C|]. etrans; [exact C2|]. etrans; [|apply calm_reply]. calm.
Qed.

Lemma fetch_stop_served op t t' :
  rd_kafka_toppar_fetch_stop cf op t = Ret t' -> served (tp_op_version op) t t'.
Proof.
  unfold rd_kafka_toppar_fetch_stop. cbn zeta. set (t1 := upd_ctl _ t). case_if; [|done].
  destruct (rd_kafka_offset_store_stop _ _) as [[t2 e]| |] eqn:E1; cbn [obind]; try done. intros [= <-].
  exists t2. split; [|by left]. fold t1. etrans; [apply calm_abort|].
  transitivity (upd_ctl (ct_replyq (tp_op_replyq op)) (abort_query t1)); [calm|].
  etrans; [apply (calm_set_state FETCH_STOPPING)|]. by eapply calm_store_stop.
Qed.

Lemma seek_served o op t t' :
  rd_kafka_toppar_seek cf o op t = Ret t' -> calm t t' \/ served (tp_op_version op) t t'.
Proof.
  unfold rd_kafka_toppar_seek. cbn zeta.
  repeat (case_if; [intros [= <-]; left; apply calm_reply|]). set (t1 := upd_ctl _ t).
  intros H. right. exists t'. split; [|by left]. fold t1. revert H.
  assert (C : calm t1 (abort_query t1)) by apply calm_abort.
  set (t2 := abort_query t1) in *. clearbody t2.
  destruct (OFFSET_IS_LOGICAL o).
  - destruct (rd_kafka_toppar_next_offset_handle _ _ _) eqn:E3; cbn [obind]; try done. intros [= <-].
    etrans; [exact C|]. etrans; [by eapply calm_next_offset|apply calm_reply].
  - cbn [obind]. intros [= <-]. etrans; [exact C|]. etrans; [|apply calm_reply].
    etrans; [|apply calm_set_state]. calm.
Qed.

Lemma pause_served p f op t t' :
  rd_kafka_toppar_pause_resume cf p f op t = Ret t' -> served (tp_op_version op) t t'.
Proof.
  unfold rd_kafka_toppar_pause_resume. cbn zeta. case_if.
  - intros [= <-]. set (t1 := if negb _ then upd_ctl _ _ else _). exists t1. split; [|by right].
    unfold t1. case_if; calm.
  - intros H. exists t'. split; [|by left]. revert H. set (t1 := upd_ctl (fun c => ct_flags _ c) _).
    intros H. transitivity t1; [calm|]. revert H. case_if; [apply calm_next_offset|by intros [= <-]].
Qed.

Lemma op_serve_calm op t t' :
  rd_kafka_toppar_op_serve cf op t = Ret t' ->
  calm t t' \/ (is_call op = true /\
    rd_kafka_op_version_outdated (tp_op_version op) (rktp_op_version (tp_ctl t)) (rktp_version t) = false /\
    served (tp_op_version op) t t').
Proof.
  unfold rd_kafka_toppar_op_serve, is_call. cbn zeta.
  destruct (tp_op_type op) as [o g| |o|p f|e l|e pe o|o e|r e f];
    lazymatch goal with
    | |- (if _ || _ then _ else _) = _ -> _ => idtac
    | _ => try (destruct (rd_kafka_op_version_outdated _ _ _) eqn:Ho; [intros [= <-]; by left|])
    end.
  - intros [?|?]%fetch_start_served; eauto.
  - intros ?%fetch_stop_served; eauto.
  - intros [?|?]%seek_served; eauto.
  - intros ?%pause_served; eauto.
  - case_if; intros [= <-]; left; [done|apply calm_commit_cb].
  - case_if; [intros [= <-]; by left|]. intros ?%calm_fetch_reply. by left.
  - intros ?%calm_reset. by left.
  - intros ?%calm_handle_Offset. by left.
Qed.
End serve.

(** ** Parts of the log *)

Lemma seg_nil log a : seg log a a = [].
Proof. induction log as [|x l IH]; [done|]. unfold seg. rewrite filter_cons_False; [done|lia]. Qed.

Lemma seg_none log a b : Forall (fun o => b <= o) log -> seg log a b = [].
Proof. induction 1 as [|x l Hx _ IH]; [done|]. unfold seg. rewrite filter_cons_False; [done|lia]. Qed.

Lemma seg_app log a b c :
  StronglySorted Z.lt log -> a <= b <= c -> seg log a b ++ seg log b c = seg log a c.
Proof.
  intros H Hab. induction H as [|x l Hs IH Hx]; [done|]. destruct (decide (a <= x)); [destruct (decide (x < b))|].
  - unfold seg. rewrite (filter_cons_True _ x), (filter_cons_False _ x), (filter_cons_True _ x) by lia.
    cbn [app]. f_equal. exact IH.
  - assert (E : seg (x :: l) a b = []).
    { apply seg_none. constructor; [lia|]. eapply Forall_impl; [exact Hx|]. cbn. lia. }
    assert (E' : seg l a b = []).
    { apply seg_none. eapply Forall_impl; [exact Hx|]. cbn. lia. }
    rewrite E. rewrite E' in IH. cbn [app] in IH |- *. unfold seg. destruct (decide (x < c)).
    + rewrite !filter_cons_True by lia. f_equal. exact IH.
    + rewrite !filter_cons_False by lia. exact IH.
  - unfold seg. rewrite !(filter_cons_False _ x) by lia. exact IH.
Qed.

Lemma chain_snoc log s e x y :
  length s = length e -> chain log (s ++ [x]) (e ++ [y]) = chain log s e ++ seg log x y.
Proof. intros. unfold chain. rewrite zip_with_app by done. rewrite join_app. cbn. by rewrite app_nil_r. Qed.

(** ** The invariant *)

Definition version_ok (fv : Z) (o : rd_kafka_op) : Prop :=
  0 <= rko_version o <= fv /\ match rko_u o with RD_KAFKA_OP_FETCH _ => 1 <= rko_version o | _ => True end.

(** What was delivered and is queued comes from the log, from [from] on. *)
Definition tracks (log : list Z) (from got : list Z) (fo : Z) : Prop :=
  exists to, Forall2 Z.le from to /\ got = chain log from to /\ (fo = OFFSET_INVALID \/ last to = Some fo).

Record Data (log : list Z) (t : toppar) : Prop := mk_Data {
  d_ver : 1 <= rktp_op_version (tp_ctl t) <= rktp_version t;
  d_max : rktp_version t < 2 ^ 31;
  d_fv : 0 <= rktp_fetch_version (tp_fet t) <= rktp_op_version (tp_ctl t);
  d_ops : Forall (fun op => is_call op = true -> 1 <= tp_op_version op <= rktp_version t) (rktp_ops t);
  d_q : Forall (version_ok (rktp_fetch_version (tp_fet t))) (rkq_q (rktp_fetchq t));
  d_fetch : rktp_fetch (tp_fet t) = true -> 1 <= rktp_fetch_version (tp_fet t);
  d_fetches : Forall (fun r => 1 <= fr_version r <= rktp_fetch_version (tp_fet t)) (n_fetches (tp_net t));
  d_none : forall w, rktp_fetch_version (tp_fet t) < w ->
    delivered w (tp_out t) = [] /\ starts w (tp_out t) = [];
  d_past : forall w, exists to, length to = length (starts w (tp_out t)) /\
    delivered w (tp_out t) `prefix_of` chain log (starts w (tp_out t)) to;
  d_now : let v := rktp_fetch_version (tp_fet t) in
    v = rktp_version t ->
    tracks log (starts v (tp_out t)) (delivered v (tp_out t) ++ queued v (rkq_q (rktp_fetchq t)))
      (fetch_offset (rktp_reader (tp_fet t)));
  d_ready : rkq_ready (rktp_fetchq t) = true }.

Section data.
Context (cf : tp_conf) (log : list Z) (Hlog : StronglySorted Z.lt log).

Lemma note_version fv o : 0 <= fv -> is_note o -> version_ok fv o.
Proof. intros ? [E Hu]. unfold version_ok. rewrite E. split; [lia|]. by destruct (rko_u o). Qed.

Lemma data_calm t t' : Data log t -> calm t t' -> Data log t'.
Proof.
  intros [Hv Hm Hfv Hops Hq Hf Hfs Hn Hp Hw Hr] [_ Ef Eo Ev En Eops Erd (l & El & Fl) (o & Eout & Fo)].
  assert (Dl : forall w, delivered w (tp_out t') = delivered w (tp_out t)).
  { intros. by rewrite Eout, delivered_app, (quiet_delivered _ o), app_nil_r. }
  assert (St : forall w, starts w (tp_out t') = starts w (tp_out t)).
  { intros. by rewrite Eout, starts_app, (quiet_starts _ o), app_nil_r. }
  split; rewrite ?Ef, ?Eo, ?Ev, ?En, ?Eops, ?Erd; try done.
  - rewrite El, Forall_app. split; [done|]. eapply Forall_impl; [exact Fl|]. intros. apply note_version; [lia|done].
  - intros w ?. rewrite Dl, St. by apply Hn.
  - intros w. rewrite Dl, St. apply Hp.
  - cbn zeta in *. rewrite Dl, St, El, queued_app, (queued_notes _ l), app_nil_r; done.
Qed.

(** *** Purging *)

Lemma purge_loop_spec l v : exists d, l = d ++ (purge_loop l v).1.1 /\ Forall (fun o => rko_version o < v) d.
Proof.
  induction l as [|o l (d & Hd & Fd)]; [by exists []|]. cbn [purge_loop].
  destruct (rko_version o <? v) eqn:E; [|by exists []].
  apply Z.ltb_lt in E. destruct (purge_loop l v) as [[k c] s]. cbn [fst] in *. exists (o :: d).
  split; [by rewrite Hd at 1|by constructor].
Qed.

Lemma purge_spec q v : exists d,
  rkq_q q = d ++ rkq_q (rd_kafka_q_purge_toppar_version q v) /\ Forall (fun o => rko_version o < v) d.
Proof.
  unfold rd_kafka_q_purge_toppar_version. destruct (purge_loop_spec (rkq_q q) v) as (d & Hd & Fd).
  destruct (purge_loop (rkq_q q) v) as [[k c] s]. by exists d.
Qed.

Lemma purge_ready q v : rkq_ready (rd_kafka_q_purge_toppar_version q v) = rkq_ready q.
Proof. unfold rd_kafka_q_purge_toppar_version. by destruct (purge_loop (rkq_q q) v) as [[k c] s]. Qed.

Lemma queued_below w d : Forall (fun o => rko_version o < w) d -> queued w d = [].
Proof.
  induction 1 as [|o d Ho _ IH]; [done|]. unfold queued, op_msg in *. cbn [omap list_omap].
  destruct (rko_u o); try done. by rewrite (proj2 (Z.eqb_neq _ _)) by lia.
Qed.

Lemma queued_purge q v w :
  v <= w -> queued w (rkq_q (rd_kafka_q_purge_toppar_version q v)) = queued w (rkq_q q).
Proof.
  intros. destruct (purge_spec q v) as (d & -> & Fd). rewrite queued_app, (queued_below w d); [done|].
  eapply Forall_impl; [exact Fd|]. cbn. lia.
Qed.

Lemma purge_forall (P : rd_kafka_op -> Prop) q v :
  Forall P (rkq_q q) -> Forall P (rkq_q (rd_kafka_q_purge_toppar_version q v)).
Proof. destruct (purge_spec q v) as (d & -> & _). by intros [_ ?]%Forall_app. Qed.

Lemma data_purge t v :
  Data log t -> v <= rktp_version t -> Data log (set_fetchq (rd_kafka_q_purge_toppar_version (rktp_fetchq t) v) t).
Proof.
  intros [Hv Hm Hfv Hops Hq Hf Hfs Hn Hp Hw Hr] ?. split; try done.
  - by apply purge_forall.
  - cbn zeta in *. intros E. cbn [rktp_fetchq set_fetchq tp_fet] in *. rewrite queued_purge; [by apply Hw|].
    cbn [rktp_version set_fetchq] in E. lia.
  - cbn [rktp_fetchq set_fetchq]. by rewrite purge_ready.
Qed.

Lemma data_opv t v :
  Data log t -> rktp_op_version (tp_ctl t) <= v <= rktp_version t -> Data log (upd_ctl (ct_op_version v) t).
Proof.
  intros [Hv Hm Hfv Hops Hq Hf Hfs Hn Hp Hw Hr] ?. split; try done; cbn [tp_ctl upd_ctl set_ctl rktp_op_version
    ct_op_version rktp_version tp_fet]; lia.
Qed.

Lemma data_served t t' v :
  Data log t -> rktp_op_version (tp_ctl t) <= v <= rktp_version t -> served v t t' -> Data log t'.
Proof.
  intros HD Hv (t1 & C & H). pose proof (data_calm _ _ (data_opv _ v HD Hv) C) as HD1.
  destruct H as [->| ->]; [done|]. apply data_purge; [done|]. rewrite (cm_ver _ _ C). exact (proj2 Hv).
Qed.

Lemma data_serve op ops t t' :
  Data log t -> rktp_ops t = op :: ops -> rd_kafka_toppar_op_serve cf op (set_ops ops t) = Ret t' -> Data log t'.
Proof.
  intros HD Eo H. assert (HD0 : Data log (set_ops ops t)).
  { destruct HD. split; try done. cbn [rktp_ops set_ops]. rewrite Eo in d_ops0.
    exact (Forall_inv_tail d_ops0). }
  destruct (op_serve_calm _ _ _ _ H) as [C|(Hc & Hout & S)]; [by eapply data_calm|].
  eapply data_served; [exact HD0| |exact S]. pose proof (d_ops _ _ HD) as F. rewrite Eo in F.
  pose proof (Forall_inv F Hc) as Hop. pose proof (d_ver _ _ HD).
  unfold rd_kafka_op_version_outdated in Hout. cbn [tp_ctl set_ops rktp_version] in *.
  destruct (tp_op_version op =? 0) eqn:E0; [lia|].
  destruct (rktp_op_version (tp_ctl t) =? 0) eqn:E1; [lia|]. cbn [negb] in Hout. lia.
Qed.
(** *** The fetcher *)

Lemma tracks_start from got fo next :
  tracks log from got fo -> tracks log (from ++ [next]) got next.
Proof.
  intros (to & F & -> & _). exists (to ++ [next]). split; [by apply Forall2_app; [|repeat constructor]|].
  split; [|right; apply last_snoc].
  rewrite chain_snoc by (by eapply Forall2_length). by rewrite seg_nil, app_nil_r.
Qed.

Lemma tracks_more from got fo fo' :
  0 <= fo <= fo' -> tracks log from got fo -> tracks log from (got ++ seg log fo fo') fo'.
Proof.
  intros Hfo (to & F & -> & H). destruct H as [->|H]; [by unfold OFFSET_INVALID in Hfo; lia|].
  apply last_Some in H as [to0 ->]. apply Forall2_app_inv_r in F as (from0 & f1 & F0 & F1 & ->).
  apply Forall2_cons_inv_r in F1 as (x & f2 & Hx & F2 & ->). apply Forall2_nil_inv_r in F2 as ->.
  pose proof (Forall2_length _ _ _ F0) as L. exists (to0 ++ [fo']).
  split; [apply Forall2_app; [done|constructor; [lia|constructor]]|].
  split; [|right; apply last_snoc].
  rewrite !chain_snoc by done. by rewrite <- app_assoc, seg_app by (done || lia).
Qed.

Lemma starts_snoc w l v o : starts w (l ++ [OUT_start v o]) = starts w l ++ (if v =? w then [o] else []).
Proof. rewrite starts_app. cbn. by destruct (v =? w). Qed.
Lemma delivered_start w l v o : delivered w (l ++ [OUT_start v o]) = delivered w l.
Proof. rewrite delivered_app. cbn. by rewrite app_nil_r. Qed.

Lemma past_start w l next :
  (exists to, length to = length (starts w l) /\ delivered w l `prefix_of` chain log (starts w l) to) ->
  exists to, length to = length (starts w l ++ [next]) /\
    delivered w l `prefix_of` chain log (starts w l ++ [next]) to.
Proof.
  intros (to & L & P). exists (to ++ [next]). rewrite !length_app, L. split; [done|].
  rewrite chain_snoc, seg_nil, app_nil_r by done. done.
Qed.

Lemma queued_above w fv l : Forall (version_ok fv) l -> fv < w -> queued w l = [].
Proof. intros F ?. apply queued_below. eapply Forall_impl; [exact F|]. intros o [? _]. lia. Qed.

Lemma data_restart t : Data log t -> Data log (decide_restart t).
Proof.
  intros HD. unfold decide_restart. cbn zeta. destruct (_ || _) eqn:E; [|done].
  destruct HD as [Hv Hm Hfv Hops Hq Hf Hfs Hn Hp Hw Hr].
  set (v := rktp_op_version (tp_ctl t)) in *. set (next := rktp_next_offset (tp_ctl t)) in *.
  set (fv := rktp_fetch_version (tp_fet t)) in *.
  split; cbn [rktp_fetchq emit set_out set_fetchq upd_fet set_fet tp_fet rktp_fetch_version tp_ctl rktp_version
    rktp_ops tp_net tp_out rktp_fetch rktp_reader set_fetch_offset fetch_offset]; fold v; try done; try lia.
  - apply purge_forall. eapply Forall_impl; [exact Hq|]. intros o [? ?]. split; [lia|done].
  - eapply Forall_impl; [exact Hfs|]. cbn. lia.
  - intros w ?. rewrite delivered_start, starts_snoc, (proj2 (Z.eqb_neq v w)) by lia. rewrite app_nil_r.
    apply Hn. lia.
  - intros w. rewrite delivered_start, starts_snoc. destruct (v =? w); [by apply past_start|].
    rewrite app_nil_r. apply Hp.
  - intros Ev. rewrite delivered_start, starts_snoc, Z.eqb_refl, queued_purge by lia.
    destruct (Z.eq_dec v fv) as [Efv|Efv].
    + cbn zeta in Hw. fold fv in Hw. rewrite Efv in *. eapply tracks_start, Hw. lia.
    + destruct (Hn v) as [-> ->]; [lia|]. rewrite (queued_above v fv) by (done || lia).
      exists [next]. split; [by repeat constructor|]. split; [|by right].
      unfold chain. cbn. by rewrite seg_nil.
  - by rewrite purge_ready.
Qed.

Lemma fetch_decision_data f t t1 sf ts :
  Data log t -> fetch_decision cf f t = (t1, (sf, ts)) ->
  Data log t1 /\ (sf = true -> 1 <= rktp_fetch_version (tp_fet t1)).
Proof.
  intros HD. unfold fetch_decision. do 3 (case_if; [by intros [= <- <- _]|]). cbn zeta. intros [= <- _].
  split; [by apply data_restart|]. intros _.
  pose proof (d_ver _ _ HD) as Hv. unfold decide_restart. cbn zeta.
  destruct (_ || _) eqn:Er; [cbn; lia|].
  apply orb_false_iff in Er as [? _]. pose proof (d_fv _ _ HD). lia.
Qed.

Lemma decide_data f t : Data log t -> Data log (rd_kafka_toppar_fetch_decide cf f t).1.
Proof.
  intros HD. unfold rd_kafka_toppar_fetch_decide. destruct (fetch_decision cf f t) as [t1 [sf ts]] eqn:H.
  apply fetch_decision_data in H as [HD1 Hsf]; [|done]. cbn zeta.
  assert (HD2 : Data log (set_offsets_fin (offsets_of (tp_fet t1)) t1)) by (destruct HD1; by split).
  case_if; cbn [fst]; [|done]. destruct HD2 as [Hv Hm Hfv Hops Hq Hf Hfs Hn Hp Hw Hr]. by split.
Qed.
(** *** The application *)

Lemma pop_spec l q rv r q' : pop_loop l q rv = (r, q') -> rkq_q q = l ->
  exists d, l = d ++ option_list r ++ rkq_q q' /\ Forall (fun o => rko_version o <> 0 /\ rko_version o < rv) d /\
    (forall o, r = Some o -> rko_version o = 0 \/ rv <= rko_version o) /\ (r = None -> rkq_q q' = []).
Proof.
  revert q. induction l as [|o l IH]; intros q; cbn [pop_loop].
  { intros [= <- <-] E. exists []. by rewrite E. }
  unfold rd_kafka_op_version_outdated at 1. cbn [Z.eqb negb].
  destruct (rko_version o =? 0) eqn:E0; [|destruct (rko_version o <? rv) eqn:E1].
  - intros [= <- <-] E. exists []. repeat split; try done. intros o' [= <-]. lia.
  - intros H E. apply IH in H as (d & -> & Fd & Hr & Hn); [|done]. exists (o :: d).
    repeat split; try done. constructor; [lia|done].
  - intros [= <- <-] E. exists []. repeat split; try done. intros o' [= <-]. lia.
Qed.

Lemma data_same t t' :
  Data log t -> tp_fet t' = tp_fet t -> tp_ctl t' = tp_ctl t -> tp_net t' = tp_net t ->
  rktp_version t' = rktp_version t -> rktp_ops t' = rktp_ops t -> rktp_fetchq t' = rktp_fetchq t ->
  tp_out t' = tp_out t -> Data log t'.
Proof.
  intros [] E1 E2 E3 E4 E5 E6 E7. split; rewrite ?E1, ?E2, ?E3, ?E4, ?E5, ?E6, ?E7; try done.
Qed.

(** Taking operations from the head: [d] was dropped, [e] was seen. *)
Lemma data_take t q d e l :
  Data log t -> rkq_q (rktp_fetchq t) = d ++ l ++ rkq_q q -> rkq_ready q = rkq_ready (rktp_fetchq t) ->
  Forall (fun o => rko_version o < rktp_version t) d -> Forall (fun o => rktp_version t <= rko_version o \/ rko_version o = 0) l ->
  (forall w, starts w e = []) ->
  (forall w, delivered w e = queued w l) ->
  Data log (set_out (tp_out t ++ e) (set_fetchq q t)).
Proof.
  intros [Hv Hm Hfv Hops Hq Hf Hfs Hn Hp Hw Hr] Eq Erq Fd Fl Hs Hdl. rewrite Eq, !Forall_app in Hq.
  destruct Hq as (Hqd & Hql & Hqq). cbn zeta in Hw.
  assert (Hver : forall w, w <> rktp_version t \/ rktp_fetch_version (tp_fet t) <> rktp_version t -> queued w l = []).
  { intros w Hne. clear - Hql Fl Hne Hfv Hv. induction l as [|o l IH]; [done|].
    apply Forall_cons in Hql as [[H1 H2] Hql]. apply Forall_cons in Fl as [H3 Fl].
    unfold queued in *. cbn [omap list_omap]. unfold op_msg at 1. destruct (rko_u o); try by apply IH.
    rewrite (proj2 (Z.eqb_neq _ _)) by lia. by apply IH. }
  split; cbn [rktp_fetchq set_out set_fetchq tp_fet tp_ctl rktp_version rktp_ops tp_net tp_out]; try done.
  - intros w ?. rewrite delivered_app, starts_app, Hs, Hdl, Hver by lia. rewrite !app_nil_r. by apply Hn.
  - intros w. rewrite delivered_app, starts_app, Hs, Hdl, app_nil_r.
    destruct (decide (w <> rktp_version t \/ rktp_fetch_version (tp_fet t) <> rktp_version t)) as [Hne|He].
    { rewrite Hver, app_nil_r by done. apply Hp. }
    assert (w = rktp_version t /\ rktp_fetch_version (tp_fet t) = rktp_version t) as [-> Ef] by lia.
    rewrite Ef in Hw. destruct (Hw eq_refl) as (to & F & G & _). exists to.
    split; [by rewrite (Forall2_length _ _ _ F)|]. rewrite <- G, Eq, !queued_app.
    rewrite (queued_below _ d) by done. cbn [app]. rewrite app_assoc. by apply prefix_app_r.
  - cbn zeta. intros E. rewrite delivered_app, starts_app, Hs, Hdl, app_nil_r, <- app_assoc.
    specialize (Hw E). rewrite Eq, !queued_app, (queued_below _ d) in Hw by (by rewrite E). exact Hw.
  - by rewrite Erq.
Qed.

Lemma pop_ready q rv r q' : rd_kafka_q_pop q rv = (r, q') -> rkq_ready q' = rkq_ready q.
Proof.
  unfold rd_kafka_q_pop. generalize (rkq_q q) as l. intros l. revert q.
  induction l as [|o l IH]; intros q; cbn [pop_loop]; [by intros [= _ <-]|]. case_if; [|by intros [= _ <-]].
  intros E'. by rewrite (IH _ E').
Qed.

Lemma outdated_below rv d :
  Forall (fun o => rko_version o <> 0 /\ rko_version o < rv) d -> Forall (fun o => rko_version o < rv) d.
Proof. intros F. eapply Forall_impl; [exact F|]. by intros ? []. Qed.

Lemma data_op_store o t : Data log t -> Data log (rd_kafka_op_offset_store cf o t).
Proof.
  intros. unfold rd_kafka_op_offset_store. destruct (rko_u o); try done. repeat case_if; [done| |];
    by eapply data_same.
Qed.

Lemma consume_data fuel t : Data log t -> Data log (consume_loop cf fuel t).
Proof.
  revert t. induction fuel as [|fuel IH]; intros t HD; cbn [consume_loop]; [done|].
  destruct (rd_kafka_q_pop _ _) as [r q] eqn:E. pose proof (pop_ready _ _ _ _ E) as Erq.
  apply pop_spec in E as (d & Eq & Fd & Hr & Hnone); [|done]. apply outdated_below in Fd.
  destruct r as [o|]; cbn [option_list] in Eq.
  - specialize (Hr o eq_refl). assert (Fl : Forall (fun o => rktp_version t <= rko_version o \/ rko_version o = 0) [o]).
    { constructor; [lia|done]. }
    pose proof (d_q _ _ HD) as Hq. rewrite Eq, !Forall_app in Hq. destruct Hq as (_ & Hqo & _).
    destruct (Forall_inv Hqo) as [_ Hu].
    destruct (rko_u o) as [m|off|ty] eqn:Eu.
    + apply data_op_store. unfold emit. cbn [tp_out set_fetchq]. eapply data_take; eauto.
      intros w. unfold delivered, queued, op_msg. cbn. by rewrite Eu.
    + unfold emit. cbn [tp_out set_fetchq]. eapply data_take; eauto.
      intros w. unfold delivered, queued, op_msg. cbn. by rewrite Eu.
    + apply IH. unfold emit. cbn [tp_out set_fetchq]. eapply data_take; eauto.
      intros w. unfold delivered, queued, op_msg. cbn. by rewrite Eu.
  - apply (data_same (set_out (tp_out t ++ []) (set_fetchq q t))); try done; [|cbn; by rewrite app_nil_r].
    by eapply data_take with (l := []) (d := d).
Qed.
(** *** Fetch responses *)

(** An operation the parser makes. *)
Definition parsed (v : Z) (o : rd_kafka_op) : Prop :=
  rko_version o = v /\
  match rko_u o with
  | RD_KAFKA_OP_FETCH _ => rko_err o = 0
  | RD_KAFKA_OP_CONSUMER_ERR _ => True
  | RD_KAFKA_OP_OTHER _ => False
  end.

(** What the parser adds for the fetch offset of [rd]: the messages of the log
    from it on, up to the new one. *)
Definition parser_ok (rd : fetch_state) (p : fetch_part) : Prop := forall v q, rkq_ready q = true ->
  exists rd' q' ops err, fp_parse p v rd q = Ret (rd', q', err) /\ rkq_q q' = rkq_q q ++ ops /\
    rkq_ready q' = true /\ Forall (parsed v) ops /\ fetch_offset rd <= fetch_offset rd' /\
    queued v ops = seg log (fetch_offset rd) (fetch_offset rd').

(** A response with messages that is not dropped holds the log from the present
    fetch offset on. *)
Definition fetch_ok (req : fetch_req) (p : fetch_part) (t : toppar) : Prop :=
  rktp_leader t = Some (fr_rkb req) -> fr_version req = rktp_fetch_version (tp_fet t) ->
  fp_ErrorCode p = 0 -> 0 < fp_MessageSetSize p ->
  0 <= fetch_offset (rktp_reader (tp_fet t)) /\ parser_ok (rktp_reader (tp_fet t)) p.

(** The fetcher's fields other than versions and offset. *)
Lemma data_fet t g :
  Data log t -> rktp_fetch_version g = rktp_fetch_version (tp_fet t) ->
  rktp_fetch g = rktp_fetch (tp_fet t) ->
  (fetch_offset (rktp_reader g) = fetch_offset (rktp_reader (tp_fet t)) \/
   fetch_offset (rktp_reader g) = OFFSET_INVALID) -> Data log (set_fet g t).
Proof.
  intros [Hv Hm Hfv Hops Hq Hf Hfs Hn Hp Hw Hr] E1 E2 E3.
  split; cbn [tp_fet set_fet tp_ctl rktp_version rktp_ops rktp_fetchq tp_net tp_out]; rewrite ?E1, ?E2; try done.
  cbn zeta in *. intros E. destruct (Hw E) as (to & F & G & L). exists to. repeat split; try done.
  destruct E3 as [->| ->]; [done|by left].
Qed.

Lemma data_enq t o :
  Data log t -> version_ok (rktp_fetch_version (tp_fet t)) o -> rko_prio o = 0 ->
  match rko_u o with RD_KAFKA_OP_FETCH _ => False | _ => True end -> Data log (rktp_enq o t).
Proof.
  intros [Hv Hm Hfv Hops Hq Hf Hfs Hn Hp Hw Hr] Ho Hpr Hu.
  assert (E : exists l, rkq_q (rktp_fetchq (rktp_enq o t)) = rkq_q (rktp_fetchq t) ++ l /\ (l = [] \/ l = [o])).
  { cbn [rktp_fetchq rktp_enq set_fetchq]. unfold rd_kafka_q_enq, rd_kafka_q_enq1.
    destruct (rkq_ready (rktp_fetchq t)); cbn [negb fst].
    - exists [o]. unfold rd_kafka_q_enq0. rewrite Hpr. cbn [Z.eqb rkq_q]. eauto.
    - exists []. rewrite app_nil_r. eauto. }
  destruct E as (l & E & Hl). assert (Ql : forall w, queued w l = []).
  { intros w. destruct Hl as [->| ->]; [done|]. unfold queued, op_msg. cbn. by destruct (rko_u o). }
  split; try done.
  - rewrite E, Forall_app. split; [done|]. by destruct Hl as [->| ->]; constructor.
  - cbn zeta in *. intros Ev. rewrite E, queued_app, Ql, app_nil_r. by apply Hw.
  - cbn [rktp_fetchq rktp_enq set_fetchq]. by rewrite enq_ready.
Qed.

Lemma data_backoff e t : Data log t -> Data log (rd_kafka_toppar_fetch_backoff cf e t).
Proof. intros. unfold rd_kafka_toppar_fetch_backoff. case_if; [done|]. apply data_fet; auto. Qed.

Lemma data_part_error req e t t' :
  Data log t -> 1 <= fr_version req <= rktp_fetch_version (tp_fet t) ->
  fetch_part_error cf req e t = Ret t' -> Data log t'.
Proof.
  intros HD Hr. unfold fetch_part_error.
  assert (K : forall t1, Data log t1 -> Ret (rd_kafka_toppar_fetch_backoff cf e t1) = Ret t' -> Data log t').
  { intros t1 ? [= <-]. by apply data_backoff. }
  case_if; cbn [obind]; [apply K; by eapply data_calm, calm_emit|].
  case_if; cbn [obind rd_kafka_offset_reset].
  { apply K. set (g := fe_reader (set_fetch_offset OFFSET_INVALID (rktp_reader (tp_fet t))) (tp_fet t)).
    assert (HD1 : Data log (set_fet g t)) by (apply data_fet; auto).
    destruct HD1. split; try done. cbn [rktp_ops rktp_ops_enq set_ops]. rewrite Forall_app. split; [done|].
    by constructor. }
  case_if; cbn [obind]; [by apply K|]. apply K. apply data_enq; try done. split; [cbn; lia|done].
Qed.

Lemma data_messages t rd q ops :
  Data log t -> fetch_offset (rktp_reader (tp_fet t)) <= fetch_offset rd -> 0 <= fetch_offset (rktp_reader (tp_fet t)) ->
  1 <= rktp_fetch_version (tp_fet t) -> rkq_q q = rkq_q (rktp_fetchq t) ++ ops -> rkq_ready q = true ->
  Forall (parsed (rktp_fetch_version (tp_fet t))) ops ->
  queued (rktp_fetch_version (tp_fet t)) ops = seg log (fetch_offset (rktp_reader (tp_fet t))) (fetch_offset rd) ->
  Data log (set_fetchq q (upd_fet (fe_reader rd) t)).
Proof.
  intros [Hv Hm Hfv Hops Hq Hf Hfs Hn Hp Hw Hr] Hle H0 H1 Eq Erq Fv Es.
  split; cbn [tp_fet set_fetchq upd_fet set_fet tp_ctl rktp_version rktp_ops rktp_fetchq tp_net tp_out
    fe_reader rktp_fetch_version rktp_fetch rktp_reader]; try done.
  - rewrite Eq, Forall_app. split; [done|]. eapply Forall_impl; [exact Fv|]. intros o [E _]. unfold version_ok.
    rewrite E. split; [lia|]. by destruct (rko_u o).
  - cbn zeta in *. intros E. rewrite Eq, queued_app, Es, app_assoc. apply tracks_more; [lia|]. by apply Hw.
Qed.

Lemma data_reply req p t t' :
  Data log t -> 1 <= fr_version req <= rktp_fetch_version (tp_fet t) -> fetch_ok req p t ->
  rd_kafka_fetch_reply_handle cf req p t = Ret t' -> Data log t'.
Proof.
  intros HD Hr Hok. unfold rd_kafka_fetch_reply_handle.
  destruct (bool_decide_reflect (rktp_leader t = Some (fr_rkb req))) as [El|]; cbn [negb]; [|by intros [= <-]].
  case_if; [by intros [= <-]|]. cbn zeta.
  assert (Ev : fr_version req = rktp_fetch_version (tp_fet t)) by lia.
  set (t1 := set_hi_offset _ _).
  assert (HD1 : Data log t1).
  { apply (data_same (upd_fet (fe_offsets_hi (fp_HighwaterMarkOffset p)) t)); try done. apply data_fet; auto. }
  case_if.
  { assert (HD2 : Data log (upd_fet (fe_eof_offset (fetch_offset (rktp_reader (tp_fet t1)))) t1)) by
      (apply data_fet; auto).
    cbn [Z.eqb negb ERR__PARTITION_EOF]. apply data_part_error; [exact HD2|exact Hr]. }
  case_if; [apply data_part_error; [exact HD1|exact Hr]|].
  case_if; [by intros [= <-]|].
  destruct (Hok El Ev) as [Hoff Hp]; [lia|lia|].
  destruct (Hp (fr_version req) (rktp_fetchq t1) (d_ready _ _ HD1))
    as (rd & q & ops & e & Ep & Eq & Erq & Fv & Hle & Es). change (rktp_reader (tp_fet t)) with (rktp_reader (tp_fet t1)) in Ep.
  rewrite Ep.
  cbn [obind]. intros H. assert (HD2 : Data log (set_fetchq q (upd_fet (fe_reader rd) t1))).
  { rewrite Ev in Fv, Es. apply (data_messages _ _ _ ops); try done; cbn; cbn in Hoff; lia. }
  revert H. intros [= <-]. case_if; [by apply data_backoff|done].
Qed.
(** *** Steps *)

Definition data_event_ok (e : event) (t : toppar) : Prop :=
  match e with
  | E_start _ _ | E_stop _ | E_seek _ _ | E_pause _ _ => rktp_version t + 1 < 2 ^ 31
  | E_fetch_reply i err p => forall req, n_fetches (tp_net t) !! i = Some req -> err = 0 -> fetch_ok req p t
  | _ => True
  end.

Fixpoint data_run_ok (es : list event) (t : toppar) : Prop :=
  match es with
  | [] => True
  | e :: es => data_event_ok e t /\ match tp_step cf e t with Ret t' => data_run_ok es t' | _ => True end
  end.

Lemma data_call u rq t :
  Data log t -> rktp_version t + 1 < 2 ^ 31 -> Data log (rd_kafka_toppar_op u rq t).
Proof.
  intros HD Hm. unfold rd_kafka_toppar_op, rd_kafka_toppar_version_new_barrier. cbn zeta.
  pose proof (d_ver _ _ HD) as Hv. pose proof (d_fv _ _ HD) as Hf. rewrite (swrap_id 32) by (unfold s_ok; lia).
  destruct HD. split; cbn [rktp_ops rktp_ops_enq set_ops set_version rktp_version tp_ctl tp_fet rktp_fetchq tp_net tp_out];
    try done; try lia.
  - rewrite Forall_app. split; [eapply Forall_impl; [exact d_ops0|]; cbn; intros ? H1 H2; specialize (H1 H2); lia|].
    constructor; [|done]. cbn. lia.
Qed.

Lemma data_net t n :
  Data log t -> Forall (fun r => 1 <= fr_version r <= rktp_fetch_version (tp_fet t)) (n_fetches n) ->
  Data log (set_net n t).
Proof. intros [] ?. by split. Qed.

Lemma data_ops t op : Data log t -> is_call op = false -> Data log (rktp_ops_enq op t).
Proof.
  intros [] Hc. split; try done. cbn [rktp_ops rktp_ops_enq set_ops]. rewrite Forall_app. split; [done|].
  constructor; [|done]. by rewrite Hc.
Qed.

Lemma data_query_tmr t t' : Data log t -> query_tmr_fires cf t = Ret t' -> Data log t'.
Proof.
  intros HD. unfold query_tmr_fires. cbn zeta.
  destruct (rd_kafka_toppar_offset_request _ _ _ _) eqn:E; cbn [obind]; try done. intros [= <-].
  apply calm_request in E. eapply data_calm; [exact HD|]. etrans; [|etrans; [exact E|]]; calm.
Qed.

Lemma data_commit_tmr t t' : Data log t -> commit_tmr_fires cf t = Ret t' -> Data log t'.
Proof.
  intros HD. unfold commit_tmr_fires. cbn zeta.
  destruct (rd_kafka_offset_commit _ _) as [[t1 e]| |] eqn:E; cbn [obind]; try done. intros [= <-].
  apply calm_commit in E. eapply data_calm; [exact HD|]. etrans; [|etrans; [exact E|]]; calm.
Qed.

Lemma data_next t n : Data log t -> Data log (set_next_leader n t).
Proof. intros []. by split. Qed.

Lemma data_migrate a b t t' : Data log t -> rd_kafka_toppar_broker_migrate a b t = Ret t' -> Data log t'.
Proof.
  intros HD. unfold rd_kafka_toppar_broker_migrate. cbn zeta. pose proof (data_next t b HD) as HD1.
  case_if; [by intros [= <-]|].
  set (t1 := if in_state _ _ then rd_kafka_toppar_offset_retry _ _ else _).
  assert (HD2 : Data log t1) by (unfold t1; case_if; [by eapply data_calm, calm_retry|done]).
  destruct a; [intros [= <-]; apply data_net; [done|apply HD2]|]. destruct b; [|done].
  intros [= <-]; apply data_net; [done|apply HD2].
Qed.

Lemma data_leader l t t' r : Data log t -> rd_kafka_toppar_leader_update cf l t = Ret (t', r) -> Data log t'.
Proof.
  intros HD. assert (D : forall b t', rd_kafka_toppar_broker_delegate cf b t = Ret t' -> Data log t').
  { intros b t1. unfold rd_kafka_toppar_broker_delegate. cbn zeta.
    case_if; [by intros [= <-]|by apply data_migrate]. }
  unfold rd_kafka_toppar_leader_update. destruct l as [b|].
  - case_if; [by intros [= <- _]|]. destruct (rd_kafka_toppar_broker_delegate _ _ _) eqn:H; cbn [obind]; try done.
    intros [= <- _]. by eapply D.
  - destruct (rd_kafka_toppar_broker_delegate _ _ _) eqn:H; cbn [obind]; try done.
    intros [= <- _]. by eapply D.
Qed.

Lemma data_join b t t' : Data log t -> op_partition_join b t = Ret t' -> Data log t'.
Proof.
  intros HD. unfold op_partition_join. case_if; [case_if; [intros [= <-]; by apply data_next|done]|].
  destruct (rktp_next_leader t); [|done]. case_if; [intros [= <-]; apply data_net; [done|apply HD]|].
  case_if; [intros [= <-]|done]. apply data_next. destruct HD. by split.
Qed.

Lemma data_leave b t : Data log t -> Data log (op_partition_leave cf b t).
Proof.
  intros HD. unfold op_partition_leave. case_if; [done|].
  pose proof (decide_data true t HD) as HD1. destruct (rd_kafka_toppar_fetch_decide cf true t) as [t1 ts].
  cbn [fst] in HD1. cbn zeta.
  assert (HD2 : Data log (set_leader None (set_s_for_rkb false t1))) by (destruct HD1; by split).
  destruct (rktp_next_leader _); [|done]. destruct HD2. by split.
Qed.

Lemma data_step e t t' : Data log t -> data_event_ok e t -> tp_step cf e t = Ret t' -> Data log t'.
Proof.
  intros HD Hok. destruct e as [o rq|rq|o rq|pa f|o| | | | |i e f|i e pe o|i e pe| |b|i e p|b|i|now];
    cbn [tp_step data_event_ok] in *; try (intros [= <-]; by apply data_call).
  - intros [= <-]. by eapply data_same.
  - intros [= <-]. by apply consume_data.
  - destruct (rktp_ops t) as [|op ops] eqn:Eo; [by intros [= <-]|]. by apply data_serve.
  - case_if; [by apply data_query_tmr|by intros [= <-]].
  - case_if; [by apply data_commit_tmr|by intros [= <-]].
  - destruct (n_offset_reqs _ !! i); intros [= <-]; [|done]. apply data_ops; [|done]. by apply data_net, HD.
  - destruct (n_offset_fetches _ !! i); intros [= <-]; [|done]. apply data_ops; [|done]. by apply data_net, HD.
  - destruct (n_commits _ !! i); intros [= <-]; [|done]. apply data_ops; [|done]. by apply data_net, HD.
  - intros [= <-]. destruct (rktp_leader t); [by apply decide_data|done].
  - intros [= <-]. unfold rd_kafka_broker_fetch_toppars. destruct (_ && _ && _) eqn:E; [|done].
    apply data_net; [done|].
    apply andb_true_iff in E as [[_ E]%andb_true_iff _]. cbn. rewrite Forall_app.
    split; [apply HD|]. constructor; [|done]. cbn. pose proof (d_fetch _ _ HD E). lia.
  - unfold rd_kafka_broker_fetch_reply. destruct (n_fetches _ !! i) as [req|] eqn:Ei; [|by intros [= <-]]. case_if; [by intros [= <-]|].
    assert (HD1 : Data log (upd_net (fun n => ne_fetches (delete i (n_fetches n)) n) t)).
    { apply data_net; [done|]. apply Forall_delete, HD. }
    case_if; [by intros [= <-]|]. apply data_reply; [exact HD1| |].
    + pose proof (d_fetches _ _ HD) as F. exact (Forall_lookup_1 _ _ _ _ F Ei).
    + assert (e = 0) by lia. exact (Hok req eq_refl H).
  - destruct (rd_kafka_toppar_leader_update _ _ _) as [[t1 r]| |] eqn:E; cbn [obind]; try done. intros [= <-].
    by eapply data_leader.
  - destruct (n_migr _ !! i) as [m|]; [|by intros [= <-]].
    assert (HD1 : Data log (upd_net (fun n => ne_migr (delete i (n_migr n)) n) t)) by (apply data_net, HD; done).
    case_if; [by apply data_join|]. intros [= <-]. by apply data_leave.
  - intros [= <-]. by eapply data_same.
Qed.

Lemma data_run es t t' : Data log t -> data_run_ok es t -> tp_run cf es t = Ret t' -> Data log t'.
Proof.
  revert t. induction es as [|e es IH]; intros t HD; cbn [data_run_ok tp_run]; [by intros _ [= <-]|].
  intros [He Hes]. destruct (tp_step cf e t) as [t1| |] eqn:E; cbn [obind]; try done.
  apply IH; [|done]. by eapply data_step.
Qed.

Lemma data_new now : Data log (rd_kafka_toppar_new cf now).
Proof.
  split; cbn; try done; try lia.
  - intros w. by exists [].
Qed.

Lemma seg_prefix a b : a <= b -> seg log a b `prefix_of` filter (fun o => a <= o) log.
Proof.
  intros Hab. unfold seg. induction Hlog as [|x l Hs IH Hx]; [done|]. destruct (decide (a <= x < b)).
  - rewrite !filter_cons_True by lia. apply prefix_cons, IH. done.
  - destruct (decide (a <= x)).
    + assert (E : seg (x :: l) a b = []).
      { apply seg_none. constructor; [lia|]. eapply Forall_impl; [exact Hx|]. cbn. lia. }
      unfold seg in E. rewrite E. apply prefix_nil.
    + rewrite !filter_cons_False by lia. apply IH. done.
Qed.
End data.
