(* ===== verification/TopparMigr.v ===== *)
(** * A consumed partition: moving between brokers

    A partition is moved by operations that the threads of the brokers exchange.
    [Mig]: at most one of them is on its way, and it is the one that the
    partition's leader and next leader call for. *)
From Stdlib Require Import ZArith Lia.
From stdpp Require Import base numbers list.
From S2P Require Import Prelude.
From S2P Require Import Proto.
From S2P Require Import Msg.
From S2P Require Import Queue.
From S2P Require Import MsgsetReader.
From S2P Require Import TopparState.
From S2P Require Import Toppar.
From S2P Require Import TopparInv.

(** Nothing on its way; leaving its broker; joining one. *)
Definition Mig (t : toppar) : Prop :=
  match n_migr (tp_net t) with
  | [] => rktp_next_leader t = None /\ rktp_s_for_rkb t = bool_decide (rktp_leader t <> None)
  | [m] =>
      rktp_next_leader t <> None /\
      if mg_join m then rktp_leader t = None /\ rktp_s_for_rkb t = false
      else rktp_leader t = Some (mg_dest m) /\ rktp_s_for_rkb t = true
  | _ => False
  end.

Lemma mig_place t t' : place t' = place t -> Mig t -> Mig t'.
Proof. unfold place, Mig. by intros [= -> -> -> ->]. Qed.

Section migr.
Context (cf : tp_conf).

Lemma consume_place fuel t : place (consume_loop cf fuel t) = place t.
Proof.
  revert t. induction fuel as [|fuel IH]; intros t; cbn [consume_loop]; [done|].
  destruct (rd_kafka_q_pop _ _) as [[o|] q]; [|done]. destruct (rko_u o) eqn:Hu; [|done|by rewrite IH].
  unfold rd_kafka_op_offset_store. rewrite Hu. by repeat case_if.
Qed.

Lemma decide_place f t : place (rd_kafka_toppar_fetch_decide cf f t).1 = place t.
Proof.
  unfold rd_kafka_toppar_fetch_decide.
  assert (E : place (fetch_decision cf f t).1 = place t).
  { unfold fetch_decision. repeat (case_if; [done|]). cbn zeta. unfold decide_restart. cbn zeta. by case_if. }
  destruct (fetch_decision cf f t) as [t1 [sf ts]]. cbn [fst] in E. cbn zeta. by case_if.
Qed.

Lemma backoff_place e t : place (rd_kafka_toppar_fetch_backoff cf e t) = place t.
Proof. unfold rd_kafka_toppar_fetch_backoff. by case_if. Qed.

Lemma part_error_place r e t t' : fetch_part_error cf r e t = Ret t' -> place t' = place t.
Proof.
  unfold fetch_part_error. repeat case_if; cbn [obind rd_kafka_offset_reset]; intros [= <-]; by rewrite backoff_place.
Qed.

Lemma reply_place r p t t' : rd_kafka_fetch_reply_handle cf r p t = Ret t' -> place t' = place t.
Proof.
  unfold rd_kafka_fetch_reply_handle. do 2 (case_if; [by intros [= <-]|]). cbn zeta.
  destruct (_ && _); (case_if; [intros ->%part_error_place; done|]); (case_if; [by intros [= <-]|]);
    (destruct (fp_parse _ _ _ _) as [[[rd q] e]| |]; cbn [obind]; try done); intros [= <-];
    (case_if; [by rewrite backoff_place|done]).
Qed.

Lemma served_place v t t' : served v t t' -> place t' = place t.
Proof. intros (t1 & C & [->| ->]); exact (cm_place _ _ C). Qed.

Lemma mig_delegate b t :
  Mig t -> exists t', rd_kafka_toppar_broker_delegate cf b t = Ret t' /\ Mig t' /\
    (rktp_next_leader t' = Some (default (internal_broker cf) b) \/
     rktp_next_leader t' = None /\ rktp_leader t' = Some (default (internal_broker cf) b)).
Proof.
  intros H. unfold rd_kafka_toppar_broker_delegate. cbn zeta.
  set (d := default (internal_broker cf) b).
  replace (match b with Some _ => b | None => Some (internal_broker cf) end) with (Some d) by (by destruct b).
  destruct (bool_decide _ && bool_decide _) eqn:E.
  { apply andb_true_iff in E as [E1%bool_decide_eq_true E2%bool_decide_eq_true]. exists t. auto. }
  unfold rd_kafka_toppar_broker_migrate. cbn zeta. unfold Mig in H.
  destruct (n_migr (tp_net t)) as [|m [|]] eqn:En; [| |done].
  - destruct H as [Hn Hs]. rewrite Hn. rewrite bool_decide_eq_false_2 by (intros []; done).
    set (t1 := if in_state _ _ then rd_kafka_toppar_offset_retry _ _ else _).
    assert (P : place t1 = place (set_next_leader (Some d) t)).
    { unfold t1. case_if; [|done]. exact (cm_place _ _ (calm_retry 500 _)). }
    unfold place in P. cbn [rktp_leader rktp_next_leader rktp_s_for_rkb tp_net set_next_leader] in P.
    injection P as P1 P2 P3 P4. rewrite En in P4.
    destruct (rktp_leader t) as [l|] eqn:El; (eexists; split; [done|]); (split; [|left; cbn; exact P2]);
      unfold Mig; cbn [upd_net set_net tp_net n_migr ne_migr rktp_next_leader rktp_leader rktp_s_for_rkb mg_join mg_dest];
      rewrite P4; cbn [app mg_join mg_dest]; rewrite P1, P2, P3, Hs; done.
  - destruct H as [Hn H]. rewrite bool_decide_eq_true_2 by done. eexists. split; [done|]. split; [|by left].
    unfold Mig. cbn [tp_net set_next_leader rktp_next_leader rktp_leader rktp_s_for_rkb]. rewrite En.
    by destruct (mg_join m), (rktp_next_leader t).
Qed.

Lemma mig_leader b t t' r : Mig t -> rd_kafka_toppar_leader_update cf b t = Ret (t', r) -> Mig t'.
Proof.
  intros H. unfold rd_kafka_toppar_leader_update. destruct b as [b|].
  - case_if; [by intros [= <- _]|]. destruct (mig_delegate (Some b) t H) as (t1 & -> & H1 & _). by intros [= <- _].
  - destruct (mig_delegate None t H) as (t1 & -> & H1 & _). by intros [= <- _].
Qed.

(** One operation is served. *)
Lemma mig_serve i m t :
  Mig t -> n_migr (tp_net t) !! i = Some m ->
  exists t', tp_step cf (E_migr i) t = Ret t' /\ Mig t'.
Proof.
  intros H Hi. cbn [tp_step]. rewrite Hi. unfold Mig in H.
  destruct (n_migr (tp_net t)) as [|m0 [|]] eqn:En; [done| |done]. destruct i as [|i]; [|done].
  injection Hi as ->. destruct H as [Hn H]. set (t1 := upd_net _ t).
  assert (E1 : n_migr (tp_net t1) = []) by (unfold t1; cbn; by rewrite En).
  destruct (mg_join m) eqn:Ej; destruct H as [Hl Hs].
  - unfold op_partition_join. cbn [tp_ctl t1 upd_net set_net rktp_next_leader rktp_s_for_rkb].
    rewrite Hs. case_if.
    + rewrite bool_decide_eq_true_2 by done. eexists. split; [done|]. unfold Mig. fold t1.
      cbn [tp_net set_next_leader rktp_next_leader rktp_leader rktp_s_for_rkb]. rewrite E1. cbn [t1 upd_net set_net rktp_s_for_rkb rktp_leader].
      rewrite Hs, Hl. split; [done|]. rewrite bool_decide_eq_false_2; [done|]. intros X. by apply X.
    + destruct (rktp_next_leader t) as [n|] eqn:Enx; [|done]. case_if.
      * eexists. split; [done|]. unfold Mig. fold t1. cbn [tp_net upd_net set_net ne_migr n_migr].
        change (n_migr (ne_migr _ _)) with (n_migr (tp_net t1) ++ [mk_migr n true]). rewrite E1. cbn [app mg_join].
        cbn. by rewrite Enx, Hl, Hs.
      * cbn [negb]. eexists. split; [done|]. unfold Mig. fold t1.
        cbn [tp_net set_next_leader set_leader set_s_for_rkb rktp_next_leader rktp_leader rktp_s_for_rkb].
        rewrite E1. split; [done|]. by rewrite bool_decide_eq_true_2.
  - eexists. split; [done|].
    assert (Hl1 : rktp_leader t1 = Some (mg_dest m)) by exact Hl.
    assert (Hn1 : rktp_next_leader t1 <> None) by exact Hn. clearbody t1. clear - Hl1 Hn1 E1.
    unfold op_partition_leave. rewrite Hl1. rewrite bool_decide_eq_true_2 by done. cbn [negb].
    pose proof (decide_place true t1) as P. destruct (rd_kafka_toppar_fetch_decide cf true t1) as [t2 ts].
    cbn [fst] in P. unfold place in P. injection P as P1 P2 P3 P4. rewrite E1 in P4. rewrite <- P2 in Hn1. cbn zeta.
    cbn [rktp_next_leader set_leader set_s_for_rkb].
    destruct (rktp_next_leader t2) as [n|] eqn:Enx; [|done].
    unfold Mig. cbn [tp_net upd_net set_net set_leader set_s_for_rkb ne_migr n_migr rktp_next_leader rktp_leader rktp_s_for_rkb].
    rewrite P4. cbn [app mg_join]. by rewrite Enx.
Qed.

Lemma mig_step e t t' : Mig t -> tp_step cf e t = Ret t' -> Mig t'.
Proof.
  intros H. destruct e as [o rq|rq|o rq|pa f|o| | | | |i e f|i e pe o|i e pe| |b|i e p|b|i|now];
    try (cbn [tp_step]; intros [= <-]; exact H).
  - intros [= <-]. eapply mig_place; [apply consume_place|done].
  - cbn [tp_step]. destruct (rktp_ops t) as [|op ops]; [by intros [= <-]|].
    intros E. destruct (op_serve_calm _ _ _ _ E) as [C|(_ & _ & S)].
    + by eapply mig_place; [exact (cm_place _ _ C)|].
    + by eapply mig_place; [exact (served_place _ _ _ S)|].
  - cbn [tp_step]. case_if; [|by intros [= <-]]. unfold query_tmr_fires. cbn zeta.
    destruct (rd_kafka_toppar_offset_request _ _ _ _) eqn:E'; cbn [obind]; try done. intros [= <-].
    apply calm_request in E'. eapply mig_place; [|exact H]. exact (cm_place _ _ E').
  - cbn [tp_step]. case_if; [|by intros [= <-]]. unfold commit_tmr_fires. cbn zeta.
    destruct (rd_kafka_offset_commit _ _) as [[t1 e]| |] eqn:E'; cbn [obind]; try done. intros [= <-].
    apply calm_commit in E'. eapply mig_place; [|exact H]. exact (cm_place _ _ E').
  - cbn [tp_step]. by destruct (_ !! i); intros [= <-].
  - cbn [tp_step]. by destruct (_ !! i); intros [= <-].
  - cbn [tp_step]. by destruct (_ !! i); intros [= <-].
  - cbn [tp_step]. intros [= <-]. destruct (rktp_leader t); [|done]. eapply mig_place; [apply decide_place|done].
  - cbn [tp_step]. intros [= <-]. unfold rd_kafka_broker_fetch_toppars. by case_if.
  - cbn [tp_step]. unfold rd_kafka_broker_fetch_reply. destruct (n_fetches _ !! i); [|by intros [= <-]]. do 2 (case_if; [by intros [= <-]|]).
    intros E'. apply reply_place in E'. eapply mig_place; [exact E'|]. exact H.
  - cbn [tp_step]. destruct (rd_kafka_toppar_leader_update _ _ _) as [[t1 r]| |] eqn:E'; cbn [obind]; try done.
    intros [= <-]. by eapply mig_leader.
  - destruct (n_migr (tp_net t) !! i) as [m|] eqn:Ei.
    + destruct (mig_serve i m t H Ei) as (t1 & E1 & H1). rewrite E1. by intros [= <-].
    + cbn [tp_step]. rewrite Ei. by intros [= <-].
Qed.

Lemma mig_run es t t' : Mig t -> tp_run cf es t = Ret t' -> Mig t'.
Proof.
  revert t. induction es as [|e es IH]; intros t H; cbn [tp_run]; [by intros [= <-]|].
  destruct (tp_step cf e t) as [t1| |] eqn:E; cbn [obind]; try done. apply IH. by eapply mig_step.
Qed.

Lemma mig_new now : Mig (rd_kafka_toppar_new cf now).
Proof. done. Qed.

(** ** Every move ends *)

Definition flags_of (t : toppar) : Z := rktp_flags (tp_ctl t).

Lemma decide_ctl f t : tp_ctl (rd_kafka_toppar_fetch_decide cf f t).1 = tp_ctl t.
Proof.
  unfold rd_kafka_toppar_fetch_decide.
  assert (E : tp_ctl (fetch_decision cf f t).1 = tp_ctl t).
  { unfold fetch_decision. repeat (case_if; [done|]). cbn zeta. unfold decide_restart. cbn zeta. by case_if. }
  destruct (fetch_decision cf f t) as [t1 [sf ts]]. cbn [fst] in E. cbn zeta. by case_if.
Qed.

Lemma migr_idle t : n_migr (tp_net t) = [] -> tp_step cf (E_migr 0) t = Ret t.
Proof. intros E. cbn [tp_step]. by rewrite E. Qed.

Lemma migr_join t d n :
  place t = (None, Some n, false, [mk_migr d true]) -> has_flag (flags_of t) F_REMOVE = false ->
  exists t', tp_step cf (E_migr 0) t = Ret t' /\ flags_of t' = flags_of t /\
    place t' = if n =? d then (Some n, None, true, []) else (None, Some n, false, [mk_migr n true]).
Proof.
  unfold place. intros [= El En Es Em] Hf. cbn [tp_step]. rewrite Em. cbn [lookup list_lookup mg_join mg_dest].
  unfold op_partition_join. cbn [tp_ctl upd_net set_net rktp_next_leader rktp_s_for_rkb]. fold (flags_of t).
  rewrite Hf, En, Es. destruct (n =? d) eqn:E; cbn [negb]; (eexists; split; [done|]); (split; [done|]); cbn;
    rewrite Em; cbn.
  - assert (n = d) by lia. by subst.
  - by rewrite El, En, Es.
Qed.

Lemma migr_leave t b n :
  place t = (Some b, Some n, true, [mk_migr b false]) ->
  exists t', tp_step cf (E_migr 0) t = Ret t' /\ flags_of t' = flags_of t /\
    place t' = (None, Some n, false, [mk_migr n true]).
Proof.
  unfold place. intros [= El En Es Em]. cbn [tp_step]. rewrite Em. cbn [lookup list_lookup mg_join mg_dest].
  set (t1 := upd_net _ t). assert (E1 : n_migr (tp_net t1) = []) by (unfold t1; cbn; by rewrite Em).
  assert (El1 : rktp_leader t1 = Some b) by exact El. assert (En1 : rktp_next_leader t1 = Some n) by exact En.
  assert (Ef1 : flags_of t1 = flags_of t) by done. clearbody t1.
  eexists. split; [done|]. unfold op_partition_leave. rewrite El1, bool_decide_eq_true_2 by done. cbn [negb].
  pose proof (decide_place true t1) as P. pose proof (decide_ctl true t1) as C.
  destruct (rd_kafka_toppar_fetch_decide cf true t1) as [t2 ts]. cbn [fst] in P, C.
  unfold place in P. injection P as P1 P2 P3 P4. cbn zeta. cbn [rktp_next_leader set_leader set_s_for_rkb].
  rewrite P2, En1. split; [rewrite <- Ef1; unfold flags_of; cbn; by rewrite C|].
  cbn [rktp_leader rktp_next_leader rktp_s_for_rkb tp_net upd_net set_net set_leader set_s_for_rkb n_migr ne_migr].
  by rewrite P2, En1, P4, E1.
Qed.

Lemma mig_ends t :
  Mig t -> has_flag (flags_of t) F_REMOVE = false ->
  exists t', tp_run cf [E_migr 0; E_migr 0; E_migr 0] t = Ret t' /\ n_migr (tp_net t') = [] /\
    rktp_next_leader t' = None /\
    rktp_leader t' = match rktp_next_leader t with Some n => Some n | None => rktp_leader t end.
Proof.
  intros H Hf.
  assert (J : forall t d n, place t = (None, Some n, false, [mk_migr d true]) -> has_flag (flags_of t) F_REMOVE = false ->
    exists t', tp_run cf [E_migr 0; E_migr 0] t = Ret t' /\ n_migr (tp_net t') = [] /\
      rktp_next_leader t' = None /\ rktp_leader t' = Some n).
  { clear. intros t d n P Hf. cbn [tp_run]. destruct (migr_join t d n P Hf) as (t1 & -> & F1 & P1). cbn [obind].
    destruct (n =? d).
    - unfold place in P1. injection P1 as A B C D. rewrite migr_idle by done. cbn [obind]. eauto.
    - rewrite <- F1 in Hf. destruct (migr_join t1 n n P1 Hf) as (t2 & -> & _ & P2). cbn [obind].
      rewrite Z.eqb_refl in P2. unfold place in P2. injection P2 as A B C D. eauto. }
  unfold Mig in H. destruct (n_migr (tp_net t)) as [|m [|]] eqn:Em; [| |done].
  - destruct H as [Hn _]. cbn [tp_run]. do 3 (rewrite migr_idle by done; cbn [obind]).
    exists t. by rewrite Hn.
  - destruct m as [dst join], H as [Hn H]. destruct (rktp_next_leader t) as [n|] eqn:En; [|done].
    cbn [mg_join mg_dest] in H. destruct join; destruct H as [Hl Hs].
    + assert (P : place t = (None, Some n, false, [mk_migr dst true])) by (unfold place; by rewrite Hl, En, Hs, Em).
      destruct (J t dst n P Hf) as (t' & R & A & B & C). cbn [tp_run] in R |- *.
      destruct (tp_step cf (E_migr 0) t) as [t1| |]; cbn [obind] in *; try done.
      destruct (tp_step cf (E_migr 0) t1) as [t2| |]; cbn [obind] in *; try done. injection R as ->.
      rewrite migr_idle by done. cbn [obind]. eauto.
    + assert (P : place t = (Some dst, Some n, true, [mk_migr dst false])) by (unfold place; by rewrite Hl, En, Hs, Em).
      destruct (migr_leave t dst n P) as (t1 & E1 & F1 & P1). rewrite <- F1 in Hf.
      destruct (J t1 n n P1 Hf) as (t' & R & A & B & C). exists t'. split; [|auto].
      change (tp_run cf [E_migr 0; E_migr 0; E_migr 0] t) with
        (let! t := tp_step cf (E_migr 0) t in tp_run cf [E_migr 0; E_migr 0] t).
      rewrite E1. exact R.
Qed.
End migr.
