(* ===== verification/TopparView.v ===== *)
(** * A consumed partition: what the application sees

    [view] is the abstract consumer: a position in the log, moved by starting and
    seeking, and advanced by every message; pausing and resuming do not change it.
    The invariant [Seen] relates it to the three threads, their queues and version
    barriers, for an application that uses absolute offsets, resumes only what is
    paused and does not pause between seeking and the first message. *)
From Stdlib Require Import ZArith Lia Sorting.Sorted.
From stdpp Require Import base numbers list.
From S2P Require Import Prelude.
From S2P Require Import Proto.
From S2P Require Import Msg.
From S2P Require Import Queue.
From S2P Require Import MsgsetReader.
From S2P Require Import TopparState.
From S2P Require Import Toppar.
From S2P Require Import TopparInv.
From S2P Require Import TopparMigr.

(** ** The abstract consumer *)

(** The position, whether a message came since the last positioning, whether any
    message came, and the reasons to pause. *)
Record view : Type := mk_view {
  v_pos : option Z;
  v_got : bool;
  v_any : bool;
  v_flags : Z }.

Definition view0 : view := mk_view None false false 0.

Definition any_msg (e : tp_out_t) : option Z :=
  match e with OUT_message _ o => Some o | _ => None end.

(** The messages the application got in a step. *)
Definition new_msgs (t t' : toppar) : list Z := omap any_msg (drop (length (tp_out t)) (tp_out t')).

(** The first message of the log at or after the position. *)
Definition expected (log : list Z) (v : view) : option Z :=
  p ← v_pos v; head (filter (fun o => p <= o) log).

Definition view_step (e : event) (msgs : list Z) (v : view) : view :=
  match e with
  | E_start o _ | E_seek o _ => mk_view (Some o) false (v_any v) (v_flags v)
  | E_pause true f => mk_view (v_pos v) (v_got v) (v_any v) (Z.lor (v_flags v) f)
  | E_pause false f => mk_view (v_pos v) (v_got v) (v_any v) (Z.ldiff (v_flags v) f)
  | E_consume =>
      match msgs with
      | m :: _ => mk_view (Some (m + 1)) true true (v_flags v)
      | [] => v
      end
  | _ => v
  end.

Definition pause_flag (f : Z) : Prop := f = F_APP_PAUSE \/ f = F_LIB_PAUSE.

(** The calls of the application and what the broker answers. *)
Definition view_event_ok (log : list Z) (e : event) (v : view) (t : toppar) : Prop :=
  match e with
  | E_start o _ => v_pos v = None /\ 0 <= o /\ rktp_version t + 1 < 2 ^ 31
  | E_seek o _ => v_pos v <> None /\ 0 <= o /\ rktp_version t + 1 < 2 ^ 31
  | E_pause true f =>
      v_pos v <> None /\ (v_any v = false \/ v_got v = true) /\ pause_flag f /\ rktp_version t + 1 < 2 ^ 31
  | E_pause false f => v_pos v <> None /\ v_flags v <> 0 /\ pause_flag f /\ rktp_version t + 1 < 2 ^ 31
  | E_stop _ => False
  | E_fetch_reply i err p => forall req, n_fetches (tp_net t) !! i = Some req -> err = 0 ->
      fp_ErrorCode p <> ERR_OFFSET_OUT_OF_RANGE /\
      (fp_ErrorCode p = 0 -> 0 < fp_MessageSetSize p -> fr_version req = rktp_fetch_version (tp_fet t) ->
       0 <= fr_offset req <= fetch_offset (rktp_reader (tp_fet t)) -> parser_ok log (rktp_reader (tp_fet t)) p)
  | _ => True
  end.

Fixpoint view_run_ok (cf : tp_conf) (log : list Z) (es : list event) (v : view) (t : toppar) : Prop :=
  match es with
  | [] => True
  | e :: es =>
      view_event_ok log e v t /\
      match tp_step cf e t with
      | Ret t' => view_run_ok cf log es (view_step e (new_msgs t t') v) t'
      | _ => True
      end
  end.

(** Every step returns, and a message is the one the view expects. *)
Fixpoint view_follows (cf : tp_conf) (log : list Z) (es : list event) (v : view) (t : toppar) : Prop :=
  match es with
  | [] => True
  | e :: es =>
      match tp_step cf e t with
      | Ret t' =>
          (new_msgs t t' = [] \/ exists m, new_msgs t t' = [m] /\ expected log v = Some m) /\
          view_follows cf log es (view_step e (new_msgs t t') v) t'
      | _ => False
      end
  end.

(** ** The invariant *)

Definition pause_bits (f : Z) : Prop := f = 0 \/ f = 0x10 \/ f = 0x20 \/ f = 0x30.

(** The effect of pending operations on the next offset and on the flags. *)
Definition op_next (app_offset next : Z) (op : tp_op) : Z :=
  match tp_op_type op with
  | TP_FETCH_START o _ | TP_SEEK o => o
  | TP_PAUSE true _ => if app_offset =? OFFSET_INVALID then next else app_offset
  | _ => next
  end.
Definition op_flags (flags : Z) (op : tp_op) : Z :=
  match tp_op_type op with
  | TP_PAUSE true f => Z.lor flags f
  | TP_PAUSE false f => Z.ldiff flags f
  | _ => flags
  end.

Definition wanted (t : toppar) : Z :=
  foldl (op_next (rktp_app_offset t)) (rktp_next_offset (tp_ctl t)) (rktp_ops t).
Definition flags_to_be (t : toppar) : Z := foldl op_flags (rktp_flags (tp_ctl t)) (rktp_ops t).

Definition call_good (op : tp_op) : Prop :=
  match tp_op_type op with
  | TP_SEEK o => 0 <= o
  | TP_PAUSE _ f => pause_flag f
  | _ => False
  end.

(** The position after the messages [l], from [o] on. *)
Definition pos_after (o : Z) (l : list Z) : Z := match last l with Some m => m + 1 | None => o end.

Definition not_other (o : rd_kafka_op) : Prop :=
  match rko_u o with
  | RD_KAFKA_OP_FETCH _ => rko_err o = 0
  | RD_KAFKA_OP_CONSUMER_ERR _ => True
  | RD_KAFKA_OP_OTHER _ => False
  end.

Lemma seqZ_one m : seqZ m 1 = [m].
Proof. unfold seqZ. by destruct m. Qed.

Section seen.
Context (cf : tp_conf) (log : list Z).

Record Seen (v : view) (t : toppar) : Prop := mk_Seen {
  s_data : Data log t;
  s_idle : n_offset_reqs (tp_net t) = [] /\ n_offset_fetches (tp_net t) = [] /\ n_commits (tp_net t) = [] /\
    rktp_offset_query_tmr (tp_ctl t) = mk_tmr 0 0 /\ rktp_offset_commit_tmr (tp_ctl t) = mk_tmr 0 0;
  s_ops : (rktp_fetch_state (tp_ctl t) = FETCH_NONE /\ rktp_cgrp (tp_ctl t) = false /\ rktp_app_offset t = OFFSET_INVALID /\
      rktp_fetch_version (tp_fet t) = 0 /\ rktp_fetch (tp_fet t) = false /\
      ((rktp_ops t = [] /\ v_pos v = None /\ v_flags v = 0) \/ exists op o g rest, rktp_ops t = op :: rest /\ tp_op_type op = TP_FETCH_START o g /\
         0 <= o /\ v_pos v <> None /\ Forall call_good rest)) \/
    (rktp_fetch_state (tp_ctl t) = FETCH_ACTIVE /\ v_pos v <> None /\ Forall call_good (rktp_ops t) /\
     0 <= rktp_next_offset (tp_ctl t));
  s_versions : tp_op_version <$> rktp_ops t = seqZ (rktp_op_version (tp_ctl t) + 1)
    (rktp_version t - rktp_op_version (tp_ctl t));
  s_bits : pause_bits (rktp_flags (tp_ctl t));
  s_flags : v_flags v = flags_to_be t;
  s_other : Forall not_other (rkq_q (rktp_fetchq t));
  s_offset : 0 <= fetch_offset (rktp_reader (tp_fet t)) /\
    Forall (fun r => fr_version r = rktp_fetch_version (tp_fet t) ->
      0 <= fr_offset r <= fetch_offset (rktp_reader (tp_fet t))) (n_fetches (tp_net t));
  (* the present version *)
  s_start : rktp_fetch_version (tp_fet t) = rktp_op_version (tp_ctl t) ->
    starts (rktp_op_version (tp_ctl t)) (tp_out t) = [rktp_next_offset (tp_ctl t)] /\
    rktp_last_next_offset (tp_fet t) = rktp_next_offset (tp_ctl t);
  s_paused : rktp_fetch_version (tp_fet t) = rktp_op_version (tp_ctl t) -> rktp_flags (tp_ctl t) <> 0 ->
    rktp_fetch (tp_fet t) = false /\
    Forall (fun r => fr_version r <> rktp_fetch_version (tp_fet t)) (n_fetches (tp_net t)) /\
    queued (rktp_fetch_version (tp_fet t)) (rkq_q (rktp_fetchq t)) = [] /\
    delivered (rktp_fetch_version (tp_fet t)) (tp_out t) = [];
  (* the position *)
  s_pos : forall p, v_pos v = Some p ->
    p = if decide (rktp_fetch_version (tp_fet t) = rktp_version t)
        then pos_after (rktp_next_offset (tp_ctl t)) (delivered (rktp_version t) (tp_out t))
        else wanted t;
  s_any : v_any v = false -> rktp_app_offset t = OFFSET_INVALID /\ forall w, delivered w (tp_out t) = [];
  s_some : v_any v = true -> 0 <= rktp_app_offset t;
  s_got : v_got v = true -> v_any v = true /\ v_pos v = Some (rktp_app_offset t) }.

Lemma seen_same v t t' :
  Seen v t -> Data log t' -> tp_ctl t' = tp_ctl t -> tp_fet t' = tp_fet t ->
  n_offset_reqs (tp_net t') = n_offset_reqs (tp_net t) -> n_offset_fetches (tp_net t') = n_offset_fetches (tp_net t) ->
  n_commits (tp_net t') = n_commits (tp_net t) -> n_fetches (tp_net t') = n_fetches (tp_net t) ->
  rktp_fetchq t' = rktp_fetchq t -> rktp_ops t' = rktp_ops t -> rktp_version t' = rktp_version t ->
  rktp_app_offset t' = rktp_app_offset t -> tp_out t' = tp_out t -> Seen v t'.
Proof.
  intros [] HD Ec Ef En1 En2 En3 En4 Eq Eo Ev Ea Eout.
  split; unfold flags_to_be, wanted in *; rewrite ?Ec, ?Ef, ?En1, ?En2, ?En3, ?En4, ?Eq, ?Eo, ?Ev, ?Ea, ?Eout; done.
Qed.

Lemma new_msgs_same t t' : tp_out t' = tp_out t -> new_msgs t t' = [].
Proof. intros E. unfold new_msgs. by rewrite E, drop_all. Qed.

Lemma new_msgs_app t t' l : tp_out t' = tp_out t ++ l -> new_msgs t t' = omap any_msg l.
Proof. intros E. unfold new_msgs. by rewrite E, drop_app_length. Qed.

Lemma seen_versions_nil v t : Seen v t -> rktp_op_version (tp_ctl t) = rktp_version t -> rktp_ops t = [].
Proof.
  intros H E. pose proof (s_versions _ _ H) as F. rewrite E, Z.sub_diag in F.
  by apply fmap_nil_inv in F.
Qed.

(** *** Calls *)

Lemma pos_wanted v t p :
  Seen v t -> delivered (rktp_version t) (tp_out t) = [] -> v_pos v = Some p -> p = wanted t.
Proof.
  intros H Hd Hp. pose proof (s_pos _ _ H p Hp) as E. case_decide; [|done].
  rewrite Hd in E. cbn in E. unfold wanted. rewrite (seen_versions_nil v t H); [done|].
  pose proof (d_fv _ _ (s_data _ _ H)). pose proof (d_ver _ _ (s_data _ _ H)). lia.
Qed.

Lemma paused_wanted v t p : Seen v t -> v_flags v <> 0 -> v_pos v = Some p -> p = wanted t.
Proof.
  intros H Hf Hp. pose proof (s_pos _ _ H p Hp) as E. case_decide as Ev; [|done].
  pose proof (d_fv _ _ (s_data _ _ H)). pose proof (d_ver _ _ (s_data _ _ H)).
  assert (Eo : rktp_op_version (tp_ctl t) = rktp_version t) by lia.
  apply (pos_wanted v t p H); [|done]. rewrite (s_flags _ _ H) in Hf. unfold flags_to_be in Hf.
  rewrite (seen_versions_nil v t H Eo) in Hf. destruct (s_paused _ _ H) as (_ & _ & _ & D); [lia|done|].
  by rewrite <- Ev.
Qed.

Lemma seen_call v v' u rq t :
  Seen v t -> rktp_version t + 1 < 2 ^ 31 ->
  ((exists o g, u = TP_FETCH_START o g /\ 0 <= o /\ v_pos v = None) \/
   (call_good (mk_tp_op 0 rq u) /\ v_pos v <> None)) ->
  v_pos v' = Some (op_next (rktp_app_offset t) (wanted t) (mk_tp_op 0 rq u)) ->
  v_any v' = v_any v -> v_flags v' = op_flags (v_flags v) (mk_tp_op 0 rq u) ->
  (v_got v' = true -> v_got v = true /\ v_pos v' = v_pos v) ->
  Seen v' (rd_kafka_toppar_op u rq t).
Proof.
  intros H Hm Hop Hpos Hany Hfl Hgot. pose proof (data_call log u rq t (s_data _ _ H) Hm) as HD.
  pose proof (d_fv _ _ (s_data _ _ H)) as Hfv. pose proof (d_ver _ _ (s_data _ _ H)) as Hv.
  unfold rd_kafka_toppar_op, rd_kafka_toppar_version_new_barrier in *. cbn zeta in *.
  rewrite (swrap_id 32) in * by (unfold s_ok; lia). destruct H.
  split; cbn [tp_ctl rktp_ops_enq set_ops set_version rktp_ops rktp_version tp_fet tp_net rktp_fetchq rktp_app_offset
    tp_out]; try done.
  - destruct Hop as [(o & g & -> & Ho & Hn)|[Hg Hn]].
    + left. destruct s_ops0 as [(? & ? & ? & ? & ? & Hc)|(_ & ? & _)]; [|done]. repeat split; try done.
      destruct Hc as [(-> & _ & _)|(op & o' & g' & rest & _ & _ & _ & ? & _)]; [|done].
      right. cbn [app]. eexists _, o, g, []. rewrite Hpos. done.
    + assert (Hg' : call_good (mk_tp_op (rktp_version t + 1) rq u)) by exact Hg.
      destruct s_ops0 as [(? & ? & ? & ? & ? & Hc)|(? & _ & Hf & ?)]; [left|right].
      * repeat split; try done. destruct Hc as [(_ & ? & _)|(op & o' & g' & rest & -> & ? & ? & _ & F)]; [done|].
        right. exists op, o', g', (rest ++ [mk_tp_op (rktp_version t + 1) rq u]). rewrite Hpos.
        repeat split; try done. apply Forall_app. by split; [|constructor].
      * rewrite Hpos. repeat split; try done. apply Forall_app. by split; [|constructor].
  - rewrite fmap_app, s_versions0. cbn [fmap list_fmap tp_op_version].
    replace (rktp_version t + 1 - rktp_op_version (tp_ctl t)) with (rktp_version t - rktp_op_version (tp_ctl t) + 1) by lia.
    rewrite (seqZ_app _ _ 1) by lia. rewrite seqZ_one.
    do 2 f_equal. lia.
  - rewrite Hfl, s_flags0. unfold flags_to_be.
    cbn [tp_ctl rktp_ops rktp_ops_enq set_ops set_version]. by rewrite foldl_app.
  - intros p Hp. rewrite Hpos in Hp. injection Hp as <-. rewrite decide_False by lia.
    unfold wanted. cbn [tp_ctl rktp_ops rktp_ops_enq set_ops set_version rktp_app_offset]. by rewrite foldl_app.
  - rewrite Hany. done.
  - rewrite Hany. done.
  - intros Hg. rewrite Hany. destruct (Hgot Hg) as [Hg' ->]. by apply s_got0.
Qed.

(** *** The main thread *)

Record did (op : tp_op) (t t' : toppar) : Prop := mk_did {
  x_state : rktp_fetch_state (tp_ctl t') = FETCH_ACTIVE;
  x_opv : rktp_op_version (tp_ctl t') = tp_op_version op;
  x_next : rktp_next_offset (tp_ctl t') = op_next (rktp_app_offset t) (rktp_next_offset (tp_ctl t)) op;
  x_flags : rktp_flags (tp_ctl t') = op_flags (rktp_flags (tp_ctl t)) op;
  x_tmr : rktp_offset_query_tmr (tp_ctl t') = rktp_offset_query_tmr (tp_ctl t) /\
    rktp_offset_commit_tmr (tp_ctl t') = rktp_offset_commit_tmr (tp_ctl t);
  x_fet : tp_fet t' = tp_fet t;
  x_net : tp_net t' = tp_net t;
  x_ver : rktp_version t' = rktp_version t;
  x_ops : rktp_ops t' = rktp_ops t;
  x_app : rktp_app_offset t' = rktp_app_offset t;
  x_q : exists d, rkq_q (rktp_fetchq t) = d ++ rkq_q (rktp_fetchq t') /\ Forall (fun o => rko_version o < tp_op_version op) d;
  x_out : exists l, tp_out t' = tp_out t ++ l /\ Forall quiet_out l }.

Lemma fetch_state_eq s t :
  rd_kafka_toppar_set_fetch_state s t = upd_ctl (ct_fetch_state s) t.
Proof.
  unfold rd_kafka_toppar_set_fetch_state, in_state. case_bool_decide as E; [|done].
  destruct t as [[] ? ? ? ? ? ? ? ? ? ? ? ? ? ?]. cbn in *. by subst.
Qed.

Ltac did_fields := try done; try (by exists []); try (by exists []; rewrite app_nil_r).

Lemma did_start o g op t :
  tp_op_type op = TP_FETCH_START o g -> 0 <= o -> rktp_fetch_state (tp_ctl t) = FETCH_NONE ->
  rktp_cgrp (tp_ctl t) = false ->
  exists t', rd_kafka_toppar_fetch_start cf o g op t = Ret t' /\ did op t t'.
Proof.
  intros Hu Ho Hs Hg. unfold rd_kafka_toppar_fetch_start. rewrite Hs.
  unfold in_state at 1. rewrite bool_decide_eq_false_2 by done. cbn zeta.
  rewrite (proj2 (Z.eqb_neq o OFFSET_BEGINNING)), (proj2 (Z.eqb_neq o OFFSET_END)), (proj2 (Z.eqb_neq o OFFSET_STORED)),
    (proj2 (Z.eqb_neq o OFFSET_INVALID)) by (unfold OFFSET_BEGINNING, OFFSET_END, OFFSET_STORED, OFFSET_INVALID; lia).
  rewrite (proj2 (Z.leb_gt o OFFSET_TAIL_BASE)) by (unfold OFFSET_TAIL_BASE; lia). cbn [orb].
  destruct g; cbn [tp_ctl upd_ctl set_ctl ct_op_version rktp_cgrp]; rewrite ?Hg; cbn [negb obind];
    eexists; (split; [reflexivity|]); rewrite fetch_state_eq; unfold reply_to; destruct (tp_op_replyq op);
    (split; did_fields; try (cbn; unfold op_next, op_flags; by rewrite Hu)).
  - eexists [_; _]. cbn. split; [by rewrite <- app_assoc|]. by repeat constructor.
  - eexists [_]. cbn. split; [done|]. by repeat constructor.
  - eexists [_]. cbn. split; [done|]. by repeat constructor.
Qed.

Lemma did_seek o op t :
  tp_op_type op = TP_SEEK o -> 0 <= o -> rktp_fetch_state (tp_ctl t) = FETCH_ACTIVE ->
  exists t', rd_kafka_toppar_seek cf o op t = Ret t' /\ did op t t'.
Proof.
  intros Hu Ho Hs. unfold rd_kafka_toppar_seek. rewrite Hs. cbn zeta. unfold in_state at 1.
  rewrite bool_decide_eq_false_2 by done. cbn [FETCH_IS_STARTED negb].
  rewrite (proj2 (Z.eqb_neq o OFFSET_STORED)) by (unfold OFFSET_STORED; lia).
  unfold abort_query. cbn [tp_ctl upd_ctl set_ctl ct_op_version rktp_fetch_state]. rewrite Hs.
  unfold in_state. rewrite bool_decide_eq_false_2 by done.
  unfold OFFSET_IS_LOGICAL. rewrite (proj2 (Z.ltb_ge o 0)) by lia. cbn [obind].
  eexists; (split; [reflexivity|]); rewrite fetch_state_eq; unfold reply_to; destruct (tp_op_replyq op);
    (split; did_fields; try (cbn; unfold op_next, op_flags; by rewrite Hu)).
  eexists [_]. cbn. split; [done|]. by repeat constructor.
Qed.

Lemma did_pause pa f op t :
  tp_op_type op = TP_PAUSE pa f -> rktp_fetch_state (tp_ctl t) = FETCH_ACTIVE ->
  0 <= rktp_next_offset (tp_ctl t) ->
  exists t', rd_kafka_toppar_pause_resume cf pa f op t = Ret t' /\ did op t t'.
Proof.
  intros Hu Hs Hn. unfold rd_kafka_toppar_pause_resume. cbn zeta. destruct pa.
  - eexists; (split; [reflexivity|]).
    cbn [rktp_app_offset upd_ctl set_ctl tp_ctl ct_op_version ct_flags rktp_flags].
    destruct (rktp_app_offset t =? OFFSET_INVALID) eqn:Ea; cbn [negb];
      (split; did_fields; try (cbn; unfold op_next, op_flags; by rewrite Hu, ?Ea)); apply purge_spec.
  - cbn [tp_ctl upd_ctl set_ctl ct_op_version ct_flags rktp_fetch_state rktp_next_offset].
    rewrite (proj2 (Z.eqb_neq _ OFFSET_INVALID)) by (unfold OFFSET_INVALID; lia). rewrite andb_false_r.
    eexists; (split; [reflexivity|]); (split; did_fields; try (cbn; unfold op_next, op_flags; by rewrite Hu)).
Qed.

Lemma flag_bits f g : pause_bits f -> pause_flag g -> pause_bits (Z.lor f g) /\ pause_bits (Z.ldiff f g).
Proof.
  unfold pause_bits, pause_flag, F_APP_PAUSE, F_LIB_PAUSE.
  intros [->|[->|[->| ->]]] [->| ->]; split; cbn; auto.
Qed.

Lemma versions_tail v t op rest :
  Seen v t -> rktp_ops t = op :: rest ->
  tp_op_version op = rktp_op_version (tp_ctl t) + 1 /\ rktp_op_version (tp_ctl t) < rktp_version t /\
  tp_op_version <$> rest = seqZ (tp_op_version op + 1) (rktp_version t - tp_op_version op).
Proof.
  intros H E. pose proof (s_versions _ _ H) as F. rewrite E in F. cbn [fmap list_fmap] in F.
  destruct (decide (rktp_op_version (tp_ctl t) < rktp_version t)).
  - rewrite seqZ_cons in F by lia. injection F as F1 F2. split; [done|]. split; [done|]. rewrite F2, F1. f_equal; lia.
  - rewrite seqZ_nil in F by lia. done.
Qed.

Lemma seen_did v t t' op rest :
  Seen v t -> rktp_ops t = op :: rest -> did op (set_ops rest t) t' -> Data log t' ->
  v_pos v <> None -> Forall call_good rest -> pause_bits (rktp_flags (tp_ctl t')) ->
  0 <= rktp_next_offset (tp_ctl t') -> Seen v t'.
Proof.
  intros H Eo X HD Hpos Hrest Hbits Hnext. destruct (versions_tail v t op rest H Eo) as (Ev & Hlt & Ers).
  pose proof (d_fv _ _ (s_data _ _ H)) as Hfv. destruct H, X.
  cbn [set_ops tp_ctl tp_fet tp_net rktp_version rktp_ops rktp_app_offset rktp_fetchq tp_out] in *.
  destruct x_out0 as (lo & Eout & Flo). destruct x_q0 as (d & Eq & Fd). destruct x_tmr0 as [Et1 Et2].
  assert (Dl : forall w, delivered w (tp_out t') = delivered w (tp_out t)).
  { intros. by rewrite Eout, delivered_app, (quiet_delivered _ lo), app_nil_r. }
  split; rewrite ?x_fet0, ?x_net0, ?x_ver0, ?x_opv0, ?x_app0, ?Et1, ?Et2; try done; try lia.
  - right. repeat split; try done. by rewrite x_ops0.
  - by rewrite x_ops0.
  - rewrite s_flags0. unfold flags_to_be. by rewrite x_ops0, x_flags0, Eo.
  - rewrite Eq, Forall_app in s_other0. by destruct s_other0.
  - intros p Hp. rewrite (s_pos0 p Hp). rewrite !decide_False by lia.
    unfold wanted. by rewrite x_ops0, x_app0, x_next0, Eo.
  - intros Ha. destruct (s_any0 Ha). split; [done|]. intros w. by rewrite Dl.
Qed.

Lemma seen_serve v t op rest :
  Seen v t -> rktp_ops t = op :: rest ->
  exists t', rd_kafka_toppar_op_serve cf op (set_ops rest t) = Ret t' /\ Seen v t' /\ new_msgs t t' = [].
Proof.
  intros H Eo. destruct (versions_tail v t op rest H Eo) as (Ev & Hlt & _).
  pose proof (d_ver _ _ (s_data _ _ H)) as Hv.
  assert (Hout : rd_kafka_op_version_outdated (tp_op_version op) (rktp_op_version (tp_ctl t)) (rktp_version t) = false).
  { unfold rd_kafka_op_version_outdated. case_if; [done|]. case_if; lia. }
  assert (K : forall t', rd_kafka_toppar_op_serve cf op (set_ops rest t) = Ret t' -> did op (set_ops rest t) t' ->
    v_pos v <> None -> Forall call_good rest -> pause_bits (rktp_flags (tp_ctl t')) -> 0 <= rktp_next_offset (tp_ctl t') ->
    Seen v t' /\ new_msgs t t' = []).
  { intros t' E X ? ? ? ?. split.
    - apply (seen_did v t t' op rest); try done. by eapply data_serve; [apply H|exact Eo|exact E].
    - destruct (x_out _ _ _ X) as (l & El & Fl). rewrite (new_msgs_app t t' l El).
      clear - Fl. induction Fl as [|e l He _ IH]; [done|]. by destruct e. }
  assert (A : forall t', did op (set_ops rest t) t' ->
     rktp_next_offset (tp_ctl t') = op_next (rktp_app_offset t) (rktp_next_offset (tp_ctl t)) op /\
     rktp_flags (tp_ctl t') = op_flags (rktp_flags (tp_ctl t)) op) by (intros t' X; destruct X; done).
  pose proof (s_bits _ _ H) as Hb.
  unfold rd_kafka_toppar_op_serve in *. cbn [tp_ctl set_ops rktp_version] in *. rewrite Hout in *.
  destruct (s_ops _ _ H) as [(Hs & Hg & Ha & _ & _ & Hc)|(Hs & Hp & Hf & Hn)].
  - destruct Hc as [(Hnil & _)|(op' & o & g & rest' & Er & Hu & Ho & Hp & F)]; [by rewrite Eo in Hnil|].
    rewrite Eo in Er. injection Er as <- <-. rewrite Hu in *.
    destruct (did_start o g op (set_ops rest t) Hu Ho Hs Hg) as (t' & E & X). exists t'. split; [exact E|].
    destruct (A t' X) as [An Af]. apply K; try done.
    + rewrite Af. unfold op_flags. by rewrite Hu.
    + rewrite An. unfold op_next. by rewrite Hu.
  - rewrite Eo in Hf. apply Forall_cons in Hf as [Hop Hf]. unfold call_good in Hop.
    destruct (tp_op_type op) as [| |o|pa f| | | |] eqn:Hu; try done.
    + destruct (did_seek o op (set_ops rest t) Hu Hop Hs) as (t' & E & X). exists t'. split; [exact E|].
      destruct (A t' X) as [An Af]. apply K; try done.
      * rewrite Af. unfold op_flags. by rewrite Hu.
      * rewrite An. unfold op_next. by rewrite Hu.
    + destruct (did_pause pa f op (set_ops rest t) Hu Hs Hn) as (t' & E & X). exists t'. split; [exact E|].
      destruct (A t' X) as [An Af]. apply K; try done.
      * rewrite Af. unfold op_flags. rewrite Hu. destruct (flag_bits _ f Hb Hop), pa; done.
      * rewrite An. unfold op_next. rewrite Hu. destruct pa; [|done]. case_if; [done|].
        destruct (v_any v) eqn:Eany; [by apply (s_some _ _ H)|]. destruct (s_any _ _ H Eany). done.
Qed.

(** *** The broker thread *)

Lemma paused_bits t : pause_bits (rktp_flags (tp_ctl t)) -> IS_PAUSED t = negb (rktp_flags (tp_ctl t) =? 0).
Proof. unfold IS_PAUSED, has_flag. by intros [->|[->|[->| ->]]]. Qed.

Lemma seen_restart v t : Seen v t -> rktp_fetch_state (tp_ctl t) = FETCH_ACTIVE ->
  Data log (decide_restart t) ->
  Seen v (upd_fet (fe_fetch (negb (IS_PAUSED t) && rktp_fetch (tp_fet t))) (decide_restart t)) /\
  rktp_fetch_version (tp_fet (decide_restart t)) = rktp_op_version (tp_ctl t).
Proof.
  intros H Hs HD. pose proof (d_fv _ _ (s_data _ _ H)) as Hfv. pose proof (d_ver _ _ (s_data _ _ H)) as Hv.
  pose proof (paused_bits t (s_bits _ _ H)) as Hpb.
  unfold decide_restart in *. cbn zeta in *. destruct (_ || _) eqn:E.
  - assert (Hlt : rktp_fetch_version (tp_fet t) < rktp_op_version (tp_ctl t)).
    { destruct (decide (rktp_fetch_version (tp_fet t) = rktp_op_version (tp_ctl t))) as [Ee|]; [|lia].
      destruct (s_start _ _ H Ee) as [_ El]. rewrite El, Z.eqb_refl in E. cbn [negb] in E.
      rewrite orb_false_r in E. lia. }
    split; [|done]. destruct (d_none _ _ (s_data _ _ H) _ Hlt) as [Dn Sn].
    assert (Qn : queued (rktp_op_version (tp_ctl t)) (rkq_q (rktp_fetchq t)) = []).
    { eapply queued_above; [apply (s_data _ _ H)|done]. }
    set (t1 := emit _ _) in *. assert (HD1 : Data log (upd_fet (fe_fetch (negb (IS_PAUSED t) && rktp_fetch (tp_fet t))) t1)).
    { destruct HD. split; try done. intros _. cbn. lia. }
    destruct H. unfold t1 in *. split; cbn [tp_ctl upd_fet set_fet emit set_out set_fetchq tp_fet tp_net rktp_ops rktp_version
      rktp_fetchq rktp_app_offset tp_out fe_fetch rktp_fetch_version rktp_reader rktp_last_next_offset rktp_fetch
      set_fetch_offset fetch_offset]; try done.
    + destruct s_ops0 as [(Hs' & _)|Ho]; [by rewrite Hs in Hs'|by right].
    + by apply purge_forall.
    + destruct s_ops0 as [(Hs' & _)|(_ & _ & _ & Hn)]; [by rewrite Hs in Hs'|]. split; [done|].
      pose proof (d_fetches _ _ s_data0) as F. eapply Forall_impl; [exact F|]. cbn. lia.
    + intros _. rewrite starts_snoc, Sn, Z.eqb_refl. done.
    + intros _ Hp. rewrite Hpb, (proj2 (Z.eqb_neq _ _) Hp). cbn [negb andb]. split; [done|].
      split; [|split].
      * pose proof (d_fetches _ _ s_data0) as F. eapply Forall_impl; [exact F|]. cbn. lia.
      * by rewrite queued_purge.
      * by rewrite delivered_start.
    + intros p Hp. rewrite (s_pos0 p Hp). rewrite delivered_start. rewrite (decide_False (P := rktp_fetch_version _ = _)) by lia.
      destruct (decide (rktp_op_version (tp_ctl t) = rktp_version t)) as [Eq|Eq]; [|reflexivity].
      rewrite <- Eq, Dn. cbn. unfold wanted.
      assert (Eops : rktp_ops t = []).
      { pose proof s_versions0 as F. rewrite Eq, Z.sub_diag in F. by apply fmap_nil_inv in F. }
      by rewrite Eops.
    + intros Ha. destruct (s_any0 Ha). split; [done|]. intros w. by rewrite delivered_start.
  - apply orb_false_iff in E as [E _]. assert (Ee : rktp_fetch_version (tp_fet t) = rktp_op_version (tp_ctl t)) by lia.
    split; [|done]. assert (HD1 : Data log (upd_fet (fe_fetch (negb (IS_PAUSED t) && rktp_fetch (tp_fet t))) t)).
    { destruct HD. split; try done. cbn [tp_fet upd_fet set_fet fe_fetch rktp_fetch rktp_fetch_version]. lia. }
    destruct H. split; cbn [tp_ctl upd_fet set_fet tp_fet tp_net rktp_ops rktp_version
      rktp_fetchq rktp_app_offset tp_out fe_fetch rktp_fetch_version rktp_reader rktp_last_next_offset rktp_fetch]; try done.
    + destruct s_ops0 as [(Hs' & _)|Ho]; [by rewrite Hs in Hs'|by right].
    + intros _ Hp. rewrite Hpb, (proj2 (Z.eqb_neq _ _) Hp). cbn [negb andb]. split; [done|]. by apply s_paused0.
Qed.

Lemma seen_set_fetch v t b :
  Seen v t -> rktp_fetch_state (tp_ctl t) = FETCH_ACTIVE ->
  rktp_fetch_version (tp_fet t) = rktp_op_version (tp_ctl t) -> (b = true -> rktp_flags (tp_ctl t) = 0) ->
  Seen v (upd_fet (fe_fetch b) t).
Proof.
  intros H Hs Ee Hb. pose proof (d_ver _ _ (s_data _ _ H)) as Hv.
  assert (HD1 : Data log (upd_fet (fe_fetch b) t)).
  { destruct (s_data _ _ H). split; try done. cbn [tp_fet upd_fet set_fet fe_fetch rktp_fetch rktp_fetch_version]. lia. }
  destruct H. split; cbn [tp_ctl upd_fet set_fet tp_fet tp_net rktp_ops rktp_version
    rktp_fetchq rktp_app_offset tp_out fe_fetch rktp_fetch_version rktp_reader rktp_last_next_offset rktp_fetch]; try done.
  - destruct s_ops0 as [(Hs' & _)|Ho]; [by rewrite Hs in Hs'|by right].
  - intros _ Hp. destruct (s_paused0 Ee Hp) as (_ & ?). split; [|done].
    destruct b; [|done]. by rewrite Hb in Hp.
Qed.

Lemma upd_fet_same t : upd_fet (fe_fetch (rktp_fetch (tp_fet t))) t = t.
Proof. by destruct t as [? [] ? ? ? ? ? ? ? ? ? ? ? ? ?]. Qed.

Lemma seen_fin v t x : Seen v t -> Seen v (set_offsets_fin x t).
Proof. intros H. apply (seen_same v t); try done. destruct (s_data _ _ H). by split. Qed.

Lemma decide_fetch_flags t ts : decide_fetch cf t = (true, ts) -> IS_PAUSED t = false.
Proof. unfold decide_fetch. by destruct (IS_PAUSED t). Qed.

Lemma seen_decide v t : Seen v t -> Seen v (rd_kafka_toppar_fetch_decide cf false t).1.
Proof.
  intros H. unfold rd_kafka_toppar_fetch_decide, fetch_decision.
  assert (Er : has_flag (rktp_flags (tp_ctl t)) F_REMOVE = false).
  { unfold has_flag. by destruct (s_bits _ _ H) as [->|[->|[->| ->]]]. }
  rewrite Er. unfold in_state. destruct (s_ops _ _ H) as [(Hs & _ & _ & _ & Hf & _)|(Hs & _)]; rewrite Hs.
  - rewrite bool_decide_eq_false_2 by done. cbn [negb]. cbn zeta. cbn [tp_fet set_offsets_fin]. rewrite Hf.
    cbn [Bool.eqb negb fst]. by apply seen_fin.
  - rewrite bool_decide_eq_true_2 by done. cbn [negb]. cbn zeta.
    destruct (seen_restart v t H Hs (data_restart log t (s_data _ _ H))) as [HS Ev].
    destruct (decide_fetch cf (decide_restart t)) as [sf ts] eqn:Ed.
    set (t1 := decide_restart t) in *.
    assert (Ec : tp_ctl t1 = tp_ctl t) by (unfold t1, decide_restart; cbn zeta; by destruct (_ || _)).
    assert (Hsf : sf = true -> rktp_flags (tp_ctl t) = 0).
    { intros ->. apply decide_fetch_flags in Ed. unfold IS_PAUSED in Ed. rewrite Ec in Ed.
      change (IS_PAUSED t = false) in Ed. rewrite (paused_bits t (s_bits _ _ H)) in Ed.
      destruct (rktp_flags (tp_ctl t) =? 0) eqn:E0; [lia|done]. }
    assert (HS1 : Seen v (upd_fet (fe_fetch sf) (set_offsets_fin (offsets_of (tp_fet t1)) t1))).
    { pose proof (seen_set_fetch v _ sf HS) as HS2. cbn [tp_ctl upd_fet set_fet tp_fet fe_fetch rktp_fetch_version] in HS2.
      rewrite Ec in HS2. specialize (HS2 Hs Ev Hsf).
      exact (seen_fin v _ (offsets_of (tp_fet t1)) HS2). }
    destruct (Bool.eqb _ _) eqn:Eb; cbn [negb fst]; [|exact HS1].
    apply Bool.eqb_prop in Eb. rewrite <- Eb in HS1. by rewrite upd_fet_same in HS1.
Qed.

Lemma seen_fetch v t b : Seen v t -> Seen v (rd_kafka_broker_fetch_toppars b t).
Proof.
  intros H. unfold rd_kafka_broker_fetch_toppars. destruct (_ && _ && _) eqn:E; [|done].
  apply andb_true_iff in E as [[_ Ef]%andb_true_iff _].
  set (r := mk_fetch_req b _ _). set (t1 := upd_net _ t).
  assert (HD : Data log t1).
  { apply data_net; [apply H|]. cbn. rewrite Forall_app. split; [apply (s_data _ _ H)|]. constructor; [|done].
    cbn. pose proof (d_fetch _ _ (s_data _ _ H) Ef). lia. }
  destruct H. split; try done; cbn [tp_net t1 upd_net set_net ne_fetches n_fetches tp_fet tp_ctl rktp_fetchq tp_out].
  - destruct s_offset0 as [? F]. split; [done|]. rewrite Forall_app. split; [exact F|]. constructor; [|done]. cbn. lia.
  - intros Ee Hp. destruct (s_paused0 Ee Hp) as (Hff & _). by rewrite Hff in Ef.
Qed.

Lemma quiet_new t t' l : tp_out t' = tp_out t ++ l -> Forall quiet_out l -> new_msgs t t' = [].
Proof.
  intros E F. rewrite (new_msgs_app t t' l E). clear E. induction F as [|e l He _ IH]; [done|]. by destruct e.
Qed.

(** What a Fetch response can change. *)
Record fetched (t t' : toppar) : Prop := mk_fetched {
  f_ctl : tp_ctl t' = tp_ctl t;
  f_net : tp_net t' = tp_net t;
  f_ops : rktp_ops t' = rktp_ops t;
  f_ver : rktp_version t' = rktp_version t;
  f_app : rktp_app_offset t' = rktp_app_offset t;
  f_fv : rktp_fetch_version (tp_fet t') = rktp_fetch_version (tp_fet t);
  f_fetch : rktp_fetch (tp_fet t') = rktp_fetch (tp_fet t);
  f_last : rktp_last_next_offset (tp_fet t') = rktp_last_next_offset (tp_fet t);
  f_fo : fetch_offset (rktp_reader (tp_fet t)) <= fetch_offset (rktp_reader (tp_fet t'));
  f_q : exists ops, rkq_q (rktp_fetchq t') = rkq_q (rktp_fetchq t) ++ ops /\ Forall not_other ops /\
    (rktp_fetch_version (tp_fet t) = rktp_op_version (tp_ctl t) -> rktp_flags (tp_ctl t) <> 0 ->
     queued (rktp_fetch_version (tp_fet t)) ops = []);
  f_out : exists l, tp_out t' = tp_out t ++ l /\ Forall quiet_out l }.

Lemma seen_fetched v t t' : Seen v t -> fetched t t' -> Data log t' -> Seen v t' /\ new_msgs t t' = [].
Proof.
  intros H [Ec En Eo Ev Ea Efv Eff El Efo (ops & Eq & Fo & Qo) (l & Eout & Fl)] HD.
  split; [|by eapply quiet_new]. destruct H.
  assert (Dl : forall w, delivered w (tp_out t') = delivered w (tp_out t)).
  { intros. by rewrite Eout, delivered_app, (quiet_delivered _ l), app_nil_r. }
  assert (St : forall w, starts w (tp_out t') = starts w (tp_out t)).
  { intros. by rewrite Eout, starts_app, (quiet_starts _ l), app_nil_r. }
  assert (Ew : wanted t' = wanted t) by (unfold wanted; by rewrite Ec, Eo, Ea).
  assert (Ef : flags_to_be t' = flags_to_be t) by (unfold flags_to_be; by rewrite Ec, Eo).
  split; rewrite ?Ec, ?En, ?Eo, ?Ev, ?Ea, ?Efv, ?Eff, ?El, ?Ew, ?Ef, ?Dl, ?St; try done.
  - rewrite Eq, Forall_app. by split.
  - destruct s_offset0 as [? F]. split; [lia|]. eapply Forall_impl; [exact F|]. cbn. intros r Hr E. specialize (Hr E). lia.
  - intros Ee Hp. rewrite Eq, queued_app, (Qo Ee Hp), app_nil_r. by apply s_paused0.
  - intros Hany. destruct (s_any0 Hany). split; [done|]. intros. by rewrite Dl.
Qed.

Lemma fetched_refl t : fetched t t.
Proof. split; try done; [exists []|exists []]; by rewrite app_nil_r. Qed.

Lemma fetched_trans a b c : fetched a b -> fetched b c -> fetched a c.
Proof.
  intros [Ec En Eo Ev Ea Efv Eff El Efo (q & Eq & Fo & Qo) (l & Eout & Fl)]
    [Ec' En' Eo' Ev' Ea' Efv' Eff' El' Efo' (q' & Eq' & Fo' & Qo') (l' & Eout' & Fl')].
  split; try congruence; try lia.
  - exists (q ++ q'). rewrite Eq', Eq, app_assoc, Forall_app. split; [done|]. split; [done|].
    intros E1 E2. rewrite queued_app, (Qo E1 E2). rewrite Ec, Efv in Qo'. by rewrite (Qo' E1 E2).
  - exists (l ++ l'). by rewrite Eout', Eout, app_assoc, Forall_app.
Qed.

Lemma fetched_fet t g :
  rktp_fetch_version g = rktp_fetch_version (tp_fet t) -> rktp_fetch g = rktp_fetch (tp_fet t) ->
  rktp_last_next_offset g = rktp_last_next_offset (tp_fet t) -> rktp_reader g = rktp_reader (tp_fet t) ->
  fetched t (set_fet g t).
Proof.
  intros E1 E2 E3 E4. split; try done; [|exists []; by rewrite app_nil_r|exists []; by rewrite app_nil_r].
  cbn [tp_fet set_fet]. by rewrite E4.
Qed.

Lemma fetched_backoff e t : fetched t (rd_kafka_toppar_fetch_backoff cf e t).
Proof. unfold rd_kafka_toppar_fetch_backoff. case_if; [apply fetched_refl|by apply fetched_fet]. Qed.

Lemma fetched_error req e t :
  e <> ERR_OFFSET_OUT_OF_RANGE -> exists t', fetch_part_error cf req e t = Ret t' /\ fetched t t'.
Proof.
  intros Hne. unfold fetch_part_error. rewrite (proj2 (Z.eqb_neq e ERR_OFFSET_OUT_OF_RANGE) Hne).
  case_if; cbn [obind].
  { eexists. split; [done|]. eapply fetched_trans; [|apply fetched_backoff].
    split; try done; [exists []; by rewrite app_nil_r|]. eexists [_]. split; [done|]. by repeat constructor. }
  case_if; cbn [obind]; (eexists; split; [done|]); [apply fetched_backoff|].
  eapply fetched_trans; [|apply fetched_backoff].
  split; try done; [|exists []; by rewrite app_nil_r]. cbn [rktp_fetchq rktp_enq set_fetchq].
  unfold rd_kafka_q_enq, rd_kafka_q_enq1. destruct (rkq_ready (rktp_fetchq t)); cbn [negb fst].
  - eexists [_]. split; [done|]. split; [by repeat constructor|done].
  - exists []. by rewrite app_nil_r.
Qed.

Lemma fetched_reply req p t :
  1 <= fr_version req <= rktp_fetch_version (tp_fet t) ->
  (fr_version req = rktp_fetch_version (tp_fet t) -> 0 <= fr_offset req <= fetch_offset (rktp_reader (tp_fet t))) ->
  (rktp_fetch_version (tp_fet t) = rktp_op_version (tp_ctl t) -> rktp_flags (tp_ctl t) <> 0 ->
     fr_version req <> rktp_fetch_version (tp_fet t)) ->
  fp_ErrorCode p <> ERR_OFFSET_OUT_OF_RANGE ->
  (fp_ErrorCode p = 0 -> 0 < fp_MessageSetSize p -> fr_version req = rktp_fetch_version (tp_fet t) ->
   0 <= fr_offset req <= fetch_offset (rktp_reader (tp_fet t)) -> parser_ok log (rktp_reader (tp_fet t)) p) ->
  rkq_ready (rktp_fetchq t) = true ->
  exists t', rd_kafka_fetch_reply_handle cf req p t = Ret t' /\ fetched t t'.
Proof.
  intros Hr Hoff Hpa Hne Hp Hrd. unfold rd_kafka_fetch_reply_handle.
  case_if; [exists t; split; [done|apply fetched_refl]|].
  case_if; [exists t; split; [done|apply fetched_refl]|]. cbn zeta.
  assert (Ev : fr_version req = rktp_fetch_version (tp_fet t)) by lia.
  set (t1 := set_hi_offset _ _).
  assert (F1 : fetched t t1).
  { eapply fetched_trans; [by apply (fetched_fet t (fe_offsets_hi (fp_HighwaterMarkOffset p) (tp_fet t)))|].
    split; try done; exists []; by rewrite app_nil_r. }
  destruct (_ && _) eqn:Eeof.
  { cbn [Z.eqb negb ERR__PARTITION_EOF].
    destruct (fetched_error req ERR__PARTITION_EOF (upd_fet (fe_eof_offset (fetch_offset (rktp_reader (tp_fet t1)))) t1))
      as (t' & E' & F'); [done|]. exists t'. split; [exact E'|]. eapply fetched_trans; [exact F1|].
    eapply fetched_trans; [|exact F']. by apply fetched_fet. }
  destruct (fp_ErrorCode p =? 0) eqn:Ec; cbn [negb].
  2:{ destruct (fetched_error req (fp_ErrorCode p) t1 Hne) as (t' & E' & F'). exists t'. split; [exact E'|].
      by eapply fetched_trans. }
  case_if; [exists t1; done|]. assert (Ec0 : fp_ErrorCode p = 0) by lia. specialize (Hoff Ev).
  destruct (Hp Ec0 ltac:(lia) Ev Hoff (fr_version req) (rktp_fetchq t1) Hrd)
    as (rd & q & ops & e & Ep & Eq & Erq & Fv & Hle & Es).
  change (rktp_reader (tp_fet t)) with (rktp_reader (tp_fet t1)) in Ep. rewrite Ep.
  cbn [obind]. eexists. split; [done|]. eapply fetched_trans; [exact F1|].
  assert (F2 : fetched t1 (set_fetchq q (upd_fet (fe_reader rd) t1))).
  { split; try done; [|exists []; by rewrite app_nil_r]. exists ops. split; [exact Eq|]. split.
    - eapply Forall_impl; [exact Fv|]. by intros o [_ ?].
    - intros Ea Eb. by destruct (Hpa Ea Eb). }
  case_if; [eapply fetched_trans; [exact F2|apply fetched_backoff]|exact F2].
Qed.
End seen.

(** *** The next message *)

Lemma head_filter_min (P : Z -> Prop) `{forall x, Decision (P x)} l m :
  StronglySorted Z.lt l -> m ∈ l -> P m -> (forall x, x ∈ l -> P x -> m <= x) -> head (filter P l) = Some m.
Proof.
  induction 1 as [|y l Hs IH Hy]; intros Hm HP Hmin; [by apply elem_of_nil in Hm|].
  apply elem_of_cons in Hm as [->|Hm].
  - by rewrite filter_cons_True.
  - rewrite Forall_forall in Hy. specialize (Hy m Hm).
    rewrite filter_cons_False.
    + apply IH; try done. intros x Hx. apply Hmin. by right.
    + intros HPy. specialize (Hmin y ltac:(by left) HPy). lia.
Qed.

Lemma sorted_filter_lt (P : Z -> Prop) `{forall x, Decision (P x)} l :
  StronglySorted Z.lt l -> StronglySorted Z.lt (filter P l).
Proof.
  induction 1 as [|y l Hs IH Hy]; [constructor|]. destruct (decide (P y)).
  - rewrite filter_cons_True by done. constructor; [done|]. rewrite Forall_forall in *.
    intros x [_ Hx]%list_elem_of_filter. by apply Hy.
  - by rewrite filter_cons_False.
Qed.

Lemma sorted_middle D m Q x :
  StronglySorted Z.lt (D ++ m :: Q) -> x ∈ D ++ m :: Q -> (x < m -> x ∈ D) /\ (x ∈ D -> x < m).
Proof.
  intros Hs Hx. induction D as [|d D IH]; cbn [app] in *.
  - apply StronglySorted_inv in Hs as [_ F]. rewrite Forall_forall in F.
    split; [|intros E; by apply elem_of_nil in E]. apply elem_of_cons in Hx as [->|Hx]; [lia|].
    specialize (F x Hx). lia.
  - apply StronglySorted_inv in Hs as [Hs F]. rewrite Forall_forall in F.
    assert (d < m) by (apply F; apply elem_of_app; right; by left).
    apply elem_of_cons in Hx as [->|Hx]; [split; [intros _; by left|lia]|].
    destruct (IH Hs Hx) as [I1 I2]. split; [intros; right; by apply I1|].
    intros [->|?]%elem_of_cons; [lia|by apply I2].
Qed.

Lemma head_expected log o fo D m Q :
  StronglySorted Z.lt log -> D ++ m :: Q = seg log o fo ->
  head (filter (fun x => pos_after o D <= x) log) = Some m /\ m ∈ log /\ o <= m.
Proof.
  intros Hs E. assert (Hseg : StronglySorted Z.lt (D ++ m :: Q)) by (rewrite E; by apply sorted_filter_lt).
  assert (Hm : m ∈ seg log o fo) by (rewrite <- E; apply elem_of_app; right; by left).
  apply list_elem_of_filter in Hm as [[? ?] Hm].
  assert (Hpm : pos_after o D <= m).
  { unfold pos_after. destruct (last D) as [d|] eqn:El; [|done].
    apply last_Some in El as [D' ->].
    assert (d < m); [|lia]. apply (sorted_middle (D' ++ [d]) m Q d Hseg); [|by apply elem_of_app; right; left].
    apply elem_of_app. left. apply elem_of_app. right. by left. }
  split; [|done]. apply head_filter_min; try done.
  intros x Hx Hp. destruct (decide (m <= x)); [done|].
  assert (Hle : o <= x).
  { unfold pos_after in Hp. destruct (last D) as [d|] eqn:El; [|done]. apply last_Some in El as [D' ->].
    assert (d ∈ seg log o fo) as [? _]%list_elem_of_filter; [|lia]. rewrite <- E. apply elem_of_app. left. apply elem_of_app. right. by left. }
  assert (Hin : x ∈ D ++ m :: Q) by (rewrite E; apply list_elem_of_filter; split; [lia|done]).
  assert (HD : x ∈ D) by (apply (sorted_middle D m Q x Hseg Hin); lia).
  unfold pos_after in Hp. destruct (last D) as [d|] eqn:El.
  - apply last_Some in El as [D' ->]. apply elem_of_app in HD as [HD|HD].
    + assert (x < d); [|lia]. rewrite <- app_assoc in Hseg, Hin. apply (sorted_middle D' d _ x Hseg Hin). done.
    + apply list_elem_of_singleton in HD. lia.
  - apply last_None in El. subst. by apply elem_of_nil in HD.
Qed.

Section run.
Context (cf : tp_conf) (log : list Z) (Hlog : StronglySorted Z.lt log) (Hbound : Forall (fun o => 0 <= o < 2 ^ 62) log).

(** The queue and the trace after one operation, or only after dropping. *)
Lemma seen_take v t q d l e t' :
  Seen log v t -> rkq_q (rktp_fetchq t) = d ++ l ++ rkq_q q ->
  Forall (fun o => rko_version o < rktp_version t) d -> Data log t' ->
  (forall w, queued w l = delivered w e) -> (forall w, starts w e = []) -> Forall (fun x => any_msg x = None) e ->
  tp_ctl t' = tp_ctl t -> tp_fet t' = tp_fet t -> tp_net t' = tp_net t -> rktp_fetchq t' = q ->
  rktp_ops t' = rktp_ops t -> rktp_version t' = rktp_version t -> rktp_app_offset t' = rktp_app_offset t ->
  tp_out t' = tp_out t ++ e -> Seen log v t'.
Proof.
  intros H Eq Fd HD Hl Hs He Ec Ef En Efq Eo Ev Ea Eout.
  assert (Hde : forall w, delivered w e = []).
  { intros w. clear - He. induction He as [|x e Hx _ IH]; [done|]. unfold delivered in *. cbn [omap list_omap].
    by destruct x. }
  assert (Dl : forall w, delivered w (tp_out t') = delivered w (tp_out t)).
  { intros. by rewrite Eout, delivered_app, Hde, app_nil_r. }
  assert (St : forall w, starts w (tp_out t') = starts w (tp_out t)).
  { intros. by rewrite Eout, starts_app, Hs, app_nil_r. }
  destruct H. assert (Ew : wanted t' = wanted t) by (unfold wanted; by rewrite Ec, Eo, Ea).
  assert (Efl : flags_to_be t' = flags_to_be t) by (unfold flags_to_be; by rewrite Ec, Eo).
  split; rewrite ?Ec, ?Ef, ?En, ?Eo, ?Ev, ?Ea, ?Ew, ?Efl, ?Dl, ?St, ?Efq; try done.
  - rewrite Eq, !Forall_app in s_other0. by destruct s_other0 as (_ & _ & ?).
  - intros E1 E2. destruct (s_paused0 E1 E2) as (? & ? & Q & ?). repeat split; try done.
    rewrite Eq, !queued_app in Q. by apply app_eq_nil in Q as [_ [_ Q]%app_eq_nil].
  - intros Ha. destruct (s_any0 Ha). split; [done|]. intros. by rewrite Dl.
Qed.

Lemma seen_message v t q d o m :
  Seen log v t -> rkq_q (rktp_fetchq t) = d ++ [o] ++ rkq_q q -> rko_u o = RD_KAFKA_OP_FETCH m ->
  Forall (fun o => rko_version o < rktp_version t) d -> (rko_version o = 0 \/ rktp_version t <= rko_version o) ->
  rko_version o = rktp_version t /\ rktp_fetch_version (tp_fet t) = rktp_version t /\
  rktp_op_version (tp_ctl t) = rktp_version t /\ v_pos v <> None /\
  expected log v = Some (rkm_offset m) /\ 0 <= rkm_offset m < 2 ^ 62 /\ rktp_flags (tp_ctl t) = 0.
Proof.
  intros H Eq Hu Fd Hver. pose proof (s_data _ _ _ H) as HD.
  pose proof (d_q _ _ HD) as Hq. rewrite Eq, !Forall_app in Hq. destruct Hq as (_ & Hqo & _).
  apply Forall_inv in Hqo. unfold version_ok in Hqo. rewrite Hu in Hqo. destruct Hqo as [[_ Hle] H1].
  pose proof (d_fv _ _ HD). pose proof (d_ver _ _ HD).
  assert (Efv : rktp_fetch_version (tp_fet t) = rktp_version t) by lia.
  assert (Eopv : rktp_op_version (tp_ctl t) = rktp_version t) by lia.
  assert (Evo : rko_version o = rktp_version t) by lia.
  destruct (s_ops _ _ _ H) as [(_ & _ & _ & E0 & _)|(_ & Hpos & _ & Hn)]; [lia|].
  assert (Hflags : rktp_flags (tp_ctl t) = 0).
  { destruct (decide (rktp_flags (tp_ctl t) = 0)) as [|Hne]; [done|].
    destruct (s_paused _ _ _ H ltac:(lia) Hne) as (_ & _ & Q & _).
    rewrite Eq, !queued_app in Q. apply app_eq_nil in Q as [_ [Q _]%app_eq_nil].
    unfold queued, op_msg in Q. cbn in Q. rewrite Hu, Evo, Efv, Z.eqb_refl in Q. done. }
  destruct (v_pos v) as [p|] eqn:Ep; [|done].
  pose proof (s_pos _ _ _ H p Ep) as Epos. rewrite decide_True in Epos by done.
  destruct (s_start _ _ _ H ltac:(lia)) as [Est _]. pose proof (d_now _ _ HD Efv) as (to & F & G & L).
  rewrite Efv, Eopv in *. rewrite Est in F, G. apply Forall2_cons_inv_l in F as (fo & to' & Hle' & F & ->).
  apply Forall2_nil_inv_l in F as ->. unfold chain in G. cbn in G. rewrite app_nil_r in G.
  rewrite Eq, !queued_app, (queued_below _ d) in G by done. cbn [app] in G.
  unfold queued at 1 in G. cbn [omap list_omap] in G. unfold op_msg in G at 1. rewrite Hu, Evo, Z.eqb_refl in G. cbn [app] in G.
  destruct (head_expected log _ _ _ _ _ Hlog G) as (Hh & Hin & _).
  rewrite Forall_forall in Hbound. specialize (Hbound _ Hin).
  repeat split; try done; try lia. unfold expected. rewrite Ep. cbn [mbind option_bind]. by rewrite Epos.
Qed.

Lemma seen_consume v t : Seen log v t ->
  let t' := rd_kafka_consume0 cf t in
  Seen log (view_step E_consume (new_msgs t t') v) t' /\
  (new_msgs t t' = [] \/ exists m, new_msgs t t' = [m] /\ expected log v = Some m).
Proof.
  intros H. cbn zeta. pose proof (consume_data cf log (length (rkq_q (rktp_fetchq t))) t (s_data _ _ _ H)) as HD.
  fold (rd_kafka_consume0 cf t) in HD. revert HD. unfold rd_kafka_consume0.
  destruct (length (rkq_q (rktp_fetchq t))) as [|n]; cbn [consume_loop].
  { intros _. rewrite new_msgs_same by done. by split; [|left]. }
  destruct (rd_kafka_q_pop _ _) as [r q] eqn:E.
  apply pop_spec in E as (d & Eq & Fd & Hr & Hnone); [|done]. apply outdated_below in Fd.
  destruct r as [o|]; cbn [option_list] in Eq.
  2:{ intros HD. rewrite new_msgs_same by done. cbn [view_step]. split; [|by left].
      apply (seen_take v t q d [] [] _ H); try done. cbn [tp_out set_fetchq]. by rewrite app_nil_r. }
  specialize (Hr o eq_refl). pose proof (s_other _ _ _ H) as Hoth. rewrite Eq, !Forall_app in Hoth.
  destruct Hoth as (_ & Ho & _). apply Forall_inv in Ho. unfold not_other in Ho.
  destruct (rko_u o) as [m|off|ty] eqn:Hu; [| |done].
  2:{ intros HD. rewrite (new_msgs_app t _ [OUT_error (rko_err o) off]) by done. cbn [omap list_omap any_msg view_step].
      split; [|by left]. apply (seen_take v t q d [o] [OUT_error (rko_err o) off] _ H); try done.
      - intros w. unfold queued, op_msg. cbn. by rewrite Hu.
      - by repeat constructor. }
  destruct (seen_message v t q d o m H Eq Hu Fd Hr) as (Evo & Efv & Eopv & Hpos & Hex & Hm & Hfl).
  unfold rd_kafka_op_offset_store. rewrite Hu, Ho. cbn [Z.eqb negb].
  assert (Es : s64 (rkm_offset m + 1) = rkm_offset m + 1) by (apply (swrap_id 64); [lia|unfold s_ok; lia]).
  rewrite Es. set (t' := if enable_auto_offset_store cf then _ else _). intros HD.
  assert (F : tp_ctl t' = tp_ctl t /\ tp_fet t' = tp_fet t /\ tp_net t' = tp_net t /\ rktp_fetchq t' = q /\
    rktp_ops t' = rktp_ops t /\ rktp_version t' = rktp_version t /\ rktp_app_offset t' = rkm_offset m + 1 /\
    tp_out t' = tp_out t ++ [OUT_message (rko_version o) (rkm_offset m)]) by (unfold t'; by case_if).
  clearbody t'. destruct F as (Ec & Ef & En & Efq & Eo & Ev & Ea & Eout).
  rewrite (new_msgs_app t t' _ Eout). cbn [omap list_omap any_msg view_step]. split; [|by right; eexists].
  assert (Dl : delivered (rktp_version t) (tp_out t') = delivered (rktp_version t) (tp_out t) ++ [rkm_offset m]).
  { rewrite Eout, delivered_app. unfold delivered at 2. cbn. by rewrite Evo, Z.eqb_refl. }
  assert (St : forall w, starts w (tp_out t') = starts w (tp_out t)).
  { intros w. rewrite Eout, starts_app. unfold starts at 2. cbn. by rewrite app_nil_r. }
  assert (Eops : rktp_ops t = []) by (by eapply seen_versions_nil).
  destruct H. split; cbn [v_pos v_got v_any v_flags]; rewrite ?Ec, ?Ef, ?En, ?Eo, ?Ev, ?Ea, ?St, ?Efq; try done; try lia.
  - destruct s_ops0 as [(_ & _ & _ & E0 & _)|(? & _ & ?)]; [|by right].
    pose proof (d_ver _ _ s_data0). lia.
  - rewrite s_flags0. unfold flags_to_be. by rewrite Ec, Eo.
  - rewrite Eq, !Forall_app in s_other0. by destruct s_other0 as (_ & _ & ?).
  - intros p [= <-]. rewrite decide_True by done. rewrite Dl. unfold pos_after. by rewrite last_snoc.
Qed.

(** *** Steps *)

Lemma seen_net_same v t n :
  Seen log v t -> n_offset_reqs n = n_offset_reqs (tp_net t) -> n_offset_fetches n = n_offset_fetches (tp_net t) ->
  n_commits n = n_commits (tp_net t) -> n_fetches n = n_fetches (tp_net t) -> Seen log v (set_net n t).
Proof.
  intros H ? ? ? E. apply (seen_same log v t); try done. apply data_net; [apply H|]. rewrite E. apply (s_data _ _ _ H).
Qed.

Lemma leader_returns b t :
  rktp_fetch_state (tp_ctl t) <> FETCH_OFFSET_WAIT ->
  exists t' r, rd_kafka_toppar_leader_update cf b t = Ret (t', r) /\
    (t' = t \/ exists nl n, t' = set_net n (set_next_leader nl t) /\ n_offset_reqs n = n_offset_reqs (tp_net t) /\
       n_offset_fetches n = n_offset_fetches (tp_net t) /\ n_commits n = n_commits (tp_net t) /\
       n_fetches n = n_fetches (tp_net t)).
Proof.
  intros Hs. assert (M : forall o d, exists t', rd_kafka_toppar_broker_migrate o (Some d) t = Ret t' /\
    exists nl n, t' = set_net n (set_next_leader nl t) /\ n_offset_reqs n = n_offset_reqs (tp_net t) /\
       n_offset_fetches n = n_offset_fetches (tp_net t) /\ n_commits n = n_commits (tp_net t) /\
       n_fetches n = n_fetches (tp_net t)).
  { intros o d. unfold rd_kafka_toppar_broker_migrate. cbn zeta. case_if.
    { eexists. split; [done|]. exists (Some d), (tp_net t). done. }
    cbn [tp_ctl set_next_leader]. unfold in_state. rewrite bool_decide_eq_false_2 by done.
    destruct o; (eexists; split; [done|]); exists (Some d); eexists; (split; [reflexivity|]); done. }
  assert (D : forall b', exists t', rd_kafka_toppar_broker_delegate cf b' t = Ret t' /\
    (t' = t \/ exists nl n, t' = set_net n (set_next_leader nl t) /\ n_offset_reqs n = n_offset_reqs (tp_net t) /\
       n_offset_fetches n = n_offset_fetches (tp_net t) /\ n_commits n = n_commits (tp_net t) /\
       n_fetches n = n_fetches (tp_net t))).
  { intros b'. unfold rd_kafka_toppar_broker_delegate. cbn zeta. case_if; [exists t; eauto|].
    destruct b' as [d|].
    - destruct (M (rktp_leader t) d) as (t' & E' & ?). exists t'. eauto.
    - destruct (M (rktp_leader t) (internal_broker cf)) as (t' & E' & ?). exists t'. eauto. }
  unfold rd_kafka_toppar_leader_update. destruct b as [d|].
  - case_if; [exists t, 0; eauto|]. destruct (D (Some d)) as (t' & -> & ?). cbn [obind]. exists t', 1. eauto.
  - destruct (D None) as (t' & -> & ?). cbn [obind]. eexists t', _. eauto.
Qed.

Lemma seen_unfetch v t : Seen log v t -> Seen log v (upd_fet (fe_fetch false) t).
Proof.
  intros H. assert (HD1 : Data log (upd_fet (fe_fetch false) t)) by (destruct (s_data _ _ _ H); by split).
  destruct H. split; cbn [tp_ctl upd_fet set_fet tp_fet tp_net rktp_ops rktp_version
    rktp_fetchq rktp_app_offset tp_out fe_fetch rktp_fetch_version rktp_reader rktp_last_next_offset rktp_fetch]; try done.
  - destruct s_ops0 as [(? & ? & ? & ? & _ & ?)|?]; [by left|by right].
  - intros E1 E2. destruct (s_paused0 E1 E2) as (_ & ?). done.
Qed.

Lemma seen_leave v t b : Seen log v t -> Seen log v (op_partition_leave cf b t).
Proof.
  intros H. unfold op_partition_leave. case_if; [done|].
  assert (H1 : Seen log v (rd_kafka_toppar_fetch_decide cf true t).1).
  { unfold rd_kafka_toppar_fetch_decide, fetch_decision. cbn zeta.
    case_if; cbn [fst]; [|by apply seen_fin]. by apply seen_unfetch, seen_fin. }
  destruct (rd_kafka_toppar_fetch_decide cf true t) as [t1 ts]. cbn [fst] in H1. cbn zeta.
  assert (H2 : Seen log v (set_leader None (set_s_for_rkb false t1))).
  { apply (seen_same log v t1); try done. destruct (s_data _ _ _ H1). by split. }
  destruct (rktp_next_leader _); [|done]. by apply seen_net_same.
Qed.

Lemma seen_join v t t' b : Seen log v t -> op_partition_join b t = Ret t' -> Seen log v t'.
Proof.
  intros H E. pose proof (data_join log b t t' (s_data _ _ _ H) E) as HD. revert E. unfold op_partition_join.
  case_if; [case_if; [|done]|]; [intros [= <-]; by apply (seen_same log v t)|].
  destruct (rktp_next_leader t); [|done]. case_if; [intros [= <-]; by apply (seen_same log v t)|].
  case_if; [intros [= <-]|done]. by apply (seen_same log v t).
Qed.

Lemma join_out b t t' : op_partition_join b t = Ret t' -> tp_out t' = tp_out t.
Proof.
  unfold op_partition_join. destruct (has_flag _ _), (rktp_next_leader t); try done; cbn [guard]; try case_if;
    try case_if; try done; by intros [= <-].
Qed.

(** The messages of a step and the state after it. *)
Definition step_good (e : event) (v : view) (t : toppar) : Prop :=
  exists t', tp_step cf e t = Ret t' /\
    (new_msgs t t' = [] \/ exists m, new_msgs t t' = [m] /\ expected log v = Some m) /\
    Seen log (view_step e (new_msgs t t') v) t' /\ Mig t'.

Lemma step_quiet e v t t' :
  Seen log v t' -> Mig t -> tp_step cf e t = Ret t' -> new_msgs t t' = [] ->
  (forall l, view_step e l v = v \/ l <> []) -> step_good e v t.
Proof.
  intros H HM E En Hv. exists t'. split; [exact E|]. split; [by left|]. split; [|by eapply mig_step].
  rewrite En. by destruct (Hv []) as [->|?].
Qed.

Lemma step_call e v t t' :
  Mig t -> tp_step cf e t = Ret t' -> Seen log (view_step e [] v) t' -> tp_out t' = tp_out t -> step_good e v t.
Proof.
  intros HM E H Eo. exists t'. rewrite (new_msgs_same t t' Eo). split; [done|]. split; [by left|]. split; [done|by eapply mig_step].
Qed.

Lemma decide_new f t : new_msgs t (rd_kafka_toppar_fetch_decide cf f t).1 = [].
Proof.
  unfold rd_kafka_toppar_fetch_decide.
  assert (E : exists l, tp_out (fetch_decision cf f t).1 = tp_out t ++ l /\ omap any_msg l = []).
  { unfold fetch_decision. repeat (case_if; [exists []; by rewrite app_nil_r|]). cbn zeta. unfold decide_restart. cbn zeta.
    case_if; [by eexists [_]|exists []; by rewrite app_nil_r]. }
  destruct (fetch_decision cf f t) as [t1 [sf ts]]. cbn [fst] in E. destruct E as (l & E & El). cbn zeta.
  by case_if; cbn [fst]; rewrite (new_msgs_app t _ l).
Qed.

Lemma leave_new b t n : new_msgs t (op_partition_leave cf b (set_net n t)) = [].
Proof.
  unfold op_partition_leave. case_if; [by apply new_msgs_same|].
  pose proof (decide_new true (set_net n t)) as En. destruct (rd_kafka_toppar_fetch_decide cf true (set_net n t)) as [t1 ts].
  cbn [fst] in En. cbn zeta. by destruct (rktp_next_leader _).
Qed.

Lemma seen_reply_step i e p v t :
  Seen log v t -> Mig t -> view_event_ok log (E_fetch_reply i e p) v t -> step_good (E_fetch_reply i e p) v t.
Proof.
  intros H HM Hok. cbn [view_event_ok] in Hok. unfold step_good. cbn [tp_step view_step]. unfold rd_kafka_broker_fetch_reply.
  destruct (n_fetches (tp_net t) !! i) as [req|] eqn:Ei.
  2:{ exists t. rewrite new_msgs_same by done. split; [done|]. split; [by left|]. done. }
  case_if; [exists t; rewrite new_msgs_same by done; (split; [done|]); (split; [by left|]); done|].
  set (t1 := upd_net _ t). assert (H1 : Seen log v t1).
  { assert (HD : Data log t1) by (apply data_net; [apply H|]; apply Forall_delete, (s_data _ _ _ H)).
    destruct H. split; try done; cbn [tp_net t1 upd_net set_net ne_fetches n_fetches tp_fet tp_ctl rktp_fetchq tp_out].
    - destruct s_offset0 as [? F]. split; [done|]. by apply Forall_delete.
    - intros E1 E2. destruct (s_paused0 E1 E2) as (? & ? & ? & ?). split; [done|]. split; [by apply Forall_delete|done]. }
  case_if; [exists t1; rewrite new_msgs_same by done; (split; [done|]); (split; [by left|]); done|].
  assert (e = 0) by lia. destruct (Hok req eq_refl H0) as [Hne Hp].
  pose proof (Forall_lookup_1 _ _ _ _ (d_fetches _ _ (s_data _ _ _ H)) Ei) as Hr.
  destruct (s_offset _ _ _ H) as [_ Foff]. pose proof (Forall_lookup_1 _ _ _ _ Foff Ei) as Hoff.
  assert (Hpa : rktp_fetch_version (tp_fet t) = rktp_op_version (tp_ctl t) -> rktp_flags (tp_ctl t) <> 0 ->
    fr_version req <> rktp_fetch_version (tp_fet t)).
  { intros E1 E2. destruct (s_paused _ _ _ H E1 E2) as (_ & F & _). exact (Forall_lookup_1 _ _ _ _ F Ei). }
  destruct (fetched_reply cf log req p t1 Hr Hoff Hpa Hne Hp (d_ready _ _ (s_data _ _ _ H1))) as (t' & E' & F').
  assert (HD' : Data log t').
  { eapply (data_reply cf log Hlog); [apply H1|exact Hr| |exact E']. intros _ Ev Ec Es. specialize (Hoff Ev). split; [exact (Z.le_trans _ _ _ (proj1 Hoff) (proj2 Hoff))|by apply Hp]. }
  destruct (seen_fetched log v t1 t' H1 F' HD') as [HS Hn]. exists t'. split; [exact E'|].
  assert (Hn' : new_msgs t t' = []) by exact Hn. rewrite Hn'. split; [by left|]. split; [exact HS|].
  eapply mig_place; [exact (reply_place cf _ _ _ _ E')|]. exact HM.
Qed.

Lemma seen_pause_step pa f v t :
  Seen log v t -> Mig t -> view_event_ok log (E_pause pa f) v t -> step_good (E_pause pa f) v t.
Proof.
  intros H HM Hok. eapply step_call; [done|reflexivity| |done].
  destruct pa; destruct Hok as (Hp & Hpa & Hf & Hm); destruct (v_pos v) as [p|] eqn:Ep; try done;
    (apply (seen_call log v); [done|done|right; by rewrite Ep| |done|done|]); cbn [view_step v_pos v_got];
    rewrite ?Ep; try done; f_equal; cbn [op_next tp_op_type].
  - destruct (v_any v) eqn:Ea.
    + destruct Hpa as [?|Hg]; [done|]. destruct (s_got _ _ _ H Hg) as [_ Eg]. rewrite Ep in Eg. injection Eg as ->.
      pose proof (s_some _ _ _ H Ea). rewrite (proj2 (Z.eqb_neq _ _)); [done|]. unfold OFFSET_INVALID. lia.
    + destruct (s_any _ _ _ H Ea) as [-> Hd]. rewrite Z.eqb_refl. by apply (pos_wanted log v t).
  - by apply (paused_wanted log v t).
Qed.

Lemma view_step_good e v t : Seen log v t -> Mig t -> view_event_ok log e v t -> step_good e v t.
Proof.
  intros H HM Hok. destruct (s_idle _ _ _ H) as (I1 & I2 & I3 & I4 & I5).
  destruct e as [o rq|rq|o rq|pa f|o| | | | |i e f|i e pe o|i e pe| |b|i e p|b|i|now]; cbn [view_event_ok] in Hok.
  - destruct Hok as (Hp & Ho & Hm). eapply step_call; [done|reflexivity| |done].
    apply (seen_call log v); try done. left. eauto.
  - done.
  - destruct Hok as (Hp & Ho & Hm). eapply step_call; [done|reflexivity| |done].
    apply (seen_call log v); try done. right. done.
  - by apply seen_pause_step.
  - apply (step_quiet _ v t (rd_kafka_offset_store o t)); auto; [|by apply new_msgs_same].
    apply (seen_same log v t); try done. destruct (s_data _ _ _ H). by split.
  - destruct (seen_consume v t H) as [HS Hn]. exists (rd_kafka_consume0 cf t).
    split; [done|]. split; [done|]. split; [done|].
    eapply mig_place; [apply consume_place|done].
  - destruct (rktp_ops t) as [|op ops] eqn:Eo.
    + apply (step_quiet _ v t t); auto; [cbn [tp_step]; by rewrite Eo|by apply new_msgs_same].
    + destruct (seen_serve cf log v t op ops H Eo) as (t' & E & HS & Hn).
      apply (step_quiet _ v t t'); auto. cbn [tp_step]. by rewrite Eo.
  - apply (step_quiet _ v t t); auto; [cbn [tp_step]; by rewrite I4|by apply new_msgs_same].
  - apply (step_quiet _ v t t); auto; [cbn [tp_step]; by rewrite I5|by apply new_msgs_same].
  - apply (step_quiet _ v t t); auto; [cbn [tp_step]; by rewrite I1|by apply new_msgs_same].
  - apply (step_quiet _ v t t); auto; [cbn [tp_step]; by rewrite I2|by apply new_msgs_same].
  - apply (step_quiet _ v t t); auto; [cbn [tp_step]; by rewrite I3|by apply new_msgs_same].
  - destruct (rktp_leader t) eqn:El.
    + exists (rd_kafka_toppar_fetch_decide cf false t).1. cbn [tp_step view_step]. rewrite El.
      split; [done|]. assert (En : new_msgs t (rd_kafka_toppar_fetch_decide cf false t).1 = []) by apply decide_new.
      rewrite En. split; [by left|]. split; [by apply seen_decide|]. eapply mig_place; [apply decide_place|done].
    + apply (step_quiet _ v t t); auto; [cbn [tp_step]; by rewrite El|by apply new_msgs_same].
  - apply (step_quiet _ v t (rd_kafka_broker_fetch_toppars b t)); auto; [by apply seen_fetch|].
    apply new_msgs_same. unfold rd_kafka_broker_fetch_toppars. by case_if.
  - apply seen_reply_step; auto.
  - destruct (leader_returns b t) as (t' & r & E & Ht).
    { destruct (s_ops _ _ _ H) as [(Es & _)|(Es & _)]; by rewrite Es. }
    apply (step_quiet _ v t t'); auto; [|cbn [tp_step]; by rewrite E|].
    + destruct Ht as [->|(nl & n & -> & ? & ? & ? & ?)]; [done|]. apply seen_net_same; try done.
      apply (seen_same log v t); try done. by apply data_next, H.
    + apply new_msgs_same. by destruct Ht as [->|(nl & n & -> & _)].
  - destruct (n_migr (tp_net t) !! i) as [m|] eqn:Ei.
    + destruct (mig_serve cf i m t HM Ei) as (t' & E & HM').
      assert (Hs : Seen log v t' /\ new_msgs t t' = []).
      { cbn [tp_step] in E. rewrite Ei in E. set (t1 := upd_net _ t) in *.
        assert (H1 : Seen log v t1) by (by apply seen_net_same).
        destruct (mg_join m).
        - split; [by eapply seen_join|]. apply new_msgs_same. by rewrite (join_out _ _ _ E).
        - injection E as <-. split; [by apply seen_leave|]. apply leave_new. }
      destruct Hs. apply (step_quiet _ v t t'); auto.
    + apply (step_quiet _ v t t); auto; [cbn [tp_step]; by rewrite Ei|by apply new_msgs_same].
  - apply (step_quiet _ v t (set_now now t)); auto; [|by apply new_msgs_same].
    apply (seen_same log v t); try done. destruct (s_data _ _ _ H). by split.
Qed.

Lemma view_run es v t : Seen log v t -> Mig t -> view_run_ok cf log es v t -> view_follows cf log es v t.
Proof.
  revert v t. induction es as [|e es IH]; intros v t H HM Hok; [done|]. cbn [view_run_ok view_follows] in *.
  destruct Hok as [He Hes]. destruct (view_step_good e v t H HM He) as (t' & E & Hn & HS & HM').
  rewrite E in *. split; [done|]. by apply IH.
Qed.

Lemma seen_new now : Seen log view0 (rd_kafka_toppar_new cf now).
Proof.
  split; cbn [tp_ctl tp_fet tp_net rd_kafka_toppar_new rktp_fetchq tp_out rktp_version rktp_app_offset]; try done.
  - apply data_new.
  - left. repeat split; try done. by left.
  - by left.
Qed.
End run.
