(* ===== verification/TopparFlow.v ===== *)
(** * A consumed partition: progress

    From every state a disciplined application reaches, one round of the broker
    thread and its Fetch response hands out the message that is expected next, when
    there is nothing left to serve, the partition is not paused and its leader
    answers. *)
From Stdlib Require Import ZArith Lia Sorting.Sorted.
From stdpp Require Import base numbers list.
From S2P Require Import Prelude.
From S2P Require Import Proto.
From S2P Require Import Msg.
From S2P Require Import Queue.
From S2P Require Import MsgsetReader.
From S2P Require Import TopparState.
From S2P Require Import Toppar.
From S2P Require Import TopparInv.
From S2P Require Import TopparMigr.
From S2P Require Import TopparView.

(** A partition that waits for messages: its leader [b] has no Fetch request out,
    no operation waits, the queue is empty and fetching is not put off. *)
Record at_rest (b : Z) (t : toppar) : Prop := mk_at_rest {
  ar_leader : rktp_leader t = Some b;
  ar_fetches : n_fetches (tp_net t) = [];
  ar_ops : rktp_ops t = [];
  ar_queue : rkq_q (rktp_fetchq t) = [] /\ rkq_qlen (rktp_fetchq t) = 0 /\ rkq_qsize (rktp_fetchq t) = 0;
  ar_backoff : rktp_ts_fetch_backoff (tp_fet t) <= tp_now t }.

(** An operation with a message. *)
Definition fetch_op (v : Z) (o : rd_kafka_op) : Prop :=
  rko_version o = v /\ rko_err o = 0 /\ match rko_u o with RD_KAFKA_OP_FETCH _ => True | _ => False end.

(** A Fetch response that holds the log up to [m]. *)
Record brings (log : list Z) (m : Z) (p : fetch_part) : Prop := mk_brings {
  br_err : fp_ErrorCode p = 0;
  br_size : 0 < fp_MessageSetSize p;
  br_hi : m < fp_HighwaterMarkOffset p;
  br_parse : forall v rd q, rkq_ready q = true -> 0 <= fetch_offset rd <= m ->
    exists rd' q' ops, fp_parse p v rd q = Ret (rd', q', 0) /\ rkq_q q' = rkq_q q ++ ops /\ rkq_ready q' = true /\
      Forall (fetch_op v) ops /\ m < fetch_offset rd' /\ queued v ops = seg log (fetch_offset rd) (fetch_offset rd') }.

Lemma brings_parser log m p rd : brings log m p -> 0 <= fetch_offset rd <= m -> parser_ok log rd p.
Proof.
  intros [_ _ _ Hp] Ho v q Hq. destruct (Hp v rd q Hq Ho) as (rd' & q' & ops & -> & Eq & Er & F & Hm & Es).
  exists rd', q', ops, 0. repeat split; try done; [|lia]. eapply Forall_impl; [exact F|].
  intros o (? & ? & ?). unfold parsed. destruct (rko_u o); done.
Qed.

Section flow.
Context (cf : tp_conf) (log : list Z) (Hlog : StronglySorted Z.lt log) (Hbound : Forall (fun o => 0 <= o < 2 ^ 62) log).

Lemma rest_active v b t : Seen log v t -> at_rest b t -> v_pos v <> None ->
  rktp_fetch_state (tp_ctl t) = FETCH_ACTIVE /\ rktp_op_version (tp_ctl t) = rktp_version t /\ rktp_flags (tp_ctl t) = v_flags v /\
  0 <= rktp_next_offset (tp_ctl t).
Proof.
  intros H [_ _ Eo _ _] Hp. pose proof (s_versions _ _ _ H) as Ev. rewrite Eo in Ev. pose proof (d_ver _ _ (s_data _ _ _ H)).
  assert (El : length (seqZ (rktp_op_version (tp_ctl t) + 1) (rktp_version t - rktp_op_version (tp_ctl t))) = 0%nat) by (by rewrite <- Ev).
  rewrite length_seqZ in El. pose proof (s_flags _ _ _ H) as Ef. unfold flags_to_be in Ef. rewrite Eo in Ef. cbn in Ef.
  destruct (s_ops _ _ _ H) as [(_ & _ & _ & _ & _ & [(_ & ? & _)|(op & o & g & rest & E & _)])|(Hs & _ & _ & Hn)]; [done|by rewrite E in Eo|].
  repeat split; try done. lia.
Qed.

(** The round of the broker thread puts the partition on the list. *)
Lemma rest_decide v b t : Seen log v t -> at_rest b t -> v_pos v <> None -> v_flags v = 0 ->
  0 < queued_min_msgs cf -> 0 < queued_max_msg_bytes cf ->
  let t' := (rd_kafka_toppar_fetch_decide cf false t).1 in
  rktp_fetch (tp_fet t') = true /\ rktp_fetch_version (tp_fet t') = rktp_version t' /\ rkq_q (rktp_fetchq t') = [] /\
  tp_net t' = tp_net t /\ rktp_leader t' = rktp_leader t.
Proof.
  intros H Hr Hp Hf H1 H2. destruct (rest_active v b t H Hr Hp) as (Hs & Ev & Ef & Hn). rewrite Hf in Ef.
  pose proof (d_fv _ _ (s_data _ _ _ H)) as Hfv.
  assert (R : let t1 := decide_restart t in rktp_fetch_version (tp_fet t1) = rktp_version t /\ rkq_q (rktp_fetchq t1) = [] /\
    rkq_qlen (rktp_fetchq t1) = 0 /\ rkq_qsize (rktp_fetchq t1) = 0 /\ tp_ctl t1 = tp_ctl t /\ tp_net t1 = tp_net t /\
    rktp_version t1 = rktp_version t /\ rktp_leader t1 = rktp_leader t /\ tp_now t1 = tp_now t /\
    rktp_ts_fetch_backoff (tp_fet t1) = rktp_ts_fetch_backoff (tp_fet t)).
  { cbn zeta. destruct Hr as [_ _ _ (Q1 & Q2 & Q3) _]. unfold decide_restart. cbn zeta. destruct (_ || _) eqn:E.
    - cbn [tp_fet tp_ctl tp_net rktp_version rktp_leader tp_now rktp_fetchq emit set_out set_fetchq upd_fet set_fet rktp_fetch_version rktp_ts_fetch_backoff].
      unfold rd_kafka_q_purge_toppar_version. rewrite Q1. cbn [purge_loop rkq_q rkq_qlen rkq_qsize]. rewrite Q2, Q3. done.
    - apply orb_false_iff in E as [E _]. split; [lia|]. done. }
  cbn zeta in R. unfold rd_kafka_toppar_fetch_decide, fetch_decision. rewrite Ef, Hs. cbn [has_flag Z.land negb Z.eqb in_state].
  change (has_flag 0 F_REMOVE) with false. cbn iota. unfold in_state. rewrite bool_decide_eq_true_2 by done. cbn [negb]. cbn zeta.
  destruct R as (R1 & R2 & R3 & R4 & R5 & R6 & R7 & R8 & R9 & R10). set (t1 := decide_restart t) in *. clearbody t1.
  assert (Ed : decide_fetch cf t1 = (true, 0)).
  { unfold decide_fetch, IS_PAUSED. rewrite R5, Ef, R9, R10. change (has_flag 0 _) with false. cbn iota.
    unfold OFFSET_IS_LOGICAL. rewrite (proj2 (Z.ltb_ge (rktp_next_offset (tp_ctl t)) 0)) by lia.
    unfold rd_kafka_q_len, rd_kafka_q_size. rewrite R3, R4. change (s64 (u64 0)) with 0.
    rewrite !Z.geb_leb, (proj2 (Z.leb_gt (queued_min_msgs cf) 0)), (proj2 (Z.leb_gt (queued_max_msg_bytes cf) 0)) by lia.
    rewrite Z.gtb_ltb, (proj2 (Z.ltb_ge (tp_now t) _)); [done|]. destruct Hr. lia. }
  rewrite Ed. cbn [tp_fet set_offsets_fin]. destruct (rktp_fetch (tp_fet t1)) eqn:Et; cbn [Bool.eqb negb fst]; [|by rewrite <- R7 in R1].
  cbn [tp_fet set_offsets_fin rktp_version rktp_fetchq tp_net rktp_leader]. rewrite Et, R7. done.
Qed.

(** Where the fetcher is when nothing is queued. *)
Lemma rest_offset v t m : Seen log v t -> rktp_fetch_version (tp_fet t) = rktp_version t -> rkq_q (rktp_fetchq t) = [] ->
  expected log v = Some m ->
  let fo := fetch_offset (rktp_reader (tp_fet t)) in
  0 <= fo <= m /\ m ∈ log /\ (forall x, x ∈ log -> fo <= x -> m <= x).
Proof.
  intros H Ev Eq Hx. cbn zeta. destruct (v_pos v) as [p|] eqn:Ep; [|unfold expected in Hx; by rewrite Ep in Hx].
  unfold expected in Hx. rewrite Ep in Hx. cbn in Hx. pose proof (s_data _ _ _ H) as HD. pose proof (d_fv _ _ HD). pose proof (d_ver _ _ HD).
  assert (Eo : rktp_op_version (tp_ctl t) = rktp_version t) by lia.
  pose proof (s_pos _ _ _ H p Ep) as Epos. rewrite decide_True in Epos by done.
  destruct (s_start _ _ _ H ltac:(lia)) as [Est _]. destruct (d_now _ _ HD Ev) as (to & F & G & L). destruct (s_offset _ _ _ H) as [Hfo _].
  rewrite Ev, Eo in *. rewrite Est in F, G. apply Forall2_cons_inv_l in F as (fo & to' & Hle & F & ->).
  apply Forall2_nil_inv_l in F as ->. unfold chain in G. cbn in G. rewrite app_nil_r, Eq in G. cbn in G. rewrite app_nil_r in G.
  destruct L as [L|[= L]]; [unfold OFFSET_INVALID in L; lia|]. rewrite <- L in *. set (next := rktp_next_offset (tp_ctl t)) in *.
  destruct (filter (fun o => p <= o) log) as [|m' l] eqn:El; [done|]. injection Hx as <-.
  assert (Hm : m' ∈ log /\ p <= m').
  { assert (Hin : m' ∈ filter (fun o => p <= o) log) by (rewrite El; by left). apply list_elem_of_filter in Hin as [? ?]. done. }
  assert (Hmin : forall x, x ∈ log -> p <= x -> m' <= x).
  { intros x Hx Hpx. assert (Hin : x ∈ filter (fun o => p <= o) log) by (apply list_elem_of_filter; done).
    rewrite El in Hin. pose proof (sorted_filter_lt (fun o => p <= o) log Hlog) as Hs. rewrite El in Hs.
    apply StronglySorted_inv in Hs as [_ Hs]. rewrite Forall_forall in Hs. apply elem_of_cons in Hin as [->|Hin]; [lia|]. specialize (Hs x Hin). lia. }
  assert (Hp : next <= p <= fo /\ forall x, x ∈ seg log next fo -> x < p).
  { rewrite <- G, Epos. unfold pos_after. destruct (delivered (rktp_version t) (tp_out t)) as [|y l' _] eqn:Ed using rev_ind.
    - cbn. split; [lia|]. intros x Hin. by apply elem_of_nil in Hin.
    - rewrite last_snoc. assert (Hs : StronglySorted Z.lt (l' ++ [y])) by (rewrite G; by apply sorted_filter_lt).
      assert (Hy : y ∈ seg log next fo) by (rewrite <- G; apply elem_of_app; right; by left).
      apply list_elem_of_filter in Hy as [Hy _]. split; [lia|]. intros x Hin. pose proof Hin as Hin'.
      apply (sorted_middle l' y [] x) in Hin; [|done]. apply elem_of_app in Hin' as [Hin'|Hin'].
      + destruct Hin as [_ Hin]. specialize (Hin Hin'). lia.
      + apply list_elem_of_singleton in Hin'. lia. }
  destruct Hp as [Hp1 Hp2]. destruct Hm as [Hm1 Hm2].
  assert (Hfm : fo <= m').
  { destruct (Z.le_gt_cases fo m'); [done|]. assert (Hin : m' ∈ seg log next fo) by (apply list_elem_of_filter; split; [lia|done]).
    specialize (Hp2 m' Hin). lia. }
  split; [lia|]. split; [done|]. intros x Hx Hfx. apply Hmin; [done|lia].
Qed.

(** The first message of the response. *)
Lemma brought_head fo fo' v m ops : fo <= m < fo' -> m ∈ log -> (forall x, x ∈ log -> fo <= x -> m <= x) ->
  Forall (fetch_op v) ops -> queued v ops = seg log fo fo' ->
  exists o x rest, ops = o :: rest /\ rko_version o = v /\ rko_u o = RD_KAFKA_OP_FETCH x /\ rkm_offset x = m.
Proof.
  intros Hm Hin Hmin F Eq. assert (Hh : head (seg log fo fo') = Some m).
  { apply head_filter_min; [done|done|lia|]. intros x Hx [? _]. by apply Hmin. }
  destruct ops as [|o rest]; [rewrite <- Eq in Hh; done|]. apply Forall_cons in F as [(Hv & _ & Hu) _].
  rewrite <- Eq in Hh. unfold queued, op_msg in Hh. cbn [omap list_omap] in Hh. rewrite Hv, Z.eqb_refl in Hh.
  destruct (rko_u o) as [x|?|?] eqn:Eu; try done. injection Hh as <-. by exists o, x, rest.
Qed.

Lemma consume_head t o x rest :
  rkq_q (rktp_fetchq t) = o :: rest -> rko_u o = RD_KAFKA_OP_FETCH x -> rko_version o = rktp_version t ->
  new_msgs t (rd_kafka_consume0 cf t) = [rkm_offset x].
Proof.
  intros Eq Eu Ev. unfold rd_kafka_consume0. rewrite Eq. cbn [length consume_loop]. unfold rd_kafka_q_pop. rewrite Eq. cbn [pop_loop].
  unfold rd_kafka_op_version_outdated. rewrite Ev, Z.ltb_irrefl. cbn [Z.eqb negb].
  replace (if rktp_version t =? 0 then false else false) with false by (by destruct (_ =? 0)). rewrite Eu.
  rewrite (new_msgs_app t _ [OUT_message (rko_version o) (rkm_offset x)]); [done|].
  unfold rd_kafka_op_offset_store. rewrite Eu. repeat case_if; done.
Qed.

Lemma consume_grows t : exists l, tp_out (rd_kafka_consume0 cf t) = tp_out t ++ l.
Proof.
  unfold rd_kafka_consume0. generalize (length (rkq_q (rktp_fetchq t))) as n. intros n. revert t.
  induction n as [|n IH]; intros t; cbn [consume_loop]; [exists []; by rewrite app_nil_r|].
  destruct (rd_kafka_q_pop _ _) as [[o|] q]; [|exists []; by rewrite app_nil_r].
  destruct (rko_u o) as [x|off|ty] eqn:Eu.
  - exists [OUT_message (rko_version o) (rkm_offset x)]. unfold rd_kafka_op_offset_store. rewrite Eu. repeat case_if; done.
  - by eexists [_].
  - destruct (IH (emit (OUT_error_cb (rko_err o)) (set_fetchq q t))) as (l & ->). eexists (_ :: l). cbn. by rewrite <- app_assoc.
Qed.

(** One round of the broker thread, its request and the response, and a call of the
    application. *)
Definition round (b : Z) (p : fetch_part) : list event := [E_decide; E_fetch b; E_fetch_reply 0 0 p; E_consume].

Lemma new_msgs_trans t1 t2 t3 : (exists l, tp_out t2 = tp_out t1 ++ l) -> (exists l, tp_out t3 = tp_out t2 ++ l) ->
  new_msgs t1 t3 = new_msgs t1 t2 ++ new_msgs t2 t3.
Proof.
  intros (l1 & E1) (l2 & E2). rewrite (new_msgs_app t1 t2 l1 E1), (new_msgs_app t2 t3 l2 E2), (new_msgs_app t1 t3 (l1 ++ l2)).
  - apply omap_app.
  - by rewrite E2, E1, app_assoc.
Qed.

Lemma decide_grows f t : exists l, tp_out (rd_kafka_toppar_fetch_decide cf f t).1 = tp_out t ++ l.
Proof.
  unfold rd_kafka_toppar_fetch_decide.
  assert (E : exists l, tp_out (fetch_decision cf f t).1 = tp_out t ++ l).
  { unfold fetch_decision. repeat (case_if; [exists []; by rewrite app_nil_r|]). cbn zeta. unfold decide_restart. cbn zeta.
    case_if; [by eexists [_]|exists []; by rewrite app_nil_r]. }
  destruct (fetch_decision cf f t) as [t1 [sf ts]]. cbn [fst] in E. destruct E as (l & E). cbn zeta. by case_if; cbn [fst]; exists l.
Qed.

(** The response is taken. *)
Lemma reply_brings t b m p fo :
  rktp_leader t = Some b -> rkq_q (rktp_fetchq t) = [] -> rkq_ready (rktp_fetchq t) = true ->
  fetch_offset (rktp_reader (tp_fet t)) = fo -> 0 <= fo <= m -> brings log m p ->
  exists t' fo' ops, rd_kafka_fetch_reply_handle cf (mk_fetch_req b fo (rktp_fetch_version (tp_fet t))) p t = Ret t' /\
    rkq_q (rktp_fetchq t') = ops /\ rktp_version t' = rktp_version t /\ tp_out t' = tp_out t /\ m < fo' /\
    Forall (fetch_op (rktp_fetch_version (tp_fet t))) ops /\ queued (rktp_fetch_version (tp_fet t)) ops = seg log fo fo'.
Proof.
  intros El Eq Erd Ef Hfo [B1 B2 B3 B4]. unfold rd_kafka_fetch_reply_handle. cbn [fr_rkb fr_version].
  rewrite bool_decide_eq_true_2 by done. cbn [negb]. rewrite Z.ltb_irrefl. cbn zeta.
  cbn [tp_fet set_hi_offset upd_fet set_fet fe_offsets_hi rktp_reader rktp_fetchq]. rewrite Ef.
  rewrite (proj2 (Z.eqb_neq (fp_HighwaterMarkOffset p) fo)) by lia. cbn [andb]. rewrite B1. cbn [Z.eqb negb].
  rewrite (proj2 (Z.leb_gt (fp_MessageSetSize p) 0)) by lia.
  destruct (B4 (rktp_fetch_version (tp_fet t)) (rktp_reader (tp_fet t)) (rktp_fetchq t) Erd ltac:(by rewrite Ef))
    as (rd' & q' & ops & Ep & Eq' & _ & F & Hm & Es).
  unfold set_hi_offset, upd_fet, set_fet, fe_offsets_hi. cbn [tp_fet rktp_reader rktp_fetchq]. rewrite Ep. cbn [obind Z.eqb negb].
  eexists _, (fetch_offset rd'), ops. split; [done|]. cbn [rktp_fetchq set_fetchq]. rewrite Eq', Eq, <- Ef. done.
Qed.

Lemma round_delivers v t b m p :
  Seen log v t -> at_rest b t -> v_flags v = 0 -> expected log v = Some m ->
  0 < queued_min_msgs cf -> 0 < queued_max_msg_bytes cf -> brings log m p ->
  exists t', tp_run cf (round b p) t = Ret t' /\ new_msgs t t' = [m].
Proof.
  intros H Hr Hf Hx H1 H2 Hb. assert (Hp : v_pos v <> None) by (intros E; unfold expected in Hx; by rewrite E in Hx).
  destruct (rest_decide v b t H Hr Hp Hf H1 H2) as (D1 & D2 & D3 & D4 & D5). pose proof (seen_decide cf log v t H) as HS.
  pose proof (decide_new cf false t) as Dn. destruct (decide_grows false t) as (l1 & Dg).
  cbn [tp_run round tp_step]. unfold rd_kafka_broker_fetch_reply. rewrite (ar_leader _ _ Hr) in D5 |- *. cbn [obind].
  set (t1 := (rd_kafka_toppar_fetch_decide cf false t).1) in *. clearbody t1.
  destruct (rest_offset v t1 m HS D2 D3 Hx) as (Hfo & Hin & Hmin).
  unfold rd_kafka_broker_fetch_toppars. rewrite D5, D1, D4, (ar_fetches _ _ Hr). rewrite bool_decide_eq_true_2 by done. cbn [existsb negb andb].
  cbn [tp_net upd_net set_net ne_fetches n_fetches]. rewrite D4, (ar_fetches _ _ Hr). cbn [app lookup list_lookup].
  change (0 =? ERR__DESTROY) with false. change (0 =? 0) with true. cbn [negb].
  match goal with |- context [rd_kafka_fetch_reply_handle cf _ p ?x] => set (t2 := x) end.
  destruct (reply_brings t2 b m p (fetch_offset (rktp_reader (tp_fet t1)))) as (t3 & fo' & ops & E3 & Q3 & V3 & O3 & Hm & F & Es);
    [done|done|apply (d_ready _ _ (s_data _ _ _ HS))|done|lia|done|].
  change (rktp_fetch_version (tp_fet t2)) with (rktp_fetch_version (tp_fet t1)) in E3, F, Es. rewrite E3. cbn [obind].
  destruct (brought_head _ _ _ _ _ (conj (proj2 Hfo) Hm) Hin Hmin F Es) as (o & x & rest & Eo & Ev & Eu & Ex).
  eexists. split; [done|]. rewrite Eo in Q3. pose proof (consume_head t3 o x rest Q3 Eu ltac:(by rewrite Ev, V3, D2)) as Hc. rewrite Ex in Hc.
  assert (Eout : tp_out t3 = tp_out t1) by exact O3.
  destruct (consume_grows t3) as (l3 & G3). rewrite (new_msgs_trans t t1); [|by exists l1|exists l3; by rewrite G3, Eout].
  rewrite Dn. cbn [app]. rewrite <- Hc. unfold new_msgs. by rewrite Eout.
Qed.
End flow.
