(* ===== verification/TopparSpec.v ===== *)
(** * A consumed partition: what it promises

    What the application gets is the log, in order, from where the fetcher started;
    a disciplined application sees a position that only moves as it asks; and
    every move between brokers ends. *)
From Stdlib Require Import ZArith Lia Sorting.Sorted.
From stdpp Require Import base numbers list.
From S2P Require Import Prelude Varint Buf BufFacts BufSeek BufSpec Slice SliceFacts CrcTheory.
From S2P Require Import Crc Reader Crc32c RdList RdListSpec Proto Header Msg MsgqSpec KBuf.
From S2P Require Import KBufFacts Queue MsgsetReader KBufWrite MsgsetWriter WriterSpec ReaderSpec.
From S2P Require Import BatchSpec FetchSpec.
From S2P Require Import TopparState.
From S2P Require Import Toppar.
From S2P Require Import TopparInv.
From S2P Require Import TopparMigr.
From S2P Require Import TopparView.
From S2P Require Import TopparFlow.

(** ** The MessageSets of a Fetch response *)

(** The offsets of the messages in MessageSets, those of control messages left
    out. *)
Definition batch_offsets (b : batch) : list Z :=
  if batch_is_control b then [] else (fun r => b_BaseOffset b + r.1) <$> b_records b.
Definition batches_offsets (l : list batch) : list Z := l ≫= batch_offsets.

Section msgset.
Context {CO : Codecs} (crcs : bool) (partition : Z) (addr : nat * Z -> Z).

Definition part_conf (v : Z) : reader_conf := mk_rconf crcs partition v addr.

(** A partition of a response whose MessageSets are in the buffer [k]. *)
Definition msgset_part (depth : nat) (k : rd_kafka_buf) (hi size : Z) : fetch_part :=
  mk_fetch_part 0 hi size (fun v rd q =>
    let! (_, rd, q, _, err) := rd_kafka_msgset_parse (part_conf v) depth k rd q in Ret (rd, q, err)).

Lemma queued_records v h f l :
  queued v (records_ops (part_conf v) h f l) = filter (fun o => f <= o) ((fun r => v2_BaseOffset h + r.1) <$> l).
Proof.
  unfold records_ops. induction l as [|[off m] l IH]; [done|]. cbn [mbind list_bind fmap list_fmap]. rewrite queued_app, IH.
  unfold record_ops at 1. cbn [fst snd]. destruct (Z.ltb_spec (v2_BaseOffset h + off) f).
  - rewrite filter_cons_False by (cbn; lia). done.
  - rewrite filter_cons_True by (cbn; lia). unfold queued, op_msg. cbn. by rewrite Z.eqb_refl.
Qed.

Lemma queued_batches v f l :
  Forall batch_ok l -> queued v (batches_ops (part_conf v) f l) = filter (fun o => f <= o) (batches_offsets l).
Proof.
  induction 1 as [|b l Hb _ IH]; [done|]. unfold batches_ops, batches_offsets in *. cbn [mbind list_bind].
  rewrite queued_app, filter_app, IH. f_equal. unfold batch_ops, batch_offsets.
  destruct (batch_is_control b); [by rewrite orb_true_r|]. rewrite orb_false_r. destruct (Z.ltb_spec (batch_last b) f) as [Hl|Hl].
  - destruct (filter (fun o => f <= o) ((fun r => b_BaseOffset b + r.1) <$> b_records b)) as [|x l'] eqn:E; [reflexivity|]. exfalso. assert (Hx : x ∈ x :: l') by (by left). rewrite <- E in Hx.
    apply list_elem_of_filter in Hx as [Hf (r & -> & Hr)%list_elem_of_fmap].
    pose proof (bo_records _ Hb) as Fr. rewrite Forall_forall in Fr. destruct (Fr r Hr) as [_ Ho]. unfold batch_last in Hl. lia.
  - apply queued_records.
Qed.

Lemma batches_parsed v f l : Forall batch_ok l -> Forall (fetch_op v) (batches_ops (part_conf v) f l).
Proof.
  intros Hok. apply Forall_forall. intros o Ho. by destruct (batches_ops_elem (part_conf v) f l o Hok Ho) as (b & off & m & _ & -> & _).
Qed.

(** MessageSets of MsgVersion 2 that hold the log from [a] to the end of the last
    one. *)
Record msgsets (log : list Z) (k : rd_kafka_buf) (l : list batch) (b0 : batch) (a : Z) : Prop := mk_msgsets {
  ms_view : exists st en, kview st en k (batches_bytes l) /\ en < 2 ^ 62;
  ms_bytes : bytes_ok (contents (rkbuf_buf k));
  ms_ok : Forall batch_ok l;
  ms_last : last l = Some b0;
  ms_order : Forall (fun b => batch_last b <= batch_last b0) l;
  ms_log : batches_offsets l = seg log a (batch_last b0 + 1) }.

Lemma msgset_parses log depth k hi size l b0 a rd m v q :
  msgsets log k l b0 a -> a <= fetch_offset rd <= m -> m ∈ batches_offsets l -> rkq_ready q = true ->
  exists rd' q' ops, fp_parse (msgset_part (S depth) k hi size) v rd q = Ret (rd', q', 0) /\ rkq_q q' = rkq_q q ++ ops /\
    rkq_ready q' = true /\ Forall (fetch_op v) ops /\ m < fetch_offset rd' /\ queued v ops = seg log (fetch_offset rd) (fetch_offset rd').
Proof.
  intros [(st & en & V & Hen) Hby Hok Hlast Hord Hlog] Ha Hm Hq.
  set (ops := batches_ops (part_conf v) (fetch_offset rd) l).
  assert (Es : queued v ops = seg log (fetch_offset rd) (batch_last b0 + 1)).
  { unfold ops. rewrite queued_batches, Hlog by done. unfold seg. rewrite list_filter_filter. apply list_filter_iff. intros x. lia. }
  rewrite Hlog in Hm. apply list_elem_of_filter in Hm as [Hm Hin].
  assert (Hops : ops <> []).
  { intros E. rewrite E in Es. assert (Hx : m ∈ seg log (fetch_offset rd) (batch_last b0 + 1)) by (apply list_elem_of_filter; split; [lia|done]).
    rewrite <- Es in Hx. by apply elem_of_nil in Hx. }
  destruct (run_spec (part_conf v) k rd q l b0 st en V Hby Hen Hok Hlast Hord Hq (rd_kafka_msgset_reader_run (part_conf v) depth) Hops)
    as (mr & Hmr & _ & Hf & Hpq & _).
  exists (set_fetch_offset (batch_last b0 + 1) rd), (msetr_par_rkq mr), ops.
  split; [cbn [fp_parse msgset_part]; unfold rd_kafka_msgset_parse; cbn [rd_kafka_msgset_reader_run]; rewrite Hmr; cbn [obind]; by rewrite Hf|].
  rewrite Hpq. cbn [fetch_offset set_fetch_offset]. split_and!; try done; [by apply batches_parsed|lia].
Qed.

(** The parser keeps the promises the partition relies on. *)
Lemma msgset_brings log depth k hi size l b0 m :
  msgsets log k l b0 0 -> m ∈ batches_offsets l -> 0 < size -> m < hi -> brings log m (msgset_part (S depth) k hi size).
Proof. intros Hms Hm Hs Hh. split; [done|done|done|]. intros v rd q Hq Hrd. by eapply msgset_parses. Qed.
End msgset.

(** ** The log is delivered *)

Section log.
Context (cf : tp_conf) (log : list Z) (Hlog : StronglySorted Z.lt log).

(** A prefix of what follows a single start. *)
Lemma chain_one o to l : length to = length [o] -> l `prefix_of` chain log [o] to -> l `prefix_of` filter (fun x => o <= x) log.
Proof.
  intros Hl Hp. destruct to as [|b [|]]; try done. unfold chain in Hp. cbn in Hp. rewrite app_nil_r in Hp. trans (seg log o b); [done|].
  destruct (Z.le_gt_cases o b); [by apply seg_prefix|].
  unfold seg. destruct (filter (fun x => o <= x < b) log) as [|x l'] eqn:E; [apply prefix_nil|].
  assert (Hx : x ∈ x :: l') by (by left). rewrite <- E in Hx. apply list_elem_of_filter in Hx as [Hx _]. lia.
Qed.
End log.

(** C4. Whatever the application calls, the brokers answer and the threads do, in any
    order, with less than 2^31 calls: when the messages of a Fetch response that is taken are those
    of the log from the fetch offset on ([fetch_ok]), the messages the application gets in each version of a
    partition are a beginning of the log from where the fetcher started in that version, without
    a gap, a duplicate or a change of order; when it started over within a
    version, they are a beginning of the stretches of the log it went through.  In
    the present version, once the fetcher has taken note of it, the messages the application got,
    followed by those in the queue, are exactly the stretches up to the
    fetch offset. *)
Theorem consumer_delivers_log cf log es now t :
  StronglySorted Z.lt log -> data_run_ok cf log es (rd_kafka_toppar_new cf now) ->
  tp_run cf es (rd_kafka_toppar_new cf now) = Ret t ->
  (forall w, exists to, length to = length (starts w (tp_out t)) /\ delivered w (tp_out t) `prefix_of` chain log (starts w (tp_out t)) to) /\
  (forall w o, starts w (tp_out t) = [o] -> delivered w (tp_out t) `prefix_of` filter (fun x => o <= x) log) /\
  let v := rktp_version t in
  rktp_fetch_version (tp_fet t) = v ->
  exists to, Forall2 Z.le (starts v (tp_out t)) to /\
    delivered v (tp_out t) ++ queued v (rkq_q (rktp_fetchq t)) = chain log (starts v (tp_out t)) to /\
    (fetch_offset (rktp_reader (tp_fet t)) = OFFSET_INVALID \/ last to = Some (fetch_offset (rktp_reader (tp_fet t)))).
Proof.
  intros Hlog Hok Hr. pose proof (data_run cf log Hlog es _ t (data_new cf log now) Hok Hr) as HD. split; [apply (d_past _ _ HD)|]. split.
  - intros w o Ho. destruct (d_past _ _ HD w) as (to & Hl & Hp). rewrite Ho in Hl, Hp. by eapply chain_one.
  - cbn zeta. intros Ev. destruct (d_now _ _ HD Ev) as (to & F & G & L). rewrite Ev in F, G. by exists to.
Qed.

(** ** The application's view *)

Fixpoint view_reach (cf : tp_conf) (es : list event) (v : view) (t : toppar) : outcome (view * toppar) :=
  match es with
  | [] => Ret (v, t)
  | e :: es => let! t' := tp_step cf e t in view_reach cf es (view_step e (new_msgs t t') v) t'
  end.

Lemma view_reaches cf log es v t :
  StronglySorted Z.lt log -> Forall (fun o => 0 <= o < 2 ^ 62) log -> Seen log v t -> Mig t -> view_run_ok cf log es v t ->
  exists v' t', view_reach cf es v t = Ret (v', t') /\ Seen log v' t'.
Proof.
  intros Hlog Hb. revert v t. induction es as [|e es IH]; intros v t H HM Hok; [by exists v, t|]. cbn [view_run_ok view_reach] in *.
  destruct Hok as [He Hes]. destruct (view_step_good cf log Hlog Hb e v t H HM He) as (t' & E & _ & HS & HM').
  rewrite E in *. cbn [obind]. by apply IH.
Qed.

(** C3. An application that starts the partition once, at an absolute offset, seeks to absolute
    offsets, resumes only when something is paused, does not pause between a seek and the
    first message after it (unless it never got one), does not stop the partition and calls less
    than 2^31 times: with Fetch responses that do not report an offset
    out of range and whose messages are those of the log from the
    fetch offset on, every step of the three threads, in any order and across moves
    between brokers, returns, and every message the application gets is the one it expects:
    the first of the log at or after its position, which is where it last started or seeked
    to, or just after its last message; pausing and resuming do not move it.  And it does get it: when
    nothing waits to be served, nothing is queued, nothing is paused, and the leader
    has no request out, one round of the broker thread, with a response that holds the
    expected message, hands it out.  The responses of [msgset_brings], MessageSets of
    MsgVersion 2 read by [rd_kafka_msgset_parse], are such. *)
Theorem consumer_refines_view cf log es now :
  StronglySorted Z.lt log -> Forall (fun o => 0 <= o < 2 ^ 62) log ->
  view_run_ok cf log es view0 (rd_kafka_toppar_new cf now) ->
  view_follows cf log es view0 (rd_kafka_toppar_new cf now) /\
  exists v t, view_reach cf es view0 (rd_kafka_toppar_new cf now) = Ret (v, t) /\
    forall b m p, at_rest b t -> v_flags v = 0 -> expected log v = Some m -> 0 < queued_min_msgs cf -> 0 < queued_max_msg_bytes cf ->
      brings log m p -> exists t', tp_run cf (round b p) t = Ret t' /\ new_msgs t t' = [m].
Proof.
  intros Hlog Hb Hok. pose proof (seen_new cf log now) as H0. pose proof (mig_new cf now) as M0.
  split; [by apply view_run|]. destruct (view_reaches cf log es view0 _ Hlog Hb H0 M0 Hok) as (v & t & E & H). exists v, t. split; [done|].
  intros b m p Hr Hf Hx H1 H2 Hbr. by eapply round_delivers.
Qed.

(** ** Moves between brokers *)

(** In any run, unless the partition is being removed, three of the
    operations that move it between brokers end every move: the partition is then at the
    broker it was last sent to, or where it was. *)
Theorem migration_converges cf es now t :
  tp_run cf es (rd_kafka_toppar_new cf now) = Ret t -> has_flag (flags_of t) F_REMOVE = false ->
  exists t', tp_run cf [E_migr 0; E_migr 0; E_migr 0] t = Ret t' /\ n_migr (tp_net t') = [] /\ rktp_next_leader t' = None /\
    rktp_leader t' = match rktp_next_leader t with Some n => Some n | None => rktp_leader t end.
Proof. intros Hr Hf. apply mig_ends; [|done]. eapply mig_run; [apply mig_new|exact Hr]. Qed.

(** ** A run *)

Definition demo_conf : tp_conf := mk_tp_conf OFFSET_END METHOD_BROKER 0 true true 500 1000 100 100000 true true 9.

(** The MessageSet with the messages 100 and 102. *)
Definition demo_log : list Z := [100; 102].
Definition demo_buf : outcome rd_kafka_buf :=
  rd_kafka_buf_new_shadow (batches_bytes [example_batch]) (zlen (batches_bytes [example_batch])) None.
Definition demo_reply (k : rd_kafka_buf) : fetch_part := msgset_part (CO := no_codecs) true 0 (fun _ => 5) 1 k 200 50.

Lemma demo_msgsets : exists k, demo_buf = Ret k /\ msgsets demo_log k [example_batch] example_batch 0.
Proof.
  destruct (shadow_view (batches_bytes [example_batch]) None) as (k & E & V & Ec & _); [split; vm_compute; reflexivity|].
  exists k. split; [exact E|]. split.
  - eexists _, _. split; [exact V|]. vm_compute. reflexivity.
  - rewrite Ec. apply (bool_decide_eq_true_1 _). vm_compute. reflexivity.
  - constructor; [apply example_batch_ok|constructor].
  - done.
  - constructor; [lia|constructor].
  - vm_compute. reflexivity.
Qed.

Definition demo_start (p : fetch_part) : list event :=
  [E_leader (Some 1); E_migr 0; E_start 100 None; E_serve] ++ round 1 p.

(** The conditions on a run whose responses are all good from offset 0 to
    [hi]. *)
Definition call_okb (t : toppar) : bool := rktp_version t + 1 <? 2 ^ 31.

Fixpoint data_okb (hi : Z) (es : list event) (t : toppar) : bool :=
  match es with
  | [] => true
  | e :: es =>
      match e with
      | E_start _ _ | E_stop _ | E_seek _ _ | E_pause _ _ => call_okb t
      | E_fetch_reply _ _ _ => (0 <=? fetch_offset (rktp_reader (tp_fet t))) && (fetch_offset (rktp_reader (tp_fet t)) <=? hi)
      | _ => true
      end && match tp_step demo_conf e t with Ret t' => data_okb hi es t' | _ => true end
  end.

Definition pause_okb (f : Z) : bool := (f =? F_APP_PAUSE) || (f =? F_LIB_PAUSE).
Definition started (v : view) : bool := match v_pos v with Some _ => true | None => false end.

Fixpoint view_okb (hi : Z) (es : list event) (v : view) (t : toppar) : bool :=
  match es with
  | [] => true
  | e :: es =>
      match e with
      | E_start o _ => negb (started v) && (0 <=? o) && call_okb t
      | E_seek o _ => started v && (0 <=? o) && call_okb t
      | E_pause true f => started v && (negb (v_any v) || v_got v) && pause_okb f && call_okb t
      | E_pause false f => started v && negb (v_flags v =? 0) && pause_okb f && call_okb t
      | E_stop _ => false
      | E_fetch_reply _ _ p => negb (fp_ErrorCode p =? ERR_OFFSET_OUT_OF_RANGE) && (fetch_offset (rktp_reader (tp_fet t)) <=? hi)
      | _ => true
      end && match tp_step demo_conf e t with Ret t' => view_okb hi es (view_step e (new_msgs t t') v) t' | _ => true end
  end.

Definition replies_bring (log : list Z) (hi : Z) (es : list event) : Prop :=
  Forall (fun e => match e with E_fetch_reply _ _ p => brings log hi p | _ => True end) es.

Lemma data_okb_ok log hi es t : replies_bring log hi es -> data_okb hi es t = true -> data_run_ok demo_conf log es t.
Proof.
  intros F. revert t. induction F as [|e es He _ IH]; intros t; cbn [data_okb data_run_ok]; [done|].
  intros [H1 H2]%andb_true_iff. split; [|destruct (tp_step demo_conf e t); [by apply IH|done..]].
  destruct e; cbn [data_event_ok]; try done; try (unfold call_okb in H1; lia).
  intros req _ _ _ _ _ _. apply andb_true_iff in H1 as [H3 H4]. apply Z.leb_le in H3, H4. split; [done|]. by eapply brings_parser.
Qed.

Lemma view_okb_ok log hi es v t : replies_bring log hi es -> view_okb hi es v t = true -> view_run_ok demo_conf log es v t.
Proof.
  intros F. revert v t. induction F as [|e es He _ IH]; intros v t; cbn [view_okb view_run_ok]; [done|].
  intros [H1 H2]%andb_true_iff. split; [|destruct (tp_step demo_conf e t); [by apply IH|done..]].
  assert (Hs : forall b, started v = b -> if b then v_pos v <> None else v_pos v = None) by (intros b <-; unfold started; by destruct (v_pos v)).
  unfold call_okb, pause_okb in H1. destruct e as [o rq|rq|o rq|pa f|o| | | | |i e f|i e pe o|i e pe| |b|i e p|b|i|now]; cbn [view_event_ok]; try done.
  - bool_hyps. specialize (Hs false). destruct (started v); [done|]. split_and!; [by apply Hs|lia|lia].
  - bool_hyps. specialize (Hs true). destruct (started v); [|done]. split_and!; [by apply Hs|lia|lia].
  - unfold pause_flag. destruct pa; apply andb_true_iff in H1 as [[[H3 H4]%andb_true_iff H5]%andb_true_iff H6]; specialize (Hs true H3); cbn in Hs.
    + apply orb_true_iff in H4, H5. split_and!; [done| | |lia].
      * destruct (v_any v), (v_got v); auto. by destruct H4.
      * destruct H5; [left|right]; lia.
    + apply orb_true_iff in H5. split_and!; [done| | |lia].
      * destruct (Z.eqb_spec (v_flags v) 0); [done|done].
      * destruct H5; [left|right]; lia.
  - intros req _ _. apply andb_true_iff in H1 as [H3 H4]. apply Z.leb_le in H4. split.
    + destruct (Z.eqb_spec (fp_ErrorCode p) ERR_OFFSET_OUT_OF_RANGE); done.
    + intros _ _ _ Ho. eapply brings_parser; [exact He|]. lia.
Qed.

Lemma consumer_delivers_log_witness :
  exists k t, demo_buf = Ret k /\
    tp_run demo_conf (demo_start (demo_reply k) ++ [E_consume]) (rd_kafka_toppar_new demo_conf 1000000) = Ret t /\
    delivered 2 (tp_out t) = [100; 102] /\ delivered 2 (tp_out t) `prefix_of` filter (fun x => 100 <= x) demo_log.
Proof.
  destruct demo_msgsets as (k & Ek & Hk). exists k.
  destruct (tp_run demo_conf (demo_start (demo_reply k) ++ [E_consume]) (rd_kafka_toppar_new demo_conf 1000000)) as [t| |] eqn:E;
    [|vm_compute in Ek; injection Ek as <-; vm_compute in E; done..].
  exists t. split; [exact Ek|]. split; [done|].
  assert (Hs : starts 2 (tp_out t) = [100] /\ delivered 2 (tp_out t) = [100; 102]).
  { vm_compute in Ek. injection Ek as <-. vm_compute in E. injection E as <-. by vm_compute. }
  split; [apply Hs|]. refine (proj1 (proj2 (consumer_delivers_log demo_conf demo_log _ _ t _ _ E)) 2 100 (proj1 Hs)).
  - repeat constructor; lia.
  - eapply (data_okb_ok demo_log 102).
    + repeat constructor. by eapply msgset_brings; [exact Hk|vm_compute; right; left|..].
    + vm_compute in Ek. injection Ek as <-. vm_compute. reflexivity.
Defined.

Definition demo_pause (p : fetch_part) : list event :=
  demo_start p ++ [E_pause true F_APP_PAUSE; E_serve; E_pause false F_APP_PAUSE; E_serve].

Lemma consumer_refines_view_witness :
  exists k v t t', demo_buf = Ret k /\
    view_reach demo_conf (demo_pause (demo_reply k)) view0 (rd_kafka_toppar_new demo_conf 1000000) = Ret (v, t) /\ v_pos v = Some 101 /\
    tp_run demo_conf (round 1 (demo_reply k)) t = Ret t' /\ new_msgs t t' = [102].
Proof.
  destruct demo_msgsets as (k & Ek & Hk). exists k.
  assert (Hb : brings demo_log 102 (demo_reply k)) by (by eapply msgset_brings; [exact Hk|vm_compute; right; left|..]).
  destruct (consumer_refines_view demo_conf demo_log (demo_pause (demo_reply k)) 1000000) as (_ & v & t & E & Hp).
  - repeat constructor; lia.
  - repeat constructor; lia.
  - eapply (view_okb_ok demo_log 102); [unfold replies_bring; repeat (apply Forall_cons; split; [first [exact I|exact Hb]|]); by apply Forall_nil|]. vm_compute in Ek. injection Ek as <-. vm_compute. reflexivity.
  - assert (Hx : at_rest 1 t /\ v_flags v = 0 /\ expected demo_log v = Some 102 /\ v_pos v = Some 101).
    { vm_compute in Ek. injection Ek as <-. vm_compute in E. injection E as <- <-. split; [split; by vm_compute|by vm_compute]. }
    destruct Hx as (X1 & X2 & X3 & X4). destruct (Hp 1 102 (demo_reply k) X1 X2 X3 ltac:(reflexivity) ltac:(reflexivity) Hb) as (t' & R & M).
    exists v, t, t'. exact (conj Ek (conj E (conj X4 (conj R M)))).
Defined.

Lemma migration_converges_witness :
  exists t t', tp_run demo_conf [E_leader (Some 1); E_migr 0; E_leader (Some 2); E_leader (Some 3)] (rd_kafka_toppar_new demo_conf 1000000) = Ret t /\
    rktp_leader t = Some 1 /\ tp_run demo_conf [E_migr 0; E_migr 0; E_migr 0] t = Ret t' /\ rktp_leader t' = Some 3.
Proof.
  destruct (tp_run demo_conf [E_leader (Some 1); E_migr 0; E_leader (Some 2); E_leader (Some 3)] (rd_kafka_toppar_new demo_conf 1000000)) as [t| |] eqn:E;
    [|vm_compute in E; done..].
  destruct (migration_converges demo_conf _ _ t E) as (t' & R & _ & _ & L).
  - vm_compute in E. injection E as <-. reflexivity.
  - exists t, t'. split; [done|]. rewrite L. split; [vm_compute in E; injection E as <-; reflexivity|]. split; [done|].
    vm_compute in E. injection E as <-. reflexivity.
Defined.

(** ** What the discipline excludes *)

(** A response with the messages of the log before [upto], and one without an
    offset in range. *)
Definition stored (log : list Z) (upto : Z) : fetch_part :=
  mk_fetch_part 0 1000000 1 (fun v rd q =>
    Ret (set_fetch_offset (Z.max (fetch_offset rd) upto) rd,
         foldl (fun q o => (rd_kafka_q_enq q (rd_kafka_op_new_fetch_msg 0 v o 0 None 1 None id)).1) q
           (filter (fun o => fetch_offset rd <= o < upto) log), 0)).
Definition out_of_range : fetch_part := mk_fetch_part ERR_OFFSET_OUT_OF_RANGE 0 0 (fun _ rd q => Ret (rd, q, 0)).

Definition long_log : list Z := Z.of_nat <$> seq 0 100.
Definition fetch_up_to (n : Z) : list event := [E_decide; E_fetch 1; E_fetch_reply 0 0 (stored long_log n)].
Definition got (es : list event) : option (list Z) :=
  match tp_run demo_conf ([E_leader (Some 1); E_migr 0] ++ es) (rd_kafka_toppar_new demo_conf 1000000) with
  | Ret t => Some (omap any_msg (tp_out t))
  | _ => None
  end.
Definition four : list event := [E_start 10 None; E_serve] ++ fetch_up_to 15 ++ repeat E_consume 4.

(** Resuming a partition that is not paused starts over where it last started; a
    pause after a seek undoes the seek; an offset reported out of range for a request
    from before a seek is handled as if it came after it, and starts over at the
    end; a seek to the stored offset is refused and leaves the
    partition silent; a second stop while the first is being handled fails an
    assertion. *)
Theorem view_discipline_needed :
  got (four ++ [E_pause false F_APP_PAUSE; E_serve] ++ fetch_up_to 20 ++ repeat E_consume 2) = Some [10; 11; 12; 13; 10; 11] /\
  got (four ++ [E_seek 50 None; E_serve; E_pause true F_APP_PAUSE; E_serve; E_pause false F_APP_PAUSE; E_serve] ++ fetch_up_to 60 ++ repeat E_consume 2) =
    Some [10; 11; 12; 13; 14; 15] /\
  got (four ++ [E_decide; E_fetch 1; E_seek 50 None; E_fetch_reply 0 0 out_of_range; E_serve; E_serve; E_offset_reply 0 0 (Some 90); E_serve] ++
       [E_clock 2000000] ++ fetch_up_to 95 ++ repeat E_consume 2) = Some [10; 11; 12; 13; 90; 91] /\
  got (four ++ [E_seek OFFSET_STORED (Some 7); E_serve] ++ fetch_up_to 20 ++ repeat E_consume 20) = Some [10; 11; 12; 13] /\
  got ([E_start OFFSET_STORED None; E_serve; E_offset_fetch_reply 0 0 0 10; E_serve] ++ fetch_up_to 15 ++
       [E_consume; E_stop (Some 1); E_serve; E_stop (Some 2); E_serve]) = None.
Proof. repeat split; vm_compute; reflexivity. Qed.
